(* ===== verification/_CoqProject ===== *)
-Q . S2P
Prelude.v
AmmError.v
Config.v
BigNum.v
FullMath.v
TickMath.v
TickOfPrice.v
LiquidityMath.v
SqrtPriceMath.v
SwapMath.v
TickIndex.v
TickBitmap.v
BitmapExtension.v
DynamicFee.v
Oracle.v
Operation.v
Token.v
PerpMarket.v
PerpShield.v
JitGuard.v
Rewards.v
TickState.v
LimitMatch.v
TickArray.v
Pool.v
ProtocolFee.v
Shield.v
PoolBitmap.v
LimitOrder.v
LimitOrderCorrect.v
Position.v
SwapState.v
SwapLoop.v
Swap.v
SwapCorrect.v
SwapTrader.v
ArrayStore.v
PositionLedger.v
SweepLedger.v
LiquidityInvariant.v
PoolAccounts.v
FeeLedger.v
SwapLedger.v
ShieldProgram.v
NftPosition.v
RecordUpdate.v
DriftError.v
DriftMath.v
DriftSpotMarket.v
DriftTypes.v
DriftSpotBalance.v
DriftInsurance.v
Router.v
PoolCreation.v
PositionV2.v
DriftOracle.v
DriftOrderMath.v
DriftAmm.v
DriftSpread.v
DriftPosition.v
DriftMarketMaker.v
DriftUser.v
DriftWithdraw.v
DriftCurve.v
DriftPools.v
DriftFunding.v
DriftOracleMap.v
DriftMargin.v
DriftLiquidation.v
DriftFees.v
DriftOrderParams.v
DriftOrders.v
DriftSpotOrders.v
DriftRevenueShare.v
DriftFills.v
DriftFillFlows.v
DriftFillBooks.v
