(* ===== verification/Prelude.v ===== *)
(** Verification of nebula-dex: the concentrated-liquidity exchange
    ([programs/amm]), the standalone shield ([programs/nebula-shield]), the
    position tokens ([programs/nebula-nft-position]) and the margin exchange
    ([programs/drift]).  File names below are relative to the program's src/.

    * The programs

    In the exchange a pool ([states/pool.rs]) trades two tokens along a square-root price.
    Liquidity providers open positions between two ticks
    ([instructions/open_position.rs] and its neighbours); the ticks that bound
    them live in tick arrays ([states/tick_array.rs]), which a bitmap in the
    pool and one in an extension account index.  A swap ([instructions/swap.rs])
    walks from one initialized tick to the next, trades against the liquidity
    in between ([libraries/swap_math.rs]), then against the limit orders resting
    on the tick ([states/limit_order.rs]), crosses it, and books fees to the
    providers, the protocol and the fund.  A dynamic fee follows a volatility
    accumulator ([states/pool_fee.rs]); an oracle records the ticks
    ([states/oracle.rs]); a shield acts on a swap before it runs
    ([instructions/nebula_shield.rs]).  Rewards accrue per unit of liquidity.
    Beside the pools are perpetual markets with committed positions and a
    circuit breaker ([states/perp_market.rs], [states/perp_shield.rs]).

    The standalone shield keeps a treasury's sweeps and guards for liquidity
    removals in accounts of its own; the position tokens record who holds which
    position.  The two do not call the exchange.

    The margin exchange lends tokens in spot markets ([state/spot_market.rs]) whose
    lenders are insured by stakers ([controller/insurance.rs]), and trades
    perpetual contracts against a virtual market maker ([controller/amm.rs],
    [math/cp_curve.rs]), whose curve is repegged and deepened from its own fees
    ([controller/repeg.rs]).  Longs and shorts pay each other funding
    ([controller/funding.rs]).  A user's deposits cover his positions by margin
    requirements ([math/margin.rs]) at oracle prices that are first judged
    ([math/oracle.rs]); a user who does not meet them is liquidated, and a bankrupt
    one's loss is paid by the insurance, the market's fees and everyone else
    ([controller/liquidation.rs]).

    * Conventions

    A result is [Ok], [Err] with the source's error code, or [Panic]: an
    unchecked overflow (the program is built with overflow checks), an index out
    of range, a failed unwrap or narrowing.  A machine integer is a [Z];
    [uchk], [ucheck], [uwrap], [usat] are the plain, checked, wrapping and
    saturating operations at a width.  A loop without a static bound has fuel
    and returns [None] when it runs out ([run]).  Account constraints of the
    framework are boolean guards ([ConstraintViolated] where the source names no
    code); events, logs, bumps, padding and account layout are left out.  An
    instruction returns the accounts it writes and the token transfers it asks
    for.  Code outside the repository is a parameter: the operations of the
    [uint] crate beyond their documented results ([UintLib], [uint_std] being an
    implementation), the integer roots ([Roots]), what the oracle programs' crates
    read out of an account ([OracleAccount]), the transfer-fee functions of a mint ([Mint]), the token
    programs ([TokenProgram]), derived addresses and the program's fixed keys.

    For [programs/drift] a result is a [DriftResult], the same type with that
    program's [ErrorCode]; [safe_u], [safe_i], [cast_u], [cast_i] at a width are
    the source's safe_ and cast operations, [ichk] a plain operation, [validate]
    its macro.  Its accounts have up to ninety fields, so they are changed with
    the record update of [RecordUpdate], [r <| f := v |>].  A function that changes an
    account through a mutable reference returns the account; [Markets] are the
    maps of markets an instruction loads.

    * Files

    Foundations: [Prelude] (this file: outcomes, integers, lists, sums, tactics),
    [AmmError] (error.rs), [BigNum] and [FullMath] (libraries/big_num.rs,
    full_math.rs, unsafe_math.rs, fixed_point_64.rs).

    Libraries: [TickMath] and [TickOfPrice] (libraries/tick_math.rs),
    [LiquidityMath], [SqrtPriceMath], [SwapMath], [TickBitmap], after the files
    of the same names under libraries/.

    State: [Config] and [Operation] (states/config.rs, operation_account.rs and
    their admin instructions), [TickIndex], [TickState], [TickArray]
    (states/tick_array.rs), [LimitMatch] (theorems on the matching of
    [TickState]), [BitmapExtension], [DynamicFee], [Oracle], [Rewards], [Pool]
    and [PoolBitmap] (states/pool.rs), [Token] (util/token.rs).

    Instructions: [Position] (positions), [LimitOrder] (limit orders),
    [SwapState], [SwapLoop] ([swap_internal]) and [Swap] ([swap], [swap_v2]),
    [ProtocolFee] (fee collection, tipy.rs), [Shield] and [JitGuard]
    (states/nebula_shield.rs, instructions/nebula_shield.rs, arb_sweep.rs,
    jit_protection.rs), [PerpMarket] and [PerpShield].

    [Router] (instructions/swap_router_base_in.rs), [PoolCreation] (creation of
    pools and the registry of mints), [PositionV2] (second versions).

    Composition: [ArrayStore] (the tick arrays of a pool as one function from
    ticks, with their counters and bitmaps), [PositionLedger] and
    [LiquidityInvariant] (what each instruction does to the ledger),
    [PoolAccounts] (the instructions as steps on all accounts of a pool),
    [SwapLedger], [FeeLedger], [LimitOrderCorrect], [SwapCorrect], [SwapTrader],
    [SweepLedger].

    Other programs: [ShieldProgram] (programs/nebula-shield), [NftPosition]
    (programs/nebula-nft-position).

    programs/drift, foundations: [RecordUpdate], [DriftError] (error.rs),
    [DriftMath] (math/safe_math.rs, casting.rs, helpers.rs, stats.rs and others),
    [DriftTypes] (the accounts of state/perp_market.rs and state/user.rs).

    Spot markets: [DriftSpotMarket] (state/spot_market.rs, math/spot_balance.rs),
    [DriftSpotBalance] (controller/spot_balance.rs), [DriftWithdraw]
    (math/spot_withdraw.rs), [DriftInsurance] (math/insurance.rs,
    controller/insurance.rs, instructions/if_staker.rs).

    Perpetual markets: [DriftAmm] (math/amm.rs), [DriftSpread]
    (math/amm_spread.rs and the swap of controller/amm.rs), [DriftCurve]
    (math/cp_curve.rs, math/repeg.rs, controller/repeg.rs), [DriftPools] (the pools
    of controller/amm.rs), [DriftFunding] (math/funding.rs, controller/funding.rs),
    [DriftPosition] (controller/position.rs, math/pnl.rs), with the value of the
    market maker's position in [DriftMarketMaker].

    Users and risk: [DriftUser] (state/user.rs), [DriftOrderMath] (math/orders.rs,
    math/auction.rs, math/matching.rs), [DriftOracle] (math/oracle.rs,
    state/oracle.rs), [DriftOracleMap] (state/oracle_map.rs and the maps of
    markets), [DriftMargin] (math/margin.rs, state/margin_calculation.rs),
    [DriftLiquidation] (math/liquidation.rs, state/liquidation_mode.rs and the
    bankruptcies of controller/liquidation.rs).

    Orders: [DriftFees] (math/fees.rs and the fee structure of state/state.rs),
    [DriftOrderParams] (state/order_params.rs, validation/order.rs),
    [DriftOrders] (placing, modifying, cancelling and triggering in
    controller/orders.rs), [DriftSpotOrders] (the same for spot orders, and every
    operation on orders as one relation), [DriftRevenueShare]
    (state/revenue_share.rs, controller/revenue_share.rs), [DriftFills] (the fills of
    controller/orders.rs, math/fulfillment.rs, math/amm_jit.rs) with its theorems in
    [DriftFillFlows] and [DriftFillBooks].

    * What the theorems show

    The abstract state of a pool is its list of positions.  [PoolAccounts]
    refines it: after every sequence of position and order instructions (not of
    swaps, and with no order increased at a tick left uninitialized), the net
    and gross liquidity of every tick and the liquidity of the pool are those
    the list determines, and every initialized tick is registered in its array
    and in the bitmap.  [SwapLedger] shows the step of a swap that crosses a
    tick keeps the same correspondence, and [FeeLedger] that what the positions
    can collect never exceeds the fees the pool has taken in.  [SwapCorrect],
    [SwapMath] and [SqrtPriceMath] bound a swap by its amount and its price
    limit, put every step on the curve rounded in the pool's favour, and make
    the computed price optimal; [PoolBitmap] and [TickArray] show that the next
    tick found is the nearest, with a fuel that suffices.  [LimitMatch] and
    [LimitOrderCorrect] show the matching fair, first in first out, the order
    book solvent up to the dust exhibited, and an order withdrawable at any time
    that its tick's array counts its tick; [TickOfPrice] shows the logarithm
    of the source to be the floor of the price's tick.
    [SwapTrader] gives the trader's guarantees with fee-taking mints and the
    agreement of both swap instructions.  [Shield], [SweepLedger], [JitGuard],
    [ProtocolFee], [PerpMarket] and [PerpShield] state what their components
    guarantee, and what they do not: several theorems exhibit behaviour that the
    program does not intend, such as a swap that never ends, a swap whose price
    moves back, an order left unregistered, a breaker that cannot arm itself and a position that can be
    closed twice.

    For [programs/drift] the books are shown exact first: the totals of a spot
    market are the sums of its balances ([DriftSpotBalance]), those of a perpetual
    market the sums over its positions ([DriftPosition]), the shares of the
    insurance fund the sum of its stakes, each worth no less after than before
    ([DriftInsurance]); settling pools, funding and bankruptcies moves amounts
    between named accounts and makes none ([DriftPools], [DriftFunding],
    [DriftLiquidation]).  The market maker keeps the value of its position through
    any run of fills while no reference price offset is set
    ([DriftMarketMaker]), and stays on its curve through every
    adjustment ([DriftCurve]).  [DriftOracle] says what a price that is admitted
    satisfies, [DriftMargin] that the initial requirement implies the maintenance
    requirement, [DriftUser] and [DriftLiquidation] which states a liquidation goes
    through and what it may touch: the modes of a liquidation are a record of
    operations with laws, met by the cross and by the isolated mode.
    [DriftSpotOrders] shows that the counters of a user and the bids and asks of
    his positions, from which margins are calculated, stay those of his open
    orders whatever is done with them, and [DriftFees] that the parts of a fee add
    up to it.  [DriftFillFlows] shows that a match of two orders conserves base
    and quote over everyone it pays, [DriftFillBooks] that fills keep the books of
    the orders, and [DriftRevenueShare] that a sweep pays every fee once.

    * Fuel

    [pool_next_array_nearest] gives the fuel with which the search over the
    bitmaps returns.  The two loops of [swap_internal] have no bound of their
    own - [small_swap_never_ends] is a case without any - so the theorems on
    swaps hold for every fuel with which the run ends.

    The searches and loops of [programs/drift] are over lists of positions, so
    they need no fuel.

    * Not modelled

    In [programs/amm]: minting and metadata of position tokens, account loading
    and the creation of token accounts, which are calls of other programs.  In
    [programs/drift]: the loops that choose makers and fill against them one by
    one and the fills of spot orders (controller/orders.rs), the liquidate_
    handlers and the settlement of profit (controller/pnl.rs), of which the
    functions they call are modelled; the entry points and administrative setters
    (instructions/), the pool of liquidity providers and the swap messages
    (state/lp_pool.rs, state/swift), which are not reached by the theorems.  The
    command-line client prints and calls the network. *)
From stdpp Require Export prelude.
From Stdlib Require Export ZArith Lia.
#[global] Open Scope Z_scope.

(** * Outcomes: Rust's [Result] plus the panics of overflow-checked code *)

(** [Ok] and [Err] are Rust's [Result]; [Panic] is a Rust panic (overflow
    checks are on in every profile of the workspace's [Cargo.toml], so an
    arithmetic overflow, a division by zero or an out-of-bounds index aborts
    the transaction). *)
Inductive outcome (E A : Type) : Type :=
| Ok (a : A)
| Err (e : E)
| Panic.
Arguments Ok {E A} a.
Arguments Err {E A} e.
Arguments Panic {E A}.

(** Sequencing: the [?] operator of Rust. *)
Definition obind {E A B} (m : outcome E A) (f : A -> outcome E B) : outcome E B :=
  match m with
  | Ok a => f a
  | Err e => Err e
  | Panic => Panic
  end.

Declare Scope outcome_scope.
Delimit Scope outcome_scope with outcome.
#[global] Open Scope outcome_scope.

Notation "'let!' x ':=' m 'in' k" := (obind m (fun x => k))
  (at level 10, x binder, m at level 100, k at level 200) : outcome_scope.
Notation "'do!' m 'in' k" := (obind m (fun _ => k))
  (at level 10, m at level 100, k at level 200) : outcome_scope.

(** [require!(b, e)] *)
Definition require {E} (b : bool) (e : E) : outcome E unit :=
  if b then Ok tt else Err e.

(** [opt.ok_or(e)?] *)
Definition ok_or {E A} (o : option A) (e : E) : outcome E A :=
  match o with Some a => Ok a | None => Err e end.

(** [opt.unwrap()] *)
Definition unwrap {E A} (o : option A) : outcome E A :=
  match o with Some a => Ok a | None => Panic end.

(** [assert!(b)] and the implicit checks of the language. *)
Definition assert_or_panic {E} (b : bool) : outcome E unit :=
  if b then Ok tt else Panic.

(** [r.is_ok()] *)
Definition is_ok {E A} (m : outcome E A) : bool :=
  match m with Ok _ => true | _ => false end.

Section OutcomeLemmas.
Context {E A B : Type}.
Implicit Types (m : outcome E A) (f : A -> outcome E B).

Lemma obind_Ok m f b :
  obind m f = Ok b <-> exists a, m = Ok a /\ f a = Ok b.
Proof. destruct m; simpl; naive_solver. Qed.

Lemma obind_assoc {C} m f (g : B -> outcome E C) :
  obind (obind m f) g = obind m (fun a => obind (f a) g).
Proof. by destruct m. Qed.

Lemma obind_ret m : obind m Ok = m.
Proof. by destruct m. Qed.

Lemma ok_or_Ok (o : option A) (e : E) a : ok_or o e = Ok a <-> o = Some a.
Proof. destruct o; simpl; naive_solver. Qed.

Lemma unwrap_Ok (o : option A) a : @unwrap E A o = Ok a <-> o = Some a.
Proof. destruct o; simpl; naive_solver. Qed.
End OutcomeLemmas.

(** ** Absence of panics *)

Lemma no_panic_bind {E A B} (m : outcome E A) (f : A -> outcome E B) :
  m <> Panic -> (forall a, m = Ok a -> f a <> Panic) -> obind m f <> Panic.
Proof. destruct m; simpl; naive_solver. Qed.

Lemma no_panic_ok {E A} (a : A) : @Ok E A a <> Panic.
Proof. done. Qed.

Lemma no_panic_err {E A} (e : E) : @Err E A e <> Panic.
Proof. done. Qed.

Lemma no_panic_require {E} b (e : E) : require b e <> Panic.
Proof. by destruct b. Qed.

Lemma no_panic_ok_or {E A} (o : option A) (e : E) : ok_or o e <> Panic.
Proof. by destruct o. Qed.

Lemma no_panic_if {E A} (b : bool) (m1 m2 : outcome E A) :
  (b = true -> m1 <> Panic) -> (b = false -> m2 <> Panic) -> (if b then m1 else m2) <> Panic.
Proof. destruct b; auto. Qed.

Lemma require_Ok {E} (b : bool) (e : E) u : require b e = Ok u <-> b = true.
Proof. destruct u, b; simpl; naive_solver. Qed.

Lemma assert_or_panic_Ok {E} (b : bool) u :
  @assert_or_panic E b = Ok u <-> b = true.
Proof. destruct u, b; simpl; naive_solver. Qed.

(** * Loops: a computation with fuel, [None] when the fuel ran out *)

Definition run (E A : Type) : Type := option (outcome E A).

Definition lift {E A} (m : outcome E A) : run E A := Some m.

Definition rbind {E A B} (m : run E A) (f : A -> run E B) : run E B :=
  match m with
  | Some (Ok a) => f a
  | Some (Err e) => Some (Err e)
  | Some Panic => Some Panic
  | None => None
  end.

Notation "'let?' x ':=' m 'in' k" := (rbind m (fun x => k))
  (at level 10, x binder, m at level 100, k at level 200) : outcome_scope.

Lemma rbind_Ok {E A B} (m : run E A) (f : A -> run E B) b :
  rbind m f = Some (Ok b) <-> exists a, m = Some (Ok a) /\ f a = Some (Ok b).
Proof. destruct m as [[]|]; simpl; naive_solver. Qed.

Lemma lift_Ok {E A} (m : outcome E A) a : lift m = Some (Ok a) <-> m = Ok a.
Proof. unfold lift. naive_solver. Qed.

(** * Machine integers as [Z] at a width *)

(** [in_u w x]: [x] is a value of the unsigned [w]-bit type; [in_i w x]: of
    the signed one. *)
Definition in_u (w x : Z) : Prop := 0 <= x < 2 ^ w.
Definition in_i (w x : Z) : Prop := - 2 ^ (w - 1) <= x < 2 ^ (w - 1).

Definition uok (w x : Z) : bool := (0 <=? x) && (x <? 2 ^ w).
Definition iok (w x : Z) : bool := (- 2 ^ (w - 1) <=? x) && (x <? 2 ^ (w - 1)).

Definition umax (w : Z) : Z := 2 ^ w - 1.

(** Overflow-checked arithmetic ([a + b], [a - b], [a * b] in Rust): the exact
    result if it fits, a panic otherwise. *)
Definition uchk {E} (w x : Z) : outcome E Z := if uok w x then Ok x else Panic.
Definition ichk {E} (w x : Z) : outcome E Z := if iok w x then Ok x else Panic.

(** [checked_add], [checked_sub], ...: [None] on overflow. *)
Definition ucheck (w x : Z) : option Z := if uok w x then Some x else None.
Definition icheck (w x : Z) : option Z := if iok w x then Some x else None.

(** [wrapping_add], ..., and the narrowing [as] casts. *)
Definition uwrap (w x : Z) : Z := x mod 2 ^ w.
Definition iwrap (w x : Z) : Z := (x + 2 ^ (w - 1)) mod 2 ^ w - 2 ^ (w - 1).

(** [saturating_add], ... *)
Definition usat (w x : Z) : Z := Z.max 0 (Z.min x (2 ^ w - 1)).
Definition isat (w x : Z) : Z := Z.max (- 2 ^ (w - 1)) (Z.min x (2 ^ (w - 1) - 1)).

(** Division and remainder: a zero divisor panics; Rust truncates towards
    zero, so signed division is [Z.quot] and its remainder [Z.rem]. *)
Definition udiv {E} (a b : Z) : outcome E Z := if b =? 0 then Panic else Ok (a / b).
Definition urem {E} (a b : Z) : outcome E Z := if b =? 0 then Panic else Ok (a mod b).
Definition idiv {E} (w a b : Z) : outcome E Z :=
  if b =? 0 then Panic else ichk w (Z.quot a b).
Definition irem {E} (w a b : Z) : outcome E Z :=
  if b =? 0 then Panic else let! _ := ichk w (Z.quot a b) in Ok (Z.rem a b).
Definition checked_udiv (a b : Z) : option Z := if b =? 0 then None else Some (a / b).

#[global] Arguments uwrap : simpl never.
#[global] Arguments iwrap : simpl never.
#[global] Arguments usat : simpl never.
#[global] Arguments isat : simpl never.

Lemma uok_spec w x : uok w x = true <-> in_u w x.
Proof. unfold uok, in_u. rewrite andb_true_iff, Z.leb_le, Z.ltb_lt. done. Qed.

Lemma iok_spec w x : iok w x = true <-> in_i w x.
Proof. unfold iok, in_i. rewrite andb_true_iff, Z.leb_le, Z.ltb_lt. done. Qed.

#[export] Instance in_u_dec w x : Decision (in_u w x).
Proof. unfold in_u. apply _. Defined.
#[export] Instance in_i_dec w x : Decision (in_i w x).
Proof. unfold in_i. apply _. Defined.

Section IntLemmas.
Context {E : Type}.

Lemma uchk_Ok w x y : @uchk E w x = Ok y <-> y = x /\ in_u w x.
Proof.
  unfold uchk. rewrite <- uok_spec. destruct (uok w x); naive_solver.
Qed.

Lemma ichk_Ok w x y : @ichk E w x = Ok y <-> y = x /\ in_i w x.
Proof.
  unfold ichk. rewrite <- iok_spec. destruct (iok w x); naive_solver.
Qed.

Lemma uchk_ok w x : in_u w x -> @uchk E w x = Ok x.
Proof. intros H. by apply uchk_Ok. Qed.

Lemma ichk_ok w x : in_i w x -> @ichk E w x = Ok x.
Proof. intros H. by apply ichk_Ok. Qed.

Lemma udiv_Ok a b q : @udiv E a b = Ok q <-> b <> 0 /\ q = a / b.
Proof. unfold udiv. destruct (Z.eqb_spec b 0); naive_solver. Qed.

Lemma urem_Ok a b r : @urem E a b = Ok r <-> b <> 0 /\ r = a mod b.
Proof. unfold urem. destruct (Z.eqb_spec b 0); naive_solver. Qed.

Lemma idiv_Ok w a b q :
  @idiv E w a b = Ok q <-> b <> 0 /\ q = Z.quot a b /\ in_i w (Z.quot a b).
Proof.
  unfold idiv. destruct (Z.eqb_spec b 0); [naive_solver|].
  rewrite ichk_Ok. naive_solver.
Qed.

Lemma irem_Ok w a b r :
  @irem E w a b = Ok r <-> b <> 0 /\ r = Z.rem a b /\ in_i w (Z.quot a b).
Proof.
  unfold irem. destruct (Z.eqb_spec b 0); [naive_solver|].
  rewrite obind_Ok. setoid_rewrite ichk_Ok. naive_solver.
Qed.
End IntLemmas.

Lemma ucheck_Some w x y : ucheck w x = Some y <-> y = x /\ in_u w x.
Proof. unfold ucheck. rewrite <- uok_spec. destruct (uok w x); naive_solver. Qed.

Lemma icheck_Some w x y : icheck w x = Some y <-> y = x /\ in_i w x.
Proof. unfold icheck. rewrite <- iok_spec. destruct (iok w x); naive_solver. Qed.

Lemma ucheck_ok w x : in_u w x -> ucheck w x = Some x.
Proof. intros H. by apply ucheck_Some. Qed.

Lemma icheck_ok w x : in_i w x -> icheck w x = Some x.
Proof. intros H. by apply icheck_Some. Qed.

Lemma checked_udiv_Some a b q : checked_udiv a b = Some q <-> b <> 0 /\ q = a / b.
Proof. unfold checked_udiv. destruct (Z.eqb_spec b 0); naive_solver. Qed.

Lemma uwrap_in w x : 0 <= w -> in_u w (uwrap w x).
Proof. intros. unfold uwrap, in_u. apply Z.mod_pos_bound. lia. Qed.

Lemma uwrap_id w x : in_u w x -> uwrap w x = x.
Proof. intros. by apply Z.mod_small. Qed.

Lemma iwrap_id w x : 0 < w -> in_i w x -> iwrap w x = x.
Proof.
  unfold in_i, iwrap. intros Hw [H1 H2].
  assert (2 ^ w = 2 * 2 ^ (w - 1)) by (rewrite <- Z.pow_succ_r by lia; f_equal; lia).
  rewrite Z.mod_small; lia.
Qed.

Lemma usat_in w x : 0 <= w -> in_u w (usat w x).
Proof. intros. unfold usat, in_u. lia. Qed.

Lemma usat_id w x : in_u w x -> usat w x = x.
Proof. unfold usat, in_u. lia. Qed.

Lemma usat_mono w x y : x <= y -> usat w x <= usat w y.
Proof. unfold usat. lia. Qed.

(** Wrapping subtraction is the group operation modulo [2 ^ w]. *)
Lemma uwrap_sub_sub w a b : uwrap w (a - uwrap w (a - b)) = uwrap w b.
Proof.
  unfold uwrap. rewrite Zminus_mod_idemp_r. f_equal. lia.
Qed.

Lemma uwrap_sub_l w a b : uwrap w (uwrap w a - b) = uwrap w (a - b).
Proof. unfold uwrap. apply Zminus_mod_idemp_l. Qed.

Lemma uwrap_sub_r w a b : uwrap w (a - uwrap w b) = uwrap w (a - b).
Proof. unfold uwrap. apply Zminus_mod_idemp_r. Qed.

Lemma uwrap_add_l w a b : uwrap w (uwrap w a + b) = uwrap w (a + b).
Proof. unfold uwrap. apply Zplus_mod_idemp_l. Qed.

Lemma uwrap_add_r w a b : uwrap w (a + uwrap w b) = uwrap w (a + b).
Proof. unfold uwrap. apply Zplus_mod_idemp_r. Qed.

Lemma uwrap_sub_mid w a b c : uwrap w (a - uwrap w b - c) = uwrap w (a - b - c).
Proof.
  replace (a - uwrap w b - c) with (a - c - uwrap w b) by lia. rewrite uwrap_sub_r. f_equal. lia.
Qed.

Lemma uwrap_iwrap w x : uwrap w (iwrap w x) = uwrap w x.
Proof. unfold uwrap, iwrap. rewrite Zminus_mod_idemp_l. f_equal. lia. Qed.

(** * Integer division lemmas shared by the fixed-point code *)

(** Ceiling division as the code writes it: [(a + (d - 1)) / d]. *)
Definition zceil (a d : Z) : Z := (a + (d - 1)) / d.

Lemma zceil_spec a d q : 0 < d -> zceil a d = q <-> (q - 1) * d < a <= q * d.
Proof.
  intros Hd. unfold zceil. split.
  - intros <-. pose proof (Z.div_mod (a + (d - 1)) d). pose proof (Z.mod_pos_bound (a + (d - 1)) d). nia.
  - intros H. symmetry. apply Z.div_unique with (r := a + (d - 1) - d * q); nia.
Qed.

Lemma zceil_bounds a d : 0 < d -> (zceil a d - 1) * d < a <= zceil a d * d.
Proof. intros Hd. by apply zceil_spec. Qed.

Lemma zfloor_bounds a d : 0 < d -> a / d * d <= a < (a / d + 1) * d.
Proof. intros Hd. pose proof (Z.div_mod a d). pose proof (Z.mod_pos_bound a d). nia. Qed.

Lemma zceil_nonneg a d : 0 < d -> 0 <= a -> 0 <= zceil a d.
Proof. intros. unfold zceil. apply Z.div_pos; lia. Qed.

Lemma zceil_le a d q : 0 < d -> a <= q * d -> zceil a d <= q.
Proof. intros Hd H. pose proof (zceil_bounds a d Hd). nia. Qed.

Lemma zceil_ge a d q : 0 < d -> (q - 1) * d < a -> q <= zceil a d.
Proof. intros Hd H. pose proof (zceil_bounds a d Hd). nia. Qed.

Lemma zceil_mono a b d : 0 < d -> a <= b -> zceil a d <= zceil b d.
Proof. intros. unfold zceil. apply Z.div_le_mono; lia. Qed.

Lemma zfloor_le_zceil a d : 0 < d -> a / d <= zceil a d.
Proof. intros. unfold zceil. apply Z.div_le_mono; lia. Qed.

Lemma zceil_le_zfloor_succ a d : 0 < d -> zceil a d <= a / d + 1.
Proof.
  intros Hd. apply zceil_le; [done|]. pose proof (zfloor_bounds a d Hd). lia.
Qed.

Lemma zceil_div_mod a d :
  0 < d -> 0 <= a -> zceil a d = a / d + (if 0 <? a mod d then 1 else 0).
Proof.
  intros Hd Ha. apply zceil_spec; [done|].
  pose proof (Z.div_mod a d). pose proof (Z.mod_pos_bound a d).
  destruct (Z.ltb_spec 0 (a mod d)); nia.
Qed.

Lemma zfloor_ge a d q : 0 < d -> q * d <= a -> q <= a / d.
Proof. intros. apply Z.div_le_lower_bound; lia. Qed.

Lemma zfloor_lt a d q : 0 < d -> a < q * d -> a / d < q.
Proof. intros. apply Z.div_lt_upper_bound; lia. Qed.

Lemma zfloor_le a d q : 0 < d -> a < (q + 1) * d -> a / d <= q.
Proof. intros. enough (a / d < q + 1) by lia. by apply zfloor_lt. Qed.

Lemma zdiv_in_u w a d : 0 < d -> 0 <= a -> a < 2 ^ w * d -> in_u w (a / d).
Proof.
  intros. split; [apply Z.div_pos; lia|]. apply Z.div_lt_upper_bound; lia.
Qed.

Lemma in_u_mul w1 w2 a b :
  0 <= w1 -> 0 <= w2 -> in_u w1 a -> in_u w2 b -> in_u (w1 + w2) (a * b).
Proof.
  unfold in_u. intros. rewrite Z.pow_add_r by lia. nia.
Qed.

Lemma in_u_of_bits w x :
  0 <= w -> 0 <= x -> (forall j, w <= j -> Z.testbit x j = false) -> in_u w x.
Proof.
  intros Hw Hx H. split; [done|]. destruct (Z.eq_dec x 0) as [->|]; [by apply Z.pow_pos_nonneg|].
  apply Z.log2_lt_pow2; [lia|]. destruct (Z.lt_ge_cases (Z.log2 x) w) as [|Hge]; [done|].
  apply H in Hge. by rewrite Z.bit_log2 in Hge by lia.
Qed.

Lemma in_u_weaken w1 w2 a : 0 <= w1 <= w2 -> in_u w1 a -> in_u w2 a.
Proof.
  unfold in_u. intros. pose proof (Z.pow_le_mono_r 2 w1 w2). lia.
Qed.

(** * Arrays: a Rust array or slice is a list; an index out of range panics *)

Definition idx {E A} (l : list A) (i : Z) : outcome E A :=
  if i <? 0 then Panic else unwrap (l !! Z.to_nat i).

Definition set_idx {E A} (l : list A) (i : Z) (a : A) : outcome E (list A) :=
  if (0 <=? i) && (i <? Z.of_nat (length l)) then Ok (<[Z.to_nat i := a]> l) else Panic.

Lemma idx_Ok {E A} (l : list A) i a :
  @idx E A l i = Ok a <-> 0 <= i /\ l !! Z.to_nat i = Some a.
Proof.
  unfold idx. destruct (Z.ltb_spec i 0).
  - split; [done|]. lia.
  - rewrite unwrap_Ok. naive_solver lia.
Qed.

Lemma set_idx_Ok {E A} (l l' : list A) i a :
  @set_idx E A l i a = Ok l' <->
  0 <= i < Z.of_nat (length l) /\ l' = <[Z.to_nat i := a]> l.
Proof.
  unfold set_idx.
  destruct (Z.leb_spec 0 i), (Z.ltb_spec i (Z.of_nat (length l))); simpl; naive_solver lia.
Qed.

Lemma set_idx_ok {E A} (l : list A) i a :
  0 <= i < Z.of_nat (length l) -> @set_idx E A l i a = Ok (<[Z.to_nat i := a]> l).
Proof. intros. by apply set_idx_Ok. Qed.

(** Run a fallible function over a list, left to right. *)
Fixpoint mapO {E A B} (f : A -> outcome E B) (l : list A) : outcome E (list B) :=
  match l with
  | [] => Ok []
  | a :: l => let! b := f a in let! bs := mapO f l in Ok (b :: bs)
  end.

Lemma mapO_Ok {E A B} (f : A -> outcome E B) l bs :
  mapO f l = Ok bs <-> Forall2 (fun a b => f a = Ok b) l bs.
Proof.
  revert bs. induction l as [|a l IH]; intros bs; simpl.
  - split; [intros [= <-]; constructor|]. by inversion 1.
  - rewrite obind_Ok. setoid_rewrite obind_Ok. split.
    + intros (b & Hb & bs' & Hbs & [= <-]). constructor; [done|]. by apply IH.
    + inversion 1; subst. eexists. split; [done|]. eexists. split; [by apply IH|done].
Qed.

(** A total pointwise result makes [mapO] total. *)
Lemma mapO_total {E A B} (f : A -> outcome E B) (g : A -> B) l :
  (forall a, a ∈ l -> f a = Ok (g a)) -> mapO f l = Ok (map g l).
Proof.
  induction l as [|a l IH]; intros H; simpl; [done|].
  rewrite H by (left). simpl. rewrite IH by (intros; apply H; by right). done.
Qed.

(** The indices [0 .. n - 1] of a Rust [for] loop. *)
Definition range_z (n : nat) : list Z := Z.of_nat <$> seq 0 n.

Lemma range_z_lookup n i : (i < n)%nat -> range_z n !! i = Some (Z.of_nat i).
Proof.
  intros. unfold range_z. rewrite list_lookup_fmap, lookup_seq_lt by done. done.
Qed.

Lemma elem_of_range_z n i : i ∈ range_z n <-> 0 <= i < Z.of_nat n.
Proof.
  unfold range_z. rewrite list_elem_of_fmap. setoid_rewrite elem_of_seq. split.
  - intros (k & -> & ?). lia.
  - intros ?. exists (Z.to_nat i). lia.
Qed.

Lemma length_range_z n : length (range_z n) = n.
Proof. unfold range_z. by rewrite length_fmap, length_seq. Qed.

(** * Automation *)

Create HintDb outcome.
#[export] Hint Rewrite @obind_Ok @require_Ok @ok_or_Ok @unwrap_Ok @assert_or_panic_Ok
  @uchk_Ok @ichk_Ok @udiv_Ok @urem_Ok @idiv_Ok @irem_Ok ucheck_Some icheck_Some
  checked_udiv_Some @idx_Ok @set_idx_Ok : outcome.

Create HintDb no_panic.
#[export] Hint Resolve no_panic_bind no_panic_ok no_panic_err no_panic_require no_panic_ok_or
  no_panic_if : no_panic.

Create HintDb ints.
#[export] Hint Resolve uwrap_in usat_in : ints.

(** Turn boolean tests into propositions, in hypotheses and the goal. *)
Ltac zbool :=
  repeat match goal with
  | H : andb _ _ = true |- _ => apply andb_true_iff in H as [? ?]
  | H : orb _ _ = false |- _ => apply orb_false_iff in H as [? ?]
  | H : negb _ = true |- _ => apply negb_true_iff in H
  | H : negb _ = false |- _ => apply negb_false_iff in H
  | H : (_ <=? _) = true |- _ => apply Z.leb_le in H
  | H : (_ <=? _) = false |- _ => apply Z.leb_gt in H
  | H : (_ <? _) = true |- _ => apply Z.ltb_lt in H
  | H : (_ <? _) = false |- _ => apply Z.ltb_ge in H
  | H : (_ =? _) = true |- _ => apply Z.eqb_eq in H
  | H : (_ =? _) = false |- _ => apply Z.eqb_neq in H
  | H : bool_decide _ = true |- _ => apply bool_decide_eq_true in H
  | H : bool_decide _ = false |- _ => apply bool_decide_eq_false in H
  | |- andb _ _ = true => apply andb_true_iff; split
  | |- (_ <=? _) = true => apply Z.leb_le
  | |- (_ <=? _) = false => apply Z.leb_gt
  | |- (_ <? _) = true => apply Z.ltb_lt
  | |- (_ <? _) = false => apply Z.ltb_ge
  | |- (_ =? _) = true => apply Z.eqb_eq
  | |- (_ =? _) = false => apply Z.eqb_neq
  end.

(** One inversion step of a hypothesis that says a computation succeeded. *)
Ltac ok_step :=
  match goal with
  | H : obind _ _ = Ok _ |- _ => apply obind_Ok in H as (? & ? & H)
  | H : rbind _ _ = Some (Ok _) |- _ => apply rbind_Ok in H as (? & ? & H)
  | H : lift _ = Some (Ok _) |- _ => apply lift_Ok in H
  | H : require _ _ = Ok _ |- _ => apply require_Ok in H
  | H : ok_or _ _ = Ok _ |- _ => apply ok_or_Ok in H
  | H : unwrap _ = Ok _ |- _ => apply unwrap_Ok in H
  | H : assert_or_panic _ = Ok _ |- _ => apply assert_or_panic_Ok in H
  | H : uchk _ _ = Ok _ |- _ => apply uchk_Ok in H as [? ?]
  | H : ichk _ _ = Ok _ |- _ => apply ichk_Ok in H as [? ?]
  | H : udiv _ _ = Ok _ |- _ => apply udiv_Ok in H as [? ?]
  | H : urem _ _ = Ok _ |- _ => apply urem_Ok in H as [? ?]
  | H : idiv _ _ _ = Ok _ |- _ => apply idiv_Ok in H as (? & ? & ?)
  | H : irem _ _ _ = Ok _ |- _ => apply irem_Ok in H as (? & ? & ?)
  | H : ucheck _ _ = Some _ |- _ => apply ucheck_Some in H as [? ?]
  | H : icheck _ _ = Some _ |- _ => apply icheck_Some in H as [? ?]
  | H : checked_udiv _ _ = Some _ |- _ => apply checked_udiv_Some in H as [? ?]
  | H : idx _ _ = Ok _ |- _ => apply idx_Ok in H as [? ?]
  | H : set_idx _ _ _ = Ok _ |- _ => apply set_idx_Ok in H as [? ?]
  | H : Ok _ = Ok _ |- _ => injection H as H
  | H : Err _ = Ok _ |- _ => discriminate H
  | H : Panic = Ok _ |- _ => discriminate H
  | H : Some _ = None |- _ => discriminate H
  | H : None = Some _ |- _ => discriminate H
  | H : Some _ = Some _ |- _ => injection H as H
  | x : unit |- _ => destruct x
  end.

(** Invert everything, substituting the equations that appear. *)
Ltac ok_inv := repeat (ok_step; simpl in *; subst).

(** Discharge range conditions. *)
Ltac range := unfold in_u, in_i, umax in *; lia.

(** Closed side conditions, by evaluation. *)
Ltac by_compute := vm_compute; repeat split; first [reflexivity | discriminate].

(** * Sums over lists *)

Section Sums.
Context {A : Type}.
Implicit Types (f g : A -> Z) (l : list A).

Definition sum_z f l : Z := foldr (fun a acc => f a + acc) 0 l.

Lemma sum_z_ext f g l : Forall (fun a => f a = g a) l -> sum_z f l = sum_z g l.
Proof. induction 1 as [|a l Ha _ IH]; [done|]. unfold sum_z in *. simpl. by rewrite Ha, IH. Qed.

Lemma sum_z_insert f l i a a' :
  l !! i = Some a -> sum_z f (<[i := a']> l) = sum_z f l - f a + f a'.
Proof.
  revert i. induction l as [|x l IH]; intros [|i] H; try done; unfold sum_z in *; simpl in *.
  - injection H as ->. lia.
  - rewrite (IH i H). lia.
Qed.

Lemma sum_z_delete f l i a : l !! i = Some a -> sum_z f (delete i l) = sum_z f l - f a.
Proof.
  revert i. induction l as [|x l IH]; intros [|i] H; try done; unfold sum_z in *; simpl in *.
  - injection H as ->. lia.
  - rewrite (IH i H). lia.
Qed.

Lemma sum_z_nonneg f l : Forall (fun a => 0 <= f a) l -> 0 <= sum_z f l.
Proof. induction 1; unfold sum_z in *; simpl; lia. Qed.

Lemma sum_z_ge f l i a : Forall (fun a => 0 <= f a) l -> l !! i = Some a -> f a <= sum_z f l.
Proof.
  intros H. revert i. induction H as [|x l Hx Hl IH]; intros [|i] Hi; try done; simpl in Hi.
  - injection Hi as ->. apply sum_z_nonneg in Hl. unfold sum_z in *. simpl. lia.
  - specialize (IH i Hi). unfold sum_z in *. simpl. lia.
Qed.

Lemma sum_z_le f g l : Forall (fun a => f a <= g a) l -> sum_z f l <= sum_z g l.
Proof. induction 1; unfold sum_z in *; simpl; lia. Qed.

Lemma sum_z_plus f g l : sum_z (fun a => f a + g a) l = sum_z f l + sum_z g l.
Proof. unfold sum_z. induction l; simpl; lia. Qed.

Lemma sum_z_scale (c : Z) f l : sum_z (fun a => c * f a) l = c * sum_z f l.
Proof. unfold sum_z. induction l; simpl; lia. Qed.

(** Rounding down term by term never exceeds rounding the sum down. *)
Lemma sum_z_div (d : Z) f l : 0 < d -> sum_z (fun a => f a / d) l <= sum_z f l / d.
Proof.
  intros Hd. induction l as [|a l IH]; unfold sum_z in *; simpl; [by rewrite Zdiv_0_l|].
  etransitivity; [apply Z.add_le_mono_l, IH|]. apply Z.div_le_lower_bound; [done|].
  pose proof (Z.mul_div_le (f a) d Hd). pose proof (Z.mul_div_le (foldr (fun a acc => f a + acc) 0 l) d Hd).
  lia.
Qed.
End Sums.
