(* ===== verification/AmmError.v ===== *)
(** The AMM program's error type: the [ErrorCode] enum of
    [programs/amm/src/error.rs], constructor by constructor, and the errors the
    Anchor framework's [require_*!] macros raise when they are given no error
    of the program's own. *)
From S2P Require Import Prelude.

(** [error.rs]: [ErrorCode]. *)
Inductive ErrorCode : Set :=
| NotApproved
| InvalidUpdateConfigFlag
| AccountLack
| ClosePositionErr
| InvalidTickIndex
| TickInvalidOrder
| TickLowerOverflow
| TickUpperOverflow
| TickAndSpacingNotMatch
| InvalidTickArray
| InvalidTickArrayBoundary
| SqrtPriceLimitOverflow
| SqrtPriceX64
| LiquiditySubValueErr
| LiquidityAddValueErr
| ForbidBothZeroForSupplyLiquidity
| LiquidityInsufficient
| PriceSlippageCheck
| TooLittleOutputReceived
| TooMuchInputPaid
| ZeroAmountSpecified
| InvalidInputPoolVault
| TooSmallInputOrOutputAmount
| NotEnoughTickArrayAccount
| InvalidFirstTickArrayAccount
| InvalidRewardIndex
| FullRewardInfo
| RewardTokenAlreadyInUse
| ExceptRewardMint
| InvalidRewardInitParam
| InvalidRewardInputAccountNumber
| InvalidRewardPeriod
| NotApproveUpdateRewardEmissions
| UnInitializedRewardInfo
| NotSupportMint
| MissingTickArrayBitmapExtensionAccount
| InsufficientLiquidityForDirection
| MaxTokenOverflow
| CalculateOverflow
| TransferFeeCalculateNotMatch
| OrderAlreadyFilled
| InvalidOrderPhase
| InvalidLimitOrderAmount
| OrderPhaseSaturated
| InvalidDynamicFeeConfigParams
| InvalidFeeOn
| ZeroSqrtPrice
| ZeroLiquidity
| MissingBaseFlag
| MissingMintAccount
| MissingTokenProgram2022
| MarketPaused
| InsufficientCollateral
| MaxLeverageExceeded
| PositionAlreadyExists
| InvalidCommitment
| MarketNotFound
| FundingRateStale
| InsuranceFundDepleted
| JitBackRunDetected
| ArbDisabled
| ArbCooldownActive
| SpreadTooSmall
| NoArbProfit
| InsufficientOracleData
| InvalidTreasury
| ArithmeticOverflow
| DivisionByZero
| AmountBelowMin
| NotSender
| CascadeDetected
| CircuitBreakerActive
| ShieldNotInitialized.

#[export] Instance ErrorCode_eq_dec : EqDecision ErrorCode.
Proof. solve_decision. Defined.

(** An error value: one of the program's codes, or one of Anchor's own for a
    bare [require_eq!], [require_neq!], [require_keys_eq!], [require_gt!], [require_gte!] or a
    violated account constraint. *)
Inductive error : Set :=
| Program (e : ErrorCode)
| RequireEqViolated
| RequireNeqViolated
| RequireKeysEqViolated
| RequireGtViolated
| RequireGteViolated
| ConstraintViolated.

#[export] Instance error_eq_dec : EqDecision error.
Proof. solve_decision. Defined.

Coercion Program : ErrorCode >-> error.

(** [anchor_lang::Result]. *)
Abbreviation Result := (outcome error).

(** The outcome combinators at the program's error type, so that an
    [ErrorCode] is accepted where an [error] is expected. *)
Abbreviation ok_or := (@Prelude.ok_or error _).
Abbreviation require := (@Prelude.require error).
Abbreviation err := (@Err error _).

(** [r.ok_or(ErrorCode::CalculateOverflow)?] for the fallible arithmetic. *)
Definition or_overflow {A} (m : Result (option A)) : Result A :=
  let! o := m in ok_or o CalculateOverflow.

Lemma or_overflow_Ok {A} (m : Result (option A)) a :
  or_overflow m = Ok a <-> m = Ok (Some a).
Proof.
  unfold or_overflow. rewrite obind_Ok. setoid_rewrite ok_or_Ok. naive_solver.
Qed.
