(* ===== verification/Config.v ===== *)
(** [states/config.rs], [instructions/admin/create_amm_config.rs] and
    [instructions/admin/update_amm_config.rs]: the fee configuration of the
    pools and the two instructions that write it.

    A public key is the 32-byte number it stands for; the key of the program's
    admin is a parameter.  [Account<AmmConfig>] is the record; the
    [padding] words and the account's size are not modelled. *)
From S2P Require Import Prelude.
From S2P Require Import AmmError.

Definition Pubkey : Set := Z.
Definition default_pubkey : Pubkey := 0.

Definition FEE_RATE_DENOMINATOR_VALUE : Z := 1000000.

Record AmmConfig := mkAmmConfig {
  bump : Z;
  index : Z;
  owner : Pubkey;
  protocol_fee_rate : Z;
  trade_fee_rate : Z;
  tick_spacing : Z;
  fund_fee_rate : Z;
  fund_owner : Pubkey;
}.

(** [require_eq!], [require_gt!] and [require_gte!] without a code. *)
Definition require_gt (a b : Z) : Result unit := require (b <? a) RequireGtViolated.
Definition require_gte (a b : Z) : Result unit := require (b <=? a) RequireGteViolated.
Definition require_eq (a b : Z) : Result unit := require (a =? b) RequireEqViolated.
Definition require_keys_eq (a b : Pubkey) : Result unit := require (a =? b) RequireKeysEqViolated.

Definition is_authorized (self : AmmConfig) (signer expect_pubkey : Pubkey) : Result unit :=
  require ((signer =? owner self) || (expect_pubkey =? signer)) NotApproved.

Section Instructions.
(** [crate::admin::ID] *)
Context (admin_ID : Pubkey).

(** [address = crate::admin::ID @ ErrorCode::NotApproved] *)
Definition require_admin (signer : Pubkey) : Result unit :=
  require (signer =? admin_ID) NotApproved.

Definition create_amm_config
    (signer bump_seed idx spacing trade_rate protocol_rate fund_rate : Z) : Result AmmConfig :=
  do! require_admin signer in
  do! require_gt FEE_RATE_DENOMINATOR_VALUE trade_rate in
  let! sum := uchk 32 (fund_rate + protocol_rate) in
  do! require_gte FEE_RATE_DENOMINATOR_VALUE sum in
  Ok {| owner := signer; bump := bump_seed; index := idx; trade_fee_rate := trade_rate;
        protocol_fee_rate := protocol_rate; tick_spacing := spacing;
        fund_fee_rate := fund_rate; fund_owner := signer |}.

Definition update_protocol_fee_rate (c : AmmConfig) (v : Z) : Result AmmConfig :=
  do! require_gte FEE_RATE_DENOMINATOR_VALUE v in
  let! sum := uchk 32 (v + fund_fee_rate c) in
  do! require_gte FEE_RATE_DENOMINATOR_VALUE sum in
  Ok (mkAmmConfig (bump c) (index c) (owner c) v (trade_fee_rate c) (tick_spacing c)
        (fund_fee_rate c) (fund_owner c)).

Definition update_trade_fee_rate (c : AmmConfig) (v : Z) : Result AmmConfig :=
  do! require_gt FEE_RATE_DENOMINATOR_VALUE v in
  Ok (mkAmmConfig (bump c) (index c) (owner c) (protocol_fee_rate c) v (tick_spacing c)
        (fund_fee_rate c) (fund_owner c)).

Definition update_fund_fee_rate (c : AmmConfig) (v : Z) : Result AmmConfig :=
  do! require_gte FEE_RATE_DENOMINATOR_VALUE v in
  let! sum := uchk 32 (v + protocol_fee_rate c) in
  do! require_gte FEE_RATE_DENOMINATOR_VALUE sum in
  Ok (mkAmmConfig (bump c) (index c) (owner c) (protocol_fee_rate c) (trade_fee_rate c)
        (tick_spacing c) v (fund_owner c)).

Definition set_new_owner (c : AmmConfig) (k : Pubkey) : AmmConfig :=
  mkAmmConfig (bump c) (index c) k (protocol_fee_rate c) (trade_fee_rate c) (tick_spacing c)
    (fund_fee_rate c) (fund_owner c).

Definition set_new_fund_owner (c : AmmConfig) (k : Pubkey) : AmmConfig :=
  mkAmmConfig (bump c) (index c) (owner c) (protocol_fee_rate c) (trade_fee_rate c)
    (tick_spacing c) (fund_fee_rate c) k.

(** [remaining_accounts] is the list of the keys of the extra accounts. *)
Definition update_amm_config (signer : Pubkey) (remaining_accounts : list Pubkey)
    (c : AmmConfig) (param value : Z) : Result AmmConfig :=
  do! require_admin signer in
  if param =? 0 then update_trade_fee_rate c value
  else if param =? 1 then update_protocol_fee_rate c value
  else if param =? 2 then update_fund_fee_rate c value
  else if param =? 3 then
    let! k := ok_or (head remaining_accounts) AccountLack in Ok (set_new_owner c k)
  else if param =? 4 then
    let! k := ok_or (head remaining_accounts) AccountLack in Ok (set_new_fund_owner c k)
  else err InvalidUpdateConfigFlag.

(** The configurations the two instructions can produce. *)
Inductive reachable_config : AmmConfig -> Prop :=
| rc_create signer b i s t p f c :
    in_u 32 t -> in_u 32 p -> in_u 32 f ->
    create_amm_config signer b i s t p f = Ok c -> reachable_config c
| rc_update signer accs c param value c' :
    reachable_config c -> in_u 32 value ->
    update_amm_config signer accs c param value = Ok c' -> reachable_config c'.

Definition config_ok (c : AmmConfig) : Prop :=
  0 <= trade_fee_rate c < FEE_RATE_DENOMINATOR_VALUE /\
  0 <= protocol_fee_rate c /\ 0 <= fund_fee_rate c /\
  protocol_fee_rate c + fund_fee_rate c <= FEE_RATE_DENOMINATOR_VALUE.

Lemma reachable_config_ok c : reachable_config c -> config_ok c.
Proof.
  unfold config_ok. induction 1 as [signer b i s t p f c Ht Hp Hf H|signer accs c param value c' _ IH Hv H].
  - unfold create_amm_config, require_admin, require_gt, require_gte in H. ok_inv. simpl. zbool. range.
  - unfold update_amm_config, update_trade_fee_rate, update_protocol_fee_rate,
      update_fund_fee_rate, require_admin, require_gt, require_gte in H.
    ok_inv. repeat (case_match; ok_inv); simpl; zbool; range.
Qed.

(** In every configuration the admin instructions can produce, the trade
    fee is below 100% and the protocol and fund shares of it do not exceed
    100% together, whatever sequence of updates was made; and only the admin
    can produce one. *)
Theorem amm_config_fee_invariant c :
  (reachable_config c ->
   0 <= trade_fee_rate c < FEE_RATE_DENOMINATOR_VALUE /\
   0 <= protocol_fee_rate c /\ 0 <= fund_fee_rate c /\
   protocol_fee_rate c + fund_fee_rate c <= FEE_RATE_DENOMINATOR_VALUE) /\
  (forall signer accs param value, signer <> admin_ID ->
     update_amm_config signer accs c param value = err NotApproved).
Proof.
  split; [by apply reachable_config_ok|]. intros signer accs param value Hs.
  unfold update_amm_config, require_admin. by destruct (Z.eqb_spec signer admin_ID).
Qed.
End Instructions.

Lemma amm_config_fee_invariant_witness :
  0 <= 2500 < FEE_RATE_DENOMINATOR_VALUE /\ 0 <= 120000 /\ 0 <= 40000 /\
  120000 + 40000 <= FEE_RATE_DENOMINATOR_VALUE.
Proof.
  apply (amm_config_fee_invariant 7 (mkAmmConfig 255 1 7 120000 2500 60 40000 7)).
  apply (rc_update 7 7 [] (mkAmmConfig 255 1 7 120000 100 60 40000 7) 0 2500);
    [|by_compute|by_compute].
  apply (rc_create 7 7 255 1 60 100 120000 40000); by_compute.
Defined.
