(* ===== verification/BigNum.v ===== *)
(** Wide unsigned integers.

    [UintLib] is the interface of the third-party [uint] crate, whose
    [construct_uint!] macro makes the program's [U128], [U256] and [U512]: its
    values are identified with the numbers they denote, its operations are
    parameters, and its laws state the crate's documented behaviour
    (overflow and division by zero panic, [checked_*] return [None], shifts
    drop the bits that leave the word).

    [U1024] is the program's own type ([libraries/big_num.rs], the
    [construct_bignum!] macro): an array of sixteen little-endian 64-bit words,
    modelled word by word, with the bit-level specification of its
    operations. *)
From S2P Require Import Prelude.
From S2P Require Import AmmError.

(** * The [uint] crate *)

(** Every operation takes the width of the type first; [None] is a panic. *)
Class UintLib := {
  uint_add : Z -> Z -> Z -> option Z;
  uint_sub : Z -> Z -> Z -> option Z;
  uint_mul : Z -> Z -> Z -> option Z;
  uint_div : Z -> Z -> option Z;
  uint_rem : Z -> Z -> option Z;
  uint_checked_add : Z -> Z -> Z -> option Z;
  uint_checked_sub : Z -> Z -> Z -> option Z;
  uint_checked_mul : Z -> Z -> Z -> option Z;
  uint_checked_div : Z -> Z -> option Z;
  uint_shl : Z -> Z -> Z -> Z;
  uint_shr : Z -> Z -> Z;
  uint_bitxor : Z -> Z -> Z;
  uint_bit : Z -> Z -> bool;
  uint_leading_zeros : Z -> Z -> Z;
  uint_trailing_zeros : Z -> Z -> Z;
  uint_as_u64 : Z -> option Z;
  uint_as_u128 : Z -> option Z;
  uint_add_law w a b : uint_add w a b = ucheck w (a + b);
  uint_sub_law w a b : uint_sub w a b = ucheck w (a - b);
  uint_mul_law w a b : uint_mul w a b = ucheck w (a * b);
  uint_div_law a b : uint_div a b = checked_udiv a b;
  uint_rem_law a b : uint_rem a b = if b =? 0 then None else Some (a mod b);
  uint_checked_add_law w a b : uint_checked_add w a b = ucheck w (a + b);
  uint_checked_sub_law w a b : uint_checked_sub w a b = ucheck w (a - b);
  uint_checked_mul_law w a b : uint_checked_mul w a b = ucheck w (a * b);
  uint_checked_div_law a b : uint_checked_div a b = checked_udiv a b;
  uint_shl_law w a n : uint_shl w a n = uwrap w (Z.shiftl a n);
  uint_shr_law a n : uint_shr a n = Z.shiftr a n;
  uint_bitxor_law a b : uint_bitxor a b = Z.lxor a b;
  uint_bit_law a i : uint_bit a i = Z.testbit a i;
  uint_leading_zeros_law w a :
    0 < a < 2 ^ w -> uint_leading_zeros w a = w - 1 - Z.log2 a;
  uint_trailing_zeros_law w a :
    0 < a < 2 ^ w ->
    0 <= uint_trailing_zeros w a < w /\
    Z.testbit a (uint_trailing_zeros w a) = true /\
    forall i, 0 <= i < uint_trailing_zeros w a -> Z.testbit a i = false;
  uint_as_u64_law a : uint_as_u64 a = ucheck 64 a;
  uint_as_u128_law a : uint_as_u128 a = ucheck 128 a
}.

(** The operations as the program calls them. *)
Section UintOps.
Context {U : UintLib}.

Definition big_add (w a b : Z) : Result Z := unwrap (uint_add w a b).
Definition big_sub (w a b : Z) : Result Z := unwrap (uint_sub w a b).
Definition big_mul (w a b : Z) : Result Z := unwrap (uint_mul w a b).
Definition big_div (a b : Z) : Result Z := unwrap (uint_div a b).
Definition big_rem (a b : Z) : Result Z := unwrap (uint_rem a b).
Definition big_u64 (a : Z) : Result Z := unwrap (uint_as_u64 a).
Definition big_u128 (a : Z) : Result Z := unwrap (uint_as_u128 a).

Lemma big_add_Ok w a b c : big_add w a b = Ok c <-> c = a + b /\ in_u w (a + b).
Proof. unfold big_add. by rewrite uint_add_law, unwrap_Ok, ucheck_Some. Qed.

Lemma big_sub_Ok w a b c : big_sub w a b = Ok c <-> c = a - b /\ in_u w (a - b).
Proof. unfold big_sub. by rewrite uint_sub_law, unwrap_Ok, ucheck_Some. Qed.

Lemma big_mul_Ok w a b c : big_mul w a b = Ok c <-> c = a * b /\ in_u w (a * b).
Proof. unfold big_mul. by rewrite uint_mul_law, unwrap_Ok, ucheck_Some. Qed.

Lemma big_div_Ok a b c : big_div a b = Ok c <-> b <> 0 /\ c = a / b.
Proof. unfold big_div. by rewrite uint_div_law, unwrap_Ok, checked_udiv_Some. Qed.

Lemma big_rem_Ok a b c : big_rem a b = Ok c <-> b <> 0 /\ c = a mod b.
Proof.
  unfold big_rem. rewrite uint_rem_law, unwrap_Ok.
  destruct (Z.eqb_spec b 0); naive_solver.
Qed.

Lemma big_u64_Ok a c : big_u64 a = Ok c <-> c = a /\ in_u 64 a.
Proof. unfold big_u64. by rewrite uint_as_u64_law, unwrap_Ok, ucheck_Some. Qed.

Lemma big_u128_Ok a c : big_u128 a = Ok c <-> c = a /\ in_u 128 a.
Proof. unfold big_u128. by rewrite uint_as_u128_law, unwrap_Ok, ucheck_Some. Qed.

Lemma big_shl_small w a n :
  0 <= n -> in_u w (a * 2 ^ n) -> uint_shl w a n = a * 2 ^ n.
Proof.
  intros Hn Ha. rewrite uint_shl_law, Z.shiftl_mul_pow2 by done. by apply uwrap_id.
Qed.
End UintOps.

(** Extend the shared inversion step with the library's operations. *)
Ltac big_step :=
  match goal with
  | H : big_add _ _ _ = Ok _ |- _ => apply big_add_Ok in H as [? ?]
  | H : big_sub _ _ _ = Ok _ |- _ => apply big_sub_Ok in H as [? ?]
  | H : big_mul _ _ _ = Ok _ |- _ => apply big_mul_Ok in H as [? ?]
  | H : big_div _ _ = Ok _ |- _ => apply big_div_Ok in H as [? ?]
  | H : big_rem _ _ = Ok _ |- _ => apply big_rem_Ok in H as [? ?]
  | H : big_u64 _ = Ok _ |- _ => apply big_u64_Ok in H as [? ?]
  | H : big_u128 _ = Ok _ |- _ => apply big_u128_Ok in H as [? ?]
  | H : uint_checked_add _ _ _ = Some _ |- _ =>
      rewrite uint_checked_add_law in H; apply ucheck_Some in H as [? ?]
  | H : uint_checked_sub _ _ _ = Some _ |- _ =>
      rewrite uint_checked_sub_law in H; apply ucheck_Some in H as [? ?]
  | H : uint_checked_mul _ _ _ = Some _ |- _ =>
      rewrite uint_checked_mul_law in H; apply ucheck_Some in H as [? ?]
  | H : uint_checked_div _ _ = Some _ |- _ =>
      rewrite uint_checked_div_law in H; apply checked_udiv_Some in H as [? ?]
  end.

Ltac big_inv := repeat (first [ok_step | big_step]; simpl in *; subst).

(** A reference implementation on [Z], used to run the model. *)
Fixpoint pos_ctz (p : positive) : Z :=
  match p with
  | xO q => 1 + pos_ctz q
  | _ => 0
  end.

Definition z_ctz (a : Z) : Z := match a with Zpos p => pos_ctz p | _ => 0 end.

Lemma pos_ctz_spec p :
  0 <= pos_ctz p <= Z.log2 (Zpos p) /\ Z.testbit (Zpos p) (pos_ctz p) = true /\
  forall i, 0 <= i < pos_ctz p -> Z.testbit (Zpos p) i = false.
Proof.
  induction p as [p IH|p IH|]; simpl pos_ctz.
  - split; [|split]; [pose proof (Z.log2_nonneg (Zpos (xI p))); lia|done|lia].
  - destruct IH as (Hr & Hb & Hz). pose proof (Z.log2_nonneg (Zpos p)).
    change (Zpos (xO p)) with (2 * Zpos p).
    rewrite Z.log2_double by lia.
    split; [lia|]. split.
    + change (2 * Zpos p) with (Z.double (Zpos p)).
      rewrite Z.double_bits. rewrite <- Hb. f_equal. lia.
    + intros i Hi. change (2 * Zpos p) with (Z.double (Zpos p)). rewrite Z.double_bits.
      destruct (Z.eq_dec i 0) as [->|]; [done|]. apply Hz. lia.
  - simpl. split; [lia|]. split; [done|lia].
Qed.

Lemma log2_lt_width w a : 0 < a < 2 ^ w -> 0 <= w - 1 - Z.log2 a.
Proof.
  intros [H1 H2]. enough (Z.log2 a < w) by lia. by apply Z.log2_lt_pow2.
Qed.

#[refine] Definition uint_std : UintLib := {|
  uint_add w a b := ucheck w (a + b);
  uint_sub w a b := ucheck w (a - b);
  uint_mul w a b := ucheck w (a * b);
  uint_div := checked_udiv;
  uint_rem a b := if b =? 0 then None else Some (a mod b);
  uint_checked_add w a b := ucheck w (a + b);
  uint_checked_sub w a b := ucheck w (a - b);
  uint_checked_mul w a b := ucheck w (a * b);
  uint_checked_div := checked_udiv;
  uint_shl w a n := uwrap w (Z.shiftl a n);
  uint_shr := Z.shiftr;
  uint_bitxor := Z.lxor;
  uint_bit := Z.testbit;
  uint_leading_zeros w a := if a =? 0 then w else w - 1 - Z.log2 a;
  uint_trailing_zeros w a := if a =? 0 then w else z_ctz a;
  uint_as_u64 := ucheck 64;
  uint_as_u128 := ucheck 128
|}.
Proof.
  all: try (intros; reflexivity).
  - intros w a H. destruct (Z.eqb_spec a 0); [lia|done].
  - intros w a H. destruct (Z.eqb_spec a 0); [lia|].
    destruct a as [|p|p]; [lia| |lia]. simpl z_ctz.
    destruct (pos_ctz_spec p) as (Hr & Hb & Hz). pose proof (log2_lt_width w (Zpos p) H).
    split; [lia|]. done.
Defined.

(** * The program's own [U1024] ([construct_bignum!]) *)

Module U1024.

(** [$name(pub [u64; $n_words])] with [$n_words = 16]. *)
Abbreviation words := (list Z).

Definition n_words : nat := 16.

Definition wf (ws : words) : Prop := length ws = n_words /\ Forall (in_u 64) ws.

(** [Self::zero()], [Self::one()] *)
Definition zero : words := replicate n_words 0.
Definition one : words := <[0%nat := 1]> zero.

(** [is_zero] *)
Definition is_zero (ws : words) : bool := forallb (fun w => w =? 0) ws.

(** [bit] *)
Definition bit (ws : words) (index : Z) : Result bool :=
  let! w := idx ws (index / 64) in
  Ok (negb (Z.land w (Z.shiftl 1 (index mod 64)) =? 0)).

(** [u64::leading_zeros], [u64::trailing_zeros] of a non-zero word *)
Definition leading_zeros_u64 (w : Z) : Z := 63 - Z.log2 w.
Definition trailing_zeros_u64 (w : Z) : Z := z_ctz w.

(** [leading_zeros]: the words from the most significant one down, stopping at
    the first non-zero one. *)
Fixpoint leading_zeros_from (ws : words) : Z :=
  match ws with
  | [] => 0
  | w :: ws => if w =? 0 then 64 + leading_zeros_from ws else leading_zeros_u64 w
  end.
Definition leading_zeros (ws : words) : Z := leading_zeros_from (rev ws).

(** [trailing_zeros] *)
Fixpoint trailing_zeros (ws : words) : Z :=
  match ws with
  | [] => 0
  | w :: ws => if w =? 0 then 64 + trailing_zeros ws else trailing_zeros_u64 w
  end.

(** [BitAnd], [BitXor], [Not], [BitOr] *)
Definition bitand (a b : words) : words := zip_with Z.land a b.
Definition bitor (a b : words) : words := zip_with Z.lor a b.
Definition bitxor (a b : words) : words := zip_with Z.lxor a b.
Definition bitnot (a : words) : words := (fun w => umax 64 - w) <$> a.

(** [Shl<usize>]: word [i] of the result, after the [shift] loop and the
    [carry] loop. *)
Definition shl_word (original : words) (word_shift bit_shift i : Z) : Result Z :=
  if i <? word_shift then Ok 0
  else
    let! w := idx original (i - word_shift) in
    let r := uwrap 64 (Z.shiftl w bit_shift) in
    if (0 <? bit_shift) && (word_shift + 1 <=? i) then
      let! c := idx original (i - 1 - word_shift) in
      uchk 64 (r + Z.shiftr c (64 - bit_shift))
    else Ok r.
Definition shl (original : words) (shift : Z) : Result words :=
  mapO (shl_word original (shift / 64) (shift mod 64)) (range_z n_words).

(** [Shr<usize>] *)
Definition shr_word (original : words) (word_shift bit_shift i : Z) : Result Z :=
  if Z.of_nat n_words <=? i + word_shift then Ok 0
  else
    let! w := idx original (i + word_shift) in
    let r := Z.shiftr w bit_shift in
    if (0 <? bit_shift) && (i + word_shift + 1 <? Z.of_nat n_words) then
      let! c := idx original (i + word_shift + 1) in
      uchk 64 (r + uwrap 64 (Z.shiftl c (64 - bit_shift)))
    else Ok r.
Definition shr (original : words) (shift : Z) : Result words :=
  mapO (shr_word original (shift / 64) (shift mod 64)) (range_z n_words).

(** ** The number as a set of bits *)

(** Bit [i] of the number; [false] outside it. *)
Definition ubit (ws : words) (i : Z) : bool :=
  match ws !! Z.to_nat (i / 64) with
  | Some w => Z.testbit w (i mod 64)
  | None => false
  end.

(** A 64-bit word has no bit at or above 64. *)
Lemma testbit_above w j : in_u 64 w -> 64 <= j -> Z.testbit w j = false.
Proof.
  intros [H0 H1] Hj. destruct (Z.eq_dec w 0) as [->|]; [apply Z.testbit_0_l|].
  apply Z.bits_above_log2; [done|]. enough (Z.log2 w < 64) by lia.
  apply Z.log2_lt_pow2; lia.
Qed.

(** Adding words with disjoint bits is their [lor]; nothing overflows. *)
Lemma add_disjoint a b :
  (forall j, 0 <= j -> Z.testbit a j && Z.testbit b j = false) -> a + b = Z.lor a b.
Proof.
  intros H. rewrite <- Z.lxor_lor, Z.add_nocarry_lxor; [done| |].
  all: apply Z.bits_inj'; intros j Hj; rewrite Z.land_spec, Z.testbit_0_l; by apply H.
Qed.

Lemma testbit_shl64 w b j :
  0 <= b -> 0 <= j ->
  Z.testbit (uwrap 64 (Z.shiftl w b)) j = (j <? 64) && (b <=? j) && Z.testbit w (j - b).
Proof.
  intros Hb Hj. unfold uwrap. destruct (Z.ltb_spec j 64) as [Hlt|Hge]; simpl.
  - rewrite Z.mod_pow2_bits_low, Z.shiftl_spec by lia.
    destruct (Z.leb_spec b j); simpl; [done|]. apply Z.testbit_neg_r. lia.
  - by rewrite Z.mod_pow2_bits_high by lia.
Qed.

(** The word the two [Shl] loops build, bit by bit. *)
Lemma shl_join w c b :
  in_u 64 w -> in_u 64 c -> 0 < b < 64 ->
  let r := uwrap 64 (Z.shiftl w b) + Z.shiftr c (64 - b) in
  in_u 64 r /\
  forall j, 0 <= j < 64 ->
    Z.testbit r j = if b <=? j then Z.testbit w (j - b) else Z.testbit c (64 - b + j).
Proof.
  intros Hw Hc Hb r.
  assert (Hr : r = Z.lor (uwrap 64 (Z.shiftl w b)) (Z.shiftr c (64 - b))).
  { apply add_disjoint. intros j Hj. rewrite testbit_shl64, Z.shiftr_spec by lia.
    destruct (Z.leb_spec b j); [|by rewrite andb_false_r].
    rewrite (testbit_above c) by (done || lia). apply andb_false_r. }
  split.
  - apply in_u_of_bits; [done| |].
    + rewrite Hr. apply Z.lor_nonneg. split; [apply uwrap_in; lia|].
      apply Z.shiftr_nonneg. apply Hc.
    + intros j Hj. rewrite Hr, Z.lor_spec, testbit_shl64, Z.shiftr_spec by lia.
      rewrite (testbit_above c) by (done || lia).
      destruct (Z.ltb_spec j 64); [lia|done].
  - intros j Hj. rewrite Hr, Z.lor_spec, testbit_shl64, Z.shiftr_spec by lia.
    destruct (Z.ltb_spec j 64); [|lia]. destruct (Z.leb_spec b j); simpl.
    + rewrite (testbit_above c) by (done || lia). apply orb_false_r.
    + by rewrite Z.add_comm.
Qed.

(** The word the two [Shr] loops build. *)
Lemma shr_join w c b :
  in_u 64 w -> in_u 64 c -> 0 < b < 64 ->
  let r := Z.shiftr w b + uwrap 64 (Z.shiftl c (64 - b)) in
  in_u 64 r /\
  forall j, 0 <= j < 64 ->
    Z.testbit r j = if j <? 64 - b then Z.testbit w (j + b) else Z.testbit c (j - (64 - b)).
Proof.
  intros Hw Hc Hb r.
  destruct (shl_join c w (64 - b)) as [Hin Hbits]; [done|done|lia|].
  replace (64 - (64 - b)) with b in * by lia.
  unfold r. rewrite Z.add_comm. split; [done|].
  intros j Hj. rewrite Hbits by done.
  destruct (Z.leb_spec (64 - b) j), (Z.ltb_spec j (64 - b)); try lia; [done|].
  f_equal. lia.
Qed.

Lemma wf_lookup ws i :
  wf ws -> 0 <= i < 16 -> exists w, ws !! Z.to_nat i = Some w /\ in_u 64 w.
Proof.
  intros [Hlen Hall] Hi. destruct (lookup_lt_is_Some_2 ws (Z.to_nat i)) as [w Hw].
  { rewrite Hlen. unfold n_words. lia. }
  exists w. split; [done|]. rewrite Forall_lookup in Hall. eauto.
Qed.

Lemma idx_lookup (ws : words) i w :
  0 <= i -> ws !! Z.to_nat i = Some w -> @idx error Z ws i = Ok w.
Proof. intros. apply idx_Ok. done. Qed.

(** Bit [64 q + r] lives at bit [r] of word [q]. *)
Lemma ubit_word ws q r w :
  0 <= r < 64 -> 0 <= q -> ws !! Z.to_nat q = Some w -> ubit ws (64 * q + r) = Z.testbit w r.
Proof.
  intros Hr Hq Hw. unfold ubit.
  replace ((64 * q + r) / 64) with q by (apply Z.div_unique with r; lia).
  replace ((64 * q + r) mod 64) with r by (apply Z.mod_unique with q; lia).
  by rewrite Hw.
Qed.

Lemma shl_word_spec ws nw nb q :
  wf ws -> 0 <= nw -> 0 <= nb < 64 -> 0 <= q < 16 ->
  exists v, shl_word ws nw nb q = Ok v /\ in_u 64 v /\
  forall r, 0 <= r < 64 ->
    Z.testbit v r = (64 * nw + nb <=? 64 * q + r) && ubit ws (64 * q + r - (64 * nw + nb)).
Proof.
  intros Hwf Hnw Hnb Hq. unfold shl_word. destruct (Z.ltb_spec q nw) as [Hlt|Hge].
  { exists 0. split; [done|]. split; [done|]. intros r Hr. rewrite Z.testbit_0_l.
    destruct (Z.leb_spec (64 * nw + nb) (64 * q + r)); [lia|done]. }
  destruct (wf_lookup ws (q - nw) Hwf) as (w & Hw & Hinw); [lia|].
  rewrite (idx_lookup ws (q - nw) w) by (done || lia). simpl.
  (* the bits that come from word [q - nw] itself *)
  assert (Hsame : forall r, nb <= r < 64 ->
    ubit ws (64 * q + r - (64 * nw + nb)) = Z.testbit w (r - nb)).
  { intros r Hr. replace (64 * q + r - (64 * nw + nb)) with (64 * (q - nw) + (r - nb)) by lia.
    apply ubit_word; [lia|lia|done]. }
  destruct (Z.ltb_spec 0 nb) as [Hpos|Hz], (Z.leb_spec (nw + 1) q) as [Hc|Hc]; simpl.
  - destruct (wf_lookup ws (q - 1 - nw) Hwf) as (c & Hcw & Hinc); [lia|].
    rewrite (idx_lookup ws (q - 1 - nw) c) by (done || lia). simpl.
    destruct (shl_join w c nb) as [Hin Hbits]; [done|done|lia|].
    exists (uwrap 64 (Z.shiftl w nb) + Z.shiftr c (64 - nb)).
    rewrite uchk_ok by done. split; [done|]. split; [done|].
    intros r Hr. rewrite Hbits by done.
    destruct (Z.leb_spec (64 * nw + nb) (64 * q + r)); [|lia]. simpl.
    destruct (Z.leb_spec nb r); [by rewrite Hsame by lia|].
    replace (64 * q + r - (64 * nw + nb)) with (64 * (q - 1 - nw) + (64 - nb + r)) by lia.
    symmetry. apply ubit_word; [lia|lia|done].
  - eexists. split; [done|]. split; [apply uwrap_in; lia|]. intros r Hr.
    rewrite testbit_shl64 by lia. destruct (Z.ltb_spec r 64); [|lia]. simpl.
    destruct (Z.leb_spec nb r), (Z.leb_spec (64 * nw + nb) (64 * q + r)); try lia; simpl;
      try done; by rewrite Hsame by lia.
  - eexists. split; [done|]. split; [apply uwrap_in; lia|]. intros r Hr.
    rewrite testbit_shl64 by lia. destruct (Z.ltb_spec r 64); [|lia]. simpl.
    destruct (Z.leb_spec nb r), (Z.leb_spec (64 * nw + nb) (64 * q + r)); try lia; simpl;
      try done; by rewrite Hsame by lia.
  - eexists. split; [done|]. split; [apply uwrap_in; lia|]. intros r Hr.
    rewrite testbit_shl64 by lia. destruct (Z.ltb_spec r 64); [|lia]. simpl.
    destruct (Z.leb_spec nb r), (Z.leb_spec (64 * nw + nb) (64 * q + r)); try lia; simpl;
      try done; by rewrite Hsame by lia.
Qed.

Lemma ubit_outside ws i : wf ws -> 1024 <= i -> ubit ws i = false.
Proof.
  intros [Hlen _] Hi. unfold ubit. rewrite lookup_ge_None_2; [done|].
  rewrite Hlen. unfold n_words.
  assert (16 <= i / 64) by (apply Z.div_le_lower_bound; lia). lia.
Qed.

Lemma shr_word_spec ws nw nb q :
  wf ws -> 0 <= nw -> 0 <= nb < 64 -> 0 <= q < 16 ->
  exists v, shr_word ws nw nb q = Ok v /\ in_u 64 v /\
  forall r, 0 <= r < 64 -> Z.testbit v r = ubit ws (64 * q + r + (64 * nw + nb)).
Proof.
  intros Hwf Hnw Hnb Hq. unfold shr_word, n_words. change (Z.of_nat 16) with 16.
  destruct (Z.leb_spec 16 (q + nw)) as [Hlt|Hge].
  { exists 0. split; [done|]. split; [done|]. intros r Hr. rewrite Z.testbit_0_l.
    symmetry. apply ubit_outside; [done|lia]. }
  destruct (wf_lookup ws (q + nw) Hwf) as (w & Hw & Hinw); [lia|].
  rewrite (idx_lookup ws (q + nw) w) by (done || lia). simpl.
  assert (Hsame : forall r, 0 <= r -> r + nb < 64 ->
    ubit ws (64 * q + r + (64 * nw + nb)) = Z.testbit w (r + nb)).
  { intros r Hr1 Hr2. replace (64 * q + r + (64 * nw + nb)) with (64 * (q + nw) + (r + nb)) by lia.
    apply ubit_word; [lia|lia|done]. }
  assert (Hsh : in_u 64 (Z.shiftr w nb)).
  { apply in_u_of_bits; [done|apply Z.shiftr_nonneg, Hinw|]. intros j Hj.
    rewrite Z.shiftr_spec by lia. apply testbit_above; [done|lia]. }
  destruct (Z.ltb_spec 0 nb) as [Hpos|Hz], (Z.ltb_spec (q + nw + 1) 16) as [Hc|Hc]; simpl.
  - destruct (wf_lookup ws (q + nw + 1) Hwf) as (c & Hcw & Hinc); [lia|].
    rewrite (idx_lookup ws (q + nw + 1) c) by (done || lia). simpl.
    destruct (shr_join w c nb) as [Hin Hbits]; [done|done|lia|].
    eexists. rewrite uchk_ok by done. split; [done|]. split; [done|].
    intros r Hr. rewrite Hbits by done.
    destruct (Z.ltb_spec r (64 - nb)); [by rewrite Hsame by lia|].
    replace (64 * q + r + (64 * nw + nb)) with (64 * (q + nw + 1) + (r - (64 - nb))) by lia.
    symmetry. apply ubit_word; [lia|lia|done].
  - eexists. split; [done|]. split; [done|]. intros r Hr. rewrite Z.shiftr_spec by lia.
    destruct (Z.lt_ge_cases (r + nb) 64); [by rewrite Hsame by lia|].
    rewrite testbit_above by (done || lia). symmetry. apply ubit_outside; [done|lia].
  - eexists. split; [done|]. split; [done|]. intros r Hr. rewrite Z.shiftr_spec by lia.
    by rewrite Hsame by lia.
  - eexists. split; [done|]. split; [done|]. intros r Hr. rewrite Z.shiftr_spec by lia.
    by rewrite Hsame by lia.
Qed.

(** Gather the words of a word-by-word specification. *)
Lemma mapO_words (f : Z -> Result Z) (P : Z -> Z -> Prop) :
  (forall q, 0 <= q < 16 -> exists v, f q = Ok v /\ in_u 64 v /\ P q v) ->
  exists r, mapO f (range_z n_words) = Ok r /\ wf r /\
    forall q, 0 <= q < 16 -> exists v, r !! Z.to_nat q = Some v /\ P q v.
Proof.
  intros Hf.
  assert (exists g, forall q, 0 <= q < 16 -> f q = Ok (g q) /\ in_u 64 (g q) /\ P q (g q)) as [g Hg].
  { exists (fun q => match f q with Ok v => v | _ => 0 end). intros q Hq.
    destruct (Hf q Hq) as (v & -> & Hv). done. }
  exists (map g (range_z n_words)). split; [|split; [split|]].
  - apply mapO_total. intros a Ha. apply elem_of_range_z in Ha. apply Hg. unfold n_words in Ha. lia.
  - by rewrite length_map, length_range_z.
  - apply Forall_forall. intros x Hx. apply list_elem_of_In, in_map_iff in Hx as (q & <- & Hq).
    apply list_elem_of_In, elem_of_range_z in Hq. apply Hg. unfold n_words in Hq. lia.
  - intros q Hq. exists (g q). split; [|by apply Hg].
    change (map g (range_z n_words)) with (g <$> range_z n_words).
    rewrite list_lookup_fmap, range_z_lookup by (unfold n_words; lia).
    simpl. f_equal. f_equal. lia.
Qed.

Lemma ubit_of_words (r : words) (P : Z -> bool) :
  (forall q, 0 <= q < 16 -> exists v, r !! Z.to_nat q = Some v /\
     forall k, 0 <= k < 64 -> Z.testbit v k = P (64 * q + k)) ->
  forall i, 0 <= i < 1024 -> ubit r i = P i.
Proof.
  intros H i Hi. unfold ubit. pose proof (Z.div_mod i 64). pose proof (Z.mod_pos_bound i 64).
  assert (0 <= i / 64 < 16) as Hq.
  { split; [apply Z.div_pos; lia|]. apply Z.div_lt_upper_bound; lia. }
  destruct (H (i / 64) Hq) as (v & -> & Hv). rewrite Hv by lia. f_equal. lia.
Qed.

(** [Shl]: every bit moves up by the shift, the ones that leave the 1024 bits
    are dropped, and no carry overflows a word. *)
Lemma shl_spec ws n :
  wf ws -> 0 <= n ->
  exists r, shl ws n = Ok r /\ wf r /\
    forall i, 0 <= i < 1024 -> ubit r i = (n <=? i) && ubit ws (i - n).
Proof.
  intros Hwf Hn. unfold shl.
  pose proof (Z.div_mod n 64). pose proof (Z.mod_pos_bound n 64).
  assert (0 <= n / 64) by (apply Z.div_pos; lia).
  destruct (mapO_words (shl_word ws (n / 64) (n mod 64))
    (fun q v => forall k, 0 <= k < 64 ->
       Z.testbit v k = (n <=? 64 * q + k) && ubit ws (64 * q + k - n))) as (r & Hr & Hwr & Hb).
  { intros q Hq. destruct (shl_word_spec ws (n / 64) (n mod 64) q) as (v & ? & ? & Hv); [done|lia..|].
    exists v. split; [done|]. split; [done|]. intros k Hk. rewrite Hv by done.
    by replace (64 * (n / 64) + n mod 64) with n by lia. }
  exists r. split; [done|]. split; [done|]. by apply ubit_of_words.
Qed.

(** [Shr]: every bit moves down by the shift. *)
Lemma shr_spec ws n :
  wf ws -> 0 <= n ->
  exists r, shr ws n = Ok r /\ wf r /\
    forall i, 0 <= i < 1024 -> ubit r i = ubit ws (i + n).
Proof.
  intros Hwf Hn. unfold shr.
  pose proof (Z.div_mod n 64). pose proof (Z.mod_pos_bound n 64).
  assert (0 <= n / 64) by (apply Z.div_pos; lia).
  destruct (mapO_words (shr_word ws (n / 64) (n mod 64))
    (fun q v => forall k, 0 <= k < 64 -> Z.testbit v k = ubit ws (64 * q + k + n)))
    as (r & Hr & Hwr & Hb).
  { intros q Hq. destruct (shr_word_spec ws (n / 64) (n mod 64) q) as (v & ? & ? & Hv); [done|lia..|].
    exists v. split; [done|]. split; [done|]. intros k Hk. rewrite Hv by done.
    by replace (64 * (n / 64) + n mod 64) with n by lia. }
  exists r. split; [done|]. split; [done|].
  by apply (ubit_of_words r (fun i => ubit ws (i + n))).
Qed.

Lemma ubit_cons_low w ws i : 0 <= i < 64 -> ubit (w :: ws) i = Z.testbit w i.
Proof.
  intros Hi. replace i with (64 * 0 + i) at 1 by lia. by apply ubit_word.
Qed.

Lemma ubit_cons_high w ws i : 64 <= i -> ubit (w :: ws) i = ubit ws (i - 64).
Proof.
  intros Hi. unfold ubit.
  assert (1 <= i / 64) by (apply Z.div_le_lower_bound; lia).
  replace (i - 64) with (i + (-1) * 64) by lia. rewrite Z.div_add, Z.mod_add by lia.
  replace (Z.to_nat (i / 64)) with (S (Z.to_nat (i / 64 + -1))) by lia. done.
Qed.

Lemma ubit_snoc_low (ws : words) w i :
  0 <= i < 64 * Z.of_nat (length ws) -> ubit (ws ++ [w]) i = ubit ws i.
Proof.
  intros Hi. unfold ubit.
  assert (i / 64 < Z.of_nat (length ws)) by (apply Z.div_lt_upper_bound; lia).
  assert (0 <= i / 64) by (apply Z.div_pos; lia).
  by rewrite lookup_app_l by lia.
Qed.

Lemma ubit_snoc_high (ws : words) w i :
  0 <= i < 64 -> ubit (ws ++ [w]) (64 * Z.of_nat (length ws) + i) = Z.testbit w i.
Proof.
  intros Hi. apply ubit_word; [done|lia|]. rewrite Nat2Z.id. by apply list_lookup_middle.
Qed.

(** [trailing_zeros] of a non-zero number is the index of its lowest bit. *)
Lemma trailing_zeros_spec_gen ws :
  Forall (in_u 64) ws -> is_zero ws = false ->
  let k := trailing_zeros ws in
  0 <= k < 64 * Z.of_nat (length ws) /\ ubit ws k = true /\
  forall i, 0 <= i < k -> ubit ws i = false.
Proof.
  induction 1 as [|w ws Hw Hws IH]; simpl; [done|]. intros Hz.
  destruct (Z.eqb_spec w 0) as [->|Hne]; simpl in Hz.
  - destruct (IH Hz) as (Hk & Hb & Hlow). split; [lia|]. split.
    + rewrite ubit_cons_high by lia. rewrite <- Hb. f_equal. lia.
    + intros i Hi. destruct (Z.lt_ge_cases i 64).
      * rewrite ubit_cons_low by lia. apply Z.testbit_0_l.
      * rewrite ubit_cons_high by lia. apply Hlow. lia.
  - destruct w as [|p|p]; [done| |destruct Hw; lia]. unfold trailing_zeros_u64. simpl z_ctz.
    destruct (pos_ctz_spec p) as (Hr & Hb & Hlow).
    pose proof (log2_lt_width 64 (Zpos p) ltac:(destruct Hw; lia)).
    split; [lia|]. split; [by rewrite ubit_cons_low by lia|].
    intros i Hi. rewrite ubit_cons_low by lia. by apply Hlow.
Qed.

Lemma is_zero_app ws1 ws2 : is_zero (ws1 ++ ws2) = is_zero ws1 && is_zero ws2.
Proof. unfold is_zero. apply forallb_app. Qed.

(** [leading_zeros] locates the highest bit. *)
Lemma leading_zeros_spec_gen ws :
  Forall (in_u 64) ws -> is_zero ws = false ->
  let k := leading_zeros ws in
  let n := 64 * Z.of_nat (length ws) in
  0 <= k < n /\ ubit ws (n - 1 - k) = true /\
  forall i, n - 1 - k < i < n -> ubit ws i = false.
Proof.
  unfold leading_zeros.
  induction ws as [|w ws IH] using rev_ind; intros Hall Hz; [done|].
  apply Forall_app in Hall as [Hws Hw]. rewrite Forall_singleton in Hw.
  rewrite is_zero_app in Hz. rewrite rev_app_distr. simpl.
  rewrite length_app. simpl. rewrite Nat2Z.inj_add. change (Z.of_nat 1) with 1.
  destruct (Z.eqb_spec w 0) as [->|Hne]; simpl in Hz.
  - rewrite andb_true_r in Hz. destruct (IH Hws Hz) as (Hk & Hb & Hhigh).
    split; [lia|]. split.
    + rewrite ubit_snoc_low by lia. rewrite <- Hb. f_equal. lia.
    + intros i Hi. destruct (Z.lt_ge_cases i (64 * Z.of_nat (length ws))).
      * rewrite ubit_snoc_low by lia. apply Hhigh. lia.
      * replace i with (64 * Z.of_nat (length ws) + (i - 64 * Z.of_nat (length ws))) by lia.
        rewrite ubit_snoc_high by lia. apply Z.testbit_0_l.
  - unfold leading_zeros_u64. destruct Hw as [Hw0 Hw1].
    pose proof (Z.log2_nonneg w). pose proof (log2_lt_width 64 w ltac:(lia)).
    split; [lia|]. split.
    + replace (64 * (Z.of_nat (length ws) + 1) - 1 - (63 - Z.log2 w))
        with (64 * Z.of_nat (length ws) + Z.log2 w) by lia.
      rewrite ubit_snoc_high by lia. apply Z.bit_log2. lia.
    + intros i Hi.
      replace i with (64 * Z.of_nat (length ws) + (i - 64 * Z.of_nat (length ws))) by lia.
      rewrite ubit_snoc_high by lia. apply Z.bits_above_log2; lia.
Qed.

Lemma trailing_zeros_spec ws :
  wf ws -> is_zero ws = false ->
  0 <= trailing_zeros ws < 1024 /\ ubit ws (trailing_zeros ws) = true /\
  forall i, 0 <= i < trailing_zeros ws -> ubit ws i = false.
Proof.
  intros [Hlen Hall] Hz. pose proof (trailing_zeros_spec_gen ws Hall Hz) as H.
  rewrite Hlen in H. exact H.
Qed.

Lemma leading_zeros_spec ws :
  wf ws -> is_zero ws = false ->
  0 <= leading_zeros ws < 1024 /\ ubit ws (1023 - leading_zeros ws) = true /\
  forall i, 1023 - leading_zeros ws < i < 1024 -> ubit ws i = false.
Proof.
  intros [Hlen Hall] Hz. pose proof (leading_zeros_spec_gen ws Hall Hz) as H.
  rewrite Hlen in H. exact H.
Qed.

(** [is_zero] says that no bit is set. *)
Lemma is_zero_spec ws :
  wf ws -> is_zero ws = true <-> forall i, 0 <= i < 1024 -> ubit ws i = false.
Proof.
  intros Hwf. split.
  - intros Hz i Hi. unfold is_zero in Hz. rewrite forallb_forall in Hz. unfold ubit.
    destruct (ws !! Z.to_nat (i / 64)) as [w|] eqn:Hw; [|done].
    apply list_elem_of_lookup_2, list_elem_of_In, Hz in Hw. apply Z.eqb_eq in Hw as ->.
    apply Z.testbit_0_l.
  - intros Hb. destruct (is_zero ws) eqn:Hz; [done|].
    destruct (trailing_zeros_spec ws Hwf Hz) as (Hk & Ht & _). by rewrite Hb in Ht.
Qed.

Lemma zip_with_wf (f : Z -> Z -> Z) a b :
  (forall x y, in_u 64 x -> in_u 64 y -> in_u 64 (f x y)) -> wf a -> wf b -> wf (zip_with f a b).
Proof.
  intros Hf [Hla Ha] [Hlb Hb]. split; [by rewrite length_zip_with, Hla, Hlb|].
  rewrite Forall_lookup. intros i x Hx. apply lookup_zip_with_Some in Hx as (? & ? & -> & ? & ?).
  rewrite Forall_lookup in Ha, Hb. eauto.
Qed.

Lemma ubit_zip_with (f : Z -> Z -> Z) (g : bool -> bool -> bool) a b i :
  (forall x y k, 0 <= k -> Z.testbit (f x y) k = g (Z.testbit x k) (Z.testbit y k)) ->
  wf a -> wf b -> 0 <= i < 1024 -> ubit (zip_with f a b) i = g (ubit a i) (ubit b i).
Proof.
  intros Hf Ha Hb Hi. unfold ubit.
  assert (0 <= i / 64 < 16) as Hq.
  { split; [apply Z.div_pos; lia|]. apply Z.div_lt_upper_bound; lia. }
  destruct (wf_lookup a (i / 64) Ha Hq) as (x & Hx & _).
  destruct (wf_lookup b (i / 64) Hb Hq) as (y & Hy & _).
  rewrite lookup_zip_with, Hx, Hy. simpl. apply Hf. pose proof (Z.mod_pos_bound i 64). lia.
Qed.

Lemma bitxor_wf a b : wf a -> wf b -> wf (bitxor a b).
Proof.
  apply zip_with_wf. intros x y Hx Hy. apply in_u_of_bits; [done| |].
  - apply Z.lxor_nonneg. destruct Hx, Hy. lia.
  - intros j Hj. rewrite Z.lxor_spec, !testbit_above by done. done.
Qed.

Lemma ubit_bitxor a b i :
  wf a -> wf b -> 0 <= i < 1024 -> ubit (bitxor a b) i = xorb (ubit a i) (ubit b i).
Proof. apply ubit_zip_with. intros. apply Z.lxor_spec. Qed.

Lemma bitand_wf a b : wf a -> wf b -> wf (bitand a b).
Proof.
  apply zip_with_wf. intros x y Hx Hy. apply in_u_of_bits; [done| |].
  - apply Z.land_nonneg. destruct Hx. lia.
  - intros j Hj. rewrite Z.land_spec, !testbit_above by done. done.
Qed.

Lemma ubit_bitand a b i :
  wf a -> wf b -> 0 <= i < 1024 -> ubit (bitand a b) i = ubit a i && ubit b i.
Proof. apply ubit_zip_with. intros. apply Z.land_spec. Qed.

Lemma zero_wf : wf zero.
Proof. split; [done|]. unfold zero. apply Forall_replicate. range. Qed.

Lemma one_wf : wf one.
Proof.
  split; [done|]. unfold one. apply Forall_insert; [apply zero_wf|]. range.
Qed.

Lemma ubit_one i : 0 <= i < 1024 -> ubit one i = (i =? 0).
Proof.
  intros Hi. destruct (Z.lt_ge_cases i 64).
  - unfold one, zero, n_words. simpl. rewrite ubit_cons_low by lia.
    destruct (Z.eqb_spec i 0) as [->|]; [done|]. rewrite Z.bits_above_log2; simpl; lia.
  - unfold one, zero, n_words. simpl. rewrite ubit_cons_high by lia.
    destruct (Z.eqb_spec i 0); [lia|]. unfold ubit.
    destruct (_ !! _) as [w|] eqn:Hw; [|done].
    change [0; 0; 0; 0; 0; 0; 0; 0; 0; 0; 0; 0; 0; 0; 0] with (replicate 15 0) in Hw.
    apply lookup_replicate in Hw as [-> _]. apply Z.testbit_0_l.
Qed.

(** The one-bit mask [U1024::one() << n]. *)
Lemma mask_spec n :
  0 <= n < 1024 ->
  exists m, shl one n = Ok m /\ wf m /\ forall i, 0 <= i < 1024 -> ubit m i = (i =? n).
Proof.
  intros Hn. destruct (shl_spec one n one_wf ltac:(lia)) as (m & Hm & Hwf & Hb).
  exists m. split; [done|]. split; [done|]. intros i Hi. rewrite Hb by done.
  destruct (Z.leb_spec n i); simpl.
  - rewrite ubit_one by lia. destruct (Z.eqb_spec (i - n) 0), (Z.eqb_spec i n); lia || done.
  - destruct (Z.eqb_spec i n); [lia|done].
Qed.

End U1024.
