(* ===== verification/FullMath.v ===== *)
(** [libraries/full_math.rs], [libraries/unsafe_math.rs] and
    [libraries/fixed_point_64.rs]: multiply-divide with a wide intermediate
    product, ceiling division, and the Q64.64 constants. *)
From S2P Require Import Prelude.
From S2P Require Import AmmError.
From S2P Require Import BigNum.

(** [fixed_point_64.rs] *)
Definition Q64 : Z := umax 64 + 1.
Definition RESOLUTION : Z := 64.

Section FullMath.
Context {U : UintLib}.

(** [Downcast256::as_u128], [Downcast512::as_u256]: the high words are
    dropped. *)
Definition downcast (w x : Z) : Z := uwrap w x.

(** [impl MulDiv for u64] *)
Definition mul_div_floor_u64 (self num denom : Z) : Result (option Z) :=
  if denom =? 0 then Ok None
  else
    let! p := big_mul 128 self num in
    let! r := big_div p denom in
    if umax 64 <? r then Ok None else let! v := big_u64 r in Ok (Some v).

Definition mul_div_ceil_u64 (self num denom : Z) : Result (option Z) :=
  if denom =? 0 then Ok None
  else
    let! p := big_mul 128 self num in
    let! d1 := uchk 64 (denom - 1) in
    let! s := big_add 128 p d1 in
    let! r := big_div s denom in
    if umax 64 <? r then Ok None else let! v := big_u64 r in Ok (Some v).

(** [impl MulDiv for U128] at [w = 128] and [impl MulDiv for U256] at
    [w = 256]: the product is taken in the type twice as wide. *)
Definition mul_div_floor_big (w self num denom : Z) : Result (option Z) :=
  if denom =? 0 then Ok None
  else
    let! p := big_mul (2 * w) self num in
    let! r := big_div p denom in
    if umax w <? r then Ok None else Ok (Some (downcast w r)).

Definition mul_div_ceil_big (w self num denom : Z) : Result (option Z) :=
  if denom =? 0 then Ok None
  else
    let! p := big_mul (2 * w) self num in
    let! d1 := big_sub w denom 1 in
    let! s := big_add (2 * w) p d1 in
    let! r := big_div s denom in
    if umax w <? r then Ok None else Ok (Some (downcast w r)).

Definition mul_div_floor_u128 := mul_div_floor_big 128.
Definition mul_div_ceil_u128 := mul_div_ceil_big 128.
Definition mul_div_floor_u256 := mul_div_floor_big 256.
Definition mul_div_ceil_u256 := mul_div_ceil_big 256.

(** [to_underflow_u64] of [U128] and [U256]: zero when out of range. *)
Definition to_underflow_u64 (self : Z) : Result Z :=
  if self <? umax 64 then big_u64 self else Ok 0.

(** [impl UnsafeMathTrait for u64]: [div_rounding_up] *)
Definition div_rounding_up_u64 (x y : Z) : Result Z :=
  let! q := udiv x y in
  let! r := urem x y in
  uchk 64 (q + (if 0 <? r then 1 else 0)).

(** [impl UnsafeMathTrait for U128 / U256] at their width *)
Definition div_rounding_up_big (w x y : Z) : Result Z :=
  let! q := big_div x y in
  let! r := big_rem x y in
  big_add w q (if 0 <? r then 1 else 0).
Definition div_rounding_up_u128 := div_rounding_up_big 128.
Definition div_rounding_up_u256 := div_rounding_up_big 256.

(** ** Functional specifications *)

Lemma big_add_ok w a b : in_u w (a + b) -> big_add w a b = Ok (a + b).
Proof. intros. by apply big_add_Ok. Qed.
Lemma big_sub_ok w a b : in_u w (a - b) -> big_sub w a b = Ok (a - b).
Proof. intros. by apply big_sub_Ok. Qed.
Lemma big_mul_ok w a b : in_u w (a * b) -> big_mul w a b = Ok (a * b).
Proof. intros. by apply big_mul_Ok. Qed.
Lemma big_div_ok a b : b <> 0 -> big_div a b = Ok (a / b).
Proof. intros. by apply big_div_Ok. Qed.
Lemma big_rem_ok a b : b <> 0 -> big_rem a b = Ok (a mod b).
Proof. intros. by apply big_rem_Ok. Qed.
Lemma big_u64_ok a : in_u 64 a -> big_u64 a = Ok a.
Proof. intros. by apply big_u64_Ok. Qed.
Lemma big_u128_ok a : in_u 128 a -> big_u128 a = Ok a.
Proof. intros. by apply big_u128_Ok. Qed.

(** The range test followed by the narrowing cast is [ucheck]. *)
Lemma fits_check w r :
  0 <= w -> 0 <= r ->
  (if umax w <? r then Ok None else Ok (Some (downcast w r))) = @Ok error _ (ucheck w r).
Proof.
  intros Hw Hr. unfold ucheck, uok, umax, downcast, uwrap.
  destruct (Z.ltb_spec (2 ^ w - 1) r), (Z.leb_spec 0 r), (Z.ltb_spec r (2 ^ w)); simpl;
    try lia; [done|]. by rewrite Z.mod_small.
Qed.

Lemma fits_check_u64 r :
  0 <= r ->
  (if umax 64 <? r then Ok None else let! v := big_u64 r in Ok (Some v)) = Ok (ucheck 64 r).
Proof.
  intros Hr. unfold ucheck, uok, umax.
  destruct (Z.ltb_spec (2 ^ 64 - 1) r), (Z.leb_spec 0 r), (Z.ltb_spec r (2 ^ 64)); simpl;
    try lia; [done|]. by rewrite big_u64_ok by range.
Qed.

Lemma product_range w a b : 0 <= w -> in_u w a -> in_u w b -> in_u (2 * w) (a * b).
Proof. intros. replace (2 * w) with (w + w) by lia. by apply in_u_mul. Qed.

(** The rounded-up numerator still fits in the wide type. *)
Lemma ceil_sum_range w a b d :
  0 <= w -> in_u w a -> in_u w b -> in_u w d -> d <> 0 -> in_u (2 * w) (a * b + (d - 1)).
Proof.
  unfold in_u. intros Hw Ha Hb Hd Hd0. replace (2 * w) with (w + w) by lia.
  rewrite Z.pow_add_r by lia. nia.
Qed.

Lemma mul_div_floor_u64_spec a b d :
  in_u 64 a -> in_u 64 b -> in_u 64 d ->
  mul_div_floor_u64 a b d = Ok (if d =? 0 then None else ucheck 64 (a * b / d)).
Proof.
  intros Ha Hb Hd. unfold mul_div_floor_u64. destruct (Z.eqb_spec d 0); [done|].
  rewrite big_mul_ok by (by apply (product_range 64)). simpl.
  rewrite big_div_ok by done. simpl.
  apply fits_check_u64. apply Z.div_pos; unfold in_u in *; nia.
Qed.

Lemma mul_div_ceil_u64_spec a b d :
  in_u 64 a -> in_u 64 b -> in_u 64 d ->
  mul_div_ceil_u64 a b d = Ok (if d =? 0 then None else ucheck 64 (zceil (a * b) d)).
Proof.
  intros Ha Hb Hd. unfold mul_div_ceil_u64. destruct (Z.eqb_spec d 0); [done|].
  rewrite big_mul_ok by (by apply (product_range 64)). simpl.
  rewrite uchk_ok by range. simpl.
  rewrite big_add_ok by (by apply (ceil_sum_range 64)). simpl.
  rewrite big_div_ok by done. simpl.
  apply fits_check_u64. apply zceil_nonneg; unfold in_u in *; nia.
Qed.

Lemma mul_div_floor_big_spec w a b d :
  0 <= w -> in_u w a -> in_u w b -> in_u w d ->
  mul_div_floor_big w a b d = Ok (if d =? 0 then None else ucheck w (a * b / d)).
Proof.
  intros Hw Ha Hb Hd. unfold mul_div_floor_big. destruct (Z.eqb_spec d 0); [done|].
  rewrite big_mul_ok by (by apply product_range). simpl.
  rewrite big_div_ok by done. simpl.
  apply fits_check; [done|]. apply Z.div_pos; unfold in_u in *; nia.
Qed.

Lemma mul_div_ceil_big_spec w a b d :
  0 <= w -> in_u w a -> in_u w b -> in_u w d ->
  mul_div_ceil_big w a b d = Ok (if d =? 0 then None else ucheck w (zceil (a * b) d)).
Proof.
  intros Hw Ha Hb Hd. unfold mul_div_ceil_big. destruct (Z.eqb_spec d 0); [done|].
  rewrite big_mul_ok by (by apply product_range). simpl.
  rewrite big_sub_ok by range. simpl.
  rewrite big_add_ok by (by apply ceil_sum_range). simpl.
  rewrite big_div_ok by done. simpl.
  apply fits_check; [done|]. apply zceil_nonneg; unfold in_u in *; nia.
Qed.

Lemma to_underflow_u64_spec x :
  0 <= x -> to_underflow_u64 x = Ok (if x <? umax 64 then x else 0).
Proof.
  intros Hx. unfold to_underflow_u64. destruct (Z.ltb_spec x (umax 64)); [|done].
  apply big_u64_ok. range.
Qed.

Lemma div_rounding_up_u64_spec x y :
  in_u 64 x -> 0 < y -> div_rounding_up_u64 x y = Ok (zceil x y).
Proof.
  intros Hx Hy. unfold div_rounding_up_u64.
  rewrite (proj2 (udiv_Ok x y (x / y))) by (split; [lia|done]). simpl.
  rewrite (proj2 (urem_Ok x y (x mod y))) by (split; [lia|done]). simpl.
  rewrite zceil_div_mod by range. apply uchk_ok.
  rewrite <- zceil_div_mod by range. split; [apply zceil_nonneg; range|].
  enough (zceil x y <= x) by range. apply zceil_le; [done|]. unfold in_u in Hx. nia.
Qed.

Lemma div_rounding_up_big_spec w x y :
  in_u w x -> 0 < y -> div_rounding_up_big w x y = Ok (zceil x y).
Proof.
  intros Hx Hy. unfold div_rounding_up_big.
  rewrite big_div_ok, big_rem_ok by lia. simpl.
  rewrite zceil_div_mod by range. apply big_add_ok.
  rewrite <- zceil_div_mod by range. split; [apply zceil_nonneg; range|].
  enough (zceil x y <= x) by range. apply zceil_le; [done|]. unfold in_u in Hx. nia.
Qed.
End FullMath.
