(* ===== verification/TickMath.v ===== *)
(** [libraries/tick_math.rs]: the price of a tick ([1.0001^(tick/2)] as a
    Q64.64 number).  The tick of a price is in [TickOfPrice].

    The main result is that the price function is total and strictly
    increasing on the whole tick range. *)
From S2P Require Import Prelude.
From S2P Require Import AmmError.
From S2P Require Import BigNum.
From S2P Require Import FullMath.

Definition MIN_TICK : Z := -443636.
Definition MAX_TICK : Z := 443636.
Definition MIN_SQRT_PRICE_X64 : Z := 4295048016.
Definition MAX_SQRT_PRICE_X64 : Z := 79226673521066979257578248091.
Definition NUM_64 : Z := 64.

(** [abs_tick & mask != 0] *)
Definition has_bit (n mask : Z) : bool := negb (Z.land n mask =? 0).

Section TickMath.
Context {U : UintLib}.

(** [(ratio * factor) >> NUM_64] on [U128] *)
Definition mul_shift (ratio factor : Z) : Result Z :=
  let! p := big_mul 128 ratio factor in
  Ok (uint_shr p NUM_64).

Definition get_sqrt_price_at_tick (tick : Z) : Result Z :=
  do! require ((MIN_TICK <=? tick) && (tick <=? MAX_TICK)) TickUpperOverflow in
  let abs_tick := Z.abs tick in
  let ratio := if has_bit abs_tick 0x1 then 0xfffcb933bd6fb800 else 2 ^ 64 in
  let! ratio := if has_bit abs_tick 0x2 then mul_shift ratio 0xfff97272373d4000 else Ok ratio in
  let! ratio := if has_bit abs_tick 0x4 then mul_shift ratio 0xfff2e50f5f657000 else Ok ratio in
  let! ratio := if has_bit abs_tick 0x8 then mul_shift ratio 0xffe5caca7e10f000 else Ok ratio in
  let! ratio := if has_bit abs_tick 0x10 then mul_shift ratio 0xffcb9843d60f7000 else Ok ratio in
  let! ratio := if has_bit abs_tick 0x20 then mul_shift ratio 0xff973b41fa98e800 else Ok ratio in
  let! ratio := if has_bit abs_tick 0x40 then mul_shift ratio 0xff2ea16466c9b000 else Ok ratio in
  let! ratio := if has_bit abs_tick 0x80 then mul_shift ratio 0xfe5dee046a9a3800 else Ok ratio in
  let! ratio := if has_bit abs_tick 0x100 then mul_shift ratio 0xfcbe86c7900bb000 else Ok ratio in
  let! ratio := if has_bit abs_tick 0x200 then mul_shift ratio 0xf987a7253ac65800 else Ok ratio in
  let! ratio := if has_bit abs_tick 0x400 then mul_shift ratio 0xf3392b0822bb6000 else Ok ratio in
  let! ratio := if has_bit abs_tick 0x800 then mul_shift ratio 0xe7159475a2caf000 else Ok ratio in
  let! ratio := if has_bit abs_tick 0x1000 then mul_shift ratio 0xd097f3bdfd2f2000 else Ok ratio in
  let! ratio := if has_bit abs_tick 0x2000 then mul_shift ratio 0xa9f746462d9f8000 else Ok ratio in
  let! ratio := if has_bit abs_tick 0x4000 then mul_shift ratio 0x70d869a156f31c00 else Ok ratio in
  let! ratio := if has_bit abs_tick 0x8000 then mul_shift ratio 0x31be135f97ed3200 else Ok ratio in
  let! ratio := if has_bit abs_tick 0x10000 then mul_shift ratio 0x9aa508b5b85a500 else Ok ratio in
  let! ratio := if has_bit abs_tick 0x20000 then mul_shift ratio 0x5d6af8dedc582c else Ok ratio in
  let! ratio := if has_bit abs_tick 0x40000 then mul_shift ratio 0x2216e584f5fa else Ok ratio in
  let! ratio := if 0 <? tick then big_div (umax 128) ratio else Ok ratio in
  big_u128 ratio.

Definition get_price_at_tick (tick : Z) (round_up : bool) : Result Z :=
  let! token_0_sqrt_price := get_sqrt_price_at_tick tick in
  if round_up then
    or_overflow (mul_div_ceil_u128 token_0_sqrt_price token_0_sqrt_price Q64)
  else
    or_overflow (mul_div_floor_u128 token_0_sqrt_price token_0_sqrt_price Q64).
End TickMath.

(** * The price chain *)

(** The factors the code multiplies by, [2^64 / 1.0001^(2^(i-1))]. *)
Definition factors : list Z :=
  [0xfffcb933bd6fb800;
   0xfff97272373d4000;
   0xfff2e50f5f657000;
   0xffe5caca7e10f000;
   0xffcb9843d60f7000;
   0xff973b41fa98e800;
   0xff2ea16466c9b000;
   0xfe5dee046a9a3800;
   0xfcbe86c7900bb000;
   0xf987a7253ac65800;
   0xf3392b0822bb6000;
   0xe7159475a2caf000;
   0xd097f3bdfd2f2000;
   0xa9f746462d9f8000;
   0x70d869a156f31c00;
   0x31be135f97ed3200;
   0x9aa508b5b85a500;
   0x5d6af8dedc582c;
   0x2216e584f5fa].

(** The same computation as a fold over the factors: bit [i] of [n] selects
    factor [i]. *)
Fixpoint chain (fs : list Z) (n r : Z) : Z :=
  match fs with
  | [] => r
  | f :: fs => chain fs (Z.div2 n) (if Z.odd n then r * f / 2 ^ 64 else r)
  end.

Definition ratio_of (n : Z) : Z := chain factors n (2 ^ 64).


(** The price of a tick. *)
Definition price_of (tick : Z) : Z :=
  if 0 <? tick then umax 128 / ratio_of tick else ratio_of (Z.abs tick).

Section Chain.
Implicit Types (fs : list Z) (n r : Z).

Definition fs_ok (fs : list Z) : Prop := Forall (fun f => 0 <= f < 2 ^ 64) fs.

Lemma step_range r f : 0 <= r <= 2 ^ 64 -> 0 <= f < 2 ^ 64 -> 0 <= r * f / 2 ^ 64 <= 2 ^ 64.
Proof.
  intros Hr Hf. split; [apply Z.div_pos; nia|]. apply Z.div_le_upper_bound; nia.
Qed.

Lemma chain_range fs n r : fs_ok fs -> 0 <= r <= 2 ^ 64 -> 0 <= chain fs n r <= 2 ^ 64.
Proof.
  intros Hfs. revert n r. induction Hfs as [|f fs Hf Hfs IH]; intros n r Hr; simpl; [done|].
  apply IH. destruct (Z.odd n); [by apply step_range|done].
Qed.

(** Two chains over the same bits keep their relative distance up to one
    unit per factor. *)
Lemma same_bits c fs n a b j :
  fs_ok fs -> 0 < c -> 0 <= j -> c * b <= (c - 1) * a + c * j ->
  c * chain fs n b <= (c - 1) * chain fs n a + c * (j + Z.of_nat (length fs)).
Proof.
  intros Hfs Hc. revert n a b j. induction Hfs as [|f fs Hf Hfs IH]; intros n a b j Hj H.
  { simpl. lia. }
  cbn [chain length]. replace (j + Z.of_nat (S (length fs))) with (j + 1 + Z.of_nat (length fs)) by lia.
  apply IH; [lia|]. destruct (Z.odd n); [|nia].
  pose proof (zfloor_bounds (b * f) (2 ^ 64) eq_refl) as [Hb _].
  pose proof (zfloor_bounds (a * f) (2 ^ 64) eq_refl) as [_ Ha].
  set (b' := b * f / 2 ^ 64) in *. set (a' := a * f / 2 ^ 64) in *. clearbody a' b'.
  change (2 ^ 64) with 18446744073709551616 in *.
  assert (c * b * f <= ((c - 1) * a + c * j) * f) by nia.
  assert ((c - 1) * (a * f) <= (c - 1) * ((a' + 1) * 18446744073709551616)) by nia.
  assert (c * j * f <= c * j * 18446744073709551616) by nia.
  nia.
Qed.

(** The table: each factor is smaller, by a fraction [1/c], than the chain
    of all the factors before it. *)
Fixpoint gaps_ok (c : Z) (fs : list Z) (a : Z) : bool :=
  match fs with
  | [] => true
  | f :: fs => (c * f <=? (c - 1) * a) && gaps_ok c fs (a * f / 2 ^ 64)
  end.

Lemma odd_shape n : Z.odd n = true -> exists m, n = 2 * m + 1.
Proof. intros H. by apply Z.odd_spec in H. Qed.

Lemma even_shape n : Z.odd n = false -> exists m, n = 2 * m.
Proof.
  intros H. apply Z.even_spec. by rewrite <- Z.negb_odd, H.
Qed.

Lemma div2_odd m : Z.div2 (2 * m + 1) = m.
Proof. rewrite Z.div2_div. symmetry. apply Z.div_unique with (r := 1); lia. Qed.

Lemma div2_even m : Z.div2 (2 * m) = m.
Proof. rewrite Z.div2_div, Z.mul_comm. by apply Z.div_mul. Qed.

Lemma chain_succ c fs n a :
  fs_ok fs -> 0 < c -> gaps_ok c fs a = true -> 0 <= n < 2 ^ Z.of_nat (length fs) - 1 ->
  c * chain fs (n + 1) (2 ^ 64) <= (c - 1) * chain fs n a + c * Z.of_nat (length fs).
Proof.
  intros Hfs Hc. revert n a. induction Hfs as [|f fs Hf Hfs IH]; intros n a Hg Hn.
  { simpl in Hn. lia. }
  cbn [gaps_ok] in Hg. apply andb_true_iff in Hg as [Hgap Hg]. apply Z.leb_le in Hgap.
  cbn [length chain] in *. rewrite Nat2Z.inj_succ, Z.pow_succ_r in Hn by lia.
  rewrite Nat2Z.inj_succ. destruct (Z.odd n) eqn:Hodd.
  - destruct (odd_shape _ Hodd) as [m ->].
    replace (2 * m + 1 + 1) with (2 * (m + 1)) by lia.
    rewrite (Z.odd_even (m + 1)), div2_even, div2_odd.
    specialize (IH m _ Hg ltac:(lia)). nia.
  - destruct (even_shape _ Hodd) as [m ->].
    rewrite Z.odd_odd, div2_even, div2_odd, (Z.mul_comm (2 ^ 64) f), Z.div_mul by done.
    pose proof (same_bits c fs m a f 0 Hfs Hc ltac:(lia) ltac:(lia)). nia.
Qed.
End Chain.

(** The fraction used: [1/20100], a little below [1 - 1.0001^(-1/2)]. *)
Definition gap : Z := 20100.

Lemma factors_ok : fs_ok factors.
Proof. repeat constructor; done. Qed.

Lemma factors_gaps : gaps_ok gap factors (2 ^ 64) = true.
Proof. vm_compute. reflexivity. Qed.

Lemma ratio_of_max : ratio_of MAX_TICK = MIN_SQRT_PRICE_X64.
Proof. vm_compute. reflexivity. Qed.

Lemma ratio_of_range n : 0 <= ratio_of n <= 2 ^ 64.
Proof. apply chain_range; [apply factors_ok|done]. Qed.

Lemma ratio_of_succ_gap n :
  0 <= n < 2 ^ 19 - 1 -> gap * ratio_of (n + 1) <= (gap - 1) * ratio_of n + gap * 19.
Proof.
  intros Hn. apply (chain_succ gap factors n (2 ^ 64) factors_ok eq_refl factors_gaps Hn).
Qed.

Lemma ratio_of_ge n : 0 <= n <= MAX_TICK -> MIN_SQRT_PRICE_X64 <= ratio_of n.
Proof.
  intros Hn. unfold MAX_TICK in *. replace n with (443636 - (443636 - n)) by lia.
  assert (0 <= 443636 - n <= 443636) as Hd by lia. revert Hd.
  generalize (443636 - n) as d. clear. intros d [Hd0 Hd].
  revert Hd. pattern d. apply natlike_ind; [|clear d Hd0|done].
  - intros _. change (443636 - 0) with MAX_TICK. by rewrite ratio_of_max.
  - intros d Hd IH Hd'. specialize (IH ltac:(lia)).
    pose proof (ratio_of_succ_gap (443636 - Z.succ d) ltac:(lia)) as Hg.
    replace (443636 - Z.succ d + 1) with (443636 - d) in Hg by lia.
    unfold gap, MIN_SQRT_PRICE_X64 in *. lia.
Qed.

(** One tick is at least a fraction [1/(2 * gap)] of the price. *)
Lemma ratio_of_succ n :
  0 <= n < MAX_TICK -> 2 * gap * ratio_of (n + 1) <= (2 * gap - 1) * ratio_of n.
Proof.
  intros Hn. unfold MAX_TICK in Hn.
  pose proof (ratio_of_succ_gap n ltac:(lia)).
  pose proof (ratio_of_ge n ltac:(unfold MAX_TICK; lia)).
  unfold gap, MIN_SQRT_PRICE_X64 in *. lia.
Qed.

Lemma ratio_of_0 : ratio_of 0 = 2 ^ 64.
Proof. vm_compute. reflexivity. Qed.

Lemma inv_ratio_lt a b :
  0 < b <= 2 ^ 64 -> 0 < a -> 2 * gap * b <= (2 * gap - 1) * a -> umax 128 / a < umax 128 / b.
Proof.
  intros Hb Ha H. enough (umax 128 / a + 1 <= umax 128 / b) by lia.
  apply zfloor_ge; [lia|].
  pose proof (zfloor_bounds (umax 128) a Ha) as [Hq _].
  set (q := umax 128 / a) in *. clearbody q. unfold gap, umax in *.
  change (2 ^ 64) with 18446744073709551616 in *.
  change (2 ^ 128 - 1) with 340282366920938463463374607431768211455 in *.
  destruct (Z.le_gt_cases q 0); [nia|].
  assert (40200 * (q * b) <= 40199 * (q * a)) by nia. nia.
Qed.

Lemma price_of_succ t : MIN_TICK <= t < MAX_TICK -> price_of t < price_of (t + 1).
Proof.
  intros Ht. unfold price_of, MIN_TICK, MAX_TICK in *.
  destruct (Z.ltb_spec 0 t) as [Hp|Hp]; destruct (Z.ltb_spec 0 (t + 1)) as [Hp'|Hp']; try lia.
  - pose proof (ratio_of_ge (t + 1) ltac:(unfold MAX_TICK; lia)).
    pose proof (ratio_of_ge t ltac:(unfold MAX_TICK; lia)).
    pose proof (ratio_of_range (t + 1)).
    unfold MIN_SQRT_PRICE_X64 in *.
    apply inv_ratio_lt; [lia|lia|]. apply ratio_of_succ. unfold MAX_TICK. lia.
  - assert (t = 0) as -> by lia. vm_compute. done.
  - rewrite !Z.abs_neq by lia.
    pose proof (ratio_of_succ (- (t + 1)) ltac:(unfold MAX_TICK; lia)) as Hs.
    replace (- (t + 1) + 1) with (- t) in Hs by lia.
    pose proof (ratio_of_ge (- (t + 1)) ltac:(unfold MAX_TICK; lia)).
    unfold gap, MIN_SQRT_PRICE_X64 in *. lia.
Qed.

Lemma price_of_lt t1 t2 : MIN_TICK <= t1 -> t1 < t2 -> t2 <= MAX_TICK -> price_of t1 < price_of t2.
Proof.
  intros H1 H12. replace t2 with (t1 + 1 + (t2 - t1 - 1)) by lia.
  generalize (t2 - t1 - 1) as d, (ltac:(lia) : 0 <= t2 - t1 - 1). clear t2 H12.
  intros d Hd. pattern d. apply natlike_ind; [|clear d Hd|done].
  - intros H. rewrite Z.add_0_r in *. apply price_of_succ. lia.
  - intros d Hd IH H. specialize (IH ltac:(lia)).
    pose proof (price_of_succ (t1 + 1 + d) ltac:(lia)).
    replace (t1 + 1 + Z.succ d) with (t1 + 1 + d + 1) by lia. lia.
Qed.

Lemma price_of_le t1 t2 : MIN_TICK <= t1 -> t1 <= t2 -> t2 <= MAX_TICK -> price_of t1 <= price_of t2.
Proof.
  intros. destruct (Z.eq_dec t1 t2) as [->|]; [done|].
  pose proof (price_of_lt t1 t2). lia.
Qed.

Lemma price_of_min : price_of MIN_TICK = MIN_SQRT_PRICE_X64.
Proof. vm_compute. reflexivity. Qed.

Lemma price_of_max : price_of MAX_TICK = MAX_SQRT_PRICE_X64.
Proof. vm_compute. reflexivity. Qed.

Lemma price_of_range t :
  MIN_TICK <= t <= MAX_TICK -> MIN_SQRT_PRICE_X64 <= price_of t <= MAX_SQRT_PRICE_X64.
Proof.
  intros Ht. rewrite <- price_of_min, <- price_of_max.
  split; apply price_of_le; unfold MIN_TICK, MAX_TICK in *; lia.
Qed.

(** * The code computes [price_of] *)

Lemma has_bit_spec n i : 0 <= i -> has_bit n (2 ^ i) = Z.odd (Z.shiftr n i).
Proof.
  intros Hi. unfold has_bit. rewrite <- Z.testbit_odd.
  destruct (Z.testbit n i) eqn:Hb.
  - apply negb_true_iff, Z.eqb_neq. intros H0.
    assert (Z.testbit (Z.land n (2 ^ i)) i = false) as H1 by (by rewrite H0, Z.bits_0).
    by rewrite Z.land_spec, Hb, Z.pow2_bits_true in H1.
  - apply negb_false_iff, Z.eqb_eq. apply Z.bits_inj'. intros j Hj.
    rewrite Z.land_spec, Z.bits_0, Z.pow2_bits_eqb by done.
    destruct (Z.eqb_spec i j) as [->|]; [by rewrite Hb|]. apply andb_false_r.
Qed.

Section Code.
Context {U : UintLib}.

Lemma mul_shift_ok r f :
  0 <= r <= 2 ^ 64 -> 0 <= f < 2 ^ 64 -> mul_shift r f = Ok (r * f / 2 ^ 64).
Proof.
  intros Hr Hf. unfold mul_shift. rewrite big_mul_ok by (unfold in_u; nia).
  cbn [obind]. by rewrite uint_shr_law, Z.shiftr_div_pow2.
Qed.

(** The code's sequence of conditional multiplications, as a loop. *)
Fixpoint chain_code (fs : list Z) (i n r : Z) (k : Z -> Result Z) : Result Z :=
  match fs with
  | [] => k r
  | f :: fs =>
      let! r := if has_bit n (2 ^ i) then mul_shift r f else Ok r in
      chain_code fs (i + 1) n r k
  end.

Lemma chain_code_spec fs i n r k :
  fs_ok fs -> 0 <= i -> 0 <= r <= 2 ^ 64 ->
  chain_code fs i n r k = k (chain fs (Z.shiftr n i) r).
Proof.
  intros Hfs. revert i r. induction Hfs as [|f fs Hf Hfs IH]; intros i r Hi Hr; [done|].
  cbn [chain_code chain]. rewrite has_bit_spec by done.
  rewrite Z.div2_spec, Z.shiftr_shiftr by done.
  destruct (Z.odd (Z.shiftr n i)).
  - rewrite mul_shift_ok by done. apply IH; [lia|by apply step_range].
  - apply IH; [lia|done].
Qed.

Lemma get_sqrt_price_at_tick_ok t :
  MIN_TICK <= t <= MAX_TICK -> get_sqrt_price_at_tick t = Ok (price_of t).
Proof.
  intros Ht. unfold get_sqrt_price_at_tick, require.
  rewrite (proj2 (andb_true_iff _ _)) by (split; apply Z.leb_le; lia).
  cbn [Prelude.require obind].
  set (r0 := if has_bit (Z.abs t) 1 then _ else _).
  set (k := fun r : Z => let! ratio := if 0 <? t then big_div (umax 128) r else Ok r in
                         big_u128 ratio).
  change (chain_code (tl factors) 1 (Z.abs t) r0 k = Ok (price_of t)).
  assert (r0 = if Z.odd (Z.abs t) then 2 ^ 64 * 18445821805675395072 / 2 ^ 64 else 2 ^ 64) as ->.
  { unfold r0. change 1 with (2 ^ 0). rewrite has_bit_spec by done. by rewrite Z.shiftr_0_r. }
  rewrite chain_code_spec;
    [|apply Forall_tail, factors_ok|done|by destruct (Z.odd (Z.abs t))].
  match goal with |- k ?r = _ => change r with (ratio_of (Z.abs t)) end.
  pose proof (ratio_of_range (Z.abs t)).
  pose proof (ratio_of_ge (Z.abs t) ltac:(unfold MIN_TICK, MAX_TICK in *; lia)).
  pose proof (price_of_range t Ht) as Hp. unfold price_of, MIN_SQRT_PRICE_X64, MAX_SQRT_PRICE_X64 in *.
  unfold k. destruct (Z.ltb_spec 0 t).
  - rewrite big_div_ok by lia. cbn [obind]. rewrite Z.abs_eq in * by lia.
    apply big_u128_ok. range.
  - apply big_u128_ok. range.
Qed.

Lemma get_sqrt_price_at_tick_err t :
  ~ MIN_TICK <= t <= MAX_TICK -> get_sqrt_price_at_tick t = err TickUpperOverflow.
Proof.
  intros Ht. unfold get_sqrt_price_at_tick, require, Prelude.require.
  destruct (Z.leb_spec MIN_TICK t), (Z.leb_spec t MAX_TICK); simpl; try done. lia.
Qed.

Lemma get_sqrt_price_at_tick_Ok t p :
  get_sqrt_price_at_tick t = Ok p <-> MIN_TICK <= t <= MAX_TICK /\ p = price_of t.
Proof.
  destruct (decide (MIN_TICK <= t <= MAX_TICK)).
  - rewrite get_sqrt_price_at_tick_ok by done. naive_solver.
  - rewrite get_sqrt_price_at_tick_err by done. naive_solver.
Qed.
End Code.

Section Properties.
Context {U : UintLib}.

(** The price function is total on the tick range and rejects everything
    else: a tick of [MIN_TICK .. MAX_TICK] has a price between
    [MIN_SQRT_PRICE_X64] and [MAX_SQRT_PRICE_X64], with no overflow or
    division by zero on the way, and any other [i32] is refused with
    [TickUpperOverflow]. *)
Theorem sqrt_price_at_tick_total t :
  (MIN_TICK <= t <= MAX_TICK /\
   exists p, get_sqrt_price_at_tick t = Ok p /\ MIN_SQRT_PRICE_X64 <= p <= MAX_SQRT_PRICE_X64) \/
  (~ MIN_TICK <= t <= MAX_TICK /\ get_sqrt_price_at_tick t = err TickUpperOverflow).
Proof.
  destruct (decide (MIN_TICK <= t <= MAX_TICK)) as [Ht|Ht]; [left|right]; split; try done.
  - exists (price_of t). split; [by apply get_sqrt_price_at_tick_ok|by apply price_of_range].
  - by apply get_sqrt_price_at_tick_err.
Qed.

(** Prices are strictly increasing in the tick: for two ticks with a
    price, the ticks are ordered exactly as their prices, so the prices of
    two ticks never collide. *)
Theorem sqrt_price_at_tick_increasing t1 t2 p1 p2 :
  get_sqrt_price_at_tick t1 = Ok p1 -> get_sqrt_price_at_tick t2 = Ok p2 ->
  (t1 < t2 <-> p1 < p2).
Proof.
  intros [H1 ->]%get_sqrt_price_at_tick_Ok [H2 ->]%get_sqrt_price_at_tick_Ok. split.
  - intros. apply price_of_lt; lia.
  - intros Hp. destruct (Z.lt_ge_cases t1 t2) as [|Hle]; [done|].
    pose proof (price_of_le t2 t1). lia.
Qed.
End Properties.

Lemma sqrt_price_at_tick_increasing_witness :
  -3 < 0 <-> 18443977407934601305 < 18446744073709551616.
Proof.
  apply (sqrt_price_at_tick_increasing (U := uint_std)); vm_compute; reflexivity.
Defined.
