(* ===== verification/TickOfPrice.v ===== *)
(** The tick of a price, of [libraries/tick_math.rs]: [get_tick_at_sqrt_price]
    is the floor of the price in the scale of [get_sqrt_price_at_tick].

    The code computes 16 bits of the binary logarithm by repeated squaring and
    converts it to the scale of the ticks with an error below one tick, which it
    settles by comparing with the price of the higher candidate.  Logarithms are
    written as inequalities between powers, [2 ^ a <= x ^ M] and
    [x ^ M <= 2 ^ a], with one scale [M] for all; [M] is a variable, so that the
    powers are never computed. *)
From S2P Require Import Prelude.
From S2P Require Import AmmError.
From S2P Require Import BigNum.
From S2P Require Import TickMath.

#[local] Open Scope Z_scope.

(** * The code *)

Definition BIT_PRECISION : nat := 16.

(** [u128::leading_zeros] *)
Definition leading_zeros_u128 (x : Z) : Z := if x =? 0 then 128 else 127 - Z.log2 x.

Section Code.
Context {U : UintLib}.

(** The [while] loop of [get_tick_at_sqrt_price]: [n] is
    [BIT_PRECISION - precision]. *)
Fixpoint log2_fraction_loop (n : nat) (bit r log2p_fraction_x64 : Z) : Result Z :=
  match n with
  | O => Ok log2p_fraction_x64
  | S n =>
      if 0 <? bit then
        let! r := uchk 128 (r * r) in
        let is_r_more_than_two := Z.shiftr r 127 in
        let r := Z.shiftr r (63 + is_r_more_than_two) in
        let! f := ichk 128 (log2p_fraction_x64 + bit * is_r_more_than_two) in
        log2_fraction_loop n (Z.shiftr bit 1) r f
      else Ok log2p_fraction_x64
  end.

Definition get_tick_at_sqrt_price (sqrt_price_x64 : Z) : Result Z :=
  do! require ((MIN_SQRT_PRICE_X64 <=? sqrt_price_x64) && (sqrt_price_x64 <? MAX_SQRT_PRICE_X64))
        SqrtPriceX64 in
  let msb := 128 - leading_zeros_u128 sqrt_price_x64 - 1 in
  let log2p_integer_x32 := Z.shiftl (msb - 64) 32 in
  let r :=
    if 64 <=? msb then Z.shiftr sqrt_price_x64 (msb - 63)
    else uwrap 128 (Z.shiftl sqrt_price_x64 (63 - msb)) in
  let! log2p_fraction_x64 := log2_fraction_loop BIT_PRECISION 0x8000000000000000 r 0 in
  let log2p_fraction_x32 := Z.shiftr log2p_fraction_x64 32 in
  let! log2p_x32 := ichk 128 (log2p_integer_x32 + log2p_fraction_x32) in
  let! log_sqrt_10001_x64 := ichk 128 (log2p_x32 * 59543866431248) in
  let! low := ichk 128 (log_sqrt_10001_x64 - 184467440737095516) in
  let tick_low := iwrap 32 (Z.shiftr low 64) in
  let! high := ichk 128 (log_sqrt_10001_x64 + 15793534762490258745) in
  let tick_high := iwrap 32 (Z.shiftr high 64) in
  if tick_low =? tick_high then Ok tick_low
  else
    let! p := get_sqrt_price_at_tick tick_high in
    if p <=? sqrt_price_x64 then Ok tick_high else Ok tick_low.
End Code.

(** * Powers *)

Lemma pow_le x y M : 0 <= M -> 0 <= x <= y -> x ^ M <= y ^ M.
Proof. intros. by apply Z.pow_le_mono_l. Qed.

Lemma pow_le_inv x y M : 0 < M -> 0 <= y -> x ^ M <= y ^ M -> x <= y.
Proof.
  intros HM Hy H. destruct (Z.le_gt_cases x y) as [|Hlt]; [done|].
  pose proof (Z.pow_lt_mono_l y x M HM ltac:(lia)). lia.
Qed.

Lemma pow2_pos a : 0 <= a -> 0 < 2 ^ a.
Proof. intros. apply Z.pow_pos_nonneg; lia. Qed.

Lemma pow2_le a b : 0 <= a <= b -> 2 ^ a <= 2 ^ b.
Proof. intros. apply Z.pow_le_mono_r; lia. Qed.

Lemma pow2_le_inv a b : 0 <= b -> 2 ^ a <= 2 ^ b -> a <= b.
Proof. intros Hb H. apply (Z.pow_le_mono_r_iff 2) in H; lia. Qed.

(** Dividing by a power of two. *)
Lemma pow2_div_le a b y : 0 <= b <= a -> 2 ^ a <= y * 2 ^ b -> 2 ^ (a - b) <= y.
Proof.
  intros Hb H. replace a with (a - b + b) in H by lia. rewrite Z.pow_add_r in H by lia.
  pose proof (pow2_pos b ltac:(lia)). nia.
Qed.

Lemma pow2_div_ge a b y : 0 <= b <= a -> y * 2 ^ b <= 2 ^ a -> y <= 2 ^ (a - b).
Proof.
  intros Hb H. replace a with (a - b + b) in H by lia. rewrite Z.pow_add_r in H by lia.
  pose proof (pow2_pos b ltac:(lia)). nia.
Qed.

(** Bernoulli: [n + 1] to the [n] is at most four times [n] to the [n]; it is
    enough that the power is at most [n]. *)
Lemma bernoulli n m : 0 <= m -> m <= n -> (n + 1) ^ m * (n - m) <= n ^ m * n.
Proof.
  intros Hm. revert n. pattern m. apply natlike_ind; [|clear m Hm; intros m Hm IH|done].
  - intros n _. rewrite !Z.pow_0_r. lia.
  - intros n Hn. rewrite !Z.pow_succ_r by lia. specialize (IH n ltac:(lia)).
    assert (0 <= (n + 1) ^ m) by (apply Z.pow_nonneg; lia).
    assert ((n + 1) * (n - Z.succ m) <= n * (n - m)) by nia. nia.
Qed.

Lemma pow_succ_double n m : 0 <= m -> 0 < n -> 2 * m <= n -> (n + 1) ^ m <= 2 * n ^ m.
Proof.
  intros Hm Hn H. pose proof (bernoulli n m Hm ltac:(lia)).
  assert (0 <= (n + 1) ^ m) by (apply Z.pow_nonneg; lia). nia.
Qed.

(** One more changes a power by little: [(x + 1) ^ (m * k) <= x ^ (m * k) * 2 ^ k]
    when [2 * m <= x]. *)
Lemma pow_succ_bound x m k : 0 <= m -> 0 <= k -> 0 < x -> 2 * m <= x ->
  (x + 1) ^ (m * k) <= x ^ (m * k) * 2 ^ k.
Proof.
  intros Hm Hk Hx H. rewrite !Z.pow_mul_r, <- Z.pow_mul_l by lia. apply pow_le; [done|].
  split; [apply Z.pow_nonneg; lia|]. pose proof (pow_succ_double x m Hm Hx H). lia.
Qed.

(** * Logarithms of constants *)

(** Repeated squaring, rounded down and up to 128 bits: mantissa, exponent. *)
Fixpoint squares_lo (n : nat) (m e : Z) : Z * Z :=
  match n with
  | O => (m, e)
  | S n => let s := Z.log2 (m * m) - 127 in squares_lo n (Z.shiftr (m * m) s) (2 * e + s)
  end.

Fixpoint squares_hi (n : nat) (m e : Z) : Z * Z :=
  match n with
  | O => (m, e)
  | S n => let s := Z.log2 (m * m) - 127 in squares_hi n (Z.shiftr (m * m) s + 1) (2 * e + s)
  end.

Lemma squares_lo_ok n m e x M m' e' :
  0 < M -> 2 ^ 120 <= m -> 0 <= e -> m * 2 ^ e <= x ^ M -> squares_lo n m e = (m', e') ->
  0 <= e' /\ m' * 2 ^ e' <= x ^ (M * 2 ^ Z.of_nat n).
Proof.
  revert m e M. induction n as [|n IH]; intros m e M HM Hm He Hx H; cbn [squares_lo] in H.
  - injection H as <- <-. by rewrite Z.mul_1_r.
  - cbn zeta in H. set (s := Z.log2 (m * m) - 127) in *.
    assert (2 ^ 240 <= m * m) as Hmm by (change (2 ^ 240) with (2 ^ 120 * 2 ^ 120); nia).
    pose proof (Z.log2_le_mono _ _ Hmm) as Hl. rewrite Z.log2_pow2 in Hl by done.
    assert (0 < m * m) as Hpos by lia. destruct (Z.log2_spec (m * m) Hpos) as [Hl1 Hl2].
    assert (Z.log2 (m * m) = s + 127) as El by lia. rewrite El in *.
    rewrite Z.shiftr_div_pow2 in H by lia. pose proof (pow2_pos s ltac:(lia)) as Hs.
    pose proof (zfloor_bounds (m * m) (2 ^ s) Hs) as [Hq _].
    rewrite Z.pow_add_r in Hl1 by lia.
    apply (IH _ _ (M * 2)) in H; [|lia| |lia|].
    + rewrite Nat2Z.inj_succ, Z.pow_succ_r, Z.mul_assoc by lia. exact H.
    + apply zfloor_ge; [done|]. assert (2 ^ 120 <= 2 ^ 127) by done. nia.
    + rewrite Z.pow_mul_r, Z.pow_add_r, (Z.mul_comm 2 e), Z.pow_mul_r, !Z.pow_2_r by lia.
      pose proof (pow2_pos e He). nia.
Qed.

Lemma squares_hi_ok n m e x M m' e' :
  0 < M -> 0 <= x -> 2 ^ 120 <= m -> 0 <= e -> x ^ M <= m * 2 ^ e -> squares_hi n m e = (m', e') ->
  0 <= e' /\ x ^ (M * 2 ^ Z.of_nat n) <= m' * 2 ^ e'.
Proof.
  intros HM Hx0. revert m e M HM. induction n as [|n IH]; intros m e M HM Hm He Hx H; cbn [squares_hi] in H.
  - injection H as <- <-. by rewrite Z.mul_1_r.
  - cbn zeta in H. set (s := Z.log2 (m * m) - 127) in *.
    assert (2 ^ 240 <= m * m) as Hmm by (change (2 ^ 240) with (2 ^ 120 * 2 ^ 120); nia).
    pose proof (Z.log2_le_mono _ _ Hmm) as Hl. rewrite Z.log2_pow2 in Hl by done.
    assert (0 < m * m) as Hpos by lia. destruct (Z.log2_spec (m * m) Hpos) as [Hl1 Hl2].
    assert (Z.log2 (m * m) = s + 127) as El by lia. rewrite El in *.
    rewrite Z.shiftr_div_pow2 in H by lia. pose proof (pow2_pos s ltac:(lia)) as Hs.
    pose proof (zfloor_bounds (m * m) (2 ^ s) Hs) as [_ Hq].
    rewrite Z.pow_add_r in Hl1 by lia.
    apply (IH _ _ (M * 2)) in H; [|lia| |lia|].
    + rewrite Nat2Z.inj_succ, Z.pow_succ_r, Z.mul_assoc by lia. exact H.
    + enough (2 ^ 127 <= m * m / 2 ^ s) by (assert (2 ^ 120 <= 2 ^ 127) by done; lia).
      apply zfloor_ge; [done|]. nia.
    + rewrite Z.pow_mul_r, Z.pow_add_r, (Z.mul_comm 2 e), Z.pow_mul_r, !Z.pow_2_r by lia.
      pose proof (pow2_pos e He). assert (0 <= x ^ M) by (apply Z.pow_nonneg; lia). nia.
Qed.

(** The scale of the logarithms and the logarithm of one tick in it,
    [2 ^ 64 * log2 (sqrt 1.0001)]. *)
Definition log_scale : Z := 2 ^ 64.
Definition tick_log : Z := 1330584781654115.

(** How far the logarithm of a factor may be off, how far one rounding may
    move a logarithm, and the two together for a whole price. *)
Definition factor_slack : Z := 2 ^ 27.
Definition rounding_slack : Z := 2 ^ 33.
Definition price_slack : Z := 20 * (factor_slack + rounding_slack).

(** [f] as repeated squaring bounds it, against the logarithm it should have. *)
Definition near (want : Z) (lo hi : Z * Z) (m : Z) : bool :=
  (0 <=? want - factor_slack) && (2 ^ 127 <=? lo.1) && (hi.1 <=? 2 ^ 128) && (2 ^ 120 <=? m) &&
  (want - factor_slack + 80 * log_scale <=? 127 + lo.2) && (128 + hi.2 <=? want + factor_slack + 80 * log_scale).

(** Factor number [i] has the logarithm of [- 2 ^ i] ticks. *)
Definition check_factor (i f : Z) : bool :=
  near (64 * log_scale - 2 ^ i * tick_log) (squares_lo 64 (f * 2 ^ 80) 0) (squares_hi 64 (f * 2 ^ 80) 0)
    (f * 2 ^ 80).

Fixpoint check_factors (i : Z) (fs : list Z) : bool :=
  match fs with
  | [] => true
  | f :: fs => check_factor i f && check_factors (i + 1) fs
  end.

Lemma factors_checked : check_factors 0 factors = true.
Proof. vm_compute. reflexivity. Qed.

Section Logarithms.
Context (M : Z) (HM : M = log_scale).

(** [x] has a logarithm of at least, at most [a]. *)
Definition at_least (x a : Z) : Prop := 0 <= a /\ 2 ^ a <= x ^ M.
Definition at_most (x a : Z) : Prop := 0 <= a /\ x ^ M <= 2 ^ a.

Lemma M_pos : 0 < M.
Proof. rewrite HM. reflexivity. Qed.

Lemma at_least_weaken x a b : at_least x a -> 0 <= b <= a -> at_least x b.
Proof. intros [Ha H] Hb. split; [lia|]. pose proof (pow2_le b a). lia. Qed.

Lemma at_most_weaken x a b : at_most x a -> a <= b -> at_most x b.
Proof. intros [Ha H] Hb. split; [lia|]. pose proof (pow2_le a b). lia. Qed.

(** Numbers are ordered as their logarithms. *)
Lemma log_le x y a b : 0 <= y -> at_most x a -> at_least y b -> a <= b -> x <= y.
Proof.
  intros Hy [Ha Hx] [Hb Hy'] H. apply (pow_le_inv x y M M_pos Hy). pose proof (pow2_le a b). lia.
Qed.

Lemma log_order x a b : at_least x a -> at_most x b -> a <= b.
Proof. intros [Ha H1] [Hb H2]. apply pow2_le_inv; [done|]. lia. Qed.

Lemma log_lt x y a b : 0 <= x -> 0 <= y -> at_most x a -> at_least y b -> a < b -> x < y.
Proof.
  intros Hx Hy [Ha H1] [Hb H2] H. destruct (Z.lt_ge_cases x y) as [|Hle]; [done|exfalso].
  pose proof (pow_le y x M ltac:(pose proof M_pos; lia) ltac:(lia)).
  pose proof (pow2_le_inv b a Ha ltac:(lia)). lia.
Qed.

Lemma near_ok n f want :
  0 <= f -> M = 1 * 2 ^ Z.of_nat n ->
  near want (squares_lo n (f * 2 ^ 80) 0) (squares_hi n (f * 2 ^ 80) 0) (f * 2 ^ 80) = true ->
  at_least f (want - factor_slack) /\ at_most f (want + factor_slack).
Proof.
  intros Hf HM' H. unfold near in H.
  destruct (squares_lo _ _ _) as [ml el] eqn:El. destruct (squares_hi _ _ _) as [mh eh] eqn:Eh.
  cbn [fst snd] in H. rewrite !andb_true_iff, !Z.leb_le in H.
  destruct H as [[[[[H1 H2] H3] H4] H5] H6]. pose proof M_pos as HM0.
  assert (f * 2 ^ 80 * 2 ^ 0 <= (f * 2 ^ 80) ^ 1) as Hlo by (rewrite Z.pow_1_r; lia).
  assert ((f * 2 ^ 80) ^ 1 <= f * 2 ^ 80 * 2 ^ 0) as Hhi by (rewrite Z.pow_1_r; lia).
  destruct (squares_lo_ok n _ 0 _ 1 ml el ltac:(lia) H4 ltac:(lia) Hlo El) as [He1 Lo].
  destruct (squares_hi_ok n _ 0 (f * 2 ^ 80) 1 mh eh ltac:(lia) ltac:(lia) H4 ltac:(lia) Hhi Eh) as [He2 Hi'].
  rewrite <- HM' in Lo, Hi'. clear El Eh Hlo Hhi HM'.
  rewrite Z.pow_mul_l, <- (Z.pow_mul_r 2 80 M) in Lo, Hi' by lia. rewrite <- HM in *.
  assert (0 <= factor_slack) by done. split; (split; [lia|]).
  - replace (want - factor_slack) with (want - factor_slack + 80 * M - 80 * M) by lia.
    apply pow2_div_le; [lia|]. etrans; [apply (pow2_le _ (127 + el)); lia|].
    rewrite Z.pow_add_r by lia. pose proof (pow2_pos el He1). nia.
  - replace (want + factor_slack) with (want + factor_slack + 80 * M - 80 * M) by lia.
    apply pow2_div_ge; [lia|]. etrans; [exact Hi'|].
    etrans; [|apply (pow2_le (128 + eh)); lia].
    rewrite Z.pow_add_r by lia. pose proof (pow2_pos eh He2). nia.
Qed.

Lemma check_factor_ok i f : 0 <= f -> check_factor i f = true ->
  let want := 64 * log_scale - 2 ^ i * tick_log in
  at_least f (want - factor_slack) /\ at_most f (want + factor_slack).
Proof. intros Hf H. apply (near_ok 64); [done|by rewrite HM|exact H]. Qed.

(** One rounding down. *)
Lemma succ_at_least x a : 2 ^ 32 <= x -> at_least (x + 1) a -> rounding_slack <= a ->
  at_least x (a - rounding_slack).
Proof.
  intros Hx [Ha H] Hr. split; [lia|]. apply pow2_div_le; [split; [done|lia]|].
  assert (M = 2 ^ 31 * rounding_slack) as E by (by rewrite HM). pose proof M_pos. assert (0 <= rounding_slack) by done.
  etrans; [exact H|]. rewrite E. apply pow_succ_bound; lia.
Qed.

Lemma scaled_at_most r f a b :
  0 <= r -> 0 <= f -> at_most r a -> at_most f b -> 64 * M <= a + b -> at_most (r * f / 2 ^ 64) (a + b - 64 * M).
Proof.
  intros Hr Hf [Ha H1] [Hb H2] H. pose proof M_pos. split; [lia|]. apply pow2_div_ge; [lia|].
  rewrite (Z.pow_mul_r 2 64 M), <- Z.pow_mul_l, Z.pow_add_r by lia.
  pose proof (zfloor_bounds (r * f) (2 ^ 64) ltac:(lia)) as [Hq _].
  assert (0 <= r * f / 2 ^ 64) as Hq0 by (apply Z.div_pos; nia).
  etrans; [apply (pow_le _ (r * f)); lia|]. rewrite Z.pow_mul_l.
  assert (0 <= r ^ M) by (apply Z.pow_nonneg; lia). assert (0 <= f ^ M) by (apply Z.pow_nonneg; lia). nia.
Qed.

Lemma scaled_at_least r f a b :
  0 <= r -> 0 <= f -> at_least r a -> at_least f b -> 2 ^ 32 <= r * f / 2 ^ 64 ->
  64 * M + rounding_slack <= a + b -> at_least (r * f / 2 ^ 64) (a + b - 64 * M - rounding_slack).
Proof.
  intros Hr Hf [Ha H1] [Hb H2] Hbig H. pose proof M_pos. assert (0 <= rounding_slack) by done.
  apply succ_at_least; [done| |lia]. split; [lia|]. apply pow2_div_le; [lia|].
  rewrite (Z.pow_mul_r 2 64 M), <- Z.pow_mul_l, Z.pow_add_r by lia.
  pose proof (zfloor_bounds (r * f) (2 ^ 64) ltac:(lia)) as [_ Hq].
  etrans; [|apply (pow_le (r * f)); nia]. rewrite Z.pow_mul_l.
  pose proof (pow2_pos a Ha). pose proof (pow2_pos b Hb). nia.
Qed.

Lemma chain_le fs n r : fs_ok fs -> 0 <= r <= 2 ^ 64 -> chain fs n r <= r.
Proof.
  intros Hfs. revert n r. induction Hfs as [|f fs Hf Hfs IH]; intros n r Hr; [done|]. cbn [chain].
  pose proof (step_range r f Hr Hf). specialize (IH (Z.div2 n)).
  destruct (Z.odd n); [|by apply IH]. etrans; [by apply IH|]. apply zfloor_le; [done|]. nia.
Qed.

(** The chain of factors has the logarithm of [- n] ticks. *)
Lemma chain_log fs : forall i n r A e,
  fs_ok fs -> check_factors i fs = true -> 0 <= i -> 0 <= n < 2 ^ Z.of_nat (length fs) ->
  0 <= r <= 2 ^ 64 -> 2 ^ 32 <= chain fs n r -> 0 <= e ->
  at_least r (A - e) -> at_most r (A + e) ->
  let want := A - 2 ^ i * n * tick_log in
  let slack := e + Z.of_nat (length fs) * (factor_slack + rounding_slack) in
  0 <= want - slack ->
  at_least (chain fs n r) (want - slack) /\ at_most (chain fs n r) (want + slack).
Proof.
  induction fs as [|f fs IH]; intros i n r A e Hfs Hc Hi Hn Hr Hbig He Hlo Hhi want slack Hw.
  { cbn [length chain] in *. change (2 ^ Z.of_nat 0) with 1 in Hn. assert (n = 0) as -> by lia.
    replace (want - slack) with (A - e) by lia. replace (want + slack) with (A + e) by lia. done. }
  cbn [check_factors] in Hc. apply andb_true_iff in Hc as [Hf Hc]. inversion Hfs as [|? ? Hf0 Hfs']; subst.
  apply check_factor_ok in Hf as [Fl Fh]; [|lia]. rewrite <- HM in Fl, Fh.
  assert (0 <= factor_slack) by done. assert (0 <= rounding_slack) by done. assert (0 < tick_log) by done.
  pose proof (pow2_pos i Hi) as Hp. cbn [length chain] in *.
  rewrite Nat2Z.inj_succ, Z.pow_succ_r in Hn by lia. unfold want, slack in *. rewrite Nat2Z.inj_succ in *.
  assert (2 ^ (i + 1) = 2 * 2 ^ i) as Hi1 by (rewrite Z.pow_add_r by lia; lia).
  destruct (Z.odd n) eqn:Ho.
  - destruct (odd_shape _ Ho) as [m ->]. rewrite div2_odd in *.
    pose proof (step_range r f Hr Hf0) as Hr1.
    assert (2 ^ 32 <= r * f / 2 ^ 64) as Hb1 by (etrans; [exact Hbig|]; by apply chain_le).
    assert (0 <= 2 ^ i * m * tick_log) by nia.
    specialize (IH (i + 1) m (r * f / 2 ^ 64) (A - 2 ^ i * tick_log) (e + (factor_slack + rounding_slack))
      Hfs' Hc ltac:(lia) ltac:(lia) Hr1 Hbig ltac:(lia)).
    cbn zeta in IH. rewrite Hi1 in IH.
    replace (A - 2 ^ i * (2 * m + 1) * tick_log) with (A - 2 ^ i * tick_log - 2 * 2 ^ i * m * tick_log) in Hw |- * by lia.
    replace (e + Z.succ (Z.of_nat (length fs)) * (factor_slack + rounding_slack))
      with (e + (factor_slack + rounding_slack) + Z.of_nat (length fs) * (factor_slack + rounding_slack)) in Hw |- * by lia.
    apply IH; [| |done].
    + eapply at_least_weaken; [apply (scaled_at_least r f _ _ ltac:(lia) ltac:(lia) Hlo Fl Hb1); lia|lia].
    + eapply at_most_weaken; [apply (scaled_at_most r f _ _ ltac:(lia) ltac:(lia) Hhi Fh)|]; lia.
  - destruct (even_shape _ Ho) as [m ->]. rewrite div2_even in *.
    specialize (IH (i + 1) m r A e Hfs' Hc ltac:(lia) ltac:(lia) Hr Hbig He Hlo Hhi).
    cbn zeta in IH. rewrite Hi1 in IH.
    replace (2 ^ i * (2 * m) * tick_log) with (2 * 2 ^ i * m * tick_log) in * by lia.
    destruct IH as [G1 G2]; [lia|]. split; [eapply at_least_weaken|eapply at_most_weaken]; try done; lia.
Qed.

Lemma ratio_log n : 0 <= n <= MAX_TICK ->
  at_least (ratio_of n) (64 * M - n * tick_log - 19 * (factor_slack + rounding_slack)) /\
  at_most (ratio_of n) (64 * M - n * tick_log + 19 * (factor_slack + rounding_slack)).
Proof.
  intros Hn. pose proof (ratio_of_ge n Hn) as Hge. unfold ratio_of, MIN_SQRT_PRICE_X64, MAX_TICK in *.
  assert (64 * M = 1180591620717411303424) as E by (by rewrite HM).
  destruct (chain_log factors 0 n (2 ^ 64) (64 * M) 0 factors_ok factors_checked) as [H1 H2]; try lia.
  - cbn. lia.
  - rewrite ?Z.sub_0_r, ?Z.add_0_r. split; [lia|]. rewrite (Z.pow_mul_r 2 64 M); lia.
  - rewrite ?Z.sub_0_r, ?Z.add_0_r. split; [lia|]. rewrite (Z.pow_mul_r 2 64 M); lia.
  - cbn [length factors]. unfold tick_log, factor_slack, rounding_slack. lia.
  - rewrite Z.pow_0_r, Z.mul_1_l in *. done.
Qed.

(** The price of a tick has its logarithm. *)
Lemma price_log t : MIN_TICK <= t <= MAX_TICK ->
  at_least (price_of t) (64 * M + t * tick_log - price_slack) /\
  at_most (price_of t) (64 * M + t * tick_log + price_slack).
Proof.
  intros Ht. unfold MIN_TICK, MAX_TICK in Ht. pose proof M_pos.
  assert (64 * M = 1180591620717411303424) as E by (by rewrite HM).
  unfold price_of, price_slack. destruct (Z.ltb_spec 0 t) as [Hp|Hp].
  - destruct (ratio_log t) as [[Ha H1] [Hb H2]]; [unfold MAX_TICK; lia|].
    pose proof (ratio_of_ge t ltac:(unfold MAX_TICK; lia)) as Hr. unfold MIN_SQRT_PRICE_X64 in Hr.
    pose proof (ratio_of_range t) as Hr2. set (r := ratio_of t) in *. clearbody r.
    set (W := 19 * (factor_slack + rounding_slack)) in *.
    assert (W + factor_slack + rounding_slack = 20 * (factor_slack + rounding_slack)) as EW by (unfold W; lia).
    assert (factor_slack = 134217728) as Ef by done. assert (rounding_slack = 8589934592) as Er by done.
    assert (tick_log = 1330584781654115) as Et by done.
    pose proof (zfloor_bounds (umax 128) r ltac:(lia)) as [Hq1 Hq2]. set (q := umax 128 / r) in *.
    assert (2 ^ 32 <= q) as Hq by (apply zfloor_ge; [lia|]; unfold umax; nia). clearbody q.
    assert (q * r <= 2 ^ 128) as Hq1' by (unfold umax in *; lia).
    assert (2 ^ 128 <= (q + 1) * r) as Hq2' by (unfold umax in *; lia). clear Hq1 Hq2.
    assert (2 ^ (128 * M) = (2 ^ 128) ^ M) as E128 by (rewrite Z.pow_mul_r; lia).
    split.
    + eapply at_least_weaken; [apply (succ_at_least q (128 * M - (64 * M - t * tick_log + W)))|]; [lia| |lia..].
      split; [lia|]. apply pow2_div_le; [lia|]. rewrite E128.
      etrans; [apply (pow_le _ ((q + 1) * r)); lia|]. rewrite Z.pow_mul_l.
      assert (0 <= (q + 1) ^ M) by (apply Z.pow_nonneg; lia). nia.
    + apply (at_most_weaken _ (128 * M - (64 * M - t * tick_log - W))); [|lia].
      split; [lia|]. apply pow2_div_ge; [lia|]. rewrite E128.
      etrans; [|apply (pow_le (q * r)); nia]. rewrite Z.pow_mul_l.
      assert (0 <= q ^ M) by (apply Z.pow_nonneg; lia). nia.
  - destruct (ratio_log (Z.abs t)) as [H1 H2]; [unfold MAX_TICK; lia|].
    assert (factor_slack = 134217728) as Ef by done. assert (rounding_slack = 8589934592) as Er by done.
    replace (Z.abs t) with (- t) in * by lia.
    split; [eapply at_least_weaken; [exact H1|]|eapply at_most_weaken; [exact H2|]];
      unfold tick_log in *; lia.
Qed.
End Logarithms.

(** * The binary logarithm by repeated squaring *)

(** One squaring of a mantissa known up to [c]. *)
Lemma square_step r c r1 b :
  2 ^ 63 <= r < 2 ^ 64 -> 1 <= c <= 2 ^ 48 -> b = 0 \/ b = 1 -> r * r < (r1 + 1) * (2 ^ 63 * (b + 1)) ->
  (r + c) * (r + c) <= (r1 + 8 * c) * (2 ^ 63 * (b + 1)).
Proof.
  intros Hr Hc Hb Hq. assert (c * c <= 2 ^ 63 * c) by (apply Z.mul_le_mono_nonneg_r; lia).
  assert (r * c <= 2 ^ 64 * c) by (apply Z.mul_le_mono_nonneg_r; lia). destruct Hb as [-> | ->]; lia.
Qed.

(** One squaring before [k] others. *)
Lemma squarings_step k r c r1 b F r' C :
  0 <= k -> b = 0 \/ b = 1 -> 0 <= F < 2 ^ k -> 0 <= r -> 0 <= c -> 0 <= r1 ->
  r1 * 2 ^ (63 + b) <= r * r -> (r + c) * (r + c) <= (r1 + 8 * c) * 2 ^ (63 + b) ->
  r' * 2 ^ (63 * (2 ^ k - 1) + F) <= r1 ^ (2 ^ k) ->
  (r1 + 8 * c) ^ (2 ^ k) <= (r' + C) * 2 ^ (63 * (2 ^ k - 1) + F) ->
  let e := 63 * (2 * 2 ^ k - 1) + (b * 2 ^ k + F) in
  r' * 2 ^ e <= r ^ (2 * 2 ^ k) /\ (r + c) ^ (2 * 2 ^ k) <= (r' + C) * 2 ^ e.
Proof.
  intros Hk Hb HF Hr Hc Hr1 Hq1 Hq2 Hlo Hhi e. pose proof (pow2_pos k Hk) as Hpk.
  assert (e = 63 * (2 ^ k - 1) + F + (63 + b) * 2 ^ k) as Ee by (unfold e; ring).
  assert (0 <= 63 * (2 ^ k - 1) + F) by lia.
  rewrite Ee, Z.pow_add_r, (Z.pow_mul_r 2 (63 + b)), !Z.mul_assoc by (clear -Hpk Hb HF H; destruct Hb; subst; lia).
  set (P := 2 ^ (63 * (2 ^ k - 1) + F)) in *. set (Q := 2 ^ (63 + b)) in *. clear e Ee.
  assert (0 < Q) as HQ by (apply pow2_pos; lia). clearbody P Q.
  assert (0 < Q ^ (2 ^ k)) as HQk by (apply Z.pow_pos_nonneg; lia).
  rewrite !(Z.pow_mul_r _ 2), !Z.pow_2_r by lia. split.
  - etrans; [|apply (pow_le (r1 * Q)); [lia|split; [by apply Z.mul_nonneg_nonneg; lia|done]]].
    rewrite Z.pow_mul_l. apply Z.mul_le_mono_nonneg_r; lia.
  - etrans; [apply (pow_le _ ((r1 + 8 * c) * Q)); [lia|split; [by apply Z.mul_nonneg_nonneg; lia|done]]|].
    rewrite Z.pow_mul_l. apply Z.mul_le_mono_nonneg_r; lia.
Qed.

(** The bits of [log2_fraction_loop]: [n] squarings, the mantissa in [0; 2^64),
    the bit of the next squaring [2 ^ j]. *)
Lemma log2_fraction_loop_ok n : forall j r f c,
  2 ^ 63 <= r < 2 ^ 64 -> Z.of_nat n <= j + 1 -> j < 64 -> 0 <= f -> f + 2 * 2 ^ j <= 2 ^ 65 ->
  1 <= c -> c * 8 ^ Z.of_nat n <= 2 ^ 48 ->
  exists F r', log2_fraction_loop n (2 ^ j) r f = Ok (f + F * 2 ^ (j + 1 - Z.of_nat n)) /\
    0 <= F < 2 ^ Z.of_nat n /\ 2 ^ 63 <= r' < 2 ^ 64 /\
    r' * 2 ^ (63 * (2 ^ Z.of_nat n - 1) + F) <= r ^ (2 ^ Z.of_nat n) /\
    (r + c) ^ (2 ^ Z.of_nat n) <= (r' + c * 8 ^ Z.of_nat n) * 2 ^ (63 * (2 ^ Z.of_nat n - 1) + F).
Proof.
  induction n as [|n IH]; intros j r f c Hr Hj Hj64 Hf Hfj Hc Hcb.
  { exists 0, r. cbn [log2_fraction_loop]. change (Z.of_nat 0) with 0. change (2 ^ 0) with 1. change (8 ^ 0) with 1.
    change (63 * (1 - 1) + 0) with 0. rewrite !Z.pow_1_r. change (2 ^ 0) with 1.
    split; [f_equal; lia|]. lia. }
  assert (1 <= c <= 2 ^ 48) as Hc48.
  { split; [done|]. etrans; [|exact Hcb]. pose proof (Z.pow_pos_nonneg 8 (Z.of_nat (S n))). clear -Hc H. nia. }
  rewrite Nat2Z.inj_succ in *. rewrite (Z.pow_succ_r 8) in * by lia.
  cbn [log2_fraction_loop]. pose proof (pow2_pos j ltac:(lia)) as Hp.
  destruct (Z.ltb_spec 0 (2 ^ j)); [|lia].
  assert (2 ^ 126 <= r * r < 2 ^ 128) as Hrr by (change (2 ^ 126) with (2 ^ 63 * 2 ^ 63); change (2 ^ 128) with (2 ^ 64 * 2 ^ 64); nia).
  rewrite uchk_ok by (unfold in_u; lia). cbn [obind]. rewrite (Z.shiftr_div_pow2 (r * r) 127) by lia.
  set (b := r * r / 2 ^ 127).
  assert (b = 0 \/ b = 1) as Hb.
  { assert (0 <= b) by (apply Z.div_pos; lia). assert (b < 2); [|lia]. apply zfloor_lt; [done|]. lia. }
  pose proof (zfloor_bounds (r * r) (2 ^ 127) ltac:(lia)) as Hbb. fold b in Hbb.
  rewrite (Z.shiftr_div_pow2 (r * r) (63 + b)) by lia. set (r1 := r * r / 2 ^ (63 + b)).
  assert (2 ^ (63 + b) = 2 ^ 63 * 2 ^ b) as Epb by (rewrite Z.pow_add_r; lia).
  assert (2 ^ b = b + 1) as E2b by (destruct Hb as [-> | ->]; done).
  pose proof (zfloor_bounds (r * r) (2 ^ (63 + b)) ltac:(lia)) as Hq. fold r1 in Hq.
  assert (2 ^ 63 <= r1 < 2 ^ 64) as Hr1.
  { rewrite Epb, E2b in Hq. destruct Hb as [-> | ->]; lia. }
  assert (0 <= 2 ^ j * b <= 2 ^ j) as Hjb by nia.
  rewrite ichk_ok by (unfold in_i; pose proof (pow2_le j 63 ltac:(lia)); lia). cbn [obind].
  destruct (decide (j = 0)) as [->|Hj0].
  { (* the last bit: no squaring is left *)
    assert (n = 0%nat) as -> by lia. exists b, r1. cbn [log2_fraction_loop]. change (Z.of_nat 0) with 0 in *.
    change (Z.succ 0) with 1. change (0 + 1 - 1) with 0. rewrite !Z.pow_0_r, !Z.pow_1_r, !Z.mul_1_r, Z.mul_1_l in *.
    split; [done|]. split; [lia|]. split; [done|]. change (63 * (2 - 1)) with 63. rewrite !Z.pow_2_r. split; [lia|].
    rewrite Epb, E2b in *. pose proof (square_step r c r1 b Hr Hc48 Hb (proj2 Hq)). lia. }
  assert (Z.shiftr (2 ^ j) 1 = 2 ^ (j - 1)) as ->.
  { rewrite Z.shiftr_div_pow2, <- Z.pow_sub_r by lia. done. }
  assert (2 ^ j = 2 * 2 ^ (j - 1)) as Ej by (rewrite <- Z.pow_succ_r by lia; f_equal; lia).
  destruct (IH (j - 1) r1 (f + 2 ^ j * b) (8 * c)) as (F & r' & -> & HF & Hr' & Hlo & Hhi); try lia.
  exists (b * 2 ^ Z.of_nat n + F), r'.
  assert (j - 1 + 1 - Z.of_nat n = j + 1 - Z.succ (Z.of_nat n)) as Ee by lia. rewrite Ee.
  pose proof (Nat2Z.is_nonneg n) as Hk. set (k := Z.of_nat n) in *. clearbody k.
  assert (2 ^ j = 2 ^ k * 2 ^ (j + 1 - Z.succ k)) as Ejk by (rewrite <- Z.pow_add_r by lia; f_equal; lia).
  rewrite (Z.pow_succ_r 2 k) by lia. replace (c * (8 * 8 ^ k)) with (8 * c * 8 ^ k) by ring.
  split; [rewrite Ejk; f_equal; ring|]. split; [clear -Hb HF; destruct Hb as [-> | ->]; lia|]. split; [done|].
  apply (squarings_step k r c r1 b F r'); try done; try lia.
  rewrite Epb, E2b in *. exact (square_step r c r1 b Hr Hc48 Hb (proj2 Hq)).
Qed.

(** The bits of a normalised price. *)
Lemma price_bits m p r F N :
  0 < N -> 0 <= m -> 0 <= F -> 0 < p ->
  (if 64 <=? m then r * 2 ^ (m - 63) <= p < (r + 1) * 2 ^ (m - 63) else r = p * 2 ^ (63 - m)) ->
  0 <= r -> 2 ^ (63 * N + F) <= r ^ N -> (r + 1) ^ N <= 2 ^ (63 * N + F + 2) ->
  2 ^ (m * N + F) <= p ^ N <= 2 ^ (m * N + F + 2).
Proof.
  intros HN Hm HF Hp Hr Hr0 Hlo Hhi. destruct (Z.leb_spec 64 m) as [H|H].
  - replace (m * N + F) with (63 * N + F + (m - 63) * N) by ring.
    assert (0 <= (m - 63) * N) by (apply Z.mul_nonneg_nonneg; lia).
    replace (63 * N + F + (m - 63) * N + 2) with (63 * N + F + 2 + (m - 63) * N) by ring.
    rewrite !(Z.pow_add_r 2 _ ((m - 63) * N)), (Z.pow_mul_r 2 (m - 63) N) by lia.
    set (S := 2 ^ (m - 63)) in *. assert (0 < S) as HS by (apply pow2_pos; lia). clearbody S.
    assert (0 < S ^ N) by (apply Z.pow_pos_nonneg; lia). split.
    + etrans; [|apply (pow_le (r * S)); [lia|split; [by apply Z.mul_nonneg_nonneg; lia|lia]]].
      rewrite Z.pow_mul_l. apply Z.mul_le_mono_nonneg_r; lia.
    + etrans; [apply (pow_le _ ((r + 1) * S)); lia|].
      rewrite Z.pow_mul_l. apply Z.mul_le_mono_nonneg_r; lia.
  - subst r. rewrite Z.pow_mul_l in Hlo. rewrite <- (Z.pow_mul_r 2 (63 - m) N) in Hlo by lia.
    assert (0 <= (63 - m) * N) by (apply Z.mul_nonneg_nonneg; lia).
    assert (0 <= m * N) by (apply Z.mul_nonneg_nonneg; lia).
    assert ((p * 2 ^ (63 - m)) ^ N <= (p * 2 ^ (63 - m) + 1) ^ N) as Hs by (apply pow_le; lia).
    rewrite Z.pow_mul_l, <- (Z.pow_mul_r 2 (63 - m) N) in Hs by lia.
    replace (m * N + F) with (63 * N + F - (63 - m) * N) by ring. split.
    + apply pow2_div_le; [lia|done].
    + replace (63 * N + F - (63 - m) * N + 2) with (63 * N + F + 2 - (63 - m) * N) by ring.
      apply pow2_div_ge; [lia|]. lia.
Qed.

(** The mantissa [get_tick_at_sqrt_price] starts from. *)
Definition mantissa (p : Z) : Z :=
  if 64 <=? Z.log2 p then Z.shiftr p (Z.log2 p - 63) else uwrap 128 (Z.shiftl p (63 - Z.log2 p)).

Lemma mantissa_ok p : MIN_SQRT_PRICE_X64 <= p < MAX_SQRT_PRICE_X64 ->
  32 <= Z.log2 p <= 95 /\ 2 ^ 63 <= mantissa p < 2 ^ 64 /\
  (if 64 <=? Z.log2 p then mantissa p * 2 ^ (Z.log2 p - 63) <= p < (mantissa p + 1) * 2 ^ (Z.log2 p - 63)
   else mantissa p = p * 2 ^ (63 - Z.log2 p)).
Proof.
  intros Hp. unfold MIN_SQRT_PRICE_X64, MAX_SQRT_PRICE_X64 in Hp.
  assert (32 <= Z.log2 p) by (change 32 with (Z.log2 4295048016); apply Z.log2_le_mono; lia).
  assert (Z.log2 p <= 95) by (change 95 with (Z.log2 79226673521066979257578248091); apply Z.log2_le_mono; lia).
  split; [done|]. destruct (Z.log2_spec p ltac:(lia)) as [H1 H2].
  unfold mantissa. set (m := Z.log2 p) in *. clearbody m. destruct (Z.leb_spec 64 m) as [Hm|Hm].
  - rewrite Z.shiftr_div_pow2 by lia. pose proof (pow2_pos (m - 63) ltac:(lia)) as Hs.
    split; [|by apply zfloor_bounds].
    rewrite Z.pow_succ_r in H2 by lia. replace m with (63 + (m - 63)) in H1, H2 by lia.
    rewrite Z.pow_add_r in H1, H2 by lia. split; [apply zfloor_ge; lia|apply zfloor_lt; lia].
  - rewrite Z.shiftl_mul_pow2 by lia. pose proof (pow2_pos (63 - m) ltac:(lia)) as Hs.
    assert (2 ^ 63 <= p * 2 ^ (63 - m) < 2 ^ 64) as Hr.
    { replace (2 ^ 63) with (2 ^ m * 2 ^ (63 - m)) by (rewrite <- Z.pow_add_r by lia; f_equal; lia).
      replace (2 ^ 64) with (2 ^ Z.succ m * 2 ^ (63 - m)) by (rewrite <- Z.pow_add_r by lia; f_equal; lia).
      split; [apply Z.mul_le_mono_nonneg_r|apply Z.mul_lt_mono_pos_r]; lia. }
    rewrite uwrap_id by (unfold in_u; lia). done.
Qed.

Lemma binary_log M (HM : M = log_scale) p : MIN_SQRT_PRICE_X64 <= p < MAX_SQRT_PRICE_X64 ->
  exists F, log2_fraction_loop BIT_PRECISION (2 ^ 63) (mantissa p) 0 = Ok (F * 2 ^ 48) /\ 0 <= F < 2 ^ 16 /\
    let X := (Z.log2 p - 64) * 2 ^ 32 + F * 2 ^ 16 in
    at_least M p (64 * M + X * 2 ^ 32) /\ at_most M p (64 * M + X * 2 ^ 32 + 2 ^ 49).
Proof.
  intros Hp. destruct (mantissa_ok p Hp) as (Hm & Hr & Hmr). set (r := mantissa p) in *. clearbody r.
  assert (0 < p) as Hp0 by (unfold MIN_SQRT_PRICE_X64 in Hp; lia). clear Hp.
  destruct (log2_fraction_loop_ok BIT_PRECISION 63 r 0 1) as (F & r' & Hl & HF & Hr' & Hlo & Hhi);
    [done|by vm_compute..|].
  exists F. split; [exact Hl|]. split; [done|]. clear Hl. cbn zeta.
  change (8 ^ Z.of_nat BIT_PRECISION) with (2 ^ 48) in Hhi.
  assert (exists N Q, N = 2 ^ Z.of_nat BIT_PRECISION /\ N = 65536 /\ Q = 2 ^ 48 /\ M = N * Q) as (N & Q & EN & EN' & EQ & EM)
    by (do 2 eexists; split_and!; [done..|by rewrite HM]).
  rewrite <- EN in Hlo, Hhi.
  assert (2 ^ (Z.log2 p * N + F) <= p ^ N <= 2 ^ (Z.log2 p * N + F + 2)) as [B1 B2].
  { pose proof (pow2_pos (63 * (N - 1) + F) ltac:(lia)) as HP.
    apply (price_bits _ p r); [lia|lia|lia|done|done|lia| |].
    - etrans; [|exact Hlo]. replace (63 * N + F) with (63 + (63 * (N - 1) + F)) by lia.
      rewrite (Z.pow_add_r 2 63) by lia. apply Z.mul_le_mono_nonneg_r; lia.
    - etrans; [exact Hhi|]. replace (63 * N + F + 2) with (65 + (63 * (N - 1) + F)) by lia.
      rewrite (Z.pow_add_r 2 65) by lia. apply Z.mul_le_mono_nonneg_r; lia. }
  assert (64 * M + ((Z.log2 p - 64) * 2 ^ 32 + F * 2 ^ 16) * 2 ^ 32 = (Z.log2 p * N + F) * Q) as EX by lia.
  assert (64 * M + ((Z.log2 p - 64) * 2 ^ 32 + F * 2 ^ 16) * 2 ^ 32 + 2 ^ 49 = (Z.log2 p * N + F + 2) * Q) as EX2 by lia.
  unfold at_least, at_most. rewrite EX2, EX, EM.
  assert (0 < Q) as HQ by lia. assert (0 < N) as HN by lia. assert (0 <= F) as HF0 by lia.
  assert (0 <= Z.log2 p) as Hm0 by lia. clear -B1 B2 HQ HN HF0 Hm0 Hp0.
  assert (0 <= Z.log2 p * N + F) as He by (pose proof (Z.mul_nonneg_nonneg _ _ Hm0 (Z.lt_le_incl _ _ HN)); lia).
  set (e := Z.log2 p * N + F) in *. clearbody e.
  rewrite (Z.pow_mul_r p N Q), (Z.pow_mul_r 2 e Q), (Z.pow_mul_r 2 (e + 2) Q) by lia.
  pose proof (pow2_pos e He). split; (split; [apply Z.mul_nonneg_nonneg; lia|]); apply pow_le; lia.
Qed.

(** * The candidates *)

(** The price stands between the two candidates of the code. *)
Lemma candidates p X t M :
  M = log_scale -> - 2 ^ 38 <= X <= 2 ^ 38 -> 0 <= p -> MIN_TICK <= t <= MAX_TICK ->
  at_least M p (64 * M + X * 2 ^ 32) -> at_most M p (64 * M + X * 2 ^ 32 + 2 ^ 49) ->
  (t <= (X * 59543866431248 - 184467440737095516) / 2 ^ 64 -> price_of t <= p) /\
  ((X * 59543866431248 + 15793534762490258745) / 2 ^ 64 < t -> p < price_of t).
Proof.
  intros HM HX Hp Ht Hlo Hhi. destruct (price_log M HM t Ht) as [Pl Ph].
  pose proof (price_of_range t Ht) as [Hpt _]. unfold MIN_SQRT_PRICE_X64 in Hpt.
  unfold price_slack, factor_slack, rounding_slack, tick_log in *. split; intros H.
  - apply (log_le M HM _ _ _ _ Hp Ph Hlo).
    pose proof (zfloor_bounds (X * 59543866431248 - 184467440737095516) (2 ^ 64) ltac:(lia)). lia.
  - apply (log_lt M HM p (price_of t) _ _ Hp ltac:(lia) Hhi Pl).
    pose proof (zfloor_bounds (X * 59543866431248 + 15793534762490258745) (2 ^ 64) ltac:(lia)). lia.
Qed.

Section Floor.
Context {U : UintLib}.

Lemma leading_zeros_log2 p : 0 < p -> 128 - leading_zeros_u128 p - 1 = Z.log2 p.
Proof. intros Hp. unfold leading_zeros_u128. destruct (Z.eqb_spec p 0); lia. Qed.

Lemma get_tick_at_sqrt_price_ok p : MIN_SQRT_PRICE_X64 <= p < MAX_SQRT_PRICE_X64 ->
  exists t, get_tick_at_sqrt_price p = Ok t /\ MIN_TICK <= t < MAX_TICK /\ price_of t <= p < price_of (t + 1).
Proof.
  intros Hp. unfold get_tick_at_sqrt_price, require.
  assert (0 < p) as Hp0 by (unfold MIN_SQRT_PRICE_X64 in Hp; lia).
  destruct (mantissa_ok p Hp) as (Hm & _ & _).
  destruct (binary_log log_scale eq_refl p Hp) as (F & Hl & HF & Hlo & Hhi).
  rewrite leading_zeros_log2 by done. fold (mantissa p).
  rewrite (proj2 (andb_true_iff _ _)) by (split; [apply Z.leb_le|apply Z.ltb_lt]; lia). cbn [obind Prelude.require].
  change 0x8000000000000000 with (2 ^ 63). rewrite Hl. cbn [obind]. clear Hl.
  rewrite Z.shiftl_mul_pow2, !Z.shiftr_div_pow2 by lia.
  replace (F * 2 ^ 48 / 2 ^ 32) with (F * 2 ^ 16) by (apply Z.div_unique with (r := 0); lia).
  set (X := (Z.log2 p - 64) * 2 ^ 32 + F * 2 ^ 16) in *.
  assert (- 2 ^ 38 <= X <= 2 ^ 38) as HX by (unfold X; lia). clearbody X. clear Hm HF F.
  rewrite !ichk_ok by range. cbn [obind].
  rewrite ichk_ok by range. cbn [obind]. rewrite !ichk_ok by range. cbn [obind].
  rewrite !Z.shiftr_div_pow2 by lia.
  assert (forall t, MIN_TICK <= t <= MAX_TICK ->
    (t <= (X * 59543866431248 - 184467440737095516) / 2 ^ 64 -> price_of t <= p) /\
    ((X * 59543866431248 + 15793534762490258745) / 2 ^ 64 < t -> p < price_of t)) as Hc
    by (intros t Ht; apply (candidates p X t log_scale eq_refl HX ltac:(lia) Ht Hlo Hhi)).
  set (low := (X * 59543866431248 - 184467440737095516) / 2 ^ 64) in *.
  set (high := (X * 59543866431248 + 15793534762490258745) / 2 ^ 64) in *.
  assert (low <= high <= low + 1) as Hlh.
  { split; [apply Z.div_le_mono; lia|]. unfold low. rewrite <- (Z.div_add _ 1 (2 ^ 64)) by lia.
    apply Z.div_le_mono; lia. }
  assert (- 2 ^ 30 <= low) as Hlow by (apply zfloor_ge; lia).
  assert (high <= 2 ^ 30) as Hhigh by (apply zfloor_le; lia). clearbody low high. clear Hlo Hhi HX X.
  pose proof (Hc MIN_TICK ltac:(done)) as [_ Hmin]. pose proof (Hc MAX_TICK ltac:(done)) as [Hmax _].
  rewrite price_of_min in Hmin. rewrite price_of_max in Hmax.
  assert (MIN_TICK <= high) by lia. assert (low < MAX_TICK) by lia.
  rewrite !iwrap_id by range.
  destruct (Z.eqb_spec low high) as [E|E].
  { exists low. split; [done|]. split; [lia|]. subst high.
    split; [apply (proj1 (Hc low ltac:(lia))); lia|apply (proj2 (Hc (low + 1) ltac:(lia))); lia]. }
  assert (high = low + 1) as -> by lia. rewrite get_sqrt_price_at_tick_ok by lia. cbn [obind].
  destruct (Z.leb_spec (price_of (low + 1)) p) as [Hq|Hq].
  - exists (low + 1). split; [done|]. destruct (decide (low + 1 = MAX_TICK)) as [Em|Em].
    { rewrite Em, price_of_max in Hq. lia. }
    split; [lia|]. split; [done|]. apply (proj2 (Hc (low + 1 + 1) ltac:(lia))). lia.
  - exists low. split; [done|]. destruct (decide (low + 1 = MIN_TICK)) as [Em|Em].
    { rewrite Em, price_of_min in Hq. lia. }
    split; [lia|]. split; [|done]. apply (proj1 (Hc low ltac:(lia))). lia.
Qed.

Lemma get_tick_at_sqrt_price_err p : ~ MIN_SQRT_PRICE_X64 <= p < MAX_SQRT_PRICE_X64 ->
  get_tick_at_sqrt_price p = err SqrtPriceX64.
Proof.
  intros Hp. unfold get_tick_at_sqrt_price, require.
  destruct (Z.leb_spec MIN_SQRT_PRICE_X64 p), (Z.ltb_spec p MAX_SQRT_PRICE_X64); try done. lia.
Qed.

Lemma get_tick_at_sqrt_price_Ok p t : get_tick_at_sqrt_price p = Ok t ->
  MIN_SQRT_PRICE_X64 <= p < MAX_SQRT_PRICE_X64 /\ MIN_TICK <= t < MAX_TICK /\ price_of t <= p < price_of (t + 1).
Proof.
  intros H. destruct (decide (MIN_SQRT_PRICE_X64 <= p < MAX_SQRT_PRICE_X64)) as [Hp|Hp].
  - destruct (get_tick_at_sqrt_price_ok p Hp) as (t' & Ht & ?). rewrite Ht in H. by injection H as <-.
  - rewrite get_tick_at_sqrt_price_err in H by done. done.
Qed.
End Floor.

Section Properties.
Context {U : UintLib}.

(** C38: The tick of a price is its floor: for every price from
    [MIN_SQRT_PRICE_X64] to below [MAX_SQRT_PRICE_X64],
    [get_tick_at_sqrt_price] returns, without overflow, the tick whose price
    is at most the given one and whose successor's price is above it; any
    other price is refused with [SqrtPriceX64]; and it undoes
    [get_sqrt_price_at_tick] on every tick below [MAX_TICK]. *)
Theorem tick_at_sqrt_price_floor :
  (forall p, if (MIN_SQRT_PRICE_X64 <=? p) && (p <? MAX_SQRT_PRICE_X64) then
     exists t lo hi, get_tick_at_sqrt_price p = Ok t /\ get_sqrt_price_at_tick t = Ok lo /\
       get_sqrt_price_at_tick (t + 1) = Ok hi /\ lo <= p < hi
   else get_tick_at_sqrt_price p = err SqrtPriceX64) /\
  (forall t p, get_sqrt_price_at_tick t = Ok p ->
     get_tick_at_sqrt_price p = if t <? MAX_TICK then Ok t else err SqrtPriceX64).
Proof.
  split.
  - intros p. destruct (Z.leb_spec MIN_SQRT_PRICE_X64 p), (Z.ltb_spec p MAX_SQRT_PRICE_X64); cbn [andb];
      try (apply get_tick_at_sqrt_price_err; lia).
    destruct (get_tick_at_sqrt_price_ok p) as (t & Ht & Hr & Hp); [done|].
    exists t, (price_of t), (price_of (t + 1)). rewrite !get_sqrt_price_at_tick_ok by lia. done.
  - intros t p [Ht ->]%get_sqrt_price_at_tick_Ok. destruct (Z.ltb_spec t MAX_TICK) as [Hlt|Hge].
    + pose proof (price_of_lt t MAX_TICK ltac:(lia) Hlt ltac:(lia)) as Hmax. rewrite price_of_max in Hmax.
      destruct (get_tick_at_sqrt_price_ok (price_of t)) as (t' & -> & Hr & H1 & H2).
      { pose proof (price_of_range t Ht). lia. }
      f_equal. destruct (Z.lt_trichotomy t' t) as [H|[H|H]]; [|done|].
      * pose proof (price_of_le (t' + 1) t ltac:(lia) ltac:(lia) ltac:(lia)). lia.
      * pose proof (price_of_lt t t' ltac:(lia) H ltac:(lia)). lia.
    + assert (t = MAX_TICK) as -> by lia. apply get_tick_at_sqrt_price_err. rewrite price_of_max. lia.
Qed.
End Properties.
