(* ===== verification/LiquidityMath.v ===== *)
(** [libraries/liquidity_math.rs]: the amounts of the two tokens that a
    liquidity is worth over a price range, and the liquidity that given amounts
    buy. *)
From S2P Require Import Prelude.
From S2P Require Import AmmError.
From S2P Require Import BigNum.
From S2P Require Import FullMath.
From S2P Require Import TickMath.

(** [std::mem::swap] when the first price is the larger one. *)
Definition sort2 (a b : Z) : Z * Z := if b <? a then (b, a) else (a, b).

(** [u128::try_from(liquidity.checked_neg()?)] and [u128::try_from(liquidity)] *)
Definition neg_to_u128 (x : Z) : Result Z :=
  let! n := ok_or (icheck 128 (- x)) CalculateOverflow in
  ok_or (ucheck 128 n) CalculateOverflow.
Definition to_u128 (x : Z) : Result Z := ok_or (ucheck 128 x) CalculateOverflow.

(** [require_gt!(x, z, e)] and [require_gte!(x, z, e)] with an explicit code *)
Definition add_delta (x y : Z) : Result Z :=
  if y <? 0 then
    let! z := uchk 128 (x - Z.abs y) in
    do! require (z <? x) LiquiditySubValueErr in
    Ok z
  else
    let! z := uchk 128 (x + Z.abs y) in
    do! require (x <=? z) LiquidityAddValueErr in
    Ok z.

Section LiquidityMath.
Context {U : UintLib}.

Definition get_liquidity_from_amount_0 (sqrt_ratio_a_x64 sqrt_ratio_b_x64 amount_0 : Z) : Result Z :=
  if amount_0 =? 0 then Ok 0
  else
    let '(a, b) := sort2 sqrt_ratio_a_x64 sqrt_ratio_b_x64 in
    let! intermediate := or_overflow (mul_div_floor_u128 a b Q64) in
    let! d := uchk 128 (b - a) in
    let! l := or_overflow (mul_div_floor_u128 amount_0 intermediate d) in
    big_u128 l.

Definition get_liquidity_from_amount_1 (sqrt_ratio_a_x64 sqrt_ratio_b_x64 amount_1 : Z) : Result Z :=
  if amount_1 =? 0 then Ok 0
  else
    let '(a, b) := sort2 sqrt_ratio_a_x64 sqrt_ratio_b_x64 in
    let! d := uchk 128 (b - a) in
    let! l := or_overflow (mul_div_floor_u128 amount_1 Q64 d) in
    big_u128 l.

Definition get_liquidity_from_amounts
    (sqrt_ratio_x64 sqrt_ratio_a_x64 sqrt_ratio_b_x64 amount_0 amount_1 : Z) : Result Z :=
  let '(a, b) := sort2 sqrt_ratio_a_x64 sqrt_ratio_b_x64 in
  if sqrt_ratio_x64 <=? a then get_liquidity_from_amount_0 a b amount_0
  else if sqrt_ratio_x64 <? b then
    let! l0 := get_liquidity_from_amount_0 sqrt_ratio_x64 b amount_0 in
    let! l1 := get_liquidity_from_amount_1 a sqrt_ratio_x64 amount_1 in
    Ok (Z.min l0 l1)
  else get_liquidity_from_amount_1 a b amount_1.

Definition get_liquidity_from_single_amount_0
    (sqrt_ratio_x64 sqrt_ratio_a_x64 sqrt_ratio_b_x64 amount_0 : Z) : Result Z :=
  let '(a, b) := sort2 sqrt_ratio_a_x64 sqrt_ratio_b_x64 in
  if sqrt_ratio_x64 <=? a then get_liquidity_from_amount_0 a b amount_0
  else if sqrt_ratio_x64 <? b then get_liquidity_from_amount_0 sqrt_ratio_x64 b amount_0
  else Ok 0.

Definition get_liquidity_from_single_amount_1
    (sqrt_ratio_x64 sqrt_ratio_a_x64 sqrt_ratio_b_x64 amount_1 : Z) : Result Z :=
  let '(a, b) := sort2 sqrt_ratio_a_x64 sqrt_ratio_b_x64 in
  if sqrt_ratio_x64 <=? a then Ok 0
  else if sqrt_ratio_x64 <? b then get_liquidity_from_amount_1 a sqrt_ratio_x64 amount_1
  else get_liquidity_from_amount_1 a b amount_1.

Definition get_delta_amount_0_unsigned
    (sqrt_ratio_a_x64 sqrt_ratio_b_x64 liquidity : Z) (round_up : bool) : Result Z :=
  let '(a, b) := sort2 sqrt_ratio_a_x64 sqrt_ratio_b_x64 in
  do! require (0 <? a) ZeroSqrtPrice in
  let numerator_1 := uint_shl 256 liquidity RESOLUTION in
  let! numerator_2 := uchk 128 (b - a) in
  let! result :=
    if round_up then
      let! q := or_overflow (mul_div_ceil_u256 numerator_1 numerator_2 b) in
      div_rounding_up_u256 q a
    else
      let! q := or_overflow (mul_div_floor_u256 numerator_1 numerator_2 b) in
      big_div q a in
  if umax 64 <? result then err MaxTokenOverflow else big_u64 result.

Definition get_delta_amount_1_unsigned
    (sqrt_ratio_a_x64 sqrt_ratio_b_x64 liquidity : Z) (round_up : bool) : Result Z :=
  let '(a, b) := sort2 sqrt_ratio_a_x64 sqrt_ratio_b_x64 in
  let! d := uchk 128 (b - a) in
  let! result :=
    or_overflow
      (if round_up then mul_div_ceil_u256 liquidity d Q64
       else mul_div_floor_u256 liquidity d Q64) in
  if umax 64 <? result then err MaxTokenOverflow else big_u64 result.

Definition get_delta_amount_0_signed (sqrt_ratio_a_x64 sqrt_ratio_b_x64 liquidity : Z) : Result Z :=
  if liquidity <? 0 then
    let! l := neg_to_u128 liquidity in
    get_delta_amount_0_unsigned sqrt_ratio_a_x64 sqrt_ratio_b_x64 l false
  else
    let! l := to_u128 liquidity in
    get_delta_amount_0_unsigned sqrt_ratio_a_x64 sqrt_ratio_b_x64 l true.

Definition get_delta_amount_1_signed (sqrt_ratio_a_x64 sqrt_ratio_b_x64 liquidity : Z) : Result Z :=
  if liquidity <? 0 then
    let! l := neg_to_u128 liquidity in
    get_delta_amount_1_unsigned sqrt_ratio_a_x64 sqrt_ratio_b_x64 l false
  else
    let! l := to_u128 liquidity in
    get_delta_amount_1_unsigned sqrt_ratio_a_x64 sqrt_ratio_b_x64 l true.

Definition get_delta_amounts_signed
    (tick_current sqrt_price_x64_current tick_lower tick_upper liquidity_delta : Z) :
    Result (Z * Z) :=
  if tick_current <? tick_lower then
    let! pl := get_sqrt_price_at_tick tick_lower in
    let! pu := get_sqrt_price_at_tick tick_upper in
    let! amount_0 := get_delta_amount_0_signed pl pu liquidity_delta in
    Ok (amount_0, 0)
  else if tick_current <? tick_upper then
    let! pu := get_sqrt_price_at_tick tick_upper in
    let! amount_0 := get_delta_amount_0_signed sqrt_price_x64_current pu liquidity_delta in
    let! pl := get_sqrt_price_at_tick tick_lower in
    let! amount_1 := get_delta_amount_1_signed pl sqrt_price_x64_current liquidity_delta in
    Ok (amount_0, amount_1)
  else
    let! pl := get_sqrt_price_at_tick tick_lower in
    let! pu := get_sqrt_price_at_tick tick_upper in
    let! amount_1 := get_delta_amount_1_signed pl pu liquidity_delta in
    Ok (0, amount_1).
End LiquidityMath.

(** * The exact amounts *)

(** [L * 2^64 * (1/a - 1/b)] and [L * (b - a) / 2^64] for [a <= b], rounded. *)
Definition delta_0 (a b l : Z) (up : bool) : Z :=
  if up then zceil (l * 2 ^ 64 * (b - a)) (a * b) else l * 2 ^ 64 * (b - a) / (a * b).
Definition delta_1 (a b l : Z) (up : bool) : Z :=
  if up then zceil (l * (b - a)) (2 ^ 64) else l * (b - a) / 2 ^ 64.

(** The final range test of both routines. *)
Definition token_amount (x : Z) : Result Z :=
  if x <=? umax 64 then Ok x else err MaxTokenOverflow.

Lemma token_amount_Ok x y : token_amount x = Ok y <-> y = x /\ x <= umax 64.
Proof. unfold token_amount. destruct (Z.leb_spec x (umax 64)); naive_solver lia. Qed.

Lemma zceil_zceil x a b : 0 < a -> 0 < b -> zceil (zceil x b) a = zceil x (a * b).
Proof.
  intros Ha Hb. symmetry. apply zceil_spec; [nia|].
  pose proof (zceil_bounds x b Hb). pose proof (zceil_bounds (zceil x b) a Ha).
  set (q := zceil x b) in *. set (r := zceil q a) in *. clearbody q r. nia.
Qed.

Lemma zfloor_zfloor x a b : 0 < a -> 0 < b -> x / b / a = x / (a * b).
Proof. intros. rewrite Z.div_div by lia. by rewrite (Z.mul_comm b a). Qed.

Lemma sort2_spec a b : sort2 a b = (Z.min a b, Z.max a b).
Proof. unfold sort2. destruct (Z.ltb_spec b a); f_equal; lia. Qed.

Lemma sort2_le a b : a <= b -> sort2 a b = (a, b).
Proof. intros. unfold sort2. destruct (Z.ltb_spec b a); [lia|done]. Qed.

Lemma delta_0_nonneg a b l up : 0 < a <= b -> 0 <= l -> 0 <= delta_0 a b l up.
Proof.
  intros. unfold delta_0. destruct up; [apply zceil_nonneg|apply Z.div_pos]; nia.
Qed.

Lemma delta_1_nonneg a b l up : a <= b -> 0 <= l -> 0 <= delta_1 a b l up.
Proof. intros. unfold delta_1. destruct up; [apply zceil_nonneg|apply Z.div_pos]; nia. Qed.

(** Rounding up never falls below rounding down. *)
Lemma delta_0_down_up a b l : 0 < a <= b -> delta_0 a b l false <= delta_0 a b l true.
Proof. intros. apply zfloor_le_zceil. nia. Qed.

Lemma delta_1_down_up a b l : delta_1 a b l false <= delta_1 a b l true.
Proof. by apply zfloor_le_zceil. Qed.

Lemma delta_0_up_down a b l : 0 < a <= b -> delta_0 a b l true <= delta_0 a b l false + 1.
Proof. intros. apply zceil_le_zfloor_succ. nia. Qed.

Lemma delta_1_up_down a b l : delta_1 a b l true <= delta_1 a b l false + 1.
Proof. by apply zceil_le_zfloor_succ. Qed.

(** The rounded-up amount is the least one worth the liquidity, the rounded
    down amount the greatest. *)
Lemma delta_0_up_le a b l x :
  0 < a <= b -> l * 2 ^ 64 * (b - a) <= x * (a * b) <-> delta_0 a b l true <= x.
Proof.
  intros. unfold delta_0. pose proof (zceil_bounds (l * 2 ^ 64 * (b - a)) (a * b)).
  split; intros; [apply zceil_le; [nia|lia]|nia].
Qed.

Lemma delta_0_down_ge a b l x :
  0 < a <= b -> x * (a * b) <= l * 2 ^ 64 * (b - a) <-> x <= delta_0 a b l false.
Proof.
  intros. unfold delta_0. pose proof (zfloor_bounds (l * 2 ^ 64 * (b - a)) (a * b)).
  split; intros; [apply zfloor_ge; [nia|lia]|nia].
Qed.

Lemma delta_1_up_le a b l x : l * (b - a) <= x * 2 ^ 64 <-> delta_1 a b l true <= x.
Proof.
  unfold delta_1. pose proof (zceil_bounds (l * (b - a)) (2 ^ 64)).
  split; intros; [apply zceil_le; [done|lia]|nia].
Qed.

Lemma delta_1_down_ge a b l x : x * 2 ^ 64 <= l * (b - a) <-> x <= delta_1 a b l false.
Proof.
  unfold delta_1. pose proof (zfloor_bounds (l * (b - a)) (2 ^ 64)).
  split; intros; [apply zfloor_ge; [done|lia]|nia].
Qed.

Lemma in_u_shl64 l : in_u 128 l -> in_u 256 (l * 2 ^ 64).
Proof. unfold in_u. intros. assert (2 ^ 256 = 2 ^ 192 * 2 ^ 64) as -> by done. nia. Qed.

Section DeltaLemmas.
Context {U : UintLib}.

Lemma shl64 l : in_u 128 l -> uint_shl 256 l RESOLUTION = l * 2 ^ 64.
Proof. intros. apply big_shl_small; [done|]. by apply in_u_shl64. Qed.

(** The final test and narrowing shared by the two routines. *)
Lemma token_amount_code r :
  0 <= r -> (if umax 64 <? r then err MaxTokenOverflow else big_u64 r) = token_amount r.
Proof.
  intros Hr. unfold token_amount.
  destruct (Z.ltb_spec (umax 64) r), (Z.leb_spec r (umax 64)); try lia; [done|].
  apply big_u64_ok. range.
Qed.

Lemma in_u_sub w a b : in_u w a -> in_u w b -> a <= b -> in_u w (b - a).
Proof. range. Qed.

Lemma delta_0_inner l a b :
  in_u 128 l -> in_u 128 a -> in_u 128 b -> 0 < a <= b ->
  in_u 256 (zceil (l * 2 ^ 64 * (b - a)) b) /\ in_u 256 (l * 2 ^ 64 * (b - a) / b).
Proof.
  intros Hl Ha Hb Hab. pose proof (in_u_shl64 l Hl) as Hs.
  assert (0 <= l * 2 ^ 64 * (b - a)) by (unfold in_u in *; nia).
  assert (zceil (l * 2 ^ 64 * (b - a)) b <= l * 2 ^ 64).
  { apply zceil_le; [lia|]. unfold in_u in *. nia. }
  assert (l * 2 ^ 64 * (b - a) / b <= l * 2 ^ 64).
  { apply Z.div_le_upper_bound; [lia|]. unfold in_u in *. nia. }
  pose proof (zceil_nonneg (l * 2 ^ 64 * (b - a)) b).
  pose proof (Z.div_pos (l * 2 ^ 64 * (b - a)) b). range.
Qed.

Lemma get_delta_amount_0_unsigned_sorted a b l up :
  in_u 128 a -> in_u 128 b -> in_u 128 l -> a <= b ->
  get_delta_amount_0_unsigned a b l up =
  if a =? 0 then err ZeroSqrtPrice else token_amount (delta_0 a b l up).
Proof.
  intros Ha Hb Hl Hab. unfold get_delta_amount_0_unsigned. rewrite sort2_le by done.
  unfold require, Prelude.require.
  destruct (Z.ltb_spec 0 a), (Z.eqb_spec a 0); try range; [|done]. cbn [obind].
  rewrite shl64 by done. rewrite uchk_ok by (by apply in_u_sub). cbn [obind].
  destruct (delta_0_inner l a b) as [Hc Hf]; [done..|lia|].
  assert (in_u 256 (b - a)) by (apply (in_u_weaken 128); [lia|by apply in_u_sub]).
  assert (in_u 256 b) by (by apply (in_u_weaken 128)).
  pose proof (in_u_shl64 l Hl).
  assert (0 <= delta_0 a b l up) by (apply delta_0_nonneg; range).
  unfold mul_div_ceil_u256, mul_div_floor_u256.
  rewrite mul_div_ceil_big_spec, mul_div_floor_big_spec by done.
  destruct (Z.eqb_spec b 0); [lia|]. rewrite !ucheck_ok by done.
  unfold or_overflow. cbn [obind ok_or Prelude.ok_or].
  unfold delta_0 in *. destruct up.
  - unfold div_rounding_up_u256. rewrite div_rounding_up_big_spec by (done || lia).
    rewrite zceil_zceil by lia. cbn [obind]. by apply token_amount_code.
  - rewrite big_div_ok by lia. rewrite zfloor_zfloor by lia. cbn [obind].
    by apply token_amount_code.
Qed.

Lemma get_delta_amount_1_unsigned_sorted a b l up :
  in_u 128 a -> in_u 128 b -> in_u 128 l -> a <= b ->
  get_delta_amount_1_unsigned a b l up = token_amount (delta_1 a b l up).
Proof.
  intros Ha Hb Hl Hab. unfold get_delta_amount_1_unsigned. rewrite sort2_le by done.
  rewrite uchk_ok by (by apply in_u_sub). cbn [obind].
  assert (in_u 256 (b - a)) by (apply (in_u_weaken 128); [lia|by apply in_u_sub]).
  assert (in_u 256 l) by (by apply (in_u_weaken 128)).
  assert (in_u 256 (l * (b - a))) as Hp by (apply (in_u_mul 128 128); [done..|by apply in_u_sub]).
  assert (0 <= delta_1 a b l up) by (apply delta_1_nonneg; range).
  unfold mul_div_ceil_u256, mul_div_floor_u256.
  assert (in_u 256 Q64) by done.
  rewrite mul_div_ceil_big_spec, mul_div_floor_big_spec by done.
  change (Q64 =? 0) with false. cbn match.
  change Q64 with (2 ^ 64) at 1 2.
  rewrite !ucheck_ok.
  - unfold or_overflow, delta_1 in *. destruct up; cbn [obind ok_or Prelude.ok_or];
      by apply token_amount_code.
  - split; [apply Z.div_pos; range|]. apply Z.div_lt_upper_bound; range.
  - split; [apply zceil_nonneg; range|].
    enough (zceil (l * (b - a)) (2 ^ 64) <= l * (b - a)) by range.
    apply zceil_le; [done|]. range.
Qed.

Lemma get_delta_amount_0_sym a b l up :
  get_delta_amount_0_unsigned a b l up = get_delta_amount_0_unsigned b a l up.
Proof.
  unfold get_delta_amount_0_unsigned. rewrite !sort2_spec.
  by rewrite (Z.min_comm b a), (Z.max_comm b a).
Qed.

Lemma get_delta_amount_1_sym a b l up :
  get_delta_amount_1_unsigned a b l up = get_delta_amount_1_unsigned b a l up.
Proof.
  unfold get_delta_amount_1_unsigned. rewrite !sort2_spec.
  by rewrite (Z.min_comm b a), (Z.max_comm b a).
Qed.

Lemma get_delta_amount_0_unsigned_min a b l up :
  in_u 128 a -> in_u 128 b -> in_u 128 l ->
  get_delta_amount_0_unsigned a b l up =
  if Z.min a b =? 0 then err ZeroSqrtPrice
  else token_amount (delta_0 (Z.min a b) (Z.max a b) l up).
Proof.
  intros. destruct (Z.le_ge_cases a b).
  - rewrite get_delta_amount_0_unsigned_sorted by done. by rewrite Z.min_l, Z.max_r.
  - rewrite get_delta_amount_0_sym, get_delta_amount_0_unsigned_sorted by done.
    by rewrite Z.min_r, Z.max_l.
Qed.

Lemma get_delta_amount_1_unsigned_min a b l up :
  in_u 128 a -> in_u 128 b -> in_u 128 l ->
  get_delta_amount_1_unsigned a b l up =
  token_amount (delta_1 (Z.min a b) (Z.max a b) l up).
Proof.
  intros. destruct (Z.le_ge_cases a b).
  - rewrite get_delta_amount_1_unsigned_sorted by done. by rewrite Z.min_l, Z.max_r.
  - rewrite get_delta_amount_1_sym, get_delta_amount_1_unsigned_sorted by done.
    by rewrite Z.min_r, Z.max_l.
Qed.
End DeltaLemmas.

Lemma add_delta_Ok x y z : add_delta x y = Ok z <-> z = x + y /\ in_u 128 (x + y).
Proof.
  unfold add_delta, require. destruct (Z.ltb_spec y 0).
  - replace (x - Z.abs y) with (x + y) by lia. rewrite obind_Ok. setoid_rewrite uchk_Ok. split.
    + intros (? & [-> ?] & H'). ok_inv. done.
    + intros [-> ?]. exists (x + y). split; [done|].
      unfold Prelude.require. destruct (Z.ltb_spec (x + y) x); [done|lia].
  - replace (x + Z.abs y) with (x + y) by lia. rewrite obind_Ok. setoid_rewrite uchk_Ok. split.
    + intros (? & [-> ?] & H'). ok_inv. done.
    + intros [-> ?]. exists (x + y). split; [done|].
      unfold Prelude.require. destruct (Z.leb_spec x (x + y)); [done|lia].
Qed.

Lemma add_delta_ok x y : in_u 128 (x + y) -> add_delta x y = Ok (x + y).
Proof. intros. by apply add_delta_Ok. Qed.

Section SignedLemmas.
Context {U : UintLib}.

Lemma get_delta_amount_0_signed_nonneg a b l :
  0 <= l < 2 ^ 127 -> get_delta_amount_0_signed a b l = get_delta_amount_0_unsigned a b l true.
Proof.
  intros Hl. unfold get_delta_amount_0_signed, to_u128. destruct (Z.ltb_spec l 0); [lia|].
  by rewrite ucheck_ok by range.
Qed.

Lemma neg_to_u128_ok l : - 2 ^ 127 < l <= 0 -> neg_to_u128 l = Ok (- l).
Proof.
  intros Hl. unfold neg_to_u128. rewrite icheck_ok by range.
  cbn [obind ok_or Prelude.ok_or]. by rewrite ucheck_ok by range.
Qed.

Lemma get_delta_amount_0_signed_neg a b l :
  - 2 ^ 127 < l < 0 -> get_delta_amount_0_signed a b l = get_delta_amount_0_unsigned a b (- l) false.
Proof.
  intros Hl. unfold get_delta_amount_0_signed. destruct (Z.ltb_spec l 0); [|lia].
  by rewrite neg_to_u128_ok by lia.
Qed.

Lemma get_delta_amount_1_signed_nonneg a b l :
  0 <= l < 2 ^ 127 -> get_delta_amount_1_signed a b l = get_delta_amount_1_unsigned a b l true.
Proof.
  intros Hl. unfold get_delta_amount_1_signed, to_u128. destruct (Z.ltb_spec l 0); [lia|].
  by rewrite ucheck_ok by range.
Qed.

Lemma get_delta_amount_1_signed_neg a b l :
  - 2 ^ 127 < l < 0 -> get_delta_amount_1_signed a b l = get_delta_amount_1_unsigned a b (- l) false.
Proof.
  intros Hl. unfold get_delta_amount_1_signed. destruct (Z.ltb_spec l 0); [|lia].
  by rewrite neg_to_u128_ok by lia.
Qed.

(** The range a position covers, clipped at the current price: token 0 is
    held above the price, token 1 below it. *)
Definition clip_amounts (tick_current p tl a tu b l : Z) (up : bool) : Z * Z :=
  if tick_current <? tl then (delta_0 a b l up, 0)
  else if tick_current <? tu then (delta_0 p b l up, delta_1 a p l up)
  else (0, delta_1 a b l up).

Definition token_amounts (xy : Z * Z) : Result (Z * Z) :=
  let! x := token_amount xy.1 in
  let! y := token_amount xy.2 in
  Ok (x, y).

(** The prices of a range and the current price, as a consistent pool has
    them (after a downward crossing the price may sit at the next tick). *)
Record price_range (tc p tl tu : Z) : Prop := {
  pr_lower : MIN_TICK <= tl;
  pr_order : tl < tu;
  pr_upper : tu <= MAX_TICK;
  pr_in : in_u 128 p;
  pr_above : tl <= tc -> price_of tl <= p;
  pr_below : tc < tu -> p <= price_of tu;
}.

Lemma token_amount_0 : token_amount 0 = Ok 0.
Proof. done. Qed.

Lemma price_of_in_u t : MIN_TICK <= t <= MAX_TICK -> in_u 128 (price_of t).
Proof.
  intros H. pose proof (price_of_range t H).
  unfold MIN_SQRT_PRICE_X64, MAX_SQRT_PRICE_X64 in *. range.
Qed.

(** The code's amounts are the clipped exact amounts, rounded up for a
    deposit and down for a withdrawal. *)
Lemma get_delta_amounts_signed_spec tc p tl tu l :
  price_range tc p tl tu -> - 2 ^ 127 < l < 2 ^ 127 ->
  get_delta_amounts_signed tc p tl tu l =
  token_amounts (clip_amounts tc p tl (price_of tl) tu (price_of tu) (Z.abs l) (0 <=? l)).
Proof.
  intros [Hl Ho Hu Hp Ha Hb] HL. unfold get_delta_amounts_signed, clip_amounts, token_amounts.
  rewrite !get_sqrt_price_at_tick_ok by lia. cbn [obind].
  pose proof (price_of_lt tl tu Hl Ho Hu).
  pose proof (price_of_in_u tl ltac:(lia)). pose proof (price_of_in_u tu ltac:(lia)).
  pose proof (price_of_range tl ltac:(lia)). unfold MIN_SQRT_PRICE_X64 in *.
  assert (in_u 128 (Z.abs l)) by range.
  assert (forall a b, get_delta_amount_0_signed a b l
            = get_delta_amount_0_unsigned a b (Z.abs l) (0 <=? l)) as HD0.
  { intros. destruct (Z.leb_spec 0 l).
    - rewrite get_delta_amount_0_signed_nonneg by lia. by rewrite Z.abs_eq.
    - rewrite get_delta_amount_0_signed_neg by lia. by rewrite Z.abs_neq by lia. }
  assert (forall a b, get_delta_amount_1_signed a b l
            = get_delta_amount_1_unsigned a b (Z.abs l) (0 <=? l)) as HD1.
  { intros. destruct (Z.leb_spec 0 l).
    - rewrite get_delta_amount_1_signed_nonneg by lia. by rewrite Z.abs_eq.
    - rewrite get_delta_amount_1_signed_neg by lia. by rewrite Z.abs_neq by lia. }
  destruct (Z.ltb_spec tc tl); [|destruct (Z.ltb_spec tc tu)];
    cbn [fst snd]; rewrite ?token_amount_0, ?HD0, ?HD1; cbn [obind];
    rewrite ?get_delta_amount_0_unsigned_sorted, ?get_delta_amount_1_unsigned_sorted
      by first [done | apply Hb; lia | apply Ha; lia | lia].
  - destruct (Z.eqb_spec (price_of tl) 0); [lia|]. done.
  - specialize (Ha ltac:(lia)). destruct (Z.eqb_spec p 0); [lia|]. done.
  - done.
Qed.
End SignedLemmas.

Section LiquidityFromAmounts.
Context {U : UintLib}.

Lemma liquidity_from_amount_0_le a b x l :
  in_u 128 a -> in_u 128 b -> in_u 64 x -> 0 < a <= b ->
  get_liquidity_from_amount_0 a b x = Ok l -> in_u 128 l /\ delta_0 a b l true <= x.
Proof.
  intros Ha Hb Hx Hab H. unfold get_liquidity_from_amount_0 in H.
  destruct (Z.eqb_spec x 0) as [->|Hx0].
  { ok_inv. split; [done|]. apply delta_0_up_le; lia. }
  rewrite sort2_le in H by lia. assert (in_u 128 x) by (by apply (in_u_weaken 64)).
  apply obind_Ok in H as (i & Hi & H). apply obind_Ok in H as (d & Hd & H).
  apply obind_Ok in H as (l' & Hl' & H). unfold mul_div_floor_u128 in *.
  rewrite or_overflow_Ok, mul_div_floor_big_spec in Hi by done.
  change (Q64 =? 0) with false in Hi. change Q64 with (2 ^ 64) in Hi. ok_inv.
  rewrite or_overflow_Ok, mul_div_floor_big_spec in Hl' by done.
  destruct (Z.eqb_spec (b - a) 0); big_inv. split; [done|].
  apply delta_0_up_le; [lia|].
  pose proof (zfloor_bounds (x * (a * b / 2 ^ 64)) (b - a) ltac:(lia)) as [Hl _].
  pose proof (zfloor_bounds (a * b) (2 ^ 64) eq_refl) as [Hi _].
  set (i := a * b / 2 ^ 64) in *. set (l := x * i / (b - a)) in *. clearbody i l.
  unfold in_u in *. nia.
Qed.

Lemma liquidity_from_amount_1_le a b y l :
  in_u 128 a -> in_u 128 b -> in_u 64 y -> a <= b ->
  get_liquidity_from_amount_1 a b y = Ok l -> in_u 128 l /\ delta_1 a b l true <= y.
Proof.
  intros Ha Hb Hy Hab H. unfold get_liquidity_from_amount_1 in H.
  destruct (Z.eqb_spec y 0) as [->|Hy0].
  { ok_inv. split; [done|]. apply delta_1_up_le; lia. }
  rewrite sort2_le in H by lia. assert (in_u 128 y) by (by apply (in_u_weaken 64)).
  apply obind_Ok in H as (d & Hd & H). apply obind_Ok in H as (l' & Hl' & H).
  unfold mul_div_floor_u128 in *. ok_inv.
  rewrite or_overflow_Ok, mul_div_floor_big_spec in Hl' by done.
  destruct (Z.eqb_spec (b - a) 0); big_inv. split; [done|].
  apply delta_1_up_le.
  pose proof (zfloor_bounds (y * Q64) (b - a) ltac:(lia)) as [Hl _].
  change Q64 with (2 ^ 64) in *. lia.
Qed.

Lemma delta_0_mono_l a b l l' : 0 < a <= b -> l <= l' -> delta_0 a b l true <= delta_0 a b l' true.
Proof. intros. unfold delta_0. apply zceil_mono; nia. Qed.

Lemma delta_1_mono_l a b l l' : a <= b -> l <= l' -> delta_1 a b l true <= delta_1 a b l' true.
Proof. intros. unfold delta_1. apply zceil_mono; nia. Qed.

Lemma delta_0_same a l up : 0 < a -> delta_0 a a l up = 0.
Proof.
  intros. unfold delta_0. rewrite Z.sub_diag, Z.mul_0_r.
  destruct up; [|by rewrite Z.div_0_l by nia]. apply zceil_spec; nia.
Qed.

Lemma delta_1_same a l up : delta_1 a a l up = 0.
Proof. unfold delta_1. rewrite Z.sub_diag, Z.mul_0_r. by destruct up. Qed.

(** Liquidity bought with two amounts is never worth more than them. *)
Lemma liquidity_from_amounts_le p a b x y l :
  in_u 128 p -> in_u 128 a -> in_u 128 b -> in_u 64 x -> in_u 64 y -> 0 < a < b ->
  get_liquidity_from_amounts p a b x y = Ok l ->
  in_u 128 l /\
  (p < b -> delta_0 (Z.max p a) b l true <= x) /\
  (a < p -> delta_1 a (Z.min p b) l true <= y).
Proof.
  intros Hp Ha Hb Hx Hy Hab H. unfold get_liquidity_from_amounts in H.
  rewrite sort2_le in H by lia.
  destruct (Z.leb_spec p a); [|destruct (Z.ltb_spec p b)].
  - apply liquidity_from_amount_0_le in H as [? ?]; [|done..|lia].
    rewrite Z.max_r by lia. split; [done|]. split; [done|lia].
  - apply obind_Ok in H as (l0 & HL0 & H). apply obind_Ok in H as (l1 & HL1 & H).
    apply liquidity_from_amount_0_le in HL0 as [? ?]; [|done..|lia].
    apply liquidity_from_amount_1_le in HL1 as [? ?]; [|done..|lia].
    ok_inv. rewrite (Z.max_l p a), (Z.min_l p b) by lia. split; [range|]. split; intros _.
    + etrans; [|done]. apply delta_0_mono_l; lia.
    + etrans; [|done]. apply delta_1_mono_l; lia.
  - apply liquidity_from_amount_1_le in H as [? ?]; [|done..|lia].
    rewrite Z.min_r by lia. split; [done|]. split; [lia|done].
Qed.
End LiquidityFromAmounts.

Section Properties.
Context {U : UintLib}.

(** Rounding of the two amount routines: for in-range inputs they return
    the least amount worth the liquidity when rounding up and the greatest
    one when rounding down, fail with [MaxTokenOverflow] exactly when that
    exceeds [u64], refuse a zero price, and never panic. *)
Theorem delta_amounts_exact a b l up :
  in_u 128 a -> in_u 128 b -> in_u 128 l -> 0 < a <= b ->
  get_delta_amount_0_unsigned a b l up = token_amount (delta_0 a b l up) /\
  get_delta_amount_1_unsigned a b l up = token_amount (delta_1 a b l up) /\
  (forall x, l * 2 ^ 64 * (b - a) <= x * (a * b) <-> delta_0 a b l true <= x) /\
  (forall x, x * (a * b) <= l * 2 ^ 64 * (b - a) <-> x <= delta_0 a b l false) /\
  (forall y, l * (b - a) <= y * 2 ^ 64 <-> delta_1 a b l true <= y) /\
  (forall y, y * 2 ^ 64 <= l * (b - a) <-> y <= delta_1 a b l false).
Proof.
  intros Ha Hb Hl Hab. split_and!; intros.
  - rewrite get_delta_amount_0_unsigned_sorted by (done || lia).
    by destruct (Z.eqb_spec a 0); [lia|].
  - by rewrite get_delta_amount_1_unsigned_sorted by (done || lia).
  - by apply delta_0_up_le.
  - by apply delta_0_down_ge.
  - apply delta_1_up_le.
  - apply delta_1_down_ge.
Qed.

(** A deposit never costs more than the amounts it was sized with: the
    liquidity that [get_liquidity_from_amounts] gives for two amounts at a
    pool price needs, according to [get_delta_amounts_signed] for the same
    range and price, at most these amounts, and that computation succeeds. *)
Theorem liquidity_from_amounts_affordable tc p tl tu a b x y l :
  price_range tc p tl tu -> (tl <= tc \/ p <= price_of tl) ->
  (tc < tu \/ price_of tu <= p) ->
  get_sqrt_price_at_tick tl = Ok a -> get_sqrt_price_at_tick tu = Ok b ->
  in_u 64 x -> in_u 64 y ->
  get_liquidity_from_amounts p a b x y = Ok l -> l < 2 ^ 127 ->
  exists x' y', get_delta_amounts_signed tc p tl tu l = Ok (x', y') /\ x' <= x /\ y' <= y.
Proof.
  intros Hr Hlo Hhi [_ ->]%get_sqrt_price_at_tick_Ok [_ ->]%get_sqrt_price_at_tick_Ok Hx Hy H Hl.
  pose proof Hr as [Hr1 Hr2 Hr3 Hp Ha Hb].
  pose proof (price_of_lt tl tu Hr1 Hr2 Hr3) as Hab.
  pose proof (price_of_range tl ltac:(lia)). unfold MIN_SQRT_PRICE_X64 in *.
  apply liquidity_from_amounts_le in H as (Hl' & HL0 & HL1); [|done| | |done|done|lia].
  2,3: apply price_of_in_u; lia.
  rewrite get_delta_amounts_signed_spec by (done || range).
  rewrite Z.abs_eq by range. rewrite (proj2 (Z.leb_le 0 l)) by range.
  unfold clip_amounts, token_amounts.
  assert (forall z m, 0 <= z -> z <= m -> in_u 64 m -> token_amount z = Ok z) as Htok.
  { intros z m ? ? ?. apply token_amount_Ok. range. }
  destruct (Z.ltb_spec tc tl); [|destruct (Z.ltb_spec tc tu)]; cbn [fst snd].
  - destruct Hlo; [lia|]. rewrite Z.max_r in HL0 by lia. specialize (HL0 ltac:(lia)).
    erewrite Htok; [|apply delta_0_nonneg; range|done|done]. rewrite token_amount_0.
    eexists _, _. split; [done|]. range.
  - specialize (Ha ltac:(lia)). specialize (Hb ltac:(lia)).
    assert (delta_0 p (price_of tu) l true <= x).
    { destruct (Z.eq_dec p (price_of tu)) as [->|]; [rewrite delta_0_same by lia; range|].
      rewrite Z.max_l in HL0 by lia. apply HL0. lia. }
    assert (delta_1 (price_of tl) p l true <= y).
    { destruct (Z.eq_dec p (price_of tl)) as [->|]; [rewrite delta_1_same; range|].
      rewrite Z.min_l in HL1 by lia. apply HL1. lia. }
    erewrite Htok; [|apply delta_0_nonneg; range|done|done].
    erewrite Htok; [|apply delta_1_nonneg; range|done|done].
    eexists _, _. split; [done|]. lia.
  - destruct Hhi; [lia|]. rewrite Z.min_r in HL1 by lia. specialize (HL1 ltac:(lia)).
    rewrite token_amount_0. erewrite Htok; [|apply delta_1_nonneg; range|done|done].
    eexists _, _. split; [done|]. range.
Qed.

(** C37: Depositing and withdrawing the same liquidity at the same price never
    pays out more than was paid in, and loses at most one unit of each token
    to rounding; whenever the deposit succeeds, so does the withdrawal. *)
Theorem deposit_withdraw_roundtrip tc p tl tu l x y :
  price_range tc p tl tu -> 0 <= l < 2 ^ 127 ->
  get_delta_amounts_signed tc p tl tu l = Ok (x, y) ->
  exists x' y', get_delta_amounts_signed tc p tl tu (- l) = Ok (x', y') /\
    0 <= x' <= x /\ x <= x' + 1 /\ 0 <= y' <= y /\ y <= y' + 1.
Proof.
  intros Hr Hl. rewrite !get_delta_amounts_signed_spec by (done || lia).
  rewrite Z.abs_opp, Z.abs_eq by lia. rewrite (proj2 (Z.leb_le 0 l)) by lia.
  destruct (Z.eq_dec l 0) as [->|].
  { intros H. exists x, y. change (0 <=? -0) with true. split; [done|].
    unfold token_amounts in H. do 2 (apply obind_Ok in H as (? & [-> _]%token_amount_Ok & H)).
    injection H as <- <-. destruct Hr. pose proof (price_of_lt tl tu).
    pose proof (price_of_range tl ltac:(lia)). unfold MIN_SQRT_PRICE_X64 in *.
    unfold clip_amounts. destruct (Z.ltb_spec tc tl); [|destruct (Z.ltb_spec tc tu)]; cbn [fst snd];
      repeat split; try lia; first [apply delta_0_nonneg|apply delta_1_nonneg]; lia. }
  rewrite (proj2 (Z.leb_gt 0 (- l))) by lia.
  assert (forall c : bool, exists x y, clip_amounts tc p tl (price_of tl) tu (price_of tu) l c = (x, y)) as Hc.
  { intros c. destruct (clip_amounts _ _ _ _ _ _ _ _). eauto. }
  destruct (Hc true) as (xu & yu & Eu), (Hc false) as (xd & yd & Ed). rewrite Eu, Ed.
  assert (0 <= xd <= xu /\ xu <= xd + 1 /\ 0 <= yd <= yu /\ yu <= yd + 1) as Hb.
  { destruct Hr as [Hr1 Hr2 Hr3 Hp Ha Hb]. pose proof (price_of_lt tl tu Hr1 Hr2 Hr3).
    pose proof (price_of_range tl ltac:(lia)). unfold MIN_SQRT_PRICE_X64 in *.
    unfold clip_amounts in *. destruct (Z.ltb_spec tc tl); [|destruct (Z.ltb_spec tc tu)];
      injection Eu as <- <-; injection Ed as <- <-;
      repeat split; try lia;
      first [apply delta_0_nonneg; lia | apply delta_1_nonneg; lia
            |apply delta_0_down_up; lia | apply delta_1_down_up
            |apply delta_0_up_down; lia | apply delta_1_up_down | apply Z.div_pos; nia]. }
  unfold token_amounts. cbn [fst snd]. intros H.
  apply obind_Ok in H as (x1 & [-> Hx]%token_amount_Ok & H).
  apply obind_Ok in H as (y1 & [-> Hy]%token_amount_Ok & H). injection H as <- <-.
  exists xd, yd. rewrite !(proj2 (token_amount_Ok _ _)) by (split; [done|lia]). done.
Qed.

(** [add_delta] is exact signed addition on [u128]: it returns [x + y]
    when that fits and panics otherwise, so removing the liquidity just
    added restores the value. *)
Theorem add_delta_exact x y :
  in_u 128 x ->
  add_delta x y = (if uok 128 (x + y) then Ok (x + y) else Panic) /\
  (forall z, add_delta x y = Ok z -> add_delta z (- y) = Ok x).
Proof.
  intros Hx. split.
  - destruct (uok 128 (x + y)) eqn:Hu; [apply add_delta_ok; by apply uok_spec|].
    unfold add_delta, uchk. destruct (Z.ltb_spec y 0).
    + replace (x - Z.abs y) with (x + y) by lia. by rewrite Hu.
    + replace (x + Z.abs y) with (x + y) by lia. by rewrite Hu.
  - intros z [-> ?]%add_delta_Ok. replace x with (x + y + - y) at 2 by lia.
    apply add_delta_ok. by replace (x + y + - y) with x by lia.
Qed.
End Properties.

Section Witnesses.
#[local] Existing Instance uint_std.

Lemma price_range_example : price_range 0 (2 ^ 64) (-10) 10.
Proof.
  split; [vm_compute; discriminate|done|vm_compute; discriminate|done
         |intros _; vm_compute; discriminate..].
Qed.

Lemma delta_amounts_exact_witness :
  get_delta_amount_0_unsigned (2 ^ 64) (2 ^ 65) (3 * 2 ^ 20 + 1) true = Ok 1572865 /\
  get_delta_amount_0_unsigned (2 ^ 64) (2 ^ 65) (3 * 2 ^ 20 + 1) false = Ok 1572864.
Proof.
  split.
  - destruct (delta_amounts_exact (2 ^ 64) (2 ^ 65) (3 * 2 ^ 20 + 1) true) as (E & _);
      [by_compute..|]. rewrite E. vm_compute. reflexivity.
  - destruct (delta_amounts_exact (2 ^ 64) (2 ^ 65) (3 * 2 ^ 20 + 1) false) as (E & _);
      [by_compute..|]. rewrite E. vm_compute. reflexivity.
Defined.

Lemma liquidity_from_amounts_affordable_witness :
  exists x' y', get_delta_amounts_signed 0 (2 ^ 64) (-10) 10 2000600 = Ok (x', y') /\
    x' <= 1000 /\ y' <= 1001.
Proof.
  apply (liquidity_from_amounts_affordable 0 (2 ^ 64) (-10) 10 (price_of (-10)) (price_of 10)
           1000 1001 2000600 price_range_example).
  - left. by_compute.
  - left. by_compute.
  - by_compute.
  - by_compute.
  - by_compute.
  - by_compute.
  - by_compute.
  - by_compute.
Defined.

Lemma deposit_withdraw_roundtrip_witness :
  exists x' y', get_delta_amounts_signed 0 (2 ^ 64) (-10) 10 (- 2000600) = Ok (x', y') /\
    0 <= x' <= 1000 /\ 1000 <= x' + 1 /\ 0 <= y' <= 1000 /\ 1000 <= y' + 1.
Proof.
  apply (deposit_withdraw_roundtrip 0 (2 ^ 64) (-10) 10 2000600 1000 1000 price_range_example).
  - by_compute.
  - by_compute.
Defined.

Lemma add_delta_exact_witness :
  add_delta 5 (-3) = Ok 2 /\ add_delta 2 3 = Ok 5 /\ add_delta 2 (-3) = Panic.
Proof.
  split; [apply (add_delta_exact 5 (-3)); done|]. split.
  - apply (add_delta_exact 5 (-3)); [done|]. reflexivity.
  - apply (add_delta_exact 2 (-3)). done.
Defined.
End Witnesses.
