(* ===== verification/SqrtPriceMath.v ===== *)
(** [libraries/sqrt_price_math.rs]: the price after adding or removing an
    amount of one of the tokens. *)
From S2P Require Import Prelude.
From S2P Require Import AmmError.
From S2P Require Import BigNum.
From S2P Require Import FullMath.
From S2P Require Import TickMath.
From S2P Require Import LiquidityMath.

Section SqrtPriceMath.
Context {U : UintLib}.

Definition get_next_sqrt_price_from_amount_0_rounding_up
    (sqrt_price_x64 liquidity amount : Z) (add : bool) : Result Z :=
  if amount =? 0 then Ok sqrt_price_x64
  else
    let numerator_1 := uint_shl 256 liquidity RESOLUTION in
    if add then
      let fallback :=
        let! q := big_div numerator_1 sqrt_price_x64 in
        let! d := ok_or (uint_checked_add 256 q amount) CalculateOverflow in
        let! r := div_rounding_up_u256 numerator_1 d in
        big_u128 r in
      match uint_checked_mul 256 amount sqrt_price_x64 with
      | Some product =>
          let! denominator := big_add 256 numerator_1 product in
          if numerator_1 <=? denominator then
            let! r := or_overflow (mul_div_ceil_u256 numerator_1 sqrt_price_x64 denominator) in
            big_u128 r
          else fallback
      | None => fallback
      end
    else
      let! product := ok_or (uint_checked_mul 256 amount sqrt_price_x64) CalculateOverflow in
      let! denominator := ok_or (uint_checked_sub 256 numerator_1 product) CalculateOverflow in
      let! r := or_overflow (mul_div_ceil_u256 numerator_1 sqrt_price_x64 denominator) in
      big_u128 r.

Definition get_next_sqrt_price_from_amount_1_rounding_down
    (sqrt_price_x64 liquidity amount : Z) (add : bool) : Result Z :=
  if amount =? 0 then Ok sqrt_price_x64
  else if add then
    let! quotient := big_div (uint_shl 256 amount RESOLUTION) liquidity in
    let! q := big_u128 quotient in
    ok_or (ucheck 128 (sqrt_price_x64 + q)) CalculateOverflow
  else
    let! quotient := div_rounding_up_u256 (uwrap 128 (Z.shiftl amount RESOLUTION)) liquidity in
    let! q := big_u128 quotient in
    ok_or (ucheck 128 (sqrt_price_x64 - q)) CalculateOverflow.

Definition get_next_sqrt_price_from_input
    (sqrt_price_x64 liquidity amount_in : Z) (zero_for_one : bool) : Result Z :=
  do! require (0 <? sqrt_price_x64) ZeroSqrtPrice in
  do! require (0 <? liquidity) ZeroLiquidity in
  if zero_for_one then
    get_next_sqrt_price_from_amount_0_rounding_up sqrt_price_x64 liquidity amount_in true
  else
    get_next_sqrt_price_from_amount_1_rounding_down sqrt_price_x64 liquidity amount_in true.

Definition get_next_sqrt_price_from_output
    (sqrt_price_x64 liquidity amount_out : Z) (zero_for_one : bool) : Result Z :=
  do! require (0 <? sqrt_price_x64) ZeroSqrtPrice in
  do! require (0 <? liquidity) ZeroLiquidity in
  if zero_for_one then
    get_next_sqrt_price_from_amount_1_rounding_down sqrt_price_x64 liquidity amount_out false
  else
    get_next_sqrt_price_from_amount_0_rounding_up sqrt_price_x64 liquidity amount_out false.

(** * Closed forms *)

Lemma zero_ceil d : 0 < d -> zceil 0 d = 0.
Proof. intros. apply zceil_spec; lia. Qed.

(** Adding token 0: the price [p * N / (N + x * p)], [N = L * 2^64], rounded
    up. *)
Lemma next_price_amount_0_add p l x :
  in_u 128 p -> in_u 128 l -> in_u 64 x -> 0 < p -> 0 < l ->
  get_next_sqrt_price_from_amount_0_rounding_up p l x true =
  Ok (zceil (l * 2 ^ 64 * p) (l * 2 ^ 64 + x * p)).
Proof.
  intros Hp Hl Hx Hp0 Hl0. unfold get_next_sqrt_price_from_amount_0_rounding_up.
  set (n := l * 2 ^ 64). assert (0 < n < 2 ^ 192) as Hn by (unfold n; range).
  destruct (Z.eqb_spec x 0) as [->|Hx0].
  { f_equal. symmetry. apply zceil_spec; nia. }
  assert (0 <= x * p < 2 ^ 192) as Hxp.
  { unfold in_u in *. assert (2 ^ 192 = 2 ^ 64 * 2 ^ 128) as -> by done. nia. }
  rewrite uint_checked_mul_law, ucheck_ok by range.
  rewrite shl64 by done. fold n. rewrite big_add_ok by range. cbn [obind].
  destruct (Z.leb_spec n (n + x * p)); [|lia].
  unfold mul_div_ceil_u256. rewrite mul_div_ceil_big_spec by range.
  destruct (Z.eqb_spec (n + x * p) 0); [lia|].
  assert (0 <= zceil (n * p) (n + x * p) <= p) as Hr.
  { split; [apply zceil_nonneg; nia|]. apply zceil_le; nia. }
  rewrite ucheck_ok by range. unfold or_overflow. cbn [obind ok_or Prelude.ok_or].
  apply big_u128_ok. range.
Qed.

(** Removing token 0. *)
Lemma next_price_amount_0_sub p l x :
  in_u 128 p -> in_u 128 l -> in_u 64 x -> 0 < p -> 0 < l ->
  get_next_sqrt_price_from_amount_0_rounding_up p l x false =
  if x =? 0 then Ok p
  else if l * 2 ^ 64 <=? x * p then err CalculateOverflow
  else
    let r := zceil (l * 2 ^ 64 * p) (l * 2 ^ 64 - x * p) in
    if uok 128 r then Ok r else if uok 256 r then Panic else err CalculateOverflow.
Proof.
  intros Hp Hl Hx Hp0 Hl0. unfold get_next_sqrt_price_from_amount_0_rounding_up.
  set (n := l * 2 ^ 64). assert (0 < n < 2 ^ 192) as Hn by (unfold n; range).
  destruct (Z.eqb_spec x 0) as [->|Hx0]; [done|].
  assert (0 <= x * p < 2 ^ 192) as Hxp.
  { unfold in_u in *. assert (2 ^ 192 = 2 ^ 64 * 2 ^ 128) as -> by done. nia. }
  rewrite uint_checked_mul_law, ucheck_ok by range. cbn [ok_or Prelude.ok_or obind].
  rewrite shl64 by done. fold n. rewrite uint_checked_sub_law.
  unfold ucheck at 1. unfold uok at 1.
  destruct (Z.leb_spec n (x * p)), (Z.leb_spec 0 (n - x * p)), (Z.ltb_spec (n - x * p) (2 ^ 256));
    try range; try done; cbn [andb ok_or Prelude.ok_or obind].
  { assert (n - x * p = 0) as -> by lia.
    unfold mul_div_ceil_u256. by rewrite mul_div_ceil_big_spec by range. }
  unfold mul_div_ceil_u256. rewrite mul_div_ceil_big_spec by range.
  destruct (Z.eqb_spec (n - x * p) 0); [lia|].
  set (r := zceil (n * p) (n - x * p)). cbn zeta. unfold ucheck.
  assert (0 <= r) by (apply zceil_nonneg; nia).
  destruct (uok 256 r) eqn:H256; unfold or_overflow; cbn [obind ok_or Prelude.ok_or].
  - unfold big_u128. rewrite uint_as_u128_law. unfold ucheck. by destruct (uok 128 r).
  - destruct (uok 128 r) eqn:H128; [|done].
    apply uok_spec in H128. apply (in_u_weaken 128 256), uok_spec in H128; [|lia]. congruence.
Qed.

(** Adding token 1: [p + x * 2^64 / L], rounded down. *)
Lemma next_price_amount_1_add p l x :
  in_u 128 p -> in_u 128 l -> in_u 64 x -> 0 < l ->
  get_next_sqrt_price_from_amount_1_rounding_down p l x true =
  ok_or (ucheck 128 (p + x * 2 ^ 64 / l)) CalculateOverflow.
Proof.
  intros Hp Hl Hx Hl0. unfold get_next_sqrt_price_from_amount_1_rounding_down.
  destruct (Z.eqb_spec x 0) as [->|Hx0].
  { rewrite Z.mul_0_l, Z.div_0_l, Z.add_0_r by lia. by rewrite ucheck_ok. }
  rewrite shl64 by (by apply (in_u_weaken 64)). rewrite big_div_ok by lia. cbn [obind].
  rewrite big_u128_ok; [done|]. apply zdiv_in_u; range.
Qed.

(** Removing token 1: [p - x * 2^64 / L], the quotient rounded up. *)
Lemma next_price_amount_1_sub p l x :
  in_u 128 p -> in_u 128 l -> in_u 64 x -> 0 < l ->
  get_next_sqrt_price_from_amount_1_rounding_down p l x false =
  ok_or (ucheck 128 (p - zceil (x * 2 ^ 64) l)) CalculateOverflow.
Proof.
  intros Hp Hl Hx Hl0. unfold get_next_sqrt_price_from_amount_1_rounding_down.
  destruct (Z.eqb_spec x 0) as [->|Hx0].
  { rewrite Z.mul_0_l, zero_ceil, Z.sub_0_r by lia. by rewrite ucheck_ok. }
  unfold RESOLUTION. rewrite Z.shiftl_mul_pow2 by done.
  rewrite uwrap_id by range. unfold div_rounding_up_u256.
  rewrite div_rounding_up_big_spec by range. cbn [obind].
  rewrite big_u128_ok; [done|].
  assert (zceil (x * 2 ^ 64) l <= x * 2 ^ 64) by (apply zceil_le; [done|unfold in_u in *; nia]).
  pose proof (zceil_nonneg (x * 2 ^ 64) l). range.
Qed.

Lemma next_from_input_Ok p l x z q :
  get_next_sqrt_price_from_input p l x z = Ok q ->
  0 < p /\ 0 < l /\
  (if z then get_next_sqrt_price_from_amount_0_rounding_up p l x true
   else get_next_sqrt_price_from_amount_1_rounding_down p l x true) = Ok q.
Proof. intros H. unfold get_next_sqrt_price_from_input in H. ok_inv. zbool. by destruct z. Qed.

Lemma next_from_output_Ok p l x z q :
  get_next_sqrt_price_from_output p l x z = Ok q ->
  0 < p /\ 0 < l /\
  (if z then get_next_sqrt_price_from_amount_1_rounding_down p l x false
   else get_next_sqrt_price_from_amount_0_rounding_up p l x false) = Ok q.
Proof. intros H. unfold get_next_sqrt_price_from_output in H. ok_inv. zbool. by destruct z. Qed.
End SqrtPriceMath.

(** The exact amounts a price move [p -> q] moves in and out of the pool. *)
Definition amount_in_exact (p q l : Z) (zero_for_one : bool) (up : bool) : Z :=
  if zero_for_one then delta_0 (Z.min p q) (Z.max p q) l up
  else delta_1 (Z.min p q) (Z.max p q) l up.
Definition amount_out_exact (p q l : Z) (zero_for_one : bool) (up : bool) : Z :=
  if zero_for_one then delta_1 (Z.min p q) (Z.max p q) l up
  else delta_0 (Z.min p q) (Z.max p q) l up.

Section NextPrice.
Context {U : UintLib}.

(** An input never moves the price further than the input pays for. *)
Lemma next_from_input_sound p l x z q :
  in_u 128 p -> in_u 128 l -> in_u 64 x ->
  get_next_sqrt_price_from_input p l x z = Ok q ->
  in_u 128 q /\ (if z then 0 < q <= p else p <= q) /\ amount_in_exact p q l z true <= x.
Proof.
  intros Hp Hl Hx (Hp0 & Hl0 & H)%next_from_input_Ok. unfold amount_in_exact. destruct z.
  - rewrite next_price_amount_0_add in H by done. injection H as <-.
    set (n := l * 2 ^ 64). assert (0 < n) by (unfold n; lia).
    pose proof (zceil_bounds (n * p) (n + x * p) ltac:(unfold in_u in *; nia)) as Hq.
    assert (zceil (n * p) (n + x * p) <= p) by (apply zceil_le; unfold in_u in *; nia).
    set (q := zceil _ _) in *. clearbody q.
    assert (0 < q) by (unfold in_u in *; nia).
    rewrite Z.min_r, Z.max_l by lia. split; [range|]. split; [lia|].
    apply delta_0_up_le; [lia|]. fold n. unfold in_u in *. nia.
  - rewrite next_price_amount_1_add in H by done. ok_inv.
    pose proof (zfloor_bounds (x * 2 ^ 64) l Hl0).
    assert (0 <= x * 2 ^ 64 / l) by (apply Z.div_pos; range).
    rewrite Z.min_l, Z.max_r by lia. split; [done|]. split; [lia|].
    apply delta_1_up_le. set (d := x * 2 ^ 64 / l) in *. clearbody d. nia.
Qed.

(** An output is met by the price it moves to. *)
Lemma next_from_output_sound p l x z q :
  in_u 128 p -> in_u 128 l -> in_u 64 x ->
  get_next_sqrt_price_from_output p l x z = Ok q ->
  in_u 128 q /\ (if z then q <= p else p <= q) /\ (z = true \/ 0 < q) /\
  x <= amount_out_exact p q l z false.
Proof.
  intros Hp Hl Hx (Hp0 & Hl0 & H)%next_from_output_Ok. unfold amount_out_exact. destruct z.
  - rewrite next_price_amount_1_sub in H by done. ok_inv.
    pose proof (zceil_bounds (x * 2 ^ 64) l Hl0).
    assert (0 <= zceil (x * 2 ^ 64) l) by (apply zceil_nonneg; range).
    rewrite Z.min_r, Z.max_l by lia. split; [done|]. split; [lia|]. split; [by left|].
    apply delta_1_down_ge. set (d := zceil (x * 2 ^ 64) l) in *. clearbody d. nia.
  - rewrite next_price_amount_0_sub in H by done.
    destruct (Z.eqb_spec x 0) as [->|Hx0].
    { injection H as <-. rewrite Z.min_id, Z.max_id, delta_0_same by done.
      repeat split; first [range|by right]. }
    set (n := l * 2 ^ 64) in *. assert (0 < n) by (unfold n; lia).
    destruct (Z.leb_spec n (x * p)); [done|].
    cbn zeta in H. set (r := zceil _ _) in *.
    pose proof (zceil_bounds (n * p) (n - x * p) ltac:(lia)) as Hq. fold r in Hq.
    destruct (uok 128 r) eqn:Hr; [|by destruct (uok 256 r)]. injection H as <-.
    apply uok_spec in Hr. clearbody r.
    assert (p <= r) by (unfold in_u in *; nia).
    rewrite Z.min_l, Z.max_r by lia. split; [done|]. split; [lia|]. split; [right; lia|].
    apply delta_0_down_ge; [lia|]. fold n. unfold in_u in *. nia.
Qed.
End NextPrice.

Section Properties.
Context {U : UintLib}.

(** The next price from an input is the furthest price the input pays
    for: among all prices in the direction of the trade, exactly those not
    beyond it cost (rounded up) at most the input. *)
Theorem next_sqrt_price_from_input_optimal p l x z q :
  in_u 128 p -> in_u 128 l -> in_u 64 x ->
  get_next_sqrt_price_from_input p l x z = Ok q ->
  (if z then 0 < q <= p else p <= q) /\
  forall q', (if z then 0 < q' <= p else p <= q') ->
    (amount_in_exact p q' l z true <= x <-> (if z then q <= q' else q' <= q)).
Proof.
  intros Hp Hl Hx H.
  pose proof (next_from_input_sound p l x z q Hp Hl Hx H) as (Hq & Hd & _). split; [done|].
  intros q' Hq'. apply next_from_input_Ok in H as (Hp0 & Hl0 & H).
  unfold amount_in_exact. destruct z.
  - rewrite next_price_amount_0_add in H by done. injection H as <-.
    rewrite Z.min_r, Z.max_l by lia. rewrite <- delta_0_up_le by lia.
    assert (0 < l * 2 ^ 64) by lia. assert (0 <= x * p) by (unfold in_u in *; nia).
    set (n := l * 2 ^ 64) in *. split; intros Hc.
    + apply zceil_le; [lia|]. nia.
    + pose proof (zceil_bounds (n * p) (n + x * p) ltac:(lia)). nia.
  - rewrite next_price_amount_1_add in H by done.
    apply ok_or_Ok, ucheck_Some in H as [-> ?].
    rewrite Z.min_l, Z.max_r by lia. rewrite <- delta_1_up_le. split; intros Hc.
    + enough (q' - p <= x * 2 ^ 64 / l) by lia. apply zfloor_ge; lia.
    + pose proof (zfloor_bounds (x * 2 ^ 64) l Hl0). nia.
Qed.

(** The next price from an output is the nearest price that frees the
    output: among all prices in the direction of the trade, exactly those at
    or beyond it pay out (rounded down) at least the output asked for. *)
Theorem next_sqrt_price_from_output_optimal p l x z q :
  in_u 128 p -> in_u 128 l -> in_u 64 x -> 0 < x ->
  get_next_sqrt_price_from_output p l x z = Ok q ->
  (if z then q <= p else p <= q) /\
  forall q', (if z then q' <= p else p <= q') ->
    (x <= amount_out_exact p q' l z false <-> (if z then q' <= q else q <= q')).
Proof.
  intros Hp Hl Hx Hx0 H.
  pose proof (next_from_output_sound p l x z q Hp Hl Hx H) as (Hq & Hd & _). split; [done|].
  intros q' Hq'. apply next_from_output_Ok in H as (Hp0 & Hl0 & H).
  unfold amount_out_exact. destruct z.
  - rewrite next_price_amount_1_sub in H by done.
    apply ok_or_Ok, ucheck_Some in H as [-> ?].
    rewrite Z.min_r, Z.max_l by lia. rewrite <- delta_1_down_ge. split; intros Hc.
    + enough (zceil (x * 2 ^ 64) l <= p - q') by lia. apply zceil_le; lia.
    + pose proof (zceil_bounds (x * 2 ^ 64) l Hl0). nia.
  - rewrite next_price_amount_0_sub in H by done. destruct (Z.eqb_spec x 0) as [?|_]; [lia|].
    rewrite Z.min_l, Z.max_r by lia. rewrite <- delta_0_down_ge by lia.
    set (n := l * 2 ^ 64) in *. destruct (Z.leb_spec n (x * p)); [done|]. cbn zeta in H.
    set (r := zceil _ _) in *.
    destruct (uok 128 r); [|by destruct (uok 256 r)]. injection H as <-.
    unfold r. split; intros Hc.
    + apply zceil_le; [lia|]. nia.
    + pose proof (zceil_bounds (n * p) (n - x * p) ltac:(lia)). nia.
Qed.
End Properties.

Section Witnesses.
#[local] Existing Instance uint_std.

Lemma next_sqrt_price_from_input_optimal_witness :
  0 < 2 ^ 63 <= 2 ^ 64 /\
  forall q', 0 < q' <= 2 ^ 64 ->
    (amount_in_exact (2 ^ 64) q' (2 ^ 20) true true <= 2 ^ 20 <-> 2 ^ 63 <= q').
Proof.
  apply (next_sqrt_price_from_input_optimal (2 ^ 64) (2 ^ 20) (2 ^ 20) true (2 ^ 63)); by_compute.
Defined.

Lemma next_sqrt_price_from_output_optimal_witness :
  2 ^ 64 <= 2 ^ 65 /\
  forall q', 2 ^ 64 <= q' ->
    (2 ^ 19 <= amount_out_exact (2 ^ 64) q' (2 ^ 20) false false <-> 2 ^ 65 <= q').
Proof.
  apply (next_sqrt_price_from_output_optimal (2 ^ 64) (2 ^ 20) (2 ^ 19) false (2 ^ 65)); by_compute.
Defined.
End Witnesses.
