(* ===== verification/SwapMath.v ===== *)
(** [libraries/swap_math.rs]: one step of a swap, against constant liquidity
    up to a target price. *)
From S2P Require Import Prelude.
From S2P Require Import AmmError.
From S2P Require Import Config.
From S2P Require Import BigNum.
From S2P Require Import FullMath.
From S2P Require Import TickMath.
From S2P Require Import LiquidityMath.
From S2P Require Import SqrtPriceMath.

Record SwapComputationResult := mkSwapResult {
  sqrt_price_next_x64 : Z;
  amount_in : Z;
  amount_out : Z;
  fee_amount : Z;
}.

Section SwapMath.
Context {U : UintLib}.

(** The amount the whole range needs or yields; [None] when it exceeds
    [u64]. *)
Definition calculate_amount_in_range
    (sqrt_price_current_x64 sqrt_price_target_x64 liquidity : Z)
    (zero_for_one is_base_input : bool) : Result (option Z) :=
  let result :=
    if is_base_input then
      if zero_for_one then
        get_delta_amount_0_unsigned sqrt_price_target_x64 sqrt_price_current_x64 liquidity true
      else
        get_delta_amount_1_unsigned sqrt_price_current_x64 sqrt_price_target_x64 liquidity true
    else
      if zero_for_one then
        get_delta_amount_1_unsigned sqrt_price_target_x64 sqrt_price_current_x64 liquidity false
      else
        get_delta_amount_0_unsigned sqrt_price_current_x64 sqrt_price_target_x64 liquidity false in
  match result with
  | Ok v => Ok (Some v)
  | Err e => if decide (e = Program MaxTokenOverflow) then Ok None else err SqrtPriceLimitOverflow
  | Panic => Panic
  end.

(** [compute_swap], first part: the price reached, with the range amount of
    the side that is fixed ([amount_in] or [amount_out], else zero). *)
Definition compute_swap_price
    (sqrt_price_current_x64 sqrt_price_target_x64 liquidity amount_remaining fee_rate : Z)
    (is_base_input zero_for_one is_fee_on_input : bool) : Result (Z * Z * Z) :=
  if is_base_input then
    let! amount_for_price_calc :=
      if is_fee_on_input then
        let! d := uchk 32 (FEE_RATE_DENOMINATOR_VALUE - fee_rate) in
        or_overflow (mul_div_floor_u64 amount_remaining d FEE_RATE_DENOMINATOR_VALUE)
      else Ok amount_remaining in
    let! amount_in :=
      calculate_amount_in_range sqrt_price_current_x64 sqrt_price_target_x64 liquidity
        zero_for_one is_base_input in
    let result_amount_in := default 0 amount_in in
    let! next :=
      if bool_decide (is_Some amount_in) && (result_amount_in <=? amount_for_price_calc)
      then Ok sqrt_price_target_x64
      else get_next_sqrt_price_from_input sqrt_price_current_x64 liquidity
             amount_for_price_calc zero_for_one in
    Ok (next, result_amount_in, 0)
  else
    let! amount_for_price_calc :=
      if is_fee_on_input then Ok amount_remaining
      else
        let! d := uchk 32 (FEE_RATE_DENOMINATOR_VALUE - fee_rate) in
        or_overflow (mul_div_ceil_u64 amount_remaining FEE_RATE_DENOMINATOR_VALUE d) in
    let! amount_out :=
      calculate_amount_in_range sqrt_price_current_x64 sqrt_price_target_x64 liquidity
        zero_for_one is_base_input in
    let result_amount_out := default 0 amount_out in
    let! next :=
      if bool_decide (is_Some amount_out) && (result_amount_out <=? amount_for_price_calc)
      then Ok sqrt_price_target_x64
      else get_next_sqrt_price_from_output sqrt_price_current_x64 liquidity
             amount_for_price_calc zero_for_one in
    Ok (next, 0, result_amount_out).

(** Second part: the direction check, and the amounts the target does not
    fix. *)
Definition compute_swap_amounts
    (sqrt_price_current_x64 sqrt_price_target_x64 liquidity : Z)
    (is_base_input zero_for_one : bool)
    (sqrt_price_next amount_in0 amount_out0 : Z) : Result (Z * Z) :=
  do! if zero_for_one then require_gte sqrt_price_next sqrt_price_target_x64
      else require_gte sqrt_price_target_x64 sqrt_price_next in
  let max := sqrt_price_target_x64 =? sqrt_price_next in
  let! amount_in :=
    if negb (max && is_base_input) then
      if zero_for_one then
        get_delta_amount_0_unsigned sqrt_price_next sqrt_price_current_x64 liquidity true
      else
        get_delta_amount_1_unsigned sqrt_price_current_x64 sqrt_price_next liquidity true
    else Ok amount_in0 in
  let! amount_out :=
    if negb (max && negb is_base_input) then
      if zero_for_one then
        get_delta_amount_1_unsigned sqrt_price_next sqrt_price_current_x64 liquidity false
      else
        get_delta_amount_0_unsigned sqrt_price_current_x64 sqrt_price_next liquidity false
    else Ok amount_out0 in
  Ok (amount_in, amount_out).

(** Third part: the fee, and the output net of it. *)
Definition compute_swap_fee
    (sqrt_price_target_x64 amount_remaining fee_rate : Z) (is_base_input is_fee_on_input : bool)
    (sqrt_price_next amount_in amount_out : Z) : Result SwapComputationResult :=
  if is_base_input then
    if is_fee_on_input then
      let! fee :=
        if negb (sqrt_price_next =? sqrt_price_target_x64) then
          ok_or (ucheck 64 (amount_remaining - amount_in)) CalculateOverflow
        else
          let! d := uchk 32 (FEE_RATE_DENOMINATOR_VALUE - fee_rate) in
          or_overflow (mul_div_ceil_u64 amount_in fee_rate d) in
      Ok (mkSwapResult sqrt_price_next amount_in amount_out fee)
    else
      let! fee := or_overflow (mul_div_ceil_u64 amount_out fee_rate FEE_RATE_DENOMINATOR_VALUE) in
      let! net := ok_or (ucheck 64 (amount_out - fee)) CalculateOverflow in
      Ok (mkSwapResult sqrt_price_next amount_in net fee)
  else
    if is_fee_on_input then
      let! d := uchk 32 (FEE_RATE_DENOMINATOR_VALUE - fee_rate) in
      let! fee := or_overflow (mul_div_ceil_u64 amount_in fee_rate d) in
      Ok (mkSwapResult sqrt_price_next amount_in (Z.min amount_out amount_remaining) fee)
    else
      let! fee := or_overflow (mul_div_ceil_u64 amount_out fee_rate FEE_RATE_DENOMINATOR_VALUE) in
      let! net_output := ok_or (ucheck 64 (amount_out - fee)) CalculateOverflow in
      if amount_remaining <? net_output then
        let! fee := ok_or (ucheck 64 (amount_out - amount_remaining)) CalculateOverflow in
        Ok (mkSwapResult sqrt_price_next amount_in amount_remaining fee)
      else Ok (mkSwapResult sqrt_price_next amount_in net_output fee).

Definition compute_swap
    (sqrt_price_current_x64 sqrt_price_target_x64 liquidity amount_remaining fee_rate : Z)
    (is_base_input zero_for_one is_fee_on_input : bool) : Result SwapComputationResult :=
  let! '(sqrt_price_next, amount_in0, amount_out0) :=
    compute_swap_price sqrt_price_current_x64 sqrt_price_target_x64 liquidity amount_remaining
      fee_rate is_base_input zero_for_one is_fee_on_input in
  let! '(amount_in, amount_out) :=
    compute_swap_amounts sqrt_price_current_x64 sqrt_price_target_x64 liquidity is_base_input
      zero_for_one sqrt_price_next amount_in0 amount_out0 in
  compute_swap_fee sqrt_price_target_x64 amount_remaining fee_rate is_base_input is_fee_on_input
    sqrt_price_next amount_in amount_out.
End SwapMath.

(** The arguments of a step in a consistent pool: prices in the direction of
    the trade, a fee rate below 100%. *)
Record step_args (cur target l rem f : Z) (z : bool) : Prop := {
  sa_cur : in_u 128 cur;
  sa_cur_pos : 0 < cur;
  sa_target : in_u 128 target;
  sa_target_pos : 0 < target;
  sa_dir : if z then target <= cur else cur <= target;
  sa_liquidity : in_u 128 l;
  sa_remaining : in_u 64 rem;
  sa_rate : 0 <= f < FEE_RATE_DENOMINATOR_VALUE;
}.

(** The same without the direction. *)
Record step_values (cur target l rem f : Z) : Prop := {
  sv_cur : in_u 128 cur;
  sv_cur_pos : 0 < cur;
  sv_target : in_u 128 target;
  sv_target_pos : 0 < target;
  sv_liquidity : in_u 128 l;
  sv_remaining : in_u 64 rem;
  sv_rate : 0 <= f < FEE_RATE_DENOMINATOR_VALUE;
}.

Lemma step_args_values cur target l rem f z : step_args cur target l rem f z -> step_values cur target l rem f.
Proof. intros []. by constructor. Qed.

Lemma amount_in_exact_nonneg p q l z up : 0 < p -> 0 < q -> 0 <= l -> 0 <= amount_in_exact p q l z up.
Proof. intros. unfold amount_in_exact. destruct z; [apply delta_0_nonneg|apply delta_1_nonneg]; lia. Qed.

Lemma amount_out_exact_nonneg p q l z up : 0 < p -> 0 < q -> 0 <= l -> 0 <= amount_out_exact p q l z up.
Proof. intros. unfold amount_out_exact. destruct z; [apply delta_1_nonneg|apply delta_0_nonneg]; lia. Qed.

Section StepLemmas.
Context {U : UintLib}.

Lemma code_amount_in cur q l (z : bool) :
  in_u 128 cur -> in_u 128 q -> in_u 128 l -> 0 < cur -> 0 < q ->
  (if z then get_delta_amount_0_unsigned q cur l true else get_delta_amount_1_unsigned cur q l true)
  = token_amount (amount_in_exact cur q l z true).
Proof.
  intros. unfold amount_in_exact. destruct z.
  - rewrite get_delta_amount_0_unsigned_min by done.
    destruct (Z.eqb_spec (Z.min q cur) 0); [lia|]. by rewrite (Z.min_comm q), (Z.max_comm q).
  - by rewrite get_delta_amount_1_unsigned_min.
Qed.

Lemma code_amount_out cur q l (z : bool) :
  in_u 128 cur -> in_u 128 q -> in_u 128 l -> 0 < cur -> 0 < q ->
  (if z then get_delta_amount_1_unsigned q cur l false else get_delta_amount_0_unsigned cur q l false)
  = token_amount (amount_out_exact cur q l z false).
Proof.
  intros. unfold amount_out_exact. destruct z.
  - rewrite get_delta_amount_1_unsigned_min by done. by rewrite (Z.min_comm q), (Z.max_comm q).
  - rewrite get_delta_amount_0_unsigned_min by done.
    destruct (Z.eqb_spec (Z.min cur q) 0); [lia|done].
Qed.

Lemma calculate_amount_in_range_spec cur target l (z base : bool) :
  in_u 128 cur -> in_u 128 target -> in_u 128 l -> 0 < cur -> 0 < target ->
  calculate_amount_in_range cur target l z base =
  let v := if base then amount_in_exact cur target l z true
           else amount_out_exact cur target l z false in
  Ok (if v <=? umax 64 then Some v else None).
Proof.
  intros. unfold calculate_amount_in_range. cbn zeta. destruct base.
  - rewrite code_amount_in by done. unfold token_amount. by destruct (_ <=? _).
  - rewrite code_amount_out by done. unfold token_amount. by destruct (_ <=? _).
Qed.

Lemma fee_denominator f : 0 <= f < FEE_RATE_DENOMINATOR_VALUE ->
  @uchk error 32 (FEE_RATE_DENOMINATOR_VALUE - f) = Ok (FEE_RATE_DENOMINATOR_VALUE - f).
Proof. unfold FEE_RATE_DENOMINATOR_VALUE. intros. apply uchk_ok. range. Qed.

Definition input_for_price (rem f : Z) (fee_on_input : bool) : Z :=
  if fee_on_input then rem * (FEE_RATE_DENOMINATOR_VALUE - f) / FEE_RATE_DENOMINATOR_VALUE else rem.

Definition output_for_price (rem f : Z) (fee_on_input : bool) : Z :=
  if fee_on_input then rem
  else zceil (rem * FEE_RATE_DENOMINATOR_VALUE) (FEE_RATE_DENOMINATOR_VALUE - f).

Lemma input_for_price_range rem f i :
  in_u 64 rem -> 0 <= f < FEE_RATE_DENOMINATOR_VALUE -> 0 <= input_for_price rem f i <= rem.
Proof.
  unfold input_for_price, FEE_RATE_DENOMINATOR_VALUE, in_u. intros. destruct i; [|lia].
  split; [apply Z.div_pos; nia|]. apply Z.div_le_upper_bound; nia.
Qed.

(** The price part, exact input. *)
Lemma price_base_input cur target l rem f z i :
  step_values cur target l rem f ->
  compute_swap_price cur target l rem f true z i =
  let v := amount_in_exact cur target l z true in
  let c := input_for_price rem f i in
  if v <=? c then Ok (target, v, 0)
  else let! next := get_next_sqrt_price_from_input cur l c z in
       Ok (next, if v <=? umax 64 then v else 0, 0).
Proof.
  intros []. unfold compute_swap_price.
  pose proof (input_for_price_range rem f i sv_remaining0 sv_rate0) as Hc.
  assert ((if i then let! d := uchk 32 (FEE_RATE_DENOMINATOR_VALUE - f) in
            or_overflow (mul_div_floor_u64 rem d FEE_RATE_DENOMINATOR_VALUE) else Ok rem)
          = Ok (input_for_price rem f i)) as ->.
  { unfold input_for_price in *. destruct i; [|done]. rewrite fee_denominator by done. cbn [obind].
    rewrite mul_div_floor_u64_spec;
      [|done|unfold FEE_RATE_DENOMINATOR_VALUE in *; range|by_compute].
    change (FEE_RATE_DENOMINATOR_VALUE =? 0) with false. cbn match.
    by rewrite ucheck_ok by range. }
  cbn [obind]. rewrite calculate_amount_in_range_spec by done. cbn zeta.
  set (v := amount_in_exact _ _ _ _ _). set (c := input_for_price _ _ _) in *.
  destruct (Z.leb_spec v (umax 64)); cbn [obind default from_option id].
  - rewrite bool_decide_eq_true_2 by eauto. cbn [andb]. by destruct (v <=? c).
  - rewrite bool_decide_eq_false_2 by (by intros [? ?]). cbn [andb].
    destruct (Z.leb_spec v c); [range|done].
Qed.

(** The price part, exact output. *)
Lemma price_base_output cur target l rem f z i :
  step_values cur target l rem f ->
  compute_swap_price cur target l rem f false z i =
  let v := amount_out_exact cur target l z false in
  let c := output_for_price rem f i in
  let! _ := ok_or (ucheck 64 c) CalculateOverflow in
  if v <=? c then Ok (target, 0, v)
  else let! next := get_next_sqrt_price_from_output cur l c z in
       Ok (next, 0, if v <=? umax 64 then v else 0).
Proof.
  intros []. unfold compute_swap_price.
  assert ((if i then Ok rem else let! d := uchk 32 (FEE_RATE_DENOMINATOR_VALUE - f) in
            or_overflow (mul_div_ceil_u64 rem FEE_RATE_DENOMINATOR_VALUE d))
          = ok_or (ucheck 64 (output_for_price rem f i)) CalculateOverflow) as ->.
  { unfold output_for_price. destruct i; [by rewrite ucheck_ok|].
    rewrite fee_denominator by done. cbn [obind].
    rewrite mul_div_ceil_u64_spec; [|done|by_compute|unfold FEE_RATE_DENOMINATOR_VALUE in *; range].
    destruct (Z.eqb_spec (FEE_RATE_DENOMINATOR_VALUE - f) 0); [lia|]. done. }
  cbn zeta. set (c := output_for_price _ _ _) in *.
  destruct (ucheck 64 c) as [c'|] eqn:Hc; [|done]. apply ucheck_Some in Hc as [-> Hc].
  cbn [obind ok_or Prelude.ok_or]. rewrite calculate_amount_in_range_spec by done. cbn zeta.
  set (v := amount_out_exact _ _ _ _ _).
  destruct (Z.leb_spec v (umax 64)); cbn [obind default from_option id].
  - rewrite bool_decide_eq_true_2 by eauto. cbn [andb]. by destruct (v <=? c).
  - rewrite bool_decide_eq_false_2 by (by intros [? ?]). cbn [andb].
    destruct (Z.leb_spec v c); [range|done].
Qed.

Lemma compute_swap_amounts_Ok cur target l base (z : bool) next in0 out0 in1 out1 :
  in_u 128 cur -> in_u 128 target -> in_u 128 l -> 0 < cur -> 0 < target ->
  in_u 128 next -> (z = true \/ 0 < next) ->
  compute_swap_amounts cur target l base z next in0 out0 = Ok (in1, out1) ->
  (if z then target <= next else next <= target) /\ 0 < next /\
  (if (target =? next) && base then in1 = in0
   else in1 = amount_in_exact cur next l z true /\ in1 <= umax 64) /\
  (if (target =? next) && negb base then out1 = out0
   else out1 = amount_out_exact cur next l z false /\ out1 <= umax 64).
Proof.
  intros Hc Ht Hl Hc0 Ht0 Hn Hn0 H. unfold compute_swap_amounts, require_gte in H.
  apply obind_Ok in H as (u & Hu & H).
  assert (if z then target <= next else next <= target) as Hdir.
  { destruct z; apply require_Ok in Hu; by apply Z.leb_le in Hu. }
  assert (0 < next) as Hpos by (destruct z, Hn0; lia || done).
  split; [done|]. split; [done|].
  rewrite code_amount_in, code_amount_out in H by done.
  apply obind_Ok in H as (i & Hi & H). apply obind_Ok in H as (o & Ho & H).
  injection H as -> ->.
  destruct (target =? next), base; cbn [andb negb] in *; ok_inv;
    repeat match goal with H : token_amount _ = Ok _ |- _ => apply token_amount_Ok in H as [? ?] end;
    subst; split_and!; done.
Qed.

Lemma compute_swap_price_input cur target l rem f z i next in0 out0 :
  step_args cur target l rem f z ->
  compute_swap_price cur target l rem f true z i = Ok (next, in0, out0) ->
  in_u 128 next /\ 0 < next /\ (if z then next <= cur else cur <= next) /\
  amount_in_exact cur next l z true <= input_for_price rem f i /\
  (next = target -> in0 = amount_in_exact cur target l z true).
Proof.
  intros Ha H. rewrite price_base_input in H by (by eapply step_args_values). cbn zeta in H. destruct Ha.
  pose proof (input_for_price_range rem f i sa_remaining0 sa_rate0) as Hc.
  set (c := input_for_price _ _ _) in *. set (v := amount_in_exact cur target l z true) in *.
  destruct (Z.leb_spec v c).
  - injection H as <- <- <-. split_and!; done.
  - apply obind_Ok in H as (q & Hq & H). injection H as <- <- <-.
    apply next_from_input_sound in Hq as (Hq1 & Hq2 & Hq3); [|done|done|range].
    split_and!; [done|by destruct z; lia|by destruct z; lia|done|].
    intros ->. fold v in Hq3. lia.
Qed.

Lemma compute_swap_price_output cur target l rem f z i next in0 out0 :
  step_args cur target l rem f z ->
  compute_swap_price cur target l rem f false z i = Ok (next, in0, out0) ->
  in_u 128 next /\ (z = true \/ 0 < next) /\ (if z then next <= cur else cur <= next) /\
  (next <> target -> output_for_price rem f i <= amount_out_exact cur next l z false) /\
  0 <= out0 <= umax 64 /\ out0 <= amount_out_exact cur target l z false.
Proof.
  intros Ha H. rewrite price_base_output in H by (by eapply step_args_values). cbn zeta in H. destruct Ha.
  apply obind_Ok in H as (c' & [-> Hc]%ok_or_Ok%ucheck_Some & H).
  pose proof (amount_out_exact_nonneg cur target l z false) as Hv.
  set (c := output_for_price _ _ _) in *. set (v := amount_out_exact cur target l z false) in *.
  specialize (Hv ltac:(lia) ltac:(lia) ltac:(range)).
  destruct (Z.leb_spec v c).
  - injection H as <- <- <-. split_and!; try done; [by right|range].
  - apply obind_Ok in H as (q & Hq & H). injection H as <- <- <-.
    apply next_from_output_sound in Hq as (Hq1 & Hq2 & Hq3 & Hq4); [|done|done|done].
    split_and!; try done; destruct (Z.leb_spec v (umax 64)); unfold umax in *; lia.
Qed.

(** Everything but the fee: the price is between the two ends and the
    amounts are those of the move, rounded in the pool's favour. *)
Lemma compute_swap_curve cur target l rem f base z i next in0 out0 in1 out1 :
  step_args cur target l rem f z ->
  compute_swap_price cur target l rem f base z i = Ok (next, in0, out0) ->
  compute_swap_amounts cur target l base z next in0 out0 = Ok (in1, out1) ->
  (if z then target <= next <= cur else cur <= next <= target) /\
  in1 = amount_in_exact cur next l z true /\ 0 <= in1 <= umax 64 /\
  0 <= out1 <= umax 64 /\ out1 <= amount_out_exact cur next l z false /\
  (base = true -> in1 <= input_for_price rem f i) /\
  (base = false -> next <> target -> output_for_price rem f i <= out1).
Proof.
  intros Ha Hp Hm. destruct base.
  - destruct (compute_swap_price_input _ _ _ _ _ _ _ _ _ _ Ha Hp) as (Hn & Hn0 & Hd & Hin & Heq).
    pose proof Ha as [].
    apply compute_swap_amounts_Ok in Hm as (Hd' & _ & Hi & Ho); try done; [|by right].
    rewrite andb_true_r in Hi. rewrite andb_false_r in Ho. destruct Ho as [-> Ho].
    pose proof (input_for_price_range rem f i sa_remaining0 sa_rate0).
    pose proof (amount_out_exact_nonneg cur next l z false ltac:(lia) ltac:(lia) ltac:(range)).
    pose proof (amount_in_exact_nonneg cur next l z true ltac:(lia) ltac:(lia) ltac:(range)).
    assert (in1 = amount_in_exact cur next l z true) as ->.
    { destruct (Z.eqb_spec target next) as [->|]; [|by destruct Hi]. rewrite Hi. by apply Heq. }
    split_and!; first [done | lia | range | by destruct z; lia].
  - destruct (compute_swap_price_output _ _ _ _ _ _ _ _ _ _ Ha Hp) as (Hn & Hn0 & Hd & Hout & Ho0 & Ho0').
    pose proof Ha as [].
    apply compute_swap_amounts_Ok in Hm as (Hd' & Hn0' & Hi & Ho); try done.
    rewrite andb_false_r in Hi. rewrite andb_true_r in Ho. destruct Hi as [-> Hi].
    pose proof (amount_out_exact_nonneg cur next l z false ltac:(lia) ltac:(lia) ltac:(range)).
    pose proof (amount_in_exact_nonneg cur next l z true ltac:(lia) ltac:(lia) ltac:(range)).
    split; [by destruct z; lia|]. split; [done|]. split; [done|].
    destruct (Z.eqb_spec target next) as [->|].
    + subst out0. split_and!; done || lia.
    + destruct Ho as [-> Ho]. split_and!; first [done | lia | intros _ _; apply Hout; congruence].
Qed.
End StepLemmas.

Section FeeLemmas.
Context {U : UintLib}.

Local Abbreviation D := FEE_RATE_DENOMINATOR_VALUE.

Lemma fee_on_net v f fee :
  in_u 64 v -> 0 <= f < D ->
  (let! d := uchk 32 (D - f) in or_overflow (mul_div_ceil_u64 v f d)) = Ok fee ->
  fee = zceil (v * f) (D - f) /\ in_u 64 fee.
Proof.
  intros Hv Hf H. rewrite fee_denominator in H by done. cbn [obind] in H.
  unfold FEE_RATE_DENOMINATOR_VALUE in *.
  rewrite or_overflow_Ok, mul_div_ceil_u64_spec in H by (done || range).
  destruct (Z.eqb_spec (1000000 - f) 0); [lia|]. injection H as H. by apply ucheck_Some in H as [-> ?].
Qed.

Lemma fee_on_gross v f fee :
  in_u 64 v -> 0 <= f < D ->
  or_overflow (mul_div_ceil_u64 v f D) = Ok fee ->
  fee = zceil (v * f) D /\ in_u 64 fee.
Proof.
  intros Hv Hf H. unfold FEE_RATE_DENOMINATOR_VALUE in *.
  rewrite or_overflow_Ok, mul_div_ceil_u64_spec in H by (done || range).
  change (1000000 =? 0) with false in H. injection H as H. by apply ucheck_Some in H as [-> ?].
Qed.

(** The result of the fee part in its four modes. *)
Definition fee_result (target rem f : Z) (base i : bool) (in1 out1 : Z)
    (r : SwapComputationResult) : Prop :=
  amount_in r = in1 /\ in_u 64 (fee_amount r) /\
  match base, i with
  | true, true =>
      amount_out r = out1 /\
      (if sqrt_price_next_x64 r =? target then fee_amount r = zceil (in1 * f) (D - f)
       else fee_amount r = rem - in1)
  | true, false => fee_amount r = zceil (out1 * f) D /\ amount_out r = out1 - fee_amount r
  | false, true => fee_amount r = zceil (in1 * f) (D - f) /\ amount_out r = Z.min out1 rem
  | false, false =>
      amount_out r = Z.min (out1 - zceil (out1 * f) D) rem /\ fee_amount r = out1 - amount_out r
  end.

Lemma compute_swap_fee_Ok target rem f base i next in1 out1 r :
  0 <= f < D -> in_u 64 rem -> in_u 64 in1 -> in_u 64 out1 ->
  compute_swap_fee target rem f base i next in1 out1 = Ok r ->
  sqrt_price_next_x64 r = next /\ 0 <= amount_out r /\ fee_result target rem f base i in1 out1 r.
Proof.
  intros Hf Hr Hin Hout H. unfold compute_swap_fee in H. unfold fee_result.
  destruct base, i.
  - apply obind_Ok in H as (fee & Hfee & H). injection H as <-. cbn.
    destruct (Z.eqb_spec next target); cbn [negb] in Hfee.
    + apply fee_on_net in Hfee as [-> ?]; [|done..]. repeat split; range.
    + apply ok_or_Ok, ucheck_Some in Hfee as [-> ?]. repeat split; range.
  - apply obind_Ok in H as (fee & Hfee & H). apply fee_on_gross in Hfee as [-> ?]; [|done..].
    apply obind_Ok in H as (net & Hnet & H). injection H as <-. cbn.
    apply ok_or_Ok, ucheck_Some in Hnet as [-> ?]. repeat split; range.
  - rewrite <- obind_assoc in H. apply obind_Ok in H as (fee & Hfee & H).
    apply fee_on_net in Hfee as [-> ?]; [|done..]. injection H as <-. cbn. repeat split; range.
  - apply obind_Ok in H as (fee & Hfee & H). apply fee_on_gross in Hfee as [-> ?]; [|done..].
    apply obind_Ok in H as (net & Hnet & H). apply ok_or_Ok, ucheck_Some in Hnet as [-> ?].
    destruct (Z.ltb_spec rem (out1 - zceil (out1 * f) D)).
    + apply obind_Ok in H as (fee & Hfee & H). injection H as <-. cbn.
      apply ok_or_Ok, ucheck_Some in Hfee as [-> ?].
      rewrite Z.min_r by lia. repeat split; range.
    + injection H as <-. cbn. rewrite Z.min_l by lia. repeat split; range.
Qed.

(** Inversion of a whole step. *)
Lemma compute_swap_inv cur target l rem f base z i r :
  step_args cur target l rem f z ->
  compute_swap cur target l rem f base z i = Ok r ->
  exists out1,
    let next := sqrt_price_next_x64 r in
    (if z then target <= next <= cur else cur <= next <= target) /\
    amount_in r = amount_in_exact cur next l z true /\ in_u 64 (amount_in r) /\
    in_u 64 out1 /\ out1 <= amount_out_exact cur next l z false /\ 0 <= amount_out r /\
    (base = true -> amount_in r <= input_for_price rem f i) /\
    (base = false -> next <> target -> output_for_price rem f i <= out1) /\
    fee_result target rem f base i (amount_in r) out1 r.
Proof.
  intros Ha H. unfold compute_swap in H.
  apply obind_Ok in H as ([[next in0] out0] & Hp & H).
  apply obind_Ok in H as ([in1 out1] & Hm & H).
  destruct (compute_swap_curve _ _ _ _ _ _ _ _ _ _ _ _ _ Ha Hp Hm)
    as (Hdir & Hin & Hin1 & Hout & Hout1 & Hbi & Hbo).
  destruct Ha.
  apply compute_swap_fee_Ok in H as (Hn & Ho & Hf); [|done|done|range|range].
  pose proof Hf as (Hi & _). exists out1. rewrite Hn, Hi.
  split_and!; first [done|range].
Qed.

(** A step that succeeds, whatever the direction of its target: it reaches the
    target, or it stops between the current price and a target that lies in
    the direction of the trade. *)
Lemma compute_swap_range cur target l rem f base z i r :
  step_values cur target l rem f ->
  compute_swap cur target l rem f base z i = Ok r ->
  let next := sqrt_price_next_x64 r in
  (next = target \/ if z then target <= next <= cur else cur <= next <= target) /\
  in_u 64 (amount_in r) /\ in_u 64 (amount_out r) /\ in_u 64 (fee_amount r).
Proof.
  intros Ha H. pose proof Ha as []. unfold compute_swap in H.
  apply obind_Ok in H as ([[next in0] out0] & Hp & H). apply obind_Ok in H as ([in1 out1] & Hm & H).
  assert (in_u 128 next /\ (z = true \/ 0 < next) /\
    (next = target \/ if z then next <= cur else cur <= next) /\ in_u 64 in0 /\ in_u 64 out0)
    as (Hn & Hn0 & Hd & Hi0 & Ho0).
  { assert (forall w, 0 <= w -> in_u 64 (if w <=? umax 64 then w else 0)) as Hw.
    { intros w Hw. unfold umax. destruct (Z.leb_spec w (2 ^ 64 - 1)); range. }
    destruct base.
    - pose proof (amount_in_exact_nonneg cur target l z true ltac:(lia) ltac:(lia) ltac:(range)) as Hv.
      pose proof (input_for_price_range rem f i ltac:(done) ltac:(done)) as Hc.
      rewrite price_base_input in Hp by done. cbn zeta in Hp. destruct (Z.leb_spec (amount_in_exact cur target l z true) (input_for_price rem f i)).
      + injection Hp as <- <- <-. split_and!; try range; by (left || right).
      + apply obind_Ok in Hp as (q & Hq & [= <- <- <-]).
        apply next_from_input_sound in Hq as (Hq1 & Hq2 & _); [|done|done|range].
        split_and!; [done|by destruct z; [left|right; lia]|right; by destruct z; lia|by apply Hw|by_compute].
    - pose proof (amount_out_exact_nonneg cur target l z false ltac:(lia) ltac:(lia) ltac:(range)) as Hv.
      rewrite price_base_output in Hp by done. cbn zeta in Hp.
      apply obind_Ok in Hp as (c' & [-> Hc]%ok_or_Ok%ucheck_Some & Hp).
      destruct (Z.leb_spec (amount_out_exact cur target l z false) (output_for_price rem f i)).
      + injection Hp as <- <- <-. split_and!; try range; by (left || right).
      + apply obind_Ok in Hp as (q & Hq & [= <- <- <-]).
        apply next_from_output_sound in Hq as (Hq1 & Hq2 & Hq3 & _); [|done|done|done].
        split_and!; [done|done|by right|by_compute|by apply Hw]. }
  apply compute_swap_amounts_Ok in Hm as (Hd' & Hpos & Hi & Ho); try done.
  pose proof (amount_in_exact_nonneg cur next l z true ltac:(lia) ltac:(lia) ltac:(range)).
  pose proof (amount_out_exact_nonneg cur next l z false ltac:(lia) ltac:(lia) ltac:(range)).
  assert (in_u 64 in1) by (unfold umax in *; destruct (_ && base); [by subst|range]).
  assert (in_u 64 out1) by (unfold umax in *; destruct (_ && negb base); [by subst|range]).
  apply compute_swap_fee_Ok in H as (Hnx & Hao & Hr & Hfee & Hf); [|done..]. cbn zeta. rewrite Hnx, Hr.
  split. { destruct Hd as [->|Hd]; [by left|]. right. destruct z; lia. }
  split; [done|]. split; [|done]. destruct base, i; destruct Hf as [Hf1 Hf2]; range.
Qed.

(** The fee never exceeds what the remaining input leaves. *)
Lemma fee_fits rem f v :
  0 <= f < D -> v <= rem * (D - f) / D -> zceil (v * f) (D - f) <= rem - v /\ v * f <= (rem - v) * (D - f).
Proof.
  intros Hf Hv. pose proof (zfloor_bounds (rem * (D - f)) D eq_refl) as [Hb _].
  assert (v * f <= (rem - v) * (D - f)) by (unfold FEE_RATE_DENOMINATOR_VALUE in *; nia).
  split; [|done]. apply zceil_le; lia.
Qed.

(** The gross output that covers a net output does so. *)
Lemma net_of_gross rem f v :
  0 <= f < D -> 0 <= rem -> zceil (rem * D) (D - f) <= v -> rem <= v - zceil (v * f) D.
Proof.
  intros Hf Hr Hv. pose proof (zceil_bounds (rem * D) (D - f) ltac:(lia)) as [_ Hb].
  enough (zceil (v * f) D <= v - rem) by lia.
  apply zceil_le; [done|]. unfold FEE_RATE_DENOMINATOR_VALUE in *. nia.
Qed.
End FeeLemmas.

Section NoPanic.
Context {U : UintLib}.

Lemma no_panic_token_amount x : token_amount x <> Panic.
Proof. unfold token_amount. by destruct (_ <=? _). Qed.

Lemma no_panic_fee_on_net v f :
  in_u 64 v -> 0 <= f < FEE_RATE_DENOMINATOR_VALUE ->
  (let! d := uchk 32 (FEE_RATE_DENOMINATOR_VALUE - f) in
   or_overflow (mul_div_ceil_u64 v f d)) <> Panic.
Proof.
  intros. rewrite fee_denominator by done. cbn [obind]. unfold FEE_RATE_DENOMINATOR_VALUE in *.
  rewrite mul_div_ceil_u64_spec by (done || range). apply no_panic_ok_or.
Qed.

Lemma no_panic_fee_on_gross v f :
  in_u 64 v -> 0 <= f < FEE_RATE_DENOMINATOR_VALUE ->
  or_overflow (mul_div_ceil_u64 v f FEE_RATE_DENOMINATOR_VALUE) <> Panic.
Proof.
  intros. unfold FEE_RATE_DENOMINATOR_VALUE in *.
  rewrite mul_div_ceil_u64_spec by (done || range). apply no_panic_ok_or.
Qed.

Lemma no_panic_next_from_input p l x z :
  in_u 128 p -> in_u 128 l -> in_u 64 x -> get_next_sqrt_price_from_input p l x z <> Panic.
Proof.
  intros. unfold get_next_sqrt_price_from_input.
  apply no_panic_bind; [apply no_panic_require|]. intros _ Hp%require_Ok%Z.ltb_lt.
  apply no_panic_bind; [apply no_panic_require|]. intros _ Hl%require_Ok%Z.ltb_lt.
  destruct z.
  - by rewrite next_price_amount_0_add.
  - rewrite next_price_amount_1_add by done. apply no_panic_ok_or.
Qed.

(** The price for an output smaller than what the target yields does not
    overshoot the target, so it fits. *)
Lemma no_panic_next_from_output p t l x (z : bool) :
  in_u 128 p -> in_u 128 t -> in_u 128 l -> in_u 64 x -> 0 < p -> 0 < t ->
  (if z then t <= p else p <= t) -> x < amount_out_exact p t l z false ->
  get_next_sqrt_price_from_output p l x z <> Panic.
Proof.
  intros Hp Ht Hl Hx Hp0 Ht0 Hd Hv. unfold get_next_sqrt_price_from_output.
  apply no_panic_bind; [apply no_panic_require|]. intros _ _.
  apply no_panic_bind; [apply no_panic_require|]. intros _ Hl0%require_Ok%Z.ltb_lt.
  destruct z.
  - rewrite next_price_amount_1_sub by done. apply no_panic_ok_or.
  - rewrite next_price_amount_0_sub by done. destruct (x =? 0); [done|].
    unfold amount_out_exact in Hv. rewrite Z.min_l, Z.max_r in Hv by lia.
    assert (x <= delta_0 p t l false) as Hv' by lia. apply delta_0_down_ge in Hv'; [|lia].
    set (n := l * 2 ^ 64) in *. destruct (Z.leb_spec n (x * p)); [done|]. cbn zeta.
    assert (zceil (n * p) (n - x * p) <= t) by (apply zceil_le; nia).
    pose proof (zceil_nonneg (n * p) (n - x * p) ltac:(lia) ltac:(unfold in_u in *; nia)).
    rewrite (proj2 (uok_spec 128 _)) by range. done.
Qed.

Lemma no_panic_compute_swap_price cur target l rem f base z i :
  step_args cur target l rem f z -> compute_swap_price cur target l rem f base z i <> Panic.
Proof.
  intros Ha. pose proof Ha as []. destruct base.
  - rewrite price_base_input by (by eapply step_args_values). cbn zeta. apply no_panic_if; intros _; [done|].
    apply no_panic_bind; [|done]. apply no_panic_next_from_input; [done..|].
    pose proof (input_for_price_range rem f i sa_remaining0 sa_rate0). range.
  - rewrite price_base_output by (by eapply step_args_values). cbn zeta.
    apply no_panic_bind; [apply no_panic_ok_or|]. intros c' [-> Hc]%ok_or_Ok%ucheck_Some.
    apply no_panic_if; [done|]. intros Hv%Z.leb_gt.
    apply no_panic_bind; [|done]. by apply (no_panic_next_from_output cur target).
Qed.

Lemma no_panic_compute_swap_amounts cur target l base (z : bool) next in0 out0 :
  in_u 128 cur -> in_u 128 target -> in_u 128 l -> 0 < cur -> 0 < target ->
  in_u 128 next -> (z = true \/ 0 < next) ->
  compute_swap_amounts cur target l base z next in0 out0 <> Panic.
Proof.
  intros Hc Ht Hl Hc0 Ht0 Hn Hn0. unfold compute_swap_amounts, require_gte.
  apply no_panic_bind; [destruct z; apply no_panic_require|]. intros u Hd.
  assert (0 < next).
  { destruct Hn0 as [->|]; [|done]. apply require_Ok, Z.leb_le in Hd. lia. }
  rewrite code_amount_in, code_amount_out by done.
  apply no_panic_bind; [apply no_panic_if; [intros; apply no_panic_token_amount|done]|]. intros ? _.
  apply no_panic_bind; [apply no_panic_if; [intros; apply no_panic_token_amount|done]|]. done.
Qed.

Lemma no_panic_compute_swap_fee target rem f base i next in1 out1 :
  0 <= f < FEE_RATE_DENOMINATOR_VALUE -> in_u 64 in1 -> in_u 64 out1 ->
  compute_swap_fee target rem f base i next in1 out1 <> Panic.
Proof.
  intros Hf Hin Hout. unfold compute_swap_fee. destruct base, i.
  - apply no_panic_bind; [|done]. apply no_panic_if; intros _; [apply no_panic_ok_or|].
    by apply no_panic_fee_on_net.
  - apply no_panic_bind; [by apply no_panic_fee_on_gross|]. intros ? _.
    apply no_panic_bind; [apply no_panic_ok_or|done].
  - rewrite <- obind_assoc. apply no_panic_bind; [by apply no_panic_fee_on_net|done].
  - apply no_panic_bind; [by apply no_panic_fee_on_gross|]. intros ? _.
    apply no_panic_bind; [apply no_panic_ok_or|]. intros ? _.
    apply no_panic_if; [|done]. intros _. apply no_panic_bind; [apply no_panic_ok_or|done].
Qed.
End NoPanic.

Section Properties.
Context {U : UintLib}.

(** C8: A swap step stays on the curve, in the pool's favour: its end price
    lies between the current and the target price, the input it charges is
    the exact amount of that price move rounded up, and the output it pays
    (with the fee, when the fee comes out of it) is at most the exact amount
    rounded down. *)
Theorem compute_swap_on_curve cur target l rem f base z i r :
  step_args cur target l rem f z ->
  compute_swap cur target l rem f base z i = Ok r ->
  let next := sqrt_price_next_x64 r in
  (if z then target <= next <= cur else cur <= next <= target) /\
  amount_in r = amount_in_exact cur next l z true /\
  0 <= amount_out r /\
  amount_out r + (if i then 0 else fee_amount r) <= amount_out_exact cur next l z false.
Proof.
  intros Ha H. destruct (compute_swap_inv _ _ _ _ _ _ _ _ _ Ha H)
    as (out1 & Hd & Hin & _ & _ & Hout & Ho & _ & _ & _ & _ & Hf).
  destruct Ha. split_and!; [done|done|done|]. destruct base, i; lia.
Qed.

(** An exact-input step never takes more than the input that remains,
    fee included, and takes all of it when the fee is charged on the input
    and the target price is not reached. *)
Theorem compute_swap_exact_input cur target l rem f z i r :
  step_args cur target l rem f z ->
  compute_swap cur target l rem f true z i = Ok r ->
  amount_in r + (if i then fee_amount r else 0) <= rem /\
  (i = true -> sqrt_price_next_x64 r <> target -> amount_in r + fee_amount r = rem).
Proof.
  intros Ha H. destruct (compute_swap_inv _ _ _ _ _ _ _ _ _ Ha H)
    as (out1 & _ & _ & _ & _ & _ & _ & Hb & _ & _ & _ & Hf).
  destruct Ha. specialize (Hb eq_refl). unfold input_for_price in Hb. destruct i.
  - destruct (fee_fits rem f (amount_in r) sa_rate0 Hb) as [Hc _].
    destruct Hf as [_ Hf]. destruct (Z.eqb_spec (sqrt_price_next_x64 r) target); split; lia || done.
  - split; [lia|done].
Qed.

(** An exact-output step never pays more than the output asked for, and
    pays exactly that when the target price is not reached, whichever side
    the fee is charged on. *)
Theorem compute_swap_exact_output cur target l rem f z i r :
  step_args cur target l rem f z ->
  compute_swap cur target l rem f false z i = Ok r ->
  amount_out r <= rem /\
  (sqrt_price_next_x64 r <> target -> amount_out r = rem).
Proof.
  intros Ha H. destruct (compute_swap_inv _ _ _ _ _ _ _ _ _ Ha H)
    as (out1 & _ & _ & _ & _ & _ & _ & _ & Hb & _ & _ & Hf).
  destruct Ha. specialize (Hb eq_refl). unfold output_for_price in Hb.
  destruct i; destruct Hf as [Hf1 Hf2]; (split; [lia|]); intros Hn; specialize (Hb Hn).
  - lia.
  - pose proof (net_of_gross rem f out1 sa_rate0 ltac:(range) Hb). lia.
Qed.

(** The fee of a step is never below the configured rate: on the input,
    [fee / (in + fee)], and on the output, [fee / (out + fee)], is at least
    [fee_rate / 10^6], in every mode and on every branch. *)
Theorem compute_swap_fee_at_least_rate cur target l rem f base z i r :
  step_args cur target l rem f z ->
  compute_swap cur target l rem f base z i = Ok r ->
  if i then (amount_in r + fee_amount r) * f <= fee_amount r * FEE_RATE_DENOMINATOR_VALUE
  else (amount_out r + fee_amount r) * f <= fee_amount r * FEE_RATE_DENOMINATOR_VALUE.
Proof.
  intros Ha H. destruct (compute_swap_inv _ _ _ _ _ _ _ _ _ Ha H)
    as (out1 & _ & _ & Hin & Hout1 & _ & _ & Hb & _ & _ & _ & Hf).
  destruct Ha. set (D := FEE_RATE_DENOMINATOR_VALUE) in *.
  assert (0 < D) by done. destruct base, i.
  - specialize (Hb eq_refl). unfold input_for_price in Hb.
    destruct (fee_fits rem f (amount_in r) sa_rate0 Hb) as [_ Hc].
    destruct Hf as [_ Hf]. destruct (sqrt_price_next_x64 r =? target); [|rewrite Hf; lia].
    pose proof (zceil_bounds (amount_in r * f) (D - f) ltac:(lia)). lia.
  - destruct Hf as [Hf ->]. pose proof (zceil_bounds (out1 * f) D ltac:(lia)). nia.
  - destruct Hf as [Hf _]. pose proof (zceil_bounds (amount_in r * f) (D - f) ltac:(lia)). lia.
  - destruct Hf as [Hf ->]. pose proof (zceil_bounds (out1 * f) D ltac:(lia)). nia.
Qed.

(** A swap step in a consistent pool never panics: every intermediate
    product, quotient and narrowing fits its machine type, and what cannot
    be computed is reported as an error. *)
Theorem compute_swap_never_panics cur target l rem f base z i :
  step_args cur target l rem f z -> compute_swap cur target l rem f base z i <> Panic.
Proof.
  intros Ha. pose proof Ha as []. unfold compute_swap.
  apply no_panic_bind; [by apply no_panic_compute_swap_price|]. intros [[next in0] out0] Hp.
  apply no_panic_bind.
  - destruct base.
    + destruct (compute_swap_price_input _ _ _ _ _ _ _ _ _ _ Ha Hp) as (? & ? & _).
      apply no_panic_compute_swap_amounts; try done. by right.
    + destruct (compute_swap_price_output _ _ _ _ _ _ _ _ _ _ Ha Hp) as (? & ? & _).
      by apply no_panic_compute_swap_amounts.
  - intros [in1 out1] Hm.
    destruct (compute_swap_curve _ _ _ _ _ _ _ _ _ _ _ _ _ Ha Hp Hm) as (_ & _ & ? & ? & _).
    apply no_panic_compute_swap_fee; [done|range|range].
Qed.
End Properties.

Section Witnesses.
#[local] Existing Instance uint_std.

(** A step that does not reach its target, and one that does. *)
Lemma step_args_example (z : bool) :
  step_args (2 ^ 64) (if z then 2 ^ 63 else 2 ^ 65) (2 ^ 40) 1000000 2500 z.
Proof. destruct z; split; by_compute. Qed.

Lemma compute_swap_on_curve_witness :
  let next := 18446727338451774193 in
  2 ^ 63 <= next <= 2 ^ 64 /\
  997500 = amount_in_exact (2 ^ 64) next (2 ^ 40) true true /\
  0 <= 997499 /\ 997499 + 0 <= amount_out_exact (2 ^ 64) next (2 ^ 40) true false.
Proof.
  apply (compute_swap_on_curve (2 ^ 64) (2 ^ 63) (2 ^ 40) 1000000 2500 true true true
           (mkSwapResult 18446727338451774193 997500 997499 2500) (step_args_example true)).
  by_compute.
Defined.

Lemma compute_swap_exact_input_witness :
  997500 + 2500 <= 1000000 /\
  (true = true -> 18446727338451774193 <> 2 ^ 63 -> 997500 + 2500 = 1000000).
Proof.
  apply (compute_swap_exact_input (2 ^ 64) (2 ^ 63) (2 ^ 40) 1000000 2500 true true
           (mkSwapResult 18446727338451774193 997500 997499 2500) (step_args_example true)).
  by_compute.
Defined.

Lemma compute_swap_exact_output_witness :
  1000000 <= 1000000 /\ (18446727296493551616 <> 2 ^ 63 -> 1000000 = 1000000).
Proof.
  apply (compute_swap_exact_output (2 ^ 64) (2 ^ 63) (2 ^ 40) 1000000 2500 true true
           (mkSwapResult 18446727296493551616 1000001 1000000 2507) (step_args_example true)).
  by_compute.
Defined.

Lemma compute_swap_fee_at_least_rate_witness :
  (997499 + 2500) * 2500 <= 2500 * FEE_RATE_DENOMINATOR_VALUE.
Proof.
  apply (compute_swap_fee_at_least_rate (2 ^ 64) (2 ^ 63) (2 ^ 40) 1000000 2500 true true false
           (mkSwapResult 18446727296508810392 1000000 997499 2500) (step_args_example true)).
  by_compute.
Defined.

Lemma compute_swap_never_panics_witness :
  compute_swap (2 ^ 64) (2 ^ 65) (2 ^ 40) 1000000 2500 false false false <> Panic.
Proof.
  apply (compute_swap_never_panics (2 ^ 64) (2 ^ 65) (2 ^ 40) 1000000 2500 false false false).
  apply (step_args_example false).
Defined.
End Witnesses.
