(* ===== verification/TickIndex.v ===== *)
(** Tick and tick-array index arithmetic of [states/tick_array.rs]: which
    array a tick belongs to, which start indices are valid, and the checks on
    the ticks a caller passes in.  All the arithmetic is [i32], with its
    truncating division and its overflow checks. *)
From S2P Require Import Prelude.
From S2P Require Import AmmError.
From S2P Require Import Config.
From S2P Require Import TickMath.

Definition TICK_ARRAY_SIZE : Z := 60.
Definition TICK_ARRAY_SIZE_USIZE : nat := 60.

(** [TickState::check_is_out_of_boundary] *)
Definition check_is_out_of_boundary (tick : Z) : bool := (tick <? MIN_TICK) || (MAX_TICK <? tick).

(** [TickArrayState::tick_count] *)
Definition tick_count (tick_spacing : Z) : Result Z := ichk 32 (TICK_ARRAY_SIZE * tick_spacing).

(** The quotient the code rounds towards negative infinity: [q / n], less one
    when [q] is negative and [n] does not divide it. *)
Definition div_towards_neg (q n : Z) (offset : Z) : Result Z :=
  let! d := idiv 32 q n in
  let! d := ichk 32 (d + offset) in
  if q <? 0 then
    let! r := irem 32 q n in
    if negb (r =? 0) then ichk 32 (d - 1) else Ok d
  else Ok d.

(** [TickArrayState::get_array_start_index] *)
Definition get_array_start_index (tick_index tick_spacing : Z) : Result Z :=
  let! ticks_in_array := tick_count tick_spacing in
  let! start := div_towards_neg tick_index ticks_in_array 0 in
  ichk 32 (start * ticks_in_array).

(** [TickArrayState::check_is_valid_start_index] *)
Definition check_is_valid_start_index (tick_index tick_spacing : Z) : Result bool :=
  if check_is_out_of_boundary tick_index then
    if MAX_TICK <? tick_index then Ok false
    else
      let! min_start_index := get_array_start_index MIN_TICK tick_spacing in
      Ok (tick_index =? min_start_index)
  else
    let! n := tick_count tick_spacing in
    let! r := irem 32 tick_index n in
    Ok (r =? 0).

(** [check_tick_array_start_index] *)
Definition check_tick_array_start_index
    (tick_array_start_index tick_index tick_spacing : Z) : Result unit :=
  do! require (MIN_TICK <=? tick_index) TickLowerOverflow in
  do! require (tick_index <=? MAX_TICK) TickUpperOverflow in
  let! r := irem 32 tick_index tick_spacing in
  do! require_eq 0 r in
  let! expect_start_index := get_array_start_index tick_index tick_spacing in
  require_eq tick_array_start_index expect_start_index.

(** [check_ticks_order] *)
Definition check_ticks_order (tick_lower_index tick_upper_index : Z) : Result unit :=
  require (tick_lower_index <? tick_upper_index) TickInvalidOrder.

(** * Closed forms *)

(** A usable tick spacing: a non-zero [u16]. *)
Definition spacing_ok (s : Z) : Prop := 0 < s < 2 ^ 16.

(** Ticks per array. *)
Definition tpa (s : Z) : Z := 60 * s.

Lemma tpa_range s : spacing_ok s -> 60 <= tpa s <= 3932100.
Proof. unfold spacing_ok, tpa. lia. Qed.

Lemma tick_count_ok s : spacing_ok s -> tick_count s = Ok (tpa s).
Proof. intros Hs. pose proof (tpa_range s Hs). apply ichk_ok. unfold tpa, TICK_ARRAY_SIZE in *. range. Qed.

Lemma quot_floor q n :
  0 < n -> q / n = Z.quot q n - (if (q <? 0) && negb (Z.rem q n =? 0) then 1 else 0).
Proof.
  intros Hn. pose proof (Z.quot_rem' q n). symmetry.
  destruct (Z.ltb_spec q 0); simpl.
  - pose proof (Z.rem_bound_pos_neg q n ltac:(lia) ltac:(lia)).
    destruct (Z.eqb_spec (Z.rem q n) 0); simpl.
    + apply Z.div_unique with 0; lia.
    + apply Z.div_unique with (Z.rem q n + n); lia.
  - pose proof (Z.rem_bound_pos q n ltac:(lia) ltac:(lia)). apply Z.div_unique with (Z.rem q n); lia.
Qed.

Lemma quot_abs_le q n : 0 < n -> Z.abs (Z.quot q n) <= Z.abs q.
Proof.
  intros Hn. rewrite <- Z.quot_abs, (Z.abs_eq n) by lia.
  rewrite Z.quot_div_nonneg by lia. apply Z.div_le_upper_bound; nia.
Qed.

(** Magnitudes that keep every intermediate [i32] value in range. *)
Definition small (x : Z) : Prop := Z.abs x <= 2 ^ 30.

Lemma small_tick t : MIN_TICK <= t <= MAX_TICK -> small t.
Proof. unfold small, MIN_TICK, MAX_TICK. lia. Qed.

Lemma div_towards_neg_ok q n off :
  small q -> 0 < n -> 0 <= off <= 2 ^ 20 -> div_towards_neg q n off = Ok (q / n + off).
Proof.
  unfold small. intros Hq Hn Ho. unfold div_towards_neg.
  pose proof (quot_abs_le q n Hn). rewrite (quot_floor q n Hn).
  rewrite (proj2 (idiv_Ok 32 q n (Z.quot q n))) by (split; [lia|]; split; [done|range]).
  cbn [obind]. rewrite ichk_ok by range. cbn [obind].
  destruct (Z.ltb_spec q 0); simpl; [|f_equal; lia].
  rewrite (proj2 (irem_Ok 32 q n (Z.rem q n))) by (split; [lia|]; split; [done|range]).
  cbn [obind]. destruct (Z.eqb_spec (Z.rem q n) 0); simpl; [f_equal; lia|].
  rewrite ichk_ok by range. f_equal. lia.
Qed.

(** The start of the array a tick belongs to: the multiple of [tpa s] below. *)
Definition array_start (t s : Z) : Z := t / tpa s * tpa s.

Lemma array_start_bounds t s : spacing_ok s -> array_start t s <= t < array_start t s + tpa s.
Proof.
  intros Hs. pose proof (tpa_range s Hs). unfold array_start.
  pose proof (zfloor_bounds t (tpa s) ltac:(lia)). lia.
Qed.

Lemma get_array_start_index_ok t s :
  spacing_ok s -> small t -> get_array_start_index t s = Ok (array_start t s).
Proof.
  intros Hs Ht. unfold get_array_start_index. pose proof (tpa_range s Hs).
  rewrite tick_count_ok by done. cbn [obind].
  rewrite div_towards_neg_ok by (done || lia). cbn [obind].
  rewrite Z.add_0_r. fold (array_start t s). apply ichk_ok.
  pose proof (array_start_bounds t s Hs). unfold small in Ht. range.
Qed.

Lemma irem_ok q n : small q -> 0 < n -> irem 32 q n = @Ok error _ (Z.rem q n).
Proof.
  intros Hq Hn. pose proof (quot_abs_le q n Hn). unfold small in *.
  apply irem_Ok. split; [lia|]. split; [done|range].
Qed.

(** Start indices are the multiples of [tpa s] from the array of [MIN_TICK] to
    that of [MAX_TICK]. *)
Definition valid_start (t s : Z) : Prop :=
  exists k, t = k * tpa s /\ array_start MIN_TICK s <= t <= MAX_TICK.

Lemma valid_start_small t s : spacing_ok s -> valid_start t s -> small t /\ small (t - tpa s) /\ small (t + tpa s).
Proof.
  intros Hs (k & -> & Hk). pose proof (tpa_range s Hs). pose proof (array_start_bounds MIN_TICK s Hs).
  unfold small, MIN_TICK, MAX_TICK in *. lia.
Qed.

Lemma check_is_valid_start_index_ok t s :
  spacing_ok s -> small t ->
  exists b, check_is_valid_start_index t s = Ok b /\ (b = true <-> valid_start t s).
Proof.
  intros Hs Ht. unfold check_is_valid_start_index, check_is_out_of_boundary, valid_start.
  pose proof (tpa_range s Hs). pose proof (array_start_bounds MIN_TICK s Hs) as Hmin.
  destruct (Z.ltb_spec t MIN_TICK), (Z.ltb_spec MAX_TICK t); simpl.
  - unfold MIN_TICK, MAX_TICK in *. lia.
  - rewrite get_array_start_index_ok by (done || apply small_tick; unfold MIN_TICK, MAX_TICK; lia).
    cbn [obind]. eexists. split; [done|]. rewrite Z.eqb_eq. unfold array_start in *. split.
    + intros ->. eexists. split; [done|]. unfold MIN_TICK, MAX_TICK in *. lia.
    + intros (k & -> & Hk). f_equal. assert (k * tpa s < (MIN_TICK / tpa s + 1) * tpa s) by lia. nia.
  - eexists. split; [done|]. split; [done|]. intros (k & -> & Hk). lia.
  - rewrite tick_count_ok by done. cbn [obind]. rewrite irem_ok by (done || lia). cbn [obind].
    eexists. split; [done|]. rewrite Z.eqb_eq. split.
    + intros Hr. exists (Z.quot t (tpa s)). pose proof (Z.quot_rem' t (tpa s)).
      split; [lia|]. lia.
    + intros (k & -> & _). apply Z.rem_mul. lia.
Qed.

Section Properties.
(** The array start index is the floor: for every valid tick and every
    spacing, [get_array_start_index] returns, without overflow, the greatest
    multiple of the array length not above the tick (negative ticks
    included), and that start index passes [check_is_valid_start_index]. *)
Theorem get_array_start_index_floor t s :
  MIN_TICK <= t <= MAX_TICK -> spacing_ok s ->
  exists start, get_array_start_index t s = Ok start /\
    start <= t < start + tpa s /\ start mod tpa s = 0 /\
    check_is_valid_start_index start s = Ok true.
Proof.
  intros Ht Hs. exists (array_start t s). pose proof (tpa_range s Hs).
  pose proof (array_start_bounds t s Hs) as Hb.
  split; [by apply get_array_start_index_ok, small_tick|]. split; [done|].
  split; [unfold array_start; by rewrite Z.mod_mul by lia|].
  destruct (check_is_valid_start_index_ok (array_start t s) s Hs) as (b & -> & Hv).
  { unfold small, MIN_TICK, MAX_TICK in *. lia. }
  f_equal. apply Hv. exists (t / tpa s). split; [done|]. split; [|lia].
  unfold array_start. apply Z.mul_le_mono_nonneg_r; [lia|]. apply Z.div_le_mono; lia.
Qed.
End Properties.

Lemma get_array_start_index_floor_witness :
  exists start, get_array_start_index (-20) 10 = Ok start /\
    start <= -20 < start + tpa 10 /\ start mod tpa 10 = 0 /\
    check_is_valid_start_index start 10 = Ok true.
Proof. apply get_array_start_index_floor; by_compute. Defined.
