(* ===== verification/TickBitmap.v ===== *)
(** [libraries/tick_array_bit_map.rs]: the pool's bitmap of initialized tick
    arrays, one bit for each of the 1024 arrays around tick zero, and the
    search for the next one.  The bitmap is the word array of [U1024]. *)
From S2P Require Import Prelude.
From S2P Require Import AmmError.
From S2P Require Import BigNum.
From S2P Require Import Config.
From S2P Require Import TickMath.
From S2P Require Import TickIndex.

Definition TICK_ARRAY_BITMAP_SIZE : Z := 512.

(** [x.try_into().unwrap()] into an unsigned type. *)
Definition try_into (w x : Z) : Result Z := unwrap (ucheck w x).

Definition max_tick_in_tickarray_bitmap (tick_spacing : Z) : Result Z :=
  let! m := ichk 32 (tick_spacing * TICK_ARRAY_SIZE) in
  ichk 32 (m * TICK_ARRAY_BITMAP_SIZE).

Definition get_bitmap_tick_boundary (tick_array_start_index tick_spacing : Z) : Result (Z * Z) :=
  let! ticks_in_one_bitmap := max_tick_in_tickarray_bitmap tick_spacing in
  let! a := ichk 32 (Z.abs tick_array_start_index) in
  let! m := idiv 32 a ticks_in_one_bitmap in
  let! m :=
    if tick_array_start_index <? 0 then
      let! r := irem 32 a ticks_in_one_bitmap in
      if negb (r =? 0) then ichk 32 (m + 1) else Ok m
    else Ok m in
  let! min_value := ichk 32 (ticks_in_one_bitmap * m) in
  if tick_array_start_index <? 0 then
    let! lo := ichk 32 (- min_value) in
    let! hi := ichk 32 (lo + ticks_in_one_bitmap) in
    Ok (lo, hi)
  else
    let! hi := ichk 32 (min_value + ticks_in_one_bitmap) in
    Ok (min_value, hi).

Definition most_significant_bit (x : U1024.words) : Result (option Z) :=
  if U1024.is_zero x then Ok None
  else let! v := try_into 16 (U1024.leading_zeros x) in Ok (Some v).

Definition least_significant_bit (x : U1024.words) : Result (option Z) :=
  if U1024.is_zero x then Ok None
  else let! v := try_into 16 (U1024.trailing_zeros x) in Ok (Some v).

Definition check_current_tick_array_is_initialized
    (bit_map : U1024.words) (tick_current tick_spacing : Z) : Result (bool * Z) :=
  if check_is_out_of_boundary tick_current then err InvalidTickIndex
  else
    let! multiplier := ichk 32 (tick_spacing * TICK_ARRAY_SIZE) in
    let! compressed := div_towards_neg tick_current multiplier 512 in
    let! bit_pos := ichk 32 (Z.abs compressed) in
    let! shift := try_into 64 bit_pos in
    let! mask := U1024.shl U1024.one shift in
    let masked := U1024.bitand bit_map mask in
    let! c := ichk 32 (compressed - 512) in
    let! start := ichk 32 (c * multiplier) in
    Ok (negb (U1024.is_zero masked), start).

Definition next_initialized_tick_array_start_index
    (bit_map : U1024.words) (last_tick_array_start_index tick_spacing : Z) (zero_for_one : bool) :
    Result (bool * Z) :=
  let! valid := check_is_valid_start_index last_tick_array_start_index tick_spacing in
  do! require valid InvalidTickArrayBoundary in
  let! tick_boundary := max_tick_in_tickarray_bitmap tick_spacing in
  let! n := tick_count tick_spacing in
  let! next_tick_array_start_index :=
    if zero_for_one then ichk 32 (last_tick_array_start_index - n)
    else ichk 32 (last_tick_array_start_index + n) in
  let! neg_boundary := ichk 32 (- tick_boundary) in
  if (next_tick_array_start_index <? neg_boundary) || (tick_boundary <=? next_tick_array_start_index)
  then Ok (false, last_tick_array_start_index)
  else
    let! multiplier := ichk 32 (tick_spacing * TICK_ARRAY_SIZE) in
    let! compressed := div_towards_neg next_tick_array_start_index multiplier 512 in
    let! bit_pos := ichk 32 (Z.abs compressed) in
    if zero_for_one then
      let! d := ichk 32 (1024 - bit_pos) in
      let! d := ichk 32 (d - 1) in
      let! shift := try_into 64 d in
      let! offset_bit_map := U1024.shl bit_map shift in
      let! bit := most_significant_bit offset_bit_map in
      match bit with
      | Some next_bit =>
          let! x := ichk 32 (bit_pos - next_bit) in
          let! y := ichk 32 (x - 512) in
          let! z := ichk 32 (y * multiplier) in
          Ok (true, z)
      | None => Ok (false, neg_boundary)
      end
    else
      let! shift := try_into 64 bit_pos in
      let! offset_bit_map := U1024.shr bit_map shift in
      let! bit := least_significant_bit offset_bit_map in
      match bit with
      | Some next_bit =>
          let! x := ichk 32 (bit_pos + next_bit) in
          let! y := ichk 32 (x - 512) in
          let! z := ichk 32 (y * multiplier) in
          Ok (true, z)
      | None =>
          let! e := ichk 32 (tick_boundary - n) in
          Ok (false, e)
      end.

(** * The reference search *)

(** [nearest P lo hi down o]: [o] is the first index of [lo .. hi - 1] that
    satisfies [P], from the top when [down], else from the bottom. *)
Definition nearest (P : Z -> bool) (lo hi : Z) (down : bool) (o : option Z) : Prop :=
  match o with
  | Some j =>
      lo <= j < hi /\ P j = true /\
      forall i, (if down then j < i < hi else lo <= i < j) -> P i = false
  | None => forall i, lo <= i < hi -> P i = false
  end.

(** Extending the range on the far side. *)
Lemma nearest_join_none P lo mid hi (down : bool) o :
  lo <= mid <= hi ->
  (if down then nearest P mid hi true None /\ nearest P lo mid true o
   else nearest P lo mid false None /\ nearest P mid hi false o) ->
  nearest P lo hi down o.
Proof.
  intros Hm H. unfold nearest in *. destruct down, H as [Hn Ho], o as [j|].
  - destruct Ho as (Hj & HP & Hf). split; [lia|]. split; [done|]. intros i Hi.
    destruct (Z.lt_ge_cases i mid); [apply Hf|apply Hn]; lia.
  - intros i Hi. destruct (Z.lt_ge_cases i mid); [apply Ho|apply Hn]; lia.
  - destruct Ho as (Hj & HP & Hf). split; [lia|]. split; [done|]. intros i Hi.
    destruct (Z.lt_ge_cases i mid); [apply Hn|apply Hf]; lia.
  - intros i Hi. destruct (Z.lt_ge_cases i mid); [apply Hn|apply Ho]; lia.
Qed.

Lemma nearest_join_some P lo mid hi (down : bool) j :
  lo <= mid <= hi ->
  (if down then nearest P mid hi true (Some j) else nearest P lo mid false (Some j)) ->
  nearest P lo hi down (Some j).
Proof.
  intros Hm H. unfold nearest in *. destruct down, H as (Hj & HP & Hf);
    (split; [lia|]); (split; [done|]); intros i Hi; apply Hf; lia.
Qed.

Lemma nearest_ext P Q lo hi down o :
  (forall i, lo <= i < hi -> P i = Q i) -> nearest P lo hi down o -> nearest Q lo hi down o.
Proof.
  intros HE H. unfold nearest in *. destruct o as [j|].
  - destruct H as (Hj & HP & Hf). split; [done|]. split; [by rewrite <- HE|].
    intros i Hi. rewrite <- HE by (destruct down; lia). by apply Hf.
  - intros i Hi. rewrite <- HE by done. by apply H.
Qed.

(** * The pool's bitmap *)

(** Whether tick array [k] (starting at tick [k * tpa s]) is marked. *)
Definition marked (bm : U1024.words) (k : Z) : bool := U1024.ubit bm (k + 512).

Lemma try_into_ok w x : in_u w x -> try_into w x = Ok x.
Proof. intros. unfold try_into. by rewrite ucheck_ok. Qed.

Lemma max_tick_ok s :
  spacing_ok s -> max_tick_in_tickarray_bitmap s = Ok (512 * tpa s).
Proof.
  intros Hs. pose proof (tpa_range s Hs). unfold max_tick_in_tickarray_bitmap, tpa in *.
  rewrite ichk_ok by (unfold TICK_ARRAY_SIZE; range). cbn [obind].
  unfold TICK_ARRAY_SIZE, TICK_ARRAY_BITMAP_SIZE.
  replace (s * 60 * 512) with (512 * (60 * s)) by lia. apply ichk_ok. range.
Qed.

Lemma multiplier_ok s : spacing_ok s -> @ichk error 32 (s * TICK_ARRAY_SIZE) = Ok (tpa s).
Proof.
  intros Hs. pose proof (tpa_range s Hs). unfold TICK_ARRAY_SIZE, tpa in *.
  rewrite Z.mul_comm. apply ichk_ok. range.
Qed.

(** The two one-word searches, on the number as a set of bits. *)
Lemma search_down bm p :
  U1024.wf bm -> 0 <= p < 1024 ->
  exists bs o, U1024.shl bm (1024 - p - 1) = Ok bs /\ most_significant_bit bs = Ok o /\
    match o with
    | Some b => 0 <= b <= p /\ nearest (U1024.ubit bm) 0 (p + 1) true (Some (p - b))
    | None => nearest (U1024.ubit bm) 0 (p + 1) true None
    end.
Proof.
  intros Hwf Hp. destruct (U1024.shl_spec bm (1024 - p - 1) Hwf ltac:(lia)) as (bs & Hbs & Hw & Hb).
  exists bs. unfold most_significant_bit. destruct (U1024.is_zero bs) eqn:Hz.
  - exists None. split; [done|]. split; [done|]. intros i Hi.
    pose proof (proj1 (U1024.is_zero_spec bs Hw) Hz (i + (1024 - p - 1)) ltac:(lia)) as H0.
    rewrite Hb in H0 by lia. destruct (Z.leb_spec (1024 - p - 1) (i + (1024 - p - 1))); [|lia].
    simpl in H0. rewrite <- H0. f_equal. lia.
  - destruct (U1024.leading_zeros_spec bs Hw Hz) as (Hl & H1 & H0).
    set (l := U1024.leading_zeros bs) in *. rewrite try_into_ok by range. cbn [obind].
    exists (Some l). split; [done|]. split; [done|].
    rewrite Hb in H1 by lia. apply andb_true_iff in H1 as [Hle H1]. apply Z.leb_le in Hle.
    split; [lia|]. split; [lia|]. split; [rewrite <- H1; f_equal; lia|].
    intros i Hi. specialize (H0 (i + (1024 - p - 1)) ltac:(lia)).
    rewrite Hb in H0 by lia. destruct (Z.leb_spec (1024 - p - 1) (i + (1024 - p - 1))); [|lia].
    simpl in H0. rewrite <- H0. f_equal. lia.
Qed.

Lemma search_up bm p :
  U1024.wf bm -> 0 <= p < 1024 ->
  exists bs o, U1024.shr bm p = Ok bs /\ least_significant_bit bs = Ok o /\
    match o with
    | Some b => 0 <= b < 1024 - p /\ nearest (U1024.ubit bm) p 1024 false (Some (p + b))
    | None => nearest (U1024.ubit bm) p 1024 false None
    end.
Proof.
  intros Hwf Hp. destruct (U1024.shr_spec bm p Hwf ltac:(lia)) as (bs & Hbs & Hw & Hb).
  exists bs. unfold least_significant_bit. destruct (U1024.is_zero bs) eqn:Hz.
  - exists None. split; [done|]. split; [done|]. intros i Hi.
    pose proof (proj1 (U1024.is_zero_spec bs Hw) Hz (i - p) ltac:(lia)) as H0.
    rewrite Hb in H0 by lia. rewrite <- H0. f_equal. lia.
  - destruct (U1024.trailing_zeros_spec bs Hw Hz) as (Hl & H1 & H0).
    set (l := U1024.trailing_zeros bs) in *. rewrite try_into_ok by range. cbn [obind].
    exists (Some l). split; [done|]. split; [done|].
    rewrite Hb in H1 by lia.
    assert (l < 1024 - p).
    { destruct (Z.lt_ge_cases l (1024 - p)); [done|]. by rewrite U1024.ubit_outside in H1 by (done || lia). }
    split; [lia|]. split; [lia|]. split; [rewrite <- H1; f_equal; lia|].
    intros i Hi. specialize (H0 (i - p) ltac:(lia)). rewrite Hb in H0 by lia.
    rewrite <- H0. f_equal. lia.
Qed.

Lemma nearest_shift P lo hi down o d :
  nearest P (lo + d) (hi + d) down o ->
  nearest (fun k => P (k + d)) lo hi down ((fun x => x - d) <$> o).
Proof.
  unfold nearest. destruct o as [j|]; simpl.
  - intros (Hj & HP & Hf). split; [lia|]. split; [rewrite <- HP; f_equal; lia|].
    intros i Hi. apply Hf. destruct down; lia.
  - intros H i Hi. apply H. lia.
Qed.

Lemma start_in_range j n : -512 <= j < 512 -> 60 <= n <= 3932100 -> in_i 32 (j * n).
Proof. unfold in_i. intros. change (2 ^ (32 - 1)) with 2147483648. nia. Qed.

(** What the search answers: the nearest marked array in the rest of the
    bitmap, or the last start index of the bitmap in that direction. *)
Lemma next_in_pool_bitmap bm k s (zfo : bool) :
  U1024.wf bm -> spacing_ok s -> valid_start (k * tpa s) s ->
  (if zfo then -512 <= k - 1 < 512 else -512 <= k + 1 < 512) ->
  exists o,
    nearest (marked bm) (if zfo then -512 else k + 1) (if zfo then k else 512) zfo o /\
    next_initialized_tick_array_start_index bm (k * tpa s) s zfo =
      Ok (match o with
          | Some j => (true, j * tpa s)
          | None => (false, (if zfo then -512 else 511) * tpa s)
          end).
Proof.
  intros Hwf Hs Hv Hk. unfold next_initialized_tick_array_start_index.
  pose proof (tpa_range s Hs) as Hn.
  destruct (valid_start_small _ _ Hs Hv) as (Hsm & Hsm1 & Hsm2).
  destruct (check_is_valid_start_index_ok _ s Hs Hsm) as (b & -> & Hb).
  rewrite (proj2 Hb Hv). cbn [obind require Prelude.require].
  rewrite max_tick_ok by done. rewrite tick_count_ok by done. clear Hb b.
  rewrite multiplier_ok by done. set (n := tpa s) in *. clearbody n. cbn [obind].
  set (k' := if zfo then k - 1 else k + 1).
  assert (-512 <= k' < 512) as Hk' by (unfold k'; by destruct zfo).
  assert (small (k' * n)) as Hsm'.
  { unfold k'. destruct zfo; [replace ((k - 1) * n) with (k * n - n) by lia; done|].
    by replace ((k + 1) * n) with (k * n + n) by lia. }
  assert ((if zfo then ichk 32 (k * n - n) else ichk 32 (k * n + n)) = @Ok error _ (k' * n)) as ->.
  { unfold k', small in *. destruct zfo; rewrite ichk_ok by range; f_equal; lia. }
  cbn [obind]. rewrite ichk_ok by range. cbn [obind].
  destruct (Z.ltb_spec (k' * n) (- (512 * n))), (Z.leb_spec (512 * n) (k' * n)); simpl; try nia.
  rewrite div_towards_neg_ok by (done || lia). cbn [obind].
  rewrite Z.div_mul by lia. rewrite ichk_ok by range. cbn [obind].
  rewrite Z.abs_eq by lia. destruct zfo.
  - rewrite ichk_ok by range. cbn [obind]. rewrite ichk_ok by range. cbn [obind].
    rewrite try_into_ok by range. cbn [obind].
    destruct (search_down bm (k' + 512) Hwf ltac:(lia)) as (bs & o & -> & Ho & Hnear). cbn [obind].
    rewrite Ho. cbn [obind].
    exists ((fun x => x - 512) <$> ((fun b => k' + 512 - b) <$> o)). split.
    + apply nearest_shift. replace (k + 512) with (k' + 512 + 1) by (unfold k'; lia).
      destruct o; [apply Hnear|done].
    + destruct o as [b|]; simpl; [|f_equal; f_equal; lia]. destruct Hnear as [Hb _].
      do 2 (rewrite ichk_ok by range; cbn [obind]).
      by rewrite ichk_ok by (apply start_in_range; lia).
  - rewrite try_into_ok by range. cbn [obind].
    destruct (search_up bm (k' + 512) Hwf ltac:(lia)) as (bs & o & -> & Ho & Hnear). cbn [obind].
    rewrite Ho. cbn [obind].
    exists ((fun x => x - 512) <$> ((fun b => k' + 512 + b) <$> o)). split.
    + apply nearest_shift. replace (k + 1 + 512) with (k' + 512) by (unfold k'; lia).
      change (512 + 512) with 1024. destruct o; [apply Hnear|done].
    + destruct o as [b|]; simpl.
      * destruct Hnear as [Hb _]. do 2 (rewrite ichk_ok by range; cbn [obind]).
        by rewrite ichk_ok by (apply start_in_range; lia).
      * rewrite ichk_ok by range. cbn [obind]. f_equal. f_equal. lia.
Qed.

(** Outside the bitmap nothing is searched. *)
Lemma next_outside_pool_bitmap bm k s (zfo : bool) :
  spacing_ok s -> valid_start (k * tpa s) s ->
  ~ (if zfo then -512 <= k - 1 < 512 else -512 <= k + 1 < 512) ->
  next_initialized_tick_array_start_index bm (k * tpa s) s zfo = Ok (false, k * tpa s).
Proof.
  intros Hs Hv Hk. unfold next_initialized_tick_array_start_index.
  pose proof (tpa_range s Hs) as Hn.
  destruct (valid_start_small _ _ Hs Hv) as (Hsm & Hsm1 & Hsm2).
  destruct (check_is_valid_start_index_ok _ s Hs Hsm) as (b & -> & Hb).
  rewrite (proj2 Hb Hv). cbn [obind require Prelude.require].
  rewrite max_tick_ok by done. rewrite tick_count_ok by done. clear Hb b.
  set (n := tpa s) in *. clearbody n. cbn [obind]. unfold small in *.
  destruct zfo; rewrite ichk_ok by range; cbn [obind]; rewrite ichk_ok by range; cbn [obind].
  - destruct (Z.ltb_spec (k * n - n) (- (512 * n))), (Z.leb_spec (512 * n) (k * n - n)); simpl; done || nia.
  - destruct (Z.ltb_spec (k * n + n) (- (512 * n))), (Z.leb_spec (512 * n) (k * n + n)); simpl; done || nia.
Qed.

(** Whether the array of a tick is marked. *)
Lemma check_current_spec bm t s :
  U1024.wf bm -> spacing_ok s -> MIN_TICK <= t <= MAX_TICK -> -512 <= t / tpa s < 512 ->
  check_current_tick_array_is_initialized bm t s = Ok (marked bm (t / tpa s), array_start t s).
Proof.
  intros Hwf Hs Ht Hk. unfold check_current_tick_array_is_initialized, check_is_out_of_boundary.
  pose proof (tpa_range s Hs). destruct (Z.ltb_spec t MIN_TICK), (Z.ltb_spec MAX_TICK t); try lia.
  cbn [orb]. rewrite multiplier_ok by done. cbn [obind].
  rewrite div_towards_neg_ok by (lia || by apply small_tick). cbn [obind].
  rewrite Z.abs_eq by lia. rewrite ichk_ok by range. cbn [obind].
  rewrite try_into_ok by range. cbn [obind].
  destruct (U1024.mask_spec (t / tpa s + 512) ltac:(lia)) as (m & -> & Hm & Hb). cbn [obind].
  rewrite ichk_ok by range. cbn [obind].
  replace (t / tpa s + 512 - 512) with (t / tpa s) by lia.
  rewrite ichk_ok by (apply start_in_range; lia). cbn [obind]. unfold array_start. do 2 f_equal.
  unfold marked. set (k := t / tpa s) in *. clearbody k.
  pose proof (U1024.bitand_wf bm m Hwf Hm) as Hw.
  destruct (U1024.is_zero (U1024.bitand bm m)) eqn:Hz; cbn [negb]; symmetry.
  - pose proof (proj1 (U1024.is_zero_spec _ Hw) Hz (k + 512) ltac:(lia)) as Hb0.
    rewrite U1024.ubit_bitand, Hb, Z.eqb_refl, andb_true_r in Hb0 by (done || lia). done.
  - destruct (U1024.ubit bm (k + 512)) eqn:Hbit; [done|]. exfalso.
    enough (U1024.is_zero (U1024.bitand bm m) = true) by congruence.
    apply U1024.is_zero_spec; [done|]. intros i Hi. rewrite U1024.ubit_bitand, Hb by done.
    destruct (Z.eqb_spec i (k + 512)) as [->|]; [by rewrite Hbit|]. apply andb_false_r.
Qed.

Section Properties.
(** Searching the pool's bitmap finds the nearest initialized tick array:
    for a valid start index the search never panics; if the neighbouring
    array in the direction of the trade is covered by the bitmap, it returns
    the nearest marked array in that direction, or the last array of the
    bitmap when there is none, and otherwise it returns the argument. *)
Theorem next_initialized_tick_array_nearest bm k s (zfo : bool) :
  U1024.wf bm -> spacing_ok s -> valid_start (k * tpa s) s ->
  let in_range := if zfo then -512 <= k - 1 < 512 else -512 <= k + 1 < 512 in
  (in_range /\
   exists o, nearest (marked bm) (if zfo then -512 else k + 1) (if zfo then k else 512) zfo o /\
     next_initialized_tick_array_start_index bm (k * tpa s) s zfo =
     Ok (match o with
         | Some j => (true, j * tpa s)
         | None => (false, (if zfo then -512 else 511) * tpa s)
         end)) \/
  (~ in_range /\
   next_initialized_tick_array_start_index bm (k * tpa s) s zfo = Ok (false, k * tpa s)).
Proof.
  intros Hwf Hs Hv in_range. assert (Decision in_range) as [Hr|Hr].
  { unfold in_range. destruct zfo; apply _. }
  - left. split; [done|]. by apply next_in_pool_bitmap.
  - right. split; [done|]. by apply next_outside_pool_bitmap.
Qed.
End Properties.

(** A bitmap with arrays 3 and -5 marked, searched downwards from array 1. *)
Lemma next_initialized_tick_array_nearest_witness :
  let bm := <[7%nat := 2 ^ 59]> (<[8%nat := 2 ^ 3]> U1024.zero) in
  (-512 <= 1 - 1 < 512 /\
   exists o, nearest (marked bm) (-512) 1 true o /\
     next_initialized_tick_array_start_index bm (1 * tpa 10) 10 true =
     Ok (match o with
         | Some j => (true, j * tpa 10)
         | None => (false, -512 * tpa 10)
         end)) \/
  (~ -512 <= 1 - 1 < 512 /\
   next_initialized_tick_array_start_index bm (1 * tpa 10) 10 true = Ok (false, 1 * tpa 10)).
Proof.
  apply (next_initialized_tick_array_nearest _ 1 10 true).
  - split; [reflexivity|]. repeat constructor; by_compute.
  - by_compute.
  - exists 1. by_compute.
Defined.
