(* ===== verification/BitmapExtension.v ===== *)
(** [states/tickarray_bitmap_extension.rs]: the bitmaps of the tick arrays
    outside the pool's own bitmap, fourteen rows of 512 bits on each side.  A
    row ([U512] of the [uint] crate) is the number it stands for. *)
From S2P Require Import Prelude.
From S2P Require Import AmmError.
From S2P Require Import Config.
From S2P Require Import BigNum.
From S2P Require Import TickMath.
From S2P Require Import TickIndex.
From S2P Require Import TickBitmap.

Definition EXTENSION_TICKARRAY_BITMAP_SIZE : nat := 14.

Record TickArrayBitmapExtension := mkExt {
  ext_pool_id : Pubkey;
  positive_tick_array_bitmap : list Z;
  negative_tick_array_bitmap : list Z;
}.

Definition ext_initialize (pool_id : Pubkey) : TickArrayBitmapExtension :=
  mkExt pool_id (replicate EXTENSION_TICKARRAY_BITMAP_SIZE 0)
    (replicate EXTENSION_TICKARRAY_BITMAP_SIZE 0).

Definition check_extension_boundary (tick_index tick_spacing : Z) : Result unit :=
  let! positive_tick_boundary := max_tick_in_tickarray_bitmap tick_spacing in
  let! negative_tick_boundary := ichk 32 (- positive_tick_boundary) in
  do! require_gt MAX_TICK positive_tick_boundary in
  do! require_gt negative_tick_boundary MIN_TICK in
  if (negative_tick_boundary <=? tick_index) && (tick_index <? positive_tick_boundary)
  then err InvalidTickArrayBoundary else Ok tt.

Definition get_bitmap_offset (tick_index tick_spacing : Z) : Result Z :=
  let! valid := check_is_valid_start_index tick_index tick_spacing in
  do! require valid InvalidTickIndex in
  do! check_extension_boundary tick_index tick_spacing in
  let! ticks_in_one_bitmap := max_tick_in_tickarray_bitmap tick_spacing in
  let! a := ichk 32 (Z.abs tick_index) in
  let! q := idiv 32 a ticks_in_one_bitmap in
  let! offset := ichk 32 (q - 1) in
  let! offset :=
    if tick_index <? 0 then
      let! r := irem 32 a ticks_in_one_bitmap in
      if r =? 0 then ichk 32 (offset - 1) else Ok offset
    else Ok offset in
  Ok (uwrap 64 offset).

Definition get_bitmap (self : TickArrayBitmapExtension) (tick_index tick_spacing : Z) : Result (Z * Z) :=
  let! offset := get_bitmap_offset tick_index tick_spacing in
  let! row :=
    if tick_index <? 0 then idx (negative_tick_array_bitmap self) offset
    else idx (positive_tick_array_bitmap self) offset in
  Ok (offset, row).

Definition tick_array_offset_in_bitmap (tick_array_start_index tick_spacing : Z) : Result Z :=
  let! a := ichk 32 (Z.abs tick_array_start_index) in
  let! t := max_tick_in_tickarray_bitmap tick_spacing in
  let! m := irem 32 a t in
  let! n := tick_count tick_spacing in
  let! off := idiv 32 m n in
  if (tick_array_start_index <? 0) && negb (m =? 0)
  then ichk 32 (TICK_ARRAY_BITMAP_SIZE - off) else Ok off.

Section Extension.
Context {U : UintLib}.

Definition check_tick_array_is_initialized
    (self : TickArrayBitmapExtension) (tick_array_start_index tick_spacing : Z) :
    Result (bool * Z) :=
  let! '(_, tickarray_bitmap) := get_bitmap self tick_array_start_index tick_spacing in
  let! off := tick_array_offset_in_bitmap tick_array_start_index tick_spacing in
  Ok (uint_bit tickarray_bitmap (uwrap 64 off), tick_array_start_index).

Definition flip_tick_array_bit
    (self : TickArrayBitmapExtension) (tick_array_start_index tick_spacing : Z) :
    Result TickArrayBitmapExtension :=
  let! '(offset, tick_array_bitmap) := get_bitmap self tick_array_start_index tick_spacing in
  let! off := tick_array_offset_in_bitmap tick_array_start_index tick_spacing in
  let mask := uint_shl 512 1 off in
  if tick_array_start_index <? 0 then
    let! rows := set_idx (negative_tick_array_bitmap self) offset
                   (uint_bitxor tick_array_bitmap mask) in
    Ok (mkExt (ext_pool_id self) (positive_tick_array_bitmap self) rows)
  else
    let! rows := set_idx (positive_tick_array_bitmap self) offset
                   (uint_bitxor tick_array_bitmap mask) in
    Ok (mkExt (ext_pool_id self) rows (negative_tick_array_bitmap self)).

Definition next_initialized_tick_array_in_bitmap
    (tickarray_bitmap next_tick_array_start_index tick_spacing : Z) (zero_for_one : bool) :
    Result (bool * Z) :=
  let! '(bitmap_min_tick_boundary, bitmap_max_tick_boundary) :=
    get_bitmap_tick_boundary next_tick_array_start_index tick_spacing in
  let! off := tick_array_offset_in_bitmap next_tick_array_start_index tick_spacing in
  if zero_for_one then
    let! d := ichk 32 (TICK_ARRAY_BITMAP_SIZE - 1 - off) in
    let offset_bit_map := uint_shl 512 tickarray_bitmap d in
    if offset_bit_map =? 0 then Ok (false, bitmap_min_tick_boundary)
    else
      let! next_bit := try_into 16 (uint_leading_zeros 512 offset_bit_map) in
      let! n := tick_count tick_spacing in
      let! x := ichk 32 (next_bit * n) in
      let! y := ichk 32 (next_tick_array_start_index - x) in
      Ok (true, y)
  else
    let offset_bit_map := uint_shr tickarray_bitmap off in
    if offset_bit_map =? 0 then
      let! n := tick_count tick_spacing in
      let! e := ichk 32 (bitmap_max_tick_boundary - n) in
      Ok (false, e)
    else
      let! next_bit := try_into 16 (uint_trailing_zeros 512 offset_bit_map) in
      let! n := tick_count tick_spacing in
      let! x := ichk 32 (next_bit * n) in
      let! y := ichk 32 (next_tick_array_start_index + x) in
      Ok (true, y).

Definition next_initialized_tick_array_from_one_bitmap
    (self : TickArrayBitmapExtension) (last_tick_array_start_index tick_spacing : Z)
    (zero_for_one : bool) : Result (bool * Z) :=
  let! multiplier := tick_count tick_spacing in
  let! next_tick_array_start_index :=
    if zero_for_one then ichk 32 (last_tick_array_start_index - multiplier)
    else ichk 32 (last_tick_array_start_index + multiplier) in
  let! min_tick_array_start_index := get_array_start_index MIN_TICK tick_spacing in
  let! max_tick_array_start_index := get_array_start_index MAX_TICK tick_spacing in
  if (next_tick_array_start_index <? min_tick_array_start_index)
     || (max_tick_array_start_index <? next_tick_array_start_index)
  then Ok (false, next_tick_array_start_index)
  else
    let! '(_, tickarray_bitmap) := get_bitmap self next_tick_array_start_index tick_spacing in
    next_initialized_tick_array_in_bitmap tickarray_bitmap next_tick_array_start_index
      tick_spacing zero_for_one.
End Extension.

(** * The rows as a set of tick arrays *)

(** Array [k] outside the pool's bitmap is bit [k mod 512] of a row: row
    [k / 512 - 1] on the positive side, row [- (k / 512) - 2] on the negative
    side. *)
Definition row_of (k : Z) : Z := if k <? 0 then - (k / 512) - 2 else k / 512 - 1.

Definition ext_row (self : TickArrayBitmapExtension) (k : Z) : Z :=
  default 0 ((if k <? 0 then negative_tick_array_bitmap self else positive_tick_array_bitmap self)
             !! Z.to_nat (row_of k)).

Definition ext_marked (self : TickArrayBitmapExtension) (k : Z) : bool :=
  Z.testbit (ext_row self k) (k mod 512).

Definition ext_wf (self : TickArrayBitmapExtension) : Prop :=
  length (positive_tick_array_bitmap self) = EXTENSION_TICKARRAY_BITMAP_SIZE /\
  length (negative_tick_array_bitmap self) = EXTENSION_TICKARRAY_BITMAP_SIZE /\
  Forall (in_u 512) (positive_tick_array_bitmap self) /\
  Forall (in_u 512) (negative_tick_array_bitmap self).

(** An array of the extension: a valid start outside the pool's bitmap. *)
Definition ext_index (k s : Z) : Prop :=
  valid_start (k * tpa s) s /\ (k < -512 \/ 512 <= k).

(** A spacing for which the extension exists: the pool's bitmap does not reach
    the last tick. *)
Lemma ext_index_spacing k s : spacing_ok s -> ext_index k s -> 512 * tpa s < MAX_TICK /\ -7394 <= k <= 7393.
Proof.
  intros Hs [(j & Hj & Hlo & Hhi) Hk]. pose proof (tpa_range s Hs) as Hn.
  pose proof (array_start_bounds MIN_TICK s Hs) as Hb.
  unfold MIN_TICK, MAX_TICK in *. set (n := tpa s) in *. clearbody n.
  destruct Hk as [Hk|Hk]; split; nia.
Qed.

Lemma ext_index_small k s : spacing_ok s -> ext_index k s -> small (k * tpa s).
Proof. intros Hs [Hv _]. by destruct (valid_start_small _ _ Hs Hv). Qed.

(** Quotient and remainder by the ticks of a row, in array indices. *)
Lemma row_quot a n : 0 < n -> 0 <= a -> Z.quot (a * n) (512 * n) = a / 512.
Proof. intros. rewrite Z.quot_div_nonneg by nia. apply Z.div_mul_cancel_r; lia. Qed.

Lemma row_rem a n : 0 < n -> 0 <= a -> Z.rem (a * n) (512 * n) = a mod 512 * n.
Proof. intros. rewrite Z.rem_mod_nonneg by nia. apply Z.mul_mod_distr_r; lia. Qed.

Ltac euclid := Z.to_euclidean_division_equations; lia.

Lemma row_of_bounds k s : spacing_ok s -> ext_index k s -> 0 <= row_of k < 14.
Proof.
  intros Hs Hk. destruct (ext_index_spacing k s Hs Hk) as [_ Hb]. destruct Hk as [_ Hk].
  unfold row_of. destruct (Z.ltb_spec k 0); euclid.
Qed.

Section RowLemmas.
Context (k s : Z) (Hs : spacing_ok s) (Hk : ext_index k s).

Let n := tpa s.

Lemma row_facts :
  60 <= n /\ 512 * n < MAX_TICK /\ small (k * n) /\ 0 <= Z.abs k <= 7394 /\
  Z.abs (k * n) = Z.abs k * n /\ ((k * n <? 0) = (k <? 0)) /\ in_i 32 (Z.abs k * n).
Proof using Hs Hk.
  destruct (ext_index_spacing k s Hs Hk) as [Hsp Hr].
  pose proof (tpa_range s Hs) as Hn0. pose proof (ext_index_small k s Hs Hk) as Hsm.
  fold n in Hsp, Hn0, Hsm. clearbody n. unfold small, MAX_TICK in *.
  assert (Z.abs (k * n) = Z.abs k * n) as Ha by (rewrite Z.abs_mul; f_equal; lia).
  assert ((k * n <? 0) = (k <? 0)) by
    (destruct (Z.ltb_spec (k * n) 0), (Z.ltb_spec k 0); first [done | exfalso; nia]).
  split_and!; try lia; try done. rewrite Ha in Hsm. split; [nia|]. range.
Qed.

Lemma get_bitmap_offset_ok : get_bitmap_offset (k * n) s = Ok (row_of k).
Proof using Hs Hk.
  destruct row_facts as (Hn & Hb & Hsm & Ha & Habs & Hneg & Hin).
  pose proof (row_of_bounds k s Hs Hk) as Hro. destruct Hk as [Hv Hout]. fold n in Hv.
  unfold get_bitmap_offset, check_extension_boundary, require_gt.
  destruct (check_is_valid_start_index_ok _ s Hs Hsm) as (b & -> & Hbv).
  rewrite (proj2 Hbv Hv). cbn [obind require Prelude.require]. clear Hbv b.
  rewrite max_tick_ok by done. fold n. cbn [obind].
  unfold MAX_TICK, MIN_TICK in *. rewrite ichk_ok by range. cbn [obind].
  destruct (Z.ltb_spec (512 * n) 443636); [|lia]. cbn [obind require Prelude.require].
  destruct (Z.ltb_spec (-443636) (- (512 * n))); [|lia]. cbn [obind require Prelude.require].
  assert ((- (512 * n) <=? k * n) && (k * n <? 512 * n) = false) as ->.
  { destruct (Z.leb_spec (- (512 * n)) (k * n)), (Z.ltb_spec (k * n) (512 * n)); simpl; done || nia. }
  cbn [obind]. rewrite Habs. rewrite ichk_ok by done. cbn [obind].
  rewrite (proj2 (idiv_Ok 32 (Z.abs k * n) (512 * n) (Z.abs k / 512)));
    [|rewrite row_quot by lia; split; [lia|]; split; [done|]; unfold in_i; euclid].
  cbn [obind]. rewrite ichk_ok by (unfold in_i; euclid). cbn [obind]. rewrite Hneg.
  unfold row_of in *. destruct (Z.ltb_spec k 0).
  - rewrite (proj2 (irem_Ok 32 (Z.abs k * n) (512 * n) (Z.abs k mod 512 * n)));
      [|rewrite row_quot, row_rem by lia; split; [lia|]; split; [done|]; unfold in_i; euclid].
    cbn [obind].
    assert ((Z.abs k mod 512 * n =? 0) = (Z.abs k mod 512 =? 0)) as ->.
    { destruct (Z.eqb_spec (Z.abs k mod 512) 0) as [->|]; [done|]. apply Z.eqb_neq. nia. }
    destruct (Z.eqb_spec (Z.abs k mod 512) 0).
    + rewrite ichk_ok by (unfold in_i; euclid). cbn [obind]. rewrite uwrap_id by (unfold in_u; euclid).
      f_equal. euclid.
    + cbn [obind]. rewrite uwrap_id by (unfold in_u; euclid). f_equal. euclid.
  - cbn [obind]. rewrite uwrap_id by (unfold in_u; euclid). f_equal. euclid.
Qed.

Lemma tick_array_offset_ok : tick_array_offset_in_bitmap (k * n) s = Ok (k mod 512).
Proof using Hs Hk.
  destruct row_facts as (Hn & Hb & Hsm & Ha & Habs & Hneg & Hin).
  unfold tick_array_offset_in_bitmap, MAX_TICK in *. rewrite Habs, ichk_ok by done. cbn [obind].
  rewrite max_tick_ok by done. fold n. cbn [obind].
  rewrite (proj2 (irem_Ok 32 (Z.abs k * n) (512 * n) (Z.abs k mod 512 * n)));
    [|rewrite row_quot, row_rem by lia; split; [lia|]; split; [done|]; unfold in_i; euclid].
  cbn [obind]. rewrite tick_count_ok by done. fold n. cbn [obind].
  assert (Z.quot (Z.abs k mod 512 * n) n = Z.abs k mod 512) as Hq by (apply Z.quot_mul; lia).
  rewrite (proj2 (idiv_Ok 32 (Z.abs k mod 512 * n) n (Z.abs k mod 512)));
    [|rewrite Hq; split; [lia|]; split; [done|]; unfold in_i; euclid].
  cbn [obind]. rewrite Hneg.
  assert ((Z.abs k mod 512 * n =? 0) = (Z.abs k mod 512 =? 0)) as ->.
  { destruct (Z.eqb_spec (Z.abs k mod 512) 0) as [->|]; [done|]. apply Z.eqb_neq. nia. }
  unfold TICK_ARRAY_BITMAP_SIZE.
  destruct (Z.ltb_spec k 0), (Z.eqb_spec (Z.abs k mod 512) 0); simpl.
  - f_equal. euclid.
  - rewrite ichk_ok by (unfold in_i; euclid). f_equal. euclid.
  - f_equal. euclid.
  - f_equal. euclid.
Qed.

Lemma get_bitmap_ok e : ext_wf e -> get_bitmap e (k * n) s = Ok (row_of k, ext_row e k).
Proof using Hs Hk.
  intros (Hlp & Hln & _ & _). unfold get_bitmap. rewrite get_bitmap_offset_ok. cbn [obind].
  destruct row_facts as (_ & _ & _ & _ & _ & Hneg & _). rewrite Hneg.
  pose proof (row_of_bounds k s Hs Hk). unfold ext_row.
  assert (forall l : list Z, length l = EXTENSION_TICKARRAY_BITMAP_SIZE ->
    @idx error Z l (row_of k) = Ok (default 0 (l !! Z.to_nat (row_of k)))) as Hi.
  { intros l Hl. apply idx_Ok. split; [lia|].
    destruct (lookup_lt_is_Some_2 l (Z.to_nat (row_of k))) as [x Hx]; [|by rewrite Hx].
    rewrite Hl. unfold EXTENSION_TICKARRAY_BITMAP_SIZE. lia. }
  destruct (k <? 0); by rewrite Hi.
Qed.

(** The row's bounds, in array indices. *)
Lemma get_bitmap_tick_boundary_ok :
  get_bitmap_tick_boundary (k * n) s = Ok (k / 512 * 512 * n, (k / 512 + 1) * 512 * n).
Proof using Hs Hk.
  destruct row_facts as (Hn & Hb & Hsm & Ha & Habs & Hneg & Hin).
  unfold get_bitmap_tick_boundary, MAX_TICK in *. rewrite max_tick_ok by done. fold n. cbn [obind].
  rewrite Habs, ichk_ok by done. cbn [obind].
  rewrite (proj2 (idiv_Ok 32 (Z.abs k * n) (512 * n) (Z.abs k / 512)));
    [|rewrite row_quot by lia; split; [lia|]; split; [done|]; unfold in_i; euclid].
  cbn [obind]. rewrite Hneg. set (m := if k <? 0 then - (k / 512) else k / 512).
  assert (0 <= m <= 15 /\ (0 <= k -> m <= 14)) as [Hm Hm'] by (unfold m; destruct (Z.ltb_spec k 0); euclid).
  match goal with |- obind ?x _ = _ => assert (x = Ok m) as -> end.
  { unfold m. destruct (Z.ltb_spec k 0); [|f_equal; euclid].
    rewrite (proj2 (irem_Ok 32 (Z.abs k * n) (512 * n) (Z.abs k mod 512 * n)));
      [|rewrite row_quot, row_rem by lia; split; [lia|]; split; [done|]; unfold in_i; euclid].
    cbn [obind].
    assert ((Z.abs k mod 512 * n =? 0) = (Z.abs k mod 512 =? 0)) as ->.
    { destruct (Z.eqb_spec (Z.abs k mod 512) 0) as [->|]; [done|]. apply Z.eqb_neq. nia. }
    destruct (Z.eqb_spec (Z.abs k mod 512) 0); simpl; [f_equal; euclid|].
    rewrite ichk_ok by (unfold in_i; euclid). f_equal. euclid. }
  cbn [obind]. assert (0 <= 512 * n * m <= 15 * 443636) by nia.
  rewrite ichk_ok by range. cbn [obind]. unfold m in *.
  destruct (Z.ltb_spec k 0); do 2 (rewrite ?ichk_ok by range; cbn [obind]); do 2 f_equal; lia.
Qed.
End RowLemmas.

(** * Operations on the rows *)

Lemma bits_above w x j : 0 <= w -> in_u w x -> w <= j -> Z.testbit x j = false.
Proof.
  intros Hw [Hx0 Hx] Hj. destruct (Z.eq_dec x 0) as [->|]; [apply Z.testbit_0_l|].
  apply Z.bits_above_log2; [done|]. enough (Z.log2 x < w) by lia. by apply Z.log2_lt_pow2; [lia|].
Qed.

Lemma nonzero_of_bit x j : Z.testbit x j = true -> x <> 0.
Proof. intros H ->. by rewrite Z.bits_0 in H. Qed.

Section RowOps.
Context {U : UintLib}.

Lemma uint_shl_bits x d j :
  0 <= d -> 0 <= j -> Z.testbit (uint_shl 512 x d) j = (j <? 512) && (d <=? j) && Z.testbit x (j - d).
Proof.
  intros Hd Hj. rewrite uint_shl_law. unfold uwrap. destruct (Z.ltb_spec j 512); simpl.
  - rewrite Z.mod_pow2_bits_low, Z.shiftl_spec by lia.
    destruct (Z.leb_spec d j); simpl; [done|]. apply Z.testbit_neg_r. lia.
  - by rewrite Z.mod_pow2_bits_high by lia.
Qed.

Lemma uint_shl_range x d : in_u 512 (uint_shl 512 x d).
Proof. rewrite uint_shl_law. by apply uwrap_in. Qed.

(** Highest set bit at or below [p]. *)
Lemma row_search_down x p :
  in_u 512 x -> 0 <= p < 512 ->
  let a := uint_shl 512 x (511 - p) in
  (a = 0 /\ nearest (Z.testbit x) 0 (p + 1) true None) \/
  (a <> 0 /\ let b := uint_leading_zeros 512 a in
   0 <= b <= p /\ nearest (Z.testbit x) 0 (p + 1) true (Some (p - b))).
Proof.
  intros Hx Hp a. destruct (Z.eq_dec a 0) as [Ha|Ha]; [left|right]; (split; [done|]).
  - intros i Hi. pose proof (uint_shl_bits x (511 - p) (i + (511 - p)) ltac:(lia) ltac:(lia)) as Hb.
    fold a in Hb. rewrite Ha, Z.bits_0 in Hb.
    destruct (Z.ltb_spec (i + (511 - p)) 512), (Z.leb_spec (511 - p) (i + (511 - p))); try lia.
    simpl in Hb. rewrite Hb. f_equal. lia.
  - pose proof (uint_shl_range x (511 - p)) as Hr. fold a in Hr.
    assert (0 < a < 2 ^ 512) as Hr' by (unfold in_u in Hr; lia).
    rewrite uint_leading_zeros_law by done. cbn zeta.
    assert (Z.testbit a (Z.log2 a) = true) as Htop by (apply Z.bit_log2; lia).
    pose proof (Z.log2_nonneg a) as Hl0.
    unfold a in Htop at 1. rewrite uint_shl_bits in Htop by lia.
    apply andb_true_iff in Htop as [[Hlt%Z.ltb_lt Hle%Z.leb_le]%andb_true_iff Hbit].
    split; [lia|]. split; [lia|].
    split; [rewrite <- Hbit; f_equal; lia|]. intros i Hi.
    assert (Z.testbit a (i + (511 - p)) = false) as Hz by (apply Z.bits_above_log2; lia).
    unfold a in Hz. rewrite uint_shl_bits in Hz by lia.
    destruct (Z.ltb_spec (i + (511 - p)) 512), (Z.leb_spec (511 - p) (i + (511 - p))); try lia.
    simpl in Hz. rewrite <- Hz. f_equal. lia.
Qed.

(** Lowest set bit at or above [p]. *)
Lemma row_search_up x p :
  in_u 512 x -> 0 <= p < 512 ->
  let a := uint_shr x p in
  (a = 0 /\ nearest (Z.testbit x) p 512 false None) \/
  (a <> 0 /\ let b := uint_trailing_zeros 512 a in
   0 <= b < 512 - p /\ nearest (Z.testbit x) p 512 false (Some (p + b))).
Proof.
  intros Hx Hp a.
  assert (forall i, p <= i -> Z.testbit x i = Z.testbit a (i - p)) as Hbits.
  { intros i Hi. unfold a. rewrite uint_shr_law, Z.shiftr_spec by lia. f_equal. lia. }
  destruct (Z.eq_dec a 0) as [Ha|Ha]; [left|right]; (split; [done|]).
  - intros i Hi. rewrite Hbits, Ha by lia. apply Z.bits_0.
  - assert (in_u 512 a) as Hr.
    { apply in_u_of_bits; [lia| |].
      - unfold a. rewrite uint_shr_law. apply Z.shiftr_nonneg. unfold in_u in Hx. lia.
      - intros j Hj. replace j with (j + p - p) by lia. rewrite <- Hbits by lia.
        apply (bits_above 512); [lia|done|lia]. }
    destruct (uint_trailing_zeros_law 512 a) as (Hb & H1 & Hf); [unfold in_u in Hr; lia|].
    cbn zeta. set (b := uint_trailing_zeros 512 a) in *. clearbody b.
    assert (b < 512 - p).
    { destruct (Z.lt_ge_cases b (512 - p)); [done|]. exfalso.
      replace b with (b + p - p) in H1 by lia. rewrite <- Hbits in H1 by lia.
      by rewrite (bits_above 512 x) in H1 by (done || lia). }
    split; [lia|]. split; [lia|]. split.
    + rewrite Hbits by lia. rewrite <- H1. f_equal. lia.
    + intros i Hi. rewrite Hbits by lia. apply Hf. lia.
Qed.

Lemma ext_row_range e k : ext_wf e -> in_u 512 (ext_row e k).
Proof.
  intros (_ & _ & Hp & Hn). unfold ext_row.
  destruct (_ !! _) as [x|] eqn:Hx; [|done]. simpl. destruct (k <? 0).
  - rewrite Forall_lookup in Hn. eauto.
  - rewrite Forall_lookup in Hp. eauto.
Qed.

(** Within a row, the arrays are the row's bits. *)
Lemma ext_marked_in_row e k i :
  k / 512 * 512 <= i < (k / 512 + 1) * 512 ->
  ext_marked e i = Z.testbit (ext_row e k) (i - k / 512 * 512).
Proof.
  intros Hi. assert (i / 512 = k / 512) as Hq by euclid.
  assert ((i <? 0) = (k <? 0)) as Hs by (destruct (Z.ltb_spec i 0), (Z.ltb_spec k 0); euclid).
  unfold ext_marked, ext_row, row_of. rewrite Hq, Hs. f_equal. euclid.
Qed.

Lemma check_tick_array_is_initialized_ok e k s :
  ext_wf e -> spacing_ok s -> ext_index k s ->
  check_tick_array_is_initialized e (k * tpa s) s = Ok (ext_marked e k, k * tpa s).
Proof.
  intros He Hs Hk. unfold check_tick_array_is_initialized.
  rewrite get_bitmap_ok, tick_array_offset_ok by done. cbn [obind].
  rewrite uint_bit_law, uwrap_id by (unfold in_u; euclid). done.
Qed.

Lemma next_in_row_ok e k s (zfo : bool) :
  ext_wf e -> spacing_ok s -> ext_index k s ->
  let base := k / 512 * 512 in
  exists o,
    nearest (ext_marked e) (if zfo then base else k) (if zfo then k + 1 else base + 512) zfo o /\
    next_initialized_tick_array_in_bitmap (ext_row e k) (k * tpa s) s zfo =
      Ok (match o with
          | Some j => (true, j * tpa s)
          | None => (false, (if zfo then base else base + 511) * tpa s)
          end).
Proof.
  intros He Hs Hk base. pose proof (ext_row_range e k He) as Hx.
  destruct (row_facts k s Hs Hk) as (Hn & Hb & Hsm & Ha & Habs & Hneg & Hin).
  unfold next_initialized_tick_array_in_bitmap.
  rewrite get_bitmap_tick_boundary_ok, tick_array_offset_ok by done. cbn [obind].
  fold base. set (p := k mod 512). assert (0 <= p < 512 /\ k = base + p) as [Hp Hkp]
    by (unfold p, base; euclid).
  assert (forall P lo hi down o, nearest P lo hi down o ->
            P = Z.testbit (ext_row e k) -> 0 <= lo -> hi <= 512 ->
            nearest (ext_marked e) (base + lo) (base + hi) down ((fun x => base + x) <$> o)) as Hmove.
  { intros P lo hi down o Hnear -> Hlo Hhi.
    apply (nearest_ext (fun i => Z.testbit (ext_row e k) (i + - base))).
    { intros i Hi. rewrite ext_marked_in_row with (k := k) by (unfold base in *; lia).
      done. }
    replace ((fun x => base + x) <$> o) with ((fun x => x - - base) <$> o)
      by (destruct o; simpl; [f_equal; lia|done]).
    apply nearest_shift. replace (base + lo + - base) with lo by lia.
    by replace (base + hi + - base) with hi by lia. }
  pose proof (tick_count_ok s Hs) as Htc.
  unfold MAX_TICK, small in *. set (n := tpa s) in *. clearbody n.
  assert (forall b, 0 <= b <= 512 -> in_i 32 (b * n)) as Hbn
    by (intros; unfold in_i; change (2 ^ (32 - 1)) with 2147483648; nia).
  assert (-8000 <= base <= 8000) as Hbase by (unfold base; euclid).
  assert (forall j, base <= j <= base + 512 -> in_i 32 (j * n)) as Hjn
    by (intros; unfold in_i; change (2 ^ (32 - 1)) with 2147483648; nia).
  unfold TICK_ARRAY_BITMAP_SIZE. destruct zfo.
  - rewrite ichk_ok by (unfold in_i; lia). cbn [obind]. change (512 - 1 - p) with (511 - p).
    destruct (row_search_down _ p Hx Hp) as [[-> Hnear]|[Hnz [Hbd Hnear]]].
    + exists None. apply Hmove in Hnear; [|done|lia..].
      replace (base + 0) with base in Hnear by lia. replace (base + (p + 1)) with (k + 1) in Hnear by lia.
      split; [done|]. done.
    + destruct (Z.eqb_spec (uint_shl 512 (ext_row e k) (511 - p)) 0); [done|].
      set (b := uint_leading_zeros _ _) in *. clearbody b. apply Hmove in Hnear; [|done|lia..].
      replace (base + 0) with base in Hnear by lia. replace (base + (p + 1)) with (k + 1) in Hnear by lia.
      exists (Some (base + (p - b))). split; [done|].
      rewrite try_into_ok by range. cbn [obind]. rewrite Htc. cbn [obind].
      rewrite ichk_ok by (apply Hbn; lia). cbn [obind].
      replace (k * n - b * n) with ((base + (p - b)) * n) by nia.
      by rewrite ichk_ok by (apply Hjn; lia).
  - destruct (row_search_up _ p Hx Hp) as [[-> Hnear]|[Hnz [Hbd Hnear]]].
    + exists None. apply Hmove in Hnear; [|done|lia..].
      replace (base + p) with k in Hnear by lia.
      split; [done|]. cbn [Z.eqb]. rewrite Htc. cbn [obind].
      replace ((k / 512 + 1) * 512 * n - n) with ((base + 511) * n) by (unfold base; lia).
      by rewrite ichk_ok by (apply Hjn; lia).
    + destruct (Z.eqb_spec (uint_shr (ext_row e k) p) 0); [done|].
      set (b := uint_trailing_zeros _ _) in *. clearbody b. apply Hmove in Hnear; [|done|lia..].
      replace (base + p) with k in Hnear by lia.
      exists (Some (base + (p + b))). split; [done|].
      rewrite try_into_ok by range. cbn [obind]. rewrite Htc. cbn [obind].
      rewrite ichk_ok by (apply Hbn; lia). cbn [obind].
      replace (k * n + b * n) with ((base + (p + b)) * n) by nia.
      by rewrite ichk_ok by (apply Hjn; lia).
Qed.

(** The first and the last array. *)
Definition k_min (s : Z) : Z := MIN_TICK / tpa s.
Definition k_max (s : Z) : Z := MAX_TICK / tpa s.

Lemma valid_start_iff k s :
  spacing_ok s -> valid_start (k * tpa s) s <-> k_min s <= k <= k_max s.
Proof.
  intros Hs. pose proof (tpa_range s Hs). unfold valid_start, array_start, k_min, k_max.
  pose proof (zfloor_bounds MAX_TICK (tpa s) ltac:(lia)).
  split.
  - intros (j & Hj & Hlo & Hhi). split; [nia|]. apply zfloor_ge; [lia|done].
  - intros [Hlo Hhi]. exists k. split; [done|]. split; nia.
Qed.

Lemma next_from_one_bitmap_ok e k s (zfo : bool) :
  ext_wf e -> spacing_ok s -> small (k * tpa s) ->
  let k' := if zfo then k - 1 else k + 1 in
  small (k' * tpa s) ->
  next_initialized_tick_array_from_one_bitmap e (k * tpa s) s zfo =
  if (k_min s <=? k') && (k' <=? k_max s) then
    let! '(_, row) := get_bitmap e (k' * tpa s) s in
    next_initialized_tick_array_in_bitmap row (k' * tpa s) s zfo
  else Ok (false, k' * tpa s).
Proof.
  intros He Hs Hsm k' Hsm'. unfold next_initialized_tick_array_from_one_bitmap.
  pose proof (tpa_range s Hs) as Hn. rewrite tick_count_ok by done. cbn [obind].
  assert ((if zfo then ichk 32 (k * tpa s - tpa s) else ichk 32 (k * tpa s + tpa s))
          = @Ok error _ (k' * tpa s)) as ->.
  { unfold k', small in *. destruct zfo; rewrite ichk_ok by range; f_equal; lia. }
  cbn [obind]. rewrite !get_array_start_index_ok by (done || by apply small_tick).
  cbn [obind]. unfold array_start. fold (k_min s) (k_max s).
  set (n := tpa s) in *. clearbody n.
  destruct (Z.ltb_spec (k' * n) (k_min s * n)), (Z.ltb_spec (k_max s * n) (k' * n)),
    (Z.leb_spec (k_min s) k'), (Z.leb_spec k' (k_max s)); simpl; done || nia.
Qed.

(** Writing a row back. *)
Definition set_row (e : TickArrayBitmapExtension) (k y : Z) : TickArrayBitmapExtension :=
  if k <? 0 then
    mkExt (ext_pool_id e) (positive_tick_array_bitmap e)
      (<[Z.to_nat (row_of k) := y]> (negative_tick_array_bitmap e))
  else
    mkExt (ext_pool_id e) (<[Z.to_nat (row_of k) := y]> (positive_tick_array_bitmap e))
      (negative_tick_array_bitmap e).

Lemma set_row_wf e k y : ext_wf e -> in_u 512 y -> ext_wf (set_row e k y).
Proof.
  intros (Hlp & Hln & Hfp & Hfn) Hy. unfold set_row.
  destruct (k <? 0); split_and!; simpl; rewrite ?length_insert; try done; by apply Forall_insert.
Qed.

Lemma ext_row_set e k y j s :
  ext_wf e -> spacing_ok s -> ext_index k s -> j < -512 \/ 512 <= j ->
  ext_row (set_row e k y) j = if j / 512 =? k / 512 then y else ext_row e j.
Proof.
  intros (Hlp & Hln & _) Hs Hk Hj.
  pose proof (row_of_bounds k s Hs Hk) as Hrk.
  assert (0 <= row_of j) as Hrj by (unfold row_of; destruct (Z.ltb_spec j 0); euclid).
  destruct Hk as [_ Hk].
  assert (forall l : list Z, length l = EXTENSION_TICKARRAY_BITMAP_SIZE ->
    default 0 (<[Z.to_nat (row_of k) := y]> l !! Z.to_nat (row_of j)) =
    if row_of j =? row_of k then y else default 0 (l !! Z.to_nat (row_of j))) as Hl.
  { intros l Hl. destruct (Z.eqb_spec (row_of j) (row_of k)) as [->|Hne].
    - rewrite list_lookup_insert_eq; [done|]. rewrite Hl. unfold EXTENSION_TICKARRAY_BITMAP_SIZE. lia.
    - by rewrite list_lookup_insert_ne by lia. }
  unfold set_row, ext_row. destruct (k <? 0) eqn:Hks, (j <? 0) eqn:Hjs; simpl; rewrite ?Hl by done;
    unfold row_of in *; rewrite ?Hks, ?Hjs in *; zbool;
    destruct (Z.eqb_spec (j / 512) (k / 512)); try done; try euclid.
  - destruct (Z.eqb_spec (- (j / 512) - 2) (- (k / 512) - 2)); done || lia.
  - destruct (Z.eqb_spec (- (j / 512) - 2) (- (k / 512) - 2)); done || lia.
  - destruct (Z.eqb_spec (j / 512 - 1) (k / 512 - 1)); done || lia.
  - destruct (Z.eqb_spec (j / 512 - 1) (k / 512 - 1)); done || lia.
Qed.

(** The bits of a flipped row. *)
Lemma flip_bit x p i :
  0 <= p < 512 -> 0 <= i ->
  Z.testbit (Z.lxor x (uint_shl 512 1 p)) i = xorb (Z.testbit x i) (i =? p).
Proof.
  intros Hp Hi. rewrite Z.lxor_spec, uint_shl_bits by lia. f_equal.
  destruct (Z.eqb_spec i p) as [->|].
  - rewrite Z.sub_diag. destruct (Z.ltb_spec p 512), (Z.leb_spec p p); done || lia.
  - destruct (Z.leb_spec p i); [|by rewrite andb_false_r].
    rewrite (Z.bits_above_log2 1) by (simpl; lia). by rewrite !andb_false_r.
Qed.

Lemma flip_row_range x p : in_u 512 x -> 0 <= p < 512 -> in_u 512 (Z.lxor x (uint_shl 512 1 p)).
Proof.
  intros Hx Hp. apply in_u_of_bits; [lia| |].
  - apply Z.lxor_nonneg. pose proof (uint_shl_range 1 p). unfold in_u in *. lia.
  - intros j Hj. rewrite flip_bit by lia. rewrite (bits_above 512 x) by (done || lia).
    destruct (Z.eqb_spec j p); [lia|done].
Qed.

(** Flipping an array marks or unmarks exactly that array. *)
Lemma flip_tick_array_bit_ok e k s :
  ext_wf e -> spacing_ok s -> ext_index k s ->
  exists e', flip_tick_array_bit e (k * tpa s) s = Ok e' /\ ext_wf e' /\
    ext_pool_id e' = ext_pool_id e /\
    forall j, j < -512 \/ 512 <= j -> ext_marked e' j = xorb (ext_marked e j) (j =? k).
Proof.
  intros He Hs Hk. pose proof He as (Hlp & Hln & _).
  destruct (row_facts k s Hs Hk) as (_ & _ & _ & _ & _ & Hneg & _).
  pose proof (row_of_bounds k s Hs Hk) as Hro.
  assert (0 <= k mod 512 < 512) as Hp by euclid.
  set (y := Z.lxor (ext_row e k) (uint_shl 512 1 (k mod 512))).
  assert (in_u 512 y) as Hyr by (by apply flip_row_range; [apply ext_row_range|]).
  exists (set_row e k y). split; [|split; [by apply set_row_wf|split]].
  - unfold flip_tick_array_bit. rewrite get_bitmap_ok, tick_array_offset_ok by done. cbn [obind].
    rewrite Hneg, uint_bitxor_law. fold y.
    assert (forall l : list Z, length l = EXTENSION_TICKARRAY_BITMAP_SIZE ->
      @set_idx error Z l (row_of k) y = Ok (<[Z.to_nat (row_of k) := y]> l)) as Hset.
    { intros l Hl. apply set_idx_Ok. rewrite Hl. unfold EXTENSION_TICKARRAY_BITMAP_SIZE. split; [lia|done]. }
    unfold set_row. by destruct (k <? 0); rewrite Hset by done.
  - unfold set_row. by destruct (k <? 0).
  - intros j Hj. unfold ext_marked. rewrite (ext_row_set e k y j s) by done.
    destruct (Z.eqb_spec (j / 512) (k / 512)) as [Hq|Hq].
    + unfold y. rewrite flip_bit by euclid.
      assert (ext_row e k = ext_row e j) as ->.
      { unfold ext_row, row_of. rewrite Hq.
        by replace (k <? 0) with (j <? 0) by (destruct (Z.ltb_spec j 0), (Z.ltb_spec k 0); done || euclid). }
      f_equal. destruct (Z.eqb_spec (j mod 512) (k mod 512)), (Z.eqb_spec j k); done || euclid.
    + destruct (Z.eqb_spec j k) as [->|]; [done|]. by rewrite xorb_false_r.
Qed.
End RowOps.

Section Properties.
Context {U : UintLib}.

(** Flipping a tick array outside the pool's bitmap toggles exactly that
    array: on well-formed rows the flip succeeds, keeps the rows well-formed,
    and [check_tick_array_is_initialized] then answers the negation for that
    array and what it answered before for every other one; flipping twice
    restores every answer. *)
Theorem flip_toggles_exactly_one e k s :
  ext_wf e -> spacing_ok s -> ext_index k s ->
  exists e', flip_tick_array_bit e (k * tpa s) s = Ok e' /\ ext_wf e' /\
    (forall j, ext_index j s ->
       check_tick_array_is_initialized e (j * tpa s) s = Ok (ext_marked e j, j * tpa s) /\
       check_tick_array_is_initialized e' (j * tpa s) s =
         Ok (if j =? k then negb (ext_marked e j) else ext_marked e j, j * tpa s)) /\
    exists e'', flip_tick_array_bit e' (k * tpa s) s = Ok e'' /\
      forall j, ext_index j s -> ext_marked e'' j = ext_marked e j.
Proof.
  intros He Hs Hk. destruct (flip_tick_array_bit_ok e k s He Hs Hk) as (e' & Hf & He' & _ & Hm).
  exists e'. split; [done|]. split; [done|]. split.
  - intros j Hj. rewrite !check_tick_array_is_initialized_ok, Hm by (done || apply Hj). split; [done|].
    by destruct (j =? k), (ext_marked e j).
  - destruct (flip_tick_array_bit_ok e' k s He' Hs Hk) as (e'' & Hf' & _ & _ & Hm').
    exists e''. split; [done|]. intros j Hj. rewrite Hm', Hm by apply Hj.
    by destruct (j =? k), (ext_marked e j).
Qed.
End Properties.

Lemma ext_initialize_wf p : ext_wf (ext_initialize p).
Proof. split_and!; try reflexivity; by apply Forall_replicate. Qed.

Section Witnesses.
#[local] Existing Instance uint_std.

Lemma ext_index_example : ext_index (-513) 1.
Proof. split; [exists (-513); by_compute|left; by_compute]. Qed.

Lemma flip_toggles_exactly_one_witness :
  exists e', flip_tick_array_bit (ext_initialize 1) (-513 * tpa 1) 1 = Ok e' /\ ext_wf e' /\
    (forall j, ext_index j 1 ->
       check_tick_array_is_initialized (ext_initialize 1) (j * tpa 1) 1 =
         Ok (ext_marked (ext_initialize 1) j, j * tpa 1) /\
       check_tick_array_is_initialized e' (j * tpa 1) 1 =
         Ok (if j =? -513 then negb (ext_marked (ext_initialize 1) j)
             else ext_marked (ext_initialize 1) j, j * tpa 1)) /\
    exists e'', flip_tick_array_bit e' (-513 * tpa 1) 1 = Ok e'' /\
      forall j, ext_index j 1 -> ext_marked e'' j = ext_marked (ext_initialize 1) j.
Proof.
  apply flip_toggles_exactly_one; [apply ext_initialize_wf|by_compute|apply ext_index_example].
Defined.
End Witnesses.
