(* ===== verification/DynamicFee.v ===== *)
(** [states/pool_fee.rs] and [states/dynamic_fee_config.rs]: the volatility
    accumulator behind the dynamic fee, its decay, the validation of its
    parameters, and the instructions that write a dynamic fee configuration. *)
From S2P Require Import Prelude.
From S2P Require Import AmmError.
From S2P Require Import Config.
From S2P Require Import BigNum.
From S2P Require Import FullMath.
From S2P Require Import TickMath.
From S2P Require Import TickIndex.

Definition MAX_FEE_RATE_NUMERATOR : Z := 100000.
Definition VOLATILITY_ACCUMULATOR_SCALE : Z := 10000.
Definition REDUCTION_FACTOR_DENOMINATOR : Z := 10000.
Definition DYNAMIC_FEE_CONTROL_DENOMINATOR : Z := 100000.

Record DynamicFeeInfo := mkDynamicFeeInfo {
  filter_period : Z;
  decay_period : Z;
  reduction_factor : Z;
  dynamic_fee_control : Z;
  max_volatility_accumulator : Z;
  tick_spacing_index_reference : Z;
  volatility_reference : Z;
  volatility_accumulator : Z;
  last_update_timestamp : Z;
}.

#[export] Instance DynamicFeeInfo_eq_dec : EqDecision DynamicFeeInfo.
Proof. solve_decision. Defined.

Definition default_dynamic_fee_info : DynamicFeeInfo := mkDynamicFeeInfo 0 0 0 0 0 0 0 0 0.

(** [u64::from(a) * u64::from(b) > u32::MAX as u64]: the product of a [u32]
    and a [u16] fits a [u64]. *)
Definition validate_params
    (spacing fp dp rf control max_acc : Z) : Result bool :=
  if fp =? 0 then Ok false
  else if (dp =? 0) || (dp <=? fp) then Ok false
  else if (rf =? 0) || (REDUCTION_FACTOR_DENOMINATOR <=? rf) then Ok false
  else if (control =? 0) || (DYNAMIC_FEE_CONTROL_DENOMINATOR <=? control) then Ok false
  else
    let! p := uchk 64 (max_acc * spacing) in
    if umax 32 <? p then Ok false else Ok true.

Definition update_volatility_accumulator (self : DynamicFeeInfo) (tick_spacing_index : Z) :
    Result DynamicFeeInfo :=
  let! d := ichk 32 (tick_spacing_index_reference self - tick_spacing_index) in
  let index_delta := Z.abs d in
  let! p := uchk 64 (index_delta * VOLATILITY_ACCUMULATOR_SCALE) in
  let! acc := uchk 64 (volatility_reference self + p) in
  Ok (mkDynamicFeeInfo (filter_period self) (decay_period self) (reduction_factor self)
        (dynamic_fee_control self) (max_volatility_accumulator self)
        (tick_spacing_index_reference self) (volatility_reference self)
        (uwrap 32 (Z.min acc (max_volatility_accumulator self))) (last_update_timestamp self)).

Definition update_reference (self : DynamicFeeInfo) (tick_spacing_index current_timestamp : Z) :
    Result DynamicFeeInfo :=
  let time_since_reference_update := usat 64 (current_timestamp - last_update_timestamp self) in
  let set_reference vr :=
    mkDynamicFeeInfo (filter_period self) (decay_period self) (reduction_factor self)
      (dynamic_fee_control self) (max_volatility_accumulator self)
      tick_spacing_index vr (volatility_accumulator self) current_timestamp in
  if time_since_reference_update <? filter_period self then Ok self
  else if time_since_reference_update <? decay_period self then
    let! p := uchk 64 (volatility_accumulator self * reduction_factor self) in
    let! q := udiv p REDUCTION_FACTOR_DENOMINATOR in
    Ok (set_reference (uwrap 32 q))
  else Ok (set_reference 0).

Definition tick_spacing_index_from_tick (tick_index spacing : Z) : Result Z :=
  let! r := irem 32 tick_index spacing in
  if (r =? 0) || (0 <=? tick_index) then idiv 32 tick_index spacing
  else let! q := idiv 32 tick_index spacing in ichk 32 (q - 1).

(** [CollectFeeOn] *)
Inductive CollectFeeOn : Set := FromInput | Token0Only | Token1Only.
Definition collect_fee_on_to_u8 (c : CollectFeeOn) : Z :=
  match c with FromInput => 0 | Token0Only => 1 | Token1Only => 2 end.

Record DynamicFeeConfig := mkDynamicFeeConfig {
  dfc_index : Z;
  dfc_filter_period : Z;
  dfc_decay_period : Z;
  dfc_reduction_factor : Z;
  dfc_dynamic_fee_control : Z;
  dfc_max_volatility_accumulator : Z;
}.

Definition update_dynamic_fee_config_params (self : DynamicFeeConfig)
    (fp dp rf control max_acc : Z) : Result DynamicFeeConfig :=
  let! ok := validate_params 1000 fp dp rf control max_acc in
  if negb ok then err InvalidDynamicFeeConfigParams
  else Ok (mkDynamicFeeConfig (dfc_index self) fp dp rf control max_acc).

Section Instructions.
Context (admin_ID : Pubkey).

(** [create_dynamic_fee_config] on a fresh account. *)
Definition create_dynamic_fee_config (signer idx fp dp rf control max_acc : Z) :
    Result DynamicFeeConfig :=
  do! require_admin admin_ID signer in
  update_dynamic_fee_config_params (mkDynamicFeeConfig idx 0 0 0 0 0) fp dp rf control max_acc.

Definition update_dynamic_fee_config (signer : Pubkey) (self : DynamicFeeConfig)
    (fp dp rf control max_acc : Z) : Result DynamicFeeConfig :=
  do! require_admin admin_ID signer in
  update_dynamic_fee_config_params self fp dp rf control max_acc.
End Instructions.

Section FeeRate.
Context {U : UintLib}.

(** [SwapState::compute_dynamic_fee_rate]: [u32] product, [u64] square. *)
Definition compute_dynamic_fee_rate (info : DynamicFeeInfo) (spacing : Z) : Result Z :=
  let! crossed := uchk 32 (volatility_accumulator info * spacing) in
  let! squared := uchk 64 (crossed * crossed) in
  let! d1 := big_mul 128 DYNAMIC_FEE_CONTROL_DENOMINATOR VOLATILITY_ACCUMULATOR_SCALE in
  let! denominator := big_mul 128 d1 VOLATILITY_ACCUMULATOR_SCALE in
  let! f := or_overflow (mul_div_ceil_u128 (dynamic_fee_control info) squared denominator) in
  let! fee_rate := big_u128 f in
  if MAX_FEE_RATE_NUMERATOR <? fee_rate then Ok MAX_FEE_RATE_NUMERATOR
  else Ok (uwrap 32 fee_rate).

(** [SwapState::get_total_fee_rate] *)
Definition get_total_fee_rate (dynamic_fee_info : option DynamicFeeInfo) (base_fee_rate spacing : Z) :
    Result Z :=
  match dynamic_fee_info with
  | Some info =>
      let! dynamic_fee_rate := compute_dynamic_fee_rate info spacing in
      let! total_fee_rate := uchk 32 (base_fee_rate + dynamic_fee_rate) in
      Ok (Z.min total_fee_rate MAX_FEE_RATE_NUMERATOR)
  | None => Ok base_fee_rate
  end.
End FeeRate.

(** * Invariant *)

(** The tick groups of the tick range, with room to spare. *)
Definition group_index (k : Z) : Prop := Z.abs k <= 2 ^ 20.

(** What [initialize_dynamic_fee_info] establishes and every update keeps. *)
Record fee_info_ok (spacing : Z) (i : DynamicFeeInfo) : Prop := {
  fi_max : in_u 32 (max_volatility_accumulator i);
  fi_acc : 0 <= volatility_accumulator i <= max_volatility_accumulator i;
  fi_ref : 0 <= volatility_reference i <= max_volatility_accumulator i;
  fi_spacing : max_volatility_accumulator i * spacing <= umax 32;
  fi_control : 0 <= dynamic_fee_control i < DYNAMIC_FEE_CONTROL_DENOMINATOR;
  fi_factor : 0 <= reduction_factor i < REDUCTION_FACTOR_DENOMINATOR;
  fi_index : group_index (tick_spacing_index_reference i);
}.

Lemma validate_params_spec spacing fp dp rf control max_acc :
  in_u 16 spacing -> in_u 32 max_acc ->
  validate_params spacing fp dp rf control max_acc =
  Ok (negb (fp =? 0) && negb ((dp =? 0) || (dp <=? fp))
      && negb ((rf =? 0) || (REDUCTION_FACTOR_DENOMINATOR <=? rf))
      && negb ((control =? 0) || (DYNAMIC_FEE_CONTROL_DENOMINATOR <=? control))
      && negb (umax 32 <? max_acc * spacing)).
Proof.
  intros Hs Hm. unfold validate_params.
  destruct (fp =? 0); [done|]. destruct ((dp =? 0) || (dp <=? fp)); [done|].
  destruct ((rf =? 0) || _); [done|]. destruct ((control =? 0) || _); [done|].
  rewrite uchk_ok by (apply (in_u_weaken (32 + 16)); [lia|]; by apply in_u_mul).
  cbn [obind negb andb]. by destruct (umax 32 <? max_acc * spacing).
Qed.

Lemma update_volatility_accumulator_ok spacing i k :
  fee_info_ok spacing i -> group_index k ->
  exists i', update_volatility_accumulator i k = Ok i' /\ fee_info_ok spacing i' /\
    volatility_accumulator i' =
      Z.min (volatility_reference i + Z.abs (tick_spacing_index_reference i - k) * 10000)
        (max_volatility_accumulator i) /\
    max_volatility_accumulator i' = max_volatility_accumulator i.
Proof.
  intros [Hm Ha Hr Hs Hc Hf Hi] Hk. unfold update_volatility_accumulator, group_index in *.
  rewrite ichk_ok by range. cbn [obind]. unfold VOLATILITY_ACCUMULATOR_SCALE.
  rewrite uchk_ok by range. cbn [obind]. rewrite uchk_ok by range. cbn [obind].
  eexists. split; [done|]. simpl. rewrite uwrap_id by range. split; [|done].
  split; simpl; done || lia.
Qed.

Lemma update_reference_ok spacing i k now :
  fee_info_ok spacing i -> group_index k ->
  exists i', update_reference i k now = Ok i' /\ fee_info_ok spacing i' /\
    volatility_accumulator i' = volatility_accumulator i /\
    volatility_reference i' <= Z.max (volatility_reference i) (volatility_accumulator i).
Proof.
  intros Hok Hk. pose proof Hok as [Hm Ha Hr Hs Hc Hf Hi]. unfold update_reference.
  destruct (_ <? filter_period i); [exists i; split; [done|]; split; [done|]; lia|].
  destruct (_ <? decay_period i).
  - unfold REDUCTION_FACTOR_DENOMINATOR in *.
    assert (0 <= volatility_accumulator i * reduction_factor i < 2 ^ 32 * 10000) by (unfold in_u in *; nia).
    rewrite uchk_ok by range. cbn [obind].
    rewrite (proj2 (udiv_Ok _ 10000 (volatility_accumulator i * reduction_factor i / 10000))) by done.
    cbn [obind].
    assert (0 <= volatility_accumulator i * reduction_factor i / 10000 <= volatility_accumulator i).
    { split; [apply Z.div_pos; lia|]. apply Z.div_le_upper_bound; nia. }
    rewrite uwrap_id by range. eexists. split; [done|]. split; [|simpl; lia].
    split; simpl; done || lia.
  - eexists. split; [done|]. split; [|simpl; lia]. split; simpl; done || lia.
Qed.

(** The tick group of a tick: the floor. *)
Lemma tick_spacing_index_floor t s :
  spacing_ok s -> small t -> tick_spacing_index_from_tick t s = Ok (t / s).
Proof.
  intros Hs Ht. unfold spacing_ok in Hs. unfold tick_spacing_index_from_tick.
  rewrite irem_ok by (done || lia). cbn [obind]. rewrite (quot_floor t s) by lia.
  pose proof (quot_abs_le t s ltac:(lia)). unfold small in Ht.
  rewrite !(proj2 (idiv_Ok 32 t s (Z.quot t s))) by (split; [lia|]; split; [done|range]).
  destruct (Z.eqb_spec (Z.rem t s) 0), (Z.leb_spec 0 t), (Z.ltb_spec t 0); try lia; simpl;
    rewrite ?ichk_ok by range; f_equal; lia.
Qed.

Section FeeRateLemmas.
Context {U : UintLib}.

Lemma compute_dynamic_fee_rate_ok spacing i :
  in_u 16 spacing -> fee_info_ok spacing i ->
  compute_dynamic_fee_rate i spacing =
  Ok (Z.min (zceil (dynamic_fee_control i * (volatility_accumulator i * spacing) ^ 2) 10000000000000)
        MAX_FEE_RATE_NUMERATOR).
Proof.
  intros Hsp [Hm Ha Hr Hs Hc Hf Hi]. unfold compute_dynamic_fee_rate.
  unfold umax, DYNAMIC_FEE_CONTROL_DENOMINATOR in *.
  set (c := volatility_accumulator i * spacing).
  assert (0 <= c <= 2 ^ 32 - 1) as Hcr by (unfold c, in_u in *; nia).
  rewrite uchk_ok by range. cbn [obind].
  assert (0 <= c * c < 2 ^ 64) by nia. rewrite uchk_ok by range. cbn [obind].
  unfold VOLATILITY_ACCUMULATOR_SCALE. rewrite !big_mul_ok by by_compute. cbn [obind].
  rewrite big_mul_ok by by_compute. cbn [obind].
  change (100000 * 10000 * 10000) with 10000000000000.
  unfold mul_div_ceil_u128. rewrite mul_div_ceil_big_spec by (done || range || by_compute).
  change (10000000000000 =? 0) with false. cbn match.
  replace ((dynamic_fee_control i * c ^ 2)) with (dynamic_fee_control i * (c * c)) by nia.
  assert (0 <= zceil (dynamic_fee_control i * (c * c)) 10000000000000 < 2 ^ 128) as Hz.
  { split; [apply zceil_nonneg; nia|].
    enough (zceil (dynamic_fee_control i * (c * c)) 10000000000000 <= dynamic_fee_control i * (c * c)) by nia.
    apply zceil_le; nia. }
  set (z := zceil _ _) in *. clearbody z.
  rewrite ucheck_ok by range. unfold or_overflow. cbn [obind ok_or Prelude.ok_or].
  rewrite big_u128_ok by range. cbn [obind]. unfold MAX_FEE_RATE_NUMERATOR.
  destruct (Z.ltb_spec 100000 z); [by rewrite Z.min_r by lia|].
  rewrite uwrap_id by range. by rewrite Z.min_l by lia.
Qed.
End FeeRateLemmas.

Section Properties.
Context {U : UintLib}.

(** The info that [initialize_dynamic_fee_info] builds from validated
    parameters. *)
Definition fresh_info (fp dp rf control max_acc k : Z) : DynamicFeeInfo :=
  mkDynamicFeeInfo fp dp rf control max_acc k 0 0 0.

Lemma validated_info_ok spacing fp dp rf control max_acc k :
  in_u 16 spacing -> in_u 32 max_acc -> in_u 16 rf -> in_u 32 control -> group_index k ->
  validate_params spacing fp dp rf control max_acc = Ok true ->
  fee_info_ok spacing (fresh_info fp dp rf control max_acc k).
Proof.
  intros Hs Hm Hr Hc Hk H. rewrite validate_params_spec in H by done. injection H as H.
  zbool. split; simpl; done || range.
Qed.

(** The dynamic fee machinery keeps its invariant and its cap: from
    validated parameters, any reference update followed by any accumulator
    update succeeds and preserves the invariant, and the total fee rate
    computed then exists, never exceeds 10% and never falls below the base
    fee (or the cap), for every base rate below 100%. *)
Theorem dynamic_fee_capped spacing i k1 k2 now base :
  in_u 16 spacing -> fee_info_ok spacing i -> group_index k1 -> group_index k2 ->
  0 <= base < FEE_RATE_DENOMINATOR_VALUE ->
  exists i1 i2 rate,
    update_reference i k1 now = Ok i1 /\ update_volatility_accumulator i1 k2 = Ok i2 /\
    fee_info_ok spacing i1 /\ fee_info_ok spacing i2 /\
    get_total_fee_rate (Some i2) base spacing = Ok rate /\
    Z.min base MAX_FEE_RATE_NUMERATOR <= rate <= MAX_FEE_RATE_NUMERATOR.
Proof.
  intros Hs Hi Hk1 Hk2 Hb.
  destruct (update_reference_ok spacing i k1 now Hi Hk1) as (i1 & H1 & Hi1 & _).
  destruct (update_volatility_accumulator_ok spacing i1 k2 Hi1 Hk2) as (i2 & H2 & Hi2 & _).
  exists i1, i2. unfold get_total_fee_rate. rewrite compute_dynamic_fee_rate_ok by done.
  pose proof Hi2 as [Hm Ha _ _ Hc _ _]. cbn [obind].
  set (z := zceil _ _).
  assert (0 <= z) by (apply zceil_nonneg; [lia|]; apply Z.mul_nonneg_nonneg; [lia|]; apply Z.pow_even_nonneg; by exists 1).
  unfold FEE_RATE_DENOMINATOR_VALUE, MAX_FEE_RATE_NUMERATOR in *.
  rewrite uchk_ok by range. cbn [obind]. eexists. split_and!; try done; lia.
Qed.

(** Validated parameters establish the invariant, and a dynamic fee
    configuration accepted by the admin instructions always holds validated
    parameters; anything else is refused with
    [InvalidDynamicFeeConfigParams]. *)
Theorem dynamic_fee_config_validated admin signer c fp dp rf control max_acc :
  in_u 16 fp -> in_u 16 dp -> in_u 16 rf -> in_u 32 control -> in_u 32 max_acc ->
  (update_dynamic_fee_config admin signer c fp dp rf control max_acc =
     if negb (signer =? admin) then err NotApproved
     else if (0 <? fp) && (fp <? dp) && (0 <? rf) && (rf <? 10000)
             && (0 <? control) && (control <? 100000) && (max_acc * 1000 <=? umax 32)
     then Ok (mkDynamicFeeConfig (dfc_index c) fp dp rf control max_acc)
     else err InvalidDynamicFeeConfigParams) /\
  (forall c' k, update_dynamic_fee_config admin signer c fp dp rf control max_acc = Ok c' ->
     group_index k -> fee_info_ok 1000 (fresh_info (dfc_filter_period c') (dfc_decay_period c')
       (dfc_reduction_factor c') (dfc_dynamic_fee_control c') (dfc_max_volatility_accumulator c') k)).
Proof.
  intros Hfp Hdp Hrf Hc Hm. unfold update_dynamic_fee_config, require_admin, update_dynamic_fee_config_params.
  split.
  - destruct (signer =? admin); [|done]. cbn [require Prelude.require obind negb].
    rewrite validate_params_spec by done. cbn [obind].
    unfold REDUCTION_FACTOR_DENOMINATOR, DYNAMIC_FEE_CONTROL_DENOMINATOR.
    match goal with |- (if negb ?a then _ else _) = (if ?b then _ else _) => assert (a = b) as -> end.
    { unfold in_u in *. apply eq_bool_prop_intro. rewrite !Is_true_true.
      rewrite !andb_true_iff, !negb_true_iff, !orb_false_iff, !Z.eqb_neq, !Z.leb_gt, !Z.ltb_ge, !Z.ltb_lt, !Z.leb_le. lia. }
    by destruct (_ && _).
  - intros c' k H Hk. ok_inv. destruct x0; [|done]. simpl in *. ok_inv.
    by apply validated_info_ok.
Qed.
End Properties.

Section Witnesses.
#[local] Existing Instance uint_std.

Lemma fresh_info_example : fee_info_ok 60 (fresh_info 30 600 5000 4000 350000 (-7)).
Proof. split; by_compute. Qed.

Lemma dynamic_fee_capped_witness :
  let i := fresh_info 30 600 5000 4000 350000 (-7) in
  exists i1 i2 rate,
    update_reference i (-9) 100 = Ok i1 /\ update_volatility_accumulator i1 (-12) = Ok i2 /\
    fee_info_ok 60 i1 /\ fee_info_ok 60 i2 /\
    get_total_fee_rate (Some i2) 2500 60 = Ok rate /\
    Z.min 2500 MAX_FEE_RATE_NUMERATOR <= rate <= MAX_FEE_RATE_NUMERATOR.
Proof.
  apply (dynamic_fee_capped 60 (fresh_info 30 600 5000 4000 350000 (-7)) (-9) (-12) 100 2500);
    [by_compute|apply fresh_info_example|by_compute..].
Defined.

Lemma dynamic_fee_config_validated_witness :
  update_dynamic_fee_config 7 7 (mkDynamicFeeConfig 0 0 0 0 0 0) 30 600 5000 4000 350000 =
    Ok (mkDynamicFeeConfig 0 30 600 5000 4000 350000) /\
  update_dynamic_fee_config 7 7 (mkDynamicFeeConfig 0 0 0 0 0 0) 30 30 5000 4000 350000 =
    err InvalidDynamicFeeConfigParams.
Proof.
  split.
  - etrans; [apply (dynamic_fee_config_validated 7 7 (mkDynamicFeeConfig 0 0 0 0 0 0)
               30 600 5000 4000 350000); by_compute|by_compute].
  - etrans; [apply (dynamic_fee_config_validated 7 7 (mkDynamicFeeConfig 0 0 0 0 0 0)
               30 30 5000 4000 350000); by_compute|by_compute].
Defined.
End Witnesses.
