(* ===== verification/Oracle.v ===== *)
(** [states/oracle.rs]: the ring of price observations.  The unused [padding]
    words and the account layout are not modelled; the recent epoch is an
    argument. *)
From S2P Require Import Prelude.
From S2P Require Import AmmError.
From S2P Require Import Config.
From S2P Require Import TickMath.

Definition OBSERVATION_NUM : nat := 100.
Definition OBSERVATION_UPDATE_DURATION_DEFAULT : Z := 15.

Record Observation := mkObservation { block_timestamp : Z; tick_cumulative : Z }.
Definition default_observation : Observation := mkObservation 0 0.

Record ObservationState := mkObservationState {
  obs_initialized : bool;
  obs_recent_epoch : Z;
  observation_index : Z;
  obs_pool_id : Pubkey;
  observations : list Observation;
}.

Definition default_observation_state : ObservationState :=
  mkObservationState false 0 0 default_pubkey (replicate OBSERVATION_NUM default_observation).

(** [ObservationState::initialize] *)
Definition observation_initialize (recent_epoch : Z) (pool_id : Pubkey) : ObservationState :=
  mkObservationState false recent_epoch 0 pool_id (replicate OBSERVATION_NUM default_observation).

(** [ObservationState::update] *)
Definition observation_update (self : ObservationState) (timestamp tick : Z) : Result ObservationState :=
  let i := observation_index self in
  if negb (obs_initialized self) then
    let! obs := set_idx (observations self) i (mkObservation timestamp 0) in
    Ok (mkObservationState true (obs_recent_epoch self) i (obs_pool_id self) obs)
  else
    let! last_observation := idx (observations self) i in
    let delta_time := usat 32 (timestamp - block_timestamp last_observation) in
    if delta_time <? OBSERVATION_UPDATE_DURATION_DEFAULT then Ok self
    else
      let delta_tick_cumulative := isat 64 (tick * delta_time) in
      let! next := if i =? Z.of_nat OBSERVATION_NUM - 1 then Ok 0 else uchk 16 (i + 1) in
      let! obs := set_idx (observations self) next
        (mkObservation timestamp (iwrap 64 (tick_cumulative last_observation + delta_tick_cumulative))) in
      Ok (mkObservationState true (obs_recent_epoch self) next (obs_pool_id self) obs).

(** * Invariant and behaviour *)

Definition observations_ok (o : ObservationState) : Prop :=
  length (observations o) = OBSERVATION_NUM /\ 0 <= observation_index o < 100 /\
  Forall (fun x => in_u 32 (block_timestamp x) /\ in_i 64 (tick_cumulative x)) (observations o).

Lemma iwrap_in w x : 0 < w -> in_i w (iwrap w x).
Proof.
  intros Hw. unfold iwrap, in_i.
  assert (2 ^ w = 2 * 2 ^ (w - 1)) by (rewrite <- Z.pow_succ_r by lia; f_equal; lia).
  pose proof (Z.mod_pos_bound (x + 2 ^ (w - 1)) (2 ^ w)). lia.
Qed.

Definition latest (o : ObservationState) : Observation :=
  default default_observation (observations o !! Z.to_nat (observation_index o)).

Lemma latest_lookup o :
  observations_ok o -> @idx error _ (observations o) (observation_index o) = Ok (latest o).
Proof.
  intros (Hlen & Hi & _). apply idx_Ok. split; [lia|]. unfold latest.
  destruct (lookup_lt_is_Some_2 (observations o) (Z.to_nat (observation_index o))) as [x ->]; [|done].
  rewrite Hlen. unfold OBSERVATION_NUM. lia.
Qed.

(** The slot the next observation goes to. *)
Definition next_slot (o : ObservationState) : Z := (observation_index o + 1) mod 100.

Lemma observation_update_ok o t tick :
  observations_ok o -> obs_initialized o = true -> in_u 32 t -> MIN_TICK <= tick <= MAX_TICK ->
  observation_update o t tick =
  Ok (if t - block_timestamp (latest o) <? 15 then o
      else mkObservationState true (obs_recent_epoch o) (next_slot o) (obs_pool_id o)
             (<[Z.to_nat (next_slot o) :=
                mkObservation t (iwrap 64 (tick_cumulative (latest o)
                                           + tick * (t - block_timestamp (latest o))))]> (observations o))).
Proof.
  intros Ho Hinit Ht Htick. unfold observation_update. rewrite Hinit. cbn [negb].
  rewrite latest_lookup by done. cbn [obind].
  assert (in_u 32 (block_timestamp (latest o))) as Hb.
  { destruct Ho as (Hlen & Hi & Hf). unfold latest.
    destruct (_ !! _) eqn:E; [|done]. rewrite Forall_lookup in Hf. by apply Hf in E as [? _]. }
  unfold OBSERVATION_UPDATE_DURATION_DEFAULT, usat.
  destruct (Z.ltb_spec (t - block_timestamp (latest o)) 15), (Z.ltb_spec (Z.max 0
    (Z.min (t - block_timestamp (latest o)) (2 ^ 32 - 1))) 15); try range; [done|].
  destruct Ho as (Hlen & Hi & Hf).
  assert ((if observation_index o =? Z.of_nat OBSERVATION_NUM - 1 then Ok 0
           else uchk 16 (observation_index o + 1)) = @Ok error _ (next_slot o)) as ->.
  { unfold next_slot, OBSERVATION_NUM.
    destruct (Z.eqb_spec (observation_index o) (Z.of_nat 100 - 1)) as [->|]; [done|].
    rewrite uchk_ok by range. f_equal. rewrite Z.mod_small; lia. }
  cbn [obind].
  assert (0 <= next_slot o < 100) as Hn by (apply Z.mod_pos_bound; lia).
  replace (Z.max 0 (Z.min (t - block_timestamp (latest o)) (2 ^ 32 - 1)))
    with (t - block_timestamp (latest o)) by range.
  replace (isat 64 (tick * (t - block_timestamp (latest o))))
    with (tick * (t - block_timestamp (latest o))).
  2: { unfold isat, MIN_TICK, MAX_TICK, in_u in *.
       assert (- (443636 * 2 ^ 32) <= tick * (t - block_timestamp (latest o)) <= 443636 * 2 ^ 32) by nia.
       lia. }
  rewrite set_idx_ok; [done|]. rewrite Hlen. unfold OBSERVATION_NUM. lia.
Qed.

Lemma observation_update_inv o t tick o' :
  observations_ok o -> in_u 32 t -> MIN_TICK <= tick <= MAX_TICK ->
  observation_update o t tick = Ok o' -> observations_ok o'.
Proof.
  intros Ho Ht Htick H. pose proof Ho as (Hlen & Hi & Hf). destruct (obs_initialized o) eqn:Hinit.
  - rewrite observation_update_ok in H by done. injection H as <-.
    destruct (_ <? _); [done|].
    assert (0 <= next_slot o < 100) as Hn by (apply Z.mod_pos_bound; lia).
    split_and!; simpl; [by rewrite length_insert|lia|lia|].
    apply Forall_insert; [done|]. split; [done|]. by apply iwrap_in.
  - unfold observation_update in H. rewrite Hinit in H. cbn [negb] in H.
    apply obind_Ok in H as (obs & [_ ->]%set_idx_Ok & [= <-]).
    split_and!; simpl; [by rewrite length_insert|lia|lia|]. by apply Forall_insert.
Qed.

(** The observation ring records exact time-weighted ticks: on a
    well-formed initialized state an update never panics and keeps the state
    well-formed; within 15 seconds of the last observation it changes nothing,
    and otherwise it writes one new slot, the next of the 100, in which the
    cumulative tick has grown by exactly [tick * elapsed] (modulo 2^64), so the
    average tick between the two observations is the tick passed in. *)
Theorem observation_update_exact o t tick :
  observations_ok o -> obs_initialized o = true -> in_u 32 t -> MIN_TICK <= tick <= MAX_TICK ->
  exists o', observation_update o t tick = Ok o' /\ observations_ok o' /\
    (let elapsed := t - block_timestamp (latest o) in
     if elapsed <? 15 then o' = o
     else observation_index o' = (observation_index o + 1) mod 100 /\
          block_timestamp (latest o') = t /\
          uwrap 64 (tick_cumulative (latest o') - tick_cumulative (latest o)) = uwrap 64 (tick * elapsed) /\
          forall j, j <> Z.to_nat (observation_index o') -> observations o' !! j = observations o !! j).
Proof.
  intros Ho Hinit Ht Htick. pose proof (observation_update_ok o t tick Ho Hinit Ht Htick) as E.
  eexists. split; [exact E|]. split; [by apply (observation_update_inv o t tick)|]. cbn zeta.
  destruct (Z.ltb_spec (t - block_timestamp (latest o)) 15); [done|]. simpl.
  assert (0 <= next_slot o < 100) as Hn by (apply Z.mod_pos_bound; lia).
  destruct Ho as (Hlen & _ & _).
  match goal with |- context [block_timestamp (latest ?o') = t] =>
    assert (latest o' = mkObservation t (iwrap 64 (tick_cumulative (latest o)
              + tick * (t - block_timestamp (latest o))))) as -> end.
  { unfold latest at 1. simpl.
    by rewrite list_lookup_insert_eq by (rewrite Hlen; unfold OBSERVATION_NUM; lia). }
  simpl. split; [done|]. split; [done|]. split.
  - rewrite <- uwrap_sub_l, uwrap_iwrap, uwrap_sub_l. f_equal. lia.
  - intros j Hj. by apply list_lookup_insert_ne.
Qed.

Lemma observation_update_exact_witness :
  let o := mkObservationState true 5 99 1 (replicate 100 (mkObservation 1000 7)) in
  exists o', observation_update o 1020 (-30) = Ok o' /\ observations_ok o' /\
    (let elapsed := 1020 - block_timestamp (latest o) in
     if elapsed <? 15 then o' = o
     else observation_index o' = (observation_index o + 1) mod 100 /\
          block_timestamp (latest o') = 1020 /\
          uwrap 64 (tick_cumulative (latest o') - tick_cumulative (latest o)) = uwrap 64 (-30 * elapsed) /\
          forall j, j <> Z.to_nat (observation_index o') -> observations o' !! j = observations o !! j).
Proof.
  apply (observation_update_exact
           (mkObservationState true 5 99 1 (replicate 100 (mkObservation 1000 7))) 1020 (-30)).
  - split; [reflexivity|]. split; [by_compute|]. apply Forall_replicate. by_compute.
  - by_compute.
  - by_compute.
  - by_compute.
Defined.
