(* ===== verification/Operation.v ===== *)
(** [states/operation_account.rs] and the instructions that write it: the set
    of operation owners and the whitelist of reward mints, kept in fixed
    arrays padded with the default key.

    A [HashSet] is a [gset]; the order in which it yields its elements is a
    parameter, constrained only to be some enumeration of the set. *)
From stdpp Require Import gmap sorting.
From S2P Require Import Prelude.
From S2P Require Import AmmError.
From S2P Require Import Config.

Definition OPERATION_SIZE_USIZE : nat := 10.
Definition WHITE_MINT_SIZE_USIZE : nat := 100.

Record OperationState := mkOperationState {
  op_bump : Z;
  operation_owners : list Pubkey;
  whitelist_mints : list Pubkey;
}.

(** [slice.contains(&key)] *)
Definition contains (l : list Pubkey) (k : Pubkey) : bool := existsb (Z.eqb k) l.

Definition operation_initialize (bump : Z) : OperationState :=
  mkOperationState bump (replicate OPERATION_SIZE_USIZE default_pubkey)
    (replicate WHITE_MINT_SIZE_USIZE default_pubkey).

Definition validate_operation_owner (self : OperationState) (k : Pubkey) : bool :=
  negb (k =? default_pubkey) && contains (operation_owners self) k.
Definition validate_whitelist_mint (self : OperationState) (k : Pubkey) : bool :=
  negb (k =? default_pubkey) && contains (whitelist_mints self) k.

(** [array = [default; n]; array[0..v.len()].copy_from_slice(v)] *)
Definition fill_array (n : nat) (v : list Pubkey) : Result (list Pubkey) :=
  if (length v <=? n)%nat then Ok (v ++ replicate (n - length v) default_pubkey) else Panic.

Section HashSet.
(** [into_iter().collect()] of a [HashSet]. *)
Context (hash_elements : gset Z -> list Z).

(** [retain(|&item| item != default)], then a [HashSet] of the rest. *)
Definition dedup_keys (l : list Pubkey) : gset Z :=
  list_to_set (filter (fun k => k <> default_pubkey) l).

Definition update_operation_owner (self : OperationState) (keys : list Pubkey) : Result OperationState :=
  let updated_owner := merge_sort Z.le (hash_elements (dedup_keys (operation_owners self ++ keys))) in
  let! owners := fill_array OPERATION_SIZE_USIZE updated_owner in
  Ok (mkOperationState (op_bump self) owners (whitelist_mints self)).

Definition remove_operation_owner (self : OperationState) (keys : list Pubkey) : Result OperationState :=
  let! owners := fill_array OPERATION_SIZE_USIZE
    (List.filter (fun k => negb (contains keys k)) (operation_owners self)) in
  Ok (mkOperationState (op_bump self) owners (whitelist_mints self)).

Definition update_whitelist_mint (self : OperationState) (keys : list Pubkey) : Result OperationState :=
  let! mints := fill_array WHITE_MINT_SIZE_USIZE
    (hash_elements (dedup_keys (whitelist_mints self ++ keys))) in
  Ok (mkOperationState (op_bump self) (operation_owners self) mints).

Definition remove_whitelist_mint (self : OperationState) (keys : list Pubkey) : Result OperationState :=
  let! mints := fill_array WHITE_MINT_SIZE_USIZE
    (List.filter (fun k => negb (contains keys k)) (whitelist_mints self)) in
  Ok (mkOperationState (op_bump self) (operation_owners self) mints).

Definition create_operation_account (admin_ID signer bump : Z) : Result OperationState :=
  do! require_admin admin_ID signer in Ok (operation_initialize bump).

Definition update_operation_account (admin_ID signer : Pubkey) (self : OperationState)
    (param : Z) (keys : list Pubkey) : Result OperationState :=
  do! require_admin admin_ID signer in
  if param =? 0 then update_operation_owner self keys
  else if param =? 1 then remove_operation_owner self keys
  else if param =? 2 then update_whitelist_mint self keys
  else if param =? 3 then remove_whitelist_mint self keys
  else err InvalidUpdateConfigFlag.

(** * The arrays as sets *)

Hypothesis hash_elements_perm : forall X, hash_elements X ≡ₚ elements X.

Lemma contains_spec l k : contains l k = true <-> k ∈ l.
Proof.
  unfold contains. rewrite existsb_exists. setoid_rewrite Z.eqb_eq. split.
  - intros (x & Hx & ->). by apply list_elem_of_In.
  - intros Hk. exists k. split; [by apply list_elem_of_In|done].
Qed.

(** The set an array stands for. *)
Definition keys_of (l : list Pubkey) : gset Z := dedup_keys l.

Lemma elem_of_keys_of l k : k ∈ keys_of l <-> k <> default_pubkey /\ k ∈ l.
Proof. unfold keys_of, dedup_keys. rewrite elem_of_list_to_set, list_elem_of_filter. done. Qed.

Lemma fill_array_Ok n v a :
  fill_array n v = Ok a <-> (length v <= n)%nat /\ a = v ++ replicate (n - length v) default_pubkey.
Proof. unfold fill_array. destruct (Nat.leb_spec (length v) n); naive_solver lia. Qed.

Lemma keys_of_fill n v : keys_of (v ++ replicate n default_pubkey) = keys_of v.
Proof.
  apply set_eq. intros k. rewrite !elem_of_keys_of, elem_of_app, elem_of_replicate. naive_solver.
Qed.

Lemma keys_of_hash X : default_pubkey ∉ X -> keys_of (hash_elements X) = X.
Proof.
  intros HX. apply set_eq. intros k. rewrite elem_of_keys_of, hash_elements_perm, elem_of_elements.
  set_solver.
Qed.

Lemma dedup_no_default l : default_pubkey ∉ dedup_keys l.
Proof. fold (keys_of l). rewrite elem_of_keys_of. naive_solver. Qed.

Lemma keys_of_app l1 l2 : keys_of (l1 ++ l2) = keys_of l1 ∪ keys_of l2.
Proof. apply set_eq. intros k. rewrite elem_of_union, !elem_of_keys_of, elem_of_app. naive_solver. Qed.

Lemma keys_of_perm l1 l2 : l1 ≡ₚ l2 -> keys_of l1 = keys_of l2.
Proof. intros H. apply set_eq. intros k. by rewrite !elem_of_keys_of, H. Qed.

Lemma keys_of_removed l keys :
  keys_of (List.filter (fun k => negb (contains keys k)) l) = keys_of l ∖ keys_of keys.
Proof.
  apply set_eq. intros k. rewrite elem_of_difference, !elem_of_keys_of.
  rewrite !list_elem_of_In, filter_In, negb_true_iff.
  rewrite <- not_true_iff_false, contains_spec, list_elem_of_In. naive_solver.
Qed.

(** What each of the four updates does to the two sets; the sizes of the
    arrays never change. *)
Definition applied (o : OperationState) (param : Z) (keys : list Pubkey) : gset Z * gset Z :=
  let owners := keys_of (operation_owners o) in
  let mints := keys_of (whitelist_mints o) in
  if param =? 0 then (owners ∪ keys_of keys, mints)
  else if param =? 1 then (owners ∖ keys_of keys, mints)
  else if param =? 2 then (owners, mints ∪ keys_of keys)
  else (owners, mints ∖ keys_of keys).

Lemma update_operation_account_applied admin signer o param keys o' :
  update_operation_account admin signer o param keys = Ok o' ->
  (keys_of (operation_owners o'), keys_of (whitelist_mints o')) = applied o param keys /\
  signer = admin /\ op_bump o' = op_bump o.
Proof.
  intros H. unfold update_operation_account, require_admin in H. ok_inv. zbool. unfold applied.
  repeat (case_match; [| ]); try done;
    unfold update_operation_owner, remove_operation_owner, update_whitelist_mint,
      remove_whitelist_mint in *;
    apply obind_Ok in H as (a & [_ ->]%fill_array_Ok & [= <-]);
    cbn [operation_owners whitelist_mints op_bump];
    rewrite keys_of_fill, ?keys_of_removed, ?merge_sort_Permutation; split; try done; f_equal.
  - rewrite <- keys_of_app. rewrite (keys_of_perm _ _ (merge_sort_Permutation _ _)).
    apply keys_of_hash, dedup_no_default.
  - rewrite <- keys_of_app. apply keys_of_hash, dedup_no_default.
Qed.
End HashSet.

(** The operation account is two sets of keys: an accepted update comes
    from the admin and changes the owners and the mints exactly by union or
    difference with the non-default keys given, and for the owners, which are
    stored sorted, the result does not depend on the order in which the hash
    set enumerates its elements. *)
Theorem operation_updates_are_set_updates hash1 hash2 admin signer o param keys o' :
  (forall X, hash1 X ≡ₚ elements X) -> (forall X, hash2 X ≡ₚ elements X) ->
  update_operation_account hash1 admin signer o param keys = Ok o' ->
  signer = admin /\
  (keys_of (operation_owners o'), keys_of (whitelist_mints o')) = applied o param keys /\
  (param < 2 -> update_operation_account hash2 admin signer o param keys = Ok o').
Proof.
  intros H1 H2 H. destruct (update_operation_account_applied hash1 H1 _ _ _ _ _ _ H) as (Ha & Hs & _).
  split; [done|]. split; [done|]. intros Hp. rewrite <- H.
  unfold update_operation_account, update_operation_owner.
  destruct (require_admin admin signer); [|done..]. cbn [obind].
  assert (merge_sort Z.le (hash2 (dedup_keys (operation_owners o ++ keys)))
          = merge_sort Z.le (hash1 (dedup_keys (operation_owners o ++ keys)))) as ->.
  { apply (Sorted_unique Z.le); [apply (Sorted_merge_sort Z.le)..|].
    by rewrite !merge_sort_Permutation, H1, H2. }
  destruct (Z.eqb_spec param 0); [done|]. destruct (Z.eqb_spec param 1); [done|].
  destruct (Z.eqb_spec param 2); [lia|]. destruct (Z.eqb_spec param 3); [lia|done].
Qed.

Lemma operation_updates_are_set_updates_witness :
  7 = 7 /\
  (keys_of [3; 5; 0; 0; 0; 0; 0; 0; 0; 0], keys_of (replicate 100 0))
    = applied (operation_initialize 1) 0 [5; 3; 5; 0] /\
  (0 < 2 -> update_operation_account elements 7 7 (operation_initialize 1) 0 [5; 3; 5; 0]
    = Ok (mkOperationState 1 [3; 5; 0; 0; 0; 0; 0; 0; 0; 0] (replicate 100 0))).
Proof.
  apply (operation_updates_are_set_updates elements elements 7 7 (operation_initialize 1) 0 [5; 3; 5; 0]
           (mkOperationState 1 [3; 5; 0; 0; 0; 0; 0; 0; 0; 0] (replicate 100 0))).
  - done.
  - done.
  - vm_compute. reflexivity.
Defined.
