(* ===== verification/Token.v ===== *)
(** Token transfers and Token-2022 transfer fees ([util/token.rs]).

    The token programs are not code of the repository: a mint is what the
    program asks of it — whether it belongs to the classic token program, and
    the transfer-fee extension at the current epoch, whose fee functions are
    parameters — and a transfer the program requests by a cross-program call is
    recorded as a value.  A failed call aborts the transaction. *)
From S2P Require Import Prelude.
From S2P Require Import AmmError.
From S2P Require Import Config.

(** The extension [TransferFeeConfig] of the [spl-token-2022] crate at the
    current epoch. *)
Record TransferFeeConfig := mkTransferFeeConfig {
  transfer_fee_basis_points : Z;
  maximum_fee : Z;
  calculate_epoch_fee : Z -> option Z;
  calculate_inverse_epoch_fee : Z -> option Z;
}.

(** A mint account: its key, whether [Token::id()] owns it, the extension. *)
Record Mint := mkMint {
  mint_key : Pubkey;
  mint_is_classic : bool;
  mint_fee_config : option TransferFeeConfig;
}.

(** The crate's constant [MAX_FEE_BASIS_POINTS]. *)
Class TokenLib := { MAX_FEE_BASIS_POINTS : Z }.

Definition get_transfer_fee (m : Mint) (pre_fee_amount : Z) : Result Z :=
  if mint_is_classic m then Ok 0
  else
    match mint_fee_config m with
    | Some c => ok_or (calculate_epoch_fee c pre_fee_amount) CalculateOverflow
    | None => Ok 0
    end.

Definition get_transfer_inverse_fee {T : TokenLib} (m : Mint) (post_fee_amount : Z) : Result Z :=
  if mint_is_classic m then Ok 0
  else
    match mint_fee_config m with
    | Some c =>
        if transfer_fee_basis_points c =? MAX_FEE_BASIS_POINTS then Ok (maximum_fee c)
        else
          let! transfer_fee := ok_or (calculate_inverse_epoch_fee c post_fee_amount) CalculateOverflow in
          let! total := ok_or (ucheck 64 (post_fee_amount + transfer_fee)) CalculateOverflow in
          let! transfer_fee_for_check := ok_or (calculate_epoch_fee c total) CalculateOverflow in
          if negb (transfer_fee =? transfer_fee_for_check) then err TransferFeeCalculateNotMatch
          else Ok transfer_fee
    | None => Ok 0
    end.

(** A requested transfer, from one token account to another. *)
Record Transfer := mkTransfer { tr_from : Pubkey; tr_to : Pubkey; tr_amount : Z }.

(** [transfer_from_user_to_pool_vault] and [transfer_from_pool_vault_to_user]:
    which token program is called depends on the accounts, the movement does
    not; nothing is called for an amount of zero. *)
Definition transfer_nonzero (from to : Pubkey) (amount : Z) : list Transfer :=
  if amount =? 0 then [] else [mkTransfer from to amount].
Definition transfer_from_user_to_pool_vault := transfer_nonzero.
Definition transfer_from_pool_vault_to_user := transfer_nonzero.

(** What an account receives and pays in a list of transfers. *)
Definition moved_to (k : Pubkey) (l : list Transfer) : Z :=
  foldr (fun t acc => (if tr_to t =? k then tr_amount t else 0) + acc) 0 l.
Definition moved_from (k : Pubkey) (l : list Transfer) : Z :=
  foldr (fun t acc => (if tr_from t =? k then tr_amount t else 0) + acc) 0 l.

Lemma moved_to_app k l l' : moved_to k (l ++ l') = moved_to k l + moved_to k l'.
Proof. induction l as [|t l IH]; [done|]. cbn [app moved_to foldr] in *. unfold moved_to in *. lia. Qed.

Lemma moved_from_app k l l' : moved_from k (l ++ l') = moved_from k l + moved_from k l'.
Proof. induction l as [|t l IH]; [done|]. cbn [app moved_from foldr] in *. unfold moved_from in *. lia. Qed.

Lemma moved_from_nonzero k a b x :
  moved_from k (transfer_nonzero a b x) = if a =? k then x else 0.
Proof.
  unfold transfer_nonzero. destruct (Z.eqb_spec x 0) as [->|]; simpl; destruct (a =? k); lia.
Qed.

Lemma moved_to_nonzero k a b x :
  moved_to k (transfer_nonzero a b x) = if b =? k then x else 0.
Proof.
  unfold transfer_nonzero. destruct (Z.eqb_spec x 0) as [->|]; simpl; destruct (b =? k); lia.
Qed.

(** The documented range of the fee functions. *)
Record fee_config_ok (c : TransferFeeConfig) : Prop := {
  fc_max : in_u 64 (maximum_fee c);
  fc_fee a f : in_u 64 a -> calculate_epoch_fee c a = Some f -> 0 <= f <= a;
  fc_inverse a f : in_u 64 a -> calculate_inverse_epoch_fee c a = Some f -> in_u 64 f;
}.

Definition mint_ok (m : Mint) : Prop :=
  match mint_fee_config m with Some c => fee_config_ok c | None => True end.

Lemma get_transfer_fee_Ok m a f :
  mint_ok m -> in_u 64 a -> get_transfer_fee m a = Ok f -> 0 <= f <= a.
Proof.
  intros Hm Ha. unfold get_transfer_fee, mint_ok in *.
  destruct (mint_is_classic m); [intros [= <-]; destruct Ha; lia|].
  destruct (mint_fee_config m) as [c|]; [|intros [= <-]; destruct Ha; lia].
  intros H%ok_or_Ok. by eapply fc_fee.
Qed.

Lemma get_transfer_inverse_fee_Ok {T : TokenLib} m a f :
  mint_ok m -> in_u 64 a -> get_transfer_inverse_fee m a = Ok f -> in_u 64 f.
Proof.
  intros Hm Ha. unfold get_transfer_inverse_fee, mint_ok in *.
  destruct (mint_is_classic m); [by intros [= <-]|].
  destruct (mint_fee_config m) as [c|]; [|by intros [= <-]].
  destruct (_ =? MAX_FEE_BASIS_POINTS); [intros [= <-]; apply Hm|].
  intros (x & Hx%ok_or_Ok & H)%obind_Ok.
  apply obind_Ok in H as (y & Hy & H). apply obind_Ok in H as (z & Hz & H).
  destruct (x =? z); [|done]. injection H as <-. by eapply fc_inverse.
Qed.
