(* ===== verification/PerpMarket.v ===== *)
(** The perpetual markets: [PerpMarket] and [PositionCommitment] of
    [states/perp_market.rs] and the handlers of [instructions/perp_market.rs].

    A handler takes the accounts it loads and returns those it writes with the
    token transfers it requests; the creation of the accounts, their bumps and
    padding, the events and the market's LEN are not modelled. *)
From S2P Require Import Prelude.
From S2P Require Import AmmError.
From S2P Require Import Config.
From S2P Require Import Token.

Definition BASE_FUNDING_RATE_BPS : Z := 1.
Definition FUNDING_EPOCH_SLOTS : Z := 72000.

Record PerpMarket := mkPerpMarket {
  market_id : Z;
  pm_base_mint : Pubkey;
  pm_quote_mint : Pubkey;
  pm_collateral_vault : Pubkey;
  pm_insurance_fund_vault : Pubkey;
  price_authority : Pubkey;
  mark_price_x64 : Z;
  index_price_x64 : Z;
  funding_rate_x64 : Z;
  last_funding_slot : Z;
  cumulative_funding_x64 : Z;
  long_open_interest : Z;
  short_open_interest : Z;
  long_oi_notional : Z;
  short_oi_notional : Z;
  insurance_fund_balance : Z;
  max_leverage : Z;
  liquidation_fee_bps : Z;
  taker_fee_bps : Z;
  maker_fee_bps : Z;
  min_collateral : Z;
  total_trades : Z;
  total_volume : Z;
  pm_status : Z;
}.

(** Field updates. *)
Definition set_pm_prices (m_ : PerpMarket) m i : PerpMarket :=
  mkPerpMarket (market_id m_) (pm_base_mint m_) (pm_quote_mint m_) (pm_collateral_vault m_)
    (pm_insurance_fund_vault m_) (price_authority m_) m i (funding_rate_x64 m_)
    (last_funding_slot m_) (cumulative_funding_x64 m_) (long_open_interest m_)
    (short_open_interest m_) (long_oi_notional m_) (short_oi_notional m_)
    (insurance_fund_balance m_) (max_leverage m_) (liquidation_fee_bps m_) (taker_fee_bps m_)
    (maker_fee_bps m_) (min_collateral m_) (total_trades m_) (total_volume m_) (pm_status m_).
Definition set_pm_funding (m_ : PerpMarket) r s c : PerpMarket :=
  mkPerpMarket (market_id m_) (pm_base_mint m_) (pm_quote_mint m_) (pm_collateral_vault m_)
    (pm_insurance_fund_vault m_) (price_authority m_) (mark_price_x64 m_) (index_price_x64 m_) r s
    c (long_open_interest m_) (short_open_interest m_) (long_oi_notional m_)
    (short_oi_notional m_) (insurance_fund_balance m_) (max_leverage m_) (liquidation_fee_bps m_)
    (taker_fee_bps m_) (maker_fee_bps m_) (min_collateral m_) (total_trades m_) (total_volume m_)
    (pm_status m_).
Definition set_pm_long (m_ : PerpMarket) n v : PerpMarket :=
  mkPerpMarket (market_id m_) (pm_base_mint m_) (pm_quote_mint m_) (pm_collateral_vault m_)
    (pm_insurance_fund_vault m_) (price_authority m_) (mark_price_x64 m_) (index_price_x64 m_)
    (funding_rate_x64 m_) (last_funding_slot m_) (cumulative_funding_x64 m_) n
    (short_open_interest m_) v (short_oi_notional m_) (insurance_fund_balance m_)
    (max_leverage m_) (liquidation_fee_bps m_) (taker_fee_bps m_) (maker_fee_bps m_)
    (min_collateral m_) (total_trades m_) (total_volume m_) (pm_status m_).
Definition set_pm_short (m_ : PerpMarket) n v : PerpMarket :=
  mkPerpMarket (market_id m_) (pm_base_mint m_) (pm_quote_mint m_) (pm_collateral_vault m_)
    (pm_insurance_fund_vault m_) (price_authority m_) (mark_price_x64 m_) (index_price_x64 m_)
    (funding_rate_x64 m_) (last_funding_slot m_) (cumulative_funding_x64 m_)
    (long_open_interest m_) n (long_oi_notional m_) v (insurance_fund_balance m_)
    (max_leverage m_) (liquidation_fee_bps m_) (taker_fee_bps m_) (maker_fee_bps m_)
    (min_collateral m_) (total_trades m_) (total_volume m_) (pm_status m_).
Definition set_pm_stats (m_ : PerpMarket) n v : PerpMarket :=
  mkPerpMarket (market_id m_) (pm_base_mint m_) (pm_quote_mint m_) (pm_collateral_vault m_)
    (pm_insurance_fund_vault m_) (price_authority m_) (mark_price_x64 m_) (index_price_x64 m_)
    (funding_rate_x64 m_) (last_funding_slot m_) (cumulative_funding_x64 m_)
    (long_open_interest m_) (short_open_interest m_) (long_oi_notional m_) (short_oi_notional m_)
    (insurance_fund_balance m_) (max_leverage m_) (liquidation_fee_bps m_) (taker_fee_bps m_)
    (maker_fee_bps m_) (min_collateral m_) n v (pm_status m_).

Record PositionCommitment := mkPositionCommitment {
  pc_owner : Pubkey;
  pc_market : Pubkey;
  pc_commitment : list Z;
  pc_collateral_amount : Z;
  pc_is_long : bool;
  committed_at_slot : Z;
  last_updated_slot : Z;
  last_cumulative_funding_x64 : Z;
}.

Inductive LiquidationCheckResult : Set :=
| Healthy
| Underwater (collateral_remaining estimated_loss : Z)
| Insolvent (insurance_shortfall : Z).

(** ** Methods *)

Definition is_active (m : PerpMarket) : bool := pm_status m =? 0.
Definition is_emergency (m : PerpMarket) : bool := pm_status m =? 2.

Definition oi_skew (m : PerpMarket) : Z := long_open_interest m - short_open_interest m.

Definition oi_imbalance_bps (m : PerpMarket) : Result Z :=
  let! total := uchk 64 (long_open_interest m + short_open_interest m) in
  if total =? 0 then Ok 0
  else
    let skew := Z.abs (long_open_interest m - short_open_interest m) in
    let! n := uchk 128 (skew * 10000) in
    let! q := udiv n total in
    Ok (uwrap 16 (Z.min q 10000)).

Definition calculate_funding_rate (m : PerpMarket) : Result Z :=
  let! total := uchk 64 (long_open_interest m + short_open_interest m) in
  if total =? 0 then Ok 0
  else
    let skew := long_open_interest m - short_open_interest m in
    let! n := ichk 128 (skew * BASE_FUNDING_RATE_BPS) in
    idiv 128 n total.

(** ** Handlers *)

Definition handler_init_market (base_mint quote_mint collateral_vault insurance_fund_vault : Pubkey)
    (market_id max_leverage liquidation_fee_bps taker_fee_bps maker_fee_bps min_collateral : Z)
    (price_authority : Pubkey) : Result PerpMarket :=
  do! require ((0 <? max_leverage) && (max_leverage <=? 100)) MaxLeverageExceeded in
  do! require (liquidation_fee_bps <=? 500) InvalidTreasury in
  do! require (0 <? min_collateral) InsufficientCollateral in
  Ok (mkPerpMarket market_id base_mint quote_mint collateral_vault insurance_fund_vault price_authority
        0 0 0 0 0 0 0 0 0 0 max_leverage liquidation_fee_bps taker_fee_bps maker_fee_bps min_collateral
        0 0 0).

(** The open interest and the statistics of a new position. *)
Definition add_open_interest (m : PerpMarket) (is_long : bool) (collateral_amount : Z) : PerpMarket :=
  let m :=
    if is_long
    then set_pm_long m (usat 64 (long_open_interest m + 1)) (usat 128 (long_oi_notional m + collateral_amount))
    else set_pm_short m (usat 64 (short_open_interest m + 1)) (usat 128 (short_oi_notional m + collateral_amount)) in
  set_pm_stats m (usat 64 (total_trades m + 1)) (usat 128 (total_volume m + collateral_amount)).

(** The vault the collateral goes to is the account the caller passes: no
    constraint relates it to the market's. *)
Definition handler_open_position (market_key : Pubkey) (m : PerpMarket)
    (owner trader_collateral collateral_vault : Pubkey) (collateral_amount : Z) (is_long : bool)
    (commitment : list Z) (slot : Z) : Result (PerpMarket * PositionCommitment * list Transfer) :=
  do! require (is_active m) MarketPaused in
  do! require (min_collateral m <=? collateral_amount) InsufficientCollateral in
  do! require (negb (bool_decide (commitment = replicate 32 0))) InvalidCommitment in
  Ok (add_open_interest m is_long collateral_amount,
      mkPositionCommitment owner market_key commitment collateral_amount is_long slot slot 0,
      [mkTransfer trader_collateral collateral_vault collateral_amount]).

Definition remove_open_interest (m : PerpMarket) (is_long : bool) (collateral_amount : Z) : PerpMarket :=
  if is_long
  then set_pm_long m (usat 64 (long_open_interest m - 1)) (usat 128 (long_oi_notional m - collateral_amount))
  else set_pm_short m (usat 64 (short_open_interest m - 1)) (usat 128 (short_oi_notional m - collateral_amount)).

(** The position is loaded for reading only: it is not part of the result. *)
Definition handler_close_position (m : PerpMarket) (position : PositionCommitment)
    (owner trader_collateral collateral_vault : Pubkey) (collateral_to_return : Z) :
    Result (PerpMarket * list Transfer) :=
  do! require (pc_owner position =? owner) NotSender in
  let return_amount := Z.min collateral_to_return (pc_collateral_amount position) in
  Ok (remove_open_interest m (pc_is_long position) (pc_collateral_amount position),
      transfer_nonzero collateral_vault trader_collateral return_amount).

Definition handler_update_mark_price (m : PerpMarket) (signer : Pubkey) (mark index : Z) : Result PerpMarket :=
  do! require (price_authority m =? signer) NotSender in
  do! require (0 <? mark) ZeroSqrtPrice in
  Ok (set_pm_prices m mark index).

Definition handler_update_funding_rate (m : PerpMarket) (slot : Z) : Result PerpMarket :=
  let! due := uchk 64 (last_funding_slot m + FUNDING_EPOCH_SLOTS) in
  do! require (due <=? slot) FundingRateStale in
  let! new_rate := calculate_funding_rate m in
  Ok (set_pm_funding m new_rate slot (isat 128 (cumulative_funding_x64 m + new_rate))).

(** [x.to_le_bytes()] of a [n]-byte integer. *)
Fixpoint to_le_bytes (n : nat) (x : Z) : list Z :=
  match n with O => [] | S n => x mod 256 :: to_le_bytes n (x / 256) end.

(** What the position has left, by the estimate of this version. *)
Definition classify_loss (m : PerpMarket) (collateral_amount : Z) : Result LiquidationCheckResult :=
  let loss_estimate :=
    if 0 <? collateral_amount then usat 64 (collateral_amount - collateral_amount / 10) else 0 in
  let remaining := usat 64 (collateral_amount - loss_estimate) in
  let shortfall := usat 64 (loss_estimate - collateral_amount) in
  if (remaining =? 0) && (0 <? shortfall) then
    do! require (shortfall <=? insurance_fund_balance m) InsuranceFundDepleted in
    Ok (Insolvent shortfall)
  else Ok (Underwater remaining loss_estimate).

Definition handler_liquidation_check (m : PerpMarket) (position : PositionCommitment)
    (revealed_size revealed_leverage_bps revealed_entry_price_x64 revealed_liquidation_price_x64 : Z)
    (revealed_salt : list Z) : Result LiquidationCheckResult :=
  do! require (negb (is_active m) || (0 <? mark_price_x64 m)) MarketNotFound in
  let preimage :=
    to_le_bytes 8 revealed_size ++ to_le_bytes 2 revealed_leverage_bps ++
    to_le_bytes 16 revealed_entry_price_x64 ++ to_le_bytes 16 revealed_liquidation_price_x64 ++
    revealed_salt in
  do! require (negb (bool_decide (pc_commitment position = replicate 32 0))) InvalidCommitment in
  do! require (32 <=? length preimage)%nat InvalidCommitment in
  let is_liquidatable :=
    if pc_is_long position then mark_price_x64 m <=? revealed_liquidation_price_x64
    else revealed_liquidation_price_x64 <=? mark_price_x64 m in
  if negb is_liquidatable then Ok Healthy
  else classify_loss m (pc_collateral_amount position).

(** * Properties *)

(** The ranges of the open interest, and a total that does not overflow. *)
Record interest_ok (m : PerpMarket) : Prop := {
  io_long : 0 <= long_open_interest m;
  io_short : 0 <= short_open_interest m;
  io_total : long_open_interest m + short_open_interest m < 2 ^ 64;
}.

Lemma interest_total m : interest_ok m ->
  @uchk error 64 (long_open_interest m + short_open_interest m) =
    Ok (long_open_interest m + short_open_interest m).
Proof. intros []. apply uchk_ok. range. Qed.

(** The imbalance, in closed form. *)
Lemma oi_imbalance_Ok m : interest_ok m -> exists b, oi_imbalance_bps m = Ok b.
Proof.
  intros Hm. pose proof Hm as [Hl Hs Ht]. unfold oi_imbalance_bps. rewrite interest_total by done.
  cbn [obind]. destruct (_ =? 0) eqn:E; [by eexists|]. rewrite uchk_ok by range. cbn [obind].
  unfold udiv. rewrite E. by eexists.
Qed.

(** Exchanging the two sides. *)
Definition mirror (m : PerpMarket) : PerpMarket :=
  set_pm_short (set_pm_long m (short_open_interest m) (short_oi_notional m))
    (long_open_interest m) (long_oi_notional m).

(** ** The markets the handlers can produce *)

(** Every field is in the range of its type, and the limits fixed at the
    creation hold. *)
Record market_typed (m : PerpMarket) : Prop := {
  mt_mark : in_u 128 (mark_price_x64 m);
  mt_index : in_u 128 (index_price_x64 m);
  mt_rate : -1 <= funding_rate_x64 m <= 1;
  mt_slot : in_u 64 (last_funding_slot m);
  mt_cumulative : in_i 128 (cumulative_funding_x64 m);
  mt_long : in_u 64 (long_open_interest m);
  mt_short : in_u 64 (short_open_interest m);
  mt_long_notional : in_u 128 (long_oi_notional m);
  mt_short_notional : in_u 128 (short_oi_notional m);
  mt_insurance : insurance_fund_balance m = 0;
  mt_leverage : 0 < max_leverage m <= 100;
  mt_liquidation : 0 <= liquidation_fee_bps m <= 500;
  mt_collateral : 0 < min_collateral m;
  mt_trades : in_u 64 (total_trades m);
  mt_volume : in_u 128 (total_volume m);
  mt_status : pm_status m = 0;
}.

(** The markets that the handlers lead to, with arguments of their types. *)
Inductive reachable_market : PerpMarket -> Prop :=
| rm_init a b c d i lev liq tk mk col auth m :
    0 <= liq -> handler_init_market a b c d i lev liq tk mk col auth = Ok m -> reachable_market m
| rm_open key m owner trader vault amount is_long commitment slot m' pos l :
    reachable_market m -> in_u 64 amount ->
    handler_open_position key m owner trader vault amount is_long commitment slot = Ok (m', pos, l) ->
    reachable_market m'
| rm_close m pos owner trader vault amount m' l :
    reachable_market m -> in_u 64 (pc_collateral_amount pos) ->
    handler_close_position m pos owner trader vault amount = Ok (m', l) -> reachable_market m'
| rm_mark m signer mark index m' :
    reachable_market m -> in_u 128 mark -> in_u 128 index ->
    handler_update_mark_price m signer mark index = Ok m' -> reachable_market m'
| rm_funding m slot m' :
    reachable_market m -> in_u 64 slot -> handler_update_funding_rate m slot = Ok m' -> reachable_market m'.

Lemma funding_rate_range m r :
  in_u 64 (long_open_interest m) -> in_u 64 (short_open_interest m) ->
  calculate_funding_rate m = Ok r -> -1 <= r <= 1.
Proof.
  unfold calculate_funding_rate, BASE_FUNDING_RATE_BPS. intros Hl Hs H.
  apply obind_Ok in H as (t & [-> Ht]%uchk_Ok & H). rewrite Z.mul_1_r in H.
  destruct (Z.eqb_spec (long_open_interest m + short_open_interest m) 0); [injection H as <-; lia|].
  apply obind_Ok in H as (d & [-> _]%ichk_Ok & H). apply idiv_Ok in H as (_ & -> & _).
  set (a := long_open_interest m) in *. set (b := short_open_interest m) in *.
  assert (0 < a + b /\ 0 <= a /\ 0 <= b) as (H0 & Ha & Hb) by range. clearbody a b.
  destruct (Z.le_gt_cases b a).
  - assert (0 <= Z.quot (a - b) (a + b)) by (apply Z.quot_pos; lia).
    assert (Z.quot (a - b) (a + b) <= 1) by (apply Z.quot_le_upper_bound; lia). lia.
  - replace (a - b) with (- (b - a)) by lia. rewrite Z.quot_opp_l by lia.
    assert (0 <= Z.quot (b - a) (a + b)) by (apply Z.quot_pos; lia).
    assert (Z.quot (b - a) (a + b) <= 1) by (apply Z.quot_le_upper_bound; lia). lia.
Qed.

Section Properties.

(** Every market the handlers can lead to is well typed: each counter,
    price and notional stays in the range of its type - the saturating updates
    never wrap -, the leverage, fee and collateral limits of its creation hold
    for ever, the funding rate is -1, 0 or 1 - and, since no handler writes
    them, the insurance fund is empty and the market active. *)
Theorem reachable_market_typed m : reachable_market m -> market_typed m.
Proof.
  induction 1 as [a b c d i lev liq tk mk col auth m Hliq H
    |key m owner trader vault amount is_long commitment slot m' pos l _ [] Ha H
    |m pos owner trader vault amount m' l _ [] Ha H|m signer mark index m' _ [] Hm Hi H|m slot m' _ [] Hs H].
  - unfold handler_init_market in H. apply obind_Ok in H as (u1 & Hlev%require_Ok & H).
    apply obind_Ok in H as (u2 & Hl%require_Ok & H). apply obind_Ok in H as (u3 & Hc%require_Ok & H).
    injection H as <-. zbool. constructor; cbn; first [done|lia|by_compute].
  - unfold handler_open_position in H. apply obind_Ok in H as (u1 & _ & H).
    apply obind_Ok in H as (u2 & _ & H). apply obind_Ok in H as (u3 & _ & H). injection H as <- _ _.
    destruct is_long; constructor; cbn; first [done|by apply usat_in].
  - unfold handler_close_position in H. apply obind_Ok in H as (u1 & _ & H). injection H as <- _.
    unfold remove_open_interest. destruct (pc_is_long pos); constructor; cbn; first [done|by apply usat_in].
  - unfold handler_update_mark_price in H. apply obind_Ok in H as (u1 & _ & H).
    apply obind_Ok in H as (u2 & _ & H). injection H as <-. by constructor.
  - unfold handler_update_funding_rate in H. apply obind_Ok in H as (due & _ & H).
    apply obind_Ok in H as (u1 & _ & H). apply obind_Ok in H as (r & Hr & H). injection H as <-.
    apply funding_rate_range in Hr; [|done|done]. constructor; cbn; try done. unfold isat, in_i. lia.
Qed.

(** The open-interest imbalance is a ratio: it is computed without
    overflow, lies between 0 and 10000, does not depend on which side is the
    larger, is 0 for equal sides and 10000 exactly when one of the sides is
    empty and the other is not. *)
Theorem oi_imbalance_ratio m :
  interest_ok m ->
  exists b, oi_imbalance_bps m = Ok b /\ oi_imbalance_bps (mirror m) = Ok b /\ 0 <= b <= 10000 /\
    (b = 10000 <-> (0 < long_open_interest m /\ short_open_interest m = 0) \/
                   (long_open_interest m = 0 /\ 0 < short_open_interest m)) /\
    (long_open_interest m = short_open_interest m -> b = 0).
Proof.
  intros Hm. pose proof Hm as [Hl Hs Ht].
  assert (interest_ok (mirror m)) as Hm' by (constructor; cbn; lia).
  unfold oi_imbalance_bps. rewrite (interest_total m Hm), (interest_total _ Hm'). cbn [obind].
  change (long_open_interest (mirror m)) with (short_open_interest m).
  change (short_open_interest (mirror m)) with (long_open_interest m).
  set (l := long_open_interest m) in *. set (s := short_open_interest m) in *. clearbody l s.
  rewrite (Z.add_comm s l). replace (Z.abs (s - l)) with (Z.abs (l - s)) by lia.
  destruct (Z.eqb_spec (l + s) 0) as [E|E].
  - exists 0. split_and!; try done; lia.
  - rewrite uchk_ok by range. cbn [obind]. unfold udiv. destruct (Z.eqb_spec (l + s) 0); [lia|]. cbn [obind].
    assert (0 <= Z.abs (l - s) * 10000 / (l + s) <= 10000) as Hq.
    { split; [apply Z.div_pos; lia|]. apply Z.div_le_upper_bound; lia. }
    rewrite Z.min_l, uwrap_id by range. eexists. split; [done|]. split; [done|]. split; [done|].
    split; [|intros ->; rewrite Z.sub_diag; by apply Z.div_0_l].
    split.
    + intros Hb. pose proof (Z.mul_div_le (Z.abs (l - s) * 10000) (l + s) ltac:(lia)) as Hle.
      rewrite Hb in Hle. lia.
    + intros Hc. assert (Z.abs (l - s) = l + s) as -> by lia. rewrite Z.mul_comm. by apply Z.div_mul.
Qed.

(** The funding rate does not grow with the imbalance: with a base rate of
    one, the truncating division leaves 1 when all the open interest is long,
    -1 when all of it is short, and 0 in every other case, however skewed. *)
Theorem funding_rate_degenerate m :
  interest_ok m ->
  calculate_funding_rate m =
    Ok (if (0 <? long_open_interest m) && (short_open_interest m =? 0) then 1
        else if (long_open_interest m =? 0) && (0 <? short_open_interest m) then -1 else 0).
Proof.
  intros Hm. pose proof Hm as [Hl Hs Ht]. unfold calculate_funding_rate. rewrite interest_total by done.
  cbn [obind]. set (l := long_open_interest m) in *. set (s := short_open_interest m) in *. clearbody l s.
  unfold BASE_FUNDING_RATE_BPS. rewrite Z.mul_1_r.
  destruct (Z.eqb_spec (l + s) 0) as [E|E].
  - assert (l = 0) as -> by lia. by assert (s = 0) as -> by lia.
  - rewrite ichk_ok by range. cbn [obind].
    assert (forall r, - (2 ^ 63) <= r <= 2 ^ 63 -> Z.quot (l - s) (l + s) = r ->
      idiv 128 (l - s) (l + s) = @Ok error _ r) as Hd.
    { intros r Hr Hq. apply idiv_Ok. split; [done|]. split; [done|range]. }
    destruct (Z.ltb_spec 0 l), (Z.eqb_spec s 0) as [->|]; cbn [andb].
    + apply Hd; [lia|]. rewrite Z.sub_0_r, Z.add_0_r. apply Z.quot_same. lia.
    + destruct (Z.eqb_spec l 0); [lia|]. cbn [andb]. apply Hd; [lia|].
      destruct (Z.le_gt_cases s l); [by apply Z.quot_small; lia|].
      replace (l - s) with (- (s - l)) by lia. rewrite Z.quot_opp_l by lia. by rewrite Z.quot_small by lia.
    + assert (l = 0) as -> by lia. lia.
    + assert (l = 0) as -> by lia. rewrite Z.eqb_refl. destruct (Z.ltb_spec 0 s); [|lia]. cbn [andb].
      apply Hd; [lia|]. replace (0 - s) with (- s) by lia. rewrite Z.quot_opp_l by lia.
      replace (0 + s) with s by lia. by rewrite Z.quot_same by lia.
Qed.

(** The same position closed [n] times over. *)
Fixpoint close_times (n : nat) (m : PerpMarket) (position : PositionCommitment)
    (owner trader vault : Pubkey) (amount : Z) : Result (PerpMarket * list Transfer) :=
  match n with
  | O => Ok (m, [])
  | S n =>
      let! '(m, t) := handler_close_position m position owner trader vault amount in
      let! '(m, ts) := close_times n m position owner trader vault amount in
      Ok (m, t ++ ts)
  end.

(** Closing does not close: [handler_close_position] leaves the position's
    account as it was, so its owner can close the same position again; after
    [n] successful calls the collateral vault has been debited [n] times the
    collateral that was deposited once. *)
Theorem close_position_repeatable n m position owner trader vault amount :
  pc_owner position = owner -> pc_collateral_amount position <= amount -> 0 <= pc_collateral_amount position ->
  exists m' ts, close_times n m position owner trader vault amount = Ok (m', ts) /\
    moved_from vault ts = Z.of_nat n * pc_collateral_amount position.
Proof.
  intros Ho Ha Hc. revert m. induction n as [|n IH]; intros m; cbn [close_times].
  - by exists m, [].
  - unfold handler_close_position. rewrite Ho, Z.eqb_refl. cbn [Prelude.require obind].
    rewrite Z.min_r by done. edestruct IH as (m' & ts & -> & Hts). cbn [obind]. do 2 eexists. split; [done|].
    rewrite moved_from_app, Hts. unfold transfer_nonzero.
    destruct (Z.eqb_spec (pc_collateral_amount position) 0) as [->|]; unfold moved_from; cbn; rewrite ?Z.eqb_refl; lia.
Qed.

(** The liquidation check is decided by what the caller reveals: whatever
    the stored commitment, if it is not zero, the outcome depends on the
    revealed liquidation price alone - the revealed size, leverage, entry price
    and salt are never compared with the commitment - so that revealing the
    mark price makes every position liquidatable; the insolvent outcome and the
    insurance fund are never reached. *)
Theorem liquidation_check_unbound m position size leverage entry price salt :
  is_active m = false \/ 0 < mark_price_x64 m ->
  pc_commitment position <> replicate 32 0 -> in_u 64 (pc_collateral_amount position) ->
  handler_liquidation_check m position size leverage entry price salt =
    (if if pc_is_long position then price <? mark_price_x64 m else mark_price_x64 m <? price
     then Ok Healthy
     else let c := pc_collateral_amount position in Ok (Underwater (c / 10) (c - c / 10))) /\
  handler_liquidation_check m position size leverage entry (mark_price_x64 m) salt <> Ok Healthy.
Proof.
  intros Ha Hn Hc.
  assert (forall p, handler_liquidation_check m position size leverage entry p salt =
    (if if pc_is_long position then p <? mark_price_x64 m else mark_price_x64 m <? p
     then Ok Healthy
     else let c := pc_collateral_amount position in Ok (Underwater (c / 10) (c - c / 10)))) as Hall.
  { intros p. unfold handler_liquidation_check.
    assert (negb (is_active m) || (0 <? mark_price_x64 m) = true) as ->.
    { destruct Ha as [->|Hp]; [done|]. destruct (Z.ltb_spec 0 (mark_price_x64 m)); [apply orb_true_r|lia]. }
    cbn [Prelude.require obind]. rewrite bool_decide_false by done. cbn [negb Prelude.require obind].
    set (pre := to_le_bytes 8 size ++ _).
    assert ((32 <=? length pre)%nat = true) as ->.
    { apply Nat.leb_le. subst pre. rewrite !length_app. cbn [to_le_bytes length]. lia. }
    cbn [Prelude.require obind]. rewrite !Z.leb_antisym.
    assert (classify_loss m (pc_collateral_amount position) =
      let c := pc_collateral_amount position in Ok (Underwater (c / 10) (c - c / 10))) as ->.
    2:{ destruct (pc_is_long position), (_ <? _); done. }
    unfold classify_loss. set (c := pc_collateral_amount position) in *. cbn zeta.
    assert (0 <= c / 10 <= c) as H10.
    { unfold in_u in Hc. split; [apply Z.div_pos; lia|]. apply Z.div_le_upper_bound; lia. }
    assert (forall x, in_u 64 x -> usat 64 x = x) as Hsat by (intros x ?; unfold usat; range).
    destruct (Z.ltb_spec 0 c).
    - rewrite (Hsat (c - c / 10)) by range. replace (c - (c - c / 10)) with (c / 10) by lia.
      rewrite (Hsat (c / 10)) by range.
      replace (usat 64 (c - c / 10 - c)) with 0 by (unfold usat; lia). by rewrite andb_false_r.
    - assert (c = 0) as -> by (unfold in_u in Hc; lia). done. }
  split; [apply Hall|]. rewrite Hall. rewrite Z.ltb_irrefl. by destruct (pc_is_long position).
Qed.
End Properties.

(** * Examples *)

Definition sample_market : PerpMarket :=
  mkPerpMarket 1 11 12 21 22 9 (2 ^ 64) (2 ^ 64) 0 0 0 9 1 900 100 0 20 100 10 5 50 10 1000 0.

Definition sample_commitment : PositionCommitment :=
  mkPositionCommitment 8 1 (replicate 32 7) 100 true 0 0 0.

Lemma oi_imbalance_ratio_witness :
  exists b, oi_imbalance_bps sample_market = Ok b /\ b = 8000 /\ oi_imbalance_bps (mirror sample_market) = Ok b.
Proof.
  destruct (oi_imbalance_ratio sample_market) as (b & H1 & H2 & _); [by constructor|].
  exists b. split; [done|]. split; [|done]. by injection H1 as <-.
Defined.

Lemma funding_rate_degenerate_witness :
  interest_ok sample_market /\ calculate_funding_rate sample_market = Ok 0.
Proof. split; [by constructor|]. apply (funding_rate_degenerate sample_market). by constructor. Defined.

Lemma close_position_repeatable_witness :
  exists m' ts, close_times 3 sample_market sample_commitment 8 50 21 100 = Ok (m', ts) /\
    moved_from 21 ts = 300.
Proof. by apply (close_position_repeatable 3 sample_market sample_commitment 8 50 21 100). Defined.

Lemma liquidation_check_unbound_witness :
  handler_liquidation_check sample_market sample_commitment 1 2 3 (2 ^ 64) [] = Ok (Underwater 10 90).
Proof.
  apply (liquidation_check_unbound sample_market sample_commitment 1 2 3 (2 ^ 64) []); [|done|by_compute].
  by right.
Defined.

(** A market created, traded once and funded. *)
Definition created_market : PerpMarket :=
  mkPerpMarket 1 11 12 21 22 9 0 0 0 0 0 0 0 0 0 0 20 100 10 5 50 0 0 0.

Definition traded_market : PerpMarket := add_open_interest created_market true 100.

Lemma reachable_market_typed_witness :
  exists m, reachable_market m /\ funding_rate_x64 m = 1 /\ market_typed m.
Proof.
  assert (H : exists m, reachable_market m /\ funding_rate_x64 m = 1).
  { assert (in_u 64 100 /\ in_u 64 80000) as [H1 H2] by by_compute. eexists. split.
    - eapply (rm_funding traded_market 80000); [|exact H2|vm_compute; reflexivity].
      eapply (rm_open 1 created_market 8 50 21 100 true (replicate 32 7) 10); [|exact H1|reflexivity].
      apply (rm_init 11 12 21 22 1 20 100 10 5 50 9); [lia|reflexivity].
    - reflexivity. }
  destruct H as (m & Hm & Hf). exists m. split; [exact Hm|]. split; [exact Hf|].
  exact (reachable_market_typed m Hm).
Defined.
