(* ===== verification/PerpShield.v ===== *)
(** The circuit breaker of the perpetual markets: [PerpShield] of
    [states/perp_shield.rs] and the handlers of [instructions/perp_shield.rs].

    A handler returns the shield it leaves in the account; when it returns an
    error the transaction is rolled back and nothing is left.  The creation of
    the accounts, their bumps and padding, the events and the log are not
    modelled. *)
From S2P Require Import Prelude.
From S2P Require Import AmmError.
From S2P Require Import Config.
From S2P Require Import PerpMarket.

Definition CASCADE_OI_IMBALANCE_BPS : Z := 7000.
Definition CASCADE_LIQ_RATE_THRESHOLD : Z := 50.
Definition CASCADE_PRICE_VELOCITY_BPS : Z := 500.
Definition CIRCUIT_BREAKER_COOLDOWN_SLOTS : Z := 1800.

Inductive ShieldAction : Set :=
| NoAction
| Flagged
| CircuitBreakerArmed
| LiquidationAllowed
| LiquidationDeferred
| ManualReset
| AutoReset.

Record PerpShield := mkPerpShield {
  ps_market : Pubkey;
  ps_authority : Pubkey;
  circuit_breaker_active : Z;
  triggered_at_slot : Z;
  reset_at_slot : Z;
  trigger_count : Z;
  last_action : ShieldAction;
  last_oi_imbalance_bps : Z;
  liquidations_this_epoch : Z;
  epoch_start_slot : Z;
  epoch_slots : Z;
  last_mark_price_x64 : Z;
  last_price_slot : Z;
  price_velocity_bps : Z;
  oi_imbalance_threshold_bps : Z;
  liq_rate_threshold : Z;
  price_velocity_threshold_bps : Z;
  ps_initialized : Z;
}.

(** Field updates. *)
Definition set_trip (s_ : PerpShield) b t n : PerpShield :=
  mkPerpShield (ps_market s_) (ps_authority s_) b t (reset_at_slot s_) n (last_action s_)
    (last_oi_imbalance_bps s_) (liquidations_this_epoch s_) (epoch_start_slot s_) (epoch_slots s_)
    (last_mark_price_x64 s_) (last_price_slot s_) (price_velocity_bps s_)
    (oi_imbalance_threshold_bps s_) (liq_rate_threshold s_) (price_velocity_threshold_bps s_)
    (ps_initialized s_).
Definition set_reset (s_ : PerpShield) b t : PerpShield :=
  mkPerpShield (ps_market s_) (ps_authority s_) b (triggered_at_slot s_) t (trigger_count s_)
    (last_action s_) (last_oi_imbalance_bps s_) (liquidations_this_epoch s_) (epoch_start_slot s_)
    (epoch_slots s_) (last_mark_price_x64 s_) (last_price_slot s_) (price_velocity_bps s_)
    (oi_imbalance_threshold_bps s_) (liq_rate_threshold s_) (price_velocity_threshold_bps s_)
    (ps_initialized s_).
Definition set_last_action (s_ : PerpShield) (a : ShieldAction) : PerpShield :=
  mkPerpShield (ps_market s_) (ps_authority s_) (circuit_breaker_active s_) (triggered_at_slot s_)
    (reset_at_slot s_) (trigger_count s_) a (last_oi_imbalance_bps s_)
    (liquidations_this_epoch s_) (epoch_start_slot s_) (epoch_slots s_) (last_mark_price_x64 s_)
    (last_price_slot s_) (price_velocity_bps s_) (oi_imbalance_threshold_bps s_)
    (liq_rate_threshold s_) (price_velocity_threshold_bps s_) (ps_initialized s_).
Definition set_last_oi (s_ : PerpShield) v : PerpShield :=
  mkPerpShield (ps_market s_) (ps_authority s_) (circuit_breaker_active s_) (triggered_at_slot s_)
    (reset_at_slot s_) (trigger_count s_) (last_action s_) v (liquidations_this_epoch s_)
    (epoch_start_slot s_) (epoch_slots s_) (last_mark_price_x64 s_) (last_price_slot s_)
    (price_velocity_bps s_) (oi_imbalance_threshold_bps s_) (liq_rate_threshold s_)
    (price_velocity_threshold_bps s_) (ps_initialized s_).
Definition set_epoch (s_ : PerpShield) n t : PerpShield :=
  mkPerpShield (ps_market s_) (ps_authority s_) (circuit_breaker_active s_) (triggered_at_slot s_)
    (reset_at_slot s_) (trigger_count s_) (last_action s_) (last_oi_imbalance_bps s_) n t
    (epoch_slots s_) (last_mark_price_x64 s_) (last_price_slot s_) (price_velocity_bps s_)
    (oi_imbalance_threshold_bps s_) (liq_rate_threshold s_) (price_velocity_threshold_bps s_)
    (ps_initialized s_).
Definition set_price (s_ : PerpShield) p t v : PerpShield :=
  mkPerpShield (ps_market s_) (ps_authority s_) (circuit_breaker_active s_) (triggered_at_slot s_)
    (reset_at_slot s_) (trigger_count s_) (last_action s_) (last_oi_imbalance_bps s_)
    (liquidations_this_epoch s_) (epoch_start_slot s_) (epoch_slots s_) p t v
    (oi_imbalance_threshold_bps s_) (liq_rate_threshold s_) (price_velocity_threshold_bps s_)
    (ps_initialized s_).

Record CascadeAlert := mkCascadeAlert {
  al_shield : Pubkey;
  al_market : Pubkey;
  alert_index : Z;
  al_triggered_at_slot : Z;
  al_oi_imbalance_bps : Z;
  liquidations_in_epoch : Z;
  al_price_velocity_bps : Z;
  trigger_flags : Z;
}.

(** ** Methods *)

Definition is_breaker_active (s : PerpShield) : bool := circuit_breaker_active s =? 1.

Definition cooldown_elapsed (s : PerpShield) (current_slot : Z) : Result bool :=
  let! cooldown :=
    if 0 <? epoch_slots s then uchk 64 (epoch_slots s * 3) else Ok CIRCUIT_BREAKER_COOLDOWN_SLOTS in
  let! until := uchk 64 (triggered_at_slot s + cooldown) in
  Ok (until <=? current_slot).

Definition or_default (v default : Z) : Z := if v =? 0 then default else v.
Definition oi_threshold (s : PerpShield) : Z :=
  or_default (oi_imbalance_threshold_bps s) CASCADE_OI_IMBALANCE_BPS.
Definition liq_threshold (s : PerpShield) : Z := or_default (liq_rate_threshold s) CASCADE_LIQ_RATE_THRESHOLD.
Definition velocity_threshold (s : PerpShield) : Z :=
  or_default (price_velocity_threshold_bps s) CASCADE_PRICE_VELOCITY_BPS.

Definition reset_epoch (s : PerpShield) (current_slot : Z) : PerpShield := set_epoch s 0 current_slot.

Definition record_liquidation (s : PerpShield) (current_slot : Z) : Result PerpShield :=
  let epoch_len := if 0 <? epoch_slots s then epoch_slots s else 1800 in
  let! until := uchk 64 (epoch_start_slot s + epoch_len) in
  let s := if until <=? current_slot then reset_epoch s current_slot else s in
  Ok (set_epoch s (usat 16 (liquidations_this_epoch s + 1)) (epoch_start_slot s)).

(** [x.checked_div(y).unwrap_or(0)] *)
Definition div_or_zero (x y : Z) : Z := default 0 (checked_udiv x y).

Definition update_price_velocity (s : PerpShield) (new_price_x64 current_slot : Z) : PerpShield :=
  if (last_price_slot s =? 0) || (last_mark_price_x64 s =? 0) then set_price s new_price_x64 current_slot 0
  else
    let slots_elapsed := usat 64 (current_slot - last_price_slot s) in
    if slots_elapsed =? 0 then s
    else
      let old := last_mark_price_x64 s in
      let diff := if old <? new_price_x64 then new_price_x64 - old else old - new_price_x64 in
      let velocity_bps := div_or_zero (div_or_zero (usat 128 (diff * 10000)) (Z.max old 1)) slots_elapsed in
      set_price s new_price_x64 current_slot (uwrap 16 (Z.min velocity_bps (umax 16))).

Definition should_trip (s : PerpShield) (oi_imbalance_bps : Z) : bool :=
  (oi_threshold s <=? oi_imbalance_bps) || (liq_threshold s <=? liquidations_this_epoch s)
  || (velocity_threshold s <=? price_velocity_bps s).

(** ** Handlers *)

Definition initialize_shield (authority market : Pubkey)
    (epoch_slots oi_imbalance_threshold_bps liq_rate_threshold price_velocity_threshold_bps slot : Z) :
    PerpShield :=
  mkPerpShield market authority 0 0 0 0 NoAction 0 0 slot
    (if 0 <? epoch_slots then epoch_slots else 1800) 0 0 0
    oi_imbalance_threshold_bps liq_rate_threshold price_velocity_threshold_bps 1.

(** The automatic reset at the head of the guard. *)
Definition auto_reset (s : PerpShield) (oi_imbalance_bps current_slot : Z) : Result PerpShield :=
  let! elapsed := if is_breaker_active s then cooldown_elapsed s current_slot else Ok false in
  if elapsed then
    if should_trip s oi_imbalance_bps then Ok s
    else Ok (set_last_action (set_reset s 0 current_slot) AutoReset)
  else Ok s.

(** Arming the breaker. *)
Definition trip (s : PerpShield) (current_slot : Z) : PerpShield :=
  set_last_action (set_trip s 1 current_slot (usat 64 (trigger_count s + 1))) CircuitBreakerArmed.

Definition perp_shield_liquidation_guard (m : PerpMarket) (s : PerpShield) (caller : Pubkey)
    (force_liquidate : bool) (current_slot : Z) : Result (ShieldAction * PerpShield) :=
  do! require (is_active m || is_emergency m) MarketPaused in
  let! imbalance := oi_imbalance_bps m in
  do! require (ps_initialized s =? 1) ShieldNotInitialized in
  do! require ((caller =? ps_authority s) || (caller =? price_authority m)) NotApproved in
  let! s := auto_reset s imbalance current_slot in
  let s := set_last_oi s imbalance in
  let s := update_price_velocity s (mark_price_x64 m) current_slot in
  let! s := record_liquidation s current_slot in
  let s := if negb (is_breaker_active s) && should_trip s imbalance then trip s current_slot else s in
  if is_breaker_active s && negb force_liquidate then err CircuitBreakerActive
  else Ok (LiquidationAllowed, set_last_action s LiquidationAllowed).

Definition trigger_circuit_breaker (m : PerpMarket) (market_key shield_key : Pubkey) (s : PerpShield)
    (authority : Pubkey) (reason_flags alert_index slot : Z) : Result (PerpShield * CascadeAlert) :=
  do! require (ps_authority s =? authority) NotApproved in
  let! imbalance := oi_imbalance_bps m in
  do! require (ps_initialized s =? 1) ShieldNotInitialized in
  let s := trip s slot in
  do! require (alert_index =? trigger_count s) NotApproved in
  Ok (s, mkCascadeAlert shield_key market_key (trigger_count s) slot imbalance (liquidations_this_epoch s)
           (price_velocity_bps s) reason_flags).

Definition reset_circuit_breaker (s : PerpShield) (authority : Pubkey) (force_reset : bool) (slot : Z) :
    Result PerpShield :=
  do! require (ps_authority s =? authority) NotApproved in
  do! require (ps_initialized s =? 1) ShieldNotInitialized in
  if negb (is_breaker_active s) then Ok s
  else
    do! if force_reset then Ok tt
        else (let! elapsed := cooldown_elapsed s slot in require elapsed CircuitBreakerActive) in
    Ok (reset_epoch (set_last_action (set_reset s 0 slot) ManualReset) slot).

(** * Properties *)

Lemma update_price_velocity_frame s p t :
  circuit_breaker_active (update_price_velocity s p t) = circuit_breaker_active s /\
  trigger_count (update_price_velocity s p t) = trigger_count s /\
  triggered_at_slot (update_price_velocity s p t) = triggered_at_slot s.
Proof. unfold update_price_velocity. by repeat case_match. Qed.

Lemma record_liquidation_frame s t s' :
  record_liquidation s t = Ok s' ->
  circuit_breaker_active s' = circuit_breaker_active s /\ trigger_count s' = trigger_count s /\
  triggered_at_slot s' = triggered_at_slot s.
Proof.
  unfold record_liquidation. cbn zeta. intros (u & _ & H)%obind_Ok. injection H as <-. by destruct (_ <=? _).
Qed.

(** The automatic reset is the only thing the guard can do to an armed
    breaker. *)
Lemma auto_reset_Ok s imb t s1 :
  auto_reset s imb t = Ok s1 ->
  trigger_count s1 = trigger_count s /\ triggered_at_slot s1 = triggered_at_slot s /\
  (s1 = s \/ is_breaker_active s = true /\ cooldown_elapsed s t = Ok true /\ should_trip s imb = false /\
             is_breaker_active s1 = false).
Proof.
  unfold auto_reset. intros (b & Hb & H)%obind_Ok.
  destruct b; [|injection H as <-; auto]. destruct (should_trip s imb) eqn:Ht; injection H as <-; [auto|].
  split; [done|]. split; [done|]. right. destruct (is_breaker_active s); [by repeat split|done].
Qed.

(** The body of the guard, once its checks have passed. *)
Lemma guard_Ok m s caller force t a s' :
  perp_shield_liquidation_guard m s caller force t = Ok (a, s') ->
  exists imb s1 s2,
    auto_reset s imb t = Ok s1 /\
    is_breaker_active s2 = is_breaker_active s1 /\ trigger_count s2 = trigger_count s1 /\
    triggered_at_slot s2 = triggered_at_slot s1 /\
    oi_imbalance_bps m = Ok imb /\
    (caller = ps_authority s \/ caller = price_authority m) /\
    let armed := negb (is_breaker_active s2) && should_trip s2 imb in
    let s3 := if armed then trip s2 t else s2 in
    (is_breaker_active s3 = true -> force = true) /\ s' = set_last_action s3 LiquidationAllowed /\
    a = LiquidationAllowed.
Proof.
  unfold perp_shield_liquidation_guard. intros H.
  apply obind_Ok in H as (_ & _ & H). apply obind_Ok in H as (imb & Himb & H).
  apply obind_Ok in H as (_ & _ & H). apply obind_Ok in H as (_ & Hc%require_Ok & H).
  apply obind_Ok in H as (s1 & H1 & H). cbn zeta in H. apply obind_Ok in H as (s2 & H2 & H).
  apply record_liquidation_frame in H2 as (E1 & E2 & E3).
  destruct (update_price_velocity_frame (set_last_oi s1 imb) (mark_price_x64 m) t) as (F1 & F2 & F3).
  exists imb, s1, s2. cbn zeta. set (s3 := if negb _ && _ then trip _ _ else _) in *.
  split; [done|]. split; [unfold is_breaker_active; by rewrite E1, F1|].
  split; [by rewrite E2, F2|]. split; [by rewrite E3, F3|]. split; [done|]. split.
  { apply orb_true_iff in Hc as [Hc%Z.eqb_eq|Hc%Z.eqb_eq]; auto. }
  destruct (is_breaker_active s3), force; cbn in H; try done; by injection H as <- <-.
Qed.

Section Properties.

(** The guard never arms the breaker on its own: when a call without
    [force_liquidate] succeeds, the breaker is inactive in the account and has
    not been triggered; a call that trips the breaker returns the error
    [CircuitBreakerActive], and the arming is rolled back with the rest of the
    transaction. *)
Theorem guard_never_arms m s caller t a s' :
  perp_shield_liquidation_guard m s caller false t = Ok (a, s') ->
  is_breaker_active s' = false /\ trigger_count s' = trigger_count s /\
  triggered_at_slot s' = triggered_at_slot s.
Proof.
  intros (imb & s1 & s2 & H1 & E1 & E2 & E3 & _ & _ & Hf & -> & _)%guard_Ok.
  apply auto_reset_Ok in H1 as (F1 & F2 & _). cbn zeta in Hf |- *.
  destruct (negb (is_breaker_active s2) && should_trip s2 imb); [by discriminate Hf|].
  change (is_breaker_active s2 = false /\ trigger_count s2 = trigger_count s /\
          triggered_at_slot s2 = triggered_at_slot s).
  rewrite E2, E3, F1, F2. split; [|done]. destruct (is_breaker_active s2); [by discriminate Hf|done].
Qed.

(** One successful operation on a shield. *)
Inductive shield_step (m : PerpMarket) (t : Z) : PerpShield -> PerpShield -> Prop :=
| shield_guard s caller force a s' :
    perp_shield_liquidation_guard m s caller force t = Ok (a, s') -> shield_step m t s s'
| shield_trigger s market key authority flags i s' al :
    trigger_circuit_breaker m market key s authority flags i t = Ok (s', al) -> shield_step m t s s'
| shield_reset s authority force s' :
    reset_circuit_breaker s authority force t = Ok s' -> shield_step m t s s'.

(** An armed breaker is only disarmed by its rules: a successful operation
    that takes it from active to inactive is either a reset by the shield's
    authority or the automatic reset of the guard; the latter happens after
    the cooldown and with the imbalance, the liquidations and the velocity
    below their thresholds; and an operation that arms it, or re-arms it,
    stamps the current slot and counts one trigger more. *)
Theorem breaker_disarm_rules m t s s' :
  shield_step m t s s' -> trigger_count s < umax 64 -> 0 <= trigger_count s ->
  (is_breaker_active s = true -> is_breaker_active s' = false ->
     (exists force, reset_circuit_breaker s (ps_authority s) force t = Ok s' /\
        (force = false -> cooldown_elapsed s t = Ok true)) \/
     (exists imb, oi_imbalance_bps m = Ok imb /\ cooldown_elapsed s t = Ok true /\ should_trip s imb = false)) /\
  (trigger_count s' = trigger_count s \/
   trigger_count s' = trigger_count s + 1 /\ triggered_at_slot s' = t /\ is_breaker_active s' = true) /\
  (is_breaker_active s = false -> is_breaker_active s' = true -> trigger_count s' = trigger_count s + 1).
Proof.
  intros H Hc Hc0.
  assert (usat 64 (trigger_count s + 1) = trigger_count s + 1) as Hsat by (unfold usat, umax in *; lia).
  destruct H as [s caller force a s' H|s market key authority flags i s' al H|s authority force s' H].
  - apply guard_Ok in H as (imb & s1 & s2 & H1 & E1 & E2 & E3 & Him & _ & Hf & -> & _).
    apply auto_reset_Ok in H1 as (F1 & F2 & Hr). cbn zeta in Hf |- *.
    set (s3 := if negb _ && _ then trip s2 t else s2) in *.
    change (is_breaker_active (set_last_action s3 LiquidationAllowed)) with (is_breaker_active s3).
    change (trigger_count (set_last_action s3 LiquidationAllowed)) with (trigger_count s3).
    change (triggered_at_slot (set_last_action s3 LiquidationAllowed)) with (triggered_at_slot s3).
    subst s3. destruct (negb (is_breaker_active s2) && should_trip s2 imb) eqn:Ea.
    + cbn. rewrite E2, F1, Hsat. split; [done|]. auto.
    + rewrite E1, E2, F1. split; [|split; [auto|]].
      * intros Hs Hs'. right. exists imb. destruct Hr as [->|(_ & Hcd & Htr & _)]; [congruence|done].
      * intros Hs Hs'. destruct Hr as [->|(? & _)]; congruence.
  - unfold trigger_circuit_breaker in H. apply obind_Ok in H as (_ & _ & H).
    apply obind_Ok in H as (imb & _ & H). apply obind_Ok in H as (_ & _ & H). cbn zeta in H.
    apply obind_Ok in H as (_ & _ & H). injection H as <- _. cbn. rewrite Hsat. split; [done|]. auto.
  - pose proof H as H'. unfold reset_circuit_breaker in H.
    apply obind_Ok in H as (_ & Hau%require_Ok%Z.eqb_eq & H). apply obind_Ok in H as (_ & _ & H).
    destruct (is_breaker_active s) eqn:Ea; cbn [negb] in H.
    + apply obind_Ok in H as (u & Hu & H). injection H as <-. split; [|split; [by left|done]].
      intros _ _. left. exists force. rewrite Hau. split; [done|]. intros ->.
      apply obind_Ok in Hu as (b & Hb & Hr%require_Ok). by subst b.
    + injection H as <-. rewrite Ea. split; [done|]. split; [by left|done].
Qed.

(** A shield can be set up so that an armed breaker stops every
    liquidation for good: [initialize_shield] accepts any epoch, and with one
    beyond a third of the slot range the cooldown overflows, so that every
    call of the guard - forced or not - and every unforced reset panics. *)
Theorem long_epoch_locks m s caller force t :
  is_breaker_active s = true -> ps_initialized s = 1 -> umax 64 < epoch_slots s * 3 ->
  is_active m = true -> interest_ok m -> (caller = ps_authority s \/ caller = price_authority m) ->
  perp_shield_liquidation_guard m s caller force t = Panic /\
  reset_circuit_breaker s (ps_authority s) false t = Panic.
Proof.
  intros Hb Hi He Hact Hio Hc.
  assert (cooldown_elapsed s t = Panic) as Hcd.
  { unfold cooldown_elapsed, uchk. destruct (Z.ltb_spec 0 (epoch_slots s)); [|unfold umax in He; lia].
    replace (uok 64 (epoch_slots s * 3)) with false; [done|]. symmetry. apply not_true_iff_false.
    rewrite uok_spec. unfold in_u, umax in *. lia. }
  destruct (oi_imbalance_Ok m Hio) as [imb Himb].
  split.
  - unfold perp_shield_liquidation_guard. rewrite Hact, Himb, Hi. cbn [orb Prelude.require obind Z.eqb Pos.eqb].
    replace ((caller =? ps_authority s) || (caller =? price_authority m)) with true.
    2:{ symmetry. apply orb_true_iff. rewrite !Z.eqb_eq. tauto. }
    cbn [Prelude.require obind]. unfold auto_reset. by rewrite Hb, Hcd.
  - unfold reset_circuit_breaker. rewrite Z.eqb_refl, Hi, Hb. cbn [Prelude.require obind negb Z.eqb Pos.eqb].
    by rewrite Hcd.
Qed.
End Properties.

(** * Examples *)

(** A shield whose thresholds the sample market does not reach. *)
Definition sample_shield : PerpShield := initialize_shield 9 1 100 9000 0 0 1000.

(** The same, armed at slot 2000. *)
Definition armed_shield : PerpShield := trip sample_shield 2000.

Lemma guard_never_arms_witness :
  exists s', perp_shield_liquidation_guard sample_market sample_shield 9 false 2000 =
      Ok (LiquidationAllowed, s') /\ trigger_count s' = 0.
Proof.
  eexists. split; [vm_compute; reflexivity|].
  eapply (guard_never_arms sample_market sample_shield 9 2000 LiquidationAllowed). vm_compute. reflexivity.
Defined.

Lemma breaker_disarm_rules_witness :
  exists s', perp_shield_liquidation_guard sample_market armed_shield 9 false 2300 =
      Ok (LiquidationAllowed, s') /\ is_breaker_active s' = false /\
    (trigger_count s' = 1 \/ trigger_count s' = 2 /\ triggered_at_slot s' = 2300 /\ is_breaker_active s' = true).
Proof.
  eexists. split; [vm_compute; reflexivity|]. split; [reflexivity|].
  eapply (breaker_disarm_rules sample_market 2300 armed_shield).
  - eapply (shield_guard _ _ _ 9 false). vm_compute. reflexivity.
  - reflexivity.
  - discriminate.
Defined.

Lemma long_epoch_locks_witness :
  perp_shield_liquidation_guard sample_market (trip (initialize_shield 9 1 (2 ^ 63) 0 0 0 1000) 2000)
    9 true 3000 = Panic.
Proof.
  apply (long_epoch_locks sample_market (trip (initialize_shield 9 1 (2 ^ 63) 0 0 0 1000) 2000) 9 true 3000).
  - reflexivity.
  - reflexivity.
  - reflexivity.
  - reflexivity.
  - by constructor.
  - by left.
Defined.
