(* ===== verification/JitGuard.v ===== *)
(** The just-in-time liquidity guard: [JitGuard] of [states/nebula_shield.rs]
    and the handlers of [instructions/jit_protection.rs].

    A handler returns the guard it leaves in its account; an error rolls the
    transaction back and leaves the account as it was, which [jit_apply]
    writes out for a sequence of transactions.  The creation of the account,
    its bump and the log are not modelled. *)
From S2P Require Import Prelude.
From S2P Require Import AmmError.
From S2P Require Import Config.

Record JitGuard := mkJitGuard {
  jg_pool : Pubkey;
  position_nft_mint : Pubkey;
  min_lock_slots : Z;
  last_add_slot : Z;
  add_count : Z;
  remove_count : Z;
  jit_blocks : Z;
}.

Definition MAX_LOCK_SLOTS : Z := 100.
Definition DEFAULT_MIN_LOCK_SLOTS : Z := 5.

Definition can_remove (g : JitGuard) (current_slot : Z) : Result (bool * Z) :=
  let! unlock_slot := uchk 64 (last_add_slot g + min_lock_slots g) in
  if unlock_slot <=? current_slot then Ok (true, 0)
  else
    let! remaining := uchk 64 (unlock_slot - current_slot) in
    Ok (false, remaining).

Definition record_add (g : JitGuard) (slot : Z) : JitGuard :=
  mkJitGuard (jg_pool g) (position_nft_mint g) (min_lock_slots g) slot (usat 64 (add_count g + 1))
    (remove_count g) (jit_blocks g).

Definition record_remove (g : JitGuard) (blocked : bool) : JitGuard :=
  mkJitGuard (jg_pool g) (position_nft_mint g) (min_lock_slots g) (last_add_slot g) (add_count g)
    (usat 64 (remove_count g + 1))
    (if blocked then usat 64 (jit_blocks g + 1) else jit_blocks g).

Definition jit_init (pool mint : Pubkey) (lock_slots slot : Z) : Result JitGuard :=
  do! require (lock_slots <=? MAX_LOCK_SLOTS) InvalidTickIndex in
  Ok (mkJitGuard pool mint (if lock_slots =? 0 then DEFAULT_MIN_LOCK_SLOTS else lock_slots) slot 1 0 0).

(** The guard as the handler has written it, and what the handler returns:
    the recording of a blocked removal is written before the error. *)
Definition handler_check_remove (g : JitGuard) (slot : Z) : Result (JitGuard * Result unit) :=
  let! '(ok, _) := can_remove g slot in
  if negb ok then Ok (record_remove g true, err JitBackRunDetected)
  else Ok (record_remove g false, Ok tt).

Definition handler_record_add (g : JitGuard) (slot : Z) : JitGuard := record_add g slot.

(** ** Transactions *)

Inductive jit_op : Set := RecordAdd | CheckRemove.

(** A transaction of one instruction: what it returns, and the guard left in
    the account once an error has been rolled back. *)
Definition jit_transaction (g : JitGuard) (slot : Z) (op : jit_op) : JitGuard * Result unit :=
  match op with
  | RecordAdd => (handler_record_add g slot, Ok tt)
  | CheckRemove =>
      match handler_check_remove g slot with
      | Ok (g', Ok tt) => (g', Ok tt)
      | Ok (_, r) => (g, r)
      | Err e => (g, Err e)
      | Panic => (g, Panic)
      end
  end.

Fixpoint jit_run (g : JitGuard) (l : list (Z * jit_op)) : JitGuard :=
  match l with
  | [] => g
  | (slot, op) :: l => jit_run (fst (jit_transaction g slot op)) l
  end.

(** Slots are counted in 64 bits and have room for the longest lock. *)
Definition slot_ok (slot : Z) : Prop := 0 <= slot <= umax 64 - MAX_LOCK_SLOTS.

(** * Properties *)

Record guard_ok (g : JitGuard) : Prop := {
  g_lock : 1 <= min_lock_slots g <= MAX_LOCK_SLOTS;
  g_slot : slot_ok (last_add_slot g);
  g_blocks : jit_blocks g = 0;
}.

Lemma jit_init_ok pool mint lock slot g :
  0 <= lock -> slot_ok slot -> jit_init pool mint lock slot = Ok g -> guard_ok g.
Proof.
  intros Hl Hs. unfold jit_init. intros (u & Hr%require_Ok & H)%obind_Ok. injection H as <-.
  unfold MAX_LOCK_SLOTS, DEFAULT_MIN_LOCK_SLOTS in *. apply Z.leb_le in Hr.
  split; [|done..]. cbn [min_lock_slots]. destruct (Z.eqb_spec lock 0); unfold MAX_LOCK_SLOTS; lia.
Qed.

(** The exact outcome of a removal. *)
Lemma check_remove_transaction g slot :
  guard_ok g -> 0 <= slot ->
  jit_transaction g slot CheckRemove =
    if last_add_slot g + min_lock_slots g <=? slot then (record_remove g false, Ok tt)
    else (g, err JitBackRunDetected).
Proof.
  intros [Hl Hs _] H0. unfold jit_transaction, handler_check_remove, can_remove, slot_ok, MAX_LOCK_SLOTS in *.
  rewrite (uchk_ok 64 (last_add_slot g + min_lock_slots g)) by range. cbn [obind].
  destruct (Z.leb_spec (last_add_slot g + min_lock_slots g) slot); [done|].
  by rewrite uchk_ok by range.
Qed.

Lemma jit_transaction_ok g slot op :
  guard_ok g -> slot_ok slot -> guard_ok (fst (jit_transaction g slot op)).
Proof.
  intros Hg Hs. destruct op; [by destruct Hg|].
  rewrite check_remove_transaction by (done || apply Hs).
  destruct (_ <=? _); [|done]. by destruct Hg.
Qed.

Lemma jit_run_ok l g :
  guard_ok g -> Forall (fun x => slot_ok (fst x)) l -> guard_ok (jit_run g l).
Proof.
  revert g. induction l as [|[slot op] l IH]; intros g Hg Hl; [done|]. apply Forall_cons in Hl as [Hs Hl].
  apply IH; [|done]. by apply jit_transaction_ok.
Qed.

Section Properties.

(** The lock of a guard, over every sequence of transactions from its
    creation: a removal succeeds exactly when [min_lock_slots] slots - between
    1 and 100 - have passed since the last recorded addition, and returns
    [JitBackRunDetected] before; no sequence can keep it from succeeding 100
    slots after the last addition.  The counter of blocked removals stays at
    zero for ever, because the error that blocks a removal rolls its own
    recording back. *)
Theorem jit_lock_exact pool mint lock slot0 g0 l t :
  0 <= lock -> slot_ok slot0 -> jit_init pool mint lock slot0 = Ok g0 ->
  Forall (fun x => slot_ok (fst x)) l -> slot_ok t ->
  let g := jit_run g0 l in
  1 <= min_lock_slots g <= MAX_LOCK_SLOTS /\ jit_blocks g = 0 /\
  (last_add_slot g + min_lock_slots g <= t -> snd (jit_transaction g t CheckRemove) = Ok tt) /\
  (t < last_add_slot g + min_lock_slots g -> jit_transaction g t CheckRemove = (g, err JitBackRunDetected)) /\
  (last_add_slot g + MAX_LOCK_SLOTS <= t -> snd (jit_transaction g t CheckRemove) = Ok tt).
Proof.
  intros Hl Hs0 Hi Hall Ht g.
  assert (guard_ok g) as Hg by (apply jit_run_ok; [exact (jit_init_ok _ _ _ _ _ Hl Hs0 Hi)|done]).
  rewrite (check_remove_transaction g t Hg (proj1 Ht)).
  destruct Hg as [Hlock _ Hb]. split; [done|]. split; [done|].
  destruct (Z.leb_spec (last_add_slot g + min_lock_slots g) t); repeat split; first [done|lia].
Qed.
End Properties.

(** * Examples *)

Lemma jit_lock_exact_witness :
  let g := jit_run (mkJitGuard 1 2 5 1000 1 0 0) [(1002, CheckRemove); (1003, RecordAdd)] in
  jit_blocks g = 0 /\ jit_transaction g 1007 CheckRemove = (g, err JitBackRunDetected).
Proof.
  assert (slot_ok 1000 /\ slot_ok 1002 /\ slot_ok 1003 /\ slot_ok 1007) as (H0 & H2 & H3 & H7)
    by (unfold slot_ok, MAX_LOCK_SLOTS, umax; lia).
  destruct (jit_lock_exact 1 2 0 1000 (mkJitGuard 1 2 5 1000 1 0 0)
              [(1002, CheckRemove); (1003, RecordAdd)] 1007) as (_ & Hb & _ & Hn & _).
  - lia.
  - exact H0.
  - reflexivity.
  - constructor; [exact H2|]. constructor; [exact H3|constructor].
  - exact H7.
  - split; [exact Hb|]. apply Hn. vm_compute. reflexivity.
Defined.
