(* ===== verification/Rewards.v ===== *)
(** [RewardInfo] of [states/pool.rs], its accrual in
    [PoolState::update_reward_infos], and the two ways
    [instructions/set_reward_params.rs] changes a running reward. *)
From S2P Require Import Prelude.
From S2P Require Import AmmError.
From S2P Require Import Config.
From S2P Require Import BigNum.
From S2P Require Import FullMath.

Definition REWARD_NUM : nat := 3.
Definition MIN_REWARD_PERIOD : Z := 7 * 24 * 60 * 60.
Definition MAX_REWARD_PERIOD : Z := 90 * 24 * 60 * 60.
Definition INCREASE_EMISSIONS_PERIOD : Z := 72 * 60 * 60.

(** [RewardState], stored as its discriminant. *)
Inductive RewardState : Set := Uninitialized | Initialized | Opening | Ended.
Definition reward_state_to_u8 (s : RewardState) : Z :=
  match s with Uninitialized => 0 | Initialized => 1 | Opening => 2 | Ended => 3 end.

Record RewardInfo := mkRewardInfo {
  reward_state : Z;
  ri_open_time : Z;
  ri_end_time : Z;
  last_update_time : Z;
  emissions_per_second_x64 : Z;
  reward_total_emitted : Z;
  reward_claimed : Z;
  token_mint : Pubkey;
  token_vault : Pubkey;
  authority : Pubkey;
  reward_growth_global_x64 : Z;
}.

(** [RewardInfo::new] *)
Definition reward_info_new (auth : Pubkey) : RewardInfo :=
  mkRewardInfo 0 0 0 0 0 0 0 default_pubkey default_pubkey auth 0.

(** [RewardInfo::initialized] *)
Definition reward_initialized (r : RewardInfo) : bool := negb (token_mint r =? default_pubkey).

(** [RewardInfo::get_reward_growths] *)
Definition get_reward_growths (rs : list RewardInfo) : list Z := reward_growth_global_x64 <$> rs.

Definition set_accrued (r : RewardInfo) (emitted growth : Z) : RewardInfo :=
  mkRewardInfo (reward_state r) (ri_open_time r) (ri_end_time r) (last_update_time r)
    (emissions_per_second_x64 r) emitted (reward_claimed r) (token_mint r) (token_vault r)
    (authority r) growth.

Definition set_last_update (r : RewardInfo) (t state : Z) : RewardInfo :=
  mkRewardInfo state (ri_open_time r) (ri_end_time r) t
    (emissions_per_second_x64 r) (reward_total_emitted r) (reward_claimed r) (token_mint r)
    (token_vault r) (authority r) (reward_growth_global_x64 r).

Definition set_schedule (r : RewardInfo) (open_time last end_time emissions : Z) : RewardInfo :=
  mkRewardInfo (reward_state r) open_time end_time last emissions (reward_total_emitted r)
    (reward_claimed r) (token_mint r) (token_vault r) (authority r) (reward_growth_global_x64 r).

Section Rewards.
Context {U : UintLib}.

(** The accrual of one reward over [time_delta] seconds at liquidity [l]. *)
Definition accrue_reward (r : RewardInfo) (l time_delta : Z) : Result RewardInfo :=
  let! d := mul_div_ceil_u128 time_delta (emissions_per_second_x64 r) Q64 in
  let! reward_delta := big_u64 (default 0 d) in
  let! g := mul_div_floor_u256 time_delta (emissions_per_second_x64 r) l in
  let! '(emitted, growth_delta) :=
    match ucheck 64 (reward_total_emitted r + reward_delta) with
    | Some new_total => Ok (new_total, default 0 g)
    | None =>
        let remain := usat 64 (umax 64 - reward_total_emitted r) in
        let! g := mul_div_floor_u256 remain Q64 l in
        Ok (umax 64, default 0 g)
    end in
  let! growth := big_u128 growth_delta in
  Ok (set_accrued r emitted (uwrap 128 (reward_growth_global_x64 r + growth))).

(** The new state flag. *)
Definition next_reward_state (r : RewardInfo) (latest : Z) : Z :=
  if (ri_open_time r <=? latest) && (latest <? ri_end_time r) then reward_state_to_u8 Opening
  else if latest =? ri_end_time r then reward_state_to_u8 Ended
  else reward_state r.

(** The body of the loop of [PoolState::update_reward_infos]. *)
Definition update_reward_info (liquidity curr_timestamp : Z) (r : RewardInfo) : Result RewardInfo :=
  if negb (reward_initialized r) || (reward_total_emitted r =? umax 64) then Ok r
  else if curr_timestamp <=? ri_open_time r then Ok r
  else
    let latest_update_timestamp := Z.min curr_timestamp (ri_end_time r) in
    if negb (liquidity =? 0) then
      let time_delta := usat 64 (latest_update_timestamp - last_update_time r) in
      if time_delta =? 0 then Ok r
      else
        let! r := accrue_reward r liquidity time_delta in
        Ok (set_last_update r latest_update_timestamp (next_reward_state r latest_update_timestamp))
    else Ok (set_last_update r latest_update_timestamp (next_reward_state r latest_update_timestamp)).

Definition update_reward_infos (liquidity curr_timestamp : Z) (rs : list RewardInfo) :
    Result (list RewardInfo) :=
  mapO (update_reward_info liquidity curr_timestamp) rs.

(** [set_reward_params.rs]: [normal_update] *)
Definition normal_update (r : RewardInfo) (current_timestamp emissions open_time end_time : Z) :
    Result (RewardInfo * Z) :=
  if last_update_time r =? ri_end_time r then
    let! time_delta := ok_or (ucheck 64 (end_time - open_time)) CalculateOverflow in
    if (time_delta <? MIN_REWARD_PERIOD) || (MAX_REWARD_PERIOD <? time_delta)
    then err InvalidRewardPeriod
    else
      let! a := or_overflow (mul_div_ceil_u256 time_delta emissions Q64) in
      let! reward_amount := big_u64 a in
      Ok (set_schedule r open_time open_time end_time emissions, reward_amount)
  else
    let! left_reward_time := ok_or (ucheck 64 (ri_end_time r - current_timestamp)) CalculateOverflow in
    let! extend_period := ok_or (ucheck 64 (end_time - ri_end_time r)) CalculateOverflow in
    if (extend_period <? MIN_REWARD_PERIOD) || (MAX_REWARD_PERIOD <? extend_period)
    then err NotApproveUpdateRewardEmissions
    else
      do! if emissions <? emissions_per_second_x64 r
          then require_gt INCREASE_EMISSIONS_PERIOD left_reward_time else Ok tt in
      let emission_diff_x64 := usat 128 (emissions - emissions_per_second_x64 r) in
      let! a := or_overflow (mul_div_floor_u256 left_reward_time emission_diff_x64 Q64) in
      let! reward_amount := big_u64 a in
      let r := set_schedule r (ri_open_time r) (last_update_time r) (ri_end_time r) emissions in
      if 0 <? extend_period then
        let! b := or_overflow (mul_div_floor_u256 extend_period emissions Q64) in
        let! reward_amount_diff := big_u64 b in
        let! reward_amount := ok_or (ucheck 64 (reward_amount + reward_amount_diff)) CalculateOverflow in
        Ok (set_schedule r (ri_open_time r) (last_update_time r) end_time emissions, reward_amount)
      else Ok (r, reward_amount).

(** [admin_update] *)
Definition admin_update (r : RewardInfo) (current_timestamp emissions open_time end_time : Z) :
    Result (RewardInfo * Z) :=
  if (last_update_time r =? ri_end_time r) || (current_timestamp <? ri_open_time r) then
    let! time_delta := ok_or (ucheck 64 (end_time - open_time)) CalculateOverflow in
    if time_delta =? 0 then err InvalidRewardPeriod
    else
      let! a := or_overflow (mul_div_ceil_u256 time_delta emissions Q64) in
      let! reward_amount := big_u64 a in
      Ok (set_schedule r open_time open_time end_time emissions, reward_amount)
  else
    let! left_reward_time := ok_or (ucheck 64 (ri_end_time r - current_timestamp)) CalculateOverflow in
    let extend_period := usat 64 (end_time - ri_end_time r) in
    let emission_diff_x64 := usat 128 (emissions - emissions_per_second_x64 r) in
    let! a := or_overflow (mul_div_floor_u256 left_reward_time emission_diff_x64 Q64) in
    let! reward_amount := big_u64 a in
    let! b := or_overflow (mul_div_floor_u256 extend_period emissions Q64) in
    let! reward_amount_diff := big_u64 b in
    let! reward_amount := ok_or (ucheck 64 (reward_amount + reward_amount_diff)) CalculateOverflow in
    Ok (set_schedule r (ri_open_time r) (last_update_time r) end_time emissions, reward_amount).

(** [set_reward_params], up to the token transfer: the reward information to
    store and the amount to collect from the authority.  [operation_owners]
    is the operation account's array. *)
Definition set_reward_params (admin_ID signer : Pubkey) (owners : list Pubkey)
    (liquidity unix_timestamp : Z) (rs : list RewardInfo)
    (reward_index emissions open_time end_time : Z) : Result (list RewardInfo * Z) :=
  do! require (reward_index <? Z.of_nat REWARD_NUM) InvalidRewardIndex in
  do! require_gt end_time open_time in
  do! require_gt emissions 0 in
  do! require (negb (signer =? default_pubkey)) RequireNeqViolated in
  let admin_operator := existsb (Z.eqb signer) owners || (signer =? admin_ID) in
  let! current_timestamp := ok_or (ucheck 64 unix_timestamp) CalculateOverflow in
  do! require_gt open_time current_timestamp in
  let! before := idx rs reward_index in
  do! if admin_operator then Ok tt else require_keys_eq signer (authority before) in
  let! rs := update_reward_infos liquidity current_timestamp rs in
  let! r := idx rs reward_index in
  if negb (reward_initialized r) then err UnInitializedRewardInfo
  else
    let! '(r, reward_amount) :=
      if admin_operator then admin_update r current_timestamp emissions open_time end_time
      else if current_timestamp <=? ri_open_time r then err NotApproved
      else normal_update r current_timestamp emissions open_time end_time in
    let! _ := ok_or (ucheck 64 (reward_total_emitted r + reward_amount)) MaxTokenOverflow in
    let! rs := set_idx rs reward_index r in
    Ok (rs, reward_amount).

(** [InitializeRewardParam::check] *)
Definition check_reward_param (open_time end_time emissions curr_timestamp : Z) : Result unit :=
  if (end_time <=? open_time) || (open_time <? curr_timestamp) || (end_time <? curr_timestamp)
     || (emissions =? 0) then err InvalidRewardInitParam
  else
    let! time_delta := ok_or (ucheck 64 (end_time - open_time)) CalculateOverflow in
    if (time_delta <? MIN_REWARD_PERIOD) || (MAX_REWARD_PERIOD <? time_delta)
    then err InvalidRewardPeriod else Ok tt.
End Rewards.

(** The machine ranges of a reward's fields. *)
Record reward_ok (r : RewardInfo) : Prop := {
  ro_open : in_u 64 (ri_open_time r);
  ro_end : in_u 64 (ri_end_time r);
  ro_last : in_u 64 (last_update_time r);
  ro_emissions : in_u 128 (emissions_per_second_x64 r);
  ro_emitted : in_u 64 (reward_total_emitted r);
  ro_claimed : in_u 64 (reward_claimed r);
  ro_growth : in_u 128 (reward_growth_global_x64 r);
}.

Section RewardLemmas.
Context {U : UintLib}.

Lemma mul_div_floor_u256_ok a b d :
  in_u 64 a -> in_u 128 b -> in_u 128 d -> 0 < d ->
  mul_div_floor_u256 a b d = Ok (Some (a * b / d)) /\ 0 <= a * b / d /\ a * b / d * d <= a * b.
Proof.
  intros Ha Hb Hd Hd0. pose proof (in_u_mul 64 128 a b ltac:(lia) ltac:(lia) Ha Hb) as Hp.
  change (64 + 128) with 192 in Hp.
  unfold mul_div_floor_u256. rewrite mul_div_floor_big_spec;
    [|lia|apply (in_u_weaken 64); [lia|done]|apply (in_u_weaken 128); [lia|done]
     |apply (in_u_weaken 128); [lia|done]].
  destruct (Z.eqb_spec d 0); [lia|].
  assert (0 <= a * b / d) by (apply Z.div_pos; range).
  pose proof (zfloor_bounds (a * b) d Hd0). rewrite ucheck_ok; [split; [done|lia]|].
  split; [done|]. assert (a * b / d <= a * b) by (apply Z.div_le_upper_bound; unfold in_u in *; nia).
  range.
Qed.

Lemma mul_div_ceil_u128_q64 a b :
  in_u 64 a -> in_u 128 b ->
  mul_div_ceil_u128 a b Q64 = Ok (Some (zceil (a * b) (2 ^ 64))) /\ 0 <= zceil (a * b) (2 ^ 64).
Proof.
  intros Ha Hb. unfold mul_div_ceil_u128. change Q64 with (2 ^ 64).
  rewrite mul_div_ceil_big_spec; [|lia|apply (in_u_weaken 64); [lia|done]|done|by_compute].
  change (2 ^ 64 =? 0) with false. cbn match.
  assert (0 <= zceil (a * b) (2 ^ 64)) by (apply zceil_nonneg; unfold in_u in *; nia).
  rewrite ucheck_ok; [done|]. split; [done|].
  enough (zceil (a * b) (2 ^ 64) <= 2 ^ 128 - 1) by range. apply zceil_le; [done|].
  unfold in_u in *. change (2 ^ 128) with (2 ^ 64 * 2 ^ 64) in *. nia.
Qed.

(** What one accrual adds. *)
Definition accrued (l : Z) (r r' : RewardInfo) : Prop :=
  exists g, 0 <= g /\
    reward_growth_global_x64 r' = uwrap 128 (reward_growth_global_x64 r + g) /\
    reward_total_emitted r <= reward_total_emitted r' /\
    g * l <= (reward_total_emitted r' - reward_total_emitted r) * 2 ^ 64.

Lemma accrued_refl l r r' :
  reward_growth_global_x64 r' = reward_growth_global_x64 r ->
  reward_total_emitted r' = reward_total_emitted r ->
  in_u 128 (reward_growth_global_x64 r) -> accrued l r r'.
Proof.
  intros Hg He Hr. exists 0. rewrite Hg, He, Z.add_0_r, uwrap_id by done. lia.
Qed.

Lemma accrue_reward_Ok r l td r' :
  reward_ok r -> in_u 128 l -> 0 < l -> in_u 64 td ->
  accrue_reward r l td = Ok r' -> accrued l r r' /\ reward_ok r'.
Proof.
  intros Hr Hl Hl0 Htd H. pose proof Hr as []. unfold accrue_reward in H.
  destruct (mul_div_ceil_u128_q64 td (emissions_per_second_x64 r)) as [E1 Hc]; [done..|].
  destruct (mul_div_floor_u256_ok td (emissions_per_second_x64 r) l) as (E2 & Hg & Hgl); [done..|].
  rewrite E1 in H. cbn [obind default from_option id] in H.
  apply obind_Ok in H as (d & [-> Hd]%big_u64_Ok & H).
  rewrite E2 in H. cbn [obind] in H.
  pose proof (zceil_bounds (td * emissions_per_second_x64 r) (2 ^ 64) eq_refl) as [_ Hcb].
  unfold ucheck in H. destruct (uok 64 _) eqn:Hu.
  - cbn [obind default from_option id] in H. apply uok_spec in Hu.
    apply obind_Ok in H as (growth & [-> Hgr]%big_u128_Ok & [= <-]). split.
    + eexists. split; [exact Hg|]. simpl. split; [done|]. lia.
    + split; simpl; try done. by apply uwrap_in.
  - assert (in_u 64 (usat 64 (umax 64 - reward_total_emitted r))) as Hrem by (by apply usat_in).
    destruct (mul_div_floor_u256_ok (usat 64 (umax 64 - reward_total_emitted r)) Q64 l)
      as (E3 & Hg' & Hgl'); [done|by_compute|done..|].
    rewrite E3 in H. cbn [obind default from_option id] in H.
    apply obind_Ok in H as (growth & [-> Hgr]%big_u128_Ok & [= <-]).
    rewrite usat_id in * by range. change Q64 with (2 ^ 64) in *. split.
    + eexists. split; [exact Hg'|]. simpl. split; [done|]. unfold umax in *. range.
    + split; simpl; try done; by apply uwrap_in.
Qed.

Lemma update_reward_info_Ok l now r r' :
  reward_ok r -> in_u 128 l -> in_u 64 now ->
  update_reward_info l now r = Ok r' -> accrued l r r' /\ reward_ok r'.
Proof.
  intros Hr Hl Hnow H. pose proof Hr as []. unfold update_reward_info in H.
  destruct (negb _ || _); [injection H as <-; split; [by apply accrued_refl|done]|].
  destruct (now <=? _); [injection H as <-; split; [by apply accrued_refl|done]|].
  assert (in_u 64 (Z.min now (ri_end_time r))) by range.
  destruct (Z.eqb_spec l 0); cbn [negb] in H.
  - injection H as <-. split; [by apply accrued_refl|]. split; simpl; done.
  - destruct (_ =? 0); [injection H as <-; split; [by apply accrued_refl|done]|].
    apply obind_Ok in H as (r1 & Ha & [= <-]).
    apply accrue_reward_Ok in Ha as [Ha Hok]; [|done|done|range|by apply usat_in].
    split; [exact Ha|]. destruct Hok. split; simpl; done.
Qed.

Lemma update_reward_infos_Ok l now rs rs' :
  Forall reward_ok rs -> in_u 128 l -> in_u 64 now ->
  update_reward_infos l now rs = Ok rs' ->
  Forall2 (accrued l) rs rs' /\ Forall reward_ok rs' /\ length rs' = length rs.
Proof.
  intros Hrs Hl Hnow H. unfold update_reward_infos in H. apply mapO_Ok in H.
  induction H as [|r r' rs rs' Hrr _ IH]; [done|].
  inversion Hrs; subst. apply update_reward_info_Ok in Hrr as [? ?]; [|done..].
  destruct IH as (? & ? & ?); [done|]. split; [by constructor|]. split; [by constructor|]. simpl. lia.
Qed.

Lemma mul_div_floor_q64 a b :
  in_u 64 a -> in_u 128 b ->
  mul_div_floor_u256 a b Q64 = Ok (Some (a * b / 2 ^ 64)) /\
  a * b / 2 ^ 64 * 2 ^ 64 <= a * b < (a * b / 2 ^ 64 + 1) * 2 ^ 64.
Proof.
  intros Ha Hb. destruct (mul_div_floor_u256_ok a b Q64) as (E & _ & _); [done..|].
  split; [exact E|]. by apply zfloor_bounds.
Qed.

Lemma mul_div_ceil_u256_q64 a b :
  in_u 64 a -> in_u 128 b ->
  exists v, mul_div_ceil_u256 a b Q64 = Ok (Some v) /\ a * b <= v * 2 ^ 64.
Proof.
  intros Ha Hb. unfold mul_div_ceil_u256. change Q64 with (2 ^ 64).
  rewrite mul_div_ceil_big_spec;
    [|lia|apply (in_u_weaken 64); [lia|done]|apply (in_u_weaken 128); [lia|done]|by_compute].
  change (2 ^ 64 =? 0) with false. cbn match.
  pose proof (zceil_bounds (a * b) (2 ^ 64) eq_refl).
  pose proof (in_u_mul 64 128 a b ltac:(lia) ltac:(lia) Ha Hb) as Hp. change (64 + 128) with 192 in Hp.
  assert (0 <= zceil (a * b) (2 ^ 64)) by (apply zceil_nonneg; range).
  eexists. split; [rewrite ucheck_ok; [done|split; [done|]]|lia].
  enough (zceil (a * b) (2 ^ 64) <= a * b) by range. apply zceil_le; [done|]. unfold in_u in *. nia.
Qed.

(** The emission, in Q64 units, that a change of schedule adds. *)
Definition extra_emission (r : RewardInfo) (restart : bool) (now emissions open_time end_time : Z) : Z :=
  if restart then (end_time - open_time) * emissions
  else (ri_end_time r - now) * Z.max 0 (emissions - emissions_per_second_x64 r)
       + Z.max 0 (end_time - ri_end_time r) * emissions.
End RewardLemmas.

Section Properties.
Context {U : UintLib}.

(** Rewards are backed: every successful update of a pool's reward
    information keeps the fields in range, never lowers the total emitted,
    and the growth it adds per unit of liquidity, times the liquidity, is at
    most the tokens it counts as emitted, also when the total saturates. *)
Theorem reward_growth_backed l now rs rs' :
  Forall reward_ok rs -> in_u 128 l -> in_u 64 now ->
  update_reward_infos l now rs = Ok rs' ->
  Forall reward_ok rs' /\
  Forall2 (fun r r' => exists g, 0 <= g /\
    reward_growth_global_x64 r' = uwrap 128 (reward_growth_global_x64 r + g) /\
    reward_total_emitted r <= reward_total_emitted r' /\
    g * l <= (reward_total_emitted r' - reward_total_emitted r) * 2 ^ 64) rs rs'.
Proof.
  intros Hrs Hl Hnow H. destruct (update_reward_infos_Ok l now rs rs' Hrs Hl Hnow H) as (Ha & Ho & _).
  split; [exact Ho|exact Ha].
Qed.

(** The amount collected when a reward schedule changes funds it: a
    restarted schedule is fully paid for (rounded up); an extension is paid
    for to within two token units, the rounding of its two parts, and never
    overpaid; and the schedule stored is the one asked for. *)
Theorem reward_update_funded (admin : bool) r now emissions open_time end_time r' amount :
  reward_ok r -> in_u 64 now -> in_u 128 emissions -> in_u 64 open_time -> in_u 64 end_time ->
  (if admin then admin_update r now emissions open_time end_time
   else normal_update r now emissions open_time end_time) = Ok (r', amount) ->
  let restart := (last_update_time r =? ri_end_time r) || (admin && (now <? ri_open_time r)) in
  let extra := extra_emission r restart now emissions open_time end_time in
  in_u 64 amount /\ emissions_per_second_x64 r' = emissions /\ ri_end_time r' = end_time /\
  (if restart then extra <= amount * 2 ^ 64
   else amount * 2 ^ 64 <= extra < (amount + 2) * 2 ^ 64).
Proof.
  intros Hr Hnow Hem Hop Hend H restart extra. pose proof Hr as [].
  subst extra restart. unfold extra_emission.
  assert (forall d, in_u 64 d -> forall a v, or_overflow (mul_div_ceil_u256 d emissions Q64) = Ok a ->
            big_u64 a = Ok v -> in_u 64 v /\ d * emissions <= v * 2 ^ 64) as Hceil.
  { intros d Hd a v Ha [-> Hv]%big_u64_Ok. apply or_overflow_Ok in Ha.
    destruct (mul_div_ceil_u256_q64 d emissions Hd Hem) as (w & E & Hw). rewrite E in Ha.
    injection Ha as <-. done. }
  assert (forall d e, in_u 64 d -> in_u 128 e -> forall a v,
            or_overflow (mul_div_floor_u256 d e Q64) = Ok a -> big_u64 a = Ok v ->
            in_u 64 v /\ v * 2 ^ 64 <= d * e < (v + 1) * 2 ^ 64) as Hfloor.
  { intros d e Hd He a v Ha [-> Hv]%big_u64_Ok. apply or_overflow_Ok in Ha.
    destruct (mul_div_floor_q64 d e Hd He) as (E & Hw). rewrite E in Ha. by injection Ha as <-. }
  assert (in_u 128 (usat 128 (emissions - emissions_per_second_x64 r)) /\
          usat 128 (emissions - emissions_per_second_x64 r) = Z.max 0 (emissions - emissions_per_second_x64 r))
    as [Hdiff Heq] by (unfold usat; range).
  destruct admin; [unfold admin_update in H|unfold normal_update in H]; cbn [andb].
  - destruct (_ || _).
    + apply obind_Ok in H as (td & [-> Htd]%ok_or_Ok%ucheck_Some & H).
      destruct (_ =? 0); [done|]. apply obind_Ok in H as (a & Ha & H).
      apply obind_Ok in H as (v & Hv & [= <- <-]). destruct (Hceil _ Htd _ _ Ha Hv). done.
    + apply obind_Ok in H as (left & [-> Hleft]%ok_or_Ok%ucheck_Some & H).
      apply obind_Ok in H as (a & Ha & H). apply obind_Ok in H as (v & Hv & H).
      apply obind_Ok in H as (b & Hb & H). apply obind_Ok in H as (w & Hw & H).
      apply obind_Ok in H as (s & [-> Hs]%ok_or_Ok%ucheck_Some & [= <- <-]).
      destruct (Hfloor _ _ Hleft Hdiff _ _ Ha Hv). simpl.
      assert (in_u 64 (usat 64 (end_time - ri_end_time r)) /\
              usat 64 (end_time - ri_end_time r) = Z.max 0 (end_time - ri_end_time r))
        as [Hext Hexteq] by (unfold usat; range).
      destruct (Hfloor _ _ Hext Hem _ _ Hb Hw). rewrite <- Heq, <- Hexteq.
      split_and!; try done; lia.
  - rewrite orb_false_r. destruct (_ =? _).
    + apply obind_Ok in H as (td & [-> Htd]%ok_or_Ok%ucheck_Some & H).
      destruct (_ || _); [done|]. apply obind_Ok in H as (a & Ha & H).
      apply obind_Ok in H as (v & Hv & [= <- <-]). destruct (Hceil _ Htd _ _ Ha Hv). done.
    + apply obind_Ok in H as (left & [-> Hleft]%ok_or_Ok%ucheck_Some & H).
      apply obind_Ok in H as (ext & [-> Hext]%ok_or_Ok%ucheck_Some & H).
      destruct (_ || _) eqn:Hper; [done|]. zbool.
      apply obind_Ok in H as (u & _ & H). apply obind_Ok in H as (a & Ha & H).
      apply obind_Ok in H as (v & Hv & H). destruct (Hfloor _ _ Hleft Hdiff _ _ Ha Hv).
      destruct (Z.ltb_spec 0 (end_time - ri_end_time r)); [|unfold MIN_REWARD_PERIOD in *; lia].
      apply obind_Ok in H as (b & Hb & H). apply obind_Ok in H as (w & Hw & H).
      apply obind_Ok in H as (s & [-> Hs]%ok_or_Ok%ucheck_Some & [= <- <-]). simpl.
      destruct (Hfloor _ _ Hext Hem _ _ Hb Hw). rewrite <- Heq.
      replace (Z.max 0 (end_time - ri_end_time r)) with (end_time - ri_end_time r) by lia.
      split_and!; try done; lia.
Qed.
End Properties.

Section Witnesses.
#[local] Existing Instance uint_std.

Definition example_reward : RewardInfo :=
  mkRewardInfo 2 1000 2000000 1000 (5 * 2 ^ 64) 40 0 77 78 79 (2 ^ 128 - 10).

Lemma example_reward_ok : reward_ok example_reward.
Proof. split; by_compute. Qed.

Lemma reward_growth_backed_witness :
  let r' := mkRewardInfo 2 1000 2000000 1600 (5 * 2 ^ 64) 3040 0 77 78 79
              (uwrap 128 (2 ^ 128 - 10 + 3 * 2 ^ 64)) in
  Forall reward_ok [r'] /\
  Forall2 (fun r r' => exists g, 0 <= g /\
    reward_growth_global_x64 r' = uwrap 128 (reward_growth_global_x64 r + g) /\
    reward_total_emitted r <= reward_total_emitted r' /\
    g * 1000 <= (reward_total_emitted r' - reward_total_emitted r) * 2 ^ 64) [example_reward] [r'].
Proof.
  apply (reward_growth_backed 1000 1600).
  - constructor; [apply example_reward_ok|constructor].
  - by_compute.
  - by_compute.
  - by_compute.
Defined.

Lemma reward_update_funded_witness :
  let r' := set_schedule example_reward 1000 1000 2700000 (6 * 2 ^ 64) in
  let amount := 6198400 in
  in_u 64 amount /\ emissions_per_second_x64 r' = 6 * 2 ^ 64 /\ ri_end_time r' = 2700000 /\
  amount * 2 ^ 64 <= extra_emission example_reward false 1600 (6 * 2 ^ 64) 2000 2700000
    < (amount + 2) * 2 ^ 64.
Proof.
  apply (reward_update_funded false example_reward 1600 (6 * 2 ^ 64) 2000 2700000);
    [apply example_reward_ok|by_compute..].
Defined.
End Witnesses.
