(* ===== verification/TickState.v ===== *)
(** [TickState] of [states/tick_array.rs]: a tick's liquidity, its fee and
    reward growth "outside", and its limit orders; the growth inside a range;
    the matching of limit orders against a swap.  The recent epoch and the
    padding are not modelled. *)
From S2P Require Import Prelude.
From S2P Require Import AmmError.
From S2P Require Import Config.
From S2P Require Import BigNum.
From S2P Require Import FullMath.
From S2P Require Import TickMath.
From S2P Require Import LiquidityMath.
From S2P Require Import SwapMath.
From S2P Require Import TickIndex.
From S2P Require Import Rewards.

Record TickState := mkTickState {
  tick : Z;
  liquidity_net : Z;
  liquidity_gross : Z;
  fee_growth_outside_0_x64 : Z;
  fee_growth_outside_1_x64 : Z;
  reward_growths_outside_x64 : list Z;
  order_phase : Z;
  orders_amount : Z;
  part_filled_orders_remaining : Z;
  unfilled_ratio_x64 : Z;
}.

Definition default_tick_state : TickState := mkTickState 0 0 0 0 0 (replicate REWARD_NUM 0) 0 0 0 0.

(** Field updates. *)
Definition set_tick (t : TickState) v : TickState :=
  mkTickState v (liquidity_net t) (liquidity_gross t) (fee_growth_outside_0_x64 t)
    (fee_growth_outside_1_x64 t) (reward_growths_outside_x64 t) (order_phase t) (orders_amount t)
    (part_filled_orders_remaining t) (unfilled_ratio_x64 t).
Definition set_tick_liquidity (t : TickState) net gross : TickState :=
  mkTickState (tick t) net gross (fee_growth_outside_0_x64 t)
    (fee_growth_outside_1_x64 t) (reward_growths_outside_x64 t) (order_phase t) (orders_amount t)
    (part_filled_orders_remaining t) (unfilled_ratio_x64 t).
Definition set_tick_growth (t : TickState) g0 g1 rs : TickState :=
  mkTickState (tick t) (liquidity_net t) (liquidity_gross t) g0 g1 rs (order_phase t)
    (orders_amount t) (part_filled_orders_remaining t) (unfilled_ratio_x64 t).
Definition set_tick_orders (t : TickState) phase orders part ratio : TickState :=
  mkTickState (tick t) (liquidity_net t) (liquidity_gross t) (fee_growth_outside_0_x64 t)
    (fee_growth_outside_1_x64 t) (reward_growths_outside_x64 t) phase orders part ratio.

(** [TickState::initialize] *)
Definition tick_initialize (self : TickState) (t tick_spacing : Z) : Result TickState :=
  if check_is_out_of_boundary t then err InvalidTickIndex
  else
    let! r := irem 32 t tick_spacing in
    do! require (r =? 0) TickAndSpacingNotMatch in
    Ok (set_tick self t).

Definition has_limit_orders (t : TickState) : bool :=
  (0 <? orders_amount t) || (0 <? part_filled_orders_remaining t).
Definition has_liquidity (t : TickState) : bool := 0 <? liquidity_gross t.
Definition is_initialized (t : TickState) : bool := has_liquidity t || has_limit_orders t.

Definition limit_order_unfilled_amount (t : TickState) : Result Z :=
  ok_or (ucheck 64 (orders_amount t + part_filled_orders_remaining t)) CalculateOverflow.

(** [TickState::update] *)
Definition tick_update (self : TickState)
    (tick_current liquidity_delta fee_growth_global_0_x64 fee_growth_global_1_x64 : Z)
    (upper : bool) (reward_infos : list RewardInfo) : Result (bool * TickState) :=
  let liquidity_gross_before := liquidity_gross self in
  let! liquidity_gross_after := add_delta liquidity_gross_before liquidity_delta in
  let! unfilled := limit_order_unfilled_amount self in
  let no_unfilled_orders := unfilled =? 0 in
  let flipped :=
    xorb (liquidity_gross_after =? 0) (liquidity_gross_before =? 0) && no_unfilled_orders in
  let self :=
    if (liquidity_gross_before =? 0) && (tick self <=? tick_current) then
      set_tick_growth self fee_growth_global_0_x64 fee_growth_global_1_x64
        (get_reward_growths reward_infos)
    else self in
  let! net :=
    ok_or (icheck 128 (if upper then liquidity_net self - liquidity_delta
                       else liquidity_net self + liquidity_delta)) CalculateOverflow in
  Ok (flipped, set_tick_liquidity self net liquidity_gross_after).

(** [TickState::cross] *)
Definition cross_reward (r : RewardInfo) (outside : Z) : Z :=
  if reward_initialized r then uwrap 128 (reward_growth_global_x64 r - outside) else outside.
Definition tick_cross (self : TickState) (fee_growth_global_0_x64 fee_growth_global_1_x64 : Z)
    (reward_infos : list RewardInfo) : Z * TickState :=
  (liquidity_net self,
   set_tick_growth self
     (uwrap 128 (fee_growth_global_0_x64 - fee_growth_outside_0_x64 self))
     (uwrap 128 (fee_growth_global_1_x64 - fee_growth_outside_1_x64 self))
     (zip_with cross_reward reward_infos (reward_growths_outside_x64 self))).

(** [TickState::clear] *)
Definition tick_clear (self : TickState) : TickState :=
  set_tick_growth (set_tick_liquidity self 0 0) 0 0 (replicate REWARD_NUM 0).

Definition growth_inside (global lower_outside upper_outside : Z)
    (tick_lower tick_upper tick_current : Z) : Z :=
  let below := if tick_lower <=? tick_current then lower_outside
               else uwrap 128 (global - lower_outside) in
  let above := if tick_current <? tick_upper then upper_outside
               else uwrap 128 (global - upper_outside) in
  uwrap 128 (uwrap 128 (global - below) - above).

Definition get_fee_growth_inside (lower upper : TickState)
    (tick_current fee_growth_global_0_x64 fee_growth_global_1_x64 : Z) : Z * Z :=
  (growth_inside fee_growth_global_0_x64 (fee_growth_outside_0_x64 lower)
     (fee_growth_outside_0_x64 upper) (tick lower) (tick upper) tick_current,
   growth_inside fee_growth_global_1_x64 (fee_growth_outside_1_x64 lower)
     (fee_growth_outside_1_x64 upper) (tick lower) (tick upper) tick_current).

Definition get_reward_growths_inside (lower upper : TickState) (tick_current_index : Z)
    (reward_infos : list RewardInfo) : list Z :=
  zip_with (fun r (o : Z * Z) =>
      if reward_initialized r then
        growth_inside (reward_growth_global_x64 r) o.1 o.2 (tick lower) (tick upper) tick_current_index
      else 0)
    reward_infos
    (zip (reward_growths_outside_x64 lower) (reward_growths_outside_x64 upper)).

Record LimitOrderMatchResult := mkMatchResult {
  lo_amount_in : Z;
  lo_amount_out : Z;
  lo_amm_fee_amount : Z;
}.

Section LimitOrders.
Context {U : UintLib}.

Definition get_limit_order_output (amount_in t : Z) (zero_for_one : bool) : Result Z :=
  if zero_for_one then
    let! price := get_price_at_tick t false in
    let! r := or_overflow (mul_div_floor_u128 amount_in price Q64) in
    big_u64 r
  else
    let! price := get_price_at_tick t true in
    let! r := or_overflow (mul_div_floor_u128 amount_in Q64 price) in
    big_u64 r.

Definition get_limit_order_input (amount_out t : Z) (zero_for_one : bool) : Result Z :=
  if zero_for_one then
    let! price := get_price_at_tick t true in
    let! r := or_overflow (mul_div_ceil_u128 amount_out price Q64) in
    big_u64 r
  else
    let! price := get_price_at_tick t false in
    let! r := or_overflow (mul_div_ceil_u128 amount_out Q64 price) in
    big_u64 r.

(** [match_limit_order], first part: the amounts of the match. *)
Definition match_amounts (self : TickState) (total_unfilled_amount swap_amount : Z)
    (swap_direction_zero_for_one is_base_input : bool) (fee_rate : Z) (is_fee_on_input : bool) :
    Result LimitOrderMatchResult :=
  if is_base_input then
    let! '(amount_in, fee) :=
      if is_fee_on_input then
        let! fee := or_overflow (mul_div_ceil_u64 swap_amount fee_rate FEE_RATE_DENOMINATOR_VALUE) in
        let! i := uchk 64 (swap_amount - fee) in
        Ok (i, fee)
      else Ok (swap_amount, 0) in
    let! amount_out := get_limit_order_output amount_in (tick self) swap_direction_zero_for_one in
    if total_unfilled_amount <? amount_out then
      let! amount_in := get_limit_order_input total_unfilled_amount (tick self)
                          (negb swap_direction_zero_for_one) in
      let! fee :=
        if is_fee_on_input then
          let! d := uchk 32 (FEE_RATE_DENOMINATOR_VALUE - fee_rate) in
          or_overflow (mul_div_ceil_u64 amount_in fee_rate d)
        else Ok fee in
      Ok (mkMatchResult amount_in total_unfilled_amount fee)
    else Ok (mkMatchResult amount_in amount_out fee)
  else
    let net_output := Z.min swap_amount total_unfilled_amount in
    let! amount_out :=
      if is_fee_on_input then Ok net_output
      else
        let! d := uchk 32 (FEE_RATE_DENOMINATOR_VALUE - fee_rate) in
        let! g := or_overflow (mul_div_ceil_u64 net_output FEE_RATE_DENOMINATOR_VALUE d) in
        Ok (Z.min g total_unfilled_amount) in
    let! amount_in := get_limit_order_input amount_out (tick self)
                        (negb swap_direction_zero_for_one) in
    let! fee :=
      if is_fee_on_input then
        let! d := uchk 32 (FEE_RATE_DENOMINATOR_VALUE - fee_rate) in
        or_overflow (mul_div_ceil_u64 amount_in fee_rate d)
      else Ok 0 in
    Ok (mkMatchResult amount_in amount_out fee).

(** Second part: the orders consumed, oldest cohort first. *)
Definition consume_orders (self : TickState) (amount_out : Z) : Result TickState :=
  let! '(self, consume_from_part_remaining) :=
    if 0 <? part_filled_orders_remaining self then
      let c := Z.min (part_filled_orders_remaining self) amount_out in
      let! ratio :=
        if 0 <? c then
          let! d := uchk 64 (part_filled_orders_remaining self - c) in
          let! r := or_overflow (mul_div_floor_u128 (unfilled_ratio_x64 self) d
                                   (part_filled_orders_remaining self)) in
          big_u128 r
        else Ok (unfilled_ratio_x64 self) in
      Ok (set_tick_orders self (order_phase self) (orders_amount self)
            (usat 64 (part_filled_orders_remaining self - c)) ratio, c)
    else Ok (self, 0) in
  let amount_out_continue_to_consume := usat 64 (amount_out - consume_from_part_remaining) in
  if 0 <? amount_out_continue_to_consume then
    do! require_eq (part_filled_orders_remaining self) 0 in
    do! require (amount_out_continue_to_consume <=? orders_amount self) InvalidLimitOrderAmount in
    let! d := uchk 64 (orders_amount self - amount_out_continue_to_consume) in
    let! r := or_overflow (mul_div_floor_u128 Q64 d (orders_amount self)) in
    let! ratio := big_u128 r in
    Ok (set_tick_orders self (usat 64 (order_phase self + 1)) 0 d ratio)
  else Ok self.

Definition match_limit_order (self : TickState) (swap_amount : Z)
    (swap_direction_zero_for_one is_base_input : bool) (fee_rate : Z) (is_fee_on_input : bool) :
    Result (LimitOrderMatchResult * TickState) :=
  let! total_unfilled_amount := limit_order_unfilled_amount self in
  if (swap_amount =? 0) || (total_unfilled_amount =? 0) then Ok (mkMatchResult 0 0 0, self)
  else
    let! m := match_amounts self total_unfilled_amount swap_amount swap_direction_zero_for_one
                is_base_input fee_rate is_fee_on_input in
    let! self := consume_orders self (lo_amount_out m) in
    if negb is_fee_on_input then
      let! fee := or_overflow (mul_div_ceil_u64 (lo_amount_out m) fee_rate FEE_RATE_DENOMINATOR_VALUE) in
      let! net := ok_or (ucheck 64 (lo_amount_out m - fee)) CalculateOverflow in
      Ok (mkMatchResult (lo_amount_in m) net fee, self)
    else Ok (m, self).
End LimitOrders.

(** The machine ranges of a tick. *)
Record tick_ok (t : TickState) : Prop := {
  tk_tick : MIN_TICK <= tick t <= MAX_TICK;
  tk_net : in_i 128 (liquidity_net t);
  tk_gross : in_u 128 (liquidity_gross t);
  tk_g0 : in_u 128 (fee_growth_outside_0_x64 t);
  tk_g1 : in_u 128 (fee_growth_outside_1_x64 t);
  tk_rewards : Forall (in_u 128) (reward_growths_outside_x64 t);
  tk_nrewards : length (reward_growths_outside_x64 t) = REWARD_NUM;
  tk_phase : in_u 64 (order_phase t);
  tk_orders : in_u 64 (orders_amount t);
  tk_part : in_u 64 (part_filled_orders_remaining t);
  tk_ratio : in_u 128 (unfilled_ratio_x64 t);
}.

(** * Growth inside a range *)

Lemma growth_inside_cases g lo up tl tu c :
  in_u 128 lo -> in_u 128 up -> tl < tu ->
  growth_inside g lo up tl tu c =
  uwrap 128 (if c <? tl then lo - up else if c <? tu then g - lo - up else up - lo).
Proof.
  intros Hlo Hup Ht. unfold growth_inside.
  destruct (Z.leb_spec tl c), (Z.ltb_spec c tl), (Z.ltb_spec c tu); try lia;
    rewrite uwrap_sub_l, ?uwrap_sub_mid, ?uwrap_sub_r; f_equal; lia.
Qed.

(** Ticks other than [T] are on the same side of [c] and [c']; [T] changes
    side. *)
Definition crosses (T c c' : Z) : Prop :=
  (T <= c <-> ~ T <= c') /\ forall t, t <> T -> (t <= c <-> t <= c').

Lemma growth_inside_cross g lo up tl tu T c c' :
  in_u 128 lo -> in_u 128 up -> tl < tu -> crosses T c c' ->
  growth_inside g (if tl =? T then uwrap 128 (g - lo) else lo)
    (if tu =? T then uwrap 128 (g - up) else up) tl tu c' =
  growth_inside g lo up tl tu c.
Proof.
  intros Hlo Hup Ht [HT Ho].
  assert (in_u 128 (uwrap 128 (g - lo)) /\ in_u 128 (uwrap 128 (g - up))) as [? ?]
    by (split; by apply uwrap_in).
  rewrite !growth_inside_cases by (done || destruct (_ =? T); done).
  pose proof (Ho tl) as Hl. pose proof (Ho tu) as Hu. clear Ho.
  destruct (Z.eqb_spec tl T) as [->|], (Z.eqb_spec tu T) as [->|]; try lia;
    repeat match goal with |- context [?a <? ?b] => destruct (Z.ltb_spec a b) end; try lia;
    rewrite ?uwrap_sub_l, ?uwrap_sub_mid, ?uwrap_sub_r; f_equal; lia.
Qed.

(** A tick after the swap has crossed [T]. *)
Definition crossed (T g0 g1 : Z) (ris : list RewardInfo) (t : TickState) : TickState :=
  if tick t =? T then (tick_cross t g0 g1 ris).2 else t.

Lemma zip_with_lookup_reward (f : RewardInfo -> Z -> Z) ris outs i r o :
  ris !! i = Some r -> outs !! i = Some o -> zip_with f ris outs !! i = Some (f r o).
Proof. intros Hr Ho. by rewrite lookup_zip_with, Hr, Ho. Qed.

Lemma cross_reward_in r o : in_u 128 o -> in_u 128 (cross_reward r o).
Proof. intros. unfold cross_reward. destruct (reward_initialized r); auto with ints. by apply uwrap_in. Qed.

Lemma cross_rewards_in ris outs :
  Forall (in_u 128) outs -> Forall (in_u 128) (zip_with cross_reward ris outs).
Proof.
  intros H. apply Forall_lookup_2. intros i v Hv. rewrite lookup_zip_with in Hv.
  destruct (ris !! i) as [r|]; [|done]. simpl in Hv.
  destruct (outs !! i) as [o|] eqn:Ho; [|done]. injection Hv as <-.
  apply cross_reward_in. by eapply Forall_lookup_1.
Qed.

(** Crossing keeps the machine ranges. *)
Lemma tick_cross_ok t g0 g1 ris :
  tick_ok t -> length ris = REWARD_NUM -> tick_ok (tick_cross t g0 g1 ris).2.
Proof.
  intros [] Hl. constructor; simpl; try done; try (by apply uwrap_in).
  - by apply cross_rewards_in.
  - rewrite length_zip_with. lia.
Qed.

Lemma rewards_inside_cross ris lo up tl tu T c c' :
  Forall (in_u 128) lo -> Forall (in_u 128) up -> tl < tu -> crosses T c c' ->
  length lo = length ris -> length up = length ris ->
  zip_with (fun r (o : Z * Z) => if reward_initialized r then
      growth_inside (reward_growth_global_x64 r) o.1 o.2 tl tu c' else 0) ris
    (zip (if tl =? T then zip_with cross_reward ris lo else lo)
         (if tu =? T then zip_with cross_reward ris up else up)) =
  zip_with (fun r (o : Z * Z) => if reward_initialized r then
      growth_inside (reward_growth_global_x64 r) o.1 o.2 tl tu c else 0) ris (zip lo up).
Proof.
  intros Hlo Hup Ht Hc. revert lo up Hlo Hup. induction ris as [|r ris IH]; intros lo up Hlo Hup Hl Hu; [done|].
  destruct lo as [|l lo], up as [|u up]; try done. injection Hl as Hl. injection Hu as Hu.
  apply Forall_cons in Hlo as [Hl0 Hlo]. apply Forall_cons in Hup as [Hu0 Hup].
  specialize (IH lo up Hlo Hup Hl Hu).
  pose proof (growth_inside_cross (reward_growth_global_x64 r) l u tl tu T c c' Hl0 Hu0 Ht Hc) as Hg.
  unfold cross_reward in *.
  destruct (tl =? T), (tu =? T); cbn [zip zip_with fst snd]; f_equal; try exact IH;
    destruct (reward_initialized r); try done; exact Hg.
Qed.

(** C36: Crossing a tick loses no fees and no rewards: when the current tick
    moves across [T] and the tick state of [T] is flipped by [cross], the fee
    growth of both tokens and the growth of every reward inside any range
    [lower, upper) is what it was, whether or not [T] bounds the range; and
    crossing the same tick back restores its state exactly. *)
Theorem tick_cross_preserves_inside T g0 g1 ris c c' lower upper :
  tick_ok lower -> tick_ok upper -> tick lower < tick upper ->
  length ris = REWARD_NUM -> crosses T c c' ->
  get_fee_growth_inside (crossed T g0 g1 ris lower) (crossed T g0 g1 ris upper) c' g0 g1 =
    get_fee_growth_inside lower upper c g0 g1 /\
  get_reward_growths_inside (crossed T g0 g1 ris lower) (crossed T g0 g1 ris upper) c' ris =
    get_reward_growths_inside lower upper c ris /\
  (tick_cross (tick_cross lower g0 g1 ris).2 g0 g1 ris).2 = lower.
Proof.
  intros [] [] Ht Hn Hc. split_and!.
  - unfold get_fee_growth_inside, crossed.
    rewrite <- (growth_inside_cross g0 _ _ _ _ T c c'), <- (growth_inside_cross g1 _ _ _ _ T c c') by done.
    by destruct (tick lower =? T), (tick upper =? T).
  - unfold get_reward_growths_inside.
    rewrite <- (rewards_inside_cross ris _ _ _ _ T c c') by (done || lia).
    unfold crossed. by destruct (tick lower =? T), (tick upper =? T).
  - destruct lower. unfold tick_cross, set_tick_growth. simpl in *.
    rewrite !uwrap_sub_sub, !uwrap_id by done. f_equal.
    clear -tk_rewards0 tk_nrewards0 Hn. rewrite <- Hn in tk_nrewards0. clear Hn.
    revert ris tk_nrewards0. induction tk_rewards0 as [|o os Ho Hos IH]; intros [|r ris] Hl; try done.
    simpl in *. f_equal; [|apply IH; lia]. unfold cross_reward.
    destruct (reward_initialized r); [|done]. by rewrite uwrap_sub_sub, uwrap_id.
Qed.

Lemma growth_inside_accrue g d lo up tl tu c :
  in_u 128 lo -> in_u 128 up -> tl < tu ->
  growth_inside (uwrap 128 (g + d)) lo up tl tu c =
  uwrap 128 (growth_inside g lo up tl tu c + (if (tl <=? c) && (c <? tu) then d else 0)).
Proof.
  intros. rewrite !growth_inside_cases by done. rewrite uwrap_add_l.
  destruct (Z.leb_spec tl c), (Z.ltb_spec c tl), (Z.ltb_spec c tu); try lia; cbn [andb];
    rewrite <- ?Z.sub_add_distr, ?uwrap_sub_l; f_equal; lia.
Qed.

(** Fees accrue to the ranges in force and to no other: when the global
    fee growth of the two tokens advances by [d0] and [d1] (modulo 2^128, as
    the counters wrap), the growth inside a range advances by exactly that if
    the current tick is in [lower, upper) and does not change otherwise. *)
Theorem fee_growth_accrues_in_range lower upper c g0 g1 d0 d1 i0 i1 :
  tick_ok lower -> tick_ok upper -> tick lower < tick upper ->
  get_fee_growth_inside lower upper c g0 g1 = (i0, i1) ->
  get_fee_growth_inside lower upper c (uwrap 128 (g0 + d0)) (uwrap 128 (g1 + d1)) =
  if (tick lower <=? c) && (c <? tick upper) then (uwrap 128 (i0 + d0), uwrap 128 (i1 + d1))
  else (i0, i1).
Proof.
  intros [] [] Ht [= <- <-]. unfold get_fee_growth_inside.
  rewrite !growth_inside_accrue by done.
  destruct (_ && _); [done|]. rewrite !Z.add_0_r.
  rewrite !growth_inside_cases by done. f_equal; apply uwrap_id; by apply uwrap_in.
Qed.

Definition sample_tick (t : Z) : TickState :=
  set_tick_growth (set_tick default_tick_state t) 10 (2 ^ 128 - 1) (replicate REWARD_NUM 5).

Definition sample_rewards : list RewardInfo := replicate REWARD_NUM (reward_info_new 7).

Lemma sample_tick_ok t : MIN_TICK <= t <= MAX_TICK -> tick_ok (sample_tick t).
Proof.
  intros Ht. constructor; [exact Ht| | | | |apply Forall_replicate| | | | | ]; by_compute.
Qed.

Lemma crosses_down T : crosses T T (T - 1).
Proof. unfold crosses. split; [lia|]. intros. lia. Qed.

Lemma crosses_up T : crosses T (T - 1) T.
Proof. unfold crosses. split; [lia|]. intros. lia. Qed.

Lemma tick_cross_preserves_inside_witness :
  get_fee_growth_inside (crossed 60 3 4 sample_rewards (sample_tick 0))
    (crossed 60 3 4 sample_rewards (sample_tick 60)) 59 3 4 =
  get_fee_growth_inside (sample_tick 0) (sample_tick 60) 60 3 4.
Proof.
  eapply (tick_cross_preserves_inside 60 3 4 sample_rewards 60 59 (sample_tick 0) (sample_tick 60)).
  - apply sample_tick_ok. by_compute.
  - apply sample_tick_ok. by_compute.
  - reflexivity.
  - reflexivity.
  - apply (crosses_down 60).
Defined.

Lemma fee_growth_accrues_in_range_witness :
  get_fee_growth_inside (sample_tick 0) (sample_tick 60) 30 (uwrap 128 (3 + 8)) (uwrap 128 (4 + 9)) =
  (uwrap 128 ((3 - 20) mod 2 ^ 128 + 8), uwrap 128 (6 + 9)).
Proof.
  apply (fee_growth_accrues_in_range (sample_tick 0) (sample_tick 60) 30 3 4 8 9).
  - apply sample_tick_ok. by_compute.
  - apply sample_tick_ok. by_compute.
  - reflexivity.
  - vm_compute. reflexivity.
Defined.

(** * Liquidity updates *)

(** A liquidity change at a boundary tick keeps the books exactly: the
    gross liquidity moves by [delta] and the net by [+delta] (lower) or
    [-delta] (upper), the limit orders are untouched, "flipped" is returned
    exactly when the tick goes between initialized and uninitialized, a tick
    gaining its first liquidity takes the global growth as its outside growth
    when it is at or below the current tick and every other tick keeps its
    own; and the opposite change, at any later price, restores the gross and
    net liquidity and flips the tick exactly if the first one did. *)
Theorem tick_update_exact self c delta g0 g1 upper ris flipped t' :
  tick_ok self ->
  tick_update self c delta g0 g1 upper ris = Ok (flipped, t') ->
  liquidity_gross t' = liquidity_gross self + delta /\ in_u 128 (liquidity_gross t') /\
  liquidity_net t' = (if upper then liquidity_net self - delta else liquidity_net self + delta) /\
  orders_amount t' = orders_amount self /\
  part_filled_orders_remaining t' = part_filled_orders_remaining self /\
  order_phase t' = order_phase self /\
  flipped = xorb (is_initialized self) (is_initialized t') /\
  (fee_growth_outside_0_x64 t', fee_growth_outside_1_x64 t', reward_growths_outside_x64 t') =
    (if (liquidity_gross self =? 0) && (tick self <=? c)
     then (g0, g1, get_reward_growths ris)
     else (fee_growth_outside_0_x64 self, fee_growth_outside_1_x64 self,
           reward_growths_outside_x64 self)) /\
  forall c' h0 h1 ris', exists t'',
    tick_update t' c' (- delta) h0 h1 upper ris' = Ok (flipped, t'') /\
    liquidity_gross t'' = liquidity_gross self /\ liquidity_net t'' = liquidity_net self.
Proof.
  intros [] H. unfold tick_update in H.
  apply obind_Ok in H as (ga & Hga & H). apply add_delta_Ok in Hga as [-> Hga].
  apply obind_Ok in H as (u & Hu & H).
  pose proof Hu as [-> Hur]%ok_or_Ok%ucheck_Some. cbn zeta in H.
  set (s1 := if _ && _ then _ else _) in H.
  assert (liquidity_net s1 = liquidity_net self /\ orders_amount s1 = orders_amount self /\
    part_filled_orders_remaining s1 = part_filled_orders_remaining self /\
    order_phase s1 = order_phase self) as (Hn & Ho & Hp & Hph) by (subst s1; by destruct (_ && _)).
  apply obind_Ok in H as (n & [-> Hnr]%ok_or_Ok%icheck_Some & H). injection H as <- <-.
  set (s2 := set_tick_liquidity _ _ _).
  rewrite Hn in *.
  assert (xorb (liquidity_gross self + delta =? 0) (liquidity_gross self =? 0) &&
    (orders_amount self + part_filled_orders_remaining self =? 0) =
    xorb (is_initialized self) (is_initialized s2)) as Hflip.
  { unfold is_initialized, has_liquidity, has_limit_orders, s2. simpl. rewrite Ho, Hp. unfold in_u in *.
    repeat match goal with |- context [?a =? 0] => destruct (Z.eqb_spec a 0) end;
      repeat match goal with |- context [0 <? ?a] => destruct (Z.ltb_spec 0 a) end;
      simpl; done || lia. }
  split_and!; [done|done|by cbn; rewrite Hn|done|done|done|done| |].
  - subst s1 s2. by destruct (_ && _).
  - intros c' h0 h1 ris'. unfold tick_update. cbn [liquidity_gross liquidity_net s2 set_tick_liquidity].
    rewrite add_delta_ok by (by replace (liquidity_gross self + delta + - delta)
      with (liquidity_gross self) by lia).
    replace (liquidity_gross self + delta + - delta) with (liquidity_gross self) by lia.
    cbn [obind]. unfold limit_order_unfilled_amount in *. cbn [s2 set_tick_liquidity orders_amount
      part_filled_orders_remaining]. rewrite Ho, Hp, Hu. cbn [obind]. cbn zeta.
    match goal with |- context [liquidity_net (if ?b then set_tick_growth ?t ?x ?y ?z else ?t)] =>
      set (s3 := if b then _ else _);
      assert (liquidity_net s3 = liquidity_net t) as -> by (subst s3; by destruct b) end.
    unfold s2. cbn [liquidity_net set_tick_liquidity].
    rewrite icheck_ok by (destruct upper; range). cbn [obind Prelude.ok_or].
    eexists. split; [rewrite (xorb_comm (liquidity_gross self =? 0)); reflexivity|].
    split; [done|]. simpl. destruct upper; lia.
Qed.

Lemma tick_update_exact_witness :
  let t := sample_tick 60 in
  let t' := set_tick_liquidity (set_tick_growth t 3 4 (get_reward_growths sample_rewards)) 7 7 in
  tick_update t 100 7 3 4 false sample_rewards = Ok (true, t') /\
  liquidity_gross t' = liquidity_gross t + 7.
Proof.
  split; [vm_compute; reflexivity|].
  eapply (tick_update_exact (sample_tick 60) 100 7 3 4 false sample_rewards true).
  - apply sample_tick_ok. by_compute.
  - vm_compute. reflexivity.
Defined.
