(* ===== verification/LimitMatch.v ===== *)
(** What a swap does to the limit orders of one tick: the theorems about
    [match_limit_order] of [states/tick_array.rs], whose definitions are in
    [TickState]. *)
From S2P Require Import Prelude.
From S2P Require Import AmmError.
From S2P Require Import Config.
From S2P Require Import BigNum.
From S2P Require Import FullMath.
From S2P Require Import TickMath.
From S2P Require Import SwapMath.
From S2P Require Import Rewards.
From S2P Require Import TickState.

(** The price of a tick in Q64.64, rounded either way. *)
Definition price_down (t : Z) : Z := price_of t * price_of t / 2 ^ 64.
Definition price_up (t : Z) : Z := zceil (price_of t * price_of t) (2 ^ 64).

Lemma price_down_up t :
  MIN_TICK <= t <= MAX_TICK ->
  1 <= price_down t /\ price_down t <= price_up t /\ price_up t < 2 ^ 128.
Proof.
  intros Ht. pose proof (price_of_range t Ht) as Hp.
  unfold MIN_SQRT_PRICE_X64, MAX_SQRT_PRICE_X64 in Hp. split_and!.
  - apply zfloor_ge; [done|]. nia.
  - by apply zfloor_le_zceil.
  - enough (price_up t <= 2 ^ 128 - 1) by lia. apply zceil_le; [done|].
    set (p := price_of t) in *. clearbody p.
    transitivity (79226673521066979257578248091 * 79226673521066979257578248091); [nia|by_compute].
Qed.

Section Amounts.
Context {U : UintLib}.

Local Abbreviation D := FEE_RATE_DENOMINATOR_VALUE.

Lemma get_price_at_tick_ok t up :
  MIN_TICK <= t <= MAX_TICK ->
  get_price_at_tick t up = Ok (if up then price_up t else price_down t).
Proof.
  intros Ht. unfold get_price_at_tick. rewrite get_sqrt_price_at_tick_ok by done. cbn [obind].
  pose proof (price_of_range t Ht) as Hp.
  unfold MIN_SQRT_PRICE_X64, MAX_SQRT_PRICE_X64 in Hp.
  pose proof (price_down_up t Ht) as (H1 & H2 & H3).
  assert (in_u 128 (price_of t)) by range.
  assert (in_u 128 Q64) by by_compute.
  unfold mul_div_ceil_u128, mul_div_floor_u128.
  rewrite mul_div_ceil_big_spec, mul_div_floor_big_spec by done.
  change (Q64 =? 0) with false. change Q64 with (2 ^ 64). cbn match.
  unfold or_overflow. cbn [obind].
  fold (price_down t). fold (price_up t).
  destruct up; rewrite ucheck_ok by range; done.
Qed.

(** The exchange a maker is owed: [num / den] output per input. *)
Definition rate_num (t : Z) (z : bool) : Z := if z then price_down t else 2 ^ 64.
Definition rate_den (t : Z) (z : bool) : Z := if z then 2 ^ 64 else price_up t.

Lemma rate_range t z :
  MIN_TICK <= t <= MAX_TICK ->
  in_u 128 (rate_num t z) /\ in_u 128 (rate_den t z) /\ 0 < rate_num t z /\ 0 < rate_den t z.
Proof.
  intros Ht. pose proof (price_down_up t Ht). unfold rate_num, rate_den.
  destruct z; split_and!; range || by_compute.
Qed.

(** The code's output for an input, and the input for an output. *)
Lemma get_limit_order_output_Ok a t (z : bool) o :
  MIN_TICK <= t <= MAX_TICK -> in_u 64 a ->
  get_limit_order_output a t z = Ok o ->
  o = a * rate_num t z / rate_den t z /\ in_u 64 o.
Proof.
  intros Ht Ha H. destruct (rate_range t z Ht) as (Hn & Hd & Hn0 & Hd0).
  assert (in_u 128 a) by (by apply (in_u_weaken 64)).
  unfold get_limit_order_output in H. rewrite !get_price_at_tick_ok in H by done.
  cbn [obind] in H. unfold mul_div_floor_u128 in H.
  assert ((let! r := or_overflow (mul_div_floor_big 128 a (rate_num t z) (rate_den t z)) in
           big_u64 r) = Ok o) as H' by (by destruct z).
  clear H. rewrite mul_div_floor_big_spec in H' by done.
  destruct (Z.eqb_spec (rate_den t z) 0); [lia|].
  apply obind_Ok in H' as (r & Hr & H').
  apply or_overflow_Ok in Hr. injection Hr as Hr. apply ucheck_Some in Hr as [-> Hr].
  by apply big_u64_Ok in H' as [-> ?].
Qed.

Lemma get_limit_order_input_Ok a t (z : bool) o :
  MIN_TICK <= t <= MAX_TICK -> in_u 64 a ->
  get_limit_order_input a t (negb z) = Ok o ->
  o = zceil (a * rate_den t z) (rate_num t z) /\ in_u 64 o.
Proof.
  intros Ht Ha H. destruct (rate_range t z Ht) as (Hn & Hd & Hn0 & Hd0).
  assert (in_u 128 a) by (by apply (in_u_weaken 64)).
  unfold get_limit_order_input in H. rewrite !get_price_at_tick_ok in H by done.
  cbn [obind] in H. unfold mul_div_ceil_u128 in H.
  assert ((let! r := or_overflow (mul_div_ceil_big 128 a (rate_den t z) (rate_num t z)) in
           big_u64 r) = Ok o) as H' by (by destruct z).
  clear H. rewrite mul_div_ceil_big_spec in H' by done.
  destruct (Z.eqb_spec (rate_num t z) 0); [lia|].
  apply obind_Ok in H' as (r & Hr & H').
  apply or_overflow_Ok in Hr. injection Hr as Hr. apply ucheck_Some in Hr as [-> Hr].
  by apply big_u64_Ok in H' as [-> ?].
Qed.

(** The orders after [out] of them is taken: the part-filled cohort first;
    once it is exhausted the open cohort becomes the part-filled one. *)
Definition consumed_tick (t : TickState) (out : Z) : TickState :=
  if out =? 0 then t
  else if out <=? part_filled_orders_remaining t then
    let rest := part_filled_orders_remaining t - out in
    set_tick_orders t (order_phase t) (orders_amount t) rest
      (unfilled_ratio_x64 t * rest / part_filled_orders_remaining t)
  else
    let rest := orders_amount t + part_filled_orders_remaining t - out in
    set_tick_orders t (usat 64 (order_phase t + 1)) 0 rest (2 ^ 64 * rest / orders_amount t).

Lemma scale_down r d n : 0 <= r -> 0 <= d <= n -> 0 < n -> 0 <= r * d / n <= r.
Proof. intros. split; [apply Z.div_pos; nia|]. apply Z.div_le_upper_bound; nia. Qed.

Lemma scale_down_code r d n :
  in_u 128 r -> in_u 64 n -> 0 <= d <= n -> 0 < n ->
  (let! x := or_overflow (mul_div_floor_u128 r d n) in big_u128 x) = Ok (r * d / n).
Proof.
  intros Hr Hn Hd Hn0. pose proof (scale_down r d n ltac:(range) Hd Hn0).
  unfold mul_div_floor_u128. rewrite mul_div_floor_big_spec by (done || range).
  destruct (Z.eqb_spec n 0); [lia|]. rewrite ucheck_ok by range.
  unfold or_overflow. cbn [obind Prelude.ok_or]. apply big_u128_ok. range.
Qed.

Lemma consume_orders_ok t out :
  tick_ok t -> 0 <= out <= orders_amount t + part_filled_orders_remaining t ->
  consume_orders t out = Ok (consumed_tick t out).
Proof.
  intros [] Ho. unfold consume_orders, consumed_tick.
  destruct t as [ti ne gr g0 g1 rw ph od pa ra].
  cbn [part_filled_orders_remaining orders_amount order_phase unfilled_ratio_x64 set_tick_orders] in *.
  assert (in_u 128 Q64) by by_compute.
  destruct (Z.ltb_spec 0 pa).
  - destruct (Z.eqb_spec out 0) as [->|].
    + rewrite Z.min_r by lia. change (0 <? 0) with false. cbn [obind].
      rewrite !Z.sub_0_r, (usat_id 64 pa), (usat_id 64 0) by range. reflexivity.
    + destruct (Z.ltb_spec 0 (Z.min pa out)); [|lia].
      rewrite uchk_ok by range. cbn [obind]. rewrite scale_down_code by (done || lia).
      cbn [obind part_filled_orders_remaining orders_amount order_phase set_tick_orders].
      rewrite (usat_id 64 (pa - _)), (usat_id 64 (out - _)) by range.
      destruct (Z.leb_spec out pa).
      * rewrite Z.min_r by lia. rewrite Z.sub_diag. done.
      * rewrite Z.min_l by lia. destruct (Z.ltb_spec 0 (out - pa)); [|lia].
        rewrite Z.sub_diag. unfold require_eq. cbn [Z.eqb obind Prelude.require].
        destruct (Z.leb_spec (out - pa) od); [|lia]. cbn [obind Prelude.require].
        rewrite uchk_ok by range. cbn [obind].
        rewrite <- obind_assoc, scale_down_code by (done || lia). cbn [obind].
        by replace (od - (out - pa)) with (od + pa - out) by lia.
  - assert (pa = 0) as -> by range. cbn [obind]. rewrite Z.sub_0_r, usat_id by range.
    destruct (Z.eqb_spec out 0) as [->|]; [done|].
    destruct (Z.ltb_spec 0 out); [|lia]. destruct (Z.leb_spec out 0); [lia|].
    cbn [part_filled_orders_remaining orders_amount order_phase].
    unfold require_eq. cbn [Z.eqb obind Prelude.require].
    destruct (Z.leb_spec out od); [|lia]. cbn [obind Prelude.require].
    rewrite uchk_ok by range. cbn [obind].
    rewrite <- obind_assoc, scale_down_code by (done || lia). cbn [obind].
    by replace (od - out) with (od + 0 - out) by lia.
Qed.

(** The match: the maker's rate is respected and the taker stays within the
    amount of the swap. *)
Definition match_ok (t total swap : Z) (z base : bool) (f : Z) (i : bool)
    (m : LimitOrderMatchResult) : Prop :=
  in_u 64 (lo_amount_in m) /\ in_u 64 (lo_amount_out m) /\ lo_amount_out m <= total /\
  lo_amount_out m * rate_den t z <= lo_amount_in m * rate_num t z /\
  (if i then lo_amount_in m * f <= lo_amm_fee_amount m * (D - f) else lo_amm_fee_amount m = 0) /\
  (if base then
     lo_amount_in m + lo_amm_fee_amount m <= swap /\
     (lo_amount_out m < total -> lo_amount_in m + lo_amm_fee_amount m = swap)
   else
     lo_amount_out m = (if i then Z.min swap total
                        else Z.min (zceil (Z.min swap total * D) (D - f)) total)).

(** The input that buys the whole of [total] is at most the one that would
    have bought more. *)
Lemma input_for_total a total num den :
  0 < num -> 0 < den -> total < a * num / den -> zceil (total * den) num <= a.
Proof.
  intros Hn Hd Ht. pose proof (zfloor_bounds (a * num) den Hd).
  apply zceil_le; [done|]. nia.
Qed.

Lemma fee_floor v f : 0 <= f < D -> v * f <= zceil (v * f) (D - f) * (D - f).
Proof. intros. apply zceil_bounds. lia. Qed.

Lemma match_base_input self total swap z f i m :
  MIN_TICK <= tick self <= MAX_TICK -> in_u 64 total -> in_u 64 swap -> 0 <= f < D ->
  match_amounts self total swap z true f i = Ok m -> match_ok (tick self) total swap z true f i m.
Proof.
  intros Ht Hto Hs Hf H. cbn [match_amounts] in H. unfold match_amounts in H.
  destruct (rate_range (tick self) z Ht) as (_ & _ & Hn & Hd).
  apply obind_Ok in H as ([a1 fee1] & Hfee & H).
  assert (0 <= a1 /\ 0 <= fee1 /\ a1 + fee1 = swap /\
    (if i then fee1 = zceil (swap * f) D else fee1 = 0)) as (Ha1 & Hf1 & Hsum & Hfee1).
  { destruct i; [|injection Hfee as <- <-; range].
    apply obind_Ok in Hfee as (x & [-> Hx]%fee_on_gross & Hfee); [|done|done].
    apply obind_Ok in Hfee as (y & [-> Hy]%uchk_Ok & Hfee). injection Hfee as <- <-. range. }
  clear Hfee. apply obind_Ok in H as (o & [-> Ho]%get_limit_order_output_Ok & H); [|done|range].
  set (num := rate_num _ _) in *. set (den := rate_den _ _) in *.
  destruct (Z.ltb_spec total (a1 * num / den)) as [Hlt|Hge].
  - apply obind_Ok in H as (a2 & [Ha2 Ha2r]%get_limit_order_input_Ok & H); [|done|done].
    fold num den in Ha2.
    apply obind_Ok in H as (fee2 & Hfee2 & H). injection H as <-.
    pose proof (input_for_total a1 total num den Hn Hd Hlt) as Hle. rewrite <- Ha2 in Hle.
    unfold match_ok. cbn [lo_amount_in lo_amount_out lo_amm_fee_amount].
    fold num den. pose proof (zceil_bounds (total * den) num Hn) as [_ Hb]. rewrite <- Ha2 in Hb.
    assert (if i then fee2 = zceil (a2 * f) (D - f) else fee2 = 0) as Hfee2'.
    { destruct i; [by apply fee_on_net in Hfee2 as [-> _]|congruence]. }
    clear Hfee2. split_and!; try done; try lia.
    + destruct i; [rewrite Hfee2'; by apply fee_floor|done].
    + destruct i; [|lia].
      enough (fee2 <= zceil (swap * f) D) by lia. rewrite Hfee2'.
      apply zceil_le; [lia|]. pose proof (zceil_bounds (swap * f) D eq_refl).
      unfold FEE_RATE_DENOMINATOR_VALUE in *. nia.
  - injection H as <-. unfold match_ok. cbn [lo_amount_in lo_amount_out lo_amm_fee_amount].
    fold num den. pose proof (zfloor_bounds (a1 * num) den Hd).
    split_and!; try range.
    destruct i; [|done]. subst fee1. pose proof (zceil_bounds (swap * f) D eq_refl).
    unfold FEE_RATE_DENOMINATOR_VALUE in *. nia.
Qed.

Lemma match_base_output self total swap z f i m :
  MIN_TICK <= tick self <= MAX_TICK -> in_u 64 total -> in_u 64 swap -> 0 <= f < D ->
  match_amounts self total swap z false f i = Ok m -> match_ok (tick self) total swap z false f i m.
Proof.
  intros Ht Hto Hs Hf H. unfold match_amounts in H.
  destruct (rate_range (tick self) z Ht) as (_ & _ & Hn & Hd).
  apply obind_Ok in H as (o & Ho & H).
  apply obind_Ok in H as (a & Ha & H). apply obind_Ok in H as (fee & Hfee & H). injection H as <-.
  assert (in_u 64 o /\ o <= total /\ o = (if i then Z.min swap total
      else Z.min (zceil (Z.min swap total * D) (D - f)) total)) as (Hor & Hot & Ho').
  { destruct i; [injection Ho as <-; split_and!; range|].
    apply obind_Ok in Ho as (d & Hd' & Ho). rewrite fee_denominator in Hd' by done.
    injection Hd' as <-. apply obind_Ok in Ho as (g & Hg & Ho). injection Ho as <-.
    assert (in_u 64 (D - f)) by (unfold FEE_RATE_DENOMINATOR_VALUE in *; range).
    assert (in_u 64 (Z.min swap total)) by range.
    rewrite or_overflow_Ok, mul_div_ceil_u64_spec in Hg by first [assumption | by_compute].
    destruct (Z.eqb_spec (D - f) 0); [lia|]. injection Hg as Hg.
    apply ucheck_Some in Hg as [-> ?]. split_and!; range. }
  apply get_limit_order_input_Ok in Ha as [Ha Har]; [|done|done].
  pose proof (zceil_bounds (o * rate_den (tick self) z) (rate_num (tick self) z) Hn) as [_ Hb].
  rewrite <- Ha in Hb.
  unfold match_ok. cbn [lo_amount_in lo_amount_out lo_amm_fee_amount].
  split_and!; try done.
  destruct i; [|by injection Hfee as <-].
  apply fee_on_net in Hfee as [-> _]; [|done|done]. by apply fee_floor.
Qed.

Lemma match_amounts_ok self total swap z base f i m :
  MIN_TICK <= tick self <= MAX_TICK -> in_u 64 total -> in_u 64 swap -> 0 <= f < D ->
  match_amounts self total swap z base f i = Ok m -> match_ok (tick self) total swap z base f i m.
Proof. destruct base; [apply match_base_input|apply match_base_output]. Qed.
End Amounts.

(** The unfilled amount, and what a match took of it. *)
Definition unfilled (t : TickState) : Z := orders_amount t + part_filled_orders_remaining t.
Definition consumed_by (t t' : TickState) : Z := unfilled t - unfilled t'.

Lemma unfilled_consumed t out :
  0 <= out <= unfilled t -> unfilled (consumed_tick t out) = unfilled t - out.
Proof.
  unfold unfilled, consumed_tick. intros.
  destruct (Z.eqb_spec out 0); [lia|]. destruct (Z.leb_spec out (part_filled_orders_remaining t)); simpl; lia.
Qed.

Lemma consumed_tick_ok t out : tick_ok t -> 0 <= out <= unfilled t -> in_u 64 (unfilled t) ->
  tick_ok (consumed_tick t out).
Proof.
  intros [] Ho Hu. unfold unfilled, consumed_tick in *.
  destruct (Z.eqb_spec out 0); [by constructor|].
  destruct (Z.leb_spec out (part_filled_orders_remaining t)); constructor; simpl; try done; try range.
  - pose proof (scale_down (unfilled_ratio_x64 t) (part_filled_orders_remaining t - out)
      (part_filled_orders_remaining t) ltac:(range) ltac:(range) ltac:(range)). range.
  - by apply usat_in.
  - pose proof (scale_down (2 ^ 64) (orders_amount t + part_filled_orders_remaining t - out)
      (orders_amount t) ltac:(range) ltac:(range) ltac:(range)). range.
Qed.

(** What a successful match did: nothing, or one match of the lemmas above,
    with the fee taken from the output when that is where it is charged. *)
Lemma match_limit_order_inv {U : UintLib} t swap z base f i m t' :
  tick_ok t -> in_u 64 swap -> 0 <= f < FEE_RATE_DENOMINATOR_VALUE ->
  match_limit_order t swap z base f i = Ok (m, t') ->
  in_u 64 (unfilled t) /\
  ((swap = 0 \/ unfilled t = 0) /\ m = mkMatchResult 0 0 0 /\ t' = t \/
   swap <> 0 /\
   exists m0, match_ok (tick t) (unfilled t) swap z base f i m0 /\
     t' = consumed_tick t (lo_amount_out m0) /\
     m = if i then m0 else
         let fee := zceil (lo_amount_out m0 * f) FEE_RATE_DENOMINATOR_VALUE in
         mkMatchResult (lo_amount_in m0) (lo_amount_out m0 - fee) fee).
Proof.
  intros Hk Hs Hf H. unfold match_limit_order, limit_order_unfilled_amount in H.
  apply obind_Ok in H as (u & [-> Hu]%ok_or_Ok%ucheck_Some & H). fold (unfilled t) in *.
  split; [done|]. destruct (Z.eqb_spec swap 0) as [->|], (Z.eqb_spec (unfilled t) 0) as [Hu0|];
    cbn [orb] in H; [left|left|left|right]; try (injection H as <- <-; tauto).
  split; [done|].
  apply obind_Ok in H as (m0 & Hm & H). apply obind_Ok in H as (s & Hc & H).
  apply match_amounts_ok in Hm; [|apply Hk|done..]. exists m0. split; [done|].
  destruct Hm as (Hi & Ho & Hle & _).
  rewrite consume_orders_ok in Hc by (done || (unfold unfilled, in_u in *; lia)). injection Hc as <-.
  destruct i; cbn [negb] in H; [by injection H as <- <-|].
  apply obind_Ok in H as (fee & [-> Hfee]%fee_on_gross & H); [|done|done].
  apply obind_Ok in H as (net & [-> Hnet]%ok_or_Ok%ucheck_Some & H). by injection H as <- <-.
Qed.

(** The rounded rate never favours the taker over the exact price. *)
Lemma exact_rate t (z : bool) a o :
  o * rate_den t z <= a * rate_num t z -> 0 <= o -> 0 <= a ->
  if z then o * 2 ^ 128 <= a * (price_of t * price_of t)
  else o * (price_of t * price_of t) <= a * 2 ^ 128.
Proof.
  intros H Ho Ha. unfold rate_den, rate_num, price_down, price_up in H.
  change (2 ^ 128) with (2 ^ 64 * 2 ^ 64). destruct z.
  - pose proof (zfloor_bounds (price_of t * price_of t) (2 ^ 64) eq_refl). nia.
  - pose proof (zceil_bounds (price_of t * price_of t) (2 ^ 64) eq_refl). nia.
Qed.

(** The net output of an exact-output match. *)
Lemma exact_output_net f (i : bool) total swap o out u' :
  0 <= f < FEE_RATE_DENOMINATOR_VALUE -> 0 <= swap -> 0 <= total -> u' = total - o ->
  o = (if i then Z.min swap total else
       Z.min (zceil (Z.min swap total * FEE_RATE_DENOMINATOR_VALUE) (FEE_RATE_DENOMINATOR_VALUE - f)) total) ->
  out = (if i then o else o - zceil (o * f) FEE_RATE_DENOMINATOR_VALUE) ->
  out <= swap /\ (0 < u' -> out = swap).
Proof.
  set (D := FEE_RATE_DENOMINATOR_VALUE). intros Hf Hs Ht -> Ho ->.
  destruct i; [lia|]. set (n := Z.min swap total) in *.
  pose proof (zceil_bounds (n * D) (D - f) ltac:(lia)) as Hg.
  pose proof (zceil_bounds (o * f) D eq_refl) as Hb.
  set (g := zceil (n * D) (D - f)) in *. set (x := zceil (o * f) D) in *.
  assert (0 < D) by done.
  assert (o - x <= n).
  { assert (o <= g) by lia. clearbody D g x. nia. }
  split; [lia|]. intros Hrest. assert (o = g) as Hog by lia.
  pose proof (net_of_gross n f o Hf ltac:(lia) ltac:(fold D g; lia)) as Hnet. fold D x in Hnet.
  assert (n <= g) by (clearbody D g x; nia). lia.
Qed.

Section Properties.
Context {U : UintLib}.

Local Abbreviation D := FEE_RATE_DENOMINATOR_VALUE.

(** A match fills the limit orders of a tick first in, first out, and
    loses none of them: the swapper receives exactly the orders consumed
    less the fee charged on the output; while the part-filled cohort covers
    the match, the open cohort and the phase stay and the cohort's unfilled
    ratio shrinks in proportion; once it does not, the part-filled cohort is
    exhausted, the open cohort takes its place under the next phase with the
    ratio of it that is left, and no order is left open.  The tick's
    liquidity and growth are untouched. *)
Theorem match_limit_order_fifo t swap z base f i m t' :
  tick_ok t -> in_u 64 swap -> 0 <= f < D ->
  match_limit_order t swap z base f i = Ok (m, t') ->
  let c := consumed_by t t' in
  0 <= c <= unfilled t /\
  lo_amount_out m = c - (if i then 0 else zceil (c * f) D) /\
  (c <= part_filled_orders_remaining t ->
     order_phase t' = order_phase t /\ orders_amount t' = orders_amount t /\
     (0 < c -> unfilled_ratio_x64 t' =
        unfilled_ratio_x64 t * part_filled_orders_remaining t' / part_filled_orders_remaining t)) /\
  (part_filled_orders_remaining t < c ->
     order_phase t' = Z.min (order_phase t + 1) (2 ^ 64 - 1) /\ orders_amount t' = 0 /\
     unfilled_ratio_x64 t' = 2 ^ 64 * part_filled_orders_remaining t' / orders_amount t) /\
  tick t' = tick t /\ liquidity_gross t' = liquidity_gross t /\
  liquidity_net t' = liquidity_net t /\ tick_ok t'.
Proof.
  intros Hk Hs Hf H. apply match_limit_order_inv in H as [Hu H]; [|done..]. cbn zeta.
  destruct H as [(_ & -> & ->)|(_ & m0 & (_ & Ho & Hle & _) & -> & Hm)].
  - unfold consumed_by. rewrite Z.sub_diag. pose proof Hk as []. cbn. split_and!; try done; try range.
    destruct i; [done|]. by rewrite Z.mul_0_l.
  - unfold consumed_by. rewrite unfilled_consumed by range.
    replace (unfilled t - _) with (lo_amount_out m0) by lia.
    split; [range|]. split; [destruct i; subst m; [lia|done]|].
    split; [|split].
    + intros Hc. unfold consumed_tick. destruct (Z.eqb_spec (lo_amount_out m0) 0); [split_and!; done || lia|].
      destruct (Z.leb_spec (lo_amount_out m0) (part_filled_orders_remaining t)); [done|lia].
    + intros Hc. unfold consumed_tick. pose proof (tk_part t Hk). pose proof (tk_phase t Hk).
      destruct (Z.eqb_spec (lo_amount_out m0) 0); [range|].
      destruct (Z.leb_spec (lo_amount_out m0) (part_filled_orders_remaining t)); [lia|].
      cbn. split_and!; [unfold usat; range|done|done].
    + pose proof (consumed_tick_ok t (lo_amount_out m0) Hk ltac:(range) Hu).
      unfold consumed_tick in *.
      destruct (lo_amount_out m0 =? 0), (lo_amount_out m0 <=? part_filled_orders_remaining t); done.
Qed.

(** C35: Makers are never paid less than the price of their tick, and the
    swapper pays no more than the swap allows: the orders consumed are worth
    at most the input that came in at the tick's exact price (input token 0
    against orders in token 1, or the reverse); the fee is at least the fee
    rate of what it is charged on; an exact-input match spends at most the
    given input, fee included, and all of it while orders remain; an
    exact-output match yields at most the output asked for, and all of it
    while orders remain. *)
Theorem match_limit_order_fair t swap z base f i m t' :
  tick_ok t -> in_u 64 swap -> 0 <= f < D ->
  match_limit_order t swap z base f i = Ok (m, t') ->
  let c := consumed_by t t' in
  let p := price_of (tick t) in
  (if z then c * 2 ^ 128 <= lo_amount_in m * (p * p)
   else c * (p * p) <= lo_amount_in m * 2 ^ 128) /\
  (if i then lo_amount_in m * f <= lo_amm_fee_amount m * (D - f)
   else c * f <= lo_amm_fee_amount m * D) /\
  (if base then
     let spent := lo_amount_in m + (if i then lo_amm_fee_amount m else 0) in
     spent <= swap /\ (0 < unfilled t' -> spent = swap)
   else
     lo_amount_out m <= swap /\ (0 < unfilled t' -> lo_amount_out m = swap)).
Proof.
  intros Hk Hs Hf H. apply match_limit_order_inv in H as [Hu H]; [|done..]. cbn zeta.
  destruct H as [(Hz & -> & ->)|(Hs0 & m0 & (Hi & Ho & Hle & Hrate & Hfee & Hbase) & -> & Hm)].
  - unfold consumed_by. rewrite Z.sub_diag. cbn.
    split_and!; [by destruct z|by destruct i|].
    destruct base, i; split; try range; intros; lia.
  - unfold consumed_by. rewrite unfilled_consumed by range.
    replace (unfilled t - (_ - lo_amount_out m0)) with (lo_amount_out m0) by lia.
    assert (lo_amount_in m = lo_amount_in m0) as -> by (by destruct i; subst m).
    split_and!.
    + apply exact_rate; [done|range|range].
    + destruct i; subst m; [done|]. cbn. by apply zceil_bounds.
    + destruct base; [|apply (exact_output_net f i (unfilled t) swap (lo_amount_out m0));
        first [done | range | by destruct i; subst m]].
      destruct Hbase as [Hb1 Hb2]. destruct i; subst m; cbn; [|rewrite Hfee in *];
        (split; [lia|]; intros; lia).
Qed.

(** The intermediate output of an exact-input match is narrowed to [u64]
    before it is capped by the orders of the tick: when the whole input would
    buy between 2^64 and 2^128 units at the tick's price, the match panics and
    the swap reverts, however small the orders are. *)
Theorem match_limit_order_large_input_panics t swap f :
  tick_ok t -> in_u 64 swap -> in_u 64 (unfilled t) -> 0 < swap -> 0 < unfilled t ->
  2 ^ 64 <= swap * price_down (tick t) / 2 ^ 64 < 2 ^ 128 ->
  match_limit_order t swap true true f false = Panic.
Proof.
  intros Hk Hs Hu Hs0 Hu0 Hbig. pose proof (tk_tick t Hk) as Ht.
  destruct (rate_range (tick t) true Ht) as (Hn & _ & _ & _). unfold rate_num in Hn.
  unfold match_limit_order, limit_order_unfilled_amount. fold (unfilled t).
  rewrite ucheck_ok by done. cbn [obind Prelude.ok_or].
  destruct (Z.eqb_spec swap 0), (Z.eqb_spec (unfilled t) 0); try lia. cbn [orb match_amounts obind].
  unfold get_limit_order_output. rewrite get_price_at_tick_ok by done. cbn [obind].
  unfold mul_div_floor_u128.
  assert (in_u 128 swap) by (by apply (in_u_weaken 64)). assert (in_u 128 Q64) by by_compute.
  rewrite mul_div_floor_big_spec by (assumption || lia).
  change (Q64 =? 0) with false. change Q64 with (2 ^ 64). cbn match.
  rewrite ucheck_ok by range. unfold or_overflow. cbn [obind Prelude.ok_or].
  assert (big_u64 (swap * price_down (tick t) / 2 ^ 64) = Panic) as ->; [|done].
  destruct (big_u64 _) eqn:Hb; [apply big_u64_Ok in Hb as [_ Hb]; range| |done].
  unfold big_u64, unwrap in Hb. by destruct (uint_as_u64 _).
Qed.
End Properties.

Definition sample_orders (t : Z) : TickState := set_tick_orders (sample_tick t) 3 50 20 (2 ^ 63).

Lemma sample_orders_ok t : MIN_TICK <= t <= MAX_TICK -> tick_ok (sample_orders t).
Proof.
  intros Ht. destruct (sample_tick_ok t Ht). constructor; try assumption; by_compute.
Qed.

Lemma match_limit_order_fifo_witness :
  match_limit_order (U := uint_std) (sample_orders 0) 60 true true 2500 true =
    Ok (mkMatchResult 59 59 1,
        set_tick_orders (sample_orders 0) 4 0 11 (2 ^ 64 * 11 / 50)) /\
  order_phase (set_tick_orders (sample_orders 0) 4 0 11 (2 ^ 64 * 11 / 50)) =
    Z.min (order_phase (sample_orders 0) + 1) (2 ^ 64 - 1).
Proof.
  split; [vm_compute; reflexivity|].
  apply (match_limit_order_fifo (U := uint_std) (sample_orders 0) 60 true true 2500 true
           (mkMatchResult 59 59 1)).
  - apply sample_orders_ok. by_compute.
  - by_compute.
  - by_compute.
  - vm_compute. reflexivity.
  - vm_compute. reflexivity.
Defined.

Lemma match_limit_order_fair_witness :
  match_limit_order (U := uint_std) (sample_orders 0) 30 false false 2500 false =
    Ok (mkMatchResult 31 30 1,
        set_tick_orders (sample_orders 0) 4 0 39 (2 ^ 64 * 39 / 50)) /\ 30 <= 30.
Proof.
  split; [vm_compute; reflexivity|].
  apply (match_limit_order_fair (U := uint_std) (sample_orders 0) 30 false false 2500 false
           (mkMatchResult 31 30 1)
           (set_tick_orders (sample_orders 0) 4 0 39 (2 ^ 64 * 39 / 50))).
  - apply sample_orders_ok. by_compute.
  - by_compute.
  - by_compute.
  - vm_compute. reflexivity.
Defined.

Lemma match_limit_order_large_input_panics_witness :
  unfilled (sample_orders 400000) = 70 /\
  match_limit_order (U := uint_std) (sample_orders 400000) 1000000 true true 2500 false = Panic.
Proof.
  split; [reflexivity|]. apply match_limit_order_large_input_panics.
  - apply sample_orders_ok. by_compute.
  - by_compute.
  - by_compute.
  - reflexivity.
  - reflexivity.
  - by_compute.
Defined.
