(* ===== verification/TickArray.v ===== *)
(** [TickArrayState] of [states/tick_array.rs]: sixty consecutive ticks of the
    spacing's grid, their lookup and update by tick index, and the search for
    the next initialized one.  A [&mut TickState] the code returns is the offset
    of the tick in the array, whose update is written back with
    [set_tick_at]; the address derivation, the recent epoch and the padding are
    not modelled. *)
From S2P Require Import Prelude.
From S2P Require Import AmmError.
From S2P Require Import Config.
From S2P Require Import TickMath.
From S2P Require Import TickIndex.
From S2P Require Import TickBitmap.
From S2P Require Import Rewards.
From S2P Require Import TickState.

Record TickArrayState := mkTickArray {
  ta_pool_id : Pubkey;
  start_tick_index : Z;
  ticks : list TickState;
  initialized_tick_count : Z;
}.

Definition default_tick_array : TickArrayState :=
  mkTickArray default_pubkey 0 (replicate TICK_ARRAY_SIZE_USIZE default_tick_state) 0.

Definition set_ticks (self : TickArrayState) ts : TickArrayState :=
  mkTickArray (ta_pool_id self) (start_tick_index self) ts (initialized_tick_count self).

(** [TickArrayState::initialize]: the validity check's result is discarded. *)
Definition tick_array_initialize (self : TickArrayState) (start_index tick_spacing : Z)
    (pool_key : Pubkey) : Result TickArrayState :=
  let! _ := check_is_valid_start_index start_index tick_spacing in
  Ok (mkTickArray pool_key start_index (ticks self) (initialized_tick_count self)).

(** [get_or_create_tick_array]: [existing] is the account's state, [None] when
    the account still belongs to the system program. *)
Definition get_or_create_tick_array (existing : option TickArrayState) (pool_state : Pubkey)
    (tick_array_start_index tick_spacing : Z) : Result TickArrayState :=
  let! valid := check_is_valid_start_index tick_array_start_index tick_spacing in
  do! require valid InvalidTickIndex in
  match existing with
  | None => tick_array_initialize default_tick_array tick_array_start_index tick_spacing pool_state
  | Some a => Ok a
  end.

Definition update_initialized_tick_count (self : TickArrayState) (add : bool) : Result TickArrayState :=
  let! n := ok_or (ucheck 8 (if add then initialized_tick_count self + 1
                             else initialized_tick_count self - 1)) CalculateOverflow in
  Ok (mkTickArray (ta_pool_id self) (start_tick_index self) (ticks self) n).

(** The [as usize] cast of the offset is the value itself when the division is
    non-negative, which the start-index check gives. *)
Definition get_tick_offset_in_array (self : TickArrayState) (tick_index tick_spacing : Z) : Result Z :=
  let! start := get_array_start_index tick_index tick_spacing in
  do! require (start =? start_tick_index self) InvalidTickArray in
  let! d := ichk 32 (tick_index - start_tick_index self) in
  let! o := idiv 32 d tick_spacing in
  Ok (uwrap 64 o).

Definition get_tick_state (self : TickArrayState) (tick_index tick_spacing : Z) : Result TickState :=
  let! o := get_tick_offset_in_array self tick_index tick_spacing in
  idx (ticks self) o.

Definition set_tick_at (self : TickArrayState) (o : Z) (t : TickState) : Result TickArrayState :=
  let! ts := set_idx (ticks self) o t in
  Ok (set_ticks self ts).

Definition update_tick_state (self : TickArrayState) (tick_index tick_spacing : Z) (t : TickState) :
    Result TickArrayState :=
  let! o := get_tick_offset_in_array self tick_index tick_spacing in
  set_tick_at self o t.

(** [iter().find(...)] over offsets. *)
Fixpoint find_offset (f : Z -> Result bool) (l : list Z) : Result (option Z) :=
  match l with
  | [] => Ok None
  | i :: l => let! b := f i in if b then Ok (Some i) else find_offset f l
  end.

Definition initialized_at (self : TickArrayState) (i : Z) : Result bool :=
  let! t := idx (ticks self) i in Ok (is_initialized t).

(** The offsets [lo .. hi - 1]. *)
Definition offsets (lo hi : Z) : list Z := (fun i => lo + i) <$> range_z (Z.to_nat (hi - lo)).

Definition first_initialized_tick (self : TickArrayState) (zero_for_one : bool) : Result Z :=
  let all := offsets 0 (Z.of_nat (length (ticks self))) in
  let! o := find_offset (initialized_at self) (if zero_for_one then rev all else all) in
  ok_or o InvalidTickArray.

Definition next_initialized_tick (self : TickArrayState) (current_tick_index tick_spacing : Z)
    (zero_for_one : bool) : Result (option Z) :=
  let! current_tick_array_start_index := get_array_start_index current_tick_index tick_spacing in
  if negb (current_tick_array_start_index =? start_tick_index self) then Ok None
  else
    let! d := ichk 32 (current_tick_index - start_tick_index self) in
    let! offset_in_array := idiv 32 d tick_spacing in
    let! o1 := ichk 32 (offset_in_array + 1) in
    find_offset (initialized_at self)
      (if zero_for_one then rev (offsets 0 o1) else offsets o1 TICK_ARRAY_SIZE).

Definition next_tick_arrary_start_index (self : TickArrayState) (tick_spacing : Z)
    (zero_for_one : bool) : Result Z :=
  let! ticks_in_array := ichk 32 (TICK_ARRAY_SIZE * tick_spacing) in
  if zero_for_one then ichk 32 (start_tick_index self - ticks_in_array)
  else ichk 32 (start_tick_index self + ticks_in_array).

(** * The array as a map from grid ticks *)

(** The invariant: sixty ticks, a start on the array grid. *)
Record array_ok (s : Z) (self : TickArrayState) : Prop := {
  ao_len : length (ticks self) = TICK_ARRAY_SIZE_USIZE;
  ao_start : array_start (start_tick_index self) s = start_tick_index self;
  ao_small : small (start_tick_index self);
}.

(** Whether the tick at offset [i] is initialized. *)
Definition live (self : TickArrayState) (i : Z) : bool :=
  match ticks self !! Z.to_nat i with Some t => is_initialized t | None => false end.

Lemma offsets_cons lo hi : lo < hi -> offsets lo hi = lo :: offsets (lo + 1) hi.
Proof.
  intros H. unfold offsets, range_z.
  replace (Z.to_nat (hi - lo)) with (S (Z.to_nat (hi - (lo + 1)))) by lia.
  cbn [seq fmap list_fmap]. f_equal; [lia|]. rewrite <- fmap_S_seq, <- !list_fmap_compose.
  apply list_fmap_ext. intros i x _. unfold compose. lia.
Qed.

Lemma offsets_nil lo hi : hi <= lo -> offsets lo hi = [].
Proof. intros H. unfold offsets. by replace (Z.to_nat (hi - lo)) with 0%nat by lia. Qed.

Lemma offsets_snoc lo hi : lo < hi -> offsets lo hi = offsets lo (hi - 1) ++ [hi - 1].
Proof.
  intros H. unfold offsets, range_z.
  replace (Z.to_nat (hi - lo)) with (S (Z.to_nat (hi - 1 - lo))) by lia.
  rewrite seq_S, !fmap_app. simpl. do 2 f_equal. lia.
Qed.

(** The search over offsets is the reference search. *)
Lemma find_up (P : Z -> bool) (f : Z -> Result bool) lo hi :
  (forall i, lo <= i < hi -> f i = Ok (P i)) ->
  exists o, find_offset f (offsets lo hi) = Ok o /\ nearest P lo hi false o.
Proof.
  remember (Z.to_nat (hi - lo)) as n eqn:Hn. revert lo Hn. induction n as [|n IH]; intros lo Hn Hf.
  - rewrite offsets_nil by lia. exists None. split; [done|]. intros i. lia.
  - rewrite offsets_cons by lia. cbn [find_offset]. rewrite Hf by lia. cbn [obind].
    destruct (P lo) eqn:HP.
    + exists (Some lo). split; [done|]. split; [lia|]. split; [done|]. intros i. lia.
    + destruct (IH (lo + 1)) as (o & -> & Ho); [lia|intros; apply Hf; lia|].
      exists o. split; [done|]. apply (nearest_join_none P lo (lo + 1) hi); [lia|]. split; [|done].
      intros i Hi. by replace i with lo by lia.
Qed.

Lemma find_down (P : Z -> bool) (f : Z -> Result bool) lo hi :
  (forall i, lo <= i < hi -> f i = Ok (P i)) ->
  exists o, find_offset f (rev (offsets lo hi)) = Ok o /\ nearest P lo hi true o.
Proof.
  remember (Z.to_nat (hi - lo)) as n eqn:Hn. revert hi Hn. induction n as [|n IH]; intros hi Hn Hf.
  - rewrite offsets_nil by lia. exists None. split; [done|]. intros i. lia.
  - rewrite offsets_snoc, rev_unit by lia. cbn [find_offset]. rewrite Hf by lia. cbn [obind].
    destruct (P (hi - 1)) eqn:HP.
    + exists (Some (hi - 1)). split; [done|]. split; [lia|]. split; [done|]. intros i. lia.
    + destruct (IH (hi - 1)) as (o & -> & Ho); [lia|intros; apply Hf; lia|].
      exists o. split; [done|]. apply (nearest_join_none P lo (hi - 1) hi); [lia|]. split; [|done].
      intros i Hi. by replace i with (hi - 1) by lia.
Qed.

Lemma initialized_at_ok s self i :
  array_ok s self -> 0 <= i < 60 -> initialized_at self i = Ok (live self i).
Proof.
  intros [Hl _ _] Hi. unfold initialized_at, live, idx. destruct (Z.ltb_spec i 0); [lia|].
  destruct (lookup_lt_is_Some_2 (ticks self) (Z.to_nat i)) as [t ->]; [|done].
  unfold TICK_ARRAY_SIZE_USIZE in Hl. lia.
Qed.

(** The offset of a tick of the array. *)
Lemma offset_in_array_ok s self t :
  spacing_ok s -> array_ok s self -> small t -> array_start t s = start_tick_index self ->
  0 <= (t - start_tick_index self) / s < 60 /\
  (let! d := ichk 32 (t - start_tick_index self) in idiv 32 d s) =
    @Ok error _ ((t - start_tick_index self) / s).
Proof.
  intros Hs Ha Ht Hst. pose proof (array_start_bounds t s Hs) as Hb. rewrite Hst in Hb.
  unfold tpa in Hb. pose proof Hs as [Hs0 Hs1].
  assert (0 <= (t - start_tick_index self) / s < 60) as Hr.
  { split; [apply Z.div_pos; lia|]. apply Z.div_lt_upper_bound; lia. }
  split; [done|]. rewrite ichk_ok by (unfold in_i; lia). cbn [obind].
  apply idiv_Ok. rewrite Z.quot_div_nonneg by lia. split; [lia|]. split; [done|range].
Qed.

Lemma tick_offset_ok s self t :
  spacing_ok s -> array_ok s self -> small t ->
  get_tick_offset_in_array self t s =
  if array_start t s =? start_tick_index self then Ok ((t - start_tick_index self) / s)
  else err InvalidTickArray.
Proof.
  intros Hs Ha Ht. unfold get_tick_offset_in_array.
  rewrite get_array_start_index_ok by done. cbn [obind].
  destruct (Z.eqb_spec (array_start t s) (start_tick_index self)) as [Hst|]; [|done].
  destruct (offset_in_array_ok s self t Hs Ha Ht Hst) as [Hr Hoff].
  cbn [obind Prelude.require]. rewrite <- obind_assoc, Hoff. cbn [obind].
  by rewrite uwrap_id by range.
Qed.

(** A tick of the grid is its offset's. *)
Lemma grid_offset s self t :
  spacing_ok s -> array_ok s self -> t mod s = 0 ->
  t = start_tick_index self + (t - start_tick_index self) / s * s.
Proof.
  intros [Hs _] [_ Hst _] Hm. unfold array_start, tpa in Hst.
  assert (start_tick_index self = start_tick_index self / (60 * s) * 60 * s) as Hst' by lia.
  set (q := start_tick_index self / (60 * s) * 60) in *. rewrite Hst'.
  pose proof (Z.div_mod t s ltac:(lia)) as Ht. rewrite Hm in Ht.
  rewrite Ht at 2. replace (s * (t / s) + 0 - q * s) with ((t / s - q) * s) by lia.
  rewrite Z.div_mul by lia. lia.
Qed.

Section Properties.
Local Abbreviation start := start_tick_index.

(** The search inside an array finds the nearest initialized tick: going
    down it returns the greatest initialized tick at or below the current
    tick, going up the least one strictly above it, whether or not the
    current tick is on the grid; it returns none exactly when the array has
    no such tick or is not the array of the current tick, and it never
    panics. *)
Theorem next_initialized_tick_nearest s self t (zfo : bool) :
  spacing_ok s -> array_ok s self -> small t ->
  exists o, next_initialized_tick self t s zfo = Ok o /\
  if array_start t s =? start self then
    match o with
    | Some i =>
        0 <= i < 60 /\ live self i = true /\
        (if zfo then start self + i * s <= t else t < start self + i * s) /\
        forall j, 0 <= j < 60 ->
          (if zfo then start self + i * s < start self + j * s <= t
           else t < start self + j * s < start self + i * s) -> live self j = false
    | None =>
        forall j, 0 <= j < 60 ->
          (if zfo then start self + j * s <= t else t < start self + j * s) -> live self j = false
    end
  else o = None.
Proof.
  intros Hs Ha Ht. unfold next_initialized_tick.
  rewrite get_array_start_index_ok by done. cbn [obind].
  destruct (Z.eqb_spec (array_start t s) (start self)) as [Hst|]; cbn [negb]; [|by eexists].
  destruct (offset_in_array_ok s self t Hs Ha Ht Hst) as [Hr Hoff].
  rewrite <- obind_assoc, Hoff. cbn [obind]. rewrite ichk_ok by range. cbn [obind].
  set (k := (t - start self) / s) in *.
  assert (forall j, start self + j * s <= t <-> j <= k) as Hk.
  { intros j. pose proof (zfloor_bounds (t - start self) s ltac:(unfold spacing_ok in *; lia)) as Hb.
    fold k in Hb. unfold spacing_ok in *. clearbody k. split; intros; nia. }
  assert (forall j j', start self + j * s < start self + j' * s <-> j < j') as Hlt
    by (unfold spacing_ok in *; intros; split; intros; nia).
  destruct zfo.
  - destruct (find_down (live self) (initialized_at self) 0 (k + 1)) as (o & -> & Ho).
    { intros i Hi. apply (initialized_at_ok s); [done|lia]. }
    exists o. split; [done|]. destruct o as [i|]; cbn [nearest] in Ho.
    + destruct Ho as (Hi & HP & Hf). split; [lia|]. split; [done|]. split; [apply Hk; lia|].
      intros j Hj [Hij Hjt]. apply Hf. apply (proj1 (Hlt i j)) in Hij. apply Hk in Hjt. lia.
    + intros j Hj Hjt. apply Hk in Hjt. apply Ho. lia.
  - destruct (find_up (live self) (initialized_at self) (k + 1) TICK_ARRAY_SIZE) as (o & -> & Ho).
    { unfold TICK_ARRAY_SIZE. intros i Hi. apply (initialized_at_ok s); [done|lia]. }
    unfold TICK_ARRAY_SIZE in Ho. exists o. split; [done|].
    assert (forall j, t < start self + j * s <-> k < j) as Hk' by (intros j; specialize (Hk j); lia).
    destruct o as [i|]; cbn [nearest] in Ho.
    + destruct Ho as (Hi & HP & Hf). split; [lia|]. split; [done|]. split; [apply Hk'; lia|].
      intros j Hj [Hjt Hij]. apply Hf. apply (proj1 (Hlt j i)) in Hij. apply Hk' in Hjt. lia.
    + intros j Hj Hjt. apply Hk' in Hjt. apply Ho. lia.
Qed.

(** Tick states are stored and found by tick index: updating a tick of
    the array's range succeeds, keeps the array well formed, is read back by
    [get_tick_state] and changes no other tick of the grid; a tick outside
    the array is refused with [InvalidTickArray], by update and by lookup. *)
Theorem update_get_tick_state s self t x :
  spacing_ok s -> array_ok s self -> small t -> t mod s = 0 ->
  if array_start t s =? start self then
    exists self', update_tick_state self t s x = Ok self' /\ array_ok s self' /\
      get_tick_state self' t s = Ok x /\
      forall t', small t' -> t' mod s = 0 -> t' <> t ->
        get_tick_state self' t' s = get_tick_state self t' s
  else
    update_tick_state self t s x = err InvalidTickArray /\
    get_tick_state self t s = err InvalidTickArray.
Proof.
  intros Hs Ha Ht Hm. unfold update_tick_state, get_tick_state.
  destruct (Z.eqb_spec (array_start t s) (start self)) as [Hst|Hst].
  - rewrite (tick_offset_ok s) by done. rewrite Hst, Z.eqb_refl. cbn [obind].
    destruct (offset_in_array_ok s self t Hs Ha Ht Hst) as [Hr _].
    set (k := (t - start self) / s) in *.
    pose proof (ao_len s self Ha) as Hlen. unfold TICK_ARRAY_SIZE_USIZE in Hlen.
    unfold set_tick_at. rewrite set_idx_ok by lia. cbn [obind]. eexists. split; [done|].
    assert (array_ok s (set_ticks self (<[Z.to_nat k:=x]> (ticks self)))) as Ha'.
    { destruct Ha. constructor; cbn; try done. by rewrite length_insert. }
    split; [done|]. split.
    + rewrite (tick_offset_ok s) by done. cbn [start_tick_index set_ticks]. rewrite Hst, Z.eqb_refl.
      fold k. cbn [obind ticks set_ticks]. apply idx_Ok. split; [lia|].
      apply list_lookup_insert_eq. lia.
    + intros t' Ht' Hm' Hne. rewrite !(tick_offset_ok s) by done.
      cbn [start_tick_index set_ticks]. destruct (Z.eqb_spec (array_start t' s) (start self)) as [Hst'|]; [|done].
      cbn [obind ticks set_ticks].
      destruct (offset_in_array_ok s self t' Hs Ha Ht' Hst') as [Hr' _].
      assert ((t' - start self) / s <> k).
      { pose proof (grid_offset s self t Hs Ha Hm). pose proof (grid_offset s self t' Hs Ha Hm').
        fold k in H. congruence || (intros He; rewrite He in *; lia). }
      unfold idx. destruct (Z.ltb_spec ((t' - start self) / s) 0); [lia|].
      rewrite list_lookup_insert_ne; [done|]. lia.
  - rewrite (tick_offset_ok s) by done. apply Z.eqb_neq in Hst as ->. done.
Qed.
End Properties.

(** An array with two initialized ticks, 120 and 300 of spacing 10. *)
Definition sample_array : TickArrayState :=
  set_ticks default_tick_array
    (<[12%nat := set_tick_liquidity default_tick_state 5 5]>
      (<[30%nat := set_tick_liquidity default_tick_state (-5) 5]> (ticks default_tick_array))).

Lemma sample_array_ok : array_ok 10 sample_array.
Proof. constructor; [reflexivity|reflexivity|by_compute]. Qed.

Lemma next_initialized_tick_nearest_witness :
  next_initialized_tick sample_array 299 10 true = Ok (Some 12) /\
  exists o, next_initialized_tick sample_array 120 10 false = Ok o.
Proof.
  split; [reflexivity|].
  destruct (next_initialized_tick_nearest 10 sample_array 120 false) as (o & Ho & _);
    [by_compute|apply sample_array_ok|by_compute|].
  by exists o.
Defined.

Lemma update_get_tick_state_witness :
  exists a, update_tick_state sample_array 50 10 (set_tick default_tick_state 50) = Ok a /\
    get_tick_state a 50 10 = Ok (set_tick default_tick_state 50).
Proof.
  destruct (update_get_tick_state 10 sample_array 50 (set_tick default_tick_state 50)) as (a & Ha & _ & Hg & _);
    [by_compute|apply sample_array_ok|by_compute|reflexivity|].
  by exists a.
Defined.
