(* ===== verification/Pool.v ===== *)
(** [PoolState] of [states/pool.rs] (with its methods of [states/pool_fee.rs]):
    the pool's record, its initialization, its rewards, its status bits, and
    the bookkeeping of fees after a swap.  The tick-array bitmap operations are
    in [PoolBitmap]; the accrual of rewards is in [Rewards].

    Padding, the recent epoch and the account's address are not modelled.  The
    emitted-fee counters keep the code's widths; [reward_infos] has
    [REWARD_NUM] entries. *)
From S2P Require Import Prelude.
From S2P Require Import AmmError.
From S2P Require Import BigNum.
From S2P Require Import Config.
From S2P Require Import BitmapExtension.
From S2P Require Import Operation.
From S2P Require Import DynamicFee.
From S2P Require Import Rewards.

Inductive PoolStatusBitIndex : Set :=
| OpenPositionOrIncreaseLiquidity
| DecreaseLiquidity
| CollectFee
| CollectReward
| Swap
| LimitOrder.

Inductive PoolStatusBitFlag : Set := Enable | Disable.

#[export] Instance PoolStatusBitIndex_eq_dec : EqDecision PoolStatusBitIndex.
Proof. solve_decision. Defined.

(** [bit as u8] *)
Definition bit_index (b : PoolStatusBitIndex) : Z :=
  match b with
  | OpenPositionOrIncreaseLiquidity => 0
  | DecreaseLiquidity => 1
  | CollectFee => 2
  | CollectReward => 3
  | Swap => 4
  | LimitOrder => 5
  end.

Record PoolState := mkPoolState {
  pool_bump : Z;
  amm_config_key : Pubkey;
  pool_owner : Pubkey;
  token_mint_0 : Pubkey;
  token_mint_1 : Pubkey;
  token_vault_0 : Pubkey;
  token_vault_1 : Pubkey;
  observation_key : Pubkey;
  mint_decimals_0 : Z;
  mint_decimals_1 : Z;
  pool_tick_spacing : Z;
  liquidity : Z;
  sqrt_price_x64 : Z;
  tick_current : Z;
  fee_growth_global_0_x64 : Z;
  fee_growth_global_1_x64 : Z;
  protocol_fees_token_0 : Z;
  protocol_fees_token_1 : Z;
  pool_status : Z;
  fee_on : Z;
  reward_infos : list RewardInfo;
  tick_array_bitmap : U1024.words;
  fund_fees_token_0 : Z;
  fund_fees_token_1 : Z;
  pool_open_time : Z;
  dynamic_fee_info : DynamicFeeInfo;
}.

(** Field updates. *)
Definition set_pool_liquidity (p : PoolState) v : PoolState :=
  mkPoolState (pool_bump p) (amm_config_key p) (pool_owner p) (token_mint_0 p) (token_mint_1 p)
    (token_vault_0 p) (token_vault_1 p) (observation_key p) (mint_decimals_0 p)
    (mint_decimals_1 p) (pool_tick_spacing p) v (sqrt_price_x64 p) (tick_current p)
    (fee_growth_global_0_x64 p) (fee_growth_global_1_x64 p) (protocol_fees_token_0 p)
    (protocol_fees_token_1 p) (pool_status p) (fee_on p) (reward_infos p) (tick_array_bitmap p)
    (fund_fees_token_0 p) (fund_fees_token_1 p) (pool_open_time p) (dynamic_fee_info p).
Definition set_pool_price (p : PoolState) price t : PoolState :=
  mkPoolState (pool_bump p) (amm_config_key p) (pool_owner p) (token_mint_0 p) (token_mint_1 p)
    (token_vault_0 p) (token_vault_1 p) (observation_key p) (mint_decimals_0 p)
    (mint_decimals_1 p) (pool_tick_spacing p) (liquidity p) price t (fee_growth_global_0_x64 p)
    (fee_growth_global_1_x64 p) (protocol_fees_token_0 p) (protocol_fees_token_1 p)
    (pool_status p) (fee_on p) (reward_infos p) (tick_array_bitmap p) (fund_fees_token_0 p)
    (fund_fees_token_1 p) (pool_open_time p) (dynamic_fee_info p).
Definition set_fee_growth_global_0 (p : PoolState) v : PoolState :=
  mkPoolState (pool_bump p) (amm_config_key p) (pool_owner p) (token_mint_0 p) (token_mint_1 p)
    (token_vault_0 p) (token_vault_1 p) (observation_key p) (mint_decimals_0 p)
    (mint_decimals_1 p) (pool_tick_spacing p) (liquidity p) (sqrt_price_x64 p) (tick_current p) v
    (fee_growth_global_1_x64 p) (protocol_fees_token_0 p) (protocol_fees_token_1 p)
    (pool_status p) (fee_on p) (reward_infos p) (tick_array_bitmap p) (fund_fees_token_0 p)
    (fund_fees_token_1 p) (pool_open_time p) (dynamic_fee_info p).
Definition set_fee_growth_global_1 (p : PoolState) v : PoolState :=
  mkPoolState (pool_bump p) (amm_config_key p) (pool_owner p) (token_mint_0 p) (token_mint_1 p)
    (token_vault_0 p) (token_vault_1 p) (observation_key p) (mint_decimals_0 p)
    (mint_decimals_1 p) (pool_tick_spacing p) (liquidity p) (sqrt_price_x64 p) (tick_current p)
    (fee_growth_global_0_x64 p) v (protocol_fees_token_0 p) (protocol_fees_token_1 p)
    (pool_status p) (fee_on p) (reward_infos p) (tick_array_bitmap p) (fund_fees_token_0 p)
    (fund_fees_token_1 p) (pool_open_time p) (dynamic_fee_info p).
Definition set_protocol_fees (p : PoolState) v0 v1 : PoolState :=
  mkPoolState (pool_bump p) (amm_config_key p) (pool_owner p) (token_mint_0 p) (token_mint_1 p)
    (token_vault_0 p) (token_vault_1 p) (observation_key p) (mint_decimals_0 p)
    (mint_decimals_1 p) (pool_tick_spacing p) (liquidity p) (sqrt_price_x64 p) (tick_current p)
    (fee_growth_global_0_x64 p) (fee_growth_global_1_x64 p) v0 v1 (pool_status p) (fee_on p)
    (reward_infos p) (tick_array_bitmap p) (fund_fees_token_0 p) (fund_fees_token_1 p)
    (pool_open_time p) (dynamic_fee_info p).
Definition set_fund_fees (p : PoolState) v0 v1 : PoolState :=
  mkPoolState (pool_bump p) (amm_config_key p) (pool_owner p) (token_mint_0 p) (token_mint_1 p)
    (token_vault_0 p) (token_vault_1 p) (observation_key p) (mint_decimals_0 p)
    (mint_decimals_1 p) (pool_tick_spacing p) (liquidity p) (sqrt_price_x64 p) (tick_current p)
    (fee_growth_global_0_x64 p) (fee_growth_global_1_x64 p) (protocol_fees_token_0 p)
    (protocol_fees_token_1 p) (pool_status p) (fee_on p) (reward_infos p) (tick_array_bitmap p) v0
    v1 (pool_open_time p) (dynamic_fee_info p).
Definition set_pool_status (p : PoolState) v : PoolState :=
  mkPoolState (pool_bump p) (amm_config_key p) (pool_owner p) (token_mint_0 p) (token_mint_1 p)
    (token_vault_0 p) (token_vault_1 p) (observation_key p) (mint_decimals_0 p)
    (mint_decimals_1 p) (pool_tick_spacing p) (liquidity p) (sqrt_price_x64 p) (tick_current p)
    (fee_growth_global_0_x64 p) (fee_growth_global_1_x64 p) (protocol_fees_token_0 p)
    (protocol_fees_token_1 p) v (fee_on p) (reward_infos p) (tick_array_bitmap p)
    (fund_fees_token_0 p) (fund_fees_token_1 p) (pool_open_time p) (dynamic_fee_info p).
Definition set_pool_fee_on (p : PoolState) v : PoolState :=
  mkPoolState (pool_bump p) (amm_config_key p) (pool_owner p) (token_mint_0 p) (token_mint_1 p)
    (token_vault_0 p) (token_vault_1 p) (observation_key p) (mint_decimals_0 p)
    (mint_decimals_1 p) (pool_tick_spacing p) (liquidity p) (sqrt_price_x64 p) (tick_current p)
    (fee_growth_global_0_x64 p) (fee_growth_global_1_x64 p) (protocol_fees_token_0 p)
    (protocol_fees_token_1 p) (pool_status p) v (reward_infos p) (tick_array_bitmap p)
    (fund_fees_token_0 p) (fund_fees_token_1 p) (pool_open_time p) (dynamic_fee_info p).
Definition set_reward_infos (p : PoolState) (rs : list RewardInfo) : PoolState :=
  mkPoolState (pool_bump p) (amm_config_key p) (pool_owner p) (token_mint_0 p) (token_mint_1 p)
    (token_vault_0 p) (token_vault_1 p) (observation_key p) (mint_decimals_0 p)
    (mint_decimals_1 p) (pool_tick_spacing p) (liquidity p) (sqrt_price_x64 p) (tick_current p)
    (fee_growth_global_0_x64 p) (fee_growth_global_1_x64 p) (protocol_fees_token_0 p)
    (protocol_fees_token_1 p) (pool_status p) (fee_on p) rs (tick_array_bitmap p)
    (fund_fees_token_0 p) (fund_fees_token_1 p) (pool_open_time p) (dynamic_fee_info p).
Definition set_bitmap (p : PoolState) (bm : U1024.words) : PoolState :=
  mkPoolState (pool_bump p) (amm_config_key p) (pool_owner p) (token_mint_0 p) (token_mint_1 p)
    (token_vault_0 p) (token_vault_1 p) (observation_key p) (mint_decimals_0 p)
    (mint_decimals_1 p) (pool_tick_spacing p) (liquidity p) (sqrt_price_x64 p) (tick_current p)
    (fee_growth_global_0_x64 p) (fee_growth_global_1_x64 p) (protocol_fees_token_0 p)
    (protocol_fees_token_1 p) (pool_status p) (fee_on p) (reward_infos p) bm (fund_fees_token_0 p)
    (fund_fees_token_1 p) (pool_open_time p) (dynamic_fee_info p).
Definition set_pool_dynamic_fee_info (p : PoolState) (i : DynamicFeeInfo) : PoolState :=
  mkPoolState (pool_bump p) (amm_config_key p) (pool_owner p) (token_mint_0 p) (token_mint_1 p)
    (token_vault_0 p) (token_vault_1 p) (observation_key p) (mint_decimals_0 p)
    (mint_decimals_1 p) (pool_tick_spacing p) (liquidity p) (sqrt_price_x64 p) (tick_current p)
    (fee_growth_global_0_x64 p) (fee_growth_global_1_x64 p) (protocol_fees_token_0 p)
    (protocol_fees_token_1 p) (pool_status p) (fee_on p) (reward_infos p) (tick_array_bitmap p)
    (fund_fees_token_0 p) (fund_fees_token_1 p) (pool_open_time p) i.

(** [PoolState::initialize] *)
Definition pool_initialize (bump_ sqrt_price open_time tick : Z) (pool_creator vault_0 vault_1 : Pubkey)
    (config_key : Pubkey) (amm_config : AmmConfig) (mint_0 mint_1 : Pubkey) (decimals_0 decimals_1 : Z)
    (observation_state_key : Pubkey) (collect_fee_on : CollectFeeOn) : PoolState :=
  mkPoolState bump_ config_key pool_creator mint_0 mint_1 vault_0 vault_1 observation_state_key
    decimals_0 decimals_1 (tick_spacing amm_config) 0 sqrt_price tick 0 0 0 0 0
    (collect_fee_on_to_u8 collect_fee_on) (replicate REWARD_NUM (reward_info_new pool_creator))
    U1024.zero 0 0 open_time default_dynamic_fee_info.

(** ** Rewards *)

(** [iter().position(|r| !r.initialized())] *)
Fixpoint position_uninitialized (rs : list RewardInfo) : option nat :=
  match rs with
  | [] => None
  | r :: rs => if negb (reward_initialized r) then Some 0%nat else S <$> position_uninitialized rs
  end.

(** Which mints may take which slot. *)
Definition reward_slot_check (admin_ID : Pubkey) (p : PoolState) (op : OperationState)
    (lowest_index : nat) (mint : Pubkey) (freeze_authority_is_none : bool) (auth : Pubkey) : Result unit :=
  let reward_mints := token_mint <$> reward_infos p in
  let vault_or_white :=
    (mint =? token_mint_0 p) || (mint =? token_mint_1 p) || contains (whitelist_mints op) mint in
  let no_freeze_unless_known :=
    if negb vault_or_white then require freeze_authority_is_none ExceptRewardMint else Ok tt in
  if (lowest_index =? REWARD_NUM - 3)%nat then no_freeze_unless_known
  else if (lowest_index =? REWARD_NUM - 2)%nat then
    if negb (contains reward_mints (token_mint_0 p)) && negb (contains reward_mints (token_mint_1 p))
    then require vault_or_white ExceptRewardMint
    else no_freeze_unless_known
  else if (lowest_index =? REWARD_NUM - 1)%nat then
    require ((auth =? admin_ID) || validate_operation_owner op auth) NotApproved
  else Ok tt.

(** [PoolState::initialize_reward] *)
Definition initialize_reward (admin_ID : Pubkey) (p : PoolState) (open_time end_time reward_per_second_x64 : Z)
    (mint : Pubkey) (freeze_authority_is_none : bool) (vault auth : Pubkey) (op : OperationState) :
    Result PoolState :=
  let! lowest_index := ok_or (position_uninitialized (reward_infos p)) FullRewardInfo in
  do! require (negb (contains (token_mint <$> reward_infos p) mint)) RewardTokenAlreadyInUse in
  do! reward_slot_check admin_ID p op lowest_index mint freeze_authority_is_none auth in
  let! r := idx (reward_infos p) (Z.of_nat lowest_index) in
  let r' := mkRewardInfo (reward_state r) open_time end_time open_time reward_per_second_x64
              (reward_total_emitted r) (reward_claimed r) mint vault auth (reward_growth_global_x64 r) in
  let! rs := set_idx (reward_infos p) (Z.of_nat lowest_index) r' in
  Ok (set_reward_infos p rs).

(** [PoolState::update_reward_infos] *)
Definition pool_update_reward_infos {U : UintLib} (p : PoolState) (curr_timestamp : Z) :
    Result (list RewardInfo * PoolState) :=
  let! rs := update_reward_infos (liquidity p) curr_timestamp (reward_infos p) in
  Ok (rs, set_reward_infos p rs).

Definition check_unclaimed_reward (p : PoolState) (index reward_amount_owed : Z) : Result unit :=
  do! require (index <? Z.of_nat REWARD_NUM) InvalidRewardIndex in
  let! r := idx (reward_infos p) index in
  let! unclaimed := ok_or (ucheck 64 (reward_total_emitted r - reward_claimed r)) CalculateOverflow in
  require_gte unclaimed reward_amount_owed.

Definition set_claimed (r : RewardInfo) (v : Z) : RewardInfo :=
  mkRewardInfo (reward_state r) (ri_open_time r) (ri_end_time r) (last_update_time r)
    (emissions_per_second_x64 r) (reward_total_emitted r) v (token_mint r) (token_vault r)
    (authority r) (reward_growth_global_x64 r).

Definition add_reward_claimed (p : PoolState) (index amount : Z) : Result PoolState :=
  do! require (index <? Z.of_nat REWARD_NUM) InvalidRewardIndex in
  let! r := idx (reward_infos p) index in
  let! v := ok_or (ucheck 64 (reward_claimed r + amount)) CalculateOverflow in
  let! rs := set_idx (reward_infos p) index (set_claimed r v) in
  Ok (set_reward_infos p rs).

(** ** Status bits *)

Definition set_status (p : PoolState) (status : Z) : PoolState := set_pool_status p status.

Definition set_status_by_bit (p : PoolState) (bit : PoolStatusBitIndex) (flag : PoolStatusBitFlag) : PoolState :=
  let s := uwrap 8 (Z.shiftl 1 (bit_index bit)) in
  match flag with
  | Disable => set_pool_status p (Z.lor (pool_status p) s)
  | Enable => set_pool_status p (Z.land (pool_status p) (Z.lxor 255 s))
  end.

Definition get_status_by_bit (p : PoolState) (bit : PoolStatusBitIndex) : bool :=
  Z.land (pool_status p) (uwrap 8 (Z.shiftl 1 (bit_index bit))) =? 0.

(** ** Fees *)

Definition set_fee_on (p : PoolState) (v : Z) : Result PoolState :=
  do! require (v <=? 2) InvalidFeeOn in
  Ok (set_pool_fee_on p v).

Definition is_fee_on_input (p : PoolState) (zero_for_one : bool) : bool :=
  if fee_on p =? 0 then true
  else if fee_on p =? 1 then zero_for_one
  else if fee_on p =? 2 then negb zero_for_one
  else true.

Definition is_fee_on_token0 (p : PoolState) (zero_for_one : bool) : bool :=
  if fee_on p =? 0 then zero_for_one
  else if fee_on p =? 1 then true
  else if fee_on p =? 2 then false
  else zero_for_one.

Definition initialize_dynamic_fee_info (p : PoolState) (init_tick fp dp rf control max_acc : Z) :
    Result PoolState :=
  let! ok := validate_params (pool_tick_spacing p) fp dp rf control max_acc in
  if negb ok then err InvalidDynamicFeeConfigParams
  else
    let! i := tick_spacing_index_from_tick init_tick (pool_tick_spacing p) in
    Ok (set_pool_dynamic_fee_info p (mkDynamicFeeInfo fp dp rf control max_acc i 0 0 0)).

Definition get_dynamic_fee_info (p : PoolState) : option DynamicFeeInfo :=
  if decide (dynamic_fee_info p = default_dynamic_fee_info) then None else Some (dynamic_fee_info p).

Definition update_dynamic_fee_variables (p : PoolState) (info : option DynamicFeeInfo) : PoolState :=
  if decide (dynamic_fee_info p = default_dynamic_fee_info) then p
  else
    match info with
    | Some i =>
        let d := dynamic_fee_info p in
        set_pool_dynamic_fee_info p
          (mkDynamicFeeInfo (filter_period d) (decay_period d) (reduction_factor d)
             (dynamic_fee_control d) (max_volatility_accumulator d)
             (tick_spacing_index_reference i) (volatility_reference i) (volatility_accumulator i)
             (last_update_timestamp i))
    | None => p
    end.

(** [if fee > 0 { x = x.checked_add(fee)? }] *)
Definition add_fee (x fee : Z) : Result Z :=
  if 0 <? fee then ok_or (ucheck 64 (x + fee)) CalculateOverflow else Ok x.

Definition update_fee (p : PoolState) (lp_fee protocol_fee fund_fee fee_growth_global_x64 : Z)
    (zero_for_one : bool) : Result PoolState :=
  if is_fee_on_token0 p zero_for_one then
    let p := if 0 <? lp_fee then set_fee_growth_global_0 p fee_growth_global_x64 else p in
    let! v := add_fee (protocol_fees_token_0 p) protocol_fee in
    let p := set_protocol_fees p v (protocol_fees_token_1 p) in
    let! v := add_fee (fund_fees_token_0 p) fund_fee in
    Ok (set_fund_fees p v (fund_fees_token_1 p))
  else
    let p := if 0 <? lp_fee then set_fee_growth_global_1 p fee_growth_global_x64 else p in
    let! v := add_fee (protocol_fees_token_1 p) protocol_fee in
    let p := set_protocol_fees p (protocol_fees_token_0 p) v in
    let! v := add_fee (fund_fees_token_1 p) fund_fee in
    Ok (set_fund_fees p (fund_fees_token_0 p) v).

Definition update_after_swap (p : PoolState) (tick sqrt_price l lp_fee protocol_fee fund_fee
    fee_growth_global_x64 : Z) (zero_for_one : bool) (info : option DynamicFeeInfo) : Result PoolState :=
  let p := set_pool_liquidity (set_pool_price p sqrt_price tick) l in
  let! p := update_fee p lp_fee protocol_fee fund_fee fee_growth_global_x64 zero_for_one in
  Ok (update_dynamic_fee_variables p info).

(** * Properties *)

Lemma land_single_bit x b : 0 <= b < 6 -> (Z.land x (uwrap 8 (Z.shiftl 1 b)) =? 0) = negb (Z.testbit x b).
Proof.
  intros Hb. assert (uwrap 8 (Z.shiftl 1 b) = 2 ^ b) as ->.
  { assert (b = 0 \/ b = 1 \/ b = 2 \/ b = 3 \/ b = 4 \/ b = 5) as Hc by lia.
    by destruct Hc as [->|[->|[->|[->|[->| ->]]]]]. }
  destruct (Z.testbit x b) eqn:Ht; cbn [negb].
  - apply Z.eqb_neq. intros H0. assert (Z.testbit (Z.land x (2 ^ b)) b = false) as H1 by (by rewrite H0, Z.bits_0).
    by rewrite Z.land_spec, Ht, Z.pow2_bits_true in H1 by lia.
  - apply Z.eqb_eq, Z.bits_inj'. intros j Hj. rewrite Z.land_spec, Z.bits_0, Z.pow2_bits_eqb by lia.
    destruct (Z.eqb_spec b j) as [->|]; [by rewrite Ht|]. apply andb_false_r.
Qed.

Lemma get_status_bit p b : get_status_by_bit p b = negb (Z.testbit (pool_status p) (bit_index b)).
Proof. unfold get_status_by_bit. apply land_single_bit. destruct b; simpl; lia. Qed.

(** The status bits are independent switches: disabling or enabling one
    operation by its bit makes exactly that operation disabled or enabled and
    leaves the answer for each of the other five what it was. *)
Theorem status_bits_independent p b f b' :
  in_u 8 (pool_status p) ->
  get_status_by_bit (set_status_by_bit p b f) b' =
    (if decide (b' = b) then (match f with Enable => true | Disable => false end)
     else get_status_by_bit p b') /\
  in_u 8 (pool_status (set_status_by_bit p b f)).
Proof.
  intros Hp. rewrite !get_status_bit. split.
  - assert (uwrap 8 (Z.shiftl 1 (bit_index b)) = 2 ^ bit_index b) as Hs by (by destruct b).
    unfold set_status_by_bit. rewrite Hs.
    assert (Z.testbit (2 ^ bit_index b) (bit_index b') = bool_decide (b' = b)) as Hb.
    { rewrite Z.pow2_bits_eqb by (destruct b; simpl; lia). by destruct b, b'. }
    assert (Z.testbit 255 (bit_index b') = true) as H255 by (by destruct b').
    destruct f; cbn [pool_status set_pool_status].
    + rewrite Z.land_spec, Z.lxor_spec, Hb, H255.
      destruct (decide (b' = b));
        [rewrite bool_decide_eq_true_2 by done; by rewrite andb_false_r
        |rewrite bool_decide_eq_false_2 by done; by rewrite andb_true_r].
    + rewrite Z.lor_spec, Hb.
      destruct (decide (b' = b));
        [rewrite bool_decide_eq_true_2 by done; by rewrite orb_true_r
        |rewrite bool_decide_eq_false_2 by done; by rewrite orb_false_r].
  - unfold set_status_by_bit, in_u in *. destruct f; cbn [pool_status set_pool_status].
    + assert (0 <= Z.lxor 255 (uwrap 8 (Z.shiftl 1 (bit_index b)))) by (destruct b; by_compute).
      apply in_u_of_bits; [lia|apply Z.land_nonneg; lia|].
      intros j Hj. by rewrite Z.land_spec, (bits_above 8) by (done || lia).
    + assert (0 <= uwrap 8 (Z.shiftl 1 (bit_index b)) < 2 ^ 8) by (destruct b; by_compute).
      apply in_u_of_bits; [lia|apply Z.lor_nonneg; lia|].
      intros j Hj. by rewrite Z.lor_spec, !(bits_above 8) by (done || lia).
Qed.

(** The token a fee is charged in: the input or the output token of the
    trade. *)
Definition fee_token_0 (p : PoolState) (zero_for_one : bool) : bool :=
  if is_fee_on_input p zero_for_one then zero_for_one else negb zero_for_one.

Lemma fee_on_sides_agree p z : is_fee_on_token0 p z = fee_token_0 p z.
Proof.
  unfold fee_token_0, is_fee_on_token0, is_fee_on_input.
  destruct (fee_on p =? 0), (fee_on p =? 1), (fee_on p =? 2), z; done.
Qed.

Lemma add_fee_Ok x fee v : 0 <= fee -> add_fee x fee = Ok v -> v = x + fee /\ (in_u 64 x -> in_u 64 v).
Proof.
  intros Hf H. unfold add_fee in H. destruct (Z.ltb_spec 0 fee).
  - by apply ok_or_Ok, ucheck_Some in H as [-> ?].
  - injection H as <-. split; [lia|done].
Qed.

(** What [update_after_swap] writes. *)
Lemma update_after_swap_Ok p t sq l lp pf ff g z info p' :
  0 <= pf -> 0 <= ff ->
  update_after_swap p t sq l lp pf ff g z info = Ok p' ->
  let d0 := fee_token_0 p z in
  tick_current p' = t /\ sqrt_price_x64 p' = sq /\ liquidity p' = l /\
  protocol_fees_token_0 p' = protocol_fees_token_0 p + (if d0 then pf else 0) /\
  protocol_fees_token_1 p' = protocol_fees_token_1 p + (if d0 then 0 else pf) /\
  fund_fees_token_0 p' = fund_fees_token_0 p + (if d0 then ff else 0) /\
  fund_fees_token_1 p' = fund_fees_token_1 p + (if d0 then 0 else ff) /\
  fee_growth_global_0_x64 p' = (if d0 && (0 <? lp) then g else fee_growth_global_0_x64 p) /\
  fee_growth_global_1_x64 p' = (if negb d0 && (0 <? lp) then g else fee_growth_global_1_x64 p) /\
  (reward_infos p', tick_array_bitmap p', pool_status p', fee_on p', pool_tick_spacing p') =
    (reward_infos p, tick_array_bitmap p, pool_status p, fee_on p, pool_tick_spacing p) /\
  (get_dynamic_fee_info p = None -> dynamic_fee_info p' = dynamic_fee_info p) /\
  dynamic_fee_control (dynamic_fee_info p') = dynamic_fee_control (dynamic_fee_info p) /\
  max_volatility_accumulator (dynamic_fee_info p') = max_volatility_accumulator (dynamic_fee_info p).
Proof.
  intros Hpf Hff H. unfold update_after_swap in H.
  set (p1 := set_pool_liquidity (set_pool_price p sq t) l) in H.
  apply obind_Ok in H as (p2 & H & [= <-]).
  unfold update_fee in H. rewrite fee_on_sides_agree in H.
  change (fee_token_0 p1 z) with (fee_token_0 p z) in H. cbn zeta.
  assert (forall p3, dynamic_fee_info p3 = dynamic_fee_info p ->
    let q := update_dynamic_fee_variables p3 info in
    (tick_current q, sqrt_price_x64 q, liquidity q, protocol_fees_token_0 q, protocol_fees_token_1 q,
     fund_fees_token_0 q, fund_fees_token_1 q, fee_growth_global_0_x64 q, fee_growth_global_1_x64 q,
     (reward_infos q, tick_array_bitmap q, pool_status q, fee_on q, pool_tick_spacing q)) =
    (tick_current p3, sqrt_price_x64 p3, liquidity p3, protocol_fees_token_0 p3, protocol_fees_token_1 p3,
     fund_fees_token_0 p3, fund_fees_token_1 p3, fee_growth_global_0_x64 p3, fee_growth_global_1_x64 p3,
     (reward_infos p3, tick_array_bitmap p3, pool_status p3, fee_on p3, pool_tick_spacing p3)) /\
    (get_dynamic_fee_info p = None -> dynamic_fee_info q = dynamic_fee_info p) /\
    dynamic_fee_control (dynamic_fee_info q) = dynamic_fee_control (dynamic_fee_info p) /\
    max_volatility_accumulator (dynamic_fee_info q) = max_volatility_accumulator (dynamic_fee_info p)) as Hdyn.
  { intros p3 Hp3. cbn zeta. unfold update_dynamic_fee_variables, get_dynamic_fee_info.
    rewrite Hp3. destruct (decide (dynamic_fee_info p = default_dynamic_fee_info)); [by rewrite Hp3|].
    destruct info; cbn; by rewrite ?Hp3. }
  destruct (fee_token_0 p z); cbn [andb negb];
    apply obind_Ok in H as (v & [-> _]%add_fee_Ok & H); try done;
    apply obind_Ok in H as (w & [-> _]%add_fee_Ok & [= <-]); try done;
    match goal with |- context [update_dynamic_fee_variables ?p3 info] =>
      destruct (Hdyn p3) as [E (D1 & D2 & D3)]; [by destruct (0 <? lp)|];
      injection E as -> -> -> -> -> -> -> -> -> -> -> -> -> -> end;
    (split_and!; [..|exact D1|exact D2|exact D3]); clear; destruct (0 <? lp); cbn; lia || done.
Qed.

(** The ledger of a swap: [update_after_swap] moves the price, the tick and
    the liquidity to the given values, credits the protocol fee and the fund
    fee to exactly the token the fee was charged in (the input or the output
    token as [is_fee_on_input] decides), advances that token's growth
    accumulator only when liquidity providers earned something, and changes
    nothing of the other token's ledger, of the rewards, the bitmap or the
    status; the dynamic fee state is replaced only in a pool that has one, and
    its parameters are kept. *)
Theorem update_after_swap_ledger p t sq l lp pf ff g z info p' :
  0 <= pf -> 0 <= ff ->
  update_after_swap p t sq l lp pf ff g z info = Ok p' ->
  let d0 := fee_token_0 p z in
  tick_current p' = t /\ sqrt_price_x64 p' = sq /\ liquidity p' = l /\
  protocol_fees_token_0 p' = protocol_fees_token_0 p + (if d0 then pf else 0) /\
  protocol_fees_token_1 p' = protocol_fees_token_1 p + (if d0 then 0 else pf) /\
  fund_fees_token_0 p' = fund_fees_token_0 p + (if d0 then ff else 0) /\
  fund_fees_token_1 p' = fund_fees_token_1 p + (if d0 then 0 else ff) /\
  fee_growth_global_0_x64 p' = (if d0 && (0 <? lp) then g else fee_growth_global_0_x64 p) /\
  fee_growth_global_1_x64 p' = (if negb d0 && (0 <? lp) then g else fee_growth_global_1_x64 p) /\
  (reward_infos p', tick_array_bitmap p', pool_status p', fee_on p', pool_tick_spacing p') =
    (reward_infos p, tick_array_bitmap p, pool_status p, fee_on p, pool_tick_spacing p) /\
  (get_dynamic_fee_info p = None -> dynamic_fee_info p' = dynamic_fee_info p) /\
  dynamic_fee_control (dynamic_fee_info p') = dynamic_fee_control (dynamic_fee_info p) /\
  max_volatility_accumulator (dynamic_fee_info p') = max_volatility_accumulator (dynamic_fee_info p).
Proof. apply update_after_swap_Ok. Qed.

(** The rewards of a pool: as many claimed as emitted at most. *)
Definition claims_backed (p : PoolState) : Prop :=
  Forall (fun r => reward_claimed r <= reward_total_emitted r) (reward_infos p).

(** Reward claims never exceed emissions: a claim that passes
    [check_unclaimed_reward] and is booked by [add_reward_claimed] raises the
    claimed counter of that reward by the amount, changes no other reward, and
    keeps every reward's claims within what it has emitted; a larger claim is
    refused. *)
Theorem reward_claims_backed p i amount p' :
  claims_backed p -> 0 <= amount ->
  (do! check_unclaimed_reward p i amount in add_reward_claimed p i amount) = Ok p' ->
  claims_backed p' /\
  exists r, reward_infos p !! Z.to_nat i = Some r /\
    amount <= reward_total_emitted r - reward_claimed r /\
    reward_infos p' = <[Z.to_nat i := set_claimed r (reward_claimed r + amount)]> (reward_infos p).
Proof.
  intros Hb Ha H. apply obind_Ok in H as (u & Hc & H). unfold check_unclaimed_reward in Hc.
  apply obind_Ok in Hc as (u1 & Hi & Hc). apply obind_Ok in Hc as (r & Hr & Hc).
  apply obind_Ok in Hc as (un & [-> Hun]%ok_or_Ok%ucheck_Some & Hc).
  apply require_Ok, Z.leb_le in Hc.
  unfold add_reward_claimed in H. rewrite Hi in H. cbn [obind] in H. rewrite Hr in H. cbn [obind] in H.
  apply obind_Ok in H as (v & [-> Hv]%ok_or_Ok%ucheck_Some & H).
  apply obind_Ok in H as (rs & [Hlen ->]%set_idx_Ok & [= <-]).
  apply idx_Ok in Hr as [Hi0 Hr].
  split; [|exists r; split_and!; done]. unfold claims_backed. cbn [reward_infos set_reward_infos].
  apply Forall_insert; [done|]. cbn. lia.
Qed.

Lemma position_uninitialized_Some rs i :
  position_uninitialized rs = Some i ->
  (exists r, rs !! i = Some r /\ token_mint r = default_pubkey) /\
  forall j r, (j < i)%nat -> rs !! j = Some r -> reward_initialized r = true.
Proof.
  revert i. induction rs as [|r rs IH]; intros i H; [done|]. cbn [position_uninitialized] in H.
  destruct (reward_initialized r) eqn:Hr; cbn [negb] in H.
  - destruct (position_uninitialized rs) as [k|] eqn:Hk; [|done]. injection H as <-.
    destruct (IH k eq_refl) as [(r' & Hr' & Hm) Hlt]. split; [by exists r'|].
    intros [|j] r'' Hj Hl; cbn in *; [congruence|]. apply (Hlt j); [lia|done].
  - injection H as <-. split; [|lia]. exists r. split; [done|].
    unfold reward_initialized in Hr. apply negb_false_iff, Z.eqb_eq in Hr. done.
Qed.

(** The rules for opening a reward: a successful [initialize_reward] fills
    the first free slot and no other, with a mint that none of the pool's
    rewards uses, and the slot then counts as initialized; the third slot goes
    only to the admin or an operation owner, a mint that is neither a pool
    token nor whitelisted must have no freeze authority in the first two, and
    when the first reward is not a pool token the second must be a pool token
    or whitelisted. *)
Theorem initialize_reward_rules admin p ot et rps mint nofreeze vault auth op p' :
  length (reward_infos p) = REWARD_NUM ->
  initialize_reward admin p ot et rps mint nofreeze vault auth op = Ok p' ->
  let known := (mint =? token_mint_0 p) || (mint =? token_mint_1 p) || contains (whitelist_mints op) mint in
  exists i r',
    position_uninitialized (reward_infos p) = Some i /\
    reward_infos p' = <[i := r']> (reward_infos p) /\
    (forall j r, reward_infos p !! j = Some r -> token_mint r <> mint) /\
    reward_initialized r' = true /\
    (token_mint r', token_vault r', authority r', ri_open_time r', ri_end_time r',
     last_update_time r', emissions_per_second_x64 r') = (mint, vault, auth, ot, et, ot, rps) /\
    (i = 2%nat -> auth = admin \/ validate_operation_owner op auth = true) /\
    ((i < 2)%nat -> known = false -> nofreeze = true) /\
    (i = 1%nat ->
     (forall j r, reward_infos p !! j = Some r ->
        token_mint r <> token_mint_0 p /\ token_mint r <> token_mint_1 p) -> known = true).
Proof.
  intros Hlen H known. unfold initialize_reward in H.
  apply obind_Ok in H as (i & Hi%ok_or_Ok & H). apply obind_Ok in H as (u & Huse%require_Ok & H).
  apply obind_Ok in H as (u2 & Hslot & H). apply obind_Ok in H as (r & Hr%idx_Ok & H).
  apply obind_Ok in H as (rs & Hrs%set_idx_Ok & [= <-]).
  destruct Hr as [_ Hr], Hrs as [Hil ->]. rewrite Nat2Z.id in Hr.
  assert (forall j r0, reward_infos p !! j = Some r0 -> token_mint r0 <> mint) as Hnew.
  { intros j r0 Hj Hm. apply negb_true_iff, not_true_iff_false in Huse. apply Huse, contains_spec.
    rewrite <- Hm. apply list_elem_of_fmap. exists r0. split; [done|]. by eapply list_elem_of_lookup_2. }
  destruct (position_uninitialized_Some _ _ Hi) as [(r0 & Hr0 & Hd) _].
  assert (r0 = r) as -> by congruence.
  eexists i, _. split; [done|]. cbn [reward_infos set_reward_infos]. rewrite Nat2Z.id.
  split; [done|]. split; [done|]. split.
  { unfold reward_initialized. cbn. apply negb_true_iff, Z.eqb_neq. specialize (Hnew _ _ Hr0). congruence. }
  split; [done|]. rewrite Hlen in Hil. unfold REWARD_NUM in Hil.
  unfold reward_slot_check in Hslot. cbn zeta in Hslot. fold known in Hslot.
  assert (i = 0%nat \/ i = 1%nat \/ i = 2%nat) as [-> | [-> | ->]] by lia; cbn [REWARD_NUM Nat.sub Nat.eqb] in Hslot.
  - split_and!; [lia| |lia]. intros _ Hk. rewrite Hk in Hslot. by apply require_Ok in Hslot.
  - split_and!; [lia| |].
    + intros _ Hk. rewrite Hk in Hslot. destruct (negb _ && negb _); [by destruct u2|].
      by apply require_Ok in Hslot.
    + intros _ Hnone. destruct (negb _ && negb _) eqn:Hc; [by apply require_Ok in Hslot|].
      exfalso. apply andb_false_iff in Hc. destruct Hc as [Hc|Hc]; apply negb_false_iff, contains_spec in Hc;
        apply list_elem_of_fmap in Hc as (r1 & Hm & Hin); apply list_elem_of_lookup_1 in Hin as [j Hj];
        destruct (Hnone _ _ Hj); congruence.
  - split_and!; [|lia|lia]. intros _. apply require_Ok, orb_true_iff in Hslot as [?%Z.eqb_eq|?]; auto.
Qed.

Definition sample_config : AmmConfig := mkAmmConfig 0 0 1 120000 2500 10 40000 1.

Definition sample_pool : PoolState :=
  pool_initialize 255 (2 ^ 64) 0 0 9 21 22 5 sample_config 11 12 6 6 30 FromInput.

Lemma status_bits_independent_witness :
  get_status_by_bit (set_status_by_bit sample_pool Swap Disable) Swap = false /\
  get_status_by_bit (set_status_by_bit sample_pool Swap Disable) CollectFee = true.
Proof.
  destruct (status_bits_independent sample_pool Swap Disable Swap) as [E1 _]; [by_compute|].
  destruct (status_bits_independent sample_pool Swap Disable CollectFee) as [E2 _]; [by_compute|].
  by rewrite E1, E2.
Defined.

Lemma update_after_swap_ledger_witness :
  exists p', update_after_swap sample_pool (-3) (2 ^ 63) 77 10 5 2 123 true None = Ok p' /\
    protocol_fees_token_0 p' = 5.
Proof.
  eexists. split; [vm_compute; reflexivity|].
  eapply (update_after_swap_ledger sample_pool (-3) (2 ^ 63) 77 10 5 2 123 true None);
    [discriminate|discriminate|vm_compute; reflexivity].
Defined.

Definition sample_rewarded_pool : PoolState :=
  set_reward_infos sample_pool
    [mkRewardInfo 2 0 100 50 5 1000 400 11 40 9 3; reward_info_new 9; reward_info_new 9].

Lemma reward_claims_backed_witness :
  exists p', (do! check_unclaimed_reward sample_rewarded_pool 0 600 in
              add_reward_claimed sample_rewarded_pool 0 600) = Ok p' /\ claims_backed p'.
Proof.
  eexists. split; [vm_compute; reflexivity|].
  eapply (reward_claims_backed sample_rewarded_pool 0 600); [|discriminate|vm_compute; reflexivity].
  repeat constructor; discriminate.
Defined.

Lemma initialize_reward_rules_witness :
  exists p' i, initialize_reward 1 sample_rewarded_pool 5 700000 8 12 false 41 9 (operation_initialize 0) = Ok p' /\
    position_uninitialized (reward_infos sample_rewarded_pool) = Some i.
Proof.
  eexists. destruct (initialize_reward_rules 1 sample_rewarded_pool 5 700000 8 12 false 41 9 (operation_initialize 0)
    (set_reward_infos sample_rewarded_pool
       [mkRewardInfo 2 0 100 50 5 1000 400 11 40 9 3;
        mkRewardInfo 0 5 700000 5 8 0 0 12 41 9 0; reward_info_new 9])) as (i & r' & Hi & _).
  - reflexivity.
  - vm_compute. reflexivity.
  - exists i. split; [vm_compute; reflexivity|exact Hi].
Defined.
