(* ===== verification/ProtocolFee.v ===== *)
(** The collection of the protocol's and the fund's fees: [tipy.rs],
    [instructions/admin/collect_protocol_fee.rs],
    [instructions/admin/collect_fund_fee.rs] and
    [instructions/admin/update_pool_status.rs].

    The accounts of the instructions are the records below; the addresses of
    the program's admin and of the TiPy treasury are parameters; the transfers
    are returned. *)
From S2P Require Import Prelude.
From S2P Require Import AmmError.
From S2P Require Import Config.
From S2P Require Import Pool.
From S2P Require Import Token.

Definition TIPY_ROUTE_BPS : Z := 2000.
Definition TIPY_BPS_DENOM : Z := 10000.

(** [tipy::split]: the share of the admin and that of the treasury. *)
Definition split_fee (amount : Z) : Z * Z :=
  let tipy := uwrap 64 (usat 128 (amount * TIPY_ROUTE_BPS) / TIPY_BPS_DENOM) in
  (usat 64 (amount - tipy), tipy).

(** A token account, as far as the constraints look at it. *)
Record TokenAccount := mkTokenAccount { ta_key : Pubkey; ta_owner : Pubkey; ta_mint : Pubkey }.

Section Collect.
Context (admin_ID TIPY_TREASURY : Pubkey).

(** The accounts of [CollectProtocolFee]; those of [CollectFundFee] are the
    first five. *)
Record CollectAccounts := mkCollectAccounts {
  cf_config_key : Pubkey;
  cf_vault_0 : TokenAccount;
  cf_vault_1 : TokenAccount;
  recipient_0 : TokenAccount;
  recipient_1 : TokenAccount;
  tipy_0 : TokenAccount;
  tipy_1 : TokenAccount;
}.

Definition require_fee_accounts (c : CollectAccounts) (p : PoolState) : Result unit :=
  do! require (cf_config_key c =? amm_config_key p) ConstraintViolated in
  do! require (ta_key (cf_vault_0 c) =? token_vault_0 p) ConstraintViolated in
  require (ta_key (cf_vault_1 c) =? token_vault_1 p) ConstraintViolated.

Definition require_tipy_account (x vault : TokenAccount) : Result unit :=
  do! require (ta_owner x =? TIPY_TREASURY) NotApproved in
  require (ta_mint x =? ta_mint vault) NotApproved.

Definition collect_protocol_fee (signer : Pubkey) (cfg : AmmConfig) (c : CollectAccounts) (p : PoolState)
    (amount_0_requested amount_1_requested : Z) : Result (PoolState * list Transfer) :=
  do! require ((signer =? owner cfg) || (signer =? admin_ID)) NotApproved in
  do! require_fee_accounts c p in
  do! require_tipy_account (tipy_0 c) (cf_vault_0 c) in
  do! require_tipy_account (tipy_1 c) (cf_vault_1 c) in
  let amount_0 := Z.min amount_0_requested (protocol_fees_token_0 p) in
  let amount_1 := Z.min amount_1_requested (protocol_fees_token_1 p) in
  let! f0 := ok_or (ucheck 64 (protocol_fees_token_0 p - amount_0)) CalculateOverflow in
  let! f1 := ok_or (ucheck 64 (protocol_fees_token_1 p - amount_1)) CalculateOverflow in
  let '(admin_0, tipy_share_0) := split_fee amount_0 in
  let '(admin_1, tipy_share_1) := split_fee amount_1 in
  let v0 := ta_key (cf_vault_0 c) in
  let v1 := ta_key (cf_vault_1 c) in
  Ok (set_protocol_fees p f0 f1,
      transfer_from_pool_vault_to_user v0 (ta_key (recipient_0 c)) admin_0 ++
      transfer_from_pool_vault_to_user v0 (ta_key (tipy_0 c)) tipy_share_0 ++
      transfer_from_pool_vault_to_user v1 (ta_key (recipient_1 c)) admin_1 ++
      transfer_from_pool_vault_to_user v1 (ta_key (tipy_1 c)) tipy_share_1).

Definition collect_fund_fee (signer : Pubkey) (cfg : AmmConfig) (c : CollectAccounts) (p : PoolState)
    (amount_0_requested amount_1_requested : Z) : Result (PoolState * list Transfer) :=
  do! require ((signer =? fund_owner cfg) || (signer =? admin_ID)) NotApproved in
  do! require_fee_accounts c p in
  let amount_0 := Z.min amount_0_requested (fund_fees_token_0 p) in
  let amount_1 := Z.min amount_1_requested (fund_fees_token_1 p) in
  let! f0 := ok_or (ucheck 64 (fund_fees_token_0 p - amount_0)) CalculateOverflow in
  let! f1 := ok_or (ucheck 64 (fund_fees_token_1 p - amount_1)) CalculateOverflow in
  Ok (set_fund_fees p f0 f1,
      transfer_from_pool_vault_to_user (ta_key (cf_vault_0 c)) (ta_key (recipient_0 c)) amount_0 ++
      transfer_from_pool_vault_to_user (ta_key (cf_vault_1 c)) (ta_key (recipient_1 c)) amount_1).

(** [update_pool_status]: the status is a [u8]. *)
Definition update_pool_status (signer : Pubkey) (p : PoolState) (status : Z) : Result PoolState :=
  do! require (signer =? admin_ID) ConstraintViolated in
  do! require_gte 255 status in
  Ok (set_status p status).

(** A sequence of successful collections of one kind, with the transfers each
    has requested. *)
Inductive collections (cfg : AmmConfig) (c : CollectAccounts) :
    PoolState -> list (list Transfer) -> PoolState -> Prop :=
| collected_none p : collections cfg c p [] p
| collected_protocol signer p a0 a1 p' l ls p'' :
    in_u 64 a0 -> in_u 64 a1 ->
    collect_protocol_fee signer cfg c p a0 a1 = Ok (p', l) ->
    collections cfg c p' ls p'' -> collections cfg c p (l :: ls) p''
| collected_fund signer p a0 a1 p' l ls p'' :
    in_u 64 a0 -> in_u 64 a1 ->
    collect_fund_fee signer cfg c p a0 a1 = Ok (p', l) ->
    collections cfg c p' ls p'' -> collections cfg c p (l :: ls) p''.
End Collect.

(** * Properties *)

Lemma split_fee_spec a :
  in_u 64 a -> split_fee a = (a - a / 5, a / 5).
Proof.
  intros Ha. unfold split_fee, TIPY_ROUTE_BPS, TIPY_BPS_DENOM.
  rewrite (usat_id 128) by range.
  replace (a * 2000 / 10000) with (a / 5) by (symmetry; apply (Z.div_mul_cancel_r a 5 2000); lia).
  assert (0 <= a / 5 <= a) by (split; [apply Z.div_pos; range|apply Z.div_le_upper_bound; range]).
  rewrite uwrap_id by range. by rewrite usat_id by range.
Qed.

(** The fees of token 0 the pool still owes to the admin and to the fund. *)
Definition fees_due_0 (p : PoolState) : Z := protocol_fees_token_0 p + fund_fees_token_0 p.

Record fee_counters_ok (p : PoolState) : Prop := {
  fc_p0 : in_u 64 (protocol_fees_token_0 p);
  fc_p1 : in_u 64 (protocol_fees_token_1 p);
  fc_f0 : in_u 64 (fund_fees_token_0 p);
  fc_f1 : in_u 64 (fund_fees_token_1 p);
}.

(** The vault of token 0 is none of the accounts that are paid, nor the other
    vault; the treasury's account is not the admin's. *)
Record collect_accounts_distinct (c : CollectAccounts) : Prop := {
  cd_vaults : ta_key (cf_vault_1 c) <> ta_key (cf_vault_0 c);
  cd_tipy : ta_key (recipient_0 c) <> ta_key (tipy_0 c);
  cd_tipy_1 : ta_key (recipient_1 c) <> ta_key (tipy_0 c);
  cd_tipy_2 : ta_key (tipy_1 c) <> ta_key (tipy_0 c);
}.

(** What one collection does for token 0. *)
Definition collected (c : CollectAccounts) (p p' : PoolState) (l : list Transfer) (x y : Z) : Prop :=
  0 <= x /\ 0 <= y /\ protocol_fees_token_0 p' = protocol_fees_token_0 p - x /\
  fund_fees_token_0 p' = fund_fees_token_0 p - y /\
  moved_from (ta_key (cf_vault_0 c)) l = x + y /\ moved_to (ta_key (tipy_0 c)) l = x / 5 /\
  fee_counters_ok p'.

Lemma collect_protocol_fee_Ok admin tr signer cfg c p a0 a1 p' l :
  collect_accounts_distinct c -> fee_counters_ok p -> in_u 64 a0 -> in_u 64 a1 ->
  collect_protocol_fee admin tr signer cfg c p a0 a1 = Ok (p', l) ->
  collected c p p' l (Z.min a0 (protocol_fees_token_0 p)) 0.
Proof.
  intros [D1 D2 D3 D4] [P0 P1 F0 F1] H0 H1 H. unfold collect_protocol_fee in H.
  apply obind_Ok in H as (_ & _ & H). apply obind_Ok in H as (_ & _ & H).
  apply obind_Ok in H as (_ & _ & H). apply obind_Ok in H as (_ & _ & H). cbn zeta in H.
  apply obind_Ok in H as (f0 & [-> G0]%ok_or_Ok%ucheck_Some & H).
  apply obind_Ok in H as (f1 & [-> G1]%ok_or_Ok%ucheck_Some & H).
  rewrite !split_fee_spec in H by range. injection H as <- <-.
  unfold collected, transfer_from_pool_vault_to_user.
  rewrite !moved_from_app, !moved_to_app, !moved_from_nonzero, !moved_to_nonzero, !Z.eqb_refl.
  rewrite (proj2 (Z.eqb_neq _ _) D1), (proj2 (Z.eqb_neq _ _) D2), (proj2 (Z.eqb_neq _ _) D3),
    (proj2 (Z.eqb_neq _ _) D4).
  cbn [protocol_fees_token_0 fund_fees_token_0 set_protocol_fees].
  split; [range|]. split; [lia|]. split; [done|]. split; [lia|]. split; [lia|]. split; [lia|].
  by split.
Qed.

Lemma collect_fund_fee_Ok admin signer cfg c p a0 a1 p' l :
  collect_accounts_distinct c -> fee_counters_ok p -> in_u 64 a0 -> in_u 64 a1 ->
  collect_fund_fee admin signer cfg c p a0 a1 = Ok (p', l) ->
  collected c p p' l 0 (Z.min a0 (fund_fees_token_0 p)).
Proof.
  intros [D1 D2 D3 D4] [P0 P1 F0 F1] H0 H1 H. unfold collect_fund_fee in H.
  apply obind_Ok in H as (_ & _ & H). apply obind_Ok in H as (_ & _ & H). cbn zeta in H.
  apply obind_Ok in H as (f0 & [-> G0]%ok_or_Ok%ucheck_Some & H).
  apply obind_Ok in H as (f1 & [-> G1]%ok_or_Ok%ucheck_Some & H). injection H as <- <-.
  unfold collected, transfer_from_pool_vault_to_user.
  rewrite !moved_from_app, !moved_to_app, !moved_from_nonzero, !moved_to_nonzero, !Z.eqb_refl.
  rewrite (proj2 (Z.eqb_neq _ _) D1), (proj2 (Z.eqb_neq _ _) D2), (proj2 (Z.eqb_neq _ _) D3).
  cbn [protocol_fees_token_0 fund_fees_token_0 set_fund_fees].
  split; [lia|]. split; [range|]. split; [lia|]. split; [done|]. split; [lia|]. split; [done|].
  by split.
Qed.

Section Properties.
Context (admin_ID TIPY_TREASURY : Pubkey).

(** The collections of fees, whoever makes them and in whatever order: the
    vault of token 0 pays out exactly what the counters of the pool go down
    by, so never more than the pool has accrued; and the treasury receives a
    fifth of the protocol's part rounded down at each collection - in all at
    most a fifth, and at most four fifths of a unit less per collection. *)
Theorem fee_collections_backed cfg c p ls p' :
  collections admin_ID TIPY_TREASURY cfg c p ls p' ->
  collect_accounts_distinct c -> fee_counters_ok p ->
  let paid := sum_z (moved_from (ta_key (cf_vault_0 c))) ls in
  let tipy := sum_z (moved_to (ta_key (tipy_0 c))) ls in
  let protocol := protocol_fees_token_0 p - protocol_fees_token_0 p' in
  paid + fees_due_0 p' = fees_due_0 p /\ 0 <= paid <= fees_due_0 p /\
  protocol - 4 * Z.of_nat (length ls) <= 5 * tipy <= protocol.
Proof.
  intros H Hd. cbn zeta.
  assert (Hstep : forall p p' l ls x y p'', collected c p p' l x y ->
    (fee_counters_ok p' ->
     sum_z (moved_from (ta_key (cf_vault_0 c))) ls + fees_due_0 p'' = fees_due_0 p' /\
     0 <= sum_z (moved_from (ta_key (cf_vault_0 c))) ls <= fees_due_0 p' /\
     protocol_fees_token_0 p' - protocol_fees_token_0 p'' - 4 * Z.of_nat (length ls)
       <= 5 * sum_z (moved_to (ta_key (tipy_0 c))) ls
       <= protocol_fees_token_0 p' - protocol_fees_token_0 p'') ->
    sum_z (moved_from (ta_key (cf_vault_0 c))) (l :: ls) + fees_due_0 p'' = fees_due_0 p /\
    0 <= sum_z (moved_from (ta_key (cf_vault_0 c))) (l :: ls) <= fees_due_0 p /\
    protocol_fees_token_0 p - protocol_fees_token_0 p'' - 4 * Z.of_nat (length (l :: ls))
      <= 5 * sum_z (moved_to (ta_key (tipy_0 c))) (l :: ls)
      <= protocol_fees_token_0 p - protocol_fees_token_0 p'').
  { intros q q' l ls0 x y q'' (Hx & Hy & E1 & E2 & E3 & E4 & Hq) IH.
    destruct (IH Hq) as (I1 & I2 & I3).
    unfold fees_due_0 in *. cbn [sum_z foldr length] in *. fold (sum_z (moved_from (ta_key (cf_vault_0 c))) ls0).
    fold (sum_z (moved_to (ta_key (tipy_0 c))) ls0). rewrite E3, E4, E1, E2 in *.
    pose proof (zfloor_bounds x 5 eq_refl). lia. }
  induction H as [p|signer p a0 a1 p1 l ls p2 H0 H1 H _ IH|signer p a0 a1 p1 l ls p2 H0 H1 H _ IH]; intros Hp.
  - destruct Hp. unfold fees_due_0. cbn. range.
  - eapply Hstep; [exact (collect_protocol_fee_Ok _ _ _ _ _ _ _ _ _ _ Hd Hp H0 H1 H)|done].
  - eapply Hstep; [exact (collect_fund_fee_Ok _ _ _ _ _ _ _ _ _ Hd Hp H0 H1 H)|done].
Qed.
End Properties.

(** * Examples *)

(** The sample pool with 100 and 3 units of protocol fees and 7 of the fund's. *)
Definition fee_pool : PoolState := set_fund_fees (set_protocol_fees sample_pool 100 3) 7 0.

Definition fee_accounts : CollectAccounts :=
  mkCollectAccounts (amm_config_key fee_pool) (mkTokenAccount (token_vault_0 fee_pool) 77 1)
    (mkTokenAccount (token_vault_1 fee_pool) 77 2) (mkTokenAccount 91 9 1) (mkTokenAccount 92 9 2)
    (mkTokenAccount 93 8 1) (mkTokenAccount 94 8 2).

(** The admin collects 52 units, the owner of the fund all of its own. *)
Lemma demo_collections :
  exists p' ls,
    collections 9 8 sample_config fee_accounts fee_pool ls p' /\ length ls = 2%nat /\ fees_due_0 p' = 48.
Proof.
  assert (in_u 64 52 /\ in_u 64 0 /\ in_u 64 1000) as (H52 & H0 & H1000) by (unfold in_u; lia).
  eexists _, _. split.
  { eapply (collected_protocol _ _ _ _ 9 _ 52 0); [exact H52|exact H0|vm_compute; reflexivity|].
    eapply (collected_fund _ _ _ _ 9 _ 1000 0); [exact H1000|exact H0|vm_compute; reflexivity|].
    apply collected_none. }
  split; vm_compute; reflexivity.
Qed.

Lemma fee_collections_backed_witness :
  exists p' ls,
    collections 9 8 sample_config fee_accounts fee_pool ls p' /\ length ls = 2%nat /\
    sum_z (moved_from (ta_key (cf_vault_0 fee_accounts))) ls = 107 - 48.
Proof.
  destruct demo_collections as (p' & ls & H & Hl & Hf). exists p', ls. split; [exact H|]. split; [exact Hl|].
  destruct (fee_collections_backed 9 8 sample_config fee_accounts fee_pool ls p' H) as [E _].
  - constructor; vm_compute; discriminate.
  - constructor; by_compute.
  - rewrite Hf in E. change (fees_due_0 fee_pool) with 107 in E. lia.
Defined.
