(* ===== verification/Shield.v ===== *)
(** The protective layers of the pool: [ArbConfig] of
    [states/nebula_shield.rs], the hooks of [instructions/nebula_shield.rs]
    that run before a swap, and the instructions of
    [instructions/arb_sweep.rs].

    The hooks are given the account of the configuration as they find it: its
    key, its owner and what it deserializes to.  The slot a swap leaves in
    [padding1[0]] of the pool is a value of its own, [last_swap_slot], since
    nothing else of the program reads that word.  The clock is an argument;
    bumps, the creation of accounts, events and the log are not modelled. *)
From S2P Require Import Prelude.
From S2P Require Import AmmError.
From S2P Require Import BigNum.
From S2P Require Import FullMath.
From S2P Require Import Config.
From S2P Require Import TickMath.
From S2P Require Import TickOfPrice.
From S2P Require Import Oracle.
From S2P Require Import Pool.
From S2P Require Import Token.

Record ArbConfig := mkArbConfig {
  arb_pool : Pubkey;
  arb_authority : Pubkey;
  treasury : Pubkey;
  min_spread_bps : Z;
  treasury_share_bps : Z;
  twap_window_seconds : Z;
  min_sweep_amount : Z;
  max_sweep_amount : Z;
  last_sweep_slot : Z;
  cooldown_slots : Z;
  total_profit_captured_a : Z;
  total_profit_captured_b : Z;
  arb_enabled : bool;
  manipulation_tax_bps : Z;
  manipulation_tax_collected_a : Z;
  manipulation_tax_collected_b : Z;
  manipulation_detections : Z;
  manipulation_threshold_bps : Z;
}.

(** Field updates. *)
Definition set_profit (c_ : ArbConfig) a b : ArbConfig :=
  mkArbConfig (arb_pool c_) (arb_authority c_) (treasury c_) (min_spread_bps c_)
    (treasury_share_bps c_) (twap_window_seconds c_) (min_sweep_amount c_) (max_sweep_amount c_)
    (last_sweep_slot c_) (cooldown_slots c_) a b (arb_enabled c_) (manipulation_tax_bps c_)
    (manipulation_tax_collected_a c_) (manipulation_tax_collected_b c_)
    (manipulation_detections c_) (manipulation_threshold_bps c_).
Definition set_last_sweep (c_ : ArbConfig) s : ArbConfig :=
  mkArbConfig (arb_pool c_) (arb_authority c_) (treasury c_) (min_spread_bps c_)
    (treasury_share_bps c_) (twap_window_seconds c_) (min_sweep_amount c_) (max_sweep_amount c_) s
    (cooldown_slots c_) (total_profit_captured_a c_) (total_profit_captured_b c_) (arb_enabled c_)
    (manipulation_tax_bps c_) (manipulation_tax_collected_a c_) (manipulation_tax_collected_b c_)
    (manipulation_detections c_) (manipulation_threshold_bps c_).
Definition set_enabled (c_ : ArbConfig) (b : bool) : ArbConfig :=
  mkArbConfig (arb_pool c_) (arb_authority c_) (treasury c_) (min_spread_bps c_)
    (treasury_share_bps c_) (twap_window_seconds c_) (min_sweep_amount c_) (max_sweep_amount c_)
    (last_sweep_slot c_) (cooldown_slots c_) (total_profit_captured_a c_)
    (total_profit_captured_b c_) b (manipulation_tax_bps c_) (manipulation_tax_collected_a c_)
    (manipulation_tax_collected_b c_) (manipulation_detections c_) (manipulation_threshold_bps c_).
Definition set_tax_bps (c_ : ArbConfig) v : ArbConfig :=
  mkArbConfig (arb_pool c_) (arb_authority c_) (treasury c_) (min_spread_bps c_)
    (treasury_share_bps c_) (twap_window_seconds c_) (min_sweep_amount c_) (max_sweep_amount c_)
    (last_sweep_slot c_) (cooldown_slots c_) (total_profit_captured_a c_)
    (total_profit_captured_b c_) (arb_enabled c_) v (manipulation_tax_collected_a c_)
    (manipulation_tax_collected_b c_) (manipulation_detections c_) (manipulation_threshold_bps c_).
Definition set_tax_collected (c_ : ArbConfig) a b : ArbConfig :=
  mkArbConfig (arb_pool c_) (arb_authority c_) (treasury c_) (min_spread_bps c_)
    (treasury_share_bps c_) (twap_window_seconds c_) (min_sweep_amount c_) (max_sweep_amount c_)
    (last_sweep_slot c_) (cooldown_slots c_) (total_profit_captured_a c_)
    (total_profit_captured_b c_) (arb_enabled c_) (manipulation_tax_bps c_) a b
    (manipulation_detections c_) (manipulation_threshold_bps c_).
Definition set_detections (c_ : ArbConfig) n : ArbConfig :=
  mkArbConfig (arb_pool c_) (arb_authority c_) (treasury c_) (min_spread_bps c_)
    (treasury_share_bps c_) (twap_window_seconds c_) (min_sweep_amount c_) (max_sweep_amount c_)
    (last_sweep_slot c_) (cooldown_slots c_) (total_profit_captured_a c_)
    (total_profit_captured_b c_) (arb_enabled c_) (manipulation_tax_bps c_)
    (manipulation_tax_collected_a c_) (manipulation_tax_collected_b c_) n
    (manipulation_threshold_bps c_).


Definition DEFAULT_MANIPULATION_THRESHOLD_BPS : Z := 500.

Definition effective_manipulation_threshold_bps (c : ArbConfig) : Z :=
  if manipulation_threshold_bps c =? 0 then DEFAULT_MANIPULATION_THRESHOLD_BPS
  else manipulation_threshold_bps c.

(** ** The reference price *)

(** [find_observation_at_or_before]: from the current slot of the ring
    backwards. *)
Fixpoint find_observation_from (n : nat) (i : Z) (o : ObservationState) (target_timestamp : Z) :
    Result (option Z) :=
  match n with
  | O => Ok None
  | S n =>
      let j := (observation_index o + Z.of_nat OBSERVATION_NUM - i) mod Z.of_nat OBSERVATION_NUM in
      let! x := idx (observations o) j in
      if negb (block_timestamp x =? 0) && (block_timestamp x <=? target_timestamp) then Ok (Some j)
      else find_observation_from n (i + 1) o target_timestamp
  end.

Definition find_observation_at_or_before (o : ObservationState) (target_timestamp : Z) : Result (option Z) :=
  find_observation_from OBSERVATION_NUM 0 o target_timestamp.

Definition MIN_OBSERVATIONS_FOR_TWAP : Z := 2.

(** [avg_tick.clamp(-443636, 443636)] *)
Definition clamp_tick (t : Z) : Z := Z.max (-443636) (Z.min t 443636).

Definition observe_twap (o : ObservationState) (window_seconds current_timestamp : Z) : Result (option Z) :=
  if observation_index o =? 0 then Ok None
  else if observation_index o <? MIN_OBSERVATIONS_FOR_TWAP then Ok None
  else
    let! last := idx (observations o) ((observation_index o - 1) mod Z.of_nat OBSERVATION_NUM) in
    if block_timestamp last =? 0 then Ok None
    else
      let elapsed := usat 32 (current_timestamp - block_timestamp last) in
      let! stale :=
        if elapsed =? 0 then Ok true
        else (let! w := uchk 32 (window_seconds * 2) in Ok (w <? elapsed)) in
      if stale : bool then Ok None
      else
        let! found := find_observation_at_or_before o (usat 32 (current_timestamp - window_seconds)) in
        match found with
        | None => Ok None
        | Some i =>
            let! older := idx (observations o) i in
            let time_delta := usat 32 (block_timestamp last - block_timestamp older) in
            if time_delta =? 0 then Ok None
            else
              let delta := iwrap 64 (tick_cumulative last - tick_cumulative older) in
              let! avg := idiv 64 delta time_delta in
              Ok (Some (clamp_tick (iwrap 32 avg)))
        end.

(** ** Prices and amounts of a sweep *)

(** [calculate_spread], which the hooks write out: the distance in basis
    points of the reference, and whether the spot price is above it. *)
Definition spread_of (spot twap : Z) : Z * bool :=
  if twap <? spot then (default 0 (checked_udiv (usat 128 ((spot - twap) * 10000)) twap), true)
  else (default 0 (checked_udiv (usat 128 ((twap - spot) * 10000)) twap), false).

(** Four fifths of the gap. *)
Definition price_delta (spot twap : Z) (a_to_b : bool) : Result Z :=
  let! gap := uchk 128 (if a_to_b then spot - twap else twap - spot) in
  let! gap := uchk 128 (gap * 4) in
  let target_sqrt := if a_to_b then usat 128 (spot - gap / 5) else usat 128 (spot + gap / 5) in
  Ok (if a_to_b then usat 128 (spot - target_sqrt) else usat 128 (target_sqrt - spot)).

Definition sweep_amount_for (liquidity delta min_amount max_amount : Z) : Z :=
  let raw_amount := uwrap 64 (default 0 (checked_udiv (usat 128 (liquidity * delta)) Q64)) in
  Z.min (Z.max raw_amount min_amount) max_amount.

Definition compute_inline_arb (sqrt_price liquidity amount : Z) (a_to_b : bool) : Z * Z :=
  let virtual :=
    if a_to_b then default 1 (checked_udiv liquidity (Z.max (Z.shiftr sqrt_price 32) 1))
    else usat 128 (liquidity * Z.shiftr sqrt_price 64) in
  let numerator := usat 128 (liquidity * amount) in
  let denominator := usat 128 (virtual + amount) in
  (amount, uwrap 64 (default 0 (checked_udiv numerator denominator))).

(** The price after a sweep. *)
Definition price_after (price liquidity amount : Z) (a_to_b : bool) : Z :=
  let price_impact := default 0 (checked_udiv (usat 128 (amount * Q64)) (Z.max liquidity 1)) in
  if a_to_b then usat 128 (price - price_impact) else usat 128 (price + price_impact).

(** ** Layer 1: the sweep before a swap *)

Section Shield.
Context {U : UintLib}.

(** [MIN_OBSERVATIONS] of both sweeps. *)
Definition MIN_OBSERVATIONS : Z := 3.

Definition sweep_result : Type := bool * bool * Z * PoolState * ArbConfig.
Definition no_sweep (p : PoolState) (c : ArbConfig) : Result sweep_result := Ok (false, false, 0, p, c).

(** The sweep itself, once the reference price is known. *)
Definition sweep_towards (p : PoolState) (c : ArbConfig) (twap_sqrt current_slot : Z) : Result sweep_result :=
  let spot := sqrt_price_x64 p in
  let '(spread_bps, a_to_b) := spread_of spot twap_sqrt in
  if spread_bps <? min_spread_bps c then no_sweep p c
  else
    let! delta := price_delta spot twap_sqrt a_to_b in
    let sweep_amount := sweep_amount_for (liquidity p) delta (min_sweep_amount c) (max_sweep_amount c) in
    if sweep_amount =? 0 then no_sweep p c
    else
      let '(amount_in, amount_out) := compute_inline_arb spot (liquidity p) sweep_amount a_to_b in
      let profit := usat 64 (amount_out - amount_in) in
      if profit =? 0 then no_sweep p c
      else
        let price := price_after spot (liquidity p) sweep_amount a_to_b in
        let c :=
          if a_to_b then set_profit c (total_profit_captured_a c) (usat 64 (total_profit_captured_b c + profit))
          else set_profit c (usat 64 (total_profit_captured_a c + profit)) (total_profit_captured_b c) in
        let! t :=
          match get_tick_at_sqrt_price price with
          | Ok t => Ok t
          | Err _ => Ok (tick_current p)
          | Panic => Panic
          end in
        Ok (true, a_to_b, profit, set_pool_price p price t, set_last_sweep c current_slot).

Definition pre_swap_arb_check (p : PoolState) (c : ArbConfig) (o : ObservationState)
    (current_slot current_timestamp : Z) : Result sweep_result :=
  if negb (arb_enabled c) then no_sweep p c
  else
    let! next := uchk 64 (last_sweep_slot c + cooldown_slots c) in
    if current_slot <? next then no_sweep p c
    else if observation_index o <? MIN_OBSERVATIONS then no_sweep p c
    else
      let! twap := observe_twap o (twap_window_seconds c) current_timestamp in
      match twap with
      | None => no_sweep p c
      | Some t =>
          match get_sqrt_price_at_tick t with
          | Ok twap_sqrt => sweep_towards p c twap_sqrt current_slot
          | Err _ => no_sweep p c
          | Panic => Panic
          end
      end.

(** ** Layer 2: the manipulation tax *)

Definition detect_same_slot_manipulation (p : PoolState) (o : ObservationState) (c : ArbConfig)
    (current_timestamp threshold_bps : Z) : Result (Z * ArbConfig) :=
  let! twap := observe_twap o 30 current_timestamp in
  match twap with
  | None => Ok (0, c)
  | Some t =>
      match get_sqrt_price_at_tick t with
      | Ok twap_sqrt =>
          let '(deviation_bps, _) := spread_of (sqrt_price_x64 p) twap_sqrt in
          if threshold_bps <? deviation_bps then
            Ok (manipulation_tax_bps c, set_detections c (usat 64 (manipulation_detections c + 1)))
          else Ok (0, c)
      | Err _ => Ok (0, c)
      | Panic => Panic
      end
  end.

(** ** The hooks of [swap_v2] *)

(** The account passed as the configuration. *)
Record ArbAccount := mkArbAccount { aa_key : Pubkey; aa_owner : Pubkey; aa_data : option ArbConfig }.

Definition store_arb (x : ArbAccount) (c : ArbConfig) : ArbAccount :=
  mkArbAccount (aa_key x) (aa_owner x) (Some c).

Section Hooks.
(** The derived address of the configuration of the pool at hand, and
    [crate::ID]. *)
Context (arb_config_pda program_ID : Pubkey).

(** The configuration of the account, when it is the one of the pool. *)
Definition load_arb (ai : option ArbAccount) : option (ArbAccount * ArbConfig) :=
  match ai with
  | Some x =>
      if (aa_key x =? arb_config_pda) && (aa_owner x =? program_ID) then (pair x) <$> aa_data x else None
  | None => None
  end.

Definition try_pre_swap_shield (p : PoolState) (o : ObservationState) (ai : option ArbAccount)
    (slot block_timestamp : Z) : Result (PoolState * option ArbAccount) :=
  match load_arb ai with
  | None => Ok (p, ai)
  | Some (x, c) =>
      let! '(_, _, _, p, c) := pre_swap_arb_check p c o slot block_timestamp in
      Ok (p, Some (store_arb x c))
  end.

Definition try_apply_manipulation_tax (p : PoolState) (o : ObservationState) (ai : option ArbAccount)
    (block_timestamp swap_amount : Z) (zero_for_one : bool) : Result (Z * PoolState * option ArbAccount) :=
  match load_arb ai with
  | None => Ok (0, p, ai)
  | Some (x, c) =>
      let threshold_bps := effective_manipulation_threshold_bps c in
      let! '(tax_bps, c) := detect_same_slot_manipulation p o c block_timestamp threshold_bps in
      if (tax_bps =? 0) || (10000 <? tax_bps) then Ok (0, p, Some (store_arb x c))
      else
        let! product := uchk 128 (swap_amount * tax_bps) in
        let tax_amount := uwrap 64 (product / 10000) in
        if (tax_amount =? 0) || (swap_amount <=? tax_amount) then Ok (0, p, Some (store_arb x c))
        else if zero_for_one then
          Ok (tax_amount,
              set_protocol_fees p (usat 64 (protocol_fees_token_0 p + tax_amount)) (protocol_fees_token_1 p),
              Some (store_arb x (set_tax_collected c (usat 64 (manipulation_tax_collected_a c + tax_amount))
                                   (manipulation_tax_collected_b c))))
        else
          Ok (tax_amount,
              set_protocol_fees p (protocol_fees_token_0 p) (usat 64 (protocol_fees_token_1 p + tax_amount)),
              Some (store_arb x (set_tax_collected c (manipulation_tax_collected_a c)
                                   (usat 64 (manipulation_tax_collected_b c + tax_amount)))))
  end.
End Hooks.

End Shield.

(** ** Layer 3: the slot of the last swap *)

Definition record_swap_slot (last_swap_slot current_slot : Z) : Z := current_slot.
Definition is_suspected_backrun (last_swap_slot current_slot : Z) : bool := last_swap_slot =? current_slot.

(** ** The instructions of [arb_sweep.rs] *)

Section ArbSweep.
Context {U : UintLib}.

(** [get_twap_tick] *)
Definition get_twap_tick (o : ObservationState) (current_timestamp : Z) : Result (option Z) :=
  if observation_index o =? 0 then Ok None
  else
    let! last := idx (observations o) ((observation_index o - 1) mod Z.of_nat OBSERVATION_NUM) in
    if block_timestamp last =? 0 then Ok None
    else
      let elapsed := usat 32 (current_timestamp - block_timestamp last) in
      if elapsed =? 0 then Ok None
      else
        let! avg := idiv 64 (tick_cumulative last) (Z.max elapsed 1) in
        Ok (Some (clamp_tick (iwrap 32 avg))).

(** [calculate_sweep_amount] *)
Definition calculate_sweep_amount (spot twap liquidity min_amount max_amount : Z) (a_to_b : bool) : Result Z :=
  let! delta := price_delta spot twap a_to_b in
  Ok (sweep_amount_for liquidity delta min_amount max_amount).

(** [compute_arb_swap]: as [compute_inline_arb], with checked arithmetic. *)
Definition compute_arb_swap (sqrt_price liquidity amount : Z) (a_to_b : bool) : Result (Z * Z) :=
  let virtual :=
    if a_to_b then default 1 (checked_udiv liquidity (Z.max (Z.shiftr sqrt_price 32) 1))
    else usat 128 (liquidity * Z.shiftr sqrt_price 64) in
  let! numerator := uchk 128 (liquidity * amount) in
  let! denominator := uchk 128 (virtual + amount) in
  let! out := udiv numerator denominator in
  Ok (amount, uwrap 64 out).

Definition apply_arb_to_pool (p : PoolState) (amount : Z) (a_to_b : bool) : Result PoolState :=
  let price := price_after (sqrt_price_x64 p) (liquidity p) amount a_to_b in
  let! t := get_tick_at_sqrt_price price in
  Ok (set_pool_price p price t).

(** [handler]: the observations and the vaults are whatever accounts the
    caller passes. *)
Definition arb_sweep (signer pool_key : Pubkey) (p : PoolState) (c : ArbConfig) (o : ObservationState)
    (vault_0 vault_1 treasury_vault : Pubkey) (slot unix_timestamp : Z) :
    Result (PoolState * ArbConfig * list Transfer) :=
  do! require (arb_pool c =? pool_key) ConstraintViolated in
  do! require (arb_authority c =? signer) NotSender in
  do! require (arb_enabled c) ArbDisabled in
  do! require (treasury c =? treasury_vault) InvalidTreasury in
  let! next := uchk 64 (last_sweep_slot c + cooldown_slots c) in
  do! require (next <=? slot) ArbCooldownActive in
  do! require (MIN_OBSERVATIONS <=? observation_index o) InsufficientOracleData in
  let! twap := get_twap_tick o (uwrap 32 unix_timestamp) in
  let! twap_tick := ok_or twap InsufficientOracleData in
  let! twap_sqrt := get_sqrt_price_at_tick twap_tick in
  let spot := sqrt_price_x64 p in
  let '(spread_bps, a_to_b) := spread_of spot twap_sqrt in
  do! require (min_spread_bps c <=? spread_bps) SpreadTooSmall in
  let! sweep_amount :=
    calculate_sweep_amount spot twap_sqrt (liquidity p) (min_sweep_amount c) (max_sweep_amount c) a_to_b in
  let! '(amount_in, amount_out) := compute_arb_swap spot (liquidity p) sweep_amount a_to_b in
  let profit := usat 64 (amount_out - amount_in) in
  do! require (0 <? profit) NoArbProfit in
  let! share := ok_or (ucheck 128 (profit * treasury_share_bps c)) ArithmeticOverflow in
  let treasury_amount := uwrap 64 (share / 10000) in
  let c' :=
    if a_to_b then set_profit c (total_profit_captured_a c) (usat 64 (total_profit_captured_b c + treasury_amount))
    else set_profit c (usat 64 (total_profit_captured_a c + treasury_amount)) (total_profit_captured_b c) in
  let c := if 0 <? treasury_amount then c' else c in
  let! p := apply_arb_to_pool p sweep_amount a_to_b in
  Ok (p, set_last_sweep c slot,
      transfer_nonzero (if a_to_b then vault_1 else vault_0) treasury_vault treasury_amount).

(** [handler_init]: any signer may call it for any pool. *)
Definition init_arb_config (pool_key authority treasury_key : Pubkey)
    (spread_bps share_bps window min_amount max_amount cooldown tax_bps : Z) : Result ArbConfig :=
  do! require (share_bps <=? 10000) ArithmeticOverflow in
  do! require (tax_bps <=? 10000) ArithmeticOverflow in
  do! require (0 <? spread_bps) ZeroLiquidity in
  do! require (min_amount <? max_amount) AmountBelowMin in
  do! require (15 <=? window) InsufficientOracleData in
  Ok (mkArbConfig pool_key authority treasury_key spread_bps share_bps window min_amount max_amount 0
        cooldown 0 0 true (if tax_bps =? 0 then 9000 else tax_bps) 0 0 0 0).

(** [handler_update_manipulation_tax] *)
Definition update_manipulation_tax (admin_ID signer : Pubkey) (c : ArbConfig) (new_tax_bps : Z) : Result ArbConfig :=
  do! require (signer =? admin_ID) NotApproved in
  do! require (new_tax_bps <=? 10000) ArithmeticOverflow in
  Ok (set_tax_bps c new_tax_bps).

(** [handler_toggle] *)
Definition toggle_arb (signer : Pubkey) (c : ArbConfig) (on : bool) : Result ArbConfig :=
  do! require (arb_authority c =? signer) NotSender in
  Ok (set_enabled c on).
End ArbSweep.

(** * The reference price *)

(** The rings an oracle can reach when the pool's tick stays between [lo] and
    [hi] and the clock does not go back. *)
Inductive observed (lo hi : Z) : ObservationState -> Prop :=
| observed_start epoch pool : observed lo hi (observation_initialize epoch pool)
| observed_update o t tick o' :
    observed lo hi o -> lo <= tick <= hi -> 0 < t -> in_u 32 t -> block_timestamp (latest o) <= t ->
    observation_update o t tick = Ok o' -> observed lo hi o'.

(** Between two observations the cumulative tick has grown at a rate between
    [lo] and [hi]. *)
Definition paced (lo hi : Z) (x y : Observation) : Prop :=
  let dt := block_timestamp y - block_timestamp x in
  lo * dt <= tick_cumulative y - tick_cumulative x <= hi * dt.

(** An observation that has been written, next to the ring's latest one. *)
Definition written (lo hi : Z) (l x : Observation) : Prop :=
  block_timestamp x <= block_timestamp l /\
  - (443636 * block_timestamp x) <= tick_cumulative x <= 443636 * block_timestamp x.

Record ring_ok (lo hi : Z) (o : ObservationState) : Prop := {
  rg_ok : observations_ok o;
  rg_fresh : obs_initialized o = false ->
    observation_index o = 0 /\ observations o = replicate OBSERVATION_NUM default_observation;
  rg_latest : obs_initialized o = true -> 0 < block_timestamp (latest o);
  rg_written i x : obs_initialized o = true -> observations o !! i = Some x -> block_timestamp x <> 0 ->
    written lo hi (latest o) x;
  rg_paced i j x y : obs_initialized o = true ->
    observations o !! i = Some x -> observations o !! j = Some y ->
    0 < block_timestamp x <= block_timestamp y -> paced lo hi x y;
}.

Section Twap.
Context (lo hi : Z) (Hlo : MIN_TICK <= lo) (Hhi : hi <= MAX_TICK).

Lemma ring_start epoch pool : ring_ok lo hi (observation_initialize epoch pool).
Proof.
  split; cbn [obs_initialized observation_initialize]; [|done|done|done|done].
  split; [done|]. split; [cbn; lia|]. apply Forall_replicate. by_compute.
Qed.

(** The first observation of a ring. *)
Lemma ring_first o t tick o' :
  ring_ok lo hi o -> obs_initialized o = false -> 0 < t -> in_u 32 t ->
  observation_update o t tick = Ok o' -> ring_ok lo hi o'.
Proof.
  intros [Hok Hfresh _ _ _] Hi Ht Ht32 H. destruct (Hfresh Hi) as [Hx Hobs].
  assert (o' = mkObservationState true (obs_recent_epoch o) 0 (obs_pool_id o)
                 (mkObservation t 0 :: replicate 99 default_observation)) as ->.
  { unfold observation_update in H. rewrite Hi, Hx, Hobs in H. cbn in H. by injection H as <-. }
  assert (Hl : forall i x, (mkObservation t 0 :: replicate 99 default_observation) !! i = Some x ->
            block_timestamp x <> 0 -> x = mkObservation t 0).
  { intros [|i] x E Hb; cbn [lookup list_lookup] in E; [by injection E as <-|].
    by apply lookup_replicate in E as [-> _]. }
  split; cbn [obs_initialized observations]; [| |intros _; exact Ht| |]; try done.
  - split; [done|]. split; [cbn; lia|]. cbn [observations]. constructor; [|apply Forall_replicate; by_compute].
    split; [done|by_compute].
  - intros i x _ E Hb. rewrite (Hl _ _ E Hb). unfold written.
    change (latest _) with (mkObservation t 0). cbn [block_timestamp tick_cumulative]. lia.
  - intros i j x y _ Ex Ey Hb. rewrite (Hl _ _ Ex), (Hl _ _ Ey) by lia. unfold paced.
    cbn [block_timestamp tick_cumulative]. lia.
Qed.

(** A later observation, written over the oldest one. *)
Lemma ring_next o t tick n :
  ring_ok lo hi o -> obs_initialized o = true -> lo <= tick <= hi -> in_u 32 t ->
  block_timestamp (latest o) <= t -> (0 <= n < 100) ->
  let x' := mkObservation t (tick_cumulative (latest o) + tick * (t - block_timestamp (latest o))) in
  ring_ok lo hi (mkObservationState true (obs_recent_epoch o) n (obs_pool_id o)
                   (<[Z.to_nat n := x']> (observations o))).
Proof.
  intros [Hok _ Hpos Hw Hp] Hi Htick Ht Hlt Hn x'. specialize (Hpos Hi).
  pose proof Hok as (Hlen & Hidx & Hall).
  assert (exists k, observations o !! k = Some (latest o)) as [k Hk].
  { exists (Z.to_nat (observation_index o)). apply (latest_lookup o), idx_Ok in Hok as [_ Hok]. done. }
  destruct (Hw k _ Hi Hk ltac:(lia)) as [_ Hc].
  set (o' := mkObservationState _ _ _ _ _).
  assert (latest o' = x') as Hlatest.
  { unfold latest, o'. cbn [observations observation_index]. rewrite list_lookup_insert_eq; [done|].
    rewrite Hlen. unfold OBSERVATION_NUM. lia. }
  unfold MIN_TICK, MAX_TICK in *.
  assert (Hcum : - (443636 * t) <= tick_cumulative x' <= 443636 * t) by (cbn [x' tick_cumulative]; nia).
  assert (Hnew : forall i x, observations o !! i = Some x -> 0 < block_timestamp x ->
            block_timestamp x <= t /\ paced lo hi x x').
  { intros i x E Hb. destruct (Hw i x Hi E ltac:(lia)) as [Hle _]. split; [lia|].
    pose proof (Hp i k x (latest o) Hi E Hk ltac:(lia)) as Hpace.
    unfold paced in *. cbn [x' block_timestamp tick_cumulative]. nia. }
  assert (Hget : forall i x, observations o' !! i = Some x -> x = x' \/ observations o !! i = Some x).
  { intros i x E. unfold o' in E. cbn [observations] in E.
    apply list_lookup_insert_Some in E as [(_ & <- & _)|[_ E]]; auto. }
  split; [| |intros _; rewrite Hlatest; cbn; lia| |]; try done.
  - split; [by cbn [o' observations]; rewrite length_insert|]. split; [done|].
    cbn [o' observations]. apply Forall_insert; [done|]. cbn [x' block_timestamp]. split; [done|].
    unfold in_i, in_u in *. lia.
  - intros i x _ E Hb. rewrite Hlatest. destruct (Hget _ _ E) as [->|E']; [split; [reflexivity|exact Hcum]|].
    destruct (Hw i x Hi E' Hb) as [Hle Hcx]. split; [change (block_timestamp x') with t; lia|done].
  - intros i j x y _ Ex Ey Hb. destruct (Hget _ _ Ex) as [->|Ex'], (Hget _ _ Ey) as [->|Ey'].
    + unfold paced. rewrite !Z.sub_diag. lia.
    + change (block_timestamp x') with t in Hb. destruct (Hw j y Hi Ey' ltac:(lia)) as [Hle _].
      assert (t = block_timestamp (latest o) /\ block_timestamp y = t) as [Et Ety] by lia.
      pose proof (Hp j k y (latest o) Hi Ey' Hk ltac:(lia)) as P1.
      unfold paced in *. subst x'. cbn [block_timestamp tick_cumulative]. rewrite Ety, <- Et in *. lia.
    + by apply (Hnew i x Ex' ltac:(lia)).
    + by apply (Hp i j).
Qed.

Lemma observed_ring o : observed lo hi o -> ring_ok lo hi o.
Proof.
  induction 1 as [|o t tick o' _ IH Htick H0 Ht Hle H]; [apply ring_start|].
  destruct (obs_initialized o) eqn:Hi; [|by eapply ring_first].
  rewrite observation_update_ok in H; [|apply IH|done|done|unfold MIN_TICK, MAX_TICK in *; lia].
  injection H as <-. destruct (_ <? 15); [done|].
  pose proof (Z.mod_pos_bound (observation_index o + 1) 100 eq_refl) as Hn. fold (next_slot o) in Hn.
  rewrite iwrap_id; [by apply ring_next|done|].
  pose proof IH as [Hok _ Hpos Hw _]. pose proof (latest_lookup o Hok) as [_ Hk]%idx_Ok.
  destruct (Hw _ _ Hi Hk ltac:(specialize (Hpos Hi); lia)) as [_ Hc].
  unfold in_i, in_u, MIN_TICK, MAX_TICK in *. nia.
Qed.
End Twap.

(** The search for an older observation. *)
Lemma find_observation_from_Ok n i o target :
  length (observations o) = OBSERVATION_NUM ->
  exists r, find_observation_from n i o target = Ok r /\
    forall j, r = Some j ->
      exists x, @idx error _ (observations o) j = Ok x /\ block_timestamp x <> 0 /\ block_timestamp x <= target.
Proof.
  intros Hlen. revert i. induction n as [|n IH]; intros i; [by exists None|].
  cbn [find_observation_from]. set (j := (observation_index o + Z.of_nat OBSERVATION_NUM - i) mod _).
  assert (0 <= j < 100) as Hj by (apply Z.mod_pos_bound; done).
  destruct (lookup_lt_is_Some_2 (observations o) (Z.to_nat j)) as [x Hx].
  { rewrite Hlen. unfold OBSERVATION_NUM. lia. }
  assert (@idx error _ (observations o) j = Ok x) as Ex by (apply idx_Ok; split; [lia|done]).
  rewrite Ex. cbn [obind].
  destruct (Z.eqb_spec (block_timestamp x) 0); [apply IH|].
  destruct (Z.leb_spec (block_timestamp x) target); [|apply IH].
  cbn [negb andb]. exists (Some j). split; [done|]. intros j' [= <-]. by exists x.
Qed.

(** [observe_twap] on a well-formed ring: it does not panic when the window
    can be doubled, and what it returns is the average between two
    observations of the ring. *)
Lemma observe_twap_Ok o w now :
  observations_ok o -> in_u 32 (w * 2) ->
  exists r, observe_twap o w now = Ok r /\
    forall t, r = Some t ->
      exists i j x y, observations o !! i = Some x /\ observations o !! j = Some y /\
        block_timestamp x <> 0 /\ block_timestamp y <> 0 /\
        let dt := usat 32 (block_timestamp y - block_timestamp x) in
        dt <> 0 /\
        t = clamp_tick (iwrap 32 (Z.quot (iwrap 64 (tick_cumulative y - tick_cumulative x)) dt)).
Proof.
  intros Hok Hw. pose proof Hok as (Hlen & Hi & Hall). unfold observe_twap.
  destruct (Z.eqb_spec (observation_index o) 0); [by exists None|].
  destruct (Z.ltb_spec (observation_index o) MIN_OBSERVATIONS_FOR_TWAP); [by exists None|].
  set (j := (observation_index o - 1) mod _).
  assert (0 <= j < 100) as Hj by (apply Z.mod_pos_bound; done).
  destruct (lookup_lt_is_Some_2 (observations o) (Z.to_nat j)) as [y Hy].
  { rewrite Hlen. unfold OBSERVATION_NUM. lia. }
  assert (@idx error _ (observations o) j = Ok y) as -> by (apply idx_Ok; split; [lia|done]).
  cbn [obind]. destruct (Z.eqb_spec (block_timestamp y) 0); [by exists None|].
  rewrite (uchk_ok 32 (w * 2)) by done.
  assert (exists b, (if usat 32 (now - block_timestamp y) =? 0 then Ok true
            else obind (Ok (w * 2)) (fun w => Ok (w <? usat 32 (now - block_timestamp y)))) = @Ok error _ b)
    as [b ->] by (destruct (_ =? 0); eexists; done).
  cbn [obind]. destruct b; [by exists None|].
  destruct (find_observation_from_Ok OBSERVATION_NUM 0 o (usat 32 (now - w)) Hlen) as (r & Er & Hr).
  unfold find_observation_at_or_before. rewrite Er. cbn [obind]. destruct r as [i|]; [|by exists None].
  destruct (Hr i eq_refl) as (x & Ex & Hx0 & _). rewrite Ex. cbn [obind].
  destruct (Z.eqb_spec (usat 32 (block_timestamp y - block_timestamp x)) 0); [by exists None|].
  set (dt := usat 32 (block_timestamp y - block_timestamp x)) in *. set (d := iwrap 64 _).
  assert (idiv 64 d dt = @Ok error _ (Z.quot d dt)) as ->.
  { apply idiv_Ok. split; [done|]. split; [done|].
    assert (0 < dt) by (subst dt; unfold usat in *; lia).
    pose proof (iwrap_in 64 (tick_cumulative y - tick_cumulative x) eq_refl) as Hd. fold d in Hd.
    unfold in_i in *. destruct (Z.le_gt_cases 0 d).
    - split; [transitivity 0; [lia|by apply Z.quot_pos]|].
      apply Z.le_lt_trans with d; [|lia]. apply Z.quot_le_upper_bound; nia.
    - assert (Z.quot d dt = - Z.quot (- d) dt) as -> by (rewrite Z.quot_opp_l by lia; lia).
      assert (0 <= Z.quot (- d) dt) by (apply Z.quot_pos; lia).
      assert (Z.quot (- d) dt <= - d) by (apply Z.quot_le_upper_bound; nia). lia. }
  cbn [obind]. eexists. split; [done|]. intros t [= <-].
  apply idx_Ok in Ex as [_ Ex]. by exists (Z.to_nat i), (Z.to_nat j), x, y.
Qed.

(** The quotient of a growth paced between two integers is between them. *)
Lemma quot_between lo hi d dt : 0 < dt -> lo * dt <= d <= hi * dt -> lo <= Z.quot d dt <= hi.
Proof.
  intros Ht Hd. destruct (Z.le_gt_cases 0 d) as [H0|H0].
  - rewrite Z.quot_div_nonneg by lia. split; [apply Z.div_le_lower_bound; lia|].
    apply Z.div_le_upper_bound; lia.
  - assert (Z.quot d dt = - (- d / dt)) as ->.
    { rewrite <- Z.quot_div_nonneg by lia. rewrite Z.quot_opp_l by lia. lia. }
    assert (- d / dt <= - lo) by (apply Z.div_le_upper_bound; nia).
    assert (- hi <= - d / dt) by (apply Z.div_le_lower_bound; nia). lia.
Qed.

Section TwapProperty.

(** The reference price of the shield is sound: over every history of the
    oracle in which the pool's tick stayed between [lo] and [hi], whatever the
    window and the time, [observe_twap] does not panic (a window that can be
    doubled), and the average it returns - when it has the observations to
    return one - is a tick between [lo] and [hi]. *)
Theorem twap_within_visited_ticks lo hi o window now :
  MIN_TICK <= lo -> hi <= MAX_TICK -> observed lo hi o -> in_u 32 (window * 2) ->
  exists r, observe_twap o window now = Ok r /\ forall t, r = Some t -> lo <= t <= hi.
Proof.
  intros Hlo Hhi Hobs Hw. pose proof (observed_ring lo hi Hlo Hhi o Hobs) as [Hok Hfresh _ Hwr Hp].
  destruct (observe_twap_Ok o window now Hok Hw) as (r & E & Hr). exists r. split; [done|]. intros t Ht.
  destruct (Hr t Ht) as (i & j & x & y & Hx & Hy & Hx0 & Hy0 & Hdt & ->).
  destruct (obs_initialized o) eqn:Hi.
  2:{ destruct (Hfresh eq_refl) as [_ Er]. rewrite Er in Hx. by apply lookup_replicate in Hx as [-> _]. }
  pose proof Hok as (_ & _ & Hall). rewrite Forall_lookup in Hall.
  destruct (Hall _ _ Hx) as [Hbx _], (Hall _ _ Hy) as [Hby _].
  unfold usat in *. set (dt := block_timestamp y - block_timestamp x).
  replace (Z.max 0 (Z.min dt (2 ^ 32 - 1))) with dt in * by (subst dt; range).
  assert (0 < dt) as Hdt0 by (subst dt; range).
  pose proof (Hp i j x y eq_refl Hx Hy ltac:(subst dt; range)) as Hpace. unfold paced in Hpace. fold dt in Hpace.
  unfold MIN_TICK, MAX_TICK in *.
  assert (dt < 2 ^ 32) as Hdt1 by (subst dt; range). clearbody dt.
  assert (- 443636 * dt <= tick_cumulative y - tick_cumulative x <= 443636 * dt) by nia.
  rewrite (iwrap_id 64); [|done|unfold in_i; lia].
  pose proof (quot_between lo hi _ dt Hdt0 Hpace) as Hq.
  rewrite iwrap_id; [|done|unfold in_i; lia]. unfold clamp_tick. lia.
Qed.
End TwapProperty.

(** * The hooks *)

Section HookProperties.
Context {U : UintLib} (arb_config_pda program_ID : Pubkey).

Lemma detect_Ok p o c now threshold :
  observations_ok o ->
  exists bps c', detect_same_slot_manipulation p o c now threshold = Ok (bps, c') /\
    (bps = 0 \/
     bps = manipulation_tax_bps c /\
     exists t s, observe_twap o 30 now = Ok (Some t) /\ get_sqrt_price_at_tick t = Ok s /\
       threshold < fst (spread_of (sqrt_price_x64 p) s)).
Proof.
  intros Hok. unfold detect_same_slot_manipulation.
  destruct (observe_twap_Ok o 30 now Hok ltac:(by_compute)) as (r & E & _). rewrite E. cbn [obind].
  destruct r as [t|]; [|by exists 0, c; auto].
  destruct (get_sqrt_price_at_tick t) as [s|e|] eqn:Es; [|by exists 0, c; auto|].
  2:{ destruct (decide (MIN_TICK <= t <= MAX_TICK));
        [by rewrite get_sqrt_price_at_tick_ok in Es|by rewrite get_sqrt_price_at_tick_err in Es]. }
  destruct (spread_of (sqrt_price_x64 p) s) as [d b] eqn:Ed.
  destruct (Z.ltb_spec threshold d); [|by exists 0, c; auto].
  eexists _, _. split; [done|]. right. split; [done|]. exists t, s. by rewrite Ed.
Qed.

(** The manipulation tax never blocks a swap and takes exactly its share:
    on every pool, every oracle and every account passed as the configuration,
    the hook returns a tax below the swapped amount; without a tax the pool is
    untouched; a tax is only taken with the pool's own configuration and when
    the price is further from the 30-second reference than the threshold, is
    the configured share of the amount rounded down, and is credited to the
    protocol's fees of the input token, nothing else of the pool changing. *)
Theorem manipulation_tax_exact p o ai now amount (zfo : bool) :
  observations_ok o -> in_u 64 amount ->
  (forall x c, ai = Some x -> aa_data x = Some c -> 0 <= manipulation_tax_bps c) ->
  exists tax p' ai',
    try_apply_manipulation_tax arb_config_pda program_ID p o ai now amount zfo = Ok (tax, p', ai') /\
    (tax = 0 /\ p' = p \/
     0 < tax < amount /\
     exists x c, load_arb arb_config_pda program_ID ai = Some (x, c) /\
       tax = amount * manipulation_tax_bps c / 10000 /\
       (exists t s, observe_twap o 30 now = Ok (Some t) /\ get_sqrt_price_at_tick t = Ok s /\
          effective_manipulation_threshold_bps c < fst (spread_of (sqrt_price_x64 p) s)) /\
       p' = if zfo
            then set_protocol_fees p (usat 64 (protocol_fees_token_0 p + tax)) (protocol_fees_token_1 p)
            else set_protocol_fees p (protocol_fees_token_0 p) (usat 64 (protocol_fees_token_1 p + tax))).
Proof.
  intros Hok Ha Hbps. unfold try_apply_manipulation_tax.
  destruct (load_arb arb_config_pda program_ID ai) as [[x c]|] eqn:El; [|by exists 0, p, ai; auto].
  destruct (detect_Ok p o c now (effective_manipulation_threshold_bps c) Hok) as (bps & c' & E & Hd).
  rewrite E. cbn [obind].
  destruct (Z.eqb_spec bps 0) as [|Hb0]; [by eexists 0, p, _; auto|].
  destruct (Z.ltb_spec 10000 bps) as [|Hb1]; [by eexists 0, p, _; auto|]. cbn [orb].
  destruct Hd as [|[-> Hd]]; [done|].
  assert (0 <= manipulation_tax_bps c) as Hb.
  { unfold load_arb in El. destruct ai as [x0|]; [|done]. destruct (_ && _); [|done].
    destruct (aa_data x0) as [c0|] eqn:E0; [|done]. injection El as <- <-. by eapply Hbps. }
  rewrite uchk_ok by (unfold in_u in *; nia). cbn [obind].
  assert (0 <= amount * manipulation_tax_bps c / 10000 <= amount) as Hq.
  { split; [apply Z.div_pos; unfold in_u in *; nia|apply Z.div_le_upper_bound; unfold in_u in *; nia]. }
  rewrite (uwrap_id 64) by range. set (tax := amount * manipulation_tax_bps c / 10000) in *.
  destruct (Z.eqb_spec tax 0) as [|Ht0]; [by eexists 0, p, _; auto|].
  destruct (Z.leb_spec amount tax) as [|Ht1]; [by eexists 0, p, _; auto|]. cbn [orb].
  destruct zfo; (eexists tax, _, _; split; [done|right; split; [lia|by exists x, c]]).
Qed.

(** The hook of the sweep can block every swap that names the configuration:
    [handler_init] accepts any window, and with one of half the range of a
    [u32] or more the reference price panics as soon as the clock has moved
    since the observation it starts from. *)
Theorem long_window_blocks_swaps p o slot now b key authority treasury_key spread share window lo hi cooldown tax c :
  init_arb_config key authority treasury_key spread share window lo hi cooldown tax = Ok c ->
  2 ^ 31 <= window -> 0 <= cooldown <= slot -> slot < 2 ^ 64 ->
  observations_ok o -> MIN_OBSERVATIONS <= observation_index o ->
  block_timestamp <$> observations o !! Z.to_nat (observation_index o - 1) = Some b -> 0 < b < now -> in_u 32 now ->
  try_pre_swap_shield arb_config_pda program_ID p o
    (Some (mkArbAccount arb_config_pda program_ID (Some c))) slot now = Panic.
Proof.
  intros Hc Hw Hcd Hslot Hok Hidx Hb Hbn Hn.
  unfold init_arb_config in Hc. apply obind_Ok in Hc as (_ & _ & Hc). apply obind_Ok in Hc as (_ & _ & Hc).
  apply obind_Ok in Hc as (_ & _ & Hc). apply obind_Ok in Hc as (_ & _ & Hc).
  apply obind_Ok in Hc as (_ & _ & Hc). injection Hc as <-.
  unfold try_pre_swap_shield, load_arb. cbn [aa_key aa_owner aa_data]. rewrite !Z.eqb_refl. cbn [andb fmap option_fmap option_map].
  unfold pre_swap_arb_check. cbn [arb_enabled negb last_sweep_slot cooldown_slots twap_window_seconds].
  rewrite uchk_ok by range. cbn [obind].
  destruct (Z.ltb_spec slot (0 + cooldown)); [lia|].
  destruct (Z.ltb_spec (observation_index o) MIN_OBSERVATIONS); [lia|]. unfold MIN_OBSERVATIONS in *.
  assert (observe_twap o window now = Panic) as ->; [|done].
  unfold observe_twap, MIN_OBSERVATIONS_FOR_TWAP.
  destruct (Z.eqb_spec (observation_index o) 0); [lia|]. destruct (Z.ltb_spec (observation_index o) 2); [lia|].
  destruct Hok as (_ & Hi & _). rewrite Z.mod_small by (unfold OBSERVATION_NUM; lia).
  apply fmap_Some in Hb as (x & Hx & ->).
  assert (@idx error _ (observations o) (observation_index o - 1) = Ok x) as -> by (apply idx_Ok; split; [lia|done]).
  cbn [obind]. destruct (Z.eqb_spec (block_timestamp x) 0); [lia|].
  rewrite usat_id by range. destruct (Z.eqb_spec (now - block_timestamp x) 0); [lia|].
  unfold uchk. replace (uok 32 (window * 2)) with false; [done|].
  symmetry. apply not_true_iff_false. rewrite uok_spec. range.
Qed.
End HookProperties.

(** * The sweep *)

(** Four fifths of a gap between prices. *)
Lemma price_delta_Ok spot twap (z : bool) d :
  in_u 128 spot -> in_u 128 twap -> (if z then twap <= spot else spot <= twap) ->
  price_delta spot twap z = Ok d ->
  d = (if z then spot - twap else twap - spot) * 4 / 5.
Proof.
  intros Hs Ht Hz H. unfold price_delta in H.
  apply obind_Ok in H as (g & [-> Hg]%uchk_Ok & H). apply obind_Ok in H as (g4 & [-> Hg4]%uchk_Ok & H).
  injection H as <-. set (g := if z then spot - twap else twap - spot) in *.
  assert (0 <= g * 4 / 5 <= g) as Hd.
  { split; [apply Z.div_pos; range|apply Z.div_le_upper_bound; range]. }
  destruct z; subst g; rewrite !(usat_id 128) by (repeat (rewrite usat_id by range); range); lia.
Qed.

(** A sweep whose amount was not raised to the floor moves the price by no
    more than the delta it was computed for. *)
Lemma sweep_impact l d lo hi :
  in_u 128 l -> in_u 128 d -> 0 <= lo -> lo * Q64 <= l * d ->
  0 <= hi -> let a := sweep_amount_for l d lo hi in
  0 <= a /\ 0 <= default 0 (checked_udiv (usat 128 (a * Q64)) (Z.max l 1)) <= d.
Proof.
  intros Hl Hd Hlo Hfl Hhi. cbn zeta. change Q64 with (2 ^ 64) in *.
  unfold sweep_amount_for. change Q64 with (2 ^ 64).
  assert (checked_udiv (usat 128 (l * d)) (2 ^ 64) = Some (usat 128 (l * d) / 2 ^ 64)) as -> by done.
  cbn [default from_option id].
  assert (0 <= l * d) as Hld by (unfold in_u in *; nia).
  assert (0 <= usat 128 (l * d) <= l * d) as Hu by (unfold usat; lia).
  assert (usat 128 (l * d) < 2 ^ 128) as Hu' by (unfold usat; lia).
  assert (0 <= usat 128 (l * d) / 2 ^ 64 < 2 ^ 64) as Hr.
  { split; [apply Z.div_pos; lia|apply Z.div_lt_upper_bound; lia]. }
  rewrite (uwrap_id 64) by range. set (raw := usat 128 (l * d) / 2 ^ 64) in *.
  set (a := Z.min (Z.max raw lo) hi).
  assert (0 <= a) as Ha0 by lia. split; [done|].
  assert (a * 2 ^ 64 <= l * d) as Ha.
  { assert (raw * 2 ^ 64 <= l * d) by (pose proof (zfloor_bounds (usat 128 (l * d)) (2 ^ 64) eq_refl); lia).
    destruct (Z.le_gt_cases lo raw); [replace (Z.max raw lo) with raw in a by lia|
      replace (Z.max raw lo) with lo in a by lia]; subst a; nia. }
  assert (0 < Z.max l 1) by lia.
  replace (checked_udiv (usat 128 (a * 2 ^ 64)) (Z.max l 1)) with (Some (usat 128 (a * 2 ^ 64) / Z.max l 1))
    by (unfold checked_udiv; destruct (Z.eqb_spec (Z.max l 1) 0); [lia|done]).
  cbn [default from_option id].
  assert (0 <= usat 128 (a * 2 ^ 64) <= a * 2 ^ 64) by (unfold usat; lia).
  split; [apply Z.div_pos; lia|]. apply Z.div_le_upper_bound; [lia|]. unfold in_u in *. nia.
Qed.

Section SweepProperties.
Context {U : UintLib}.

(** A sweep that executes moves the price towards the reference and not
    past it, provided the floor [min_sweep_amount] does not exceed the amount
    computed for the gap: the new price lies between the old one and the
    reference, on the side the sweep says; it takes a profit and stamps its
    slot; and it changes the price and the tick of the pool and nothing
    else - not its liquidity, its fees or its ticks. *)
Theorem sweep_approaches_twap p c twap slot a_to_b profit p' c' :
  in_u 128 (sqrt_price_x64 p) -> 0 < twap < 2 ^ 128 -> in_u 128 (liquidity p) ->
  0 <= min_sweep_amount c -> 0 <= max_sweep_amount c ->
  min_sweep_amount c * Q64 <= liquidity p * (Z.abs (sqrt_price_x64 p - twap) * 4 / 5) ->
  sweep_towards p c twap slot = Ok (true, a_to_b, profit, p', c') ->
  a_to_b = (twap <? sqrt_price_x64 p) /\ 0 < profit /\ last_sweep_slot c' = slot /\
  (if a_to_b then twap <= sqrt_price_x64 p' <= sqrt_price_x64 p
   else sqrt_price_x64 p <= sqrt_price_x64 p' <= twap) /\
  p' = set_pool_price p (sqrt_price_x64 p') (tick_current p').
Proof.
  intros Hs Ht Hl Hmin Hmax Hfloor H. unfold sweep_towards in H.
  destruct (spread_of (sqrt_price_x64 p) twap) as [sp z] eqn:Esp.
  assert (z = (twap <? sqrt_price_x64 p)) as Hz.
  { unfold spread_of in Esp. destruct (twap <? sqrt_price_x64 p); by injection Esp as _ <-. }
  destruct (sp <? min_spread_bps c); [done|].
  apply obind_Ok in H as (d & Hd & H).
  apply price_delta_Ok in Hd; [|done|range|destruct (Z.ltb_spec twap (sqrt_price_x64 p)); subst z; lia].
  set (gap := if z then sqrt_price_x64 p - twap else twap - sqrt_price_x64 p) in *.
  assert (gap = Z.abs (sqrt_price_x64 p - twap)) as Hgap.
  { subst gap z. destruct (Z.ltb_spec twap (sqrt_price_x64 p)); lia. }
  rewrite <- Hgap, <- Hd in Hfloor.
  assert (0 <= d <= gap) as Hdg.
  { subst d. split; [apply Z.div_pos; lia|apply Z.div_le_upper_bound; lia]. }
  assert (in_u 128 d) as Hd128.
  { clear -Hdg Hgap Hs Ht. unfold in_u in *. lia. }
  destruct (sweep_impact (liquidity p) d (min_sweep_amount c) (max_sweep_amount c) Hl Hd128 Hmin Hfloor Hmax)
    as [_ Himp].
  set (amount := sweep_amount_for (liquidity p) d (min_sweep_amount c) (max_sweep_amount c)) in *.
  destruct (amount =? 0); [done|].
  destruct (compute_inline_arb (sqrt_price_x64 p) (liquidity p) amount z) as [ain aout] eqn:Earb.
  destruct (Z.eqb_spec (usat 64 (aout - ain)) 0) as [|Hprofit]; [done|].
  apply obind_Ok in H as (t & _ & H). injection H as <- <- <- <-.
  split; [done|]. split; [unfold usat in *; lia|]. split; [done|]. cbn [sqrt_price_x64 set_pool_price tick_current].
  split; [|done]. unfold price_after. set (impact := default 0 _) in *.
  subst gap. destruct z; rewrite usat_id by range; lia.
Qed.
End SweepProperties.

(** * Examples *)

(** Four observations, twenty seconds apart, of a pool whose tick is 2000. *)
Definition demo_ring : ObservationState :=
  mkObservationState true 0 3 77
    ([mkObservation 1000 0; mkObservation 1020 40000; mkObservation 1040 80000; mkObservation 1060 120000]
       ++ replicate 96 default_observation).

Lemma demo_ring_observed : observed 2000 2000 demo_ring.
Proof.
  assert (H : forall o t o', observed 2000 2000 o -> 0 < t < 2 ^ 32 -> block_timestamp (latest o) <= t ->
            observation_update o t 2000 = Ok o' -> observed 2000 2000 o').
  { intros o t o' Ho Ht Hb E. apply (observed_update 2000 2000 o t 2000 o'); [done|lia|lia|range|done|done]. }
  eapply (H _ 1060); [eapply (H _ 1040); [eapply (H _ 1020); [eapply (H _ 1000);
    [apply (observed_start 2000 2000 0 77)|lia| |vm_compute; reflexivity]|lia| |vm_compute; reflexivity]|lia| |
    vm_compute; reflexivity]|lia| |vm_compute; reflexivity]; vm_compute; discriminate.
Qed.

Lemma demo_ring_ok : observations_ok demo_ring.
Proof. by apply (observed_ring 2000 2000), demo_ring_observed. Qed.

Lemma twap_within_visited_ticks_witness : observe_twap demo_ring 30 1065 = Ok (Some 2000).
Proof.
  destruct (twap_within_visited_ticks 2000 2000 demo_ring 30 1065) as (r & E & Hr).
  - vm_compute. discriminate.
  - vm_compute. discriminate.
  - exact demo_ring_observed.
  - by_compute.
  - rewrite E. vm_compute in E. injection E as <-. f_equal.
Defined.

(** A configuration with a tax of 90%, in the account of the pool. *)
Definition demo_arb : ArbConfig := mkArbConfig 77 9 91 10 2000 60 0 1000000 0 5 0 0 true 9000 0 0 0 0.
Definition demo_arb_account : ArbAccount := mkArbAccount 55 66 (Some demo_arb).

(** The sample pool is at tick 0, the reference at 2000. *)
Lemma manipulation_tax_exact_witness :
  exists ai', try_apply_manipulation_tax (U := uint_std) 55 66 sample_pool demo_ring (Some demo_arb_account) 1065 1000 true
    = Ok (900, set_protocol_fees sample_pool 900 0, ai').
Proof.
  destruct (manipulation_tax_exact (U := uint_std) 55 66 sample_pool demo_ring (Some demo_arb_account) 1065 1000 true)
    as (tax & p' & ai' & E & H).
  - exact demo_ring_ok.
  - by_compute.
  - intros x c [= <-] [= <-]. vm_compute. discriminate.
  - exists ai'. rewrite E. destruct H as [[-> _]|(_ & x & c & Hl & -> & _ & ->)].
    + vm_compute in E. discriminate E.
    + vm_compute in Hl. injection Hl as <- <-. reflexivity.
Defined.

Lemma long_window_blocks_swaps_witness :
  try_pre_swap_shield (U := uint_std) 55 66 sample_pool demo_ring
    (Some (mkArbAccount 55 66 (Some (mkArbConfig 77 9 91 10 2000 (2 ^ 31) 0 1000000 0 5 0 0 true 9000 0 0 0 0))))
    500 1065 = Panic.
Proof.
  apply (long_window_blocks_swaps (U := uint_std) 55 66 sample_pool demo_ring 500 1065 1040 77 9 91 10 2000 (2 ^ 31)
           0 1000000 5 0 (mkArbConfig 77 9 91 10 2000 (2 ^ 31) 0 1000000 0 5 0 0 true 9000 0 0 0 0)).
  - reflexivity.
  - reflexivity.
  - lia.
  - lia.
  - exact demo_ring_ok.
  - vm_compute. discriminate.
  - reflexivity.
  - lia.
  - by_compute.
Defined.

(** The sample pool with some liquidity, at tick 0; the reference is the price
    at tick -2000. *)
Definition swept_pool : PoolState := set_pool_liquidity sample_pool (10 ^ 6).

Lemma sweep_approaches_twap_witness :
  exists p' c',
    sweep_towards (U := uint_std) swept_pool demo_arb 16691387729992681352 77 = Ok (true, true, 923874, p', c') /\
    16691387729992681352 <= sqrt_price_x64 p' <= sqrt_price_x64 swept_pool /\ liquidity p' = 10 ^ 6.
Proof.
  eexists _, _. split; [vm_compute; reflexivity|].
  edestruct (sweep_approaches_twap (U := uint_std) swept_pool demo_arb 16691387729992681352 77 true 923874)
    as (_ & _ & _ & Hp & _).
  - by_compute.
  - lia.
  - by_compute.
  - vm_compute. discriminate.
  - vm_compute. discriminate.
  - vm_compute. discriminate.
  - vm_compute. reflexivity.
  - split; [exact Hp|reflexivity].
Defined.
