(* ===== verification/PoolBitmap.v ===== *)
(** The tick-array bitmap of a pool, [states/pool.rs]: the pool's own 1024
    arrays around tick zero together with the rows of the extension account.

    The extension account is optional ([None] when the caller did not pass it)
    and comes with its key; the key the program derives for the pool is a
    parameter.  The search across the two is a [loop]; it is modelled with
    fuel, [None] meaning that the fuel ran out, and shown to end. *)
From S2P Require Import Prelude.
From S2P Require Import AmmError.
From S2P Require Import BigNum.
From S2P Require Import Config.
From S2P Require Import TickMath.
From S2P Require Import TickIndex.
From S2P Require Import TickBitmap.
From S2P Require Import BitmapExtension.
From S2P Require Import Rewards.
From S2P Require Import DynamicFee.
From S2P Require Import Pool.

Section PoolBitmap.
Context {U : UintLib}.

Definition get_tick_array_offset (p : PoolState) (tick_array_start_index : Z) : Result Z :=
  let! valid := check_is_valid_start_index tick_array_start_index (pool_tick_spacing p) in
  do! require valid InvalidTickIndex in
  let! n := tick_count (pool_tick_spacing p) in
  let! q := idiv 32 tick_array_start_index n in
  let! o := ichk 32 (q + TICK_ARRAY_BITMAP_SIZE) in
  Ok (uwrap 64 o).

Definition flip_tick_array_bit_default (p : PoolState) (tick_array_start_index : Z) : Result PoolState :=
  let! o := get_tick_array_offset p tick_array_start_index in
  let! mask := U1024.shl U1024.one o in
  Ok (set_bitmap p (U1024.bitxor (tick_array_bitmap p) mask)).

Definition tick_array_start_index_range (p : PoolState) : Result (Z * Z) :=
  let s := pool_tick_spacing p in
  let! max_tick_boundary := max_tick_in_tickarray_bitmap s in
  let! min_tick_boundary := ichk 32 (- max_tick_boundary) in
  let! max_tick_boundary :=
    if MAX_TICK <? max_tick_boundary then
      let! m := get_array_start_index MAX_TICK s in
      let! n := tick_count s in
      ichk 32 (m + n)
    else Ok max_tick_boundary in
  let! min_tick_boundary :=
    if min_tick_boundary <? MIN_TICK then get_array_start_index MIN_TICK s
    else Ok min_tick_boundary in
  Ok (min_tick_boundary, max_tick_boundary).

(** The loop over the ticks of [is_overflow_default_tickarray_bitmap]. *)
Fixpoint any_outside (s lo hi : Z) (tick_indexs : list Z) : Result bool :=
  match tick_indexs with
  | [] => Ok false
  | t :: l =>
      let! start := get_array_start_index t s in
      if (hi <=? start) || (start <? lo) then Ok true else any_outside s lo hi l
  end.

Definition is_overflow_default_tickarray_bitmap (p : PoolState) (tick_indexs : list Z) : Result bool :=
  let! '(lo, hi) := tick_array_start_index_range p in
  any_outside (pool_tick_spacing p) lo hi tick_indexs.

(** The pool and the extension account after the flip; [expected] is
    [TickArrayBitmapExtension::key(self.key())]. *)
Definition pool_flip_tick_array_bit (p : PoolState) (expected : Pubkey)
    (ext : option (Pubkey * TickArrayBitmapExtension)) (tick_array_start_index : Z) :
    Result (PoolState * option (Pubkey * TickArrayBitmapExtension)) :=
  let! overflow := is_overflow_default_tickarray_bitmap p [tick_array_start_index] in
  if overflow then
    let! '(key, e) := ok_or ext MissingTickArrayBitmapExtensionAccount in
    do! require_keys_eq key expected in
    let! e := flip_tick_array_bit e tick_array_start_index (pool_tick_spacing p) in
    Ok (p, Some (key, e))
  else
    let! p := flip_tick_array_bit_default p tick_array_start_index in
    Ok (p, ext).

(** The body of the search's loop: the answer, or the start index to go on
    from. *)
Definition next_array_step (p : PoolState) (ext : option TickArrayBitmapExtension) (zero_for_one : bool)
    (last_tick_array_start_index : Z) : Result (option Z + Z) :=
  let! '(is_found, start_index) :=
    next_initialized_tick_array_start_index (tick_array_bitmap p) last_tick_array_start_index
      (pool_tick_spacing p) zero_for_one in
  if is_found : bool then Ok (inl (Some start_index))
  else
    let! extension := ok_or ext MissingTickArrayBitmapExtensionAccount in
    let! '(is_found, start_index) :=
      next_initialized_tick_array_from_one_bitmap extension start_index
        (pool_tick_spacing p) zero_for_one in
    if is_found : bool then Ok (inl (Some start_index))
    else if (start_index <? MIN_TICK) || (MAX_TICK <? start_index) then Ok (inl None)
    else Ok (inr start_index).

Fixpoint next_array_loop (fuel : nat) (p : PoolState) (ext : option TickArrayBitmapExtension)
    (zero_for_one : bool) (last : Z) : option (Result (option Z)) :=
  match fuel with
  | O => None
  | S fuel =>
      match next_array_step p ext zero_for_one last with
      | Ok (inl r) => Some (Ok r)
      | Ok (inr last) => next_array_loop fuel p ext zero_for_one last
      | Err e => Some (Err e)
      | Panic => Some Panic
      end
  end.

(** Enough rounds for every pool: one for each 512 arrays of the tick range,
    and one more at each end. *)
Definition SEARCH_FUEL : nat := 32.

(** [next_initialized_tick_array_start_index] and, on an account, its twin
    [next_tick_array_index_with_extension_info]. *)
Definition pool_next_initialized_tick_array_start_index (p : PoolState)
    (ext : option TickArrayBitmapExtension) (last : Z) (zero_for_one : bool) :
    option (Result (option Z)) :=
  match get_array_start_index last (pool_tick_spacing p) with
  | Ok last => next_array_loop SEARCH_FUEL p ext zero_for_one last
  | Err e => Some (Err e)
  | Panic => Some Panic
  end.

(** [get_first_initialized_tick_array] and, on an account, its twin
    [first_tick_array_index_with_extension_info]. *)
Definition get_first_initialized_tick_array (p : PoolState) (ext : option TickArrayBitmapExtension)
    (zero_for_one : bool) : option (Result (bool * Z)) :=
  let s := pool_tick_spacing p in
  let current :=
    let! overflow := is_overflow_default_tickarray_bitmap p [tick_current p] in
    if overflow then
      let! extension := ok_or ext MissingTickArrayBitmapExtensionAccount in
      let! start := get_array_start_index (tick_current p) s in
      check_tick_array_is_initialized extension start s
    else
      check_current_tick_array_is_initialized (tick_array_bitmap p) (tick_current p) s in
  match current with
  | Ok (true, start_index) => Some (Ok (true, start_index))
  | Ok (false, _) =>
      match get_array_start_index (tick_current p) s with
      | Ok start =>
          (fun r => let! o := r in
                    let! next := ok_or o InsufficientLiquidityForDirection in
                    Ok (false, next))
          <$> pool_next_initialized_tick_array_start_index p ext start zero_for_one
      | Err e => Some (Err e)
      | Panic => Some Panic
      end
  | Err e => Some (Err e)
  | Panic => Some Panic
  end.
End PoolBitmap.

(** * The two bitmaps as one set of tick arrays *)

Definition in_pool (k : Z) : bool := (-512 <=? k) && (k <? 512).

(** Whether tick array [k] is marked, wherever its bit is. *)
Definition array_marked (p : PoolState) (e : TickArrayBitmapExtension) (k : Z) : bool :=
  if in_pool k then marked (tick_array_bitmap p) k else ext_marked e k.

(** Well-formed bitmaps that mark valid arrays only. *)
Record bitmaps_ok (p : PoolState) (e : TickArrayBitmapExtension) : Prop := {
  bo_spacing : spacing_ok (pool_tick_spacing p);
  bo_pool : U1024.wf (tick_array_bitmap p);
  bo_ext : ext_wf e;
  bo_valid : forall k, array_marked p e k = true ->
    k_min (pool_tick_spacing p) <= k <= k_max (pool_tick_spacing p);
}.

Section Search.
Context {U : UintLib} (p : PoolState) (e : TickArrayBitmapExtension) (Hok : bitmaps_ok p e).

Local Abbreviation s := (pool_tick_spacing p).
Local Abbreviation n := (tpa s).
Local Abbreviation kmin := (k_min s).
Local Abbreviation kmax := (k_max s).
Local Abbreviation P := (array_marked p e).

Let Hs : spacing_ok s := bo_spacing p e Hok.

Lemma n_range : 60 <= n <= 3932100.
Proof. apply tpa_range, Hs. Qed.

Lemma k_bounds : kmin <= 0 <= kmax /\ -7394 <= kmin /\ kmax <= 7393.
Proof.
  pose proof n_range. unfold k_min, k_max, MIN_TICK, MAX_TICK.
  split; [split|split].
  - enough (-443636 / n < 1) by lia. apply Z.div_lt_upper_bound; lia.
  - apply Z.div_pos; lia.
  - apply Z.div_le_lower_bound; lia.
  - enough (443636 / n < 7394) by lia. apply Z.div_lt_upper_bound; lia.
Qed.

(** A start below the first array is below [MIN_TICK], one above the last is
    above [MAX_TICK]. *)
Lemma start_cmp k :
  (k * n <? MIN_TICK) || (MAX_TICK <? k * n) = true -> ~ (kmin < k <= kmax).
Proof.
  intros Hc Hk. pose proof n_range. unfold k_min, k_max in Hk.
  pose proof (zfloor_bounds MIN_TICK n ltac:(lia)). pose proof (zfloor_bounds MAX_TICK n ltac:(lia)).
  apply orb_true_iff in Hc as [Hc%Z.ltb_lt|Hc%Z.ltb_lt]; nia.
Qed.

Lemma start_valid k :
  (k * n <? MIN_TICK) || (MAX_TICK <? k * n) = false -> kmin <= k <= kmax.
Proof.
  intros Hc. pose proof n_range. unfold k_min, k_max.
  apply orb_false_iff in Hc as [H1%Z.ltb_ge H2%Z.ltb_ge].
  pose proof (zfloor_bounds MIN_TICK n ltac:(lia)). pose proof (zfloor_bounds MAX_TICK n ltac:(lia)).
  split; nia.
Qed.

Lemma outside_unmarked k : ~ kmin <= k <= kmax -> P k = false.
Proof.
  intros Hk. destruct (P k) eqn:HP; [|done]. by apply (bo_valid p e Hok) in HP.
Qed.


(** One index further in the direction of the search. *)
Definition toward (zfo : bool) (k : Z) : Z := if zfo then k - 1 else k + 1.

(** No marked array strictly after [k] up to and including [k1]. *)
Definition clear_between (zfo : bool) (k k1 : Z) : Prop :=
  (if zfo then k1 <= k else k <= k1) /\
  forall i, (if zfo then k1 <= i < k else k < i <= k1) -> P i = false.

Definition found (zfo : bool) (k j : Z) : Prop :=
  P j = true /\ (if zfo then j < k else k < j) /\
  forall i, (if zfo then j < i < k else k < i < j) -> P i = false.

Lemma clear_trans zfo k k1 k2 :
  clear_between zfo k k1 -> clear_between zfo k1 k2 -> clear_between zfo k k2.
Proof.
  intros [Hd1 H1] [Hd2 H2]. split; [destruct zfo; lia|]. intros i Hi. destruct zfo.
  - destruct (Z.lt_ge_cases i k1); [apply H2|apply H1]; lia.
  - destruct (Z.le_gt_cases i k1); [apply H1|apply H2]; lia.
Qed.

Lemma clear_found zfo k k1 j : clear_between zfo k k1 -> found zfo k1 j -> found zfo k j.
Proof.
  intros [Hd1 H1] (Hj & Hd & H2). split; [done|]. split; [destruct zfo; lia|]. intros i Hi. destruct zfo.
  - destruct (Z.lt_ge_cases i k1); [apply H2|apply H1]; lia.
  - destruct (Z.le_gt_cases i k1); [apply H1|apply H2]; lia.
Qed.

(** The pool's part of a round ends outside the pool's bitmap. *)
Lemma pool_part k zfo :
  kmin <= k <= kmax ->
  exists o k1,
    next_initialized_tick_array_start_index (tick_array_bitmap p) (k * n) s zfo =
      Ok (match o with Some j => (true, j * n) | None => (false, k1 * n) end) /\
    match o with
    | Some j => found zfo k j
    | None => clear_between zfo k k1 /\ in_pool (toward zfo k1) = false
    end /\ (k1 = k \/ k1 = (if zfo then -512 else 511)).
Proof.
  intros Hk. assert (valid_start (k * n) s) as Hv by (by apply valid_start_iff).
  assert (Decision (if zfo then -512 <= k - 1 < 512 else -512 <= k + 1 < 512)) as [Hr|Hr]
    by (destruct zfo; apply _).
  - destruct (next_in_pool_bitmap (tick_array_bitmap p) k s zfo (bo_pool p e Hok) Hs Hv Hr)
      as (o & Hnear & ->).
    exists o, (if zfo then -512 else 511). split; [by destruct o|]. split; [|by right].
    apply (nearest_ext _ P) in Hnear.
    2:{ intros i Hi. unfold array_marked, in_pool.
        destruct (Z.leb_spec (-512) i), (Z.ltb_spec i 512); destruct zfo; cbn [andb]; done || lia. }
    unfold nearest, found, clear_between in *. destruct o as [j|].
    + destruct Hnear as (Hj & HP & Hf). split; [done|]. split; [destruct zfo; lia|].
      intros i Hi. apply Hf. destruct zfo; lia.
    + split; [|by destruct zfo]. split; [destruct zfo; lia|]. intros i Hi. apply Hnear. destruct zfo; lia.
  - rewrite (next_outside_pool_bitmap _ k s zfo Hs Hv Hr). exists None, k. split; [done|].
    split; [|by left]. split.
    + split; [destruct zfo; lia|]. intros i Hi. destruct zfo; lia.
    + unfold in_pool, toward. destruct zfo;
        match goal with |- context [(?a <=? ?b) && (?b <? ?c)] =>
          destruct (Z.leb_spec a b), (Z.ltb_spec b c) end; cbn [andb]; done || lia.
Qed.

(** The end of the 512-array block of [k]. *)
Definition block_end (zfo : bool) (k : Z) : Z := if zfo then k / 512 * 512 else k / 512 * 512 + 511.

(** The extension's part. *)
Lemma ext_part k1 zfo :
  -7394 <= k1 <= 7393 -> in_i 32 (k1 * n) -> in_i 32 (toward zfo k1 * n) ->
  in_pool (toward zfo k1) = false ->
  exists o k2,
    next_initialized_tick_array_from_one_bitmap e (k1 * n) s zfo =
      Ok (match o with Some j => (true, j * n) | None => (false, k2 * n) end) /\
    match o with
    | Some j => found zfo k1 j
    | None => clear_between zfo k1 k2 /\ (if zfo then k2 < k1 else k1 < k2) /\
        (k2 = block_end zfo (toward zfo k1) \/ ~ kmin <= k2 <= kmax)
    end.
Proof.
  intros Hk Hi1 Hi2 Hout. set (k' := toward zfo k1) in *.
  unfold next_initialized_tick_array_from_one_bitmap.
  rewrite tick_count_ok by done. cbn [obind].
  assert ((if zfo then ichk 32 (k1 * n - n) else ichk 32 (k1 * n + n)) = @Ok error _ (k' * n)) as ->.
  { unfold k', toward in *. destruct zfo.
    - replace (k1 * n - n) with ((k1 - 1) * n) by lia. by apply ichk_ok.
    - replace (k1 * n + n) with ((k1 + 1) * n) by lia. by apply ichk_ok. }
  cbn [obind]. rewrite !get_array_start_index_ok by (done || by apply small_tick).
  cbn [obind]. unfold array_start. fold kmin kmax. pose proof n_range as Hn.
  assert (((k' * n <? kmin * n) || (kmax * n <? k' * n)) = negb ((kmin <=? k') && (k' <=? kmax))) as ->.
  { clear -Hn. set (a := kmin). set (b := kmax). set (m := n) in *. clearbody a b m k'.
    destruct (Z.ltb_spec (k' * m) (a * m)), (Z.ltb_spec (b * m) (k' * m)),
      (Z.leb_spec a k'), (Z.leb_spec k' b); cbn; done || nia. }
  destruct ((kmin <=? k') && (k' <=? kmax)) eqn:Hb; cbn [negb].
  - apply andb_true_iff in Hb as [Hb1%Z.leb_le Hb2%Z.leb_le].
    assert (ext_index k' s) as Hx.
    { split; [by apply valid_start_iff|]. unfold in_pool in Hout.
      apply andb_false_iff in Hout as [?%Z.leb_gt|?%Z.ltb_ge]; lia. }
    rewrite get_bitmap_ok by (done || apply (bo_ext p e Hok)). cbn [obind].
    destruct (next_in_row_ok e k' s zfo (bo_ext p e Hok) Hs Hx) as (o & Hnear & ->).
    exists o, (block_end zfo k'). split; [destruct o; unfold block_end; by destruct zfo|].
    apply (nearest_ext _ P) in Hnear.
    2:{ intros i Hi. unfold array_marked. replace (in_pool i) with false; [done|]. symmetry.
        destruct Hx as [_ Hx]. clear -Hx Hi. unfold in_pool.
        destruct (Z.leb_spec (-512) i), (Z.ltb_spec i 512); try done. exfalso. destruct zfo; euclid. }
    unfold nearest, found, clear_between, block_end, toward in *. clear Hi1 Hi2 Hn.
    assert (k' / 512 * 512 <= k' <= k' / 512 * 512 + 511) as Hbl by euclid.
    set (base := k' / 512 * 512) in *. clearbody base. destruct o as [j|].
    + destruct Hnear as (Hj & HP & Hf). split; [done|]. split; [destruct zfo; lia|].
      intros i Hi. apply Hf. destruct zfo; lia.
    + split; [|split; [unfold k'; destruct zfo; lia|by left]].
      split; [destruct zfo; lia|]. intros i Hi. apply Hnear. destruct zfo; lia.
  - exists None, k'. split; [done|].
    assert (~ kmin <= k' <= kmax) as Hnk.
    { intros [Ha1 Ha2]. apply Z.leb_le in Ha1, Ha2. by rewrite Ha1, Ha2 in Hb. }
    split; [|split; [unfold k', toward; destruct zfo; lia|by right]].
    split; [unfold k', toward; destruct zfo; lia|].
    intros i Hi. apply outside_unmarked. replace i with k'; [done|].
    unfold k', toward in *. destruct zfo; lia.
Qed.

Definition blocks_left (zfo : bool) (k : Z) : Z :=
  if zfo then (k - 1) / 512 - (kmin - 1) / 512 else (kmax + 1) / 512 - (k + 1) / 512.

Lemma blocks_left_range zfo k : kmin <= k <= kmax -> 0 <= blocks_left zfo k < 31.
Proof.
  intros Hk. pose proof k_bounds as Hb. unfold blocks_left.
  set (a := kmin) in *. set (b := kmax) in *. clearbody a b. destruct zfo; euclid.
Qed.

Lemma product_in_i32 k : -513 <= k <= 512 \/ kmin - 1 <= k <= kmax + 1 -> in_i 32 (k * n).
Proof.
  pose proof n_range as Hn. intros Hk. unfold in_i. change (2 ^ (32 - 1)) with 2147483648.
  destruct Hk as [Hk|Hk]; [nia|].
  pose proof (zfloor_bounds MIN_TICK n ltac:(lia)) as H1. pose proof (zfloor_bounds MAX_TICK n ltac:(lia)) as H2.
  unfold k_min, k_max, MIN_TICK, MAX_TICK in *.
  set (a := -443636 / n) in *. set (b := 443636 / n) in *. set (m := n) in *. clearbody a b m.
  assert ((a - 1) * m <= k * m <= (b + 1) * m) by nia. lia.
Qed.

Lemma next_array_step_ok k zfo :
  kmin <= k <= kmax ->
  exists r, next_array_step p (Some e) zfo (k * n) = Ok r /\
    match r with
    | inl (Some x) => exists j, x = j * n /\ found zfo k j
    | inl None => forall i, (if zfo then i < k else k < i) -> P i = false
    | inr x => exists k2, x = k2 * n /\ kmin <= k2 <= kmax /\ clear_between zfo k k2 /\
                 blocks_left zfo k2 < blocks_left zfo k
    end.
Proof.
  intros Hk. pose proof k_bounds as (H0 & Hlo & Hhi). unfold next_array_step.
  destruct (pool_part k zfo Hk) as (o & k1 & -> & Ho & Hk1). cbn [obind].
  destruct o as [j|]; [eexists; split; [done|]; by exists j|]. destruct Ho as [Hc Hout].
  cbn [obind Prelude.ok_or].
  destruct (ext_part k1 zfo) as (o & k2 & -> & Ho).
  { destruct Hk1 as [->| ->]; [lia|]. destruct zfo; lia. }
  { apply product_in_i32. destruct Hk1 as [->| ->]; [lia|]. destruct zfo; lia. }
  { apply product_in_i32. unfold toward. destruct Hk1 as [->| ->]; destruct zfo; lia. }
  { done. }
  cbn [obind]. destruct o as [j|].
  { eexists. split; [done|]. exists j. split; [done|]. by eapply clear_found. }
  destruct Ho as (Hc2 & Hstrict & Hend). pose proof (clear_trans _ _ _ _ Hc Hc2) as Hcl.
  destruct ((k2 * n <? MIN_TICK) || (MAX_TICK <? k2 * n)) eqn:Hst.
  - eexists. split; [done|]. apply start_cmp in Hst. destruct Hcl as [_ Hcl], Hc as [Hd _].
    intros i Hi. destruct (decide (kmin <= i <= kmax)); [|by apply outside_unmarked].
    apply Hcl. destruct zfo; lia.
  - eexists. split; [done|]. apply start_valid in Hst. exists k2.
    split; [done|]. split; [done|]. split; [done|].
    destruct Hend as [->|]; [|done]. destruct Hc as [Hd _].
    unfold blocks_left, block_end, toward in *.
    set (a := kmin) in *. set (b := kmax) in *. clearbody a b. clear -Hd. destruct zfo; euclid.
Qed.

Lemma next_array_loop_ok fuel k zfo :
  kmin <= k <= kmax -> blocks_left zfo k < Z.of_nat fuel ->
  exists o, next_array_loop fuel p (Some e) zfo (k * n) = Some (Ok ((fun j => j * n) <$> o)) /\
    match o with
    | Some j => found zfo k j
    | None => forall i, (if zfo then i < k else k < i) -> P i = false
    end.
Proof.
  revert k. induction fuel as [|fuel IH]; intros k Hk Hf.
  - pose proof (blocks_left_range zfo k Hk). lia.
  - cbn [next_array_loop]. destruct (next_array_step_ok k zfo Hk) as (r & -> & Hr).
    destruct r as [[x|]|x].
    + destruct Hr as (j & -> & Hj). by exists (Some j).
    + by exists None.
    + destruct Hr as (k2 & -> & Hk2 & Hc & Hb).
      destruct (IH k2 Hk2 ltac:(lia)) as (o & -> & Ho). exists o. split; [done|].
      destruct o as [j|]; [by eapply clear_found|]. destruct Hc as [Hd Hc]. intros i Hi.
      destruct zfo; [destruct (Z.lt_ge_cases i k2)|destruct (Z.lt_ge_cases k2 i)];
        first [by apply Ho | apply Hc; lia].
Qed.
End Search.

Section Flip.
Context {U : UintLib} (p : PoolState) (e : TickArrayBitmapExtension) (Hok : bitmaps_ok p e).

Local Abbreviation s := (pool_tick_spacing p).
Local Abbreviation n := (tpa s).
Local Abbreviation kmin := (k_min s).
Local Abbreviation kmax := (k_max s).

Lemma kmin_kmax_bounds : kmin * n <= MIN_TICK < (kmin + 1) * n /\ kmax * n <= MAX_TICK < (kmax + 1) * n.
Proof.
  pose proof (n_range p e Hok) as Hn. unfold k_min, k_max.
  pose proof (zfloor_bounds MIN_TICK n ltac:(lia)). pose proof (zfloor_bounds MAX_TICK n ltac:(lia)). lia.
Qed.

(** The pool's own bitmap covers exactly the arrays [-512 .. 511]. *)
Lemma is_overflow_spec k :
  kmin <= k <= kmax ->
  is_overflow_default_tickarray_bitmap p [k * n] = Ok (negb (in_pool k)).
Proof.
  intros Hk. unfold is_overflow_default_tickarray_bitmap, tick_array_start_index_range.
  pose proof (bo_spacing p e Hok) as Hs. pose proof (n_range p e Hok) as Hn.
  pose proof (k_bounds p e Hok) as (H0 & Hlo & Hhi). pose proof kmin_kmax_bounds as [Hmin Hmax].
  rewrite max_tick_ok by done. cbn [obind]. rewrite ichk_ok by range. cbn [obind].
  rewrite !get_array_start_index_ok by (done || by apply small_tick). rewrite tick_count_ok by done.
  cbn [obind]. unfold array_start. fold kmin kmax.
  assert (in_i 32 (kmax * n + n)) as Hr by (unfold MAX_TICK in *; range).
  rewrite ichk_ok by done. unfold any_outside.
  assert (small (k * n)) as Hsm by (apply (valid_start_small (k * n) s Hs); by apply valid_start_iff).
  set (hi := if MAX_TICK <? 512 * n then _ else _).
  set (lo := if - (512 * n) <? MIN_TICK then _ else _).
  assert (hi = Ok (if MAX_TICK <? 512 * n then kmax * n + n else 512 * n)) as ->
    by (subst hi; by destruct (MAX_TICK <? 512 * n)).
  assert (lo = Ok (if - (512 * n) <? MIN_TICK then kmin * n else - (512 * n))) as ->
    by (subst lo; by destruct (- (512 * n) <? MIN_TICK)).
  cbn [obind]. rewrite get_array_start_index_ok by done. cbn [obind]. unfold array_start.
  rewrite Z.div_mul by lia. unfold in_pool, MIN_TICK, MAX_TICK in *. clear Hr Hsm.
  set (a := kmin) in *. set (b := kmax) in *. set (m := n) in *. clearbody a b m.
  destruct (Z.ltb_spec 443636 (512 * m)), (Z.ltb_spec (- (512 * m)) (-443636)); try lia;
    repeat match goal with
    | |- context [?x <=? ?y] => destruct (Z.leb_spec x y)
    | |- context [?x <? ?y] => destruct (Z.ltb_spec x y)
    end; cbn [orb andb negb]; done || nia.
Qed.

Lemma flip_default_ok k :
  in_pool k = true -> kmin <= k <= kmax ->
  exists p', flip_tick_array_bit_default p (k * n) = Ok p' /\
    p' = set_bitmap p (tick_array_bitmap p') /\ U1024.wf (tick_array_bitmap p') /\
    forall j, in_pool j = true -> marked (tick_array_bitmap p') j =
      xorb (marked (tick_array_bitmap p) j) (j =? k).
Proof.
  intros Hin Hk. unfold flip_tick_array_bit_default, get_tick_array_offset.
  pose proof (bo_spacing p e Hok) as Hs. pose proof (n_range p e Hok) as Hn.
  assert (valid_start (k * n) s) as Hv by (by apply valid_start_iff).
  destruct (valid_start_small _ _ Hs Hv) as (Hsm & _ & _).
  destruct (check_is_valid_start_index_ok _ s Hs Hsm) as (b & -> & Hb).
  rewrite (proj2 Hb Hv). cbn [obind Prelude.require]. rewrite tick_count_ok by done. cbn [obind].
  unfold in_pool in Hin. apply andb_true_iff in Hin as [H1%Z.leb_le H2%Z.ltb_lt].
  rewrite (proj2 (idiv_Ok 32 (k * n) n k)) by
    (split; [lia|]; rewrite Z.quot_mul by lia; split; [done|range]).
  cbn [obind]. unfold TICK_ARRAY_BITMAP_SIZE. rewrite ichk_ok by range. cbn [obind].
  rewrite uwrap_id by range.
  destruct (U1024.mask_spec (k + 512) ltac:(lia)) as (m & -> & Hm & Hbits). cbn [obind].
  eexists. split; [done|]. cbn [tick_array_bitmap set_bitmap].
  split; [done|]. split; [apply U1024.bitxor_wf; [apply (bo_pool p e Hok)|done]|].
  intros j Hj. unfold in_pool in Hj. apply andb_true_iff in Hj as [Hj1%Z.leb_le Hj2%Z.ltb_lt].
  unfold marked. rewrite U1024.ubit_bitxor by (apply (bo_pool p e Hok) || done || lia).
  rewrite Hbits by lia. f_equal. destruct (Z.eqb_spec (j + 512) (k + 512)), (Z.eqb_spec j k); done || lia.
Qed.
End Flip.

Section Properties.
Context {U : UintLib}.

(** C34: The search for the next tick array always ends and is exact across
    the pool's bitmap and all the rows of the extension: from any tick of the
    tick range, with well-formed bitmaps that mark valid arrays only, it
    returns the start of the nearest marked array strictly beyond the tick's
    own array in the direction of the trade, and [None] exactly when there
    is none; 32 rounds are enough for every tick spacing. *)
Theorem pool_next_array_nearest p e t (zfo : bool) :
  bitmaps_ok p e -> MIN_TICK <= t <= MAX_TICK ->
  let s := pool_tick_spacing p in
  let k := t / tpa s in
  exists o,
    pool_next_initialized_tick_array_start_index p (Some e) t zfo =
      Some (Ok ((fun j => j * tpa s) <$> o)) /\
    match o with
    | Some j => array_marked p e j = true /\ (if zfo then j < k else k < j) /\
        forall i, (if zfo then j < i < k else k < i < j) -> array_marked p e i = false
    | None => forall i, (if zfo then i < k else k < i) -> array_marked p e i = false
    end.
Proof.
  intros Hok Ht s k. unfold pool_next_initialized_tick_array_start_index.
  pose proof (bo_spacing p e Hok) as Hs. fold s in Hs.
  rewrite get_array_start_index_ok by (done || by apply small_tick). unfold array_start. fold s k.
  assert (k_min s <= k <= k_max s) as Hk.
  { pose proof (n_range p e Hok) as Hn. fold s in Hn. unfold k, k_min, k_max.
    split; apply Z.div_le_mono; lia. }
  destruct (next_array_loop_ok p e Hok SEARCH_FUEL k zfo Hk) as (o & Ho & Hf).
  { pose proof (blocks_left_range p e Hok zfo k Hk). unfold SEARCH_FUEL. lia. }
  exists o. split; [done|]. destruct o; [|done]. exact Hf.
Qed.

(** Marking tick arrays: flipping a valid array, in the pool's bitmap or
    in a row of the extension, succeeds when the extension account of the
    pool is passed, toggles the mark of exactly that array, and keeps the
    bitmaps well-formed and free of marks on invalid arrays; the pool's other
    fields are untouched. *)
Theorem pool_flip_exact p e key k :
  bitmaps_ok p e -> k_min (pool_tick_spacing p) <= k <= k_max (pool_tick_spacing p) ->
  exists p' e',
    pool_flip_tick_array_bit p key (Some (key, e)) (k * tpa (pool_tick_spacing p)) =
      Ok (p', Some (key, e')) /\
    bitmaps_ok p' e' /\
    (forall j, array_marked p' e' j = xorb (array_marked p e j) (j =? k)) /\
    p' = set_bitmap p (tick_array_bitmap p') /\
    (if in_pool k then e' = e else tick_array_bitmap p' = tick_array_bitmap p).
Proof.
  intros Hok Hk. unfold pool_flip_tick_array_bit. rewrite (is_overflow_spec p e Hok) by done. cbn [obind].
  assert (forall p' e', p' = set_bitmap p (tick_array_bitmap p') ->
    U1024.wf (tick_array_bitmap p') -> ext_wf e' ->
    (forall j, array_marked p' e' j = xorb (array_marked p e j) (j =? k)) -> bitmaps_ok p' e') as Hkeep.
  { intros p' e' Hset Hw He Hm.
    assert (pool_tick_spacing p' = pool_tick_spacing p) as Hsp by (by rewrite Hset).
    constructor; rewrite ?Hsp; [apply (bo_spacing p e Hok)|done|done|].
    intros j Hj. rewrite Hm in Hj.
    destruct (Z.eqb_spec j k) as [Hjk|]; [by rewrite Hjk|]. rewrite xorb_false_r in Hj.
    by apply (bo_valid p e Hok). }
  destruct (in_pool k) eqn:Hin; cbn [negb].
  - destruct (flip_default_ok p e Hok k Hin Hk) as (p' & -> & Hset & Hw & Hm). cbn [obind].
    exists p', e.
    assert (forall j, array_marked p' e j = xorb (array_marked p e j) (j =? k)) as Hmj.
    { intros j. unfold array_marked. destruct (in_pool j) eqn:Hj; [by apply Hm|].
      destruct (Z.eqb_spec j k) as [->|]; [congruence|]. by rewrite xorb_false_r. }
    split_and!; try done. apply Hkeep; try done. apply (bo_ext p e Hok).
  - cbn [obind Prelude.ok_or]. unfold require_keys_eq. rewrite Z.eqb_refl. cbn [obind Prelude.require].
    assert (forall j, in_pool j = false -> j < -512 \/ 512 <= j) as Hout.
    { intros j Hj. unfold in_pool in Hj. apply andb_false_iff in Hj as [?%Z.leb_gt|?%Z.ltb_ge]; lia. }
    destruct (flip_tick_array_bit_ok e k (pool_tick_spacing p) (bo_ext p e Hok) (bo_spacing p e Hok))
      as (e' & -> & He' & _ & Hm).
    { split; [|by apply Hout]. apply valid_start_iff; [apply (bo_spacing p e Hok)|done]. }
    cbn [obind]. exists p, e'.
    assert (forall j, array_marked p e' j = xorb (array_marked p e j) (j =? k)) as Hmj.
    { intros j. unfold array_marked. destruct (in_pool j) eqn:Hj; [|by apply Hm, Hout].
      destruct (Z.eqb_spec j k) as [->|]; [congruence|]. by rewrite xorb_false_r. }
    assert (p = set_bitmap p (tick_array_bitmap p)) by (by destruct p).
    split_and!; try done. apply Hkeep; try done. apply (bo_pool p e Hok).
Qed.
End Properties.

Lemma ext_row_empty q k : ext_row (ext_initialize q) k = 0.
Proof.
  unfold ext_row, ext_initialize. cbn [negative_tick_array_bitmap positive_tick_array_bitmap].
  assert (forall i, default 0 (replicate EXTENSION_TICKARRAY_BITMAP_SIZE 0 !! i) = 0) as Hr.
  { intros i. destruct (_ !! i) as [x|] eqn:Hi; [|done]. by apply lookup_replicate in Hi as [-> _]. }
  by destruct (k <? 0); rewrite Hr.
Qed.

(** A pool with nothing marked. *)
Lemma empty_unmarked p q k :
  tick_array_bitmap p = U1024.zero -> array_marked p (ext_initialize q) k = false.
Proof.
  intros Hz. unfold array_marked. destruct (in_pool k).
  - rewrite Hz. unfold marked, U1024.ubit, U1024.zero.
    destruct (_ !! _) as [w|] eqn:Hw; [|done].
    apply lookup_replicate in Hw as [-> _]. by rewrite Z.testbit_0_l.
  - unfold ext_marked. by rewrite ext_row_empty, Z.testbit_0_l.
Qed.

Lemma empty_bitmaps_ok p q :
  spacing_ok (pool_tick_spacing p) -> tick_array_bitmap p = U1024.zero ->
  bitmaps_ok p (ext_initialize q).
Proof.
  intros Hs Hz. constructor; [done|rewrite Hz; apply U1024.zero_wf|apply ext_initialize_wf|].
  intros k Hk. by rewrite empty_unmarked in Hk.
Qed.

Section Witnesses.
#[local] Existing Instance uint_std.

Lemma pool_flip_exact_witness :
  exists p' e',
    pool_flip_tick_array_bit sample_pool 31 (Some (31, ext_initialize 1)) (600 * tpa 10) =
      Ok (p', Some (31, e')) /\ array_marked p' e' 600 = true.
Proof.
  destruct (pool_flip_exact sample_pool (ext_initialize 1) 31 600) as (p' & e' & Hf & _ & Hm & _).
  - apply empty_bitmaps_ok; [by_compute|reflexivity].
  - by_compute.
  - exists p', e'. split; [exact Hf|]. rewrite Hm. vm_compute. reflexivity.
Defined.

Lemma pool_next_array_nearest_witness :
  pool_next_initialized_tick_array_start_index sample_pool (Some (ext_initialize 1)) 77 true =
    Some (Ok None).
Proof.
  destruct (pool_next_array_nearest sample_pool (ext_initialize 1) 77 true) as ([j|] & Ho & Hf).
  - apply empty_bitmaps_ok; [by_compute|reflexivity].
  - by_compute.
  - exfalso. destruct Hf as [Hf _].
    assert (bitmaps_ok sample_pool (ext_initialize 1)) as Hok
      by (apply empty_bitmaps_ok; [by_compute|reflexivity]).
    revert Ho. vm_compute (pool_next_initialized_tick_array_start_index _ _ _ _). discriminate.
  - exact Ho.
Defined.
End Witnesses.
