(* ===== verification/LimitOrder.v ===== *)
(** Limit orders: [LimitOrderState] and [LimitOrderNonce] of
    [states/limit_order.rs] and [states/limit_order_nonce.rs], and the
    instructions of [instructions/limit_order/].

    An instruction takes the accounts it reads and returns the accounts it
    writes together with the token transfers it requests; the account
    constraints Anchor generates from the [#[derive(Accounts)]] structs are
    guards with [ConstraintViolated].  The derived address of a tick array
    and the clock are parameters; the creation of the order and nonce accounts,
    the discriminators and the events are not modelled. *)
From S2P Require Import Prelude.
From S2P Require Import AmmError.
From S2P Require Import BigNum.
From S2P Require Import FullMath.
From S2P Require Import Config.
From S2P Require Import Token.
From S2P Require Import TickMath.
From S2P Require Import TickIndex.
From S2P Require Import BitmapExtension.
From S2P Require Import TickState.
From S2P Require Import TickArray.
From S2P Require Import Pool.
From S2P Require Import PoolBitmap.

Record LimitOrderState := mkLimitOrder {
  lo_pool_id : Pubkey;
  lo_owner : Pubkey;
  lo_tick_index : Z;
  lo_zero_for_one : bool;
  lo_order_phase : Z;
  total_amount : Z;
  filled_amount : Z;
  settle_base : Z;
  settled_output : Z;
  open_time : Z;
  lo_unfilled_ratio_x64 : Z;
}.

Record LimitOrderNonce := mkLimitOrderNonce {
  user_wallet : Pubkey;
  nonce_index : Z;
  order_nonce : Z;
}.

Record DecreaseAmountResult := mkDecreaseAmountResult {
  settled_output_amount : Z;
  real_decrease_amount : Z;
}.

Definition set_order (o : LimitOrderState) (total filled base settled ratio : Z) : LimitOrderState :=
  mkLimitOrder (lo_pool_id o) (lo_owner o) (lo_tick_index o) (lo_zero_for_one o) (lo_order_phase o)
    total filled base settled (open_time o) ratio.

(** [LimitOrderState::initialize] *)
Definition limit_order_initialize (pool_id owner : Pubkey) (tick : Z) (zero_for_one : bool)
    (amount order_phase timestamp : Z) : LimitOrderState :=
  mkLimitOrder pool_id owner tick zero_for_one order_phase amount 0 amount 0 timestamp Q64.

Definition is_fully_filled (o : LimitOrderState) : bool := total_amount o =? filled_amount o.

Definition get_unfilled_amount (o : LimitOrderState) : Result Z :=
  ok_or (ucheck 64 (total_amount o - filled_amount o)) CalculateOverflow.

(** [LimitOrderNonce::increase_order_nonce] *)
Definition increase_order_nonce (n : LimitOrderNonce) : LimitOrderNonce :=
  mkLimitOrderNonce (user_wallet n) (nonce_index n) (usat 64 (order_nonce n + 1)).

Section LimitOrder.
Context {U : UintLib}.

(** The part-filled branch of [settle_filled_order]. *)
Definition settle_part_filled (o : LimitOrderState) (t : TickState) : Result (Z * LimitOrderState) :=
  let! numerator := big_mul 256 (settle_base o) (unfilled_ratio_x64 t) in
  let denominator := lo_unfilled_ratio_x64 o in
  let! q := big_div numerator denominator in
  let! ideal_remaining := big_u64 q in
  let! r := big_rem numerator denominator in
  let total_filled := usat 64 (settle_base o - ideal_remaining) in
  if total_filled =? 0 then Ok (0, o)
  else
    let effective_filled := if r =? 0 then total_filled else usat 64 (total_filled - 1) in
    let! total_output := get_limit_order_output effective_filled (tick t) (lo_zero_for_one o) in
    let payout := usat 64 (total_output - settled_output o) in
    let! filled := ok_or (ucheck 64 (total_amount o - ideal_remaining)) CalculateOverflow in
    Ok (payout, set_order o (total_amount o) filled (settle_base o) total_output
                  (lo_unfilled_ratio_x64 o)).

Definition settle_filled_order (o : LimitOrderState) (t : TickState) : Result (Z * LimitOrderState) :=
  if settle_base o =? 0 then Ok (0, o)
  else if lo_order_phase o =? order_phase t then Ok (0, o)
  else if usat 64 (lo_order_phase o + 1) =? order_phase t then settle_part_filled o t
  else if usat 64 (lo_order_phase o + 2) <=? order_phase t then
    let! total_output := get_limit_order_output (settle_base o) (tick t) (lo_zero_for_one o) in
    let payout := usat 64 (total_output - settled_output o) in
    Ok (payout, set_order o (total_amount o) (total_amount o) 0 0 (lo_unfilled_ratio_x64 o))
  else err InvalidOrderPhase.

Definition increase_amount (o : LimitOrderState) (t : TickState) (amount : Z) :
    Result (LimitOrderState * TickState) :=
  if negb (lo_order_phase o =? order_phase t) then err InvalidOrderPhase
  else
    let! total := ok_or (ucheck 64 (total_amount o + amount)) CalculateOverflow in
    let! base := ok_or (ucheck 64 (settle_base o + amount)) CalculateOverflow in
    let! orders := ok_or (ucheck 64 (orders_amount t + amount)) CalculateOverflow in
    Ok (set_order o total (filled_amount o) base (settled_output o) (lo_unfilled_ratio_x64 o),
        set_tick_orders t (order_phase t) orders (part_filled_orders_remaining t) (unfilled_ratio_x64 t)).

(** [check_limit_order_amount] of [open_limit_order.rs] *)
Definition check_limit_order_amount (amount tick_index : Z) (zero_for_one : bool) : Result unit :=
  if amount =? 0 then err ZeroAmountSpecified
  else
    let! amount_out :=
      if zero_for_one then
        let! price := get_price_at_tick tick_index false in
        or_overflow (mul_div_floor_u128 amount price Q64)
      else
        let! price := get_price_at_tick tick_index true in
        or_overflow (mul_div_floor_u128 amount Q64 price) in
    if (amount_out <? 1) || (umax 64 - 2 <=? amount_out) then err InvalidLimitOrderAmount else Ok tt.

(** What [decrease_amount] takes off the tick. *)
Definition take_from_tick (o : LimitOrderState) (t : TickState) (amount unfilled_amount : Z) :
    Result (Z * TickState) :=
  if lo_order_phase o =? order_phase t then
    let decrease := Z.min amount unfilled_amount in
    let! orders := ok_or (ucheck 64 (orders_amount t - decrease)) CalculateOverflow in
    Ok (decrease, set_tick_orders t (order_phase t) orders (part_filled_orders_remaining t)
                    (unfilled_ratio_x64 t))
  else if usat 64 (lo_order_phase o + 1) =? order_phase t then
    let decrease := Z.min (Z.min amount unfilled_amount) (part_filled_orders_remaining t) in
    let! part := ok_or (ucheck 64 (part_filled_orders_remaining t - decrease)) CalculateOverflow in
    Ok (decrease, set_tick_orders t (order_phase t) (orders_amount t) part (unfilled_ratio_x64 t))
  else err OrderAlreadyFilled.

(** The order's new segment. *)
Definition reset_segment (o : LimitOrderState) (t : TickState) : Result LimitOrderState :=
  if usat 64 (lo_order_phase o + 1) =? order_phase t then
    let! new_unfilled := get_unfilled_amount o in
    Ok (set_order o (total_amount o) (filled_amount o) new_unfilled 0 (unfilled_ratio_x64 t))
  else
    Ok (set_order o (total_amount o) (filled_amount o) (total_amount o) (settled_output o)
          (lo_unfilled_ratio_x64 o)).

Definition decrease_amount (o : LimitOrderState) (t : TickState) (amount : Z) :
    Result (DecreaseAmountResult * LimitOrderState * TickState) :=
  let! '(settled, o) := settle_filled_order o t in
  let! unfilled_amount := get_unfilled_amount o in
  if unfilled_amount =? 0 then Ok (mkDecreaseAmountResult settled 0, o, t)
  else
    let! '(real, t) := take_from_tick o t amount unfilled_amount in
    if real =? 0 then Ok (mkDecreaseAmountResult settled 0, o, t)
    else
      let! total := ok_or (ucheck 64 (total_amount o - real)) CalculateOverflow in
      let o := set_order o total (filled_amount o) (settle_base o) (settled_output o)
                 (lo_unfilled_ratio_x64 o) in
      let! o := reset_segment o t in
      let! remaining_amount := get_unfilled_amount o in
      do! if 0 <? remaining_amount
          then check_limit_order_amount remaining_amount (lo_tick_index o) (lo_zero_for_one o)
          else Ok tt in
      Ok (mkDecreaseAmountResult settled real, o, t).

(** [check_tick_index] of [open_limit_order.rs] *)
Definition check_tick_index (tick_index : Z) (zero_for_one : bool) (tick_current tick_spacing : Z) :
    Result unit :=
  do! require ((MIN_TICK <? tick_index) && (tick_index <? MAX_TICK)) InvalidTickIndex in
  let! r := irem 32 tick_index tick_spacing in
  if negb (r =? 0) then err TickAndSpacingNotMatch
  else if (zero_for_one && (tick_index <=? tick_current))
          || (negb zero_for_one && (tick_current <=? tick_index)) then err InvalidTickIndex
  else Ok tt.

(** ** Instructions *)

(** Placing an order: the amount always joins the open cohort. *)
Definition place_order (t : TickState) (tick_index amount : Z) : Result TickState :=
  let! orders := ok_or (ucheck 64 (orders_amount t + amount)) CalculateOverflow in
  Ok (set_tick_orders (set_tick t tick_index) (order_phase t) orders
        (part_filled_orders_remaining t) (unfilled_ratio_x64 t)).

(** The derived addresses of a tick array and of the bitmap extension of the
    pool at hand. *)
Context (tick_array_address : Z -> Pubkey) (ext_key : Pubkey).
(** The keys of the pool and of the instruction's token accounts. *)
Context (pool_key : Pubkey).

Definition input_vault_of (p : PoolState) (zero_for_one : bool) : Pubkey :=
  if zero_for_one then token_vault_0 p else token_vault_1 p.
Definition output_vault_of (p : PoolState) (zero_for_one : bool) : Pubkey :=
  if zero_for_one then token_vault_1 p else token_vault_0 p.

(** [pool_state.flip_tick_array_bit] with the extension account of
    [remaining_accounts[0]] when the array is outside the pool's bitmap. *)
Definition flip_array_of (p : PoolState) (ext : option (Pubkey * TickArrayBitmapExtension)) (start : Z) :
    Result (PoolState * option (Pubkey * TickArrayBitmapExtension)) :=
  let! use_extension := is_overflow_default_tickarray_bitmap p [start] in
  if use_extension then
    let! x := ok_or ext AccountLack in
    pool_flip_tick_array_bit p ext_key (Some x) start
  else
    let! '(p, _) := pool_flip_tick_array_bit p ext_key None start in
    Ok (p, ext).

Definition open_limit_order (payer : Pubkey) (p : PoolState)
    (tick_array_key : Pubkey) (existing : option TickArrayState) (nonce : LimitOrderNonce)
    (input_token_account input_vault : Pubkey) (input_vault_mint : Mint)
    (ext : option (Pubkey * TickArrayBitmapExtension)) (unix_timestamp : Z)
    (nonce_index_ : Z) (zero_for_one : bool) (tick_index amount : Z) :
    Result (LimitOrderState * LimitOrderNonce * TickArrayState * PoolState *
            option (Pubkey * TickArrayBitmapExtension) * list Transfer) :=
  do! require (input_vault =? input_vault_of p zero_for_one) ConstraintViolated in
  if negb (get_status_by_bit p LimitOrder) || negb (get_status_by_bit p Swap) then err NotApproved
  else
    let s := pool_tick_spacing p in
    do! check_tick_index tick_index zero_for_one (tick_current p) s in
    let! transfer_fee := get_transfer_fee input_vault_mint amount in
    let! net := ok_or (ucheck 64 (amount - transfer_fee)) CalculateOverflow in
    do! check_limit_order_amount net tick_index zero_for_one in
    let! start := get_array_start_index tick_index s in
    do! require_keys_eq (tick_array_address start) tick_array_key in
    let! arr := get_or_create_tick_array existing pool_key start s in
    let before_init_tick_count := initialized_tick_count arr in
    let! o := get_tick_offset_in_array arr tick_index s in
    let! t := idx (ticks arr) o in
    do! require (order_phase t <? umax 64) OrderPhaseSaturated in
    let tick_initialized_before := is_initialized t in
    let order := limit_order_initialize pool_key payer tick_index zero_for_one net (order_phase t)
                   (uwrap 64 unix_timestamp) in
    let! t := place_order t tick_index net in
    let! arr := set_tick_at arr o t in
    let! '(arr, p, ext) :=
      if negb tick_initialized_before then
        let! arr := update_initialized_tick_count arr true in
        if before_init_tick_count =? 0 then
          let! '(p, ext) := flip_array_of p ext (start_tick_index arr) in
          Ok (arr, p, ext)
        else Ok (arr, p, ext)
      else Ok (arr, p, ext) in
    let nonce :=
      if user_wallet nonce =? default_pubkey
      then mkLimitOrderNonce payer nonce_index_ (order_nonce nonce) else nonce in
    Ok (order, increase_order_nonce nonce, arr, p, ext,
        [mkTransfer input_token_account input_vault amount]).

(** The accounts of an instruction on an existing order: its owner signs, and
    the order and the tick array belong to the pool. *)
Definition require_order_accounts (owner : Pubkey) (o : LimitOrderState) (arr : TickArrayState) :
    Result unit :=
  do! require (ta_pool_id arr =? pool_key) ConstraintViolated in
  require ((lo_pool_id o =? pool_key) && (lo_owner o =? owner)) ConstraintViolated.

Definition increase_limit_order (owner : Pubkey) (p : PoolState) (arr : TickArrayState)
    (order : LimitOrderState) (input_token_account input_vault : Pubkey) (input_vault_mint : Mint)
    (amount : Z) : Result (LimitOrderState * TickArrayState * list Transfer) :=
  do! require_order_accounts owner order arr in
  do! require (input_vault =? input_vault_of p (lo_zero_for_one order)) ConstraintViolated in
  do! require (0 <? amount) ZeroAmountSpecified in
  if negb (get_status_by_bit p LimitOrder) || negb (get_status_by_bit p Swap) then err NotApproved
  else
    let s := pool_tick_spacing p in
    let tick_index := lo_tick_index order in
    let! o := get_tick_offset_in_array arr tick_index s in
    let! t := idx (ticks arr) o in
    let! transfer_fee := get_transfer_fee input_vault_mint amount in
    let! net := ok_or (ucheck 64 (amount - transfer_fee)) CalculateOverflow in
    let! '(order, t) := increase_amount order t net in
    let! arr := set_tick_at arr o t in
    do! check_limit_order_amount (total_amount order) tick_index (lo_zero_for_one order) in
    Ok (order, arr, [mkTransfer input_token_account input_vault amount]).

Definition decrease_limit_order (owner : Pubkey) (p : PoolState) (arr : TickArrayState)
    (order : LimitOrderState) (input_token_account output_token_account input_vault output_vault : Pubkey)
    (input_vault_mint : Mint) (ext : option (Pubkey * TickArrayBitmapExtension))
    (amount amount_min : Z) :
    Result (LimitOrderState * TickArrayState * PoolState *
            option (Pubkey * TickArrayBitmapExtension) * list Transfer) :=
  do! require_order_accounts owner order arr in
  do! require (input_vault =? input_vault_of p (lo_zero_for_one order)) ConstraintViolated in
  do! require (output_vault =? output_vault_of p (lo_zero_for_one order)) ConstraintViolated in
  do! require (0 <? amount) ZeroAmountSpecified in
  let s := pool_tick_spacing p in
  let! o := get_tick_offset_in_array arr (lo_tick_index order) s in
  let! t := idx (ticks arr) o in
  let tick_initialized_before := is_initialized t in
  let! '(r, order, t) := decrease_amount order t amount in
  let! arr := set_tick_at arr o t in
  let! '(arr, p, ext) :=
    if tick_initialized_before && negb (is_initialized t) then
      let! arr := update_initialized_tick_count arr false in
      if initialized_tick_count arr =? 0 then
        let! start := get_array_start_index (lo_tick_index order) s in
        let! '(p, ext) := flip_array_of p ext start in
        Ok (arr, p, ext)
      else Ok (arr, p, ext)
    else Ok (arr, p, ext) in
  let paid := transfer_from_pool_vault_to_user output_vault output_token_account (settled_output_amount r) in
  let! returned :=
    if 0 <? real_decrease_amount r then
      let! transfer_fee := get_transfer_fee input_vault_mint (real_decrease_amount r) in
      let! net := ok_or (ucheck 64 (real_decrease_amount r - transfer_fee)) CalculateOverflow in
      do! require (amount_min <=? net) PriceSlippageCheck in
      Ok (transfer_from_pool_vault_to_user input_vault input_token_account (real_decrease_amount r))
    else Ok [] in
  Ok (order, arr, p, ext, paid ++ returned).

(** [admin] is [crate::limit_order_admin::ID]. *)
Context (limit_order_admin_ID : Pubkey).

Definition settle_limit_order (signer : Pubkey) (p : PoolState) (arr : TickArrayState)
    (order : LimitOrderState) (output_token_account output_vault : Pubkey) :
    Result (LimitOrderState * list Transfer) :=
  do! require ((signer =? lo_owner order) || (signer =? limit_order_admin_ID)) ConstraintViolated in
  do! require (ta_pool_id arr =? pool_key) ConstraintViolated in
  do! require (lo_pool_id order =? pool_key) ConstraintViolated in
  do! require (output_vault =? output_vault_of p (lo_zero_for_one order)) ConstraintViolated in
  let! t := get_tick_state arr (lo_tick_index order) (pool_tick_spacing p) in
  let! '(amount_out, order) := settle_filled_order order t in
  let! u := get_unfilled_amount order in
  do! if negb (u =? 0) then require_gt amount_out 0 else Ok tt in
  Ok (order, [mkTransfer output_vault output_token_account amount_out]).

(** The order account is closed and its rent goes to the owner. *)
Definition close_limit_order (signer rent_receiver : Pubkey) (order : LimitOrderState) : Result unit :=
  do! require ((signer =? lo_owner order) || (signer =? limit_order_admin_ID)) ConstraintViolated in
  do! require (rent_receiver =? lo_owner order) ConstraintViolated in
  let! u := get_unfilled_amount order in
  if negb (u =? 0) then err InvalidLimitOrderAmount else Ok tt.
End LimitOrder.
