(* ===== verification/LimitOrderCorrect.v ===== *)
(** The limit orders of one tick, as a book of orders around the tick's
    counters: the theorems about [LimitOrder] and the matching of [TickState].

    A book is a tick and the orders placed at it.  Its steps are the code's
    operations; the invariant ties the counters of the tick to the orders, so
    that what the owners may still withdraw is covered by what the tick holds.
    Rational arithmetic is the Standard Library's [Q]. *)
From Stdlib Require Import QArith Lqa.
From S2P Require Import Prelude.
From S2P Require Import AmmError.
From S2P Require Import Config.
From S2P Require Import Token.
From S2P Require Import BigNum.
From S2P Require Import FullMath.
From S2P Require Import TickMath.
From S2P Require Import TickIndex.
From S2P Require Import BitmapExtension.
From S2P Require Import TickState.
From S2P Require Import LimitMatch.
From S2P Require Import TickArray.
From S2P Require Import Pool.
From S2P Require Import PoolBitmap.
From S2P Require Import LimitOrder.
#[local] Open Scope Z_scope.

(** * The orders of a tick *)

(** What an order is paid at its own price for [v] units filled. *)
Definition output_for (o : LimitOrderState) (v : Z) : Z :=
  v * rate_num (lo_tick_index o) (lo_zero_for_one o) / rate_den (lo_tick_index o) (lo_zero_for_one o).

(** The share of the segment's base that is still unfilled, rounded down. *)
Definition ideal (t : TickState) (o : LimitOrderState) : Z :=
  settle_base o * unfilled_ratio_x64 t / lo_unfilled_ratio_x64 o.

Definition in_open_cohort (t : TickState) (o : LimitOrderState) : bool :=
  lo_order_phase o =? order_phase t.
Definition in_part_cohort (t : TickState) (o : LimitOrderState) : bool :=
  lo_order_phase o + 1 =? order_phase t.

(** The order and the tick agree. *)
Record order_ok (t : TickState) (o : LimitOrderState) : Prop := {
  oo_total : in_u 64 (total_amount o);
  oo_filled : 0 <= filled_amount o <= total_amount o;
  oo_base : 0 <= settle_base o <= total_amount o;
  oo_unfilled : total_amount o - filled_amount o <= settle_base o;
  oo_settled : in_u 64 (settled_output o);
  oo_phase : 0 <= lo_order_phase o <= order_phase t;
  oo_below : lo_order_phase o < umax 64;
  oo_ratio : 0 < lo_unfilled_ratio_x64 o <= 2 ^ 64;
  oo_tick : lo_tick_index o = tick t;
  oo_pay : output_for o (settle_base o) < 2 ^ 64;
  oo_open : in_open_cohort t o = true ->
    filled_amount o = 0 /\ settle_base o = total_amount o /\ settled_output o = 0 /\
    lo_unfilled_ratio_x64 o = 2 ^ 64;
  oo_part : in_part_cohort t o = true ->
    unfilled_ratio_x64 t <= lo_unfilled_ratio_x64 o /\
    ideal t o <= total_amount o - filled_amount o;
}.

(** Sums over the orders. *)
Definition sum_q (f : LimitOrderState -> Q) (l : list LimitOrderState) : Q :=
  foldr (fun o acc => (f o + acc)%Q) 0%Q l.

Definition open_total (t : TickState) (o : LimitOrderState) : Z :=
  if in_open_cohort t o then total_amount o else 0.

(** An order's weight in the part-filled cohort: its base in units of the ratio
    it started from. *)
Definition weight (o : LimitOrderState) : Q :=
  (inject_Z (settle_base o) / inject_Z (lo_unfilled_ratio_x64 o))%Q.
Definition part_weight (t : TickState) (o : LimitOrderState) : Q :=
  if in_part_cohort t o then weight o else 0%Q.

(** The invariant of a book: the open cohort is the sum of its orders; the
    exact shares of the part-filled cohort are within what the tick keeps for
    it. *)
Record book_ok (t : TickState) (l : list LimitOrderState) : Prop := {
  bk_tick : tick_ok t;
  bk_orders : Forall (order_ok t) l;
  bk_open : sum_z (open_total t) l = orders_amount t;
  bk_part : (inject_Z (unfilled_ratio_x64 t) * sum_q (part_weight t) l
             <= inject_Z (part_filled_orders_remaining t))%Q;
  bk_saturated : order_phase t = umax 64 -> orders_amount t = 0;
}.

(** ** Sums *)

Lemma sum_q_ext f g l : Forall (fun o => f o == g o)%Q l -> (sum_q f l == sum_q g l)%Q.
Proof. induction 1 as [|o l Ho _ IH]; [done|]. unfold sum_q in *. simpl. by rewrite Ho, IH. Qed.

Lemma sum_q_insert f l i o o' :
  l !! i = Some o -> (sum_q f (<[i := o']> l) == sum_q f l - f o + f o')%Q.
Proof.
  revert i. induction l as [|x l IH]; intros [|i] H; try done; unfold sum_q in *; simpl in *.
  - injection H as ->. ring.
  - rewrite (IH i H). ring.
Qed.

Lemma sum_q_nonneg f l : Forall (fun o => 0 <= f o)%Q l -> (0 <= sum_q f l)%Q.
Proof. induction 1; unfold sum_q in *; simpl; lra. Qed.

Lemma sum_q_ge f l i o : Forall (fun o => 0 <= f o)%Q l -> l !! i = Some o -> (f o <= sum_q f l)%Q.
Proof.
  intros H. revert i. induction H as [|x l Hx Hl IH]; intros [|i] Hi; try done; simpl in Hi.
  - injection Hi as ->. apply sum_q_nonneg in Hl. unfold sum_q in *. simpl. lra.
  - specialize (IH i Hi). unfold sum_q in *. simpl. lra.
Qed.

(** * Settling *)

(** The effect of [settle_filled_order] on an order that agrees with its
    tick: the payout and the order after it. *)
Definition settled (t : TickState) (o : LimitOrderState) : Z * LimitOrderState :=
  if (settle_base o =? 0) || in_open_cohort t o then (0, o)
  else if in_part_cohort t o then
    let filled := settle_base o - ideal t o in
    if filled =? 0 then (0, o)
    else
      let exact := settle_base o * unfilled_ratio_x64 t mod lo_unfilled_ratio_x64 o =? 0 in
      let out := output_for o (if exact then filled else filled - 1) in
      (usat 64 (out - settled_output o),
       set_order o (total_amount o) (total_amount o - ideal t o) (settle_base o) out
         (lo_unfilled_ratio_x64 o))
  else
    (usat 64 (output_for o (settle_base o) - settled_output o),
     set_order o (total_amount o) (total_amount o) 0 0 (lo_unfilled_ratio_x64 o)).

Section Settle.
Context {U : UintLib}.

Lemma output_for_mono t o v w :
  tick_ok t -> lo_tick_index o = tick t -> 0 <= v <= w -> 0 <= output_for o v <= output_for o w.
Proof.
  intros Ht Ho Hv. destruct (rate_range (lo_tick_index o) (lo_zero_for_one o)) as (_ & _ & ? & ?).
  { rewrite Ho. apply Ht. }
  unfold output_for. split; [apply Z.div_pos; nia|]. apply Z.div_le_mono; nia.
Qed.

Lemma get_limit_order_output_ok t o v :
  tick_ok t -> lo_tick_index o = tick t -> in_u 64 v -> output_for o v < 2 ^ 64 ->
  get_limit_order_output v (tick t) (lo_zero_for_one o) = Ok (output_for o v).
Proof.
  intros Ht Ho Hv Hlt. pose proof (tk_tick _ Ht) as Hr.
  destruct (rate_range (tick t) (lo_zero_for_one o) Hr) as (Hn & Hd & Hn0 & Hd0).
  assert (in_u 128 v) by (by apply (in_u_weaken 64)).
  assert (in_u 64 (output_for o v)) as Ho64.
  { split; [|done]. unfold output_for. rewrite Ho. apply Z.div_pos; [|done]. destruct Hv. nia. }
  unfold output_for in *. rewrite Ho in *.
  unfold get_limit_order_output. rewrite !get_price_at_tick_ok by done. cbn [obind].
  unfold mul_div_floor_u128.
  change Q64 with (2 ^ 64). unfold rate_num, rate_den in *.
  assert (forall num den, in_u 128 num -> in_u 128 den -> 0 < den -> in_u 64 (v * num / den) ->
    (let! r := or_overflow (mul_div_floor_big 128 v num den) in big_u64 r) = Ok (v * num / den)) as Hgen.
  { intros num den ? ? ? Hin. rewrite mul_div_floor_big_spec by done.
    destruct (Z.eqb_spec den 0); [lia|].
    rewrite ucheck_ok by (by apply (in_u_weaken 64)). unfold or_overflow. cbn [obind Prelude.ok_or].
    by apply big_u64_ok. }
  destruct (lo_zero_for_one o); by apply Hgen.
Qed.

Lemma ideal_range t o :
  tick_ok t -> order_ok t o -> unfilled_ratio_x64 t <= lo_unfilled_ratio_x64 o ->
  0 <= ideal t o <= settle_base o.
Proof.
  intros Ht [] Hle. unfold ideal. pose proof (tk_ratio _ Ht) as [? _].
  split; [apply Z.div_pos; nia|]. apply Z.div_le_upper_bound; nia.
Qed.

Lemma order_in_u t o : order_ok t o -> in_u 64 (settle_base o).
Proof. intros []. range. Qed.

(** Settling always succeeds, with the effect above. *)
Lemma settle_filled_order_ok t o :
  tick_ok t -> order_ok t o -> settle_filled_order o t = Ok (settled t o).
Proof.
  intros Ht Ho. pose proof Ho as []. pose proof (tk_phase _ Ht) as Hph.
  unfold settle_filled_order, settled, in_open_cohort, in_part_cohort in *.
  destruct (Z.eqb_spec (settle_base o) 0); [done|]. cbn [orb].
  destruct (Z.eqb_spec (lo_order_phase o) (order_phase t)); [done|].
  rewrite usat_id by range.
  destruct (Z.eqb_spec (lo_order_phase o + 1) (order_phase t)) as [Hp|Hp].
  - destruct (oo_part0 eq_refl) as [Hle Hid]. pose proof (ideal_range t o Ht Ho Hle).
    pose proof (tk_ratio _ Ht) as [Hr0 Hr].
    unfold settle_part_filled. fold (ideal t o).
    assert (0 <= settle_base o * unfilled_ratio_x64 t <= 2 ^ 64 * 2 ^ 64) as Hprod
      by (split; [nia|apply Z.mul_le_mono_nonneg; range]).
    rewrite big_mul_ok by range. cbn [obind].
    rewrite big_div_ok by lia. cbn [obind]. fold (ideal t o).
    rewrite big_u64_ok by range. cbn [obind]. rewrite big_rem_ok by lia. cbn [obind].
    rewrite usat_id by range. destruct (Z.eqb_spec (settle_base o - ideal t o) 0); [done|].
    rewrite usat_id by range.
    set (eff := if _ =? 0 then _ else _).
    assert (0 <= eff <= settle_base o) as He by (unfold eff; destruct (_ =? 0); lia).
    pose proof (output_for_mono t o eff (settle_base o) Ht oo_tick0 He).
    rewrite get_limit_order_output_ok by (done || range). cbn [obind].
    rewrite ucheck_ok by range. done.
  - destruct (Z.leb_spec (usat 64 (lo_order_phase o + 2)) (order_phase t)) as [_|Hbad].
    + rewrite get_limit_order_output_ok by (done || range). done.
    + unfold usat in Hbad. range.
Qed.

Lemma settled_frame t o :
  total_amount (settled t o).2 = total_amount o /\
  lo_order_phase (settled t o).2 = lo_order_phase o /\
  lo_tick_index (settled t o).2 = lo_tick_index o /\
  lo_zero_for_one (settled t o).2 = lo_zero_for_one o /\
  lo_unfilled_ratio_x64 (settled t o).2 = lo_unfilled_ratio_x64 o /\
  (in_part_cohort t o = true -> settle_base (settled t o).2 = settle_base o).
Proof.
  unfold settled. destruct (_ || _); [done|]. destruct (in_part_cohort t o); [|done].
  by destruct (_ =? 0).
Qed.

Lemma settled_order_ok t o : tick_ok t -> order_ok t o -> order_ok t (settled t o).2.
Proof.
  intros Ht Ho. pose proof Ho as []. unfold settled.
  destruct (Z.eqb_spec (settle_base o) 0); [done|]. cbn [orb].
  destruct (in_open_cohort t o) eqn:Hopen; [done|].
  destruct (in_part_cohort t o) eqn:Hpart.
  - destruct (oo_part0 eq_refl) as [Hle Hid]. pose proof (ideal_range t o Ht Ho Hle).
    destruct (Z.eqb_spec (settle_base o - ideal t o) 0); [done|].
    set (eff := if _ =? 0 then _ else _).
    assert (0 <= eff <= settle_base o) as He by (unfold eff; destruct (_ =? 0); lia).
    pose proof (output_for_mono t o eff (settle_base o) Ht oo_tick0 He).
    constructor; simpl; try done; try range.
    + unfold in_open_cohort in *. simpl. congruence.
    + intros _. split; [done|]. unfold ideal in *. simpl. lia.
  - constructor; simpl; try done; try range.
    + unfold in_open_cohort in *. simpl. congruence.
    + unfold in_part_cohort in *. simpl. congruence.
Qed.
End Settle.

(** * Shares and claims *)

(** What an owner may withdraw now. *)
Definition claim (t : TickState) (o : LimitOrderState) : Z :=
  if in_open_cohort t o then total_amount o
  else if in_part_cohort t o then ideal t o else 0.

Lemma cohorts_disjoint t o : in_open_cohort t o = true -> in_part_cohort t o = false.
Proof. unfold in_open_cohort, in_part_cohort. intros H%Z.eqb_eq. apply Z.eqb_neq. lia. Qed.

Lemma weight_nonneg t o : order_ok t o -> (0 <= weight o)%Q.
Proof.
  intros []. unfold weight. apply Qle_shift_div_l.
  - change 0%Q with (inject_Z 0). rewrite <- Zlt_Qlt. lia.
  - rewrite Qmult_0_l. change 0%Q with (inject_Z 0). rewrite <- Zle_Qle. lia.
Qed.

Lemma ideal_le_share t o :
  order_ok t o -> (inject_Z (ideal t o) <= inject_Z (unfilled_ratio_x64 t) * weight o)%Q.
Proof.
  intros []. unfold weight, ideal.
  assert (inject_Z (unfilled_ratio_x64 t) * (inject_Z (settle_base o) / inject_Z (lo_unfilled_ratio_x64 o))
    == (inject_Z (settle_base o) * inject_Z (unfilled_ratio_x64 t)) / inject_Z (lo_unfilled_ratio_x64 o))%Q
    as -> by (unfold Qdiv; ring).
  apply Qle_shift_div_l.
  - change 0%Q with (inject_Z 0). rewrite <- Zlt_Qlt. lia.
  - rewrite <- !inject_Z_mult, <- Zle_Qle.
    rewrite Z.mul_comm. apply Z.mul_div_le. lia.
Qed.

Lemma part_weight_nonneg t l : Forall (order_ok t) l -> Forall (fun o => 0 <= part_weight t o)%Q l.
Proof.
  intros H. eapply Forall_impl; [exact H|]. intros o Ho. unfold part_weight.
  destruct (in_part_cohort t o); [by apply (weight_nonneg t)|apply Qle_refl].
Qed.

Lemma open_total_nonneg t l : Forall (order_ok t) l -> Forall (fun o => 0 <= open_total t o) l.
Proof.
  intros H. eapply Forall_impl; [exact H|]. intros o []. unfold open_total, in_u in *.
  destruct (in_open_cohort t o); lia.
Qed.

Lemma ratio_q_nonneg t : tick_ok t -> (0 <= inject_Z (unfilled_ratio_x64 t))%Q.
Proof. intros []. change 0%Q with (inject_Z 0). rewrite <- Zle_Qle. apply tk_ratio. Qed.

(** No order claims more than its cohort holds. *)
Lemma claim_within t l i o :
  book_ok t l -> l !! i = Some o ->
  claim t o <= if in_open_cohort t o then orders_amount t else part_filled_orders_remaining t.
Proof.
  intros [Ht Hl Hopen Hpart _] Hi. unfold claim.
  destruct (in_open_cohort t o) eqn:Eo.
  - rewrite <- Hopen. replace (total_amount o) with (open_total t o) by (unfold open_total; by rewrite Eo).
    apply (sum_z_ge _ _ i); [by apply open_total_nonneg|done].
  - destruct (in_part_cohort t o) eqn:Ep; [|apply (tk_part _ Ht)].
    rewrite Zle_Qle. eapply Qle_trans; [|exact Hpart].
    pose proof (Forall_lookup_1 _ _ _ _ Hl Hi) as Ho.
    eapply Qle_trans; [by apply ideal_le_share|].
    rewrite (Qmult_comm _ (weight o)), (Qmult_comm _ (sum_q _ _)).
    apply Qmult_le_compat_r; [|by apply ratio_q_nonneg].
    replace (weight o) with (part_weight t o) by (unfold part_weight; by rewrite Ep).
    apply (sum_q_ge _ _ i); [by apply part_weight_nonneg|done].
Qed.

(** The claims together are within what the tick holds. *)
Lemma claims_within t l : book_ok t l -> sum_z (claim t) l <= unfilled t.
Proof.
  intros [Ht Hl Hopen Hpart _].
  assert (sum_z (claim t) l <= sum_z (open_total t) l +
    sum_z (fun o => if in_part_cohort t o then ideal t o else 0) l) as Hsplit.
  { clear. induction l as [|o l IH]; [done|]. unfold sum_z in *. simpl.
    unfold claim at 1, open_total at 1. pose proof (cohorts_disjoint t o).
    destruct (in_open_cohort t o); [|lia]. rewrite H by done. lia. }
  enough (sum_z (fun o => if in_part_cohort t o then ideal t o else 0) l
          <= part_filled_orders_remaining t) by (unfold unfilled; lia).
  rewrite Zle_Qle. eapply Qle_trans; [|exact Hpart]. clear Hopen Hsplit Hpart.
  induction Hl as [|o l Ho Hl IH]; [simpl; unfold sum_q; simpl; ring_simplify; apply Qle_refl|].
  unfold sum_z, sum_q in *. simpl. rewrite inject_Z_plus, Qmult_plus_distr_r.
  apply Qplus_le_compat; [|exact IH]. unfold part_weight.
  destruct (in_part_cohort t o); [by apply ideal_le_share|].
  rewrite Qmult_0_r. apply Qle_refl.
Qed.

(** * Steps of a book *)

(** The tick's cohorts are where they were. *)
Definition same_cohorts (t t' : TickState) : Prop :=
  tick t' = tick t /\ order_phase t' = order_phase t /\ unfilled_ratio_x64 t' = unfilled_ratio_x64 t.

Lemma order_ok_same t t' o : same_cohorts t t' -> order_ok t o -> order_ok t' o.
Proof.
  intros (E1 & E2 & E3) [].
  unfold in_open_cohort, in_part_cohort, ideal in *.
  constructor; rewrite ?E1, ?E2, ?E3; try done;
    unfold in_open_cohort, in_part_cohort, ideal; by rewrite ?E2, ?E3.
Qed.

Lemma orders_ok_same t t' l : same_cohorts t t' -> Forall (order_ok t) l -> Forall (order_ok t') l.
Proof. intros Hs H. eapply Forall_impl; [exact H|]. intros o. by apply order_ok_same. Qed.

Lemma sums_same t t' l :
  same_cohorts t t' ->
  sum_z (open_total t') l = sum_z (open_total t) l /\
  (sum_q (part_weight t') l == sum_q (part_weight t) l)%Q.
Proof.
  intros (_ & E & _). split.
  - apply sum_z_ext, Forall_forall. intros o _. unfold open_total, in_open_cohort. by rewrite E.
  - apply sum_q_ext, Forall_forall. intros o _. unfold part_weight, in_part_cohort. by rewrite E.
Qed.

Lemma open_total_saturated t o : order_ok t o -> order_phase t = umax 64 -> open_total t o = 0.
Proof.
  intros [] E. unfold open_total, in_open_cohort. destruct (Z.eqb_spec (lo_order_phase o) (order_phase t)); lia.
Qed.

(** Changing one order and the counters together. *)
Lemma book_update t t' l i o o' :
  book_ok t l -> l !! i = Some o -> tick_ok t' -> same_cohorts t t' -> order_ok t' o' ->
  orders_amount t' = orders_amount t - open_total t o + open_total t o' ->
  (inject_Z (unfilled_ratio_x64 t) * (part_weight t o' - part_weight t o) <=
     inject_Z (part_filled_orders_remaining t') - inject_Z (part_filled_orders_remaining t))%Q ->
  book_ok t' (<[i := o']> l).
Proof.
  intros [Ht Hl Hopen Hpart Hsat] Hi Ht' Hs Ho' Ha Hp. pose proof Hs as (E1 & E2 & E3).
  destruct (sums_same t t' (<[i := o']> l) Hs) as [Hz Hq]. split.
  - done.
  - apply Forall_insert; [|done]. by apply (orders_ok_same t).
  - rewrite Hz, (sum_z_insert _ _ _ o) by done. lia.
  - rewrite Hq, (sum_q_insert _ _ _ o), E3 by done.
    set (r := inject_Z (unfilled_ratio_x64 t)) in *. set (w := sum_q (part_weight t) l) in *.
    assert (r * (w - part_weight t o + part_weight t o') ==
            r * w + r * (part_weight t o' - part_weight t o))%Q as -> by ring. lra.
  - intros E. rewrite E2 in E. rewrite Ha, (Hsat E).
    pose proof (Forall_lookup_1 _ _ _ _ Hl Hi) as Ho.
    rewrite (open_total_saturated t o), (open_total_saturated t o'); [lia|..|done|done|done].
    apply (order_ok_same t'); [|done]. unfold same_cohorts. by rewrite E1, E2, E3.
Qed.

Section Steps.
Context {U : UintLib}.

Lemma check_limit_order_amount_Ok t o v u :
  tick_ok t -> lo_tick_index o = tick t -> in_u 64 v ->
  check_limit_order_amount v (lo_tick_index o) (lo_zero_for_one o) = Ok u ->
  v <> 0 /\ output_for o v < 2 ^ 64.
Proof.
  intros Ht Ho Hv H. unfold check_limit_order_amount in H.
  destruct (Z.eqb_spec v 0); [done|]. split; [done|].
  destruct (rate_range (lo_tick_index o) (lo_zero_for_one o)) as (Hn & Hd & Hn0 & Hd0).
  { rewrite Ho. apply Ht. }
  assert (in_u 128 v) by (by apply (in_u_weaken 64)).
  rewrite !get_price_at_tick_ok in H by (rewrite Ho; apply Ht). cbn [obind] in H.
  unfold mul_div_floor_u128, output_for in *. change Q64 with (2 ^ 64) in H.
  apply obind_Ok in H as (out & Hout & H).
  assert (or_overflow (mul_div_floor_big 128 v (rate_num (lo_tick_index o) (lo_zero_for_one o))
            (rate_den (lo_tick_index o) (lo_zero_for_one o))) = Ok out) as Hout'.
  { unfold rate_num, rate_den. by destruct (lo_zero_for_one o). }
  rewrite or_overflow_Ok, mul_div_floor_big_spec in Hout' by done.
  destruct (Z.eqb_spec (rate_den (lo_tick_index o) (lo_zero_for_one o)) 0); [lia|].
  injection Hout' as [-> _]%ucheck_Some.
  destruct (Z.ltb_spec (v * rate_num (lo_tick_index o) (lo_zero_for_one o) /
    rate_den (lo_tick_index o) (lo_zero_for_one o)) 1); [done|].
  match type of H with (if _ || ?b then _ else _) = _ => destruct b eqn:E end; [done|].
  apply Z.leb_gt in E. unfold umax in E. lia.
Qed.

(** The operations on a book: the code's, on one of its orders or on the tick. *)
Inductive book_step : TickState * list LimitOrderState -> TickState * list LimitOrderState -> Prop :=
| step_open t l t' pool user tick_index (z : bool) amount ts u :
    in_u 64 amount -> MIN_TICK <= tick_index <= MAX_TICK ->
    tick t = tick_index \/ l = [] -> order_phase t < umax 64 ->
    check_limit_order_amount amount tick_index z = Ok u ->
    place_order t tick_index amount = Ok t' ->
    book_step (t, l)
      (t', limit_order_initialize pool user tick_index z amount (order_phase t) ts :: l)
| step_increase t l i o amount o' t' u :
    l !! i = Some o -> in_u 64 amount -> increase_amount o t amount = Ok (o', t') ->
    check_limit_order_amount (total_amount o') (lo_tick_index o) (lo_zero_for_one o) = Ok u ->
    book_step (t, l) (t', <[i := o']> l)
| step_decrease t l i o amount r o' t' :
    l !! i = Some o -> 0 < amount -> in_u 64 amount ->
    decrease_amount o t amount = Ok (r, o', t') ->
    book_step (t, l) (t', <[i := o']> l)
| step_settle t l i o v o' :
    l !! i = Some o -> settle_filled_order o t = Ok (v, o') ->
    book_step (t, l) (t, <[i := o']> l)
| step_close t l i o :
    l !! i = Some o -> get_unfilled_amount o = Ok 0 ->
    book_step (t, l) (t, delete i l)
| step_match t l swap z base f (on_input : bool) m t' :
    in_u 64 swap -> 0 <= f < FEE_RATE_DENOMINATOR_VALUE ->
    match_limit_order t swap z base f on_input = Ok (m, t') ->
    book_step (t, l) (t', l)
| step_liquidity t l t' :
    tick_ok t' -> same_cohorts t t' -> orders_amount t' = orders_amount t ->
    part_filled_orders_remaining t' = part_filled_orders_remaining t ->
    book_step (t, l) (t', l).

Lemma step_settle_ok t l i o v o' :
  book_ok t l -> l !! i = Some o -> settle_filled_order o t = Ok (v, o') ->
  book_ok t (<[i := o']> l) /\ (v, o') = settled t o.
Proof.
  intros Hb Hi H. pose proof Hb as [Ht Hl _ _ _].
  pose proof (Forall_lookup_1 _ _ _ _ Hl Hi) as Ho.
  rewrite settle_filled_order_ok in H by done. injection H as H. split; [|done].
  replace o' with (settled t o).2 by (by rewrite H).
  destruct (settled_frame t o) as (E1 & E2 & E3 & E4 & E5 & E6).
  apply (book_update t t l i o); try done.
  - by apply settled_order_ok.
  - unfold open_total, in_open_cohort. rewrite E1, E2. lia.
  - unfold part_weight. replace (in_part_cohort t (settled t o).2) with (in_part_cohort t o)
      by (unfold in_part_cohort; by rewrite E2).
    destruct (in_part_cohort t o) eqn:E; [|rewrite (Qmult_0_r (inject_Z _)) || lra; lra].
    unfold weight. rewrite E5, (E6 eq_refl). ring_simplify. apply Qle_refl.
Qed.

Lemma place_order_Ok t tick_index amount t' :
  tick_ok t -> MIN_TICK <= tick_index <= MAX_TICK -> place_order t tick_index amount = Ok t' ->
  tick_ok t' /\ tick t' = tick_index /\ order_phase t' = order_phase t /\
  unfilled_ratio_x64 t' = unfilled_ratio_x64 t /\
  orders_amount t' = orders_amount t + amount /\
  part_filled_orders_remaining t' = part_filled_orders_remaining t.
Proof.
  intros [] Hi H. unfold place_order in H.
  apply obind_Ok in H as (v & [-> Hv]%ok_or_Ok%ucheck_Some & H). injection H as <-.
  split; [by constructor|done].
Qed.

Lemma initial_order_ok t pool user (z : bool) amount ts u :
  tick_ok t -> in_u 64 amount -> order_phase t < umax 64 ->
  check_limit_order_amount amount (tick t) z = Ok u ->
  order_ok t (limit_order_initialize pool user (tick t) z amount (order_phase t) ts).
Proof.
  intros Ht Ha Hp Hu. set (o := limit_order_initialize _ _ _ _ _ _ _).
  destruct (check_limit_order_amount_Ok t o amount u) as [_ Hpay]; [done..|].
  pose proof (tk_phase _ Ht). constructor; simpl; try done; try range.
  unfold in_part_cohort. simpl. intros E%Z.eqb_eq. lia.
Qed.

Lemma step_open_ok t l t' pool user tick_index (z : bool) amount ts u :
  book_ok t l -> in_u 64 amount -> MIN_TICK <= tick_index <= MAX_TICK ->
  tick t = tick_index \/ l = [] -> order_phase t < umax 64 ->
  check_limit_order_amount amount tick_index z = Ok u ->
  place_order t tick_index amount = Ok t' ->
  book_ok t' (limit_order_initialize pool user tick_index z amount (order_phase t) ts :: l).
Proof.
  intros [Ht Hl Hopen Hpart Hsat] Ha Hi Hor Hp Hc Hplace.
  apply place_order_Ok in Hplace as (Ht' & E1 & E2 & E3 & E4 & E5); [|done..].
  assert (Forall (order_ok t') l) as Hl'.
  { destruct Hor as [E| ->]; [|done]. apply (orders_ok_same t); [|done].
    unfold same_cohorts. by rewrite E1, E2, E3, E. }
  assert (sum_z (open_total t') l = orders_amount t /\
    (sum_q (part_weight t') l == sum_q (part_weight t) l)%Q) as [Hz Hq].
  { rewrite <- Hopen. destruct Hor as [E| ->]; [|done]. apply sums_same.
    unfold same_cohorts. by rewrite E1, E2, E3, E. }
  set (o := limit_order_initialize _ _ _ _ _ _ _).
  assert (in_open_cohort t' o = true) as Ho by (unfold in_open_cohort; simpl; by rewrite E2, Z.eqb_refl).
  split.
  - done.
  - constructor; [|done]. rewrite <- E1, <- E2 in *. subst o. rewrite <- E1, <- E2.
    apply (initial_order_ok t' pool user z amount ts u); try done; lia.
  - unfold sum_z in *. simpl. unfold open_total at 1. rewrite Ho, Hz. simpl. lia.
  - unfold sum_q in *. simpl. unfold part_weight at 1. rewrite (cohorts_disjoint t' o Ho), Hq, E3, E5.
    rewrite Qplus_0_l. done.
  - intros E. lia.
Qed.

Lemma step_increase_ok t l i o amount o' t' u :
  book_ok t l -> l !! i = Some o -> in_u 64 amount -> increase_amount o t amount = Ok (o', t') ->
  check_limit_order_amount (total_amount o') (lo_tick_index o) (lo_zero_for_one o) = Ok u ->
  book_ok t' (<[i := o']> l).
Proof.
  intros Hb Hi Ha H Hc. pose proof Hb as [Ht Hl _ _ _].
  pose proof (Forall_lookup_1 _ _ _ _ Hl Hi) as Ho. pose proof Ho as [].
  unfold increase_amount in H. destruct (Z.eqb_spec (lo_order_phase o) (order_phase t)) as [E|]; [|done].
  cbn [negb] in H.
  apply obind_Ok in H as (a & [-> H1]%ok_or_Ok%ucheck_Some & H).
  apply obind_Ok in H as (b & [-> H2]%ok_or_Ok%ucheck_Some & H).
  apply obind_Ok in H as (c & [-> H3]%ok_or_Ok%ucheck_Some & H). injection H as <- <-.
  assert (in_open_cohort t o = true) as Eo by (unfold in_open_cohort; by rewrite E, Z.eqb_refl).
  destruct (oo_open0 Eo) as (Ef & Eb & Es & Er).
  set (t' := set_tick_orders _ _ _ _ _). set (o' := set_order _ _ _ _ _ _).
  assert (tick_ok t') as Ht' by (destruct Ht; by constructor).
  destruct (check_limit_order_amount_Ok t o' (total_amount o') u) as [_ Hpay]; [done..|].
  assert (in_open_cohort t' o' = true) as Eo' by done.
  assert (order_ok t' o') as Ho'.
  { constructor; simpl in *; try done; try range.
    - unfold output_for in *. simpl in *. by rewrite Eb.
    - rewrite (cohorts_disjoint t' o' Eo'). done. }
  apply (book_update t t' l i o o'); try done.
  - unfold open_total. rewrite Eo. change (in_open_cohort t o') with (in_open_cohort t' o').
    rewrite Eo'. simpl. lia.
  - unfold part_weight. rewrite (cohorts_disjoint t o Eo).
    change (in_part_cohort t o') with (in_part_cohort t' o'). rewrite (cohorts_disjoint t' o' Eo').
    simpl. lra.
Qed.

(** After settling, what is unfilled is exactly what may be withdrawn. *)
Lemma settled_unfilled t o :
  tick_ok t -> order_ok t o ->
  total_amount (settled t o).2 - filled_amount (settled t o).2 = claim t o.
Proof.
  intros Ht Ho. pose proof Ho as []. unfold settled, claim.
  destruct (Z.eqb_spec (settle_base o) 0) as [E|].
  - cbn [orb snd]. destruct (in_open_cohort t o) eqn:Eo; [destruct oo_open0 as (? & ? & _); [done|lia]|].
    destruct (in_part_cohort t o); [|lia]. unfold ideal. rewrite E, Z.mul_0_l, Zdiv_0_l. lia.
  - cbn [orb]. destruct (in_open_cohort t o) eqn:Eo; cbn [snd].
    { destruct oo_open0 as (? & ? & _); [done|lia]. }
    destruct (in_part_cohort t o) eqn:Ep; [|simpl; lia].
    destruct (oo_part0 eq_refl) as [Hle Hid].
    destruct (Z.eqb_spec (settle_base o - ideal t o) 0); simpl; lia.
Qed.

(** The order and the tick after [d] is withdrawn. *)
Definition decreased (t : TickState) (o : LimitOrderState) (d : Z) : LimitOrderState * TickState :=
  if d =? 0 then (o, t)
  else if in_open_cohort t o then
    (set_order o (total_amount o - d) (filled_amount o) (total_amount o - d) (settled_output o)
       (lo_unfilled_ratio_x64 o),
     set_tick_orders t (order_phase t) (orders_amount t - d) (part_filled_orders_remaining t)
       (unfilled_ratio_x64 t))
  else
    (set_order o (total_amount o - d) (filled_amount o) (total_amount o - d - filled_amount o) 0
       (unfilled_ratio_x64 t),
     set_tick_orders t (order_phase t) (orders_amount t) (part_filled_orders_remaining t - d)
       (unfilled_ratio_x64 t)).

Lemma settled_cohorts t o :
  in_open_cohort t (settled t o).2 = in_open_cohort t o /\
  in_part_cohort t (settled t o).2 = in_part_cohort t o.
Proof.
  destruct (settled_frame t o) as (_ & E & _). unfold in_open_cohort, in_part_cohort. by rewrite E.
Qed.

(** The two halves of a withdrawal from a settled order. *)
Lemma take_from_tick_ok t o amount u :
  tick_ok t -> order_ok t o -> 0 < u -> 0 < amount ->
  u <= (if in_open_cohort t o then orders_amount t else part_filled_orders_remaining t) ->
  in_open_cohort t o = true \/ in_part_cohort t o = true ->
  take_from_tick o t amount u = Ok (Z.min amount u, (decreased t o (Z.min amount u)).2).
Proof.
  intros Ht [] Hu Ha Hcap Hin. pose proof (tk_orders _ Ht). pose proof (tk_part _ Ht).
  pose proof (tk_phase _ Ht). unfold take_from_tick, decreased. rewrite usat_id by range.
  destruct (Z.eqb_spec (Z.min amount u) 0); [lia|].
  unfold in_open_cohort, in_part_cohort in *.
  destruct (Z.eqb_spec (lo_order_phase o) (order_phase t)).
  - rewrite ucheck_ok by range. done.
  - destruct Hin as [?|E]; [done|]. rewrite E.
    rewrite (Z.min_l (Z.min amount u)) by lia. rewrite ucheck_ok by range. done.
Qed.

Lemma reset_segment_ok t o d :
  tick_ok t -> order_ok t o -> 0 < d <= total_amount o - filled_amount o ->
  in_open_cohort t o = true \/ in_part_cohort t o = true ->
  reset_segment (set_order o (total_amount o - d) (filled_amount o) (settle_base o) (settled_output o)
      (lo_unfilled_ratio_x64 o)) (decreased t o d).2 = Ok (decreased t o d).1.
Proof.
  intros Ht [] Hd Hin. pose proof (tk_phase _ Ht). unfold reset_segment, decreased.
  destruct (Z.eqb_spec d 0); [lia|]. cbn [lo_order_phase set_order]. rewrite usat_id by range.
  pose proof (cohorts_disjoint t o) as Hdis. unfold in_open_cohort, in_part_cohort in *.
  destruct (Z.eqb_spec (lo_order_phase o) (order_phase t)); cbn [fst snd order_phase set_tick_orders].
  - by rewrite Hdis.
  - destruct Hin as [?|E]; [done|]. rewrite E.
    unfold get_unfilled_amount. cbn [total_amount filled_amount set_order].
    by rewrite ucheck_ok by range.
Qed.

(** What [decrease_amount] does, on every branch: settle, withdraw the smaller
    of the amount and the claim, and refuse to leave a rest too small to trade. *)
Lemma decrease_amount_eq t l i o amount :
  book_ok t l -> l !! i = Some o -> 0 < amount ->
  decrease_amount o t amount =
    let o1 := (settled t o).2 in
    let d := Z.min amount (claim t o) in
    do! if 0 <? claim t o - d
        then check_limit_order_amount (claim t o - d) (lo_tick_index o) (lo_zero_for_one o) else Ok tt in
    Ok (mkDecreaseAmountResult (settled t o).1 d, (decreased t o1 d).1, (decreased t o1 d).2).
Proof.
  intros Hb Hi Ha. pose proof Hb as [Ht Hl _ _ _].
  pose proof (Forall_lookup_1 _ _ _ _ Hl Hi) as Ho.
  pose proof (claim_within t l i o Hb Hi) as Hcap.
  unfold decrease_amount. rewrite settle_filled_order_ok by done. cbn [obind].
  pose proof (settled_unfilled t o Ht Ho) as Hu.
  pose proof (settled_order_ok t o Ht Ho) as Ho1. pose proof Ho1 as [].
  destruct (settled_cohorts t o) as [Eo Ep].
  destruct (settled_frame t o) as (_ & _ & F3 & F4 & _ & _).
  destruct (settled t o) as [v o1]. cbn [fst snd] in *.
  assert (in_u 64 (claim t o)) by (rewrite <- Hu; range).
  unfold get_unfilled_amount at 1. rewrite Hu, ucheck_ok by done. cbn [obind Prelude.ok_or].
  destruct (Z.eqb_spec (claim t o) 0) as [E|Hc].
  { rewrite E, Z.min_r by lia. done. }
  assert (in_open_cohort t o1 = true \/ in_part_cohort t o1 = true) as Hin.
  { rewrite Eo, Ep. unfold claim in Hc. destruct (in_open_cohort t o), (in_part_cohort t o); auto. }
  rewrite take_from_tick_ok by (done || (rewrite ?Eo; range)). cbn [obind].
  set (d := Z.min amount (claim t o)). assert (0 < d <= claim t o) as Hd by range.
  destruct (Z.eqb_spec d 0); [lia|]. rewrite ucheck_ok by range. cbn [obind Prelude.ok_or].
  rewrite reset_segment_ok by (done || lia). cbn [obind].
  assert (total_amount (decreased t o1 d).1 - filled_amount (decreased t o1 d).1 = claim t o - d /\
    lo_tick_index (decreased t o1 d).1 = lo_tick_index o1 /\
    lo_zero_for_one (decreased t o1 d).1 = lo_zero_for_one o1) as (Eu & -> & ->).
  { unfold decreased. destruct (Z.eqb_spec d 0); [done|].
    destruct (in_open_cohort t o1); simpl; split_and!; try done; lia. }
  unfold get_unfilled_amount. rewrite Eu, ucheck_ok by range. cbn [obind Prelude.ok_or].
  by rewrite F3, F4.
Qed.

Lemma output_for_set o total filled base settled0 ratio v :
  output_for (set_order o total filled base settled0 ratio) v = output_for o v.
Proof. done. Qed.

(** A positive claim on the part-filled cohort means a positive ratio. *)
Lemma ideal_pos t o : order_ok t o -> 0 < ideal t o -> 0 < unfilled_ratio_x64 t.
Proof.
  intros [] Hid. unfold ideal in Hid. apply Z.nle_gt. intros Hr.
  assert (settle_base o * unfilled_ratio_x64 t / lo_unfilled_ratio_x64 o <= 0); [|lia].
  apply Z.div_le_upper_bound; nia.
Qed.

Lemma decreased_order_ok t o d :
  tick_ok t -> order_ok t o -> total_amount o - filled_amount o = claim t o -> 0 <= d <= claim t o ->
  order_ok (decreased t o d).2 (decreased t o d).1.
Proof.
  intros Ht Ho Hu Hd. pose proof Ho as []. unfold decreased, claim in *.
  destruct (Z.eqb_spec d 0); [done|].
  destruct (in_open_cohort t o) eqn:Eo; cbn [fst snd].
  - destruct (oo_open0 eq_refl) as (Ef & Eb & Es & Er).
    pose proof (output_for_mono t o (total_amount o - d) (settle_base o) Ht oo_tick0 ltac:(lia)).
    pose proof (cohorts_disjoint t o Eo) as Ep.
    constructor; rewrite ?output_for_set; simpl; try done; try range.
    unfold in_part_cohort in *. simpl. by rewrite Ep.
  - destruct (in_part_cohort t o) eqn:Ep; [|lia].
    destruct (oo_part0 eq_refl) as [Hle Hid].
    pose proof (ideal_pos t o Ho ltac:(lia)) as Hr.
    pose proof (output_for_mono t o (ideal t o - d) (settle_base o) Ht oo_tick0 ltac:(lia)).
    replace (total_amount o - d - filled_amount o) with (ideal t o - d) by lia.
    constructor; rewrite ?output_for_set; simpl; try done; try range.
    + unfold in_open_cohort in *. simpl. by rewrite Eo.
    + intros _. split; [lia|]. unfold ideal at 1. simpl. rewrite Z.div_mul by lia. lia.
Qed.

Lemma decreased_tick_ok t o d :
  tick_ok t -> 0 <= d <= (if in_open_cohort t o then orders_amount t else part_filled_orders_remaining t) ->
  tick_ok (decreased t o d).2 /\ same_cohorts t (decreased t o d).2.
Proof.
  intros [] Hd. unfold decreased. destruct (Z.eqb_spec d 0); [done|].
  destruct (in_open_cohort t o); cbn [snd]; (split; [constructor; simpl; try done; range|done]).
Qed.

Lemma decreased_share t o d :
  order_ok t o -> 0 < d <= ideal t o ->
  (inject_Z (unfilled_ratio_x64 t) *
     (inject_Z (ideal t o - d) / inject_Z (unfilled_ratio_x64 t) - weight o) <= - inject_Z d)%Q.
Proof.
  intros Ho Hd. pose proof (ideal_pos t o Ho ltac:(lia)) as Hr.
  pose proof (ideal_le_share t o Ho) as Hs.
  assert (~ inject_Z (unfilled_ratio_x64 t) == 0)%Q as Hnz.
  { change 0%Q with (inject_Z 0). rewrite inject_Z_injective. lia. }
  set (r := inject_Z (unfilled_ratio_x64 t)) in *.
  assert (r * (inject_Z (ideal t o - d) / r - weight o) == inject_Z (ideal t o - d) - r * weight o)%Q
    as -> by (field; done).
  unfold Z.sub. rewrite inject_Z_plus, inject_Z_opp. lra.
Qed.

Lemma decreased_book_ok t l i o d :
  book_ok t l -> l !! i = Some o -> total_amount o - filled_amount o = claim t o ->
  0 <= d <= claim t o ->
  book_ok (decreased t o d).2 (<[i := (decreased t o d).1]> l).
Proof.
  intros Hb Hi Hu Hd. pose proof Hb as [Ht Hl _ _ _].
  pose proof (Forall_lookup_1 _ _ _ _ Hl Hi) as Ho.
  pose proof (claim_within t l i o Hb Hi) as Hcap.
  destruct (decreased_tick_ok t o d) as [Ht' Hs]; [done|lia|].
  pose proof (decreased_order_ok t o d Ht Ho Hu Hd) as Ho'.
  apply (book_update t _ l i o); try done; clear Ht' Hs Ho'.
  - unfold decreased, claim, open_total, in_open_cohort in *.
    destruct (Z.eqb_spec d 0); [cbn [fst snd]; lia|].
    destruct (Z.eqb_spec (lo_order_phase o) (order_phase t)) as [E|E]; simpl.
    + rewrite E, Z.eqb_refl. lia.
    + apply Z.eqb_neq in E. rewrite E. lia.
  - unfold decreased, claim, part_weight in *.
    destruct (Z.eqb_spec d 0); [cbn [fst snd]; destruct (in_part_cohort t o); lra|].
    destruct (in_open_cohort t o) eqn:Eo; cbn [fst snd].
    + unfold in_part_cohort. simpl. pose proof (cohorts_disjoint t o Eo) as Ep.
      unfold in_part_cohort in Ep. rewrite Ep. lra.
    + unfold in_part_cohort in *. simpl.
      destruct (_ =? order_phase t) eqn:Ep; [|lia]. unfold weight at 1. simpl.
      replace (total_amount o - d - filled_amount o) with (ideal t o - d) by lia.
      pose proof (decreased_share t o d Ho ltac:(lia)).
      unfold Z.sub at 2. rewrite inject_Z_plus, inject_Z_opp. lra.
Qed.

Lemma step_decrease_ok t l i o amount r o' t' :
  book_ok t l -> l !! i = Some o -> 0 < amount -> decrease_amount o t amount = Ok (r, o', t') ->
  book_ok t' (<[i := o']> l).
Proof.
  intros Hb Hi Ha H. pose proof Hb as [Ht Hl _ _ _].
  pose proof (Forall_lookup_1 _ _ _ _ Hl Hi) as Ho.
  rewrite (decrease_amount_eq t l i) in H by done. cbn zeta in H.
  apply obind_Ok in H as (u & _ & H). injection H as <- <- <-.
  destruct (step_settle_ok t l i o (settled t o).1 (settled t o).2 Hb Hi) as [Hb1 _].
  { rewrite settle_filled_order_ok by done. by destruct (settled t o). }
  assert (claim t (settled t o).2 = claim t o) as Hcl.
  { destruct (settled_cohorts t o) as [E1 E2], (settled_frame t o) as (F1 & _ & _ & _ & F5 & F6).
    unfold claim, ideal. rewrite E1, E2, F1, F5. destruct (in_open_cohort t o); [done|].
    destruct (in_part_cohort t o); [by rewrite F6|done]. }
  pose proof (settled_unfilled t o Ht Ho) as Hu. rewrite <- Hcl in *.
  assert (0 <= claim t (settled t o).2) by (pose proof (settled_order_ok t o Ht Ho) as []; lia).
  rewrite <- (list_insert_insert_eq l i _ (settled t o).2).
  apply decreased_book_ok; [done| |done|lia].
  apply list_lookup_insert_eq. by eapply lookup_lt_Some.
Qed.

Lemma sum_q_delete f l i o : l !! i = Some o -> (sum_q f (delete i l) == sum_q f l - f o)%Q.
Proof.
  revert i. induction l as [|x l IH]; intros [|i] H; try done; unfold sum_q in *; simpl in *.
  - injection H as ->. ring.
  - rewrite (IH i H). ring.
Qed.

Lemma step_close_ok t l i o :
  book_ok t l -> l !! i = Some o -> get_unfilled_amount o = Ok 0 -> book_ok t (delete i l).
Proof.
  intros [Ht Hl Hopen Hpart Hsat] Hi H.
  pose proof (Forall_lookup_1 _ _ _ _ Hl Hi) as Ho. pose proof Ho as [].
  unfold get_unfilled_amount in H. apply ok_or_Ok, ucheck_Some in H as [H _].
  split; try done.
  - by apply Forall_delete.
  - rewrite (sum_z_delete _ _ _ o) by done. unfold open_total at 2.
    destruct (in_open_cohort t o); [|lia]. destruct oo_open0 as [? _]; [done|lia].
  - rewrite (sum_q_delete _ _ _ o) by done.
    pose proof (ratio_q_nonneg t Ht). set (r := inject_Z (unfilled_ratio_x64 t)) in *.
    assert (0 <= r * part_weight t o)%Q.
    { apply Qmult_le_0_compat; [done|]. unfold part_weight.
      destruct (in_part_cohort t o); [by apply (weight_nonneg t)|apply Qle_refl]. }
    assert (r * (sum_q (part_weight t) l - part_weight t o) ==
            r * sum_q (part_weight t) l - r * part_weight t o)%Q as -> by ring. lra.
Qed.

(** Scaling the ratio down with the counter keeps the shares covered. *)
Lemma scaled_share (r rest part : Z) (w : Q) :
  0 < part -> 0 <= rest -> (0 <= w)%Q -> (inject_Z r * w <= inject_Z part)%Q ->
  (inject_Z (r * rest / part) * w <= inject_Z rest)%Q.
Proof.
  intros Hp Hr Hw Hrw.
  assert (0 < inject_Z part)%Q as Hpq by (change 0%Q with (inject_Z 0); rewrite <- Zlt_Qlt; lia).
  apply (Qmult_le_r _ _ (inject_Z part)); [done|].
  assert (inject_Z (r * rest / part) * w * inject_Z part ==
          inject_Z (r * rest / part * part) * w)%Q as -> by (rewrite inject_Z_mult; ring).
  apply (Qle_trans _ (inject_Z (r * rest) * w)).
  { apply Qmult_le_compat_r; [|done]. rewrite <- Zle_Qle, Z.mul_comm. apply Z.mul_div_le. lia. }
  assert (inject_Z (r * rest) * w == inject_Z r * w * inject_Z rest)%Q as ->
    by (rewrite inject_Z_mult; ring).
  rewrite (Qmult_comm (inject_Z rest)). apply Qmult_le_compat_r; [done|].
  change 0%Q with (inject_Z 0). rewrite <- Zle_Qle. lia.
Qed.

(** A fill of the part-filled cohort. *)
Lemma fill_part_ok t l out :
  book_ok t l -> 0 < out <= part_filled_orders_remaining t ->
  book_ok (consumed_tick t out) l.
Proof.
  intros Hb Ho. pose proof Hb as [Ht Hl Hopen Hpart Hsat].
  assert (tick_ok (consumed_tick t out)) as Ht'.
  { destruct Ht. unfold consumed_tick. destruct (Z.eqb_spec out 0); [lia|].
    destruct (Z.leb_spec out (part_filled_orders_remaining t)); [|lia].
    pose proof (scale_down (unfilled_ratio_x64 t) (part_filled_orders_remaining t - out)
      (part_filled_orders_remaining t) ltac:(range) ltac:(range) ltac:(range)).
    constructor; simpl; try done; range. }
  revert Ht'. unfold consumed_tick. destruct (Z.eqb_spec out 0); [lia|].
  destruct (Z.leb_spec out (part_filled_orders_remaining t)); [|lia].
  set (rest := part_filled_orders_remaining t - out).
  set (t' := set_tick_orders _ _ _ _ _). intros Ht'.
  pose proof (tk_ratio _ Ht) as [Hr0 _].
  pose proof (scale_down (unfilled_ratio_x64 t) rest (part_filled_orders_remaining t)
    ltac:(range) ltac:(unfold rest; lia) ltac:(lia)) as Hsc.
  split; try done.
  - eapply Forall_impl; [exact Hl|]. intros o []. constructor; try done.
    intros Hp. destruct (oo_part0 Hp) as [Hle Hid]. unfold t'; cbn [unfilled_ratio_x64 set_tick_orders].
    split; [lia|]. etransitivity; [|exact Hid]. unfold ideal. cbn [unfilled_ratio_x64 set_tick_orders].
    apply Z.div_le_mono; [lia|]. apply Z.mul_le_mono_nonneg_l; lia.
  - change (sum_q (part_weight t') l) with (sum_q (part_weight t) l).
    unfold t'; cbn [unfilled_ratio_x64 part_filled_orders_remaining set_tick_orders].
    apply scaled_share; [lia|unfold rest; lia| |done].
    by apply sum_q_nonneg, part_weight_nonneg.
Qed.

Lemma rolled_weights t l :
  Forall (order_ok t) l ->
  (sum_q (fun o => if in_open_cohort t o then weight o else 0) l ==
   inject_Z (sum_z (open_total t) l) / inject_Z (2 ^ 64))%Q.
Proof.
  induction 1 as [|o l Ho _ IH]; [done|]. unfold sum_q, sum_z in *. simpl.
  rewrite IH, inject_Z_plus. unfold open_total at 2. destruct Ho.
  destruct (in_open_cohort t o).
  - destruct (oo_open0 eq_refl) as (_ & Eb & _ & Er). unfold weight. rewrite Eb, Er.
    unfold Qdiv. ring.
  - unfold Qdiv. ring.
Qed.

(** A fill that exhausts the part-filled cohort and opens the next. *)
Lemma roll_over_ok t l out :
  book_ok t l -> part_filled_orders_remaining t < out <= unfilled t ->
  book_ok (consumed_tick t out) l.
Proof.
  intros Hb Ho. pose proof Hb as [Ht Hl Hopen Hpart Hsat]. unfold unfilled in Ho.
  pose proof Ht as []. assert (order_phase t < umax 64) as Hph.
  { unfold umax in *. destruct (Z.eq_dec (order_phase t) (2 ^ 64 - 1)) as [E|]; [|range].
    specialize (Hsat E). lia. }
  unfold consumed_tick. destruct (Z.eqb_spec out 0); [range|].
  destruct (Z.leb_spec out (part_filled_orders_remaining t)); [lia|].
  unfold umax in Hph. rewrite usat_id by range.
  set (rest := orders_amount t + part_filled_orders_remaining t - out).
  pose proof (scale_down (2 ^ 64) rest (orders_amount t) ltac:(range) ltac:(unfold rest; range) ltac:(range)) as Hsc.
  set (t' := set_tick_orders _ _ _ _ _).
  assert (forall o, in_part_cohort t' o = in_open_cohort t o) as Hc.
  { intros o. unfold in_part_cohort, in_open_cohort, t'. cbn [order_phase set_tick_orders].
    destruct (Z.eqb_spec (lo_order_phase o) (order_phase t)), (Z.eqb_spec (lo_order_phase o + 1) (order_phase t + 1)); lia || done. }
  assert (forall o, order_ok t o -> in_open_cohort t' o = false) as Hno.
  { intros o []. unfold in_open_cohort, t'. cbn [order_phase set_tick_orders]. apply Z.eqb_neq. lia. }
  split.
  - constructor; simpl; try done; unfold rest in *; range.
  - eapply Forall_impl; [exact Hl|]. intros o Hok. pose proof Hok as []. constructor; try done.
    + unfold t'; cbn [order_phase set_tick_orders]. lia.
    + by rewrite Hno.
    + rewrite Hc. intros E. destruct (oo_open0 E) as (Ef & Eb & _ & Er).
      unfold t'; cbn [unfilled_ratio_x64 set_tick_orders]. split; [lia|].
      unfold ideal. cbn [unfilled_ratio_x64 set_tick_orders]. rewrite Eb, Er, Ef.
      apply Z.div_le_upper_bound; [done|]. rewrite Z.sub_0_r, Z.mul_comm.
      apply Z.mul_le_mono_nonneg_r; [range|lia].
  - assert (sum_z (open_total t') l = 0) as ->; [|done].
    clear -Hl Hno. induction Hl as [|o l Ho _ IH]; [done|]. unfold sum_z in *. simpl.
    unfold open_total at 1. by rewrite Hno, IH.
  - rewrite (sum_q_ext _ (fun o => if in_open_cohort t o then weight o else 0%Q)).
    + rewrite rolled_weights, Hopen by done.
      unfold t'; cbn [unfilled_ratio_x64 part_filled_orders_remaining set_tick_orders].
      apply scaled_share; [range|unfold rest; lia| |].
      * apply Qle_shift_div_l; [done|]. rewrite Qmult_0_l. change 0%Q with (inject_Z 0).
        rewrite <- Zle_Qle. range.
      * rewrite Qmult_div_r by done. apply Qle_refl.
    + apply Forall_forall. intros o _. unfold part_weight. by rewrite Hc.
  - done.
Qed.

Lemma step_match_ok t l swap z base f (on_input : bool) m t' :
  book_ok t l -> in_u 64 swap -> 0 <= f < FEE_RATE_DENOMINATOR_VALUE ->
  match_limit_order t swap z base f on_input = Ok (m, t') -> book_ok t' l.
Proof.
  intros Hb Hs Hf H. pose proof Hb as [Ht _ _ _ _].
  apply match_limit_order_inv in H as [Hu [(_ & _ & ->)|(_ & m0 & Hm & -> & _)]]; [done|..|done|done|done].
  destruct Hm as (_ & Ho & Hle & _).
  destruct (Z.eq_dec (lo_amount_out m0) 0) as [->|]; [done|].
  destruct (Z.le_gt_cases (lo_amount_out m0) (part_filled_orders_remaining t)).
  - apply fill_part_ok; [done|range].
  - apply roll_over_ok; [done|lia].
Qed.

Lemma book_step_ok s s' : book_step s s' -> book_ok s.1 s.2 -> book_ok s'.1 s'.2.
Proof.
  intros [] Hb; cbn [fst snd] in *.
  - by eapply step_open_ok.
  - by eapply step_increase_ok.
  - by eapply step_decrease_ok.
  - by eapply step_settle_ok.
  - by eapply step_close_ok.
  - by eapply step_match_ok.
  - destruct Hb as [Ht Hl Hopen Hpart Hsat]. pose proof H0 as (E1 & E2 & E3).
    destruct (sums_same t t' l H0) as [Hz Hq]. split.
    + done.
    + by apply (orders_ok_same t).
    + by rewrite Hz, H1.
    + by rewrite Hq, E3, H2.
    + rewrite E2, H1. done.
Qed.

Lemma settled_idem t o : settled t (settled t o).2 = (0, (settled t o).2).
Proof.
  destruct (settled t o) as [v o'] eqn:H. cbn [snd]. unfold settled in H.
  destruct ((settle_base o =? 0) || in_open_cohort t o) eqn:E.
  { injection H as _ <-. unfold settled. by rewrite E. }
  destruct (in_part_cohort t o) eqn:Ep.
  - destruct (settle_base o - ideal t o =? 0) eqn:E1.
    { injection H as _ <-. unfold settled. by rewrite E, Ep, E1. }
    injection H as _ <-. unfold settled, in_open_cohort, in_part_cohort, ideal, output_for in *.
    cbn [settle_base lo_order_phase lo_unfilled_ratio_x64 lo_tick_index lo_zero_for_one
         settled_output total_amount set_order].
    rewrite E, Ep, E1, Z.sub_diag. done.
  - injection H as _ <-. done.
Qed.

(** A tick without orders, and what grows from it. *)
Definition fresh (t : TickState) : Prop := tick_ok t /\ orders_amount t = 0.
Definition reachable_book (t : TickState) (l : list LimitOrderState) : Prop :=
  exists t0, fresh t0 /\ rtc book_step (t0, []) (t, l).

Lemma reachable_book_ok t l : reachable_book t l -> book_ok t l.
Proof.
  intros (t0 & [Ht Ho] & H).
  assert (book_ok t0 []) as H0.
  { split; try done. unfold sum_q. simpl. rewrite Qmult_0_r. change 0%Q with (inject_Z 0).
    rewrite <- Zle_Qle. apply (tk_part _ Ht). }
  change (book_ok (t, l).1 (t, l).2). change (book_ok (t0, @nil LimitOrderState).1 (t0, @nil LimitOrderState).2) in H0.
  induction H as [s|s s' s'' Hs _ IH]; [done|]. apply IH. by apply (book_step_ok s).
Qed.
End Steps.

(** * Properties *)

Section Properties.
Context {U : UintLib}.

(** C2: Whatever sequence of placements, increases, withdrawals, settlements,
    closures and swaps has been applied to a tick, the open counter is the sum
    of the open orders, and what all the owners together may still withdraw is
    covered by what the tick holds. *)
Theorem order_book_solvent t l :
  reachable_book t l ->
  sum_z (open_total t) l = orders_amount t /\ sum_z (claim t) l <= unfilled t /\
  forall i o, l !! i = Some o -> 0 <= claim t o <= unfilled t /\ lo_order_phase o <= order_phase t.
Proof.
  intros Hb%reachable_book_ok. split; [apply Hb|]. split; [by apply claims_within|].
  intros i o Hi. pose proof (claim_within t l i o Hb Hi) as Hc. pose proof Hb as [Ht Hl _ _ _].
  pose proof (Forall_lookup_1 _ _ _ _ Hl Hi) as Ho.
  pose proof (settled_unfilled t o Ht Ho). pose proof (settled_order_ok t o Ht Ho) as [].
  pose proof (tk_orders _ Ht). pose proof (tk_part _ Ht). destruct Ho.
  unfold unfilled, in_u in *. destruct (in_open_cohort t o); lia.
Qed.

(** Withdrawing at least what is unfilled returns exactly that, leaves the
    order filled and takes exactly that from the tick. *)
Lemma decrease_amount_all t l i o amount :
  book_ok t l -> l !! i = Some o -> 0 < amount -> claim t o <= amount ->
  exists v o' t', decrease_amount o t amount = Ok (mkDecreaseAmountResult v (claim t o), o', t') /\
    filled_amount o' = total_amount o' /\ unfilled t' = unfilled t - claim t o /\
    lo_tick_index o' = lo_tick_index o.
Proof.
  intros Hb Hi Ha Hc. rewrite (decrease_amount_eq t l i) by done. cbn zeta.
  pose proof Hb as [Ht Hl _ _ _]. pose proof (Forall_lookup_1 _ _ _ _ Hl Hi) as Ho.
  rewrite Z.min_r, Z.sub_diag by done. cbn [obind Z.ltb Z.compare].
  pose proof (settled_unfilled t o Ht Ho) as Hu.
  destruct (settled_cohorts t o) as [Eo Ep].
  exists (settled t o).1, (decreased t (settled t o).2 (claim t o)).1,
    (decreased t (settled t o).2 (claim t o)).2.
  assert (lo_tick_index (settled t o).2 = lo_tick_index o) as Ei by (unfold settled; by repeat case_match).
  split; [done|]. unfold decreased, unfilled. destruct (Z.eqb_spec (claim t o) 0); [cbn [fst snd]; lia|].
  destruct (in_open_cohort t (settled t o).2); simpl; (split; [lia|]; split; [lia|exact Ei]).
Qed.

(** The accounts of a withdrawal: the pool's, the order's and its owner's,
    the pool's bitmap extension, and the array that holds the order's tick. *)
Record withdrawal_accounts (pool_key ext_key owner iv ov : Pubkey) (p : PoolState)
    (e : TickArrayBitmapExtension) (arr : TickArrayState) (t : TickState) (o : LimitOrderState) : Prop := {
  wa_array_pool : ta_pool_id arr = pool_key;
  wa_order_pool : lo_pool_id o = pool_key;
  wa_owner : lo_owner o = owner;
  wa_input_vault : iv = input_vault_of p (lo_zero_for_one o);
  wa_output_vault : ov = output_vault_of p (lo_zero_for_one o);
  wa_bitmaps : bitmaps_ok p e;
  wa_array : array_ok (pool_tick_spacing p) arr;
  wa_start : valid_start (start_tick_index arr) (pool_tick_spacing p);
  wa_tick : get_tick_state arr (lo_tick_index o) (pool_tick_spacing p) = Ok t;
}.

(** Unmarking an array succeeds. *)
Lemma flip_array_of_succeeds ext_key p e start :
  bitmaps_ok p e -> valid_start start (pool_tick_spacing p) ->
  exists p' e', flip_array_of ext_key p (Some (ext_key, e)) start = Ok (p', Some (ext_key, e')).
Proof.
  intros Hok Hv. pose proof Hv as (k & Hk & _). rewrite Hk in Hv.
  pose proof (proj1 (valid_start_iff _ _ (bo_spacing p e Hok)) Hv) as Hr. rewrite Hk. clear Hk.
  unfold flip_array_of. rewrite (is_overflow_spec p e Hok k) by done. cbn [obind].
  destruct (in_pool k) eqn:Hin; cbn [negb].
  - destruct (flip_default_ok p e Hok k Hin Hr) as (p' & Hf & _). exists p', e.
    unfold pool_flip_tick_array_bit. rewrite (is_overflow_spec p e Hok k) by done. cbn [obind].
    rewrite Hin. cbn [negb]. rewrite Hf. done.
  - cbn [obind Prelude.ok_or]. destruct (pool_flip_exact p e ext_key k Hok Hr) as (p' & e' & Hf & _).
    exists p', e'. done.
Qed.

(** C33: An owner can always take everything back with one
    [decrease_limit_order]: on every reachable book of a tick, with the
    accounts of the order passed, a minimum the withdrawal meets, and the tick
    counted by its array as an initialized tick is, the instruction succeeds
    for every amount from what is unfilled on; it returns exactly what is
    unfilled, leaves the order filled and takes exactly that from the tick.
    That the tick is counted is what [increase_limit_order] can break
    (limit_order.rs:161). *)
Theorem withdrawal_never_blocked pool_key ext_key owner iv ov p e arr t l i o ita ota mint fee amount amount_min :
  reachable_book t l -> l !! i = Some o ->
  withdrawal_accounts pool_key ext_key owner iv ov p e arr t o ->
  (is_initialized t = true -> 0 < initialized_tick_count arr <= umax 8) ->
  0 < amount -> claim t o <= amount ->
  mint_ok mint -> get_transfer_fee mint (claim t o) = Ok fee -> amount_min <= claim t o - fee ->
  exists v o' t' arr' p' ext',
    decrease_limit_order ext_key pool_key owner p arr o ita ota iv ov mint (Some (ext_key, e)) amount amount_min =
      Ok (o', arr', p', ext', transfer_from_pool_vault_to_user ov ota v ++
                              transfer_from_pool_vault_to_user iv ita (claim t o)) /\
    filled_amount o' = total_amount o' /\ get_tick_state arr' (lo_tick_index o) (pool_tick_spacing p) = Ok t' /\
    unfilled t' = unfilled t - claim t o.
Proof.
  intros Hb%reachable_book_ok Hi [Wa Wo Ww Wi Wv Wb War Ws Wt] Hcount Ha Hc Hmint Hfee Hmin.
  pose proof (bo_spacing p e Wb) as Hs. set (s := pool_tick_spacing p) in *.
  pose proof Hb as [Ht Hl _ _ _]. pose proof (Forall_lookup_1 _ _ _ _ Hl Hi) as Ho.
  assert (small (lo_tick_index o)) as Hsm by (apply small_tick; rewrite (oo_tick t o Ho); apply Ht).
  destruct (decrease_amount_all t l i o amount Hb Hi Ha Hc) as (v & o' & t' & Hd & Hfill & Hun & Hidx').
  unfold decrease_limit_order, require_order_accounts. rewrite Wa, Wo, Ww, Wi, Wv, !Z.eqb_refl.
  cbn [obind Prelude.require andb require]. rewrite (proj2 (Z.ltb_lt 0 amount) Ha). cbn [obind Prelude.require]. fold s.
  unfold get_tick_state in Wt. apply obind_Ok in Wt as (off & Hoff & Hidx).
  rewrite Hoff. cbn [obind]. rewrite Hidx. cbn [obind]. rewrite Hd. cbn [obind real_decrease_amount settled_output_amount]. rewrite Hidx'.
  apply idx_Ok in Hidx as [Hoff0 Hidx].
  assert (off < Z.of_nat (length (ticks arr))) as Hoffl by (apply lookup_lt_Some in Hidx; lia).
  unfold set_tick_at. rewrite set_idx_ok by lia. cbn [obind].
  set (arr1 := set_ticks arr _).
  assert (forall n, get_tick_state (mkTickArray (ta_pool_id arr1) (start_tick_index arr1) (ticks arr1) n) (lo_tick_index o) s = Ok t')
    as Hread.
  { intros n. unfold get_tick_state, get_tick_offset_in_array in *. cbn [start_tick_index ticks arr1 set_ticks].
    rewrite Hoff. cbn [obind]. apply idx_Ok. split; [done|]. apply list_lookup_insert_eq. lia. }
  assert (exists a2 p2 x2, (if is_initialized t && negb (is_initialized t') then
      let! arr := update_initialized_tick_count arr1 false in
      if initialized_tick_count arr =? 0 then
        let! start := get_array_start_index (lo_tick_index o) s in
        let! '(p, ext) := flip_array_of ext_key p (Some (ext_key, e)) start in Ok (arr, p, ext)
      else Ok (arr, p, Some (ext_key, e)) else Ok (arr1, p, Some (ext_key, e))) = Ok (a2, p2, x2) /\
    get_tick_state a2 (lo_tick_index o) s = Ok t') as (a2 & p2 & x2 & -> & Hr2).
  { destruct (is_initialized t && negb (is_initialized t')) eqn:Hdrop.
    2:{ do 3 eexists. split; [done|]. specialize (Hread (initialized_tick_count arr1)). by destruct arr1. }
    apply andb_true_iff in Hdrop as [Hini _]. specialize (Hcount Hini).
    unfold update_initialized_tick_count. cbn [initialized_tick_count arr1 set_ticks].
    rewrite ucheck_ok by (unfold umax in *; range). cbn [obind Prelude.ok_or initialized_tick_count].
    destruct (initialized_tick_count arr - 1 =? 0).
    - rewrite get_array_start_index_ok by done. cbn [obind].
      assert (array_start (lo_tick_index o) s = start_tick_index arr) as ->.
      { unfold get_tick_offset_in_array in Hoff. rewrite get_array_start_index_ok in Hoff by done. cbn [obind] in Hoff.
        destruct (Z.eqb_spec (array_start (lo_tick_index o) s) (start_tick_index arr)); done. }
      destruct (flip_array_of_succeeds ext_key p e _ Wb Ws) as (p' & e' & ->). cbn [obind].
      do 3 eexists. split; [done|]. apply Hread.
    - do 3 eexists. split; [done|]. apply Hread. }
  cbn [obind]. pose proof (claim_within t l i o Hb Hi) as Hcl. pose proof (oo_total t o Ho). pose proof (oo_filled t o Ho).
  assert (in_u 64 (claim t o)) as Hcu.
  { pose proof (settled_unfilled t o Ht Ho). pose proof (settled_order_ok t o Ht Ho) as []. range. }
  pose proof (get_transfer_fee_Ok mint (claim t o) fee Hmint Hcu Hfee) as Hfr.
  exists v, o', t', a2, p2, x2. split; [|done]. destruct (Z.ltb_spec 0 (claim t o)) as [Hpos|Hz].
  - rewrite Hfee. cbn [obind]. rewrite ucheck_ok by range. cbn [obind Prelude.ok_or]. unfold require.
    rewrite (proj2 (Z.leb_le _ _) Hmin). done.
  - assert (claim t o = 0) as -> by range. done.
Qed.

(** Settling never fails on a reachable book, and settling again pays nothing
    and changes nothing. *)
Theorem settle_total_and_idempotent t l i o :
  reachable_book t l -> l !! i = Some o ->
  exists v o', settle_filled_order o t = Ok (v, o') /\ 0 <= v /\
    total_amount o' - filled_amount o' = claim t o /\ settle_filled_order o' t = Ok (0, o').
Proof.
  intros Hb%reachable_book_ok Hi. pose proof Hb as [Ht Hl _ _ _].
  pose proof (Forall_lookup_1 _ _ _ _ Hl Hi) as Ho.
  exists (settled t o).1, (settled t o).2.
  rewrite !settle_filled_order_ok by (done || by apply settled_order_ok).
  split; [by destruct (settled t o)|]. split; [|split; [by apply settled_unfilled|]].
  - unfold settled. repeat case_match; simpl; try done; unfold usat; lia.
  - by rewrite settled_idem.
Qed.
End Properties.

(** * Examples *)

(** Two orders of 1000 and 500 at tick 60, 300 of them taken by a swap. *)
Lemma demo_book :
  exists t o o', reachable_book (U := uint_std) t [o'; o] /\
    total_amount o = 1000 /\ total_amount o' = 500 /\ unfilled t = 1200 /\ claim t o = 799 /\
    (lo_tick_index o, lo_pool_id o, lo_owner o, lo_zero_for_one o) = (60, 7, 8, true).
Proof.
  do 3 eexists. split.
  - exists (sample_tick 60). split; [split; [by apply sample_tick_ok|done]|].
    eapply rtc_l.
    { eapply (step_open (U := uint_std)) with (tick_index := 60) (z := true) (amount := 1000)
        (pool := 7) (user := 8) (ts := 0).
      - by_compute.
      - by_compute.
      - by left.
      - by_compute.
      - vm_compute. reflexivity.
      - vm_compute. reflexivity. }
    eapply rtc_l.
    { eapply (step_open (U := uint_std)) with (tick_index := 60) (z := true) (amount := 500)
        (pool := 7) (user := 9) (ts := 0).
      - by_compute.
      - by_compute.
      - by left.
      - by_compute.
      - vm_compute. reflexivity.
      - vm_compute. reflexivity. }
    eapply rtc_l.
    { eapply (step_match (U := uint_std)) with (swap := 300) (z := false) (base := false) (f := 2500)
        (on_input := true).
      - by_compute.
      - by_compute.
      - vm_compute. reflexivity. }
    apply rtc_refl.
  - split_and!; vm_compute; reflexivity.
Qed.

(** The dust deduction of [settle_filled_order] does not cover the rounding of
    the unfilled ratio when an order is near the top of the range: after two
    swaps have each bought one unit from an order of 2^64 - 4 units at price
    one, paying two units in, the order is paid three. *)
Theorem settle_can_overpay :
  exists t o t1 m1 t2 m2 o',
    reachable_book (U := uint_std) t [o] /\ settled_output o = 0 /\
    match_limit_order (U := uint_std) t 1 false false 2500 true = Ok (m1, t1) /\
    match_limit_order (U := uint_std) t1 1 false false 2500 true = Ok (m2, t2) /\
    lo_amount_in m1 + lo_amount_in m2 = 2 /\ lo_amount_out m1 + lo_amount_out m2 = 2 /\
    settle_filled_order (U := uint_std) o t2 = Ok (3, o').
Proof.
  do 7 eexists. split.
  - exists (sample_tick 0). split; [split; [by apply sample_tick_ok|done]|].
    eapply rtc_l; [|apply rtc_refl].
    eapply (step_open (U := uint_std)) with (tick_index := 0) (z := true) (amount := 2 ^ 64 - 4)
      (pool := 7) (user := 8) (ts := 0).
    + by_compute.
    + by_compute.
    + by left.
    + by_compute.
    + vm_compute. reflexivity.
    + vm_compute. reflexivity.
  - do 5 (split; [vm_compute; reflexivity|]). vm_compute. reflexivity.
Qed.

Lemma order_book_solvent_witness :
  exists t l, length l = 2%nat /\ sum_z (open_total t) l = orders_amount t /\
    sum_z (claim t) l <= unfilled t.
Proof.
  destruct demo_book as (t & o & o' & H & _). exists t, [o'; o]. split; [done|].
  destruct (order_book_solvent (U := uint_std) t [o'; o] H) as (H1 & H2 & _). done.
Defined.

(** The array [0, 600) with the book's tick, counted. *)
Definition demo_tick_array (t : TickState) : TickArrayState :=
  mkTickArray 7 0 (<[6%nat := t]> (replicate 60%nat default_tick_state)) 1.

Lemma withdrawal_never_blocked_witness :
  exists t o v o' arr' p' ext', decrease_limit_order (U := uint_std) 78 7 8 sample_pool (demo_tick_array t) o 51 52 21 22
      (mkMint 5 true None) (Some (78, ext_initialize 7)) 5000 799 =
      Ok (o', arr', p', ext', transfer_from_pool_vault_to_user 22 52 v ++ [mkTransfer 21 51 799]) /\
    filled_amount o' = total_amount o'.
Proof.
  destruct demo_book as (t & o & o' & H & _ & _ & Hu & Hc & E). injection E as E1 E2 E3 E4. exists t, o.
  destruct (withdrawal_never_blocked (U := uint_std) 7 78 8 21 22 sample_pool (ext_initialize 7) (demo_tick_array t) t
    [o'; o] 1 o 51 52 (mkMint 5 true None) 0 5000 799 H) as (v & x & t' & arr' & p' & ext' & H1 & H2 & _).
  - reflexivity.
  - constructor; rewrite ?E1, ?E2, ?E3, ?E4; try reflexivity.
    + apply empty_bitmaps_ok; [by_compute|reflexivity].
    + constructor; by_compute.
    + exists 0. by_compute.
  - intros _. by_compute.
  - reflexivity.
  - rewrite Hc. discriminate.
  - exact I.
  - reflexivity.
  - rewrite Hc. discriminate.
  - exists v, x, arr', p', ext'. rewrite Hc in H1. split; [exact H1|exact H2].
Defined.

Lemma settle_total_and_idempotent_witness :
  exists t o v o', settle_filled_order (U := uint_std) o t = Ok (v, o') /\
    total_amount o' - filled_amount o' = 799 /\ settle_filled_order (U := uint_std) o' t = Ok (0, o').
Proof.
  destruct demo_book as (t & o & o' & H & _ & _ & _ & Hc & _). exists t, o.
  destruct (settle_total_and_idempotent (U := uint_std) t [o'; o] 1 o H) as (v & x & H1 & _ & H2 & H3); [done|].
  exists v, x. rewrite Hc in H2. done.
Defined.
