(* ===== verification/Position.v ===== *)
(** Liquidity positions: [PersonalPositionState] of
    [states/personal_position.rs] and the instructions that open, increase,
    decrease and close a position ([instructions/open_position.rs],
    [increase_liquidity.rs], [decrease_liquidity.rs], [close_position.rs] and
    their [_v2] forms, which call the same functions).

    The tick arrays are a store from account keys to arrays: the accounts of the
    lower and of the upper tick may be one account, and the code reads and
    writes it through both names.  The derived address of an array, the key of
    the pool and of its bitmap extension, and the clock are parameters.
    Minting and burning the position's token, metadata, events, the recent
    epoch and the padding are not modelled; transfers are returned as values. *)
From S2P Require Import Prelude.
From stdpp Require Import gmap.
From S2P Require Import AmmError.
From S2P Require Import BigNum.
From S2P Require Import FullMath.
From S2P Require Import Config.
From S2P Require Import Token.
From S2P Require Import TickMath.
From S2P Require Import LiquidityMath.
From S2P Require Import TickIndex.
From S2P Require Import BitmapExtension.
From S2P Require Import Rewards.
From S2P Require Import TickState.
From S2P Require Import TickArray.
From S2P Require Import Pool.
From S2P Require Import PoolBitmap.
#[local] Open Scope Z_scope.

Record PositionRewardInfo := mkPositionReward {
  growth_inside_last_x64 : Z;
  reward_amount_owed : Z;
}.

Record PersonalPositionState := mkPosition {
  nft_mint : Pubkey;
  pp_pool_id : Pubkey;
  tick_lower_index : Z;
  tick_upper_index : Z;
  pp_liquidity : Z;
  fee_growth_inside_0_last_x64 : Z;
  fee_growth_inside_1_last_x64 : Z;
  token_fees_owed_0 : Z;
  token_fees_owed_1 : Z;
  pp_reward_infos : list PositionRewardInfo;
}.

Definition default_position : PersonalPositionState :=
  mkPosition default_pubkey default_pubkey 0 0 0 0 0 0 0 (replicate REWARD_NUM (mkPositionReward 0 0)).

(** Field updates. *)
Definition set_pp_liquidity (p : PersonalPositionState) v : PersonalPositionState :=
  mkPosition (nft_mint p) (pp_pool_id p) (tick_lower_index p) (tick_upper_index p) v
    (fee_growth_inside_0_last_x64 p) (fee_growth_inside_1_last_x64 p) (token_fees_owed_0 p)
    (token_fees_owed_1 p) (pp_reward_infos p).
Definition set_pp_growth (p : PersonalPositionState) g0 g1 : PersonalPositionState :=
  mkPosition (nft_mint p) (pp_pool_id p) (tick_lower_index p) (tick_upper_index p) (pp_liquidity p)
    g0 g1 (token_fees_owed_0 p) (token_fees_owed_1 p) (pp_reward_infos p).
Definition set_pp_owed (p : PersonalPositionState) o0 o1 : PersonalPositionState :=
  mkPosition (nft_mint p) (pp_pool_id p) (tick_lower_index p) (tick_upper_index p) (pp_liquidity p)
    (fee_growth_inside_0_last_x64 p) (fee_growth_inside_1_last_x64 p) o0 o1 (pp_reward_infos p).
Definition set_pp_rewards (p : PersonalPositionState) (rs : list PositionRewardInfo) : PersonalPositionState :=
  mkPosition (nft_mint p) (pp_pool_id p) (tick_lower_index p) (tick_upper_index p) (pp_liquidity p)
    (fee_growth_inside_0_last_x64 p) (fee_growth_inside_1_last_x64 p) (token_fees_owed_0 p)
    (token_fees_owed_1 p) rs.

Section PositionState.
Context {U : UintLib}.

(** [calculate_latest_token_fees] of [increase_liquidity.rs] *)
Definition calculate_latest_token_fees (last_total_fees fee_growth_inside_last_x64
    fee_growth_inside_latest_x64 liquidity : Z) : Result Z :=
  let! d := or_overflow (mul_div_floor_u128
              (uwrap 128 (fee_growth_inside_latest_x64 - fee_growth_inside_last_x64)) liquidity Q64) in
  let! fee_growth_delta := to_underflow_u64 d in
  ok_or (ucheck 64 (last_total_fees + fee_growth_delta)) CalculateOverflow.

(** One round of the loop of [update_rewards]. *)
Definition update_position_reward (liquidity : Z) (add_delta : bool) (r : PositionRewardInfo)
    (reward_growth_inside : Z) : Result PositionRewardInfo :=
  let! owed :=
    if add_delta then
      let reward_growth_delta := uwrap 128 (reward_growth_inside - growth_inside_last_x64 r) in
      let! d := or_overflow (mul_div_floor_u256 reward_growth_delta liquidity Q64) in
      let! amount_owed_delta := to_underflow_u64 d in
      ok_or (ucheck 64 (reward_amount_owed r + amount_owed_delta)) CalculateOverflow
    else Ok (reward_amount_owed r) in
  Ok (mkPositionReward reward_growth_inside owed).

Fixpoint update_rewards_loop (liquidity : Z) (add_delta : bool) (rs : list PositionRewardInfo)
    (growths : list Z) : Result (list PositionRewardInfo) :=
  match rs, growths with
  | r :: rs, g :: growths =>
      let! r := update_position_reward liquidity add_delta r g in
      let! rs := update_rewards_loop liquidity add_delta rs growths in
      Ok (r :: rs)
  | rs, _ => Ok rs
  end.

Definition update_rewards (p : PersonalPositionState) (reward_growths_inside : list Z)
    (add_delta : bool) : Result PersonalPositionState :=
  let! rs := update_rewards_loop (pp_liquidity p) add_delta (pp_reward_infos p) reward_growths_inside in
  Ok (set_pp_rewards p rs).

Definition update_fee_and_reward (p : PersonalPositionState) (growth_0 growth_1 : Z)
    (reward_growths : list Z) : Result PersonalPositionState :=
  let! o0 := calculate_latest_token_fees (token_fees_owed_0 p) (fee_growth_inside_0_last_x64 p)
               growth_0 (pp_liquidity p) in
  let! o1 := calculate_latest_token_fees (token_fees_owed_1 p) (fee_growth_inside_1_last_x64 p)
               growth_1 (pp_liquidity p) in
  update_rewards (set_pp_growth (set_pp_owed p o0 o1) growth_0 growth_1) reward_growths true.

(** [PersonalPositionState::initialize] of a fresh account. *)
Definition position_initialize (mint pool_id : Pubkey) (tl tu liquidity growth_0 growth_1 : Z)
    (reward_growths : list Z) : Result PersonalPositionState :=
  let p := mkPosition mint pool_id tl tu 0 growth_0 growth_1 0 0 (pp_reward_infos default_position) in
  let! p := update_rewards p reward_growths false in
  Ok (set_pp_liquidity p liquidity).

Definition position_increase_liquidity (p : PersonalPositionState) (liquidity_delta growth_0 growth_1 : Z)
    (reward_growths : list Z) : Result PersonalPositionState :=
  let! p := update_fee_and_reward p growth_0 growth_1 reward_growths in
  let! l := ok_or (ucheck 128 (pp_liquidity p + liquidity_delta)) CalculateOverflow in
  Ok (set_pp_liquidity p l).

Definition position_decrease_liquidity (p : PersonalPositionState) (liquidity_delta growth_0 growth_1 : Z)
    (reward_growths : list Z) : Result PersonalPositionState :=
  let! p := update_fee_and_reward p growth_0 growth_1 reward_growths in
  let! l := ok_or (ucheck 128 (pp_liquidity p - liquidity_delta)) CalculateOverflow in
  Ok (set_pp_liquidity p l).
End PositionState.

(** * Changing the liquidity of a range *)

Record LiquidityChangeResult := mkLiquidityChange {
  lc_amount_0 : Z;
  lc_amount_1 : Z;
  lc_amount_0_transfer_fee : Z;
  lc_amount_1_transfer_fee : Z;
  tick_lower_flipped : bool;
  tick_upper_flipped : bool;
  lc_fee_growth_inside_0_x64 : Z;
  lc_fee_growth_inside_1_x64 : Z;
  lc_reward_growths_inside : list Z;
}.

Definition default_liquidity_change : LiquidityChangeResult :=
  mkLiquidityChange 0 0 0 0 false false 0 0 (replicate REWARD_NUM (0 : Z)).

Definition with_transfer_fees (r : LiquidityChangeResult) (f0 f1 : Z) : LiquidityChangeResult :=
  mkLiquidityChange (lc_amount_0 r) (lc_amount_1 r) f0 f1 (tick_lower_flipped r) (tick_upper_flipped r)
    (lc_fee_growth_inside_0_x64 r) (lc_fee_growth_inside_1_x64 r) (lc_reward_growths_inside r).

Section Modify.
Context {U : UintLib}.

Definition modify_position (liquidity_delta : Z) (p : PoolState) (lower upper : TickState)
    (timestamp : Z) : Result (LiquidityChangeResult * PoolState * TickState * TickState) :=
  let! '(rewards, p) := pool_update_reward_infos p timestamp in
  let! '(flipped_lower, flipped_upper, lower, upper) :=
    if negb (liquidity_delta =? 0) then
      let! '(fl, lower) := tick_update lower (tick_current p) liquidity_delta
                             (fee_growth_global_0_x64 p) (fee_growth_global_1_x64 p) false rewards in
      let! '(fu, upper) := tick_update upper (tick_current p) liquidity_delta
                             (fee_growth_global_0_x64 p) (fee_growth_global_1_x64 p) true rewards in
      Ok (fl, fu, lower, upper)
    else Ok (false, false, lower, upper) in
  let '(growth_0, growth_1) :=
    get_fee_growth_inside lower upper (tick_current p) (fee_growth_global_0_x64 p)
      (fee_growth_global_1_x64 p) in
  let reward_growths := get_reward_growths_inside lower upper (tick_current p) rewards in
  let lower := if (liquidity_delta <? 0) && flipped_lower then tick_clear lower else lower in
  let upper := if (liquidity_delta <? 0) && flipped_upper then tick_clear upper else upper in
  let! '(amount_0, amount_1, p) :=
    if negb (liquidity_delta =? 0) then
      let! '(a0, a1) := get_delta_amounts_signed (tick_current p) (sqrt_price_x64 p) (tick lower)
                          (tick upper) liquidity_delta in
      let! p :=
        if (tick lower <=? tick_current p) && (tick_current p <? tick upper) then
          let! l := add_delta (liquidity p) liquidity_delta in Ok (set_pool_liquidity p l)
        else Ok p in
      Ok (a0, a1, p)
    else Ok (0, 0, p) in
  Ok (mkLiquidityChange amount_0 amount_1 0 0 flipped_lower flipped_upper growth_0 growth_1 reward_growths,
      p, lower, upper).
End Modify.

(** [i128::try_from(liquidity).map_err(|_| CalculateOverflow)] *)
Definition liquidity_to_i128 (liquidity : Z) : Result Z :=
  ok_or (icheck 128 liquidity) CalculateOverflow.

(** * The instructions *)

(** The tick-array accounts, by key. *)
Abbreviation arrays := (gmap Z TickArrayState).

(** Loading an account that was not passed, or of another type, is refused by
    the framework. *)
Definition load_array (m : arrays) (k : Pubkey) : Result TickArrayState :=
  ok_or (m !! k) ConstraintViolated.

(** [loader.load_mut()?.update_tick_state(...)] *)
Definition store_tick (m : arrays) (k : Pubkey) (t s : Z) (x : TickState) : Result arrays :=
  let! a := load_array m k in
  let! a := update_tick_state a t s x in
  Ok (<[k := a]> m).

Section Instructions.
Context {U : UintLib} {T : TokenLib}.
(** [pool_state.key()], [TickArrayBitmapExtension::key(pool)]. *)
Context (pool_key ext_key : Pubkey).

Abbreviation extension := (option (Pubkey * TickArrayBitmapExtension)).

(** The array's count after one of its ticks flipped, and the pool's bitmap
    when the array went from or to having none. *)
Definition register_flip (m : arrays) (k : Pubkey) (add : bool) (p : PoolState) (ext : extension) :
    Result (arrays * PoolState * extension) :=
  let! a := load_array m k in
  let before_init_tick_count := initialized_tick_count a in
  let! a := update_initialized_tick_count a add in
  let m := <[k := a]> m in
  if (if add then before_init_tick_count =? 0 else initialized_tick_count a =? 0) then
    let! '(p, ext) := pool_flip_tick_array_bit p ext_key ext (start_tick_index a) in
    Ok (m, p, ext)
  else Ok (m, p, ext).

(** The part [add_liquidity] and [burn_liquidity] share: the two ticks are
    copied out of their arrays, modified together and written back, and the
    flips registered. *)
Definition modify_ticks (liquidity_delta : Z) (p : PoolState) (m : arrays) (kl ku : Pubkey)
    (tl tu : Z) (ext : extension) (add : bool) (name_ticks : bool) (unix_timestamp : Z) :
    Result (LiquidityChangeResult * PoolState * arrays * extension) :=
  let s := pool_tick_spacing p in
  let! al := load_array m kl in
  do! require_keys_eq (ta_pool_id al) pool_key in
  let! au := load_array m ku in
  do! require_keys_eq (ta_pool_id au) pool_key in
  let! lower := get_tick_state al tl s in
  let! upper := get_tick_state au tu s in
  let lower := if name_ticks && (tick lower =? 0) then set_tick lower tl else lower in
  let upper := if name_ticks && (tick upper =? 0) then set_tick upper tu else upper in
  let! '(r, p, lower, upper) := modify_position liquidity_delta p lower upper (uwrap 64 unix_timestamp) in
  let! m := store_tick m kl tl s lower in
  let! m := store_tick m ku tu s upper in
  let! '(m, p, ext) :=
    if tick_lower_flipped r then register_flip m kl add p ext else Ok (m, p, ext) in
  let! '(m, p, ext) :=
    if tick_upper_flipped r then register_flip m ku add p ext else Ok (m, p, ext) in
  Ok (r, p, m, ext).

(** The liquidity a zero [liquidity] argument stands for. *)
Definition liquidity_for_base (p : PoolState) (tl tu amount_0_max amount_1_max : Z) (base_flag : bool)
    (vault_0_mint vault_1_mint : option Mint) : Result Z :=
  if base_flag then
    let! m := ok_or vault_0_mint MissingMintAccount in
    let! fee := get_transfer_fee m amount_0_max in
    let! pl := get_sqrt_price_at_tick tl in
    let! pu := get_sqrt_price_at_tick tu in
    let! a := ok_or (ucheck 64 (amount_0_max - fee)) CalculateOverflow in
    get_liquidity_from_single_amount_0 (sqrt_price_x64 p) pl pu a
  else
    let! m := ok_or vault_1_mint MissingMintAccount in
    let! fee := get_transfer_fee m amount_1_max in
    let! pl := get_sqrt_price_at_tick tl in
    let! pu := get_sqrt_price_at_tick tu in
    let! a := ok_or (ucheck 64 (amount_1_max - fee)) CalculateOverflow in
    get_liquidity_from_single_amount_1 (sqrt_price_x64 p) pl pu a.

(** The transfer fee on top of what the vault must receive. *)
Definition inverse_fee (mint : option Mint) (amount : Z) : Result Z :=
  match mint with Some m => get_transfer_inverse_fee m amount | None => Ok 0 end.

(** The user's token accounts and the pool's vaults. *)
Record TokenAccounts := mkTokenAccounts {
  token_account_0 : Pubkey;
  token_account_1 : Pubkey;
  vault_0 : Pubkey;
  vault_1 : Pubkey;
  vault_0_mint : option Mint;
  vault_1_mint : option Mint;
}.

Definition add_liquidity (c : TokenAccounts) (p : PoolState) (m : arrays) (kl ku : Pubkey)
    (ext : extension) (liquidity_arg amount_0_max amount_1_max tl tu : Z) (base_flag : option bool)
    (unix_timestamp : Z) :
    Result (LiquidityChangeResult * Z * PoolState * arrays * extension * list Transfer) :=
  let continue l :=
    do! require (0 <? l) ZeroLiquidity in
    let! delta := liquidity_to_i128 l in
    let! '(r, p, m, ext) := modify_ticks delta p m kl ku tl tu ext true true unix_timestamp in
    let amount_0 := lc_amount_0 r in
    let amount_1 := lc_amount_1 r in
    do! require ((0 <? amount_0) || (0 <? amount_1)) ForbidBothZeroForSupplyLiquidity in
    let! fee_0 := inverse_fee (vault_0_mint c) amount_0 in
    let! fee_1 := inverse_fee (vault_1_mint c) amount_1 in
    let! paid_0 := uchk 64 (amount_0 + fee_0) in
    do! require (paid_0 <=? amount_0_max) PriceSlippageCheck in
    let! paid_1 := uchk 64 (amount_1 + fee_1) in
    do! require (paid_1 <=? amount_1_max) PriceSlippageCheck in
    Ok (with_transfer_fees r fee_0 fee_1, l, p, m, ext,
        transfer_from_user_to_pool_vault (token_account_0 c) (vault_0 c) paid_0 ++
        transfer_from_user_to_pool_vault (token_account_1 c) (vault_1 c) paid_1) in
  if liquidity_arg =? 0 then
    match base_flag with
    | None => Ok (default_liquidity_change, 0, p, m, ext, [])
    | Some b =>
        let! l := liquidity_for_base p tl tu amount_0_max amount_1_max b (vault_0_mint c) (vault_1_mint c) in
        continue l
    end
  else continue liquidity_arg.

(** [remaining_accounts[0]], which must be the extension when one of the ticks
    needs it. *)
Definition select_extension (p : PoolState) (ticks : list Z) (ext : extension) :
    Result extension :=
  let! use := is_overflow_default_tickarray_bitmap p ticks in
  if use : bool then
    let! '(k, e) := unwrap ext in
    do! require_keys_eq k ext_key in
    Ok (Some (k, e))
  else Ok None.

(** What the instruction leaves in the extension account it was passed. *)
Definition merge_extension (passed used : extension) : extension :=
  match used with Some x => Some x | None => passed end.

(** The derived address of the pool's array at a start index. *)
Context (tick_array_address : Z -> Pubkey).

(** [get_or_create_tick_array] on an account of the store. *)
Definition get_or_create (m : arrays) (start s : Z) : Result arrays :=
  let k := tick_array_address start in
  let! a := get_or_create_tick_array (m !! k) pool_key start s in
  Ok (<[k := a]> m).

Definition require_vaults (c : TokenAccounts) (p : PoolState) : Result unit :=
  require ((vault_0 c =? token_vault_0 p) && (vault_1 c =? token_vault_1 p)) ConstraintViolated.

Definition open_position (mint : Pubkey) (c : TokenAccounts) (p : PoolState) (m : arrays)
    (ext : extension) (liquidity_arg amount_0_max amount_1_max tl tu start_l start_u : Z)
    (base_flag : option bool) (unix_timestamp : Z) :
    Result (PersonalPositionState * PoolState * arrays * extension * list Transfer) :=
  do! require_vaults c p in
  do! require (get_status_by_bit p OpenPositionOrIncreaseLiquidity) NotApproved in
  do! check_ticks_order tl tu in
  do! check_tick_array_start_index start_l tl (pool_tick_spacing p) in
  do! check_tick_array_start_index start_u tu (pool_tick_spacing p) in
  let! m := get_or_create m start_l (pool_tick_spacing p) in
  let! m :=
    if start_l =? start_u then
      let! _ := load_array m (tick_array_address start_u) in Ok m
    else get_or_create m start_u (pool_tick_spacing p) in
  let! used := select_extension p [start_l; start_u] ext in
  let! '(r, l, p, m, used, transfers) :=
    add_liquidity c p m (tick_array_address start_l) (tick_array_address start_u) used
      liquidity_arg amount_0_max amount_1_max tl tu base_flag unix_timestamp in
  let! position :=
    position_initialize mint pool_key tl tu l (lc_fee_growth_inside_0_x64 r)
      (lc_fee_growth_inside_1_x64 r) (lc_reward_growths_inside r) in
  Ok (position, p, m, merge_extension ext used, transfers).

(** The token account of the position's NFT, and who signs. *)
Record NftAccount := mkNftAccount {
  nft_account_mint : Pubkey;
  nft_account_amount : Z;
  nft_account_authority : Pubkey;
}.

Definition require_nft_owner (signer : Pubkey) (n : NftAccount) (position : PersonalPositionState) :
    Result unit :=
  require ((nft_account_mint n =? nft_mint position) && (nft_account_amount n =? 1)
           && (nft_account_authority n =? signer)) ConstraintViolated.

Definition require_position_pool (position : PersonalPositionState) (m : arrays) (kl ku : Pubkey) :
    Result unit :=
  do! require (pp_pool_id position =? pool_key) ConstraintViolated in
  let! al := load_array m kl in
  do! require (ta_pool_id al =? pool_key) ConstraintViolated in
  let! au := load_array m ku in
  require (ta_pool_id au =? pool_key) ConstraintViolated.

(** [increase_liquidity], reached through [increase_liquidity] of [lib.rs] with
    a positive [liquidity] and no flag, or through [increase_liquidity_v2],
    whose guard is the first line. *)
Definition increase_liquidity (signer : Pubkey) (n : NftAccount) (position : PersonalPositionState)
    (c : TokenAccounts) (p : PoolState) (m : arrays) (kl ku : Pubkey) (ext : extension)
    (liquidity_arg amount_0_max amount_1_max : Z) (base_flag : option bool) (unix_timestamp : Z) :
    Result (PersonalPositionState * PoolState * arrays * extension * list Transfer) :=
  do! require_nft_owner signer n position in
  do! require_position_pool position m kl ku in
  do! require_vaults c p in
  do! require (negb (liquidity_arg =? 0) || bool_decide (is_Some base_flag)) MissingBaseFlag in
  do! require (get_status_by_bit p OpenPositionOrIncreaseLiquidity) NotApproved in
  let tl := tick_lower_index position in
  let tu := tick_upper_index position in
  let! used := select_extension p [tl; tu] ext in
  let! '(r, l, p, m, used, transfers) :=
    add_liquidity c p m kl ku used liquidity_arg amount_0_max amount_1_max tl tu base_flag unix_timestamp in
  let! position :=
    position_increase_liquidity position l (lc_fee_growth_inside_0_x64 r)
      (lc_fee_growth_inside_1_x64 r) (lc_reward_growths_inside r) in
  Ok (position, p, m, merge_extension ext used, transfers).

Definition burn_liquidity (p : PoolState) (m : arrays) (kl ku : Pubkey) (ext : extension)
    (tl tu liquidity_arg unix_timestamp : Z) :
    Result (LiquidityChangeResult * PoolState * arrays * extension) :=
  let! l := liquidity_to_i128 liquidity_arg in
  modify_ticks (- l) p m kl ku tl tu ext false false unix_timestamp.

Definition decrease_liquidity_and_update_position (p : PoolState) (position : PersonalPositionState)
    (m : arrays) (kl ku : Pubkey) (ext : extension) (liquidity_arg unix_timestamp : Z) :
    Result (Z * Z * Z * Z * PoolState * PersonalPositionState * arrays * extension) :=
  let! '(a0, a1, p, position, m, ext) :=
    if get_status_by_bit p DecreaseLiquidity then
      let! '(r, p, m, ext) :=
        burn_liquidity p m kl ku ext (tick_lower_index position) (tick_upper_index position)
          liquidity_arg unix_timestamp in
      let! position :=
        position_decrease_liquidity position liquidity_arg (lc_fee_growth_inside_0_x64 r)
          (lc_fee_growth_inside_1_x64 r) (lc_reward_growths_inside r) in
      Ok (lc_amount_0 r, lc_amount_1 r, p, position, m, ext)
    else Ok (0, 0, p, position, m, ext) in
  let '(f0, f1, position) :=
    if get_status_by_bit p CollectFee
    then (token_fees_owed_0 position, token_fees_owed_1 position, set_pp_owed position 0 0)
    else (0, 0, position) in
  Ok (a0, f0, a1, f1, p, position, m, ext).

(** One reward's accounts among the remaining accounts. *)
Record RewardAccounts := mkRewardAccounts {
  rv_key : Pubkey;
  rv_mint : Pubkey;
  rv_amount : Z;
  rc_key : Pubkey;
  rc_mint : Pubkey;
}.

Definition valid_reward_count (p : PoolState) : nat := length (filter reward_initialized (reward_infos p)).

(** The loop of [collect_rewards]. *)
Fixpoint collect_rewards_loop (i : nat) (groups : list RewardAccounts) (p : PoolState)
    (position : PersonalPositionState) (transfers : list Transfer) :
    Result (PoolState * PersonalPositionState * list Transfer) :=
  match groups with
  | [] => Ok (p, position, transfers)
  | g :: groups =>
      do! require_keys_eq (rv_mint g) (rc_mint g) in
      let! info := idx (reward_infos p) (Z.of_nat i) in
      do! require_keys_eq (rv_key g) (token_vault info) in
      let! r := idx (pp_reward_infos position) (Z.of_nat i) in
      let owed := reward_amount_owed r in
      if owed =? 0 then collect_rewards_loop (S i) groups p position transfers
      else
        do! check_unclaimed_reward p (Z.of_nat i) owed in
        let transfer_amount := if rv_amount g <? owed then rv_amount g else owed in
        if 0 <? transfer_amount then
          let! rest := ok_or (ucheck 64 (owed - transfer_amount)) CalculateOverflow in
          let! rs := set_idx (pp_reward_infos position) (Z.of_nat i)
                       (mkPositionReward (growth_inside_last_x64 r) rest) in
          let! p := add_reward_claimed p (Z.of_nat i) transfer_amount in
          collect_rewards_loop (S i) groups p (set_pp_rewards position rs)
            (transfers ++ transfer_from_pool_vault_to_user (rv_key g) (rc_key g) transfer_amount)
        else collect_rewards_loop (S i) groups p position transfers
  end.

(** [collect_rewards]; the remaining accounts come in groups, one per reward. *)
Definition collect_rewards (groups : list RewardAccounts) (p : PoolState) (position : PersonalPositionState) :
    Result (PoolState * PersonalPositionState * list Transfer) :=
  if negb (get_status_by_bit p CollectReward) then Ok (p, position, [])
  else
    do! require (length groups =? valid_reward_count p)%nat InvalidRewardInputAccountNumber in
    collect_rewards_loop 0 groups p position [].

(** The transfer fee taken from what the vault sends. *)
Definition outgoing_fee (mint : option Mint) (amount : Z) : Result Z :=
  match mint with Some m => get_transfer_fee m amount | None => Ok 0 end.

(** [decrease_liquidity]; [ext] is the remaining account with the extension's
    key, the other remaining accounts are the rewards'. *)
Definition decrease_liquidity (signer : Pubkey) (n : NftAccount) (position : PersonalPositionState)
    (c : TokenAccounts) (p : PoolState) (m : arrays) (kl ku : Pubkey)
    (ext : option TickArrayBitmapExtension) (groups : list RewardAccounts)
    (liquidity_arg amount_0_min amount_1_min unix_timestamp : Z) :
    Result (PersonalPositionState * PoolState * arrays * option TickArrayBitmapExtension * list Transfer) :=
  do! require_nft_owner signer n position in
  do! require_position_pool position m kl ku in
  do! require_vaults c p in
  do! require_gte (pp_liquidity position) liquidity_arg in
  do! require (get_status_by_bit p DecreaseLiquidity || get_status_by_bit p CollectFee
               || get_status_by_bit p CollectReward) NotApproved in
  let! al := load_array m kl in
  let! au := load_array m ku in
  let! use := is_overflow_default_tickarray_bitmap p [start_tick_index al; start_tick_index au] in
  do! if use : bool then require (bool_decide (is_Some ext)) MissingTickArrayBitmapExtensionAccount else Ok tt in
  let! '(a0, f0, a1, f1, p, position, m, ext) :=
    decrease_liquidity_and_update_position p position m kl ku (pair ext_key <$> ext) liquidity_arg
      unix_timestamp in
  let! fee_0 := outgoing_fee (vault_0_mint c) a0 in
  let! fee_1 := outgoing_fee (vault_1_mint c) a1 in
  do! if 0 <? liquidity_arg then
        let! net_0 := uchk 64 (a0 - fee_0) in
        do! require (amount_0_min <=? net_0) PriceSlippageCheck in
        let! net_1 := uchk 64 (a1 - fee_1) in
        require (amount_1_min <=? net_1) PriceSlippageCheck
      else Ok tt in
  let! transfer_amount_0 := uchk 64 (a0 + f0) in
  let! transfer_amount_1 := uchk 64 (a1 + f1) in
  let! '(p, position, rewards) := collect_rewards groups p position in
  Ok (position, p, m, snd <$> ext,
      transfer_from_pool_vault_to_user (vault_0 c) (token_account_0 c) transfer_amount_0 ++
      transfer_from_pool_vault_to_user (vault_1 c) (token_account_1 c) transfer_amount_1 ++ rewards).

(** [close_position]: what must hold for the accounts to be closed. *)
Definition close_position (signer : Pubkey) (n : NftAccount) (position : PersonalPositionState) :
    Result unit :=
  do! require_nft_owner signer n position in
  if negb (pp_liquidity position =? 0) || negb (token_fees_owed_0 position =? 0)
     || negb (token_fees_owed_1 position =? 0) then err ClosePositionErr
  else if existsb (fun r => negb (reward_amount_owed r =? 0)) (pp_reward_infos position)
  then err ClosePositionErr
  else Ok tt.

(** [collect_remaining_rewards.rs]: what the funder of a finished reward takes
    back; [vault_amount] is the balance of the reward's vault. *)
Definition collect_remaining_rewards (p : PoolState) (funder vault : Pubkey)
    (vault_amount reward_index unix_timestamp : Z) (funder_token_account : Pubkey) :
    Result (PoolState * list Transfer) :=
  let! now := ok_or (ucheck 64 unix_timestamp) CalculateOverflow in
  let! '(_, p) := pool_update_reward_infos p now in
  let! r := idx (reward_infos p) reward_index in
  if negb (reward_initialized r) then err UnInitializedRewardInfo
  else
    do! require (last_update_time r =? ri_end_time r) NotApproved in
    do! require_keys_eq funder (authority r) in
    do! require_keys_eq vault (token_vault r) in
    let! unclaimed_reward := ok_or (ucheck 64 (reward_total_emitted r - reward_claimed r)) CalculateOverflow in
    let! amount_remaining := ok_or (ucheck 64 (vault_amount - unclaimed_reward)) CalculateOverflow in
    Ok (p, transfer_from_pool_vault_to_user vault funder_token_account amount_remaining).

(** [update_reward_info.rs] *)
Definition update_reward_infos_instruction (p : PoolState) (unix_timestamp : Z) : Result PoolState :=
  let! now := ok_or (ucheck 64 unix_timestamp) CalculateOverflow in
  let! '(_, p) := pool_update_reward_infos p now in
  Ok p.
End Instructions.
