(* ===== verification/SwapState.v ===== *)
(** [SwapState] of [instructions/swap.rs]: the running state of a swap and its
    operations.  The loop that drives them is in [SwapLoop]. *)
From S2P Require Import Prelude.
From S2P Require Import AmmError.
From S2P Require Import BigNum.
From S2P Require Import FullMath.
From S2P Require Import Config.
From S2P Require Import TickMath.
From S2P Require Import TickOfPrice.
From S2P Require Import TickIndex.
From S2P Require Import DynamicFee.
From S2P Require Import Rewards.
From S2P Require Import Pool.

Record SwapState := mkSwapState {
  amount_specified_remaining : Z;
  amount_calculated : Z;
  st_sqrt_price_x64 : Z;
  st_tick : Z;
  st_fee_growth_global_x64 : Z;
  lp_fee : Z;
  protocol_fee : Z;
  fund_fee : Z;
  st_liquidity : Z;
  st_sqrt_price_next_x64 : Z;
  tick_next : Z;
  st_tick_spacing : Z;
  base_fee_rate : Z;
  st_tick_spacing_index : Z;
  st_dynamic_fee_info : option DynamicFeeInfo;
}.

(** Field updates. *)
Definition set_amounts (s : SwapState) r c : SwapState :=
  mkSwapState r c (st_sqrt_price_x64 s) (st_tick s) (st_fee_growth_global_x64 s) (lp_fee s)
    (protocol_fee s) (fund_fee s) (st_liquidity s) (st_sqrt_price_next_x64 s) (tick_next s)
    (st_tick_spacing s) (base_fee_rate s) (st_tick_spacing_index s) (st_dynamic_fee_info s).
Definition set_fees (s : SwapState) g lp pf ff : SwapState :=
  mkSwapState (amount_specified_remaining s) (amount_calculated s) (st_sqrt_price_x64 s)
    (st_tick s) g lp pf ff (st_liquidity s) (st_sqrt_price_next_x64 s) (tick_next s)
    (st_tick_spacing s) (base_fee_rate s) (st_tick_spacing_index s) (st_dynamic_fee_info s).
Definition set_st_price (s : SwapState) v : SwapState :=
  mkSwapState (amount_specified_remaining s) (amount_calculated s) v (st_tick s)
    (st_fee_growth_global_x64 s) (lp_fee s) (protocol_fee s) (fund_fee s) (st_liquidity s)
    (st_sqrt_price_next_x64 s) (tick_next s) (st_tick_spacing s) (base_fee_rate s)
    (st_tick_spacing_index s) (st_dynamic_fee_info s).
Definition set_st_tick (s : SwapState) v : SwapState :=
  mkSwapState (amount_specified_remaining s) (amount_calculated s) (st_sqrt_price_x64 s) v
    (st_fee_growth_global_x64 s) (lp_fee s) (protocol_fee s) (fund_fee s) (st_liquidity s)
    (st_sqrt_price_next_x64 s) (tick_next s) (st_tick_spacing s) (base_fee_rate s)
    (st_tick_spacing_index s) (st_dynamic_fee_info s).
Definition set_st_liquidity (s : SwapState) v : SwapState :=
  mkSwapState (amount_specified_remaining s) (amount_calculated s) (st_sqrt_price_x64 s)
    (st_tick s) (st_fee_growth_global_x64 s) (lp_fee s) (protocol_fee s) (fund_fee s) v
    (st_sqrt_price_next_x64 s) (tick_next s) (st_tick_spacing s) (base_fee_rate s)
    (st_tick_spacing_index s) (st_dynamic_fee_info s).
Definition set_next (s : SwapState) price t : SwapState :=
  mkSwapState (amount_specified_remaining s) (amount_calculated s) (st_sqrt_price_x64 s)
    (st_tick s) (st_fee_growth_global_x64 s) (lp_fee s) (protocol_fee s) (fund_fee s)
    (st_liquidity s) price t (st_tick_spacing s) (base_fee_rate s) (st_tick_spacing_index s)
    (st_dynamic_fee_info s).
Definition set_spacing_index (s : SwapState) v : SwapState :=
  mkSwapState (amount_specified_remaining s) (amount_calculated s) (st_sqrt_price_x64 s)
    (st_tick s) (st_fee_growth_global_x64 s) (lp_fee s) (protocol_fee s) (fund_fee s)
    (st_liquidity s) (st_sqrt_price_next_x64 s) (tick_next s) (st_tick_spacing s)
    (base_fee_rate s) v (st_dynamic_fee_info s).
Definition set_st_dynamic (s : SwapState) (v : option DynamicFeeInfo) : SwapState :=
  mkSwapState (amount_specified_remaining s) (amount_calculated s) (st_sqrt_price_x64 s)
    (st_tick s) (st_fee_growth_global_x64 s) (lp_fee s) (protocol_fee s) (fund_fee s)
    (st_liquidity s) (st_sqrt_price_next_x64 s) (tick_next s) (st_tick_spacing s)
    (base_fee_rate s) (st_tick_spacing_index s) v.

Section SwapState.
Context {U : UintLib}.

(** [SwapState::new] *)
Definition swap_state_new (pool_state : PoolState) (amount_specified base_rate : Z)
    (zero_for_one : bool) (block_timestamp : Z) : Result SwapState :=
  let state :=
    mkSwapState amount_specified 0 (sqrt_price_x64 pool_state) (tick_current pool_state)
      (if is_fee_on_token0 pool_state zero_for_one then fee_growth_global_0_x64 pool_state
       else fee_growth_global_1_x64 pool_state)
      0 0 0 (liquidity pool_state) 0 0 (pool_tick_spacing pool_state) base_rate 0
      (get_dynamic_fee_info pool_state) in
  match st_dynamic_fee_info state with
  | Some info =>
      let! i := tick_spacing_index_from_tick (st_tick state) (st_tick_spacing state) in
      let! info := update_reference info i block_timestamp in
      Ok (set_st_dynamic (set_spacing_index state i) (Some info))
  | None => Ok state
  end.

(** A fee share: [fee * rate / FEE_RATE_DENOMINATOR_VALUE]. *)
Definition fee_share (fee_amount rate : Z) : Result Z :=
  let! m := ok_or (uint_checked_mul 128 fee_amount rate) CalculateOverflow in
  let! d := ok_or (uint_checked_div m FEE_RATE_DENOMINATOR_VALUE) CalculateOverflow in
  big_u64 d.

Definition spilt_fees (self : SwapState) (fee_amount protocol_fee_rate fund_fee_rate : Z) :
    Result SwapState :=
  let! '(pf, remaining_fee) :=
    if 0 <? protocol_fee_rate then
      let! d := fee_share fee_amount protocol_fee_rate in
      let! pf := ok_or (ucheck 64 (protocol_fee self + d)) CalculateOverflow in
      let! r := ok_or (ucheck 64 (fee_amount - d)) CalculateOverflow in
      Ok (pf, r)
    else Ok (protocol_fee self, fee_amount) in
  let! '(ff, remaining_fee) :=
    if 0 <? fund_fee_rate then
      let! d := fee_share fee_amount fund_fee_rate in
      let! ff := ok_or (ucheck 64 (fund_fee self + d)) CalculateOverflow in
      let! r := ok_or (ucheck 64 (remaining_fee - d)) CalculateOverflow in
      Ok (ff, r)
    else Ok (fund_fee self, remaining_fee) in
  if 0 <? st_liquidity self then
    let! d := or_overflow (mul_div_floor_u128 remaining_fee Q64 (st_liquidity self)) in
    let! delta := big_u128 d in
    let! lp := ok_or (ucheck 64 (lp_fee self + remaining_fee)) CalculateOverflow in
    Ok (set_fees self (uwrap 128 (st_fee_growth_global_x64 self + delta)) lp pf ff)
  else
    let! pf := ok_or (ucheck 64 (pf + remaining_fee)) CalculateOverflow in
    Ok (set_fees self (st_fee_growth_global_x64 self) (lp_fee self) pf ff).

Definition apply_swap_amounts (self : SwapState) (amount_in amount_out fee_amount : Z)
    (is_base_input is_fee_on_input : bool) (protocol_fee_rate fund_fee_rate : Z) : Result SwapState :=
  let! amount_in_consumed :=
    if is_fee_on_input then ok_or (ucheck 64 (amount_in + fee_amount)) CalculateOverflow
    else Ok amount_in in
  let! self :=
    if is_base_input then
      let! r := ok_or (ucheck 64 (amount_specified_remaining self - amount_in_consumed)) CalculateOverflow in
      let! c := ok_or (ucheck 64 (amount_calculated self + amount_out)) CalculateOverflow in
      Ok (set_amounts self r c)
    else
      let! r := ok_or (ucheck 64 (amount_specified_remaining self - amount_out)) CalculateOverflow in
      let! c := ok_or (ucheck 64 (amount_calculated self + amount_in_consumed)) CalculateOverflow in
      Ok (set_amounts self r c) in
  spilt_fees self fee_amount protocol_fee_rate fund_fee_rate.

(** [(amount_0, amount_1, trade_fee_0, trade_fee_1)] *)
Definition settle_amounts (self : SwapState) (amount_specified : Z)
    (zero_for_one is_base_input fee_on_token0 : bool) : Result (Z * Z * Z * Z) :=
  let! consumed := ok_or (ucheck 64 (amount_specified - amount_specified_remaining self)) CalculateOverflow in
  let '(amount_0, amount_1) :=
    if eqb zero_for_one is_base_input then (consumed, amount_calculated self)
    else (amount_calculated self, consumed) in
  let! t := ok_or (ucheck 64 (lp_fee self + protocol_fee self)) CalculateOverflow in
  let! total_trade_fee := ok_or (ucheck 64 (t + fund_fee self)) CalculateOverflow in
  let '(trade_fee_0, trade_fee_1) :=
    if fee_on_token0 : bool then (total_trade_fee, 0) else (0, total_trade_fee) in
  Ok (amount_0, amount_1, trade_fee_0, trade_fee_1).

Definition get_target_price_based_on_next_tick (self : SwapState) (t : Z) (zero_for_one : bool)
    (sqrt_price_limit_x64 : Z) : Result (Z * SwapState) :=
  let t := if t <? MIN_TICK then MIN_TICK else if MAX_TICK <? t then MAX_TICK else t in
  let! price_next := get_sqrt_price_at_tick t in
  let self := set_next self price_next t in
  let target_price :=
    if (zero_for_one && (price_next <? sqrt_price_limit_x64))
       || (negb zero_for_one && (sqrt_price_limit_x64 <? price_next))
    then sqrt_price_limit_x64 else price_next in
  do! if zero_for_one then
        do! require_gte (st_tick self) t in
        do! require_gte (st_sqrt_price_x64 self) price_next in
        require_gte (st_sqrt_price_x64 self) target_price
      else
        do! require_gt t (st_tick self) in
        do! require_gte price_next (st_sqrt_price_x64 self) in
        require_gte target_price (st_sqrt_price_x64 self) in
  Ok (target_price, self).

(** [SwapState::update_volatility_accumulator] *)
Definition swap_update_volatility_accumulator (self : SwapState) : Result SwapState :=
  match st_dynamic_fee_info self with
  | Some info =>
      let! info := update_volatility_accumulator info (st_tick_spacing_index self) in
      Ok (set_st_dynamic self (Some info))
  | None => Ok self
  end.

Definition update_dynamic_fee_index (self : SwapState) (zero_for_one is_skipped_tick_spacing : bool) :
    Result SwapState :=
  match st_dynamic_fee_info self with
  | Some info =>
      let! self :=
        if is_skipped_tick_spacing then
          let tick_index :=
            if st_sqrt_price_x64 self =? st_sqrt_price_next_x64 self then tick_next self
            else st_tick self in
          let! i := tick_spacing_index_from_tick tick_index (st_tick_spacing self) in
          let! i :=
            if negb zero_for_one then
              let! r := irem 32 tick_index (st_tick_spacing self) in
              if r =? 0 then ichk 32 (i - 1) else Ok i
            else Ok i in
          let self := set_spacing_index self i in
          if negb (volatility_accumulator info =? max_volatility_accumulator info)
          then swap_update_volatility_accumulator self else Ok self
        else Ok self in
      let! i := ichk 32 (st_tick_spacing_index self + (if zero_for_one then -1 else 1)) in
      Ok (set_spacing_index self i)
  | None => Ok self
  end.

Definition update_volatility_accumulator_on_price (self : SwapState) : Result SwapState :=
  match st_dynamic_fee_info self with
  | Some _ =>
      let! tick_index := get_tick_at_sqrt_price (st_sqrt_price_x64 self) in
      let! final := tick_spacing_index_from_tick tick_index (st_tick_spacing self) in
      if negb (st_tick_spacing_index self =? final) then
        swap_update_volatility_accumulator (set_spacing_index self final)
      else Ok self
  | None => Ok self
  end.

(** [(is_skipped_tick_spacing, bounded_price)] *)
Definition get_spacing_bounded_price (self : SwapState) (target_price : Z) (zero_for_one : bool) :
    Result (bool * Z) :=
  match st_dynamic_fee_info self with
  | Some info =>
      if (st_liquidity self =? 0) || (volatility_accumulator info =? max_volatility_accumulator info)
      then Ok (true, target_price)
      else
        let bounded_tick :=
          if zero_for_one then isat 32 (st_tick_spacing_index self * st_tick_spacing self)
          else isat 32 (isat 32 (st_tick_spacing_index self + 1) * st_tick_spacing self) in
        let! bounded_sqrt_price :=
          get_sqrt_price_at_tick (Z.max MIN_TICK (Z.min bounded_tick MAX_TICK)) in
        if zero_for_one then Ok (false, Z.max target_price bounded_sqrt_price)
        else Ok (false, Z.min target_price bounded_sqrt_price)
  | None => Ok (true, target_price)
  end.

(** [SwapState::get_total_fee_rate] *)
Definition swap_get_total_fee_rate (self : SwapState) : Result Z :=
  get_total_fee_rate (st_dynamic_fee_info self) (base_fee_rate self) (st_tick_spacing self).
End SwapState.

(** * The split of a fee *)

(** All the fees a swap has charged so far. *)
Definition fees_charged (s : SwapState) : Z := lp_fee s + protocol_fee s + fund_fee s.

(** The machine ranges of the running state. *)
Record swap_state_ok (s : SwapState) : Prop := {
  ss_remaining : in_u 64 (amount_specified_remaining s);
  ss_calculated : in_u 64 (amount_calculated s);
  ss_growth : in_u 128 (st_fee_growth_global_x64 s);
  ss_lp : in_u 64 (lp_fee s);
  ss_protocol : in_u 64 (protocol_fee s);
  ss_fund : in_u 64 (fund_fee s);
  ss_liquidity : in_u 128 (st_liquidity s);
}.

Section SplitLemmas.
Context {U : UintLib}.

Local Abbreviation D := FEE_RATE_DENOMINATOR_VALUE.

Lemma fee_share_Ok fee rate d :
  0 <= fee -> 0 <= rate -> fee_share fee rate = Ok d -> d = fee * rate / D /\ 0 <= d.
Proof.
  intros Hf Hr H. unfold fee_share in H. rewrite uint_checked_mul_law in H.
  apply obind_Ok in H as (m & [-> _]%ok_or_Ok%ucheck_Some & H).
  rewrite uint_checked_div_law in H.
  apply obind_Ok in H as (q & [_ ->]%ok_or_Ok%checked_udiv_Some & H).
  apply big_u64_Ok in H as [-> H]. split; [done|]. apply H.
Qed.

(** What [spilt_fees] does to the four accumulators, given the shares. *)
Lemma spilt_fees_Ok s fee pr fr s' :
  swap_state_ok s -> in_u 64 fee -> 0 <= pr -> 0 <= fr ->
  spilt_fees s fee pr fr = Ok s' ->
  let dp := fee * pr / D in
  let df := fee * fr / D in
  let rest := fee - dp - df in
  0 <= dp /\ 0 <= df /\ 0 <= rest /\
  fund_fee s' = fund_fee s + df /\
  (if 0 <? st_liquidity s then
     protocol_fee s' = protocol_fee s + dp /\ lp_fee s' = lp_fee s + rest /\
     st_fee_growth_global_x64 s' =
       uwrap 128 (st_fee_growth_global_x64 s + rest * 2 ^ 64 / st_liquidity s)
   else
     protocol_fee s' = protocol_fee s + dp + rest /\ lp_fee s' = lp_fee s /\
     st_fee_growth_global_x64 s' = st_fee_growth_global_x64 s) /\
  s' = set_fees s (st_fee_growth_global_x64 s') (lp_fee s') (protocol_fee s') (fund_fee s') /\
  swap_state_ok s'.
Proof.
  intros Hok Hfee Hpr Hfr H. pose proof Hok as []. unfold spilt_fees in H.
  apply obind_Ok in H as ([pf r1] & Hp & H). apply obind_Ok in H as ([ff r2] & Hf & H).
  assert (pf = protocol_fee s + fee * pr / D /\ r1 = fee - fee * pr / D /\
          0 <= fee * pr / D /\ 0 <= r1 /\ in_u 64 pf) as (-> & -> & Hdp & Hr1 & Hpf).
  { destruct (Z.ltb_spec 0 pr).
    - apply obind_Ok in Hp as (d & [-> Hd]%fee_share_Ok & Hp); [|range|lia].
      apply obind_Ok in Hp as (x & [-> Hx]%ok_or_Ok%ucheck_Some & Hp).
      apply obind_Ok in Hp as (y & [-> Hy]%ok_or_Ok%ucheck_Some & Hp).
      injection Hp as <- <-. range.
    - assert (pr = 0) as -> by lia. injection Hp as <- <-. rewrite Z.mul_0_r, Z.div_0_l by done. range. }
  assert (ff = fund_fee s + fee * fr / D /\ r2 = fee - fee * pr / D - fee * fr / D /\
          0 <= fee * fr / D /\ 0 <= r2 /\ in_u 64 ff) as (-> & -> & Hdf & Hr2 & Hff).
  { destruct (Z.ltb_spec 0 fr).
    - apply obind_Ok in Hf as (d & [-> Hd]%fee_share_Ok & Hf); [|range|lia].
      apply obind_Ok in Hf as (x & [-> Hx]%ok_or_Ok%ucheck_Some & Hf).
      apply obind_Ok in Hf as (y & [-> Hy]%ok_or_Ok%ucheck_Some & Hf).
      injection Hf as <- <-. range.
    - assert (fr = 0) as -> by lia. injection Hf as <- <-. rewrite Z.mul_0_r, Z.div_0_l by done. range. }
  cbn zeta. set (rest := fee - fee * pr / D - fee * fr / D) in *.
  split; [done|]. split; [done|]. split; [done|].
  destruct (Z.ltb_spec 0 (st_liquidity s)) as [Hl|Hl].
  - apply obind_Ok in H as (d & Hd & H). apply obind_Ok in H as (delta & [-> Hdelta]%big_u128_Ok & H).
    apply obind_Ok in H as (lp & [-> Hlp]%ok_or_Ok%ucheck_Some & [= <-]).
    assert (in_u 128 rest) by range. assert (in_u 128 Q64) by by_compute.
    rewrite or_overflow_Ok in Hd. unfold mul_div_floor_u128 in Hd.
    rewrite mul_div_floor_big_spec in Hd by (done || lia).
    destruct (Z.eqb_spec (st_liquidity s) 0); [lia|]. injection Hd as Hd.
    apply ucheck_Some in Hd as [-> _]. cbn. change Q64 with (2 ^ 64).
    split_and!; try done. constructor; cbn; first [done | by apply uwrap_in].
  - apply obind_Ok in H as (pf & [-> Hpf']%ok_or_Ok%ucheck_Some & [= <-]). cbn.
    split_and!; done.
Qed.

(** What [apply_swap_amounts] does to the amounts. *)
Lemma apply_swap_amounts_Ok s ai ao fee (base i : bool) pr fr s' :
  swap_state_ok s -> in_u 64 ai -> in_u 64 ao -> in_u 64 fee -> 0 <= pr -> 0 <= fr ->
  apply_swap_amounts s ai ao fee base i pr fr = Ok s' ->
  let spent := ai + (if i then fee else 0) in
  (if base then
     amount_specified_remaining s' = amount_specified_remaining s - spent /\
     amount_calculated s' = amount_calculated s + ao
   else
     amount_specified_remaining s' = amount_specified_remaining s - ao /\
     amount_calculated s' = amount_calculated s + spent) /\
  fees_charged s' = fees_charged s + fee /\
  s' = set_fees (set_amounts s (amount_specified_remaining s') (amount_calculated s'))
         (st_fee_growth_global_x64 s') (lp_fee s') (protocol_fee s') (fund_fee s') /\
  swap_state_ok s'.
Proof.
  intros Hok Hai Hao Hfee Hpr Hfr H. unfold apply_swap_amounts in H. cbn zeta.
  apply obind_Ok in H as (spent & Hsp & H). apply obind_Ok in H as (s1 & Hs1 & H).
  assert (spent = ai + (if i then fee else 0)) as ->.
  { destruct i; [by apply ok_or_Ok, ucheck_Some in Hsp as [-> _]|]. injection Hsp as <-. lia. }
  set (sp := ai + (if i then fee else 0)) in *.
  assert (swap_state_ok s1 /\
    s1 = set_amounts s (amount_specified_remaining s1) (amount_calculated s1) /\
    if base then amount_specified_remaining s1 = amount_specified_remaining s - sp /\
                 amount_calculated s1 = amount_calculated s + ao
    else amount_specified_remaining s1 = amount_specified_remaining s - ao /\
         amount_calculated s1 = amount_calculated s + sp) as (Hok1 & Hs & Hr).
  { destruct Hok. destruct base;
      apply obind_Ok in Hs1 as (x & [-> Hx]%ok_or_Ok%ucheck_Some & Hs1);
      apply obind_Ok in Hs1 as (y & [-> Hy]%ok_or_Ok%ucheck_Some & [= <-]);
      cbn; (split; [by constructor|]); by split_and!. }
  apply spilt_fees_Ok in H as (Hdp & Hdf & Hrest & Hf & Hl & Heq & Hok'); [|done..].
  rewrite Heq. cbn. split; [done|]. split; [|split; [|by rewrite Heq in Hok']].
  - unfold fees_charged. cbn. rewrite Hf. rewrite Hs in *. cbn in *.
    destruct (0 <? st_liquidity s); destruct Hl as (-> & -> & _); lia.
  - rewrite Hs at 1. done.
Qed.
End SplitLemmas.

Section Properties.
Context {U : UintLib}.

Local Abbreviation D := FEE_RATE_DENOMINATOR_VALUE.

(** A fee is split without loss: of a fee charged in a step, the
    protocol and the fund take their rates of it, rounded down, and the rest
    goes to the liquidity providers, or to the protocol when there is no
    liquidity in range; the three shares add up to the fee exactly, and the
    growth credited per unit of liquidity is the largest that the providers'
    share backs, so what liquidity can later claim never exceeds it. *)
Theorem fee_split_conserves s fee pr fr s' :
  swap_state_ok s -> in_u 64 fee -> 0 <= pr -> 0 <= fr ->
  spilt_fees s fee pr fr = Ok s' ->
  fees_charged s' = fees_charged s + fee /\
  fund_fee s' - fund_fee s = fee * fr / D /\
  (if 0 <? st_liquidity s then
     protocol_fee s' - protocol_fee s = fee * pr / D /\
     exists g, st_fee_growth_global_x64 s' = uwrap 128 (st_fee_growth_global_x64 s + g) /\
       g * st_liquidity s <= (lp_fee s' - lp_fee s) * 2 ^ 64 < (g + 1) * st_liquidity s
   else
     lp_fee s' = lp_fee s /\ st_fee_growth_global_x64 s' = st_fee_growth_global_x64 s) /\
  amount_specified_remaining s' = amount_specified_remaining s /\
  amount_calculated s' = amount_calculated s /\
  st_sqrt_price_x64 s' = st_sqrt_price_x64 s /\ st_liquidity s' = st_liquidity s.
Proof.
  intros Hok Hfee Hpr Hfr H.
  apply spilt_fees_Ok in H as (Hdp & Hdf & Hrest & Hf & Hl & Heq & _); [|done..].
  unfold fees_charged. rewrite Hf. split.
  { destruct (0 <? st_liquidity s); destruct Hl as (-> & -> & _); lia. }
  split; [lia|]. split; [|rewrite Heq; done].
  destruct (Z.ltb_spec 0 (st_liquidity s)) as [Hpos|]; [|by destruct Hl as (_ & -> & ->)].
  destruct Hl as (-> & -> & ->). split; [lia|]. eexists. split; [done|].
  set (rest := fee - _ - _) in *. replace (lp_fee s + rest - lp_fee s) with rest by lia.
  pose proof (zfloor_bounds (rest * 2 ^ 64) (st_liquidity s) Hpos). lia.
Qed.
End Properties.

Definition sample_swap_state : SwapState :=
  mkSwapState 1000 0 (2 ^ 64) 0 0 0 0 0 1000000 0 0 10 2500 0 None.

Lemma fee_split_conserves_witness :
  exists s', spilt_fees (U := uint_std) sample_swap_state 100 120000 40000 = Ok s' /\
    fees_charged s' = 0 + 100.
Proof.
  eexists. split; [vm_compute; reflexivity|].
  eapply (fee_split_conserves (U := uint_std) sample_swap_state 100 120000 40000).
  - constructor; by_compute.
  - by_compute.
  - discriminate.
  - discriminate.
  - vm_compute. reflexivity.
Defined.
