(* ===== verification/SwapLoop.v ===== *)
(** [swap_internal] of [instructions/swap.rs]: the swap loop over the
    initialized ticks, the inner loop that moves the price to the next of them,
    and the checks around them.  The instructions around it are in [Swap].

    The two loops have no static bound; they are modelled with fuel, [None]
    meaning that the fuel ran out.  The tick-array accounts passed in are a
    list: the current one, those still to come, and those already popped (whose
    state stays in the accounts).  The pool's key and the key of its bitmap
    extension are parameters.  Logging, events and the token transfers
    themselves are not modelled; the amounts to transfer are returned. *)
From S2P Require Import Prelude.
From S2P Require Import AmmError.
From S2P Require Import BigNum.
From S2P Require Import FullMath.
From S2P Require Import Config.
From S2P Require Import TickMath.
From S2P Require Import TickOfPrice.
From S2P Require Import LiquidityMath.
From S2P Require Import SwapMath.
From S2P Require Import TickIndex.
From S2P Require Import BitmapExtension.
From S2P Require Import DynamicFee.
From S2P Require Import Oracle.
From S2P Require Import Rewards.
From S2P Require Import TickState.
From S2P Require Import TickArray.
From S2P Require Import Pool.
From S2P Require Import PoolBitmap.
From S2P Require Import SwapState.

(** The mutable locals of [swap_internal], with the accounts it writes. *)
Record SwapEnv := mkSwapEnv {
  sl_state : SwapState;
  sl_pool : PoolState;
  sl_ext : option (Pubkey * TickArrayBitmapExtension);
  sl_current : TickArrayState;
  sl_rest : list TickArrayState;
  sl_done : list TickArrayState;
  sl_start : Z;
  sl_first_contains : bool;
}.

(** Field updates. *)
Definition set_sl_state (e : SwapEnv) (v : SwapState) : SwapEnv :=
  mkSwapEnv v (sl_pool e) (sl_ext e) (sl_current e) (sl_rest e) (sl_done e) (sl_start e)
    (sl_first_contains e).
Definition set_sl_pool (e : SwapEnv) (v : PoolState) (x : option (Pubkey * TickArrayBitmapExtension)) : SwapEnv :=
  mkSwapEnv (sl_state e) v x (sl_current e) (sl_rest e) (sl_done e) (sl_start e)
    (sl_first_contains e).
Definition set_sl_arrays (e : SwapEnv) (c : TickArrayState) (rest : list TickArrayState) (done : list TickArrayState) : SwapEnv :=
  mkSwapEnv (sl_state e) (sl_pool e) (sl_ext e) c rest done (sl_start e) (sl_first_contains e).
Definition set_sl_start (e : SwapEnv) v : SwapEnv :=
  mkSwapEnv (sl_state e) (sl_pool e) (sl_ext e) (sl_current e) (sl_rest e) (sl_done e) v
    (sl_first_contains e).
Definition set_sl_first (e : SwapEnv) (v : bool) : SwapEnv :=
  mkSwapEnv (sl_state e) (sl_pool e) (sl_ext e) (sl_current e) (sl_rest e) (sl_done e)
    (sl_start e) v.

(** [SwapInternalResult] *)
Record SwapInternalResult := mkSwapInternalResult {
  r_amount_0 : Z;
  r_amount_1 : Z;
  r_trade_fee_0 : Z;
  r_trade_fee_1 : Z;
  r_sqrt_price_x64 : Z;
  r_liquidity : Z;
  r_tick : Z;
}.

(** The arguments that stay fixed during the loop. *)
Record SwapArgs := mkSwapArgs {
  sa_pool_key : Pubkey;
  sa_ext_key : Pubkey;
  sa_config : AmmConfig;
  sa_limit : Z;
  sa_zero_for_one : bool;
  sa_is_base_input : bool;
  sa_is_fee_on_input : bool;
  sa_rewards : list RewardInfo;
}.

Section SwapLoop.
Context {U : UintLib} (a : SwapArgs).

Local Abbreviation zero_for_one := (sa_zero_for_one a).
Local Abbreviation is_base_input := (sa_is_base_input a).
Local Abbreviation is_fee_on_input := (sa_is_fee_on_input a).

(** [while tick_array_current.start_tick_index != next { pop_front }] *)
Fixpoint advance_to (next : Z) (c : TickArrayState) (rest done : list TickArrayState) :
    Result (TickArrayState * list TickArrayState * list TickArrayState) :=
  if start_tick_index c =? next then Ok (c, rest, done)
  else
    match rest with
    | [] => err NotEnoughTickArrayAccount
    | c' :: rest =>
        do! require_keys_eq (ta_pool_id c') (sa_pool_key a) in
        advance_to next c' rest (done ++ [c])
    end.

(** The next initialized tick, in the current array or the next one. *)
Definition find_next_tick (e : SwapEnv) : run error (TickState * SwapEnv) :=
  let cur := sl_current e in
  let? o := lift (next_initialized_tick cur (st_tick (sl_state e))
                    (pool_tick_spacing (sl_pool e)) zero_for_one) in
  match o with
  | Some i => let? t := lift (idx (ticks cur) i) in Some (Ok (t, e))
  | None =>
      if negb (sl_first_contains e) then
        let? i := lift (first_initialized_tick cur zero_for_one) in
        let? t := lift (idx (ticks cur) i) in
        Some (Ok (t, set_sl_first e true))
      else
        let? o := pool_next_initialized_tick_array_start_index (sl_pool e) (snd <$> sl_ext e)
                    (sl_start e) zero_for_one in
        let? next := lift (ok_or o LiquidityInsufficient) in
        let? '(c, rest, done) := lift (advance_to next cur (sl_rest e) (sl_done e)) in
        let e := set_sl_start (set_sl_arrays e c rest done) next in
        let? i := lift (first_initialized_tick c zero_for_one) in
        let? t := lift (idx (ticks c) i) in
        Some (Ok (t, e))
  end.

(** The trade against the pool's liquidity, up to [bounded_price]. *)
Definition trade_on_curve (s : SwapState) (bounded_price total_fee_rate : Z) :
    Result (Z * SwapState) :=
  if negb (st_sqrt_price_x64 s =? bounded_price) then
    let! r := compute_swap (st_sqrt_price_x64 s) bounded_price (st_liquidity s)
                (amount_specified_remaining s) total_fee_rate is_base_input zero_for_one
                is_fee_on_input in
    let! s := apply_swap_amounts s (amount_in r) (amount_out r) (fee_amount r) is_base_input
                is_fee_on_input (protocol_fee_rate (sa_config a)) (fund_fee_rate (sa_config a)) in
    Ok (sqrt_price_next_x64 r, s)
  else Ok (bounded_price, s).

(** The trade against the limit orders of the tick reached. *)
Definition trade_on_orders (s : SwapState) (t : TickState) (total_fee_rate : Z) :
    Result (SwapState * TickState) :=
  let! '(r, t) := match_limit_order t (amount_specified_remaining s) zero_for_one is_base_input
                    total_fee_rate is_fee_on_input in
  let! s :=
    if 0 <? lo_amount_in r then
      apply_swap_amounts s (lo_amount_in r) (lo_amount_out r) (lo_amm_fee_amount r) is_base_input
        is_fee_on_input (protocol_fee_rate (sa_config a)) (fund_fee_rate (sa_config a))
    else Ok s in
  Ok (s, t).

(** The array's bookkeeping when its tick has become uninitialized. *)
Definition drop_tick (e : SwapEnv) (t : TickState) : Result SwapEnv :=
  if negb (is_initialized t) then
    let! c := update_initialized_tick_count (sl_current e) false in
    let e := set_sl_arrays e c (sl_rest e) (sl_done e) in
    if initialized_tick_count c =? 0 then
      let! '(p, x) := pool_flip_tick_array_bit (sl_pool e) (sa_ext_key a) (sl_ext e)
                        (start_tick_index c) in
      Ok (set_sl_pool e p x)
    else Ok e
  else Ok e.

(** Crossing the tick: the liquidity beyond it and its growth. *)
Definition cross_tick (e : SwapEnv) (t : TickState) (liquidity_next : Z) : Result (TickState * Z) :=
  let s := sl_state e in
  let p := sl_pool e in
  if has_liquidity t && negb (has_limit_orders t) then
    let fee_on_token0 := is_fee_on_token0 p zero_for_one in
    let '(liquidity_net, t) :=
      tick_cross t
        (if fee_on_token0 then st_fee_growth_global_x64 s else fee_growth_global_0_x64 p)
        (if fee_on_token0 then fee_growth_global_1_x64 p else st_fee_growth_global_x64 s)
        (sa_rewards a) in
    let! liquidity_net := if zero_for_one then ichk 128 (- liquidity_net) else Ok liquidity_net in
    let! l := add_delta (st_liquidity s) liquidity_net in
    Ok (t, l)
  else Ok (t, liquidity_next).

(** Everything done on arriving at the next tick. *)
Definition arrive_at_tick (e : SwapEnv) (t : TickState) (liquidity_next total_fee_rate : Z) :
    Result (SwapEnv * TickState * Z) :=
  let! '(s, t) := trade_on_orders (sl_state e) t total_fee_rate in
  let! e := drop_tick (set_sl_state e s) t in
  let! '(t, liquidity_next) := cross_tick e t liquidity_next in
  let! c := update_tick_state (sl_current e) (tick t) (pool_tick_spacing (sl_pool e)) t in
  let e := set_sl_arrays e c (sl_rest e) (sl_done e) in
  let s := sl_state e in
  let! new_tick :=
    if (zero_for_one && negb (has_limit_orders t)) || (negb zero_for_one && has_limit_orders t)
    then ichk 32 (tick_next s - 1) else Ok (tick_next s) in
  Ok (set_sl_state e (set_st_tick s new_tick), t, liquidity_next).

(** The body of the inner loop; the flag says whether it breaks. *)
Definition inner_step (target_price : Z) (e : SwapEnv) (t : TickState) (liquidity_next : Z) :
    Result (bool * SwapEnv * TickState * Z) :=
  let! s := swap_update_volatility_accumulator (sl_state e) in
  let! total_fee_rate := swap_get_total_fee_rate s in
  let! '(is_skipped_tick_spacing, bounded_price) :=
    get_spacing_bounded_price s target_price zero_for_one in
  let! '(price, s) := trade_on_curve s bounded_price total_fee_rate in
  let e := set_sl_state e s in
  let! before := limit_order_unfilled_amount t in
  let! '(e, t, liquidity_next) :=
    if st_sqrt_price_next_x64 s =? price then arrive_at_tick e t liquidity_next total_fee_rate
    else if negb (st_sqrt_price_x64 s =? price) then
      let! new_tick := get_tick_at_sqrt_price price in
      Ok (set_sl_state e (set_st_tick s new_tick), t, liquidity_next)
    else Ok (e, t, liquidity_next) in
  let s := set_st_price (sl_state e) price in
  let e := set_sl_state e s in
  if (amount_specified_remaining s =? 0) || (st_sqrt_price_x64 s =? target_price) then
    let! after := limit_order_unfilled_amount t in
    do! if negb (amount_specified_remaining s =? 0) && negb (after =? before)
        then require_eq after 0 else Ok tt in
    Ok (true, e, t, liquidity_next)
  else
    let! s := update_dynamic_fee_index s zero_for_one is_skipped_tick_spacing in
    Ok (false, set_sl_state e s, t, liquidity_next).

Fixpoint inner_loop (fuel : nat) (target_price : Z) (e : SwapEnv) (t : TickState) (liquidity_next : Z) :
    run error (SwapEnv * Z) :=
  match fuel with
  | O => None
  | S fuel =>
      let? '(break, e, t, liquidity_next) := lift (inner_step target_price e t liquidity_next) in
      if break : bool then Some (Ok (e, liquidity_next))
      else inner_loop fuel target_price e t liquidity_next
  end.

(** One round of the outer loop. *)
Definition outer_step (fuel : nat) (e : SwapEnv) : run error SwapEnv :=
  let? '(t, e) := find_next_tick e in
  let? _ := lift (require (Bool.eqb (is_initialized t) true) RequireEqViolated) in
  let? '(target_price, s) :=
    lift (get_target_price_based_on_next_tick (sl_state e) (tick t) zero_for_one (sa_limit a)) in
  let? '(e, liquidity_next) := inner_loop fuel target_price (set_sl_state e s) t (st_liquidity s) in
  Some (Ok (set_sl_state e (set_st_liquidity (sl_state e) liquidity_next))).

Definition swap_running (s : SwapState) : bool :=
  negb (amount_specified_remaining s =? 0) && negb (st_sqrt_price_x64 s =? sa_limit a).

Fixpoint outer_loop (fuel : nat) (e : SwapEnv) : run error SwapEnv :=
  if swap_running (sl_state e) then
    match fuel with
    | O => None
    | S fuel' => let? e := outer_step fuel e in outer_loop fuel' e
    end
  else Some (Ok e).
End SwapLoop.

(** The first array: pop until the start matches or none is left. *)
Fixpoint find_first_array (start : Z) (c : TickArrayState) (rest done : list TickArrayState) :
    TickArrayState * list TickArrayState * list TickArrayState :=
  if start_tick_index c =? start then (c, rest, done)
  else
    match rest with
    | [] => (c, [], done)
    | c' :: rest => find_first_array start c' rest (done ++ [c])
    end.

Section SwapInternal.
Context {U : UintLib}.

(** [swap_internal]: the result, and the accounts it has written. *)
Definition swap_internal (fuel : nat) (pool_key ext_key : Pubkey) (amm_config : AmmConfig)
    (pool_state : PoolState) (tick_array_states : list TickArrayState)
    (observation_state : ObservationState) (ext : option (Pubkey * TickArrayBitmapExtension))
    (amount_specified sqrt_price_limit_x64 : Z) (zero_for_one is_base_input : bool)
    (timestamp : Z) :
    run error (SwapInternalResult * PoolState * list TickArrayState * ObservationState *
               option (Pubkey * TickArrayBitmapExtension)) :=
  let? _ := lift (require (negb (amount_specified =? 0)) ZeroAmountSpecified) in
  let? _ := lift (require (get_status_by_bit pool_state Swap) NotApproved) in
  let? _ := lift (require
    (if zero_for_one then
       (sqrt_price_limit_x64 <? sqrt_price_x64 pool_state)
       && (MIN_SQRT_PRICE_X64 <? sqrt_price_limit_x64)
     else (sqrt_price_x64 pool_state <? sqrt_price_limit_x64)
          && (sqrt_price_limit_x64 <? MAX_SQRT_PRICE_X64)) SqrtPriceLimitOverflow) in
  let? '(updated_reward_infos, pool_state) := lift (pool_update_reward_infos pool_state timestamp) in
  let? _ := lift (require_keys_eq (obs_pool_id observation_state) pool_key) in
  let? '(first_contains, start) :=
    get_first_initialized_tick_array pool_state (snd <$> ext) zero_for_one in
  let? '(c, rest) := lift (match tick_array_states with
                           | [] => err NotEnoughTickArrayAccount
                           | c :: rest => Ok (c, rest)
                           end) in
  let '(c, rest, done) := find_first_array start c rest [] in
  let? _ := lift (require_keys_eq (ta_pool_id c) pool_key) in
  let? _ := lift (require (start_tick_index c =? start) InvalidFirstTickArrayAccount) in
  let fee_on_input := is_fee_on_input pool_state zero_for_one in
  let? state := lift (swap_state_new pool_state amount_specified (trade_fee_rate amm_config)
                        zero_for_one timestamp) in
  let a := mkSwapArgs pool_key ext_key amm_config sqrt_price_limit_x64 zero_for_one is_base_input
             fee_on_input updated_reward_infos in
  let? e := outer_loop a fuel (mkSwapEnv state pool_state ext c rest done start first_contains) in
  let? state := lift (update_volatility_accumulator_on_price (sl_state e)) in
  let pool_state := sl_pool e in
  let? observation_state :=
    lift (if negb (st_tick state =? tick_current pool_state)
          then observation_update observation_state timestamp (tick_current pool_state)
          else Ok observation_state) in
  let? '(amount_0, amount_1, trade_fee_0, trade_fee_1) :=
    lift (settle_amounts state amount_specified zero_for_one is_base_input
            (is_fee_on_token0 pool_state zero_for_one)) in
  let? pool_state :=
    lift (update_after_swap pool_state (st_tick state) (st_sqrt_price_x64 state) (st_liquidity state)
            (lp_fee state) (protocol_fee state) (fund_fee state) (st_fee_growth_global_x64 state)
            zero_for_one (st_dynamic_fee_info state)) in
  Some (Ok (mkSwapInternalResult amount_0 amount_1 trade_fee_0 trade_fee_1
              (sqrt_price_x64 pool_state) (liquidity pool_state) (tick_current pool_state),
            pool_state, sl_done e ++ sl_current e :: sl_rest e, observation_state, sl_ext e)).
End SwapInternal.
