(* ===== verification/Swap.v ===== *)
(** The swap instructions: [exact_internal] and [swap] of
    [instructions/swap.rs], [exact_internal_v2] and [swap_v2] of
    [instructions/swap_v2.rs].

    The balances of the token accounts are a function of their keys, and the
    token programs a parameter that says what a transfer does to them; an
    instruction returns the accounts it leaves behind.  The accounts passed
    besides the named ones are a list of what they hold: the bitmap extension
    of the pool, a tick array, an account that may be the configuration of the
    sweep, or an account of another size.  Events and the log are not
    modelled. *)
From S2P Require Import Prelude.
From S2P Require Import AmmError.
From S2P Require Import BigNum.
From S2P Require Import FullMath.
From S2P Require Import Config.
From S2P Require Import TickMath.
From S2P Require Import BitmapExtension.
From S2P Require Import Oracle.
From S2P Require Import TickState.
From S2P Require Import TickArray.
From S2P Require Import Token.
From S2P Require Import Pool.
From S2P Require Import Shield.
From S2P Require Import SwapState.
From S2P Require Import SwapLoop.

(** What each token account holds. *)
Definition balances : Type := Pubkey -> Z.

(** The token programs: the transfer a call asks for, on the accounts'
    balances; the mint is passed to the calls that support Token-2022. *)
Class TokenProgram := { token_transfer : option Mint -> Transfer -> balances -> Result balances }.

(** [transfer_from_user_to_pool_vault] and [transfer_from_pool_vault_to_user]. *)
Definition pay {P : TokenProgram} (m : option Mint) (from to : Pubkey) (amount : Z) (b : balances) :
    Result balances :=
  if amount =? 0 then Ok b else token_transfer m (mkTransfer from to amount) b.

(** The accounts of [SwapSingle] and of [SwapSingleV2]; a vault's mint is the
    field of its token account, the mint accounts are those of the second. *)
Record SwapSingle := mkSwapSingle {
  sw_config_key : Pubkey;
  sw_config : AmmConfig;
  sw_observation_key : Pubkey;
  input_token_account : Pubkey;
  output_token_account : Pubkey;
  input_vault : Pubkey;
  input_vault_mint_key : Pubkey;
  output_vault : Pubkey;
  output_vault_mint_key : Pubkey;
  input_vault_mint : Mint;
  output_vault_mint : Mint;
}.

Inductive SwapAccount :=
| ExtensionAccount (e : TickArrayBitmapExtension)
| TickArrayAccount (a : TickArrayState)
| ArbConfigAccount (x : ArbAccount)
| OtherAccount.

(** What a swap leaves behind. *)
Record SwapOutcome := mkSwapOutcome {
  so_amount : Z;
  so_pool : PoolState;
  so_arrays : list TickArrayState;
  so_observation : ObservationState;
  so_extension : option (Pubkey * TickArrayBitmapExtension);
  so_balances : balances;
}.

(** The remaining accounts of [exact_internal]: what is not the extension must
    be a tick array; the last extension counts. *)
Fixpoint collect_accounts (l : list SwapAccount) (ext : option TickArrayBitmapExtension) :
    Result (option TickArrayBitmapExtension * list TickArrayState) :=
  match l with
  | [] => Ok (ext, [])
  | ExtensionAccount e :: l => collect_accounts l (Some e)
  | TickArrayAccount a :: l => let! '(ext, arrays) := collect_accounts l ext in Ok (ext, a :: arrays)
  | _ :: _ => err ConstraintViolated
  end.

(** Those of [exact_internal_v2]: an account of another size ends the list. *)
Fixpoint collect_accounts_v2 (arb_config_pda : Pubkey) (l : list SwapAccount)
    (ext : option TickArrayBitmapExtension) (arb : option ArbAccount) :
    option TickArrayBitmapExtension * option ArbAccount * list TickArrayState :=
  match l with
  | ExtensionAccount e :: l => collect_accounts_v2 arb_config_pda l (Some e) arb
  | TickArrayAccount a :: l =>
      let '(ext, arb, arrays) := collect_accounts_v2 arb_config_pda l ext arb in (ext, arb, a :: arrays)
  | ArbConfigAccount x :: l =>
      if aa_key x =? arb_config_pda then collect_accounts_v2 arb_config_pda l ext (Some x)
      else (ext, arb, [])
  | _ => (ext, arb, [])
  end.

(** The limit a swap without one runs with. *)
Definition effective_limit (zero_for_one : bool) (sqrt_price_limit_x64 : Z) : Z :=
  if sqrt_price_limit_x64 =? 0 then
    if zero_for_one then MIN_SQRT_PRICE_X64 + 1 else MAX_SQRT_PRICE_X64 - 1
  else sqrt_price_limit_x64.

Definition require_swap_vaults (c : SwapSingle) (p : PoolState) (zero_for_one : bool) : Result unit :=
  require
    (if zero_for_one then (input_vault c =? token_vault_0 p) && (output_vault c =? token_vault_1 p)
     else (input_vault c =? token_vault_1 p) && (output_vault c =? token_vault_0 p)) InvalidInputPoolVault.

(** The amounts of a result, by the direction of the swap. *)
Definition input_amount (r : SwapInternalResult) (zero_for_one : bool) : Z :=
  if zero_for_one then r_amount_0 r else r_amount_1 r.
Definition output_amount (r : SwapInternalResult) (zero_for_one : bool) : Z :=
  if zero_for_one then r_amount_1 r else r_amount_0 r.

(** The price does not move against the direction of the swap. *)
Definition require_direction (zero_for_one : bool) (before after : Z) : Result unit :=
  if zero_for_one then require_gte before after else require_gte after before.

Section Swap.
Context {U : UintLib} {T : TokenLib} {P : TokenProgram}.
Context (fuel : nat) (pool_key ext_key : Pubkey).

(** ** [exact_internal] *)

(** The transfers and the checks after the swap. *)
Definition settle_swap (c : SwapSingle) (zero_for_one is_base_input : bool) (amount limit price_before : Z)
    (r : SwapInternalResult) (b : balances) : Result (Z * balances) :=
  do! require (negb (r_amount_0 r =? 0) && negb (r_amount_1 r =? 0)) TooSmallInputOrOutputAmount in
  let amount_in := input_amount r zero_for_one in
  let amount_out := output_amount r zero_for_one in
  let! b1 := pay None (input_token_account c) (input_vault c) amount_in b in
  let! b2 := pay None (output_vault c) (output_token_account c) amount_out b1 in
  do! require_direction zero_for_one price_before (r_sqrt_price_x64 r) in
  do! if limit =? 0 then require_eq amount (if is_base_input then amount_in else amount_out) else Ok tt in
  let! result :=
    ok_or (ucheck 64 (if is_base_input then b (output_vault c) - b2 (output_vault c)
                      else b2 (input_vault c) - b (input_vault c))) CalculateOverflow in
  Ok (result, b2).

Definition exact_internal (c : SwapSingle) (p : PoolState) (tick_array : TickArrayState) (o : ObservationState)
    (remaining : list SwapAccount) (b : balances) (amount limit : Z) (is_base_input : bool) (unix_timestamp : Z) :
    run error SwapOutcome :=
  let zero_for_one := input_vault_mint_key c =? token_mint_0 p in
  let? _ := lift (require_gt (uwrap 64 unix_timestamp) (pool_open_time p)) in
  let? _ := lift (require_swap_vaults c p zero_for_one) in
  let? '(ext, arrays) := lift (collect_accounts remaining None) in
  let? '(r, p', arrays, o, ext) :=
    swap_internal fuel pool_key ext_key (sw_config c) p (tick_array :: arrays) o (pair ext_key <$> ext)
      amount (effective_limit zero_for_one limit) zero_for_one is_base_input (uwrap 32 unix_timestamp) in
  let? '(result, b) := lift (settle_swap c zero_for_one is_base_input amount limit (sqrt_price_x64 p) r b) in
  Some (Ok (mkSwapOutcome result p' arrays o ext b)).

(** The constraints both instructions put on the configuration and the
    observations. *)
Definition require_swap_accounts (c : SwapSingle) (p : PoolState) : Result unit :=
  do! require (sw_config_key c =? amm_config_key p) ConstraintViolated in
  require (sw_observation_key c =? observation_key p) ConstraintViolated.

(** The slippage check of both instructions. *)
Definition check_threshold (is_base_input : bool) (result other_amount_threshold : Z) : Result unit :=
  if is_base_input then require (other_amount_threshold <=? result) TooLittleOutputReceived
  else require (result <=? other_amount_threshold) TooMuchInputPaid.

Definition swap (c : SwapSingle) (p : PoolState) (tick_array : TickArrayState) (o : ObservationState)
    (remaining : list SwapAccount) (b : balances) (amount other_amount_threshold limit : Z)
    (is_base_input : bool) (unix_timestamp : Z) : run error SwapOutcome :=
  let? _ := lift (require_swap_accounts c p) in
  let? _ := lift (require (ta_pool_id tick_array =? pool_key) ConstraintViolated) in
  let? s := exact_internal c p tick_array o remaining b amount limit is_base_input unix_timestamp in
  let? _ := lift (check_threshold is_base_input (so_amount s) other_amount_threshold) in
  Some (Ok s).

(** ** [exact_internal_v2] *)

Context (arb_config_pda program_ID : Pubkey).

(** What the pool is asked for: an exact input includes the transfer fee, an
    exact output does not. *)
Definition specified_amount (c : SwapSingle) (amount : Z) (is_base_input : bool) : Result (Z * Z) :=
  if is_base_input then
    let! fee := get_transfer_fee (input_vault_mint c) amount in
    let! a := uchk 64 (amount - fee) in Ok (a, fee)
  else
    let! fee := get_transfer_inverse_fee (output_vault_mint c) amount in
    let! a := uchk 64 (amount + fee) in Ok (a, fee).

(** The tax is attributed to the input side of the result. *)
Definition add_tax (r : SwapInternalResult) (zero_for_one : bool) (tax : Z) : SwapInternalResult :=
  if 0 <? tax then
    if zero_for_one then
      mkSwapInternalResult (usat 64 (r_amount_0 r + tax)) (r_amount_1 r) (r_trade_fee_0 r) (r_trade_fee_1 r)
        (r_sqrt_price_x64 r) (r_liquidity r) (r_tick r)
    else
      mkSwapInternalResult (r_amount_0 r) (usat 64 (r_amount_1 r + tax)) (r_trade_fee_0 r) (r_trade_fee_1 r)
        (r_sqrt_price_x64 r) (r_liquidity r) (r_tick r)
  else r.

(** The transfer fees on the input and on the output, computed for token 0
    first. *)
Definition swap_transfer_fees (c : SwapSingle) (zero_for_one is_base_input : bool)
    (calculate_specified transfer_fee amount_in amount_out : Z) : Result (Z * Z) :=
  let fee_in :=
    if is_base_input && (amount_in =? calculate_specified) then Ok transfer_fee
    else get_transfer_inverse_fee (input_vault_mint c) amount_in in
  let fee_out := get_transfer_fee (output_vault_mint c) amount_out in
  if zero_for_one then let! i := fee_in in let! o := fee_out in Ok (i, o)
  else let! o := fee_out in let! i := fee_in in Ok (i, o).

Definition settle_swap_v2 (c : SwapSingle) (zero_for_one is_base_input : bool)
    (amount calculate_specified transfer_fee limit price_before : Z) (r : SwapInternalResult) (b : balances) :
    Result (Z * balances) :=
  do! require (negb (r_amount_0 r =? 0) && negb (r_amount_1 r =? 0)) TooSmallInputOrOutputAmount in
  let amount_in := input_amount r zero_for_one in
  let amount_out := output_amount r zero_for_one in
  let! '(fee_in, fee_out) :=
    swap_transfer_fees c zero_for_one is_base_input calculate_specified transfer_fee amount_in amount_out in
  let! _ := ok_or (ucheck 64 (amount_out - fee_out)) CalculateOverflow in
  let! transfer_in := ok_or (ucheck 64 (amount_in + fee_in)) CalculateOverflow in
  let! b1 := pay (Some (input_vault_mint c)) (input_token_account c) (input_vault c) transfer_in b in
  let! b2 := pay (Some (output_vault_mint c)) (output_vault c) (output_token_account c) amount_out b1 in
  do! require_direction zero_for_one price_before (r_sqrt_price_x64 r) in
  do! if limit =? 0 then
        if is_base_input then require_eq amount transfer_in else require_eq calculate_specified amount_out
      else Ok tt in
  let! result :=
    ok_or (ucheck 64 (if is_base_input then b2 (output_token_account c) - b (output_token_account c)
                      else b (input_token_account c) - b2 (input_token_account c))) CalculateOverflow in
  Ok (result, b2).

Definition exact_internal_v2 (c : SwapSingle) (p : PoolState) (o : ObservationState)
    (remaining : list SwapAccount) (last_swap_slot : Z) (b : balances) (amount limit : Z) (is_base_input : bool)
    (slot unix_timestamp : Z) : run error (SwapOutcome * option ArbAccount * Z) :=
  let? '(calculate_specified, transfer_fee) := lift (specified_amount c amount is_base_input) in
  let zero_for_one := input_vault_mint_key c =? token_mint_0 p in
  let? _ := lift (require_gt (uwrap 64 unix_timestamp) last_swap_slot) in
  let? _ := lift (require_swap_vaults c p zero_for_one) in
  let '(ext, arb, arrays) := collect_accounts_v2 arb_config_pda remaining None None in
  let now := uwrap 32 unix_timestamp in
  let? '(p, arb) := lift (try_pre_swap_shield arb_config_pda program_ID p o arb slot now) in
  let? '(tax, p, arb) :=
    lift (if is_base_input
          then try_apply_manipulation_tax arb_config_pda program_ID p o arb now calculate_specified zero_for_one
          else Ok (0, p, arb)) in
  let? '(r, p', arrays, o, ext) :=
    swap_internal fuel pool_key ext_key (sw_config c) p arrays o (pair ext_key <$> ext)
      (usat 64 (calculate_specified - tax)) (effective_limit zero_for_one limit) zero_for_one is_base_input now in
  let? '(result, b) :=
    lift (settle_swap_v2 c zero_for_one is_base_input amount calculate_specified transfer_fee limit
            (sqrt_price_x64 p) (add_tax r zero_for_one tax) b) in
  Some (Ok (mkSwapOutcome result p' arrays o ext b, arb, record_swap_slot last_swap_slot slot)).

Definition swap_v2 (c : SwapSingle) (p : PoolState) (o : ObservationState) (remaining : list SwapAccount)
    (last_swap_slot : Z) (b : balances) (amount other_amount_threshold limit : Z) (is_base_input : bool)
    (slot unix_timestamp : Z) : run error (SwapOutcome * option ArbAccount * Z) :=
  let? _ := lift (require_swap_accounts c p) in
  let? _ := lift (require (mint_key (input_vault_mint c) =? input_vault_mint_key c) ConstraintViolated) in
  let? _ := lift (require (mint_key (output_vault_mint c) =? output_vault_mint_key c) ConstraintViolated) in
  let? '(s, arb, last) :=
    exact_internal_v2 c p o remaining last_swap_slot b amount limit is_base_input slot unix_timestamp in
  let? _ := lift (check_threshold is_base_input (so_amount s) other_amount_threshold) in
  Some (Ok (s, arb, last)).
End Swap.
