(* ===== verification/SwapCorrect.v ===== *)
(** What a whole swap does: the invariant of the loops of [SwapLoop] and the
    theorems about [swap_internal]. *)
From S2P Require Import Prelude.
From S2P Require Import AmmError.
From S2P Require Import BigNum.
From S2P Require Import FullMath.
From S2P Require Import Config.
From S2P Require Import TickMath.
From S2P Require Import TickOfPrice.
From S2P Require Import LiquidityMath.
From S2P Require Import SwapMath.
From S2P Require Import TickIndex.
From S2P Require Import TickBitmap.
From S2P Require Import BitmapExtension.
From S2P Require Import DynamicFee.
From S2P Require Import Oracle.
From S2P Require Import Rewards.
From S2P Require Import TickState.
From S2P Require Import LimitMatch.
From S2P Require Import TickArray.
From S2P Require Import Pool.
From S2P Require Import PoolBitmap.
From S2P Require Import SwapState.
From S2P Require Import SwapLoop.

(** * Ranges of the amounts of a match *)

Section Ranges.
Context {U : UintLib}.

Lemma mul_div_ceil_u64_range a b d v : or_overflow (mul_div_ceil_u64 a b d) = Ok v -> in_u 64 v.
Proof.
  rewrite or_overflow_Ok. unfold mul_div_ceil_u64. intros H. destruct (d =? 0); [done|].
  apply obind_Ok in H as (x1 & _ & H). apply obind_Ok in H as (x2 & _ & H).
  apply obind_Ok in H as (x3 & _ & H). apply obind_Ok in H as (x4 & _ & H).
  destruct (umax 64 <? x4); [done|].
  apply obind_Ok in H as (x5 & [-> Hx]%big_u64_Ok & H). by injection H as <-.
Qed.

Lemma limit_output_range a t z v : get_limit_order_output a t z = Ok v -> in_u 64 v.
Proof.
  unfold get_limit_order_output. intros H. destruct z;
    apply obind_Ok in H as (x1 & _ & H); apply obind_Ok in H as (x2 & _ & H);
    by apply big_u64_Ok in H as [-> ?].
Qed.

Lemma limit_input_range a t z v : get_limit_order_input a t z = Ok v -> in_u 64 v.
Proof.
  unfold get_limit_order_input. intros H. destruct z;
    apply obind_Ok in H as (x1 & _ & H); apply obind_Ok in H as (x2 & _ & H);
    by apply big_u64_Ok in H as [-> ?].
Qed.

Definition match_range (m : LimitOrderMatchResult) : Prop :=
  in_u 64 (lo_amount_in m) /\ in_u 64 (lo_amount_out m) /\ in_u 64 (lo_amm_fee_amount m).

Lemma match_amounts_range t total swap z base f i m :
  in_u 64 total -> in_u 64 swap ->
  match_amounts t total swap z base f i = Ok m -> match_range m.
Proof.
  intros Ht Hs H. unfold match_amounts in H. destruct base.
  - apply obind_Ok in H as ([a1 fee1] & Hf & H).
    assert (in_u 64 a1 /\ in_u 64 fee1) as [Ha1 Hf1].
    { destruct i; [|injection Hf as <- <-; split; [done|by_compute]].
      apply obind_Ok in Hf as (x & Hx%mul_div_ceil_u64_range & Hf).
      by apply obind_Ok in Hf as (y & [-> Hy]%uchk_Ok & [= <- <-]). }
    apply obind_Ok in H as (o & Ho%limit_output_range & H). destruct (total <? o).
    + apply obind_Ok in H as (a2 & Ha2%limit_input_range & H).
      apply obind_Ok in H as (fee2 & Hf2 & [= <-]). split_and!; try done. cbn.
      destruct i; [|by injection Hf2 as <-].
      apply obind_Ok in Hf2 as (d & _ & Hf2). by apply mul_div_ceil_u64_range in Hf2.
    + by injection H as <-.
  - apply obind_Ok in H as (o & Ho & H). apply obind_Ok in H as (a & Ha%limit_input_range & H).
    apply obind_Ok in H as (fee & Hf & [= <-]).
    assert (in_u 64 o).
    { destruct i; [injection Ho as <-; range|]. apply obind_Ok in Ho as (d & _ & Ho).
      apply obind_Ok in Ho as (g & Hg%mul_div_ceil_u64_range & [= <-]). range. }
    split_and!; try done. cbn. destruct i; [|injection Hf as <-; by_compute].
    apply obind_Ok in Hf as (d & _ & Hf). by apply mul_div_ceil_u64_range in Hf.
Qed.

Lemma match_limit_order_range t swap z base f i m t' :
  in_u 64 swap -> match_limit_order t swap z base f i = Ok (m, t') -> match_range m.
Proof.
  intros Hs H. unfold match_limit_order, limit_order_unfilled_amount in H.
  apply obind_Ok in H as (u & [-> Hu]%ok_or_Ok%ucheck_Some & H).
  destruct (_ || _); [injection H as <- <-; split_and!; by_compute|].
  apply obind_Ok in H as (m0 & Hm%match_amounts_range & H); [|done..].
  apply obind_Ok in H as (s & _ & H). destruct Hm as (H1 & H2 & H3).
  destruct i; cbn [negb] in H; [by injection H as <- <-|].
  apply obind_Ok in H as (fee & Hf%mul_div_ceil_u64_range & H).
  by apply obind_Ok in H as (net & [-> Hnet]%ok_or_Ok%ucheck_Some & [= <- <-]).
Qed.
End Ranges.

(** * The course of a swap

    A dynamic fee splits a step at the edges of the groups of
    [st_tick_spacing] ticks, and the group is tracked by [st_tick_spacing_index],
    next to the tick and the price.  It is not updated when a step ends a round
    at the next initialized tick, so it can lag behind the price, see
    [gap_swap_moves_back]; what holds throughout is that the edge it designates
    lies on the side of the price the swap started from. *)

(** The current tick is the one of the price, or the one below when the price
    stands at its edge. *)
Definition tick_matches (t q : Z) : Prop :=
  MIN_TICK - 1 <= t <= MAX_TICK /\ (MIN_TICK <= t -> price_of t <= q) /\
  (t < MAX_TICK -> q <= price_of (t + 1)).

Definition clamp_tick (t : Z) : Z := Z.max MIN_TICK (Z.min t MAX_TICK).

(** The edge of group [i] that a trade in direction [z] meets. *)
Definition group_edge (z : bool) (i s : Z) : Z :=
  clamp_tick (if z then isat 32 (i * s) else isat 32 (isat 32 (i + 1) * s)).

Lemma clamp_tick_range t : MIN_TICK <= clamp_tick t <= MAX_TICK.
Proof. unfold clamp_tick, MIN_TICK, MAX_TICK. lia. Qed.

Lemma clamp_price_le t t' : t <= t' -> price_of (clamp_tick t) <= price_of (clamp_tick t').
Proof.
  intros H. pose proof (clamp_tick_range t). pose proof (clamp_tick_range t').
  apply price_of_le; [lia| |lia]. unfold clamp_tick. lia.
Qed.

(** One group further lies further. *)
Lemma group_edge_next (z : bool) i s : 0 < s ->
  let e := price_of (group_edge z i s) in
  let e' := price_of (group_edge z (i + (if z then -1 else 1)) s) in
  if z then e' <= e else e <= e'.
Proof.
  intros Hs. cbn zeta. unfold group_edge. destruct z; apply clamp_price_le; unfold isat.
  - enough ((i + -1) * s <= i * s) by lia. nia.
  - set (a := Z.max _ (Z.min (i + 1) _)). set (b := Z.max _ (Z.min (i + 1 + 1) _)).
    enough (a * s <= b * s) by lia. apply Z.mul_le_mono_nonneg_r; unfold a, b; lia.
Qed.

(** A swap starting at the group of its tick. *)
Lemma group_edge_tick (z : bool) t q s limit : spacing_ok s -> tick_matches t q ->
  (if z then MIN_SQRT_PRICE_X64 < limit <= q else q <= limit < MAX_SQRT_PRICE_X64) ->
  let e := price_of (group_edge z (t / s) s) in
  if z then e <= q else q <= e.
Proof.
  intros Hs (Ht & H1 & H2) Hq. cbn zeta. unfold spacing_ok in Hs.
  pose proof (zfloor_bounds t s ltac:(lia)) as Hf. unfold group_edge.
  assert (Z.abs (t / s) <= 2 ^ 20) as Ha by (unfold MIN_TICK, MAX_TICK in *; nia).
  destruct z.
  - unfold isat. replace (Z.max _ (Z.min (t / s * s) _)) with (t / s * s) by (unfold MIN_TICK, MAX_TICK in *; lia).
    destruct (Z.leb_spec MIN_TICK t) as [Hm|Hm].
    + specialize (H1 Hm). etrans; [|exact H1]. etrans; [apply (clamp_price_le _ t); lia|].
      unfold clamp_tick. rewrite Z.min_l, Z.max_r by lia. done.
    + unfold clamp_tick. rewrite Z.max_l by (unfold MAX_TICK; lia). rewrite price_of_min. lia.
  - unfold isat. replace (Z.max _ (Z.min (t / s + 1) _)) with (t / s + 1) by lia.
    replace (Z.max _ (Z.min ((t / s + 1) * s) _)) with ((t / s + 1) * s) by (unfold MIN_TICK, MAX_TICK in *; lia).
    destruct (Z.ltb_spec t MAX_TICK) as [Hm|Hm].
    + specialize (H2 Hm). etrans; [exact H2|]. etrans; [|apply (clamp_price_le (t + 1)); lia].
      unfold clamp_tick. rewrite Z.min_l, Z.max_r by lia. done.
    + unfold clamp_tick. rewrite Z.min_r, Z.max_r by (unfold MIN_TICK, MAX_TICK in *; lia).
      rewrite price_of_max. lia.
Qed.

(** The tick of a price, and the two ticks an arrival may leave. *)
Lemma tick_matches_floor {U : UintLib} q t : get_tick_at_sqrt_price q = Ok t -> tick_matches t q.
Proof. intros (_ & Ht & Hq)%get_tick_at_sqrt_price_Ok. split; [lia|]. split; intros; lia. Qed.

Lemma tick_matches_arrival T t : MIN_TICK <= T <= MAX_TICK -> t = T \/ t = T - 1 -> tick_matches t (price_of T).
Proof.
  intros HT [-> | ->]; (split; [lia|]; split; intros H).
  - done.
  - pose proof (price_of_le T (T + 1)). lia.
  - apply price_of_le; lia.
  - by replace (T - 1 + 1) with T by lia.
Qed.

(** * The invariant of the loops *)

Section Invariant.
Context {U : UintLib} (a : SwapArgs) (spec : Z) (p0 : PoolState).

Local Abbreviation z := (sa_zero_for_one a).
Local Abbreviation base := (sa_is_base_input a).
Local Abbreviation fee_in := (sa_is_fee_on_input a).
Local Abbreviation D := FEE_RATE_DENOMINATOR_VALUE.

(** The pool, the limit and the configuration the swap starts from. *)
Record swap_start : Prop := {
  ws_price : in_u 128 (sqrt_price_x64 p0);
  ws_limit : if z then MIN_SQRT_PRICE_X64 < sa_limit a < sqrt_price_x64 p0
             else 0 < sqrt_price_x64 p0 < sa_limit a;
  ws_limit_range : if z then True else sa_limit a < MAX_SQRT_PRICE_X64;
  ws_rate : 0 <= trade_fee_rate (sa_config a) < D;
  ws_protocol : 0 <= protocol_fee_rate (sa_config a);
  ws_fund : 0 <= fund_fee_rate (sa_config a);
}.

Context (Hstart : swap_start).

(** Prices the swap may visit: from the start price to the limit. *)
Definition price_between (q : Z) : Prop :=
  if z then sa_limit a <= q <= sqrt_price_x64 p0 else sqrt_price_x64 p0 <= q <= sa_limit a.

Record state_inv (s : SwapState) : Prop := {
  si_ok : swap_state_ok s;
  si_price : price_between (st_sqrt_price_x64 s);
  si_remaining : amount_specified_remaining s <= spec;
  si_rate : base_fee_rate s = trade_fee_rate (sa_config a);
  si_dynamic : get_dynamic_fee_info p0 = None -> st_dynamic_fee_info s = None;
  si_fees : 0 <= fees_charged s;
  si_fees_in : fee_in = true ->
    fees_charged s <= (if base then spec - amount_specified_remaining s else amount_calculated s);
}.

(** The tick and its group, in a pool with a dynamic fee. *)
Record course_ok (s : SwapState) : Prop := {
  co_spacing : spacing_ok (st_tick_spacing s);
  co_tick : tick_matches (st_tick s) (st_sqrt_price_x64 s);
  co_edge : let e := price_of (group_edge z (st_tick_spacing_index s) (st_tick_spacing s)) in
    if z then e <= sqrt_price_x64 p0 else sqrt_price_x64 p0 <= e;
}.

Definition dynamic_ok (s : SwapState) : Prop := get_dynamic_fee_info p0 <> None -> course_ok s.

Lemma is_dynamic s info : state_inv s -> st_dynamic_fee_info s = Some info -> get_dynamic_fee_info p0 <> None.
Proof. intros Hs E Hx. rewrite (si_dynamic s Hs Hx) in E. done. Qed.

(** The next price is the one of the next tick. *)
Definition next_ok (s : SwapState) : Prop :=
  MIN_TICK <= tick_next s <= MAX_TICK /\ st_sqrt_price_next_x64 s = price_of (tick_next s).

(** What the bookkeeping of a trade leaves alone. *)
Definition course (s : SwapState) :=
  (st_sqrt_price_x64 s, st_tick s, st_liquidity s, (st_sqrt_price_next_x64 s, tick_next s),
   (st_tick_spacing s, base_fee_rate s, st_tick_spacing_index s, st_dynamic_fee_info s)).

Lemma price_between_range q : price_between q -> in_u 128 q /\ 0 < q.
Proof.
  destruct Hstart. unfold price_between, MIN_SQRT_PRICE_X64, MAX_SQRT_PRICE_X64 in *. intros Hq. destruct z; range.
Qed.

(** A state that agrees with another on the money and on the price. *)
Lemma state_inv_same s s' :
  state_inv s ->
  (amount_specified_remaining s', amount_calculated s', st_fee_growth_global_x64 s', lp_fee s', protocol_fee s', fund_fee s') =
  (amount_specified_remaining s, amount_calculated s, st_fee_growth_global_x64 s, lp_fee s, protocol_fee s, fund_fee s) ->
  in_u 128 (st_liquidity s') -> price_between (st_sqrt_price_x64 s') -> base_fee_rate s' = base_fee_rate s ->
  (st_dynamic_fee_info s = None -> st_dynamic_fee_info s' = None) -> state_inv s'.
Proof.
  intros [[] Hq Hr Hb Hy Hf Hi] E Hl Hq' Hb' Hy'. injection E as E1 E2 E3 E4 E5 E6.
  unfold fees_charged in *. constructor; unfold fees_charged; rewrite ?E1, ?E2, ?E4, ?E5, ?E6, ?Hb'; auto.
  constructor; by rewrite ?E1, ?E2, ?E3, ?E4, ?E5, ?E6.
Qed.

(** Booking a trade keeps the invariant. *)
Lemma apply_inv s ai ao fee s' :
  state_inv s -> in_u 64 ai -> in_u 64 ao -> in_u 64 fee ->
  apply_swap_amounts s ai ao fee base fee_in (protocol_fee_rate (sa_config a))
    (fund_fee_rate (sa_config a)) = Ok s' ->
  state_inv s' /\ course s' = course s.
Proof.
  intros [] Hai Hao Hfee H. destruct Hstart.
  apply apply_swap_amounts_Ok in H as (Ham & Hf & Heq & Hok); [|done..].
  assert (course s' = course s) as E by (by rewrite Heq). pose proof E as E'. injection E' as E1 _ _ _ _ _ E7 _ E9.
  split; [|done]. constructor; rewrite ?E1, ?E7, ?E9, ?Hf; try done.
  - destruct base; destruct Ham as [-> _]; destruct fee_in; range.
  - range.
  - intros Hi. specialize (si_fees_in0 Hi). rewrite Hi in *.
    destruct base; destruct Ham as [Ha1 Ha2]; rewrite ?Ha1, ?Ha2; range.
Qed.

Lemma trade_on_curve_inv s target fee_rate q s' :
  state_inv s -> price_between target -> 0 <= fee_rate < D ->
  trade_on_curve a s target fee_rate = Ok (q, s') ->
  state_inv s' /\ course s' = course s /\ price_between q.
Proof.
  intros Hs Ht Hr H. unfold trade_on_curve in H.
  destruct (Z.eqb_spec (st_sqrt_price_x64 s) target) as [He|]; cbn [negb] in H.
  { by injection H as <- <-. }
  apply obind_Ok in H as (r & Hc & H). apply obind_Ok in H as (s1 & Ha & [= <- <-]).
  destruct (price_between_range _ Ht) as [Htr Ht0].
  pose proof (si_price s Hs) as Hq. destruct (price_between_range _ Hq) as [Hqr Hq0].
  pose proof (si_ok s Hs) as [].
  apply compute_swap_range in Hc as (Hn & Hai & Hao & Hfee); [|by constructor].
  apply apply_inv in Ha as [Hs1 E]; [|done..]. split; [done|]. split; [done|].
  unfold price_between in *. destruct Hn as [-> | Hn]; [done|]. destruct z; lia.
Qed.

Lemma trade_on_orders_inv s t fee_rate s' t' :
  state_inv s -> trade_on_orders a s t fee_rate = Ok (s', t') ->
  state_inv s' /\ course s' = course s.
Proof.
  intros Hs H. unfold trade_on_orders in H.
  apply obind_Ok in H as ([m t1] & Hm & H).
  apply match_limit_order_range in Hm as (H1 & H2 & H3); [|apply Hs].
  apply obind_Ok in H as (s1 & Ha & [= <- <-]).
  destruct (0 <? lo_amount_in m); [|by injection Ha as <-].
  by apply apply_inv in Ha.
Qed.

(** The pool is only touched in its bitmap. *)
Definition pool_frame (p : PoolState) : Prop := p = set_bitmap p0 (tick_array_bitmap p).

Record env_inv (e : SwapEnv) : Prop := {
  ei_state : state_inv (sl_state e);
  ei_pool : pool_frame (sl_pool e);
}.

Lemma pool_flip_frame p key ext start p' ext' :
  pool_flip_tick_array_bit p key ext start = Ok (p', ext') ->
  p' = set_bitmap p (tick_array_bitmap p').
Proof.
  intros H. unfold pool_flip_tick_array_bit in H. apply obind_Ok in H as (o & _ & H). destruct o.
  - apply obind_Ok in H as ([key' e] & _ & H). apply obind_Ok in H as (u & _ & H).
    apply obind_Ok in H as (e' & _ & [= <- <-]). by destruct p.
  - apply obind_Ok in H as (p1 & Hf & [= <- <-]). unfold flip_tick_array_bit_default in Hf.
    apply obind_Ok in Hf as (o & _ & Hf). apply obind_Ok in Hf as (m & _ & [= <-]). done.
Qed.

Lemma drop_tick_inv e t e' :
  env_inv e -> drop_tick a e t = Ok e' ->
  env_inv e' /\ sl_state e' = sl_state e.
Proof.
  intros [Hs Hp] H. unfold drop_tick in H. destruct (negb (is_initialized t)); [|by injection H as <-].
  apply obind_Ok in H as (c & _ & H). destruct (initialized_tick_count c =? 0); [|by injection H as <-].
  apply obind_Ok in H as ([p x] & Hf & [= <-]). split; [|done]. split; [done|].
  cbn. apply pool_flip_frame in Hf. cbn in Hf. unfold pool_frame in *.
  rewrite Hf, Hp at 1. done.
Qed.

Lemma cross_tick_inv e t l t' l' :
  in_u 128 l -> cross_tick a e t l = Ok (t', l') -> in_u 128 l'.
Proof.
  intros Hl H. unfold cross_tick in H. destruct (_ && _); [|by injection H as <- <-].
  unfold tick_cross in H. apply obind_Ok in H as (n & _ & H).
  by apply obind_Ok in H as (l1 & [-> Hr]%add_delta_Ok & [= <- <-]).
Qed.

Lemma set_st_tick_inv s v : state_inv s -> state_inv (set_st_tick s v).
Proof. intros [[] ? ? ? ? ? ?]. by constructor. Qed.

Lemma set_st_price_inv s q : state_inv s -> price_between q -> state_inv (set_st_price s q).
Proof. intros [[] ? ? ? ? ? ?] Hq. by constructor. Qed.

Lemma set_st_liquidity_inv s l : state_inv s -> in_u 128 l -> state_inv (set_st_liquidity s l).
Proof. intros [[] ? ? ? ? ? ?] Hl. by constructor. Qed.

Lemma arrive_at_tick_inv e t l fee_rate e' t' l' :
  env_inv e -> in_u 128 l -> arrive_at_tick a e t l fee_rate = Ok (e', t', l') ->
  let s := sl_state e in
  env_inv e' /\ in_u 128 l' /\
  exists v, (v = tick_next s \/ v = tick_next s - 1) /\ course (sl_state e') = course (set_st_tick s v).
Proof.
  intros [Hs Hp] Hl H. unfold arrive_at_tick in H.
  apply obind_Ok in H as ([s1 t1] & Ht & H).
  apply trade_on_orders_inv in Ht as [Hs1 E]; [|done].
  apply obind_Ok in H as (e1 & Hd & H).
  apply drop_tick_inv in Hd as ([Hi1 Hp1] & Hst); [|by constructor].
  apply obind_Ok in H as ([t2 l2] & Hc & H). apply cross_tick_inv in Hc; [|done].
  apply obind_Ok in H as (c & _ & H). apply obind_Ok in H as (nt & Hnt & [= <- <- <-]).
  cbn in *. rewrite Hst in *. cbn in *. unfold course in E. injection E as E1 E2 E3 E4 E5 E6 E7 E8 E9. rewrite E5 in Hnt.
  split; [constructor; [|done]; cbn; by apply set_st_tick_inv|]. split; [done|]. exists nt. split.
  - destruct (_ || _); [right; by apply ichk_Ok in Hnt as [-> _]|left; by injection Hnt as <-].
  - unfold course. cbn. by rewrite E1, E3, E4, E5, E6, E7, E8, E9.
Qed.

(** The volatility moves nothing but the fee. *)
Definition only_volatility (s s' : SwapState) : Prop :=
  exists info, s' = set_st_dynamic s info /\ (st_dynamic_fee_info s = None <-> info = None).

Lemma swap_update_volatility_Ok s s' : swap_update_volatility_accumulator s = Ok s' -> only_volatility s s'.
Proof.
  unfold swap_update_volatility_accumulator. intros H. destruct (st_dynamic_fee_info s) as [info|] eqn:E.
  - apply obind_Ok in H as (info' & _ & [= <-]). exists (Some info'). split; [done|]. by rewrite E.
  - injection H as <-. exists None. split; [|by rewrite E]. rewrite <- E. by destruct s.
Qed.

Lemma only_volatility_inv s s' : only_volatility s s' -> state_inv s -> dynamic_ok s ->
  state_inv s' /\ dynamic_ok s'.
Proof.
  intros (info & -> & Hi) Hs Hd. split.
  - apply (state_inv_same s); [done|done|apply Hs|apply Hs|done|cbn; by apply Hi].
  - intros Hn. destruct (Hd Hn). by constructor.
Qed.

(** A fee rate below 100%, with or without a dynamic part. *)
Lemma total_fee_rate_range s r :
  state_inv s -> swap_get_total_fee_rate s = Ok r -> 0 <= r < D.
Proof.
  intros Hs H. unfold swap_get_total_fee_rate, get_total_fee_rate in H. rewrite (si_rate s Hs) in H.
  destruct (st_dynamic_fee_info s) as [info|]; [|by injection H as <-; apply Hstart].
  apply obind_Ok in H as (d & _ & H). apply obind_Ok in H as (t & [-> Ht]%uchk_Ok & [= <-]).
  unfold FEE_RATE_DENOMINATOR_VALUE, MAX_FEE_RATE_NUMERATOR. range.
Qed.

(** The price of a step: the target, or the edge of the group before it. *)
Lemma bounded_price_between s target skipped b :
  state_inv s -> dynamic_ok s -> price_between target -> get_spacing_bounded_price s target z = Ok (skipped, b) -> price_between b.
Proof.
  intros Hs Hd Ht H. unfold get_spacing_bounded_price in H.
  destruct (st_dynamic_fee_info s) as [info|] eqn:E; [|by injection H as _ <-].
  destruct (Hd (is_dynamic _ _ Hs E)) as [_ _ He].
  destruct (_ || _); [by injection H as _ <-|].
  apply obind_Ok in H as (p & [_ ->]%get_sqrt_price_at_tick_Ok & H). cbn zeta in He.
  unfold price_between, group_edge, clamp_tick in *. destruct z; injection H as _ <-; lia.
Qed.

Lemma tick_spacing_index_ok s t i : spacing_ok s -> MIN_TICK - 1 <= t <= MAX_TICK ->
  tick_spacing_index_from_tick t s = Ok i -> i = t / s.
Proof.
  intros Hs Ht H. rewrite tick_spacing_index_floor in H; [by injection H as <-|done|].
  unfold small, MIN_TICK, MAX_TICK in *. lia.
Qed.

(** Price and limit as [group_edge_tick] wants them. *)
Lemma between_limit q : price_between q ->
  if z then MIN_SQRT_PRICE_X64 < sa_limit a <= q else q <= sa_limit a < MAX_SQRT_PRICE_X64.
Proof. unfold price_between. destruct Hstart. destruct z; lia. Qed.

(** The edge of the group of a tick that matches a price of the swap. *)
Lemma edge_of_tick t q s : spacing_ok s -> tick_matches t q -> price_between q ->
  let e := price_of (group_edge z (t / s) s) in
  if z then e <= sqrt_price_x64 p0 else sqrt_price_x64 p0 <= e.
Proof.
  intros Hs Ht Hq. pose proof (group_edge_tick z t q s (sa_limit a) Hs Ht (between_limit q Hq)) as He.
  cbn zeta in *. unfold price_between in Hq. destruct z; lia.
Qed.

Lemma edge_next i s : 0 < s ->
  let behind i := let e := price_of (group_edge z i s) in
    if z then e <= sqrt_price_x64 p0 else sqrt_price_x64 p0 <= e in
  behind i -> behind (i + (if z then -1 else 1)).
Proof.
  intros Hs behind H. unfold behind in *. pose proof (group_edge_next z i s Hs) as He. cbn zeta in *. destruct z; lia.
Qed.

(** [update_dynamic_fee_index] only moves the group, and the fee with it. *)
Lemma update_dynamic_fee_index_Ok s skipped s' :
  state_inv s -> dynamic_ok s -> next_ok s -> update_dynamic_fee_index s z skipped = Ok s' ->
  state_inv s' /\ dynamic_ok s' /\ next_ok s' /\ st_liquidity s' = st_liquidity s.
Proof.
  intros Hs Hd Hn H. unfold update_dynamic_fee_index in H.
  destruct (st_dynamic_fee_info s) as [info|] eqn:E; [|by injection H as <-].
  destruct (Hd (is_dynamic _ _ Hs E)) as [H1 H2 H3]. apply obind_Ok in H as (s1 & Hs1 & H).
  apply obind_Ok in H as (i & [-> _]%ichk_Ok & [= <-]).
  assert (exists i1 info1, s1 = set_st_dynamic (set_spacing_index s i1) info1 /\
    let e := price_of (group_edge z (i1 + (if z then -1 else 1)) (st_tick_spacing s)) in
    if z then e <= sqrt_price_x64 p0 else sqrt_price_x64 p0 <= e) as (i1 & info1 & -> & He).
  { pose proof H1 as Hsp. unfold spacing_ok in Hsp. destruct skipped.
    2:{ injection Hs1 as <-. exists (st_tick_spacing_index s), (st_dynamic_fee_info s).
        split; [by destruct s|]. apply edge_next; [lia|done]. }
    set (t := if _ =? _ then tick_next s else st_tick s) in Hs1.
    assert (tick_matches t (st_sqrt_price_x64 s)) as Ht.
    { unfold t. destruct (Z.eqb_spec (st_sqrt_price_x64 s) (st_sqrt_price_next_x64 s)) as [Eq|]; [|done].
      destruct Hn as [Hn1 Hn2]. rewrite Eq, Hn2. apply tick_matches_arrival; [done|by left]. }
    pose proof (edge_of_tick t _ _ H1 Ht (si_price s Hs)) as Hedge.
    cbn zeta in Hs1. apply obind_Ok in Hs1 as (i & Hi & Hs1).
    apply tick_spacing_index_ok in Hi; [|done|apply Ht]. subst i. apply obind_Ok in Hs1 as (i1 & Hi1 & Hs1).
    assert (exists info1, s1 = set_st_dynamic (set_spacing_index s i1) info1) as [info1 ->].
    { destruct (negb (_ =? _)); [|injection Hs1 as <-; exists (st_dynamic_fee_info s); by destruct s].
      apply swap_update_volatility_Ok in Hs1 as (info1 & -> & _). by exists info1. }
    exists i1, info1. split; [done|]. clear Hs1.
    assert (i1 = t / st_tick_spacing s \/ (z = false /\ i1 = t / st_tick_spacing s - 1)) as [-> | [Ez ->]].
    { destruct z; cbn [negb] in Hi1; [by injection Hi1 as <-; left|].
      apply obind_Ok in Hi1 as (r & _ & Hi1). destruct (r =? 0); [|by injection Hi1 as <-; left].
      apply ichk_Ok in Hi1 as [-> _]. by right. }
    - apply edge_next; [lia|done].
    - rewrite Ez in *. by replace (t / st_tick_spacing s - 1 + 1) with (t / st_tick_spacing s) by lia. }
  split; [|split; [|done]].
  - apply (state_inv_same s); [done|done|apply Hs|apply Hs|done|by rewrite E].
  - intros _. by constructor.
Qed.

(** Everything the inner loop keeps. *)
Record round_inv (e : SwapEnv) : Prop := {
  ri_env : env_inv e;
  ri_dynamic : dynamic_ok (sl_state e);
  ri_next : next_ok (sl_state e);
}.

(** The tick after a step whose price is [q]. *)
Lemma moved_dynamic s s' q v :
  dynamic_ok s -> course s' = course (set_st_tick s v) -> (get_dynamic_fee_info p0 <> None -> tick_matches v q) ->
  dynamic_ok (set_st_price s' q).
Proof.
  intros Hd E Hv Hn. unfold course in E. cbn in E. injection E as E1 E2 E3 E4 E5 E6 E7 E8 E9.
  destruct (Hd Hn) as [H1 H2 H3].
  constructor; cbn; rewrite ?E2, ?E6, ?E8; auto.
Qed.

Lemma inner_step_inv target e t l break e' t' l' :
  round_inv e -> price_between target -> in_u 128 l ->
  inner_step a target e t l = Ok (break, e', t', l') ->
  round_inv e' /\ in_u 128 l'.
Proof.
  intros [[Hs Hp] Hd Hn] Ht Hl H. unfold inner_step in H.
  apply obind_Ok in H as (s0 & H0%swap_update_volatility_Ok & H).
  destruct (only_volatility_inv _ _ H0 Hs Hd) as [Hs0 Hd0].
  assert (next_ok s0) as Hn0 by (destruct H0 as (info & -> & _); exact Hn).
  apply obind_Ok in H as (rate & Hr%total_fee_rate_range & H); [|done].
  apply obind_Ok in H as ([sk b] & Hb & H). apply bounded_price_between in Hb; [|done..].
  apply obind_Ok in H as ([q s1] & Hq & H). apply trade_on_curve_inv in Hq as (Hs1 & E1 & Hqb); [|done..].
  pose proof E1 as Ec. unfold course in Ec. injection Ec as Ec1 Ec2 Ec3 Ec4 Ec5 Ec6 Ec7 Ec8 Ec9.
  apply obind_Ok in H as (before & _ & H). apply obind_Ok in H as ([[e2 t2] l2] & Hmid & H).
  assert (env_inv e2 /\ in_u 128 l2 /\ exists v, course (sl_state e2) = course (set_st_tick s0 v) /\
    (get_dynamic_fee_info p0 <> None -> tick_matches v q)) as ([Hs2 Hp2] & Hl2 & v & E2 & Hv).
  { destruct Hn0 as [Hn1 Hn2]. destruct (Z.eqb_spec (st_sqrt_price_next_x64 s1) q) as [Eq|_].
    - apply arrive_at_tick_inv in Hmid as (He2 & Hl2 & v & Hv & E2); [|by constructor|done]. cbn in Hv, E2.
      split; [done|]. split; [done|]. exists v.
      split; [rewrite E2; unfold course; cbn; by rewrite Ec1, Ec3, Ec4, Ec5, Ec6, Ec7, Ec8, Ec9|].
      intros _. rewrite <- Eq, Ec4, Hn2. apply tick_matches_arrival; [done|by rewrite <- Ec5].
    - destruct (Z.eqb_spec (st_sqrt_price_x64 s1) q) as [Eq|_]; cbn [negb] in Hmid.
      + injection Hmid as <- <- <-. split; [by constructor|]. split; [done|]. exists (st_tick s0).
        split; [cbn; rewrite E1; by destruct s0|]. intros Hx. rewrite <- Eq, Ec1. by destruct (Hd0 Hx).
      + apply obind_Ok in Hmid as (v & Hv & [= <- <- <-]). split; [|split; [done|]].
        { constructor; [|done]. by apply set_st_tick_inv. }
        exists v. split; [unfold course; cbn; by rewrite Ec1, Ec3, Ec4, Ec5, Ec6, Ec7, Ec8, Ec9|].
        intros _. by apply tick_matches_floor. }
  pose proof (moved_dynamic _ _ q v Hd0 E2 Hv) as Hd3.
  pose proof (set_st_price_inv _ q Hs2 Hqb) as Hs3.
  assert (next_ok (set_st_price (sl_state e2) q)) as Hn3.
  { unfold course in E2. cbn in E2. injection E2 as _ _ _ F4 F5 _ _ _ _. unfold next_ok. cbn. by rewrite F4, F5. }
  cbn [sl_state set_sl_state] in H. destruct ((_ =? 0) || _).
  - apply obind_Ok in H as (after & _ & H). apply obind_Ok in H as (u & _ & [= <- <- <- <-]).
    split; [|done]. by constructor; [constructor|..].
  - apply obind_Ok in H as (s4 & H4 & [= <- <- <- <-]).
    apply update_dynamic_fee_index_Ok in H4 as (? & ? & ? & _); [|done..].
    split; [|done]. by constructor; [constructor|..].
Qed.

Lemma inner_loop_inv fuel target e t l e' l' :
  round_inv e -> price_between target -> in_u 128 l ->
  inner_loop a fuel target e t l = Some (Ok (e', l')) ->
  round_inv e' /\ in_u 128 l'.
Proof.
  revert e t l. induction fuel as [|fuel IH]; intros e t l He Ht Hl H; [done|].
  cbn [inner_loop] in H. apply rbind_Ok in H as ([[[break e1] t1] l1] & Hstep%lift_Ok & H).
  apply inner_step_inv in Hstep as (He1 & Hl1); [|done..].
  destruct break; [by injection H as <- <-|]. by eapply IH.
Qed.

Lemma find_next_tick_inv e t e' :
  env_inv e -> find_next_tick a e = Some (Ok (t, e')) -> env_inv e' /\ sl_state e' = sl_state e.
Proof.
  intros [Hs Hp] H. unfold find_next_tick in H.
  apply rbind_Ok in H as (o & _ & H). destruct o as [i|].
  - apply rbind_Ok in H as (t1 & _ & H). by injection H as <- <-.
  - destruct (negb (sl_first_contains e)).
    + apply rbind_Ok in H as (i & _ & H). apply rbind_Ok in H as (t1 & _ & H).
      injection H as <- <-. by split; [constructor|].
    + apply rbind_Ok in H as (o & _ & H). apply rbind_Ok in H as (next & _ & H).
      apply rbind_Ok in H as ([[c rest] dn] & _ & H). apply rbind_Ok in H as (i & _ & H).
      apply rbind_Ok in H as (t1 & _ & H). injection H as <- <-. by split; [constructor|].
Qed.

Lemma get_target_inv s t target s' :
  state_inv s -> dynamic_ok s -> get_target_price_based_on_next_tick s t z (sa_limit a) = Ok (target, s') ->
  state_inv s' /\ dynamic_ok s' /\ next_ok s' /\ price_between target.
Proof.
  intros Hs Hd H. pose proof (si_price s Hs) as Hq. unfold get_target_price_based_on_next_tick in H.
  apply obind_Ok in H as (pn & [Hr ->]%get_sqrt_price_at_tick_Ok & H). apply obind_Ok in H as (u & Hc & [= <- <-]).
  split; [|split; [|split; [done|]]].
  - apply (state_inv_same s); [done|done|apply Hs|done|done|done].
  - intros Hx. destruct (Hd Hx). by constructor.
  - set (pn := price_of _) in *. unfold price_between in *. cbn in *.
    destruct z; cbn [andb negb orb] in *.
    + apply obind_Ok in Hc as (u1 & _ & Hc). apply obind_Ok in Hc as (u2 & _ & Hc).
      apply require_Ok, Z.leb_le in Hc. rewrite orb_false_r in *.
      destruct (Z.ltb_spec pn (sa_limit a)); lia.
    + apply obind_Ok in Hc as (u1 & _ & Hc). apply obind_Ok in Hc as (u2 & _ & Hc).
      apply require_Ok, Z.leb_le in Hc. destruct (Z.ltb_spec (sa_limit a) pn); lia.
Qed.

(** What the outer loop keeps. *)
Definition swap_inv (e : SwapEnv) : Prop := env_inv e /\ dynamic_ok (sl_state e).

Lemma outer_step_inv fuel e e' :
  swap_inv e -> outer_step a fuel e = Some (Ok e') -> swap_inv e'.
Proof.
  intros [He Hd] H. unfold outer_step in H.
  apply rbind_Ok in H as ([t e1] & Hn & H). apply find_next_tick_inv in Hn as ([Hs1 Hp1] & Hst); [|done].
  rewrite <- Hst in Hd. apply rbind_Ok in H as (u & _ & H). apply rbind_Ok in H as ([target s] & Ht%lift_Ok & H).
  apply get_target_inv in Ht as (Hs & Hds & Hns & Htok); [|done..].
  apply rbind_Ok in H as ([e2 l2] & Hloop & H).
  apply inner_loop_inv in Hloop as ([[Hs2 Hp2] Hd2 _] & Hl2);
    [|by constructor; [constructor|..]|done|apply Hs].
  injection H as <-. split; [constructor; [|done]; by apply set_st_liquidity_inv|].
  intros Hx. destruct (Hd2 Hx). by constructor.
Qed.

Lemma outer_loop_inv fuel e e' :
  swap_inv e -> outer_loop a fuel e = Some (Ok e') ->
  swap_inv e' /\ swap_running a (sl_state e') = false.
Proof.
  revert e. induction fuel as [|fuel IH]; intros e He H; cbn [outer_loop] in H;
    destruct (swap_running a (sl_state e)) eqn:Hrun; try done.
  - by injection H as <-.
  - apply rbind_Ok in H as (e1 & Hstep & H). apply outer_step_inv in Hstep; [|done]. by eapply IH.
  - by injection H as <-.
Qed.

(** The last look at the volatility. *)
Lemma update_volatility_on_price_Ok s s' :
  state_inv s -> dynamic_ok s -> update_volatility_accumulator_on_price s = Ok s' ->
  state_inv s' /\ (get_dynamic_fee_info p0 <> None -> tick_matches (st_tick s') (st_sqrt_price_x64 s')) /\
  swap_running a s' = swap_running a s.
Proof.
  intros Hs Hd H. unfold update_volatility_accumulator_on_price in H.
  assert (exists i info, s' = set_st_dynamic (set_spacing_index s i) info /\
    (st_dynamic_fee_info s = None -> info = None)) as (i & info & -> & Hi).
  { destruct (st_dynamic_fee_info s) as [info|] eqn:E.
    - apply obind_Ok in H as (t & _ & H). apply obind_Ok in H as (i & _ & H). destruct (negb (_ =? i)).
      + apply swap_update_volatility_Ok in H as (info' & -> & Hi). by exists i, info'.
      + injection H as <-. exists (st_tick_spacing_index s), (Some info). split; [|done]. rewrite <- E. by destruct s.
    - injection H as <-. exists (st_tick_spacing_index s), None. split; [|done]. rewrite <- E. by destruct s. }
  split; [by apply (state_inv_same s); [done|done|apply Hs|apply Hs|done|]|].
  split; [intros Hx; by destruct (Hd Hx)|done].
Qed.
End Invariant.

(** The input and the output of a swap. *)
Definition swap_input (r : SwapInternalResult) (z : bool) : Z := if z then r_amount_0 r else r_amount_1 r.
Definition swap_output (r : SwapInternalResult) (z : bool) : Z := if z then r_amount_1 r else r_amount_0 r.
Definition trade_fee (r : SwapInternalResult) : Z := r_trade_fee_0 r + r_trade_fee_1 r.

(** The admin's and the fund's share of the fees held by the pool. *)
Definition fees_held (p : PoolState) : Z :=
  protocol_fees_token_0 p + protocol_fees_token_1 p + fund_fees_token_0 p + fund_fees_token_1 p.

(** A pool between two swaps, and a configuration with a rate below 100%; in
    a pool with a dynamic fee the current tick is the one of the price. *)
Record pool_ready (p : PoolState) (cfg : AmmConfig) : Prop := {
  pr_price : 0 < sqrt_price_x64 p < 2 ^ 128;
  pr_liquidity : in_u 128 (liquidity p);
  pr_growth_0 : in_u 128 (fee_growth_global_0_x64 p);
  pr_growth_1 : in_u 128 (fee_growth_global_1_x64 p);
  pr_dynamic : get_dynamic_fee_info p <> None ->
    spacing_ok (pool_tick_spacing p) /\ tick_matches (tick_current p) (sqrt_price_x64 p);
  pr_rate : 0 <= trade_fee_rate cfg < FEE_RATE_DENOMINATOR_VALUE;
  pr_protocol : 0 <= protocol_fee_rate cfg;
  pr_fund : 0 <= fund_fee_rate cfg;
}.

Section Whole.
Context {U : UintLib}.

Lemma settle_amounts_Ok s spec (z base d0 : bool) a0 a1 f0 f1 :
  settle_amounts s spec z base d0 = Ok (a0, a1, f0, f1) ->
  let consumed := spec - amount_specified_remaining s in
  (if base then (if z then a0 else a1) = consumed /\ (if z then a1 else a0) = amount_calculated s
   else (if z then a1 else a0) = consumed /\ (if z then a0 else a1) = amount_calculated s) /\
  f0 + f1 = fees_charged s /\ (if d0 then f1 = 0 else f0 = 0).
Proof.
  unfold settle_amounts. intros H. apply obind_Ok in H as (c & [-> _]%ok_or_Ok%ucheck_Some & H).
  set (cc := spec - amount_specified_remaining s) in *.
  assert (exists x y, (if eqb z base then (cc, amount_calculated s) else (amount_calculated s, cc)) = (x, y))
    as (x & y & E) by (destruct (eqb z base); eauto).
  rewrite E in H. apply obind_Ok in H as (t & [-> _]%ok_or_Ok%ucheck_Some & H).
  apply obind_Ok in H as (tt & [-> _]%ok_or_Ok%ucheck_Some & H). unfold fees_charged.
  cbn zeta. destruct d0; injection H as <- <- <- <-; (split; [|lia]);
    destruct z, base; cbn in E; injection E as <- <-; done.
Qed.

(** The state the loop starts from. *)
Lemma swap_state_new_inv a p spec rs ts s :
  let p0 := set_reward_infos p rs in
  swap_start a p0 -> pool_ready p (sa_config a) -> in_u 64 spec ->
  swap_state_new p0 spec (trade_fee_rate (sa_config a)) (sa_zero_for_one a) ts = Ok s ->
  state_inv a spec p0 s /\ dynamic_ok a p0 s.
Proof.
  intros p0 Hstart [] Hspec H. unfold swap_state_new in H. cbn zeta in H. cbn [st_dynamic_fee_info st_tick st_tick_spacing] in H.
  change (get_dynamic_fee_info p0) with (get_dynamic_fee_info p) in H.
  change (tick_current p0) with (tick_current p) in H. change (pool_tick_spacing p0) with (pool_tick_spacing p) in H.
  assert (in_u 64 0) as H0 by by_compute.
  assert (price_between a p0 (sqrt_price_x64 p)) as Hb.
  { destruct Hstart as [_ Hl _ _ _ _]. unfold price_between. cbn in *. destruct (sa_zero_for_one a); lia. }
  match type of H with context [mkSwapState spec 0 ?q ?t ?g 0 0 0 ?l 0 0 ?sp ?b 0 ?d] =>
    assert (forall i info, (get_dynamic_fee_info p = None -> info = None) ->
      state_inv a spec p0 (mkSwapState spec 0 q t g 0 0 0 l 0 0 sp b i info)) as Hinv end.
  { intros i info Hi. constructor; cbn; try done; try lia.
    - constructor; cbn; try done. by destruct (is_fee_on_token0 _ _).
    - intros _. unfold fees_charged. cbn. destruct (sa_is_base_input a); lia. }
  destruct (get_dynamic_fee_info p) as [info|] eqn:E.
  - destruct pr_dynamic0 as [Hsp Htm]; [done|].
    apply obind_Ok in H as (i & Hi & H). apply obind_Ok in H as (info' & _ & [= <-]).
    apply tick_spacing_index_ok in Hi; [|done|apply Htm]. subst i.
    split; [by apply Hinv|]. intros _. constructor; [done|done|]. cbn.
    apply (edge_of_tick a p0 Hstart _ _ _ Hsp Htm Hb).
  - injection H as <-. split; [by apply Hinv|]. intros Hx. destruct Hx. exact E.
Qed.

(** Inversion of a successful swap into its loop and its settlement. *)
Lemma swap_internal_inv fuel pk xk cfg p arrays obs ext spec limit (z base : bool) ts r p' arrays' obs' ext' :
  pool_ready p cfg -> in_u 64 spec ->
  swap_internal fuel pk xk cfg p arrays obs ext spec limit z base ts =
    Some (Ok (r, p', arrays', obs', ext')) ->
  exists a rs s pl,
    let p0 := set_reward_infos p rs in
    sa_zero_for_one a = z /\ sa_is_base_input a = base /\ sa_limit a = limit /\ sa_config a = cfg /\
    0 < limit < 2 ^ 128 /\
    sa_is_fee_on_input a = is_fee_on_input p z /\
    get_status_by_bit p Swap = true /\ spec <> 0 /\
    state_inv a spec p0 s /\ swap_running a s = false /\ pool_frame p0 pl /\
    (get_dynamic_fee_info p <> None -> tick_matches (st_tick s) (st_sqrt_price_x64 s)) /\
    settle_amounts s spec z base (is_fee_on_token0 pl z) =
      Ok (r_amount_0 r, r_amount_1 r, r_trade_fee_0 r, r_trade_fee_1 r) /\
    update_after_swap pl (st_tick s) (st_sqrt_price_x64 s) (st_liquidity s) (lp_fee s) (protocol_fee s)
      (fund_fee s) (st_fee_growth_global_x64 s) z (st_dynamic_fee_info s) = Ok p' /\
    r_sqrt_price_x64 r = sqrt_price_x64 p' /\ r_liquidity r = liquidity p' /\ r_tick r = tick_current p'.
Proof.
  intros Hp Hspec H. unfold swap_internal in H.
  apply rbind_Ok in H as (u1 & H1%lift_Ok%require_Ok & H).
  apply rbind_Ok in H as (u2 & H2%lift_Ok%require_Ok & H).
  apply rbind_Ok in H as (u3 & H3%lift_Ok%require_Ok & H).
  apply rbind_Ok in H as ([rs p0] & Hrw%lift_Ok & H).
  unfold pool_update_reward_infos in Hrw. apply obind_Ok in Hrw as (rs' & _ & [= <- <-]).
  set (p0 := set_reward_infos p rs') in *.
  apply rbind_Ok in H as (u4 & _ & H). apply rbind_Ok in H as ([fc start] & _ & H).
  apply rbind_Ok in H as ([c0 rest0] & _ & H). destruct (find_first_array _ _ _ _) as [[c rest] dn].
  apply rbind_Ok in H as (u5 & _ & H). apply rbind_Ok in H as (u6 & _ & H).
  set (a := mkSwapArgs _ _ _ _ _ _ _ _) in H.
  apply negb_true_iff, Z.eqb_neq in H1.
  assert (0 < limit < 2 ^ 128) as Hlim.
  { clear -H3 Hp. destruct Hp. unfold MIN_SQRT_PRICE_X64, MAX_SQRT_PRICE_X64 in H3.
    destruct z; apply andb_true_iff in H3 as [?%Z.ltb_lt ?%Z.ltb_lt]; cbn in *; lia. }
  apply rbind_Ok in H as (s0 & Hs0%lift_Ok & H). apply rbind_Ok in H as (e & Hloop & H).
  assert (swap_start a p0) as Hstart.
  { destruct Hp. clear -H3 pr_price0 pr_rate0 pr_protocol0 pr_fund0.
    constructor; cbn; try done; destruct z; apply andb_true_iff in H3 as [?%Z.ltb_lt ?%Z.ltb_lt]; unfold in_u; try done; lia. }
  destruct (swap_state_new_inv a p spec rs' ts s0 Hstart Hp Hspec Hs0) as [Hinv Hdyn].
  apply (outer_loop_inv a spec p0 Hstart) in Hloop as ([[Hs Hf] Hd] & Hrun);
    [|split; [constructor; [done|by destruct p]|done]].
  apply rbind_Ok in H as (s & Hv%lift_Ok & H).
  apply (update_volatility_on_price_Ok a spec p0) in Hv as (Hs' & Hmatch & Hrun'); [|done..].
  rewrite Hrun in Hrun'.
  apply rbind_Ok in H as (ob & _ & H). apply rbind_Ok in H as ([[[a0 a1] f0] f1] & Hset%lift_Ok & H).
  apply rbind_Ok in H as (p1 & Hup%lift_Ok & H). injection H as <- <- _ _ _.
  exists a, rs', s, (sl_pool e). split_and!; first [done|by apply Hlim|idtac].
Qed.
End Whole.

Section Properties.
Context {U : UintLib}.

End Properties.

(** * A concrete pool

    Price 1, liquidity 10^9, tick spacing 10, one initialized tick at -100. *)
Definition demo_pool : PoolState :=
  set_bitmap (set_pool_liquidity sample_pool 1000000000) (<[7%nat := 2 ^ 63]> U1024.zero).

Definition demo_tick : TickState := set_tick_liquidity (set_tick default_tick_state (-100)) 1000000000 1000000000.

Definition demo_array : TickArrayState :=
  mkTickArray 77 (-600) (<[50%nat := demo_tick]> (replicate 60%nat default_tick_state)) 1.

Definition demo_observations : ObservationState := observation_initialize 0 77.

Definition demo_result : SwapInternalResult :=
  mkSwapInternalResult 10000 9974 25 0 18446560069272860620 1000000000 (-1).

Lemma demo_swap_runs :
  exists p' arrays' obs' x',
    swap_internal (U := uint_std) 8 77 78 sample_config demo_pool [demo_array] demo_observations None
      10000 (MIN_SQRT_PRICE_X64 + 1) true true 5 = Some (Ok (demo_result, p', arrays', obs', x')).
Proof. do 4 eexists. vm_compute. reflexivity. Qed.

Lemma demo_pool_ready : pool_ready demo_pool sample_config.
Proof. constructor; by_compute. Qed.


(** * A gap in a pool with a dynamic fee

    Price 1, nothing in force, one position of liquidity 10^9 over
    [-2000, -1000), the parameters of the dynamic fee those the program
    accepts. *)
Definition gap_upper : TickState := set_tick_liquidity (set_tick default_tick_state (-1000)) (- 10 ^ 9) (10 ^ 9).
Definition gap_lower : TickState := set_tick_liquidity (set_tick default_tick_state (-2000)) (10 ^ 9) (10 ^ 9).
Definition gap_arrays : list TickArrayState :=
  [mkTickArray 77 (-1200) (<[20%nat := gap_upper]> (replicate 60%nat default_tick_state)) 1;
   mkTickArray 77 (-2400) (<[40%nat := gap_lower]> (replicate 60%nat default_tick_state)) 1].

Definition gap_pool : PoolState :=
  set_pool_dynamic_fee_info
    (set_bitmap (set_pool_liquidity sample_pool 0) (<[7%nat := 2 ^ 62 + 2 ^ 60]> U1024.zero))
    (mkDynamicFeeInfo 30 600 5000 4000 350000 0 0 0 0).

Definition gap_swap (p : PoolState) : option (outcome error (SwapInternalResult * PoolState)) :=
  let? '(r, p, _, _, _) := swap_internal (U := uint_std) 400 77 78 sample_config p gap_arrays demo_observations
    None 60000000 (MIN_SQRT_PRICE_X64 + 1) true true 5 in Some (Ok (r, p)).

(** The step that skips the empty range down to tick -1000 ends its round
    without moving the group, so the next step is bounded by the edge of the
    group of tick 0: the price goes back up to it, through ticks where nothing
    is in force, and the position is sold from there.  The swap pays out 57273089
    of token 1, the position holds 46389861 of it, and the pool ends
    at tick -171 with the position's liquidity in force. *)
Theorem gap_swap_moves_back :
  pool_ready gap_pool sample_config /\
  (exists r p', gap_swap gap_pool = Some (Ok (r, p')) /\ r_amount_1 r = 57273089 /\
     tick_current p' = -171 /\ liquidity p' = 10 ^ 9) /\
  get_delta_amount_1_unsigned (U := uint_std) (price_of (-2000)) (price_of (-1000)) (10 ^ 9) true = Ok 46389861.
Proof.
  split; [|split].
  - constructor; by_compute.
  - do 2 eexists. split; [vm_compute; reflexivity|]. by_compute.
  - by_compute.
Qed.

(** * A swap that never ends *)

Section Divergence.
Context {U : UintLib}.

(** Booking nothing changes nothing. *)
Lemma spilt_nothing s pr fr :
  swap_state_ok s -> spilt_fees s 0 pr fr = Ok s.
Proof.
  intros [H1 H2 H3 H4 H5 H6 H7]. unfold spilt_fees.
  assert (forall rate, fee_share 0 rate = Ok 0) as Hz.
  { intros rate. unfold fee_share. rewrite uint_checked_mul_law, Z.mul_0_l.
    rewrite ucheck_ok by by_compute. cbn [obind Prelude.ok_or]. rewrite uint_checked_div_law. cbn. apply big_u64_ok. by_compute. }
  assert ((if 0 <? pr then
      let! d := fee_share 0 pr in
      let! pf := ok_or (ucheck 64 (protocol_fee s + d)) CalculateOverflow in
      let! r := ok_or (ucheck 64 (0 - d)) CalculateOverflow in Ok (pf, r)
    else Ok (protocol_fee s, 0)) = Ok (protocol_fee s, 0)) as ->.
  { destruct (0 <? pr); [|done]. rewrite Hz. cbn [obind]. rewrite Z.add_0_r, ucheck_ok by done. done. }
  cbn [obind].
  assert ((if 0 <? fr then
      let! d := fee_share 0 fr in
      let! ff := ok_or (ucheck 64 (fund_fee s + d)) CalculateOverflow in
      let! r := ok_or (ucheck 64 (0 - d)) CalculateOverflow in Ok (ff, r)
    else Ok (fund_fee s, 0)) = Ok (fund_fee s, 0)) as ->.
  { destruct (0 <? fr); [|done]. rewrite Hz. cbn [obind]. rewrite Z.add_0_r, ucheck_ok by done. done. }
  cbn [obind]. destruct (Z.ltb_spec 0 (st_liquidity s)).
  - unfold mul_div_floor_u128. rewrite mul_div_floor_big_spec by (done || by_compute).
    destruct (Z.eqb_spec (st_liquidity s) 0); [lia|]. rewrite Z.mul_0_l, Z.div_0_l by done.
    unfold or_overflow. rewrite ucheck_ok by by_compute. cbn [obind Prelude.ok_or].
    rewrite big_u128_ok by by_compute. cbn [obind].
    rewrite !Z.add_0_r, ucheck_ok, uwrap_id by done. cbn. by destruct s.
  - rewrite Z.add_0_r, ucheck_ok by done. cbn. by destruct s.
Qed.

Lemma apply_nothing s pr fr :
  swap_state_ok s -> apply_swap_amounts s 0 0 0 true false pr fr = Ok s.
Proof.
  intros Hok. pose proof Hok as [H1 H2 _ _ _ _ _]. unfold apply_swap_amounts. cbn [obind].
  rewrite Z.sub_0_r, Z.add_0_r, !ucheck_ok by done. cbn [obind Prelude.ok_or].
  replace (set_amounts s _ _) with s by (by destruct s). by apply spilt_nothing.
Qed.

(** A swap step that has input left and a target ahead, and that charges and
    pays nothing. *)
Definition moves_nothing (a : SwapArgs) (s : SwapState) (target : Z) : Prop :=
  amount_specified_remaining s <> 0 /\ st_sqrt_price_x64 s <> target /\
  st_sqrt_price_x64 s <> st_sqrt_price_next_x64 s /\
  compute_swap (st_sqrt_price_x64 s) target (st_liquidity s) (amount_specified_remaining s)
    (base_fee_rate s) true (sa_zero_for_one a) false = Ok (mkSwapResult (st_sqrt_price_x64 s) 0 0 0).

(** An exact-input swap with the fee on the output can run for ever: when
    the input that remains is too small to move the price by one unit, a
    step of the inner loop charges nothing, pays nothing and changes
    nothing, and since neither the amount nor the price has reached its end
    the loop repeats the same step, whatever the fuel. *)
Theorem small_swap_never_ends a e t l target fuel :
  sa_is_base_input a = true -> sa_is_fee_on_input a = false ->
  swap_state_ok (sl_state e) -> st_dynamic_fee_info (sl_state e) = None ->
  is_Some (ucheck 64 (unfilled t)) -> moves_nothing a (sl_state e) target ->
  inner_loop a fuel target e t l = None.
Proof.
  remember (sl_state e) as s eqn:Es. symmetry in Es.
  intros Hb Hf Hok Hd [u Hu] (Hrem & Hne & Hnn & Hc).
  assert (inner_step a target e t l = Ok (false, e, t, l)) as Hstep.
  { unfold inner_step, swap_update_volatility_accumulator, swap_get_total_fee_rate, get_total_fee_rate,
      get_spacing_bounded_price, update_dynamic_fee_index. rewrite Es, Hd. cbn [obind].
    rewrite Hd. cbn [obind].
    unfold trade_on_curve. destruct (Z.eqb_spec (st_sqrt_price_x64 s) target); [done|]. cbn [negb].
    rewrite Hb, Hf, Hc. cbn [obind amount_in amount_out fee_amount].
    rewrite apply_nothing by done. cbn [obind sqrt_price_next_x64].
    unfold limit_order_unfilled_amount. fold (unfilled t). rewrite Hu. cbn [obind Prelude.ok_or].
    destruct (Z.eqb_spec (st_sqrt_price_next_x64 s) (st_sqrt_price_x64 s)); [congruence|].
    rewrite Z.eqb_refl. cbn [negb obind].
    assert (set_sl_state e s = e) as -> by (subst s; by destruct e). rewrite ?Es.
    assert (set_st_price s (st_sqrt_price_x64 s) = s) as -> by (by destruct s).
    assert (set_sl_state e s = e) as -> by (subst s; by destruct e).
    destruct (Z.eqb_spec (amount_specified_remaining s) 0), (Z.eqb_spec (st_sqrt_price_x64 s) target);
      try done. cbn [orb]. rewrite Hd. cbn [obind].
    assert (set_sl_state e s = e) as -> by (subst s; by destruct e). done. }
  induction fuel as [|fuel IH]; [done|]. cbn [inner_loop]. rewrite Hstep. cbn [lift rbind]. exact IH.
Qed.
End Divergence.

(** The demo pool with its fee on the output, liquidity 2^80 and 100 units to
    sell, on its way to tick -100. *)
Definition stuck_env : SwapEnv :=
  mkSwapEnv (mkSwapState 100 0 (2 ^ 64) 0 0 0 0 0 (2 ^ 80) (price_of (-100)) (-100) 10 2500 0 None)
    (set_pool_fee_on demo_pool 2) None demo_array [] [] (-600) true.

Definition stuck_args : SwapArgs :=
  mkSwapArgs 77 78 sample_config (MIN_SQRT_PRICE_X64 + 1) true true false
    (replicate REWARD_NUM (reward_info_new 9)).

Lemma small_swap_never_ends_witness :
  inner_loop (U := uint_std) stuck_args 1000000 (price_of (-100)) stuck_env demo_tick (2 ^ 80) = None.
Proof.
  apply (small_swap_never_ends (U := uint_std)).
  - reflexivity.
  - reflexivity.
  - constructor; by_compute.
  - reflexivity.
  - exists 0. reflexivity.
  - split; [discriminate|split; [discriminate|split; [discriminate|]]]. vm_compute. reflexivity.
Defined.
