(* ===== verification/SwapTrader.v ===== *)
(** What the swap instructions of [Swap] mean for the trader: the amounts that
    reach and leave the accounts, and the agreement of the two versions of the
    instruction. *)
From S2P Require Import Prelude.
From S2P Require Import AmmError.
From S2P Require Import BigNum.
From S2P Require Import FullMath.
From S2P Require Import Config.
From S2P Require Import TickMath.
From S2P Require Import BitmapExtension.
From S2P Require Import Oracle.
From S2P Require Import TickState.
From S2P Require Import TickArray.
From S2P Require Import Token.
From S2P Require Import Pool.
From S2P Require Import Shield.
From S2P Require Import SwapState.
From S2P Require Import SwapLoop.
From S2P Require Import Swap.
From S2P Require Import SwapCorrect.

(** What a mint withholds from an amount transferred. *)
Definition withheld (m : option Mint) (amount : Z) : Result Z :=
  match m with None => Ok 0 | Some m => get_transfer_fee m amount end.

(** The balances after [x] has left [from] and [x - f] has reached [to]. *)
Definition moved (from to : Pubkey) (x f : Z) (b b' : balances) : Prop :=
  forall k, b' k = b k - (if k =? from then x else 0) + (if k =? to then x - f else 0).

(** The documented behaviour of the token programs: a transfer between
    different accounts moves the amount, a [u64], from one to the other, less
    what the mint withholds; a mint of the classic program is served alike
    whether or not it is passed. *)
Record token_laws {P : TokenProgram} : Prop := {
  tl_moves m tr b b' : token_transfer m tr b = Ok b' -> tr_from tr <> tr_to tr ->
    exists f, withheld m (tr_amount tr) = Ok f /\ 0 <= f /\ moved (tr_from tr) (tr_to tr) (tr_amount tr) f b b';
  tl_amount m tr b b' : token_transfer m tr b = Ok b' -> in_u 64 (tr_amount tr);
  tl_classic m tr b : mint_is_classic m = true -> token_transfer (Some m) tr b = token_transfer None tr b;
}.

Record swap_accounts_distinct (c : SwapSingle) : Prop := {
  sd_in : input_token_account c <> input_vault c;
  sd_out : output_vault c <> output_token_account c;
  sd_user : input_token_account c <> output_token_account c;
  sd_vaults : input_vault c <> output_vault c;
  sd_cross_1 : input_token_account c <> output_vault c;
  sd_cross_2 : output_token_account c <> input_vault c;
}.

(** What the trader pays and receives. *)
Definition paid (c : SwapSingle) (b b' : balances) : Z := b (input_token_account c) - b' (input_token_account c).
Definition received (c : SwapSingle) (b b' : balances) : Z := b' (output_token_account c) - b (output_token_account c).

Section Settle.
Context {T : TokenLib} {P : TokenProgram} (Hlaws : token_laws).

Lemma pay_Ok m from to x b b' :
  pay m from to x b = Ok b' -> from <> to ->
  exists f, 0 <= f /\ moved from to x f b b' /\ (x = 0 -> f = 0) /\
    (x <> 0 -> in_u 64 x /\ withheld m x = Ok f).
Proof.
  unfold pay. destruct (Z.eqb_spec x 0) as [->|Hx]; intros H Hne.
  - injection H as <-. exists 0. split; [done|]. split; [|done].
    intros k. destruct (k =? from), (k =? to); lia.
  - pose proof (tl_amount Hlaws _ _ _ _ H) as Ha.
    apply (tl_moves Hlaws) in H as (f & Hf & H0 & Hm); [|done]. exists f. done.
Qed.

(** The two transfers of a swap, on the four accounts. *)
Lemma pays_Ok c mi mo x y b b1 b2 :
  swap_accounts_distinct c ->
  pay mi (input_token_account c) (input_vault c) x b = Ok b1 ->
  pay mo (output_vault c) (output_token_account c) y b1 = Ok b2 ->
  exists fi fo, 0 <= fi /\ 0 <= fo /\ paid c b b2 = x /\ received c b b2 = y - fo /\
    b2 (input_vault c) = b (input_vault c) + x - fi /\ b2 (output_vault c) = b (output_vault c) - y /\
    (forall k, k <> input_token_account c -> k <> output_token_account c -> k <> input_vault c ->
       k <> output_vault c -> b2 k = b k) /\
    (x <> 0 -> in_u 64 x /\ withheld mi x = Ok fi) /\ (y <> 0 -> in_u 64 y /\ withheld mo y = Ok fo).
Proof.
  intros [D1 D2 D3 D4 D5 D6] H1 H2. apply pay_Ok in H1 as (fi & Hfi & M1 & _ & W1); [|done].
  apply pay_Ok in H2 as (fo & Hfo & M2 & _ & W2); [|done]. exists fi, fo. unfold paid, received.
  split; [done|]. split; [done|].
  assert (N : forall a b' : Pubkey, a <> b' -> (a =? b') = false) by (intros; by apply Z.eqb_neq).
  rewrite (M2 (input_token_account c)), (M1 (input_token_account c)), (M2 (output_token_account c)),
    (M1 (output_token_account c)), (M2 (input_vault c)), (M1 (input_vault c)), (M2 (output_vault c)),
    (M1 (output_vault c)).
  rewrite !Z.eqb_refl, !N by congruence.
  split; [lia|]. split; [lia|]. split; [lia|]. split; [lia|]. split; [|done].
  intros k N1 N2 N3 N4. rewrite (M2 k), (M1 k), !N by done. lia.
Qed.

(** The settlement of [exact_internal]. *)
Lemma settle_swap_Ok c (z base : bool) amount limit q r b x b' :
  swap_accounts_distinct c -> settle_swap c z base amount limit q r b = Ok (x, b') ->
  0 < input_amount r z /\ 0 < output_amount r z /\
  in_u 64 (input_amount r z) /\ in_u 64 (output_amount r z) /\
  paid c b b' = input_amount r z /\ received c b b' = output_amount r z /\
  b' (input_vault c) = b (input_vault c) + input_amount r z /\
  b' (output_vault c) = b (output_vault c) - output_amount r z /\
  (forall k, k <> input_token_account c -> k <> output_token_account c -> k <> input_vault c ->
     k <> output_vault c -> b' k = b k) /\
  x = (if base then output_amount r z else input_amount r z) /\
  (limit = 0 -> amount = if base then input_amount r z else output_amount r z).
Proof.
  intros Hd H. unfold settle_swap in H.
  apply obind_Ok in H as (_ & Hnz%require_Ok & H). cbn zeta in H.
  assert (input_amount r z <> 0 /\ output_amount r z <> 0) as [Hi Ho].
  { apply andb_true_iff in Hnz as [H0 H1]. apply negb_true_iff, Z.eqb_neq in H0.
    apply negb_true_iff, Z.eqb_neq in H1. by destruct z. }
  apply obind_Ok in H as (b1 & H1 & H). apply obind_Ok in H as (b2 & H2 & H).
  apply obind_Ok in H as (_ & _ & H). apply obind_Ok in H as (u & Hlim & H).
  apply obind_Ok in H as (x' & [-> Hx]%ok_or_Ok%ucheck_Some & H). injection H as <- <-.
  destruct (pays_Ok c _ _ _ _ _ _ _ Hd H1 H2)
    as (fi & fo & _ & _ & Ep & Er & Ei & Eo & Hk & [Hui Wi] & [Huo Wo]); [done|done|..].
  cbn in Wi, Wo. injection Wi as <-. injection Wo as <-.
  split; [range|]. split; [range|]. split; [done|]. split; [done|]. split; [done|]. split; [lia|].
  split; [lia|]. split; [done|]. split; [done|]. split; [destruct base; lia|].
  intros ->. cbn in Hlim. apply require_Ok, Z.eqb_eq in Hlim. done.
Qed.

(** A mint that withholds all of a transfer, up to its maximum. *)
Definition takes_all (m : Mint) : bool :=
  if mint_is_classic m then false
  else match mint_fee_config m with
       | Some c => transfer_fee_basis_points c =? MAX_FEE_BASIS_POINTS
       | None => false
       end.

(** The fee added on top of an amount is the one withheld from the sum. *)
Lemma inverse_fee_exact m a f g :
  get_transfer_inverse_fee m a = Ok f -> takes_all m = false -> get_transfer_fee m (a + f) = Ok g -> g = f.
Proof.
  unfold get_transfer_inverse_fee, takes_all, get_transfer_fee.
  destruct (mint_is_classic m); [by intros [= <-] _ [= <-]|].
  destruct (mint_fee_config m) as [c|]; [|by intros [= <-] _ [= <-]].
  intros H Hm. rewrite Hm in H. apply obind_Ok in H as (y & _ & H).
  apply obind_Ok in H as (z & [-> _]%ok_or_Ok%ucheck_Some & H).
  apply obind_Ok in H as (w & Hw%ok_or_Ok & H).
  destruct (Z.eqb_spec y w) as [->|]; [|done]. cbn [negb] in H. injection H as <-.
  rewrite Hw. by intros [= <-].
Qed.

(** The settlement of [exact_internal_v2]. *)
Lemma settle_swap_v2_Ok c (z base : bool) amount spec fee limit q r b x b' :
  swap_accounts_distinct c -> settle_swap_v2 c z base amount spec fee limit q r b = Ok (x, b') ->
  exists fi fo, 0 <= fi /\ 0 <= fo /\
    b' (input_vault c) = b (input_vault c) + paid c b b' - fi /\
    b' (output_vault c) = b (output_vault c) - output_amount r z /\
    received c b b' = output_amount r z - fo /\
    withheld (Some (output_vault_mint c)) (output_amount r z) = Ok fo /\
    (forall k, k <> input_token_account c -> k <> output_token_account c -> k <> input_vault c ->
       k <> output_vault c -> b' k = b k) /\
    x = (if base then received c b b' else paid c b b') /\
    (limit = 0 -> if base then paid c b b' = amount else output_amount r z = spec).
Proof.
  intros Hd H. unfold settle_swap_v2 in H.
  apply obind_Ok in H as (u0 & Hnz%require_Ok & H). cbn zeta in H.
  assert (output_amount r z <> 0) as Ho.
  { apply andb_true_iff in Hnz as [H0 H1]. apply negb_true_iff, Z.eqb_neq in H0.
    apply negb_true_iff, Z.eqb_neq in H1. by destruct z. }
  apply obind_Ok in H as ([fee_in fee_out] & _ & H). apply obind_Ok in H as (u1 & _ & H).
  apply obind_Ok in H as (tin & _ & H).
  apply obind_Ok in H as (b1 & H1 & H). apply obind_Ok in H as (b2 & H2 & H).
  apply obind_Ok in H as (u2 & _ & H). apply obind_Ok in H as (u3 & Hlim & H).
  apply obind_Ok in H as (y & [-> Hx]%ok_or_Ok%ucheck_Some & H). injection H as <- <-.
  destruct (pays_Ok c _ _ _ _ _ _ _ Hd H1 H2)
    as (fi & fo & Hfi & Hfo & Ep & Er & Ei & Eo & Hk & _ & Wo). destruct (Wo Ho) as [_ Wo'].
  exists fi, fo. split; [done|]. split; [done|]. split; [lia|]. split; [done|]. split; [done|].
  split; [done|]. split; [done|]. split; [by unfold received, paid; destruct base|].
  intros ->. cbn in Hlim. destruct base; apply require_Ok, Z.eqb_eq in Hlim; lia.
Qed.

(** ** The two settlements agree on classic mints *)

(** What both settlements require and return. *)
Definition settled_as (c : SwapSingle) (z base : bool) (amount limit q : Z) (r : SwapInternalResult)
    (b : balances) (x : Z) (b' : balances) : Prop :=
  negb (r_amount_0 r =? 0) && negb (r_amount_1 r =? 0) = true /\
  (exists b1, pay None (input_token_account c) (input_vault c) (input_amount r z) b = Ok b1 /\
     pay None (output_vault c) (output_token_account c) (output_amount r z) b1 = Ok b') /\
  require_direction z q (r_sqrt_price_x64 r) = Ok tt /\
  (if limit =? 0 then amount = if base then input_amount r z else output_amount r z else True) /\
  x = if base then output_amount r z else input_amount r z.

Lemma nonzero_amounts r (z : bool) :
  negb (r_amount_0 r =? 0) && negb (r_amount_1 r =? 0) = true -> input_amount r z <> 0 /\ output_amount r z <> 0.
Proof.
  intros [H0%negb_true_iff%Z.eqb_neq H1%negb_true_iff%Z.eqb_neq]%andb_true_iff. by destruct z.
Qed.

(** The amounts of the two payments are amounts of tokens. *)
Lemma pays_range c x y b b1 b2 :
  swap_accounts_distinct c ->
  pay None (input_token_account c) (input_vault c) x b = Ok b1 ->
  pay None (output_vault c) (output_token_account c) y b1 = Ok b2 ->
  x <> 0 -> y <> 0 ->
  in_u 64 x /\ in_u 64 y /\ paid c b b2 = x /\ received c b b2 = y /\
  b2 (input_vault c) - b (input_vault c) = x /\ b (output_vault c) - b2 (output_vault c) = y.
Proof.
  intros Hd H1 H2 Hx Hy. destruct (pays_Ok c _ _ _ _ _ _ _ Hd H1 H2)
    as (fi & fo & _ & _ & Ep & Er & Ei & Eo & _ & Wi & Wo).
  destruct (Wi Hx) as [Hux [= <-]], (Wo Hy) as [Huy [= <-]]. repeat split; first [apply Hux|apply Huy|lia].
Qed.

Lemma settle_swap_iff c z base amount limit q r b x b' :
  swap_accounts_distinct c ->
  settle_swap c z base amount limit q r b = Ok (x, b') <-> settled_as c z base amount limit q r b x b'.
Proof.
  intros Hd. unfold settle_swap, settled_as. split.
  - intros H. apply obind_Ok in H as (u0 & Hnz%require_Ok & H). cbn zeta in H.
    destruct (nonzero_amounts r z Hnz) as [Hi Ho].
    apply obind_Ok in H as (b1 & H1 & H). apply obind_Ok in H as (b2 & H2 & H).
    apply obind_Ok in H as ([] & Hdir & H). apply obind_Ok in H as (u3 & Hlim & H).
    apply obind_Ok in H as (y & [-> Hx]%ok_or_Ok%ucheck_Some & H). injection H as <- <-.
    destruct (pays_range c _ _ _ _ _ Hd H1 H2 Hi Ho) as (_ & _ & _ & _ & Ei & Eo).
    split; [done|]. split; [by exists b1|]. split; [done|]. split; [|by destruct base].
    destruct (limit =? 0); [by apply require_Ok, Z.eqb_eq in Hlim|done].
  - intros (Hnz & (b1 & H1 & H2) & Hdir & Hlim & ->). destruct (nonzero_amounts r z Hnz) as [Hi Ho].
    destruct (pays_range c _ _ _ _ _ Hd H1 H2 Hi Ho) as (Ui & Uo & _ & _ & Ei & Eo).
    rewrite Hnz. cbn [Prelude.require obind]. rewrite H1. cbn [obind]. rewrite H2. cbn [obind].
    rewrite Hdir. cbn [obind]. rewrite Ei, Eo.
    replace (if limit =? 0 then _ else Ok tt) with (@Ok error _ tt).
    2:{ destruct (limit =? 0); [|done]. unfold require_eq. by rewrite (proj2 (Z.eqb_eq _ _) Hlim). }
    cbn [obind]. rewrite ucheck_ok by (by destruct base). done.
Qed.

Lemma settle_swap_v2_iff c z base amount limit q r b x b' :
  swap_accounts_distinct c -> mint_is_classic (input_vault_mint c) = true ->
  mint_is_classic (output_vault_mint c) = true ->
  settle_swap_v2 c z base amount amount 0 limit q r b = Ok (x, b') <->
  settled_as c z base amount limit q r b x b'.
Proof.
  intros Hd Ci Co.
  assert (forall ai ao, swap_transfer_fees c z base amount 0 ai ao = Ok (0, 0)) as Hfees.
  { intros ai ao. unfold swap_transfer_fees, get_transfer_inverse_fee, get_transfer_fee. rewrite Ci, Co.
    by destruct (base && _), z. }
  assert (forall m from to y b0, mint_is_classic m = true -> pay (Some m) from to y b0 = pay None from to y b0) as Hpay.
  { intros m from to y b0 Hm. unfold pay. by rewrite (tl_classic Hlaws). }
  unfold settle_swap_v2, settled_as. cbn zeta. rewrite Hfees. cbn [obind]. rewrite Z.sub_0_r, Z.add_0_r.
  split.
  - intros H. apply obind_Ok in H as (u0 & Hnz%require_Ok & H). destruct (nonzero_amounts r z Hnz) as [Hi Ho].
    apply obind_Ok in H as (n & _ & H). apply obind_Ok in H as (y & [-> Uin]%ok_or_Ok%ucheck_Some & H).
    apply obind_Ok in H as (b1 & H1 & H). apply obind_Ok in H as (b2 & H2 & H).
    rewrite Hpay in H1, H2 by done.
    apply obind_Ok in H as ([] & Hdir & H). apply obind_Ok in H as (u3 & Hlim & H).
    apply obind_Ok in H as (w & [-> Hx]%ok_or_Ok%ucheck_Some & H). injection H as <- <-.
    destruct (pays_range c _ _ _ _ _ Hd H1 H2 Hi Ho) as (_ & _ & Ep & Er & _ & _).
    split; [done|]. split; [by exists b1|]. split; [done|]. split; [|unfold paid, received in *; by destruct base].
    destruct (limit =? 0), base; try done; by apply require_Ok, Z.eqb_eq in Hlim.
  - intros (Hnz & (b1 & H1 & H2) & Hdir & Hlim & ->). destruct (nonzero_amounts r z Hnz) as [Hi Ho].
    destruct (pays_range c _ _ _ _ _ Hd H1 H2 Hi Ho) as (Ui & Uo & Ep & Er & _ & _). unfold paid, received in *.
    rewrite Hnz. cbn [Prelude.require obind]. rewrite !(ucheck_ok 64) by done. cbn [ok_or obind].
    rewrite !Hpay by done. rewrite H1. cbn [obind]. rewrite Hpay, H2 by done. cbn [obind]. rewrite Hdir. cbn [obind].
    rewrite Ep, Er.
    replace (if limit =? 0 then _ else Ok tt) with (@Ok error _ tt).
    2:{ destruct (limit =? 0); [|done]. unfold require_eq.
        destruct base; by rewrite (proj2 (Z.eqb_eq _ _) Hlim). }
    cbn [obind]. rewrite ucheck_ok by (by destruct base). done.
Qed.
End Settle.

(** Remaining accounts that are the extension or tick arrays. *)
Definition plain_account (x : SwapAccount) : bool :=
  match x with ExtensionAccount _ | TickArrayAccount _ => true | _ => false end.

Lemma collect_plain pda l ext :
  forallb plain_account l = true ->
  exists e arrays, collect_accounts l ext = Ok (e, arrays) /\ collect_accounts_v2 pda l ext None = (e, None, arrays).
Proof.
  revert ext. induction l as [|x l IH]; intros ext; [by exists ext, []|]. cbn [forallb].
  intros [Hx Hl]%andb_true_iff. destruct x; try done; cbn [collect_accounts collect_accounts_v2].
  - by apply IH.
  - destruct (IH ext Hl) as (e & arrays & -> & ->). by exists e, (a :: arrays).
Qed.

Section Properties.
Context {U : UintLib} {T : TokenLib} {P : TokenProgram} (fuel : nat) (pool_key ext_key : Pubkey).

(** The protection of the trader by [swap]: whatever the pool and its
    ticks do, a swap that succeeds takes from the input account what the input
    vault gains and gives the output account what the output vault loses, and
    moves nothing else; with an exact input at least the threshold is
    received, and without a price limit exactly [amount] is paid; with an exact
    output at most the threshold is paid, and without a price limit exactly
    [amount] is received. *)
Theorem swap_protects_trader c p arr o rem b amount threshold limit (base : bool) ts s :
  token_laws -> swap_accounts_distinct c ->
  swap fuel pool_key ext_key c p arr o rem b amount threshold limit base ts = Some (Ok s) ->
  let b' := so_balances s in
  0 < paid c b b' /\ 0 < received c b b' /\
  b' (input_vault c) = b (input_vault c) + paid c b b' /\
  b' (output_vault c) = b (output_vault c) - received c b b' /\
  (forall k, k <> input_token_account c -> k <> output_token_account c -> k <> input_vault c ->
     k <> output_vault c -> b' k = b k) /\
  (if base then threshold <= received c b b' /\ (limit = 0 -> paid c b b' = amount)
   else paid c b b' <= threshold /\ (limit = 0 -> received c b b' = amount)).
Proof.
  intros Hlaws Hd H. unfold swap in H.
  apply rbind_Ok in H as (u1 & _ & H). apply rbind_Ok in H as (u2 & _ & H).
  apply rbind_Ok in H as (s1 & Hs & H). apply rbind_Ok in H as (u3 & Ht%lift_Ok & H). injection H as <-.
  unfold exact_internal in Hs. apply rbind_Ok in Hs as (u4 & _ & Hs). apply rbind_Ok in Hs as (u5 & _ & Hs).
  apply rbind_Ok in Hs as ([ext arrays] & _ & Hs).
  apply rbind_Ok in Hs as ([[[[r p'] arrays'] o'] ext'] & _ & Hs).
  apply rbind_Ok in Hs as ([x b'] & Hset%lift_Ok & Hs). injection Hs as <-. cbn [so_balances so_amount] in *.
  apply (settle_swap_Ok Hlaws) in Hset as (Hi & Ho & _ & _ & Ep & Er & Ei & Eo & Hk & -> & Hl); [|done].
  split; [lia|]. split; [lia|]. split; [lia|]. split; [lia|]. split; [done|].
  unfold check_threshold in Ht. destruct base; apply require_Ok, Z.leb_le in Ht.
  - split; [lia|]. intros ?. rewrite Ep. symmetry. by apply Hl.
  - split; [lia|]. intros ?. rewrite Er. symmetry. by apply Hl.
Qed.

Context (arb_config_pda program_ID : Pubkey).

(** C5: The protection of the trader by [swap_v2], with mints that withhold a
    fee from every transfer and whatever the shield does before the swap: a
    swap that succeeds moves tokens between the trader's two accounts and the
    two vaults only, each mint withholding its fee; with an exact input at
    least the threshold arrives in the output account, after the fee, and
    without a price limit exactly [amount] leaves the input account; with an
    exact output at most the threshold leaves the input account, and without a
    price limit exactly [amount] arrives - unless the mint takes the whole of
    a transfer. *)
Theorem swap_v2_protects_trader c p o rem last b amount threshold limit (base : bool) slot ts s arb last' :
  token_laws -> swap_accounts_distinct c ->
  swap_v2 fuel pool_key ext_key arb_config_pda program_ID c p o rem last b amount threshold limit base slot ts
    = Some (Ok (s, arb, last')) ->
  let b' := so_balances s in
  (exists fi fo, 0 <= fi /\ 0 <= fo /\
     b' (input_vault c) = b (input_vault c) + paid c b b' - fi /\
     b' (output_vault c) = b (output_vault c) - received c b b' - fo) /\
  (forall k, k <> input_token_account c -> k <> output_token_account c -> k <> input_vault c ->
     k <> output_vault c -> b' k = b k) /\
  (if base then threshold <= received c b b' /\ (limit = 0 -> paid c b b' = amount)
   else paid c b b' <= threshold /\
        (limit = 0 -> takes_all (output_vault_mint c) = false -> received c b b' = amount)).
Proof.
  intros Hlaws Hd H. unfold swap_v2 in H.
  apply rbind_Ok in H as (u1 & _ & H). apply rbind_Ok in H as (u2 & _ & H). apply rbind_Ok in H as (u3 & _ & H).
  apply rbind_Ok in H as ([[s1 arb1] last1] & Hs & H). apply rbind_Ok in H as (u4 & Ht%lift_Ok & H).
  injection H as <- <- <-. unfold exact_internal_v2 in Hs.
  apply rbind_Ok in Hs as ([spec fee] & Hspec%lift_Ok & Hs).
  apply rbind_Ok in Hs as (u5 & _ & Hs). apply rbind_Ok in Hs as (u6 & _ & Hs).
  destruct (collect_accounts_v2 arb_config_pda rem None None) as [[ext arb0] arrays].
  apply rbind_Ok in Hs as ([p1 arb2] & _ & Hs). apply rbind_Ok in Hs as ([[tax p2] arb3] & _ & Hs).
  apply rbind_Ok in Hs as ([[[[r p'] arrays'] o'] ext'] & _ & Hs).
  apply rbind_Ok in Hs as ([x b'] & Hset%lift_Ok & Hs). injection Hs as <- <- <-. cbn [so_balances so_amount] in *.
  apply (settle_swap_v2_Ok Hlaws) in Hset as (fi & fo & Hfi & Hfo & Ei & Eo & Er & Wo & Hk & -> & Hl); [|done].
  set (r' := add_tax _ _ _) in *. split; [exists fi, fo; repeat split; lia|]. split; [done|].
  unfold check_threshold in Ht. destruct base; apply require_Ok, Z.leb_le in Ht; [by split|].
  split; [done|]. intros E Hm. specialize (Hl E). cbn in Hspec.
  apply obind_Ok in Hspec as (f & Hf & Hspec). apply obind_Ok in Hspec as (a & [-> _]%uchk_Ok & Hspec).
  injection Hspec as <- <-. rewrite Er, Hl. cbn [withheld] in Wo. rewrite Hl in Wo.
  rewrite (inverse_fee_exact _ _ _ _ Hf Hm Wo). lia.
Qed.

(** C6: The two swap instructions agree: on mints of the classic token program,
    for a pool that is open, and with the tick arrays and the extension as the
    only accounts besides the named ones - so without the configuration of the
    sweep - [swap] succeeds exactly when [swap_v2] does on the same accounts,
    and both leave the same pool, ticks, observations and balances. *)
Theorem swap_v2_agrees c p arr o rem last b amount threshold limit (base : bool) slot ts s :
  token_laws -> swap_accounts_distinct c -> in_u 64 amount ->
  mint_is_classic (input_vault_mint c) = true -> mint_is_classic (output_vault_mint c) = true ->
  mint_key (input_vault_mint c) = input_vault_mint_key c ->
  mint_key (output_vault_mint c) = output_vault_mint_key c ->
  ta_pool_id arr = pool_key -> forallb plain_account rem = true ->
  pool_open_time p < uwrap 64 ts -> last < uwrap 64 ts ->
  swap fuel pool_key ext_key c p arr o rem b amount threshold limit base ts = Some (Ok s) <->
  swap_v2 fuel pool_key ext_key arb_config_pda program_ID c p o (TickArrayAccount arr :: rem) last b amount
    threshold limit base slot ts = Some (Ok (s, None, slot)).
Proof.
  intros Hlaws Hd Ha Ci Co Ki Ko Harr Hrem Hopen Hlast.
  destruct (collect_plain arb_config_pda rem None Hrem) as (ext & arrays & E1 & E2).
  assert (forall s, exact_internal fuel pool_key ext_key c p arr o rem b amount limit base ts = Some (Ok s) <->
          exact_internal_v2 fuel pool_key ext_key arb_config_pda program_ID c p o (TickArrayAccount arr :: rem)
            last b amount limit base slot ts = Some (Ok (s, None, slot))) as Hiff.
  { clear s. intros s. unfold exact_internal, exact_internal_v2, specified_amount. cbn [collect_accounts_v2]. rewrite E1, E2.
    unfold get_transfer_fee, get_transfer_inverse_fee, require_gt. rewrite Ci, Co. cbn [obind].
    rewrite Z.sub_0_r, Z.add_0_r, !(uchk_ok 64) by done.
    rewrite (proj2 (Z.ltb_lt _ _) Hopen), (proj2 (Z.ltb_lt _ _) Hlast). cbn [Prelude.require lift rbind obind].
    replace (if base then Ok (amount, 0) else Ok (amount, 0)) with (@Ok error _ (amount, 0)) by (by destruct base).
    cbn [rbind].
    destruct (require_swap_vaults c p (input_vault_mint_key c =? token_mint_0 p)); cbn [rbind lift]; try done.
    cbn [try_pre_swap_shield load_arb try_apply_manipulation_tax].
    replace (if base then Ok (0, p, None) else Ok (0, p, None)) with (@Ok error (Z * PoolState * option ArbAccount) (0, p, None))
      by (by destruct base).
    cbn [rbind]. rewrite Z.sub_0_r, usat_id by done. cbn [add_tax Z.ltb Z.compare].
    destruct (swap_internal _ _ _ _ _ _ _ _ _ _ _ _ _) as [[[[[[r p'] arrays'] o'] ext']|e|]|]; cbn [rbind]; try done.
    unfold add_tax. cbn [Z.ltb Z.compare]. split; intros H.
    - destruct (settle_swap _ _ _ _ _ _ _ _) as [[x b']|e|] eqn:H1; [|done|done].
      apply (settle_swap_iff Hlaws) in H1; [|done].
      apply (settle_swap_v2_iff Hlaws) in H1; [|done..]. rewrite H1. injection H as <-. done.
    - destruct (settle_swap_v2 _ _ _ _ _ _ _ _ _ _) as [[x b']|e|] eqn:H1; [|done|done].
      apply (settle_swap_v2_iff Hlaws) in H1; [|done..].
      apply (settle_swap_iff Hlaws) in H1; [|done]. rewrite H1. injection H as <-. done. }
  unfold swap, swap_v2. rewrite Harr, Ki, Ko, !Z.eqb_refl. cbn [Prelude.require lift rbind].
  destruct (require_swap_accounts c p); cbn [rbind]; try done. split; intros H.
  - destruct (exact_internal _ _ _ _ _ _ _ _ _ _ _ _ _) as [[s1|e|]|] eqn:H1; try done. cbn [rbind] in H.
    rewrite (proj1 (Hiff s1) eq_refl). cbn [rbind].
    destruct (check_threshold _ _ _) eqn:Hu; try done. by injection H as ->.
  - destruct (exact_internal_v2 _ _ _ _ _ _ _ _ _ _ _ _ _ _ _) as [[[[s1 a1] l1]|e|]|] eqn:H1; try done.
    cbn [rbind] in H. destruct (check_threshold _ _ _) eqn:Hu; try done. injection H as -> -> ->.
    rewrite (proj2 (Hiff s) eq_refl). cbn [rbind]. by rewrite Hu.
Qed.
End Properties.

(** * Examples *)

Section Examples.
#[local] Existing Instance uint_std.

#[local] Instance demo_lib : TokenLib := {| MAX_FEE_BASIS_POINTS := 10000 |}.

(** A token program that does what the laws say. *)
#[local] Instance demo_tokens : TokenProgram := {|
  token_transfer m tr b :=
    do! require (uok 64 (tr_amount tr)) ConstraintViolated in
    let! f := withheld m (tr_amount tr) in
    do! require (0 <=? f) ConstraintViolated in
    Ok (fun k => b k - (if k =? tr_from tr then tr_amount tr else 0)
                 + (if k =? tr_to tr then tr_amount tr - f else 0))
|}.

Lemma demo_tokens_laws : token_laws.
Proof.
  split.
  - intros m tr b b' H _. cbn in H. apply obind_Ok in H as (u & _ & H). apply obind_Ok in H as (f & Hf & H).
    apply obind_Ok in H as (u' & Hp%require_Ok%Z.leb_le & H). injection H as <-. by exists f.
  - intros m tr b b' H. cbn in H. by apply obind_Ok in H as (u & Hu%require_Ok%uok_spec & H).
  - intros m tr b Hm. cbn. unfold get_transfer_fee. by rewrite Hm.
Qed.

(** Mints of the classic program, and mints that withhold one percent. *)
Definition classic_mint (k : Pubkey) : Mint := mkMint k true None.
Definition one_percent (a : Z) : option Z := Some (zceil a 100).
Definition fee_mint (k : Pubkey) : Mint :=
  mkMint k false (Some (mkTransferFeeConfig 100 (umax 64) one_percent (fun a => Some (zceil a 99)))).

Definition demo_accounts (mint : Pubkey -> Mint) : SwapSingle :=
  mkSwapSingle (amm_config_key demo_pool) sample_config (observation_key demo_pool) 51 52
    (token_vault_0 demo_pool) (token_mint_0 demo_pool) (token_vault_1 demo_pool) (token_mint_1 demo_pool)
    (mint (token_mint_0 demo_pool)) (mint (token_mint_1 demo_pool)).

Lemma demo_accounts_distinct mint : swap_accounts_distinct (demo_accounts mint).
Proof. constructor; vm_compute; discriminate. Qed.

(** Everyone holds 100000 units. *)
Definition demo_balances : balances := fun _ => 100000.

(** Running a swap without reading the balances back. *)
Lemma runs_ok {A} (m : run error A) (f : A -> bool) :
  match m with Some (Ok a) => f a | _ => false end = true -> exists a, m = Some (Ok a) /\ f a = true.
Proof. destruct m as [[a|e|]|]; intros H; try discriminate H. by exists a. Qed.

Lemma demo_swap_v1 :
  exists s, swap 8 77 78 (demo_accounts classic_mint) demo_pool demo_array demo_observations [] demo_balances
      10000 9900 0 true 5 = Some (Ok s) /\ (so_amount s =? 9974) = true.
Proof. apply (runs_ok _ (fun s => so_amount s =? 9974)). vm_compute. reflexivity. Qed.

Lemma demo_swap_v2 :
  exists x, swap_v2 8 77 78 79 80 (demo_accounts fee_mint) demo_pool demo_observations [TickArrayAccount demo_array]
      0 demo_balances 10000 9700 0 true 3 5 = Some (Ok x) /\ true = true.
Proof. apply (runs_ok _ (fun _ => true)). vm_compute. reflexivity. Qed.

Lemma swap_protects_trader_witness :
  exists s, paid (demo_accounts classic_mint) demo_balances (so_balances s) = 10000 /\
    9900 <= received (demo_accounts classic_mint) demo_balances (so_balances s).
Proof.
  destruct demo_swap_v1 as (s & H & _). exists s.
  destruct (swap_protects_trader 8 77 78 (demo_accounts classic_mint) demo_pool demo_array demo_observations []
              demo_balances 10000 9900 0 true 5 s demo_tokens_laws (demo_accounts_distinct classic_mint) H)
    as (_ & _ & _ & _ & _ & Hr & Hp).
  split; [exact (Hp eq_refl)|exact Hr].
Defined.

Lemma swap_v2_protects_trader_witness :
  exists s, paid (demo_accounts fee_mint) demo_balances (so_balances s) = 10000 /\
    9700 <= received (demo_accounts fee_mint) demo_balances (so_balances s).
Proof.
  destruct demo_swap_v2 as ([[s arb] last'] & H & _). exists s.
  destruct (swap_v2_protects_trader 8 77 78 79 80 (demo_accounts fee_mint) demo_pool demo_observations
              [TickArrayAccount demo_array] 0 demo_balances 10000 9700 0 true 3 5 s arb last' demo_tokens_laws
              (demo_accounts_distinct fee_mint) H) as (_ & _ & Hr & Hp).
  split; [exact (Hp eq_refl)|exact Hr].
Defined.

Lemma swap_v2_agrees_witness :
  exists s, swap_v2 8 77 78 79 80 (demo_accounts classic_mint) demo_pool demo_observations
      [TickArrayAccount demo_array] 0 demo_balances 10000 9900 0 true 3 5 = Some (Ok (s, None, 3)) /\
    so_amount s = 9974.
Proof.
  destruct demo_swap_v1 as (s & H & Hs). exists s. split; [|exact (proj1 (Z.eqb_eq _ _) Hs)].
  assert (in_u 64 10000) as Hu by by_compute.
  assert (pool_open_time demo_pool < uwrap 64 5 /\ 0 < uwrap 64 5) as [H1 H2] by (split; reflexivity).
  exact (proj1 (swap_v2_agrees 8 77 78 79 80 (demo_accounts classic_mint) demo_pool demo_array demo_observations [] 0
           demo_balances 10000 9900 0 true 3 5 s demo_tokens_laws (demo_accounts_distinct classic_mint) Hu
           eq_refl eq_refl eq_refl eq_refl eq_refl eq_refl H1 H2) H).
Defined.
End Examples.
