(* ===== verification/ArrayStore.v ===== *)
(** The store of a pool's tick arrays, seen as one function from tick indices
    to ticks, with the count each array keeps of its initialized ticks and the
    pool's bitmaps, which mark the arrays that have some. *)
From S2P Require Import Prelude.
From stdpp Require Import gmap.
From S2P Require Import AmmError.
From S2P Require Import BigNum.
From S2P Require Import Config.
From S2P Require Import TickMath.
From S2P Require Import TickIndex.
From S2P Require Import BitmapExtension.
From S2P Require Import TickState.
From S2P Require Import TickArray.
From S2P Require Import Pool.
From S2P Require Import PoolBitmap.
From S2P Require Import Position.
#[local] Open Scope Z_scope.

(** * The view of the store *)

Definition b2z (b : bool) : Z := if b then 1 else 0.

(** The initialized ticks of an array. *)
Definition live_count (a : TickArrayState) : Z := sum_z (fun t => b2z (is_initialized t)) (ticks a).

Definition grid (s T : Z) : Prop := small T /\ T mod s = 0.

Section Store.
Context (addr : Z -> Pubkey) (s : Z) (Hs : spacing_ok s).

(** The tick of index [T]: the one its array holds, or a fresh one. *)
Definition tick_at (m : arrays) (T : Z) : TickState :=
  match m !! addr (array_start T s) with
  | Some a => match get_tick_state a T s with Ok t => t | _ => default_tick_state end
  | None => default_tick_state
  end.

(** Every array of the store is well formed, valid and at its own address. *)
Definition store_ok (m : arrays) : Prop :=
  forall (k : Pubkey) a, m !! k = Some a ->
    array_ok s a /\ valid_start (start_tick_index a) s /\ k = addr (start_tick_index a).

Lemma load_array_Ok m k a : load_array m k = Ok a <-> m !! k = Some a.
Proof. unfold load_array. apply ok_or_Ok. Qed.

(** Reading a tick through an account that holds its array. *)
Lemma get_tick_state_start a T t :
  small T -> get_tick_state a T s = Ok t -> array_start T s = start_tick_index a.
Proof.
  intros HT H. unfold get_tick_state, get_tick_offset_in_array in H.
  rewrite get_array_start_index_ok in H by done. cbn [obind] in H.
  destruct (Z.eqb_spec (array_start T s) (start_tick_index a)); done.
Qed.

Lemma get_tick_state_view m k a T t :
  store_ok m -> small T -> m !! k = Some a -> get_tick_state a T s = Ok t ->
  tick_at m T = t /\ k = addr (array_start T s).
Proof.
  intros Hm HT Hk Ht. pose proof (get_tick_state_start a T t HT Ht) as Hst.
  destruct (Hm k a Hk) as (_ & _ & ->). rewrite Hst. split; [|done]. unfold tick_at. by rewrite Hst, Hk, Ht.
Qed.

(** Writing one tick of an array. *)
Lemma update_tick_Ok a T x a' :
  array_ok s a -> grid s T -> update_tick_state a T s x = Ok a' ->
  exists t, get_tick_state a T s = Ok t /\
    array_ok s a' /\ start_tick_index a' = start_tick_index a /\ ta_pool_id a' = ta_pool_id a /\
    initialized_tick_count a' = initialized_tick_count a /\
    get_tick_state a' T s = Ok x /\
    (forall T', grid s T' -> T' <> T -> get_tick_state a' T' s = get_tick_state a T' s) /\
    live_count a' = live_count a - b2z (is_initialized t) + b2z (is_initialized x).
Proof.
  intros Ha [HT Hm] Hu. pose proof (update_get_tick_state s a T x Hs Ha HT Hm) as Hspec.
  destruct (Z.eqb_spec (array_start T s) (start_tick_index a)) as [Hst|]; [|by destruct Hspec; congruence].
  destruct Hspec as (a1 & Hu1 & Ha1 & Hg & Ho). rewrite Hu in Hu1. injection Hu1 as <-.
  unfold update_tick_state in Hu. apply obind_Ok in Hu as (o & Hoff & Hset).
  unfold set_tick_at in Hset. apply obind_Ok in Hset as (ts & [Hr ->]%set_idx_Ok & Hset).
  injection Hset as <-.
  destruct (lookup_lt_is_Some_2 (ticks a) (Z.to_nat o)) as [t Ht]; [lia|].
  exists t. unfold get_tick_state. rewrite Hoff. cbn [obind].
  split; [apply idx_Ok; split; [lia|done]|].
  split; [done|]. split; [done|]. split; [done|]. split; [done|].
  split; [done|]. split; [intros T' [? ?] ?; by apply Ho|].
  unfold live_count. cbn [ticks set_ticks]. by rewrite (sum_z_insert _ _ _ t).
Qed.

(** Writing one tick of the store. *)
Lemma store_tick_Ok m k T x m' :
  store_ok m -> grid s T -> store_tick m k T s x = Ok m' ->
  exists a a', m !! k = Some a /\ m' = <[k := a']> m /\ k = addr (array_start T s) /\
    start_tick_index a = array_start T s /\ start_tick_index a' = array_start T s /\
    ta_pool_id a' = ta_pool_id a /\
    initialized_tick_count a' = initialized_tick_count a /\
    live_count a' = live_count a - b2z (is_initialized (tick_at m T)) + b2z (is_initialized x) /\
    store_ok m' /\ tick_at m' T = x /\
    (forall T', grid s T' -> T' <> T -> tick_at m' T' = tick_at m T').
Proof.
  intros Hm HT H. unfold store_tick in H.
  apply obind_Ok in H as (a & Hk%load_array_Ok & H).
  apply obind_Ok in H as (a' & Hu & H). injection H as <-.
  destruct (Hm k a Hk) as (Ha & Hva & Hka).
  destruct (update_tick_Ok a T x a' Ha HT Hu) as (t & Ht & Ha' & Hst & Hid & Hc & Hg & Ho & Hl).
  destruct (get_tick_state_view m k a T t Hm (proj1 HT) Hk Ht) as [Hv Hk'].
  pose proof (get_tick_state_start a T t (proj1 HT) Ht) as Hsa.
  exists a, a'. rewrite Hv. split; [done|]. split; [done|]. split; [done|]. split; [done|].
  split; [by rewrite Hst|]. split; [done|]. split; [done|]. split; [done|]. split; [|split].
  - intros k1 a1 [[<- <-]|[Hne H1]]%lookup_insert_Some; [|by apply Hm].
    by rewrite Hst.
  - unfold tick_at. rewrite <- Hk', lookup_insert_eq, Hg. done.
  - intros T' HT' Hne. unfold tick_at. destruct (decide (addr (array_start T' s) = k)) as [E|Hnk].
    + rewrite E, lookup_insert_eq, Hk. by rewrite Ho.
    + by rewrite lookup_insert_ne by congruence.
Qed.

(** Changing an array's count only. *)
Lemma store_count m (k : Pubkey) a a' :
  store_ok m -> m !! k = Some a -> ticks a' = ticks a -> start_tick_index a' = start_tick_index a ->
  store_ok (<[k := a']> m) /\ forall T, tick_at (<[k := a']> m) T = tick_at m T.
Proof.
  intros Hm Hk Ht Hst. destruct (Hm k a Hk) as ([] & Hva & Hka). split.
  - intros k1 a1 [[<- <-]|[Hne H1]]%lookup_insert_Some; [|by apply Hm].
    rewrite Hst. split; [|by split]. constructor; rewrite ?Ht, ?Hst; done.
  - intros T. unfold tick_at. destruct (decide (addr (array_start T s) = k)) as [E|Hnk].
    + rewrite E, lookup_insert_eq, Hk. unfold get_tick_state, get_tick_offset_in_array. by rewrite Ht, Hst.
    + by rewrite lookup_insert_ne by congruence.
Qed.

(** A fresh array. *)
Lemma get_or_create_view (pool_key : Pubkey) m start m' :
  small start -> store_ok m -> get_or_create pool_key addr m start s = Ok m' ->
  store_ok m' /\ (forall T, small T -> tick_at m' T = tick_at m T) /\
  (m' = m \/ m !! addr start = None /\ exists a, m' = <[addr start := a]> m /\
     start_tick_index a = start /\ ta_pool_id a = pool_key /\ initialized_tick_count a = 0 /\ live_count a = 0).
Proof.
  intros Hsm Hm H. unfold get_or_create in H. cbn zeta in H.
  apply obind_Ok in H as (a & Ha & H). injection H as <-.
  unfold get_or_create_tick_array in Ha. apply obind_Ok in Ha as (b & Hb & Ha).
  destruct (check_is_valid_start_index_ok start s Hs Hsm) as (b' & Hb' & Hv).
  rewrite Hb in Hb'. injection Hb' as <-.
  apply obind_Ok in Ha as ([] & Hvalid%require_Ok & Ha). subst b.
  destruct (proj1 Hv eq_refl) as (k & Hk & _).
  destruct (m !! addr start) as [a0|] eqn:E.
  - injection Ha as <-. rewrite insert_id by done. auto.
  - unfold tick_array_initialize in Ha. apply obind_Ok in Ha as (b & _ & Ha). injection Ha as <-.
    pose proof (tpa_range s Hs).
    assert (array_start start s = start) as Has.
    { unfold array_start. rewrite Hk, Z.div_mul by lia. done. }
    split; [|split].
    + intros k1 a1 [[<- <-]|[Hne H1]]%lookup_insert_Some; [|by apply Hm].
      split; [by constructor|]. split; [by apply Hv|done].
    + intros T HT. unfold tick_at. destruct (decide (addr (array_start T s) = addr start)) as [HE|Hnk].
      * rewrite HE, lookup_insert_eq, E. destruct (get_tick_state _ T s) as [t| |] eqn:Ht; try done.
        unfold get_tick_state in Ht. apply obind_Ok in Ht as (o & _ & [_ Ht]%idx_Ok).
        change (replicate TICK_ARRAY_SIZE_USIZE default_tick_state !! Z.to_nat o = Some t) in Ht.
        by apply lookup_replicate in Ht as [-> _].
      * by rewrite lookup_insert_ne by congruence.
    + right. split; [done|]. eexists. split; [done|]. split; [done|]. split; [done|]. split; reflexivity.
Qed.

(** * Counts and marks *)

(** The counts, off by [off] at each start index while an instruction is half
    way through. *)
Definition counts_off (off : Z -> Z) (m : arrays) : Prop :=
  forall (k : Pubkey) a, m !! k = Some a ->
    initialized_tick_count a + off (start_tick_index a) = live_count a.

(** The bitmaps mark the arrays that count some initialized tick. *)
Record marks_ok (m : arrays) (p : PoolState) (e : TickArrayBitmapExtension) : Prop := {
  mk_spacing : pool_tick_spacing p = s;
  mk_bitmaps : bitmaps_ok p e;
  mk_count : forall (k : Pubkey) a, m !! k = Some a -> 0 <= initialized_tick_count a;
  mk_marked : forall j, array_marked p e j = true <->
    exists a, m !! addr (j * tpa s) = Some a /\ start_tick_index a = j * tpa s /\
              0 < initialized_tick_count a;
}.

(** The extension account an instruction was passed is the pool's, or none
    was passed. *)
Definition passes (ext_key : Pubkey) (e : TickArrayBitmapExtension)
    (ext : option (Pubkey * TickArrayBitmapExtension)) : Prop :=
  ext = None \/ ext = Some (ext_key, e).

Lemma b2z_range b : 0 <= b2z b <= 1.
Proof. destruct b; simpl; lia. Qed.

Lemma live_count_nonneg a : 0 <= live_count a.
Proof. apply sum_z_nonneg, Forall_forall. intros t _. apply b2z_range. Qed.

Section Registry.
Context {U : UintLib} (ext_key : Pubkey).

Lemma flip_array_Ok p e ext k p' ext' :
  bitmaps_ok p e -> k_min (pool_tick_spacing p) <= k <= k_max (pool_tick_spacing p) ->
  passes ext_key e ext ->
  pool_flip_tick_array_bit p ext_key ext (k * tpa (pool_tick_spacing p)) = Ok (p', ext') ->
  exists e', bitmaps_ok p' e' /\
    (forall j, array_marked p' e' j = xorb (array_marked p e j) (j =? k)) /\
    p' = set_bitmap p (tick_array_bitmap p') /\ passes ext_key e' ext' /\
    (ext = None -> e' = e /\ ext' = None) /\ (ext <> None -> ext' <> None).
Proof.
  intros Hok Hk Hext H.
  destruct (pool_flip_exact p e ext_key k Hok Hk) as (p1 & e1 & Hf & Hok1 & Hm & Hset & Hin).
  unfold pool_flip_tick_array_bit in Hf, H. rewrite (is_overflow_spec p e Hok) in Hf, H by done.
  cbn [obind] in Hf, H. destruct (in_pool k); cbn [negb] in Hf, H.
  - apply obind_Ok in Hf as (p2 & Hp2 & Hf). injection Hf as -> ->.
    rewrite Hp2 in H. cbn [obind] in H. injection H as <- <-. exists e1. by split_and!.
  - destruct Hext as [->| ->]; [done|]. cbn [ok_or obind] in H, Hf. rewrite H in Hf.
    injection Hf as -> ->. exists e1. split_and!; try done. by right.
Qed.

Lemma start_index_of a : array_ok s a -> valid_start (start_tick_index a) s ->
  exists k, start_tick_index a = k * tpa s /\ k_min s <= k <= k_max s.
Proof.
  intros _ (k & Hk & Hr). exists k. split; [done|]. apply (valid_start_iff _ _ Hs). rewrite <- Hk.
  by exists k.
Qed.

(** What changing one array's count needs from the bitmaps. *)
Lemma marks_change m p e (key : Pubkey) a a' k p' e' :
  store_ok m -> marks_ok m p e -> m !! key = Some a ->
  start_tick_index a = k * tpa s -> start_tick_index a' = k * tpa s -> 0 <= initialized_tick_count a' ->
  pool_tick_spacing p' = s -> bitmaps_ok p' e' ->
  (forall j, array_marked p' e' j = if j =? k then 0 <? initialized_tick_count a' else array_marked p e j) ->
  marks_ok (<[key := a']> m) p' e'.
Proof.
  intros Hm Hmk Hk Ha Ha' Hc Hsp Hok Hj. destruct (Hm key a Hk) as (_ & _ & Hkey). rewrite Ha in Hkey.
  pose proof (tpa_range s Hs). constructor; [done|done| |].
  - intros k1 a1 [[<- <-]|[_ H1]]%lookup_insert_Some; [done|]. by apply (mk_count _ _ _ Hmk k1).
  - intros j. rewrite Hj. destruct (Z.eqb_spec j k) as [->|Hne].
    + rewrite Z.ltb_lt, <- Hkey, lookup_insert_eq. split; [by eauto|]. by intros (b & [= <-] & _ & ?).
    + rewrite (mk_marked _ _ _ Hmk). split; intros (b & Hb & Hst & Hcb).
      * exists b. split; [|done]. rewrite lookup_insert_ne; [done|]. intros E.
        rewrite <- E, Hk in Hb. injection Hb as <-. nia.
      * apply lookup_insert_Some in Hb as [[E <-]|[_ Hb]]; [|by eauto]. nia.
Qed.

Lemma marks_same m p e (key : Pubkey) a a' :
  store_ok m -> marks_ok m p e -> m !! key = Some a -> start_tick_index a' = start_tick_index a ->
  initialized_tick_count a' = initialized_tick_count a ->
  marks_ok (<[key := a']> m) p e.
Proof.
  intros Hm Hmk Hk Hst Hc. destruct (Hm key a Hk) as (Ha & Hva & Hkey).
  destruct (start_index_of a Ha Hva) as (k & Hka & _).
  apply (marks_change m p e key a a' k); try done; try (by congruence).
  - rewrite Hc. by apply (mk_count _ _ _ Hmk key).
  - apply (mk_spacing _ _ _ Hmk).
  - apply (mk_bitmaps _ _ _ Hmk).
  - intros j. destruct (Z.eqb_spec j k) as [->|]; [|done]. rewrite Hc.
    apply eq_true_iff_eq. rewrite (mk_marked _ _ _ Hmk), Z.ltb_lt, <- Hka, <- Hkey, Hk. split.
    + by intros (b & [= <-] & _ & ?).
    + by eauto.
Qed.

(** Counting one tick more or one tick less, with the mark. *)
Lemma recount_Ok m p e (key : Pubkey) a (add : bool) a' ext off :
  store_ok m -> marks_ok m p e -> counts_off off m -> passes ext_key e ext -> m !! key = Some a ->
  update_initialized_tick_count a add = Ok a' ->
  forall p' ext',
  (if (if add then initialized_tick_count a =? 0 else initialized_tick_count a' =? 0)
   then pool_flip_tick_array_bit p ext_key ext (start_tick_index a') else Ok (p, ext)) = Ok (p', ext') ->
  exists e', store_ok (<[key := a']> m) /\
    (forall T, tick_at (<[key := a']> m) T = tick_at m T) /\
    marks_ok (<[key := a']> m) p' e' /\ passes ext_key e' ext' /\
    p' = set_bitmap p (tick_array_bitmap p') /\
    (ext = None -> e' = e /\ ext' = None) /\ (ext <> None -> ext' <> None) /\
    counts_off (fun st => off st - if st =? start_tick_index a then (if add then 1 else -1) else 0)
      (<[key := a']> m).
Proof.
  intros Hm Hmk Hoff Hext Hk Hu p' ext' H. destruct (Hm key a Hk) as (Ha & Hva & Hkey).
  destruct (start_index_of a Ha Hva) as (k & Hka & Hkr).
  unfold update_initialized_tick_count in Hu.
  apply obind_Ok in Hu as (c & [-> Hc]%ok_or_Ok%ucheck_Some & Hu). injection Hu as <-.
  set (c' := if add then _ else _) in *. cbn [start_tick_index initialized_tick_count] in *.
  destruct (store_count m key a (mkTickArray (ta_pool_id a) (start_tick_index a) (ticks a) c') Hm Hk
              eq_refl eq_refl) as [Hm' Hv'].
  pose proof (mk_count _ _ _ Hmk key a Hk) as Hc0. pose proof (mk_spacing _ _ _ Hmk) as Hsp.
  assert (array_marked p e k = (0 <? initialized_tick_count a)) as Hmark.
  { apply eq_true_iff_eq. rewrite (mk_marked _ _ _ Hmk), Z.ltb_lt, <- Hka, <- Hkey, Hk. split.
    - by intros (b & [= <-] & _ & ?).
    - by eauto. }
  assert (exists e', marks_ok (<[key := mkTickArray (ta_pool_id a) (start_tick_index a) (ticks a) c']> m) p' e' /\
    passes ext_key e' ext' /\ p' = set_bitmap p (tick_array_bitmap p') /\
    (ext = None -> e' = e /\ ext' = None) /\ (ext <> None -> ext' <> None)) as (e' & H1 & H2 & H3 & H4 & H5).
  { unfold in_u in Hc.
    destruct (if add then initialized_tick_count a =? 0 else c' =? 0) eqn:E.
    - rewrite Hka, <- Hsp in H.
      destruct (flip_array_Ok p e ext k p' ext' (mk_bitmaps _ _ _ Hmk) ltac:(by rewrite Hsp) Hext H)
        as (e' & Hok' & Hx & Hset & Hp' & Hn & Hnn).
      exists e'. split; [|by auto].
      apply (marks_change m p e key a _ k); try done; cbn [start_tick_index initialized_tick_count].
      + lia.
      + by rewrite Hset.
      + intros j. rewrite Hx. destruct (Z.eqb_spec j k) as [->|]; [|apply xorb_false_r].
        rewrite Hmark. subst c'. destruct add; apply Z.eqb_eq in E.
        * destruct (Z.ltb_spec 0 (initialized_tick_count a)), (Z.ltb_spec 0 (initialized_tick_count a + 1)); done || lia.
        * destruct (Z.ltb_spec 0 (initialized_tick_count a)), (Z.ltb_spec 0 (initialized_tick_count a - 1)); done || lia.
    - injection H as <- <-. exists e.
      split; [|split_and!; [done|by destruct p|done|done]].
      apply (marks_change m p e key a _ k); try done; cbn [start_tick_index initialized_tick_count].
      + lia.
      + apply (mk_bitmaps _ _ _ Hmk).
      + intros j. destruct (Z.eqb_spec j k) as [->|]; [|done]. rewrite Hmark.
        subst c'. destruct add; apply Z.eqb_neq in E; apply eq_true_iff_eq; rewrite !Z.ltb_lt; lia. }
  exists e'. split_and!; try done.
  intros k1 a1 [[<- <-]|[Hne H6]]%lookup_insert_Some.
  - cbn [initialized_tick_count start_tick_index]. rewrite Z.eqb_refl. specialize (Hoff key a Hk).
    unfold live_count in *. cbn [ticks]. subst c'. destruct add; lia.
  - destruct (Z.eqb_spec (start_tick_index a1) (start_tick_index a)) as [E|].
    + destruct (Hm k1 a1 H6) as (_ & _ & ->). congruence.
    + rewrite Z.sub_0_r. by apply (Hoff k1).
Qed.
End Registry.
End Store.
