(* ===== verification/PositionLedger.v ===== *)
(** The ledger of positions, and what the pool and its ticks record of it.

    The abstract state of a pool's liquidity is the list of its positions; the
    code keeps, instead, a gross and a net amount per tick and the amount in
    force at the current price.  [ledger_ok] relates the two, and the theorems
    show that the code's operations — [modify_position] of
    [open_position.rs], the crossing of a tick in the swap loop — implement the
    abstract ones, and that the fee growth they keep pays out, position by
    position, no more than was collected. *)
From S2P Require Import Prelude.
From stdpp Require Import gmap.
From S2P Require Import AmmError.
From S2P Require Import BigNum.
From S2P Require Import FullMath.
From S2P Require Import Config.
From S2P Require Import TickMath.
From S2P Require Import LiquidityMath.
From S2P Require Import Rewards.
From S2P Require Import TickIndex.
From S2P Require Import BitmapExtension.
From S2P Require Import TickState.
From S2P Require Import TickArray.
From S2P Require Import Pool.
From S2P Require Import PoolBitmap.
From S2P Require Import Position.
From S2P Require Import ArrayStore.
#[local] Open Scope Z_scope.

(** * The abstract view *)

(** What a position contributes to tick [T] and to the liquidity in force at
    the current tick [c]. *)
Definition net_at (T : Z) (pos : PersonalPositionState) : Z :=
  (if tick_lower_index pos =? T then pp_liquidity pos else 0)
  - (if tick_upper_index pos =? T then pp_liquidity pos else 0).
Definition gross_at (T : Z) (pos : PersonalPositionState) : Z :=
  (if tick_lower_index pos =? T then pp_liquidity pos else 0)
  + (if tick_upper_index pos =? T then pp_liquidity pos else 0).
Definition in_force (c : Z) (pos : PersonalPositionState) : bool :=
  (tick_lower_index pos <=? c) && (c <? tick_upper_index pos).
Definition active_at (c : Z) (pos : PersonalPositionState) : Z :=
  if in_force c pos then pp_liquidity pos else 0.

(** A position of the ledger. *)
Record position_ok (s : Z) (pos : PersonalPositionState) : Prop := {
  po_liquidity : 0 <= pp_liquidity pos;
  po_order : tick_lower_index pos < tick_upper_index pos;
  po_lower : grid s (tick_lower_index pos);
  po_upper : grid s (tick_upper_index pos);
}.

(** The ticks and the pool's liquidity, as the ledger determines them.  A tick
    carries its own index from its first use on. *)
Record ledger_ok (s : Z) (ps : list PersonalPositionState) (ticks : Z -> TickState) (c l : Z) : Prop := {
  lg_positions : Forall (position_ok s) ps;
  lg_index : forall T, grid s T ->
    tick (ticks T) = T \/ tick (ticks T) = 0 /\ liquidity_gross (ticks T) = 0;
  lg_orders : forall T, grid s T ->
    0 <= orders_amount (ticks T) /\ 0 <= part_filled_orders_remaining (ticks T);
  lg_net : forall T, grid s T -> liquidity_net (ticks T) = sum_z (net_at T) ps;
  lg_gross : forall T, grid s T -> liquidity_gross (ticks T) = sum_z (gross_at T) ps;
  lg_active : l = sum_z (active_at c) ps;
}.

Lemma gross_at_nonneg T ps :
  Forall (fun p => 0 <= pp_liquidity p) ps -> Forall (fun p => 0 <= gross_at T p) ps.
Proof.
  intros H. eapply Forall_impl; [exact H|]. intros p Hp. unfold gross_at.
  destruct (_ =? T), (_ =? T); simpl in *; lia.
Qed.

(** No gross liquidity at a tick means no net liquidity there. *)
Lemma gross_zero ps T :
  Forall (fun p => 0 <= pp_liquidity p) ps -> sum_z (gross_at T) ps = 0 -> sum_z (net_at T) ps = 0.
Proof.
  induction 1 as [|pos ps Hl Hps IH]; [done|]. intros H.
  pose proof (sum_z_nonneg _ _ (gross_at_nonneg T ps Hps)) as Hrest.
  unfold sum_z in *. simpl in *. unfold gross_at at 1 in H. unfold net_at at 1.
  destruct (tick_lower_index pos =? T), (tick_upper_index pos =? T); rewrite IH; lia.
Qed.

(** Crossing [T] upwards adds its net liquidity to what is in force. *)
Lemma active_step ps T :
  Forall (fun q => tick_lower_index q < tick_upper_index q) ps ->
  sum_z (active_at T) ps - sum_z (active_at (T - 1)) ps = sum_z (net_at T) ps.
Proof.
  induction 1 as [|q l Hq _ IH]; [done|]. unfold sum_z in *. simpl. rewrite <- IH.
  unfold net_at, active_at, in_force.
  destruct (Z.eqb_spec (tick_lower_index q) T), (Z.eqb_spec (tick_upper_index q) T),
    (Z.leb_spec (tick_lower_index q) T), (Z.leb_spec (tick_lower_index q) (T - 1)),
    (Z.ltb_spec T (tick_upper_index q)), (Z.ltb_spec (T - 1) (tick_upper_index q)); simpl; lia.
Qed.

(** No range ends between two ticks. *)
Definition same_side (c c' : Z) (q : PersonalPositionState) : Prop :=
  (tick_lower_index q <= c <-> tick_lower_index q <= c') /\
  (tick_upper_index q <= c <-> tick_upper_index q <= c').

Lemma active_same_side ps c c' :
  Forall (same_side c c') ps -> sum_z (active_at c) ps = sum_z (active_at c') ps.
Proof.
  intros H. apply sum_z_ext. eapply Forall_impl; [exact H|]. intros q [H1 H2]. unfold active_at, in_force.
  replace (tick_lower_index q <=? c') with (tick_lower_index q <=? c).
  2:{ apply eq_true_iff_eq. rewrite !Z.leb_le. tauto. }
  replace (c' <? tick_upper_index q) with (c <? tick_upper_index q); [done|].
  apply eq_true_iff_eq. rewrite !Z.ltb_lt. lia.
Qed.

(** A position's share of the gross liquidity of its two ticks. *)
Lemma gross_covers_end ps T i pos :
  Forall (fun p => 0 <= pp_liquidity p) ps -> ps !! i = Some pos ->
  T = tick_lower_index pos \/ T = tick_upper_index pos -> pp_liquidity pos <= sum_z (gross_at T) ps.
Proof.
  intros H Hi HT. pose proof (Forall_lookup_1 _ _ _ _ H Hi) as Hp. simpl in Hp.
  transitivity (gross_at T pos); [|eapply sum_z_ge; [by apply gross_at_nonneg|done]].
  unfold gross_at. destruct HT as [->| ->]; rewrite Z.eqb_refl; destruct (_ =? _); lia.
Qed.

(** * Changing the liquidity of a range *)

Section Modify.
Context {U : UintLib}.

(** What a change of liquidity does to one end of the range. *)
Record tick_changed (delta : Z) (upper flipped : bool) (t t' : TickState) : Prop := {
  tc_tick : tick t' = tick t;
  tc_gross : liquidity_gross t' = liquidity_gross t + delta;
  tc_net : liquidity_net t' = (if upper then liquidity_net t - delta else liquidity_net t + delta) \/
           liquidity_gross t' = 0 /\ liquidity_net t' = 0;
  tc_orders : orders_amount t' = orders_amount t /\
              part_filled_orders_remaining t' = part_filled_orders_remaining t;
  tc_flipped : flipped = xorb (is_initialized t) (is_initialized t');
}.

Lemma tick_clear_fields t :
  tick (tick_clear t) = tick t /\ liquidity_gross (tick_clear t) = 0 /\ liquidity_net (tick_clear t) = 0 /\
  orders_amount (tick_clear t) = orders_amount t /\
  part_filled_orders_remaining (tick_clear t) = part_filled_orders_remaining t.
Proof. done. Qed.

(** [TickState::update] on the fields the ledger determines. *)
Lemma tick_update_Ok t c delta g0 g1 (upper : bool) ris flipped t' :
  tick_update t c delta g0 g1 upper ris = Ok (flipped, t') ->
  tick t' = tick t /\ liquidity_gross t' = liquidity_gross t + delta /\ 0 <= liquidity_gross t' /\
  liquidity_net t' = (if upper then liquidity_net t - delta else liquidity_net t + delta) /\
  orders_amount t' = orders_amount t /\
  part_filled_orders_remaining t' = part_filled_orders_remaining t /\
  flipped = xorb (liquidity_gross t' =? 0) (liquidity_gross t =? 0) &&
            (orders_amount t + part_filled_orders_remaining t =? 0).
Proof.
  intros H. unfold tick_update in H.
  apply obind_Ok in H as (ga & [-> Hga]%add_delta_Ok & H).
  apply obind_Ok in H as (u & [-> _]%ok_or_Ok%ucheck_Some & H). cbn zeta in H.
  set (s1 := if _ && _ then _ else _) in H.
  assert (tick s1 = tick t /\ liquidity_net s1 = liquidity_net t /\ orders_amount s1 = orders_amount t /\
          part_filled_orders_remaining s1 = part_filled_orders_remaining t) as (Ht & Hn & Ho & Hp)
    by (subst s1; by destruct (_ && _)).
  apply obind_Ok in H as (n & [-> Hnr]%ok_or_Ok%icheck_Some & H). injection H as <- <-.
  cbn [tick liquidity_gross liquidity_net orders_amount part_filled_orders_remaining set_tick_liquidity].
  rewrite Hn, Ho, Hp, Ht. unfold in_u in Hga. split_and!; done || lia.
Qed.

Lemma is_initialized_eq t t' :
  orders_amount t' = orders_amount t -> part_filled_orders_remaining t' = part_filled_orders_remaining t ->
  0 <= orders_amount t -> 0 <= part_filled_orders_remaining t ->
  0 <= liquidity_gross t -> 0 <= liquidity_gross t' ->
  xorb (is_initialized t) (is_initialized t') =
  xorb (liquidity_gross t' =? 0) (liquidity_gross t =? 0) &&
  (orders_amount t + part_filled_orders_remaining t =? 0).
Proof.
  intros Ho Hp ? ? ? ?. unfold is_initialized, has_liquidity, has_limit_orders. rewrite Ho, Hp.
  destruct (Z.ltb_spec 0 (orders_amount t)), (Z.ltb_spec 0 (part_filled_orders_remaining t)),
    (Z.eqb_spec (orders_amount t + part_filled_orders_remaining t) 0),
    (Z.ltb_spec 0 (liquidity_gross t)), (Z.ltb_spec 0 (liquidity_gross t')),
    (Z.eqb_spec (liquidity_gross t) 0), (Z.eqb_spec (liquidity_gross t') 0); done || lia.
Qed.

(** The update together with the clearing of a tick that loses its last
    liquidity. *)
Lemma tick_changed_update t c delta g0 g1 (upper : bool) ris flipped t' :
  0 <= orders_amount t -> 0 <= part_filled_orders_remaining t -> 0 <= liquidity_gross t ->
  tick_update t c delta g0 g1 upper ris = Ok (flipped, t') ->
  tick_changed delta upper flipped t (if (delta <? 0) && flipped then tick_clear t' else t').
Proof.
  intros Ho Hp Hg (Ht & Hgr & Hgr0 & Hn & Ho' & Hp' & Hf)%tick_update_Ok.
  set (t2 := if _ && _ then _ else _).
  assert (tick t2 = tick t /\ liquidity_gross t2 = liquidity_gross t + delta /\
    (liquidity_net t2 = (if upper then liquidity_net t - delta else liquidity_net t + delta) \/
     liquidity_gross t2 = 0 /\ liquidity_net t2 = 0) /\ orders_amount t2 = orders_amount t /\
    part_filled_orders_remaining t2 = part_filled_orders_remaining t) as (H1 & H2 & H3 & H4 & H5).
  { subst t2. destruct ((delta <? 0) && flipped) eqn:E; [|by auto].
    apply andb_true_iff in E as [?%Z.ltb_lt E]. rewrite Hf in E.
    apply andb_true_iff in E as [E _]. destruct (tick_clear_fields t') as (-> & -> & -> & -> & ->).
    destruct (Z.eqb_spec (liquidity_gross t') 0), (Z.eqb_spec (liquidity_gross t) 0); try done; auto with lia. }
  constructor; try done. rewrite is_initialized_eq by (done || lia). by rewrite H2, <- Hgr.
Qed.

Lemma tick_changed_none upper t : tick_changed 0 upper false t t.
Proof. constructor; rewrite ?Z.add_0_r, ?Z.sub_0_r, ?xorb_nilpotent; try done. left. by destruct upper. Qed.

Lemma pool_update_reward_infos_frame p ts ris p' :
  pool_update_reward_infos p ts = Ok (ris, p') -> p' = set_reward_infos p ris.
Proof. unfold pool_update_reward_infos. intros (x & _ & H)%obind_Ok. by injection H as <- <-. Qed.

Definition orders_nonneg (t : TickState) : Prop :=
  0 <= orders_amount t /\ 0 <= part_filled_orders_remaining t /\ 0 <= liquidity_gross t.

(** What [modify_position] does to the pool and to the two ticks. *)
Lemma modify_position_Ok delta p lower upper ts r p' lower' upper' :
  orders_nonneg lower -> orders_nonneg upper ->
  modify_position delta p lower upper ts = Ok (r, p', lower', upper') ->
  exists ris,
    p' = set_pool_liquidity (set_reward_infos p ris)
           (liquidity p + if (tick lower <=? tick_current p) && (tick_current p <? tick upper)
                          then delta else 0) /\
    tick_changed delta false (tick_lower_flipped r) lower lower' /\
    tick_changed delta true (tick_upper_flipped r) upper upper'.
Proof.
  intros (Hl1 & Hl2 & Hl3) (Hu1 & Hu2 & Hu3) H. unfold modify_position in H.
  apply obind_Ok in H as ([ris p1] & ->%pool_update_reward_infos_frame & H).
  exists ris. cbn [tick_current fee_growth_global_0_x64 fee_growth_global_1_x64 set_reward_infos] in H.
  destruct (Z.eqb_spec delta 0) as [->|Hd]; cbn [negb obind] in H.
  - destruct (get_fee_growth_inside _ _ _ _ _) as [gr0 gr1]. cbn [Z.ltb andb Z.compare obind] in H.
    injection H as <- <- <- <-. split; [destruct (_ && _); rewrite Z.add_0_r; by destruct p|].
    split; apply tick_changed_none.
  - apply obind_Ok in H as ([[[fl fu] l1] u1] & Hu & H).
    apply obind_Ok in Hu as ([fl0 l0] & Hl & Hu). apply obind_Ok in Hu as ([fu0 u0] & Hu0 & Hu).
    injection Hu as -> -> -> ->.
    apply tick_changed_update in Hl; [|done..]. apply tick_changed_update in Hu0; [|done..].
    destruct (get_fee_growth_inside _ _ _ _ _) as [gr0 gr1]. cbn zeta in H.
    apply obind_Ok in H as ([[a0 a1] p2] & Ha & H).
    apply obind_Ok in Ha as ([b0 b1] & _ & Ha). injection H as <- <- <- <-.
    split; [|by split]. rewrite (tc_tick _ _ _ _ _ Hl), (tc_tick _ _ _ _ _ Hu0) in Ha.
    apply obind_Ok in Ha as (p3 & Hp3 & Ha). injection Ha as -> -> ->.
    destruct ((tick lower <=? tick_current p) && (tick_current p <? tick upper)).
    + apply obind_Ok in Hp3 as (x & [-> _]%add_delta_Ok & Hp3). by injection Hp3 as <-.
    + injection Hp3 as <-. rewrite Z.add_0_r. by destruct p.
Qed.
End Modify.

(** * The ledger follows *)

(** The tick as [modify_position] receives it: as stored, or with its index
    filled in; it carries its index when its liquidity changes. *)
Definition named (T delta : Z) (t t0 : TickState) : Prop :=
  (t0 = t \/ t0 = set_tick t T) /\ (tick t0 = T \/ delta = 0).

Lemma named_fields T delta t t0 :
  named T delta t t0 ->
  liquidity_net t0 = liquidity_net t /\ liquidity_gross t0 = liquidity_gross t /\
  orders_amount t0 = orders_amount t /\
  part_filled_orders_remaining t0 = part_filled_orders_remaining t /\
  is_initialized t0 = is_initialized t.
Proof. by intros [[->| ->] _]. Qed.

Lemma liquidity_nonneg s ps : Forall (position_ok s) ps -> Forall (fun p => 0 <= pp_liquidity p) ps.
Proof. intros H. eapply Forall_impl; [exact H|]. by intros x []. Qed.

Section Change.
Context (s : Z) (ps : list PersonalPositionState) (i : nat) (pos pos' : PersonalPositionState) (delta : Z).
Context (Hi : ps !! i = Some pos) (Hd : 0 <= pp_liquidity pos + delta).
Context (Htl : tick_lower_index pos' = tick_lower_index pos)
  (Htu : tick_upper_index pos' = tick_upper_index pos)
  (Hliq : pp_liquidity pos' = pp_liquidity pos + delta).

Local Abbreviation tl := (tick_lower_index pos).
Local Abbreviation tu := (tick_upper_index pos).
Local Abbreviation ps' := (<[i := pos']> ps).

Lemma position_ok_change : Forall (position_ok s) ps -> Forall (position_ok s) ps'.
Proof.
  intros H. apply Forall_insert; [done|]. pose proof (Forall_lookup_1 _ _ _ _ H Hi) as [].
  constructor; rewrite ?Hliq, ?Htl, ?Htu; done.
Qed.

Lemma sum_net_change T : tl < tu ->
  sum_z (net_at T) ps' = sum_z (net_at T) ps + (if T =? tl then delta else if T =? tu then - delta else 0).
Proof.
  intros Ho. rewrite (sum_z_insert _ _ _ pos) by done. unfold net_at at 2 3. rewrite Htl, Htu, Hliq.
  rewrite (Z.eqb_sym tl T), (Z.eqb_sym tu T).
  destruct (Z.eqb_spec T tl), (Z.eqb_spec T tu); lia.
Qed.

Lemma sum_gross_change T : tl < tu ->
  sum_z (gross_at T) ps' = sum_z (gross_at T) ps + (if T =? tl then delta else if T =? tu then delta else 0).
Proof.
  intros Ho. rewrite (sum_z_insert _ _ _ pos) by done. unfold gross_at at 2 3. rewrite Htl, Htu, Hliq.
  rewrite (Z.eqb_sym tl T), (Z.eqb_sym tu T).
  destruct (Z.eqb_spec T tl), (Z.eqb_spec T tu); lia.
Qed.

Lemma sum_active_change c :
  sum_z (active_at c) ps' = sum_z (active_at c) ps + (if in_force c pos then delta else 0).
Proof.
  rewrite (sum_z_insert _ _ _ pos) by done. unfold active_at at 2 3, in_force. rewrite Htl, Htu, Hliq.
  destruct (_ && _); lia.
Qed.

Lemma ledger_change ticks ticks' c l (fl fu : bool) lo up :
  ledger_ok s ps ticks c l ->
  named tl delta (ticks tl) lo -> named tu delta (ticks tu) up ->
  tick_changed delta false fl lo (ticks' tl) -> tick_changed delta true fu up (ticks' tu) ->
  (forall T, grid s T -> T <> tl -> T <> tu -> ticks' T = ticks T) ->
  ledger_ok s ps' ticks' c (l + if in_force c pos then delta else 0).
Proof.
  intros [Hps Hix Hor Hnet Hgr Hac] Hlo Hup Cl Cu Hoff.
  pose proof (Forall_lookup_1 _ _ _ _ Hps Hi) as [Hp0 Ho Gl Gu].
  destruct (named_fields _ _ _ _ Hlo) as (Nl & GGl & Ol & Pl & _).
  destruct (named_fields _ _ _ _ Hup) as (Nu & GGu & Ou & Pu & _).
  pose proof (position_ok_change Hps) as Hps'.
  assert (forall T, grid s T -> T = tl \/ T = tu \/ ticks' T = ticks T /\ T <> tl /\ T <> tu) as Hcase.
  { intros T HT. destruct (Z.eq_dec T tl), (Z.eq_dec T tu); auto 6. }
  assert (forall T, grid s T -> liquidity_gross (ticks' T) = sum_z (gross_at T) ps') as Hgr'.
  { intros T HT. rewrite sum_gross_change by done. rewrite <- Hgr by done.
    destruct (Hcase T HT) as [->|[->|(-> & H1 & H2)]].
    - rewrite Z.eqb_refl, (tc_gross _ _ _ _ _ Cl). lia.
    - rewrite Z.eqb_refl, (tc_gross _ _ _ _ _ Cu). destruct (Z.eqb_spec tu tl); lia.
    - apply Z.eqb_neq in H1 as ->, H2 as ->. lia. }
  constructor; [done| | | |done|].
  - intros T HT. destruct (Hcase T HT) as [->|[->|(-> & _ & _)]]; [| |by apply Hix].
    + rewrite (tc_tick _ _ _ _ _ Cl), (tc_gross _ _ _ _ _ Cl).
      destruct Hlo as [[->| ->] [?| ->]]; auto; rewrite ?Z.add_0_r; auto.
    + rewrite (tc_tick _ _ _ _ _ Cu), (tc_gross _ _ _ _ _ Cu).
      destruct Hup as [[->| ->] [?| ->]]; auto; rewrite ?Z.add_0_r; auto.
  - intros T HT. destruct (Hcase T HT) as [->|[->|(-> & _ & _)]]; [| |by apply Hor].
    + destruct (tc_orders _ _ _ _ _ Cl) as [-> ->]. rewrite Ol, Pl. by apply Hor.
    + destruct (tc_orders _ _ _ _ _ Cu) as [-> ->]. rewrite Ou, Pu. by apply Hor.
  - intros T HT.
    assert (liquidity_gross (ticks' T) = 0 -> sum_z (net_at T) ps' = 0) as Hz.
    { intros H0. apply gross_zero; [by apply (liquidity_nonneg s)|]. by rewrite <- Hgr'. }
    destruct (Hcase T HT) as [->|[->|(E & H1 & H2)]].
    + destruct (tc_net _ _ _ _ _ Cl) as [->|[H0 ->]]; [|by rewrite Hz].
      rewrite sum_net_change, Z.eqb_refl, Nl, Hnet by done. lia.
    + destruct (tc_net _ _ _ _ _ Cu) as [->|[H0 ->]]; [|by rewrite Hz].
      rewrite sum_net_change, Z.eqb_refl, Nu, Hnet by done. destruct (Z.eqb_spec tu tl); lia.
    + rewrite sum_net_change, E, Hnet by done. apply Z.eqb_neq in H1 as ->, H2 as ->. lia.
  - by rewrite sum_active_change, Hac.
Qed.
End Change.

(** A position of no liquidity. *)
Lemma ledger_open s ps ticks c l pos :
  ledger_ok s ps ticks c l -> position_ok s pos -> pp_liquidity pos = 0 ->
  ledger_ok s (ps ++ [pos]) ticks c l.
Proof.
  intros [Hps Hix Hor Hnet Hgr Hac] Hpos H0.
  assert (forall f, f pos = 0 -> sum_z f (ps ++ [pos]) = sum_z f ps) as Hsum.
  { intros f Hf. unfold sum_z. rewrite foldr_app. cbn. by rewrite Hf. }
  constructor; [|done|done| | |].
  - apply Forall_app. split; [done|]. by constructor.
  - intros T HT. rewrite Hsum; [by apply Hnet|]. unfold net_at. rewrite H0. by destruct (_ =? _), (_ =? _).
  - intros T HT. rewrite Hsum; [by apply Hgr|]. unfold gross_at. rewrite H0. by destruct (_ =? _), (_ =? _).
  - rewrite Hsum; [done|]. unfold active_at. rewrite H0. by destruct (in_force c pos).
Qed.

(** * The accounts of a pool *)

Section Accounts.
Context {U : UintLib} (addr : Z -> Pubkey) (pool_key ext_key : Pubkey).

(** The positions [ps], the tick arrays, the pool and its bitmap extension
    agree. *)
Record liquidity_ok (s : Z) (ps : list PersonalPositionState) (m : arrays) (p : PoolState)
    (e : TickArrayBitmapExtension) : Prop := {
  lq_spacing : spacing_ok s;
  lq_store : store_ok addr s m;
  lq_ledger : ledger_ok s ps (tick_at addr s m) (tick_current p) (liquidity p);
  lq_marks : marks_ok addr s m p e;
  lq_counts : counts_off (fun _ => 0) m;
}.

(** The pool's fields that a change of liquidity leaves alone. *)
Definition pool_changed (l : Z) (p p' : PoolState) : Prop :=
  exists ris b, p' = set_bitmap (set_pool_liquidity (set_reward_infos p ris) l) b.

Lemma named_tick s ps ticks c l T delta (name : bool) :
  ledger_ok s ps ticks c l -> grid s T ->
  (name = false -> delta = 0 \/ liquidity_gross (ticks T) <> 0) ->
  named T delta (ticks T) (if name && (tick (ticks T) =? 0) then set_tick (ticks T) T else ticks T).
Proof.
  intros HL HT Hn. destruct (lg_index _ _ _ _ _ HL T HT) as [E|[E Hg]].
  - destruct (name && _); split; auto.
  - rewrite E, Z.eqb_refl. destruct name; cbn [andb]; (split; [auto|]); [by left|].
    right. destruct (Hn eq_refl); done.
Qed.

(** How the number of initialized ticks moves. *)
Lemma flip_delta delta upper fl t t' (add : bool) :
  tick_changed delta upper fl t t' -> 0 <= liquidity_gross t -> 0 <= liquidity_gross t' ->
  (if add then 0 <= delta else delta <= 0) ->
  b2z (is_initialized t') - b2z (is_initialized t) = if fl then if add then 1 else -1 else 0.
Proof.
  intros [_ Hg _ [Ho Hp] ->] H0 H0' Hs. unfold is_initialized, has_liquidity, has_limit_orders.
  rewrite Ho, Hp, Hg.
  destruct ((0 <? orders_amount t) || (0 <? part_filled_orders_remaining t)), add; rewrite ?orb_true_r, ?orb_false_r; try done;
    destruct (Z.ltb_spec 0 (liquidity_gross t)), (Z.ltb_spec 0 (liquidity_gross t + delta)); done || lia.
Qed.

(** The account [k] can only hold the array that starts at [st]. *)
Definition starts_at (m : arrays) (k : Pubkey) (st : Z) : Prop :=
  forall a, m !! k = Some a -> start_tick_index a = st.

Lemma register_flip_Ok s m p e key (fl add : bool) ext off m' p' ext' :
  spacing_ok s -> store_ok addr s m -> marks_ok addr s m p e -> counts_off off m -> passes ext_key e ext ->
  (if fl then register_flip ext_key m key add p ext else Ok (m, p, ext)) = Ok (m', p', ext') ->
  exists e' a, store_ok addr s m' /\ (forall T, tick_at addr s m' T = tick_at addr s m T) /\
    marks_ok addr s m' p' e' /\ passes ext_key e' ext' /\ p' = set_bitmap p (tick_array_bitmap p') /\
    (fl = true -> m !! key = Some a) /\
    (ext = None -> e' = e /\ ext' = None) /\ (ext <> None -> ext' <> None) /\
    (forall k' st, starts_at m k' st -> starts_at m' k' st) /\
    counts_off (fun st => off st - if (st =? start_tick_index a) then
                                     if fl then if add then 1 else -1 else 0 else 0) m'.
Proof.
  intros Hs Hm Hmk Hoff Hext H. destruct fl.
  - unfold register_flip in H. apply obind_Ok in H as (a & Hk%load_array_Ok & H). cbn zeta in H.
    apply obind_Ok in H as (a' & Hu & H).
    destruct (recount_Ok addr s Hs ext_key m p e key a add a' ext off Hm Hmk Hoff Hext Hk Hu p' ext')
      as (e' & H1 & H2 & H3 & H4 & H5 & H6 & H7 & H8).
    { destruct (if add then _ else _); [|by injection H as <- <- <-].
      apply obind_Ok in H as ([p1 x1] & -> & H). by injection H as <- <- <-. }
    assert (m' = <[key := a']> m) as ->.
    { destruct (if add then _ else _); [|by injection H as <- <- <-].
      apply obind_Ok in H as ([p1 x1] & _ & H). by injection H as <- <- <-. }
    exists e', a. split_and!; auto. intros k' st Hst b [[<- <-]|[_ Hb]]%lookup_insert_Some; [|by apply Hst].
    unfold update_initialized_tick_count in Hu. apply obind_Ok in Hu as (c & _ & Hu). injection Hu as <-.
    exact (Hst a Hk).
  - injection H as <- <- <-. exists e, default_tick_array. split_and!; try done; [by destruct p|].
    intros k a Ha. rewrite <- (Hoff k a Ha). destruct (_ =? _); lia.
Qed.

(** The two ticks written back. *)
Lemma store_both s m p e kl ku tl tu lower upper m1 m2 delta fl fu lo up (add : bool) :
  spacing_ok s -> store_ok addr s m -> marks_ok addr s m p e -> counts_off (fun _ => 0) m ->
  grid s tl -> grid s tu -> tl <> tu ->
  named tl delta (tick_at addr s m tl) lo -> named tu delta (tick_at addr s m tu) up ->
  tick_changed delta false fl lo lower -> tick_changed delta true fu up upper ->
  orders_nonneg lo -> orders_nonneg up -> 0 <= liquidity_gross lower -> 0 <= liquidity_gross upper ->
  (if add then 0 <= delta else delta <= 0) ->
  store_tick m kl tl s lower = Ok m1 -> store_tick m1 ku tu s upper = Ok m2 ->
  store_ok addr s m2 /\ marks_ok addr s m2 p e /\
  tick_at addr s m2 tl = lower /\ tick_at addr s m2 tu = upper /\
  (forall T, grid s T -> T <> tl -> T <> tu -> tick_at addr s m2 T = tick_at addr s m T) /\
  starts_at m2 kl (array_start tl s) /\ starts_at m2 ku (array_start tu s) /\
  counts_off (fun st => (if st =? array_start tl s then if fl then if add then 1 else -1 else 0 else 0)
                      + (if st =? array_start tu s then if fu then if add then 1 else -1 else 0 else 0)) m2.
Proof.
  intros Hs Hm Hmk Hc Gl Gu Hne Nl Nu Cl Cu (_ & _ & Ol) (_ & _ & Ou) Hgl Hgu Hsg S1 S2.
  destruct (store_tick_Ok addr s Hs m kl tl lower m1 Hm Gl S1)
    as (a & a' & Hk & -> & Ekl & Sa & Sa' & _ & Ca & La & Hm1 & Vl & Voff).
  destruct (store_tick_Ok addr s Hs _ ku tu upper m2 Hm1 Gu S2)
    as (b & b' & Hk2 & -> & Eku & Sb & Sb' & _ & Cb & Lb & Hm2 & Vu & Voff2).
  rewrite Voff in Lb by auto.
  destruct (named_fields _ _ _ _ Nl) as (_ & _ & _ & _ & El).
  destruct (named_fields _ _ _ _ Nu) as (_ & _ & _ & _ & Eu).
  rewrite <- El in La. rewrite <- Eu in Lb.
  pose proof (flip_delta _ _ _ _ _ add Cl Ol Hgl Hsg) as Fl.
  pose proof (flip_delta _ _ _ _ _ add Cu Ou Hgu Hsg) as Fu.
  pose proof (marks_same addr s Hs m p e kl a a' Hm Hmk Hk ltac:(congruence) Ca) as Hmk1.
  pose proof (marks_same addr s Hs _ p e ku b b' Hm1 Hmk1 Hk2 ltac:(congruence) Cb) as Hmk2.
  split; [done|]. split; [done|]. split; [by rewrite Voff2|]. split; [done|].
  split; [intros T HT ? ?; by rewrite Voff2, Voff|].
  assert (starts_at (<[kl := a']> m) kl (array_start tl s)) as St1.
  { intros x Hx. rewrite lookup_insert_eq in Hx. by injection Hx as <-. }
  split.
  { intros x [[E <-]|[_ Hx]]%lookup_insert_Some; [|by apply St1]. rewrite Sb', <- Sb. apply St1. by rewrite E in Hk2. }
  split; [intros x Hx; rewrite lookup_insert_eq in Hx; by injection Hx as <-|].
  assert (counts_off (fun st => if st =? array_start tl s then if fl then if add then 1 else -1 else 0 else 0)
            (<[kl := a']> m)) as Hc1.
  { intros k1 a1 [[<- <-]|[Hn H1]]%lookup_insert_Some.
    - rewrite Sa', Z.eqb_refl, Ca, La, <- Fl. specialize (Hc kl a Hk). cbn beta in Hc. lia.
    - specialize (Hc k1 a1 H1). destruct (Z.eqb_spec (start_tick_index a1) (array_start tl s)) as [E|]; [|exact Hc].
      destruct (Hm k1 a1 H1) as (_ & _ & ->). congruence. }
  intros k1 a1 [[<- <-]|[Hn H1]]%lookup_insert_Some.
  - rewrite Sb', Z.eqb_refl, Cb, Lb, <- Fu. specialize (Hc1 ku b Hk2). cbn beta in Hc1. rewrite Sb in Hc1. lia.
  - specialize (Hc1 k1 a1 H1). cbn beta in Hc1. destruct (Z.eqb_spec (start_tick_index a1) (array_start tu s)) as [E|]; [|lia].
    destruct (Hm1 k1 a1 H1) as (_ & _ & ->). congruence.
Qed.

Lemma tick_gross_nonneg s ps ticks c l T :
  ledger_ok s ps ticks c l -> grid s T -> orders_nonneg (ticks T).
Proof.
  intros HL HT. destruct (lg_orders _ _ _ _ _ HL T HT). split; [done|]. split; [done|].
  rewrite (lg_gross _ _ _ _ _ HL T HT). apply sum_z_nonneg, gross_at_nonneg.
  eapply liquidity_nonneg, lg_positions, HL.
Qed.

Lemma orders_nonneg_named T delta t t0 : named T delta t t0 -> orders_nonneg t -> orders_nonneg t0.
Proof. intros (_ & Hg & Ho & Hp & _)%named_fields. unfold orders_nonneg. by rewrite Hg, Ho, Hp. Qed.

(** The liquidity of an open range moves through [modify_ticks]. *)
Lemma modify_ticks_Ok s ps i pos delta m p e kl ku ext (add name : bool) ts r p' m' ext' :
  liquidity_ok s ps m p e -> passes ext_key e ext ->
  ps !! i = Some pos -> 0 <= pp_liquidity pos + delta ->
  (if add then 0 <= delta else delta <= 0) -> (name = false -> delta <= 0) ->
  modify_ticks pool_key ext_key delta p m kl ku (tick_lower_index pos) (tick_upper_index pos) ext add name ts =
    Ok (r, p', m', ext') ->
  exists e', passes ext_key e' ext' /\ (ext = None -> e' = e /\ ext' = None) /\ (ext <> None -> ext' <> None) /\
    (exists l, pool_changed l p p') /\
    forall pos', tick_lower_index pos' = tick_lower_index pos ->
      tick_upper_index pos' = tick_upper_index pos -> pp_liquidity pos' = pp_liquidity pos + delta ->
      liquidity_ok s (<[i := pos']> ps) m' p' e'.
Proof.
  intros [Hs Hm HL Hmk Hc] Hext Hi Hd Hsg Hname H. unfold modify_ticks in H. cbn zeta in H.
  rewrite (mk_spacing _ _ _ _ _ Hmk) in H.
  pose proof (Forall_lookup_1 _ _ _ _ (lg_positions _ _ _ _ _ HL) Hi) as [Hp0 Ho Gl Gu].
  pose proof (liquidity_nonneg _ _ (lg_positions _ _ _ _ _ HL)) as Hnn.
  set (tl := tick_lower_index pos) in *. set (tu := tick_upper_index pos) in *.
  apply obind_Ok in H as (al & Kl%load_array_Ok & H). apply obind_Ok in H as (_ & _ & H).
  apply obind_Ok in H as (au & Ku%load_array_Ok & H). apply obind_Ok in H as (_ & _ & H).
  apply obind_Ok in H as (lo0 & Tl & H). apply obind_Ok in H as (up0 & Tu & H).
  destruct (get_tick_state_view addr s Hs m kl al tl lo0 Hm (proj1 Gl) Kl Tl) as [Vl _].
  destruct (get_tick_state_view addr s Hs m ku au tu up0 Hm (proj1 Gu) Ku Tu) as [Vu _].
  subst lo0 up0.
  assert (forall T, T = tl \/ T = tu -> grid s T ->
    named T delta (tick_at addr s m T) (if name && (tick (tick_at addr s m T) =? 0)
      then set_tick (tick_at addr s m T) T else tick_at addr s m T)) as Hnm.
  { intros T HT HG. apply (named_tick s ps _ (tick_current p) (liquidity p)); [done|done|].
    intros ->. specialize (Hname eq_refl). destruct (Z.eq_dec delta 0); [by left|right].
    rewrite (lg_gross _ _ _ _ _ HL T HG). pose proof (gross_covers_end ps T i pos Hnn Hi HT). lia. }
  pose proof (Hnm tl (or_introl eq_refl) Gl) as Nl. pose proof (Hnm tu (or_intror eq_refl) Gu) as Nu.
  set (lo := if name && _ then set_tick _ tl else _) in *.
  set (up := if name && _ then set_tick _ tu else _) in *.
  pose proof (orders_nonneg_named _ _ _ _ Nl (tick_gross_nonneg _ _ _ _ _ tl HL Gl)) as Olo.
  pose proof (orders_nonneg_named _ _ _ _ Nu (tick_gross_nonneg _ _ _ _ _ tu HL Gu)) as Oup.
  apply obind_Ok in H as ([[[r1 p1] lower] upper] & Hmod & H).
  destruct (modify_position_Ok delta p lo up _ r1 p1 lower upper Olo Oup Hmod) as (ris & Hp1 & Cl & Cu).
  apply obind_Ok in H as (m1 & S1 & H). apply obind_Ok in H as (m2 & S2 & H).
  apply obind_Ok in H as ([[m3 p3] x3] & F1 & H). apply obind_Ok in H as ([[m4 p4] x4] & F2 & H).
  injection H as <- <- <- <-.
  assert (0 <= liquidity_gross lower /\ 0 <= liquidity_gross upper) as [Ggl Ggu].
  { rewrite (tc_gross _ _ _ _ _ Cl), (tc_gross _ _ _ _ _ Cu).
    destruct (named_fields _ _ _ _ Nl) as (_ & -> & _), (named_fields _ _ _ _ Nu) as (_ & -> & _).
    rewrite !(lg_gross _ _ _ _ _ HL) by done.
    pose proof (gross_covers_end ps tl i pos Hnn Hi (or_introl eq_refl)).
    pose proof (gross_covers_end ps tu i pos Hnn Hi (or_intror eq_refl)). lia. }
  assert (marks_ok addr s m p1 e) as Hmk1 by (destruct Hmk as [? [] ? ?]; rewrite Hp1; by constructor).
  destruct (store_both s m p1 e kl ku tl tu lower upper m1 m2 delta _ _ lo up add Hs Hm Hmk1 Hc Gl Gu
    ltac:(lia) Nl Nu Cl Cu Olo Oup Ggl Ggu Hsg S1 S2) as (Hm2 & Hmk2 & Vl & Vu & Voff & Stl & Stu & Hc2).
  destruct (register_flip_Ok s m2 p1 e kl (tick_lower_flipped r1) add ext _ m3 p3 x3 Hs Hm2 Hmk2 Hc2 Hext F1)
    as (e3 & a3 & Hm3 & V3 & Hmk3 & X3 & Hp3 & K3 & N3 & NN3 & St3 & Hc3).
  destruct (register_flip_Ok s m3 p3 e3 ku (tick_upper_flipped r1) add x3 _ m4 p4 x4 Hs Hm3 Hmk3 Hc3 X3 F2)
    as (e4 & a4 & Hm4 & V4 & Hmk4 & X4 & Hp4 & K4 & N4 & NN4 & St4 & Hc4).
  exists e4. split; [done|]. split; [|split; [by auto|split]].
  { intros ->. destruct (N3 eq_refl) as [-> ->]. by destruct (N4 eq_refl) as [-> ->]. }
  { eexists. exists ris, (tick_array_bitmap p4). rewrite Hp4, Hp3, Hp1. reflexivity. }
  intros pos' E1 E2 E3.
  assert (tick_current p4 = tick_current p) as Et by (by rewrite Hp4, Hp3, Hp1).
  assert (liquidity p4 = liquidity p + if in_force (tick_current p) pos then delta else 0) as El.
  { rewrite Hp4, Hp3, Hp1. cbn. f_equal. unfold in_force. fold tl tu.
    assert (forall b : bool, (if b then 0 else 0) = 0) as Hb by (by intros []).
    destruct Nl as [_ [N1|E]]; [|by rewrite E, !Hb].
    destruct Nu as [_ [N2|E]]; [by rewrite N1, N2|by rewrite E, !Hb]. }
  constructor; [done|done| |done|].
  - rewrite Et, El.
    apply (ledger_change s ps i pos pos' delta Hi Hd E1 E2 E3 (tick_at addr s m) _ _ _
             (tick_lower_flipped r1) (tick_upper_flipped r1) lo up); try done; fold tl tu.
    + by rewrite V4, V3, Vl.
    + by rewrite V4, V3, Vu.
    + intros T HT H1 H2. by rewrite V4, V3, Voff.
  - intros k a Ha. specialize (Hc4 k a Ha). cbn beta in Hc4. rewrite <- Hc4. rewrite Z.add_0_r.
    destruct (tick_lower_flipped r1).
    all: destruct (tick_upper_flipped r1).
    all: try rewrite (Stl a3 (K3 eq_refl)); try rewrite (St3 _ _ Stu a4 (K4 eq_refl)).
    all: repeat destruct (_ =? _); destruct add; lia.
Qed.
End Accounts.
