(* ===== verification/SweepLedger.v ===== *)
(** What the pre-swap sweep of [nebula_shield.rs] does to the ledger of
    [PositionLedger]: it writes the price and the tick of the pool directly,
    without the crossings a swap makes. *)
From S2P Require Import Prelude.
From S2P Require Import AmmError.
From S2P Require Import BigNum.
From S2P Require Import Config.
From S2P Require Import TickMath.
From S2P Require Import TickState.
From S2P Require Import Pool.
From S2P Require Import Position.
From S2P Require Import ArrayStore.
From S2P Require Import PositionLedger.
From S2P Require Import Shield.
#[local] Open Scope Z_scope.

(** A pool at tick 0 whose only position, in [-600, 600), provides all of its
    liquidity. *)
Definition narrow_position : PersonalPositionState := mkPosition 1 77 (-600) 600 (10 ^ 6) 0 0 0 0 [].

Definition narrow_ticks (T : Z) : TickState :=
  if T =? -600 then set_tick_liquidity (set_tick default_tick_state T) (10 ^ 6) (10 ^ 6)
  else if T =? 600 then set_tick_liquidity (set_tick default_tick_state T) (- 10 ^ 6) (10 ^ 6)
  else default_tick_state.

Lemma narrow_ledger : ledger_ok 10 [narrow_position] narrow_ticks 0 (10 ^ 6).
Proof.
  split.
  - constructor; [|constructor]. split; vm_compute; repeat split; discriminate.
  - intros T _. unfold narrow_ticks. destruct (Z.eqb_spec T (-600)) as [->|]; [by left|].
    destruct (Z.eqb_spec T 600) as [->|]; [by left|by right].
  - intros T _. unfold narrow_ticks. by destruct (T =? -600), (T =? 600).
  - intros T _. unfold narrow_ticks, sum_z, net_at. cbn [foldr tick_lower_index tick_upper_index pp_liquidity narrow_position].
    rewrite !(Z.eqb_sym _ T). destruct (Z.eqb_spec T (-600)) as [->|]; [done|]. by destruct (T =? 600).
  - intros T _. unfold narrow_ticks, sum_z, gross_at. cbn [foldr tick_lower_index tick_upper_index pp_liquidity narrow_position].
    rewrite !(Z.eqb_sym _ T). destruct (Z.eqb_spec T (-600)) as [->|]; [done|]. by destruct (T =? 600).
  - reflexivity.
Qed.

Section Properties.

(** A sweep that leaves the range of a position does not take the
    position's liquidity out of the pool: from a pool whose liquidity is that
    of the positions in force, one sweep leads to a pool at a tick where no
    position is in force and whose liquidity is still 10^6 - liquidity that
    the next swap trades against and that nobody provides. *)
Theorem sweep_skips_crossings :
  exists p p' c c' profit,
    tick_current p = 0 /\ ledger_ok 10 [narrow_position] narrow_ticks (tick_current p) (liquidity p) /\
    sweep_towards (U := uint_std) p c 16691387729992681352 77 = Ok (true, true, profit, p', c') /\
    tick_current p' = -1584 /\ liquidity p' = 10 ^ 6 /\
    sum_z (active_at (tick_current p')) [narrow_position] = 0 /\
    ~ ledger_ok 10 [narrow_position] narrow_ticks (tick_current p') (liquidity p').
Proof.
  eexists swept_pool, _, demo_arb, _, _. split; [reflexivity|]. split; [exact narrow_ledger|].
  split; [vm_compute; reflexivity|]. split; [reflexivity|]. split; [reflexivity|]. split; [reflexivity|].
  intros [_ _ _ _ _ H]. vm_compute in H. discriminate H.
Qed.
End Properties.
