(* ===== verification/LiquidityInvariant.v ===== *)
(** The invariant of a pool's liquidity over any sequence of instructions.

    [accounts] is what the program stores for one pool: its positions, its tick
    arrays, the pool and the bitmap extension.  [instruction] relates the
    accounts before and after a successful call of the instructions that
    change liquidity or place and withdraw limit orders; [liquidity_ok] of
    [PositionLedger] holds whatever the sequence, the callers, the amounts and the
    accounts passed. *)
From S2P Require Import Prelude.
From stdpp Require Import gmap.
From S2P Require Import AmmError.
From S2P Require Import BigNum.
From S2P Require Import FullMath.
From S2P Require Import Config.
From S2P Require Import Token.
From S2P Require Import TickMath.
From S2P Require Import LiquidityMath.
From S2P Require Import TickIndex.
From S2P Require Import BitmapExtension.
From S2P Require Import Rewards.
From S2P Require Import TickState.
From S2P Require Import TickArray.
From S2P Require Import Pool.
From S2P Require Import PoolBitmap.
From S2P Require Import LimitOrder.
From S2P Require Import Position.
From S2P Require Import ArrayStore.
From S2P Require Import PositionLedger.
#[local] Open Scope Z_scope.

(** * What the operations on a position leave alone *)

Section Frames.
Context {U : UintLib}.

(** Same range, same liquidity. *)
Definition same_position (a b : PersonalPositionState) : Prop :=
  tick_lower_index a = tick_lower_index b /\ tick_upper_index a = tick_upper_index b /\
  pp_liquidity a = pp_liquidity b.

Lemma update_rewards_frame q g add q' : update_rewards q g add = Ok q' -> same_position q' q.
Proof. unfold update_rewards. intros (rs & _ & H)%obind_Ok. by injection H as <-. Qed.

Lemma update_fee_and_reward_frame q g0 g1 rg q' :
  update_fee_and_reward q g0 g1 rg = Ok q' -> same_position q' q.
Proof.
  unfold update_fee_and_reward. intros (o0 & _ & (o1 & _ & H)%obind_Ok)%obind_Ok.
  apply update_rewards_frame in H as (H1 & H2 & H3). done.
Qed.

Lemma position_initialize_Ok mint pool tl tu l g0 g1 rg q :
  position_initialize mint pool tl tu l g0 g1 rg = Ok q ->
  tick_lower_index q = tl /\ tick_upper_index q = tu /\ pp_liquidity q = l.
Proof.
  unfold position_initialize. intros (q0 & (H1 & H2 & _)%update_rewards_frame & H)%obind_Ok.
  by injection H as <-.
Qed.

Lemma position_increase_Ok q d g0 g1 rg q' :
  position_increase_liquidity q d g0 g1 rg = Ok q' ->
  tick_lower_index q' = tick_lower_index q /\ tick_upper_index q' = tick_upper_index q /\
  pp_liquidity q' = pp_liquidity q + d.
Proof.
  unfold position_increase_liquidity.
  intros (q0 & (H1 & H2 & H3)%update_fee_and_reward_frame & H)%obind_Ok.
  apply obind_Ok in H as (l & [-> _]%ok_or_Ok%ucheck_Some & H). injection H as <-. cbn. by rewrite H3.
Qed.

Lemma position_decrease_Ok q d g0 g1 rg q' :
  position_decrease_liquidity q d g0 g1 rg = Ok q' ->
  tick_lower_index q' = tick_lower_index q /\ tick_upper_index q' = tick_upper_index q /\
  pp_liquidity q' = pp_liquidity q + - d.
Proof.
  unfold position_decrease_liquidity.
  intros (q0 & (H1 & H2 & H3)%update_fee_and_reward_frame & H)%obind_Ok.
  apply obind_Ok in H as (l & [-> _]%ok_or_Ok%ucheck_Some & H). injection H as <-. cbn. by rewrite H3.
Qed.

(** Pools that only differ in their rewards. *)
Lemma add_reward_claimed_frame p i v p' :
  add_reward_claimed p i v = Ok p' -> exists rs, p' = set_reward_infos p rs.
Proof.
  unfold add_reward_claimed. intros (_ & _ & H)%obind_Ok. apply obind_Ok in H as (r & _ & H).
  apply obind_Ok in H as (x & _ & H). apply obind_Ok in H as (rs & _ & H). injection H as <-. by eexists.
Qed.

Lemma collect_rewards_loop_frame groups i p q ts p' q' ts' :
  collect_rewards_loop i groups p q ts = Ok (p', q', ts') ->
  (exists rs, p' = set_reward_infos p rs) /\ same_position q' q.
Proof.
  revert i p q ts. induction groups as [|g groups IH]; intros i p q ts H; cbn [collect_rewards_loop] in H.
  - injection H as <- <- _. split; [exists (reward_infos p); by destruct p|done].
  - apply obind_Ok in H as (_ & _ & H). apply obind_Ok in H as (info & _ & H).
    apply obind_Ok in H as (_ & _ & H). apply obind_Ok in H as (r & _ & H). cbn zeta in H.
    destruct (_ =? 0); [by eapply IH|].
    apply obind_Ok in H as (_ & _ & H). destruct (0 <? _); [|by eapply IH].
    apply obind_Ok in H as (rest & _ & H). apply obind_Ok in H as (rs & _ & H).
    apply obind_Ok in H as (p1 & [rs1 ->]%add_reward_claimed_frame & H).
    apply IH in H as ([rs2 ->] & H1 & H2 & H3). split; [by eexists|done].
Qed.

Lemma collect_rewards_frame groups p q p' q' ts :
  collect_rewards groups p q = Ok (p', q', ts) ->
  (exists rs, p' = set_reward_infos p rs) /\ same_position q' q.
Proof.
  unfold collect_rewards. destruct (negb _).
  - intros [= <- <- _]. split; [exists (reward_infos p); by destruct p|done].
  - intros (_ & _ & H)%obind_Ok. by apply collect_rewards_loop_frame in H.
Qed.
End Frames.

(** * What the invariant does not depend on *)

Section Independence.
Context {U : UintLib} (addr : Z -> Pubkey).

Lemma ledger_ok_ticks s ps ticks ticks' c l :
  ledger_ok s ps ticks c l -> (forall T, grid s T -> ticks' T = ticks T) -> ledger_ok s ps ticks' c l.
Proof. intros [] E. constructor; try done; intros T HT; rewrite E by done; auto. Qed.

Lemma marks_ok_pool s m p p' e :
  marks_ok addr s m p e -> pool_tick_spacing p' = pool_tick_spacing p ->
  tick_array_bitmap p' = tick_array_bitmap p -> marks_ok addr s m p' e.
Proof.
  intros [? [] ? Hm] E1 E2.
  assert (forall j, array_marked p' e j = array_marked p e j) as E by (intros j; unfold array_marked; by rewrite E2).
  constructor; [congruence| |done|intros j; rewrite E; apply Hm].
  constructor; rewrite ?E1, ?E2; try done. intros k. rewrite E. auto.
Qed.

Lemma liquidity_ok_pool s ps m p p' e :
  liquidity_ok addr s ps m p e -> pool_tick_spacing p' = pool_tick_spacing p ->
  tick_array_bitmap p' = tick_array_bitmap p -> tick_current p' = tick_current p ->
  liquidity p' = liquidity p -> liquidity_ok addr s ps m p' e.
Proof.
  intros [] E1 E2 E3 E4. constructor; try done; [by rewrite E3, E4|]. by apply (marks_ok_pool s m p).
Qed.

(** A position's fees and rewards do not matter. *)
Lemma ledger_same_position s ps ticks c l i q q' :
  ledger_ok s ps ticks c l -> ps !! i = Some q -> same_position q' q -> ledger_ok s (<[i := q']> ps) ticks c l.
Proof.
  intros HL Hi (E1 & E2 & E3).
  pose proof (Forall_lookup_1 _ _ _ _ (lg_positions _ _ _ _ _ HL) Hi) as [].
  replace l with (l + if in_force c q then 0 else 0) by (destruct (in_force c q); lia).
  assert (forall T, named T 0 (ticks T) (ticks T)) as Hn by (intros T; split; auto).
  eapply (ledger_change s ps i q q' 0 Hi) with (lo := ticks (tick_lower_index q))
    (up := ticks (tick_upper_index q)); try done; try lia; apply tick_changed_none.
Qed.

Lemma liquidity_ok_position s ps m p e i q q' :
  liquidity_ok addr s ps m p e -> ps !! i = Some q -> same_position q' q ->
  liquidity_ok addr s (<[i := q']> ps) m p e.
Proof. intros [] Hi Hq. constructor; try done. by eapply ledger_same_position. Qed.

(** Closing a position that has no liquidity. *)
Lemma ledger_close s ps ticks c l i q :
  ledger_ok s ps ticks c l -> ps !! i = Some q -> pp_liquidity q = 0 ->
  ledger_ok s (delete i ps) ticks c l.
Proof.
  intros [Hps Hix Hor Hnet Hgr Hac] Hi H0.
  assert (forall f, f q = 0 -> sum_z f (delete i ps) = sum_z f ps) as Hsum.
  { intros f Hf. rewrite (sum_z_delete _ _ _ q) by done. lia. }
  constructor; [by apply Forall_delete|done|done| | |].
  - intros T HT. rewrite Hsum; [by apply Hnet|]. unfold net_at. rewrite H0. by destruct (_ =? _), (_ =? _).
  - intros T HT. rewrite Hsum; [by apply Hgr|]. unfold gross_at. rewrite H0. by destruct (_ =? _), (_ =? _).
  - rewrite Hsum; [done|]. unfold active_at. rewrite H0. by destruct (in_force c q).
Qed.

(** A fresh array. *)
Lemma marks_ok_fresh s m p e start a :
  marks_ok addr s m p e -> m !! addr start = None -> initialized_tick_count a = 0 ->
  marks_ok addr s (<[addr start := a]> m) p e.
Proof.
  intros [Hsp Hb Hc Hm] Hn Ha. constructor; [done|done| |].
  - intros k b [[_ <-]|[_ Hk]]%lookup_insert_Some; [lia|]. by eapply Hc.
  - intros j. rewrite Hm. split; intros (b & Hj & Hst & Hp); exists b; (split; [|done]).
    + rewrite lookup_insert_ne; [done|]. intros E. rewrite <- E, Hn in Hj. done.
    + apply lookup_insert_Some in Hj as [[_ <-]|[_ Hj]]; [lia|done].
Qed.

Lemma get_or_create_ok s ps m p e pool_key start m' :
  liquidity_ok addr s ps m p e -> small start -> get_or_create pool_key addr m start s = Ok m' ->
  liquidity_ok addr s ps m' p e.
Proof.
  intros [Hs Hm HL Hmk Hc] Hsm H.
  destruct (get_or_create_view addr s Hs pool_key m start m' Hsm Hm H)
    as (Hm' & Hv & [->|(Hn & a & -> & Hst & _ & Hca & Hla)]); [by constructor|].
  constructor; [done|done| |by apply marks_ok_fresh|].
  - eapply ledger_ok_ticks; [done|]. intros T [HT _]. by apply Hv.
  - intros k b [[<- <-]|[_ Hk]]%lookup_insert_Some; [lia|]. by apply (Hc k).
Qed.
End Independence.

(** * Instructions *)

Section Instructions.
Context {U : UintLib} {L : TokenLib}.
Context (addr : Z -> Pubkey) (pool_key ext_key : Pubkey).

(** An account at the extension's address is the extension; the one an
    instruction leaves there is the new extension. *)
Definition honest (e : TickArrayBitmapExtension) (ext : option (Pubkey * TickArrayBitmapExtension)) : Prop :=
  forall x, ext = Some (ext_key, x) -> x = e.

Definition extension_after (e : TickArrayBitmapExtension)
    (ext : option (Pubkey * TickArrayBitmapExtension)) : TickArrayBitmapExtension :=
  match ext with Some (k, x) => if k =? ext_key then x else e | None => e end.

Lemma honest_after e ext : honest e ext -> extension_after e ext = e.
Proof.
  intros H. destruct ext as [[k x]|]; [|done]. unfold extension_after.
  destruct (Z.eqb_spec k ext_key) as [->|]; [by apply H|done].
Qed.

Lemma after_passes e e' ext' : passes ext_key e' ext' -> ext' <> None -> extension_after e ext' = e'.
Proof. intros [->| ->] Hn; [done|]. unfold extension_after. by rewrite Z.eqb_refl. Qed.

Lemma select_extension_Ok p l ext used e :
  select_extension ext_key p l ext = Ok used -> honest e ext -> passes ext_key e used.
Proof.
  unfold select_extension. intros H Hh. apply obind_Ok in H as (b & _ & H). destruct b.
  - apply obind_Ok in H as ([k x] & Hx%unwrap_Ok & H). apply obind_Ok in H as (u & Hk & H).
    injection H as <-. apply require_Ok, Z.eqb_eq in Hk. subst k ext. right. by rewrite (Hh x).
  - injection H as <-. by left.
Qed.

(** The extension after an instruction that was passed [ext] and used
    [used]. *)
Lemma merge_after e e' (ext used used' : option (Pubkey * TickArrayBitmapExtension)) :
  honest e ext -> passes ext_key e' used' -> (used = None -> e' = e /\ used' = None) ->
  (used <> None -> used' <> None) -> extension_after e (merge_extension ext used') = e'.
Proof.
  intros Hh Hp Hn Hs. destruct used' as [[k x]|] eqn:E.
  - unfold merge_extension. by eapply after_passes.
  - unfold merge_extension. rewrite honest_after by done.
    destruct used; [by destruct Hs|]. by destruct (Hn eq_refl).
Qed.

Lemma add_liquidity_Ok s ps i pos c m p e kl ku ext l a0 a1 flag ts r l' p' m' ext' trs :
  liquidity_ok addr s ps m p e -> passes ext_key e ext -> ps !! i = Some pos -> 0 <= l ->
  add_liquidity pool_key ext_key c p m kl ku ext l a0 a1 (tick_lower_index pos) (tick_upper_index pos)
    flag ts = Ok (r, l', p', m', ext', trs) ->
  exists e', passes ext_key e' ext' /\ (ext = None -> e' = e /\ ext' = None) /\ (ext <> None -> ext' <> None) /\
    forall pos', tick_lower_index pos' = tick_lower_index pos ->
      tick_upper_index pos' = tick_upper_index pos -> pp_liquidity pos' = pp_liquidity pos + l' ->
      liquidity_ok addr s (<[i := pos']> ps) m' p' e'.
Proof.
  intros Hok Hext Hi Hl H. unfold add_liquidity in H. set (continue := fun x : Z => _) in H.
  assert (forall x, continue x = Ok (r, l', p', m', ext', trs) ->
    exists e', passes ext_key e' ext' /\ (ext = None -> e' = e /\ ext' = None) /\ (ext <> None -> ext' <> None) /\
    forall pos', tick_lower_index pos' = tick_lower_index pos ->
      tick_upper_index pos' = tick_upper_index pos -> pp_liquidity pos' = pp_liquidity pos + l' ->
      liquidity_ok addr s (<[i := pos']> ps) m' p' e') as Hcont.
  { clear H. intros x H. unfold continue in H. apply obind_Ok in H as (u & Hx & H).
    apply require_Ok, Z.ltb_lt in Hx.
    apply obind_Ok in H as (d & [-> _]%ok_or_Ok%icheck_Some & H).
    apply obind_Ok in H as ([[[r1 p1] m1] x1] & Hmod & H). cbn zeta in H.
    pose proof (Forall_lookup_1 _ _ _ _ (lg_positions _ _ _ _ _ (lq_ledger _ _ _ _ _ _ Hok)) Hi) as [Hp0 _ _ _].
    destruct (modify_ticks_Ok addr pool_key ext_key s ps i pos x m p e kl ku ext true true ts r1 p1 m1 x1
      Hok Hext Hi ltac:(lia) ltac:(simpl; lia) ltac:(done) Hmod) as (e' & H1 & H2 & H3 & _ & H4).
    apply obind_Ok in H as (_ & _ & H). apply obind_Ok in H as (f0 & _ & H). apply obind_Ok in H as (f1 & _ & H).
    apply obind_Ok in H as (q0 & _ & H). apply obind_Ok in H as (_ & _ & H). apply obind_Ok in H as (q1 & _ & H).
    apply obind_Ok in H as (_ & _ & H). injection H as _ <- <- <- <- _. exists e'. auto. }
  destruct (l =? 0); [|by eapply Hcont].
  destruct flag as [b|].
  - apply obind_Ok in H as (x & _ & H). by eapply Hcont.
  - injection H as _ <- <- <- <- _. exists e. split; [done|]. split; [done|]. split; [done|].
    intros pos' E1 E2 E3. rewrite Z.add_0_r in E3. by eapply liquidity_ok_position.
Qed.

Lemma check_start_Ok start t s u :
  spacing_ok s -> check_tick_array_start_index start t s = Ok u ->
  grid s t /\ small start /\ start = array_start t s.
Proof.
  intros Hs H. unfold check_tick_array_start_index in H.
  apply obind_Ok in H as (_ & Hlo%require_Ok%Z.leb_le & H).
  apply obind_Ok in H as (_ & Hhi%require_Ok%Z.leb_le & H).
  pose proof (small_tick t ltac:(lia)) as Hsm.
  rewrite irem_ok in H by (done || (unfold spacing_ok in Hs; lia)). cbn [obind] in H.
  apply obind_Ok in H as (_ & Hr%require_Ok%Z.eqb_eq & H).
  rewrite get_array_start_index_ok in H by done. cbn [obind] in H.
  apply require_Ok, Z.eqb_eq in H.
  pose proof (array_start_bounds t s Hs) as Hb. pose proof (tpa_range s Hs).
  split; [split; [done|]|].
  - symmetry in Hr. apply Z.rem_divide in Hr as [q ->]; [by rewrite Z.mod_mul by (unfold spacing_ok in Hs; lia)|].
    unfold spacing_ok in Hs. lia.
  - split; [|done]. unfold small, MIN_TICK, MAX_TICK in *. lia.
Qed.

Lemma open_position_ok s ps m p e mint c ext l a0 a1 tl tu sl su flag ts q p' m' ext' trs :
  liquidity_ok addr s ps m p e -> honest e ext -> 0 <= l ->
  open_position pool_key ext_key addr mint c p m ext l a0 a1 tl tu sl su flag ts = Ok (q, p', m', ext', trs) ->
  liquidity_ok addr s (ps ++ [q]) m' p' (extension_after e ext').
Proof.
  intros Hok Hh Hl H. unfold open_position in H.
  pose proof (mk_spacing _ _ _ _ _ (lq_marks _ _ _ _ _ _ Hok)) as Hsp. rewrite Hsp in H.
  pose proof (lq_spacing _ _ _ _ _ _ Hok) as Hs.
  apply obind_Ok in H as (_ & _ & H). apply obind_Ok in H as (_ & _ & H).
  apply obind_Ok in H as (_ & Hord%require_Ok%Z.ltb_lt & H).
  apply obind_Ok in H as (u1 & Hcl & H). apply obind_Ok in H as (u2 & Hcu & H).
  apply check_start_Ok in Hcl as (Gl & Sl & _); [|done]. apply check_start_Ok in Hcu as (Gu & Su & _); [|done].
  apply obind_Ok in H as (m1 & Hm1 & H). apply get_or_create_ok with (e := e) (p := p) (ps := ps) in Hm1; [|done..].
  apply obind_Ok in H as (m2 & Hm2 & H).
  assert (liquidity_ok addr s ps m2 p e) as Hok2.
  { destruct (sl =? su); [|by eapply get_or_create_ok]. apply obind_Ok in Hm2 as (x & _ & Hm2). by injection Hm2 as <-. }
  apply obind_Ok in H as (used & Hused & H). apply (select_extension_Ok _ _ _ _ e) in Hused; [|done].
  apply obind_Ok in H as ([[[[[r l'] p1] m3] used'] trs'] & Hadd & H).
  apply obind_Ok in H as (q1 & Hq & H). injection H as <- <- <- <- _.
  apply position_initialize_Ok in Hq as (E1 & E2 & E3).
  set (pos := mkPosition mint pool_key tl tu 0 0 0 0 0 []).
  assert (liquidity_ok addr s (ps ++ [pos]) m2 p e) as Hok3.
  { destruct Hok2. constructor; try done. apply ledger_open; [done| |done]. by constructor. }
  assert ((ps ++ [pos]) !! length ps = Some pos) as Hi by (rewrite lookup_app_r, Nat.sub_diag by lia; done).
  destruct (add_liquidity_Ok s _ _ pos c m2 p e _ _ used l a0 a1 flag ts r l' p1 m3 used' trs' Hok3 Hused Hi Hl Hadd)
    as (e' & H1 & H2 & H3 & H4).
  rewrite (merge_after e e' ext used used') by done.
  specialize (H4 q1 E1 E2 ltac:(by rewrite E3)).
  rewrite insert_app_r_alt, Nat.sub_diag in H4 by lia. done.
Qed.

Lemma increase_liquidity_ok s ps i m p e signer n pos c kl ku ext l a0 a1 flag ts q p' m' ext' trs :
  liquidity_ok addr s ps m p e -> honest e ext -> 0 <= l -> ps !! i = Some pos ->
  increase_liquidity pool_key ext_key signer n pos c p m kl ku ext l a0 a1 flag ts = Ok (q, p', m', ext', trs) ->
  liquidity_ok addr s (<[i := q]> ps) m' p' (extension_after e ext').
Proof.
  intros Hok Hh Hl Hi H. unfold increase_liquidity in H. cbn zeta in H.
  do 5 apply obind_Ok in H as (_ & _ & H).
  apply obind_Ok in H as (used & Hused & H). apply (select_extension_Ok _ _ _ _ e) in Hused; [|done].
  apply obind_Ok in H as ([[[[[r l'] p1] m3] used'] trs'] & Hadd & H).
  apply obind_Ok in H as (q1 & Hq & H). injection H as <- <- <- <- _.
  apply position_increase_Ok in Hq as (E1 & E2 & E3).
  destruct (add_liquidity_Ok s ps i pos c m p e _ _ used l a0 a1 flag ts r l' p1 m3 used' trs' Hok Hused Hi Hl Hadd)
    as (e' & H1 & H2 & H3 & H4).
  rewrite (merge_after e e' ext used used') by done. by apply H4.
Qed.

Lemma decrease_update_ok s ps i m p e pos kl ku ext l ts a0 f0 a1 f1 p' q m' ext' :
  liquidity_ok addr s ps m p e -> passes ext_key e ext -> 0 <= l <= pp_liquidity pos -> ps !! i = Some pos ->
  decrease_liquidity_and_update_position pool_key ext_key p pos m kl ku ext l ts =
    Ok (a0, f0, a1, f1, p', q, m', ext') ->
  exists e', passes ext_key e' ext' /\ (ext = None -> e' = e /\ ext' = None) /\ (ext <> None -> ext' <> None) /\
    liquidity_ok addr s (<[i := q]> ps) m' p' e'.
Proof.
  intros Hok Hext Hl Hi H. unfold decrease_liquidity_and_update_position in H.
  apply obind_Ok in H as ([[[[[b0 b1] p1] q1] m1] x1] & Hd & H).
  assert (exists e', passes ext_key e' x1 /\ (ext = None -> e' = e /\ x1 = None) /\ (ext <> None -> x1 <> None) /\
    forall q2, same_position q2 q1 -> liquidity_ok addr s (<[i := q2]> ps) m1 p1 e') as (e' & H1 & H2 & H3 & H4).
  { destruct (get_status_by_bit p DecreaseLiquidity).
    - apply obind_Ok in Hd as ([[[r p2] m2] x2] & Hb & Hd). apply obind_Ok in Hd as (q2 & Hq & Hd).
      injection Hd as _ _ <- <- <- <-. apply position_decrease_Ok in Hq as (E1 & E2 & E3).
      unfold burn_liquidity in Hb. apply obind_Ok in Hb as (d & [-> _]%ok_or_Ok%icheck_Some & Hb).
      destruct (modify_ticks_Ok addr pool_key ext_key s ps i pos (- l) m p e kl ku ext false false ts r p2 m2 x2
        Hok Hext Hi ltac:(lia) ltac:(simpl; lia) ltac:(lia) Hb) as (e' & H1 & H2 & H3 & _ & H4).
      exists e'. split_and!; try done. intros q3 (F1 & F2 & F3). apply H4; congruence.
    - injection Hd as _ _ <- <- <- <-. exists e. split_and!; try done.
      intros q2 Hq. by eapply liquidity_ok_position. }
  exists e'. destruct (get_status_by_bit p1 CollectFee); injection H as _ _ _ _ <- <- <- <-;
    (split; [done|]; split; [done|]; split; [done|]; by apply H4).
Qed.

Lemma decrease_liquidity_ok s ps i m p e signer n pos c kl ku ext groups l a0 a1 ts q p' m' ext' trs :
  liquidity_ok addr s ps m p e -> (forall x, ext = Some x -> x = e) -> 0 <= l -> ps !! i = Some pos ->
  decrease_liquidity pool_key ext_key signer n pos c p m kl ku ext groups l a0 a1 ts = Ok (q, p', m', ext', trs) ->
  liquidity_ok addr s (<[i := q]> ps) m' p' (default e ext').
Proof.
  intros Hok Hh Hl Hi H. unfold decrease_liquidity in H.
  do 3 apply obind_Ok in H as (_ & _ & H). apply obind_Ok in H as (_ & Hge%require_Ok%Z.leb_le & H).
  apply obind_Ok in H as (_ & _ & H). apply obind_Ok in H as (al & _ & H). apply obind_Ok in H as (au & _ & H).
  apply obind_Ok in H as (use & _ & H). apply obind_Ok in H as (_ & _ & H).
  apply obind_Ok in H as ([[[[[[[b0 f0] b1] f1] p1] q1] m1] x1] & Hd & H).
  assert (passes ext_key e (pair ext_key <$> ext)) as Hext.
  { destruct ext as [x|]; [right; by rewrite (Hh x)|by left]. }
  destruct (decrease_update_ok s ps i m p e pos kl ku _ l ts b0 f0 b1 f1 p1 q1 m1 x1 Hok Hext
    ltac:(lia) Hi Hd) as (e' & H1 & H2 & H3 & H4).
  apply obind_Ok in H as (g0 & _ & H). apply obind_Ok in H as (g1 & _ & H). apply obind_Ok in H as (_ & _ & H).
  apply obind_Ok in H as (t0 & _ & H). apply obind_Ok in H as (t1 & _ & H).
  apply obind_Ok in H as ([[p2 q2] rw] & Hc & H). injection H as <- <- <- <- _.
  apply collect_rewards_frame in Hc as ([rs ->] & Hq).
  replace (default e (snd <$> x1)) with e'.
  2:{ destruct H1 as [->| ->]; [|done]. destruct ext; [by destruct H3|]. by destruct (H2 eq_refl). }
  assert (<[i:=q1]> ps !! i = Some q1) as Hi1 by (apply list_lookup_insert_eq; by eapply lookup_lt_Some).
  pose proof (liquidity_ok_position addr s _ m1 p1 e' i q1 q2 H4 Hi1 Hq) as H5.
  rewrite list_insert_insert_eq in H5. by apply (liquidity_ok_pool addr s _ m1 p1).
Qed.

(** ** Limit orders *)

(** One tick's orders change, with its array's count to follow. *)
Lemma tick_orders_step s ps m p e (k : Pubkey) a T t t' a2 :
  liquidity_ok addr s ps m p e -> m !! k = Some a -> grid s T ->
  get_tick_state a T s = Ok t -> update_tick_state a T s t' = Ok a2 ->
  liquidity_net t' = liquidity_net t -> liquidity_gross t' = liquidity_gross t ->
  tick t' = T \/ tick t' = tick t ->
  0 <= orders_amount t' -> 0 <= part_filled_orders_remaining t' ->
  store_ok addr s (<[k := a2]> m) /\
  ledger_ok s ps (tick_at addr s (<[k := a2]> m)) (tick_current p) (liquidity p) /\
  marks_ok addr s (<[k := a2]> m) p e /\
  start_tick_index a2 = start_tick_index a /\ initialized_tick_count a2 = initialized_tick_count a /\
  start_tick_index a = array_start T s /\ k = addr (array_start T s) /\
  counts_off (fun st => if st =? start_tick_index a2
                        then b2z (is_initialized t') - b2z (is_initialized t) else 0) (<[k := a2]> m).
Proof.
  intros [Hs Hm HL Hmk Hc] Hk HT Hg Hu Hn Hgr Hti Ho1 Ho2.
  destruct (get_tick_state_view addr s Hs m k a T t Hm (proj1 HT) Hk Hg) as [Hv _].
  assert (store_tick m k T s t' = Ok (<[k := a2]> m)) as Hst.
  { unfold store_tick. rewrite (proj2 (load_array_Ok m k a) Hk). cbn [obind]. by rewrite Hu. }
  destruct (store_tick_Ok addr s Hs m k T t' _ Hm HT Hst)
    as (a1 & a1' & Hk1 & Heq & Ek & Sa & Sa' & _ & Ca & La & Hm1 & V1 & Voff).
  rewrite Hk in Hk1. injection Hk1 as <-.
  assert (a1' = a2) as ->.
  { assert ((<[k:=a2]> m) !! k = (<[k:=a1']> m) !! k) as E by (by rewrite Heq).
    rewrite !lookup_insert_eq in E. by injection E. }
  split; [done|]. split; [|split; [|split; [|split; [|split; [|split]]]]]; try done; [| |congruence|].
  - destruct HL as [Hps Hix Hor Hnet Hgro Hac]. constructor; [done| | | | |done]; intros T' HT';
      (destruct (Z.eq_dec T' T) as [->|Hne]; [rewrite V1|by rewrite Voff; auto]).
    + rewrite Hgr, <- Hv. destruct Hti as [->| ->]; [by left|]. rewrite <- Hv. by apply Hix.
    + done.
    + rewrite Hn, <- Hv. by apply Hnet.
    + rewrite Hgr, <- Hv. by apply Hgro.
  - by apply (marks_same addr s Hs m p e k a a2); try congruence.
  - intros k1 b [[<- <-]|[Hne H1]]%lookup_insert_Some.
    + rewrite Z.eqb_refl, Ca, La, Hv. specialize (Hc k a Hk). cbn beta in Hc. lia.
    + specialize (Hc k1 b H1). cbn beta in Hc. destruct (Z.eqb_spec (start_tick_index b) (start_tick_index a2)) as [E|]; [|done].
      destruct (Hm k1 b H1) as (_ & _ & ->). congruence.
Qed.

Lemma flip_array_of_Ok p e ext start p' ext' :
  honest e ext -> flip_array_of ext_key p ext start = Ok (p', ext') ->
  exists used used', passes ext_key e used /\
    pool_flip_tick_array_bit p ext_key used start = Ok (p', used') /\
    ext' = merge_extension ext used' /\ (used = None -> used' = None).
Proof.
  intros Hh H. unfold flip_array_of in H. apply obind_Ok in H as (b & Hb & H). destruct b.
  - apply obind_Ok in H as ([k x] & [= ->]%ok_or_Ok & H).
    pose proof H as H'. unfold pool_flip_tick_array_bit in H'. rewrite Hb in H'. cbn [obind ok_or] in H'.
    apply obind_Ok in H' as (u & Hk & H'). apply require_Ok, Z.eqb_eq in Hk. subst k.
    apply obind_Ok in H' as (x' & _ & H'). injection H' as _ <-.
    exists (Some (ext_key, x)), (Some (ext_key, x')).
    split; [right; by rewrite (Hh x)|]. by split_and!.
  - apply obind_Ok in H as ([p1 y] & Hf & H). injection H as <- <-. exists None, None.
    split; [by left|]. split; [|done]. pose proof Hf as Hf'. unfold pool_flip_tick_array_bit in Hf.
    rewrite Hb in Hf. cbn [obind] in Hf. apply obind_Ok in Hf as (p2 & _ & Hf). by injection Hf as <- <-.
Qed.

(** The accounts after a tick's orders changed: the array as written, or
    recounted and remarked. *)
Lemma orders_recount s ps m p e (k : Pubkey) a T t t' a2 (recount add : bool) a3 p' ext ext' :
  liquidity_ok addr s ps m p e -> honest e ext -> m !! k = Some a -> grid s T ->
  get_tick_state a T s = Ok t -> update_tick_state a T s t' = Ok a2 ->
  liquidity_net t' = liquidity_net t -> liquidity_gross t' = liquidity_gross t ->
  tick t' = T \/ tick t' = tick t ->
  0 <= orders_amount t' -> 0 <= part_filled_orders_remaining t' ->
  b2z (is_initialized t') - b2z (is_initialized t) = (if recount then if add then 1 else -1 else 0) ->
  (if recount then
     let! a3 := update_initialized_tick_count a2 add in
     if (if add then initialized_tick_count a2 =? 0 else initialized_tick_count a3 =? 0) then
       let! '(p, ext) := flip_array_of ext_key p ext (start_tick_index a3) in Ok (a3, p, ext)
     else Ok (a3, p, ext)
   else Ok (a2, p, ext)) = Ok (a3, p', ext') ->
  liquidity_ok addr s ps (<[k := a3]> m) p' (extension_after e ext').
Proof.
  intros Hok Hh Hk HT Hg Hu Hn Hgr Hti Ho1 Ho2 Hb H.
  destruct (tick_orders_step s ps m p e k a T t t' a2 Hok Hk HT Hg Hu Hn Hgr Hti Ho1 Ho2)
    as (Hm2 & HL2 & Hmk2 & E1 & E2 & E3 & E4 & Hc2). pose proof (lq_spacing _ _ _ _ _ _ Hok) as Hs.
  rewrite Hb in Hc2. destruct recount.
  2:{ injection H as <- <- <-. rewrite honest_after by done. constructor; try done.
      intros k1 b Hk1. rewrite <- (Hc2 k1 b Hk1). by destruct (_ =? _). }
  apply obind_Ok in H as (b & Hcnt & H).
  assert ((<[k := a2]> m) !! k = Some a2) as Hk2 by apply lookup_insert_eq.
  assert (exists used used', passes ext_key e used /\ ext' = merge_extension ext used' /\
    (used = None -> used' = None) /\ a3 = b /\
    (if (if add then initialized_tick_count a2 =? 0 else initialized_tick_count b =? 0)
     then pool_flip_tick_array_bit p ext_key used (start_tick_index b) else Ok (p, used)) = Ok (p', used'))
    as (used & used' & Hp & -> & Hnn & -> & Hf).
  { destruct (if add then initialized_tick_count a2 =? 0 else initialized_tick_count b =? 0).
    - apply obind_Ok in H as ([p1 x1] & Hf & H). injection H as <- <- <-.
      destruct (flip_array_of_Ok p e ext _ p1 x1 Hh Hf) as (u & u' & ? & ? & ? & ?). by exists u, u'.
    - injection H as <- <- <-. exists None, None. split; [by left|]. by split_and!. }
  destruct (recount_Ok addr s Hs ext_key _ p e k a2 add b used _ Hm2 Hmk2 Hc2 Hp Hk2 Hcnt p' used' Hf)
    as (e' & H1 & H2 & H3 & H4 & H5 & H6 & H7 & H8).
  rewrite insert_insert_eq in H1, H3, H8.
  rewrite (merge_after e e' ext used used') by done. constructor; try done.
  - rewrite H5. eapply ledger_ok_ticks; [exact HL2|]. intros T' _. rewrite <- H2. by rewrite insert_insert_eq.
  - intros k1 c Hk1. rewrite <- (H8 k1 c Hk1). cbn beta. destruct (_ =? _), add; lia.
Qed.

(** [get_tick_offset_in_array] with [set_tick_at] is [update_tick_state]. *)
Lemma tick_at_offset a T s o t :
  get_tick_offset_in_array a T s = Ok o -> idx (ticks a) o = @Ok error _ t ->
  get_tick_state a T s = Ok t /\ forall x, update_tick_state a T s x = set_tick_at a o x.
Proof. intros Ho Ht. unfold get_tick_state, update_tick_state. by rewrite Ho. Qed.

Lemma check_tick_index_Ok T z c s u :
  spacing_ok s -> check_tick_index T z c s = Ok u -> grid s T /\ small (array_start T s).
Proof.
  intros Hs H. unfold check_tick_index in H. apply obind_Ok in H as (_ & Hr%require_Ok & H).
  apply andb_true_iff in Hr as [H1%Z.ltb_lt H2%Z.ltb_lt].
  assert (small T) as Hsm by (apply small_tick; lia).
  pose proof (array_start_bounds T s Hs). pose proof (tpa_range s Hs).
  split; [split; [done|]|unfold small, MIN_TICK, MAX_TICK in *; lia].
  rewrite irem_ok in H by (done || (unfold spacing_ok in Hs; lia)). cbn [obind] in H.
  destruct (Z.eqb_spec (Z.rem T s) 0) as [E|]; [|done]. unfold spacing_ok in Hs.
  apply Z.rem_divide in E as [q ->]; [|lia]. by rewrite Z.mod_mul by lia.
Qed.

Lemma open_limit_order_ok s ps m p e payer key nonce ita iv mint ext now ni z T amount o n' a3 p' ext' trs :
  liquidity_ok addr s ps m p e -> honest e ext ->
  open_limit_order addr ext_key pool_key payer p key (m !! key) nonce ita iv mint ext now ni z T amount =
    Ok (o, n', a3, p', ext', trs) ->
  liquidity_ok addr s ps (<[key := a3]> m) p' (extension_after e ext') /\ grid s (lo_tick_index o).
Proof.
  intros Hok Hh H. unfold open_limit_order in H. apply obind_Ok in H as (_ & _ & H).
  destruct (_ || _); [done|]. cbn zeta in H.
  rewrite (mk_spacing _ _ _ _ _ (lq_marks _ _ _ _ _ _ Hok)) in H.
  pose proof (lq_spacing _ _ _ _ _ _ Hok) as Hs.
  apply obind_Ok in H as (u & HT & H). apply check_tick_index_Ok in HT as [HT Hsm]; [|done].
  apply obind_Ok in H as (fee & _ & H). apply obind_Ok in H as (net & [-> Hnet]%ok_or_Ok%ucheck_Some & H).
  set (net := amount - fee) in *. apply obind_Ok in H as (u' & Hamt & H).
  apply obind_Ok in H as (start & Hst & H). rewrite get_array_start_index_ok in Hst by (done || apply HT).
  injection Hst as <-. apply obind_Ok in H as (u2 & Hkey & H). apply require_Ok, Z.eqb_eq in Hkey. subst key.
  apply obind_Ok in H as (a & Ha & H). cbn zeta in H. apply obind_Ok in H as (off & Hoff & H).
  apply obind_Ok in H as (t & Ht & H). apply obind_Ok in H as (_ & _ & H).
  apply obind_Ok in H as (t' & Hp & H). apply obind_Ok in H as (a2 & Ha2 & H).
  apply obind_Ok in H as ([[a4 p4] x4] & Hr & H). injection H as <- _ <- <- <- _.
  split; [|exact HT].
  assert (liquidity_ok addr s ps (<[addr (array_start T s) := a]> m) p e) as Hok1.
  { eapply get_or_create_ok; [done|exact Hsm|]. unfold get_or_create. cbn zeta. by rewrite Ha. }
  destruct (tick_at_offset a T s off t Hoff Ht) as [Hg Hu].
  unfold place_order in Hp. apply obind_Ok in Hp as (v & [-> Hv]%ok_or_Ok%ucheck_Some & Hp).
  assert (orders_nonneg t) as (O1 & O2 & O3).
  { destruct (get_tick_state_view addr s Hs _ _ a T t (lq_store _ _ _ _ _ _ Hok1) (proj1 HT)
      (lookup_insert_eq _ _ _) Hg) as [<- _].
    by eapply tick_gross_nonneg; [apply (lq_ledger _ _ _ _ _ _ Hok1)|]. }
  assert (0 < net) as Hpos.
  { unfold check_limit_order_amount in Hamt. unfold in_u in Hnet. destruct (Z.eqb_spec net 0); [done|lia]. }
  assert (is_initialized t' = true) as Hi'.
  { injection Hp as <-. unfold is_initialized, has_limit_orders. cbn.
    destruct (Z.ltb_spec 0 (orders_amount t + net)); [|lia]. by rewrite orb_true_r. }
  pose proof (orders_recount s ps _ p e _ a T t t' a2 (negb (is_initialized t)) true a4 p4 ext x4 Hok1 Hh
    (lookup_insert_eq _ _ _) HT Hg ltac:(by rewrite Hu)) as Hfin.
  rewrite insert_insert_eq in Hfin. apply Hfin; try (injection Hp as <-; done || cbn; lia); auto.
  - rewrite Hi'. by destruct (is_initialized t).
  - rewrite <- Hr. destruct (negb (is_initialized t)); [|done].
    assert (initialized_tick_count a2 = initialized_tick_count a) as ->; [|done].
    rewrite <- Hu in Ha2.
    by destruct (update_tick_Ok s Hs a T t' a2 (proj1 (lq_store _ _ _ _ _ _ Hok1 _ _ (lookup_insert_eq _ _ _))) HT Ha2)
      as (x & _ & _ & _ & _ & -> & _).
Qed.

(** ** The order's own operations on its tick *)

Lemma increase_amount_frame o t v o' t' :
  increase_amount o t v = Ok (o', t') ->
  lo_tick_index o' = lo_tick_index o /\ exists n, 0 <= n /\ n = orders_amount t + v /\
  t' = set_tick_orders t (order_phase t) n (part_filled_orders_remaining t) (unfilled_ratio_x64 t).
Proof.
  unfold increase_amount. destruct (negb _); [done|].
  intros (a & _ & H)%obind_Ok. apply obind_Ok in H as (b & _ & H).
  apply obind_Ok in H as (c & [-> Hc]%ok_or_Ok%ucheck_Some & H). injection H as <- <-.
  split; [done|]. eexists. split; [|done]. unfold in_u in Hc. lia.
Qed.

Lemma settle_filled_order_index o t v o' :
  settle_filled_order o t = Ok (v, o') -> lo_tick_index o' = lo_tick_index o.
Proof.
  unfold settle_filled_order. intros H.
  destruct (_ =? 0); [by injection H as _ <-|]. destruct (_ =? _); [by injection H as _ <-|].
  destruct (_ =? _); [|destruct (_ <=? _); [|done]].
  - unfold settle_part_filled in H. apply obind_Ok in H as (x & _ & H). cbn zeta in H.
    apply obind_Ok in H as (y & _ & H). apply obind_Ok in H as (z & _ & H).
    apply obind_Ok in H as (w & _ & H). destruct (_ =? 0); [by injection H as _ <-|].
    apply obind_Ok in H as (a & _ & H). apply obind_Ok in H as (b & _ & H). by injection H as _ <-.
  - apply obind_Ok in H as (x & _ & H). by injection H as _ <-.
Qed.

Lemma take_from_tick_frame o t v u d t' :
  0 <= orders_amount t -> 0 <= part_filled_orders_remaining t -> 0 <= v -> 0 <= u ->
  take_from_tick o t v u = Ok (d, t') ->
  exists n q, 0 <= n <= orders_amount t /\ 0 <= q <= part_filled_orders_remaining t /\
    t' = set_tick_orders t (order_phase t) n q (unfilled_ratio_x64 t).
Proof.
  unfold take_from_tick. intros Ho Hp Hv Hu H. destruct (_ =? _); [|destruct (_ =? _); [|done]]; cbn zeta in H;
    apply obind_Ok in H as (x & [-> Hx]%ok_or_Ok%ucheck_Some & H); injection H as _ <-;
    (eexists _, _; split; [|split; [|done]]; unfold in_u in Hx; lia).
Qed.

Lemma decrease_amount_frame o t v r o' t' :
  0 <= orders_amount t -> 0 <= part_filled_orders_remaining t -> 0 <= v ->
  decrease_amount o t v = Ok (r, o', t') ->
  lo_tick_index o' = lo_tick_index o /\
  exists n q, 0 <= n <= orders_amount t /\ 0 <= q <= part_filled_orders_remaining t /\
    t' = set_tick_orders t (order_phase t) n q (unfilled_ratio_x64 t).
Proof.
  intros Ho Hp Hv H. unfold decrease_amount in H.
  apply obind_Ok in H as ([s o1] & Hs%settle_filled_order_index & H).
  apply obind_Ok in H as (u & [Eu Hu]%ok_or_Ok%ucheck_Some & H). rewrite <- Eu in Hu.
  destruct (u =? 0).
  { injection H as _ <- <-. split; [done|].
    exists (orders_amount t), (part_filled_orders_remaining t). split; [lia|]. split; [lia|by destruct t]. }
  apply obind_Ok in H as ([d t1] & Ht & H).
  destruct (take_from_tick_frame o1 t v u d t1 Ho Hp Hv ltac:(unfold in_u in Hu; lia) Ht)
    as (n & q & Hn & Hq & ->).
  destruct (d =? 0); [injection H as _ <- <-; split; [done|by exists n, q]|].
  apply obind_Ok in H as (tot & _ & H). cbn zeta in H. apply obind_Ok in H as (o2 & Ho2 & H).
  apply obind_Ok in H as (rem & _ & H). apply obind_Ok in H as (_ & _ & H). injection H as _ <- <-.
  split; [|by exists n, q]. unfold reset_segment in Ho2. destruct (_ =? _).
  - apply obind_Ok in Ho2 as (x & _ & Ho2). injection Ho2 as <-. exact Hs.
  - injection Ho2 as <-. exact Hs.
Qed.

Lemma view_orders_nonneg s ps m p e (key : Pubkey) a T t :
  liquidity_ok addr s ps m p e -> m !! key = Some a -> grid s T -> get_tick_state a T s = Ok t ->
  orders_nonneg t.
Proof.
  intros Hok Hk HT Hg.
  destruct (get_tick_state_view addr s (lq_spacing _ _ _ _ _ _ Hok) m key a T t
    (lq_store _ _ _ _ _ _ Hok) (proj1 HT) Hk Hg) as [<- _].
  eapply tick_gross_nonneg; [apply (lq_ledger _ _ _ _ _ _ Hok)|done].
Qed.

Lemma increase_limit_order_ok s ps m p e key a owner o ita iv mint amount o' a2 trs :
  liquidity_ok addr s ps m p e -> m !! key = Some a -> grid s (lo_tick_index o) ->
  is_initialized (tick_at addr s m (lo_tick_index o)) = true ->
  increase_limit_order pool_key owner p a o ita iv mint amount = Ok (o', a2, trs) ->
  liquidity_ok addr s ps (<[key := a2]> m) p e /\ lo_tick_index o' = lo_tick_index o.
Proof.
  intros Hok Hk HT Hini H. unfold increase_limit_order in H.
  do 3 apply obind_Ok in H as (_ & _ & H). destruct (_ || _); [done|]. cbn zeta in H.
  rewrite (mk_spacing _ _ _ _ _ (lq_marks _ _ _ _ _ _ Hok)) in H.
  apply obind_Ok in H as (off & Hoff & H). apply obind_Ok in H as (t & Ht & H).
  apply obind_Ok in H as (fee & _ & H). apply obind_Ok in H as (net & [Enet Hnet]%ok_or_Ok%ucheck_Some & H).
  rewrite <- Enet in Hnet.
  apply obind_Ok in H as ([o1 t'] & [Ho (n & Hn & En & Ht')]%increase_amount_frame & H).
  apply obind_Ok in H as (a1 & Ha1 & H). apply obind_Ok in H as (_ & _ & H). injection H as <- <- _.
  split; [|done]. destruct (tick_at_offset a _ s off t Hoff Ht) as [Hg Hu].
  pose proof (view_orders_nonneg s ps m p e key a _ t Hok Hk HT Hg) as (O1 & O2 & O3).
  destruct (get_tick_state_view addr s (lq_spacing _ _ _ _ _ _ Hok) m key a _ t
    (lq_store _ _ _ _ _ _ Hok) (proj1 HT) Hk Hg) as [Ev _]. rewrite Ev in Hini.
  rewrite <- (honest_after e None) by done.
  apply (orders_recount s ps m p e key a (lo_tick_index o) t t' a1 false true a1 p None None); try done.
  - by rewrite Hu.
  - by rewrite Ht'.
  - by rewrite Ht'.
  - right. by rewrite Ht'.
  - rewrite Ht'. cbn. lia.
  - by rewrite Ht'.
  - rewrite Hini. assert (is_initialized t' = true) as ->; [|done].
    unfold in_u in Hnet. unfold is_initialized, has_liquidity, has_limit_orders in *. rewrite Ht'. cbn.
    destruct (0 <? liquidity_gross t); [done|]. cbn in *. apply orb_true_iff in Hini as [E|E].
    + apply Z.ltb_lt in E. destruct (Z.ltb_spec 0 n); [done|lia].
    + rewrite E. apply orb_true_r.
Qed.

Lemma decrease_limit_order_ok s ps m p e key a owner o ita ota iv ov mint ext amount amin o' a3 p' ext' trs :
  liquidity_ok addr s ps m p e -> honest e ext -> m !! key = Some a -> grid s (lo_tick_index o) ->
  decrease_limit_order ext_key pool_key owner p a o ita ota iv ov mint ext amount amin =
    Ok (o', a3, p', ext', trs) ->
  liquidity_ok addr s ps (<[key := a3]> m) p' (extension_after e ext') /\ lo_tick_index o' = lo_tick_index o.
Proof.
  intros Hok Hh Hk HT H. unfold decrease_limit_order in H.
  do 3 apply obind_Ok in H as (_ & _ & H). apply obind_Ok in H as (_ & Hamt%require_Ok%Z.ltb_lt & H).
  cbn zeta in H.
  rewrite (mk_spacing _ _ _ _ _ (lq_marks _ _ _ _ _ _ Hok)) in H.
  pose proof (lq_spacing _ _ _ _ _ _ Hok) as Hs.
  apply obind_Ok in H as (off & Hoff & H). apply obind_Ok in H as (t & Ht & H).
  destruct (tick_at_offset a _ s off t Hoff Ht) as [Hg Hu].
  pose proof (view_orders_nonneg s ps m p e key a _ t Hok Hk HT Hg) as (O1 & O2 & O3).
  apply obind_Ok in H as ([[r o1] t'] & Hd & H).
  destruct (decrease_amount_frame o t amount r o1 t' O1 O2 ltac:(lia) Hd) as [Ho (n & q & Hn & Hq & Ht')].
  apply obind_Ok in H as (a2 & Ha2 & H). apply obind_Ok in H as ([[a4 p4] x4] & Hr & H).
  apply obind_Ok in H as (ret & _ & H). injection H as <- <- <- <- _. split; [|done].
  rewrite <- Hu in Ha2.
  destruct (update_tick_Ok s Hs a _ t' a2 (proj1 (lq_store _ _ _ _ _ _ Hok _ _ Hk)) HT Ha2)
    as (x & Hx & _ & Hst & _). pose proof (get_tick_state_start s Hs a _ t (proj1 HT) Hg) as Hstart.
  rewrite Ho, get_array_start_index_ok in Hr by (done || apply HT). cbn [obind] in Hr.
  apply (orders_recount s ps m p e key a (lo_tick_index o) t t' a2
    (is_initialized t && negb (is_initialized t')) false a4 p4 ext x4); try done; try (rewrite Ht'; cbn; done || lia).
  - assert (is_initialized t' = true -> is_initialized t = true) as Hm.
    { rewrite Ht'. unfold is_initialized, has_liquidity, has_limit_orders. cbn.
      rewrite !orb_true_iff, !Z.ltb_lt. lia. }
    destruct (is_initialized t), (is_initialized t'); try done. by discriminate Hm.
  - rewrite <- Hr. destruct (_ && _); [|done].
    destruct (update_initialized_tick_count a2 false) as [b| |] eqn:Eb; [|done|done]. cbn [obind].
    assert (start_tick_index b = array_start (lo_tick_index o) s) as ->; [|done].
    unfold update_initialized_tick_count in Eb. apply obind_Ok in Eb as (c & _ & Eb). injection Eb as <-.
    cbn. congruence.
Qed.
End Instructions.
