(* ===== verification/PoolAccounts.v ===== *)
(** A pool's accounts under sequences of instructions on positions and orders.

    [accounts] is what the program stores for one pool; [instruction] relates
    the accounts before and after a successful call of the instructions that
    open, change and close positions and limit orders, settle orders or accrue
    rewards.  They leave the price where it is: swaps and the shield's sweep
    are not among them ([SwapLedger] and [SweepLedger] are about those).
    Whatever the sequence, the callers, the amounts and the accounts passed,
    the tick arrays, the pool and the bitmaps stay the ones the positions
    determine. *)
From S2P Require Import Prelude.
From stdpp Require Import gmap.
From S2P Require Import AmmError.
From S2P Require Import BigNum.
From S2P Require Import FullMath.
From S2P Require Import Config.
From S2P Require Import Token.
From S2P Require Import TickMath.
From S2P Require Import LiquidityMath.
From S2P Require Import TickIndex.
From S2P Require Import BitmapExtension.
From S2P Require Import Rewards.
From S2P Require Import TickState.
From S2P Require Import TickArray.
From S2P Require Import Pool.
From S2P Require Import PoolBitmap.
From S2P Require Import LimitOrder.
From S2P Require Import Position.
From S2P Require Import ArrayStore.
From S2P Require Import PositionLedger.
From S2P Require Import LiquidityInvariant.
#[local] Open Scope Z_scope.

Record accounts := mkAccounts {
  ac_positions : list PersonalPositionState;
  ac_orders : list LimitOrderState;
  ac_arrays : arrays;
  ac_pool : PoolState;
  ac_extension : TickArrayBitmapExtension;
}.

Section Instructions.
Context {U : UintLib} {L : TokenLib}.
Context (addr : Z -> Pubkey) (pool_key ext_key limit_order_admin_ID : Pubkey).

Local Abbreviation honest := (honest ext_key).
Local Abbreviation after := (extension_after ext_key).

(** One successful instruction.  [increase_limit_order] is restricted to orders
    whose tick is still initialized: it does not register the tick, see
    [increase_after_withdrawal_unregistered]. *)
Inductive instruction : accounts -> accounts -> Prop :=
| ix_open_position ps os m p e mint c ext l a0 a1 tl tu sl su flag ts q p' m' ext' trs :
    in_u 128 l -> honest e ext ->
    open_position pool_key ext_key addr mint c p m ext l a0 a1 tl tu sl su flag ts =
      Ok (q, p', m', ext', trs) ->
    instruction (mkAccounts ps os m p e) (mkAccounts (ps ++ [q]) os m' p' (after e ext'))
| ix_increase_liquidity ps os m p e i pos signer n c kl ku ext l a0 a1 flag ts q p' m' ext' trs :
    ps !! i = Some pos -> in_u 128 l -> honest e ext ->
    increase_liquidity pool_key ext_key signer n pos c p m kl ku ext l a0 a1 flag ts =
      Ok (q, p', m', ext', trs) ->
    instruction (mkAccounts ps os m p e) (mkAccounts (<[i := q]> ps) os m' p' (after e ext'))
| ix_decrease_liquidity ps os m p e i pos signer n c kl ku ext groups l a0 a1 ts q p' m' ext' trs :
    ps !! i = Some pos -> in_u 128 l -> (forall x, ext = Some x -> x = e) ->
    decrease_liquidity pool_key ext_key signer n pos c p m kl ku ext groups l a0 a1 ts =
      Ok (q, p', m', ext', trs) ->
    instruction (mkAccounts ps os m p e) (mkAccounts (<[i := q]> ps) os m' p' (default e ext'))
| ix_close_position ps os m p e i pos signer n u :
    ps !! i = Some pos -> close_position signer n pos = Ok u ->
    instruction (mkAccounts ps os m p e) (mkAccounts (delete i ps) os m p e)
| ix_open_limit_order ps os m p e payer key nonce ita iv mint ext now ni z T amount o n' a p' ext' trs :
    honest e ext ->
    open_limit_order addr ext_key pool_key payer p key (m !! key) nonce ita iv mint ext now ni z T amount =
      Ok (o, n', a, p', ext', trs) ->
    instruction (mkAccounts ps os m p e) (mkAccounts ps (o :: os) (<[key := a]> m) p' (after e ext'))
| ix_increase_limit_order ps os m p e i o (key : Pubkey) arr owner ita iv mint amount o' a trs :
    os !! i = Some o -> m !! key = Some arr ->
    is_initialized (tick_at addr (pool_tick_spacing p) m (lo_tick_index o)) = true ->
    increase_limit_order pool_key owner p arr o ita iv mint amount = Ok (o', a, trs) ->
    instruction (mkAccounts ps os m p e) (mkAccounts ps (<[i := o']> os) (<[key := a]> m) p e)
| ix_decrease_limit_order ps os m p e i o (key : Pubkey) arr owner ita ota iv ov mint ext amount amin
    o' a p' ext' trs :
    os !! i = Some o -> m !! key = Some arr -> honest e ext ->
    decrease_limit_order ext_key pool_key owner p arr o ita ota iv ov mint ext amount amin =
      Ok (o', a, p', ext', trs) ->
    instruction (mkAccounts ps os m p e) (mkAccounts ps (<[i := o']> os) (<[key := a]> m) p' (after e ext'))
| ix_settle_limit_order ps os m p e i o (key : Pubkey) arr signer ota ov o' trs :
    os !! i = Some o -> m !! key = Some arr ->
    settle_limit_order pool_key limit_order_admin_ID signer p arr o ota ov = Ok (o', trs) ->
    instruction (mkAccounts ps os m p e) (mkAccounts ps (<[i := o']> os) m p e)
| ix_close_limit_order ps os m p e i o signer receiver u :
    os !! i = Some o -> close_limit_order limit_order_admin_ID signer receiver o = Ok u ->
    instruction (mkAccounts ps os m p e) (mkAccounts ps (delete i os) m p e)
| ix_update_rewards ps os m p e ts p' :
    update_reward_infos_instruction p ts = Ok p' ->
    instruction (mkAccounts ps os m p e) (mkAccounts ps os m p' e).

(** The invariant, with the orders' ticks on the grid. *)
Definition accounts_ok (s : Z) (A : accounts) : Prop :=
  liquidity_ok addr s (ac_positions A) (ac_arrays A) (ac_pool A) (ac_extension A) /\
  Forall (fun o => grid s (lo_tick_index o)) (ac_orders A).

Lemma settle_limit_order_index signer p arr o ota ov o' trs :
  settle_limit_order pool_key limit_order_admin_ID signer p arr o ota ov = Ok (o', trs) ->
  lo_tick_index o' = lo_tick_index o.
Proof.
  unfold settle_limit_order. intros H. do 4 apply obind_Ok in H as (_ & _ & H).
  apply obind_Ok in H as (t & _ & H). apply obind_Ok in H as ([v o1] & Ho%settle_filled_order_index & H).
  apply obind_Ok in H as (u & _ & H). apply obind_Ok in H as (_ & _ & H). by injection H as <- _.
Qed.

Lemma close_position_empty signer n q u : close_position signer n q = Ok u -> pp_liquidity q = 0.
Proof.
  unfold close_position. intros (_ & _ & H)%obind_Ok. destruct (Z.eqb_spec (pp_liquidity q) 0); done.
Qed.

Lemma instruction_ok s A A' : accounts_ok s A -> instruction A A' -> accounts_ok s A'.
Proof.
  intros [Hok Hos] H. destruct H; cbn [ac_positions ac_orders ac_arrays ac_pool ac_extension] in *.
  - split; [|done]. by eapply open_position_ok; [| |exact (proj1 H)|].
  - split; [|done]. by eapply increase_liquidity_ok; [| |exact (proj1 H0)| |].
  - split; [|done]. by eapply decrease_liquidity_ok; [| |exact (proj1 H0)| |].
  - split; [|done]. destruct Hok. constructor; try done.
    eapply ledger_close; [done|done|by eapply close_position_empty].
  - edestruct open_limit_order_ok as [H1 H2]; [exact Hok|exact H|exact H0|].
    split; [done|]. by constructor.
  - pose proof (Forall_lookup_1 _ _ _ _ Hos H) as Hg. cbn beta in Hg.
    rewrite (mk_spacing _ _ _ _ _ (lq_marks _ _ _ _ _ _ Hok)) in H1.
    edestruct (increase_limit_order_ok addr pool_key ext_key) as [H3 H4]; [exact Hok|exact H0|exact Hg|exact H1|exact H2|].
    split; [done|]. apply Forall_insert; [done|]. by rewrite H4.
  - pose proof (Forall_lookup_1 _ _ _ _ Hos H) as Hg. cbn beta in Hg.
    edestruct decrease_limit_order_ok as [H3 H4]; [exact Hok|exact H1|exact H0|exact Hg|exact H2|]. split; [done|]. apply Forall_insert; [done|]. by rewrite H4.
  - split; [done|]. apply Forall_insert; [done|]. erewrite settle_limit_order_index by done.
    exact (Forall_lookup_1 _ _ _ _ Hos H).
  - split; [done|]. by apply Forall_delete.
  - split; [|done]. unfold update_reward_infos_instruction in H. apply obind_Ok in H as (now & _ & H).
    apply obind_Ok in H as ([ris p1] & ->%pool_update_reward_infos_frame & H). injection H as <-.
    by apply (liquidity_ok_pool addr s ps m p).
Qed.

(** A pool as [create_pool] leaves it: no arrays, no liquidity, no marks. *)
Definition fresh_accounts (p : PoolState) (A : accounts) : Prop :=
  spacing_ok (pool_tick_spacing p) /\ liquidity p = 0 /\ tick_array_bitmap p = U1024.zero /\
  exists pool_id, A = mkAccounts [] [] ∅ p (ext_initialize pool_id).

Lemma fresh_ok p A : fresh_accounts p A -> accounts_ok (pool_tick_spacing p) A.
Proof.
  intros (Hs & Hl & Hb & pool_id & ->). split; [|done]. cbn. constructor; [done| | | |].
  - intros k a H. by rewrite lookup_empty in H.
  - assert (forall T, tick_at addr (pool_tick_spacing p) ∅ T = default_tick_state) as E
      by (intros T; unfold tick_at; by rewrite lookup_empty).
    constructor; try done; intros T HT; rewrite ?E; auto.
  - pose proof (empty_bitmaps_ok p pool_id Hs Hb) as Hbo. constructor; [done|done| |].
    + intros k a H. by rewrite lookup_empty in H.
    + intros j. rewrite (empty_unmarked p _ j Hb). split; [done|].
      intros (a & H & _). by rewrite lookup_empty in H.
  - intros k a H. by rewrite lookup_empty in H.
Qed.

End Instructions.

(** * What holds in every reachable state *)

Section Properties.
Context {U : UintLib} {L : TokenLib}.
Context (addr : Z -> Pubkey) (pool_key ext_key limit_order_admin_ID : Pubkey).

Definition reachable (p : PoolState) (A : accounts) : Prop :=
  exists A0, fresh_accounts p A0 /\ rtc (instruction addr pool_key ext_key limit_order_admin_ID) A0 A.

Lemma reachable_ok p A : reachable p A -> accounts_ok addr (pool_tick_spacing p) A.
Proof.
  intros (A0 & Hf & H). apply (fresh_ok addr) in Hf. induction H as [|A0 A1 A2 H _ IH]; [done|].
  apply IH. by eapply instruction_ok.
Qed.

Lemma live_count_zero a : live_count a = 0 <-> forall t, t ∈ ticks a -> is_initialized t = false.
Proof.
  unfold live_count. set (l := ticks a). clearbody l. unfold sum_z.
  induction l as [|t l IH]; simpl; [split; [intros _ t Ht; by apply elem_of_nil in Ht|done]|].
  pose proof (sum_z_nonneg (fun t => b2z (is_initialized t)) l) as Hn. unfold sum_z in Hn.
  assert (Forall (fun t => 0 <= b2z (is_initialized t)) l) as Hf by (apply Forall_forall; intros; apply b2z_range).
  specialize (Hn Hf). pose proof (b2z_range (is_initialized t)). split.
  - intros H0 x [->|Hx]%elem_of_cons; [destruct (is_initialized t); simpl in *; done || lia|].
    apply IH; [lia|done].
  - intros H0. rewrite (H0 t) by (by left). simpl. apply IH. intros x Hx. apply H0. by right.
Qed.

(** C1: The positions determine the pool while its price stands still: after
    any sequence of instructions that open, increase, decrease and close
    positions and limit orders, settle orders or accrue rewards, on a fresh
    pool at whatever price - swaps and the shield's sweep, which move the
    price, are not among them, nor is the increase of an order whose tick a
    withdrawal in full has left uninitialized - the liquidity in force is the
    sum of the liquidities of the positions whose range contains the current
    tick, every tick of the grid carries as net liquidity what crossing it
    upwards adds to that sum, and as gross liquidity what the positions that
    end there hold. *)
Theorem positions_determine_pool p A :
  reachable p A ->
  liquidity (ac_pool A) = sum_z (active_at (tick_current (ac_pool A))) (ac_positions A) /\
  forall T, grid (pool_tick_spacing p) T ->
    let t := tick_at addr (pool_tick_spacing p) (ac_arrays A) T in
    liquidity_net t = sum_z (active_at T) (ac_positions A) - sum_z (active_at (T - 1)) (ac_positions A) /\
    liquidity_gross t = sum_z (gross_at T) (ac_positions A) /\
    (0 < liquidity_gross t -> tick t = T).
Proof.
  intros [[_ _ HL _ _] _]%reachable_ok. destruct HL as [Hps Hix _ Hnet Hgr Hac].
  split; [done|]. intros T HT t. split; [|split; [by apply Hgr|]].
  - unfold t. rewrite Hnet by done. symmetry. apply active_step. eapply Forall_impl; [exact Hps|]. by intros q [].
  - intros Hg. destruct (Hix T HT) as [E|[_ E]]; [done|]. unfold t in Hg. lia.
Qed.

(** C7: Initialized ticks are registered: after any sequence of instructions
    that open, increase, decrease and close positions and limit orders, settle
    orders or accrue rewards, on a fresh pool - not of swaps and sweeps, and
    as long as no order is increased whose tick a withdrawal in full has left
    uninitialized, which registers nothing (limit_order.rs:161, see
    [increase_after_withdrawal_unregistered]) - every tick array counts
    exactly its initialized ticks, and an array is marked, in the pool's
    bitmap or in the extension, exactly when one of its ticks has liquidity or
    limit orders; so the array of every initialized tick of the grid is one
    the swap's search can find. *)
Theorem initialized_ticks_registered p A :
  reachable p A ->
  let s := pool_tick_spacing p in
  (forall (k : Pubkey) a, ac_arrays A !! k = Some a -> initialized_tick_count a = live_count a) /\
  (forall j, array_marked (ac_pool A) (ac_extension A) j = true <->
    exists a, ac_arrays A !! addr (j * tpa s) = Some a /\ start_tick_index a = j * tpa s /\
      exists t, t ∈ ticks a /\ is_initialized t = true) /\
  (forall T, grid s T -> is_initialized (tick_at addr s (ac_arrays A) T) = true ->
    array_marked (ac_pool A) (ac_extension A) (T / tpa s) = true).
Proof.
  intros [[Hs Hst _ Hmk Hc] _]%reachable_ok s.
  assert (forall (k : Pubkey) a, ac_arrays A !! k = Some a -> initialized_tick_count a = live_count a) as Hcount.
  { intros k a Hk. specialize (Hc k a Hk). cbn beta in Hc. lia. }
  assert (forall (k : Pubkey) a, ac_arrays A !! k = Some a ->
    0 < initialized_tick_count a <-> exists t, t ∈ ticks a /\ is_initialized t = true) as Hlive.
  { intros k a Hk. rewrite (Hcount k a Hk). pose proof (live_count_nonneg a). split.
    - intros Hp. destruct (decide (Exists (fun t => is_initialized t = true) (ticks a))) as [E|E].
      + by apply Exists_exists in E.
      + assert (live_count a = 0); [|lia]. apply live_count_zero. intros t Ht.
        destruct (is_initialized t) eqn:Ei; [|done]. destruct E. apply Exists_exists. eauto.
    - intros (t & Ht & Hi). assert (live_count a <> 0); [|lia].
      intros H0. rewrite live_count_zero in H0. rewrite (H0 t Ht) in Hi. done. }
  assert (forall j, array_marked (ac_pool A) (ac_extension A) j = true <->
    exists a, ac_arrays A !! addr (j * tpa s) = Some a /\ start_tick_index a = j * tpa s /\
      exists t, t ∈ ticks a /\ is_initialized t = true) as Hmarked.
  { intros j. rewrite (mk_marked _ _ _ _ _ Hmk). split; intros (a & Hk & Hj & Ha); exists a;
      (split; [done|]; split; [done|]; by apply (Hlive _ _ Hk)). }
  split; [done|]. split; [done|]. intros T [HT _] Hi. apply Hmarked.
  unfold tick_at in Hi. destruct (ac_arrays A !! addr (array_start T s)) as [a|] eqn:Ha; [|done].
  destruct (get_tick_state a T s) as [t| |] eqn:Ht; [|done..]. exists a. split; [done|]. split.
  - symmetry. by eapply (get_tick_state_start s Hs).
  - exists t. split; [|done]. unfold get_tick_state in Ht. apply obind_Ok in Ht as (o & _ & [_ Ht]%idx_Ok).
    by eapply list_elem_of_lookup_2.
Qed.
End Properties.

(** * Examples *)

Section Examples.
#[local] Existing Instance uint_std.
#[local] Instance fee_lib : TokenLib := {| MAX_FEE_BASIS_POINTS := 10000 |}.

(** Injective addresses, the pool's extension and one user's accounts. *)
Definition demo_address (start : Z) : Pubkey := 10 ^ 6 + start.
Definition demo_user : TokenAccounts := mkTokenAccounts 51 52 21 22 None None.

Definition demo_start : accounts := mkAccounts [] [] ∅ sample_pool (ext_initialize default_pubkey).

Abbreviation demo_instruction := (instruction demo_address 77 78 99).

Lemma demo_fresh : fresh_accounts sample_pool demo_start.
Proof. split; [by_compute|]. split; [reflexivity|]. split; [reflexivity|]. by exists default_pubkey. Qed.

(** Two positions over the ranges [-60, 60) and [0, 6000). *)
Lemma demo_positions :
  exists A, rtc demo_instruction demo_start A /\ liquidity (ac_pool A) = 1500000 /\
    (pp_liquidity <$> ac_positions A) = [1000000; 500000].
Proof.
  eexists. split.
  - eapply rtc_l.
    { eapply ix_open_position with (ext := None) (mint := 500) (c := demo_user) (l := 1000000)
        (a0 := 10 ^ 6) (a1 := 10 ^ 6) (tl := -60) (tu := 60) (sl := -600) (su := 0) (flag := None) (ts := 100).
      - by_compute.
      - done.
      - vm_compute. reflexivity. }
    eapply rtc_l; [|apply rtc_refl].
    eapply ix_open_position with (ext := None) (mint := 501) (c := demo_user) (l := 500000)
      (a0 := 10 ^ 6) (a1 := 10 ^ 6) (tl := 0) (tu := 6000) (sl := 0) (su := 6000) (flag := None) (ts := 100).
    + by_compute.
    + done.
    + vm_compute. reflexivity.
  - split; vm_compute; reflexivity.
Qed.

Lemma demo_reachable : exists A, reachable demo_address 77 78 99 sample_pool A /\
  liquidity (ac_pool A) = 1500000.
Proof.
  destruct demo_positions as (A & H & Hl & _). exists A. split; [|done].
  exists demo_start. split; [apply demo_fresh|done].
Qed.

Lemma positions_determine_pool_witness :
  exists A, reachable demo_address 77 78 99 sample_pool A /\
    sum_z (active_at (tick_current (ac_pool A))) (ac_positions A) = 1500000.
Proof.
  destruct demo_reachable as (A & H & Hl). exists A. split; [done|].
  destruct (positions_determine_pool demo_address 77 78 99 sample_pool A H) as [E _]. congruence.
Defined.

Lemma initialized_ticks_registered_witness :
  exists A, liquidity (ac_pool A) = 1500000 /\
    forall (k : Pubkey) a, ac_arrays A !! k = Some a -> initialized_tick_count a = live_count a.
Proof.
  destruct demo_reachable as (A & H & Hl). exists A. split; [done|].
  by destruct (initialized_ticks_registered demo_address 77 78 99 sample_pool A H) as [E _].
Defined.

(** [increase_limit_order] does not register its tick: an order that was
    withdrawn in full, which leaves its tick uninitialized and its tick array
    unmarked, can be increased again; the amount is taken from the owner, but
    the array still counts no initialized tick and stays unmarked, so no swap
    finds the order, and withdrawing it again is refused with
    [CalculateOverflow], since the count cannot go below zero. *)
Theorem increase_after_withdrawal_unregistered :
  exists A o arr o' arr',
    rtc demo_instruction demo_start A /\ ac_orders A = [o] /\
    ac_arrays A !! demo_address 0 = Some arr /\
    increase_limit_order 77 8 (ac_pool A) arr o 51 21 (mkMint 5 true None) 1000 =
      Ok (o', arr', [mkTransfer 51 21 1000]) /\
    live_count arr' = 1 /\ initialized_tick_count arr' = 0 /\
    array_marked (ac_pool A) (ac_extension A) 0 = false /\
    decrease_limit_order 78 77 8 (ac_pool A) arr' o' 51 52 21 22 (mkMint 5 true None) None 1000 0 =
      err CalculateOverflow.
Proof.
  do 5 eexists. split.
  - eapply rtc_l.
    { eapply ix_open_limit_order with (ext := None) (payer := 8) (key := demo_address 0)
        (nonce := mkLimitOrderNonce default_pubkey 0 0) (ita := 51) (iv := 21) (mint := mkMint 5 true None)
        (now := 100) (ni := 0) (z := true) (T := 60) (amount := 1000).
      - done.
      - vm_compute. reflexivity. }
    eapply rtc_l; [|apply rtc_refl].
    eapply ix_decrease_limit_order with (i := 0%nat) (ext := None) (key := demo_address 0) (owner := 8)
      (ita := 51) (ota := 52) (iv := 21) (ov := 22) (mint := mkMint 5 true None) (amount := 1000) (amin := 0).
    + vm_compute. reflexivity.
    + vm_compute. reflexivity.
    + done.
    + vm_compute. reflexivity.
  - split; [reflexivity|]. split; [vm_compute; reflexivity|]. split; [vm_compute; reflexivity|].
    split; [vm_compute; reflexivity|]. split; [vm_compute; reflexivity|].
    split; vm_compute; reflexivity.
Qed.
End Examples.
