(* ===== verification/FeeLedger.v ===== *)
(** The fees of the liquidity providers, from the swaps that collect them to
    the positions that are paid.

    The code keeps one growth per pool and one outside growth per tick, all
    modulo 2^128, and a position is credited with the growth inside its range
    since it was last touched.  [fee_step] are the things that happen to these
    numbers, each through the code's own function: a swap books a fee
    ([spilt_fees]), a tick is crossed ([tick_cross]), the price moves between
    two ticks, ticks nobody uses change, a position is opened, its liquidity is
    changed, its fees are paid out.  One token is followed; [side] says which. *)
From S2P Require Import Prelude.
From S2P Require Import AmmError.
From S2P Require Import BigNum.
From S2P Require Import FullMath.
From S2P Require Import Config.
From S2P Require Import TickMath.
From S2P Require Import TickIndex.
From S2P Require Import Rewards.
From S2P Require Import TickState.
From S2P Require Import SwapState.
From S2P Require Import Position.
From S2P Require Import PositionLedger.
From S2P Require Import LiquidityInvariant.

Section FeeLedger.
Context {U : UintLib}.
(** Token 0 or token 1. *)
Context (side : bool).

Definition outside (t : TickState) : Z :=
  if side then fee_growth_outside_0_x64 t else fee_growth_outside_1_x64 t.
Definition last_growth (q : PersonalPositionState) : Z :=
  if side then fee_growth_inside_0_last_x64 q else fee_growth_inside_1_last_x64 q.
Definition owed (q : PersonalPositionState) : Z :=
  if side then token_fees_owed_0 q else token_fees_owed_1 q.

(** The numbers of one pool and one token: the positions, the ticks by index,
    the current tick, the growth per unit of liquidity; the liquidity
    providers' share of the fees collected so far, and what has been paid to
    them. *)
Record fees := mkFees {
  fe_positions : list PersonalPositionState;
  fe_ticks : Z -> TickState;
  fe_current : Z;
  fe_growth : Z;
  fe_collected : Z;
  fe_paid : Z;
}.

(** [get_fee_growth_inside] for a position. *)
Definition inside (ticks : Z -> TickState) (c g : Z) (q : PersonalPositionState) : Z :=
  growth_inside g (outside (ticks (tick_lower_index q))) (outside (ticks (tick_upper_index q)))
    (tick_lower_index q) (tick_upper_index q) c.

(** What a position has earned since it was last touched, times 2^64. *)
Definition pending (ticks : Z -> TickState) (c g : Z) (q : PersonalPositionState) : Z :=
  uwrap 128 (inside ticks c g q - last_growth q) * pp_liquidity q.

Definition same_range (q q' : PersonalPositionState) : Prop :=
  tick_lower_index q' = tick_lower_index q /\ tick_upper_index q' = tick_upper_index q.

(** The other token's growth does not matter. *)
Definition growths (g other : Z) : Z * Z := if side then (g, other) else (other, g).

Inductive fee_step : fees -> fees -> Prop :=
| fs_swap ps ticks c g col paid s fee pr fr s' :
    swap_state_ok s -> in_u 64 fee -> 0 <= pr -> 0 <= fr ->
    st_fee_growth_global_x64 s = g -> st_liquidity s = sum_z (active_at c) ps ->
    spilt_fees s fee pr fr = Ok s' ->
    fee_step (mkFees ps ticks c g col paid)
      (mkFees ps ticks c (st_fee_growth_global_x64 s') (col + (lp_fee s' - lp_fee s)) paid)
| fs_cross ps ticks c g col paid T c' other ris :
    crosses T c c' ->
    fee_step (mkFees ps ticks c g col paid)
      (mkFees ps (fun t => if t =? T
                           then (tick_cross (ticks t) (growths g other).1 (growths g other).2 ris).2
                           else ticks t) c' g col paid)
| fs_move ps ticks c g col paid c' :
    Forall (same_side c c') ps ->
    fee_step (mkFees ps ticks c g col paid) (mkFees ps ticks c' g col paid)
| fs_ticks ps ticks c g col paid ticks' :
    (forall t, in_u 128 (outside (ticks' t))) ->
    Forall (fun q => pp_liquidity q = 0 \/
      outside (ticks' (tick_lower_index q)) = outside (ticks (tick_lower_index q)) /\
      outside (ticks' (tick_upper_index q)) = outside (ticks (tick_upper_index q))) ps ->
    fee_step (mkFees ps ticks c g col paid) (mkFees ps ticks' c g col paid)
| fs_open ps ticks c g col paid q mint pool tl tu l g0 g1 rg :
    tl < tu -> in_u 128 l ->
    position_initialize mint pool tl tu l g0 g1 rg = Ok q ->
    (if side then g0 else g1) = inside ticks c g q ->
    fee_step (mkFees ps ticks c g col paid) (mkFees (ps ++ [q]) ticks c g col paid)
| fs_increase ps ticks c g col paid i q q' d g0 g1 rg :
    ps !! i = Some q -> 0 <= d -> (if side then g0 else g1) = inside ticks c g q ->
    position_increase_liquidity q d g0 g1 rg = Ok q' ->
    fee_step (mkFees ps ticks c g col paid) (mkFees (<[i := q']> ps) ticks c g col paid)
| fs_decrease ps ticks c g col paid i q q' d g0 g1 rg :
    ps !! i = Some q -> 0 <= d -> (if side then g0 else g1) = inside ticks c g q ->
    position_decrease_liquidity q d g0 g1 rg = Ok q' ->
    fee_step (mkFees ps ticks c g col paid) (mkFees (<[i := q']> ps) ticks c g col paid)
| fs_pay ps ticks c g col paid i q :
    ps !! i = Some q ->
    fee_step (mkFees ps ticks c g col paid)
      (mkFees (<[i := set_pp_owed q 0 0]> ps) ticks c g col (paid + owed q))
| fs_close ps ticks c g col paid i q :
    ps !! i = Some q -> pp_liquidity q = 0 -> owed q = 0 ->
    fee_step (mkFees ps ticks c g col paid) (mkFees (delete i ps) ticks c g col paid).

Record fee_position_ok (q : PersonalPositionState) : Prop := {
  fp_liquidity : in_u 128 (pp_liquidity q);
  fp_order : tick_lower_index q < tick_upper_index q;
  fp_owed : 0 <= owed q;
}.

(** The invariant: what the positions have pending, what they are owed and
    what they were paid is within what was collected for them. *)
Record fees_ok (F : fees) : Prop := {
  fk_positions : Forall fee_position_ok (fe_positions F);
  fk_ticks : forall t, in_u 128 (outside (fe_ticks F t));
  fk_backed : sum_z (pending (fe_ticks F) (fe_current F) (fe_growth F)) (fe_positions F)
              + 2 ^ 64 * (sum_z owed (fe_positions F) + fe_paid F) <= 2 ^ 64 * fe_collected F;
}.

(** ** The steps keep the invariant *)

Ltac fe_simpl := cbn [fe_positions fe_ticks fe_current fe_growth fe_collected fe_paid] in *.

Lemma uwrap_add_le w a d : 0 <= w -> 0 <= d -> uwrap w (a + d) <= uwrap w a + d.
Proof.
  intros Hw Hd. unfold uwrap. pose proof (Z.pow_pos_nonneg 2 w ltac:(lia) Hw).
  rewrite <- Zplus_mod_idemp_l. pose proof (Z.mod_pos_bound a (2 ^ w) ltac:(lia)).
  apply Z.mod_le; lia.
Qed.

(** Growth reaches the positions in range only, all alike. *)
Lemma pending_accrue ticks c g d q :
  (forall t, in_u 128 (outside (ticks t))) -> tick_lower_index q < tick_upper_index q ->
  0 <= pp_liquidity q -> 0 <= d ->
  pending ticks c (uwrap 128 (g + d)) q <= pending ticks c g q + d * active_at c q.
Proof.
  intros Ht Ho Hl Hd. unfold pending, inside, active_at, in_force.
  rewrite growth_inside_accrue by auto. set (x := growth_inside g _ _ _ _ _).
  rewrite uwrap_sub_l.
  destruct (_ && _); [|rewrite Z.add_0_r; lia].
  pose proof (uwrap_add_le 128 (x - last_growth q) d ltac:(lia) Hd) as Hle.
  replace (x + d - last_growth q) with (x - last_growth q + d) by lia. nia.
Qed.

Lemma pending_nonneg ticks c g q : 0 <= pp_liquidity q -> 0 <= pending ticks c g q.
Proof. intros. unfold pending. pose proof (uwrap_in 128 (inside ticks c g q - last_growth q)). range. Qed.

(** The credit of [calculate_latest_token_fees]. *)
Lemma latest_fees_Ok o last now l o' :
  in_u 128 l -> calculate_latest_token_fees o last now l = Ok o' ->
  0 <= o' /\ 0 <= o' - o /\ 2 ^ 64 * (o' - o) <= uwrap 128 (now - last) * l.
Proof.
  intros Hl H. unfold calculate_latest_token_fees in H.
  pose proof (uwrap_in 128 (now - last) ltac:(lia)) as Hg.
  unfold mul_div_floor_u128 in H. rewrite mul_div_floor_big_spec in H by (done || range).
  cbn [obind] in H. apply obind_Ok in H as (d & Hd & H). apply obind_Ok in H as (x & Hx & H).
  apply ok_or_Ok, ucheck_Some in H as [-> Hy].
  unfold or_overflow in Hd. apply ok_or_Ok in Hd. change (Q64 =? 0) with false in Hd. cbv iota in Hd.
  apply ucheck_Some in Hd as [-> Hd].
  assert (0 <= uwrap 128 (now - last) * l / Q64) as Hq by (unfold in_u in Hd; lia).
  assert (0 <= x <= uwrap 128 (now - last) * l / Q64) as Hxr.
  { unfold to_underflow_u64 in Hx. destruct (_ <? _).
    - apply big_u64_Ok in Hx as [-> _]. lia.
    - injection Hx as <-. lia. }
  pose proof (Z.mul_div_le (uwrap 128 (now - last) * l) Q64 ltac:(done)) as Hmul.
  change Q64 with (2 ^ 64) in *. set (K := uwrap 128 (now - last) * l) in *. clearbody K.
  unfold in_u in Hy. split; [lia|]. split; [lia|]. lia.
Qed.

(** Touching a position moves what it has pending to what it is owed. *)
Lemma update_fee_Ok q g0 g1 rg q' now :
  fee_position_ok q -> (if side then g0 else g1) = now -> update_fee_and_reward q g0 g1 rg = Ok q' ->
  fee_position_ok q' /\ same_range q q' /\ pp_liquidity q' = pp_liquidity q /\ last_growth q' = now /\
  2 ^ 64 * (owed q' - owed q) <= uwrap 128 (now - last_growth q) * pp_liquidity q.
Proof.
  intros [Hl Ho Hw] Hn H. unfold update_fee_and_reward in H.
  apply obind_Ok in H as (o0 & H0 & H). apply obind_Ok in H as (o1 & H1 & H).
  unfold update_rewards in H. apply obind_Ok in H as (rs & _ & H). injection H as <-.
  apply latest_fees_Ok in H0 as (P0 & D0 & B0); [|done].
  apply latest_fees_Ok in H1 as (P1 & D1 & B1); [|done].
  split; [constructor; try done; unfold owed; by destruct side|].
  split; [done|]. split; [done|]. unfold owed, last_growth in *. by destruct side; subst now.
Qed.

Lemma touch_ok ps ticks c g col paid i q q' :
  fees_ok (mkFees ps ticks c g col paid) -> ps !! i = Some q ->
  fee_position_ok q' -> same_range q q' -> last_growth q' = inside ticks c g q ->
  2 ^ 64 * (owed q' - owed q) <= pending ticks c g q ->
  fees_ok (mkFees (<[i := q']> ps) ticks c g col paid).
Proof.
  intros [Hp Ht Hb] Hi Hq' [E1 E2] El Ho. constructor; fe_simpl; [by apply Forall_insert|done|].
  rewrite !(sum_z_insert _ _ _ q) by done.
  assert (pending ticks c g q' = 0) as ->; [|lia].
  unfold pending. rewrite El. unfold inside at 1. rewrite E1, E2. fold (inside ticks c g q).
  by rewrite Z.sub_diag.
Qed.

Lemma fees_ok_step F F' : fees_ok F -> fee_step F F' -> fees_ok F'.
Proof.
  intros HF H. pose proof HF as [Hp Ht Hb].
  destruct H as [ps ticks c g col paid s fee pr fr s' Hs Hfee Hpr Hfr Hg Hl Hsp
    |ps ticks c g col paid T c' other ris Hc|ps ticks c g col paid c' Hc
    |ps ticks c g col paid ticks' Ht' Hsame|ps ticks c g col paid q mint pool tl tu l g0 g1 rg Ho Hl Hq Hin
    |ps ticks c g col paid i q q' d g0 g1 rg Hi Hd Hin Hq|ps ticks c g col paid i q q' d g0 g1 rg Hi Hd Hin Hq
    |ps ticks c g col paid i q Hi|ps ticks c g col paid i q Hi Hl Ho]; fe_simpl.
  - apply spilt_fees_Ok in Hsp as (_ & _ & Hr & _ & Hb' & _ & Hs'); [|done..].
    constructor; fe_simpl; [done|done|]. set (rest := fee - _ - _) in *.
    destruct (Z.ltb_spec 0 (st_liquidity s)) as [Hpos|Hz].
    + destruct Hb' as (_ & -> & ->). rewrite Hg. set (d := rest * 2 ^ 64 / st_liquidity s) in *.
      assert (0 <= d) by (apply Z.div_pos; lia).
      assert (sum_z (pending ticks c (uwrap 128 (g + d))) ps <=
              sum_z (pending ticks c g) ps + d * sum_z (active_at c) ps) as Hsum.
      { rewrite <- sum_z_scale, <- sum_z_plus. apply sum_z_le. eapply Forall_impl; [exact Hp|].
        intros q [Hq1 Hq2 _]. apply pending_accrue; try done. unfold in_u in Hq1. lia. }
      pose proof (Z.mul_div_le (rest * 2 ^ 64) (st_liquidity s) Hpos) as Hdiv. fold d in Hdiv.
      rewrite <- Hl in Hsum. lia.
    + destruct Hb' as (_ & -> & ->). rewrite Hg. lia.
  - constructor; fe_simpl; [done| |].
    + intros t. destruct (t =? T); [|done]. unfold outside, tick_cross. cbn. destruct side; by apply uwrap_in.
    + etransitivity; [|exact Hb]. apply Z.add_le_mono_r. apply Z.eq_le_incl, sum_z_ext.
      eapply Forall_impl; [exact Hp|]. intros q [_ Hq _]. unfold pending. do 3 f_equal.
      unfold inside. rewrite <- (growth_inside_cross g _ _ _ _ T c c') by auto.
      f_equal; destruct (_ =? T); try done; unfold outside, growths, tick_cross; by destruct side.
  - constructor; fe_simpl; [done|done|]. etransitivity; [|exact Hb]. apply Z.add_le_mono_r.
    apply Z.eq_le_incl, sum_z_ext. eapply Forall_impl; [exact Hc|]. intros q [Hc1 Hc2].
    unfold pending, inside, growth_inside.
    replace (tick_lower_index q <=? c') with (tick_lower_index q <=? c).
    2:{ apply eq_true_iff_eq. rewrite !Z.leb_le. tauto. }
    replace (c' <? tick_upper_index q) with (c <? tick_upper_index q); [done|].
    apply eq_true_iff_eq. rewrite !Z.ltb_lt. lia.
  - constructor; fe_simpl; [done|done|]. etransitivity; [|exact Hb]. apply Z.add_le_mono_r.
    apply Z.eq_le_incl, sum_z_ext. eapply Forall_impl; [exact Hsame|].
    intros q [H0|[E1 E2]]; unfold pending; [by rewrite H0, !Z.mul_0_r|]. unfold inside. by rewrite E1, E2.
  - unfold position_initialize in Hq. apply obind_Ok in Hq as (q1 & Hq1 & Hq).
    unfold update_rewards in Hq1. apply obind_Ok in Hq1 as (rs & _ & Hq1). injection Hq1 as <-. injection Hq as <-.
    set (q := set_pp_liquidity _ l) in *.
    assert (sum_z owed (ps ++ [q]) = sum_z owed ps) as E1.
    { unfold sum_z. rewrite foldr_app. cbn [foldr].
      assert (owed q = 0) as -> by (unfold owed; by destruct side). done. }
    assert (sum_z (pending ticks c g) (ps ++ [q]) = sum_z (pending ticks c g) ps) as E2.
    { unfold sum_z. rewrite foldr_app. cbn [foldr].
      assert (pending ticks c g q = 0) as ->; [|done]. unfold pending. rewrite <- Hin.
      unfold last_growth. destruct side; cbn; by rewrite Z.sub_diag. }
    constructor; fe_simpl; [|done|by rewrite E1, E2].
    apply Forall_app. split; [done|]. constructor; [|done]. constructor; [done|done|]. unfold owed. by destruct side.
  - unfold position_increase_liquidity in Hq. apply obind_Ok in Hq as (q1 & Hu & Hq).
    apply obind_Ok in Hq as (v & [-> Hv]%ok_or_Ok%ucheck_Some & Hq). injection Hq as <-.
    pose proof (Forall_lookup_1 _ _ _ _ Hp Hi) as Hqk.
    apply (update_fee_Ok q g0 g1 rg q1 _ Hqk Hin) in Hu as ([] & Hr & El & Eg & Hle).
    eapply touch_ok; [done|done| |done|done|done]. by constructor.
  - unfold position_decrease_liquidity in Hq. apply obind_Ok in Hq as (q1 & Hu & Hq).
    apply obind_Ok in Hq as (v & [-> Hv]%ok_or_Ok%ucheck_Some & Hq). injection Hq as <-.
    pose proof (Forall_lookup_1 _ _ _ _ Hp Hi) as Hqk.
    apply (update_fee_Ok q g0 g1 rg q1 _ Hqk Hin) in Hu as ([] & Hr & El & Eg & Hle).
    eapply touch_ok; [done|done| |done|done|done]. by constructor.
  - pose proof (Forall_lookup_1 _ _ _ _ Hp Hi) as [].
    constructor; fe_simpl; [apply Forall_insert; [done|constructor; try done; unfold owed; by destruct side]|done|].
    rewrite !(sum_z_insert _ _ _ q) by done.
    assert (owed (set_pp_owed q 0 0) = 0) as -> by (unfold owed; by destruct side).
    assert (pending ticks c g (set_pp_owed q 0 0) = pending ticks c g q) as ->.
    { unfold pending, last_growth. by destruct side. }
    lia.
  - constructor; fe_simpl; [by apply Forall_delete|done|].
    rewrite !(sum_z_delete _ _ _ q) by done. rewrite Ho.
    assert (pending ticks c g q = 0) as -> by (unfold pending; rewrite Hl; lia). lia.
Qed.

Definition fees_start (F : fees) : Prop :=
  fe_positions F = [] /\ (forall t, in_u 128 (outside (fe_ticks F t))) /\ fe_collected F = 0 /\ fe_paid F = 0.

(** C3: The liquidity providers are never credited more than was collected
    for them: over any sequence of swaps, tick crossings, price moves, openings,
    liquidity changes and payments, what has been paid out, what the positions
    are owed, and what they would be credited if all were touched now, is in
    total at most the liquidity providers' share of the fees booked by
    [spilt_fees], in spite of the roundings and of the arithmetic modulo 2^128;
    and every position's credit is that of the growth inside its own range. *)
Theorem lp_fees_solvent F0 F :
  fees_start F0 -> rtc fee_step F0 F ->
  fe_paid F + sum_z owed (fe_positions F) <= fe_collected F /\
  fe_paid F + sum_z owed (fe_positions F)
    + sum_z (fun q => pending (fe_ticks F) (fe_current F) (fe_growth F) q / 2 ^ 64) (fe_positions F)
    <= fe_collected F /\
  Forall (fun q => 0 <= owed q) (fe_positions F).
Proof.
  intros (Hp & Ht & Hc & Hd) H.
  assert (fees_ok F0) as H0 by (constructor; rewrite ?Hp, ?Hc, ?Hd; [done|done|reflexivity]).
  clear Hp Ht Hc Hd. induction H as [F|F0 F1 F Hs _ IH]; [|by apply IH, (fees_ok_step F0)].
  destruct H0 as [Hp _ Hb].
  assert (0 <= sum_z (pending (fe_ticks F) (fe_current F) (fe_growth F)) (fe_positions F)) as Hn.
  { apply sum_z_nonneg. eapply Forall_impl; [exact Hp|]. intros q [[Hl _] _ _]. by apply pending_nonneg. }
  pose proof (sum_z_div (2 ^ 64) (pending (fe_ticks F) (fe_current F) (fe_growth F)) (fe_positions F) ltac:(lia)) as Hdiv.
  set (S := sum_z (pending _ _ _) _) in *.
  assert (S / 2 ^ 64 + (sum_z owed (fe_positions F) + fe_paid F) <= fe_collected F) as Hle.
  { rewrite <- Z.div_add by lia. apply Z.div_le_upper_bound; lia. }
  assert (0 <= S / 2 ^ 64) by (apply Z.div_pos; lia).
  split; [lia|]. split; [lia|]. eapply Forall_impl; [exact Hp|]. by intros q [].
Qed.
End FeeLedger.

(** * Example *)

(** Two positions, in and out of range; a fee of 100 at liquidity 1000. *)
Section Examples.
#[local] Existing Instance uint_std.

Definition demo_fees : fees := mkFees [] (fun t => set_tick default_tick_state t) 30 5 0 0.

Lemma demo_run :
  exists F, rtc (fee_step true) demo_fees F /\
    (owed true <$> fe_positions F) = [83; 0] /\ fe_collected F = 84 /\ fe_paid F = 0.
Proof.
  eexists. split.
  - eapply rtc_l.
    { eapply fs_open with (mint := 1) (pool := 2) (tl := 0) (tu := 60) (l := 1000) (g0 := 5) (g1 := 0)
        (rg := replicate REWARD_NUM 0); [by_compute|by_compute|vm_compute; reflexivity|vm_compute; reflexivity]. }
    eapply rtc_l.
    { eapply fs_open with (mint := 1) (pool := 2) (tl := 60) (tu := 120) (l := 7) (g0 := 0) (g1 := 0)
        (rg := replicate REWARD_NUM 0); [by_compute|by_compute|vm_compute; reflexivity|vm_compute; reflexivity]. }
    eapply rtc_l.
    { eapply fs_swap with (s := set_st_liquidity (set_fees sample_swap_state 5 0 0 0) 1000)
        (fee := 100) (pr := 120000) (fr := 40000);
        [constructor; by_compute|by_compute|done|done|reflexivity|vm_compute; reflexivity|vm_compute; reflexivity]. }
    eapply rtc_l; [|apply rtc_refl].
    eapply fs_decrease with (i := 0%nat) (d := 1000) (g0 := 5 + 84 * 2 ^ 64 / 1000) (g1 := 0)
      (rg := replicate REWARD_NUM 0); [reflexivity|done|vm_compute; reflexivity|vm_compute; reflexivity].
  - split; [vm_compute; reflexivity|]. split; vm_compute; reflexivity.
Qed.

Lemma lp_fees_solvent_witness :
  exists F, (owed true <$> fe_positions F) = [83; 0] /\
    0 + sum_z (owed true) (fe_positions F) <= 84.
Proof.
  destruct demo_run as (F & H & Ho & Hc & Hp). exists F. split; [done|].
  destruct (lp_fees_solvent true demo_fees F) as (Hle & _); [|exact H|by rewrite Hp, Hc in Hle].
  split; [reflexivity|]. split; [intros t; by_compute|]. by split.
Defined.
End Examples.
