(* ===== verification/SwapLedger.v ===== *)
(** The swap loop keeps the liquidity the positions determine: on arriving at
    an initialized tick, [arrive_at_tick] leaves the current tick and the
    liquidity of the side the price is now on. *)
From S2P Require Import Prelude.
From S2P Require Import AmmError.
From S2P Require Import BigNum.
From S2P Require Import FullMath.
From S2P Require Import Config.
From S2P Require Import TickMath.
From S2P Require Import LiquidityMath.
From S2P Require Import SwapMath.
From S2P Require Import Rewards.
From S2P Require Import TickState.
From S2P Require Import TickArray.
From S2P Require Import Pool.
From S2P Require Import PoolBitmap.
From S2P Require Import SwapState.
From S2P Require Import SwapLoop.
From S2P Require Import Position.
From S2P Require Import PositionLedger.

(** * What the trades leave alone *)

Section Frames.
Context {U : UintLib}.

(** Same liquidity, same next tick. *)
Definition same_course (s s' : SwapState) : Prop :=
  st_liquidity s' = st_liquidity s /\ tick_next s' = tick_next s.

Lemma spilt_fees_course s fee pr fr s' : spilt_fees s fee pr fr = Ok s' -> same_course s s'.
Proof.
  unfold spilt_fees. intros H. apply obind_Ok in H as ([pf r1] & _ & H).
  apply obind_Ok in H as ([ff r2] & _ & H). destruct (_ <? _).
  - apply obind_Ok in H as (d & _ & H). apply obind_Ok in H as (x & _ & H).
    apply obind_Ok in H as (lp & _ & H). by injection H as <-.
  - apply obind_Ok in H as (x & _ & H). by injection H as <-.
Qed.

Lemma apply_swap_amounts_course s ai ao fee (base fee_in : bool) pr fr s' :
  apply_swap_amounts s ai ao fee base fee_in pr fr = Ok s' -> same_course s s'.
Proof.
  unfold apply_swap_amounts. intros H. apply obind_Ok in H as (x & _ & H).
  apply obind_Ok in H as (s1 & Hs & H). apply spilt_fees_course in H as [H1 H2].
  assert (same_course s s1) as [H3 H4]; [|split; congruence].
  destruct base; apply obind_Ok in Hs as (y & _ & Hs); apply obind_Ok in Hs as (w & _ & Hs);
    by injection Hs as <-.
Qed.

(** Same liquidity at the tick. *)
Definition same_liquidity (t t' : TickState) : Prop :=
  tick t' = tick t /\ liquidity_net t' = liquidity_net t /\ liquidity_gross t' = liquidity_gross t.

Lemma consume_orders_liquidity t v t' : consume_orders t v = Ok t' -> same_liquidity t t'.
Proof.
  unfold consume_orders. intros H. apply obind_Ok in H as ([t1 c] & Ht & H).
  assert (same_liquidity t t1) as [H1 [H2 H3]].
  { revert Ht. clear H. destruct (0 <? part_filled_orders_remaining t); intros Ht; [|by injection Ht as <- <-].
    cbn zeta in Ht. apply obind_Ok in Ht as (x & _ & Ht). by injection Ht as <- <-. }
  clear Ht. cbn zeta in H. destruct (0 <? _); [|by injection H as <-].
  apply obind_Ok in H as (u1 & _ & H). apply obind_Ok in H as (u2 & _ & H).
  apply obind_Ok in H as (x & _ & H). apply obind_Ok in H as (y & _ & H).
  apply obind_Ok in H as (w & _ & H). injection H as <-. done.
Qed.

Lemma match_limit_order_liquidity t v (z b : bool) f (i : bool) m t' :
  match_limit_order t v z b f i = Ok (m, t') -> same_liquidity t t'.
Proof.
  unfold match_limit_order. intros H. apply obind_Ok in H as (u & _ & H).
  destruct (_ || _); [by injection H as _ <-|]. apply obind_Ok in H as (m0 & _ & H).
  apply obind_Ok in H as (t1 & Ht%consume_orders_liquidity & H). destruct (negb i).
  - apply obind_Ok in H as (x & _ & H). apply obind_Ok in H as (y & _ & H). by injection H as _ <-.
  - by injection H as _ <-.
Qed.

Lemma trade_on_orders_frame a s t f s' t' :
  trade_on_orders a s t f = Ok (s', t') -> same_course s s' /\ same_liquidity t t'.
Proof.
  unfold trade_on_orders. intros H. apply obind_Ok in H as ([m t1] & Hm%match_limit_order_liquidity & H).
  apply obind_Ok in H as (s1 & Hs & H). injection H as <- <-. split; [|done].
  destruct (0 <? _); [by apply apply_swap_amounts_course in Hs|by injection Hs as <-].
Qed.

Lemma drop_tick_state a e t e' : drop_tick a e t = Ok e' -> sl_state e' = sl_state e.
Proof.
  unfold drop_tick. intros H. destruct (negb _); [|by injection H as <-].
  apply obind_Ok in H as (c & _ & H). destruct (_ =? 0); [|by injection H as <-].
  apply obind_Ok in H as ([p x] & _ & H). by injection H as <-.
Qed.
End Frames.

Section Properties.
Context {U : UintLib} (a : SwapArgs).

Local Abbreviation zfo := (sa_zero_for_one a).

(** C9: Arriving at a tick keeps the liquidity the positions determine: when
    the liquidity in force is the sum over the positions whose range contains
    the current tick, the tick reached carries their net and gross liquidity,
    and no range ends strictly between the two, then after
    [arrive_at_tick] - orders matched, tick crossed or not, in either
    direction - the liquidity to continue with is the sum over the positions
    whose range contains the new current tick, and the tick reached has kept
    its net and gross liquidity. *)
Theorem arrive_at_tick_ledger e t l fee_rate e' t' l' ps c :
  let T := tick_next (sl_state e) in
  Forall (fun q => 0 <= pp_liquidity q /\ tick_lower_index q < tick_upper_index q) ps ->
  Forall (same_side c (if zfo then T else T - 1)) ps ->
  liquidity_net t = sum_z (net_at T) ps -> liquidity_gross t = sum_z (gross_at T) ps ->
  st_liquidity (sl_state e) = sum_z (active_at c) ps -> l = st_liquidity (sl_state e) ->
  arrive_at_tick a e t l fee_rate = Ok (e', t', l') ->
  l' = sum_z (active_at (st_tick (sl_state e'))) ps /\
  (st_tick (sl_state e') = T \/ st_tick (sl_state e') = T - 1) /\ same_liquidity t t'.
Proof.
  intros T Hps Hside Hnet Hgross Hact -> H.
  assert (Forall (fun q => 0 <= pp_liquidity q) ps) as Hnn by (eapply Forall_impl; [exact Hps|]; by intros q []).
  assert (Forall (fun q => tick_lower_index q < tick_upper_index q) ps) as Hlt by (eapply Forall_impl; [exact Hps|]; by intros q []).
  rewrite (active_same_side ps c _ Hside) in Hact. pose proof (active_step ps T Hlt) as Hstep.
  unfold arrive_at_tick in H. apply obind_Ok in H as ([s1 t1] & Ht & H).
  apply trade_on_orders_frame in Ht as ([L1 N1] & T1 & M1 & G1).
  apply obind_Ok in H as (e1 & He & H). apply drop_tick_state in He. cbn [sl_state set_sl_state] in He.
  apply obind_Ok in H as ([t2 l2] & Hc & H). apply obind_Ok in H as (c2 & _ & H).
  cbn zeta in H. apply obind_Ok in H as (nt & Hnt & H). injection H as <- <- <-.
  cbn [sl_state set_sl_state set_sl_arrays] in Hnt |- *. rewrite He in Hnt |- *. rewrite N1 in Hnt. fold T in Hnt.
  change (st_tick (set_st_tick s1 nt)) with nt.
  assert (same_liquidity t1 t2 /\ has_limit_orders t2 = has_limit_orders t1 /\
    l2 = if has_liquidity t1 && negb (has_limit_orders t1)
         then st_liquidity (sl_state e) + (if zfo then - liquidity_net t1 else liquidity_net t1)
         else st_liquidity (sl_state e)) as ([T2 [M2 G2]] & O2 & ->).
  { unfold cross_tick in Hc. cbn zeta in Hc. destruct (has_liquidity t1 && negb (has_limit_orders t1)).
    - unfold tick_cross in Hc. apply obind_Ok in Hc as (n & Hn & Hc).
      apply obind_Ok in Hc as (x & [-> _]%add_delta_Ok & Hc). injection Hc as <- <-.
      split; [done|]. split; [done|]. rewrite He, L1. destruct zfo.
      + by apply ichk_Ok in Hn as [-> _].
      + by injection Hn as <-.
    - by injection Hc as <- <-. }
  rewrite O2 in Hnt. split; [|split; [|split; [congruence|split; congruence]]].
  - rewrite Hact, M1, Hnet.
    assert (has_liquidity t1 = false -> sum_z (net_at T) ps = 0) as Hz.
    { unfold has_liquidity. rewrite G1, Hgross. intros Hf%Z.ltb_ge. apply gross_zero; [done|].
      pose proof (sum_z_nonneg _ _ (gross_at_nonneg T ps Hnn)). lia. }
    destruct (has_limit_orders t1), zfo; cbn [andb orb negb] in Hnt |- *; rewrite ?andb_false_r, ?andb_true_r.
    + by injection Hnt as <-.
    + by apply ichk_Ok in Hnt as [-> _].
    + apply ichk_Ok in Hnt as [-> _]. destruct (has_liquidity t1); [lia|]. rewrite Hz in Hstep by done. lia.
    + injection Hnt as <-. destruct (has_liquidity t1); [lia|]. rewrite Hz in Hstep by done. lia.
  - destruct (_ || _); [right; by apply ichk_Ok in Hnt as [-> _]|left; by injection Hnt as <-].
Qed.
End Properties.

(** * Example: leaving the range [0, 60) of the only position upwards *)

Section Examples.
#[local] Existing Instance uint_std.

Definition demo_args : SwapArgs := mkSwapArgs 77 78 sample_config MAX_SQRT_PRICE_X64 false true true [].
Definition demo_position : PersonalPositionState := mkPosition 1 77 0 60 1000 0 0 0 0 [].
Definition demo_env : SwapEnv :=
  mkSwapEnv (mkSwapState 1000 0 (2 ^ 64) 30 0 0 0 0 1000 0 60 10 2500 0 None) sample_pool None
    default_tick_array [] [] 0 true.
Definition demo_tick : TickState := set_tick_liquidity (set_tick default_tick_state 60) (-1000) 1000.

Lemma arrive_at_tick_ledger_witness :
  exists e' t' l', arrive_at_tick demo_args demo_env demo_tick 1000 2500 = Ok (e', t', l') /\
    l' = sum_z (active_at (st_tick (sl_state e'))) [demo_position].
Proof.
  do 3 eexists. split; [vm_compute; reflexivity|].
  eapply (arrive_at_tick_ledger demo_args demo_env demo_tick 1000 2500 _ _ _ [demo_position] 30).
  - repeat constructor; vm_compute; done.
  - repeat constructor; vm_compute; done.
  - reflexivity.
  - reflexivity.
  - reflexivity.
  - reflexivity.
  - vm_compute. reflexivity.
Defined.
End Examples.
