(* ===== verification/ShieldProgram.v ===== *)
(** The standalone shield program [programs/nebula-shield]: [state.rs],
    [error.rs], every instruction and the entry points of [lib.rs].

    The accounts of the program are derived from seeds, so they are maps here:
    one global account, one configuration per pool, one guard per pool and
    position.  An instruction is given the keys of its signer and of the token
    accounts it names; it returns the accounts it leaves and the transfers it
    asks for, and an error rolls the accounts back ([transaction]).  Bumps,
    rent, events and the return data are left out; the address of the treasury
    is a parameter.  [compute_arb_swap], [calculate_spread] and
    [calculate_sweep_amount] are not called by any instruction. *)
From stdpp Require Import gmap.
From S2P Require Import Prelude.
From S2P Require Import Config.
From S2P Require Import Token.

(** ** error.rs *)

(** [FrameworkError] stands for the errors of the account constraints that
    name no error of the program: a missing account, an account that exists. *)
Inductive ShieldError : Set :=
| JitBackRunDetected | ShieldDisabled | ArbCooldownActive | SpreadTooSmall | NoArbProfit
| InsufficientOracleData | InvalidTreasury | ArithmeticOverflow | DivisionByZero | AmountBelowMin
| NotArbAuthority | NotAdmin | PoolMismatch | LockSlotsExceedMax | InvalidShareBps
| ZeroSpreadBps | InvalidSweepRange | TwapWindowTooShort
| FrameworkError.

Definition SResult := outcome ShieldError.

(** ** state.rs *)

Record ShieldConfig := mkShieldConfig {
  sh_pool : Pubkey;
  arb_authority : Pubkey;
  treasury : Pubkey;
  min_spread_bps : Z;
  treasury_share_bps : Z;
  twap_window_seconds : Z;
  min_sweep_amount : Z;
  max_sweep_amount : Z;
  last_sweep_slot : Z;
  cooldown_slots : Z;
  manipulation_threshold_bps : Z;
  min_jit_lock_slots : Z;
  total_profit_captured_a : Z;
  total_profit_captured_b : Z;
  enabled : bool;
}.

Record JitGuardState := mkJitGuardState {
  jgs_pool : Pubkey;
  position_nft_mint : Pubkey;
  min_lock_slots : Z;
  last_add_slot : Z;
  add_count : Z;
  remove_count : Z;
  jit_blocks : Z;
}.

Definition MAX_LOCK_SLOTS : Z := 100.
Definition DEFAULT_MIN_LOCK_SLOTS : Z := 5.

Definition can_remove (g : JitGuardState) (current_slot : Z) : SResult (bool * Z) :=
  let! unlock_slot := uchk 64 (last_add_slot g + min_lock_slots g) in
  if unlock_slot <=? current_slot then Ok (true, 0)
  else
    let! remaining := uchk 64 (unlock_slot - current_slot) in
    Ok (false, remaining).

Definition record_add (g : JitGuardState) (slot : Z) : JitGuardState :=
  mkJitGuardState (jgs_pool g) (position_nft_mint g) (min_lock_slots g) slot
    (usat 64 (add_count g + 1)) (remove_count g) (jit_blocks g).

Definition record_remove (g : JitGuardState) (blocked : bool) : JitGuardState :=
  mkJitGuardState (jgs_pool g) (position_nft_mint g) (min_lock_slots g) (last_add_slot g)
    (add_count g) (usat 64 (remove_count g + 1))
    (if blocked then usat 64 (jit_blocks g + 1) else jit_blocks g).

Record GlobalShieldState := mkGlobalShieldState {
  gs_admin : Pubkey;
  pools_protected : Z;
  total_jit_blocks : Z;
  total_arb_sweeps : Z;
  total_treasury_routed : Z;
}.

(** ** Instruction handlers *)

Section Handlers.
Context (TIPY_TREASURY : Pubkey).

(** [lib.rs]: the first signer becomes the admin. *)
Definition initialize_global (admin : Pubkey) : GlobalShieldState :=
  mkGlobalShieldState admin 0 0 0 0.

(** [initialize_shield.rs] *)
Record ShieldInitConfig := mkShieldInitConfig {
  ic_arb_authority : Pubkey;
  ic_min_spread_bps : Z;
  ic_treasury_share_bps : Z;
  ic_twap_window_seconds : Z;
  ic_min_sweep_amount : Z;
  ic_max_sweep_amount : Z;
  ic_cooldown_slots : Z;
  ic_manipulation_threshold_bps : Z;
  ic_min_jit_lock_slots : Z;
}.

Definition initialize_shield (admin pool : Pubkey) (config : ShieldInitConfig)
    (global : GlobalShieldState) : SResult (ShieldConfig * GlobalShieldState) :=
  do! require (admin =? gs_admin global) NotAdmin in
  do! require (ic_treasury_share_bps config <=? 10000) InvalidShareBps in
  do! require (0 <? ic_min_spread_bps config) ZeroSpreadBps in
  do! require (ic_min_sweep_amount config <? ic_max_sweep_amount config) InvalidSweepRange in
  do! require (15 <=? ic_twap_window_seconds config) TwapWindowTooShort in
  do! require (ic_min_jit_lock_slots config <=? MAX_LOCK_SLOTS) LockSlotsExceedMax in
  Ok (mkShieldConfig pool (ic_arb_authority config) TIPY_TREASURY (ic_min_spread_bps config)
        (ic_treasury_share_bps config) (ic_twap_window_seconds config)
        (ic_min_sweep_amount config) (ic_max_sweep_amount config) 0 (ic_cooldown_slots config)
        (ic_manipulation_threshold_bps config)
        (if ic_min_jit_lock_slots config =? 0 then DEFAULT_MIN_LOCK_SLOTS
         else ic_min_jit_lock_slots config)
        0 0 true,
      mkGlobalShieldState (gs_admin global) (usat 64 (pools_protected global + 1))
        (total_jit_blocks global) (total_arb_sweeps global) (total_treasury_routed global)).

(** [check_jit.rs] *)
Definition handler_init_guard (shield : ShieldConfig) (pool mint : Pubkey) (lock_slots slot : Z) :
    SResult JitGuardState :=
  do! require (sh_pool shield =? pool) PoolMismatch in
  do! require (enabled shield) ShieldDisabled in
  let effective_lock :=
    if lock_slots =? 0 then min_jit_lock_slots shield else Z.min lock_slots MAX_LOCK_SLOTS in
  Ok (mkJitGuardState pool mint effective_lock slot 1 0 0).

(** The accounts as the handler writes them and what it returns: the recording
    of a blocked removal is written before the error. *)
Definition handler_check_jit (g : JitGuardState) (global : GlobalShieldState) (slot : Z) :
    SResult (JitGuardState * GlobalShieldState * SResult unit) :=
  let! '(ok, _) := can_remove g slot in
  if negb ok then
    Ok (record_remove g true,
        mkGlobalShieldState (gs_admin global) (pools_protected global)
          (usat 64 (total_jit_blocks global + 1)) (total_arb_sweeps global)
          (total_treasury_routed global),
        Err JitBackRunDetected)
  else Ok (record_remove g false, global, Ok tt).

Definition handler_record_add (g : JitGuardState) (slot : Z) : JitGuardState := record_add g slot.

(** [arb_sweep.rs] *)
Definition execute_arb_sweep (signer pool vault treasury_vault : Pubkey) (sweep_amount slot : Z)
    (sc : ShieldConfig) (global : GlobalShieldState) :
    SResult (ShieldConfig * GlobalShieldState * list Transfer) :=
  do! require (signer =? arb_authority sc) NotArbAuthority in
  do! require (sh_pool sc =? pool) PoolMismatch in
  do! require (enabled sc) ShieldDisabled in
  do! require (treasury_vault =? treasury sc) InvalidTreasury in
  let! next := uchk 64 (last_sweep_slot sc + cooldown_slots sc) in
  do! require (next <=? slot) ArbCooldownActive in
  do! require (min_sweep_amount sc <=? sweep_amount) AmountBelowMin in
  do! require (sweep_amount <=? max_sweep_amount sc) AmountBelowMin in
  let! product := ok_or (ucheck 128 (sweep_amount * treasury_share_bps sc)) ArithmeticOverflow in
  let treasury_amount := uwrap 64 (product / 10000) in
  do! require (0 <? treasury_amount) NoArbProfit in
  Ok (mkShieldConfig (sh_pool sc) (arb_authority sc) (treasury sc) (min_spread_bps sc)
        (treasury_share_bps sc) (twap_window_seconds sc) (min_sweep_amount sc)
        (max_sweep_amount sc) slot (cooldown_slots sc) (manipulation_threshold_bps sc)
        (min_jit_lock_slots sc) (usat 64 (total_profit_captured_a sc + treasury_amount))
        (total_profit_captured_b sc) (enabled sc),
      mkGlobalShieldState (gs_admin global) (pools_protected global) (total_jit_blocks global)
        (usat 64 (total_arb_sweeps global + 1))
        (usat 64 (total_treasury_routed global + treasury_amount)),
      [mkTransfer vault treasury_vault treasury_amount]).

(** [update_config.rs] *)
Record ShieldConfigUpdate := mkShieldConfigUpdate {
  up_min_spread_bps : option Z;
  up_treasury_share_bps : option Z;
  up_twap_window_seconds : option Z;
  up_min_sweep_amount : option Z;
  up_max_sweep_amount : option Z;
  up_cooldown_slots : option Z;
  up_manipulation_threshold_bps : option Z;
  up_min_jit_lock_slots : option Z;
  up_enabled : option bool;
}.

(** [if let Some(x) = new { require!(ok(x), e); field = x; }] *)
Definition updated {A} (new : option A) (old : A) (ok : A -> bool) (e : ShieldError) : SResult A :=
  match new with
  | Some x => do! require (ok x) e in Ok x
  | None => Ok old
  end.

Definition update_shield_config (signer pool : Pubkey) (u : ShieldConfigUpdate) (sc : ShieldConfig) :
    SResult ShieldConfig :=
  do! require (signer =? arb_authority sc) NotArbAuthority in
  do! require (sh_pool sc =? pool) PoolMismatch in
  let! spread := updated (up_min_spread_bps u) (min_spread_bps sc) (Z.ltb 0) ZeroSpreadBps in
  let! share := updated (up_treasury_share_bps u) (treasury_share_bps sc)
                  (fun x => x <=? 10000) InvalidShareBps in
  let! window := updated (up_twap_window_seconds u) (twap_window_seconds sc) (Z.leb 15)
                   TwapWindowTooShort in
  let min_sweep := default (min_sweep_amount sc) (up_min_sweep_amount u) in
  let max_sweep := default (max_sweep_amount sc) (up_max_sweep_amount u) in
  do! require (min_sweep <? max_sweep) InvalidSweepRange in
  let! lock := updated (up_min_jit_lock_slots u) (min_jit_lock_slots sc)
                 (fun x => x <=? MAX_LOCK_SLOTS) LockSlotsExceedMax in
  Ok (mkShieldConfig (sh_pool sc) (arb_authority sc) (treasury sc) spread share window
        min_sweep max_sweep (last_sweep_slot sc) (default (cooldown_slots sc) (up_cooldown_slots u))
        (default (manipulation_threshold_bps sc) (up_manipulation_threshold_bps u)) lock
        (total_profit_captured_a sc) (total_profit_captured_b sc)
        (default (enabled sc) (up_enabled u))).

(** ** The program: all its accounts, and a transaction of one instruction *)

Record Program := mkProgram {
  global_shield : option GlobalShieldState;
  shields : gmap Pubkey ShieldConfig;
  guards : gmap (Pubkey * Pubkey) JitGuardState;
}.

Definition empty_program : Program := mkProgram None ∅ ∅.

Inductive instr :=
| InitializeGlobal (admin : Pubkey)
| InitializeShield (admin pool : Pubkey) (config : ShieldInitConfig)
| InitJitGuard (owner pool mint : Pubkey) (lock_slots : Z)
| CheckJitProtection (caller pool mint : Pubkey)
| RecordJitAdd (owner pool mint : Pubkey)
| ExecuteArbSweep (signer pool vault treasury_vault : Pubkey) (sweep_amount : Z)
| UpdateShieldConfig (signer pool : Pubkey) (u : ShieldConfigUpdate)
| GetShieldStatus (pool : Pubkey).

Definition account {A} (o : option A) : SResult A := ok_or o FrameworkError.
Definition vacant {A} (o : option A) : SResult unit :=
  require (match o with None => true | Some _ => false end) FrameworkError.

Definition set_global (s : Program) (g : GlobalShieldState) : Program :=
  mkProgram (Some g) (shields s) (guards s).
Definition set_shield (s : Program) (pool : Pubkey) (sc : ShieldConfig) : Program :=
  mkProgram (global_shield s) (<[pool := sc]> (shields s)) (guards s).
Definition set_guard (s : Program) (k : Pubkey * Pubkey) (g : JitGuardState) : Program :=
  mkProgram (global_shield s) (shields s) (<[k := g]> (guards s)).

Definition exec (slot : Z) (i : instr) (s : Program) : SResult (Program * list Transfer) :=
  match i with
  | InitializeGlobal admin =>
      do! vacant (global_shield s) in
      Ok (set_global s (initialize_global admin), [])
  | InitializeShield admin pool config =>
      let! g := account (global_shield s) in
      do! vacant (shields s !! pool) in
      let! '(sc, g) := initialize_shield admin pool config g in
      Ok (set_shield (set_global s g) pool sc, [])
  | InitJitGuard _ pool mint lock_slots =>
      let! sc := account (shields s !! pool) in
      do! vacant (guards s !! (pool, mint)) in
      let! jg := handler_init_guard sc pool mint lock_slots slot in
      Ok (set_guard s (pool, mint) jg, [])
  | CheckJitProtection _ pool mint =>
      let! jg := account (guards s !! (pool, mint)) in
      let! g := account (global_shield s) in
      let! '(jg, g, r) := handler_check_jit jg g slot in
      do! r in
      Ok (set_guard (set_global s g) (pool, mint) jg, [])
  | RecordJitAdd _ pool mint =>
      let! jg := account (guards s !! (pool, mint)) in
      Ok (set_guard s (pool, mint) (handler_record_add jg slot), [])
  | ExecuteArbSweep signer pool vault treasury_vault amount =>
      let! sc := account (shields s !! pool) in
      let! g := account (global_shield s) in
      let! '(sc, g, l) := execute_arb_sweep signer pool vault treasury_vault amount slot sc g in
      Ok (set_shield (set_global s g) pool sc, l)
  | UpdateShieldConfig signer pool u =>
      let! sc := account (shields s !! pool) in
      let! sc := update_shield_config signer pool u sc in
      Ok (set_shield s pool sc, [])
  | GetShieldStatus pool =>
      do! account (shields s !! pool) in
      do! account (global_shield s) in
      Ok (s, [])
  end.

Definition transaction (s : Program) (slot : Z) (i : instr) : Program * list Transfer :=
  match exec slot i s with Ok r => r | _ => (s, []) end.

Fixpoint run_all (s : Program) (l : list (Z * instr)) : Program * list Transfer :=
  match l with
  | [] => (s, [])
  | (slot, i) :: l =>
      let '(s, t) := transaction s slot i in
      let '(s, ts) := run_all s l in
      (s, t ++ ts)
  end.

(** * Invariants *)

(** The arguments of an instruction are values of their types. *)
Definition opt_u (w : Z) (o : option Z) : Prop := forall x, o = Some x -> in_u w x.

Record init_typed (c : ShieldInitConfig) : Prop := {
  it_share : in_u 16 (ic_treasury_share_bps c);
  it_min : in_u 64 (ic_min_sweep_amount c);
  it_max : in_u 64 (ic_max_sweep_amount c);
  it_cooldown : in_u 64 (ic_cooldown_slots c);
  it_lock : in_u 16 (ic_min_jit_lock_slots c);
}.

Record update_typed (u : ShieldConfigUpdate) : Prop := {
  ut_share : opt_u 16 (up_treasury_share_bps u);
  ut_min : opt_u 64 (up_min_sweep_amount u);
  ut_max : opt_u 64 (up_max_sweep_amount u);
  ut_cooldown : opt_u 64 (up_cooldown_slots u);
  ut_lock : opt_u 16 (up_min_jit_lock_slots u);
}.

Definition step_typed (x : Z * instr) : Prop :=
  in_u 64 (fst x) /\
  match snd x with
  | InitializeShield _ _ c => init_typed c
  | InitJitGuard _ _ _ lock => in_u 16 lock
  | ExecuteArbSweep _ _ _ _ amount => in_u 64 amount
  | UpdateShieldConfig _ _ u => update_typed u
  | _ => True
  end.

Record shield_ok (pool : Pubkey) (sc : ShieldConfig) : Prop := {
  so_pool : sh_pool sc = pool;
  so_treasury : treasury sc = TIPY_TREASURY;
  so_spread : 0 < min_spread_bps sc;
  so_share : 0 <= treasury_share_bps sc <= 10000;
  so_window : 15 <= twap_window_seconds sc;
  so_range : 0 <= min_sweep_amount sc < max_sweep_amount sc /\ max_sweep_amount sc < 2 ^ 64;
  so_cooldown : in_u 64 (cooldown_slots sc);
  so_lock : 0 <= min_jit_lock_slots sc <= MAX_LOCK_SLOTS;
  so_slot : 0 <= last_sweep_slot sc;
  so_profit : in_u 64 (total_profit_captured_a sc);
}.

Record guard_ok (k : Pubkey * Pubkey) (g : JitGuardState) : Prop := {
  go_key : (jgs_pool g, position_nft_mint g) = k;
  go_lock : 0 <= min_lock_slots g <= MAX_LOCK_SLOTS;
  go_blocks : jit_blocks g = 0;
}.

(** Nothing is ever recorded as blocked, see [exec]. *)
Record global_ok (g : GlobalShieldState) : Prop := {
  gl_blocks : total_jit_blocks g = 0;
  gl_routed : in_u 64 (total_treasury_routed g);
}.

Record program_ok (s : Program) : Prop := {
  po_global : forall g, global_shield s = Some g -> global_ok g;
  po_shields : map_Forall shield_ok (shields s);
  po_guards : map_Forall guard_ok (guards s);
}.

Lemma initialize_global_ok admin : global_ok (initialize_global admin).
Proof. by split. Qed.

Lemma initialize_shield_ok admin pool c g r :
  init_typed c -> global_ok g -> initialize_shield admin pool c g = Ok r ->
  shield_ok pool (fst r) /\ global_ok (snd r) /\
  total_treasury_routed (snd r) = total_treasury_routed g.
Proof.
  intros Hc Hg. unfold initialize_shield.
  intros (? & _ & (? & H1%require_Ok & (? & H2%require_Ok & (? & H3%require_Ok &
    (? & H4%require_Ok & (? & H5%require_Ok & H)%obind_Ok)%obind_Ok)%obind_Ok)%obind_Ok)%obind_Ok)%obind_Ok.
  injection H as <-. apply Z.leb_le in H1, H4, H5. apply Z.ltb_lt in H2, H3.
  destruct Hc as [Hs Hm HM Hcd Hl], Hg as [Hb Hr]. unfold in_u in *.
  split; [|split; [by split|done]].
  split; cbn; unfold in_u; try done; try lia.
  unfold DEFAULT_MIN_LOCK_SLOTS, MAX_LOCK_SLOTS in *.
  destruct (Z.eqb_spec (ic_min_jit_lock_slots c) 0); lia.
Qed.

Lemma handler_init_guard_ok sc pool mint lock slot g :
  in_u 16 lock -> shield_ok pool sc -> handler_init_guard sc pool mint lock slot = Ok g ->
  guard_ok (pool, mint) g.
Proof.
  intros Hl Hs. unfold handler_init_guard. intros (? & _ & (? & _ & H)%obind_Ok)%obind_Ok.
  injection H as <-. split; cbn [jgs_pool position_nft_mint min_lock_slots jit_blocks]; [done| |done].
  pose proof (so_lock _ _ Hs). unfold in_u, MAX_LOCK_SLOTS in *. destruct (Z.eqb_spec lock 0); lia.
Qed.

Lemma handler_check_jit_ok k jg g slot r u :
  guard_ok k jg -> global_ok g -> handler_check_jit jg g slot = Ok r -> snd r = Ok u ->
  guard_ok k (fst (fst r)) /\ snd (fst r) = g.
Proof.
  intros Hj Hg. unfold handler_check_jit. intros ([ok rem] & _ & H)%obind_Ok Hr.
  destruct ok; cbn [negb] in H; injection H as <-; [|done].
  split; [|done]. by destruct Hj.
Qed.

(** What a sweep that succeeds does. *)
Lemma execute_arb_sweep_Ok signer pool vault tv amount slot sc g r :
  shield_ok pool sc -> in_u 64 amount ->
  execute_arb_sweep signer pool vault tv amount slot sc g = Ok r ->
  let x := amount * treasury_share_bps sc / 10000 in
  signer = arb_authority sc /\ enabled sc = true /\
  last_sweep_slot sc + cooldown_slots sc <= slot /\
  min_sweep_amount sc <= amount <= max_sweep_amount sc /\ 0 < x /\
  r = (mkShieldConfig (sh_pool sc) (arb_authority sc) (treasury sc) (min_spread_bps sc)
         (treasury_share_bps sc) (twap_window_seconds sc) (min_sweep_amount sc) (max_sweep_amount sc)
         slot (cooldown_slots sc) (manipulation_threshold_bps sc) (min_jit_lock_slots sc)
         (usat 64 (total_profit_captured_a sc + x)) (total_profit_captured_b sc) (enabled sc),
       mkGlobalShieldState (gs_admin g) (pools_protected g) (total_jit_blocks g)
         (usat 64 (total_arb_sweeps g + 1)) (usat 64 (total_treasury_routed g + x)),
       [mkTransfer vault TIPY_TREASURY x]).
Proof.
  intros Hs Ha. unfold execute_arb_sweep.
  intros (? & H1%require_Ok & (? & _ & (? & H2%require_Ok & (? & H3%require_Ok & (n & [-> _]%uchk_Ok &
    (? & H4%require_Ok & (? & H5%require_Ok & (? & H6%require_Ok & (y & [-> _]%ok_or_Ok%ucheck_Some &
    (? & H7%require_Ok & H)%obind_Ok)%obind_Ok)%obind_Ok)%obind_Ok)%obind_Ok)%obind_Ok)%obind_Ok)%obind_Ok)%obind_Ok)%obind_Ok.
  apply Z.eqb_eq in H1, H3. apply Z.leb_le in H4, H5, H6. apply Z.ltb_lt in H7.
  pose proof (so_share _ _ Hs) as Hsh. rewrite (so_treasury _ _ Hs) in H3.
  assert (in_u 64 (amount * treasury_share_bps sc / 10000)) as Hx.
  { unfold in_u in *. split; [apply Z.div_pos; nia|]. apply Z.div_lt_upper_bound; nia. }
  rewrite (uwrap_id 64 _ Hx) in *. subst tv. injection H as <-. done.
Qed.

Lemma execute_arb_sweep_ok signer pool vault tv amount slot sc g r :
  shield_ok pool sc -> global_ok g -> in_u 64 amount -> in_u 64 slot ->
  execute_arb_sweep signer pool vault tv amount slot sc g = Ok r ->
  shield_ok pool (fst (fst r)) /\ global_ok (snd (fst r)).
Proof.
  intros Hs Hg Ha Hslot H.
  apply execute_arb_sweep_Ok in H as (_ & _ & _ & _ & _ & ->); [|done..].
  destruct Hs, Hg. split.
  - split; cbn [fst]; try done; [exact (proj1 Hslot)|]. apply usat_in. lia.
  - split; [done|]. apply usat_in. lia.
Qed.

Lemma updated_Ok {A} (new : option A) old ok e x :
  updated new old ok e = Ok x -> (new = None /\ x = old) \/ (new = Some x /\ ok x = true).
Proof.
  unfold updated. destruct new as [y|].
  - intros (? & Hr%require_Ok & H)%obind_Ok. injection H as <-. by right.
  - intros [= <-]. by left.
Qed.

Lemma update_shield_config_ok signer pool u sc sc' :
  update_typed u -> shield_ok pool sc -> update_shield_config signer pool u sc = Ok sc' ->
  shield_ok pool sc' /\ arb_authority sc' = arb_authority sc /\ signer = arb_authority sc.
Proof.
  intros [Us Um UM Uc Ul] Hs. unfold update_shield_config.
  intros (? & H1%require_Ok & (? & _ & (spread & Hspread%updated_Ok & (share & Hshare%updated_Ok &
    (window & Hwindow%updated_Ok & (? & Hrange%require_Ok & (lock & Hlock%updated_Ok &
    H)%obind_Ok)%obind_Ok)%obind_Ok)%obind_Ok)%obind_Ok)%obind_Ok)%obind_Ok.
  injection H as <-. apply Z.eqb_eq in H1. apply Z.ltb_lt in Hrange. split; [|done].
  assert (forall w (o : option Z) (z : Z), opt_u w o -> 0 <= z < 2 ^ w -> 0 <= default z o < 2 ^ w) as Hd.
  { intros w [y|] z Ho Hz; [exact (Ho y eq_refl)|exact Hz]. }
  destruct Hs as [So1 So2 So3 So4 So5 [So6 So6'] So7 So8 So9 So10]. unfold in_u in *.
  pose proof (Hd 64 _ (min_sweep_amount sc) Um ltac:(lia)) as Hmin. pose proof (Hd 64 _ (max_sweep_amount sc) UM ltac:(lia)) as Hmax.
  pose proof (Hd 64 _ _ Uc So7) as Hcd.
  split; cbn; try done; try lia.
  - destruct Hshare as [[_ ->]|[Hs Hs'%Z.leb_le]]; [lia|]. pose proof (Us _ Hs). unfold in_u in *. lia.
  - destruct Hlock as [[_ ->]|[Hs Hs'%Z.leb_le]]; [lia|]. pose proof (Ul _ Hs). unfold in_u in *. lia.
Qed.

(** ** Transactions keep the accounts well formed *)

Lemma account_Ok {A} (o : option A) a : account o = Ok a <-> o = Some a.
Proof. apply ok_or_Ok. Qed.

Lemma program_ok_global s g : program_ok s -> global_ok g -> program_ok (set_global s g).
Proof. intros [Hg Hs Hj] H. split; [by intros ? [= <-]|done..]. Qed.

Lemma program_ok_shield s pool sc : program_ok s -> shield_ok pool sc -> program_ok (set_shield s pool sc).
Proof. intros [Hg Hs Hj] H. split; [done| |done]. by apply map_Forall_insert_2. Qed.

Lemma program_ok_guard s k g : program_ok s -> guard_ok k g -> program_ok (set_guard s k g).
Proof. intros [Hg Hs Hj] H. split; [done..|]. by apply map_Forall_insert_2. Qed.

#[local] Hint Resolve program_ok_global program_ok_shield program_ok_guard : core.

(** What the treasury has been sent, in the program's own books. *)
Definition routed (s : Program) : Z := from_option total_treasury_routed 0 (global_shield s).

Definition to_treasury (l : list Transfer) : Prop :=
  Forall (fun t => tr_to t = TIPY_TREASURY /\ 0 < tr_amount t) l.

Lemma exec_ok slot i s s' l :
  step_typed (slot, i) -> program_ok s -> exec slot i s = Ok (s', l) ->
  program_ok s' /\ to_treasury l /\ routed s' = usat 64 (routed s + moved_to TIPY_TREASURY l).
Proof.
  intros [Hslot Ht] Hs. cbn [fst snd] in *.
  assert (forall g, global_shield s = Some g -> usat 64 (total_treasury_routed g + 0) = total_treasury_routed g) as H0.
  { intros g Hg. rewrite Z.add_0_r. apply usat_id. by destruct (po_global _ Hs g Hg). }
  assert (usat 64 (routed s + 0) = routed s) as Hr0.
  { unfold routed. destruct (global_shield s) eqn:Hg; [by apply H0|done]. }
  assert (forall s1, @Ok ShieldError _ (s1, []) = Ok (s', l) -> program_ok s1 -> routed s1 = routed s ->
    program_ok s' /\ to_treasury l /\ routed s' = usat 64 (routed s + moved_to TIPY_TREASURY l)) as Hquiet.
  { intros s1 [= -> <-] Hs1 Hr. split; [done|]. split; [constructor|]. cbn. by rewrite Hr0. }
  destruct i as [admin|admin pool c|o pool mint lock|o pool mint|o pool mint|sg pool v tv amount|sg pool u|pool];
    cbn [exec]; intros H.
  - apply obind_Ok in H as (? & Hv%require_Ok & H). apply (Hquiet _ H); [auto using initialize_global_ok|].
    unfold routed. by destruct (global_shield s).
  - apply obind_Ok in H as (g & Hg%account_Ok & H). apply obind_Ok in H as (? & _ & H).
    apply obind_Ok in H as ([sc g'] & Hi & H).
    destruct (initialize_shield_ok _ _ _ _ _ Ht (po_global _ Hs _ Hg) Hi) as (H1 & H2 & H3).
    apply (Hquiet _ H); [auto|]. unfold routed. by rewrite Hg.
  - apply obind_Ok in H as (sc & Hsc%account_Ok & H). apply obind_Ok in H as (? & _ & H).
    apply obind_Ok in H as (jg & Hj & H). apply (Hquiet _ H); [|done].
    apply program_ok_guard; [done|]. exact (handler_init_guard_ok _ _ _ _ _ _ Ht (po_shields _ Hs _ _ Hsc) Hj).
  - apply obind_Ok in H as (jg & Hj%account_Ok & H). apply obind_Ok in H as (g & Hg%account_Ok & H).
    apply obind_Ok in H as ([[jg' g'] r] & Hc & H). apply obind_Ok in H as (u & Hr & H).
    destruct (handler_check_jit_ok _ _ _ _ _ _ (po_guards _ Hs _ _ Hj) (po_global _ Hs _ Hg) Hc Hr) as [H1 H2].
    cbn [fst snd] in H1, H2. subst g'. apply (Hquiet _ H); [|unfold routed; by rewrite Hg].
    apply program_ok_guard; [|done]. apply program_ok_global; [done|]. exact (po_global _ Hs _ Hg).
  - apply obind_Ok in H as (jg & Hj%account_Ok & H). apply (Hquiet _ H); [|done].
    apply program_ok_guard; [done|]. by destruct (po_guards _ Hs _ _ Hj).
  - apply obind_Ok in H as (sc & Hsc%account_Ok & H). apply obind_Ok in H as (g & Hg%account_Ok & H).
    apply obind_Ok in H as ([[sc' g'] l'] & He & H). injection H as <- <-.
    pose proof (po_shields _ Hs _ _ Hsc) as Hok. pose proof (po_global _ Hs _ Hg) as Hgok.
    destruct (execute_arb_sweep_ok _ _ _ _ _ _ _ _ _ Hok Hgok Ht Hslot He) as [H1 H2].
    destruct (execute_arb_sweep_Ok _ _ _ _ _ _ _ _ _ Hok Ht He) as (_ & _ & _ & _ & Hx & [= -> -> ->]).
    split; [auto|]. split; [by constructor|]. unfold routed. rewrite Hg. cbn. rewrite Z.eqb_refl. f_equal. lia.
  - apply obind_Ok in H as (sc & Hsc%account_Ok & H). apply obind_Ok in H as (sc' & Hu & H).
    destruct (update_shield_config_ok _ _ _ _ _ Ht (po_shields _ Hs _ _ Hsc) Hu) as (H1 & _).
    by apply (Hquiet _ H); [auto|].
  - apply obind_Ok in H as (? & _ & H). apply obind_Ok in H as (? & _ & H). by apply (Hquiet _ H).
Qed.

Lemma transaction_ok s slot i :
  step_typed (slot, i) -> program_ok s ->
  let r := transaction s slot i in
  program_ok (fst r) /\ to_treasury (snd r) /\
  routed (fst r) = usat 64 (routed s + moved_to TIPY_TREASURY (snd r)).
Proof.
  intros Ht Hs. unfold transaction. destruct (exec slot i s) as [[s' l]| |] eqn:He;
    [exact (exec_ok _ _ _ _ _ Ht Hs He)|..];
    (split; [done|]; split; [constructor|]; cbn; rewrite Z.add_0_r; unfold routed;
     destruct (global_shield s) eqn:Hg; [|done]; symmetry; apply usat_id; by destruct (po_global _ Hs _ Hg)).
Qed.

Lemma moved_to_nonneg l : to_treasury l -> 0 <= moved_to TIPY_TREASURY l.
Proof.
  induction 1 as [|t l [Ht H0] _ IH]; [done|]. cbn [moved_to foldr]. rewrite Ht, Z.eqb_refl.
  unfold moved_to in IH. lia.
Qed.

Lemma usat_add w x y z : 0 <= y -> 0 <= z -> 0 <= x -> usat w (usat w (x + y) + z) = usat w (x + (y + z)).
Proof. unfold usat. lia. Qed.

Lemma run_all_ok l s :
  Forall step_typed l -> program_ok s ->
  let r := run_all s l in
  program_ok (fst r) /\ to_treasury (snd r) /\
  routed (fst r) = usat 64 (routed s + moved_to TIPY_TREASURY (snd r)).
Proof.
  revert s. induction l as [|[slot i] l IH]; intros s Hl Hs.
  - split; [done|]. split; [constructor|]. cbn. rewrite Z.add_0_r. unfold routed.
    destruct (global_shield s) eqn:Hg; [|done]. symmetry. apply usat_id. by destruct (po_global _ Hs _ Hg).
  - apply Forall_cons in Hl as [Ht Hl]. cbn [run_all].
    destruct (transaction_ok s slot i Ht Hs) as (H1 & H2 & H3).
    destruct (transaction s slot i) as [s1 t1]. cbn [fst snd] in *.
    destruct (IH s1 Hl H1) as (H4 & H5 & H6). destruct (run_all s1 l) as [s2 t2]. cbn [fst snd] in *.
    split; [done|]. split; [by apply Forall_app|]. rewrite H6, H3, moved_to_app. apply usat_add.
    + by apply moved_to_nonneg.
    + by apply moved_to_nonneg.
    + unfold routed. destruct (global_shield s) eqn:Hg; [|done]. by destruct (gl_routed _ (po_global _ Hs _ Hg)).
Qed.

Lemma empty_program_ok : program_ok empty_program.
Proof. split; [done| |]; apply map_Forall_empty. Qed.

(** ** The rate of the sweeps *)

(** The terms of a configuration that bound its sweeps. *)
Definition sweep_cap (sc : ShieldConfig) : Z := max_sweep_amount sc * treasury_share_bps sc / 10000.

Definition leaves_config (pool : Pubkey) (i : instr) : Prop :=
  match i with UpdateShieldConfig _ p _ => p <> pool | _ => True end.

Definition sweeps_pool (pool : Pubkey) (i : instr) : bool :=
  match i with ExecuteArbSweep _ p _ _ _ => p =? pool | _ => false end.

(** What the sweeps of one pool send to the treasury in a run. *)
Fixpoint paid_for (pool : Pubkey) (s : Program) (l : list (Z * instr)) : Z :=
  match l with
  | [] => 0
  | (slot, i) :: l =>
      let r := transaction s slot i in
      (if sweeps_pool pool i then moved_to TIPY_TREASURY (snd r) else 0) + paid_for pool (fst r) l
  end.

Lemma sweep_cap_spec sc amount pool :
  shield_ok pool sc -> amount <= max_sweep_amount sc -> amount * treasury_share_bps sc / 10000 <= sweep_cap sc.
Proof. intros Hs Ha. pose proof (so_share _ _ Hs). apply Z.div_le_mono; nia. Qed.

(** A transaction that does not update the configuration of [pool] leaves the
    terms; it is either a sweep, after the cooldown and within the cap, or pays
    nothing for the pool and leaves the slot of the last sweep. *)
Lemma transaction_sweep s slot i pool sc :
  step_typed (slot, i) -> program_ok s -> shields s !! pool = Some sc -> leaves_config pool i ->
  let r := transaction s slot i in
  exists sc', shields (fst r) !! pool = Some sc' /\ cooldown_slots sc' = cooldown_slots sc /\
    sweep_cap sc' = sweep_cap sc /\
    ((last_sweep_slot sc' = last_sweep_slot sc /\
      (if sweeps_pool pool i then moved_to TIPY_TREASURY (snd r) else 0) = 0) \/
     (last_sweep_slot sc' = slot /\ last_sweep_slot sc + cooldown_slots sc <= slot /\
      (if sweeps_pool pool i then moved_to TIPY_TREASURY (snd r) else 0) <= sweep_cap sc)).
Proof.
  intros [_ Ht] Hs Hp Hi. cbn [snd] in Ht. unfold transaction.
  assert (forall s1 l1, shields s1 !! pool = Some sc -> sweeps_pool pool i = false \/ l1 = [] ->
    exists sc', shields (fst (s1, l1)) !! pool = Some sc' /\ cooldown_slots sc' = cooldown_slots sc /\
      sweep_cap sc' = sweep_cap sc /\
      ((last_sweep_slot sc' = last_sweep_slot sc /\
        (if sweeps_pool pool i then moved_to TIPY_TREASURY (snd (s1, l1)) else 0) = 0) \/
       (last_sweep_slot sc' = slot /\ last_sweep_slot sc + cooldown_slots sc <= slot /\
        (if sweeps_pool pool i then moved_to TIPY_TREASURY (snd (s1, l1)) else 0) <= sweep_cap sc))) as Hquiet.
  { intros s1 l1 H [->| ->]; exists sc; repeat split; try done; left; split; try done. by destruct (sweeps_pool pool i). }
  destruct (exec slot i s) as [[s' l]| |] eqn:H; [|apply Hquiet; auto..].
  destruct i as [admin|admin p c|o p mint lock|o p mint|o p mint|sg p v tv amount|sg p u|p];
    cbn [exec leaves_config] in *.
  - apply obind_Ok in H as (? & _ & [= <- <-]). apply Hquiet; auto.
  - apply obind_Ok in H as (g & _ & H). apply obind_Ok in H as (? & Hv%require_Ok & H).
    apply obind_Ok in H as ([sc1 g'] & _ & [= <- <-]). apply Hquiet; [|auto]. cbn.
    rewrite lookup_insert_ne; [done|]. intros ->. by rewrite Hp in Hv.
  - apply obind_Ok in H as (? & _ & H). apply obind_Ok in H as (? & _ & H).
    apply obind_Ok in H as (? & _ & [= <- <-]). apply Hquiet; auto.
  - apply obind_Ok in H as (? & _ & H). apply obind_Ok in H as (? & _ & H).
    apply obind_Ok in H as ([[? ?] ?] & _ & H). apply obind_Ok in H as (? & _ & [= <- <-]). apply Hquiet; auto.
  - apply obind_Ok in H as (? & _ & [= <- <-]). apply Hquiet; auto.
  - apply obind_Ok in H as (sc1 & Hsc%account_Ok & H). apply obind_Ok in H as (g & Hg & H).
    apply obind_Ok in H as ([[sc2 g'] l'] & He & [= <- <-]).
    destruct (Z.eqb_spec p pool) as [->|Hne].
    + rewrite Hp in Hsc. injection Hsc as <-. pose proof (po_shields _ Hs _ _ Hp) as Hok.
      destruct (execute_arb_sweep_Ok _ _ _ _ _ _ _ _ _ Hok Ht He) as (_ & _ & Hc & Ha & Hx & [= -> -> ->]).
      eexists. split; [apply lookup_insert_eq|]. repeat split. right. repeat split; [done|].
      cbn [sweeps_pool]. rewrite Z.eqb_refl. cbn. rewrite Z.eqb_refl, Z.add_0_r.
      exact (sweep_cap_spec _ _ _ Hok (proj2 Ha)).
    + apply Hquiet; [cbn; by rewrite lookup_insert_ne|]. left. cbn. by apply Z.eqb_neq.
  - apply obind_Ok in H as (sc1 & _ & H). apply obind_Ok in H as (sc2 & _ & [= <- <-]).
    apply Hquiet; [cbn; by rewrite lookup_insert_ne|auto].
  - apply obind_Ok in H as (? & _ & H). apply obind_Ok in H as (? & _ & [= <- <-]). apply Hquiet; auto.
Qed.

(** * Properties *)

(** C39: The books of the program: after any sequence of transactions from its
    deployment, every stored configuration is well formed - it pays the fixed
    treasury, its share is at most 100%, its spread positive, its window at
    least 15 seconds, its sweep range not empty, its lock at most 100 slots -,
    every guard locks for at most 100 slots, all transfers ever asked for went
    to the treasury, and the total of the global account is exactly their sum
    (up to the saturation of the counter); nothing is ever counted as blocked. *)
Theorem shield_books_exact l :
  Forall step_typed l ->
  let r := run_all empty_program l in
  program_ok (fst r) /\
  Forall (fun t => tr_to t = TIPY_TREASURY /\ 0 < tr_amount t) (snd r) /\
  from_option total_treasury_routed 0 (global_shield (fst r)) =
    Z.min (umax 64) (moved_to TIPY_TREASURY (snd r)).
Proof.
  intros Hl r. destruct (run_all_ok l empty_program Hl empty_program_ok) as (H1 & H2 & H3).
  split; [done|]. split; [exact H2|]. change (routed (fst r) = Z.min (umax 64) (moved_to TIPY_TREASURY (snd r))).
  subst r. rewrite H3. pose proof (moved_to_nonneg _ H2). unfold usat, umax.
  change (routed empty_program) with 0. lia.
Qed.

(** The rate of the sweeps of a pool: in any sequence of transactions up to
    slot [t] that does not update the configuration of the pool, the sweeps of
    the pool are a cooldown apart, counted from the last one before, and each
    pays at most the share of the largest sweep; so what they take is bounded
    by the time, whoever signs and whatever the market. *)
Theorem sweeps_rate_limited l s pool sc t :
  program_ok s -> shields s !! pool = Some sc -> Forall step_typed l ->
  Forall (fun x => fst x <= t /\ leaves_config pool (snd x)) l -> 0 < cooldown_slots sc ->
  paid_for pool s l <= Z.max 0 (t - last_sweep_slot sc) / cooldown_slots sc * sweep_cap sc.
Proof.
  revert s sc. induction l as [|[slot i] l IH]; intros s sc Hs Hp Hl Hlv Hc; cbn [paid_for].
  - pose proof (po_shields _ Hs _ _ Hp) as Hok.
    apply Z.mul_nonneg_nonneg; [apply Z.div_pos; lia|].
    pose proof (so_share _ _ Hok). pose proof (so_range _ _ Hok). apply Z.div_pos; nia.
  - apply Forall_cons in Hl as [Ht Hl]. apply Forall_cons in Hlv as [[Hslot Hlv] Hlvs]. cbn [fst snd] in *.
    destruct (transaction_ok s slot i Ht Hs) as (Hs1 & _).
    destruct (transaction_sweep s slot i pool sc Ht Hs Hp Hlv) as (sc' & Hp' & Hcd & Hcap & Hstep).
    specialize (IH (fst (transaction s slot i)) sc' Hs1 Hp' Hl Hlvs ltac:(lia)).
    rewrite Hcd, Hcap in IH. destruct Hstep as [[Hlast ->]|(Hlast & Hge & Hle)].
    + rewrite Hlast in IH. lia.
    + assert (Z.max 0 (t - last_sweep_slot sc') / cooldown_slots sc + 1
               <= Z.max 0 (t - last_sweep_slot sc) / cooldown_slots sc) as Hq.
      { rewrite <- (Z.div_add _ 1) by lia. apply Z.div_le_mono; lia. }
      assert (0 <= sweep_cap sc) as Hcap0.
      { pose proof (po_shields _ Hs _ _ Hp) as Hok.
        pose proof (so_share _ _ Hok). pose proof (so_range _ _ Hok). apply Z.div_pos; nia. }
      nia.
Qed.

(** A lock can be renewed by anybody: [record_jit_add] only asks for a
    signature, so whoever sends it for the position of another at [slot] makes
    every removal of that position fail with [JitBackRunDetected] until
    [min_lock_slots] slots later - and can send it again before. *)
Theorem lock_renewed_by_anyone s pool mint g gl who owner slot slot' :
  program_ok s -> guards s !! (pool, mint) = Some g -> global_shield s = Some gl ->
  0 <= slot -> slot + MAX_LOCK_SLOTS < 2 ^ 64 -> slot <= slot' < slot + min_lock_slots g ->
  exec slot' (CheckJitProtection owner pool mint)
    (fst (transaction s slot (RecordJitAdd who pool mint))) = Err JitBackRunDetected.
Proof.
  intros Hs Hg Hgl H0 Hmax Ht. pose proof (go_lock _ _ (po_guards _ Hs _ _ Hg)) as Hlock.
  unfold transaction. cbn [exec]. rewrite Hg. cbn [account Prelude.ok_or obind fst set_guard guards global_shield].
  rewrite lookup_insert_eq, Hgl. cbn [account Prelude.ok_or obind].
  unfold handler_check_jit, can_remove, handler_record_add, record_add, MAX_LOCK_SLOTS in *.
  cbn [last_add_slot min_lock_slots]. rewrite uchk_ok by (unfold in_u; lia). cbn [obind].
  destruct (Z.leb_spec (slot + min_lock_slots g) slot'); [lia|].
  by rewrite uchk_ok by (unfold in_u; lia).
Qed.

End Handlers.

(** * Examples *)

Definition sample_config : ShieldInitConfig := mkShieldInitConfig 7 30 2000 60 100 5000 10 50 0.

Definition sample_run : list (Z * instr) :=
  [(1, InitializeGlobal 5); (2, InitializeShield 5 11 sample_config); (3, InitJitGuard 8 11 12 0);
   (20, ExecuteArbSweep 7 11 90 99 5000); (25, ExecuteArbSweep 7 11 90 99 5000);
   (30, ExecuteArbSweep 7 11 90 99 1000)].

Lemma sample_run_typed : Forall step_typed sample_run.
Proof.
  repeat constructor; cbn; unfold in_u; lia.
Qed.

(** The second sweep comes before its time and pays nothing. *)
Lemma shield_books_exact_witness :
  Forall (fun t => tr_to t = 99 /\ 0 < tr_amount t) (snd (run_all 99 empty_program sample_run)) /\
  map tr_amount (snd (run_all 99 empty_program sample_run)) = [1000; 200].
Proof.
  destruct (shield_books_exact 99 sample_run sample_run_typed) as (_ & H & _).
  split; [exact H|]. vm_compute. reflexivity.
Defined.

Definition sample_program : Program := fst (run_all 99 empty_program (take 3 sample_run)).

Lemma sample_program_ok : program_ok 99 sample_program.
Proof.
  exact (proj1 (run_all_ok 99 (take 3 sample_run) empty_program
    (Forall_take _ _ _ sample_run_typed) (empty_program_ok 99))).
Qed.

Lemma sweeps_rate_limited_witness :
  paid_for 99 11 sample_program (drop 3 sample_run) = 1200 /\
  paid_for 99 11 sample_program (drop 3 sample_run) <= 3000.
Proof.
  split; [vm_compute; reflexivity|].
  destruct (shields sample_program !! 11) as [sc|] eqn:Hsc; [|vm_compute in Hsc; discriminate Hsc].
  assert (cooldown_slots sc = 10 /\ last_sweep_slot sc = 0 /\ sweep_cap sc = 1000) as (Hc & Hl & Hcap).
  { vm_compute in Hsc. injection Hsc as <-. repeat split. }
  pose proof (sweeps_rate_limited 99 (drop 3 sample_run) sample_program 11 sc 30
    sample_program_ok Hsc (Forall_drop _ _ _ sample_run_typed)) as H.
  rewrite Hc, Hl, Hcap in H. apply H; [|lia].
  cbn [sample_run drop]. repeat constructor; cbn; lia.
Defined.

Lemma lock_renewed_by_anyone_witness :
  exec 99 44 (CheckJitProtection 8 11 12) (fst (transaction 99 sample_program 40 (RecordJitAdd 6 11 12))) =
    Err JitBackRunDetected.
Proof.
  destruct (guards sample_program !! (11, 12)) as [g|] eqn:Hg; [|vm_compute in Hg; discriminate Hg].
  destruct (global_shield sample_program) as [gl|] eqn:Hgl; [|vm_compute in Hgl; discriminate Hgl].
  assert (min_lock_slots g = 5) as Hlock by (vm_compute in Hg; injection Hg as <-; reflexivity).
  apply (lock_renewed_by_anyone 99 sample_program 11 12 g gl 6 8 40 44 sample_program_ok Hg Hgl);
    [lia|unfold MAX_LOCK_SLOTS; lia|rewrite Hlock; lia].
Defined.
