(* ===== verification/NftPosition.v ===== *)
(** The position tokens [programs/nebula-nft-position]: [state.rs], [error.rs]
    and the four instructions.

    A record is an account derived from the mint of its token, so the records
    are a map from mints.  The token program and the transfer of lamports are
    parameters ([PositionTokens]); an error of theirs aborts the instruction
    ([TokenError]).  Bumps, rent, associated-account creation and events are
    left out. *)
From stdpp Require Import gmap.
From S2P Require Import Prelude.
From S2P Require Import Config.

(** ** error.rs *)

(** The last two are no errors of the program: a failed cross-program call and
    an account constraint without an error of its own. *)
Inductive NftError : Set :=
| NftNotTransferable | NotPositionOwner | InvalidPoolId | PositionAlreadyMinted
| InvalidTreasury | Unauthorized
| TokenError | NftConstraint.

Definition NResult := outcome NftError.

(** ** state.rs *)

Record NftPositionRecord := mkNftPositionRecord {
  nft_mint : Pubkey;
  pool_id : Pubkey;
  nft_tick_lower : Z;
  nft_tick_upper : Z;
  nft_owner : Pubkey;
  transferable : bool;
}.

(** ** The token program, as far as the program calls it *)

Class PositionTokens := {
  tokens : Type;
  (** The balance of the associated account of an owner for a mint. *)
  held : tokens -> Pubkey -> Pubkey -> Z;
  mint_exists : tokens -> Pubkey -> Prop;
  (** [init] of the mint, with its authority. *)
  create_mint : tokens -> Pubkey -> Pubkey -> option tokens;
  (** [mint_to], [burn] (mint, owner and authority, amount) and [transfer]
      (mint, from, to, amount). *)
  mint_to : tokens -> Pubkey -> Pubkey -> Z -> option tokens;
  burn : tokens -> Pubkey -> Pubkey -> Z -> option tokens;
  transfer : tokens -> Pubkey -> Pubkey -> Pubkey -> Z -> option tokens;
  (** The system program: lamports from one account to another. *)
  pay_lamports : tokens -> Pubkey -> Pubkey -> Z -> option tokens;
}.

(** Documented behaviour: an account is created once and a mint is never
    closed; a burn and a transfer need the tokens, and a transfer moves them. *)
Record position_token_laws {P : PositionTokens} : Prop := {
  pt_create t m a t' : create_mint t m a = Some t' -> ~ mint_exists t m /\ mint_exists t' m;
  pt_create_keeps t m a t' k : create_mint t m a = Some t' -> mint_exists t k -> mint_exists t' k;
  pt_mint_keeps t m o x t' k : mint_to t m o x = Some t' -> mint_exists t k -> mint_exists t' k;
  pt_burn_keeps t m o x t' k : burn t m o x = Some t' -> mint_exists t k -> mint_exists t' k;
  pt_transfer_keeps t m a b x t' k : transfer t m a b x = Some t' -> mint_exists t k -> mint_exists t' k;
  pt_pay_keeps t a b x t' k : pay_lamports t a b x = Some t' -> (mint_exists t' k <-> mint_exists t k);
  pt_burn_held t m o x t' : burn t m o x = Some t' -> x <= held t m o;
  pt_transfer_held t m a b x t' : transfer t m a b x = Some t' -> x <= held t m a;
}.

Section Program.
Context {P : PositionTokens} (TIPY_TREASURY NEBULA_ADMIN : Pubkey).

Definition MINT_FEE_LAMPORTS : Z := 1000000.

(** The accounts of the program and the state of the token program. *)
Record World := mkWorld { records : gmap Pubkey NftPositionRecord; ledger : tokens }.

Definition token_ok {A} (o : option A) : NResult A := ok_or o TokenError.
Definition record_at (w : World) (m : Pubkey) : NResult NftPositionRecord :=
  ok_or (records w !! m) NftConstraint.

(** [mint_nft.rs]: the mint is created before the handler runs. *)
Definition mint_position_nft (owner mint tipy pool : Pubkey) (tick_lower tick_upper : Z) (w : World) :
    NResult World :=
  let! t := token_ok (create_mint (ledger w) mint owner) in
  do! require (match records w !! mint with None => true | Some _ => false end) NftConstraint in
  do! require (tipy =? TIPY_TREASURY) InvalidTreasury in
  do! require (tick_lower <? tick_upper) InvalidPoolId in
  let! t := token_ok (pay_lamports t owner tipy MINT_FEE_LAMPORTS) in
  let! t := token_ok (mint_to t mint owner 1) in
  Ok (mkWorld (<[mint := mkNftPositionRecord mint pool tick_lower tick_upper owner false]> (records w)) t).

(** [burn_nft.rs]: the record is closed when the handler returns. *)
Definition burn_position_nft (owner mint : Pubkey) (w : World) : NResult World :=
  let! r := record_at w mint in
  do! require (nft_owner r =? owner) NotPositionOwner in
  let! t := token_ok (burn (ledger w) mint owner 1) in
  Ok (mkWorld (delete mint (records w)) t).

(** [set_transferable.rs] *)
Definition set_transferable (admin mint : Pubkey) (value : bool) (w : World) : NResult World :=
  let! r := record_at w mint in
  do! require (admin =? NEBULA_ADMIN) Unauthorized in
  Ok (mkWorld (<[mint := mkNftPositionRecord (nft_mint r) (pool_id r) (nft_tick_lower r)
                           (nft_tick_upper r) (nft_owner r) value]> (records w)) (ledger w)).

(** [transfer_position.rs] *)
Definition transfer_position (owner mint new_owner : Pubkey) (w : World) : NResult World :=
  let! r := record_at w mint in
  do! require (transferable r) NftNotTransferable in
  do! require (nft_owner r =? owner) NotPositionOwner in
  let! t := token_ok (transfer (ledger w) mint owner new_owner 1) in
  Ok (mkWorld (<[mint := mkNftPositionRecord (nft_mint r) (pool_id r) (nft_tick_lower r)
                           (nft_tick_upper r) new_owner (transferable r)]> (records w)) t).

(** ** Steps: an instruction that succeeds, or anything anybody does with the
    token program directly. *)

Inductive nft_instr :=
| MintNft (owner mint tipy pool : Pubkey) (tick_lower tick_upper : Z)
| BurnNft (owner mint : Pubkey)
| SetTransferable (admin mint : Pubkey) (value : bool)
| TransferNft (owner mint new_owner : Pubkey).

Definition nft_exec (i : nft_instr) (w : World) : NResult World :=
  match i with
  | MintNft o m tipy p l u => mint_position_nft o m tipy p l u w
  | BurnNft o m => burn_position_nft o m w
  | SetTransferable a m v => set_transferable a m v w
  | TransferNft o m n => transfer_position o m n w
  end.

Inductive nft_step : option nft_instr -> World -> World -> Prop :=
| step_instr i w w' : nft_exec i w = Ok w' -> nft_step (Some i) w w'
| step_tokens w t : (forall m, mint_exists (ledger w) m -> mint_exists t m) ->
    nft_step None w (mkWorld (records w) t).

Inductive nft_steps : list (option nft_instr) -> World -> World -> Prop :=
| steps_nil w : nft_steps [] w w
| steps_cons i l w w1 w2 : nft_step i w w1 -> nft_steps l w1 w2 -> nft_steps (i :: l) w w2.

(** * Invariants *)

(** A record belongs to an existing mint, under its key, with a range. *)
Record world_ok (w : World) : Prop := {
  wo_key m r : records w !! m = Some r -> nft_mint r = m /\ nft_tick_lower r < nft_tick_upper r;
  wo_mint m r : records w !! m = Some r -> mint_exists (ledger w) m;
}.

Lemma record_at_Ok w m r : record_at w m = Ok r <-> records w !! m = Some r.
Proof. apply ok_or_Ok. Qed.

Lemma token_ok_Ok {A} (o : option A) a : token_ok o = Ok a <-> o = Some a.
Proof. apply ok_or_Ok. Qed.

Section Laws.
Context (Hlaws : position_token_laws).

(** The four handlers, by what they do to the record of each mint; a mint in
    use stays in use. *)
Lemma nft_exec_Ok i w w' :
  nft_exec i w = Ok w' ->
  (forall k, mint_exists (ledger w) k -> mint_exists (ledger w') k) /\
  match i with
  | MintNft o m tipy p l u =>
      ~ mint_exists (ledger w) m /\ mint_exists (ledger w') m /\ tipy = TIPY_TREASURY /\ l < u /\
      records w !! m = None /\ records w' = <[m := mkNftPositionRecord m p l u o false]> (records w)
  | BurnNft o m =>
      exists r, records w !! m = Some r /\ nft_owner r = o /\ 1 <= held (ledger w) m o /\
        records w' = delete m (records w)
  | SetTransferable a m v =>
      exists r, records w !! m = Some r /\ a = NEBULA_ADMIN /\
        records w' = <[m := mkNftPositionRecord (nft_mint r) (pool_id r) (nft_tick_lower r)
                              (nft_tick_upper r) (nft_owner r) v]> (records w)
  | TransferNft o m n =>
      exists r, records w !! m = Some r /\ nft_owner r = o /\ transferable r = true /\
        1 <= held (ledger w) m o /\
        records w' = <[m := mkNftPositionRecord (nft_mint r) (pool_id r) (nft_tick_lower r)
                              (nft_tick_upper r) n true]> (records w)
  end.
Proof.
  destruct i as [o m tipy p l u|o m|a m v|o m n]; cbn [nft_exec]; intros H.
  - unfold mint_position_nft in H. apply obind_Ok in H as (t1 & H1%token_ok_Ok & H).
    apply obind_Ok in H as (? & Hv%require_Ok & H). apply obind_Ok in H as (? & Ht%require_Ok & H).
    apply obind_Ok in H as (? & Hlu%require_Ok & H). apply obind_Ok in H as (t2 & H2%token_ok_Ok & H).
    apply obind_Ok in H as (t3 & H3%token_ok_Ok & [= <-]). apply Z.eqb_eq in Ht. apply Z.ltb_lt in Hlu.
    pose proof (pt_create Hlaws _ _ _ _ H1) as [Hn He]. cbn [ledger records].
    assert (forall k, mint_exists t1 k -> mint_exists t3 k) as H13.
    { intros k Hk. apply (pt_mint_keeps Hlaws _ _ _ _ _ _ H3). by apply (pt_pay_keeps Hlaws _ _ _ _ _ _ H2). }
    split; [intros k Hk; by apply H13, (pt_create_keeps Hlaws _ _ _ _ _ H1)|].
    repeat split; auto. by destruct (records w !! m).
  - apply obind_Ok in H as (r & Hr%record_at_Ok & H). apply obind_Ok in H as (? & Ho%require_Ok & H).
    apply obind_Ok in H as (t & Hb%token_ok_Ok & [= <-]). apply Z.eqb_eq in Ho.
    split; [intros k; exact (pt_burn_keeps Hlaws _ _ _ _ _ _ Hb)|].
    exists r. repeat split; auto. exact (pt_burn_held Hlaws _ _ _ _ _ Hb).
  - apply obind_Ok in H as (r & Hr%record_at_Ok & H). apply obind_Ok in H as (? & Ha%require_Ok & [= <-]).
    apply Z.eqb_eq in Ha. split; [done|]. by exists r.
  - apply obind_Ok in H as (r & Hr%record_at_Ok & H). apply obind_Ok in H as (? & Ht%require_Ok & H).
    apply obind_Ok in H as (? & Ho%require_Ok & H). apply obind_Ok in H as (t & Hb%token_ok_Ok & [= <-]).
    apply Z.eqb_eq in Ho. split; [intros k; exact (pt_transfer_keeps Hlaws _ _ _ _ _ _ _ Hb)|].
    exists r. rewrite Ht. repeat split; auto. exact (pt_transfer_held Hlaws _ _ _ _ _ _ Hb).
Qed.

Lemma nft_step_ok i w w' : nft_step i w w' -> world_ok w -> world_ok w'.
Proof.
  intros [i' w1 w2 H|w1 t Ht] [Hk Hm]; [|by split; [|intros m r Hr; apply Ht, (Hm m r Hr)]].
  apply nft_exec_Ok in H as [Hkeep H].
  assert (forall m r, records w1 !! m = Some r -> mint_exists (ledger w2) m) as Hold
    by (intros m r Hr; exact (Hkeep m (Hm m r Hr))).
  destruct i' as [o m tipy p l u|o m|a m v|o m n].
  - destruct H as (_ & He & _ & Hlu & _ & E). split; intros k r; rewrite E;
      (destruct (decide (k = m)) as [->|]; [rewrite lookup_insert_eq|rewrite lookup_insert_ne by done]);
      first [by intros [= <-] | eauto].
  - destruct H as (r0 & _ & _ & _ & E). split; intros k r; rewrite E; intros [_ Hr]%lookup_delete_Some; eauto.
  - destruct H as (r0 & H0 & _ & E). split; intros k r; rewrite E;
      (destruct (decide (k = m)) as [->|]; [rewrite lookup_insert_eq|rewrite lookup_insert_ne by done]);
      first [by intros [= <-]; cbn; eauto | eauto].
  - destruct H as (r0 & H0 & _ & _ & _ & E). split; intros k r; rewrite E;
      (destruct (decide (k = m)) as [->|]; [rewrite lookup_insert_eq|rewrite lookup_insert_ne by done]);
      first [by intros [= <-]; cbn; eauto | eauto].
Qed.

(** * Properties *)

Definition unlocks (m : Pubkey) (i : option nft_instr) : bool :=
  match i with Some (SetTransferable _ k true) => k =? m | _ => false end.

(** One step that does not unlock [m] leaves its soulbound record, or burns it. *)
Lemma soulbound_step i w w' m r :
  nft_step i w w' -> world_ok w -> unlocks m i = false ->
  records w !! m = Some r -> transferable r = false ->
  records w' !! m = Some r \/ (records w' !! m = None /\ i = Some (BurnNft (nft_owner r) m)).
Proof.
  intros [i' w1 w2 H|w1 t _] Hok Hu Hr Hs; [|by left]. apply nft_exec_Ok in H as [_ H].
  destruct i' as [o k tipy p l u|o k|a k v|o k n].
  - destruct H as (Hn & _ & _ & _ & _ & ->). left. rewrite lookup_insert_ne; [done|].
    intros ->. apply Hn. exact (wo_mint _ Hok _ _ Hr).
  - destruct H as (r0 & H0 & <- & _ & ->). destruct (decide (k = m)) as [->|].
    + right. rewrite lookup_delete_eq. split; [done|]. rewrite Hr in H0. by injection H0 as <-.
    + left. by rewrite lookup_delete_ne.
  - destruct H as (r0 & H0 & _ & ->). destruct (decide (k = m)) as [->|].
    + left. rewrite lookup_insert_eq, Hr in *. injection H0 as <-. cbn in Hu. rewrite Z.eqb_refl in Hu.
      destruct r, v; [done|]. cbn in *. by subst.
    + left. by rewrite lookup_insert_ne.
  - destruct H as (r0 & H0 & _ & Ht & _ & ->). left. rewrite lookup_insert_ne; [done|].
    intros ->. rewrite Hr in H0. injection H0 as <-. congruence.
Qed.

(** Once burnt, the record of a mint never comes back. *)
Lemma burnt_steps l w w' m :
  nft_steps l w w' -> mint_exists (ledger w) m -> records w !! m = None -> records w' !! m = None.
Proof.
  induction 1 as [w|i l w w1 w2 [i' w0 w' H|w0 t Ht] _ IH]; intros Hm Hn; [done| |apply IH; [by apply Ht|done]].
  apply nft_exec_Ok in H as [Hkeep H]. apply IH; [by apply Hkeep|].
  destruct i' as [o k tipy p lo u|o k|a k v|o k n].
  - destruct H as (Hno & _ & _ & _ & _ & ->). rewrite lookup_insert_ne; [done|]. by intros ->.
  - destruct H as (r0 & _ & _ & _ & ->). by apply lookup_delete_None; right.
  - destruct H as (r0 & H0 & _ & ->). rewrite lookup_insert_ne; [done|]. intros ->. congruence.
  - destruct H as (r0 & H0 & _ & _ & _ & ->). rewrite lookup_insert_ne; [done|]. intros ->. congruence.
Qed.

(** A soulbound position stays with its owner: whatever instructions and
    whatever use of the token program follow, as long as the admin does not
    unlock it, the record of a position that is not transferable keeps its
    pool, its range and its owner, or has been burnt for good, which only the
    owner can do; minting the same position again is impossible. *)
Theorem soulbound_record_fixed l w w' m r :
  nft_steps l w w' -> world_ok w -> Forall (fun i => unlocks m i = false) l ->
  records w !! m = Some r -> transferable r = false ->
  records w' !! m = Some r \/
  (records w' !! m = None /\ In (Some (BurnNft (nft_owner r) m)) l).
Proof.
  induction 1 as [w|i l w w1 w2 Hi Hl IH]; intros Hok Hu Hr Hs; [by left|].
  apply Forall_cons in Hu as [Hu Hul].
  destruct (soulbound_step i w w1 m r Hi Hok Hu Hr Hs) as [Hr'|[Hn ->]].
  - destruct (IH (nft_step_ok _ _ _ Hi Hok) Hul Hr' Hs) as [|[? ?]]; [by left|]. right. split; [done|]. by right.
  - right. split; [|by left]. apply (burnt_steps l w1 w2 m Hl); [|done].
    inversion Hi as [i' ? ? H|]; subst. apply nft_exec_Ok in H as [Hk _]. apply Hk. exact (wo_mint _ Hok _ _ Hr).
Qed.

(** The record does not follow the token: when the owner has sent the token
    away with the token program, nobody can transfer or burn the position any
    more - not the owner of the record, who no longer holds the token, nor the
    holder of the token, who is not the owner of the record. *)
Theorem record_stuck_without_token w t m r who new :
  records w !! m = Some r -> held t m (nft_owner r) = 0 ->
  is_ok (transfer_position who m new (mkWorld (records w) t)) = false /\
  is_ok (burn_position_nft who m (mkWorld (records w) t)) = false.
Proof.
  intros Hr Hh. split.
  - destruct (transfer_position who m new _) as [w'| |] eqn:H; [|done..]. exfalso.
    destruct (nft_exec_Ok (TransferNft who m new) _ _ H) as [_ (r' & Hr' & <- & _ & H1 & _)].
    cbn in *. rewrite Hr in Hr'. injection Hr' as <-. lia.
  - destruct (burn_position_nft who m _) as [w'| |] eqn:H; [|done..]. exfalso.
    destruct (nft_exec_Ok (BurnNft who m) _ _ H) as [_ (r' & Hr' & <- & H1 & _)].
    cbn in *. rewrite Hr in Hr'. injection Hr' as <-. lia.
Qed.

End Laws.
End Program.

(** * Examples *)

(** A token program: the mints and the balances per mint and owner. *)
Module SimpleTokens.
Record Ledger := mkLedger { mints : gset Pubkey; balances : gmap (Pubkey * Pubkey) Z }.

Definition balance (t : Ledger) (m o : Pubkey) : Z := default 0 (balances t !! (m, o)).

Definition put (t : Ledger) (m o : Pubkey) (x : Z) : Ledger := mkLedger (mints t) (<[(m, o) := x]> (balances t)).

Definition take (t : Ledger) (m o : Pubkey) (x : Z) : option Ledger :=
  if decide (x <= balance t m o) then Some (put t m o (balance t m o - x)) else None.

#[local] Instance simple_tokens : PositionTokens := {|
  tokens := Ledger;
  held := balance;
  mint_exists t m := m ∈ mints t;
  create_mint t m _ := if decide (m ∈ mints t) then None else Some (mkLedger ({[m]} ∪ mints t) (balances t));
  mint_to t m o x := Some (put t m o (balance t m o + x));
  burn := take;
  transfer t m a b x := (fun t' => put t' m b (balance t' m b + x)) <$> take t m a x;
  pay_lamports t _ _ _ := Some t;
|}.

Lemma take_Some t m o x t' : take t m o x = Some t' -> mints t' = mints t /\ x <= balance t m o.
Proof. unfold take. destruct (decide _); [intros [= <-]; by split|done]. Qed.

Lemma simple_tokens_laws : position_token_laws.
Proof.
  split; cbn; intros.
  - destruct (decide (m ∈ mints t)); [done|]. injection H as <-. cbn. set_solver.
  - destruct (decide (m ∈ mints t)); [done|]. injection H as <-. cbn. set_solver.
  - by injection H as <-.
  - apply take_Some in H as [-> _]. done.
  - apply fmap_Some in H as (t1 & [H _]%take_Some & ->). cbn. by rewrite H.
  - by injection H as <-.
  - by apply take_Some in H as [_ H].
  - apply fmap_Some in H as (t1 & [_ H]%take_Some & _). done.
Qed.

Definition empty_world : World := mkWorld ∅ (mkLedger ∅ ∅).

(** Owner 5 has minted position 20 and tries to hand it over. *)
Definition sample_world : World :=
  match nft_exec 99 98 (MintNft 5 20 99 7 (-10) 10) empty_world with Ok w => w | _ => empty_world end.

Definition sample_record : NftPositionRecord := mkNftPositionRecord 20 7 (-10) 10 5 false.

(** The same records once the token has been sent away. *)
Definition away_tokens : @tokens simple_tokens := put (ledger sample_world) 20 5 0.
Definition away_world : @World simple_tokens := mkWorld (records sample_world) away_tokens.

Lemma sample_world_ok : world_ok sample_world.
Proof.
  refine (nft_step_ok 99 98 simple_tokens_laws (Some (MintNft 5 20 99 7 (-10) 10)) empty_world _ _ _).
  - by apply step_instr.
  - by split.
Qed.

Lemma soulbound_record_fixed_witness :
  is_ok (nft_exec 99 98 (TransferNft 5 20 6) sample_world) = false /\
  records away_world !! 20 = Some sample_record.
Proof.
  split; [vm_compute; reflexivity|].
  destruct (soulbound_record_fixed 99 98 simple_tokens_laws [None] sample_world
              away_world 20 sample_record) as [H|[H _]].
  - apply (steps_cons _ _ _ _ _ away_world);
      [|apply steps_nil].
    apply step_tokens. intros m Hm. exact Hm.
  - exact sample_world_ok.
  - constructor; [reflexivity|constructor].
  - vm_compute. reflexivity.
  - reflexivity.
  - exact H.
  - vm_compute in H. discriminate H.
Defined.

Lemma record_stuck_without_token_witness :
  is_ok (burn_position_nft 5 20 away_world) = false.
Proof.
  apply (record_stuck_without_token 99 98 simple_tokens_laws sample_world
           away_tokens 20 sample_record 5 6); vm_compute; reflexivity.
Defined.
End SimpleTokens.
