(* ===== verification/RecordUpdate.v ===== *)
(** Updates of one field of a record, for the accounts of [programs/drift],
    which have up to ninety fields.

    [r <| f := v |>] is the record [r] with [v] in the field [f]; [r <| f ; g := v |>]
    updates the field [g] of the record in the field [f].  A record declares its
    constructor applied to its projections ([Eta]), a field its [Setter]. *)
From S2P Require Import Prelude.

(** A record rebuilt from its fields. *)
Class Eta (R : Type) := eta : R -> R.

Class Setter {R E : Type} (f : R -> E) := update_field : (E -> E) -> R -> R.
#[global] Arguments update_field {R E} f {_} u r : simpl nomatch.

(** The setter of the field the goal names. *)
Ltac setter :=
  lazymatch goal with
  | |- @Setter ?R ?E ?f =>
      exact (fun (u : E -> E) (r : R) =>
        ltac:(
          let e := constr:(_ : Eta R) in
          let t := eval hnf in (e r) in
          let p := eval pattern (f r) in t in
          match p with ?h _ => let x := eval cbv beta in (h (u (f r))) in exact x end))
  end.

Declare Scope record_scope.
Delimit Scope record_scope with rec.
#[global] Open Scope record_scope.
Notation "r <| f := v |>" := (update_field f (fun _ => v) r)
  (at level 12, left associativity, f at next level, v at level 200) : record_scope.
Notation "r <| f ; g := v |>" := (update_field f (update_field g (fun _ => v)) r)
  (at level 12, left associativity, f at next level, g at next level, v at level 200) : record_scope.

Section Example.
Record point := mkPoint { abscissa : Z; ordinate : Z }.
#[local] Instance eta_point : Eta point := fun r => mkPoint (abscissa r) (ordinate r).
#[local] Instance set_abscissa : Setter abscissa := ltac:(setter).
#[local] Instance set_ordinate : Setter ordinate := ltac:(setter).

Example set_example p : (p <| ordinate := 3 |> <| abscissa := ordinate p |>) = mkPoint (ordinate p) 3.
Proof. reflexivity. Qed.
End Example.
