(* ===== verification/DriftError.v ===== *)
(** The error type of [programs/drift]: the enum [ErrorCode] of its
    [error.rs], constructor by constructor, and [DriftResult]. *)
From S2P Require Import Prelude.

Inductive ErrorCode : Set :=
| InvalidSpotMarketAuthority | InvalidInsuranceFundAuthority | InsufficientDeposit
| InsufficientCollateral | SufficientCollateral | MaxNumberOfPositions
| AdminControlsPricesDisabled | MarketDelisted | MarketIndexAlreadyInitialized
| UserAccountAndUserPositionsAccountMismatch | UserHasNoPositionInMarket | InvalidInitialPeg
| InvalidRepegRedundant | InvalidRepegDirection | InvalidRepegProfitability
| SlippageOutsideLimit | OrderSizeTooSmall | InvalidUpdateK | AdminWithdrawTooLarge | MathError
| BnConversionError | ClockUnavailable | UnableToLoadOracle | PriceBandsBreached
| ExchangePaused | InvalidWhitelistToken | WhitelistTokenNotFound | InvalidDiscountToken
| DiscountTokenNotFound | ReferrerNotFound | ReferrerStatsNotFound | ReferrerMustBeWritable
| ReferrerStatsMustBeWritable | ReferrerAndReferrerStatsAuthorityUnequal | InvalidReferrer
| InvalidOracle | OracleNotFound | LiquidationsBlockedByOracle | MaxDeposit
| CantDeleteUserWithCollateral | InvalidFundingProfitability | CastingFailure | InvalidOrder
| InvalidOrderMaxTs | InvalidOrderMarketType | InvalidOrderForInitialMarginReq
| InvalidOrderNotRiskReducing | InvalidOrderSizeTooSmall | InvalidOrderNotStepSizeMultiple
| InvalidOrderBaseQuoteAsset | InvalidOrderIOC | InvalidOrderPostOnly | InvalidOrderIOCPostOnly
| InvalidOrderTrigger | InvalidOrderAuction | InvalidOrderOracleOffset
| InvalidOrderMinOrderSize | PlacePostOnlyLimitFailure | UserHasNoOrder | OrderAmountTooSmall
| MaxNumberOfOrders | OrderDoesNotExist | OrderNotOpen | FillOrderDidNotUpdateState
| ReduceOnlyOrderIncreasedRisk | UnableToLoadAccountLoader | TradeSizeTooLarge
| UserCantReferThemselves | DidNotReceiveExpectedReferrer | CouldNotDeserializeReferrer
| CouldNotDeserializeReferrerStats | UserOrderIdAlreadyInUse | NoPositionsLiquidatable
| InvalidMarginRatio | CantCancelPostOnlyOrder | InvalidOracleOffset | CantExpireOrders
| CouldNotLoadMarketData | PerpMarketNotFound | InvalidMarketAccount
| UnableToLoadPerpMarketAccount | MarketWrongMutability | UnableToCastUnixTime
| CouldNotFindSpotPosition | NoSpotPositionAvailable | InvalidSpotMarketInitialization
| CouldNotLoadSpotMarketData | SpotMarketNotFound | InvalidSpotMarketAccount
| UnableToLoadSpotMarketAccount | SpotMarketWrongMutability | SpotMarketInterestNotUpToDate
| SpotMarketInsufficientDeposits | UserMustSettleTheirOwnPositiveUnsettledPNL
| CantUpdateSpotBalanceType | InsufficientCollateralForSettlingPNL | AMMNotUpdatedInSameSlot
| AuctionNotComplete | MakerNotFound | MakerStatsNotFound | MakerMustBeWritable
| MakerStatsMustBeWritable | MakerOrderNotFound | CouldNotDeserializeMaker
| CouldNotDeserializeMakerStats | AuctionPriceDoesNotSatisfyMaker | MakerCantFulfillOwnOrder
| MakerOrderMustBePostOnly | CantMatchTwoPostOnlys | OrderBreachesOraclePriceLimits
| OrderMustBeTriggeredFirst | OrderNotTriggerable | OrderDidNotSatisfyTriggerCondition
| PositionAlreadyBeingLiquidated | PositionDoesntHaveOpenPositionOrOrders
| AllOrdersAreAlreadyLiquidations | CantCancelLiquidationOrder | UserIsBeingLiquidated
| LiquidationsOngoing | WrongSpotBalanceType | UserCantLiquidateThemself
| InvalidPerpPositionToLiquidate | InvalidBaseAssetAmountForLiquidatePerp
| InvalidPositionLastFundingRate | InvalidPositionDelta | UserBankrupt | UserNotBankrupt
| UserHasInvalidBorrow | DailyWithdrawLimit | DefaultError | InsufficientLPTokens
| CantLPWithPerpPosition | UnableToBurnLPTokens | TryingToRemoveLiquidityTooFast
| InvalidSpotMarketVault | InvalidSpotMarketState | InvalidSerumProgram | InvalidSerumMarket
| InvalidSerumBids | InvalidSerumAsks | InvalidSerumOpenOrders | FailedSerumCPI
| FailedToFillOnExternalMarket | InvalidFulfillmentConfig | InvalidFeeStructure
| InsufficientIFShares | MarketActionPaused | MarketPlaceOrderPaused | MarketFillOrderPaused
| MarketWithdrawPaused | ProtectedAssetTierViolation | IsolatedAssetTierViolation
| UserCantBeDeleted | ReduceOnlyWithdrawIncreasedRisk | MaxOpenInterest
| CantResolvePerpBankruptcy | LiquidationDoesntSatisfyLimitPrice | MarginTradingDisabled
| InvalidMarketStatusToSettlePnl | PerpMarketNotInSettlement | PerpMarketNotInReduceOnly
| PerpMarketSettlementBufferNotReached | PerpMarketSettlementUserHasOpenOrders
| PerpMarketSettlementUserHasActiveLP | UnableToSettleExpiredUserPosition
| UnequalMarketIndexForSpotTransfer | InvalidPerpPositionDetected | InvalidSpotPositionDetected
| InvalidAmmDetected | InvalidAmmForFillDetected | InvalidAmmLimitPriceOverride
| InvalidOrderFillPrice | SpotMarketBalanceInvariantViolated | SpotMarketVaultInvariantViolated
| InvalidPDA | InvalidPDASigner | RevenueSettingsCannotSettleToIF | NoRevenueToSettleToIF
| NoAmmPerpPnlDeficit | SufficientPerpPnlPool | InsufficientPerpPnlPool
| PerpPnlDeficitBelowThreshold | MaxRevenueWithdrawPerPeriodReached | MaxIFWithdrawReached
| NoIFWithdrawAvailable | InvalidIFUnstake | InvalidIFUnstakeSize | InvalidIFUnstakeCancel
| InvalidIFForNewStakes | InvalidIFRebase | InvalidInsuranceUnstakeSize | InvalidOrderLimitPrice
| InvalidIFDetected | InvalidAmmMaxSpreadDetected | InvalidConcentrationCoef | InvalidSrmVault
| InvalidVaultOwner | InvalidMarketStatusForFills | IFWithdrawRequestInProgress
| NoIFWithdrawRequestInProgress | IFWithdrawRequestTooSmall | IncorrectSpotMarketAccountPassed
| BlockchainClockInconsistency | InvalidIFSharesDetected | NewLPSizeTooSmall
| MarketStatusInvalidForNewLP | InvalidMarkTwapUpdateDetected
| MarketSettlementAttemptOnActiveMarket | MarketSettlementRequiresSettledLP
| MarketSettlementAttemptTooEarly | MarketSettlementTargetPriceInvalid | UnsupportedSpotMarket
| SpotOrdersDisabled | MarketBeingInitialized | InvalidUserSubAccountId
| InvalidTriggerOrderCondition | InvalidSpotPosition | CantTransferBetweenSameUserAccount
| InvalidPerpPosition | UnableToGetLimitPrice | InvalidLiquidation
| SpotFulfillmentConfigDisabled | InvalidMaker | FailedUnwrap | MaxNumberOfUsers
| InvalidOracleForSettlePnl | MarginOrdersOpen | TierViolationLiquidatingPerpPnl
| CouldNotLoadUserData | UserWrongMutability | InvalidUserAccount | CouldNotLoadUserStatsData
| UserStatsWrongMutability | InvalidUserStatsAccount | UserNotFound | UnableToLoadUserAccount
| UserStatsNotFound | UnableToLoadUserStatsAccount | UserNotInactive | RevertFill
| InvalidMarketAccountforDeletion | InvalidSpotFulfillmentParams | FailedToGetMint
| FailedPhoenixCPI | FailedToDeserializePhoenixMarket | InvalidPricePrecision
| InvalidPhoenixProgram | InvalidPhoenixMarket | InvalidSwap | SwapLimitPriceBreached
| SpotMarketReduceOnly | FundingWasNotUpdated | ImpossibleFill | CantUpdatePerpBidAskTwap
| UserReduceOnly | InvalidMarginCalculation | CantPayUserInitFee | CantReclaimRent
| InsuranceFundOperationPaused | NoUnsettledPnl | PnlPoolCantSettleUser | OracleNonPositive
| OracleTooVolatile | OracleTooUncertain | OracleStaleForMargin | OracleInsufficientDataPoints
| OracleStaleForAMM | UnableToParsePullOracleMessage | MaxBorrows | OracleUpdatesNotMonotonic
| OraclePriceFeedMessageMismatch | OracleUnsupportedMessageType | OracleDeserializeMessageFailed
| OracleWrongGuardianSetOwner | OracleWrongWriteAuthority | OracleWrongVaaOwner
| OracleTooManyPriceAccountUpdates | OracleMismatchedVaaAndPriceUpdates
| OracleBadRemainingAccountPublicKey | FailedOpenbookV2CPI | InvalidOpenbookV2Program
| InvalidOpenbookV2Market | NonZeroTransferFee | LiquidationOrderFailedToFill
| InvalidPredictionMarketOrder | InvalidVerificationIxIndex | SigVerificationFailed
| MismatchedSignedMsgOrderParamsMarketIndex | InvalidSignedMsgOrderParam
| PlaceAndTakeOrderSuccessConditionFailed | InvalidHighLeverageModeConfig
| InvalidRFQUserAccount | RFQUserAccountWrongMutability | RFQUserAccountFull | RFQOrderNotFilled
| InvalidRFQOrder | InvalidRFQMatch | InvalidSignedMsgUserAccount
| SignedMsgUserAccountWrongMutability | SignedMsgUserOrdersAccountFull
| SignedMsgOrderDoesNotExist | InvalidSignedMsgOrderId | InvalidPoolId
| InvalidProtectedMakerModeConfig | InvalidPythLazerStorageOwner | UnverifiedPythLazerMessage
| InvalidPythLazerMessage | PythLazerMessagePriceFeedMismatch | InvalidLiquidateSpotWithSwap
| SignedMsgUserContextUserMismatch | UserFuelOverflowThresholdNotMet
| FuelOverflowAccountNotFound | InvalidTransferPerpPosition | InvalidSignedMsgUserOrdersResize
| CouldNotDeserializeHighLeverageModeConfig | InvalidIfRebalanceConfig | InvalidIfRebalanceSwap
| InvalidRevenueShareResize | BuilderRevoked | InvalidBuilderFee
| RevenueShareEscrowAuthorityMismatch | RevenueShareEscrowOrdersAccountFull
| InvalidRevenueShareAccount | CannotRevokeBuilderWithOpenOrders
| UnableToLoadRevenueShareAccount | InvalidConstituent | InvalidAmmConstituentMappingArgument
| ConstituentNotFound | ConstituentCouldNotLoad | ConstituentWrongMutability
| WrongNumberOfConstituents | InsufficientConstituentTokenBalance | AMMCacheStale
| LpPoolAumDelayed | ConstituentOracleStale | LpInvariantFailed
| InvalidConstituentDerivativeWeights | MaxDlpAumBreached | SettleLpPoolDisabled
| MintRedeemLpPoolDisabled | LpPoolSettleInvariantBreached | InvalidConstituentOperation
| Unauthorized | InvalidLpPoolId | MarketIndexNotFoundAmmCache | InvalidIsolatedPerpMarket
| InvalidOrderScaleOrderCount | InvalidOrderScalePriceRange | InvalidPerpMarketConfig
| InvalidInsuranceFundWithdrawalRecipient | MarketPaused | InvalidCommitment
| InsuranceFundDepleted | NotSender | MarketNotFound | ZeroSqrtPrice.

Abbreviation DriftResult := (outcome ErrorCode).
