(* ===== verification/DriftMath.v ===== *)
(** The fixed-point arithmetic of [programs/drift]: [math/safe_math.rs],
    [math/casting.rs], [math/ceil_div.rs], [math/floor_div.rs],
    [math/helpers.rs], [math/stats.rs] and the constants the modelled files use.

    A machine integer is a [Z]; the width, and signed or unsigned, is an
    argument of the operation, as the type is in the source. *)
From S2P Require Import Prelude.
From S2P Require Import DriftError.

(** ** safe_math.rs, casting.rs *)

Definition safe_u (w x : Z) : DriftResult Z := ok_or (ucheck w x) MathError.
Definition safe_i (w x : Z) : DriftResult Z := ok_or (icheck w x) MathError.
Definition safe_udiv (a b : Z) : DriftResult Z := ok_or (checked_udiv a b) MathError.

(** [checked_div] of a signed type. *)
Definition checked_idiv (w a b : Z) : option Z := if b =? 0 then None else icheck w (Z.quot a b).
Definition safe_idiv (w a b : Z) : DriftResult Z := ok_or (checked_idiv w a b) MathError.

Definition cast_u (w x : Z) : DriftResult Z := if uok w x then Ok x else Err CastingFailure.
Definition cast_i (w x : Z) : DriftResult Z := if iok w x then Ok x else Err CastingFailure.

(** A loop that stops at the first error. *)
Fixpoint foldO {S A} (f : S -> A -> DriftResult S) (s : S) (l : list A) : DriftResult S :=
  match l with [] => Ok s | a :: l => let! s := f s a in foldO f s l end.

(** [validate!] *)
Definition validate (b : bool) (e : ErrorCode) : DriftResult unit := require b e.

(** [checked_rem_euclid] with its error, and the conversions of the wide integers
    of [math/bn.rs]. *)
Definition safe_rem (a b : Z) : DriftResult Z := if b =? 0 then Err MathError else Ok (a mod Z.abs b).
Definition try_to_u (w x : Z) : DriftResult Z := if uok w x then Ok x else Err BnConversionError.

(** ** ceil_div.rs, floor_div.rs *)

Definition checked_ceil_div (w a b : Z) : option Z :=
  q ← checked_udiv a b;
  if 0 <? a mod b then ucheck w (q + 1) else Some q.
Definition safe_div_ceil (w a b : Z) : DriftResult Z := ok_or (checked_ceil_div w a b) MathError.

(** The same on a signed type: the quotient is cut towards zero, and a positive
    remainder raises it. *)
Definition checked_ceil_idiv (w a b : Z) : option Z :=
  q ← checked_idiv w a b;
  if 0 <? Z.rem a b then icheck w (q + 1) else Some q.
Definition safe_idiv_ceil (w a b : Z) : DriftResult Z := ok_or (checked_ceil_idiv w a b) MathError.

(** On signed types; the remainder has the sign of [a]. *)
Definition checked_floor_div (w a b : Z) : option Z :=
  q ← checked_idiv w a b;
  if negb (Z.rem a b =? 0) then icheck w (q - 1) else Some q.
Definition safe_div_floor (w a b : Z) : DriftResult Z := ok_or (checked_floor_div w a b) MathError.

(** ** constants.rs *)

Definition QUOTE_SPOT_MARKET_INDEX : Z := 0.
Definition GOV_SPOT_MARKET_INDEX : Z := 15.
Definition PRICE_PRECISION : Z := 1000000.
Definition PERCENTAGE_PRECISION : Z := 1000000.
Definition IF_FACTOR_PRECISION : Z := PERCENTAGE_PRECISION.
Definition SPOT_UTILIZATION_PRECISION : Z := PERCENTAGE_PRECISION.
Definition SPOT_RATE_PRECISION : Z := PERCENTAGE_PRECISION.
Definition ONE_MINUTE : Z := 60.
Definition FIVE_MINUTE : Z := 300.
Definition ONE_HOUR : Z := 3600.
Definition TWENTY_FOUR_HOUR : Z := 86400.
Definition ONE_YEAR : Z := 31536000.
Definition SPOT_MARKET_TOKEN_TWAP_WINDOW : Z := TWENTY_FOUR_HOUR.
Definition DEFAULT_MAX_TWAP_UPDATE_PRICE_BAND_DENOMINATOR : Z := 3.
Definition INTEREST_RATE_SEGMENT_AND_WEIGHTS : list (Z * Z) :=
  [(850000, 50); (900000, 100); (950000, 150); (990000, 200); (995000, 250); (1000000, 250)].
Definition AMM_RESERVE_PRECISION : Z := 1000000000.
Definition BASE_PRECISION : Z := AMM_RESERVE_PRECISION.
Definition PERP_DECIMALS : Z := 9.
Definition PEG_PRECISION : Z := 1000000.
Definition QUOTE_PRECISION : Z := 1000000.
Definition FUNDING_RATE_BUFFER : Z := 1000.
Definition MARGIN_PRECISION : Z := 10000.
Definition SPOT_WEIGHT_PRECISION : Z := MARGIN_PRECISION.
Definition BID_ASK_SPREAD_PRECISION : Z := PERCENTAGE_PRECISION.
Definition CONCENTRATION_PRECISION : Z := PERCENTAGE_PRECISION.
Definition LIQUIDATION_FEE_PRECISION : Z := PERCENTAGE_PRECISION.
Definition PERCENTAGE_PRECISION_I128 : Z := PERCENTAGE_PRECISION.
Definition K_BPS_UPDATE_SCALE : Z := PERCENTAGE_PRECISION_I128.
Definition PRICE_TO_PEG_PRECISION_RATIO : Z := PRICE_PRECISION / PEG_PRECISION.
Definition AMM_TO_QUOTE_PRECISION_RATIO : Z := AMM_RESERVE_PRECISION / QUOTE_PRECISION.
Definition AMM_TIMES_PEG_TO_QUOTE_PRECISION_RATIO : Z := AMM_RESERVE_PRECISION * PEG_PRECISION / QUOTE_PRECISION.
Definition PRICE_TIMES_AMM_TO_QUOTE_PRECISION_RATIO : Z := PRICE_PRECISION * AMM_TO_QUOTE_PRECISION_RATIO.
Definition TEN_BPS : Z := PERCENTAGE_PRECISION_I128 / 1000.
Definition PRICE_PRECISION_U64 : Z := 1000000.
Definition MAX_PREDICTION_MARKET_PRICE : Z := PRICE_PRECISION_U64.
Definition AUCTION_DERIVE_PRICE_FRACTION : Z := 200.
Definition OPEN_ORDER_MARGIN_REQUIREMENT : Z := QUOTE_PRECISION / 100.
Definition MAX_SQRT_K : Z := 1000000000000000000000.
Definition MAX_BASE_ASSET_AMOUNT_WITH_AMM : Z := 400000000000000000.
Definition MAX_CONCENTRATION_COEFFICIENT : Z := 1414200.
Definition FEE_ADJUSTMENT_MAX : Z := 100.
Definition FUNDING_RATE_PRECISION : Z := PRICE_PRECISION * FUNDING_RATE_BUFFER.
Definition AMM_RESERVE_PRECISION_I128 : Z := (AMM_RESERVE_PRECISION).
Definition PRICE_PRECISION_I128 : Z := PRICE_PRECISION.
Definition FUNDING_RATE_BUFFER_I128 : Z := FUNDING_RATE_BUFFER.
Definition FUNDING_RATE_PRECISION_I128 : Z := PRICE_PRECISION_I128 * FUNDING_RATE_BUFFER_I128.
Definition QUOTE_PRECISION_I128 : Z := 1000000.
Definition QUOTE_TO_BASE_AMT_FUNDING_PRECISION : Z := AMM_RESERVE_PRECISION_I128 * FUNDING_RATE_PRECISION_I128 / QUOTE_PRECISION_I128.
Definition MAX_BID_ASK_INVENTORY_SKEW_FACTOR : Z := 10 * BID_ASK_SPREAD_PRECISION.
Definition QUOTE_PRECISION_I64 : Z := 1000000.
Definition DEFAULT_REVENUE_SINCE_LAST_FUNDING_SPREAD_RETREAT : Z := -25 * QUOTE_PRECISION_I64.
Definition DEFAULT_LARGE_BID_ASK_FACTOR : Z := 10 * BID_ASK_SPREAD_PRECISION.
Definition FUNDING_RATE_OFFSET_DENOMINATOR : Z := 5000.
Definition DEFAULT_LIQUIDATION_MARGIN_BUFFER_RATIO : Z := MARGIN_PRECISION / 50.
Definition MAX_MARGIN_RATIO : Z := MARGIN_PRECISION.
Definition MAX_OPEN_ORDERS : Z := 32.
Definition LIQUIDATION_PCT_PRECISION : Z := 10000.
Definition LIQUIDATION_FEE_TO_MARGIN_PRECISION_RATIO : Z := LIQUIDATION_FEE_PRECISION / MARGIN_PRECISION.
Definition FUNDING_RATE_TO_QUOTE_PRECISION_PRECISION_RATIO : Z := FUNDING_RATE_PRECISION / QUOTE_PRECISION.
Definition MAX_LIQUIDATION_MULTIPLIER : Z := 3.
Definition LIQUIDATION_FEE_INCREASE_PER_SLOT : Z := LIQUIDATION_FEE_PRECISION / 1000000.
Definition HIGH_LEVERAGE_MIN_MARGIN_RATIO : Z := MARGIN_PRECISION / 200.
Definition MIN_MARGIN_RATIO : Z := 125.
Definition MAX_K_BPS_INCREASE : Z := TEN_BPS.
Definition QUOTE_PRECISION_U64 : Z := 1000000.
Definition TWO_HUNDRED_FIFTY_QUOTE : Z := 250 * QUOTE_PRECISION_U64.
Definition FEE_POOL_TO_REVENUE_POOL_THRESHOLD : Z := TWO_HUNDRED_FIFTY_QUOTE.
Definition MAX_POSITIVE_UPNL_FOR_INITIAL_MARGIN : Z := 100 * QUOTE_PRECISION_I128.
Definition SPOT_IMF_PRECISION : Z := PERCENTAGE_PRECISION.
Definition PRICE_PRECISION_I64 : Z := 1000000.
Definition THIRTY_DAY : Z := TWENTY_FOUR_HOUR * 30.
Definition FUEL_OVERFLOW_THRESHOLD_U32 : Z := 4000000000.
Definition TWO_PT_TWO_PCT : Z := 22000.
Definition MAX_K_BPS_DECREASE : Z := TWO_PT_TWO_PCT.
Definition SHARE_OF_FEES_ALLOCATED_TO_DRIFT_NUMERATOR : Z := 1.
Definition SHARE_OF_FEES_ALLOCATED_TO_DRIFT_DENOMINATOR : Z := 2.
Definition PEG_PRECISION_I128 : Z := PEG_PRECISION.
Definition AMM_TO_QUOTE_PRECISION_RATIO_I128 : Z := (AMM_RESERVE_PRECISION / QUOTE_PRECISION).

(** ** helpers.rs *)

Definition standardize_value_with_remainder_i128 (value step_size : Z) : DriftResult (Z * Z) :=
  let! r := ok_or (if step_size =? 0 then None else Some (Z.abs value mod step_size)) MathError in
  let! r := cast_i 128 r in
  let! remainder := safe_i 128 (r * Z.sgn value) in
  let! standardized := safe_i 128 (value - remainder) in
  Ok (standardized, remainder).

Definition get_proportion_u128 (value numerator denominator : Z) : DriftResult Z :=
  let large_constant := umax 64 in
  if numerator =? denominator then Ok value
  else if (large_constant <=? value) || (large_constant <=? numerator) then
    let! p := safe_u 192 (value * numerator) in
    let! q := safe_udiv p denominator in
    cast_u 128 q
  else if (denominator / 2 <? numerator) && (numerator <? denominator) then
    let! d := safe_u 128 (denominator - numerator) in
    let! p := safe_u 128 (value * d) in
    let! p := cast_i 128 p in
    let! '(std_value, r) := standardize_value_with_remainder_i128 p denominator in
    let! s := cast_u 128 std_value in
    let! s := safe_udiv s denominator in
    let! x := safe_u 128 (value - s) in
    let! sr := cast_u 128 (Z.sgn r) in
    safe_u 128 (x - sr)
  else
    let! p := safe_u 128 (value * numerator) in
    safe_udiv p denominator.

Definition get_proportion_i128 (value numerator denominator : Z) : DriftResult Z :=
  let! p := get_proportion_u128 (Z.abs value) numerator denominator in
  let! p := cast_i 128 p in
  safe_i 128 (p * Z.sgn value).

(** [i64::rem_euclid]; a zero divisor panics. *)
Definition rem_euclid (a b : Z) : DriftResult Z := if b =? 0 then Panic else Ok (a mod Z.abs b).

Definition on_the_hour_update (now last_update_ts update_period : Z) : DriftResult Z :=
  let! time_since_last_update := safe_i 64 (now - last_update_ts) in
  let! next_update_wait :=
    if 1 <? update_period then
      let! last_update_delay := rem_euclid last_update_ts update_period in
      if negb (last_update_delay =? 0) then
        let! max_delay_for_next_period := safe_idiv 64 update_period 3 in
        let! two_funding_periods := safe_i 64 (update_period * 2) in
        let! wait :=
          if max_delay_for_next_period <? last_update_delay then
            safe_i 64 (two_funding_periods - last_update_delay)
          else safe_i 64 (update_period - last_update_delay) in
        if two_funding_periods <? wait then safe_i 64 (wait - update_period) else Ok wait
      else Ok update_period
    else Ok update_period in
  let! remaining := safe_i 64 (next_update_wait - time_since_last_update) in
  Ok (Z.max remaining 0).

(** [log10_iter]: the loop divides by ten while it can; [fuel] bounds it. *)
Fixpoint log10_loop (fuel : nat) (n_copy result : Z) : option Z :=
  match fuel with
  | O => None
  | S fuel => if 10 <=? n_copy then log10_loop fuel (n_copy / 10) (result + 1) else Some result
  end.
Definition log10_iter (fuel : nat) (n : Z) : option Z := log10_loop fuel n 0.

(** ** stats.rs *)

Definition calculate_rolling_sum (data1 data2 weight1_numer weight1_denom : Z) : DriftResult Z :=
  let! d1 := cast_u 128 data1 in
  let! w := safe_i 64 (weight1_denom - weight1_numer) in
  let! w := cast_u 128 (Z.max 0 w) in
  let! p := safe_u 128 (d1 * w) in
  let! den := cast_u 128 weight1_denom in
  let! prev := safe_udiv p den in
  let! prev := cast_u 64 prev in
  safe_u 64 (prev + data2).

Definition calculate_weighted_average (data1 data2 weight1 weight2 : Z) (bias : option Z) : DriftResult Z :=
  let! denominator := safe_i 64 (weight1 + weight2) in
  let! prev_twap_99 := safe_i 128 (data1 * weight1) in
  let! latest_price_01 := safe_i 128 (data2 * weight2) in
  if weight1 =? 0 then Ok data2
  else if weight2 =? 0 then Ok data1
  else
    let bias :=
      match bias with
      | Some b => b
      | None =>
          if 1 <? weight2 then
            if latest_price_01 <? prev_twap_99 then -1
            else if prev_twap_99 <? latest_price_01 then 1 else 0
          else 0
      end in
    let! s := safe_i 128 (prev_twap_99 + latest_price_01) in
    let! q := safe_idiv 128 s denominator in
    let! twap := cast_i 64 q in
    if (twap =? 0) && (bias <? 0) then Ok twap else safe_i 64 (twap + bias).

Definition calculate_new_twap (current_price current_ts last_twap last_ts period : Z) : DriftResult Z :=
  let! d := safe_i 64 (current_ts - last_ts) in
  let since_last := Z.max 0 d in
  let! f := safe_i 64 (period - since_last) in
  let from_start := Z.max 1 f in
  calculate_weighted_average current_price last_twap since_last from_start None.

(** * Lemmas *)

Lemma safe_u_Ok w x y : safe_u w x = Ok y <-> y = x /\ in_u w x.
Proof. unfold safe_u. rewrite ok_or_Ok. apply ucheck_Some. Qed.

Lemma safe_i_Ok w x y : safe_i w x = Ok y <-> y = x /\ in_i w x.
Proof. unfold safe_i. rewrite ok_or_Ok. apply icheck_Some. Qed.

Lemma safe_udiv_Ok a b q : safe_udiv a b = Ok q <-> b <> 0 /\ q = a / b.
Proof. unfold safe_udiv. rewrite ok_or_Ok. apply checked_udiv_Some. Qed.

Lemma safe_idiv_Ok w a b q : safe_idiv w a b = Ok q <-> b <> 0 /\ q = Z.quot a b /\ in_i w (Z.quot a b).
Proof.
  unfold safe_idiv, checked_idiv. rewrite ok_or_Ok. destruct (Z.eqb_spec b 0); [naive_solver|].
  rewrite icheck_Some. naive_solver.
Qed.

Lemma cast_u_Ok w x y : cast_u w x = Ok y <-> y = x /\ in_u w x.
Proof. unfold cast_u. rewrite <- uok_spec. destruct (uok w x); naive_solver. Qed.

Lemma cast_i_Ok w x y : cast_i w x = Ok y <-> y = x /\ in_i w x.
Proof. unfold cast_i. rewrite <- iok_spec. destruct (iok w x); naive_solver. Qed.

Lemma safe_u_ok w x : in_u w x -> safe_u w x = Ok x.
Proof. intros H. by apply safe_u_Ok. Qed.
Lemma safe_i_ok w x : in_i w x -> safe_i w x = Ok x.
Proof. intros H. by apply safe_i_Ok. Qed.
Lemma cast_u_ok w x : in_u w x -> cast_u w x = Ok x.
Proof. intros H. by apply cast_u_Ok. Qed.
Lemma cast_i_ok w x : in_i w x -> cast_i w x = Ok x.
Proof. intros H. by apply cast_i_Ok. Qed.
Lemma safe_udiv_ok a b : b <> 0 -> safe_udiv a b = Ok (a / b).
Proof. intros H. by apply safe_udiv_Ok. Qed.

(** Two loops over the same list stay related. *)
Lemma foldO_sim {S T A} (R : S -> T -> Prop) (f : S -> A -> DriftResult S) (g : T -> A -> DriftResult T) l s t s' t' :
  (forall a s t s' t', a ∈ l -> R s t -> f s a = Ok s' -> g t a = Ok t' -> R s' t') ->
  R s t -> foldO f s l = Ok s' -> foldO g t l = Ok t' -> R s' t'.
Proof.
  revert s t. induction l as [|a l IH]; intros s t Hstep HR Hf Hg.
  - injection Hf as <-. by injection Hg as <-.
  - cbn in Hf, Hg. apply obind_Ok in Hf as (s1 & Hf1 & Hf). apply obind_Ok in Hg as (t1 & Hg1 & Hg).
    apply (IH s1 t1); [|by apply (Hstep a s t); [left|..]|done..].
    intros b ? ? ? ? Hb. apply Hstep. by right.
Qed.
Lemma foldO_inv {S A} (I : S -> Prop) (f : S -> A -> DriftResult S) l s s' :
  (forall a s s', a ∈ l -> I s -> f s a = Ok s' -> I s') -> I s -> foldO f s l = Ok s' -> I s'.
Proof.
  intros Hstep HI Hf. apply (foldO_sim (fun s _ => I s) f f l s s s' s'); [|done..].
  intros a s1 t1 s2 t2 Ha H1 H2 _. by apply (Hstep a s1).
Qed.

Lemma validate_Ok b e u : validate b e = Ok u <-> b = true.
Proof. apply require_Ok. Qed.

Lemma safe_rem_Ok a b r : safe_rem a b = Ok r <-> b <> 0 /\ r = a mod Z.abs b.
Proof. unfold safe_rem. destruct (Z.eqb_spec b 0); naive_solver. Qed.

Lemma try_to_u_Ok w x y : try_to_u w x = Ok y <-> y = x /\ in_u w x.
Proof. unfold try_to_u. rewrite <- uok_spec. destruct (uok w x); naive_solver. Qed.

(** One step of inverting a successful computation of [programs/drift]. *)
Ltac drift_step :=
  match goal with
  | H : obind _ _ = Ok _ |- _ => apply obind_Ok in H as (? & ? & H); cbv beta in H
  | H : safe_u _ _ = Ok _ |- _ => apply safe_u_Ok in H as [? ?]
  | H : safe_i _ _ = Ok _ |- _ => apply safe_i_Ok in H as [? ?]
  | H : cast_u _ _ = Ok _ |- _ => apply cast_u_Ok in H as [? ?]
  | H : cast_i _ _ = Ok _ |- _ => apply cast_i_Ok in H as [? ?]
  | H : safe_udiv _ _ = Ok _ |- _ => apply safe_udiv_Ok in H as [? ?]
  | H : safe_idiv _ _ _ = Ok _ |- _ => apply safe_idiv_Ok in H as (? & ? & ?)
  | H : safe_rem _ _ = Ok _ |- _ => apply safe_rem_Ok in H as [? ?]
  | H : try_to_u _ _ = Ok _ |- _ => apply try_to_u_Ok in H as [? ?]
  | H : validate _ _ = Ok _ |- _ => apply validate_Ok in H
  | H : ok_or _ _ = Ok _ |- _ => apply ok_or_Ok in H
  | H : ichk _ _ = Ok _ |- _ => apply ichk_Ok in H as [? ?]
  | H : uchk _ _ = Ok _ |- _ => apply uchk_Ok in H as [? ?]
  | H : Ok _ = Ok _ |- _ => injection H as H
  | H : Err _ = Ok _ |- _ => discriminate H
  | H : Panic = Ok _ |- _ => discriminate H
  | x : unit |- _ => destruct x
  end; subst.
Ltac drift_inv := repeat drift_step.

(** Ceiling division is [zceil]. *)
Lemma safe_div_ceil_Ok w a b q : 0 < b -> safe_div_ceil w a b = Ok q -> q = zceil a b.
Proof.
  intros Hb. unfold safe_div_ceil, checked_ceil_div. rewrite ok_or_Ok.
  unfold checked_udiv. destruct (Z.eqb_spec b 0); [lia|]. cbn.
  pose proof (Z.div_mod a b). pose proof (Z.mod_pos_bound a b Hb).
  destruct (Z.ltb_spec 0 (a mod b)); [intros [-> _]%ucheck_Some|intros [= <-]];
    symmetry; apply zceil_spec; nia.
Qed.

(** Floor division is exact on a negative dividend only: on a positive one
    that is not a multiple it is one below the floor. *)
Lemma checked_floor_div_negative w a b q :
  0 < b -> a <= 0 -> checked_floor_div w a b = Some q -> q = a / b.
Proof.
  intros Hb Ha. unfold checked_floor_div, checked_idiv. destruct (Z.eqb_spec b 0); [lia|].
  destruct (icheck w (Z.quot a b)) as [q0|] eqn:H; [|done]. apply icheck_Some in H as [-> _]. cbn.
  pose proof (Z.quot_rem a b ltac:(lia)) as Hqr. pose proof (Z.rem_bound_pos_neg a b Hb Ha) as Hr.
  destruct (Z.eqb_spec (Z.rem a b) 0); cbn.
  - intros [= <-]. apply Z.div_unique with (r := 0); lia.
  - intros [-> _]%icheck_Some. apply Z.div_unique with (r := Z.rem a b + b); lia.
Qed.

Lemma checked_floor_div_positive w a b q :
  0 < b -> 0 <= a -> a mod b <> 0 -> checked_floor_div w a b = Some q -> q = a / b - 1.
Proof.
  intros Hb Ha Hm. unfold checked_floor_div, checked_idiv. destruct (Z.eqb_spec b 0); [lia|].
  rewrite Z.quot_div_nonneg, Z.rem_mod_nonneg by lia.
  destruct (icheck w (a / b)) as [q0|] eqn:H; [|done]. apply icheck_Some in H as [-> _]. cbn.
  apply Z.eqb_neq in Hm. rewrite Hm. cbn. by intros [-> _]%icheck_Some.
Qed.

(** The loop of [log10_iter] ends: each turn takes a decimal digit. *)
Lemma log10_loop_total fuel n r :
  0 <= n < 10 ^ Z.of_nat fuel -> exists k, log10_loop (S fuel) n r = Some (r + k) /\ 0 <= k /\ 10 ^ k <= Z.max 1 n.
Proof.
  revert n r. induction fuel as [|fuel IH]; intros n r Hn; rewrite ?Nat2Z.inj_succ, ?Z.pow_succ_r in Hn by lia.
  - cbn. destruct (Z.leb_spec 10 n); [cbn in Hn; lia|]. exists 0. rewrite Z.add_0_r. split; [done|]. cbn. lia.
  - set (m := S fuel) in *. cbn [log10_loop]. destruct (Z.leb_spec 10 n) as [Hle|].
    + destruct (IH (n / 10) (r + 1)) as (k & H & Hk & Hp).
      { split; [apply Z.div_pos; lia|]. apply Z.div_lt_upper_bound; lia. }
      exists (k + 1). rewrite H. split; [f_equal; lia|]. split; [lia|].
      rewrite Z.pow_add_r by lia. pose proof (zfloor_bounds n 10 ltac:(lia)).
      assert (1 <= n / 10) by (apply Z.div_le_lower_bound; lia). lia.
    + exists 0. rewrite Z.add_0_r. split; [done|]. cbn. lia.
Qed.

(** * Properties *)

Lemma proportion_complement v n d :
  0 < d -> v - v * (d - n) / d - Z.sgn (v * (d - n) mod d) = v * n / d \/ v * (d - n) < 0.
Proof.
  intros Hd. destruct (Z.lt_ge_cases (v * (d - n)) 0); [by right|left].
  pose proof (Z.div_mod (v * (d - n)) d ltac:(lia)) as E.
  pose proof (Z.mod_pos_bound (v * (d - n)) d Hd) as Hm.
  destruct (Z.eq_dec (v * (d - n) mod d) 0) as [Hz|Hz].
  - rewrite Hz. cbn. apply Z.div_unique with (r := 0); nia.
  - rewrite Z.sgn_pos by lia. apply Z.div_unique with (r := d - v * (d - n) mod d); nia.
Qed.

(** A proportion is the exact product divided and rounded down, on every
    path - the equal case, the wide product, the complement with its ceiling,
    the plain product: whatever values it is given, when it returns, it returns
    [value * numerator / denominator]. *)
Theorem get_proportion_exact v n d r :
  in_u 128 v -> in_u 128 n -> 0 < d -> get_proportion_u128 v n d = Ok r -> r = v * n / d.
Proof.
  intros Hv Hn Hd. unfold get_proportion_u128, in_u in *.
  destruct (Z.eqb_spec n d) as [->|Hne]; [intros [= <-]; by rewrite Z.div_mul by lia|].
  destruct (_ || _).
  { intros (p & [-> _]%safe_u_Ok & (q & [_ ->]%safe_udiv_Ok & [-> _]%cast_u_Ok)%obind_Ok)%obind_Ok. done. }
  destruct ((d / 2 <? n) && (n <? d)) eqn:Hb.
  - apply andb_true_iff in Hb as [_ Hlt%Z.ltb_lt].
    intros (x & [-> _]%safe_u_Ok & H)%obind_Ok. apply obind_Ok in H as (p & [-> _]%safe_u_Ok & H).
    apply obind_Ok in H as (p & [-> _]%cast_i_Ok & H).
    unfold standardize_value_with_remainder_i128 in H. destruct (Z.eqb_spec d 0); [lia|]. cbn [ok_or obind] in H.
    rewrite Z.abs_eq in H by nia.
    set (y := v * (d - n)) in *. assert (0 <= y) as Hy by (subst y; nia).
    pose proof (Z.mod_pos_bound y d Hd) as Hm. pose proof (Z.div_mod y d ltac:(lia)) as E.
    apply obind_Ok in H as ([sv rm] & H1 & H).
    apply obind_Ok in H1 as (? & [-> _]%cast_i_Ok & H1). apply obind_Ok in H1 as (? & [-> _]%safe_i_Ok & H1).
    apply obind_Ok in H1 as (? & [-> _]%safe_i_Ok & [= <- <-]).
    apply obind_Ok in H as (? & [-> _]%cast_u_Ok & H). apply obind_Ok in H as (? & [_ ->]%safe_udiv_Ok & H).
    apply obind_Ok in H as (? & [-> _]%safe_u_Ok & H). apply obind_Ok in H as (? & [-> _]%cast_u_Ok & H).
    apply safe_u_Ok in H as [-> _].
    assert (y mod d * Z.sgn y = y mod d) as ->.
    { destruct (Z.eq_dec y 0) as [->|]; [by rewrite Z.mod_0_l by lia|]. rewrite Z.sgn_pos by lia. lia. }
    replace (y - y mod d) with (y / d * d) by lia. rewrite Z.div_mul by lia.
    destruct (proportion_complement v n d Hd) as [H|H]; [exact H|fold y in H; lia].
  - by intros (p & [-> _]%safe_u_Ok & [_ ->]%safe_udiv_Ok)%obind_Ok.
Qed.

(** A weighted average lies between the two values, give or take the bias of
    one unit: with the weights the callers pass - none negative - the result is
    never more than one below the smaller value or one above the larger one. *)
Theorem weighted_average_bounds d1 d2 w1 w2 r :
  0 <= w1 -> 0 <= w2 -> calculate_weighted_average d1 d2 w1 w2 None = Ok r ->
  Z.min d1 d2 - 1 <= r <= Z.max d1 d2 + 1.
Proof.
  intros H1 H2. unfold calculate_weighted_average.
  intros (den & [-> _]%safe_i_Ok & H)%obind_Ok. apply obind_Ok in H as (p & [-> _]%safe_i_Ok & H).
  apply obind_Ok in H as (l & [-> _]%safe_i_Ok & H).
  destruct (Z.eqb_spec w1 0); [injection H as <-; lia|].
  destruct (Z.eqb_spec w2 0); [injection H as <-; lia|].
  set (bias := if 1 <? w2 then _ else 0) in H. assert (-1 <= bias <= 1) as Hb.
  { subst bias. by destruct (1 <? w2), (d2 * w2 <? d1 * w1), (d1 * w1 <? d2 * w2). }
  apply obind_Ok in H as (s & [-> _]%safe_i_Ok & H). apply obind_Ok in H as (q & (_ & -> & _)%safe_idiv_Ok & H).
  apply obind_Ok in H as (t & [-> _]%cast_i_Ok & H).
  assert (Z.min d1 d2 <= (d1 * w1 + d2 * w2) ÷ (w1 + w2) <= Z.max d1 d2) as Hq.
  { pose proof (Z.quot_mul (Z.min d1 d2) (w1 + w2) ltac:(lia)) as E1.
    pose proof (Z.quot_mul (Z.max d1 d2) (w1 + w2) ltac:(lia)) as E2.
    split; [rewrite <- E1 at 1|rewrite <- E2]; apply Z.quot_le_mono; nia. }
  destruct (_ && _); [injection H as <-; lia|]. apply safe_i_Ok in H as [-> _]. lia.
Qed.

(** A price that does not move still moves its average: the bias compares the
    weighted terms, not the values. *)
Example constant_price_twap_moves : calculate_new_twap 10 100 10 90 3600 = Ok 11.
Proof. reflexivity. Qed.

(** * Examples *)

Lemma get_proportion_exact_witness :
  get_proportion_u128 1000 700 999 = Ok 700 /\ 700 = 1000 * 700 / 999.
Proof.
  assert (get_proportion_u128 1000 700 999 = Ok 700) as H by (vm_compute; reflexivity).
  split; [exact H|]. apply (get_proportion_exact 1000 700 999 700); [unfold in_u; lia|unfold in_u; lia|lia|exact H].
Defined.

Lemma weighted_average_bounds_witness :
  calculate_weighted_average 10 10 1 3 None = Ok 11 /\ Z.min 10 10 - 1 <= 11 <= Z.max 10 10 + 1.
Proof.
  assert (calculate_weighted_average 10 10 1 3 None = Ok 11) as H by (vm_compute; reflexivity).
  split; [exact H|]. apply (weighted_average_bounds 10 10 1 3 11); [lia|lia|exact H].
Defined.
