(* ===== verification/DriftSpotMarket.v ===== *)
(** A spot market of [programs/drift] and its conversions: [SpotMarket],
    [InsuranceFund], the trait [SpotBalance] and its implementations
    ([state/spot_market.rs], [PoolBalance] of [state/perp_market.rs],
    [SpotPosition] of [state/user.rs]), [math/spot_balance.rs] and
    [validation/spot_market.rs].

    A balance is a scaled amount: tokens are balance times the cumulative
    interest of its side.  The records have the fields of the source, padding
    and the key of the insurance fund's vault aside. *)
From S2P Require Import Prelude.
From S2P Require Import RecordUpdate.
From S2P Require Import DriftError.
From S2P Require Import DriftMath.

Inductive SpotBalanceType : Set := Deposit | Borrow.

#[export] Instance SpotBalanceType_eq_dec : EqDecision SpotBalanceType.
Proof. solve_decision. Defined.

Definition balance_type_eqb (a b : SpotBalanceType) : bool :=
  match a, b with Deposit, Deposit | Borrow, Borrow => true | _, _ => false end.

(** [MarketStatus] of [state/perp_market.rs]. *)
Inductive MarketStatus : Set :=
| Initialized | Active | FundingPaused | AmmPaused | FillPaused | WithdrawPaused | ReduceOnly
| Settlement | Delisted.

Inductive AssetTier : Set := Collateral | Protected | Cross | Isolated | Unlisted.

Record HistoricalOracleData := mkHistoricalOracleData {
  last_oracle_price : Z;
  last_oracle_conf : Z;
  last_oracle_delay : Z;
  last_oracle_price_twap : Z;
  last_oracle_price_twap_5min : Z;
  last_oracle_price_twap_ts : Z;
}.

(** [OraclePriceData] of [state/oracle.rs]. *)
Record OraclePriceData := mkOraclePriceData {
  price : Z;
  confidence : Z;
  delay : Z;
  has_sufficient_number_of_data_points : bool;
  sequence_id : option Z;
}.

Record PoolBalance := mkPoolBalance { pb_scaled_balance : Z; pb_market_index : Z }.

Record SpotPosition := mkSpotPosition {
  sp_scaled_balance : Z;
  sp_open_bids : Z;
  sp_open_asks : Z;
  cumulative_deposits : Z;
  sp_market_index : Z;
  sp_balance_type : SpotBalanceType;
  sp_open_orders : Z;
}.

#[export] Instance eta_SpotPosition : Eta SpotPosition := fun r =>
  mkSpotPosition (sp_scaled_balance r) (sp_open_bids r) (sp_open_asks r) (cumulative_deposits r) (sp_market_index r)
    (sp_balance_type r) (sp_open_orders r).
#[export] Instance set_sp_scaled_balance : Setter sp_scaled_balance := ltac:(setter).
#[export] Instance set_sp_open_bids : Setter sp_open_bids := ltac:(setter).
#[export] Instance set_sp_open_asks : Setter sp_open_asks := ltac:(setter).
#[export] Instance set_cumulative_deposits : Setter cumulative_deposits := ltac:(setter).
#[export] Instance set_sp_market_index : Setter sp_market_index := ltac:(setter).
#[export] Instance set_sp_balance_type : Setter sp_balance_type := ltac:(setter).
#[export] Instance set_sp_open_orders : Setter sp_open_orders := ltac:(setter).

Record InsuranceFund := mkInsuranceFund {
  total_shares : Z;
  user_shares : Z;
  shares_base : Z;
  unstaking_period : Z;
  last_revenue_settle_ts : Z;
  revenue_settle_period : Z;
  total_factor : Z;
  user_factor : Z;
}.

(** [HistoricalIndexData] of [state/oracle.rs]. *)
Record HistoricalIndexData := mkHistoricalIndexData {
  last_index_bid_price : Z;
  last_index_ask_price : Z;
  last_index_price_twap : Z;
  last_index_price_twap_5min : Z;
  last_index_price_twap_ts : Z;
}.

(** [OracleSource] of [state/oracle.rs]. *)
Inductive OracleSource : Set :=
| Pyth | Switchboard | QuoteAsset | Pyth1K | Pyth1M | PythStableCoin | Prelaunch | PythPull | Pyth1KPull
| Pyth1MPull | PythStableCoinPull | SwitchboardOnDemand | PythLazer | PythLazer1K | PythLazer1M
| PythLazerStableCoin.

Record SpotMarket := mkSpotMarket {
  sm_pubkey : Z;
  sm_oracle : Z;
  sm_mint : Z;
  sm_vault : Z;
  sm_name : list Z;
  historical_oracle_data : HistoricalOracleData;
  historical_index_data : HistoricalIndexData;
  revenue_pool : PoolBalance;
  spot_fee_pool : PoolBalance;
  insurance_fund : InsuranceFund;
  total_spot_fee : Z;
  deposit_balance : Z;
  borrow_balance : Z;
  cumulative_deposit_interest : Z;
  cumulative_borrow_interest : Z;
  sm_total_social_loss : Z;
  total_quote_social_loss : Z;
  withdraw_guard_threshold : Z;
  max_token_deposits : Z;
  deposit_token_twap : Z;
  borrow_token_twap : Z;
  utilization_twap : Z;
  last_interest_ts : Z;
  last_twap_ts : Z;
  sm_expiry_ts : Z;
  sm_order_step_size : Z;
  sm_order_tick_size : Z;
  sm_min_order_size : Z;
  max_position_size : Z;
  sm_next_fill_record_id : Z;
  next_deposit_record_id : Z;
  initial_asset_weight : Z;
  maintenance_asset_weight : Z;
  initial_liability_weight : Z;
  maintenance_liability_weight : Z;
  sm_imf_factor : Z;
  sm_liquidator_fee : Z;
  sm_if_liquidation_fee : Z;
  optimal_utilization : Z;
  optimal_borrow_rate : Z;
  max_borrow_rate : Z;
  decimals : Z;
  sm_market_index : Z;
  orders_enabled : bool;
  sm_oracle_source : OracleSource;
  sm_status : MarketStatus;
  asset_tier : AssetTier;
  paused_operations : Z;
  if_paused_operations : Z;
  sm_fee_adjustment : Z;
  max_token_borrows_fraction : Z;
  flash_loan_amount : Z;
  flash_loan_initial_token_amount : Z;
  total_swap_fee : Z;
  scale_initial_asset_weight_start : Z;
  min_borrow_rate : Z;
  fuel_boost_deposits : Z;
  fuel_boost_borrows : Z;
  sm_fuel_boost_taker : Z;
  sm_fuel_boost_maker : Z;
  fuel_boost_insurance : Z;
  token_program_flag : Z;
  sm_pool_id : Z;
}.

#[export] Instance eta_SpotMarket : Eta SpotMarket := fun r =>
  mkSpotMarket (sm_pubkey r) (sm_oracle r) (sm_mint r) (sm_vault r) (sm_name r) (historical_oracle_data r)
    (historical_index_data r) (revenue_pool r) (spot_fee_pool r) (insurance_fund r) (total_spot_fee r)
    (deposit_balance r) (borrow_balance r) (cumulative_deposit_interest r) (cumulative_borrow_interest r)
    (sm_total_social_loss r) (total_quote_social_loss r) (withdraw_guard_threshold r) (max_token_deposits r)
    (deposit_token_twap r) (borrow_token_twap r) (utilization_twap r) (last_interest_ts r) (last_twap_ts r)
    (sm_expiry_ts r) (sm_order_step_size r) (sm_order_tick_size r) (sm_min_order_size r) (max_position_size
    r) (sm_next_fill_record_id r) (next_deposit_record_id r) (initial_asset_weight r)
    (maintenance_asset_weight r) (initial_liability_weight r) (maintenance_liability_weight r)
    (sm_imf_factor r) (sm_liquidator_fee r) (sm_if_liquidation_fee r) (optimal_utilization r)
    (optimal_borrow_rate r) (max_borrow_rate r) (decimals r) (sm_market_index r) (orders_enabled r)
    (sm_oracle_source r) (sm_status r) (asset_tier r) (paused_operations r) (if_paused_operations r)
    (sm_fee_adjustment r) (max_token_borrows_fraction r) (flash_loan_amount r)
    (flash_loan_initial_token_amount r) (total_swap_fee r) (scale_initial_asset_weight_start r)
    (min_borrow_rate r) (fuel_boost_deposits r) (fuel_boost_borrows r) (sm_fuel_boost_taker r)
    (sm_fuel_boost_maker r) (fuel_boost_insurance r) (token_program_flag r) (sm_pool_id r).

#[export] Instance setter_sm_pubkey : Setter sm_pubkey := ltac:(setter).
#[export] Instance setter_sm_oracle : Setter sm_oracle := ltac:(setter).
#[export] Instance setter_sm_mint : Setter sm_mint := ltac:(setter).
#[export] Instance setter_sm_vault : Setter sm_vault := ltac:(setter).
#[export] Instance setter_sm_name : Setter sm_name := ltac:(setter).
#[export] Instance setter_historical_oracle_data : Setter historical_oracle_data := ltac:(setter).
#[export] Instance setter_historical_index_data : Setter historical_index_data := ltac:(setter).
#[export] Instance setter_revenue_pool : Setter revenue_pool := ltac:(setter).
#[export] Instance setter_spot_fee_pool : Setter spot_fee_pool := ltac:(setter).
#[export] Instance setter_insurance_fund : Setter insurance_fund := ltac:(setter).
#[export] Instance setter_total_spot_fee : Setter total_spot_fee := ltac:(setter).
#[export] Instance setter_deposit_balance : Setter deposit_balance := ltac:(setter).
#[export] Instance setter_borrow_balance : Setter borrow_balance := ltac:(setter).
#[export] Instance setter_cumulative_deposit_interest : Setter cumulative_deposit_interest := ltac:(setter).
#[export] Instance setter_cumulative_borrow_interest : Setter cumulative_borrow_interest := ltac:(setter).
#[export] Instance setter_sm_total_social_loss : Setter sm_total_social_loss := ltac:(setter).
#[export] Instance setter_total_quote_social_loss : Setter total_quote_social_loss := ltac:(setter).
#[export] Instance setter_withdraw_guard_threshold : Setter withdraw_guard_threshold := ltac:(setter).
#[export] Instance setter_max_token_deposits : Setter max_token_deposits := ltac:(setter).
#[export] Instance setter_deposit_token_twap : Setter deposit_token_twap := ltac:(setter).
#[export] Instance setter_borrow_token_twap : Setter borrow_token_twap := ltac:(setter).
#[export] Instance setter_utilization_twap : Setter utilization_twap := ltac:(setter).
#[export] Instance setter_last_interest_ts : Setter last_interest_ts := ltac:(setter).
#[export] Instance setter_last_twap_ts : Setter last_twap_ts := ltac:(setter).
#[export] Instance setter_sm_expiry_ts : Setter sm_expiry_ts := ltac:(setter).
#[export] Instance setter_sm_order_step_size : Setter sm_order_step_size := ltac:(setter).
#[export] Instance setter_sm_order_tick_size : Setter sm_order_tick_size := ltac:(setter).
#[export] Instance setter_sm_min_order_size : Setter sm_min_order_size := ltac:(setter).
#[export] Instance setter_max_position_size : Setter max_position_size := ltac:(setter).
#[export] Instance setter_sm_next_fill_record_id : Setter sm_next_fill_record_id := ltac:(setter).
#[export] Instance setter_next_deposit_record_id : Setter next_deposit_record_id := ltac:(setter).
#[export] Instance setter_initial_asset_weight : Setter initial_asset_weight := ltac:(setter).
#[export] Instance setter_maintenance_asset_weight : Setter maintenance_asset_weight := ltac:(setter).
#[export] Instance setter_initial_liability_weight : Setter initial_liability_weight := ltac:(setter).
#[export] Instance setter_maintenance_liability_weight : Setter maintenance_liability_weight := ltac:(setter).
#[export] Instance setter_sm_imf_factor : Setter sm_imf_factor := ltac:(setter).
#[export] Instance setter_sm_liquidator_fee : Setter sm_liquidator_fee := ltac:(setter).
#[export] Instance setter_sm_if_liquidation_fee : Setter sm_if_liquidation_fee := ltac:(setter).
#[export] Instance setter_optimal_utilization : Setter optimal_utilization := ltac:(setter).
#[export] Instance setter_optimal_borrow_rate : Setter optimal_borrow_rate := ltac:(setter).
#[export] Instance setter_max_borrow_rate : Setter max_borrow_rate := ltac:(setter).
#[export] Instance setter_decimals : Setter decimals := ltac:(setter).
#[export] Instance setter_sm_market_index : Setter sm_market_index := ltac:(setter).
#[export] Instance setter_orders_enabled : Setter orders_enabled := ltac:(setter).
#[export] Instance setter_sm_oracle_source : Setter sm_oracle_source := ltac:(setter).
#[export] Instance setter_sm_status : Setter sm_status := ltac:(setter).
#[export] Instance setter_asset_tier : Setter asset_tier := ltac:(setter).
#[export] Instance setter_paused_operations : Setter paused_operations := ltac:(setter).
#[export] Instance setter_if_paused_operations : Setter if_paused_operations := ltac:(setter).
#[export] Instance setter_sm_fee_adjustment : Setter sm_fee_adjustment := ltac:(setter).
#[export] Instance setter_max_token_borrows_fraction : Setter max_token_borrows_fraction := ltac:(setter).
#[export] Instance setter_flash_loan_amount : Setter flash_loan_amount := ltac:(setter).
#[export] Instance setter_flash_loan_initial_token_amount : Setter flash_loan_initial_token_amount := ltac:(setter).
#[export] Instance setter_total_swap_fee : Setter total_swap_fee := ltac:(setter).
#[export] Instance setter_scale_initial_asset_weight_start : Setter scale_initial_asset_weight_start := ltac:(setter).
#[export] Instance setter_min_borrow_rate : Setter min_borrow_rate := ltac:(setter).
#[export] Instance setter_fuel_boost_deposits : Setter fuel_boost_deposits := ltac:(setter).
#[export] Instance setter_fuel_boost_borrows : Setter fuel_boost_borrows := ltac:(setter).
#[export] Instance setter_sm_fuel_boost_taker : Setter sm_fuel_boost_taker := ltac:(setter).
#[export] Instance setter_sm_fuel_boost_maker : Setter sm_fuel_boost_maker := ltac:(setter).
#[export] Instance setter_fuel_boost_insurance : Setter fuel_boost_insurance := ltac:(setter).
#[export] Instance setter_token_program_flag : Setter token_program_flag := ltac:(setter).
#[export] Instance setter_sm_pool_id : Setter sm_pool_id := ltac:(setter).

Definition default_SpotMarket : SpotMarket :=
  mkSpotMarket 0 0 0 0 [] (mkHistoricalOracleData 0 0 0 0 0 0) (mkHistoricalIndexData 0 0 0 0 0)
    (mkPoolBalance 0 0) (mkPoolBalance 0 0) (mkInsuranceFund 0 0 0 0 0 0 0 0) 0 0 0 0 0 0 0 0 0 0 0 0 0 0 0
    1 0 0 0 0 0 0 0 0 0 0 0 0 0 0 0 0 0 false Pyth Initialized Unlisted 0 0 0 0 0 0 0 0 0 0 0 0 0 0 0 0.

(** A market with the fields of its balances, rates and pools given, for the
    examples. *)
Definition spot_market_of x_sm_market_index x_decimals x_deposit_balance x_borrow_balance x_cumulative_deposit_interest
    x_cumulative_borrow_interest x_deposit_token_twap x_borrow_token_twap x_utilization_twap
    x_last_interest_ts x_last_twap_ts x_optimal_utilization x_optimal_borrow_rate x_max_borrow_rate
    x_min_borrow_rate x_max_token_deposits x_max_token_borrows_fraction x_paused_operations x_asset_tier
    x_historical_oracle_data x_revenue_pool x_insurance_fund x_fuel_boost_insurance
    x_if_paused_operations x_sm_status : SpotMarket :=
  mkSpotMarket 0 0 0 0 [] x_historical_oracle_data (mkHistoricalIndexData 0 0 0 0 0) x_revenue_pool
    (mkPoolBalance 0 0) x_insurance_fund 0 x_deposit_balance x_borrow_balance x_cumulative_deposit_interest
    x_cumulative_borrow_interest 0 0 0 x_max_token_deposits x_deposit_token_twap x_borrow_token_twap
    x_utilization_twap x_last_interest_ts x_last_twap_ts 0 1 0 0 0 0 0 0 0 0 0 0 0 0 x_optimal_utilization
    x_optimal_borrow_rate x_max_borrow_rate x_decimals x_sm_market_index false Pyth x_sm_status x_asset_tier
    x_paused_operations x_if_paused_operations 0 x_max_token_borrows_fraction 0 0 0 0 x_min_borrow_rate 0 0
    0 0 x_fuel_boost_insurance 0 0.

(** Field updates. *)
Definition set_deposit_balance (m : SpotMarket) x : SpotMarket := m <| deposit_balance := x |>.
Definition set_borrow_balance (m : SpotMarket) x : SpotMarket := m <| borrow_balance := x |>.
Definition set_interest (m : SpotMarket) d b ts : SpotMarket :=
  m <| cumulative_deposit_interest := d |> <| cumulative_borrow_interest := b |> <| last_interest_ts := ts |>.
Definition set_token_twaps (m : SpotMarket) d b u : SpotMarket :=
  m <| deposit_token_twap := d |> <| borrow_token_twap := b |> <| utilization_twap := u |>.
Definition set_last_twap_ts (m : SpotMarket) ts : SpotMarket := m <| last_twap_ts := ts |>.
Definition set_oracle_data (m : SpotMarket) (o : HistoricalOracleData) : SpotMarket := m <| historical_oracle_data := o |>.
Definition set_revenue_pool (m : SpotMarket) (r : PoolBalance) : SpotMarket := m <| revenue_pool := r |>.
Definition set_insurance_fund (m : SpotMarket) (i : InsuranceFund) : SpotMarket := m <| insurance_fund := i |>.
Definition set_borrow_rates (m : SpotMarket) u o mx mn : SpotMarket :=
  m <| optimal_utilization := u |> <| optimal_borrow_rate := o |> <| max_borrow_rate := mx |> <| min_borrow_rate := mn |>.

(** ** The trait [SpotBalance] *)

Class SpotBalance (B : Type) := {
  market_index : B -> Z;
  balance_type : B -> SpotBalanceType;
  balance : B -> Z;
  increase_balance : B -> Z -> DriftResult B;
  decrease_balance : B -> Z -> DriftResult B;
  update_balance_type : B -> SpotBalanceType -> DriftResult B;
}.

#[export] Instance PoolBalance_SpotBalance : SpotBalance PoolBalance := {|
  market_index := pb_market_index;
  balance_type _ := Deposit;
  balance := pb_scaled_balance;
  increase_balance b delta :=
    let! x := safe_u 128 (pb_scaled_balance b + delta) in Ok (mkPoolBalance x (pb_market_index b));
  decrease_balance b delta :=
    let! x := safe_u 128 (pb_scaled_balance b - delta) in Ok (mkPoolBalance x (pb_market_index b));
  update_balance_type _ _ := Err CantUpdateSpotBalanceType;
|}.

Definition set_scaled_balance (b : SpotPosition) (x : Z) : SpotPosition :=
  b <| sp_scaled_balance := x |>.

#[export] Instance SpotPosition_SpotBalance : SpotBalance SpotPosition := {|
  market_index := sp_market_index;
  balance_type := sp_balance_type;
  balance := sp_scaled_balance;
  increase_balance b delta :=
    let! d := cast_u 64 delta in
    let! x := safe_u 64 (sp_scaled_balance b + d) in Ok (set_scaled_balance b x);
  decrease_balance b delta :=
    let! d := cast_u 64 delta in
    let! x := safe_u 64 (sp_scaled_balance b - d) in Ok (set_scaled_balance b x);
  update_balance_type b t :=
    Ok (b <| sp_balance_type := t |>);
|}.

(** ** math/spot_balance.rs *)

Definition cumulative_interest (m : SpotMarket) (t : SpotBalanceType) : Z :=
  match t with
  | Deposit => cumulative_deposit_interest m
  | Borrow => cumulative_borrow_interest m
  end.

(** [10_u128.pow(19_u32.safe_sub(decimals)?)] *)
Definition precision (m : SpotMarket) : DriftResult Z :=
  let! e := safe_u 32 (19 - decimals m) in
  uchk 128 (10 ^ e).

Definition get_spot_balance (token_amount : Z) (m : SpotMarket) (t : SpotBalanceType) (round_up : bool) :
    DriftResult Z :=
  let! precision_increase := precision m in
  let! p := safe_u 128 (token_amount * precision_increase) in
  let! balance := safe_udiv p (cumulative_interest m t) in
  if round_up && negb (balance =? 0) then safe_u 128 (balance + 1) else Ok balance.

Definition get_token_amount (balance : Z) (m : SpotMarket) (t : SpotBalanceType) : DriftResult Z :=
  let! precision_decrease := precision m in
  let! p := safe_u 128 (balance * cumulative_interest m t) in
  match t with
  | Deposit => safe_udiv p precision_decrease
  | Borrow => safe_div_ceil 128 p precision_decrease
  end.

Definition get_signed_token_amount (token_amount : Z) (t : SpotBalanceType) : DriftResult Z :=
  match t with
  | Deposit => cast_i 128 token_amount
  | Borrow => let! x := cast_i 128 token_amount in Ok (- x)
  end.

Definition get_interest_token_amount (balance : Z) (m : SpotMarket) (interest : Z) : DriftResult Z :=
  let! precision_decrease := precision m in
  let! p := safe_u 128 (balance * interest) in
  safe_udiv p precision_decrease.

Definition calculate_utilization (deposit_token_amount borrow_token_amount : Z) : DriftResult Z :=
  let! p := safe_u 128 (borrow_token_amount * SPOT_UTILIZATION_PRECISION) in
  Ok (match checked_udiv p deposit_token_amount with
      | Some u => u
      | None =>
          if (deposit_token_amount =? 0) && (borrow_token_amount =? 0) then 0
          else SPOT_UTILIZATION_PRECISION
      end).

Definition calculate_spot_market_utilization (m : SpotMarket) : DriftResult Z :=
  let! d := get_token_amount (deposit_balance m) m Deposit in
  let! b := get_token_amount (borrow_balance m) m Borrow in
  calculate_utilization d b.

Definition get_min_borrow_rate (m : SpotMarket) : DriftResult Z :=
  let! r := cast_u 32 (min_borrow_rate m) in
  let! s := cast_u 32 (PERCENTAGE_PRECISION / 200) in
  safe_u 32 (r * s).

(** The loop over the segments of the rate curve, from the rate and the
    utilization reached so far. *)
Fixpoint segments_rate (segments : list (Z * Z)) (total_extra_rate utilization prev_util rate : Z) :
    DriftResult Z :=
  match segments with
  | [] => Ok rate
  | (segment_end, weight) :: segments =>
      let! segment_range := safe_u 128 (segment_end - prev_util) in
      let! w := safe_u 128 (total_extra_rate * weight) in
      let! segment_rate_total := safe_udiv w 1000 in
      if utilization <=? segment_end then
        let! partial_util := safe_u 128 (utilization - prev_util) in
        let! p := safe_u 128 (segment_rate_total * partial_util) in
        let! partial_rate := safe_udiv p segment_range in
        safe_u 128 (rate + partial_rate)
      else
        let! rate := safe_u 128 (rate + segment_rate_total) in
        segments_rate segments total_extra_rate utilization segment_end rate
  end.

Definition calculate_borrow_rate (m : SpotMarket) (utilization : Z) : DriftResult Z :=
  let! optimal_util := cast_u 128 (optimal_utilization m) in
  let! optimal_rate := cast_u 128 (optimal_borrow_rate m) in
  let! max_rate := cast_u 128 (max_borrow_rate m) in
  let! min_rate := get_min_borrow_rate m in
  let! min_rate := cast_u 128 min_rate in
  let! borrow_rate :=
    if utilization <=? optimal_util then
      let! p := safe_u 128 (optimal_rate * SPOT_UTILIZATION_PRECISION) in
      let! slope := safe_udiv p optimal_util in
      let! q := safe_u 128 (utilization * slope) in
      safe_udiv q SPOT_UTILIZATION_PRECISION
    else
      let! total_extra_rate := safe_u 128 (max_rate - optimal_rate) in
      segments_rate INTEREST_RATE_SEGMENT_AND_WEIGHTS total_extra_rate utilization optimal_util optimal_rate in
  Ok (Z.max borrow_rate min_rate).

Record InterestAccumulated := mkInterestAccumulated { borrow_interest : Z; deposit_interest : Z }.

Definition calculate_accumulated_interest (m : SpotMarket) (now : Z) : DriftResult InterestAccumulated :=
  let! last := cast_i 64 (last_interest_ts m) in
  if now <=? last then Ok (mkInterestAccumulated 0 0)
  else
    let! utilization := calculate_spot_market_utilization m in
    if utilization =? 0 then Ok (mkInterestAccumulated 0 0)
    else
      let! borrow_rate := calculate_borrow_rate m utilization in
      let! now_u := if uok 64 now then Ok now else Err UnableToCastUnixTime in
      let! time_since_last_update := safe_u 64 (now_u - last_interest_ts m) in
      let! modified_borrow_rate := safe_u 128 (borrow_rate * time_since_last_update) in
      let! p := safe_u 128 (modified_borrow_rate * utilization) in
      let! modified_deposit_rate := safe_udiv p SPOT_UTILIZATION_PRECISION in
      let! b := safe_u 128 (cumulative_borrow_interest m * modified_borrow_rate) in
      let! b := safe_udiv b ONE_YEAR in
      let! b := safe_udiv b SPOT_RATE_PRECISION in
      let! b := safe_u 128 (b + 1) in
      let! d := safe_u 128 (cumulative_deposit_interest m * modified_deposit_rate) in
      let! d := safe_udiv d ONE_YEAR in
      let! d := safe_udiv d SPOT_RATE_PRECISION in
      Ok (mkInterestAccumulated b d).

(** [get_token_value]: [10_i128.pow] panics when it overflows. *)
Definition get_token_value (token_amount spot_decimals oracle_price : Z) : DriftResult Z :=
  if token_amount =? 0 then Ok 0
  else
    let! precision_decrease := ichk 128 (10 ^ spot_decimals) in
    let! p := cast_i 128 oracle_price in
    let! x := safe_i 128 (token_amount * p) in
    if x <? 0 then safe_div_floor 128 x precision_decrease else safe_idiv 128 x precision_decrease.

(** [StrictOraclePrice] of [state/oracle.rs]. *)
Record StrictOraclePrice := mkStrictOraclePrice { current : Z; twap_5min : option Z }.

Definition strict_max (p : StrictOraclePrice) : Z :=
  match twap_5min p with Some t => Z.max (current p) t | None => current p end.
Definition strict_min (p : StrictOraclePrice) : Z :=
  match twap_5min p with Some t => Z.min (current p) t | None => current p end.

Definition get_strict_token_value (token_amount spot_decimals : Z) (strict_price : StrictOraclePrice) :
    DriftResult Z :=
  if token_amount =? 0 then Ok 0
  else
    let! precision_decrease := ichk 128 (10 ^ spot_decimals) in
    let p := if 0 <? token_amount then strict_min strict_price else strict_max strict_price in
    let! p := cast_i 128 p in
    let! x := safe_i 128 (token_amount * p) in
    if x <? 0 then safe_div_floor 128 x precision_decrease else safe_idiv 128 x precision_decrease.

(** ** Methods of [SpotMarket] *)

Definition get_deposits (m : SpotMarket) : DriftResult Z := get_token_amount (deposit_balance m) m Deposit.
Definition get_borrows (m : SpotMarket) : DriftResult Z := get_token_amount (borrow_balance m) m Borrow.

Definition get_tvl (m : SpotMarket) : DriftResult Z :=
  let! d := get_deposits m in
  let! b := get_borrows m in
  safe_u 128 (d - b).

Definition validate_max_token_deposits_and_borrows (m : SpotMarket) (do_max_borrow_check : bool) :
    DriftResult unit :=
  let! deposits := get_deposits m in
  let! max_deposits := cast_u 128 (max_token_deposits m) in
  do! validate ((max_deposits =? 0) || (deposits <=? max_deposits)) MaxDeposit in
  if do_max_borrow_check && (0 <? max_token_borrows_fraction m) && (0 <? max_token_deposits m) then
    let! borrows := get_borrows m in
    let! p := safe_u 64 (max_token_deposits m * max_token_borrows_fraction m) in
    let! q := safe_udiv p 10000 in
    let! max_borrows := cast_u 128 q in
    validate ((max_borrows =? 0) || (borrows <=? max_borrows)) MaxBorrows
  else Ok tt.

Definition get_sanitize_clamp_denominator (m : SpotMarket) : option Z :=
  match asset_tier m with
  | Collateral | Protected => Some 10
  | Cross => Some 5
  | Isolated => Some 3
  | Unlisted => None
  end.

Definition get_utilization : SpotMarket -> DriftResult Z := calculate_spot_market_utilization.

Definition is_healthy_utilization (m : SpotMarket) : DriftResult bool :=
  let unhealthy_utilization := 900000 in
  let! u := get_utilization m in
  let! utilization := cast_u 64 u in
  Ok ((utilization_twap m <=? unhealthy_utilization) && (utilization <=? unhealthy_utilization)).

(** The bits of [InsuranceFundOperation]. *)
Inductive InsuranceFundOperation : Set := IFInit | IFAdd | IFRequestRemove | IFRemove.
Definition if_operation_bit (o : InsuranceFundOperation) : Z :=
  match o with IFInit => 1 | IFAdd => 2 | IFRequestRemove => 4 | IFRemove => 8 end.
Definition is_insurance_fund_operation_paused (m : SpotMarket) (o : InsuranceFundOperation) : bool :=
  negb (Z.land (if_paused_operations m) (if_operation_bit o) =? 0).

(** The bit [SpotOperation::UpdateCumulativeInterest]. *)
Definition interest_paused (m : SpotMarket) : bool := negb (Z.land (paused_operations m) 1 =? 0).

Definition get_protocol_shares (i : InsuranceFund) : DriftResult Z := safe_u 128 (total_shares i - user_shares i).

(** ** validation/spot_market.rs *)

Definition validate_borrow_rate (optimal_util optimal_rate max_rate min_rate : Z) : DriftResult unit :=
  do! validate (optimal_util <=? SPOT_UTILIZATION_PRECISION) InvalidSpotMarketInitialization in
  do! validate (optimal_rate <=? max_rate) InvalidSpotMarketInitialization in
  validate (min_rate <=? optimal_rate) InvalidSpotMarketInitialization.

(** [handle_update_spot_market_borrow_rate] of [instructions/admin.rs], after
    its account constraints. *)
Definition handle_update_spot_market_borrow_rate (m : SpotMarket) (optimal_util optimal_rate max_rate : Z)
    (new_min : option Z) : DriftResult SpotMarket :=
  let! min_rate := cast_u 32 (default (min_borrow_rate m) new_min) in
  let! min_rate := uchk 32 (min_rate * (PERCENTAGE_PRECISION / 200)) in
  do! validate_borrow_rate optimal_util optimal_rate max_rate min_rate in
  Ok (set_borrow_rates m optimal_util optimal_rate max_rate (default (min_borrow_rate m) new_min)).

(** * Lemmas *)

(** What a spot market is created with and keeps. *)
Record market_ok (m : SpotMarket) : Prop := {
  mo_decimals : 0 <= decimals m <= 19;
  mo_deposit_interest : 0 < cumulative_deposit_interest m;
  mo_borrow_interest : 0 < cumulative_borrow_interest m;
}.

(** The scale between balances times interest and tokens. *)
Definition scale (m : SpotMarket) : Z := 10 ^ (19 - decimals m).

Lemma market_ok_interest m t : market_ok m -> 0 < cumulative_interest m t.
Proof. intros [_ H1 H2]. by destruct t. Qed.

Lemma scale_pos m : market_ok m -> 0 < scale m.
Proof. intros [H _ _]. apply Z.pow_pos_nonneg; lia. Qed.

Lemma precision_ok m : market_ok m -> precision m = Ok (scale m).
Proof.
  intros [H _ _]. unfold precision. rewrite safe_u_ok by (unfold in_u; lia). cbn [obind].
  apply uchk_ok. split; [apply Z.pow_nonneg; lia|].
  apply Z.le_lt_trans with (10 ^ 19); [apply Z.pow_le_mono_r; lia|done].
Qed.

Lemma get_token_amount_Ok b m t x :
  market_ok m -> get_token_amount b m t = Ok x ->
  x = match t with
      | Deposit => b * cumulative_deposit_interest m / scale m
      | Borrow => zceil (b * cumulative_borrow_interest m) (scale m)
      end.
Proof.
  intros Hm. unfold get_token_amount. rewrite precision_ok by done. cbn [obind].
  intros (p & [-> _]%safe_u_Ok & H)%obind_Ok. destruct t.
  - by apply safe_udiv_Ok in H as [_ ->].
  - apply safe_div_ceil_Ok in H; [done|by apply scale_pos].
Qed.

Lemma get_spot_balance_Ok x m t up b :
  market_ok m -> get_spot_balance x m t up = Ok b ->
  let q := x * scale m / cumulative_interest m t in
  b = if up && negb (q =? 0) then q + 1 else q.
Proof.
  intros Hm. unfold get_spot_balance. rewrite precision_ok by done. cbn [obind].
  intros (p & [-> _]%safe_u_Ok & H)%obind_Ok. apply obind_Ok in H as (q & [_ ->]%safe_udiv_Ok & H).
  destruct (up && _); [by apply safe_u_Ok in H as [-> _]|by injection H as <-].
Qed.

(** ** The rate curve *)

(** The segments start at [prev] and have shares, not negative, of the rate. *)
Fixpoint segments_ok (prev : Z) (l : list (Z * Z)) : Prop :=
  match l with
  | [] => True
  | (e, w) :: l => prev <= e < 2 ^ 32 /\ 0 <= w <= 1000 /\ segments_ok e l
  end.

Definition segments_total (extra : Z) (l : list (Z * Z)) : Z :=
  foldr (fun s acc => extra * snd s / 1000 + acc) 0 l.

Lemma segments_total_nonneg extra prev l : 0 <= extra -> segments_ok prev l -> 0 <= segments_total extra l.
Proof.
  intros He. revert prev. induction l as [|[e w] l IH]; intros prev; [done|].
  intros (_ & Hw & Hl). cbn. pose proof (IH _ Hl). unfold segments_total in *.
  assert (0 <= extra * w / 1000) by (apply Z.div_pos; nia). lia.
Qed.

(** The curve: total above the optimum, bounded by the shares, increasing. *)
Lemma segments_rate_curve l extra prev rate u :
  0 <= prev -> segments_ok prev l -> 0 <= extra < 2 ^ 32 -> 0 <= rate ->
  rate + Z.of_nat (length l) * 2 ^ 32 < 2 ^ 128 -> prev < u ->
  exists r, segments_rate l extra u prev rate = Ok r /\ rate <= r <= rate + segments_total extra l /\
    forall u', u <= u' -> exists r', segments_rate l extra u' prev rate = Ok r' /\ r <= r'.
Proof.
  intros H0 Hl He. revert prev rate u H0 Hl.
  induction l as [|[e w] l IH]; intros prev rate u H0 Hl Hr Hmax Hu.
  { exists rate. split; [done|]. split; [cbn; lia|]. intros u' _. exists rate. split; [done|lia]. }
  destruct Hl as ([Hpe Hemax] & Hw & Hl). cbn [length] in Hmax. rewrite Nat2Z.inj_succ in Hmax.
  set (t := extra * w / 1000).
  assert (0 <= t <= extra) as Ht.
  { subst t. split; [apply Z.div_pos; nia|]. apply Z.div_le_upper_bound; nia. }
  pose proof (segments_total_nonneg extra e l (proj1 He) Hl) as Htot.
  assert (forall v, segments_rate ((e, w) :: l) extra v prev rate =
    if v <=? e then
      let! a := safe_u 128 (v - prev) in let! p := safe_u 128 (t * a) in
      let! q := safe_udiv p (e - prev) in safe_u 128 (rate + q)
    else segments_rate l extra v e (rate + t)) as Hunf.
  { intros v. cbn [segments_rate]. rewrite safe_u_ok by (unfold in_u; lia). cbn [obind].
    rewrite safe_u_ok by (unfold in_u; nia). cbn [obind]. rewrite safe_udiv_ok by lia. cbn [obind].
    fold t. rewrite (safe_u_ok 128 (rate + t)) by (unfold in_u; lia). done. }
  assert (forall v, prev < v <= e -> segments_rate ((e, w) :: l) extra v prev rate =
    Ok (rate + t * (v - prev) / (e - prev)) /\ 0 <= t * (v - prev) / (e - prev) <= t) as Hin.
  { intros v Hv. rewrite Hunf. destruct (Z.leb_spec v e); [|lia].
    assert (0 <= t * (v - prev) / (e - prev) <= t) as Hq.
    { split; [apply Z.div_pos; nia|]. apply Z.div_le_upper_bound; nia. }
    rewrite safe_u_ok by (unfold in_u; lia). cbn [obind]. rewrite safe_u_ok by (unfold in_u; nia). cbn [obind].
    rewrite safe_udiv_ok by lia. cbn [obind]. by rewrite safe_u_ok by (unfold in_u; lia). }
  cbn [segments_total foldr snd]. fold (segments_total extra l). fold t.
  destruct (Z.le_gt_cases u e) as [Hue|Hue].
  - destruct (Hin u ltac:(lia)) as [E Hb]. rewrite E. eexists. split; [done|]. split; [lia|].
    intros u' Hu'. destruct (Z.le_gt_cases u' e) as [Hue'|Hue'].
    + destruct (Hin u' ltac:(lia)) as [E' Hb']. rewrite E'. eexists. split; [done|].
      apply Z.add_le_mono_l, Z.div_le_mono; nia.
    + rewrite Hunf. destruct (Z.leb_spec u' e); [lia|].
      destruct (IH e (rate + t) u' ltac:(lia) Hl ltac:(lia) ltac:(lia) Hue') as (r' & -> & Hr' & _).
      exists r'. split; [done|lia].
  - rewrite Hunf. destruct (Z.leb_spec u e); [lia|].
    destruct (IH e (rate + t) u ltac:(lia) Hl ltac:(lia) ltac:(lia) Hue) as (r & -> & Hr' & Hm).
    exists r. split; [done|]. split; [lia|]. intros u' Hu'. rewrite Hunf.
    destruct (Z.leb_spec u' e); [lia|]. by apply Hm.
Qed.

(** What [validate_borrow_rate] checks, for values of their types, and an
    optimum not beyond the first breakpoint of the curve. *)
Record rates_ok (m : SpotMarket) : Prop := {
  ro_util : 0 <= optimal_utilization m <= 850000;
  ro_rates : 0 <= optimal_borrow_rate m <= max_borrow_rate m;
  ro_max : max_borrow_rate m < 2 ^ 32;
  ro_min : 0 <= min_borrow_rate m < 2 ^ 8;
  ro_floor : min_borrow_rate m * 5000 <= optimal_borrow_rate m;
}.

Lemma segments_ok_rates prev : 0 <= prev <= 850000 -> segments_ok prev INTEREST_RATE_SEGMENT_AND_WEIGHTS.
Proof. intros H. cbn. lia. Qed.

(** The shares of the curve add up to the whole. *)
Lemma segments_total_le extra : 0 <= extra -> segments_total extra INTEREST_RATE_SEGMENT_AND_WEIGHTS <= extra.
Proof.
  intros H. cbn [segments_total foldr INTEREST_RATE_SEGMENT_AND_WEIGHTS snd].
  pose proof (zfloor_bounds (extra * 50) 1000). pose proof (zfloor_bounds (extra * 100) 1000).
  pose proof (zfloor_bounds (extra * 150) 1000). pose proof (zfloor_bounds (extra * 200) 1000).
  pose proof (zfloor_bounds (extra * 250) 1000). lia.
Qed.

(** Below and at the optimum the rate is proportional, with a rounded slope. *)
Definition low_rate (m : SpotMarket) (u : Z) : Z :=
  u * (optimal_borrow_rate m * SPOT_UTILIZATION_PRECISION / optimal_utilization m) / SPOT_UTILIZATION_PRECISION.

Lemma low_rate_le m u :
  rates_ok m -> 0 < u <= optimal_utilization m -> 0 <= low_rate m u <= optimal_borrow_rate m.
Proof.
  intros Hm Hu. pose proof (ro_rates _ Hm) as Hr. unfold low_rate, SPOT_UTILIZATION_PRECISION, PERCENTAGE_PRECISION.
  set (s := _ / optimal_utilization m).
  assert (0 <= s) as Hs by (apply Z.div_pos; lia).
  assert (s * optimal_utilization m <= optimal_borrow_rate m * 1000000) as Hle.
  { subst s. rewrite Z.mul_comm. apply Z.mul_div_le. lia. }
  split; [apply Z.div_pos; nia|]. apply Z.div_le_upper_bound; nia.
Qed.

Lemma calculate_borrow_rate_eq m u :
  rates_ok m -> 0 < u ->
  calculate_borrow_rate m u =
    let! r := if u <=? optimal_utilization m then Ok (low_rate m u)
              else segments_rate INTEREST_RATE_SEGMENT_AND_WEIGHTS
                     (max_borrow_rate m - optimal_borrow_rate m) u (optimal_utilization m) (optimal_borrow_rate m) in
    Ok (Z.max r (min_borrow_rate m * 5000)).
Proof.
  intros Hm Hu. unfold calculate_borrow_rate, get_min_borrow_rate.
  pose proof Hm as [H1 H2 H3 H4 H5].
  rewrite !(cast_u_ok 128) by (unfold in_u; lia). cbn [obind].
  rewrite (cast_u_ok 32) by (unfold in_u; lia). cbn [obind].
  change (PERCENTAGE_PRECISION / 200) with 5000. rewrite (cast_u_ok 32 5000) by (unfold in_u; lia). cbn [obind].
  rewrite safe_u_ok by (unfold in_u; lia). cbn [obind].
  rewrite cast_u_ok by (unfold in_u; lia). cbn [obind].
  destruct (Z.leb_spec u (optimal_utilization m)) as [Hle|Hgt].
  - rewrite safe_u_ok by (unfold in_u, SPOT_UTILIZATION_PRECISION, PERCENTAGE_PRECISION; lia). cbn [obind].
    rewrite safe_udiv_ok by lia. cbn [obind].
    pose proof (low_rate_le m u Hm ltac:(lia)) as Hlow. unfold low_rate in *.
    set (s := _ / optimal_utilization m) in *.
    assert (0 <= s < 2 ^ 64) as Hs.
    { subst s. unfold SPOT_UTILIZATION_PRECISION, PERCENTAGE_PRECISION.
      split; [apply Z.div_pos; lia|]. apply Z.div_lt_upper_bound; nia. }
    rewrite safe_u_ok by (unfold in_u; nia). cbn [obind]. by rewrite safe_udiv_ok by done.
  - by rewrite safe_u_ok by (unfold in_u; lia).
Qed.

(** * Properties *)

(** The borrow rate of a market with accepted rates and an optimum of at
    most 85%: at every positive utilization the computation succeeds, the rate
    is between the minimum and the maximum rate of the market - above the
    optimum, at least the optimal rate -, and more utilization never makes it
    cheaper. *)
Theorem borrow_rate_curve m u u' :
  rates_ok m -> 0 < u <= u' ->
  exists r r', calculate_borrow_rate m u = Ok r /\ calculate_borrow_rate m u' = Ok r' /\
    min_borrow_rate m * 5000 <= r <= r' /\ r' <= max_borrow_rate m /\
    (optimal_utilization m < u -> optimal_borrow_rate m <= r).
Proof.
  intros Hm Hu. rewrite !calculate_borrow_rate_eq by (done || lia).
  pose proof (ro_util _ Hm) as H1. pose proof (ro_rates _ Hm) as H2. pose proof (ro_max _ Hm) as H3.
  pose proof (ro_floor _ Hm) as H5.
  assert (forall v, optimal_utilization m < v -> exists r,
    segments_rate INTEREST_RATE_SEGMENT_AND_WEIGHTS (max_borrow_rate m - optimal_borrow_rate m) v
      (optimal_utilization m) (optimal_borrow_rate m) = Ok r /\
    optimal_borrow_rate m <= r <= max_borrow_rate m /\
    forall v', v <= v' -> exists r', segments_rate INTEREST_RATE_SEGMENT_AND_WEIGHTS
      (max_borrow_rate m - optimal_borrow_rate m) v' (optimal_utilization m) (optimal_borrow_rate m) = Ok r' /\
      r <= r') as Hhigh.
  { intros v Hv.
    pose proof (segments_total_le (max_borrow_rate m - optimal_borrow_rate m) ltac:(lia)) as Ht.
    destruct (segments_rate_curve INTEREST_RATE_SEGMENT_AND_WEIGHTS (max_borrow_rate m - optimal_borrow_rate m)
      (optimal_utilization m) (optimal_borrow_rate m) v) as (r & Hr & Hb & Hmono);
      [lia|by apply segments_ok_rates|lia|lia|cbn; lia|done|].
    exists r. split; [done|]. split; [lia|done]. }
  destruct (Z.leb_spec u (optimal_utilization m)) as [Hle|Hgt].
  - pose proof (low_rate_le m u Hm ltac:(lia)) as Hlow.
    destruct (Z.leb_spec u' (optimal_utilization m)) as [Hle'|Hgt'].
    + pose proof (low_rate_le m u' Hm ltac:(lia)) as Hlow'.
      assert (low_rate m u <= low_rate m u') as Hmono.
      { unfold low_rate, SPOT_UTILIZATION_PRECISION, PERCENTAGE_PRECISION.
        apply Z.div_le_mono; [lia|]. apply Z.mul_le_mono_nonneg_r; [apply Z.div_pos; lia|lia]. }
      eexists _, _. split; [done|]. split; [done|]. lia.
    + destruct (Hhigh u' Hgt') as (r' & Hr' & Hb & _). rewrite Hr'.
      eexists _, _. split; [done|]. split; [done|]. lia.
  - destruct (Hhigh u Hgt) as (r & Hr & Hb & Hmono). destruct (Hmono u' ltac:(lia)) as (r' & Hr' & Hle).
    destruct (Hhigh u' ltac:(lia)) as (r2 & Hr2 & Hb2 & _).
    destruct (Z.leb_spec u' (optimal_utilization m)); [lia|].
    rewrite Hr, Hr'. rewrite Hr' in Hr2. injection Hr2 as <-.
    eexists _, _. split; [done|]. split; [done|]. lia.
Qed.

(** An optimum above 85% disables the market: [validate_borrow_rate] accepts
    an optimal utilization up to 100%, but the curve has its first breakpoint
    at 85%; with an optimum above it, every computation of the interest at a
    utilization above the optimum returns [MathError], and with it every
    instruction that updates the interest of the market first. *)
Theorem high_optimum_stops_interest m now u :
  validate_borrow_rate (optimal_utilization m) (optimal_borrow_rate m) (max_borrow_rate m)
    (min_borrow_rate m * 5000) = Ok tt ->
  0 <= optimal_borrow_rate m -> max_borrow_rate m < 2 ^ 32 -> 0 <= min_borrow_rate m < 2 ^ 8 ->
  850000 < optimal_utilization m ->
  0 <= last_interest_ts m < now -> now < 2 ^ 63 ->
  calculate_spot_market_utilization m = Ok u -> optimal_utilization m < u ->
  calculate_accumulated_interest m now = Err MathError.
Proof.
  unfold validate_borrow_rate, SPOT_UTILIZATION_PRECISION, PERCENTAGE_PRECISION.
  intros (? & H1%validate_Ok & (? & H2%validate_Ok & H3%validate_Ok)%obind_Ok)%obind_Ok.
  apply Z.leb_le in H1, H2, H3. intros H4 H5 H6 H7 Hnow Hmax Hu Hgt.
  unfold calculate_accumulated_interest.
  rewrite cast_i_ok by (unfold in_i; lia). cbn [obind]. destruct (Z.leb_spec now (last_interest_ts m)); [lia|].
  rewrite Hu. cbn [obind]. destruct (Z.eqb_spec u 0); [lia|].
  assert (calculate_borrow_rate m u = Err MathError) as ->; [|done].
  unfold calculate_borrow_rate, get_min_borrow_rate.
  rewrite !(cast_u_ok 128) by (unfold in_u; lia). cbn [obind].
  rewrite (cast_u_ok 32) by (unfold in_u; lia). cbn [obind].
  change (PERCENTAGE_PRECISION / 200) with 5000. rewrite (cast_u_ok 32 5000) by (unfold in_u; lia). cbn [obind].
  rewrite safe_u_ok by (unfold in_u; lia). cbn [obind].
  rewrite cast_u_ok by (unfold in_u; lia). cbn [obind].
  destruct (Z.leb_spec u (optimal_utilization m)); [lia|].
  rewrite safe_u_ok by (unfold in_u; lia). cbn [obind segments_rate INTEREST_RATE_SEGMENT_AND_WEIGHTS].
  unfold safe_u at 1, ucheck, uok. by destruct (Z.leb_spec 0 (850000 - optimal_utilization m)); [lia|].
Qed.

(** Balances and tokens, there and back: a deposit of [x] tokens is worth at
    most [x] afterwards, and loses less than one token unit plus the worth of
    one unit of balance; a borrow of [x] is owed as at least [x] - unless [x]
    is worth less than one unit of balance, when nothing is owed. *)
Theorem spot_balance_roundtrip m x d b xd xb :
  market_ok m -> 0 <= x ->
  get_spot_balance x m Deposit false = Ok d -> get_token_amount d m Deposit = Ok xd ->
  get_spot_balance x m Borrow true = Ok b -> get_token_amount b m Borrow = Ok xb ->
  (xd <= x /\ scale m * (x - xd) < scale m + cumulative_deposit_interest m) /\
  (x <= xb \/ (b = 0 /\ x * scale m < cumulative_borrow_interest m)).
Proof.
  intros Hm Hx Hd Hxd Hb Hxb. pose proof (scale_pos m Hm) as Hs.
  pose proof (market_ok_interest m Deposit Hm) as Hi. pose proof (market_ok_interest m Borrow Hm) as Hj.
  apply get_spot_balance_Ok in Hd; [|done]. apply get_spot_balance_Ok in Hb; [|done].
  apply get_token_amount_Ok in Hxd; [|done]. apply get_token_amount_Ok in Hxb; [|done].
  cbn [cumulative_interest andb] in *. set (s := scale m) in *.
  set (ci := cumulative_deposit_interest m) in *. set (cb := cumulative_borrow_interest m) in *.
  split.
  - subst d xd. pose proof (zfloor_bounds (x * s) ci Hi) as H1.
    pose proof (zfloor_bounds (x * s / ci * ci) s Hs) as H2. nia.
  - pose proof (zfloor_bounds (x * s) cb Hj) as H1.
    destruct (Z.eqb_spec (x * s / cb) 0) as [E|E]; cbn [negb] in Hb; subst b.
    + right. rewrite E in *. split; [done|lia].
    + left. subst xb. pose proof (zceil_bounds ((x * s / cb + 1) * cb) s Hs) as H2. nia.
Qed.

Lemma calculate_spot_market_utilization_Ok m dt bt u :
  get_deposits m = Ok dt -> get_borrows m = Ok bt -> 0 < dt -> calculate_spot_market_utilization m = Ok u ->
  u = bt * SPOT_UTILIZATION_PRECISION / dt.
Proof.
  unfold get_deposits, get_borrows, calculate_spot_market_utilization. intros -> -> Hd. cbn [obind].
  unfold calculate_utilization, checked_udiv. intros (p & [-> _]%safe_u_Ok & H)%obind_Ok.
  destruct (Z.eqb_spec dt 0); [lia|]. by injection H as <-.
Qed.

(** The interest of a period, by the rate [r] and the utilization [u]. *)
Lemma calculate_accumulated_interest_Ok m now i :
  calculate_accumulated_interest m now = Ok i -> deposit_interest i <> 0 ->
  exists u r, calculate_spot_market_utilization m = Ok u /\ calculate_borrow_rate m u = Ok r /\
    let R := r * (now - last_interest_ts m) in
    deposit_interest i = cumulative_deposit_interest m * (R * u / SPOT_UTILIZATION_PRECISION) / ONE_YEAR / SPOT_RATE_PRECISION /\
    borrow_interest i = cumulative_borrow_interest m * R / ONE_YEAR / SPOT_RATE_PRECISION + 1 /\
    0 <= R.
Proof.
  unfold calculate_accumulated_interest. intros H Hne.
  apply obind_Ok in H as (last & [-> _]%cast_i_Ok & H).
  destruct (Z.leb_spec now (last_interest_ts m)); [by injection H as <-|].
  apply obind_Ok in H as (u & Hu & H). destruct (Z.eqb_spec u 0); [by injection H as <-|].
  apply obind_Ok in H as (r & Hr & H).
  apply obind_Ok in H as (nu & Hnu & H). destruct (uok 64 now); [injection Hnu as <-|done].
  apply obind_Ok in H as (ts & [-> _]%safe_u_Ok & H).
  apply obind_Ok in H as (mb & [-> HR]%safe_u_Ok & H). apply obind_Ok in H as (p & [-> _]%safe_u_Ok & H).
  apply obind_Ok in H as (md & [_ ->]%safe_udiv_Ok & H). apply obind_Ok in H as (b1 & [-> _]%safe_u_Ok & H).
  apply obind_Ok in H as (b2 & [_ ->]%safe_udiv_Ok & H). apply obind_Ok in H as (b3 & [_ ->]%safe_udiv_Ok & H).
  apply obind_Ok in H as (b4 & [-> _]%safe_u_Ok & H). apply obind_Ok in H as (d1 & [-> _]%safe_u_Ok & H).
  apply obind_Ok in H as (d2 & [_ ->]%safe_udiv_Ok & H). apply obind_Ok in H as (d3 & [_ ->]%safe_udiv_Ok & H).
  injection H as <-. exists u, r. repeat split; try done. exact (proj1 HR).
Qed.

(** Two divisions in a row: at most the product below, more than it above. *)
Lemma div_div_bounds a b c : 0 < b -> 0 < c -> a / b / c * (b * c) <= a < (a / b / c + 1) * (b * c).
Proof. intros Hb Hc. rewrite Z.div_div by lia. apply zfloor_bounds. lia. Qed.

(** Lenders are paid by borrowers: over an update, the interest credited to
    all deposits together - the stakers' share included - exceeds the interest
    charged on all borrows by at most the rate of the period applied to one
    token unit and, times the utilization, to another; amounts are scaled by
    the deposits, the year and the precision. *)
Theorem interest_paid_by_borrowers m now i dt bt u r :
  market_ok m -> 0 <= deposit_balance m -> 0 <= borrow_balance m ->
  get_deposits m = Ok dt -> get_borrows m = Ok bt -> 0 < dt ->
  calculate_spot_market_utilization m = Ok u -> calculate_borrow_rate m u = Ok r ->
  calculate_accumulated_interest m now = Ok i -> deposit_interest i <> 0 ->
  dt * (deposit_balance m * deposit_interest i * (ONE_YEAR * SPOT_RATE_PRECISION)) <=
  dt * (borrow_balance m * borrow_interest i * (ONE_YEAR * SPOT_RATE_PRECISION)) +
    scale m * (r * (now - last_interest_ts m)) * (dt + bt).
Proof.
  intros Hm HD HB Hdt Hbt Hdt0 Hu Hr Hi Hne.
  pose proof (calculate_spot_market_utilization_Ok _ _ _ _ Hdt Hbt Hdt0 Hu) as Eu.
  destruct (calculate_accumulated_interest_Ok _ _ _ Hi Hne) as (u' & r' & Hu' & Hr' & Ed & Eb & HR).
  rewrite Hu in Hu'. injection Hu' as <-. rewrite Hr in Hr'. injection Hr' as <-.
  pose proof (scale_pos m Hm) as Hs.
  pose proof (market_ok_interest m Deposit Hm) as Hcd. pose proof (market_ok_interest m Borrow Hm) as Hcb.
  apply get_token_amount_Ok in Hdt; [|done]. apply get_token_amount_Ok in Hbt; [|done].
  cbn [cumulative_interest] in *. unfold SPOT_UTILIZATION_PRECISION, SPOT_RATE_PRECISION, PERCENTAGE_PRECISION in *.
  set (R := r * (now - last_interest_ts m)) in *. set (s := scale m) in *.
  set (D := deposit_balance m) in *. set (B := borrow_balance m) in *.
  set (cd := cumulative_deposit_interest m) in *. set (cb := cumulative_borrow_interest m) in *.
  set (di := deposit_interest i) in *. set (bi := borrow_interest i) in *.
  pose proof (zfloor_bounds (D * cd) s Hs) as HDcd. rewrite <- Hdt in HDcd.
  pose proof (zceil_bounds (B * cb) s Hs) as HBcb. rewrite <- Hbt in HBcb.
  pose proof (zfloor_bounds (bt * 1000000) dt Hdt0) as Hub. rewrite <- Eu in Hub.
  set (md := R * u / 1000000) in *. pose proof (zfloor_bounds (R * u) 1000000 ltac:(lia)) as Hmd. fold md in Hmd.
  pose proof (div_div_bounds (cd * md) ONE_YEAR 1000000 ltac:(done) ltac:(lia)) as Hdi. rewrite <- Ed in Hdi.
  pose proof (div_div_bounds (cb * R) ONE_YEAR 1000000 ltac:(done) ltac:(lia)) as Hbi. rewrite <- Eb in Hbi.
  assert (0 <= bt) as Hbt0 by (rewrite Hbt; apply zceil_nonneg; [done|]; apply Z.mul_nonneg_nonneg; lia).
  assert (0 <= u) as Hu0 by (rewrite Eu; apply Z.div_pos; lia).
  assert (0 <= md) as Hmd0 by (apply Z.div_pos; nia).
  assert (md * dt <= R * bt) as Hkey by nia.
  set (Y := ONE_YEAR * 1000000) in *.
  assert (D * di * Y <= D * (cd * md)) as H1 by (rewrite <- Z.mul_assoc; apply Z.mul_le_mono_nonneg_l; lia).
  assert (D * (cd * md) <= (dt + 1) * s * md) as H2 by nia.
  assert (dt * ((dt + 1) * s * md) <= R * bt * ((dt + 1) * s)) as H3.
  { replace (dt * ((dt + 1) * s * md)) with (md * dt * ((dt + 1) * s)) by ring. apply Z.mul_le_mono_nonneg_r; nia. }
  assert (B * (cb * R) <= B * bi * Y) as H4 by (rewrite <- Z.mul_assoc; apply Z.mul_le_mono_nonneg_l; lia).
  assert ((bt - 1) * s * R <= B * (cb * R)) as H5 by nia.
  assert (dt * (D * di * Y) <= R * bt * ((dt + 1) * s)) as H6 by nia.
  assert (dt * ((bt - 1) * s * R) <= dt * (B * bi * Y)) as H7 by (apply Z.mul_le_mono_nonneg_l; lia).
  nia.
Qed.

(** * Examples *)

(** A market of a six-decimal token, a thousand deposited, half of it lent. *)
Definition sample_spot_market (optimum : Z) (borrowed : Z) : SpotMarket :=
  spot_market_of 0 6 1000000000000 borrowed 10000000000 10000000000 0 0 0 0 0
    optimum 20000 500000 0 0 0 0 Collateral (mkHistoricalOracleData 0 0 0 0 0 0)
    (mkPoolBalance 0 0) (mkInsuranceFund 0 0 0 0 0 0 0 0) 0 0 Active.

Lemma sample_spot_market_ok optimum borrowed : market_ok (sample_spot_market optimum borrowed).
Proof. split; cbn; lia. Qed.

Lemma borrow_rate_curve_witness :
  calculate_borrow_rate (sample_spot_market 800000 0) 400000 = Ok 10000 /\
  exists r r', calculate_borrow_rate (sample_spot_market 800000 0) 400000 = Ok r /\
    calculate_borrow_rate (sample_spot_market 800000 0) 950000 = Ok r' /\ 0 <= r <= r' /\ r' <= 500000.
Proof.
  split; [vm_compute; reflexivity|].
  destruct (borrow_rate_curve (sample_spot_market 800000 0) 400000 950000) as (r & r' & H1 & H2 & H3 & H4 & _).
  - split; cbn; lia.
  - lia.
  - exists r, r'. cbn in H3, H4. split; [exact H1|]. split; [exact H2|]. split; [exact H3|exact H4].
Defined.

Lemma high_optimum_stops_interest_witness :
  calculate_accumulated_interest (sample_spot_market 900000 950000000000) 3600 = Err MathError.
Proof.
  apply (high_optimum_stops_interest (sample_spot_market 900000 950000000000) 3600 950000);
    [reflexivity|cbn; lia|cbn; lia|cbn; lia|cbn; lia|cbn; lia|lia|vm_compute; reflexivity|cbn; lia].
Defined.

Lemma spot_balance_roundtrip_witness :
  let m := sample_spot_market 800000 0 in
  (1234567 <= 1234567 /\ scale m * (1234567 - 1234567) < scale m + cumulative_deposit_interest m) /\
  (1234567 <= 1234568 \/ (1234567001 = 0 /\ 1234567 * scale m < cumulative_borrow_interest m)).
Proof.
  apply (spot_balance_roundtrip (sample_spot_market 800000 0) 1234567 1234567000 1234567001);
    [apply sample_spot_market_ok|lia|vm_compute; reflexivity..].
Defined.

Lemma interest_paid_by_borrowers_witness :
  let m := sample_spot_market 800000 500000000000 in
  let i := mkInterestAccumulated 14270 7134 in
  calculate_accumulated_interest m 3600 = Ok i /\
  1000000000 * (1000000000000 * 7134 * (ONE_YEAR * SPOT_RATE_PRECISION)) <=
  1000000000 * (500000000000 * 14270 * (ONE_YEAR * SPOT_RATE_PRECISION)) +
    scale m * (12500 * (3600 - 0)) * (1000000000 + 500000000).
Proof.
  assert (calculate_accumulated_interest (sample_spot_market 800000 500000000000) 3600 =
    Ok (mkInterestAccumulated 14270 7134)) as H by (vm_compute; reflexivity).
  split; [exact H|].
  apply (interest_paid_by_borrowers (sample_spot_market 800000 500000000000) 3600
    (mkInterestAccumulated 14270 7134) 1000000000 500000000 500000 12500);
    [apply sample_spot_market_ok|cbn; lia|cbn; lia|vm_compute; reflexivity|vm_compute; reflexivity|lia
    |vm_compute; reflexivity|vm_compute; reflexivity|exact H|cbn; lia].
Defined.
