(* ===== verification/DriftTypes.v ===== *)
(** The accounts of the perpetual markets of [programs/drift]: [AMM],
    [PerpMarket] and [InsuranceClaim] of [state/perp_market.rs], [PerpPosition],
    [Order], [User] and [UserStats] of [state/user.rs], with their enumerations.

    Fields keep the source's names; where two accounts share a name, or a
    spot market has it, it is prefixed: [pm_] for [PerpMarket], [amm_] for
    [AMM], [pp_] for [PerpPosition], [o_] for [Order], [us_] for
    [UserStats], [u_] for [User].  Padding is left out. *)
From S2P Require Import Prelude.
From S2P Require Import RecordUpdate.
From S2P Require Import DriftError.
From S2P Require Import DriftMath.
From S2P Require Import DriftSpotMarket.

(** ** Enumerations *)

(** [SwapDirection] of [controller/amm.rs], [PositionDirection] of
    [controller/position.rs]. *)
Inductive SwapDirection : Set := Add | Remove.
Inductive PositionDirection : Set := Long | Short.

Definition opposite (d : PositionDirection) : PositionDirection :=
  match d with Long => Short | Short => Long end.

Inductive LpStatus : Set := Uncollateralized | LpActive | Decommissioning.
Definition is_collateralized (s : LpStatus) : bool := match s with Uncollateralized => false | _ => true end.

Inductive ContractType : Set := Perpetual | Future | Prediction.
Inductive ContractTier : Set := TierA | TierB | TierC | Speculative | HighlySpeculative | TierIsolated.

Inductive OrderStatus : Set := OrderInit | OrderOpen | OrderFilled | OrderCanceled.
Inductive OrderType : Set := MarketOrder | LimitOrder | TriggerMarket | TriggerLimit | OracleOrder.
Inductive OrderTriggerCondition : Set := Above | Below | TriggeredAbove | TriggeredBelow.
Inductive MarketType : Set := Spot | Perp.

#[export] Instance SwapDirection_eq_dec : EqDecision SwapDirection.
Proof. solve_decision. Defined.
#[export] Instance PositionDirection_eq_dec : EqDecision PositionDirection.
Proof. solve_decision. Defined.
#[export] Instance ContractType_eq_dec : EqDecision ContractType.
Proof. solve_decision. Defined.
#[export] Instance OrderStatus_eq_dec : EqDecision OrderStatus.
Proof. solve_decision. Defined.
#[export] Instance MarketType_eq_dec : EqDecision MarketType.
Proof. solve_decision. Defined.
#[export] Instance MarketStatus_eq_dec : EqDecision MarketStatus.
Proof. solve_decision. Defined.

(** The order of [ContractTier] and of [AssetTier]. *)
Definition tier_rank (t : ContractTier) : Z :=
  match t with
  | TierA => 0 | TierB => 1 | TierC => 2 | Speculative => 3 | HighlySpeculative => 4 | TierIsolated => 5
  end.
Definition asset_rank (t : AssetTier) : Z :=
  match t with Collateral => 0 | Protected => 1 | Cross => 2 | Isolated => 3 | Unlisted => 4 end.

Definition is_as_safe_as_contract (t other : ContractTier) : bool := tier_rank t <=? tier_rank other.
Definition is_as_safe_as_asset (t : ContractTier) (other : AssetTier) : bool :=
  match other with
  | Unlisted => true
  | _ => (asset_rank Cross <=? asset_rank other) && (tier_rank t <=? tier_rank TierC)
  end.
Definition is_as_safe_as (t : ContractTier) (best_contract : ContractTier) (best_asset : AssetTier) : bool :=
  is_as_safe_as_contract t best_contract && is_as_safe_as_asset t best_asset.

Definition validate_not_deprecated (s : MarketStatus) : DriftResult unit :=
  match s with
  | FundingPaused | AmmPaused | FillPaused | WithdrawPaused => Err DefaultError
  | _ => Ok tt
  end.

(** ** The market *)

Record InsuranceClaim := mkInsuranceClaim {
  revenue_withdraw_since_last_settle : Z;
  max_revenue_withdraw_per_period : Z;
  quote_max_insurance : Z;
  quote_settled_insurance : Z;
  last_revenue_withdraw_ts : Z;
}.

#[export] Instance eta_InsuranceClaim : Eta InsuranceClaim := fun r =>
  mkInsuranceClaim (revenue_withdraw_since_last_settle r) (max_revenue_withdraw_per_period r)
    (quote_max_insurance r) (quote_settled_insurance r) (last_revenue_withdraw_ts r).

#[export] Instance set_revenue_withdraw_since_last_settle : Setter revenue_withdraw_since_last_settle := ltac:(setter).
#[export] Instance set_max_revenue_withdraw_per_period : Setter max_revenue_withdraw_per_period := ltac:(setter).
#[export] Instance set_quote_max_insurance : Setter quote_max_insurance := ltac:(setter).
#[export] Instance set_quote_settled_insurance : Setter quote_settled_insurance := ltac:(setter).
#[export] Instance set_last_revenue_withdraw_ts : Setter last_revenue_withdraw_ts := ltac:(setter).

Record AMM := mkAMM {
  oracle : Z;
  amm_historical_oracle_data : HistoricalOracleData;
  base_asset_amount_per_lp : Z;
  quote_asset_amount_per_lp : Z;
  fee_pool : PoolBalance;
  base_asset_reserve : Z;
  quote_asset_reserve : Z;
  concentration_coef : Z;
  min_base_asset_reserve : Z;
  max_base_asset_reserve : Z;
  sqrt_k : Z;
  peg_multiplier : Z;
  terminal_quote_asset_reserve : Z;
  base_asset_amount_long : Z;
  base_asset_amount_short : Z;
  base_asset_amount_with_amm : Z;
  base_asset_amount_with_unsettled_lp : Z;
  max_open_interest : Z;
  amm_quote_asset_amount : Z;
  quote_entry_amount_long : Z;
  quote_entry_amount_short : Z;
  quote_break_even_amount_long : Z;
  quote_break_even_amount_short : Z;
  user_lp_shares : Z;
  last_funding_rate : Z;
  last_funding_rate_long : Z;
  last_funding_rate_short : Z;
  last_24h_avg_funding_rate : Z;
  total_fee : Z;
  total_mm_fee : Z;
  total_exchange_fee : Z;
  total_fee_minus_distributions : Z;
  total_fee_withdrawn : Z;
  total_liquidation_fee : Z;
  cumulative_funding_rate_long : Z;
  cumulative_funding_rate_short : Z;
  total_social_loss : Z;
  ask_base_asset_reserve : Z;
  ask_quote_asset_reserve : Z;
  bid_base_asset_reserve : Z;
  bid_quote_asset_reserve : Z;
  last_oracle_normalised_price : Z;
  last_oracle_reserve_price_spread_pct : Z;
  last_bid_price_twap : Z;
  last_ask_price_twap : Z;
  last_mark_price_twap : Z;
  last_mark_price_twap_5min : Z;
  last_update_slot : Z;
  last_oracle_conf_pct : Z;
  net_revenue_since_last_funding : Z;
  last_funding_rate_ts : Z;
  funding_period : Z;
  order_step_size : Z;
  order_tick_size : Z;
  min_order_size : Z;
  mm_oracle_slot : Z;
  volume_24h : Z;
  long_intensity_volume : Z;
  short_intensity_volume : Z;
  last_trade_ts : Z;
  mark_std : Z;
  oracle_std : Z;
  last_mark_price_twap_ts : Z;
  base_spread : Z;
  max_spread : Z;
  long_spread : Z;
  short_spread : Z;
  mm_oracle_price : Z;
  max_fill_reserve_fraction : Z;
  max_slippage_ratio : Z;
  curve_update_intensity : Z;
  amm_jit_intensity : Z;
  oracle_source : OracleSource;
  last_oracle_valid : bool;
  target_base_asset_amount_per_lp : Z;
  per_lp_base : Z;
  oracle_low_risk_slot_delay_override : Z;
  amm_spread_adjustment : Z;
  oracle_slot_delay_override : Z;
  mm_oracle_sequence_id : Z;
  net_unsettled_funding_pnl : Z;
  quote_asset_amount_with_unsettled_lp : Z;
  reference_price_offset : Z;
  amm_inventory_spread_adjustment : Z;
  reference_price_offset_deadband_pct : Z;
  last_funding_oracle_twap : Z;
}.

#[export] Instance eta_AMM : Eta AMM := fun r =>
  mkAMM (oracle r) (amm_historical_oracle_data r) (base_asset_amount_per_lp r) (quote_asset_amount_per_lp r)
    (fee_pool r) (base_asset_reserve r) (quote_asset_reserve r) (concentration_coef r)
    (min_base_asset_reserve r) (max_base_asset_reserve r) (sqrt_k r) (peg_multiplier r)
    (terminal_quote_asset_reserve r) (base_asset_amount_long r) (base_asset_amount_short r)
    (base_asset_amount_with_amm r) (base_asset_amount_with_unsettled_lp r) (max_open_interest r)
    (amm_quote_asset_amount r) (quote_entry_amount_long r) (quote_entry_amount_short r)
    (quote_break_even_amount_long r) (quote_break_even_amount_short r) (user_lp_shares r) (last_funding_rate
    r) (last_funding_rate_long r) (last_funding_rate_short r) (last_24h_avg_funding_rate r) (total_fee r)
    (total_mm_fee r) (total_exchange_fee r) (total_fee_minus_distributions r) (total_fee_withdrawn r)
    (total_liquidation_fee r) (cumulative_funding_rate_long r) (cumulative_funding_rate_short r)
    (total_social_loss r) (ask_base_asset_reserve r) (ask_quote_asset_reserve r) (bid_base_asset_reserve r)
    (bid_quote_asset_reserve r) (last_oracle_normalised_price r) (last_oracle_reserve_price_spread_pct r)
    (last_bid_price_twap r) (last_ask_price_twap r) (last_mark_price_twap r) (last_mark_price_twap_5min r)
    (last_update_slot r) (last_oracle_conf_pct r) (net_revenue_since_last_funding r) (last_funding_rate_ts
    r) (funding_period r) (order_step_size r) (order_tick_size r) (min_order_size r) (mm_oracle_slot r)
    (volume_24h r) (long_intensity_volume r) (short_intensity_volume r) (last_trade_ts r) (mark_std r)
    (oracle_std r) (last_mark_price_twap_ts r) (base_spread r) (max_spread r) (long_spread r) (short_spread
    r) (mm_oracle_price r) (max_fill_reserve_fraction r) (max_slippage_ratio r) (curve_update_intensity r)
    (amm_jit_intensity r) (oracle_source r) (last_oracle_valid r) (target_base_asset_amount_per_lp r)
    (per_lp_base r) (oracle_low_risk_slot_delay_override r) (amm_spread_adjustment r)
    (oracle_slot_delay_override r) (mm_oracle_sequence_id r) (net_unsettled_funding_pnl r)
    (quote_asset_amount_with_unsettled_lp r) (reference_price_offset r) (amm_inventory_spread_adjustment r)
    (reference_price_offset_deadband_pct r) (last_funding_oracle_twap r).

#[export] Instance set_oracle : Setter oracle := ltac:(setter).
#[export] Instance set_amm_historical_oracle_data : Setter amm_historical_oracle_data := ltac:(setter).
#[export] Instance set_base_asset_amount_per_lp : Setter base_asset_amount_per_lp := ltac:(setter).
#[export] Instance set_quote_asset_amount_per_lp : Setter quote_asset_amount_per_lp := ltac:(setter).
#[export] Instance set_fee_pool : Setter fee_pool := ltac:(setter).
#[export] Instance set_base_asset_reserve : Setter base_asset_reserve := ltac:(setter).
#[export] Instance set_quote_asset_reserve : Setter quote_asset_reserve := ltac:(setter).
#[export] Instance set_concentration_coef : Setter concentration_coef := ltac:(setter).
#[export] Instance set_min_base_asset_reserve : Setter min_base_asset_reserve := ltac:(setter).
#[export] Instance set_max_base_asset_reserve : Setter max_base_asset_reserve := ltac:(setter).
#[export] Instance set_sqrt_k : Setter sqrt_k := ltac:(setter).
#[export] Instance set_peg_multiplier : Setter peg_multiplier := ltac:(setter).
#[export] Instance set_terminal_quote_asset_reserve : Setter terminal_quote_asset_reserve := ltac:(setter).
#[export] Instance set_base_asset_amount_long : Setter base_asset_amount_long := ltac:(setter).
#[export] Instance set_base_asset_amount_short : Setter base_asset_amount_short := ltac:(setter).
#[export] Instance set_base_asset_amount_with_amm : Setter base_asset_amount_with_amm := ltac:(setter).
#[export] Instance set_base_asset_amount_with_unsettled_lp : Setter base_asset_amount_with_unsettled_lp := ltac:(setter).
#[export] Instance set_max_open_interest : Setter max_open_interest := ltac:(setter).
#[export] Instance set_amm_quote_asset_amount : Setter amm_quote_asset_amount := ltac:(setter).
#[export] Instance set_quote_entry_amount_long : Setter quote_entry_amount_long := ltac:(setter).
#[export] Instance set_quote_entry_amount_short : Setter quote_entry_amount_short := ltac:(setter).
#[export] Instance set_quote_break_even_amount_long : Setter quote_break_even_amount_long := ltac:(setter).
#[export] Instance set_quote_break_even_amount_short : Setter quote_break_even_amount_short := ltac:(setter).
#[export] Instance set_user_lp_shares : Setter user_lp_shares := ltac:(setter).
#[export] Instance set_last_funding_rate : Setter last_funding_rate := ltac:(setter).
#[export] Instance set_last_funding_rate_long : Setter last_funding_rate_long := ltac:(setter).
#[export] Instance set_last_funding_rate_short : Setter last_funding_rate_short := ltac:(setter).
#[export] Instance set_last_24h_avg_funding_rate : Setter last_24h_avg_funding_rate := ltac:(setter).
#[export] Instance set_total_fee : Setter total_fee := ltac:(setter).
#[export] Instance set_total_mm_fee : Setter total_mm_fee := ltac:(setter).
#[export] Instance set_total_exchange_fee : Setter total_exchange_fee := ltac:(setter).
#[export] Instance set_total_fee_minus_distributions : Setter total_fee_minus_distributions := ltac:(setter).
#[export] Instance set_total_fee_withdrawn : Setter total_fee_withdrawn := ltac:(setter).
#[export] Instance set_total_liquidation_fee : Setter total_liquidation_fee := ltac:(setter).
#[export] Instance set_cumulative_funding_rate_long : Setter cumulative_funding_rate_long := ltac:(setter).
#[export] Instance set_cumulative_funding_rate_short : Setter cumulative_funding_rate_short := ltac:(setter).
#[export] Instance set_total_social_loss : Setter total_social_loss := ltac:(setter).
#[export] Instance set_ask_base_asset_reserve : Setter ask_base_asset_reserve := ltac:(setter).
#[export] Instance set_ask_quote_asset_reserve : Setter ask_quote_asset_reserve := ltac:(setter).
#[export] Instance set_bid_base_asset_reserve : Setter bid_base_asset_reserve := ltac:(setter).
#[export] Instance set_bid_quote_asset_reserve : Setter bid_quote_asset_reserve := ltac:(setter).
#[export] Instance set_last_oracle_normalised_price : Setter last_oracle_normalised_price := ltac:(setter).
#[export] Instance set_last_oracle_reserve_price_spread_pct : Setter last_oracle_reserve_price_spread_pct := ltac:(setter).
#[export] Instance set_last_bid_price_twap : Setter last_bid_price_twap := ltac:(setter).
#[export] Instance set_last_ask_price_twap : Setter last_ask_price_twap := ltac:(setter).
#[export] Instance set_last_mark_price_twap : Setter last_mark_price_twap := ltac:(setter).
#[export] Instance set_last_mark_price_twap_5min : Setter last_mark_price_twap_5min := ltac:(setter).
#[export] Instance set_last_update_slot : Setter last_update_slot := ltac:(setter).
#[export] Instance set_last_oracle_conf_pct : Setter last_oracle_conf_pct := ltac:(setter).
#[export] Instance set_net_revenue_since_last_funding : Setter net_revenue_since_last_funding := ltac:(setter).
#[export] Instance set_last_funding_rate_ts : Setter last_funding_rate_ts := ltac:(setter).
#[export] Instance set_funding_period : Setter funding_period := ltac:(setter).
#[export] Instance set_order_step_size : Setter order_step_size := ltac:(setter).
#[export] Instance set_order_tick_size : Setter order_tick_size := ltac:(setter).
#[export] Instance set_min_order_size : Setter min_order_size := ltac:(setter).
#[export] Instance set_mm_oracle_slot : Setter mm_oracle_slot := ltac:(setter).
#[export] Instance set_volume_24h : Setter volume_24h := ltac:(setter).
#[export] Instance set_long_intensity_volume : Setter long_intensity_volume := ltac:(setter).
#[export] Instance set_short_intensity_volume : Setter short_intensity_volume := ltac:(setter).
#[export] Instance set_last_trade_ts : Setter last_trade_ts := ltac:(setter).
#[export] Instance set_mark_std : Setter mark_std := ltac:(setter).
#[export] Instance set_oracle_std : Setter oracle_std := ltac:(setter).
#[export] Instance set_last_mark_price_twap_ts : Setter last_mark_price_twap_ts := ltac:(setter).
#[export] Instance set_base_spread : Setter base_spread := ltac:(setter).
#[export] Instance set_max_spread : Setter max_spread := ltac:(setter).
#[export] Instance set_long_spread : Setter long_spread := ltac:(setter).
#[export] Instance set_short_spread : Setter short_spread := ltac:(setter).
#[export] Instance set_mm_oracle_price : Setter mm_oracle_price := ltac:(setter).
#[export] Instance set_max_fill_reserve_fraction : Setter max_fill_reserve_fraction := ltac:(setter).
#[export] Instance set_max_slippage_ratio : Setter max_slippage_ratio := ltac:(setter).
#[export] Instance set_curve_update_intensity : Setter curve_update_intensity := ltac:(setter).
#[export] Instance set_amm_jit_intensity : Setter amm_jit_intensity := ltac:(setter).
#[export] Instance set_oracle_source : Setter oracle_source := ltac:(setter).
#[export] Instance set_last_oracle_valid : Setter last_oracle_valid := ltac:(setter).
#[export] Instance set_target_base_asset_amount_per_lp : Setter target_base_asset_amount_per_lp := ltac:(setter).
#[export] Instance set_per_lp_base : Setter per_lp_base := ltac:(setter).
#[export] Instance set_oracle_low_risk_slot_delay_override : Setter oracle_low_risk_slot_delay_override := ltac:(setter).
#[export] Instance set_amm_spread_adjustment : Setter amm_spread_adjustment := ltac:(setter).
#[export] Instance set_oracle_slot_delay_override : Setter oracle_slot_delay_override := ltac:(setter).
#[export] Instance set_mm_oracle_sequence_id : Setter mm_oracle_sequence_id := ltac:(setter).
#[export] Instance set_net_unsettled_funding_pnl : Setter net_unsettled_funding_pnl := ltac:(setter).
#[export] Instance set_quote_asset_amount_with_unsettled_lp : Setter quote_asset_amount_with_unsettled_lp := ltac:(setter).
#[export] Instance set_reference_price_offset : Setter reference_price_offset := ltac:(setter).
#[export] Instance set_amm_inventory_spread_adjustment : Setter amm_inventory_spread_adjustment := ltac:(setter).
#[export] Instance set_reference_price_offset_deadband_pct : Setter reference_price_offset_deadband_pct := ltac:(setter).
#[export] Instance set_last_funding_oracle_twap : Setter last_funding_oracle_twap := ltac:(setter).

Record PerpMarket := mkPerpMarket {
  pm_pubkey : Z;
  amm : AMM;
  pnl_pool : PoolBalance;
  pm_name : list Z;
  insurance_claim : InsuranceClaim;
  unrealized_pnl_max_imbalance : Z;
  expiry_ts : Z;
  expiry_price : Z;
  next_fill_record_id : Z;
  next_funding_rate_record_id : Z;
  next_curve_record_id : Z;
  imf_factor : Z;
  unrealized_pnl_imf_factor : Z;
  liquidator_fee : Z;
  if_liquidation_fee : Z;
  margin_ratio_initial : Z;
  margin_ratio_maintenance : Z;
  unrealized_pnl_initial_asset_weight : Z;
  unrealized_pnl_maintenance_asset_weight : Z;
  number_of_users_with_base : Z;
  number_of_users : Z;
  pm_market_index : Z;
  pm_status : MarketStatus;
  contract_type : ContractType;
  contract_tier : ContractTier;
  pm_paused_operations : Z;
  quote_spot_market_index : Z;
  fee_adjustment : Z;
  fuel_boost_position : Z;
  fuel_boost_taker : Z;
  fuel_boost_maker : Z;
  pm_pool_id : Z;
  high_leverage_margin_ratio_initial : Z;
  high_leverage_margin_ratio_maintenance : Z;
  protected_maker_limit_price_divisor : Z;
  protected_maker_dynamic_divisor : Z;
  lp_fee_transfer_scalar : Z;
  lp_status : Z;
  lp_paused_operations : Z;
  lp_exchange_fee_excluscion_scalar : Z;
  last_fill_price : Z;
  lp_pool_id : Z;
  market_config : Z;
}.

#[export] Instance eta_PerpMarket : Eta PerpMarket := fun r =>
  mkPerpMarket (pm_pubkey r) (amm r) (pnl_pool r) (pm_name r) (insurance_claim r)
    (unrealized_pnl_max_imbalance r) (expiry_ts r) (expiry_price r) (next_fill_record_id r)
    (next_funding_rate_record_id r) (next_curve_record_id r) (imf_factor r) (unrealized_pnl_imf_factor r)
    (liquidator_fee r) (if_liquidation_fee r) (margin_ratio_initial r) (margin_ratio_maintenance r)
    (unrealized_pnl_initial_asset_weight r) (unrealized_pnl_maintenance_asset_weight r)
    (number_of_users_with_base r) (number_of_users r) (pm_market_index r) (pm_status r) (contract_type r)
    (contract_tier r) (pm_paused_operations r) (quote_spot_market_index r) (fee_adjustment r)
    (fuel_boost_position r) (fuel_boost_taker r) (fuel_boost_maker r) (pm_pool_id r)
    (high_leverage_margin_ratio_initial r) (high_leverage_margin_ratio_maintenance r)
    (protected_maker_limit_price_divisor r) (protected_maker_dynamic_divisor r) (lp_fee_transfer_scalar r)
    (lp_status r) (lp_paused_operations r) (lp_exchange_fee_excluscion_scalar r) (last_fill_price r)
    (lp_pool_id r) (market_config r).

#[export] Instance set_pm_pubkey : Setter pm_pubkey := ltac:(setter).
#[export] Instance set_amm : Setter amm := ltac:(setter).
#[export] Instance set_pnl_pool : Setter pnl_pool := ltac:(setter).
#[export] Instance set_pm_name : Setter pm_name := ltac:(setter).
#[export] Instance set_insurance_claim : Setter insurance_claim := ltac:(setter).
#[export] Instance set_unrealized_pnl_max_imbalance : Setter unrealized_pnl_max_imbalance := ltac:(setter).
#[export] Instance set_expiry_ts : Setter expiry_ts := ltac:(setter).
#[export] Instance set_expiry_price : Setter expiry_price := ltac:(setter).
#[export] Instance set_next_fill_record_id : Setter next_fill_record_id := ltac:(setter).
#[export] Instance set_next_funding_rate_record_id : Setter next_funding_rate_record_id := ltac:(setter).
#[export] Instance set_next_curve_record_id : Setter next_curve_record_id := ltac:(setter).
#[export] Instance set_imf_factor : Setter imf_factor := ltac:(setter).
#[export] Instance set_unrealized_pnl_imf_factor : Setter unrealized_pnl_imf_factor := ltac:(setter).
#[export] Instance set_liquidator_fee : Setter liquidator_fee := ltac:(setter).
#[export] Instance set_if_liquidation_fee : Setter if_liquidation_fee := ltac:(setter).
#[export] Instance set_margin_ratio_initial : Setter margin_ratio_initial := ltac:(setter).
#[export] Instance set_margin_ratio_maintenance : Setter margin_ratio_maintenance := ltac:(setter).
#[export] Instance set_unrealized_pnl_initial_asset_weight : Setter unrealized_pnl_initial_asset_weight := ltac:(setter).
#[export] Instance set_unrealized_pnl_maintenance_asset_weight : Setter unrealized_pnl_maintenance_asset_weight := ltac:(setter).
#[export] Instance set_number_of_users_with_base : Setter number_of_users_with_base := ltac:(setter).
#[export] Instance set_number_of_users : Setter number_of_users := ltac:(setter).
#[export] Instance set_pm_market_index : Setter pm_market_index := ltac:(setter).
#[export] Instance set_pm_status : Setter pm_status := ltac:(setter).
#[export] Instance set_contract_type : Setter contract_type := ltac:(setter).
#[export] Instance set_contract_tier : Setter contract_tier := ltac:(setter).
#[export] Instance set_pm_paused_operations : Setter pm_paused_operations := ltac:(setter).
#[export] Instance set_quote_spot_market_index : Setter quote_spot_market_index := ltac:(setter).
#[export] Instance set_fee_adjustment : Setter fee_adjustment := ltac:(setter).
#[export] Instance set_fuel_boost_position : Setter fuel_boost_position := ltac:(setter).
#[export] Instance set_fuel_boost_taker : Setter fuel_boost_taker := ltac:(setter).
#[export] Instance set_fuel_boost_maker : Setter fuel_boost_maker := ltac:(setter).
#[export] Instance set_pm_pool_id : Setter pm_pool_id := ltac:(setter).
#[export] Instance set_high_leverage_margin_ratio_initial : Setter high_leverage_margin_ratio_initial := ltac:(setter).
#[export] Instance set_high_leverage_margin_ratio_maintenance : Setter high_leverage_margin_ratio_maintenance := ltac:(setter).
#[export] Instance set_protected_maker_limit_price_divisor : Setter protected_maker_limit_price_divisor := ltac:(setter).
#[export] Instance set_protected_maker_dynamic_divisor : Setter protected_maker_dynamic_divisor := ltac:(setter).
#[export] Instance set_lp_fee_transfer_scalar : Setter lp_fee_transfer_scalar := ltac:(setter).
#[export] Instance set_lp_status : Setter lp_status := ltac:(setter).
#[export] Instance set_lp_paused_operations : Setter lp_paused_operations := ltac:(setter).
#[export] Instance set_lp_exchange_fee_excluscion_scalar : Setter lp_exchange_fee_excluscion_scalar := ltac:(setter).
#[export] Instance set_last_fill_price : Setter last_fill_price := ltac:(setter).
#[export] Instance set_lp_pool_id : Setter lp_pool_id := ltac:(setter).
#[export] Instance set_market_config : Setter market_config := ltac:(setter).

(** ** The user's position and order *)

Record PerpPosition := mkPerpPosition {
  pp_last_cumulative_funding_rate : Z;
  pp_base_asset_amount : Z;
  pp_quote_asset_amount : Z;
  pp_quote_break_even_amount : Z;
  pp_quote_entry_amount : Z;
  pp_open_bids : Z;
  pp_open_asks : Z;
  pp_settled_pnl : Z;
  pp_lp_shares : Z;
  pp_isolated_position_scaled_balance : Z;
  pp_last_quote_asset_amount_per_lp : Z;
  pp_max_margin_ratio : Z;
  pp_market_index : Z;
  pp_open_orders : Z;
  pp_position_flag : Z;
}.

#[export] Instance eta_PerpPosition : Eta PerpPosition := fun r =>
  mkPerpPosition (pp_last_cumulative_funding_rate r) (pp_base_asset_amount r) (pp_quote_asset_amount r)
    (pp_quote_break_even_amount r) (pp_quote_entry_amount r) (pp_open_bids r) (pp_open_asks r)
    (pp_settled_pnl r) (pp_lp_shares r) (pp_isolated_position_scaled_balance r)
    (pp_last_quote_asset_amount_per_lp r) (pp_max_margin_ratio r) (pp_market_index r) (pp_open_orders r)
    (pp_position_flag r).

#[export] Instance set_pp_last_cumulative_funding_rate : Setter pp_last_cumulative_funding_rate := ltac:(setter).
#[export] Instance set_pp_base_asset_amount : Setter pp_base_asset_amount := ltac:(setter).
#[export] Instance set_pp_quote_asset_amount : Setter pp_quote_asset_amount := ltac:(setter).
#[export] Instance set_pp_quote_break_even_amount : Setter pp_quote_break_even_amount := ltac:(setter).
#[export] Instance set_pp_quote_entry_amount : Setter pp_quote_entry_amount := ltac:(setter).
#[export] Instance set_pp_open_bids : Setter pp_open_bids := ltac:(setter).
#[export] Instance set_pp_open_asks : Setter pp_open_asks := ltac:(setter).
#[export] Instance set_pp_settled_pnl : Setter pp_settled_pnl := ltac:(setter).
#[export] Instance set_pp_lp_shares : Setter pp_lp_shares := ltac:(setter).
#[export] Instance set_pp_isolated_position_scaled_balance : Setter pp_isolated_position_scaled_balance := ltac:(setter).
#[export] Instance set_pp_last_quote_asset_amount_per_lp : Setter pp_last_quote_asset_amount_per_lp := ltac:(setter).
#[export] Instance set_pp_max_margin_ratio : Setter pp_max_margin_ratio := ltac:(setter).
#[export] Instance set_pp_market_index : Setter pp_market_index := ltac:(setter).
#[export] Instance set_pp_open_orders : Setter pp_open_orders := ltac:(setter).
#[export] Instance set_pp_position_flag : Setter pp_position_flag := ltac:(setter).

Record Order := mkOrder {
  o_slot : Z;
  o_price : Z;
  o_base_asset_amount : Z;
  o_base_asset_amount_filled : Z;
  o_quote_asset_amount_filled : Z;
  o_trigger_price : Z;
  o_auction_start_price : Z;
  o_auction_end_price : Z;
  o_max_ts : Z;
  o_oracle_price_offset : Z;
  o_order_id : Z;
  o_market_index : Z;
  o_status : OrderStatus;
  o_order_type : OrderType;
  o_market_type : MarketType;
  o_user_order_id : Z;
  o_existing_position_direction : PositionDirection;
  o_direction : PositionDirection;
  o_reduce_only : bool;
  o_post_only : bool;
  o_immediate_or_cancel : bool;
  o_trigger_condition : OrderTriggerCondition;
  o_auction_duration : Z;
  o_posted_slot_tail : Z;
  o_bit_flags : Z;
}.

#[export] Instance eta_Order : Eta Order := fun r =>
  mkOrder (o_slot r) (o_price r) (o_base_asset_amount r) (o_base_asset_amount_filled r)
    (o_quote_asset_amount_filled r) (o_trigger_price r) (o_auction_start_price r) (o_auction_end_price r)
    (o_max_ts r) (o_oracle_price_offset r) (o_order_id r) (o_market_index r) (o_status r) (o_order_type r)
    (o_market_type r) (o_user_order_id r) (o_existing_position_direction r) (o_direction r) (o_reduce_only
    r) (o_post_only r) (o_immediate_or_cancel r) (o_trigger_condition r) (o_auction_duration r)
    (o_posted_slot_tail r) (o_bit_flags r).

#[export] Instance set_o_slot : Setter o_slot := ltac:(setter).
#[export] Instance set_o_price : Setter o_price := ltac:(setter).
#[export] Instance set_o_base_asset_amount : Setter o_base_asset_amount := ltac:(setter).
#[export] Instance set_o_base_asset_amount_filled : Setter o_base_asset_amount_filled := ltac:(setter).
#[export] Instance set_o_quote_asset_amount_filled : Setter o_quote_asset_amount_filled := ltac:(setter).
#[export] Instance set_o_trigger_price : Setter o_trigger_price := ltac:(setter).
#[export] Instance set_o_auction_start_price : Setter o_auction_start_price := ltac:(setter).
#[export] Instance set_o_auction_end_price : Setter o_auction_end_price := ltac:(setter).
#[export] Instance set_o_max_ts : Setter o_max_ts := ltac:(setter).
#[export] Instance set_o_oracle_price_offset : Setter o_oracle_price_offset := ltac:(setter).
#[export] Instance set_o_order_id : Setter o_order_id := ltac:(setter).
#[export] Instance set_o_market_index : Setter o_market_index := ltac:(setter).
#[export] Instance set_o_status : Setter o_status := ltac:(setter).
#[export] Instance set_o_order_type : Setter o_order_type := ltac:(setter).
#[export] Instance set_o_market_type : Setter o_market_type := ltac:(setter).
#[export] Instance set_o_user_order_id : Setter o_user_order_id := ltac:(setter).
#[export] Instance set_o_existing_position_direction : Setter o_existing_position_direction := ltac:(setter).
#[export] Instance set_o_direction : Setter o_direction := ltac:(setter).
#[export] Instance set_o_reduce_only : Setter o_reduce_only := ltac:(setter).
#[export] Instance set_o_post_only : Setter o_post_only := ltac:(setter).
#[export] Instance set_o_immediate_or_cancel : Setter o_immediate_or_cancel := ltac:(setter).
#[export] Instance set_o_trigger_condition : Setter o_trigger_condition := ltac:(setter).
#[export] Instance set_o_auction_duration : Setter o_auction_duration := ltac:(setter).
#[export] Instance set_o_posted_slot_tail : Setter o_posted_slot_tail := ltac:(setter).
#[export] Instance set_o_bit_flags : Setter o_bit_flags := ltac:(setter).

(** ** Users *)

Inductive MarginMode : Set := DefaultMargin | HighLeverage | HighLeverageMaintenance.
#[export] Instance MarginMode_eq_dec : EqDecision MarginMode.
Proof. solve_decision. Defined.

Record UserFees := mkUserFees {
  total_fee_paid : Z;
  total_fee_rebate : Z;
  total_token_discount : Z;
  total_referee_discount : Z;
  total_referrer_reward : Z;
  current_epoch_referrer_reward : Z;
}.

#[export] Instance eta_UserFees : Eta UserFees := fun r =>
  mkUserFees (total_fee_paid r) (total_fee_rebate r) (total_token_discount r) (total_referee_discount r)
    (total_referrer_reward r) (current_epoch_referrer_reward r).

#[export] Instance set_total_fee_paid : Setter total_fee_paid := ltac:(setter).
#[export] Instance set_total_fee_rebate : Setter total_fee_rebate := ltac:(setter).
#[export] Instance set_total_token_discount : Setter total_token_discount := ltac:(setter).
#[export] Instance set_total_referee_discount : Setter total_referee_discount := ltac:(setter).
#[export] Instance set_total_referrer_reward : Setter total_referrer_reward := ltac:(setter).
#[export] Instance set_current_epoch_referrer_reward : Setter current_epoch_referrer_reward := ltac:(setter).

Record UserStats := mkUserStats {
  us_authority : Z;
  us_referrer : Z;
  us_fees : UserFees;
  us_next_epoch_ts : Z;
  maker_volume_30d : Z;
  taker_volume_30d : Z;
  filler_volume_30d : Z;
  last_maker_volume_30d_ts : Z;
  last_taker_volume_30d_ts : Z;
  last_filler_volume_30d_ts : Z;
  if_staked_quote_asset_amount : Z;
  number_of_sub_accounts : Z;
  number_of_sub_accounts_created : Z;
  referrer_status : Z;
  disable_update_perp_bid_ask_twap : Z;
  us_paused_operations : Z;
  fuel_overflow_status : Z;
  fuel_insurance : Z;
  fuel_deposits : Z;
  fuel_borrows : Z;
  fuel_positions : Z;
  fuel_taker : Z;
  fuel_maker : Z;
  if_staked_gov_token_amount : Z;
  last_fuel_if_bonus_update_ts : Z;
}.

#[export] Instance eta_UserStats : Eta UserStats := fun r =>
  mkUserStats (us_authority r) (us_referrer r) (us_fees r) (us_next_epoch_ts r) (maker_volume_30d r)
    (taker_volume_30d r) (filler_volume_30d r) (last_maker_volume_30d_ts r) (last_taker_volume_30d_ts r)
    (last_filler_volume_30d_ts r) (if_staked_quote_asset_amount r) (number_of_sub_accounts r)
    (number_of_sub_accounts_created r) (referrer_status r) (disable_update_perp_bid_ask_twap r)
    (us_paused_operations r) (fuel_overflow_status r) (fuel_insurance r) (fuel_deposits r) (fuel_borrows r)
    (fuel_positions r) (fuel_taker r) (fuel_maker r) (if_staked_gov_token_amount r)
    (last_fuel_if_bonus_update_ts r).

#[export] Instance set_us_authority : Setter us_authority := ltac:(setter).
#[export] Instance set_us_referrer : Setter us_referrer := ltac:(setter).
#[export] Instance set_us_fees : Setter us_fees := ltac:(setter).
#[export] Instance set_us_next_epoch_ts : Setter us_next_epoch_ts := ltac:(setter).
#[export] Instance set_maker_volume_30d : Setter maker_volume_30d := ltac:(setter).
#[export] Instance set_taker_volume_30d : Setter taker_volume_30d := ltac:(setter).
#[export] Instance set_filler_volume_30d : Setter filler_volume_30d := ltac:(setter).
#[export] Instance set_last_maker_volume_30d_ts : Setter last_maker_volume_30d_ts := ltac:(setter).
#[export] Instance set_last_taker_volume_30d_ts : Setter last_taker_volume_30d_ts := ltac:(setter).
#[export] Instance set_last_filler_volume_30d_ts : Setter last_filler_volume_30d_ts := ltac:(setter).
#[export] Instance set_if_staked_quote_asset_amount : Setter if_staked_quote_asset_amount := ltac:(setter).
#[export] Instance set_number_of_sub_accounts : Setter number_of_sub_accounts := ltac:(setter).
#[export] Instance set_number_of_sub_accounts_created : Setter number_of_sub_accounts_created := ltac:(setter).
#[export] Instance set_referrer_status : Setter referrer_status := ltac:(setter).
#[export] Instance set_disable_update_perp_bid_ask_twap : Setter disable_update_perp_bid_ask_twap := ltac:(setter).
#[export] Instance set_us_paused_operations : Setter us_paused_operations := ltac:(setter).
#[export] Instance set_fuel_overflow_status : Setter fuel_overflow_status := ltac:(setter).
#[export] Instance set_fuel_insurance : Setter fuel_insurance := ltac:(setter).
#[export] Instance set_fuel_deposits : Setter fuel_deposits := ltac:(setter).
#[export] Instance set_fuel_borrows : Setter fuel_borrows := ltac:(setter).
#[export] Instance set_fuel_positions : Setter fuel_positions := ltac:(setter).
#[export] Instance set_fuel_taker : Setter fuel_taker := ltac:(setter).
#[export] Instance set_fuel_maker : Setter fuel_maker := ltac:(setter).
#[export] Instance set_if_staked_gov_token_amount : Setter if_staked_gov_token_amount := ltac:(setter).
#[export] Instance set_last_fuel_if_bonus_update_ts : Setter last_fuel_if_bonus_update_ts := ltac:(setter).

Record User := mkUser {
  u_authority : Z;
  u_delegate : Z;
  u_name : list Z;
  u_spot_positions : list SpotPosition;
  u_perp_positions : list PerpPosition;
  u_orders : list Order;
  u_last_add_perp_lp_shares_ts : Z;
  u_total_deposits : Z;
  u_total_withdraws : Z;
  u_total_social_loss : Z;
  u_settled_perp_pnl : Z;
  u_cumulative_spot_fees : Z;
  u_cumulative_perp_funding : Z;
  u_liquidation_margin_freed : Z;
  u_last_active_slot : Z;
  u_next_order_id : Z;
  u_max_margin_ratio : Z;
  u_next_liquidation_id : Z;
  u_sub_account_id : Z;
  u_status : Z;
  u_is_margin_trading_enabled : bool;
  u_idle : bool;
  u_open_orders : Z;
  u_has_open_order : bool;
  u_open_auctions : Z;
  u_has_open_auction : bool;
  u_margin_mode : MarginMode;
  u_pool_id : Z;
  u_last_fuel_bonus_update_ts : Z;
}.

#[export] Instance eta_User : Eta User := fun r =>
  mkUser (u_authority r) (u_delegate r) (u_name r) (u_spot_positions r) (u_perp_positions r) (u_orders r)
    (u_last_add_perp_lp_shares_ts r) (u_total_deposits r) (u_total_withdraws r) (u_total_social_loss r)
    (u_settled_perp_pnl r) (u_cumulative_spot_fees r) (u_cumulative_perp_funding r)
    (u_liquidation_margin_freed r) (u_last_active_slot r) (u_next_order_id r) (u_max_margin_ratio r)
    (u_next_liquidation_id r) (u_sub_account_id r) (u_status r) (u_is_margin_trading_enabled r) (u_idle r)
    (u_open_orders r) (u_has_open_order r) (u_open_auctions r) (u_has_open_auction r) (u_margin_mode r)
    (u_pool_id r) (u_last_fuel_bonus_update_ts r).

#[export] Instance set_u_authority : Setter u_authority := ltac:(setter).
#[export] Instance set_u_delegate : Setter u_delegate := ltac:(setter).
#[export] Instance set_u_name : Setter u_name := ltac:(setter).
#[export] Instance set_u_spot_positions : Setter u_spot_positions := ltac:(setter).
#[export] Instance set_u_perp_positions : Setter u_perp_positions := ltac:(setter).
#[export] Instance set_u_orders : Setter u_orders := ltac:(setter).
#[export] Instance set_u_last_add_perp_lp_shares_ts : Setter u_last_add_perp_lp_shares_ts := ltac:(setter).
#[export] Instance set_u_total_deposits : Setter u_total_deposits := ltac:(setter).
#[export] Instance set_u_total_withdraws : Setter u_total_withdraws := ltac:(setter).
#[export] Instance set_u_total_social_loss : Setter u_total_social_loss := ltac:(setter).
#[export] Instance set_u_settled_perp_pnl : Setter u_settled_perp_pnl := ltac:(setter).
#[export] Instance set_u_cumulative_spot_fees : Setter u_cumulative_spot_fees := ltac:(setter).
#[export] Instance set_u_cumulative_perp_funding : Setter u_cumulative_perp_funding := ltac:(setter).
#[export] Instance set_u_liquidation_margin_freed : Setter u_liquidation_margin_freed := ltac:(setter).
#[export] Instance set_u_last_active_slot : Setter u_last_active_slot := ltac:(setter).
#[export] Instance set_u_next_order_id : Setter u_next_order_id := ltac:(setter).
#[export] Instance set_u_max_margin_ratio : Setter u_max_margin_ratio := ltac:(setter).
#[export] Instance set_u_next_liquidation_id : Setter u_next_liquidation_id := ltac:(setter).
#[export] Instance set_u_sub_account_id : Setter u_sub_account_id := ltac:(setter).
#[export] Instance set_u_status : Setter u_status := ltac:(setter).
#[export] Instance set_u_is_margin_trading_enabled : Setter u_is_margin_trading_enabled := ltac:(setter).
#[export] Instance set_u_idle : Setter u_idle := ltac:(setter).
#[export] Instance set_u_open_orders : Setter u_open_orders := ltac:(setter).
#[export] Instance set_u_has_open_order : Setter u_has_open_order := ltac:(setter).
#[export] Instance set_u_open_auctions : Setter u_open_auctions := ltac:(setter).
#[export] Instance set_u_has_open_auction : Setter u_has_open_auction := ltac:(setter).
#[export] Instance set_u_margin_mode : Setter u_margin_mode := ltac:(setter).
#[export] Instance set_u_pool_id : Setter u_pool_id := ltac:(setter).
#[export] Instance set_u_last_fuel_bonus_update_ts : Setter u_last_fuel_bonus_update_ts := ltac:(setter).

(** ** [Default] *)

Definition default_AMM : AMM :=
  mkAMM 0 (mkHistoricalOracleData 0 0 0 0 0 0) 0 0 (mkPoolBalance 0 0) 0 0 0 0 0 0 0 0 0 0 0 0 0 0 0 0 0 0 0
    0 0 0 0 0 0 0 0 0 0 0 0 0 0 0 0 0 0 0 0 0 0 0 0 0 0 0 0 0 0 1 0 0 0 0 0 0 0 0 0 0 0 0 0 0 0 0 0 Pyth
    false 0 0 0 0 (-1) 0 0 0 0 0 0 0.

Definition default_PerpMarket : PerpMarket :=
  mkPerpMarket 0 default_AMM (mkPoolBalance 0 0) [] (mkInsuranceClaim 0 0 0 0 0) 0 0 0 0 0 0 0 0 0 0 0 0 0 0
    0 0 0 Initialized Perpetual HighlySpeculative 0 0 0 0 0 0 0 0 0 0 0 0 0 0 0 0 0 0.

Definition default_PerpPosition : PerpPosition :=
  mkPerpPosition 0 0 0 0 0 0 0 0 0 0 0 0 0 0 0.

Definition default_Order : Order :=
  mkOrder 0 0 0 0 0 0 0 0 0 0 0 0 OrderInit LimitOrder Perp 0 Long Long false false false Above 0 0 0.
Definition default_UserStats : UserStats :=
  mkUserStats 0 0 (mkUserFees 0 0 0 0 0 0) 0 0 0 0 0 0 0 0 0 0 0 0 0 0 0 0 0 0 0 0 0 0.
Definition default_SpotPosition : SpotPosition := mkSpotPosition 0 0 0 0 0 Deposit 0.
Definition default_User : User :=
  mkUser 0 0 [] (replicate 8 default_SpotPosition) (replicate 8 default_PerpPosition) (replicate 32
    default_Order) 0 0 0 0 0 0 0 0 0 0 0 0 0 0 false false 0 false 0 false DefaultMargin 0 0.
