(* ===== verification/DriftSpotBalance.v ===== *)
(** Deposits, borrows and interest of a spot market: [controller/spot_balance.rs]
    of [programs/drift], [sanitize_new_price] of [math/amm.rs], the validation
    of a market's balances of [math/spot_withdraw.rs], and the update of a
    position of [controller/spot_position.rs].

    A function returns the market and the balance it leaves; the record it
    emits is left out. *)
From S2P Require Import Prelude.
From S2P Require Import RecordUpdate.
From S2P Require Import DriftError.
From S2P Require Import DriftMath.
From S2P Require Import DriftSpotMarket.

(** ** Balances *)

Definition increase_spot_balance (delta : Z) (m : SpotMarket) (t : SpotBalanceType) : DriftResult SpotMarket :=
  match t with
  | Deposit => let! x := safe_u 128 (deposit_balance m + delta) in Ok (set_deposit_balance m x)
  | Borrow => let! x := safe_u 128 (borrow_balance m + delta) in Ok (set_borrow_balance m x)
  end.

Definition decrease_spot_balance (delta : Z) (m : SpotMarket) (t : SpotBalanceType) : DriftResult SpotMarket :=
  match t with
  | Deposit => let! x := safe_u 128 (deposit_balance m - delta) in Ok (set_deposit_balance m x)
  | Borrow => let! x := safe_u 128 (borrow_balance m - delta) in Ok (set_borrow_balance m x)
  end.

Section Update.
Context {B : Type} `{SpotBalance B}.

(** An increase of the balance on the side it is on. *)
Definition add_balance (token_amount : Z) (dir : SpotBalanceType) (round_up : bool) (m : SpotMarket) (b : B) :
    DriftResult (SpotMarket * B) :=
  let! delta := get_spot_balance token_amount m dir round_up in
  let! b := increase_balance b delta in
  let! m := increase_spot_balance delta m dir in
  Ok (m, b).

(** The reduction of a balance on the other side, and what is left to add. *)
Definition reduce_balance (token_amount : Z) (m : SpotMarket) (b : B) (is_leaving_drift : bool) :
    DriftResult (SpotMarket * B * Z) :=
  let! current_token_amount := get_token_amount (balance b) m (balance_type b) in
  if negb (current_token_amount =? 0) then
    let! '(token_delta, balance_delta) :=
      if token_amount <? current_token_amount then
        let round_up := is_leaving_drift || balance_type_eqb (balance_type b) Borrow in
        let! d := get_spot_balance token_amount m (balance_type b) round_up in
        Ok (token_amount, d)
      else Ok (current_token_amount, balance b) in
    let! m := decrease_spot_balance balance_delta m (balance_type b) in
    let! b := decrease_balance b balance_delta in
    let! rest := safe_u 128 (token_amount - token_delta) in
    Ok (m, b, rest)
  else Ok (m, b, token_amount).

Definition update_spot_balances (token_amount : Z) (dir : SpotBalanceType) (m : SpotMarket) (b : B)
    (is_leaving_drift : bool) : DriftResult (SpotMarket * B) :=
  let! '(m, b) :=
    if balance_type_eqb dir (balance_type b) then
      add_balance token_amount dir (balance_type_eqb (balance_type b) Borrow) m b
    else
      let! '(m, b, rest) := reduce_balance token_amount m b is_leaving_drift in
      if 0 <? rest then
        let! b := update_balance_type b dir in
        add_balance rest dir (balance_type_eqb dir Borrow) m b
      else Ok (m, b) in
  if is_leaving_drift && balance_type_eqb dir Borrow then
    let! d := get_token_amount (deposit_balance m) m Deposit in
    let! w := get_token_amount (borrow_balance m) m Borrow in
    do! validate (w <=? d) SpotMarketInsufficientDeposits in
    Ok (m, b)
  else Ok (m, b).
End Update.

Definition update_revenue_pool_balances (token_amount : Z) (dir : SpotBalanceType) (m : SpotMarket) :
    DriftResult SpotMarket :=
  let! '(m, pool) := update_spot_balances token_amount dir m (revenue_pool m) false in
  Ok (set_revenue_pool m pool).

Definition transfer_spot_balances {A B : Type} `{SpotBalance A} `{SpotBalance B} (token_amount : Z)
    (m : SpotMarket) (from : A) (to : B) : DriftResult (SpotMarket * A * B) :=
  do! validate (market_index from =? market_index to) UnequalMarketIndexForSpotTransfer in
  if token_amount =? 0 then Ok (m, from, to)
  else
    do! (if balance_type_eqb (balance_type from) Deposit then
           validate (balance from <=? deposit_balance m) InvalidSpotMarketState
         else Ok tt) in
    let! '(m, from) := update_spot_balances (Z.abs token_amount)
                         (if token_amount <? 0 then Deposit else Borrow) m from false in
    let! '(m, to) := update_spot_balances (Z.abs token_amount)
                       (if token_amount <? 0 then Borrow else Deposit) m to false in
    Ok (m, from, to).

Definition transfer_revenue_pool_to_spot_balance {B : Type} `{SpotBalance B} (token_amount : Z)
    (m : SpotMarket) (to : B) : DriftResult (SpotMarket * B) :=
  do! validate (market_index to =? sm_market_index m) UnequalMarketIndexForSpotTransfer in
  let! m := update_revenue_pool_balances token_amount Borrow m in
  update_spot_balances token_amount Deposit m to false.

Definition transfer_spot_balance_to_revenue_pool {B : Type} `{SpotBalance B} (token_amount : Z)
    (m : SpotMarket) (from : B) : DriftResult (SpotMarket * B) :=
  do! validate (market_index from =? sm_market_index m) UnequalMarketIndexForSpotTransfer in
  let! '(m, from) := update_spot_balances token_amount Borrow m from false in
  let! m := update_revenue_pool_balances token_amount Deposit m in
  Ok (m, from).

(** [controller/spot_position.rs] *)
Definition update_spot_balances_and_cumulative_deposits (token_amount : Z) (dir : SpotBalanceType)
    (m : SpotMarket) (p : SpotPosition) (is_leaving_drift : bool) (cumulative_deposit_delta : option Z) :
    DriftResult (SpotMarket * SpotPosition) :=
  let! '(m, p) := update_spot_balances token_amount dir m p is_leaving_drift in
  let! delta := cast_i 64 (default token_amount cumulative_deposit_delta) in
  let! x := safe_i 64 (match dir with
                       | Deposit => cumulative_deposits p + delta
                       | Borrow => cumulative_deposits p - delta
                       end) in
  Ok (m, p <| cumulative_deposits := x |>).

(** ** Interest and averages *)

(** [sanitize_new_price] of [math/amm.rs]: [unsigned_abs] of both. *)
Definition sanitize_new_price (new_price last_price_twap : Z) (clamp_denominator : option Z) : DriftResult Z :=
  if last_price_twap =? 0 then Ok new_price
  else
    let! spread := safe_i 64 (new_price - last_price_twap) in
    let den := default DEFAULT_MAX_TWAP_UPDATE_PRICE_BAND_DENOMINATOR clamp_denominator in
    if den =? 0 then Ok new_price
    else
      let! band := safe_idiv 64 last_price_twap den in
      if Z.abs band <? Z.abs spread then
        if last_price_twap <? new_price then safe_i 64 (last_price_twap + band)
        else safe_i 64 (last_price_twap - band)
      else Ok new_price.

Definition update_oracle_twaps (m : SpotMarket) (o : OraclePriceData) (since_last now : Z) : DriftResult SpotMarket :=
  let h := historical_oracle_data m in
  let! capped := sanitize_new_price (price o) (last_oracle_price_twap h) (get_sanitize_clamp_denominator m) in
  let! twap := calculate_new_twap capped now (last_oracle_price_twap h) (last_oracle_price_twap_ts h) ONE_HOUR in
  let! twap_5 := calculate_new_twap capped now (last_oracle_price_twap_5min h)
                   (last_oracle_price_twap_ts h) FIVE_MINUTE in
  let keep := negb (negb (twap =? last_oracle_price_twap h) || (ONE_MINUTE <=? since_last)) in
  Ok (set_oracle_data m
        (if keep then
           mkHistoricalOracleData (price o) (confidence o) (delay o) (last_oracle_price_twap h)
             (last_oracle_price_twap_5min h) (last_oracle_price_twap_ts h)
         else mkHistoricalOracleData (price o) (confidence o) (delay o) twap twap_5 now)).

(** An average of [i64] amounts kept as a [u64]. *)
Definition average_u64 (value last since_last from_start : Z) : DriftResult Z :=
  let! v := cast_i 64 value in
  let! l := cast_i 64 last in
  let! a := calculate_weighted_average v l since_last from_start None in
  cast_u 64 a.

Definition update_spot_market_twap_stats (m : SpotMarket) (oracle : option OraclePriceData) (now : Z) :
    DriftResult SpotMarket :=
  let! last := cast_i 64 (last_twap_ts m) in
  let! d := safe_i 64 (now - last) in
  let since_last := Z.max 0 d in
  let! f := safe_i 64 (SPOT_MARKET_TOKEN_TWAP_WINDOW - since_last) in
  let from_start := Z.max 1 f in
  let! deposits := get_token_amount (deposit_balance m) m Deposit in
  let! borrows := get_token_amount (borrow_balance m) m Borrow in
  let! dt := average_u64 deposits (deposit_token_twap m) since_last from_start in
  let! bt := average_u64 borrows (borrow_token_twap m) since_last from_start in
  let! utilization := calculate_utilization deposits borrows in
  let! ut := average_u64 utilization (utilization_twap m) since_last from_start in
  let m := set_token_twaps m dt bt ut in
  let! m := match oracle with Some o => update_oracle_twaps m o since_last now | None => Ok m end in
  let! ts := cast_u 64 now in
  Ok (set_last_twap_ts m ts).

(** The interest part of [update_spot_market_cumulative_interest]. *)
Definition accrue_interest (m : SpotMarket) (now : Z) : DriftResult SpotMarket :=
  let! i := calculate_accumulated_interest m now in
  if (0 <? deposit_interest i) && (1 <? borrow_interest i) then
    let! s := safe_u 128 (deposit_interest i * total_factor (insurance_fund m)) in
    let! for_stakers := safe_udiv s IF_FACTOR_PRECISION in
    let! for_lenders := safe_u 128 (deposit_interest i - for_stakers) in
    if 0 <? for_lenders then
      let! cd := safe_u 128 (cumulative_deposit_interest m + for_lenders) in
      let! cb := safe_u 128 (cumulative_borrow_interest m + borrow_interest i) in
      let! ts := cast_u 64 now in
      let m := set_interest m cd cb ts in
      let! token_amount := get_interest_token_amount (deposit_balance m) m for_stakers in
      update_revenue_pool_balances token_amount Deposit m
    else Ok m
  else Ok m.

Definition update_spot_market_cumulative_interest (m : SpotMarket) (oracle : option OraclePriceData) (now : Z) :
    DriftResult SpotMarket :=
  if interest_paused m then update_spot_market_twap_stats m oracle now
  else
    let! m := accrue_interest m now in
    update_spot_market_twap_stats m oracle now.

(** ** math/spot_withdraw.rs: the claims on the vault *)

Definition validate_spot_balances (m : SpotMarket) : DriftResult Z :=
  let! d := get_token_amount (deposit_balance m) m Deposit in
  let! depositors_amount := cast_u 64 d in
  let! b := get_token_amount (borrow_balance m) m Borrow in
  let! borrowers_amount := cast_u 64 b in
  let! r := get_token_amount (pb_scaled_balance (revenue_pool m)) m Deposit in
  let! revenue_amount := cast_u 64 r in
  let! di := cast_i 64 depositors_amount in
  let! bi := cast_i 64 borrowers_amount in
  let! depositors_claim := safe_i 64 (di - bi) in
  do! validate (revenue_amount <=? depositors_amount) SpotMarketVaultInvariantViolated in
  Ok depositors_claim.

Definition validate_spot_market_vault_amount (m : SpotMarket) (vault_amount : Z) : DriftResult Z :=
  let! depositors_claim := validate_spot_balances m in
  let! v := cast_i 64 vault_amount in
  do! validate (depositors_claim <=? v) SpotMarketVaultInvariantViolated in
  Ok depositors_claim.

(** * The interface of a balance *)

Class SpotBalanceLaws (B : Type) `{SpotBalance B} : Prop := {
  increase_law (b b' : B) d : increase_balance b d = Ok b' ->
    balance b' = balance b + d /\ balance_type b' = balance_type b;
  decrease_law (b b' : B) d : decrease_balance b d = Ok b' ->
    balance b' = balance b - d /\ balance_type b' = balance_type b;
  retype_law (b b' : B) t : update_balance_type b t = Ok b' ->
    balance b' = balance b /\ balance_type b' = t;
}.

#[export] Instance PoolBalance_laws : SpotBalanceLaws PoolBalance.
Proof.
  split; cbn; intros b b' x Hx; [| |done];
    apply obind_Ok in Hx as (y & [-> _]%safe_u_Ok & [= <-]); by split.
Qed.

#[export] Instance SpotPosition_laws : SpotBalanceLaws SpotPosition.
Proof.
  split; cbn; intros b b' x Hx.
  - apply obind_Ok in Hx as (d & [-> _]%cast_u_Ok & Hx). apply obind_Ok in Hx as (y & [-> _]%safe_u_Ok & [= <-]). by split.
  - apply obind_Ok in Hx as (d & [-> _]%cast_u_Ok & Hx). apply obind_Ok in Hx as (y & [-> _]%safe_u_Ok & [= <-]). by split.
  - injection Hx as <-. by split.
Qed.

(** The market's total of a side, and the part of it a balance is. *)
Definition side_total (t : SpotBalanceType) (m : SpotMarket) : Z :=
  match t with Deposit => deposit_balance m | Borrow => borrow_balance m end.

Definition side_balance {B} `{SpotBalance B} (t : SpotBalanceType) (b : B) : Z :=
  if balance_type_eqb (balance_type b) t then balance b else 0.

(** The markets that differ in the two totals only. *)
Definition same_terms (m m' : SpotMarket) : Prop :=
  m' = set_borrow_balance (set_deposit_balance m (deposit_balance m')) (borrow_balance m').

Lemma same_terms_refl m : same_terms m m.
Proof. by destruct m. Qed.

Lemma same_terms_trans m1 m2 m3 : same_terms m1 m2 -> same_terms m2 m3 -> same_terms m1 m3.
Proof. unfold same_terms. intros -> ->. done. Qed.

Lemma same_terms_ok m m' : same_terms m m' -> market_ok m -> market_ok m'.
Proof. intros -> [H1 H2 H3]. by split. Qed.

Lemma same_terms_token m m' b t : same_terms m m' -> get_token_amount b m' t = get_token_amount b m t.
Proof. intros ->. done. Qed.

Lemma same_terms_balance m m' x t up : same_terms m m' -> get_spot_balance x m' t up = get_spot_balance x m t up.
Proof. intros ->. done. Qed.

Lemma same_terms_scale m m' : same_terms m m' -> scale m' = scale m.
Proof. intros ->. done. Qed.

Lemma same_terms_interest m m' t : same_terms m m' -> cumulative_interest m' t = cumulative_interest m t.
Proof. intros ->. by destruct t. Qed.

Lemma balance_type_eqb_spec a b : reflect (a = b) (balance_type_eqb a b).
Proof. by destruct a, b; constructor. Qed.

Lemma increase_spot_balance_Ok d m t m' :
  increase_spot_balance d m t = Ok m' ->
  same_terms m m' /\ forall s, side_total s m' = side_total s m + (if balance_type_eqb t s then d else 0).
Proof.
  destruct t; cbn; intros (x & [-> _]%safe_u_Ok & [= <-])%obind_Ok; (split; [by destruct m|]);
    intros []; cbn; lia.
Qed.

Lemma decrease_spot_balance_Ok d m t m' :
  decrease_spot_balance d m t = Ok m' ->
  same_terms m m' /\ forall s, side_total s m' = side_total s m - (if balance_type_eqb t s then d else 0).
Proof.
  destruct t; cbn; intros (x & [-> _]%safe_u_Ok & [= <-])%obind_Ok; (split; [by destruct m|]);
    intros []; cbn; lia.
Qed.

Section Laws.
Context {B : Type} `{SpotBalanceLaws B}.
Implicit Types (b : B) (m : SpotMarket).

(** An addition on the balance's own side. *)
Lemma add_balance_Ok x t up m b m' b' :
  add_balance x t up m b = Ok (m', b') -> balance_type b = t ->
  exists d, get_spot_balance x m t up = Ok d /\ same_terms m m' /\
    balance_type b' = t /\ balance b' = balance b + d /\
    forall s, side_total s m' - side_balance s b' = side_total s m - side_balance s b.
Proof.
  unfold add_balance. intros (d & Hd & Hx)%obind_Ok Ht. apply obind_Ok in Hx as (b1 & Hb & Hx).
  apply obind_Ok in Hx as (m1 & Hm & [= <- <-]). apply increase_law in Hb as [Eb Et].
  apply increase_spot_balance_Ok in Hm as [Hm Hs]. exists d. rewrite Et. repeat split; try done.
  intros s. rewrite Hs. unfold side_balance. rewrite Et, Ht, Eb.
  destruct (balance_type_eqb_spec t s); lia.
Qed.

(** What a reduction takes, and from what. *)
Lemma reduce_balance_Ok x m b leaving m' b' rest T :
  0 <= x -> reduce_balance x m b leaving = Ok (m', b', rest) ->
  get_token_amount (balance b) m (balance_type b) = Ok T ->
  same_terms m m' /\ balance_type b' = balance_type b /\
  (forall s, side_total s m' - side_balance s b' = side_total s m - side_balance s b) /\
  ((T = 0 /\ balance b' = balance b /\ rest = x) \/
   (T <> 0 /\ x < T /\ rest = 0 /\
    exists d, get_spot_balance x m (balance_type b)
                (leaving || balance_type_eqb (balance_type b) Borrow) = Ok d /\ balance b' = balance b - d) \/
   (T <> 0 /\ T <= x /\ balance b' = 0 /\ rest = x - T)).
Proof.
  intros Hx Hr HT. unfold reduce_balance in Hr. rewrite HT in Hr. cbn [obind] in Hr.
  destruct (Z.eqb_spec T 0) as [->|Hne]; cbn [negb] in Hr.
  { injection Hr as <- <- <-. split; [apply same_terms_refl|]. split; [done|]. split; [done|]. by left. }
  apply obind_Ok in Hr as ([td bd] & Hcase & Hr).
  apply obind_Ok in Hr as (m1 & Hm & Hr). apply obind_Ok in Hr as (b1 & Hb & Hr).
  apply obind_Ok in Hr as (r1 & [-> _]%safe_u_Ok & [= <- <- <-]).
  apply decrease_law in Hb as [Eb Et]. apply decrease_spot_balance_Ok in Hm as [Hm Hs].
  split; [done|]. split; [done|]. split.
  { intros s. rewrite Hs. unfold side_balance. rewrite Et, Eb. destruct (balance_type_eqb_spec (balance_type b) s); lia. }
  right. destruct (Z.ltb_spec x T) as [Hlt|Hge].
  - apply obind_Ok in Hcase as (d & Hd & [= <- <-]). left. repeat split; [done|done|lia|]. by exists d.
  - injection Hcase as <- <-. right. repeat split; [done|done|lia].
Qed.

(** No dust: a deposit worth no token is no deposit. *)
Definition no_dust (m : SpotMarket) (b : B) : Prop :=
  get_token_amount (balance b) m (balance_type b) = Ok 0 -> balance b = 0.

(** The final check of a withdrawal only reads. *)
Lemma leaving_check_Ok (leaving : bool) dir m b m' b' :
  (if leaving && balance_type_eqb dir Borrow then
     let! d := get_token_amount (deposit_balance m) m Deposit in
     let! w := get_token_amount (borrow_balance m) m Borrow in
     do! validate (w <=? d) SpotMarketInsufficientDeposits in Ok (m, b)
   else Ok (m, b)) = Ok (m', b') -> m' = m /\ b' = b.
Proof.
  destruct (_ && _); [|by intros [= <- <-]].
  intros (d & _ & Hx)%obind_Ok. apply obind_Ok in Hx as (w & _ & Hx). by apply obind_Ok in Hx as (? & _ & [= <- <-]).
Qed.

(** Neither can a balance that never changes sides. *)
Definition dust_safe (m : SpotMarket) (b : B) : Prop :=
  no_dust m b \/ forall (c : B) t, is_ok (update_balance_type c t) = false.

(** An update keeps the terms of the market, and moves the totals by what the
    balance moves. *)
Lemma update_spot_balances_conserves x dir m b leaving m' b' :
  0 <= x -> update_spot_balances x dir m b leaving = Ok (m', b') -> dust_safe m b ->
  same_terms m m' /\ forall s, side_total s m' - side_balance s b' = side_total s m - side_balance s b.
Proof.
  intros Hx. unfold update_spot_balances. intros Hu Hnd.
  apply obind_Ok in Hu as ([m1 b1] & Hu & Hc). apply leaving_check_Ok in Hc as [-> ->].
  destruct (balance_type_eqb_spec dir (balance_type b)) as [->|Hne].
  { apply add_balance_Ok in Hu as (d & _ & Hs & _ & _ & Hc); [|done]. by split. }
  apply obind_Ok in Hu as ([[m2 b2] rest] & Hr & Hu).
  assert (exists T, get_token_amount (balance b) m (balance_type b) = Ok T) as [T HT].
  { unfold reduce_balance in Hr. apply obind_Ok in Hr as (T & HT & _). by exists T. }
  destruct (reduce_balance_Ok _ _ _ _ _ _ _ _ Hx Hr HT) as (Hs2 & Ht2 & Hc2 & Hcase).
  destruct (Z.ltb_spec 0 rest) as [Hpos|]; [|by injection Hu as <- <-].
  apply obind_Ok in Hu as (b3 & Hb3 & Hu).
  destruct Hnd as [Hnd|Hfix]; [|specialize (Hfix b2 dir); by rewrite Hb3 in Hfix].
  apply retype_law in Hb3 as [E3 T3].
  apply add_balance_Ok in Hu as (d & _ & Hs & _ & _ & Hc); [|done].
  split; [by eapply same_terms_trans|]. intros s. rewrite Hc.
  assert (balance b2 = 0) as Hz.
  { destruct Hcase as [(-> & -> & _)|[(_ & _ & -> & _)|(_ & _ & -> & _)]]; [by apply Hnd|lia|done]. }
  rewrite <- Hc2. unfold side_balance. rewrite E3, T3, Hz.
  by destruct (balance_type_eqb dir s), (balance_type_eqb (balance_type b2) s).
Qed.

(** ** Tokens: what a withdrawal costs *)

(** The position in tokens, a borrow negative. *)
Definition signed_tokens (t : SpotBalanceType) (x : Z) : Z := match t with Deposit => x | Borrow => - x end.

(** With interest at most the scale, a token is worth a unit of balance. *)
Definition token_unit_ok (m : SpotMarket) : Prop :=
  cumulative_deposit_interest m <= scale m /\ cumulative_borrow_interest m <= scale m.

Lemma rounded_up_covers x m t d :
  market_ok m -> token_unit_ok m -> 0 <= x -> get_spot_balance x m t true = Ok d ->
  x * scale m <= d * cumulative_interest m t.
Proof.
  intros Hm [H1 H2] Hx Hd%get_spot_balance_Ok; [|done]. pose proof (market_ok_interest m t Hm) as Hi.
  pose proof (zfloor_bounds (x * scale m) _ Hi) as Hf. cbn [andb] in Hd.
  destruct (Z.eqb_spec (x * scale m / cumulative_interest m t) 0) as [E|]; cbn [negb] in Hd; subst d; [|lia].
  rewrite E in Hf |- *. assert (cumulative_interest m t <= scale m) by (by destruct t).
  destruct (Z.eq_dec x 0); [lia|nia].
Qed.

(** Adding a borrow of [x] adds at least [x] to what is owed. *)
Lemma add_borrow_tokens x m b m' b' T' :
  market_ok m -> token_unit_ok m -> 0 <= x -> add_balance x Borrow true m b = Ok (m', b') ->
  balance_type b = Borrow -> get_token_amount (balance b') m Borrow = Ok T' ->
  zceil (balance b * cumulative_borrow_interest m) (scale m) + x <= T'.
Proof.
  intros Hm Hu Hx Ha Ht HT'. apply add_balance_Ok in Ha as (d & Hd & _ & _ & E & _); [|done].
  apply rounded_up_covers in Hd; [|done..]. cbn [cumulative_interest] in Hd.
  apply get_token_amount_Ok in HT'; [|done].
  pose proof (scale_pos m Hm) as Hs. rewrite E in HT'. subst T'.
  pose proof (zceil_bounds (balance b * cumulative_borrow_interest m) _ Hs) as H1.
  apply zceil_ge; [done|]. nia.
Qed.

(** Taking [x] from a deposit, rounded up, takes at least [x]. *)
Lemma reduce_deposit_tokens x m b b' T T' d :
  market_ok m -> token_unit_ok m -> 0 <= x -> get_spot_balance x m Deposit true = Ok d ->
  balance b' = balance b - d -> get_token_amount (balance b) m Deposit = Ok T ->
  get_token_amount (balance b') m Deposit = Ok T' -> T' <= T - x.
Proof.
  intros Hm Hu Hx Hd E HT HT'. apply rounded_up_covers in Hd; [|done..]. cbn [cumulative_interest] in Hd.
  apply get_token_amount_Ok in HT; [|done]. apply get_token_amount_Ok in HT'; [|done].
  pose proof (scale_pos m Hm) as Hs. rewrite E in HT'. subst T T'.
  apply Z.le_trans with ((balance b * cumulative_deposit_interest m + - x * scale m) / scale m).
  - apply Z.div_le_mono; nia.
  - rewrite Z.div_add by lia. lia.
Qed.

(** A withdrawal is charged in full: when [x] tokens leave the program from
    a position - a deposit, a borrow or both in turn -, the position in tokens,
    a borrow counted negative, falls by at least [x], as long as a token is
    worth at least one unit of balance; and after it the deposits of the market
    cover its borrows. *)
Theorem withdrawal_charged_in_full x m b m' b' T T' :
  market_ok m -> token_unit_ok m -> 0 <= x -> 0 <= balance b ->
  update_spot_balances x Borrow m b true = Ok (m', b') ->
  get_token_amount (balance b) m (balance_type b) = Ok T ->
  get_token_amount (balance b') m' (balance_type b') = Ok T' ->
  signed_tokens (balance_type b') T' <= signed_tokens (balance_type b) T - x /\
  exists d w, get_deposits m' = Ok d /\ get_borrows m' = Ok w /\ w <= d.
Proof.
  intros Hm Hu Hx Hb Hup HT HT'. unfold update_spot_balances in Hup.
  apply obind_Ok in Hup as ([m1 b1] & Hup & Hc). cbn [andb balance_type_eqb] in Hc.
  apply obind_Ok in Hc as (dp & Hdp & Hc). apply obind_Ok in Hc as (w & Hw & Hc).
  apply obind_Ok in Hc as (? & Hle%validate_Ok%Z.leb_le & [= <- <-]).
  split; [|by exists dp, w]. clear Hdp Hw Hle dp w.
  destruct (balance_type_eqb_spec Borrow (balance_type b)) as [Et|Hne].
  { rewrite <- Et in *. cbn [balance_type_eqb] in Hup.
    pose proof (add_balance_Ok _ _ _ _ _ _ _ Hup (eq_sym Et)) as (d & _ & Hs & Et' & _ & _).
    rewrite Et' in *. rewrite (same_terms_token m m1 _ _ Hs) in HT'.
    pose proof (add_borrow_tokens _ _ _ _ _ _ Hm Hu Hx Hup (eq_sym Et) HT').
    apply get_token_amount_Ok in HT; [|done]. cbn. lia. }
  assert (balance_type b = Deposit) as Et by (by destruct (balance_type b)).
  apply obind_Ok in Hup as ([[m2 b2] rest] & Hr & Hup).
  destruct (reduce_balance_Ok _ _ _ _ _ _ _ _ Hx Hr HT) as (Hs2 & Ht2 & _ & Hcase).
  rewrite Et in *. pose proof (scale_pos m Hm) as Hsc. pose proof (mo_deposit_interest m Hm) as Hcd.
  assert (0 <= T) as HT0.
  { apply get_token_amount_Ok in HT; [|done]. subst T. apply Z.div_pos; nia. }
  destruct (Z.ltb_spec 0 rest) as [Hpos|Hz].
  - apply obind_Ok in Hup as (b3 & Hb3 & Hup). apply retype_law in Hb3 as [E3 T3]. cbn [balance_type_eqb] in Hup.
    pose proof (add_balance_Ok _ _ _ _ _ _ _ Hup T3) as (d & _ & Hs & Et' & _ & _).
    rewrite Et' in *. rewrite (same_terms_token m m1 _ _ (same_terms_trans _ _ _ Hs2 Hs)) in HT'.
    rewrite <- (same_terms_token m m2 _ _ Hs2) in HT'.
    assert (token_unit_ok m2) as Hu2 by (rewrite Hs2; exact Hu).
    pose proof (add_borrow_tokens _ _ _ _ _ _ (same_terms_ok _ _ Hs2 Hm) Hu2 (Z.lt_le_incl _ _ Hpos) Hup T3 HT') as H1.
    assert (0 <= zceil (balance b3 * cumulative_borrow_interest m2) (scale m2)) as Hnn.
    { apply zceil_nonneg; [by rewrite (same_terms_scale m m2 Hs2)|]. rewrite E3.
      pose proof (mo_borrow_interest _ (same_terms_ok _ _ Hs2 Hm)).
      assert (0 <= balance b2) by (destruct Hcase as [(_ & -> & _)|[(_ & _ & -> & _)|(_ & _ & -> & _)]]; lia). nia. }
    cbn. destruct Hcase as [(-> & _ & ->)|[(_ & _ & -> & _)|(_ & Hge & _ & ->)]]; lia.
  - injection Hup as <- <-. rewrite Ht2 in *. rewrite (same_terms_token m m2 _ _ Hs2) in HT'. cbn.
    destruct Hcase as [(-> & E & ->)|[(_ & _ & _ & d & Hd & E)|(_ & Hge & E & ->)]].
    + rewrite E, HT in HT'. injection HT' as <-. lia.
    + exact (reduce_deposit_tokens _ _ _ _ _ _ _ Hm Hu Hx Hd E HT HT').
    + rewrite E in HT'. apply get_token_amount_Ok in HT'; [|done]. rewrite Z.mul_0_l, Z.div_0_l in HT' by lia. lia.
Qed.
End Laws.

(** * The books of a market *)

(** A market with all the balances in it: positions of users, pools of other
    markets; the revenue pool is in the market. *)
Record Book := mkBook {
  bk_market : SpotMarket;
  bk_positions : list SpotPosition;
  bk_pools : list PoolBalance;
}.

Definition sum_side {B} `{SpotBalance B} (t : SpotBalanceType) (l : list B) : Z :=
  foldr (fun b acc => side_balance t b + acc) 0 l.

#[local] Arguments sum_side : simpl never.
#[local] Arguments side_total : simpl never.
#[local] Arguments side_balance : simpl never.

Definition book_side (t : SpotBalanceType) (k : Book) : Z :=
  sum_side t (bk_positions k) + sum_side t (bk_pools k) + side_balance t (revenue_pool (bk_market k)).

(** The totals of the market are the sums of its balances. *)
Definition balanced (k : Book) : Prop := forall t, side_total t (bk_market k) = book_side t k.

Definition put_position (i : nat) (p : SpotPosition) (m : SpotMarket) (k : Book) : Book :=
  mkBook m (<[i := p]> (bk_positions k)) (bk_pools k).
Definition put_pool (i : nat) (p : PoolBalance) (m : SpotMarket) (k : Book) : Book :=
  mkBook m (bk_positions k) (<[i := p]> (bk_pools k)).

Inductive book_step : Book -> Book -> Prop :=
| book_position k i p x dir leaving cd m' p' :
    bk_positions k !! i = Some p -> 0 <= x -> no_dust (bk_market k) p ->
    update_spot_balances_and_cumulative_deposits x dir (bk_market k) p leaving cd = Ok (m', p') ->
    book_step k (put_position i p' m' k)
| book_pool k i p x dir m' p' :
    bk_pools k !! i = Some p -> 0 <= x ->
    update_spot_balances x dir (bk_market k) p false = Ok (m', p') ->
    book_step k (put_pool i p' m' k)
| book_transfer k i j p q x m' p' q' :
    bk_positions k !! i = Some p -> bk_pools k !! j = Some q -> no_dust (bk_market k) p ->
    transfer_spot_balances x (bk_market k) q p = Ok (m', q', p') ->
    book_step k (put_position i p' m' (put_pool j q' m' k))
| book_revenue k x dir m' :
    0 <= x -> update_revenue_pool_balances x dir (bk_market k) = Ok m' ->
    book_step k (mkBook m' (bk_positions k) (bk_pools k))
| book_interest k oracle now m' :
    0 <= deposit_balance (bk_market k) -> market_ok (bk_market k) ->
    0 <= total_factor (insurance_fund (bk_market k)) ->
    update_spot_market_cumulative_interest (bk_market k) oracle now = Ok m' ->
    book_step k (mkBook m' (bk_positions k) (bk_pools k)).

Inductive book_steps : Book -> Book -> Prop :=
| book_done k : book_steps k k
| book_more k k1 k2 : book_step k k1 -> book_steps k1 k2 -> book_steps k k2.

Lemma sum_side_insert {B} `{SpotBalance B} t (l : list B) i b b' :
  l !! i = Some b -> sum_side t (<[i := b']> l) = sum_side t l - side_balance t b + side_balance t b'.
Proof.
  revert i. induction l as [|c l IH]; intros [|i] Hl; [done..| |].
  - injection Hl as ->. unfold sum_side. cbn. lia.
  - change (side_balance t c + sum_side t (<[i := b']> l) = side_balance t c + sum_side t l - side_balance t b + side_balance t b').
    rewrite (IH i Hl). lia.
Qed.

Lemma pool_dust_safe m (p : PoolBalance) : dust_safe m p.
Proof. by right. Qed.

Lemma revenue_pool_conserves x dir m m' :
  0 <= x -> update_revenue_pool_balances x dir m = Ok m' ->
  same_terms (set_revenue_pool m (revenue_pool m')) m' /\
  forall t, side_total t m' - side_balance t (revenue_pool m') = side_total t m - side_balance t (revenue_pool m).
Proof.
  intros Hx. unfold update_revenue_pool_balances. intros ([m1 q] & Hu & Hm)%obind_Ok. injection Hm as <-.
  apply update_spot_balances_conserves in Hu as [Hs Hc]; [|done|apply pool_dust_safe].
  split; [by rewrite Hs|]. intros t. specialize (Hc t). by destruct t.
Qed.

Lemma cumulative_deposits_conserves x dir m p leaving cd m' p' :
  0 <= x -> no_dust m p ->
  update_spot_balances_and_cumulative_deposits x dir m p leaving cd = Ok (m', p') ->
  same_terms m m' /\ forall t, side_total t m' - side_balance t p' = side_total t m - side_balance t p.
Proof.
  intros Hx Hd. unfold update_spot_balances_and_cumulative_deposits. intros ([m1 p1] & Hu & H)%obind_Ok.
  apply obind_Ok in H as (d & _ & H). apply obind_Ok in H as (y & _ & [= <- <-]).
  apply update_spot_balances_conserves in Hu as [Hs Hc]; [|done|by left]. by split.
Qed.

(** Interest moves the rates and the revenue pool; it never falls. *)
Lemma accrue_interest_conserves m now m' :
  0 <= deposit_balance m -> market_ok m -> 0 <= total_factor (insurance_fund m) -> accrue_interest m now = Ok m' ->
  (forall t, side_total t m' - side_balance t (revenue_pool m') = side_total t m - side_balance t (revenue_pool m)) /\
  (forall t, cumulative_interest m t <= cumulative_interest m' t).
Proof.
  intros HD Hm Hf. unfold accrue_interest. intros (i & Hi & H)%obind_Ok.
  destruct ((0 <? deposit_interest i) && (1 <? borrow_interest i)) eqn:Hpos; [|injection H as <-; split; intros; lia].
  apply andb_true_iff in Hpos as [Hd%Z.ltb_lt Hb%Z.ltb_lt].
  apply obind_Ok in H as (s & [-> _]%safe_u_Ok & H). apply obind_Ok in H as (st & [_ ->]%safe_udiv_Ok & H).
  apply obind_Ok in H as (ln & [-> _]%safe_u_Ok & H).
  destruct (Z.ltb_spec 0 (deposit_interest i - deposit_interest i * total_factor (insurance_fund m) / IF_FACTOR_PRECISION))
    as [Hl|]; [|injection H as <-; split; intros; lia].
  apply obind_Ok in H as (cd & [-> _]%safe_u_Ok & H). apply obind_Ok in H as (cb & [-> _]%safe_u_Ok & H).
  apply obind_Ok in H as (ts & _ & H). apply obind_Ok in H as (x & Hx & H).
  set (stakers := deposit_interest i * total_factor (insurance_fund m) / IF_FACTOR_PRECISION) in *.
  set (m1 := set_interest m _ _ ts) in *.
  assert (0 <= x) as Hx0.
  { assert (market_ok m1) as Hm1 by (destruct Hm; split; cbn; [done|lia..]).
    unfold get_interest_token_amount in Hx. rewrite precision_ok in Hx by done. cbn [obind] in Hx.
    apply obind_Ok in Hx as (p & [-> _]%safe_u_Ok & [_ ->]%safe_udiv_Ok).
    apply Z.div_pos; [|by apply scale_pos]. apply Z.mul_nonneg_nonneg; [done|].
    apply Z.div_pos; [nia|done]. }
  apply revenue_pool_conserves in H as [Hs Hc]; [|done]. split; [intros t; specialize (Hc t); by destruct t|].
  rewrite Hs. intros []; cbn; lia.
Qed.

(** The averages leave the balances alone. *)
Lemma twap_stats_frame m o now m' :
  update_spot_market_twap_stats m o now = Ok m' ->
  revenue_pool m' = revenue_pool m /\ (forall t, side_total t m' = side_total t m) /\
  (forall t, cumulative_interest m' t = cumulative_interest m t).
Proof.
  unfold update_spot_market_twap_stats. intros H.
  apply obind_Ok in H as (? & _ & H). apply obind_Ok in H as (? & _ & H). apply obind_Ok in H as (? & _ & H).
  apply obind_Ok in H as (? & _ & H). apply obind_Ok in H as (? & _ & H). apply obind_Ok in H as (? & _ & H).
  apply obind_Ok in H as (? & _ & H). apply obind_Ok in H as (? & _ & H). apply obind_Ok in H as (? & _ & H).
  apply obind_Ok in H as (m1 & Hm & H). apply obind_Ok in H as (? & _ & [= <-]).
  destruct o as [o|].
  - unfold update_oracle_twaps in Hm. apply obind_Ok in Hm as (? & _ & Hm). apply obind_Ok in Hm as (? & _ & Hm).
    apply obind_Ok in Hm as (? & _ & [= <-]). split; [done|]. by split; intros [].
  - injection Hm as <-. split; [done|]. by split; intros [].
Qed.

Lemma dust_safe_same {B} `{SpotBalance B} m m' (b : B) : same_terms m m' -> dust_safe m b -> dust_safe m' b.
Proof.
  intros Hs [Hd|Hd]; [left|by right]. intros HT. apply Hd. by rewrite <- (same_terms_token _ _ _ _ Hs).
Qed.

(** A transfer keeps the terms, and the totals less the two balances. *)
Lemma transfer_conserves {A B : Type} `{SpotBalanceLaws A} `{SpotBalanceLaws B} x m (a : A) (b : B) m' a' b' :
  transfer_spot_balances x m a b = Ok (m', a', b') -> dust_safe m a -> dust_safe m b ->
  same_terms m m' /\ forall t, side_total t m' - side_balance t a' - side_balance t b'
                             = side_total t m - side_balance t a - side_balance t b.
Proof.
  intros Hu Ha Hb. unfold transfer_spot_balances in Hu. apply obind_Ok in Hu as (? & _ & Hu).
  destruct (x =? 0); [injection Hu as <- <- <-; split; [apply same_terms_refl|done]|].
  apply obind_Ok in Hu as (? & _ & Hu). apply obind_Ok in Hu as ([m1 a1] & Hfrom & Hu).
  apply obind_Ok in Hu as ([m2 b2] & Hto & [= <- <- <-]).
  apply update_spot_balances_conserves in Hfrom as [Hs1 Hc1]; [|lia|done].
  apply update_spot_balances_conserves in Hto as [Hs2 Hc2]; [|lia|by eapply dust_safe_same].
  split; [by eapply same_terms_trans|]. intros t. specialize (Hc1 t). specialize (Hc2 t). lia.
Qed.

Lemma book_step_balanced k k' : book_step k k' -> balanced k -> balanced k'.
Proof.
  intros Hstep Hk t. specialize (Hk t). unfold book_side in *.
  destruct Hstep as [k i p x dir leaving cd m' p' Hp Hx Hd Hu|k i p x dir m' p' Hp Hx Hu
    |k i j p q x m' p' q' Hp Hq Hd Hu|k x dir m' Hx Hu|k o now m' HD Hm Hf Hu]; cbn in *.
  - apply cumulative_deposits_conserves in Hu as [Hs Hc]; [|done..]. specialize (Hc t).
    rewrite (sum_side_insert _ _ _ _ _ Hp), Hs. cbn. rewrite <- Hs. lia.
  - apply update_spot_balances_conserves in Hu as [Hs Hc]; [|done|apply pool_dust_safe]. specialize (Hc t).
    rewrite (sum_side_insert _ _ _ _ _ Hp), Hs. cbn. rewrite <- Hs. lia.
  - apply transfer_conserves in Hu as [Hs Hc]; [|apply pool_dust_safe|by left]. specialize (Hc t).
    rewrite (sum_side_insert _ _ _ _ _ Hp), (sum_side_insert _ _ _ _ _ Hq), Hs. cbn. rewrite <- Hs. lia.
  - apply revenue_pool_conserves in Hu as [_ Hc]; [|done]. specialize (Hc t). lia.
  - unfold update_spot_market_cumulative_interest in Hu. destruct (interest_paused _).
    + apply twap_stats_frame in Hu as (Er & Et & _). rewrite Er, Et. lia.
    + apply obind_Ok in Hu as (m1 & Ha & Hu). apply accrue_interest_conserves in Ha as [Hc _]; [|done..].
      apply twap_stats_frame in Hu as (Er & Et & _). rewrite Er, Et. specialize (Hc t). lia.
Qed.

(** * Properties of the books *)

(** C10: The totals of a market are the sums of its balances, whatever happens
    in it: deposits, withdrawals, borrows, repayments, transfers between
    positions and pools, payments of the revenue pool and accruals of interest,
    in any order, keep [deposit_balance] and [borrow_balance] equal to the sums
    over all positions and pools - provided no position that is worth less than
    one token is moved to the other side. *)
Theorem spot_totals_exact k k' :
  book_steps k k' -> balanced k -> balanced k'.
Proof.
  induction 1 as [k|k k1 k2 H _ IH]; intros Hk; [done|]. apply IH. by apply (book_step_balanced k).
Qed.

(** With a token worth less than a unit of balance - nine decimals and some
    interest -, a withdrawal of one unit costs the position nothing. *)
Example tiny_withdrawal_free :
  let m := spot_market_of 1 9 1000000000000 0 10500000000 10500000000 0 0 0 0 0
    800000 20000 500000 0 0 0 0 Collateral (mkHistoricalOracleData 0 0 0 0 0 0)
    (mkPoolBalance 0 1) (mkInsuranceFund 0 0 0 0 0 0 0 0) 0 0 Active in
  let p := mkSpotPosition 1000000000000 0 0 0 1 Deposit 0 in
  update_spot_balances 1 Borrow m p true = Ok (m, p).
Proof. vm_compute. reflexivity. Qed.

(** A deposit worth less than one token breaks the books: the position's
    balance is not reduced - it is worth no token - but its side is changed, so
    that it becomes a borrow without ever having been borrowed: from a balanced
    market, a withdrawal that succeeds leaves a market whose borrows total less
    than its positions owe, and whose single borrower cannot repay. *)
Theorem dust_becomes_debt :
  exists m p m' p',
    balanced (mkBook m [p] []) /\ market_ok m /\ get_token_amount (balance p) m Deposit = Ok 0 /\
    update_spot_balances 5 Borrow m p true = Ok (m', p') /\
    borrow_balance m' < balance p' /\ balance_type p' = Borrow /\
    update_spot_balances 100 Deposit m' p' false = Err MathError.
Proof.
  pose (m := spot_market_of 0 6 1000000000999 0 10000000000 10000000000 0 0 0 0 0
    800000 20000 500000 0 0 0 0 Collateral (mkHistoricalOracleData 0 0 0 0 0 0)
    (mkPoolBalance 1000000000000 0) (mkInsuranceFund 0 0 0 0 0 0 0 0) 0 0 Active).
  exists m, (mkSpotPosition 999 0 0 0 0 Deposit 0).
  exists (set_borrow_balance m 5001), (mkSpotPosition 6000 0 0 0 0 Borrow 0).
  split; [by intros []|]. split; [split; cbn; lia|]. repeat split; vm_compute; reflexivity.
Qed.

(** * Examples *)

Definition sample_market : SpotMarket := sample_spot_market 800000 500000000000.
Definition lender : SpotPosition := mkSpotPosition 600000000000 0 0 0 0 Deposit 0.
Definition borrower : SpotPosition := mkSpotPosition 500000000000 0 0 0 0 Borrow 0.
Definition sample_book : Book := mkBook sample_market [lender; borrower] [mkPoolBalance 400000000000 0].

(** The market's own check stops a withdrawal that borrows would not cover. *)
Lemma withdrawal_charged_in_full_witness :
  exists m' p', update_spot_balances 700000000 Borrow sample_market lender true = Err SpotMarketInsufficientDeposits /\
    update_spot_balances 100000000 Borrow sample_market lender true = Ok (m', p') /\
    signed_tokens (balance_type p') 499999999 <= signed_tokens Deposit 600000000 - 100000000.
Proof.
  exists (set_deposit_balance sample_market 899999999999), (mkSpotPosition 499999999999 0 0 0 0 Deposit 0).
  split; [vm_compute; reflexivity|].
  assert (update_spot_balances 100000000 Borrow sample_market lender true =
    Ok (set_deposit_balance sample_market 899999999999, mkSpotPosition 499999999999 0 0 0 0 Deposit 0)) as H
    by (vm_compute; reflexivity).
  split; [exact H|].
  apply (withdrawal_charged_in_full 100000000 sample_market lender _ _ 600000000 499999999
    (sample_spot_market_ok _ _)) in H; [exact (proj1 H)| | | | |].
  - split; vm_compute; discriminate.
  - lia.
  - cbn. lia.
  - vm_compute. reflexivity.
  - vm_compute. reflexivity.
Defined.

Lemma spot_totals_exact_witness :
  exists k', book_steps sample_book k' /\ balanced k' /\ deposit_balance (bk_market k') = 1002000000000.
Proof.
  exists (put_position 0 (mkSpotPosition 602000000000 0 0 2000000 0 Deposit 0)
           (set_deposit_balance sample_market 1002000000000) sample_book).
  assert (book_steps sample_book (put_position 0 (mkSpotPosition 602000000000 0 0 2000000 0 Deposit 0)
           (set_deposit_balance sample_market 1002000000000) sample_book)) as H.
  { apply (book_more _ (put_position 0 (mkSpotPosition 602000000000 0 0 2000000 0 Deposit 0)
           (set_deposit_balance sample_market 1002000000000) sample_book)); [|apply book_done].
    apply (book_position sample_book 0 lender 2000000 Deposit false None).
    - reflexivity.
    - lia.
    - intros Hd. vm_compute in Hd. discriminate Hd.
    - vm_compute. reflexivity. }
  split; [exact H|]. split; [|reflexivity].
  apply (spot_totals_exact sample_book); [exact H|]. intros []; vm_compute; reflexivity.
Defined.
