(* ===== verification/DriftInsurance.v ===== *)
(** The insurance fund of a spot market: [math/insurance.rs],
    [calculate_insurance_fuel_bonus] of [math/fuel.rs],
    [state/insurance_fund_stake.rs], the stakes and the settlement of revenue of
    [controller/insurance.rs], and the staking handlers of
    [instructions/if_staker.rs].

    The amount in the vault is an argument, as in the source; the token
    transfers of the handlers are what they return.  Records, keys and the
    second reading of the vaults are left out. *)
From S2P Require Import Prelude.
From S2P Require Import RecordUpdate.
From S2P Require Import DriftError.
From S2P Require Import DriftMath.
From S2P Require Import DriftSpotMarket.
From S2P Require Import DriftTypes.
From S2P Require Import DriftSpotBalance.

(** ** constants.rs *)

Definition EPOCH_DURATION : Z := TWENTY_FOUR_HOUR * 28.
Definition FUEL_WINDOW_U128 : Z := EPOCH_DURATION.
Definition FUEL_START_TS : Z := 1723147200.
Definition MAX_APR_PER_REVENUE_SETTLE_TO_INSURANCE_FUND_VAULT : Z := 10 * PERCENTAGE_PRECISION.
Definition MAX_APR_PER_REVENUE_SETTLE_TO_INSURANCE_FUND_VAULT_GOV : Z := PERCENTAGE_PRECISION / 22.
Definition SHARE_OF_REVENUE_ALLOCATED_TO_INSURANCE_FUND_VAULT_NUMERATOR : Z := 1.
Definition SHARE_OF_REVENUE_ALLOCATED_TO_INSURANCE_FUND_VAULT_DENOMINATOR : Z := 1.

(** ** state/insurance_fund_stake.rs *)

Record InsuranceFundStake := mkInsuranceFundStake {
  if_shares : Z;
  last_withdraw_request_shares : Z;
  if_base : Z;
  last_withdraw_request_value : Z;
  last_withdraw_request_ts : Z;
  cost_basis : Z;
  if_market_index : Z;
}.

Definition new_stake (market_index : Z) : InsuranceFundStake := mkInsuranceFundStake 0 0 0 0 0 0 market_index.

Definition set_if_shares (s : InsuranceFundStake) (x : Z) : InsuranceFundStake :=
  mkInsuranceFundStake x (last_withdraw_request_shares s) (if_base s) (last_withdraw_request_value s)
    (last_withdraw_request_ts s) (cost_basis s) (if_market_index s).
Definition set_if_base (s : InsuranceFundStake) (x : Z) : InsuranceFundStake :=
  mkInsuranceFundStake (if_shares s) (last_withdraw_request_shares s) x (last_withdraw_request_value s)
    (last_withdraw_request_ts s) (cost_basis s) (if_market_index s).
Definition set_request (s : InsuranceFundStake) (shares value ts : Z) : InsuranceFundStake :=
  mkInsuranceFundStake (if_shares s) shares (if_base s) value ts (cost_basis s) (if_market_index s).
Definition set_cost_basis (s : InsuranceFundStake) (x : Z) : InsuranceFundStake :=
  mkInsuranceFundStake (if_shares s) (last_withdraw_request_shares s) (if_base s)
    (last_withdraw_request_value s) (last_withdraw_request_ts s) x (if_market_index s).

Definition validate_base (s : InsuranceFundStake) (m : SpotMarket) : DriftResult unit :=
  validate (if_base s =? shares_base (insurance_fund m)) InvalidIFRebase.

Definition checked_if_shares (s : InsuranceFundStake) (m : SpotMarket) : DriftResult Z :=
  do! validate_base s m in Ok (if_shares s).

Definition increase_if_shares (s : InsuranceFundStake) (delta : Z) (m : SpotMarket) : DriftResult InsuranceFundStake :=
  do! validate_base s m in
  let! x := safe_u 128 (if_shares s + delta) in Ok (set_if_shares s x).

Definition decrease_if_shares (s : InsuranceFundStake) (delta : Z) (m : SpotMarket) : DriftResult InsuranceFundStake :=
  do! validate_base s m in
  let! x := safe_u 128 (if_shares s - delta) in Ok (set_if_shares s x).

Definition update_if_shares (s : InsuranceFundStake) (new_shares : Z) (m : SpotMarket) : DriftResult InsuranceFundStake :=
  do! validate_base s m in Ok (set_if_shares s new_shares).

Record ProtocolIfSharesTransferConfig := mkProtocolIfSharesTransferConfig {
  whitelisted_signers : list Z;
  max_transfer_per_epoch : Z;
  current_epoch_transfer : Z;
  next_epoch_ts : Z;
}.

(** [validate_signer]; the default key is zero. *)
Definition validate_signer (c : ProtocolIfSharesTransferConfig) (signer : Z) : DriftResult unit :=
  validate (existsb (Z.eqb signer) (whitelisted_signers c) && negb (signer =? 0)) DefaultError.

Definition update_epoch (c : ProtocolIfSharesTransferConfig) (now : Z) : DriftResult ProtocolIfSharesTransferConfig :=
  if next_epoch_ts c <? now then
    let! d := safe_i 64 (now - next_epoch_ts c) in
    let! q := safe_idiv 64 d EPOCH_DURATION in
    let! n := safe_i 64 (q + 1) in
    let! e := safe_i 64 (EPOCH_DURATION * n) in
    let! ts := safe_i 64 (next_epoch_ts c + e) in
    Ok (mkProtocolIfSharesTransferConfig (whitelisted_signers c) (max_transfer_per_epoch c) 0 ts)
  else Ok c.

Definition validate_transfer (c : ProtocolIfSharesTransferConfig) (requested_transfer : Z) : DriftResult unit :=
  validate (requested_transfer <? usat 128 (max_transfer_per_epoch c - current_epoch_transfer c)) DefaultError.

(** ** math/insurance.rs *)

Definition vault_amount_to_if_shares (amount total_if_shares vault : Z) : DriftResult Z :=
  if 0 <? vault then
    let! a := cast_u 128 amount in
    let! v := cast_u 128 vault in
    get_proportion_u128 a total_if_shares v
  else
    do! validate (total_if_shares =? 0) InvalidIFSharesDetected in
    cast_u 128 amount.

Definition if_shares_to_vault_amount (n_shares total_if_shares vault : Z) : DriftResult Z :=
  do! validate (n_shares <=? total_if_shares) InvalidIFSharesDetected in
  if 0 <? total_if_shares then
    let! x := get_proportion_u128 vault n_shares total_if_shares in
    cast_u 64 x
  else Ok 0.

(** The exponent and the divisor: a [u128] has at most 39 digits, and 40 turns
    of the loop are enough ([log10_loop_total]); [10_u128.pow] panics when it
    overflows. *)
Definition calculate_rebase_info (total_if_shares vault : Z) : DriftResult (Z * Z) :=
  let! t := safe_udiv total_if_shares 10 in
  let! v := cast_u 128 vault in
  let! full := safe_udiv t v in
  let! l := unwrap (log10_iter 40 full) in
  let! expo_diff := cast_u 32 l in
  let! rebase_divisor := uchk 128 (10 ^ expo_diff) in
  Ok (expo_diff, rebase_divisor).

Definition calculate_if_shares_lost (s : InsuranceFundStake) (m : SpotMarket) (vault : Z) : DriftResult Z :=
  let n_shares := last_withdraw_request_shares s in
  let! amount := if_shares_to_vault_amount n_shares (total_shares (insurance_fund m)) vault in
  if last_withdraw_request_value s <? amount then
    let! t := safe_u 128 (total_shares (insurance_fund m) - n_shares) in
    let! v := safe_u 64 (vault - last_withdraw_request_value s) in
    let! new_n_shares := vault_amount_to_if_shares (last_withdraw_request_value s) t v in
    do! validate (new_n_shares <=? n_shares) InvalidIFSharesDetected in
    safe_u 128 (n_shares - new_n_shares)
  else Ok 0.

Definition calculate_share_price (total_if_shares vault : Z) : DriftResult Z :=
  if 0 <? total_if_shares then
    let! v := cast_u 128 vault in
    let! p := safe_u 128 (v * PRICE_PRECISION) in
    let! q := safe_udiv p total_if_shares in
    cast_u 64 q
  else Ok 0.

(** [math/fuel.rs] *)
Definition calculate_insurance_fuel_bonus (m : SpotMarket) (stake_amount stake_amount_delta fuel_bonus_numerator : Z) :
    DriftResult Z :=
  let! s := cast_u 128 (usat 64 (stake_amount - Z.abs stake_amount_delta)) in
  let! n := cast_u 128 fuel_bonus_numerator in
  let! p := safe_u 128 (s * n) in
  let! b := cast_u 128 (fuel_boost_insurance m) in
  let! p := safe_u 128 (p * b) in
  let! q := safe_udiv p FUEL_WINDOW_U128 in
  let! q := cast_u 64 q in
  Ok (q / (QUOTE_PRECISION_U64 / 10)).

(** ** controller/insurance.rs *)

Definition set_staked_amount (u : UserStats) (market x : Z) : UserStats :=
  if market =? QUOTE_SPOT_MARKET_INDEX then
    u <| if_staked_quote_asset_amount := x |>
  else if market =? GOV_SPOT_MARKET_INDEX then
    u <| if_staked_gov_token_amount := x |>
  else u.

Definition update_user_stats_if_stake_amount (delta vault : Z) (s : InsuranceFundStake) (u : UserStats)
    (m : SpotMarket) (now : Z) : DriftResult UserStats :=
  if negb (sm_market_index m =? QUOTE_SPOT_MARKET_INDEX) && negb (sm_market_index m =? GOV_SPOT_MARKET_INDEX)
     && (fuel_boost_insurance m =? 0) then Ok u
  else
    let! shares := checked_if_shares s m in
    let! v := safe_u 64 (vault + delta) in
    let! if_stake_amount := if_shares_to_vault_amount shares (total_shares (insurance_fund m)) v in
    let u := set_staked_amount u (sm_market_index m) if_stake_amount in
    if negb (fuel_boost_insurance m =? 0) && (FUEL_START_TS <=? now) then
      let! now_u32 := cast_u 32 now in
      let! start := cast_u 32 FUEL_START_TS in
      let! since_last := safe_u 32 (now_u32 - Z.max (last_fuel_if_bonus_update_ts u) start) in
      let! bonus := calculate_insurance_fuel_bonus m if_stake_amount delta since_last in
      let! b := cast_u 32 bonus in
      Ok (u <| fuel_insurance := usat 32 (fuel_insurance u + b) |> <| last_fuel_if_bonus_update_ts := now_u32 |>)
    else Ok u.

Definition set_shares (i : InsuranceFund) (total user base : Z) : InsuranceFund :=
  mkInsuranceFund total user base (unstaking_period i) (last_revenue_settle_ts i) (revenue_settle_period i)
    (total_factor i) (user_factor i).

(** The fund after its shares are set, in its market. *)
Definition with_shares (m : SpotMarket) (total user : Z) : SpotMarket :=
  set_insurance_fund m (set_shares (insurance_fund m) total user (shares_base (insurance_fund m))).

Definition apply_rebase_to_insurance_fund (vault : Z) (m : SpotMarket) : DriftResult SpotMarket :=
  let! v := cast_u 128 vault in
  let! m :=
    if negb (vault =? 0) && (v <? total_shares (insurance_fund m)) then
      let! '(expo_diff, rebase_divisor) := calculate_rebase_info (total_shares (insurance_fund m)) vault in
      let! t := safe_udiv (total_shares (insurance_fund m)) rebase_divisor in
      let! u := safe_udiv (user_shares (insurance_fund m)) rebase_divisor in
      let! e := cast_u 128 expo_diff in
      let! b := safe_u 128 (shares_base (insurance_fund m) + e) in
      Ok (set_insurance_fund m (set_shares (insurance_fund m) t u b))
    else Ok m in
  if negb (vault =? 0) && (total_shares (insurance_fund m) =? 0) then
    Ok (with_shares m v (user_shares (insurance_fund m)))
  else Ok m.

Definition apply_rebase_to_insurance_fund_stake (s : InsuranceFundStake) (m : SpotMarket) : DriftResult InsuranceFundStake :=
  let base := shares_base (insurance_fund m) in
  if negb (base =? if_base s) then
    do! validate (if_base s <? base) InvalidIFRebase in
    let! d := uchk 128 (base - if_base s) in
    let! expo_diff := cast_u 32 d in
    let! rebase_divisor := uchk 128 (10 ^ expo_diff) in
    let s := set_if_base s base in
    let! new_if_shares := safe_udiv (if_shares s) rebase_divisor in
    let! s := update_if_shares s new_if_shares m in
    let! r := safe_udiv (last_withdraw_request_shares s) rebase_divisor in
    Ok (set_request s r (last_withdraw_request_value s) (last_withdraw_request_ts s))
  else Ok s.

(** What a staking operation works on. *)
Definition Staking : Type := InsuranceFundStake * UserStats * SpotMarket.

Definition add_insurance_fund_stake (amount vault : Z) (s : InsuranceFundStake) (u : UserStats) (m : SpotMarket)
    (now : Z) : DriftResult Staking :=
  do! validate (negb ((vault =? 0) && negb (total_shares (insurance_fund m) =? 0))) InvalidIFForNewStakes in
  let! m := apply_rebase_to_insurance_fund vault m in
  let! s := apply_rebase_to_insurance_fund_stake s m in
  let! if_shares_before := checked_if_shares s m in
  let! n_shares := vault_amount_to_if_shares amount (total_shares (insurance_fund m)) vault in
  let! a := cast_i 64 amount in
  let! cb := if if_shares_before =? 0 then Ok a else safe_i 64 (cost_basis s + a) in
  let s := set_cost_basis s cb in
  let! s := increase_if_shares s n_shares m in
  let! t := safe_u 128 (total_shares (insurance_fund m) + n_shares) in
  let! us := safe_u 128 (user_shares (insurance_fund m) + n_shares) in
  let m := with_shares m t us in
  let! u := update_user_stats_if_stake_amount a vault s u m now in
  do! checked_if_shares s m in
  Ok (s, u, m).

Definition request_remove_insurance_fund_stake (n_shares vault : Z) (s : InsuranceFundStake) (u : UserStats)
    (m : SpotMarket) (now : Z) : DriftResult Staking :=
  let s := set_request s n_shares (last_withdraw_request_value s) (last_withdraw_request_ts s) in
  let! m := apply_rebase_to_insurance_fund vault m in
  let! s := apply_rebase_to_insurance_fund_stake s m in
  let! shares := checked_if_shares s m in
  do! validate (last_withdraw_request_shares s <=? shares) InvalidInsuranceUnstakeSize in
  do! validate (if_base s =? shares_base (insurance_fund m)) InvalidIFRebase in
  let! x := if_shares_to_vault_amount (last_withdraw_request_shares s) (total_shares (insurance_fund m)) vault in
  let value := Z.min x (usat 64 (vault - 1)) in
  let s := set_request s (last_withdraw_request_shares s) value (last_withdraw_request_ts s) in
  do! validate ((value =? 0) || (value <? vault)) InvalidIFUnstakeSize in
  let! u := update_user_stats_if_stake_amount 0 vault s u m now in
  Ok (set_request s (last_withdraw_request_shares s) value now, u, m).

Definition cancel_request_remove_insurance_fund_stake (vault : Z) (s : InsuranceFundStake) (u : UserStats)
    (m : SpotMarket) (now : Z) : DriftResult Staking :=
  let! m := apply_rebase_to_insurance_fund vault m in
  let! s := apply_rebase_to_insurance_fund_stake s m in
  do! checked_if_shares s m in
  do! validate (if_base s =? shares_base (insurance_fund m)) InvalidIFRebase in
  do! validate (negb (last_withdraw_request_shares s =? 0)) InvalidIFUnstakeCancel in
  let! if_shares_lost := calculate_if_shares_lost s m vault in
  let! s := decrease_if_shares s if_shares_lost m in
  let! t := safe_u 128 (total_shares (insurance_fund m) - if_shares_lost) in
  let! us := safe_u 128 (user_shares (insurance_fund m) - if_shares_lost) in
  let m := with_shares m t us in
  let! u := update_user_stats_if_stake_amount 0 vault s u m now in
  Ok (set_request s 0 0 now, u, m).

Definition remove_insurance_fund_stake (vault : Z) (s : InsuranceFundStake) (u : UserStats) (m : SpotMarket)
    (now : Z) : DriftResult (Staking * Z) :=
  let! time_since_withdraw_request := safe_i 64 (now - last_withdraw_request_ts s) in
  do! validate (unstaking_period (insurance_fund m) <=? time_since_withdraw_request)
        TryingToRemoveLiquidityTooFast in
  let! m := apply_rebase_to_insurance_fund vault m in
  let! s := apply_rebase_to_insurance_fund_stake s m in
  let! if_shares_before := checked_if_shares s m in
  let n_shares := last_withdraw_request_shares s in
  do! validate (0 <? n_shares) InvalidIFUnstake in
  do! validate (n_shares <=? if_shares_before) InsufficientIFShares in
  let! amount := if_shares_to_vault_amount n_shares (total_shares (insurance_fund m)) vault in
  do! calculate_if_shares_lost s m vault in
  let withdraw_amount := Z.min amount (last_withdraw_request_value s) in
  let! s := decrease_if_shares s n_shares m in
  let! w := cast_i 64 withdraw_amount in
  let! cb := safe_i 64 (cost_basis s - w) in
  let s := set_cost_basis s cb in
  let! t := safe_u 128 (total_shares (insurance_fund m) - n_shares) in
  let! us := safe_u 128 (user_shares (insurance_fund m) - n_shares) in
  let m := with_shares m t us in
  let s := set_request s 0 0 now in
  let! u := update_user_stats_if_stake_amount (- w) vault s u m now in
  Ok (s, u, m, withdraw_amount).

Definition admin_remove_insurance_fund_stake (vault n_shares : Z) (m : SpotMarket) : DriftResult (SpotMarket * Z) :=
  let! m := apply_rebase_to_insurance_fund vault m in
  let! protocol := get_protocol_shares (insurance_fund m) in
  do! validate (n_shares <=? protocol) InsufficientIFShares in
  let! withdraw_amount := if_shares_to_vault_amount n_shares (total_shares (insurance_fund m)) vault in
  let! t := safe_u 128 (total_shares (insurance_fund m) - n_shares) in
  let m := with_shares m t (user_shares (insurance_fund m)) in
  do! get_protocol_shares (insurance_fund m) in
  Ok (m, withdraw_amount).

Definition transfer_protocol_insurance_fund_stake (vault n_shares : Z) (target : InsuranceFundStake) (u : UserStats)
    (m : SpotMarket) : DriftResult (Staking * Z) :=
  let! m := apply_rebase_to_insurance_fund vault m in
  let! protocol := get_protocol_shares (insurance_fund m) in
  do! checked_if_shares target m in
  do! validate (n_shares <=? protocol) InsufficientIFShares in
  let! us := safe_u 128 (user_shares (insurance_fund m) + n_shares) in
  let m := with_shares m (total_shares (insurance_fund m)) us in
  let! target := increase_if_shares target n_shares m in
  let! after := checked_if_shares target m in
  let! u :=
    if (sm_market_index m =? QUOTE_SPOT_MARKET_INDEX) || (sm_market_index m =? GOV_SPOT_MARKET_INDEX) then
      let! x := if_shares_to_vault_amount after (total_shares (insurance_fund m)) vault in
      Ok (set_staked_amount u (sm_market_index m) x)
    else Ok u in
  let! withdraw_amount := if_shares_to_vault_amount n_shares (total_shares (insurance_fund m)) vault in
  do! get_protocol_shares (insurance_fund m) in
  Ok (target, u, m, withdraw_amount).

(** ** The settlement of revenue *)

Definition set_last_revenue_settle_ts (m : SpotMarket) (now : Z) : SpotMarket :=
  let i := insurance_fund m in
  set_insurance_fund m (mkInsuranceFund (total_shares i) (user_shares i) (shares_base i) (unstaking_period i)
    now (revenue_settle_period i) (total_factor i) (user_factor i)).

(** The amount the revenue pool may give, with stakers: a tenth of it, or the
    yearly cap on the vault for one period. *)
Definition cap_revenue (m : SpotMarket) (insurance_vault token_amount : Z) : DriftResult Z :=
  let max_apr :=
    if sm_market_index m =? GOV_SPOT_MARKET_INDEX then MAX_APR_PER_REVENUE_SETTLE_TO_INSURANCE_FUND_VAULT_GOV
    else MAX_APR_PER_REVENUE_SETTLE_TO_INSURANCE_FUND_VAULT in
  let! v := cast_u 128 insurance_vault in
  let! p := safe_u 128 (v * max_apr) in
  let! p := safe_udiv p PERCENTAGE_PRECISION in
  let! period := cast_u 128 (revenue_settle_period (insurance_fund m)) in
  let! periods := safe_udiv ONE_YEAR period in
  let! capped_apr_amount := safe_udiv p (Z.max periods 1) in
  let! capped_token_pct_amount := safe_udiv token_amount 10 in
  Ok (Z.min capped_token_pct_amount capped_apr_amount).

Definition settle_revenue_to_insurance_fund (spot_vault insurance_vault : Z) (m : SpotMarket) (now : Z)
    (check_invariants : bool) : DriftResult (SpotMarket * Z) :=
  let! m := update_spot_market_cumulative_interest m None now in
  if revenue_settle_period (insurance_fund m) =? 0 then Ok (m, 0)
  else
    do! validate (user_factor (insurance_fund m) <=? total_factor (insurance_fund m))
          RevenueSettingsCannotSettleToIF in
    let! depositors_claim := validate_spot_market_vault_amount m spot_vault in
    let! token_amount := get_token_amount (pb_scaled_balance (revenue_pool m)) m Deposit in
    let! t := cast_i 64 token_amount in
    let! token_amount :=
      if depositors_claim <? t then
        let! c := cast_u 128 (Z.max depositors_claim 0) in safe_udiv c 2
      else Ok token_amount in
    let! token_amount :=
      if 0 <? user_shares (insurance_fund m) then cap_revenue m insurance_vault token_amount
      else Ok token_amount in
    let! x := get_proportion_u128 token_amount SHARE_OF_REVENUE_ALLOCATED_TO_INSURANCE_FUND_VAULT_NUMERATOR
                SHARE_OF_REVENUE_ALLOCATED_TO_INSURANCE_FUND_VAULT_DENOMINATOR in
    let! x := cast_u 64 x in
    do! (if check_invariants then validate (negb (x =? 0)) NoRevenueToSettleToIF else Ok tt) in
    let m := set_last_revenue_settle_ts m now in
    let! protocol_if_factor := safe_u 32 (total_factor (insurance_fund m) - user_factor (insurance_fund m)) in
    let! m :=
      if 0 <? protocol_if_factor then
        let! p := safe_u 64 (x * protocol_if_factor) in
        let! cut := safe_udiv p (total_factor (insurance_fund m)) in
        let! n_shares := vault_amount_to_if_shares cut (total_shares (insurance_fund m)) insurance_vault in
        let! t := safe_u 128 (total_shares (insurance_fund m) + n_shares) in
        Ok (with_shares m t (user_shares (insurance_fund m)))
      else Ok m in
    let! x128 := cast_u 128 x in
    let! m := update_revenue_pool_balances x128 Borrow m in
    Ok (m, x).

(** The market, and the tokens sent from its vault to the fund's. *)
Definition attempt_settle_revenue_to_insurance_fund (spot_vault insurance_vault : Z) (m : SpotMarket) (now : Z) :
    DriftResult (SpotMarket * Z) :=
  let! due :=
    if 0 <? revenue_settle_period (insurance_fund m) then
      let! t := on_the_hour_update now (last_revenue_settle_ts (insurance_fund m))
                  (revenue_settle_period (insurance_fund m)) in
      Ok (t =? 0)
    else Ok false in
  if due then
    let! '(m, x) := settle_revenue_to_insurance_fund spot_vault insurance_vault m now false in
    Ok (set_last_revenue_settle_ts m now, x)
  else Ok (m, 0).

(** ** The handlers of [instructions/if_staker.rs] *)

(** [handle_add_insurance_fund_stake]: the stake, and the tokens moved from the
    market's vault and from the user to the fund's vault. *)
Definition handle_add_insurance_fund_stake (market_index amount spot_vault insurance_vault : Z)
    (s : InsuranceFundStake) (u : UserStats) (m : SpotMarket) (now : Z) : DriftResult (Staking * (Z * Z)) :=
  if amount =? 0 then Err InsufficientDeposit
  else
    do! validate (negb (is_insurance_fund_operation_paused m IFAdd)) InsuranceFundOperationPaused in
    do! validate (if_market_index s =? market_index) IncorrectSpotMarketAccountPassed in
    do! validate (match sm_status m with Initialized => false | _ => true end) InvalidSpotMarketState in
    do! validate ((last_withdraw_request_shares s =? 0) && (last_withdraw_request_value s =? 0))
          IFWithdrawRequestInProgress in
    let! '(m, settled) := attempt_settle_revenue_to_insurance_fund spot_vault insurance_vault m now in
    do! validate_spot_market_vault_amount m (spot_vault - settled) in
    let! r := add_insurance_fund_stake amount (insurance_vault + settled) s u m now in
    Ok (r, (settled, amount)).

Definition handle_request_remove_insurance_fund_stake (market_index amount vault : Z) (s : InsuranceFundStake)
    (u : UserStats) (m : SpotMarket) (now : Z) : DriftResult Staking :=
  do! validate (negb (is_insurance_fund_operation_paused m IFRequestRemove)) InsuranceFundOperationPaused in
  do! validate (if_market_index s =? market_index) IncorrectSpotMarketAccountPassed in
  do! validate (last_withdraw_request_shares s =? 0) IFWithdrawRequestInProgress in
  let! n_shares := vault_amount_to_if_shares amount (total_shares (insurance_fund m)) vault in
  do! validate (0 <? n_shares) IFWithdrawRequestTooSmall in
  let! user_if_shares := checked_if_shares s m in
  do! validate (n_shares <=? user_if_shares) InsufficientIFShares in
  request_remove_insurance_fund_stake n_shares vault s u m now.

Definition handle_cancel_request_remove_insurance_fund_stake (market_index vault : Z) (s : InsuranceFundStake)
    (u : UserStats) (m : SpotMarket) (now : Z) : DriftResult Staking :=
  do! validate (if_market_index s =? market_index) IncorrectSpotMarketAccountPassed in
  do! validate (negb (last_withdraw_request_shares s =? 0)) NoIFWithdrawRequestInProgress in
  cancel_request_remove_insurance_fund_stake vault s u m now.

(** The tokens are sent before the last two checks; [withdraw_paused] is the
    exchange's switch. *)
Definition handle_remove_insurance_fund_stake (withdraw_paused : bool) (market_index vault : Z)
    (s : InsuranceFundStake) (u : UserStats) (m : SpotMarket) (now : Z) : DriftResult (Staking * Z) :=
  do! validate (negb withdraw_paused) ExchangePaused in
  do! validate (negb (is_insurance_fund_operation_paused m IFRemove)) InsuranceFundOperationPaused in
  do! validate (if_market_index s =? market_index) IncorrectSpotMarketAccountPassed in
  let! healthy := is_healthy_utilization m in
  do! validate healthy SpotMarketInsufficientDeposits in
  let! '(s, u, m, amount) := remove_insurance_fund_stake vault s u m now in
  let! remaining := uchk 64 (vault - amount) in
  do! validate (0 <? remaining) InvalidIFDetected in
  do! validate_spot_balances m in
  Ok (s, u, m, amount).

Definition handle_transfer_protocol_if_shares (signer market_index shares vault : Z)
    (c : ProtocolIfSharesTransferConfig) (target : InsuranceFundStake) (u : UserStats) (m : SpotMarket) (now : Z) :
    DriftResult (ProtocolIfSharesTransferConfig * Staking) :=
  do! validate (market_index =? QUOTE_SPOT_MARKET_INDEX) DefaultError in
  do! validate_signer c signer in
  let! c := update_epoch c now in
  do! validate_transfer c shares in
  let! t := uchk 128 (current_epoch_transfer c + shares) in
  let c := mkProtocolIfSharesTransferConfig (whitelisted_signers c) (max_transfer_per_epoch c) t (next_epoch_ts c) in
  let! '(r, _) := transfer_protocol_insurance_fund_stake vault shares target u m in
  Ok (c, r).

(** * Lemmas *)

Definition T (m : SpotMarket) : Z := total_shares (insurance_fund m).
Definition U (m : SpotMarket) : Z := user_shares (insurance_fund m).
Definition base (m : SpotMarket) : Z := shares_base (insurance_fund m).

Record fund_ok (m : SpotMarket) : Prop := {
  fo_user : 0 <= U m <= T m;
  fo_total : T m < 2 ^ 128;
  fo_base : 0 <= base m;
}.

Lemma vault_amount_to_if_shares_Ok a t v n :
  0 <= a < 2 ^ 64 -> 0 <= t < 2 ^ 128 -> 0 <= v < 2 ^ 64 -> vault_amount_to_if_shares a t v = Ok n ->
  n = if 0 <? v then a * t / v else a.
Proof.
  intros Ha Ht Hv. unfold vault_amount_to_if_shares. destruct (Z.ltb_spec 0 v).
  - intros (x & [-> _]%cast_u_Ok & H1)%obind_Ok. apply obind_Ok in H1 as (y & [-> _]%cast_u_Ok & H1).
    apply get_proportion_exact in H1; [done|unfold in_u; lia|unfold in_u; lia|lia].
  - intros (? & _ & [-> _]%cast_u_Ok)%obind_Ok. done.
Qed.

Lemma if_shares_to_vault_amount_Ok n t v x :
  0 <= n -> 0 <= t < 2 ^ 128 -> 0 <= v < 2 ^ 64 -> if_shares_to_vault_amount n t v = Ok x ->
  n <= t /\ x = v * n / t.
Proof.
  intros Hn Ht Hv. unfold if_shares_to_vault_amount. intros (? & Hle%validate_Ok%Z.leb_le & H1)%obind_Ok.
  split; [done|]. destruct (Z.ltb_spec 0 t).
  - apply obind_Ok in H1 as (y & Hy & [-> _]%cast_u_Ok).
    apply get_proportion_exact in Hy; [done|unfold in_u; lia|unfold in_u; lia|lia].
  - injection H1 as <-. replace t with 0 by lia. by rewrite Zdiv_0_r.
Qed.

Lemma if_shares_to_vault_amount_le n t v x :
  0 <= n -> 0 <= t < 2 ^ 128 -> 0 <= v < 2 ^ 64 -> if_shares_to_vault_amount n t v = Ok x ->
  0 <= x <= v /\ x * t <= v * n.
Proof.
  intros Hn Ht Hv H1. apply if_shares_to_vault_amount_Ok in H1 as [Hle ->]; [|done..].
  destruct (Z.eq_dec t 0) as [->|]; [rewrite Zdiv_0_r; lia|].
  pose proof (zfloor_bounds (v * n) t ltac:(lia)). split; [|lia].
  split; [apply Z.div_pos; nia|]. apply Z.div_le_upper_bound; nia.
Qed.

(** ** Rebasing *)

Lemma calculate_rebase_info_Ok t v e d :
  calculate_rebase_info t v = Ok (e, d) -> 0 <= e /\ d = 10 ^ e.
Proof.
  unfold calculate_rebase_info. intros (a & _ & H)%obind_Ok. apply obind_Ok in H as (b & _ & H).
  apply obind_Ok in H as (c & _ & H). apply obind_Ok in H as (l & _ & H).
  apply obind_Ok in H as (x & [-> Hx]%cast_u_Ok & H). apply obind_Ok in H as (y & [-> _]%uchk_Ok & [= <- <-]).
  split; [apply Hx|done].
Qed.

Lemma with_shares_T m t u : T (with_shares m t u) = t.
Proof. done. Qed.
Lemma with_shares_U m t u : U (with_shares m t u) = u.
Proof. done. Qed.
Lemma with_shares_base m t u : base (with_shares m t u) = base m.
Proof. done. Qed.

(** A rebase of the fund divides the shares by a power of ten. *)
Lemma rebase_fund_Ok v m m1 :
  0 <= v < 2 ^ 64 -> fund_ok m -> apply_rebase_to_insurance_fund v m = Ok m1 ->
  exists k, 0 <= k /\ base m1 = base m + k /\ U m1 = U m / 10 ^ k /\ fund_ok m1 /\
    (k = 0 -> 0 < T m -> T m1 = T m).
Proof.
  intros Hv [Hu Ht Hb]. unfold apply_rebase_to_insurance_fund.
  intros (v' & [-> _]%cast_u_Ok & H)%obind_Ok. apply obind_Ok in H as (m' & Hm' & H).
  assert (exists k, 0 <= k /\ base m' = base m + k /\ U m' = U m / 10 ^ k /\ T m' = T m / 10 ^ k) as (k & Hk & Eb & Eu & Et).
  { destruct (_ && _).
    - apply obind_Ok in Hm' as ([e d] & [He ->]%calculate_rebase_info_Ok & Hm').
      apply obind_Ok in Hm' as (t & [_ ->]%safe_udiv_Ok & Hm'). apply obind_Ok in Hm' as (us & [_ ->]%safe_udiv_Ok & Hm').
      apply obind_Ok in Hm' as (e' & [-> _]%cast_u_Ok & Hm'). apply obind_Ok in Hm' as (b & [-> _]%safe_u_Ok & [= <-]).
      by exists e.
    - injection Hm' as <-. exists 0. rewrite Z.pow_0_r, !Z.div_1_r. repeat split; lia. }
  assert (0 < 10 ^ k) as Hp by (apply Z.pow_pos_nonneg; lia).
  assert (0 <= U m / 10 ^ k <= T m / 10 ^ k) as Hle by (split; [apply Z.div_pos; lia|apply Z.div_le_mono; lia]).
  assert (T m / 10 ^ k <= T m) as HT by (apply Z.div_le_upper_bound; [done|nia]).
  exists k. fold (T m') in H. destruct (negb (v =? 0) && (T m' =? 0)) eqn:E; injection H as <-.
  - apply andb_true_iff in E as [_ E%Z.eqb_eq].
    rewrite with_shares_base, with_shares_U, with_shares_T. fold (U m'). repeat split; try done; try lia.
    all: try (rewrite ?with_shares_T, ?with_shares_U, ?with_shares_base; fold (U m'); lia).
    intros -> HTp. rewrite Z.pow_0_r, Z.div_1_r in Et. lia.
  - repeat split; try done; try lia. intros -> _. rewrite Z.pow_0_r, Z.div_1_r in Et. done.
Qed.

(** The shares of a stake at the base of the fund. *)
Definition eff (s : InsuranceFundStake) (m : SpotMarket) : Z := if_shares s / 10 ^ (base m - if_base s).

Record stake_ok (m : SpotMarket) (s : InsuranceFundStake) : Prop := {
  so_shares : 0 <= if_shares s;
  so_base : 0 <= if_base s <= base m;
  so_request : 0 <= last_withdraw_request_shares s;
  so_value : 0 <= last_withdraw_request_value s;
}.

Lemma eff_at_base s m : if_base s = base m -> eff s m = if_shares s.
Proof. unfold eff. intros ->. by rewrite Z.sub_diag, Z.pow_0_r, Z.div_1_r. Qed.

Lemma eff_nonneg m s : stake_ok m s -> 0 <= eff s m.
Proof. intros [H1 H2 _ _]. apply Z.div_pos; [done|]. apply Z.pow_pos_nonneg; lia. Qed.

(** Rebasing the fund divides the effective shares alike. *)
Lemma eff_rebase m m1 s k : 0 <= k -> base m1 = base m + k -> stake_ok m s -> eff s m1 = eff s m / 10 ^ k.
Proof.
  intros Hk Eb [_ H2 _ _]. unfold eff. rewrite Eb.
  rewrite Z.div_div by (apply Z.pow_nonzero || apply Z.pow_pos_nonneg; lia).
  rewrite <- Z.pow_add_r by lia. do 2 f_equal. lia.
Qed.

Lemma rebase_stake_Ok s m s' :
  stake_ok m s -> apply_rebase_to_insurance_fund_stake s m = Ok s' ->
  if_base s' = base m /\ if_shares s' = eff s m /\ stake_ok m s' /\
  last_withdraw_request_value s' = last_withdraw_request_value s.
Proof.
  intros Hs. unfold apply_rebase_to_insurance_fund_stake. fold (base m).
  destruct (Z.eqb_spec (base m) (if_base s)) as [E|Hne]; cbn [negb].
  { intros [= <-]. split; [done|]. by rewrite eff_at_base. }
  intros (? & _ & H)%obind_Ok. apply obind_Ok in H as (d & [-> _]%uchk_Ok & H).
  apply obind_Ok in H as (e & [-> _]%cast_u_Ok & H). apply obind_Ok in H as (p & [-> _]%uchk_Ok & H).
  apply obind_Ok in H as (n & [_ ->]%safe_udiv_Ok & H).
  unfold update_if_shares in H. apply obind_Ok in H as (s1 & H1 & H). apply obind_Ok in H1 as (? & _ & [= <-]).
  apply obind_Ok in H as (r & [_ ->]%safe_udiv_Ok & [= <-]).
  pose proof (eff_nonneg m s Hs) as He. destruct Hs as [H1 H2 H3 H4].
  split; [done|]. split; [done|]. split; [|done]. split; cbn; [exact He|lia| |done].
  apply Z.div_pos; [done|]. apply Z.pow_pos_nonneg; lia.
Qed.

Lemma checked_if_shares_Ok s m x : checked_if_shares s m = Ok x -> x = if_shares s /\ if_base s = base m.
Proof. unfold checked_if_shares, validate_base. by intros (? & H%validate_Ok%Z.eqb_eq & [= <-])%obind_Ok. Qed.

Lemma increase_if_shares_Ok s d m s' : increase_if_shares s d m = Ok s' -> s' = set_if_shares s (if_shares s + d).
Proof. unfold increase_if_shares. intros (u1 & _ & H)%obind_Ok. by apply obind_Ok in H as (x & [-> _]%safe_u_Ok & [= <-]). Qed.

Lemma decrease_if_shares_Ok s d m s' :
  decrease_if_shares s d m = Ok s' -> s' = set_if_shares s (if_shares s - d) /\ 0 <= if_shares s - d.
Proof.
  unfold decrease_if_shares. intros (u1 & _ & H)%obind_Ok. apply obind_Ok in H as (x & [-> Hx]%safe_u_Ok & [= <-]).
  split; [done|apply Hx].
Qed.

(** ** What each operation does to the shares *)

(** From the rebased fund [m1], the stake and the users' total change by [ds],
    the total by [dt]. *)
Record share_move (v : Z) (m : SpotMarket) (s : InsuranceFundStake) (m1 m' : SpotMarket) (s' : InsuranceFundStake)
    (ds dt : Z) : Prop := {
  sv_rebase : apply_rebase_to_insurance_fund v m = Ok m1;
  sv_stake : if_base s' = base m1 /\ if_shares s' = eff s m1 + ds;
  sv_fund : base m' = base m1 /\ U m' = U m1 + ds /\ T m' = T m1 + dt;
  sv_range : T m' < 2 ^ 128 /\ 0 <= U m' /\ 0 <= if_shares s';
  sv_request : 0 <= last_withdraw_request_shares s' /\ 0 <= last_withdraw_request_value s';
  sv_value : last_withdraw_request_value s < 2 ^ 64 -> last_withdraw_request_value s' < 2 ^ 64;
}.

(** The common beginning: the fund, then the stake is rebased. *)
Lemma rebase_both v m s m1 s1 :
  0 <= v < 2 ^ 64 -> fund_ok m -> stake_ok m s ->
  apply_rebase_to_insurance_fund v m = Ok m1 -> apply_rebase_to_insurance_fund_stake s m1 = Ok s1 ->
  fund_ok m1 /\ stake_ok m1 s1 /\ if_base s1 = base m1 /\ if_shares s1 = eff s m1 /\
  last_withdraw_request_value s1 = last_withdraw_request_value s.
Proof.
  intros Hv Hf Hs H1 H2. destruct (rebase_fund_Ok v m m1 Hv Hf H1) as (k & Hk & Eb & _ & Hf1 & _).
  assert (stake_ok m1 s) as Hs1 by (destruct Hs; split; [done|lia|done|done]).
  destruct (rebase_stake_Ok s m1 s1 Hs1 H2) as (E1 & E2 & E3 & E4). done.
Qed.

Section Operations.
Context (v : Z) (s : InsuranceFundStake) (u : UserStats) (m : SpotMarket) (now : Z).
Context (Hv : 0 <= v < 2 ^ 64) (Hf : fund_ok m) (Hs : stake_ok m s).

Lemma add_stake_Ok amount s' u' m' :
  0 <= amount < 2 ^ 64 -> add_insurance_fund_stake amount v s u m now = Ok (s', u', m') ->
  exists m1, let n := if 0 <? v then amount * T m1 / v else amount in
    share_move v m s m1 m' s' n n /\ 0 <= n.
Proof.
  intros Ha. unfold add_insurance_fund_stake. intros (u1 & _ & H)%obind_Ok.
  apply obind_Ok in H as (m1 & Hm1 & H). apply obind_Ok in H as (s1 & Hs1 & H).
  destruct (rebase_both v m s m1 s1 Hv Hf Hs Hm1 Hs1) as (Hf1 & Hso & Eb & Es & Ev).
  apply obind_Ok in H as (b & _ & H). apply obind_Ok in H as (n & Hn & H).
  apply obind_Ok in H as (a & _ & H). apply obind_Ok in H as (cb & _ & H).
  apply obind_Ok in H as (s2 & ->%increase_if_shares_Ok & H).
  apply obind_Ok in H as (t & [-> Ht]%safe_u_Ok & H). apply obind_Ok in H as (us & [-> Hus]%safe_u_Ok & H).
  apply obind_Ok in H as (u2 & _ & H). apply obind_Ok in H as (u3 & _ & [= <- _ <-]).
  destruct Hf1 as [Hu1 Ht1 Hb1]. destruct Hso as [S1 S2 S3 S4].
  apply vault_amount_to_if_shares_Ok in Hn; [|done|unfold T in *; lia|done].
  exists m1. fold (T m1) in Hn. rewrite <- Hn. cbn zeta. assert (0 <= n) as Hn0.
  { rewrite Hn. destruct (Z.ltb_spec 0 v); [apply Z.div_pos; nia|lia]. }
  split; [|done]. split; cbn.
  - done.
  - by rewrite Eb, Es.
  - done.
  - split; [apply Ht|]. split; [apply Hus|]. lia.
  - by split.
  - by rewrite Ev.
Qed.

Lemma request_Ok n s' u' m' :
  0 <= n -> request_remove_insurance_fund_stake n v s u m now = Ok (s', u', m') ->
  exists m1, share_move v m s m1 m' s' 0 0 /\ m' = m1 /\ last_withdraw_request_ts s' = now /\
    last_withdraw_request_shares s' <= if_shares s' /\
    last_withdraw_request_value s' = Z.min (v * last_withdraw_request_shares s' / T m') (usat 64 (v - 1)).
Proof.
  intros Hn. unfold request_remove_insurance_fund_stake. intros (m1 & Hm1 & H)%obind_Ok.
  apply obind_Ok in H as (s1 & Hs1 & H).
  assert (stake_ok m (set_request s n (last_withdraw_request_value s) (last_withdraw_request_ts s))) as Hs0
    by (destruct Hs; split; done).
  destruct (rebase_both v m _ m1 s1 Hv Hf Hs0 Hm1 Hs1) as (Hf1 & Hso & Eb & Es & Ev).
  apply obind_Ok in H as (sh & [-> _]%checked_if_shares_Ok & H). apply obind_Ok in H as (u1 & Hle%validate_Ok%Z.leb_le & H).
  apply obind_Ok in H as (u2 & _ & H). apply obind_Ok in H as (x & Hx & H).
  apply obind_Ok in H as (u3 & _ & H). apply obind_Ok in H as (u4 & _ & [= <- _ <-]).
  pose proof Hf1 as [Hu1 Ht1 Hb1]. pose proof Hso as [S1 S2 S3 S4].
  fold (T m1) in Hx. pose proof Hx as Hx'.
  apply if_shares_to_vault_amount_Ok in Hx as [_ ->]; [|done|lia|done].
  apply if_shares_to_vault_amount_le in Hx' as [Hx' _]; [|done|lia|done].
  exists m1. split; [|done]. split; cbn.
  - done.
  - split; [done|]. rewrite Es. unfold eff. cbn. lia.
  - rewrite !Z.add_0_r. done.
  - split; [done|]. split; [lia|done].
  - split; [done|]. unfold usat. lia.
  - intros _. unfold usat. lia.
Qed.

Lemma shares_lost_Ok s1 m1 lost :
  fund_ok m1 -> stake_ok m1 s1 -> last_withdraw_request_value s1 < 2 ^ 64 ->
  calculate_if_shares_lost s1 m1 v = Ok lost -> 0 <= lost <= last_withdraw_request_shares s1.
Proof.
  intros [Hu1 Ht1 _] [S1 S2 S3 S4] Hval. unfold calculate_if_shares_lost. intros (x & Hx & H)%obind_Ok.
  destruct (_ <? x); [|injection H as <-; lia].
  apply obind_Ok in H as (t & [-> Ht]%safe_u_Ok & H). apply obind_Ok in H as (w & [-> Hw]%safe_u_Ok & H).
  apply obind_Ok in H as (nn & Hnn & H). apply obind_Ok in H as (u1 & Hle%validate_Ok%Z.leb_le & H).
  apply safe_u_Ok in H as [-> H0].
  apply vault_amount_to_if_shares_Ok in Hnn; [|lia|apply Ht|apply Hw].
  split; [apply H0|]. enough (0 <= nn) by lia. rewrite Hnn. unfold in_u in *.
  destruct (Z.ltb_spec 0 (v - last_withdraw_request_value s1)); [|lia]. apply Z.div_pos; nia.
Qed.

Lemma cancel_Ok s' u' m' :
  last_withdraw_request_value s < 2 ^ 64 ->
  cancel_request_remove_insurance_fund_stake v s u m now = Ok (s', u', m') ->
  exists m1 lost, share_move v m s m1 m' s' (- lost) (- lost) /\ 0 <= lost /\
    last_withdraw_request_shares s' = 0.
Proof.
  intros Hval. unfold cancel_request_remove_insurance_fund_stake. intros (m1 & Hm1 & H)%obind_Ok.
  apply obind_Ok in H as (s1 & Hs1 & H).
  destruct (rebase_both v m s m1 s1 Hv Hf Hs Hm1 Hs1) as (Hf1 & Hso & Eb & Es & Ev).
  apply obind_Ok in H as (u1 & _ & H). apply obind_Ok in H as (u2 & _ & H). apply obind_Ok in H as (u3 & _ & H).
  apply obind_Ok in H as (lost & Hlost & H).
  apply shares_lost_Ok in Hlost; [|done|done|by rewrite Ev].
  apply obind_Ok in H as (s2 & [-> H2]%decrease_if_shares_Ok & H).
  apply obind_Ok in H as (t & [-> Ht]%safe_u_Ok & H). apply obind_Ok in H as (us & [-> Hus]%safe_u_Ok & H).
  apply obind_Ok in H as (u4 & _ & [= <- _ <-]). destruct Hf1 as [Hu1 Ht1 Hb1].
  exists m1, lost. split; [|split; [lia|done]]. split; cbn.
  - done.
  - rewrite Es, Eb. split; [done|lia].
  - repeat split; unfold U, T, base; cbn; lia.
  - split; [apply Ht|]. split; [apply Hus|]. lia.
  - done.
  - done.
Qed.

Lemma remove_Ok s' u' m' w :
  remove_insurance_fund_stake v s u m now = Ok (s', u', m', w) ->
  exists m1 n, share_move v m s m1 m' s' (- n) (- n) /\ 0 < n /\
    0 <= w <= v /\ w * T m1 <= v * n /\ w <= last_withdraw_request_value s /\
    unstaking_period (insurance_fund m) <= now - last_withdraw_request_ts s /\
    last_withdraw_request_shares s' = 0.
Proof.
  unfold remove_insurance_fund_stake. intros (d & [-> _]%safe_i_Ok & H)%obind_Ok.
  apply obind_Ok in H as (u1 & Hper%validate_Ok%Z.leb_le & H).
  apply obind_Ok in H as (m1 & Hm1 & H). apply obind_Ok in H as (s1 & Hs1 & H).
  destruct (rebase_both v m s m1 s1 Hv Hf Hs Hm1 Hs1) as (Hf1 & Hso & Eb & Es & Ev).
  apply obind_Ok in H as (sh & [-> _]%checked_if_shares_Ok & H).
  apply obind_Ok in H as (u2 & Hn%validate_Ok%Z.ltb_lt & H). apply obind_Ok in H as (u3 & Hle%validate_Ok%Z.leb_le & H).
  apply obind_Ok in H as (x & Hx & H). apply obind_Ok in H as (u4 & _ & H).
  apply obind_Ok in H as (s2 & [-> H2]%decrease_if_shares_Ok & H).
  apply obind_Ok in H as (w' & _ & H). apply obind_Ok in H as (cb & _ & H).
  apply obind_Ok in H as (t & [-> Ht]%safe_u_Ok & H). apply obind_Ok in H as (us & [-> Hus]%safe_u_Ok & H).
  apply obind_Ok in H as (u5 & _ & [= <- _ <- <-]). pose proof Hf1 as [Hu1 Ht1 Hb1]. pose proof Hso as [S1 S2 S3 S4].
  fold (T m1) in Hx. apply if_shares_to_vault_amount_le in Hx as [Hx Hx']; [|done|lia|done].
  exists m1, (last_withdraw_request_shares s1). split; [split; cbn|].
  - done.
  - rewrite Es, Eb. split; [done|lia].
  - repeat split; unfold U, T, base; cbn; lia.
  - split; [apply Ht|]. split; [apply Hus|]. lia.
  - done.
  - done.
  - rewrite Ev. repeat split; try done; try lia.
    apply Z.le_trans with (x * T m1); [|done]. apply Z.mul_le_mono_nonneg_r; lia.
Qed.

Lemma transfer_protocol_Ok n s' u' m' w :
  0 <= n -> transfer_protocol_insurance_fund_stake v n s u m = Ok (s', u', m', w) ->
  exists m1, share_move v m s m1 m' s' n 0 /\ U m' <= T m'.
Proof.
  intros Hn. unfold transfer_protocol_insurance_fund_stake. intros (m1 & Hm1 & H)%obind_Ok.
  destruct (rebase_fund_Ok v m m1 Hv Hf Hm1) as (k & Hk & Eb & _ & Hf1 & _).
  apply obind_Ok in H as (p & Hp & H). apply obind_Ok in H as (x & [_ Ebs]%checked_if_shares_Ok & H).
  apply obind_Ok in H as (u1 & Hle%validate_Ok%Z.leb_le & H).
  apply obind_Ok in H as (us & [-> Hus]%safe_u_Ok & H).
  apply obind_Ok in H as (s2 & ->%increase_if_shares_Ok & H). apply obind_Ok in H as (af & _ & H).
  apply obind_Ok in H as (u2 & _ & H). apply obind_Ok in H as (w' & _ & H). apply obind_Ok in H as (q & _ & [= <- _ <- _]).
  destruct Hf1 as [Hu1 Ht1 Hb1]. destruct Hs as [S1 S2 S3 S4].
  unfold get_protocol_shares in Hp. apply safe_u_Ok in Hp as [-> _]. fold (T m1) (U m1) in Hle.
  exists m1. split; [split; cbn|].
  - done.
  - rewrite eff_at_base by done. done.
  - repeat split; unfold U, T, base; cbn; lia.
  - split; [done|]. split; [apply Hus|lia].
  - done.
  - done.
  - cbn. fold (U m1). unfold U in *. cbn. fold (T m1) in *. unfold T in *. cbn in *. lia.
Qed.
End Operations.

Lemma admin_remove_Ok v n m m' w :
  0 <= v < 2 ^ 64 -> fund_ok m -> 0 <= n -> admin_remove_insurance_fund_stake v n m = Ok (m', w) ->
  exists m1, apply_rebase_to_insurance_fund v m = Ok m1 /\
    base m' = base m1 /\ U m' = U m1 /\ T m' = T m1 - n /\ U m' <= T m' /\
    0 <= w <= v /\ w * T m1 <= v * n.
Proof.
  intros Hv Hf Hn. unfold admin_remove_insurance_fund_stake. intros (m1 & Hm1 & H)%obind_Ok.
  destruct (rebase_fund_Ok v m m1 Hv Hf Hm1) as (k & _ & _ & _ & [Hu Ht Hb] & _).
  apply obind_Ok in H as (p & [-> _]%safe_u_Ok & H). apply obind_Ok in H as (u1 & Hle%validate_Ok%Z.leb_le & H).
  apply obind_Ok in H as (x & Hx & H). apply obind_Ok in H as (t & [-> _]%safe_u_Ok & H).
  apply obind_Ok in H as (q & _ & [= <- <-]). fold (T m1) in *. fold (U m1) in *.
  apply if_shares_to_vault_amount_le in Hx as [Hx Hx']; [|done|lia|done].
  exists m1. unfold U, T, base in *. cbn in *. repeat split; try done; lia.
Qed.

(** Neither interest nor averages touch the fund. *)
Lemma cumulative_interest_keeps_fund m o now m' :
  0 <= deposit_balance m -> market_ok m -> 0 <= total_factor (insurance_fund m) ->
  update_spot_market_cumulative_interest m o now = Ok m' -> insurance_fund m' = insurance_fund m.
Proof.
  intros HD Hm Hf.
  assert (forall a b, update_spot_market_twap_stats a o now = Ok b -> insurance_fund b = insurance_fund a) as Htw.
  { intros a b H. unfold update_spot_market_twap_stats in H.
    do 9 (apply obind_Ok in H as (? & _ & H)). apply obind_Ok in H as (a1 & Ha & H).
    apply obind_Ok in H as (? & _ & [= <-]). destruct o as [o|]; [|by injection Ha as <-].
    unfold update_oracle_twaps in Ha. do 3 (apply obind_Ok in Ha as (? & _ & Ha)). by injection Ha as <-. }
  unfold update_spot_market_cumulative_interest. destruct (interest_paused m); [apply Htw|].
  intros (a & Ha & H)%obind_Ok. rewrite (Htw _ _ H). clear H. unfold accrue_interest in Ha.
  apply obind_Ok in Ha as (i & _ & Ha). destruct (_ && _) eqn:Hpos; [|by injection Ha as <-].
  apply andb_true_iff in Hpos as [Hd%Z.ltb_lt Hb%Z.ltb_lt].
  apply obind_Ok in Ha as (x1 & [-> _]%safe_u_Ok & Ha). apply obind_Ok in Ha as (x2 & [_ ->]%safe_udiv_Ok & Ha).
  apply obind_Ok in Ha as (x3 & [-> _]%safe_u_Ok & Ha). destruct (_ <? _) eqn:Hl in Ha; [|by injection Ha as <-].
  apply Z.ltb_lt in Hl. apply obind_Ok in Ha as (x4 & [-> _]%safe_u_Ok & Ha).
  apply obind_Ok in Ha as (x5 & [-> _]%safe_u_Ok & Ha). apply obind_Ok in Ha as (x6 & _ & Ha).
  apply obind_Ok in Ha as (x7 & Hx & Ha). set (m1 := set_interest m _ _ x6) in *.
  assert (market_ok m1) as Hm1 by (destruct Hm; split; cbn; [done|lia..]).
  unfold get_interest_token_amount in Hx. rewrite precision_ok in Hx by done. cbn [obind] in Hx.
  apply obind_Ok in Hx as (p & [-> _]%safe_u_Ok & [_ ->]%safe_udiv_Ok).
  apply revenue_pool_conserves in Ha as [-> _]; [done|].
  apply Z.div_pos; [|by apply scale_pos]. apply Z.mul_nonneg_nonneg; [done|]. apply Z.div_pos; [nia|done].
Qed.

Lemma revenue_keeps_fund x dir m m' :
  0 <= x -> update_revenue_pool_balances x dir m = Ok m' -> insurance_fund m' = insurance_fund m.
Proof. intros Hx H. apply revenue_pool_conserves in H as [-> _]; done. Qed.

Lemma settle_revenue_Ok sv v m now chk m' x :
  0 <= v < 2 ^ 64 -> fund_ok m -> 0 <= deposit_balance m -> market_ok m ->
  0 <= user_factor (insurance_fund m) -> 0 <= total_factor (insurance_fund m) ->
  settle_revenue_to_insurance_fund sv v m now chk = Ok (m', x) ->
  exists n, base m' = base m /\ U m' = U m /\ T m' = T m + n /\ T m' < 2 ^ 128 /\ 0 <= n /\ 0 <= x < 2 ^ 64 /\
    (0 < T m -> v * n <= x * T m).
Proof.
  intros Hv [Hu Ht Hb] HD Hm Huf Htf. unfold settle_revenue_to_insurance_fund. intros (m1 & H1 & H)%obind_Ok.
  apply cumulative_interest_keeps_fund in H1; [|done..]. unfold U, T, base in *. rewrite H1 in H.
  destruct (_ =? 0); [injection H as <- <-; exists 0; rewrite H1; repeat split; lia|].
  apply obind_Ok in H as (u1 & Hfac%validate_Ok%Z.leb_le & H). apply obind_Ok in H as (dc & _ & H).
  apply obind_Ok in H as (ta & _ & H). apply obind_Ok in H as (t64 & _ & H). apply obind_Ok in H as (ta2 & _ & H).
  apply obind_Ok in H as (ta3 & _ & H). apply obind_Ok in H as (y & _ & H).
  apply obind_Ok in H as (y1 & [-> Hy]%cast_u_Ok & H). apply obind_Ok in H as (u2 & _ & H).
  apply obind_Ok in H as (pf & [-> Hpf]%safe_u_Ok & H). apply obind_Ok in H as (m2 & H2 & H).
  apply obind_Ok in H as (y2 & [-> _]%cast_u_Ok & H). apply obind_Ok in H as (m3 & H3 & [= <- <-]).
  apply revenue_keeps_fund in H3; [|apply Hy]. rewrite H3. unfold in_u in Hy.
  cbn [set_last_revenue_settle_ts insurance_fund set_insurance_fund update_field setter_insurance_fund total_factor user_factor total_shares] in *. rewrite H1 in *.
  destruct (Z.ltb_spec 0 (total_factor (insurance_fund m) - user_factor (insurance_fund m))) as [Hp|];
    [|injection H2 as <-; exists 0; cbn; rewrite H1; repeat split; lia].
  apply obind_Ok in H2 as (p & [-> _]%safe_u_Ok & H2). apply obind_Ok in H2 as (cut & [Hne ->]%safe_udiv_Ok & H2).
  apply obind_Ok in H2 as (n & Hn & H2). apply obind_Ok in H2 as (t & [-> Htt]%safe_u_Ok & [= <-]).
  set (tf := total_factor (insurance_fund m)) in *. set (uf := user_factor (insurance_fund m)) in *.
  assert (0 <= y * (tf - uf) / tf <= y) as Hcut.
  { split; [apply Z.div_pos; nia|]. apply Z.div_le_upper_bound; nia. }
  apply vault_amount_to_if_shares_Ok in Hn as Hn'; [|lia|lia|done].
  set (cut := y * (tf - uf) / tf) in *. set (tot := total_shares (insurance_fund m)) in *.
  assert (0 <= n) as Hn0.
  { rewrite Hn'. destruct (Z.ltb_spec 0 v); [apply Z.div_pos; nia|lia]. }
  exists n. cbn. rewrite H1. fold tot. unfold in_u in Htt. repeat split; try done; try lia.
  intros Hpos. rewrite Hn'. destruct (Z.ltb_spec 0 v) as [Hv0|Hv0].
  - pose proof (zfloor_bounds (cut * tot) v Hv0). nia.
  - replace v with 0 by lia. nia.
Qed.

(** * The fund and its stakes *)

Record Fund := mkFund { f_market : SpotMarket; f_stakes : list InsuranceFundStake; f_vault : Z }.

Definition put_stake (i : nat) (s : InsuranceFundStake) (m : SpotMarket) (v : Z) (f : Fund) : Fund :=
  mkFund m (<[i := s]> (f_stakes f)) v.

(** The operations on the fund; the vault pays and receives what they say. *)
Inductive staking_step : Fund -> Fund -> Prop :=
| st_add f i s amount u now s' u' m' :
    f_stakes f !! i = Some s -> 0 <= amount < 2 ^ 64 -> f_vault f + amount < 2 ^ 64 ->
    add_insurance_fund_stake amount (f_vault f) s u (f_market f) now = Ok (s', u', m') ->
    staking_step f (put_stake i s' m' (f_vault f + amount) f)
| st_request f i s n u now s' u' m' :
    f_stakes f !! i = Some s -> 0 <= n ->
    request_remove_insurance_fund_stake n (f_vault f) s u (f_market f) now = Ok (s', u', m') ->
    staking_step f (put_stake i s' m' (f_vault f) f)
| st_cancel f i s u now s' u' m' :
    f_stakes f !! i = Some s ->
    cancel_request_remove_insurance_fund_stake (f_vault f) s u (f_market f) now = Ok (s', u', m') ->
    staking_step f (put_stake i s' m' (f_vault f) f)
| st_remove f i s u now s' u' m' w :
    f_stakes f !! i = Some s ->
    remove_insurance_fund_stake (f_vault f) s u (f_market f) now = Ok (s', u', m', w) ->
    staking_step f (put_stake i s' m' (f_vault f - w) f)
| st_transfer f i s n u s' u' m' w :
    f_stakes f !! i = Some s -> 0 <= n ->
    transfer_protocol_insurance_fund_stake (f_vault f) n s u (f_market f) = Ok (s', u', m', w) ->
    staking_step f (put_stake i s' m' (f_vault f) f)
| st_admin f n m' w :
    0 <= n -> admin_remove_insurance_fund_stake (f_vault f) n (f_market f) = Ok (m', w) ->
    staking_step f (mkFund m' (f_stakes f) (f_vault f - w))
| st_settle f sv now chk m' x :
    0 <= deposit_balance (f_market f) -> market_ok (f_market f) ->
    0 <= user_factor (insurance_fund (f_market f)) -> 0 <= total_factor (insurance_fund (f_market f)) ->
    f_vault f + x < 2 ^ 64 ->
    settle_revenue_to_insurance_fund sv (f_vault f) (f_market f) now chk = Ok (m', x) ->
    staking_step f (mkFund m' (f_stakes f) (f_vault f + x)).

(** Beside them: new stakes, other changes of the market, and any change of the
    vault - losses it covers, tokens sent to it. *)
Inductive fund_step : Fund -> Fund -> Prop :=
| fs_staking f f' : staking_step f f' -> fund_step f f'
| fs_new f k : fund_step f (mkFund (f_market f) (f_stakes f ++ [new_stake k]) (f_vault f))
| fs_market f m' : insurance_fund m' = insurance_fund (f_market f) -> fund_step f (mkFund m' (f_stakes f) (f_vault f))
| fs_vault f v' : 0 <= v' < 2 ^ 64 -> fund_step f (mkFund (f_market f) (f_stakes f) v').

Inductive fund_steps : Fund -> Fund -> Prop :=
| fund_done f : fund_steps f f
| fund_more f f1 f2 : fund_step f f1 -> fund_steps f1 f2 -> fund_steps f f2.

Definition eff_sum (m : SpotMarket) (l : list InsuranceFundStake) : Z := foldr (fun s acc => eff s m + acc) 0 l.

(** The stakes, at the base of the fund, are covered by the users' shares, and
    these by the total. *)
Record fund_inv (f : Fund) : Prop := {
  fi_fund : fund_ok (f_market f);
  fi_stakes : Forall (fun s => stake_ok (f_market f) s /\ last_withdraw_request_value s < 2 ^ 64) (f_stakes f);
  fi_vault : 0 <= f_vault f < 2 ^ 64;
  fi_sum : eff_sum (f_market f) (f_stakes f) <= U (f_market f);
}.

Lemma eff_sum_insert m l i s s' :
  l !! i = Some s -> eff_sum m (<[i := s']> l) = eff_sum m l - eff s m + eff s' m.
Proof.
  revert i. induction l as [|c l IH]; intros [|i] H; [done..| |].
  - injection H as ->. unfold eff_sum. cbn. lia.
  - change (eff c m + eff_sum m (<[i := s']> l) = eff c m + eff_sum m l - eff s m + eff s' m). rewrite (IH i H). lia.
Qed.

Lemma eff_sum_base m m' l : base m' = base m -> eff_sum m' l = eff_sum m l.
Proof. intros E. unfold eff_sum, eff. by rewrite E. Qed.

Lemma div_add_le a b d : 0 < d -> a / d + b / d <= (a + b) / d.
Proof.
  intros Hd. apply Z.div_le_lower_bound; [done|].
  pose proof (zfloor_bounds a d Hd). pose proof (zfloor_bounds b d Hd). lia.
Qed.

(** Rebasing rounds every stake down, and no less than the users' shares. *)
Lemma eff_sum_rebase m m1 l k :
  0 <= k -> base m1 = base m + k -> Forall (stake_ok m) l -> eff_sum m1 l <= eff_sum m l / 10 ^ k.
Proof.
  intros Hk Eb. assert (0 < 10 ^ k) as Hp by (apply Z.pow_pos_nonneg; lia).
  induction 1 as [|s l Hs _ IH]; [cbn; by rewrite Z.div_0_l by lia|].
  change (eff s m1 + eff_sum m1 l <= (eff s m + eff_sum m l) / 10 ^ k).
  rewrite (eff_rebase m m1 s k Hk Eb Hs). pose proof (div_add_le (eff s m) (eff_sum m l) _ Hp). lia.
Qed.

Lemma stake_ok_base m m' s : base m <= base m' -> stake_ok m s -> stake_ok m' s.
Proof. intros Hb [H1 H2 H3 H4]. split; [done|lia|done|done]. Qed.

(** After the rebase of the fund. *)
Lemma rebase_inv f m1 :
  fund_inv f -> apply_rebase_to_insurance_fund (f_vault f) (f_market f) = Ok m1 ->
  fund_ok m1 /\ base (f_market f) <= base m1 /\ eff_sum m1 (f_stakes f) <= U m1.
Proof.
  intros [Hf Hs Hv Hsum] H. destruct (rebase_fund_Ok _ _ _ Hv Hf H) as (k & Hk & Eb & Eu & Hf1 & _).
  split; [done|]. split; [lia|].
  assert (Forall (stake_ok (f_market f)) (f_stakes f)) as Hs' by (eapply Forall_impl; [exact Hs|by intros ? []]).
  pose proof (eff_sum_rebase _ m1 _ k Hk Eb Hs') as Hle. rewrite Eu.
  apply Z.le_trans with (eff_sum (f_market f) (f_stakes f) / 10 ^ k); [done|].
  apply Z.div_le_mono; [apply Z.pow_pos_nonneg; lia|done].
Qed.

Lemma share_move_inv f i s m1 m' s' ds dt v' :
  fund_inv f -> f_stakes f !! i = Some s -> share_move (f_vault f) (f_market f) s m1 m' s' ds dt ->
  U m' <= T m' -> 0 <= v' < 2 ^ 64 -> fund_inv (put_stake i s' m' v' f).
Proof.
  intros Hinv Hi [Hm1 [Es1 Es2] [Eb [Eu Et]] [R1 [R2 R3]] [Q1 Q2] Hval] HUT Hv'.
  destruct (rebase_inv f m1 Hinv Hm1) as (Hf1 & Hb & Hsum). destruct Hinv as [Hf Hs Hv _].
  pose proof (fo_base _ Hf1) as Hb1. split; cbn [put_stake f_market f_stakes f_vault].
  - split; [lia|done|lia].
  - apply Forall_insert; [|].
    + eapply Forall_impl; [exact Hs|]. intros x [Hx Hx']. split; [|done]. apply (stake_ok_base (f_market f)); [lia|done].
    + rewrite Forall_lookup in Hs. destruct (Hs i s Hi) as [_ Hx]. split; [split; [done|lia|done|done]|by apply Hval].
  - done.
  - rewrite (eff_sum_insert _ _ _ _ _ Hi), !(eff_sum_base m1 m') by done.
    assert (eff s m' = eff s m1) as -> by (unfold eff; by rewrite Eb).
    rewrite (eff_at_base s' m') by (by rewrite Es1, Eb). lia.
Qed.

Lemma staking_step_inv f f' : staking_step f f' -> fund_inv f -> fund_inv f'.
Proof.
  intros Hstep Hinv. pose proof Hinv as [Hf Hs Hv Hsum]. rewrite Forall_lookup in Hs.
  assert (forall m1, apply_rebase_to_insurance_fund (f_vault f) (f_market f) = Ok m1 -> fund_ok m1) as Hre
    by (intros m1 H; exact (proj1 (rebase_inv f m1 Hinv H))).
  destruct Hstep as [f i s amount u now s' u' m' Hi Ha Hva H|f i s n u now s' u' m' Hi Hn H|f i s u now s' u' m' Hi H
    |f i s u now s' u' m' w Hi H|f i s n u s' u' m' w Hi Hn H|f n m' w Hn H|f sv now chk m' x HD Hm Huf Htf Hvx H].
  - destruct (add_stake_Ok _ _ _ _ _ Hv Hf (proj1 (Hs i s Hi)) _ _ _ _ Ha H) as (m1 & Hmv & Hn0).
    apply (share_move_inv f i s m1 m' s' _ _ _ Hinv Hi Hmv); [|lia].
    pose proof (fo_user _ (Hre m1 (sv_rebase _ _ _ _ _ _ _ _ Hmv))). destruct (sv_fund _ _ _ _ _ _ _ _ Hmv). lia.
  - destruct (request_Ok _ _ _ _ _ Hv Hf (proj1 (Hs i s Hi)) _ _ _ _ Hn H) as (m1 & Hmv & -> & _).
    apply (share_move_inv f i s m1 m1 s' _ _ _ Hinv Hi Hmv); [|lia].
    exact (proj2 (fo_user _ (Hre m1 (sv_rebase _ _ _ _ _ _ _ _ Hmv)))).
  - destruct (cancel_Ok _ _ _ _ _ Hv Hf (proj1 (Hs i s Hi)) _ _ _ (proj2 (Hs i s Hi)) H) as (m1 & lost & Hmv & _).
    apply (share_move_inv f i s m1 m' s' _ _ _ Hinv Hi Hmv); [|lia].
    pose proof (fo_user _ (Hre m1 (sv_rebase _ _ _ _ _ _ _ _ Hmv))). destruct (sv_fund _ _ _ _ _ _ _ _ Hmv). lia.
  - destruct (remove_Ok _ _ _ _ _ Hv Hf (proj1 (Hs i s Hi)) _ _ _ _ H) as (m1 & n & Hmv & _ & Hw & _).
    apply (share_move_inv f i s m1 m' s' _ _ _ Hinv Hi Hmv); [|lia].
    pose proof (fo_user _ (Hre m1 (sv_rebase _ _ _ _ _ _ _ _ Hmv))). destruct (sv_fund _ _ _ _ _ _ _ _ Hmv). lia.
  - destruct (transfer_protocol_Ok _ _ _ _ Hv Hf (proj1 (Hs i s Hi)) _ _ _ _ _ Hn H) as (m1 & Hmv & HUT).
    apply (share_move_inv f i s m1 m' s' _ _ _ Hinv Hi Hmv HUT). lia.
  - destruct (admin_remove_Ok _ _ _ _ _ Hv Hf Hn H) as (m1 & Hm1 & Eb & Eu & Et & HUT & Hw & _).
    destruct (rebase_inv f m1 Hinv Hm1) as (Hf1 & Hb & Hsum1).
    split; cbn [f_market f_stakes f_vault]; [split; destruct Hf1; lia| |lia|].
    + apply Forall_lookup. intros j x Hj. destruct (Hs j x Hj) as [Hx Hx']. split; [|done].
      apply (stake_ok_base (f_market f)); [lia|done].
    + rewrite (eff_sum_base m1 m') by done. lia.
  - destruct (settle_revenue_Ok _ _ _ _ _ _ _ Hv Hf HD Hm Huf Htf H) as (n & Eb & Eu & Et & Ht & Hn & Hx & _).
    split; cbn [f_market f_stakes f_vault]; [split; destruct Hf; lia| |lia|].
    + apply Forall_lookup. intros j y Hj. destruct (Hs j y Hj) as [Hy Hy']. split; [|done].
      apply (stake_ok_base (f_market f)); [lia|done].
    + rewrite (eff_sum_base (f_market f) m') by done. lia.
Qed.

Lemma eff_sum_new m l k : 0 <= base m -> eff_sum m (l ++ [new_stake k]) = eff_sum m l.
Proof.
  intros Hb. induction l as [|s l IH].
  - unfold eff_sum, eff. cbn. rewrite Z.div_0_l; [done|]. apply Z.pow_nonzero; lia.
  - change (eff s m + eff_sum m (l ++ [new_stake k]) = eff s m + eff_sum m l). by rewrite IH.
Qed.

Lemma fund_step_inv f f' : fund_step f f' -> fund_inv f -> fund_inv f'.
Proof.
  intros [f1 f2 H|f1 k|f1 m' E|f1 v' Hv'] Hinv; [by apply (staking_step_inv f1)|..];
    destruct Hinv as [Hf Hs Hv Hsum].
  - split; cbn [f_market f_stakes f_vault]; [done| |done|].
    + apply Forall_app. split; [done|]. constructor; [|done].
      split; [|done]. split; cbn; [done|pose proof (fo_base _ Hf); lia|done|done].
    + by rewrite eff_sum_new by exact (fo_base _ Hf).
  - assert (base m' = base (f_market f1) /\ U m' = U (f_market f1) /\ T m' = T (f_market f1)) as (Eb & Eu & Et)
      by (unfold base, U, T; by rewrite E).
    split; cbn [f_market f_stakes f_vault]; [split; destruct Hf; lia| |done|].
    + eapply Forall_impl; [exact Hs|]. intros x [Hx Hx']. split; [|done].
      apply (stake_ok_base (f_market f1)); [lia|done].
    + rewrite (eff_sum_base (f_market f1) m') by done. lia.
  - by split.
Qed.

(** * Properties *)

(** C11: The stakes are backed: whatever stakes are opened, increased, requested
    back, cancelled and paid out, whatever the protocol takes, gives and settles,
    and whatever happens to the vault in between, the shares of all stakers
    together - at the current base, each rounded down - are at most the users'
    shares of the fund, and these at most the total; so the accounting of an
    unstaking never underflows. *)
Theorem stakes_backed f f' :
  fund_steps f f' -> fund_inv f -> fund_inv f'.
Proof. induction 1 as [f|f f1 f2 H _ IH]; intros Hinv; [done|]. apply IH. by apply (fund_step_inv f). Qed.

(** C12: No operation on the fund takes value from those who stay: without a
    rebase, staking, requesting, cancelling, unstaking, the protocol's own
    moves and the settlement of revenue never lower the worth of a share - the
    vault per share, in exact cross-multiplication. *)
Theorem share_price_never_falls f f' :
  staking_step f f' -> fund_inv f -> base (f_market f') = base (f_market f) -> 0 < T (f_market f) ->
  f_vault f * T (f_market f') <= f_vault f' * T (f_market f).
Proof.
  intros Hstep Hinv Eb HT. pose proof Hinv as [Hf Hs Hv Hsum]. rewrite Forall_lookup in Hs.
  assert (forall m1, apply_rebase_to_insurance_fund (f_vault f) (f_market f) = Ok m1 ->
    base m1 = base (f_market f) -> T m1 = T (f_market f)) as Hre.
  { intros m1 H E. destruct (rebase_fund_Ok _ _ _ Hv Hf H) as (k & Hk & Ek & _ & _ & Ht). apply Ht; lia. }
  destruct Hstep as [f i s amount u now s' u' m' Hi Ha Hva H|f i s n u now s' u' m' Hi Hn H|f i s u now s' u' m' Hi H
    |f i s u now s' u' m' w Hi H|f i s n u s' u' m' w Hi Hn H|f n m' w Hn H|f sv now chk m' x HD Hm Huf Htf Hvx H];
    cbn [put_stake f_market f_vault] in *.
  - assert (0 < f_vault f) as Hpos.
    { unfold add_insurance_fund_stake in H. apply obind_Ok in H as (u1 & Hz%validate_Ok & _).
      fold (T (f_market f)) in Hz. destruct (Z.eqb_spec (f_vault f) 0); [|lia].
      destruct (Z.eqb_spec (T (f_market f)) 0); [lia|done]. }
    destruct (add_stake_Ok _ _ _ _ _ Hv Hf (proj1 (Hs i s Hi)) _ _ _ _ Ha H) as (m1 & Hmv & Hn0).
    destruct (sv_fund _ _ _ _ _ _ _ _ Hmv) as (E1 & _ & ->).
    rewrite (Hre m1 (sv_rebase _ _ _ _ _ _ _ _ Hmv)) in * by lia.
    destruct (Z.ltb_spec 0 (f_vault f)); [|lia]. pose proof (zfloor_bounds (amount * T (f_market f)) (f_vault f) Hpos). lia.
  - destruct (request_Ok _ _ _ _ _ Hv Hf (proj1 (Hs i s Hi)) _ _ _ _ Hn H) as (m1 & Hmv & -> & _).
    rewrite (Hre m1 (sv_rebase _ _ _ _ _ _ _ _ Hmv)) by done. lia.
  - destruct (cancel_Ok _ _ _ _ _ Hv Hf (proj1 (Hs i s Hi)) _ _ _ (proj2 (Hs i s Hi)) H) as (m1 & lost & Hmv & Hl & _).
    destruct (sv_fund _ _ _ _ _ _ _ _ Hmv) as (E1 & _ & ->).
    rewrite (Hre m1 (sv_rebase _ _ _ _ _ _ _ _ Hmv)) by lia. nia.
  - destruct (remove_Ok _ _ _ _ _ Hv Hf (proj1 (Hs i s Hi)) _ _ _ _ H) as (m1 & n & Hmv & _ & Hw & Hwt & _).
    destruct (sv_fund _ _ _ _ _ _ _ _ Hmv) as (E1 & _ & ->).
    rewrite (Hre m1 (sv_rebase _ _ _ _ _ _ _ _ Hmv)) in * by lia. lia.
  - destruct (transfer_protocol_Ok _ _ _ _ Hv Hf (proj1 (Hs i s Hi)) _ _ _ _ _ Hn H) as (m1 & Hmv & HUT).
    destruct (sv_fund _ _ _ _ _ _ _ _ Hmv) as (E1 & _ & ->).
    rewrite (Hre m1 (sv_rebase _ _ _ _ _ _ _ _ Hmv)) by lia. lia.
  - destruct (admin_remove_Ok _ _ _ _ _ Hv Hf Hn H) as (m1 & Hm1 & E1 & _ & -> & _ & Hw & Hwt).
    rewrite (Hre m1 Hm1) in * by lia. lia.
  - destruct (settle_revenue_Ok _ _ _ _ _ _ _ Hv Hf HD Hm Huf Htf H) as (n & _ & _ & -> & _ & _ & _ & Hn).
    specialize (Hn HT). lia.
Qed.

(** Unstaking follows its rules: it succeeds only when the unstaking period
    of the market has passed since the request, and pays at most the value noted
    at the request, and at most the requested shares' part of the vault now. *)
Theorem unstake_rules v s u m now s' u' m' w :
  0 <= v < 2 ^ 64 -> fund_ok m -> stake_ok m s ->
  remove_insurance_fund_stake v s u m now = Ok (s', u', m', w) ->
  last_withdraw_request_ts s + unstaking_period (insurance_fund m) <= now /\
  0 <= w <= last_withdraw_request_value s /\
  (exists m1 n, apply_rebase_to_insurance_fund v m = Ok m1 /\ 0 < n /\ if_shares s' = eff s m1 - n /\
     w * T m1 <= v * n) /\
  last_withdraw_request_shares s' = 0.
Proof.
  intros Hv Hf Hs H. destruct (remove_Ok v s u m now Hv Hf Hs _ _ _ _ H) as (m1 & n & Hmv & Hn & Hw & Hwt & Hwv & Hp & Hr).
  split; [lia|]. split; [lia|]. split; [|done]. exists m1, n. split; [exact (sv_rebase _ _ _ _ _ _ _ _ Hmv)|].
  destruct (sv_stake _ _ _ _ _ _ _ _ Hmv) as [_ ->]. repeat split; lia.
Qed.

(** Staking and unstaking at once never pays: the shares [n] given for
    [amount] are worth at most [amount] in the vault that has received it. *)
Theorem stake_unstake_roundtrip amount total v n w :
  0 <= amount < 2 ^ 64 -> 0 < total < 2 ^ 128 -> 0 < v -> v + amount < 2 ^ 64 -> total + n < 2 ^ 128 ->
  vault_amount_to_if_shares amount total v = Ok n ->
  if_shares_to_vault_amount n (total + n) (v + amount) = Ok w ->
  w <= amount.
Proof.
  intros Ha Ht Hv Hva Htn Hn Hw. apply vault_amount_to_if_shares_Ok in Hn; [|done|lia|lia].
  destruct (Z.ltb_spec 0 v); [|lia]. pose proof (zfloor_bounds (amount * total) v Hv) as Hfl. rewrite <- Hn in Hfl.
  assert (0 <= n) by (rewrite Hn; apply Z.div_pos; nia).
  apply if_shares_to_vault_amount_Ok in Hw as [_ ->]; [|lia|lia|lia].
  apply Z.div_le_upper_bound; [lia|]. nia.
Qed.

Lemma proportion_of_nothing x : 0 <= x < 2 ^ 64 - 1 -> get_proportion_u128 x 0 1 = Ok 0.
Proof.
  intros Hx. unfold get_proportion_u128. change (0 =? 1) with false. cbn match.
  change (umax 64 <=? 0) with false. unfold umax. destruct (Z.leb_spec (2 ^ 64 - 1) x); [lia|].
  change (1 / 2 <? 0) with false. cbn [orb andb]. rewrite Z.mul_0_r. reflexivity.
Qed.

(** A sole staker who cancels loses everything: when all shares of a fund
    are one stake's, a request to withdraw them all - noted, as [request] does,
    at one unit below the vault - can be cancelled, but the cancellation finds
    the shares worth one unit more than noted, recomputes them against a fund
    without shares, and takes them all; the vault keeps the tokens. *)
Theorem sole_staker_cancel_loses_all v s u m now :
  1 < v < 2 ^ 64 -> 0 < T m <= v -> U m = T m -> if_shares s = T m -> if_base s = base m ->
  last_withdraw_request_shares s = T m -> last_withdraw_request_value s = v - 1 ->
  1 < sm_market_index m -> sm_market_index m <> GOV_SPOT_MARKET_INDEX -> fuel_boost_insurance m = 0 ->
  exists s' m', cancel_request_remove_insurance_fund_stake v s u m now = Ok (s', u, m') /\
    if_shares s' = 0 /\ T m' = 0.
Proof.
  intros Hv HT HU Hs Hb Hr Hval Hq Hg Hfuel. unfold cancel_request_remove_insurance_fund_stake, apply_rebase_to_insurance_fund.
  fold (T m) (U m) (base m). rewrite cast_u_ok by (unfold in_u; lia). cbn [obind].
  destruct (Z.eqb_spec v 0); [lia|]. destruct (Z.ltb_spec v (T m)); [lia|]. cbn [negb andb obind].
  fold (T m). destruct (Z.eqb_spec (T m) 0); [lia|]. cbn [obind].
  unfold apply_rebase_to_insurance_fund_stake. fold (base m). rewrite Hb, Z.eqb_refl. cbn [negb obind].
  unfold checked_if_shares, validate_base, validate. fold (base m). rewrite Hb, Z.eqb_refl, Hr. cbn [Prelude.require obind].
  destruct (Z.eqb_spec (T m) 0); [lia|]. cbn [negb Prelude.require obind].
  assert (calculate_if_shares_lost s m v = Ok (T m)) as ->.
  { unfold calculate_if_shares_lost, if_shares_to_vault_amount, validate. fold (T m). rewrite Hr, Z.leb_refl. cbn [Prelude.require obind].
    destruct (Z.ltb_spec 0 (T m)); [|lia]. unfold get_proportion_u128 at 1. rewrite Z.eqb_refl. cbn [obind].
    rewrite cast_u_ok by (unfold in_u; lia). cbn [obind]. rewrite Hval. destruct (Z.ltb_spec (v - 1) v); [|lia].
    rewrite Z.sub_diag, safe_u_ok by (unfold in_u; lia). cbn [obind]. rewrite safe_u_ok by (unfold in_u; lia). cbn [obind].
    unfold vault_amount_to_if_shares. destruct (Z.ltb_spec 0 (v - (v - 1))); [|lia].
    rewrite !cast_u_ok by (unfold in_u; lia). cbn [obind]. replace (v - (v - 1)) with 1 by lia.
    rewrite proportion_of_nothing by lia. cbn [obind]. destruct (Z.leb_spec 0 (T m)); [|lia].
    cbn [Prelude.require obind]. rewrite Z.sub_0_r. apply safe_u_ok. unfold in_u. lia. }
  cbn [obind]. unfold decrease_if_shares, validate_base, validate. fold (base m).
  rewrite Hb, Z.eqb_refl, Hs, Z.sub_diag. cbn [Prelude.require obind].
  rewrite safe_u_ok by (unfold in_u; lia). cbn [obind]. fold (T m) (U m). rewrite HU, Z.sub_diag.
  rewrite safe_u_ok by (unfold in_u; lia). cbn [obind].
  unfold update_user_stats_if_stake_amount. cbn [with_shares set_insurance_fund update_field setter_insurance_fund sm_market_index fuel_boost_insurance].
  rewrite Hfuel. unfold QUOTE_SPOT_MARKET_INDEX.
  destruct (Z.eqb_spec (sm_market_index m) 0); [lia|]. destruct (Z.eqb_spec (sm_market_index m) GOV_SPOT_MARKET_INDEX); [lia|].
  cbn. eexists _, _. split; [done|]. by split.
Qed.

(** * Examples *)

Definition sample_fund_market (total user base_ : Z) : SpotMarket :=
  spot_market_of 3 6 1000000000000 500000000000 10000000000 10000000000 0 0 0 0 0
    800000 20000 500000 0 0 0 0 Cross (mkHistoricalOracleData 0 0 0 0 0 0)
    (mkPoolBalance 0 3) (mkInsuranceFund total user base_ 3600 0 0 0 0) 0 0 Active.

Definition sample_stats : UserStats := default_UserStats.
Definition sample_stake : InsuranceFundStake := mkInsuranceFundStake 400 0 0 0 0 400 3.
Definition sample_fund : Fund := mkFund (sample_fund_market 1000 400 0) [sample_stake] 2000.

Lemma sample_fund_inv : fund_inv sample_fund.
Proof.
  split; cbn; [split; unfold U, T, base; cbn; lia| |lia|].
  - constructor; [|constructor]. split; [|cbn; lia]. split; cbn; unfold base; cbn; lia.
  - vm_compute. discriminate.
Qed.

(** The stake of 400 shares adds 200 tokens, for 100 shares. *)
Definition sample_fund_after : Fund :=
  mkFund (sample_fund_market 1100 500 0) [mkInsuranceFundStake 500 0 0 0 0 600 3] 2200.

Lemma sample_staking : staking_step sample_fund sample_fund_after.
Proof.
  refine (st_add sample_fund 0 sample_stake 200 sample_stats 0 (mkInsuranceFundStake 500 0 0 0 0 600 3) sample_stats
    (sample_fund_market 1100 500 0) _ _ _ _); [reflexivity|lia|cbn; lia|vm_compute; reflexivity].
Qed.

Lemma stakes_backed_witness : fund_inv sample_fund_after.
Proof.
  apply (stakes_backed sample_fund sample_fund_after).
  - apply (fund_more _ sample_fund_after); [apply fs_staking; exact sample_staking|apply fund_done].
  - exact sample_fund_inv.
Defined.

Lemma share_price_never_falls_witness : 2000 * 1100 <= 2200 * 1000.
Proof.
  apply (share_price_never_falls sample_fund sample_fund_after sample_staking sample_fund_inv);
    [reflexivity|unfold T; cbn; lia].
Defined.

Definition leaving_stake : InsuranceFundStake := mkInsuranceFundStake 400 100 0 150 1000 400 3.

Lemma unstake_rules_witness :
  exists s' m', remove_insurance_fund_stake 2000 leaving_stake sample_stats (sample_fund_market 1000 400 0) 5000 =
    Ok (s', sample_stats, m', 150) /\ 1000 + 3600 <= 5000 /\ last_withdraw_request_shares s' = 0.
Proof.
  exists (mkInsuranceFundStake 300 0 0 0 5000 250 3), (sample_fund_market 900 300 0).
  assert (remove_insurance_fund_stake 2000 leaving_stake sample_stats (sample_fund_market 1000 400 0) 5000 =
    Ok (mkInsuranceFundStake 300 0 0 0 5000 250 3, sample_stats, sample_fund_market 900 300 0, 150)) as H
    by (vm_compute; reflexivity).
  split; [exact H|].
  assert (fund_ok (sample_fund_market 1000 400 0)) as Hf by (split; unfold U, T, base; cbn; lia).
  assert (stake_ok (sample_fund_market 1000 400 0) leaving_stake) as Hs by (split; unfold base; cbn; lia).
  destruct (unstake_rules 2000 leaving_stake sample_stats (sample_fund_market 1000 400 0) 5000 _ _ _ _
    ltac:(lia) Hf Hs H) as (H1 & _ & _ & H2).
  split; [exact H1|exact H2].
Defined.

Lemma stake_unstake_roundtrip_witness : 200 <= 200.
Proof.
  apply (stake_unstake_roundtrip 200 1000 2000 100 200); [lia|lia|lia|lia|lia|vm_compute; reflexivity..].
Defined.

Lemma sole_staker_cancel_loses_all_witness :
  exists s' m', cancel_request_remove_insurance_fund_stake 2000 (mkInsuranceFundStake 1000 1000 0 1999 0 1000 3)
    sample_stats (sample_fund_market 1000 1000 0) 60 = Ok (s', sample_stats, m') /\ if_shares s' = 0 /\ T m' = 0.
Proof.
  apply (sole_staker_cancel_loses_all 2000 (mkInsuranceFundStake 1000 1000 0 1999 0 1000 3) sample_stats
    (sample_fund_market 1000 1000 0) 60); try reflexivity; unfold T, GOV_SPOT_MARKET_INDEX; cbn; lia.
Defined.
