(* ===== verification/Router.v ===== *)
(** The swap router of [instructions/swap_router_base_in.rs]: a chain of
    [exact_internal_v2] swaps in which each spends what the one before it has
    put into the trader's account.

    The accounts of the transaction are a store, from keys to what the accounts
    hold, so that a pool that occurs twice in a route is seen as its first swap
    left it; the route is the list of their keys. *)
From S2P Require Import Prelude.
From stdpp Require Import gmap.
From S2P Require Import AmmError.
From S2P Require Import BigNum.
From S2P Require Import FullMath.
From S2P Require Import Config.
From S2P Require Import BitmapExtension.
From S2P Require Import Oracle.
From S2P Require Import TickState.
From S2P Require Import TickArray.
From S2P Require Import Token.
From S2P Require Import Pool.
From S2P Require Import Shield.
From S2P Require Import SwapState.
From S2P Require Import SwapLoop.
From S2P Require Import Swap.
From S2P Require Import SwapCorrect.
From S2P Require Import SwapTrader.
#[local] Open Scope Z_scope.

(** What an account holds; [padding1[0]] of a pool is kept beside it. *)
Inductive AccountData :=
| ConfigData (c : AmmConfig)
| PoolData (p : PoolState) (last_swap_slot : Z)
| TokenData (mint : Pubkey)
| MintData (m : Mint)
| ObservationData (o : ObservationState)
| ExtensionData (e : TickArrayBitmapExtension)
| TickArrayData (a : TickArrayState)
| ArbData (owner : Pubkey) (c : option ArbConfig)
| OtherData.

Definition store : Type := gmap Pubkey AccountData.

(** The result of [exact_internal_v2] on the store: the store, the balances,
    the amount received, and the output account and its mint. *)
Record HopResult := mkHopResult {
  hop_store : store;
  hop_balances : balances;
  hop_amount : Z;
  hop_output_account : Pubkey;
  hop_output_mint : Mint;
}.

(** The conversions of account infos: an account of another type is refused. *)
Definition load {A} (f : AccountData -> option A) (s : store) (k : Pubkey) : Result A :=
  ok_or (d ← s !! k; f d) ConstraintViolated.
Definition as_config (d : AccountData) := match d with ConfigData c => Some c | _ => None end.
Definition as_pool (d : AccountData) := match d with PoolData p l => Some (p, l) | _ => None end.
Definition as_token (d : AccountData) := match d with TokenData m => Some m | _ => None end.
Definition as_mint (d : AccountData) := match d with MintData m => Some m | _ => None end.
Definition as_observation (d : AccountData) := match d with ObservationData o => Some o | _ => None end.

(** [account_info.data_len() != AmmConfig::LEN] *)
Definition is_config (s : store) (k : Pubkey) : bool :=
  match s !! k with Some (ConfigData _) => true | _ => false end.

Section Router.
Context {U : UintLib} {T : TokenLib} {P : TokenProgram}.
Context (fuel : nat) (ext_pda arb_pda : Pubkey -> Pubkey) (program_ID : Pubkey).

(** What [exact_internal_v2] makes of an account of the rest of the route. *)
Definition swap_account (s : store) (pool k : Pubkey) : SwapAccount :=
  match s !! k with
  | Some (ExtensionData e) => if k =? ext_pda pool then ExtensionAccount e else OtherAccount
  | Some (ArbData owner c) =>
      if k =? arb_pda pool then ArbConfigAccount (mkArbAccount k owner c) else OtherAccount
  | Some (TickArrayData a) => TickArrayAccount a
  | _ => OtherAccount
  end.

(** The keys of the tick arrays it collects, in their order. *)
Fixpoint array_keys (s : store) (pool : Pubkey) (l : list Pubkey) : list Pubkey :=
  match l with
  | [] => []
  | k :: l =>
      match swap_account s pool k with
      | ExtensionAccount _ | ArbConfigAccount _ => array_keys s pool l
      | TickArrayAccount _ => k :: array_keys s pool l
      | OtherAccount => []
      end
  end.

Fixpoint store_arrays (keys : list Pubkey) (arrays : list TickArrayState) (s : store) : store :=
  match keys, arrays with
  | k :: keys, a :: arrays => store_arrays keys arrays (<[k := TickArrayData a]> s)
  | _, _ => s
  end.

(** The accounts as the swap leaves them. *)
Definition store_outcome (s : store) (pool obs : Pubkey) (keys : list Pubkey) (o : SwapOutcome)
    (arb : option ArbAccount) (last_swap_slot : Z) : store :=
  let s := <[obs := ObservationData (so_observation o)]> (<[pool := PoolData (so_pool o) last_swap_slot]> s) in
  let s := store_arrays keys (so_arrays o) s in
  let s := match so_extension o with Some (k, e) => <[k := ExtensionData e]> s | None => s end in
  match arb with Some x => <[aa_key x := ArbData (aa_owner x) (aa_data x)]> s | None => s end.

(** One swap of the route: the accounts of its [SwapSingleV2], the two checks
    of the router, and the swap. *)
Definition hop (s : store) (b : balances) (config pool output in_vault out_vault out_mint obs : Pubkey)
    (rest : list Pubkey) (input : Pubkey) (input_mint : Mint) (amount slot ts : Z) : run error HopResult :=
  let? c := lift (load as_config s config) in
  let? '(p, last_swap_slot) := lift (load as_pool s pool) in
  let? _ := lift (load as_token s output) in
  let? in_vault_mint := lift (load as_token s in_vault) in
  let? out_vault_mint := lift (load as_token s out_vault) in
  let? output_mint := lift (load as_mint s out_mint) in
  let? o := lift (load as_observation s obs) in
  let? _ := lift (require_keys_eq (observation_key p) obs) in
  let? _ := lift (require_keys_eq (amm_config_key p) config) in
  let single := mkSwapSingle config c obs input output in_vault in_vault_mint out_vault out_vault_mint
                  input_mint output_mint in
  let? '(r, arb, last) :=
    exact_internal_v2 fuel pool (ext_pda pool) (arb_pda pool) program_ID single p o
      (swap_account s pool <$> rest) last_swap_slot b amount 0 true slot ts in
  Some (Ok (mkHopResult (store_outcome s pool obs (array_keys s pool rest) r arb last)
              (so_balances r) (so_amount r) output output_mint)).

(** The [while] loop; [first] is [accounts.len() == remaining_accounts.len()]. *)
Fixpoint route (first : bool) (accounts : list Pubkey) (s : store) (b : balances) (input : Pubkey)
    (input_mint : Mint) (amount slot ts : Z) : run error (store * balances * Z) :=
  match accounts with
  | [] => Some (Ok (s, b, amount))
  | config :: rest =>
      if negb first && negb (is_config s config) then route false rest s b input input_mint amount slot ts
      else
        match rest with
        | pool :: output :: in_vault :: out_vault :: out_mint :: obs :: rest =>
            let? h := hop s b config pool output in_vault out_vault out_mint obs rest input input_mint
                        amount slot ts in
            route false rest (hop_store h) (hop_balances h) (hop_output_account h) (hop_output_mint h)
              (hop_amount h) slot ts
        | _ => lift (err AccountLack)
        end
  end.

Definition swap_router_base_in (accounts : list Pubkey) (s : store) (b : balances) (input input_mint : Pubkey)
    (amount_in amount_out_minimum slot ts : Z) : run error (store * balances * Z) :=
  let? _ := lift (load as_token s input) in
  let? m := lift (load as_mint s input_mint) in
  let? '(s, b, amount) := route true accounts s b input m amount_in slot ts in
  let? _ := lift (require (amount_out_minimum <=? amount) TooLittleOutputReceived) in
  Some (Ok (s, b, amount)).
End Router.

(** * The legs of a route *)

(** A swap of the route: the trader's output account and the two vaults. *)
Record Leg := mkLeg { lg_out : Pubkey; lg_in_vault : Pubkey; lg_out_vault : Pubkey }.

(** How the accounts of a route are read: seven for a swap, then accounts of
    its tick arrays. *)
Inductive parsed : bool -> list Pubkey -> list Leg -> Prop :=
| parsed_end first : parsed first [] []
| parsed_skip k l legs : parsed false l legs -> parsed false (k :: l) legs
| parsed_leg first config pool output in_vault out_vault mint obs l legs :
    parsed false l legs ->
    parsed first (config :: pool :: output :: in_vault :: out_vault :: mint :: obs :: l)
      (mkLeg output in_vault out_vault :: legs).

Definition is_vault (legs : list Leg) (k : Pubkey) : Prop :=
  exists g, g ∈ legs /\ (k = lg_in_vault g \/ k = lg_out_vault g).

(** The trader's accounts are different, and none is a vault of the route. *)
Definition apart (input : Pubkey) (legs : list Leg) : Prop :=
  NoDup (input :: (lg_out <$> legs)) /\
  (forall k, k ∈ input :: (lg_out <$> legs) -> ~ is_vault legs k) /\
  Forall (fun g => lg_in_vault g <> lg_out_vault g) legs.

(** What a route does to the balances. *)
Definition route_effect (input : Pubkey) (legs : list Leg) (amount : Z) (b b' : balances) (out : Z) : Prop :=
  match last legs with
  | None => b' = b /\ out = amount
  | Some g =>
      b input - b' input = amount /\ b' (lg_out g) - b (lg_out g) = out /\
      forall k, k <> input -> k <> lg_out g -> ~ is_vault legs k -> b' k = b k
  end.

Lemma apart_tail input g legs : apart input (g :: legs) -> apart (lg_out g) legs.
Proof.
  intros (Hn & Hv & Hd). cbn in Hn, Hv. apply NoDup_cons in Hn as [_ Hn]. apply Forall_cons in Hd as [_ Hd].
  split; [done|]. split; [|done]. intros k Hk (h & Hh & E). apply (Hv k); [by right|].
  exists h. split; [by right|done].
Qed.

Section Effect.
Context {U : UintLib} {T : TokenLib} {P : TokenProgram}.
Context (fuel : nat) (ext_pda arb_pda : Pubkey -> Pubkey) (program_ID : Pubkey) (Hlaws : token_laws).

(** An exact input without a limit pays the amount and reports what arrives. *)
Lemma exact_input_v2_Ok pool ek pda c p o rem lst b amount slot ts s arb lst' :
  swap_accounts_distinct c ->
  exact_internal_v2 fuel pool ek pda program_ID c p o rem lst b amount 0 true slot ts = Some (Ok (s, arb, lst')) ->
  paid c b (so_balances s) = amount /\ so_amount s = received c b (so_balances s) /\
  forall k, k <> input_token_account c -> k <> output_token_account c -> k <> input_vault c ->
    k <> output_vault c -> so_balances s k = b k.
Proof.
  intros Hd Hs. unfold exact_internal_v2 in Hs. apply rbind_Ok in Hs as ([spec fee] & _ & Hs).
  apply rbind_Ok in Hs as (u5 & _ & Hs). apply rbind_Ok in Hs as (u6 & _ & Hs).
  destruct (collect_accounts_v2 pda rem None None) as [[ext arb0] arrays].
  apply rbind_Ok in Hs as ([p1 arb2] & _ & Hs). apply rbind_Ok in Hs as ([[tax p2] arb3] & _ & Hs).
  apply rbind_Ok in Hs as ([[[[r p'] arrays'] o'] ext'] & _ & Hs).
  apply rbind_Ok in Hs as ([x b'] & Hset%lift_Ok & Hs). injection Hs as <- <- <-. cbn [so_balances so_amount].
  apply (settle_swap_v2_Ok Hlaws) in Hset as (fi & fo & _ & _ & _ & _ & _ & _ & Hk & -> & Hl); [|done].
  split; [by apply Hl|]. by split.
Qed.

Lemma hop_Ok s b config pool output iv ov om obs rest input m amount slot ts h :
  hop fuel ext_pda arb_pda program_ID s b config pool output iv ov om obs rest input m amount slot ts = Some (Ok h) ->
  input <> output -> iv <> ov -> input <> iv -> input <> ov -> output <> iv -> output <> ov ->
  hop_output_account h = output /\
  b input - hop_balances h input = amount /\ hop_amount h = hop_balances h output - b output /\
  forall k, k <> input -> k <> output -> k <> iv -> k <> ov -> hop_balances h k = b k.
Proof.
  intros H N1 N2 N3 N4 N5 N6. unfold hop in H.
  apply rbind_Ok in H as (c & _ & H). apply rbind_Ok in H as ([p l] & _ & H).
  do 3 (apply rbind_Ok in H as (? & _ & H)). apply rbind_Ok in H as (mo & _ & H).
  apply rbind_Ok in H as (o & _ & H). apply rbind_Ok in H as (u1 & _ & H). apply rbind_Ok in H as (u2 & _ & H).
  apply rbind_Ok in H as ([[r arb] l'] & Hr & H). injection H as <-.
  apply exact_input_v2_Ok in Hr as (Hp & Ha & Hk); [|by constructor]. done.
Qed.

Lemma route_Ok first accounts s b input m amount slot ts s' b' out :
  route fuel ext_pda arb_pda program_ID first accounts s b input m amount slot ts = Some (Ok (s', b', out)) ->
  exists legs, parsed first accounts legs /\ (apart input legs -> route_effect input legs amount b b' out).
Proof.
  remember (length accounts) as n eqn:En. assert (length accounts <= n)%nat as Hn by lia. clear En.
  revert first accounts s b input m amount Hn. induction n as [|n IH]; intros first accounts s b input m amount Hn H.
  - destruct accounts; [|cbn in Hn; lia]. cbn in H. injection H as <- <- <-. exists []. split; [constructor|done].
  - destruct accounts as [|config rest]; [injection H as <- <- <-; exists []; split; [constructor|done]|]. cbn [route] in H. cbn in Hn.
    destruct (negb first && negb (is_config s config)) eqn:Hskip.
    { apply andb_true_iff in Hskip as [->%negb_true_iff _].
      destruct (IH false rest s b input m amount) as (legs & Hp & He); [lia|done|].
      exists legs. split; [by constructor|done]. }
    destruct rest as [|pool [|output [|iv [|ov [|om [|obs rest]]]]]]; try done. cbn in Hn.
    apply rbind_Ok in H as (h & Hh & H).
    destruct (IH false rest (hop_store h) (hop_balances h) (hop_output_account h) (hop_output_mint h) (hop_amount h))
      as (legs & Hp & He); [lia|done|].
    exists (mkLeg output iv ov :: legs). split; [by constructor|]. intros Ha.
    pose proof (apart_tail _ _ _ Ha) as Ht. destruct Ha as (Hnd & Hv & Hd). cbn in Hnd, Hv.
    apply Forall_cons in Hd as [Hd _]. cbn in Hd.
    apply NoDup_cons in Hnd as [Hin Hnd]. apply NoDup_cons in Hnd as [Hout _].
    assert (forall k, k ∈ input :: output :: (lg_out <$> legs) -> k <> iv /\ k <> ov) as Hvv.
    { intros k Hk. specialize (Hv k Hk). split; intros ->; apply Hv; exists (mkLeg output iv ov);
        (split; [by left|auto]). }
    destruct (Hvv input) as [I1 I2]; [by left|]. destruct (Hvv output) as [O1 O2]; [right; by left|].
    apply hop_Ok in Hh as (Eo & Hpaid & Hrec & Hk); [|set_solver|done..].
    rewrite Eo in He. specialize (He Ht). unfold route_effect in *. rewrite last_cons.
    destruct (last legs) as [g|] eqn:Hl.
    + destruct He as (E1 & E2 & E3). apply last_Some_elem_of in Hl.
      assert (lg_out g ∈ lg_out <$> legs) as Hg by (apply list_elem_of_fmap; by exists g).
      assert (is_vault legs input -> False) as Hvi.
      { intros (x & Hx & Ex). apply (Hv input); [by left|]. exists x. split; [by right|done]. }
      split; [rewrite E3; [lia|set_solver|set_solver|done]|].
      destruct (Hvv (lg_out g)) as [G1 G2]; [set_solver|].
      split; [rewrite <- (Hk (lg_out g)); [done|set_solver|set_solver|done|done]|].
      intros k K1 K2 K3. assert (~ is_vault legs k) as K4.
      { intros (x & Hx & Ex). apply K3. exists x. split; [by right|done]. }
      assert (k <> iv /\ k <> ov) as [K5 K6].
      { split; intros ->; apply K3; exists (mkLeg output iv ov); (split; [by left|auto]). }
      destruct (decide (k = output)) as [->|K7]; [lia|]. rewrite E3 by done. by apply Hk.
    + destruct He as [-> ->]. split; [done|]. split; [cbn; lia|].
      intros k K1 K2 K3. apply Hk; [done|done|..]; intros ->; apply K3; exists (mkLeg output iv ov);
        (split; [by left|auto]).
Qed.

(** The protection of the trader by the router: a route that succeeds is a
    chain of swaps; when the trader's accounts are different and none of them a
    vault, exactly [amount_in] leaves the first account, what the last account
    receives is the amount reported and at least the minimum, nothing stays
    in the accounts in between - whatever fees their mints withhold -, and no
    account besides these and the vaults of the route changes. *)
Theorem route_protects_trader accounts s b input input_mint amount_in minimum slot ts s' b' out :
  swap_router_base_in fuel ext_pda arb_pda program_ID accounts s b input input_mint amount_in minimum slot ts
    = Some (Ok (s', b', out)) ->
  minimum <= out /\
  exists legs, parsed true accounts legs /\ (apart input legs -> route_effect input legs amount_in b b' out).
Proof.
  intros H. unfold swap_router_base_in in H. apply rbind_Ok in H as (mt & _ & H).
  apply rbind_Ok in H as (m & _ & H). apply rbind_Ok in H as ([[s1 b1] x] & Hr & H).
  apply rbind_Ok in H as (u & Hm%lift_Ok%require_Ok%Z.leb_le & H). injection H as <- <- <-.
  split; [done|]. by eapply route_Ok.
Qed.
End Effect.

(** ** A route of two swaps *)
Section Examples.
#[local] Existing Instance uint_std.
#[local] Existing Instance demo_lib.
#[local] Existing Instance demo_tokens.

(** The pool of [SwapCorrect] with its position bounded above as well. *)
Definition there_and_back : PoolState := set_bitmap demo_pool (<[8%nat := 1]> (tick_array_bitmap demo_pool)).
Definition upper_array : TickArrayState :=
  mkTickArray 77 0
    (<[10%nat := set_tick_liquidity (set_tick default_tick_state 100) (-1000000000) 1000000000]>
       (replicate 60%nat default_tick_state)) 1.

(** The accounts of a route through the pool and back: the second swap finds
    the pool, the tick array and the observations as the first left them. *)
Definition demo_store : store :=
  list_to_map
    [(5, ConfigData sample_config); (77, PoolData there_and_back 0); (51, TokenData (token_mint_0 demo_pool));
     (52, TokenData (token_mint_1 demo_pool)); (53, TokenData (token_mint_0 demo_pool));
     (21, TokenData (token_mint_0 demo_pool)); (22, TokenData (token_mint_1 demo_pool));
     (11, MintData (fee_mint (token_mint_0 demo_pool))); (12, MintData (fee_mint (token_mint_1 demo_pool)));
     (30, ObservationData demo_observations); (41, TickArrayData demo_array); (42, TickArrayData upper_array)].

Definition demo_route : list Pubkey := [5; 77; 52; 21; 22; 12; 30; 42; 41; 5; 77; 53; 22; 21; 11; 30; 41; 42].

Lemma demo_route_runs :
  exists x, swap_router_base_in 8%nat (fun _ => 78) (fun _ => 79) 80 demo_route demo_store demo_balances 51 11
    10000 9500 3 5 = Some (Ok x) /\ (snd x =? 9555) = true.
Proof. apply (runs_ok _ (fun x => snd x =? 9555)). vm_compute. reflexivity. Qed.

Lemma route_protects_trader_witness :
  exists s b out,
    swap_router_base_in 8%nat (fun _ => 78) (fun _ => 79) 80 demo_route demo_store demo_balances 51 11
      10000 9500 3 5 = Some (Ok (s, b, out)) /\ out = 9555 /\ 9500 <= out /\ exists legs, parsed true demo_route legs.
Proof.
  destruct demo_route_runs as ([[s b] out] & H & E). exists s, b, out. split; [exact H|].
  split; [exact (proj1 (Z.eqb_eq _ _) E)|].
  destruct (route_protects_trader 8%nat (fun _ => 78) (fun _ => 79) 80 demo_tokens_laws _ _ _ _ _ _ _ _ _ _ _ _ H)
    as (Hm & legs & Hp & _).
  split; [exact Hm|]. by exists legs.
Defined.
End Examples.
