(* ===== verification/PoolCreation.v ===== *)
(** The creation of pools: [instructions/create_pool.rs] and
    [create_customizable_pool.rs], the checks of mints and the vault accounts of
    [util/token.rs], the registry of supported mints
    ([admin/create_support_mint_associated.rs]) and
    [admin/transfer_reward_owner.rs].

    The derived addresses and the keys of the token programs are parameters; an
    instruction returns the accounts it initializes and the vaults it asks the
    token programs to create. *)
From S2P Require Import Prelude.
From stdpp Require Import gmap.
From S2P Require Import AmmError.
From S2P Require Import BigNum.
From S2P Require Import FullMath.
From S2P Require Import Config.
From S2P Require Import Token.
From S2P Require Import TickMath.
From S2P Require Import TickOfPrice.
From S2P Require Import TickIndex.
From S2P Require Import BitmapExtension.
From S2P Require Import DynamicFee.
From S2P Require Import Rewards.
From S2P Require Import Oracle.
From S2P Require Import Operation.
From S2P Require Import Pool.
From S2P Require Import PoolAccounts.
#[local] Open Scope Z_scope.

(** ** Mints *)

(** The extensions of a Token-2022 mint; the kinds the program tells apart. *)
Inductive ExtensionType : Set :=
| TransferFeeExtension | MetadataPointer | TokenMetadata | InterestBearingConfig | ScaledUiAmount
| OtherExtension.

(** A mint account: its key and the program that owns it, its decimals, its
    freeze authority, and what its extensions hold. *)
Record MintAccount := mkMintAccount {
  ma_key : Pubkey;
  ma_owner : Pubkey;
  ma_decimals : Z;
  freeze_authority : option Pubkey;
  extension_types : list ExtensionType;
  default_account_frozen : option bool;
  permanent_delegate : option Pubkey;
}.

(** [SupportMintAssociated] *)
Record SupportMintAssociated := mkSupportMintAssociated { sm_bump : Z; sm_mint : Pubkey }.

(** A remaining account: its key, the program that owns it, and what
    its data deserialize to. *)
Record RemainingAccount := mkRemainingAccount {
  ra_key : Pubkey;
  ra_owner : Pubkey;
  ra_support : option SupportMintAssociated;
  ra_dynamic_fee : option DynamicFeeConfig;
}.

(** The keys of [MINT_WHITELIST] and of [superstate_allowlist], as the numbers
    their base-58 strings denote. *)
Definition MINT_WHITELIST : list Pubkey :=
  [110842478193909664720434420133918537430197765938808367401866277007643742762982;
   79693591751111759625750358307840071066761027937148678859304808898387199649551;
   99786458968252845795468590271952097523643721845940285320224363909310727210515;
   10661653716677159077918369665675841228777536474774053264960496851603866416286;
   81744394145630264638348987453640856076470012151469240270383767625353792125263;
   63663680025582297724314934980173329148745867551198561296431137772430040763592].
Definition SUPERSTATE_ID : Pubkey :=
  10408554400763789546036452897191288729413961754709450681863846352670913304843.
Definition CREATE_SUPPORT_MINT_OWNER_ID : Pubkey :=
  2848783092591104475232606260435687023280704313884506683022880069452710076459.

(** The extensions a mint may have without being listed. *)
Definition extension_supported (e : ExtensionType) : bool :=
  match e with OtherExtension => false | _ => true end.

(** The derived addresses with their bumps. *)
Class Addresses := {
  pool_address : Pubkey -> Pubkey -> Pubkey -> Pubkey * Z;
  vault_address : Pubkey -> Pubkey -> Pubkey;
  observation_address : Pubkey -> Pubkey;
  support_mint_address : Pubkey -> Pubkey * Z;
}.

(** A vault the token program is asked to create, with the pool as authority. *)
Record VaultRequest := mkVaultRequest {
  vr_vault : Pubkey;
  vr_mint : Pubkey;
  vr_authority : Pubkey;
  vr_immutable_owner : bool;
}.

(** What a creation writes. *)
Record CreatedPool := mkCreatedPool {
  cp_key : Pubkey;
  cp_pool : PoolState;
  cp_observation : ObservationState;
  cp_extension : TickArrayBitmapExtension;
  cp_vaults : list VaultRequest;
}.

Section Creation.
Context {A : Addresses}.
Context (program_ID admin_ID token_ID token_2022_ID : Pubkey).

Fixpoint find_support (expect mint : Pubkey) (l : list RemainingAccount) : Result bool :=
  match l with
  | [] => Ok false
  | a :: l =>
      if negb (ra_owner a =? program_ID) || negb (ra_key a =? expect) then find_support expect mint l
      else
        let! s := ok_or (ra_support a) ConstraintViolated in
        if sm_mint s =? mint then Ok true else find_support expect mint l
  end.

Definition support_mint_associated_is_initialized (l : list RemainingAccount) (m : MintAccount) : Result bool :=
  match l with
  | [] => Ok false
  | _ => find_support (fst (support_mint_address (ma_key m))) (ma_key m) l
  end.

Definition is_superstate_token (m : MintAccount) : bool :=
  match freeze_authority m with
  | None => false
  | Some f =>
      (SUPERSTATE_ID =? f) && (ma_owner m =? token_2022_ID)
      && default false (default_account_frozen m)
      && match permanent_delegate m with Some d => d =? SUPERSTATE_ID | None => false end
  end.

Definition is_supported_mint (m : MintAccount) (associated : bool) : bool :=
  (ma_owner m =? token_ID) || contains MINT_WHITELIST (ma_key m) || associated || is_superstate_token m
  || forallb extension_supported (extension_types m).

Definition create_token_vault_account (pool vault : Pubkey) (m : MintAccount) : VaultRequest :=
  mkVaultRequest vault (ma_key m) pool (is_superstate_token m).

(** The checks both instructions begin with: the order of the mints and the
    vacancy of the pool's address, then the support of both mints. *)
Definition require_mints (exists_already : Pubkey -> bool) (config_key : Pubkey) (m0 m1 : MintAccount)
    (l : list RemainingAccount) : Result Pubkey :=
  let key := fst (pool_address config_key (ma_key m0) (ma_key m1)) in
  do! require (negb (exists_already key)) ConstraintViolated in
  do! require (ma_key m0 <? ma_key m1) ConstraintViolated in
  let! s0 := support_mint_associated_is_initialized l m0 in
  let! s1 := support_mint_associated_is_initialized l m1 in
  do! require (is_supported_mint m0 s0 && is_supported_mint m1 s1) NotSupportMint in
  Ok key.

(** The pool both instructions initialize, before a dynamic fee is added. *)
Definition initial_pool {U : UintLib} (creator config_key : Pubkey) (c : AmmConfig) (m0 m1 : MintAccount)
    (key : Pubkey) (sqrt_price_x64 : Z) (collect_fee_on : CollectFeeOn) : Result (Z * PoolState) :=
  let! tick := get_tick_at_sqrt_price sqrt_price_x64 in
  Ok (tick,
      pool_initialize (snd (pool_address config_key (ma_key m0) (ma_key m1))) sqrt_price_x64 0 tick creator
        (vault_address key (ma_key m0)) (vault_address key (ma_key m1)) config_key c (ma_key m0) (ma_key m1)
        (ma_decimals m0) (ma_decimals m1) (observation_address key) collect_fee_on).

Definition created (key : Pubkey) (m0 m1 : MintAccount) (p : PoolState) (epoch : Z) : CreatedPool :=
  mkCreatedPool key p (observation_initialize epoch key) (ext_initialize key)
    [create_token_vault_account key (vault_address key (ma_key m0)) m0;
     create_token_vault_account key (vault_address key (ma_key m1)) m1].

Definition create_pool {U : UintLib} (exists_already : Pubkey -> bool) (creator config_key : Pubkey)
    (c : AmmConfig) (m0 m1 : MintAccount) (l : list RemainingAccount) (sqrt_price_x64 open_time : Z)
    (unix_timestamp epoch : Z) : Result CreatedPool :=
  let! key := require_mints exists_already config_key m0 m1 l in
  do! require_gt (uwrap 64 unix_timestamp) open_time in
  let! '(_, p) := initial_pool creator config_key c m0 m1 key sqrt_price_x64 FromInput in
  Ok (created key m0 m1 p epoch).

Definition create_customizable_pool {U : UintLib} (exists_already : Pubkey -> bool) (creator config_key : Pubkey)
    (c : AmmConfig) (m0 m1 : MintAccount) (l : list RemainingAccount) (sqrt_price_x64 : Z)
    (collect_fee_on : CollectFeeOn) (enable_dynamic_fee : bool) (epoch : Z) : Result CreatedPool :=
  let! key := require_mints exists_already config_key m0 m1 l in
  let! '(tick, p) := initial_pool creator config_key c m0 m1 key sqrt_price_x64 collect_fee_on in
  let! p :=
    if enable_dynamic_fee then
      let! a := ok_or (last l) AccountLack in
      let! d := ok_or (ra_dynamic_fee a) ConstraintViolated in
      initialize_dynamic_fee_info p tick (dfc_filter_period d) (dfc_decay_period d) (dfc_reduction_factor d)
        (dfc_dynamic_fee_control d) (dfc_max_volatility_accumulator d)
    else Ok p in
  Ok (created key m0 m1 p epoch).

(** [create_support_mint_associated] *)
Definition create_support_mint_associated (owner : Pubkey) (m : MintAccount) (vacant : bool) :
    Result SupportMintAssociated :=
  do! require ((owner =? admin_ID) || (owner =? CREATE_SUPPORT_MINT_OWNER_ID)) NotApproved in
  do! require (ma_owner m =? token_2022_ID) NotApproved in
  do! require vacant ConstraintViolated in
  Ok (mkSupportMintAssociated (snd (support_mint_address (ma_key m))) (ma_key m)).

(** [transfer_reward_owner] *)
Definition set_pool_owner (p : PoolState) (k : Pubkey) : PoolState :=
  mkPoolState (pool_bump p) (amm_config_key p) k (token_mint_0 p) (token_mint_1 p) (token_vault_0 p)
    (token_vault_1 p) (observation_key p) (mint_decimals_0 p) (mint_decimals_1 p) (pool_tick_spacing p)
    (liquidity p) (sqrt_price_x64 p) (tick_current p) (fee_growth_global_0_x64 p) (fee_growth_global_1_x64 p)
    (protocol_fees_token_0 p) (protocol_fees_token_1 p) (pool_status p) (fee_on p) (reward_infos p)
    (tick_array_bitmap p) (fund_fees_token_0 p) (fund_fees_token_1 p) (pool_open_time p) (dynamic_fee_info p).
Definition set_reward_authority (r : RewardInfo) (k : Pubkey) : RewardInfo :=
  mkRewardInfo (reward_state r) (ri_open_time r) (ri_end_time r) (last_update_time r) (emissions_per_second_x64 r)
    (reward_total_emitted r) (reward_claimed r) (token_mint r) (token_vault r) k (reward_growth_global_x64 r).

Definition transfer_reward_owner (signer : Pubkey) (p : PoolState) (new_owner : Pubkey) : Result PoolState :=
  do! require (signer =? admin_ID) NotApproved in
  Ok (set_pool_owner
        (set_reward_infos p ((fun r => set_reward_authority r new_owner) <$> reward_infos p)) new_owner).
End Creation.

(** * What a creation establishes *)

Section Established.
Context {A : Addresses} {U : UintLib} {L : TokenLib}.
Context (program_ID token_ID token_2022_ID : Pubkey).

(** A pool made by one of the two instructions for the configuration [c]. *)
Definition created_by (exists_already : Pubkey -> bool) (config_key : Pubkey) (c : AmmConfig) (m0 m1 : MintAccount)
    (r : CreatedPool) : Prop :=
  (exists creator l price open ts epoch,
     create_pool program_ID token_ID token_2022_ID exists_already creator config_key c m0 m1 l price open ts epoch
       = Ok r) \/
  (exists creator l price fee_on dynamic epoch,
     create_customizable_pool program_ID token_ID token_2022_ID exists_already creator config_key c m0 m1 l price
       fee_on dynamic epoch = Ok r).

Lemma require_mints_Ok ex ck m0 m1 l key :
  require_mints program_ID token_ID token_2022_ID ex ck m0 m1 l = Ok key ->
  key = fst (pool_address ck (ma_key m0) (ma_key m1)) /\ ex key = false /\ ma_key m0 < ma_key m1.
Proof.
  intros H. unfold require_mints in H. apply obind_Ok in H as (u & Hv%require_Ok%negb_true_iff & H).
  apply obind_Ok in H as (u' & Ho%require_Ok%Z.ltb_lt & H). apply obind_Ok in H as (s0 & _ & H).
  apply obind_Ok in H as (s1 & _ & H). apply obind_Ok in H as (u'' & _ & H). by injection H as <-.
Qed.

(** The dynamic fee does not touch the rest of the pool. *)
Lemma initialize_dynamic_fee_info_frame p t fp dp rf cf ma p' :
  initialize_dynamic_fee_info p t fp dp rf cf ma = Ok p' ->
  p' = set_pool_dynamic_fee_info p (dynamic_fee_info p').
Proof.
  unfold initialize_dynamic_fee_info. intros H. apply obind_Ok in H as ([] & _ & H); [|done]. cbn in H.
  apply obind_Ok in H as (i & _ & H). injection H as <-. reflexivity.
Qed.

Lemma initial_pool_Ok creator ck c m0 m1 key price fo t p :
  initial_pool creator ck c m0 m1 key price fo = Ok (t, p) ->
  get_tick_at_sqrt_price (sqrt_price_x64 p) = Ok (tick_current p) /\ t = tick_current p /\
  pool_tick_spacing p = tick_spacing c /\ liquidity p = 0 /\ tick_array_bitmap p = U1024.zero /\
  token_mint_0 p = ma_key m0 /\ token_mint_1 p = ma_key m1 /\ amm_config_key p = ck.
Proof.
  unfold initial_pool. intros H. apply obind_Ok in H as (x & Ht & H). injection H as <- <-. by cbn.
Qed.

Lemma created_by_Ok ex ck c m0 m1 r :
  created_by ex ck c m0 m1 r ->
  cp_key r = fst (pool_address ck (ma_key m0) (ma_key m1)) /\ ex (cp_key r) = false /\ ma_key m0 < ma_key m1 /\
  cp_extension r = ext_initialize (cp_key r) /\ cp_observation r = observation_initialize
    (obs_recent_epoch (cp_observation r)) (cp_key r) /\
  get_tick_at_sqrt_price (sqrt_price_x64 (cp_pool r)) = Ok (tick_current (cp_pool r)) /\
  pool_tick_spacing (cp_pool r) = tick_spacing c /\ liquidity (cp_pool r) = 0 /\
  tick_array_bitmap (cp_pool r) = U1024.zero /\ token_mint_0 (cp_pool r) = ma_key m0 /\
  token_mint_1 (cp_pool r) = ma_key m1 /\ amm_config_key (cp_pool r) = ck.
Proof.
  intros [(creator & l & price & o & ts & ep & H)|(creator & l & price & fo & dyn & ep & H)].
  - unfold create_pool in H. apply obind_Ok in H as (key & (-> & Hv & Ho)%require_mints_Ok & H).
    apply obind_Ok in H as (u & _ & H). apply obind_Ok in H as ([t p] & Hp%initial_pool_Ok & H).
    injection H as <-. destruct Hp as (H1 & _ & H2). by cbn.
  - unfold create_customizable_pool in H. apply obind_Ok in H as (key & (-> & Hv & Ho)%require_mints_Ok & H).
    apply obind_Ok in H as ([t p] & Hp%initial_pool_Ok & H). destruct Hp as (H1 & _ & H2).
    apply obind_Ok in H as (p' & Hp' & H). injection H as <-. destruct dyn.
    + apply obind_Ok in Hp' as (a & _ & Hp'). apply obind_Ok in Hp' as (d & _ & Hp').
      apply initialize_dynamic_fee_info_frame in Hp' as ->. by cbn.
    + injection Hp' as <-. by cbn.
Qed.

(** A pool is sound from its creation on: both instructions refuse a second
    pool for the same configuration and mints and a pair of mints in the wrong
    order; the pool they make has the price asked for, its tick, the spacing of
    the configuration and nothing else, and from it - whatever positions are
    opened, changed and closed and whatever orders are placed, moved and
    settled - the liquidity in force is what the positions in range add up to,
    and the arrays marked are those with an initialized tick. *)
Theorem created_pool_sound ex ck c m0 m1 r addr ext_key lo_admin B :
  created_by ex ck c m0 m1 r -> 0 < tick_spacing c < 2 ^ 16 ->
  rtc (instruction addr (cp_key r) ext_key lo_admin) (mkAccounts [] [] ∅ (cp_pool r) (cp_extension r)) B ->
  ma_key m0 < ma_key m1 /\ ex (cp_key r) = false /\
  get_tick_at_sqrt_price (sqrt_price_x64 (cp_pool r)) = Ok (tick_current (cp_pool r)) /\
  accounts_ok addr (tick_spacing c) B.
Proof.
  intros (_ & Hv & Ho & Ee & _ & Ht & Es & El & Eb & _)%created_by_Ok Hs Hrun.
  split; [done|]. split; [done|]. split; [done|]. rewrite <- Es.
  apply (reachable_ok addr (cp_key r) ext_key lo_admin). eexists. split; [|exact Hrun].
  split; [by rewrite Es|]. split; [done|]. split; [done|]. exists (cp_key r). by rewrite Ee.
Qed.
End Established.

(** ** A creation *)
Section Examples.
#[local] Existing Instance uint_std.
#[local] Instance demo_lib : TokenLib := {| MAX_FEE_BASIS_POINTS := 10000 |}.
#[local] Instance demo_addresses : Addresses := {|
  pool_address c a b := (1000000 + 10000 * c + 100 * a + b, 255);
  vault_address p m := 10 * p + m;
  observation_address p := p + 7;
  support_mint_address m := (900 + m, 254)
|}.

Definition demo_mint (k : Pubkey) : MintAccount := mkMintAccount k 1 6 None [] None None.
Definition demo_config : AmmConfig := mkAmmConfig 255 0 9 120000 2500 10 40000 9.

(** A mint with an extension that is not supported is refused, unless it is
    registered. *)
Definition odd_mint (k : Pubkey) : MintAccount := mkMintAccount k 2 6 None [MetadataPointer; OtherExtension] None None.

Example odd_mint_refused :
  create_pool 99 1 2 (fun _ => false) 5 3 demo_config (demo_mint 11) (odd_mint 12) [] (2 ^ 64) 0 10 0 =
    Err (Program NotSupportMint) /\
  exists r, create_pool 99 1 2 (fun _ => false) 5 3 demo_config (demo_mint 11) (odd_mint 12)
    [mkRemainingAccount 912 99 (Some (mkSupportMintAssociated 254 12)) None] (2 ^ 64) 0 10 0 = Ok r.
Proof. split; [vm_compute; reflexivity|]. eexists. vm_compute. reflexivity. Qed.

Lemma created_pool_sound_witness :
  exists r, create_pool 99 1 2 (fun _ => false) 5 3 demo_config (demo_mint 11) (demo_mint 12) [] (2 ^ 64) 0 10 0 = Ok r /\
    get_tick_at_sqrt_price (sqrt_price_x64 (cp_pool r)) = Ok 0 /\ tick_current (cp_pool r) = 0.
Proof.
  eexists. split; [vm_compute; reflexivity|].
  match goal with |- context [cp_pool ?r] => set (x := r) end.
  destruct (created_pool_sound (A := demo_addresses) 99 1 2 (fun _ => false) 3 demo_config (demo_mint 11)
              (demo_mint 12) x (fun i => 500 + i) 78 99 (mkAccounts [] [] ∅ (cp_pool x) (cp_extension x)))
    as (_ & _ & Ht & _); [left|split; reflexivity|apply rtc_refl|].
  { exists 5, [], (2 ^ 64), 0, 10, 0. vm_compute. reflexivity. }
  split; [exact Ht|reflexivity].
Defined.
End Examples.
