(* ===== verification/PositionV2.v ===== *)
(** The second versions of the position instructions -
    [instructions/open_position_v2.rs], [open_position_with_token22_nft.rs],
    [increase_liquidity_v2.rs], [decrease_liquidity_v2.rs] -, the first versions
    as [lib.rs] calls them, and the deprecated [states/protocol_position.rs].

    Each is the handler of [Position] with the mints of both vaults, which must
    be the mints of the vault accounts, or without mints.  Minting the NFT, its
    metadata and the log of a suspected back-run are not modelled. *)
From S2P Require Import Prelude.
From stdpp Require Import gmap.
From S2P Require Import AmmError.
From S2P Require Import BigNum.
From S2P Require Import FullMath.
From S2P Require Import Config.
From S2P Require Import Token.
From S2P Require Import TickMath.
From S2P Require Import LiquidityMath.
From S2P Require Import BitmapExtension.
From S2P Require Import Rewards.
From S2P Require Import TickArray.
From S2P Require Import Pool.
From S2P Require Import Position.
From S2P Require Import PoolAccounts.
#[local] Open Scope Z_scope.

(** The accounts of both versions: the user's, the vaults, and the mints the
    vault accounts are of; the second also passes the mint accounts. *)
Record PositionAccounts := mkPositionAccounts {
  pa_account_0 : Pubkey;
  pa_account_1 : Pubkey;
  pa_vault_0 : Pubkey;
  pa_vault_1 : Pubkey;
  pa_vault_0_mint : Pubkey;
  pa_vault_1_mint : Pubkey;
}.

Definition without_mints (a : PositionAccounts) : TokenAccounts :=
  mkTokenAccounts (pa_account_0 a) (pa_account_1 a) (pa_vault_0 a) (pa_vault_1 a) None None.
Definition with_mints (a : PositionAccounts) (m0 m1 : Mint) : TokenAccounts :=
  mkTokenAccounts (pa_account_0 a) (pa_account_1 a) (pa_vault_0 a) (pa_vault_1 a) (Some m0) (Some m1).

(** [address = token_vault_0.mint], [address = token_vault_1.mint] *)
Definition require_vault_mints (a : PositionAccounts) (m0 m1 : Mint) : Result unit :=
  require ((mint_key m0 =? pa_vault_0_mint a) && (mint_key m1 =? pa_vault_1_mint a)) ConstraintViolated.

Section Versions.
Context {U : UintLib} {L : TokenLib}.
Context (pool_key ext_key : Pubkey) (addr : Z -> Pubkey).

Definition open_position_v1 (mint : Pubkey) (a : PositionAccounts) (p : PoolState) (m : arrays) (ext : option (Pubkey * TickArrayBitmapExtension))
    (l amount_0_max amount_1_max tl tu sl su ts : Z) :=
  open_position pool_key ext_key addr mint (without_mints a) p m ext l amount_0_max amount_1_max tl tu sl su None ts.

Definition open_position_v2 (mint : Pubkey) (a : PositionAccounts) (m0 m1 : Mint) (p : PoolState) (m : arrays)
    (ext : option (Pubkey * TickArrayBitmapExtension)) (l amount_0_max amount_1_max tl tu sl su : Z) (base_flag : option bool) (ts : Z) :=
  do! require_vault_mints a m0 m1 in
  open_position pool_key ext_key addr mint (with_mints a m0 m1) p m ext l amount_0_max amount_1_max tl tu sl su
    base_flag ts.

(** The NFT is minted with Token-2022 before the position is opened. *)
Definition open_position_with_token22_nft := open_position_v2.

Definition increase_liquidity_v1 (signer : Pubkey) (n : NftAccount) (position : PersonalPositionState)
    (a : PositionAccounts) (p : PoolState) (m : arrays) (kl ku : Pubkey) (ext : option (Pubkey * TickArrayBitmapExtension))
    (l amount_0_max amount_1_max ts : Z) :=
  do! require_gt l 0 in
  increase_liquidity pool_key ext_key signer n position (without_mints a) p m kl ku ext l amount_0_max amount_1_max
    None ts.

Definition increase_liquidity_v2 (signer : Pubkey) (n : NftAccount) (position : PersonalPositionState)
    (a : PositionAccounts) (m0 m1 : Mint) (p : PoolState) (m : arrays) (kl ku : Pubkey) (ext : option (Pubkey * TickArrayBitmapExtension))
    (l amount_0_max amount_1_max : Z) (base_flag : option bool) (ts : Z) :=
  do! require_vault_mints a m0 m1 in
  increase_liquidity pool_key ext_key signer n position (with_mints a m0 m1) p m kl ku ext l amount_0_max
    amount_1_max base_flag ts.

Definition decrease_liquidity_v1 (signer : Pubkey) (n : NftAccount) (position : PersonalPositionState)
    (a : PositionAccounts) (p : PoolState) (m : arrays) (kl ku : Pubkey) (ext : option TickArrayBitmapExtension)
    (groups : list RewardAccounts) (l amount_0_min amount_1_min ts : Z) :=
  decrease_liquidity pool_key ext_key signer n position (without_mints a) p m kl ku ext groups l amount_0_min
    amount_1_min ts.

Definition decrease_liquidity_v2 (signer : Pubkey) (n : NftAccount) (position : PersonalPositionState)
    (a : PositionAccounts) (m0 m1 : Mint) (p : PoolState) (m : arrays) (kl ku : Pubkey)
    (ext : option TickArrayBitmapExtension) (groups : list RewardAccounts) (l amount_0_min amount_1_min ts : Z) :=
  do! require_vault_mints a m0 m1 in
  decrease_liquidity pool_key ext_key signer n position (with_mints a m0 m1) p m kl ku ext groups l amount_0_min
    amount_1_min ts.

(** ** The deprecated [ProtocolPositionState] *)

Record ProtocolPositionState := mkProtocolPosition {
  pr_bump : Z;
  pr_pool_id : Pubkey;
  pr_tick_lower_index : Z;
  pr_tick_upper_index : Z;
  pr_liquidity : Z;
  pr_fee_growth_inside_0_last_x64 : Z;
  pr_fee_growth_inside_1_last_x64 : Z;
  pr_token_fees_owed_0 : Z;
  pr_token_fees_owed_1 : Z;
  pr_reward_growth_inside : list Z;
}.

(** [ProtocolPositionState::update], called by no instruction any more. *)
Definition protocol_position_update (q : ProtocolPositionState) (tl tu liquidity_delta growth_0 growth_1 : Z)
    (reward_growths : list Z) : Result ProtocolPositionState :=
  if (pr_liquidity q =? 0) && (liquidity_delta =? 0) then Ok q
  else
    do! require ((MIN_TICK <=? tl) && (tl <=? MAX_TICK)) TickLowerOverflow in
    do! require ((MIN_TICK <=? tu) && (tu <=? MAX_TICK)) TickUpperOverflow in
    let! d0 := or_overflow (mul_div_floor_u128 (uwrap 128 (growth_0 - pr_fee_growth_inside_0_last_x64 q))
                              (pr_liquidity q) Q64) in
    let! owed_0 := to_underflow_u64 d0 in
    let! d1 := or_overflow (mul_div_floor_u128 (uwrap 128 (growth_1 - pr_fee_growth_inside_1_last_x64 q))
                              (pr_liquidity q) Q64) in
    let! owed_1 := to_underflow_u64 d1 in
    let! l := add_delta (pr_liquidity q) liquidity_delta in
    let! '(o0, o1) :=
      if (0 <? owed_0) || (0 <? owed_1) then
        let! o0 := ok_or (ucheck 64 (pr_token_fees_owed_0 q + owed_0)) CalculateOverflow in
        let! o1 := ok_or (ucheck 64 (pr_token_fees_owed_1 q + owed_1)) CalculateOverflow in
        Ok (o0, o1)
      else Ok (pr_token_fees_owed_0 q, pr_token_fees_owed_1 q) in
    Ok (mkProtocolPosition (pr_bump q) (pr_pool_id q) tl tu l growth_0 growth_1 o0 o1 reward_growths).

(** [close_protocol_position] *)
Definition close_protocol_position (admin_ID signer : Pubkey) : Result unit :=
  do! require (signer =? admin_ID) NotApproved in Ok tt.

(** The two versions of the position instructions agree: on vaults of the
    classic token program, passed with the mints they are of, opening a
    position, increasing one by a given liquidity and decreasing one have the
    same outcome in both versions - the same errors, positions, pools, ticks
    and transfers. *)
Theorem version_2_agrees a m0 m1 :
  pa_vault_0_mint a = mint_key m0 -> pa_vault_1_mint a = mint_key m1 ->
  mint_is_classic m0 = true -> mint_is_classic m1 = true ->
  (forall mint p m ext l a0 a1 tl tu sl su ts,
     open_position_v2 mint a m0 m1 p m ext l a0 a1 tl tu sl su None ts =
     open_position_v1 mint a p m ext l a0 a1 tl tu sl su ts) /\
  (forall signer n q p m kl ku ext l a0 a1 ts, 0 < l ->
     increase_liquidity_v2 signer n q a m0 m1 p m kl ku ext l a0 a1 None ts =
     increase_liquidity_v1 signer n q a p m kl ku ext l a0 a1 ts) /\
  (forall signer n q p m kl ku ext groups l a0 a1 ts,
     decrease_liquidity_v2 signer n q a m0 m1 p m kl ku ext groups l a0 a1 ts =
     decrease_liquidity_v1 signer n q a p m kl ku ext groups l a0 a1 ts).
Proof.
  intros K0 K1 E0 E1. assert (require_vault_mints a m0 m1 = Ok tt) as Hm.
  { unfold require_vault_mints. by rewrite K0, K1, !Z.eqb_refl. }
  split; [|split].
  - intros. unfold open_position_v2, open_position_v1. rewrite Hm. cbn [obind]. unfold open_position, require_vaults.
    unfold add_liquidity, inverse_fee, get_transfer_inverse_fee.
    cbn [with_mints without_mints vault_0 vault_1 vault_0_mint vault_1_mint token_account_0 token_account_1].
    by rewrite E0, E1.
  - intros. unfold increase_liquidity_v2, increase_liquidity_v1, require_gt. rewrite Hm.
    destruct (Z.ltb_spec 0 l); [|lia]. cbn [obind require]. unfold increase_liquidity, require_vaults.
    unfold add_liquidity, inverse_fee, get_transfer_inverse_fee.
    cbn [with_mints without_mints vault_0 vault_1 vault_0_mint vault_1_mint token_account_0 token_account_1].
    by rewrite E0, E1.
  - intros. unfold decrease_liquidity_v2, decrease_liquidity_v1. rewrite Hm. cbn [obind].
    unfold decrease_liquidity, outgoing_fee, get_transfer_fee, require_vaults.
    cbn [with_mints without_mints vault_0 vault_1 vault_0_mint vault_1_mint token_account_0 token_account_1].
    by rewrite E0, E1.
Qed.
End Versions.

(** ** A position opened with mints *)
Section Examples.
#[local] Existing Instance uint_std.
#[local] Existing Instance fee_lib.

Definition v2_accounts : PositionAccounts := mkPositionAccounts 51 52 21 22 11 12.

Lemma version_2_agrees_witness :
  exists r, open_position_v2 77 78 demo_address 500 v2_accounts (mkMint 11 true None) (mkMint 12 true None)
    sample_pool ∅ None 1000000 (10 ^ 6) (10 ^ 6) (-60) 60 (-600) 0 None 100 = Ok r.
Proof.
  destruct (version_2_agrees 77 78 demo_address v2_accounts (mkMint 11 true None) (mkMint 12 true None))
    as (H & _); [reflexivity..|].
  eexists. rewrite H. vm_compute. reflexivity.
Defined.
End Examples.
