(* ===== verification/DriftOracle.v ===== *)
(** Oracles of [programs/drift]: reading a price out of the message of an
    oracle program and the prelaunch oracle ([state/oracle.rs]), the verdict on
    a price and what a price of each verdict may be used for
    ([math/oracle.rs]), and the choice between the market maker's oracle and
    the exchange's ([MMOraclePriceData]).

    The accounts of Pyth and Switchboard are parsed by those programs' crates:
    the model starts from the parsed message.  Logging is left out. *)
From S2P Require Import Prelude.
From S2P Require Import RecordUpdate.
From S2P Require Import DriftError.
From S2P Require Import DriftMath.
From S2P Require Import DriftSpotMarket.
From S2P Require Import DriftTypes.

(** ** Reading a price *)

(** [get_pyth_multiple]; it panics for an oracle of another program. *)
Definition get_pyth_multiple (s : OracleSource) : DriftResult Z :=
  match s with
  | Pyth | PythPull | PythLazer | PythStableCoin | PythStableCoinPull | PythLazerStableCoin => Ok 1
  | Pyth1K | Pyth1KPull | PythLazer1K => Ok 1000
  | Pyth1M | Pyth1MPull | PythLazer1M => Ok 1000000
  | Switchboard | QuoteAsset | Prelaunch | SwitchboardOnDemand => Panic
  end.

Definition is_pyth_pull_oracle (s : OracleSource) : bool :=
  match s with PythPull | Pyth1KPull | Pyth1MPull | PythStableCoinPull => true | _ => false end.
Definition is_pyth_push_oracle (s : OracleSource) : bool :=
  match s with Pyth | Pyth1K | Pyth1M | PythStableCoin => true | _ => false end.

(** What the message of a Pyth price holds; [ps_data_points] is the count of
    publishers with the least count, for a push oracle. *)
Record PythMessage := mkPythMessage {
  ps_price : Z;
  ps_conf : Z;
  ps_exponent : Z;
  ps_published_slot : Z;
  ps_publish_time : Z;
  ps_data_points : bool;
}.

(** The scale of a price of [10 ^ |exponent|] parts: a multiplier and a divisor. *)
Definition oracle_scale (oracle_precision : Z) : DriftResult (Z * Z) :=
  if PRICE_PRECISION <? oracle_precision then
    let! d := safe_udiv oracle_precision PRICE_PRECISION in Ok (1, d)
  else
    let! m := safe_udiv PRICE_PRECISION oracle_precision in Ok (m, 1).

Definition get_pyth_price (m : PythMessage) (clock_slot : Z) (s : OracleSource) : DriftResult OraclePriceData :=
  let! multiple := get_pyth_multiple s in
  let! oracle_precision := uchk 128 (10 ^ Z.abs (ps_exponent m)) in
  let sequence_id := if is_pyth_push_oracle s then None else Some (Z.max (ps_publish_time m) 0) in
  if oracle_precision <=? multiple then Err InvalidOracle
  else
    let! oracle_precision := safe_udiv oracle_precision multiple in
    let! '(oracle_scale_mult, oracle_scale_div) := oracle_scale oracle_precision in
    let! mi := cast_i 128 oracle_scale_mult in
    let! p := safe_i 128 (ps_price m * mi) in
    let! di := cast_i 128 oracle_scale_div in
    let! p := safe_idiv 128 p di in
    let! oracle_price_scaled := cast_i 64 p in
    let! c := safe_u 128 (ps_conf m * oracle_scale_mult) in
    let! c := safe_udiv c oracle_scale_div in
    let! oracle_conf_scaled := cast_u 64 c in
    let! slot := cast_i 64 clock_slot in
    let! published := cast_i 64 (ps_published_slot m) in
    let! oracle_delay := safe_i 64 (slot - published) in
    Ok (mkOraclePriceData oracle_price_scaled oracle_conf_scaled oracle_delay
          (if is_pyth_push_oracle s then ps_data_points m else true) sequence_id).

Definition get_pyth_stable_coin_price (m : PythMessage) (clock_slot : Z) (s : OracleSource) :
    DriftResult OraclePriceData :=
  let! d := get_pyth_price m clock_slot s in
  let five_bps := 500 in
  let! x := safe_i 64 (price d - PRICE_PRECISION) in
  let! a := ichk 64 (Z.abs x) in
  let! c := cast_i 64 (confidence d) in
  if a <=? Z.min five_bps c then
    Ok (mkOraclePriceData PRICE_PRECISION (confidence d) (delay d) (has_sufficient_number_of_data_points d)
          (sequence_id d))
  else Ok d.

(** A Switchboard decimal: mantissa and scale; [as i128] wraps. *)
Definition convert_switchboard_decimal (mantissa scale : Z) : DriftResult Z :=
  let! switchboard_precision := uchk 128 (10 ^ scale) in
  if PRICE_PRECISION <? switchboard_precision then
    safe_idiv 128 mantissa (iwrap 128 (switchboard_precision / PRICE_PRECISION))
  else safe_i 128 (mantissa * iwrap 128 (PRICE_PRECISION / switchboard_precision)).

(** The last round of a Switchboard aggregator. *)
Record SwitchboardRound := mkSwitchboardRound {
  sb_result : Z * Z;
  sb_std_deviation : Z * Z;
  sb_round_open_slot : Z;
  sb_num_success : Z;
  sb_min_oracle_results : Z;
}.

Definition get_switchboard_price (r : SwitchboardRound) (clock_slot : Z) : DriftResult OraclePriceData :=
  let! p := convert_switchboard_decimal (fst (sb_result r)) (snd (sb_result r)) in
  let! price := cast_i 64 p in
  let! c := convert_switchboard_decimal (fst (sb_std_deviation r)) (snd (sb_std_deviation r)) in
  let! c := cast_i 64 c in
  let! confidence :=
    if c <? 0 then Ok (umax 64)
    else let! price_10bps := safe_udiv (Z.abs price) 1000 in Ok (Z.max c price_10bps) in
  let! slot := cast_i 64 clock_slot in
  let! opened := cast_i 64 (sb_round_open_slot r) in
  let! delay := safe_i 64 (slot - opened) in
  Ok (mkOraclePriceData price confidence delay (sb_min_oracle_results r <=? sb_num_success r) None).

(** The prelaunch oracle, whose price is the market's own average. *)
Record PrelaunchOracle := mkPrelaunchOracle {
  pl_price : Z;
  pl_max_price : Z;
  pl_confidence : Z;
  pl_last_update_slot : Z;
  pl_amm_last_update_slot : Z;
  pl_perp_market_index : Z;
}.

Definition get_prelaunch_price (o : PrelaunchOracle) (slot : Z) : DriftResult OraclePriceData :=
  let! d := cast_i 64 (usat 64 (pl_amm_last_update_slot o - slot)) in
  Ok (mkOraclePriceData (pl_price o) (pl_confidence o) d true None).

Definition prelaunch_update (o : PrelaunchOracle) (a : AMM) (slot : Z) : DriftResult PrelaunchOracle :=
  let! last_twap := cast_i 64 (last_mark_price_twap a) in
  let new_price := if pl_max_price o <=? last_twap then pl_max_price o else last_twap in
  let! ask := cast_i 64 (last_ask_price_twap a) in
  let! bid := cast_i 64 (last_bid_price_twap a) in
  let! s := safe_i 64 (ask - bid) in
  Ok (mkPrelaunchOracle new_price (pl_max_price o) (Z.max (Z.abs s) (mark_std a)) slot (last_update_slot a)
        (pl_perp_market_index o)).

Definition prelaunch_validate (o : PrelaunchOracle) : DriftResult unit :=
  do! validate (negb (pl_price o =? 0)) InvalidOracle in
  do! validate (negb (pl_max_price o =? 0)) InvalidOracle in
  validate (pl_price o <=? pl_max_price o) InvalidOracle.

Definition default_quote_oracle : HistoricalOracleData :=
  mkHistoricalOracleData PRICE_PRECISION 0 0 PRICE_PRECISION PRICE_PRECISION 0.
Definition default_price (p : Z) : HistoricalOracleData := mkHistoricalOracleData p 0 10 p p 0.
Definition default_with_current_oracle (d : OraclePriceData) : HistoricalOracleData :=
  mkHistoricalOracleData (price d) (confidence d) (delay d) (price d) (price d) 0.

Definition strict_new (p twap : Z) (enabled : bool) : StrictOraclePrice :=
  mkStrictOraclePrice p (if enabled then Some twap else None).
Definition strict_validate (p : StrictOraclePrice) : DriftResult unit :=
  do! validate (0 <? current p) InvalidOracle in
  match twap_5min p with Some t => validate (0 <? t) InvalidOracle | None => Ok tt end.

(** ** The verdict on a price *)

Record ValidityGuardRails := mkValidityGuardRails {
  slots_before_stale_for_amm : Z;
  slots_before_stale_for_margin : Z;
  confidence_interval_max_size : Z;
  too_volatile_ratio : Z;
}.
Record PriceDivergenceGuardRails := mkPriceDivergenceGuardRails {
  mark_oracle_percent_divergence : Z;
  oracle_twap_5min_percent_divergence : Z;
}.
Record OracleGuardRails := mkOracleGuardRails {
  price_divergence : PriceDivergenceGuardRails;
  validity : ValidityGuardRails;
}.
Definition default_guard_rails : OracleGuardRails :=
  mkOracleGuardRails (mkPriceDivergenceGuardRails (PERCENTAGE_PRECISION / 10) (PERCENTAGE_PRECISION / 2))
    (mkValidityGuardRails 10 120 20000 5).
Definition max_oracle_twap_5min_percent_divergence (g : OracleGuardRails) : Z :=
  Z.max (oracle_twap_5min_percent_divergence (price_divergence g)) (PERCENTAGE_PRECISION / 2).

Inductive OracleValidity : Set :=
| NonPositive | TooVolatile | TooUncertain | StaleForMargin | InsufficientDataPoints
| StaleForAMM (immediate low_risk : bool)
| Valid.

Definition get_error_code (v : OracleValidity) : DriftResult ErrorCode :=
  match v with
  | NonPositive => Ok OracleNonPositive
  | TooVolatile => Ok OracleTooVolatile
  | TooUncertain => Ok OracleTooUncertain
  | StaleForMargin => Ok OracleStaleForMargin
  | InsufficientDataPoints => Ok OracleInsufficientDataPoints
  | StaleForAMM _ _ => Ok OracleStaleForAMM
  | Valid => Panic
  end.

(** The conversions of a verdict to a byte and back. *)
Definition validity_to_u8 (v : OracleValidity) : DriftResult Z :=
  match v with
  | NonPositive => Ok 0
  | TooVolatile => Ok 1
  | TooUncertain => Ok 2
  | StaleForMargin => Ok 3
  | InsufficientDataPoints => Ok 4
  | StaleForAMM true true => Ok 5
  | StaleForAMM true false => Ok 6
  | StaleForAMM false false | Valid => Ok 7
  | StaleForAMM false true => Panic
  end.
Definition validity_of_u8 (x : Z) : DriftResult OracleValidity :=
  if x =? 0 then Ok NonPositive else if x =? 1 then Ok TooVolatile else if x =? 2 then Ok TooUncertain
  else if x =? 3 then Ok StaleForMargin else if x =? 4 then Ok InsufficientDataPoints
  else if x =? 5 then Ok (StaleForAMM true true) else if x =? 6 then Ok (StaleForAMM true false)
  else if x =? 7 then Ok Valid else Panic.

Inductive DriftAction : Set :=
| UpdateFunding | SettlePnl | TriggerOrder | FillOrderMatch | FillOrderAmmLowRisk | FillOrderAmmImmediate
| Liquidate | MarginCalc | UpdateTwap | UpdateAMMCurve | OracleOrderPrice | UseMMOraclePrice | UpdateAmmCache
| UpdateLpPoolAum | LpPoolSwap.

Definition is_oracle_valid_for_action (v : OracleValidity) (action : option DriftAction) : bool :=
  match action with
  | Some FillOrderAmmImmediate | None => match v with Valid => true | _ => false end
  | Some FillOrderAmmLowRisk => match v with Valid | StaleForAMM _ false => true | _ => false end
  | Some UpdateFunding | Some SettlePnl =>
      match v with Valid | StaleForAMM _ _ | InsufficientDataPoints | StaleForMargin => true | _ => false end
  | Some OracleOrderPrice =>
      match v with Valid | StaleForAMM _ _ | InsufficientDataPoints => true | _ => false end
  | Some MarginCalc =>
      match v with NonPositive | TooVolatile | TooUncertain | StaleForMargin => false | _ => true end
  | Some TriggerOrder | Some Liquidate | Some UseMMOraclePrice =>
      match v with NonPositive | TooVolatile => false | _ => true end
  | Some FillOrderMatch | Some UpdateAmmCache | Some UpdateLpPoolAum | Some LpPoolSwap =>
      match v with NonPositive | TooVolatile | TooUncertain => false | _ => true end
  | Some UpdateTwap | Some UpdateAMMCurve => match v with NonPositive => false | _ => true end
  end.

(** [oracle_validity]; the two overrides are signed bytes. *)
Definition oracle_validity (last_oracle_twap : Z) (d : OraclePriceData) (g : ValidityGuardRails)
    (max_confidence_interval_multiplier : Z) (s : OracleSource)
    (immediate_override low_risk_override : Z) : DriftResult OracleValidity :=
  let is_oracle_price_nonpositive := price d <=? 0 in
  let! ratio := safe_idiv 64 (Z.max (price d) last_oracle_twap) (Z.max (Z.min last_oracle_twap (price d)) 1) in
  let is_oracle_price_too_volatile := too_volatile_ratio g <? ratio in
  let! c := safe_u 64 (confidence d * BID_ASK_SPREAD_PRECISION) in
  let! p := cast_u 64 (price d) in
  let! conf_pct_of_price := safe_udiv c p in
  let! max_conf := safe_u 64 (confidence_interval_max_size g * max_confidence_interval_multiplier) in
  let is_conf_too_large := max_conf <? conf_pct_of_price in
  let is_stale_for_amm_immediate :=
    if negb (immediate_override =? 0) then Z.max immediate_override 0 <? delay d else true in
  let is_stale_for_amm_low_risk :=
    if negb (low_risk_override =? 0) then Z.max low_risk_override 0 <? delay d
    else slots_before_stale_for_amm g <? delay d in
  let is_stale_for_margin :=
    match s with
    | PythStableCoinPull | PythLazerStableCoin => isat 64 (slots_before_stale_for_margin g * 3) <? delay d
    | _ => slots_before_stale_for_margin g <? delay d
    end in
  Ok (if is_oracle_price_nonpositive then NonPositive
      else if is_oracle_price_too_volatile then TooVolatile
      else if is_conf_too_large then TooUncertain
      else if is_stale_for_margin then StaleForMargin
      else if negb (has_sufficient_number_of_data_points d) then InsufficientDataPoints
      else if is_stale_for_amm_immediate || is_stale_for_amm_low_risk then
        StaleForAMM is_stale_for_amm_immediate is_stale_for_amm_low_risk
      else Valid).

(** ** The market maker's oracle *)

Record MMOraclePriceData := mkMMOraclePriceData {
  mm_price : Z;
  mm_oracle_delay : Z;
  mm_sequence_id : Z;
  mm_oracle_validity : OracleValidity;
  mm_exchange_diff_bps : Z;
  exchange_oracle_price_data : OraclePriceData;
  safe_oracle_price_data : OraclePriceData;
}.

Definition MM_EXCHANGE_FALLBACK_THRESHOLD : Z := PERCENTAGE_PRECISION / 100.

Definition mm_oracle_new (mm_oracle_price mm_delay mm_sequence : Z) (v : OracleValidity) (d : OraclePriceData) :
    DriftResult MMOraclePriceData :=
  let! price_diff := safe_i 64 (mm_oracle_price - price d) in
  let! a := ichk 64 (Z.abs price_diff) in
  let! p := safe_u 128 (a * PERCENTAGE_PRECISION) in
  let! q := ichk 64 (Z.abs (price d)) in
  let! price_diff_bps := safe_udiv p (Z.max q 1) in
  let by_delay := delay d <? mm_delay in
  let! exchange_oracle_is_more_recent :=
    match sequence_id d with
    | Some id =>
        let! tolerance := safe_udiv id 10000 in
        if (Z.abs (id - mm_sequence) <? tolerance) && negb (id =? 0) && negb (mm_sequence =? 0) then
          Ok (mm_sequence <? id)
        else Ok by_delay
    | None => Ok by_delay
    end in
  let! safe :=
    if exchange_oracle_is_more_recent || (mm_oracle_price =? 0)
       || negb (is_oracle_valid_for_action v (Some UseMMOraclePrice))
       || (MM_EXCHANGE_FALLBACK_THRESHOLD <? price_diff_bps) then Ok d
    else
      let! adjusted_confidence := safe_u 64 (confidence d + Z.abs (mm_oracle_price - price d)) in
      Ok (mkOraclePriceData mm_oracle_price adjusted_confidence mm_delay true (Some mm_sequence)) in
  Ok (mkMMOraclePriceData mm_oracle_price mm_delay mm_sequence v price_diff_bps d safe).

Definition mm_get_price (m : MMOraclePriceData) : Z := price (safe_oracle_price_data m).
Definition mm_get_delay (m : MMOraclePriceData) : Z := delay (safe_oracle_price_data m).
Definition mm_get_confidence (m : MMOraclePriceData) : Z := confidence (safe_oracle_price_data m).
Definition is_mm_exchange_diff_bps_high (m : MMOraclePriceData) : bool :=
  MM_EXCHANGE_FALLBACK_THRESHOLD <? mm_exchange_diff_bps m.
Definition is_mm_oracle_as_recent (m : MMOraclePriceData) : bool :=
  mm_oracle_delay m <=? delay (safe_oracle_price_data m).
Definition mm_is_enabled (m : MMOraclePriceData) : bool :=
  negb (mm_price m =? 0) && (0 <=? mm_oracle_delay m).

(** * Properties *)

(** The longest a price may be old for the margins: three times the limit for two
    sources of stablecoins. *)
Definition margin_delay_limit (g : ValidityGuardRails) (s : OracleSource) : Z :=
  match s with
  | PythStableCoinPull | PythLazerStableCoin => isat 64 (slots_before_stale_for_margin g * 3)
  | _ => slots_before_stale_for_margin g
  end.
(** A price is not far from its average and is known well. *)
Record fair_price (twap : Z) (d : OraclePriceData) (g : ValidityGuardRails) (mult : Z) : Prop := {
  fp_positive : 0 < price d;
  fp_steady : Z.max (price d) twap / Z.max (Z.min twap (price d)) 1 <= too_volatile_ratio g;
  fp_certain : confidence d * BID_ASK_SPREAD_PRECISION / price d <= confidence_interval_max_size g * mult;
}.
(** The limits of the curve on the age of a price; 0 as an override of the first
    means that no price is young enough, and of the second that the rails hold. *)
Definition immediate_delay_ok (io dl : Z) : Prop := io <> 0 /\ dl <= Z.max io 0.
Definition low_risk_delay_ok (g : ValidityGuardRails) (lo dl : Z) : Prop :=
  dl <= if lo =? 0 then slots_before_stale_for_amm g else Z.max lo 0.

(** The verdicts, each with exactly the prices that get it. *)
Lemma oracle_validity_Ok twap d g mult s io lo v :
  oracle_validity twap d g mult s io lo = Ok v ->
  0 < price d /\ v <> NonPositive
  /\ (v <> TooVolatile <-> Z.max (price d) twap / Z.max (Z.min twap (price d)) 1 <= too_volatile_ratio g)
  /\ (v <> TooVolatile /\ v <> TooUncertain <-> fair_price twap d g mult)
  /\ (v <> TooVolatile /\ v <> TooUncertain /\ v <> StaleForMargin <->
      fair_price twap d g mult /\ delay d <= margin_delay_limit g s)
  /\ (v = Valid <-> fair_price twap d g mult /\ delay d <= margin_delay_limit g s
      /\ has_sufficient_number_of_data_points d = true /\ immediate_delay_ok io (delay d) /\ low_risk_delay_ok g lo (delay d)).
Proof.
  intros H. unfold oracle_validity in H.
  apply obind_Ok in H as (r & (Hz & -> & _)%safe_idiv_Ok & H). apply obind_Ok in H as (c & [-> _]%safe_u_Ok & H).
  apply obind_Ok in H as (p & [-> Hp]%cast_u_Ok & H). apply obind_Ok in H as (q & [Hp0 ->]%safe_udiv_Ok & H).
  apply obind_Ok in H as (m & [-> _]%safe_u_Ok & H). injection H as <-. unfold in_u in Hp.
  rewrite Z.quot_div_nonneg by lia. destruct (Z.leb_spec (price d) 0); [lia|].
  set (stale := match s with PythStableCoinPull | PythLazerStableCoin => _ | _ => _ end).
  assert (stale = (margin_delay_limit g s <? delay d)) as -> by (subst stale; unfold margin_delay_limit; by destruct s).
  set (im := if negb (io =? 0) then _ else true). assert (im = false <-> immediate_delay_ok io (delay d)) as Him.
  { subst im. unfold immediate_delay_ok. destruct (Z.eqb_spec io 0); cbn [negb]; [by split; [|intros []]|]. rewrite Z.ltb_ge. naive_solver. }
  set (low := if negb (lo =? 0) then _ else _). assert (low = false <-> low_risk_delay_ok g lo (delay d)) as Hlow.
  { subst low. unfold low_risk_delay_ok. destruct (Z.eqb_spec lo 0); cbn [negb]; by rewrite Z.ltb_ge. }
  clearbody im low. split; [done|].
  destruct (Z.ltb_spec (too_volatile_ratio g) (Z.max (price d) twap / Z.max (Z.min twap (price d)) 1)) as [Hv|Hv].
  { assert (~ fair_price twap d g mult) as Hno by (intros []; lia). split_and!; try done; split; intuition (try done; try lia). }
  destruct (Z.ltb_spec (confidence_interval_max_size g * mult) (confidence d * BID_ASK_SPREAD_PRECISION / price d)) as [Hc|Hc].
  { assert (~ fair_price twap d g mult) as Hno by (intros []; lia). split_and!; try done; split; intuition (try done; try lia). }
  assert (fair_price twap d g mult) as Hf by done.
  destruct (Z.ltb_spec (margin_delay_limit g s) (delay d)) as [Hs|Hs].
  { split_and!; try done; split; intuition (try done; try lia). }
  destruct (has_sufficient_number_of_data_points d); cbn [negb].
  2: { split_and!; try done; split; intuition done. }
  destruct im, low; cbn [orb]; split_and!; try done; split; intuition done.
Qed.

(** C40: A price that is zero or negative is not judged but refused:
    [oracle_validity] computes the share of the confidence in the price before it
    gives a verdict, and on such a price this share fails - the cast of a negative
    price with [CastingFailure], the division by a price of zero, or a confidence
    too large to be scaled, with [MathError]. So its verdict [NonPositive] is never
    the one it gives. *)
Theorem nonpositive_price_unjudged twap d g mult s io lo :
  price d <= 0 -> 0 <= confidence d -> in_i 64 (price d) -> in_i 64 twap ->
  oracle_validity twap d g mult s io lo =
    Err (if (price d <? 0) && (confidence d * BID_ASK_SPREAD_PRECISION <? 2 ^ 64) then CastingFailure else MathError).
Proof.
  intros Hp Hc Hi Ht. unfold oracle_validity, in_i in *. unfold safe_idiv, checked_idiv.
  destruct (Z.eqb_spec (Z.max (Z.min twap (price d)) 1) 0); [lia|].
  assert (Z.max (Z.min twap (price d)) 1 = 1) as -> by lia. rewrite Z.quot_1_r. unfold icheck, iok.
  rewrite (proj2 (Z.leb_le _ _)), (proj2 (Z.ltb_lt _ _)) by lia. cbn [andb ok_or obind].
  unfold safe_u, ucheck, uok. assert (0 <= confidence d * BID_ASK_SPREAD_PRECISION) as Hn by (apply Z.mul_nonneg_nonneg; done).
  apply Z.leb_le in Hn as ->. destruct (Z.ltb_spec (confidence d * BID_ASK_SPREAD_PRECISION) (2 ^ 64)); cbn [andb ok_or obind];
    [|by rewrite andb_false_r].
  unfold cast_u, uok. destruct (Z.leb_spec 0 (price d)) as [H0|H0]; cbn [andb].
  - assert (price d = 0) as -> by lia. done.
  - cbn [obind]. by rewrite (proj2 (Z.ltb_lt _ _)).
Qed.

(** C27: A price admitted to margin calculations is exactly one that is positive, no
    more than the configured ratio away from its average, known to the configured
    share of itself, and no older than the limit of its source - the configured one,
    three times it for the two sources of stablecoins that update seldom; and one
    admitted to immediate fills by the curve is exactly such a price that has besides
    enough sources and an age within the market's two limits. *)
Theorem admitted_price_sound twap d g mult s io lo v :
  oracle_validity twap d g mult s io lo = Ok v ->
  (is_oracle_valid_for_action v (Some MarginCalc) = true <->
   fair_price twap d g mult /\ delay d <= margin_delay_limit g s) /\
  (is_oracle_valid_for_action v (Some FillOrderAmmImmediate) = true <->
   fair_price twap d g mult /\ delay d <= margin_delay_limit g s /\ has_sufficient_number_of_data_points d = true
   /\ immediate_delay_ok io (delay d) /\ low_risk_delay_ok g lo (delay d)).
Proof.
  intros (_ & Hn & _ & _ & Hm & Hv)%oracle_validity_Ok. split.
  - rewrite <- Hm. destruct v; cbn; naive_solver.
  - rewrite <- Hv. by destruct v.
Qed.

(** The price the curve works with is safe against the market maker's oracle:
    it is the exchange's price, or the market maker's when that is usable, is
    not older, lies within one per cent of the exchange's, and comes with a
    confidence interval that contains the exchange's whole interval. *)
Theorem safe_oracle_covers_exchange mp md seq v d m :
  mm_oracle_new mp md seq v d = Ok m ->
  safe_oracle_price_data m = d \/
  (price (safe_oracle_price_data m) = mp /\ mp <> 0 /\ is_oracle_valid_for_action v (Some UseMMOraclePrice) = true /\
   Z.abs (mp - price d) * PERCENTAGE_PRECISION / Z.max (Z.abs (price d)) 1 <= MM_EXCHANGE_FALLBACK_THRESHOLD /\
   (sequence_id d = None -> md <= delay d) /\
   let c := confidence (safe_oracle_price_data m) in
   mp - c <= price d - confidence d /\ price d + confidence d <= mp + c).
Proof.
  intros H. unfold mm_oracle_new in H. apply obind_Ok in H as (df & [-> _]%safe_i_Ok & H).
  apply obind_Ok in H as (a & [-> _]%ichk_Ok & H). apply obind_Ok in H as (p & [-> _]%safe_u_Ok & H).
  apply obind_Ok in H as (q & [-> _]%ichk_Ok & H). apply obind_Ok in H as (bps & [_ ->]%safe_udiv_Ok & H).
  apply obind_Ok in H as (recent & Hr & H). apply obind_Ok in H as (safe & Hs & [= <-]). cbn.
  destruct (_ || _) eqn:Hc in Hs; [injection Hs as <-; by left|right].
  apply orb_false_iff in Hc as [Hc Hb%Z.ltb_ge]. apply orb_false_iff in Hc as [Hc Hv%negb_false_iff].
  apply orb_false_iff in Hc as [-> Hm%Z.eqb_neq].
  apply obind_Ok in Hs as (c & [-> _]%safe_u_Ok & [= <-]). cbn.
  split; [done|]. split; [done|]. split; [done|]. split; [done|]. split; [|lia].
  intros Hq. rewrite Hq in Hr. injection Hr as Hd%Z.ltb_ge. done.
Qed.

(** ** Verdicts *)
Section Examples.

Definition demo_price : OraclePriceData := mkOraclePriceData 100000000 50000 2 true None.

Example demo_price_valid : oracle_validity 99000000 demo_price (validity default_guard_rails) 1 Pyth 10 0 = Ok Valid.
Proof. vm_compute. reflexivity. Qed.

(** A prelaunch oracle is never stale: its delay is counted from the slot back to
    the update, and saturates at zero. *)
Lemma prelaunch_never_stale o slot d :
  pl_amm_last_update_slot o <= slot -> get_prelaunch_price o slot = Ok d -> delay d = 0.
Proof.
  intros Hs H. unfold get_prelaunch_price in H. apply obind_Ok in H as (x & [-> _]%cast_i_Ok & [= <-]). cbn.
  unfold usat. lia.
Qed.

Lemma nonpositive_price_unjudged_witness :
  oracle_validity 99000000 (mkOraclePriceData (-5) 50000 2 true None) (validity default_guard_rails) 1 Pyth 10 0
    = Err CastingFailure.
Proof. apply (nonpositive_price_unjudged 99000000 (mkOraclePriceData (-5) 50000 2 true None)); by_compute. Defined.

Lemma admitted_price_sound_witness :
  fair_price 99000000 demo_price (validity default_guard_rails) 1 /\ delay demo_price <= 120.
Proof.
  destruct (admitted_price_sound 99000000 demo_price (validity default_guard_rails) 1 Pyth 10 0 Valid demo_price_valid)
    as [H _].
  exact (proj1 H eq_refl).
Defined.

Lemma safe_oracle_covers_exchange_witness :
  exists m, mm_oracle_new 100200000 1 0 Valid demo_price = Ok m /\ safe_oracle_price_data m <> demo_price /\
    100200000 - confidence (safe_oracle_price_data m) <= 100000000 - 50000.
Proof.
  eexists. split; [vm_compute; reflexivity|]. split; [vm_compute; discriminate|].
  match goal with |- context [safe_oracle_price_data ?m] =>
    destruct (safe_oracle_covers_exchange 100200000 1 0 Valid demo_price m) as [H|(_ & _ & _ & _ & _ & H & _)] end;
    [vm_compute; reflexivity|vm_compute in H; discriminate H|exact H].
Defined.
End Examples.
