(* ===== verification/DriftOrderMath.v ===== *)
(** The arithmetic of orders of [programs/drift]: rounding to steps and ticks,
    price bands and fill prices ([math/orders.rs]), the price of an order and
    of its auction ([math/auction.rs], the methods of [Order] in
    [state/user.rs]), and the matching of two orders ([math/matching.rs]).

    The functions of [math/orders.rs] that need the curve or the margin are in
    the files that model those. *)
From S2P Require Import Prelude.
From S2P Require Import RecordUpdate.
From S2P Require Import DriftError.
From S2P Require Import DriftMath.
From S2P Require Import DriftSpotMarket.
From S2P Require Import DriftTypes.

(** ** Flags *)

Inductive OrderBitFlag : Set :=
| SignedMessage | OracleTriggerMarket | SafeTriggerOrder | NewTriggerReduceOnly | HasBuilder | IsIsolatedPosition.
Definition order_bit_flag (f : OrderBitFlag) : Z :=
  match f with
  | SignedMessage => 1 | OracleTriggerMarket => 2 | SafeTriggerOrder => 4 | NewTriggerReduceOnly => 8
  | HasBuilder => 16 | IsIsolatedPosition => 32
  end.

Definition is_bit_flag_set (o : Order) (f : OrderBitFlag) : bool :=
  negb (Z.land (o_bit_flags o) (order_bit_flag f) =? 0).
Definition add_bit_flag (o : Order) (f : OrderBitFlag) : Order :=
  o <| o_bit_flags := Z.lor (o_bit_flags o) (order_bit_flag f) |>.
Definition is_signed_msg (o : Order) : bool := is_bit_flag_set o SignedMessage.
Definition is_has_builder (o : Order) : bool := is_bit_flag_set o HasBuilder.

(** [!(flag as u8)]: the complement in eight bits. *)
Definition set_order_bit_flag (flags : Z) (value : bool) (f : OrderBitFlag) : Z :=
  if value then Z.lor flags (order_bit_flag f) else Z.land flags (255 - order_bit_flag f).

(** ** Rounding to steps and ticks *)

Definition calculate_quote_asset_amount_for_maker_order (base_asset_amount fill_price base_decimals : Z)
    (d : PositionDirection) : DriftResult Z :=
  let! precision_decrease := uchk 128 (10 ^ base_decimals) in
  let! p := safe_u 128 (fill_price * base_asset_amount) in
  let! q := match d with
            | Long => safe_udiv p precision_decrease
            | Short => safe_div_ceil 128 p precision_decrease
            end in
  cast_u 64 q.

Definition standardize_base_asset_amount_with_remainder_i128 (base_asset_amount step_size : Z) :
    DriftResult (Z * Z) :=
  let! r := safe_rem (Z.abs base_asset_amount) step_size in
  let! r := cast_i 128 r in
  let! remainder := safe_i 128 (r * Z.sgn base_asset_amount) in
  let! standardized := safe_i 128 (base_asset_amount - remainder) in
  Ok (standardized, remainder).

Definition standardize_base_asset_amount (base_asset_amount step_size : Z) : DriftResult Z :=
  let! remainder := safe_rem base_asset_amount step_size in
  safe_u 64 (base_asset_amount - remainder).

Definition standardize_base_asset_amount_ceil (base_asset_amount step_size : Z) : DriftResult Z :=
  let! remainder := safe_rem base_asset_amount step_size in
  if remainder =? 0 then Ok base_asset_amount
  else
    let! x := safe_u 64 (base_asset_amount + step_size) in
    safe_u 64 (x - remainder).

Definition is_multiple_of_step_size (base_asset_amount step_size : Z) : DriftResult bool :=
  let! remainder := safe_rem base_asset_amount step_size in
  Ok (remainder =? 0).

Definition standardize_price (price tick_size : Z) (d : PositionDirection) : DriftResult Z :=
  if price =? 0 then Ok 0
  else
    let! remainder := safe_rem price tick_size in
    if remainder =? 0 then Ok price
    else
      match d with
      | Long => safe_u 64 (price - remainder)
      | Short => let! x := safe_u 64 (price + tick_size) in safe_u 64 (x - remainder)
      end.

Definition standardize_price_i64 (price tick_size : Z) (d : PositionDirection) : DriftResult Z :=
  if price =? 0 then Ok 0
  else
    let! remainder := safe_rem price tick_size in
    if remainder =? 0 then Ok price
    else
      match d with
      | Long => safe_i 64 (price - remainder)
      | Short => let! x := safe_i 64 (price + tick_size) in safe_i 64 (x - remainder)
      end.

(** [ProtectedMakerParams] of [state/protected_maker_mode_config.rs]; [checked_shl(3)]
    drops the bits above 64. *)
Record ProtectedMakerParams := mkProtectedMakerParams {
  limit_price_divisor : Z;
  dynamic_offset : Z;
  pmm_tick_size : Z;
}.

Definition apply_protected_maker_limit_price_offset (price : Z) (d : PositionDirection)
    (p : ProtectedMakerParams) (standardize : bool) : DriftResult Z :=
  let min_offset := uwrap 64 (Z.shiftl (pmm_tick_size p) 3) in
  let limit_price_bps_divisor := if 0 <? limit_price_divisor p then 10000 / limit_price_divisor p else 1000 in
  let! q := safe_udiv price limit_price_bps_divisor in
  let price_offset := Z.min (Z.max (Z.max q min_offset) (dynamic_offset p)) (price / 20) in
  let price :=
    match d with
    | Long => Z.max (usat 64 (price - price_offset)) (pmm_tick_size p)
    | Short => usat 64 (price + price_offset)
    end in
  if standardize then standardize_price price (pmm_tick_size p) d else Ok price.

(** [PositionDelta] of [controller/position.rs]. *)
Record PositionDelta := mkPositionDelta { pd_quote_asset_amount : Z; pd_base_asset_amount : Z }.

(** [-quote_asset_amount.cast()?]: the cast to i64, then the negation. *)
Definition get_position_delta_for_fill (base_asset_amount quote_asset_amount : Z) (d : PositionDirection) :
    DriftResult PositionDelta :=
  let! q := cast_i 64 quote_asset_amount in
  let! b := cast_i 64 base_asset_amount in
  match d with
  | Long => Ok (mkPositionDelta (- q) b)
  | Short => Ok (mkPositionDelta q (- b))
  end.

(** ** Auctions *)

Definition calculate_auction_prices (oracle_price : Z) (d : PositionDirection) (limit_price : Z) :
    DriftResult (Z * Z) :=
  let! limit_price := cast_i 64 limit_price in
  let oracle_step := Z.quot oracle_price AUCTION_DERIVE_PRICE_FRACTION in
  let limit_step := Z.quot limit_price AUCTION_DERIVE_PRICE_FRACTION in
  if 0 <? limit_price then
    match d with
    | Long =>
        if limit_price <? oracle_price then
          let! limit_derive_start_price := safe_i 64 (limit_price - limit_step) in
          let! oracle_derive_start_price := safe_i 64 (oracle_price - oracle_step) in
          Ok (Z.min limit_derive_start_price oracle_derive_start_price, limit_price)
        else
          let! oracle_derive_end_price := safe_i 64 (oracle_price + oracle_step) in
          Ok (oracle_price, Z.min limit_price oracle_derive_end_price)
    | Short =>
        if oracle_price <? limit_price then
          let! limit_derive_start_price := safe_i 64 (limit_price + limit_step) in
          let! oracle_derive_start_price := safe_i 64 (oracle_price + oracle_step) in
          Ok (Z.max limit_derive_start_price oracle_derive_start_price, limit_price)
        else
          let! oracle_derive_end_price := safe_i 64 (oracle_price - oracle_step) in
          Ok (oracle_price, Z.max limit_price oracle_derive_end_price)
    end
  else
    let! auction_end_price :=
      match d with
      | Long => safe_i 64 (oracle_price + oracle_step)
      | Short => safe_i 64 (oracle_price - oracle_step)
      end in
    Ok (oracle_price, auction_end_price).

Definition is_auction_complete (order_slot auction_duration slot : Z) : DriftResult bool :=
  if auction_duration =? 0 then Ok true
  else
    let! slots_elapsed := safe_u 64 (slot - order_slot) in
    Ok (auction_duration <? slots_elapsed).

Definition has_oracle_price_offset (o : Order) : bool := negb (o_oracle_price_offset o =? 0).

Definition calculate_auction_price_for_fixed_auction (o : Order) (slot tick_size : Z) : DriftResult Z :=
  let! slots_elapsed := safe_u 64 (slot - o_slot o) in
  let delta_numerator := Z.min slots_elapsed (o_auction_duration o) in
  let delta_denominator := o_auction_duration o in
  let! auction_start_price := cast_u 64 (o_auction_start_price o) in
  let! auction_end_price := cast_u 64 (o_auction_end_price o) in
  if delta_denominator =? 0 then standardize_price auction_end_price tick_size (o_direction o)
  else
    let! total := match o_direction o with
                  | Long => safe_u 64 (auction_end_price - auction_start_price)
                  | Short => safe_u 64 (auction_start_price - auction_end_price)
                  end in
    let! p := safe_u 64 (total * delta_numerator) in
    let! price_delta := safe_udiv p delta_denominator in
    let! price := match o_direction o with
                  | Long => safe_u 64 (auction_start_price + price_delta)
                  | Short => safe_u 64 (auction_start_price - price_delta)
                  end in
    standardize_price price tick_size (o_direction o).

(** The price of an offset from the oracle: at least a tick, at most one dollar
    in a prediction market. *)
Definition offset_price (oracle_price offset tick_size : Z) (is_prediction_market : bool) : DriftResult Z :=
  let! p := safe_i 64 (oracle_price + offset) in
  let! t := cast_i 64 tick_size in
  let! price := cast_u 64 (Z.max p t) in
  Ok (if is_prediction_market then Z.min price MAX_PREDICTION_MARKET_PRICE else price).

Definition calculate_auction_price_for_oracle_offset_auction (o : Order) (slot tick_size : Z)
    (valid_oracle_price : option Z) (is_prediction_market : bool) : DriftResult Z :=
  let! oracle_price := ok_or valid_oracle_price OracleNotFound in
  let! slots_elapsed := safe_u 64 (slot - o_slot o) in
  let delta_numerator := Z.min slots_elapsed (o_auction_duration o) in
  let delta_denominator := o_auction_duration o in
  if delta_denominator =? 0 then
    let! price := offset_price oracle_price (o_auction_end_price o) tick_size is_prediction_market in
    standardize_price price tick_size (o_direction o)
  else
    let! total := match o_direction o with
                  | Long => safe_i 64 (o_auction_end_price o - o_auction_start_price o)
                  | Short => safe_i 64 (o_auction_start_price o - o_auction_end_price o)
                  end in
    let! n := cast_i 64 delta_numerator in
    let! p := safe_i 64 (total * n) in
    let! price_offset_delta := safe_idiv 64 p delta_denominator in
    let! price_offset := match o_direction o with
                         | Long => safe_i 64 (o_auction_start_price o + price_offset_delta)
                         | Short => safe_i 64 (o_auction_start_price o - price_offset_delta)
                         end in
    let! price := offset_price oracle_price price_offset tick_size is_prediction_market in
    standardize_price price tick_size (o_direction o).

Definition calculate_auction_price (o : Order) (slot tick_size : Z) (valid_oracle_price : option Z)
    (is_prediction_market : bool) : DriftResult Z :=
  let oracle_offset := calculate_auction_price_for_oracle_offset_auction o slot tick_size valid_oracle_price
                         is_prediction_market in
  let fixed := calculate_auction_price_for_fixed_auction o slot tick_size in
  match o_order_type o with
  | TriggerMarket => if is_bit_flag_set o OracleTriggerMarket then oracle_offset else fixed
  | MarketOrder | TriggerLimit => fixed
  | LimitOrder => if has_oracle_price_offset o then oracle_offset else fixed
  | OracleOrder => oracle_offset
  end.

(** ** Methods of [Order] *)

Definition seconds_til_expiry (o : Order) (now : Z) : DriftResult Z :=
  let! d := ichk 64 (o_max_ts o - now) in Ok (Z.max d 0).

Definition has_auction_price (o : Order) (order_slot auction_duration slot : Z) : DriftResult bool :=
  let! auction_complete := is_auction_complete order_slot auction_duration slot in
  Ok (negb auction_complete && (negb (o_auction_start_price o =? 0) || negb (o_auction_end_price o =? 0))).

Definition get_limit_price (o : Order) (valid_oracle_price fallback_price : option Z) (slot tick_size : Z)
    (is_prediction_market : bool) (pmm_params : option ProtectedMakerParams) : DriftResult (option Z) :=
  let! auction := has_auction_price o (o_slot o) (o_auction_duration o) slot in
  if auction then
    let! p := calculate_auction_price o slot tick_size valid_oracle_price is_prediction_market in
    Ok (Some p)
  else if has_oracle_price_offset o then
    let! oracle_price := ok_or valid_oracle_price OracleNotFound in
    let! limit_price := offset_price oracle_price (o_oracle_price_offset o) tick_size is_prediction_market in
    let! limit_price :=
      match pmm_params with
      | Some p => apply_protected_maker_limit_price_offset limit_price (o_direction o) p false
      | None => Ok limit_price
      end in
    let! p := standardize_price limit_price tick_size (o_direction o) in
    Ok (Some p)
  else if o_price o =? 0 then
    match fallback_price with
    | Some price => let! p := standardize_price price tick_size (o_direction o) in Ok (Some p)
    | None => Ok None
    end
  else
    match pmm_params with
    | Some p => let! x := apply_protected_maker_limit_price_offset (o_price o) (o_direction o) p true in Ok (Some x)
    | None => Ok (Some (o_price o))
    end.

Definition force_get_limit_price (o : Order) (valid_oracle_price fallback_price : option Z) (slot tick_size : Z)
    (is_prediction_market : bool) (pmm_params : option ProtectedMakerParams) : DriftResult Z :=
  let! p := get_limit_price o valid_oracle_price fallback_price slot tick_size is_prediction_market pmm_params in
  ok_or p UnableToGetLimitPrice.

Definition has_limit_price (o : Order) (slot : Z) : DriftResult bool :=
  if (0 <? o_price o) || has_oracle_price_offset o then Ok true
  else let! c := is_auction_complete (o_slot o) (o_auction_duration o) slot in Ok (negb c).

Definition order_is_auction_complete (o : Order) (slot : Z) : DriftResult bool :=
  is_auction_complete (o_slot o) (o_auction_duration o) slot.

Definition has_auction (o : Order) : bool := negb (o_auction_duration o =? 0).

Definition get_base_asset_amount_unfilled (o : Order) (existing_position : option Z) : DriftResult Z :=
  let! unfilled := safe_u 64 (o_base_asset_amount o - o_base_asset_amount_filled o) in
  match existing_position with
  | None => Ok unfilled
  | Some existing_position =>
      if negb (o_reduce_only o) then Ok unfilled
      else if existing_position =? 0 then Ok 0
      else
        match o_direction o with
        | Long => if 0 <? existing_position then Ok 0 else Ok (Z.min unfilled (Z.abs existing_position))
        | Short => if existing_position <? 0 then Ok 0 else Ok (Z.min unfilled (Z.abs existing_position))
        end
  end.

Definition get_standardized_base_asset_amount_unfilled (o : Order) (existing_position : option Z)
    (step_size : Z) : DriftResult Z :=
  let! x := get_base_asset_amount_unfilled o existing_position in
  standardize_base_asset_amount x step_size.

Definition must_be_triggered (o : Order) : bool :=
  match o_order_type o with TriggerMarket | TriggerLimit => true | _ => false end.
Definition triggered (o : Order) : bool :=
  match o_trigger_condition o with TriggeredAbove | TriggeredBelow => true | _ => false end.
Definition is_jit_maker (o : Order) : bool := o_post_only o && o_immediate_or_cancel o.
Definition is_open_order_for_market (o : Order) (market_index : Z) (t : MarketType) : bool :=
  (o_market_index o =? market_index) && bool_decide (o_status o = OrderOpen) && bool_decide (o_market_type o = t).

(** [AssetType]: the base or the quote side of a spot order. *)
Inductive AssetType : Set := BaseAsset | QuoteAssetType.
Definition get_spot_position_update_direction (o : Order) (t : AssetType) : SpotBalanceType :=
  match o_direction o, t with
  | Long, BaseAsset => Deposit
  | Long, QuoteAssetType => Borrow
  | Short, BaseAsset => Borrow
  | Short, QuoteAssetType => Deposit
  end.

Definition is_market_order (o : Order) : bool :=
  match o_order_type o with MarketOrder | TriggerMarket | OracleOrder => true | _ => false end.
Definition is_limit_order (o : Order) : bool :=
  match o_order_type o with LimitOrder | TriggerLimit => true | _ => false end.
Definition is_resting_limit_order (o : Order) (slot : Z) : DriftResult bool :=
  if negb (is_limit_order o) then Ok false
  else if o_post_only o then Ok true else order_is_auction_complete o slot.
Definition order_is_available (o : Order) : bool := negb (bool_decide (o_status o = OrderOpen)).
Definition update_open_bids_and_asks (o : Order) : bool :=
  negb (must_be_triggered o)
  || (triggered o && negb (o_reduce_only o && is_bit_flag_set o NewTriggerReduceOnly)).

Definition is_low_risk_for_amm (o : Order) (mm_oracle_delay clock_slot : Z)
    (is_liquidation user_can_skip_auction_duration : bool) : DriftResult bool :=
  if bool_decide (o_market_type o = Spot) then Ok false
  else
    let! c := cast_i 64 clock_slot in
    let! clock_minus_delay := safe_i 64 (c - mm_oracle_delay) in
    let! s := cast_i 64 (o_slot o) in
    let order_older_than_oracle_delay :=
      if user_can_skip_auction_duration then s <=? clock_minus_delay else s <? clock_minus_delay in
    Ok (order_older_than_oracle_delay || is_liquidation || is_bit_flag_set o SafeTriggerOrder).

(** ** Conditions on orders and prices *)

Definition should_expire_order (o : Order) (now : Z) : bool :=
  if order_is_available o || (o_max_ts o =? 0) || must_be_triggered o then false else o_max_ts o <? now.

Definition should_cancel_reduce_only_order (o : Order) (existing_base_asset_amount step_size : Z) :
    DriftResult bool :=
  if negb (order_is_available o) && o_reduce_only o then
    let! u := get_base_asset_amount_unfilled o (Some existing_base_asset_amount) in
    Ok (u <? step_size)
  else Ok false.

Definition limit_price_breaches_maker_oracle_price_bands (order_limit_price : Z) (d : PositionDirection)
    (oracle_price margin_ratio_initial : Z) : DriftResult bool :=
  let oracle_price := Z.abs oracle_price in
  let breaches (diff : Z) :=
    let! diff := safe_u 64 diff in
    let! p := safe_u 128 (diff * MARGIN_PRECISION) in
    let! percent_diff := safe_udiv p oracle_price in
    Ok (margin_ratio_initial <=? percent_diff) in
  match d with
  | Long =>
      if order_limit_price <=? oracle_price then Ok false else breaches (order_limit_price - oracle_price)
  | Short =>
      if oracle_price <=? order_limit_price then Ok false else breaches (oracle_price - order_limit_price)
  end.

Definition order_breaches_maker_oracle_price_bands (o : Order) (oracle_price slot tick_size margin_ratio_initial : Z)
    (is_prediction_market : bool) : DriftResult bool :=
  let! p := force_get_limit_price o (Some oracle_price) None slot tick_size is_prediction_market None in
  limit_price_breaches_maker_oracle_price_bands p (o_direction o) oracle_price margin_ratio_initial.

(** The difference of two prices in parts of [precision] of the second. *)
Definition percent_diff (fill_price reference precision : Z) : DriftResult Z :=
  let! f := cast_i 64 fill_price in
  let! d := safe_i 64 (f - reference) in
  let! p := safe_i 128 (d * precision) in
  let! q := safe_idiv 128 p reference in
  Ok (Z.abs q).

Definition validate_fill_price_within_price_bands (fill_price oracle_price oracle_twap_5min margin_ratio_initial
    oracle_twap_5min_percent_divergence : Z) (is_prediction_market : bool) (d : option PositionDirection) :
    DriftResult unit :=
  if is_prediction_market then validate (fill_price <=? MAX_PREDICTION_MARKET_PRICE) PriceBandsBreached
  else
    let! better :=
      match d with
      | None => Ok false
      | Some Long =>
          let! p := cast_u 64 oracle_price in
          if fill_price <? p then let! t := cast_u 64 oracle_twap_5min in Ok (fill_price <? t) else Ok false
      | Some Short =>
          let! p := cast_u 64 oracle_price in
          if p <? fill_price then let! t := cast_u 64 oracle_twap_5min in Ok (t <? fill_price) else Ok false
      end in
    if better then Ok tt
    else
      let! percent_diff_oracle := percent_diff fill_price oracle_price MARGIN_PRECISION in
      let! percent_diff_twap := percent_diff fill_price oracle_twap_5min PERCENTAGE_PRECISION in
      do! validate (percent_diff_oracle <? margin_ratio_initial) PriceBandsBreached in
      validate (percent_diff_twap <? oracle_twap_5min_percent_divergence) PriceBandsBreached.

Definition is_oracle_too_divergent_with_twap_5min (oracle_price oracle_twap_5min max_divergence : Z) :
    DriftResult bool :=
  let! d := safe_i 64 (oracle_price - oracle_twap_5min) in
  let! a := ichk 64 (Z.abs d) in
  let! p := safe_i 64 (a * PERCENTAGE_PRECISION) in
  let! t := ichk 64 (Z.abs oracle_twap_5min) in
  let! percent_diff := safe_idiv 64 p t in
  Ok (max_divergence <=? percent_diff).

Definition order_satisfies_trigger_condition (o : Order) (oracle_price : Z) : DriftResult bool :=
  match o_trigger_condition o with
  | Above => Ok (o_trigger_price o <? oracle_price)
  | Below => Ok (oracle_price <? o_trigger_price o)
  | _ => Err InvalidTriggerOrderCondition
  end.

Definition is_new_order_risk_increasing (o : Order) (position_base_asset_amount position_bids position_asks : Z) :
    DriftResult bool :=
  if o_reduce_only o then Ok false
  else
    match o_direction o with
    | Long =>
        if 0 <=? position_base_asset_amount then Ok true
        else
          let! b := cast_i 64 (o_base_asset_amount o) in
          let! x := safe_i 64 (position_bids + b) in
          let! a := ichk 64 (Z.abs position_base_asset_amount) in
          Ok (a <? x)
    | Short =>
        if position_base_asset_amount <=? 0 then Ok true
        else
          let! b := cast_i 64 (o_base_asset_amount o) in
          let! x := safe_i 64 (position_asks - b) in
          let! a := ichk 64 (Z.abs x) in
          Ok (position_base_asset_amount <? a)
    end.

Definition is_order_position_reducing (d : PositionDirection) (order_base_asset_amount position_base_asset_amount : Z) :
    bool :=
  match d with
  | Long => (position_base_asset_amount <? 0) && (order_base_asset_amount <=? Z.abs position_base_asset_amount)
  | Short => (0 <? position_base_asset_amount) && (order_base_asset_amount <=? Z.abs position_base_asset_amount)
  end.

Definition calculate_fill_price (quote_asset_amount base_asset_amount base_precision : Z) : DriftResult Z :=
  let! p := safe_u 128 (quote_asset_amount * base_precision) in
  let! q := safe_udiv p base_asset_amount in
  cast_u 64 q.

Definition validate_fill_price (quote_asset_amount base_asset_amount base_precision : Z) (d : PositionDirection)
    (order_limit_price : Z) (is_taker : bool) : DriftResult unit :=
  let rounded_quote_asset_amount :=
    if is_taker then
      match d with
      | Long => usat 64 (quote_asset_amount - 1)
      | Short => usat 64 (quote_asset_amount + 1)
      end
    else quote_asset_amount in
  let! fill_price := calculate_fill_price rounded_quote_asset_amount base_asset_amount base_precision in
  match d with
  | Long => if order_limit_price <? fill_price then Err InvalidOrderFillPrice else Ok tt
  | Short => if fill_price <? order_limit_price then Err InvalidOrderFillPrice else Ok tt
  end.

(** [Level] of [state/order_params.rs]: a price and an amount of a side of the book. *)
Record Level := mkLevel { lv_price : Z; lv_base_asset_amount : Z }.

Definition filter_bids_asks_by_oracle_divergence (bids asks : list Level) (oracle_price max_divergence_percent : Z) :
    DriftResult (list Level * list Level) :=
  let oracle_abs := Z.max (Z.abs oracle_price) 1 in
  let! d := uchk 64 (100 - max_divergence_percent) in
  let! p := safe_u 128 (oracle_abs * Z.min d 100) in
  let! q := safe_udiv p 100 in
  let! min_bid_price := cast_u 64 q in
  let! e := uchk 64 (100 + max_divergence_percent) in
  let! p := safe_u 128 (oracle_abs * e) in
  let! q := safe_udiv p 100 in
  let! max_ask_price := cast_u 64 q in
  Ok (filter (fun l => Is_true (min_bid_price <=? lv_price l)) bids,
      filter (fun l => Is_true (lv_price l <=? max_ask_price)) asks).

(** The loop over the levels: what of the depth remains, and the base and the
    quote filled so far. *)
Fixpoint fill_levels (side : list Level) (depth_remaining cumulative_base cumulative_quote : Z) :
    DriftResult (Z * Z * Z) :=
  match side with
  | [] => Ok (depth_remaining, cumulative_base, cumulative_quote)
  | l :: side =>
      let base_delta := Z.min (lv_base_asset_amount l) depth_remaining in
      let! quote_delta := safe_u 128 (lv_price l * base_delta) in
      let! cumulative_base := safe_u 64 (cumulative_base + base_delta) in
      let! depth_remaining := safe_u 64 (depth_remaining - base_delta) in
      let! cumulative_quote := safe_u 128 (cumulative_quote + quote_delta) in
      if depth_remaining =? 0 then Ok (depth_remaining, cumulative_base, cumulative_quote)
      else fill_levels side depth_remaining cumulative_base cumulative_quote
  end.

Definition estimate_price_from_side (side : list Level) (depth : Z) : DriftResult (option Z) :=
  let! '(depth_remaining, cumulative_base, cumulative_quote) := fill_levels side depth 0 0 in
  if depth_remaining =? 0 then
    let! q := safe_udiv cumulative_quote cumulative_base in
    let! p := cast_u 64 q in
    Ok (Some p)
  else Ok None.

Definition get_posted_slot_from_clock_slot (slot : Z) : Z := Z.land slot 255.

Definition calculate_existing_position_fields_for_order_action (base_asset_amount_filled : Z)
    (existing_position_params : option (Z * Z)) : DriftResult (option Z * option Z) :=
  match existing_position_params with
  | None => Ok (None, None)
  | Some (quote_entry_amount, base_asset_amount) =>
      if base_asset_amount =? 0 then Ok (None, None)
      else if base_asset_amount <? base_asset_amount_filled then
        Ok (Some quote_entry_amount, Some base_asset_amount)
      else
        let! p := safe_u 128 (quote_entry_amount * base_asset_amount_filled) in
        let! q := safe_udiv p base_asset_amount in
        let! x := cast_u 64 q in
        Ok (Some x, None)
  end.

(** ** Matching *)

Definition is_maker_for_taker (maker_order taker_order : Order) (slot : Z) : DriftResult bool :=
  if o_post_only taker_order then Ok false
  else
    let! maker_resting := is_resting_limit_order maker_order slot in
    if negb maker_resting then Ok false
    else
      let! taker_resting := is_resting_limit_order taker_order slot in
      if negb taker_resting || o_post_only maker_order then Ok true
      else
        let! m := safe_u 64 (o_slot maker_order + o_auction_duration maker_order) in
        let! t := safe_u 64 (o_slot taker_order + o_auction_duration taker_order) in
        Ok (m <=? t).

Definition are_orders_same_market_but_different_sides (maker_order taker_order : Order) : bool :=
  (o_market_index maker_order =? o_market_index taker_order)
  && bool_decide (o_market_type maker_order = o_market_type taker_order)
  && negb (bool_decide (o_direction maker_order = o_direction taker_order)).

Definition do_orders_cross (maker_direction : PositionDirection) (maker_price taker_price : Z) : bool :=
  match maker_direction with
  | Long => taker_price <=? maker_price
  | Short => maker_price <=? taker_price
  end.

Definition calculate_fill_for_matched_orders (maker_base_asset_amount maker_price taker_base_asset_amount
    base_decimals : Z) (maker_direction : PositionDirection) : DriftResult (Z * Z) :=
  let base_asset_amount := Z.min maker_base_asset_amount taker_base_asset_amount in
  let! quote_asset_amount :=
    calculate_quote_asset_amount_for_maker_order base_asset_amount maker_price base_decimals maker_direction in
  Ok (base_asset_amount, quote_asset_amount).

Definition calculate_filler_multiplier_for_matched_orders (maker_price : Z) (maker_direction : PositionDirection)
    (oracle_price : Z) : DriftResult Z :=
  let! m := cast_i 64 maker_price in
  let! d := safe_i 64 (oracle_price - m) in
  let! p := safe_i 128 (d * BID_ASK_SPREAD_PRECISION) in
  let! q := safe_idiv 128 p oracle_price in
  let! price_pct_diff := cast_i 64 q in
  let! multiplier :=
    match maker_direction with
    | Long => let! n := ichk 64 (- price_pct_diff) in safe_i 64 (n + TEN_BPS * 2)
    | Short => safe_i 64 (price_pct_diff + TEN_BPS * 2)
    end in
  cast_u 64 (Z.min (Z.max multiplier TEN_BPS) (TEN_BPS * 100)).

(** * Rounding *)

Lemma standardize_base_asset_amount_Ok b s r :
  in_u 64 b -> 0 < s -> standardize_base_asset_amount b s = Ok r -> r = s * (b / s).
Proof.
  intros Hb Hs H. unfold standardize_base_asset_amount in H. drift_inv.
  rewrite Z.abs_eq by lia. pose proof (Z.div_mod b s). lia.
Qed.

(** A price is rounded to a multiple of the tick: down for a buyer, up for a
    seller. *)
Definition round_to_tick (price tick : Z) (d : PositionDirection) : Z :=
  match d with Long => tick * (price / tick) | Short => tick * zceil price tick end.

Lemma standardize_price_Ok price tick d r :
  0 <= price -> 0 < tick -> standardize_price price tick d = Ok r -> r = round_to_tick price tick d.
Proof.
  intros Hp Ht H. unfold standardize_price in H. unfold round_to_tick.
  pose proof (Z.div_mod price tick ltac:(lia)) as E. pose proof (Z.mod_pos_bound price tick Ht) as Hm.
  pose proof (zceil_div_mod price tick Ht Hp) as Ec.
  destruct (Z.eqb_spec price 0) as [->|Hp0].
  - injection H as <-. unfold zceil. rewrite Z.div_0_l, (Z.div_small (0 + _)) by lia. by destruct d; rewrite Z.mul_0_r.
  - drift_inv. rewrite Z.abs_eq in * by lia. destruct (Z.eqb_spec (price mod tick) 0) as [Hz|Hz].
    + injection H as <-. rewrite Ec. destruct (Z.ltb_spec 0 (price mod tick)); destruct d; lia.
    + destruct d; drift_inv; [lia|]. rewrite Ec. destruct (Z.ltb_spec 0 (price mod tick)); lia.
Qed.

Lemma round_to_tick_mono p q tick d : 0 < tick -> p <= q -> round_to_tick p tick d <= round_to_tick q tick d.
Proof.
  intros Ht Hpq. destruct d; cbn; apply Z.mul_le_mono_nonneg_l; [lia|by apply Z.div_le_mono|lia|by apply zceil_mono].
Qed.

(** * Auctions *)

(** The price before rounding, for the start and the end of the auction. *)
Definition auction_point (a z n dur : Z) (d : PositionDirection) : Z :=
  match d with Long => a + Z.quot ((z - a) * n) dur | Short => a - Z.quot ((a - z) * n) dur end.

Lemma quot_mono_nonneg t n m dur : 0 <= t -> 0 <= n <= m -> 0 < dur -> Z.quot (t * n) dur <= Z.quot (t * m) dur.
Proof. intros Ht Hn Hd. rewrite !Z.quot_div_nonneg by nia. apply Z.div_le_mono; nia. Qed.

Definition offset_auction (o : Order) : bool :=
  match o_order_type o with
  | TriggerMarket => is_bit_flag_set o OracleTriggerMarket
  | LimitOrder => has_oracle_price_offset o
  | OracleOrder => true
  | MarketOrder | TriggerLimit => false
  end.

(** What the auction of [o] quotes after [n] slots, before rounding. *)
Definition auction_quote (o : Order) (oracle_price tick : Z) (prediction : bool) (n : Z) : Z :=
  let a := o_auction_start_price o in
  let z := o_auction_end_price o in
  let dur := o_auction_duration o in
  let p := if dur =? 0 then z else auction_point a z (Z.min n dur) dur (o_direction o) in
  if offset_auction o then
    let p := Z.max (oracle_price + p) tick in if prediction then Z.min p MAX_PREDICTION_MARKET_PRICE else p
  else p.

(** The auction moves towards the other side: up for a buyer. *)
Definition auction_ordered (o : Order) : Prop :=
  match o_direction o with
  | Long => o_auction_start_price o <= o_auction_end_price o
  | Short => o_auction_end_price o <= o_auction_start_price o
  end.

Lemma offset_price_Ok op x tick pred p :
  0 < tick -> offset_price op x tick pred = Ok p ->
  p = (let y := Z.max (op + x) tick in if pred then Z.min y MAX_PREDICTION_MARKET_PRICE else y) /\ 0 <= p.
Proof.
  intros Ht H. unfold offset_price in H. drift_inv. unfold MAX_PREDICTION_MARKET_PRICE, PRICE_PRECISION_U64.
  destruct pred; cbn; split; lia.
Qed.

Lemma fixed_auction_Ok o slot tick p :
  0 < tick -> 0 <= o_auction_duration o ->
  calculate_auction_price_for_fixed_auction o slot tick = Ok p ->
  o_slot o <= slot /\
  p = round_to_tick (let a := o_auction_start_price o in let z := o_auction_end_price o in
        let dur := o_auction_duration o in
        if dur =? 0 then z else auction_point a z (Z.min (slot - o_slot o) dur) dur (o_direction o))
      tick (o_direction o).
Proof.
  intros Ht Hd H. unfold calculate_auction_price_for_fixed_auction in H.
  apply obind_Ok in H as (n & [-> Hn]%safe_u_Ok & H).
  apply obind_Ok in H as (a & [-> Ha]%cast_u_Ok & H). apply obind_Ok in H as (z & [-> Hz]%cast_u_Ok & H).
  unfold in_u in *. split; [lia|]. cbn zeta. destruct (Z.eqb_spec (o_auction_duration o) 0).
  { apply standardize_price_Ok in H; [done|lia|done]. }
  unfold auction_point. destruct (o_direction o); drift_inv; unfold in_u in *.
  all: apply standardize_price_Ok in H; [|nia|done]; rewrite H; f_equal; rewrite Z.quot_div_nonneg by nia; done.
Qed.

Lemma offset_auction_Ok o slot tick vop pred p :
  0 < tick -> 0 <= o_auction_duration o ->
  calculate_auction_price_for_oracle_offset_auction o slot tick vop pred = Ok p ->
  o_slot o <= slot /\ exists op, vop = Some op /\
  p = round_to_tick (let a := o_auction_start_price o in let z := o_auction_end_price o in
        let dur := o_auction_duration o in
        let x := if dur =? 0 then z else auction_point a z (Z.min (slot - o_slot o) dur) dur (o_direction o) in
        let y := Z.max (op + x) tick in if pred then Z.min y MAX_PREDICTION_MARKET_PRICE else y)
      tick (o_direction o).
Proof.
  intros Ht Hd H. unfold calculate_auction_price_for_oracle_offset_auction in H.
  apply obind_Ok in H as (op & Ho%ok_or_Ok & H). apply obind_Ok in H as (n & [-> Hn]%safe_u_Ok & H).
  unfold in_u in *. split; [lia|]. exists op. split; [done|]. cbn zeta. destruct (Z.eqb_spec (o_auction_duration o) 0).
  { apply obind_Ok in H as (x & [-> Hx]%offset_price_Ok & H); [|done]. by apply standardize_price_Ok in H. }
  unfold auction_point.
  destruct (o_direction o); repeat (apply obind_Ok in H as (? & ? & H)); drift_inv;
    match goal with Ho : offset_price _ _ _ _ = Ok _ |- _ => apply offset_price_Ok in Ho as [-> ?]; [|done] end;
    by apply standardize_price_Ok in H.
Qed.

Lemma auction_price_Ok o slot tick vop pred p :
  0 < tick -> 0 <= o_auction_duration o -> calculate_auction_price o slot tick vop pred = Ok p ->
  o_slot o <= slot /\ (offset_auction o = true -> vop <> None) /\
  p = round_to_tick (auction_quote o (default 0 vop) tick pred (slot - o_slot o)) tick (o_direction o).
Proof.
  intros Ht Hd H. unfold auction_quote. cbn zeta. unfold calculate_auction_price in H.
  assert (calculate_auction_price_for_oracle_offset_auction o slot tick vop pred = Ok p /\ offset_auction o = true
          \/ calculate_auction_price_for_fixed_auction o slot tick = Ok p /\ offset_auction o = false) as Hc.
  { unfold offset_auction. destruct (o_order_type o); auto;
      [destruct (has_oracle_price_offset o)|destruct (is_bit_flag_set o _)]; auto. }
  destruct Hc as [[Hc E]|[Hc E]]; rewrite E.
  - apply offset_auction_Ok in Hc as (Hs & op & -> & ->); [|done..]. done.
  - apply fixed_auction_Ok in Hc as [Hs ->]; [|done..]. done.
Qed.

Lemma auction_quote_mono o op tick pred n m :
  0 <= o_auction_duration o -> auction_ordered o -> 0 <= n <= m ->
  match o_direction o with
  | Long => auction_quote o op tick pred n <= auction_quote o op tick pred m
  | Short => auction_quote o op tick pred m <= auction_quote o op tick pred n
  end.
Proof.
  intros Hd Ho Hn. unfold auction_quote, auction_ordered in *. cbn zeta.
  destruct (Z.eqb_spec (o_auction_duration o) 0); [destruct (o_direction o); lia|].
  unfold auction_point. set (k := Z.min n _). set (l := Z.min m _). assert (0 <= k <= l) as Hk by lia.
  unfold MAX_PREDICTION_MARKET_PRICE, PRICE_PRECISION_U64.
  destruct (o_direction o).
  - pose proof (quot_mono_nonneg (o_auction_end_price o - o_auction_start_price o) k l (o_auction_duration o)
      ltac:(lia) Hk ltac:(lia)). destruct (offset_auction o), pred; lia.
  - pose proof (quot_mono_nonneg (o_auction_start_price o - o_auction_end_price o) k l (o_auction_duration o)
      ltac:(lia) Hk ltac:(lia)). destruct (offset_auction o), pred; lia.
Qed.

(** An auction only ever improves for the other side: with a given oracle
    price, the price of an order in auction never falls from one slot to a
    later one when the order buys, and never rises when it sells - for fixed
    prices and for offsets from the oracle, in ordinary and in prediction
    markets, rounding to the tick included -, and from the auction's last slot
    on it is the end price. *)
Theorem auction_price_monotone o tick vop pred s1 s2 p1 p2 :
  0 < tick -> 0 <= o_auction_duration o -> auction_ordered o -> s1 <= s2 ->
  calculate_auction_price o s1 tick vop pred = Ok p1 -> calculate_auction_price o s2 tick vop pred = Ok p2 ->
  match o_direction o with Long => p1 <= p2 | Short => p2 <= p1 end /\
  (o_slot o + o_auction_duration o <= s1 -> p1 = p2).
Proof.
  intros Ht Hd Ho Hs (H1 & _ & ->)%auction_price_Ok (H2 & _ & ->)%auction_price_Ok; [|done..]. split.
  - pose proof (auction_quote_mono o (default 0 vop) tick pred (s1 - o_slot o) (s2 - o_slot o) Hd Ho ltac:(lia)) as Hm.
    destruct (o_direction o); by apply round_to_tick_mono.
  - intros Hend. f_equal. unfold auction_quote.
    by rewrite (Z.min_r (s1 - _)), (Z.min_r (s2 - _)) by lia.
Qed.

(** * Matching *)

Lemma calculate_fill_price_ok q b B :
  0 < b -> 0 < B <= 10 ^ 9 -> 0 <= q < 2 ^ 64 -> 0 <= q * B / b < 2 ^ 64 ->
  calculate_fill_price q b B = Ok (q * B / b).
Proof.
  intros Hb HB Hq Hx. unfold calculate_fill_price.
  rewrite safe_u_ok by (unfold in_u; nia). cbn [obind]. rewrite safe_udiv_ok by lia. cbn [obind]. by apply cast_u_ok.
Qed.

(** The quote amount of a maker's order, with its rounding. *)
Lemma maker_quote_Ok b p dir q :
  0 <= b -> 0 <= p -> calculate_quote_asset_amount_for_maker_order b p PERP_DECIMALS dir = Ok q ->
  q = (match dir with Long => p * b / BASE_PRECISION | Short => zceil (p * b) BASE_PRECISION end) /\ in_u 64 q.
Proof.
  intros Hb Hp. unfold calculate_quote_asset_amount_for_maker_order.
  change (uchk 128 (10 ^ PERP_DECIMALS)) with (@Ok ErrorCode Z BASE_PRECISION). cbn [obind].
  intros (x & [-> _]%safe_u_Ok & H)%obind_Ok. apply obind_Ok in H as (y & Hy & [-> Hr]%cast_u_Ok). split; [|done].
  destruct dir; [by apply safe_udiv_Ok in Hy as [_ ->]|by apply safe_div_ceil_Ok in Hy].
Qed.

(** Two orders that cross can be filled: the fill of a matched pair takes no
    more than either order offers, and its amounts pass the price check of
    both - the maker's exactly, at its own price, and the taker's with the unit
    of rounding it is allowed -, whichever of them buys, as long as the fill
    makes a position delta. *)
Theorem matched_fill_valid mb mp tb tp dir b q d :
  0 < mb -> 0 < tb -> 0 <= mp < 2 ^ 63 -> 0 <= tp ->
  do_orders_cross dir mp tp = true ->
  calculate_fill_for_matched_orders mb mp tb PERP_DECIMALS dir = Ok (b, q) ->
  get_position_delta_for_fill b q dir = Ok d ->
  b <= mb /\ b <= tb /\
  validate_fill_price q b BASE_PRECISION dir mp false = Ok tt /\
  validate_fill_price q b BASE_PRECISION (opposite dir) tp true = Ok tt.
Proof.
  intros Hmb Htb Hmp Htp Hc H Hd. unfold calculate_fill_for_matched_orders in H.
  apply obind_Ok in H as (q' & Hq & [= <- <-]). set (b := Z.min mb tb) in *.
  assert (0 < b) as Hb by lia. apply maker_quote_Ok in Hq as [Eq Hq]; [|lia..].
  unfold get_position_delta_for_fill in Hd. apply obind_Ok in Hd as (x & [-> Hq63]%cast_i_Ok & Hd).
  apply obind_Ok in Hd as (x & [-> Hb63]%cast_i_Ok & _). unfold in_i, in_u in *.
  split; [lia|]. split; [lia|]. set (B := BASE_PRECISION) in *. assert (B = 10 ^ 9) as EB by reflexivity.
  pose proof (zfloor_bounds (mp * b) B ltac:(lia)) as Hf. pose proof (zceil_bounds (mp * b) B ltac:(lia)) as Hz.
  assert (0 <= zceil (mp * b) B) by (apply zceil_nonneg; nia).
  unfold validate_fill_price. clearbody B b. destruct dir; cbn [opposite]; [rewrite <- Eq in Hf|rewrite <- Eq in Hz];
    unfold do_orders_cross in Hc; zbool.
  - assert (q' * B / b <= mp) as H1 by (apply zfloor_le; nia).
    assert (mp <= (q' + 1) * B / b) as H2 by (apply zfloor_ge; nia).
    assert ((q' + 1) * B / b < 2 ^ 64) as H3 by (apply zfloor_lt; nia).
    assert (0 <= q' * B / b) by (apply Z.div_pos; nia).
    rewrite (calculate_fill_price_ok q' b B) by lia.
    assert (usat 64 (q' + 1) = q' + 1) as -> by (apply usat_id; unfold in_u; lia).
    rewrite (calculate_fill_price_ok (q' + 1) b B) by lia. cbn [obind].
    destruct (Z.ltb_spec mp (q' * B / b)); [lia|]. destruct (Z.ltb_spec ((q' + 1) * B / b) tp); [lia|]. done.
  - assert (mp <= q' * B / b) as H1 by (apply zfloor_ge; nia).
    assert (q' * B / b < 2 ^ 64) as H3 by (apply zfloor_lt; nia).
    assert (usat 64 (q' - 1) * B / b <= mp) as H2.
    { unfold usat. apply zfloor_le; [done|]. destruct (Z.eq_dec q' 0) as [->|]; [cbn; nia|].
      rewrite Z.max_r, Z.min_l by lia. nia. }
    assert (0 <= usat 64 (q' - 1) < 2 ^ 64) as H4 by (apply usat_in; lia).
    assert (0 <= usat 64 (q' - 1) * B / b) by (apply Z.div_pos; nia).
    rewrite (calculate_fill_price_ok q' b B) by lia.
    rewrite (calculate_fill_price_ok (usat 64 (q' - 1)) b B) by lia. cbn [obind].
    destruct (Z.ltb_spec (q' * B / b) mp); [lia|]. destruct (Z.ltb_spec tp (usat 64 (q' - 1) * B / b)); [lia|]. done.
Qed.

(** What a reduce-only order still fills never exceeds what it has left, nor the
    position it reduces, which it never turns around. *)
Lemma reduce_only_unfilled o p u :
  o_reduce_only o = true -> get_base_asset_amount_unfilled o (Some p) = Ok u ->
  0 <= u <= o_base_asset_amount o - o_base_asset_amount_filled o /\
  match o_direction o with
  | Long => u <= Z.max 0 (- p)
  | Short => u <= Z.max 0 p
  end.
Proof.
  intros Hr H. unfold get_base_asset_amount_unfilled in H. rewrite Hr in H. cbn [negb] in H.
  apply obind_Ok in H as (x & [-> Hx]%safe_u_Ok & H). unfold in_u in *.
  destruct (Z.eqb_spec p 0); [injection H as <-; destruct (o_direction o); lia|].
  destruct (o_direction o).
  - destruct (Z.ltb_spec 0 p); injection H as <-; lia.
  - destruct (Z.ltb_spec p 0); injection H as <-; lia.
Qed.

(** ** Orders *)
Section Examples.

(** A purchase auctioned from 100 to 102 dollars over ten slots, with a tick of a
    cent. *)
Definition auctioned_order : Order :=
  default_Order <| o_order_type := MarketOrder |> <| o_auction_start_price := 100000000 |>
    <| o_auction_end_price := 102000000 |> <| o_auction_duration := 10 |> <| o_slot := 50 |>.

Example auction_halfway : calculate_auction_price auctioned_order 55 10000 None false = Ok 101000000.
Proof. vm_compute. reflexivity. Qed.

Lemma auction_price_monotone_witness : 100600000 <= 101400000 /\ calculate_auction_price auctioned_order 53 10000 None false = Ok 100600000.
Proof.
  split; [|vm_compute; reflexivity].
  apply (auction_price_monotone auctioned_order 10000 None false 53 57 100600000 101400000);
    vm_compute; try reflexivity; discriminate.
Defined.

Lemma matched_fill_valid_witness :
  exists q, calculate_fill_for_matched_orders 3000000001 100000001 2000000001 PERP_DECIMALS Short = Ok (2000000001, q) /\
    validate_fill_price q 2000000001 BASE_PRECISION Short 100000001 false = Ok tt /\
    validate_fill_price q 2000000001 BASE_PRECISION Long 100000001 true = Ok tt.
Proof.
  exists 200000003. split; [vm_compute; reflexivity|].
  destruct (matched_fill_valid 3000000001 100000001 2000000001 100000001 Short 2000000001 200000003
              (mkPositionDelta 200000003 (-2000000001))) as (_ & _ & H1 & H2);
    [vm_compute; try split; (reflexivity || discriminate)..|].
  split; [exact H1|exact H2].
Defined.
End Examples.
