(* ===== verification/DriftAmm.v ===== *)
(** The virtual market maker of a perpetual market: reserves, prices and
    averages ([math/amm.rs], [math/quote_asset.rs], the methods of [AMM] and of
    [PerpMarket] in [state/perp_market.rs]), and the state of its oracle
    ([math/oracle.rs]).

    Base and quote reserves lie on the curve [base * quote = sqrt_k ^ 2]; the
    peg turns quote reserves into money.  [MathError] is the error of a checked
    operation, [BnConversionError] that of a 192-bit number that does not fit. *)
From S2P Require Import Prelude.
From S2P Require Import RecordUpdate.
From S2P Require Import DriftError.
From S2P Require Import DriftMath.
From S2P Require Import DriftSpotMarket.
From S2P Require Import DriftSpotBalance.
From S2P Require Import DriftTypes.
From S2P Require Import DriftOracle.
From S2P Require Import DriftOrderMath.

#[export] Instance eta_HistoricalOracleData : Eta HistoricalOracleData := fun r =>
  mkHistoricalOracleData (last_oracle_price r) (last_oracle_conf r) (last_oracle_delay r) (last_oracle_price_twap r)
    (last_oracle_price_twap_5min r) (last_oracle_price_twap_ts r).
#[export] Instance set_last_oracle_price : Setter last_oracle_price := ltac:(setter).
#[export] Instance set_last_oracle_delay : Setter last_oracle_delay := ltac:(setter).
#[export] Instance set_last_oracle_price_twap : Setter last_oracle_price_twap := ltac:(setter).
#[export] Instance set_last_oracle_price_twap_5min : Setter last_oracle_price_twap_5min := ltac:(setter).
#[export] Instance set_last_oracle_price_twap_ts : Setter last_oracle_price_twap_ts := ltac:(setter).

(** [clamp], which panics when the bounds are crossed. *)
Definition clamp {E} (lo hi x : Z) : outcome E Z := if hi <? lo then Panic else Ok (Z.max lo (Z.min x hi)).

(** ** quote_asset.rs *)

Definition reserve_to_asset_amount (quote_asset_reserve peg_multiplier : Z) : DriftResult Z :=
  let! p := safe_u 128 (quote_asset_reserve * peg_multiplier) in
  Ok (p / AMM_TIMES_PEG_TO_QUOTE_PRECISION_RATIO).

Definition asset_to_reserve_amount (quote_asset_amount peg_multiplier : Z) : DriftResult Z :=
  let! p := safe_u 128 (quote_asset_amount * AMM_TIMES_PEG_TO_QUOTE_PRECISION_RATIO) in
  udiv p peg_multiplier.

(** ** Prices *)

Definition calculate_price (quote_asset_reserve base_asset_reserve peg_multiplier : Z) : DriftResult Z :=
  let! peg_quote_asset_amount := safe_u 128 (quote_asset_reserve * peg_multiplier) in
  let! p := safe_u 192 (peg_quote_asset_amount * PRICE_TO_PEG_PRECISION_RATIO) in
  let! q := safe_udiv p base_asset_reserve in
  try_to_u 64 q.

Definition reserve_price (a : AMM) : DriftResult Z :=
  calculate_price (quote_asset_reserve a) (base_asset_reserve a) (peg_multiplier a).

(** A price moved by a spread, in parts of a million. *)
Definition spread_price (reserve_price adjusted_spread : Z) : DriftResult Z :=
  let! multiplier := safe_i 128 (BID_ASK_SPREAD_PRECISION + adjusted_spread) in
  let! multiplier := cast_u 128 multiplier in
  let! p := safe_u 128 (reserve_price * multiplier) in
  let! q := safe_udiv p BID_ASK_SPREAD_PRECISION in
  cast_u 64 q.

Definition bid_price (a : AMM) (reserve_price : Z) : DriftResult Z :=
  let! s := cast_i 32 (short_spread a) in
  let! adjusted_spread := safe_i 32 (- s + reference_price_offset a) in
  spread_price reserve_price adjusted_spread.

Definition ask_price (a : AMM) (reserve_price : Z) : DriftResult Z :=
  let! s := cast_i 32 (long_spread a) in
  let! adjusted_spread := safe_i 32 (s + reference_price_offset a) in
  spread_price reserve_price adjusted_spread.

Definition bid_ask_price (a : AMM) (reserve_price : Z) : DriftResult (Z * Z) :=
  let! b := bid_price a reserve_price in
  let! k := ask_price a reserve_price in
  Ok (b, k).

Definition last_ask_premium (a : AMM) : DriftResult Z :=
  let! r := reserve_price a in
  let! k := ask_price a r in
  let! k := cast_i 64 k in
  safe_i 64 (k - last_oracle_price (amm_historical_oracle_data a)).

Definition last_bid_discount (a : AMM) : DriftResult Z :=
  let! r := reserve_price a in
  let! b := bid_price a r in
  let! b := cast_i 64 b in
  safe_i 64 (last_oracle_price (amm_historical_oracle_data a) - b).

(** ** Bounds of the reserves *)

Definition calculate_bid_ask_bounds (concentration_coef sqrt_k : Z) : DriftResult (Z * Z) :=
  do! validate (CONCENTRATION_PRECISION <? concentration_coef) InvalidConcentrationCoef in
  let! ask_bounded_base := get_proportion_u128 sqrt_k concentration_coef CONCENTRATION_PRECISION in
  let! bid_bounded_base := get_proportion_u128 sqrt_k CONCENTRATION_PRECISION concentration_coef in
  Ok (bid_bounded_base, ask_bounded_base).

(** [-x.cast::<i128>()?]: the cast, then the negation. *)
Definition _calculate_market_open_bids_asks (base min_base max_base : Z) : DriftResult (Z * Z) :=
  let! max_asks :=
    if base <? max_base then
      let! d := safe_u 128 (max_base - base) in
      let! d := cast_i 128 d in Ok (- d)
    else Ok 0 in
  let! max_bids :=
    if min_base <? base then
      let! d := safe_u 128 (base - min_base) in cast_i 128 d
    else Ok 0 in
  Ok (max_bids, max_asks).

Definition calculate_market_open_bids_asks (a : AMM) : DriftResult (Z * Z) :=
  _calculate_market_open_bids_asks (base_asset_reserve a) (min_base_asset_reserve a) (max_base_asset_reserve a).

Definition calculate_amm_available_liquidity (a : AMM) (d : PositionDirection) : DriftResult Z :=
  let! f := udiv (base_asset_reserve a) (max_fill_reserve_fraction a) in
  let! max_fill_size := cast_u 64 (Z.min f (umax 64)) in
  let! max_base_asset_amount_on_side :=
    cast_u 64 match d with
              | Long => usat 128 (base_asset_reserve a - min_base_asset_reserve a) / 2
              | Short => usat 128 (max_base_asset_reserve a - base_asset_reserve a) / 2
              end in
  standardize_base_asset_amount (Z.min max_fill_size max_base_asset_amount_on_side) (order_step_size a).

Definition get_lower_bound_sqrt_k (a : AMM) : Z :=
  Z.min (sqrt_k a) (Z.max (min_order_size a) (Z.abs (base_asset_amount_with_amm a))).

Definition get_protocol_owned_position (a : AMM) : DriftResult Z := cast_i 64 (base_asset_amount_with_amm a).

Definition get_reference_price_offset_deadband_pct (a : AMM) : DriftResult Z :=
  let! p := safe_u 128 (PERCENTAGE_PRECISION * reference_price_offset_deadband_pct a) in
  safe_udiv p 100.

Definition get_max_reference_price_offset (a : AMM) : DriftResult Z :=
  if curve_update_intensity a <=? 100 then Ok 0
  else if 200 <=? curve_update_intensity a then Ok (Z.max (max_spread a / 2) 10000)
  else
    let! lower_bound_multiplier := safe_u 8 (curve_update_intensity a - 100) in
    let! lb_bps := safe_i 64 (PERCENTAGE_PRECISION / 10000 * lower_bound_multiplier) in
    Ok (Z.min (max_spread a / 2) lb_bps).

Definition amm_jit_is_active (a : AMM) : bool := 0 <? amm_jit_intensity a.

Definition amm_wants_to_jit_make (a : AMM) (taker_direction : PositionDirection) : bool :=
  match taker_direction with
  | Long => base_asset_amount_with_amm a <? - order_step_size a
  | Short => order_step_size a <? base_asset_amount_with_amm a
  end && amm_jit_is_active a.

Definition amm_has_low_enough_inventory (a : AMM) (amm_wants_to_jit_make : bool) : DriftResult bool :=
  if amm_wants_to_jit_make then
    let! '(max_bids, max_asks) := calculate_market_open_bids_asks a in
    let! k := ichk 128 (Z.abs max_asks) in
    let! b := ichk 128 (Z.abs (base_asset_amount_with_amm a)) in
    let! t := safe_idiv 128 (Z.min max_bids k) 10 in
    Ok (b <? t)
  else Ok true.

Definition can_lower_k (a : AMM) : DriftResult bool :=
  let! '(max_bids, max_asks) := calculate_market_open_bids_asks a in
  let inventory := Z.abs (base_asset_amount_with_amm a) in
  Ok ((inventory <? Z.min (Z.abs max_bids) (Z.abs max_asks))
      && (Z.max inventory (min_order_size a) <? sqrt_k a)
      && (min_order_size a <? Z.max (Z.abs max_bids) (Z.abs max_asks))).

Definition get_fallback_price (a : AMM) (d : PositionDirection) (amm_available_liquidity oracle_price
    seconds_til_order_expiry : Z) : DriftResult Z :=
  let twap := last_oracle_price_twap (amm_historical_oracle_data a) in
  let wide := let! x := ichk 64 (seconds_til_order_expiry * 20) in Ok (Z.max 100 (Z.min x 200)) in
  let narrow := let! x := ichk 64 (seconds_til_order_expiry * 2) in Ok (Z.max 10 (Z.min x 50)) in
  match d with
  | Long =>
      if min_order_size a <=? amm_available_liquidity then
        let! r := reserve_price a in
        let! k := ask_price a r in
        let! amm_ask_price := cast_i 64 k in
        let! w := wide in
        let! p := safe_i 64 (amm_ask_price + Z.quot amm_ask_price w) in
        cast_u 64 p
      else
        let! t := cast_i 64 (last_ask_price_twap a) in
        let! premium := safe_i 64 (t - twap) in
        let! p := safe_i 64 (oracle_price + Z.max premium 0) in
        let! n := narrow in
        let! p := safe_i 64 (p + Z.quot oracle_price n) in
        cast_u 64 p
  | Short =>
      if min_order_size a <=? amm_available_liquidity then
        let! r := reserve_price a in
        let! b := bid_price a r in
        let! amm_bid_price := cast_i 64 b in
        let! w := wide in
        let! p := safe_i 64 (amm_bid_price - Z.quot amm_bid_price w) in
        cast_u 64 p
      else
        let! t := cast_i 64 (last_bid_price_twap a) in
        let! premium := safe_i 64 (t - twap) in
        let! p := safe_i 64 (oracle_price + Z.min premium 0) in
        let! n := narrow in
        let! p := safe_i 64 (p - Z.quot oracle_price n) in
        cast_u 64 (Z.max p 0)
  end.

(** ** The curve *)

Definition calculate_swap_output (swap_amount input_asset_reserve : Z) (d : SwapDirection) (invariant_sqrt : Z) :
    DriftResult (Z * Z) :=
  let! invariant := safe_u 192 (invariant_sqrt * invariant_sqrt) in
  do! require (negb (bool_decide (d = Remove) && (input_asset_reserve <? swap_amount))) TradeSizeTooLarge in
  let! new_input_asset_reserve :=
    match d with
    | Add => safe_u 128 (input_asset_reserve + swap_amount)
    | Remove => safe_u 128 (input_asset_reserve - swap_amount)
    end in
  let! q := safe_udiv invariant new_input_asset_reserve in
  let! new_output_asset_reserve := try_to_u 128 q in
  Ok (new_output_asset_reserve, new_input_asset_reserve).

(** The change of the quote reserve, and the money it is worth; a unit is added
    to both when base leaves the reserve. *)
Definition reserve_change (before after : Z) (d : SwapDirection) : DriftResult Z :=
  match d with Add => safe_u 128 (before - after) | Remove => safe_u 128 (after - before) end.

Definition calculate_quote_asset_amount_swapped (quote_asset_reserve_before quote_asset_reserve_after : Z)
    (d : SwapDirection) (peg_multiplier : Z) : DriftResult Z :=
  let! change := reserve_change quote_asset_reserve_before quote_asset_reserve_after d in
  let! change := match d with Remove => safe_u 128 (change + 1) | Add => Ok change end in
  let! quote_asset_amount := reserve_to_asset_amount change peg_multiplier in
  match d with Remove => safe_u 128 (quote_asset_amount + 1) | Add => Ok quote_asset_amount end.

(** The reserves when the market maker has closed its position. *)
Definition calculate_terminal_reserves (a : AMM) : DriftResult (Z * Z) :=
  calculate_swap_output (Z.abs (base_asset_amount_with_amm a)) (base_asset_reserve a)
    (if 0 <? base_asset_amount_with_amm a then Add else Remove) (sqrt_k a).

Definition calculate_terminal_price_and_reserves (a : AMM) : DriftResult (Z * Z * Z) :=
  let! '(q, b) := calculate_terminal_reserves a in
  let! p := calculate_price q b (peg_multiplier a) in
  Ok (p, q, b).

(** ** Net positions *)

Definition calculate_net_user_cost_basis (a : AMM) : DriftResult Z :=
  let! x := safe_i 128 (amm_quote_asset_amount a + quote_asset_amount_with_unsettled_lp a) in
  safe_i 128 (x + net_unsettled_funding_pnl a).

Definition calculate_net_user_pnl (a : AMM) (oracle_price : Z) : DriftResult Z :=
  do! validate (0 <? oracle_price) InvalidOracle in
  let! b := safe_i 128 (base_asset_amount_with_amm a + base_asset_amount_with_unsettled_lp a) in
  let! p := safe_i 128 (b * oracle_price) in
  let! net_user_base_asset_value := safe_idiv 128 p PRICE_TIMES_AMM_TO_QUOTE_PRECISION_RATIO in
  let! c := calculate_net_user_cost_basis a in
  safe_i 128 (net_user_base_asset_value + c).

Definition calculate_expiry_price (a : AMM) (target_price total_excess_balance : Z) : DriftResult Z :=
  let! b := ichk 128 (Z.abs (base_asset_amount_with_amm a)) in
  if b <? order_step_size a then Ok target_price
  else
    let! q := safe_i 128 (amm_quote_asset_amount a - total_excess_balance) in
    let! p := safe_i 128 (q * PRICE_TIMES_AMM_TO_QUOTE_PRECISION_RATIO) in
    let! x := safe_idiv 128 p (base_asset_amount_with_amm a) in
    let! x := cast_i 64 x in
    let! best_expiry_price := ichk 64 (- x) in
    Ok (if 0 <=? base_asset_amount_with_amm a then isat 64 (Z.min best_expiry_price target_price - 1)
        else isat 64 (Z.max best_expiry_price target_price + 1)).

(** ** Averages of the mark price *)

Definition update_amm_mark_std (a : AMM) (now p ewma ewma_5min : Z) : DriftResult AMM :=
  let! d := safe_i 64 (now - last_mark_price_twap_ts a) in
  let since_last := Z.max 1 d in
  let! x := cast_i 64 p in
  let! e := cast_i 64 ewma in
  let! d1 := safe_i 64 (x - e) in
  let! e5 := cast_i 64 ewma_5min in
  let! d2 := safe_i 64 (x - e5) in
  let price_change_abs := Z.max (Z.abs d1) (Z.abs d2) in
  let! s := calculate_rolling_sum (mark_std a) price_change_abs (Z.max ONE_HOUR since_last) ONE_HOUR in
  Ok (a <| mark_std := s |>).

Definition update_amm_oracle_std (a : AMM) (now p ewma ewma_5min : Z) : DriftResult AMM :=
  let! d := safe_i 64 (now - last_oracle_price_twap_ts (amm_historical_oracle_data a)) in
  let since_last := Z.max 1 d in
  let! x := cast_i 64 p in
  let! e := cast_i 64 ewma in
  let! d1 := safe_i 64 (x - e) in
  let! a1 := ichk 64 (Z.abs d1) in
  let! e5 := cast_i 64 ewma_5min in
  let! d2 := safe_i 64 (x - e5) in
  let! a2 := ichk 64 (Z.abs d2) in
  let! s := calculate_rolling_sum (oracle_std a) (Z.max a1 a2) (Z.max ONE_HOUR since_last) ONE_HOUR in
  Ok (a <| oracle_std := s |>).

Definition update_amm_long_short_intensity (a : AMM) (now quote_asset_amount : Z) (d : PositionDirection) :
    DriftResult AMM :=
  let! t := safe_i 64 (now - last_trade_ts a) in
  let since_last := Z.max 1 t in
  let '(long_quote_amount, short_quote_amount) :=
    match d with Long => (quote_asset_amount, 0) | Short => (0, quote_asset_amount) end in
  let! l := calculate_rolling_sum (long_intensity_volume a) long_quote_amount since_last ONE_HOUR in
  let! s := calculate_rolling_sum (short_intensity_volume a) short_quote_amount since_last ONE_HOUR in
  Ok (a <| long_intensity_volume := l |> <| short_intensity_volume := s |>).

Definition update_volume_24h (a : AMM) (quote_asset_amount : Z) (d : PositionDirection) (now : Z) : DriftResult AMM :=
  let! t := safe_i 64 (now - last_trade_ts a) in
  let since_last := Z.max 1 t in
  let! a := update_amm_long_short_intensity a now quote_asset_amount d in
  let! v := calculate_rolling_sum (volume_24h a) quote_asset_amount since_last TWENTY_FOUR_HOUR in
  Ok (a <| volume_24h := v |> <| last_trade_ts := now |>).

(** The average of one side, shrunk towards the oracle's average when the
    market's own average is older than a funding period's sixtieth. *)
Definition shrink_to_oracle (a : AMM) (side_twap delayed : Z) : DriftResult Z :=
  let twap := last_oracle_price_twap (amm_historical_oracle_data a) in
  let! f := safe_i 64 (funding_period a - delayed) in
  let from_start_valid := Z.max 0 f in
  let! d := safe_i 64 (twap - side_twap) in
  calculate_weighted_average twap side_twap delayed from_start_valid (Some (Z.sgn d)).

Definition update_mark_twap (a : AMM) (now bid ask : Z) (precomputed_trade_price sanitize_clamp : option Z) :
    DriftResult (AMM * Z) :=
  let! b := cast_i 64 bid in
  let! lb := cast_i 64 (last_bid_price_twap a) in
  let! bid_price_capped_update := sanitize_new_price b lb sanitize_clamp in
  let! k := cast_i 64 ask in
  let! lk := cast_i 64 (last_ask_price_twap a) in
  let! ask_price_capped_update := sanitize_new_price k lk sanitize_clamp in
  do! validate (bid_price_capped_update <=? ask_price_capped_update) InvalidMarkTwapUpdateDetected in
  let! delayed := safe_i 64 (last_oracle_price_twap_ts (amm_historical_oracle_data a) - last_mark_price_twap_ts a) in
  let! sixtieth := safe_idiv 64 (funding_period a) 60 in
  let! '(last_bid, last_ask) :=
    if Z.max sixtieth ONE_MINUTE <? delayed then
      let! x := shrink_to_oracle a lb delayed in
      let! y := shrink_to_oracle a lk delayed in
      Ok (x, y)
    else Ok (lb, lk) in
  let! bid_twap := calculate_new_twap bid_price_capped_update now last_bid (last_mark_price_twap_ts a) (funding_period a) in
  let! bt := cast_u 64 bid_twap in
  let a := a <| last_bid_price_twap := bt |> in
  let! ask_twap := calculate_new_twap ask_price_capped_update now last_ask (last_mark_price_twap_ts a) (funding_period a) in
  let! kt := cast_u 64 ask_twap in
  let a := a <| last_ask_price_twap := kt |> in
  let! s := safe_i 64 (bid_twap + ask_twap) in
  let mid_twap := Z.quot s 2 in
  let! trade_price :=
    match precomputed_trade_price with
    | Some p => Ok p
    | None => let! s := safe_u 64 (bid + ask) in safe_udiv s 2
    end in
  let! a := update_amm_mark_std a now trade_price (last_mark_price_twap a) (last_mark_price_twap_5min a) in
  let! mt := cast_u 64 mid_twap in
  let a := a <| last_mark_price_twap := mt |> in
  let! s := safe_i 64 (bid_price_capped_update + ask_price_capped_update) in
  let! h := safe_idiv 64 s 2 in
  let! l5 := cast_i 64 (last_mark_price_twap_5min a) in
  let! t5 := calculate_new_twap h now l5 (last_mark_price_twap_ts a) FIVE_MINUTE in
  let! t5 := cast_u 64 t5 in
  let a := a <| last_mark_price_twap_5min := t5 |> in
  let a := a <| last_mark_price_twap_ts := now |> in
  let! m := cast_u 64 mid_twap in
  Ok (a, m).

Definition update_mark_twap_crank (a : AMM) (now : Z) (d : OraclePriceData) (best_dlob_bid_price best_dlob_ask_price
    sanitize_clamp : option Z) : DriftResult AMM :=
  let! amm_reserve_price := reserve_price a in
  let! '(amm_bid_price, amm_ask_price) := bid_ask_price a amm_reserve_price in
  let best_bid_price := match best_dlob_bid_price with Some p => Z.max p amm_bid_price | None => amm_bid_price end in
  let best_ask_price := match best_dlob_ask_price with Some p => Z.min p amm_ask_price | None => amm_ask_price end in
  let! '(best_bid_price, best_ask_price) :=
    if best_ask_price <? best_bid_price then
      let! m := cast_i 64 (last_mark_price_twap_5min a) in
      let! basis := safe_i 64 (m - last_oracle_price_twap_5min (amm_historical_oracle_data a)) in
      let! n := ichk 64 (- price d) in
      let! market_basis := clamp (Z.quot n 100) (Z.quot (price d) 100) basis in
      let! p := safe_i 64 (price d + market_basis) in
      let! p := cast_u 64 p in
      if p <=? best_bid_price then Ok (best_ask_price, best_ask_price) else Ok (best_bid_price, best_bid_price)
    else Ok (best_bid_price, best_ask_price) in
  let! '(a, _) := update_mark_twap a now best_bid_price best_ask_price None sanitize_clamp in
  Ok a.

Definition estimate_best_bid_ask_price (a : AMM) (precomputed_trade_price : option Z) (d : option PositionDirection) :
    DriftResult (Z * Z) :=
  let oracle := last_oracle_price (amm_historical_oracle_data a) in
  let! last_oracle_price_u64 := cast_u 64 oracle in
  let trade_price := default last_oracle_price_u64 precomputed_trade_price in
  let! t := cast_i 64 trade_price in
  let! trade_premium := safe_i 64 (t - oracle) in
  do! validate (0 <? oracle) InvalidOracle in
  let! amm_reserve_price := reserve_price a in
  let! '(amm_bid_price, amm_ask_price) := bid_ask_price a amm_reserve_price in
  let best_bid_estimate :=
    Z.max
      (if 0 <? trade_premium then
         let discount := Z.min (base_spread a) (short_spread a / 2) in
         Z.max (usat 64 (last_oracle_price_u64 - Z.min discount (Z.abs trade_premium))) (order_tick_size a)
       else trade_price) amm_bid_price in
  let! best_ask_estimate :=
    if trade_premium <? 0 then
      let premium := Z.min (base_spread a) (long_spread a / 2) in
      safe_u 64 (last_oracle_price_u64 + Z.min premium (Z.abs trade_premium))
    else Ok trade_price in
  let best_ask_estimate := Z.min best_ask_estimate amm_ask_price in
  let '(bid, ask) :=
    match d with
    | Some Long => (best_bid_estimate, Z.max trade_price best_bid_estimate)
    | Some Short => (Z.min trade_price best_ask_estimate, best_ask_estimate)
    | None =>
        (Z.min (Z.max trade_price amm_bid_price) amm_ask_price, Z.min (Z.max trade_price amm_bid_price) amm_ask_price)
    end in
  do! validate (bid <=? ask) InvalidMarkTwapUpdateDetected in
  Ok (bid, ask).

Definition update_mark_twap_from_estimates (a : AMM) (now : Z) (precomputed_trade_price : option Z)
    (d : option PositionDirection) (sanitize_clamp : option Z) : DriftResult (AMM * Z) :=
  let! '(bid, ask) := estimate_best_bid_ask_price a precomputed_trade_price d in
  update_mark_twap a now bid ask precomputed_trade_price sanitize_clamp.

(** ** Averages of the oracle's price *)

(** The oracle's price, moved towards the curve's by at most its confidence. *)
Definition normalise_oracle_price (a : AMM) (d : OraclePriceData) (precomputed_reserve_price : option Z) :
    DriftResult Z :=
  let oracle_price := price d in
  let! r := match precomputed_reserve_price with Some r => Ok r | None => reserve_price a end in
  let! r := cast_i 64 r in
  let! reserve_price_2p5_bps := safe_idiv 64 r 4000 in
  let! conf_int := cast_i 64 (confidence d) in
  if oracle_price <? r then
    let! x := safe_i 64 (r - reserve_price_2p5_bps) in
    let! y := safe_i 64 (oracle_price + conf_int) in
    Ok (Z.min (Z.max x oracle_price) y)
  else
    let! x := safe_i 64 (r + reserve_price_2p5_bps) in
    let! y := safe_i 64 (oracle_price - conf_int) in
    Ok (Z.max (Z.min x oracle_price) y).

Inductive TwapPeriod : Set := FundingPeriod | FiveMin.

Definition calculate_new_oracle_price_twap (a : AMM) (now oracle_price : Z) (t : TwapPeriod) : DriftResult Z :=
  let h := amm_historical_oracle_data a in
  let '(last_mark_twap, last_oracle_twap, period) :=
    match t with
    | FundingPeriod => (last_mark_price_twap a, last_oracle_price_twap h, funding_period a)
    | FiveMin => (last_mark_price_twap_5min a, last_oracle_price_twap_5min h, FIVE_MINUTE)
    end in
  let! d := safe_i 64 (now - last_oracle_price_twap_ts h) in
  let since_last := Z.max (if period =? 0 then 1 else 0) d in
  let! f := safe_i 64 (period - since_last) in
  let from_start := Z.max 0 f in
  let! interpolated_oracle_price :=
    if last_oracle_price_twap_ts h <? last_mark_price_twap_ts a then
      let! since_last_valid := safe_i 64 (last_mark_price_twap_ts a - last_oracle_price_twap_ts h) in
      let! f := safe_i 64 (period - since_last_valid) in
      let! m := cast_i 64 last_mark_twap in
      calculate_weighted_average m oracle_price since_last_valid (Z.max 1 f) None
    else Ok oracle_price in
  calculate_weighted_average interpolated_oracle_price last_oracle_twap since_last from_start None.

Definition get_new_oracle_conf_pct (a : AMM) (conf r now : Z) : DriftResult Z :=
  let! d := safe_i 64 (now - last_oracle_price_twap_ts (amm_historical_oracle_data a)) in
  let since_last := Z.max d 0 in
  let! confidence_lower_bound :=
    if 0 <? since_last then
      let confidence_divisor := Z.max (usat 64 (21 - since_last)) 5 in
      safe_u 64 (last_oracle_conf_pct a - last_oracle_conf_pct a / confidence_divisor)
    else Ok (last_oracle_conf_pct a) in
  let! p := safe_u 64 (conf * BID_ASK_SPREAD_PRECISION) in
  let! q := safe_udiv p r in
  Ok (Z.max q confidence_lower_bound).

Definition calculate_oracle_reserve_price_spread (a : AMM) (m : MMOraclePriceData) (precomputed : option Z) :
    DriftResult (Z * Z) :=
  let! r := match precomputed with Some r => Ok r | None => reserve_price a end in
  let! r := cast_i 64 r in
  let! price_spread := safe_i 64 (r - mm_get_price m) in
  Ok (mm_get_price m, price_spread).

Definition calculate_oracle_reserve_price_spread_pct (a : AMM) (m : MMOraclePriceData) (precomputed : option Z) :
    DriftResult Z :=
  let! r := match precomputed with Some r => Ok r | None => reserve_price a end in
  let! '(_, price_spread) := calculate_oracle_reserve_price_spread a m (Some r) in
  let! p := safe_i 128 (price_spread * BID_ASK_SPREAD_PRECISION) in
  let! q := safe_idiv 128 p r in
  cast_i 64 q.

Definition calculate_oracle_twap_5min_price_spread_pct (a : AMM) (other_price : Z) : DriftResult Z :=
  let! o := cast_i 64 other_price in
  let! price_spread := safe_i 64 (o - last_oracle_price_twap_5min (amm_historical_oracle_data a)) in
  let! p := safe_i 128 (price_spread * BID_ASK_SPREAD_PRECISION) in
  let! q := safe_idiv 128 p other_price in
  cast_i 64 q.

Definition is_oracle_mark_too_divergent (price_spread_pct : Z) (g : PriceDivergenceGuardRails) : bool :=
  Z.max (mark_oracle_percent_divergence g) (PERCENTAGE_PRECISION / 10) <? Z.abs price_spread_pct.

Definition update_oracle_price_twap (a : AMM) (now : Z) (m : MMOraclePriceData) (precomputed_reserve_price
    sanitize_clamp : option Z) : DriftResult (AMM * Z) :=
  let! r := match precomputed_reserve_price with Some r => Ok r | None => reserve_price a end in
  let oracle_confidence := mm_get_confidence m in
  let exchange := exchange_oracle_price_data m in
  let! oracle_price := normalise_oracle_price a exchange (Some r) in
  let h := amm_historical_oracle_data a in
  let! capped := sanitize_new_price oracle_price (last_oracle_price_twap h) sanitize_clamp in
  if (0 <? capped) && (0 <? oracle_price) then
    let! oracle_price_twap := calculate_new_oracle_price_twap a now capped FundingPeriod in
    let! oracle_price_twap_5min := calculate_new_oracle_price_twap a now capped FiveMin in
    let a := a <| last_oracle_normalised_price := capped |> in
    let a := a <| amm_historical_oracle_data ; last_oracle_price := price exchange |> in
    let! c := get_new_oracle_conf_pct a oracle_confidence r now in
    let a := a <| last_oracle_conf_pct := c |> in
    let a := a <| amm_historical_oracle_data ; last_oracle_delay := delay exchange |> in
    let! s := calculate_oracle_reserve_price_spread_pct a m (Some r) in
    let a := a <| last_oracle_reserve_price_spread_pct := s |> in
    let! p := cast_u 64 oracle_price in
    let! t := cast_u 64 (last_oracle_price_twap h) in
    let! t5 := cast_u 64 (last_oracle_price_twap_5min h) in
    let! a := update_amm_oracle_std a now p t t5 in
    let a := a <| amm_historical_oracle_data ; last_oracle_price_twap_5min := oracle_price_twap_5min |> in
    let a := a <| amm_historical_oracle_data ; last_oracle_price_twap := oracle_price_twap |> in
    let a := a <| amm_historical_oracle_data ; last_oracle_price_twap_ts := now |> in
    Ok (a, oracle_price_twap)
  else Ok (a, last_oracle_price_twap h).

(** ** The market's oracle *)

Inductive PerpOperation : Set :=
| OpUpdateFunding | OpAmmFill | OpFill | OpSettlePnl | OpSettlePnlWithPosition | OpLiquidation | OpAmmImmediateFill
| OpSettleRevPool.
Definition perp_operation_bit (o : PerpOperation) : Z :=
  match o with
  | OpUpdateFunding => 1 | OpAmmFill => 2 | OpFill => 4 | OpSettlePnl => 8 | OpSettlePnlWithPosition => 16
  | OpLiquidation => 32 | OpAmmImmediateFill => 64 | OpSettleRevPool => 128
  end.
Definition is_operation_paused (m : PerpMarket) (o : PerpOperation) : bool :=
  negb (Z.land (pm_paused_operations m) (perp_operation_bit o) =? 0).

Definition get_max_confidence_interval_multiplier (m : PerpMarket) : Z :=
  match contract_tier m with
  | TierA | TierB => 1 | TierC => 2 | Speculative => 10 | HighlySpeculative | TierIsolated => 50
  end.

Definition perp_sanitize_clamp_denominator (m : PerpMarket) : option Z :=
  match contract_tier m with TierA => Some 10 | TierB => Some 5 | TierC => Some 2 | _ => None end.

Record OracleStatus := mkOracleStatus {
  os_price_data : OraclePriceData;
  os_spread_pct : Z;
  os_mark_too_divergent : bool;
  os_validity : OracleValidity;
}.

Definition get_oracle_status (m : PerpMarket) (d : OraclePriceData) (g : OracleGuardRails) (r : Z) :
    DriftResult OracleStatus :=
  let a := amm m in
  let! slot_delay_override := cast_i 8 (slots_before_stale_for_amm (validity g)) in
  let! v := oracle_validity (last_oracle_price_twap (amm_historical_oracle_data a)) d (validity g)
              (get_max_confidence_interval_multiplier m) (oracle_source a) slot_delay_override slot_delay_override in
  let! pct := calculate_oracle_twap_5min_price_spread_pct a r in
  Ok (mkOracleStatus d pct (is_oracle_mark_too_divergent pct (price_divergence g)) v).

Definition block_operation (m : PerpMarket) (d : OraclePriceData) (g : OracleGuardRails) (r slot : Z) :
    DriftResult bool :=
  let! s := get_oracle_status m d g r in
  let slots_since_amm_update := usat 64 (slot - last_update_slot (amm m)) in
  let! period := cast_u 64 (funding_period (amm m)) in
  Ok ((period <? slots_since_amm_update) || negb (is_oracle_valid_for_action (os_validity s) (Some UpdateFunding))
      || os_mark_too_divergent s || is_operation_paused m OpUpdateFunding).

Definition is_recent_oracle_valid (a : AMM) (current_slot : Z) : bool :=
  last_oracle_valid a && (current_slot =? last_update_slot a).

Definition update_mm_oracle_info (a : AMM) (p slot : Z) : AMM :=
  a <| mm_oracle_price := p |> <| mm_oracle_slot := slot |>.

Definition get_mm_oracle_price_data (m : PerpMarket) (d : OraclePriceData) (clock_slot : Z) (g : ValidityGuardRails) :
    DriftResult MMOraclePriceData :=
  let a := amm m in
  let! c := cast_i 64 clock_slot in
  let! s := cast_i 64 (mm_oracle_slot a) in
  let! delay := safe_i 64 (c - s) in
  let oracle_data := mkOraclePriceData (mm_oracle_price a) (confidence d) delay true None in
  let! v :=
    if mm_oracle_price a =? 0 then Ok NonPositive
    else oracle_validity (last_oracle_price_twap (amm_historical_oracle_data a)) oracle_data g
           (get_max_confidence_interval_multiplier m) (oracle_source a) (oracle_slot_delay_override a)
           (oracle_low_risk_slot_delay_override a) in
  mm_oracle_new (mm_oracle_price a) delay (mm_oracle_sequence_id a) v d.
