(* ===== verification/DriftSpread.v ===== *)
(** The spread of the virtual market maker and the swaps against it:
    [math/amm_spread.rs], the swap and the spread updates of
    [controller/amm.rs], the bounds of a prediction market in
    [state/perp_market.rs].

    Buyers trade against the ask reserves, sellers against the bid reserves; both
    move the reserves of the curve itself; [DriftMarketMaker] shows that the market
    maker keeps the value of its position. *)
From S2P Require Import Prelude.
From S2P Require Import RecordUpdate.
From S2P Require Import DriftError.
From S2P Require Import DriftMath.
From S2P Require Import DriftSpotMarket.
From S2P Require Import DriftSpotBalance.
From S2P Require Import DriftTypes.
From S2P Require Import DriftOracle.
From S2P Require Import DriftOrderMath.
From S2P Require Import DriftAmm.

(** The integer roots the source takes from its dependencies: [integer_sqrt] of
    the wide integers and [nth_root(2)] of [num_integer]. *)
Class Roots := {
  integer_sqrt : Z -> Z;
  nth_root_2 : Z -> Z;
}.

(** ** Spreads *)

Definition cap_to_max_spread (long_spread short_spread max_spread : Z) : DriftResult (Z * Z) :=
  let! total_spread := safe_u 64 (long_spread + short_spread) in
  let! '(long_spread, short_spread) :=
    if max_spread <? total_spread then
      if short_spread <? long_spread then
        let! l := safe_div_ceil 64 (usat 64 (long_spread * max_spread)) total_spread in
        let! s := safe_u 64 (max_spread - l) in
        Ok (l, s)
      else
        let! s := safe_div_ceil 64 (usat 64 (short_spread * max_spread)) total_spread in
        let! l := safe_u 64 (max_spread - s) in
        Ok (l, s)
    else Ok (long_spread, short_spread) in
  let! new_total_spread := safe_u 64 (long_spread + short_spread) in
  do! validate (new_total_spread <=? max_spread) InvalidAmmMaxSpreadDetected in
  Ok (long_spread, short_spread).

(** The part of the volatility spread one side takes, by its volume. *)
Definition vol_spread_factor (intensity_volume volume_24h : Z) : DriftResult Z :=
  let! p := safe_u 128 (intensity_volume * PERCENTAGE_PRECISION) in
  let! q := safe_udiv p (Z.max volume_24h 1) in
  clamp (PERCENTAGE_PRECISION / 100) PERCENTAGE_PRECISION q.

Definition calculate_long_short_vol_spread (last_oracle_conf_pct reserve_price mark_std oracle_std
    long_intensity_volume short_intensity_volume volume_24h : Z) : DriftResult (Z * Z) :=
  let! std := safe_u 64 (oracle_std + mark_std) in
  let! p := safe_u 128 (std * PERCENTAGE_PRECISION) in
  let! q := safe_udiv p reserve_price in
  let! market_avg_std_pct := safe_udiv q 2 in
  let! quarter := safe_udiv market_avg_std_pct 4 in
  let vol_spread := Z.max last_oracle_conf_pct quarter in
  let! long_factor := vol_spread_factor long_intensity_volume volume_24h in
  let! short_factor := vol_spread_factor short_intensity_volume volume_24h in
  let! conf_component :=
    if PERCENTAGE_PRECISION / 400 <? last_oracle_conf_pct then Ok last_oracle_conf_pct
    else safe_udiv last_oracle_conf_pct 20 in
  let scaled factor :=
    let! x := safe_u 128 (vol_spread * factor) in
    let! y := safe_udiv x PERCENTAGE_PRECISION in
    cast_u 64 y in
  let! l := scaled long_factor in
  let! s := scaled short_factor in
  Ok (Z.max conf_component l, Z.max conf_component s).

(** The share of the liquidity the inventory has taken; [liquidity] is the
    smaller side's, or the average of both. *)
Definition inventory_pct (base_asset_amount_with_amm liquidity : Z) : DriftResult Z :=
  let! inventory := ichk 128 (Z.abs base_asset_amount_with_amm) in
  if inventory <? liquidity then
    let scaled := match icheck 128 (inventory * PERCENTAGE_PRECISION_I128) with Some x => x | None => 2 ^ 127 - 1 end in
    let! q := safe_idiv 128 scaled (Z.max liquidity 1) in
    Ok (Z.min q PERCENTAGE_PRECISION_I128)
  else Ok PERCENTAGE_PRECISION_I128.

Definition calculate_inventory_liquidity_ratio (base_asset_amount_with_amm base min_base max_base : Z) :
    DriftResult Z :=
  let! '(max_bids, max_asks) := _calculate_market_open_bids_asks base min_base max_base in
  inventory_pct base_asset_amount_with_amm (Z.min max_bids (Z.abs max_asks)).

Definition calculate_inventory_liquidity_ratio_for_reference_price_offset
    (base_asset_amount_with_amm base min_base max_base : Z) : DriftResult Z :=
  let! '(max_bids, max_asks) := _calculate_market_open_bids_asks base min_base max_base in
  let! s := safe_i 128 (max_bids + Z.abs max_asks) in
  let! avg_liquidity := safe_idiv 128 s 2 in
  inventory_pct base_asset_amount_with_amm avg_liquidity.

Definition calculate_spread_inventory_scale (base_asset_amount_with_amm base min_base max_base
    directional_spread max_spread : Z) : DriftResult Z :=
  if base_asset_amount_with_amm =? 0 then Ok BID_ASK_SPREAD_PRECISION
  else
    let! amm_inventory_pct := calculate_inventory_liquidity_ratio base_asset_amount_with_amm base min_base max_base in
    let! p := safe_u 64 (max_spread * BID_ASK_SPREAD_PRECISION) in
    let! q := safe_udiv p (Z.max directional_spread 1) in
    let inventory_scale_max := Z.max MAX_BID_ASK_INVENTORY_SKEW_FACTOR q in
    let! pct := cast_u 64 (Z.abs amm_inventory_pct) in
    let scaled := match ucheck 64 (inventory_scale_max * pct) with Some x => x | None => umax 64 end in
    let! part := safe_udiv scaled PERCENTAGE_PRECISION_I128 in
    let scale := match ucheck 64 (BID_ASK_SPREAD_PRECISION + part) with Some x => x | None => umax 64 end in
    Ok (Z.min inventory_scale_max scale).

Definition calculate_spread_leverage_scale (quote_asset_reserve terminal_quote_asset_reserve peg_multiplier
    base_asset_amount_with_amm reserve_price total_fee_minus_distributions : Z) : DriftResult Z :=
  let! q := cast_i 128 quote_asset_reserve in
  let! t := cast_i 128 terminal_quote_asset_reserve in
  let! d := safe_i 128 (q - t) in
  let! peg := cast_i 128 peg_multiplier in
  let! p := safe_i 128 (d * peg) in
  let! net_base_asset_value := safe_idiv 128 p AMM_TIMES_PEG_TO_QUOTE_PRECISION_RATIO in
  let! p := safe_i 128 (base_asset_amount_with_amm * reserve_price) in
  let! local_base_asset_value := safe_idiv 128 p (AMM_TO_QUOTE_PRECISION_RATIO * PRICE_PRECISION_I128) in
  let! e := safe_i 128 (local_base_asset_value - net_base_asset_value) in
  let! p := safe_i 128 (Z.max 0 e * BID_ASK_SPREAD_PRECISION) in
  let! fee := ichk 128 (Z.max 0 total_fee_minus_distributions + 1) in
  let! effective_leverage := safe_idiv 128 p fee in
  let! x := cast_u 64 (Z.max 0 effective_leverage) in
  let! x := uchk 64 (x + 1) in
  let! scale := safe_u 64 (BID_ASK_SPREAD_PRECISION + x) in
  Ok (Z.min MAX_BID_ASK_INVENTORY_SKEW_FACTOR scale).

Definition calculate_spread_revenue_retreat_amount (base_spread max_spread net_revenue_since_last_funding : Z) :
    DriftResult Z :=
  if net_revenue_since_last_funding <? DEFAULT_REVENUE_SINCE_LAST_FUNDING_SPREAD_RETREAT then
    let! max_retreat := safe_udiv max_spread 10 in
    if DEFAULT_REVENUE_SINCE_LAST_FUNDING_SPREAD_RETREAT * 1000 <=? net_revenue_since_last_funding then
      let! p := safe_u 64 (base_spread * Z.abs net_revenue_since_last_funding) in
      let! q := safe_udiv p (Z.abs DEFAULT_REVENUE_SINCE_LAST_FUNDING_SPREAD_RETREAT) in
      Ok (Z.min max_retreat q)
    else Ok max_retreat
  else Ok 0.

Definition calculate_max_target_spread (reserve_price last_oracle_reserve_price_spread_pct last_oracle_conf_pct
    mark_std oracle_std max_spread : Z) : DriftResult Z :=
  let! twice := safe_u 64 (last_oracle_conf_pct * 2) in
  let! p := safe_u 64 (Z.max mark_std oracle_std * PERCENTAGE_PRECISION) in
  let! q := safe_udiv p reserve_price in
  let max_spread_baseline :=
    Z.max (Z.abs last_oracle_reserve_price_spread_pct) (Z.min (Z.max twice q) BID_ASK_SPREAD_PRECISION) in
  Ok (Z.max max_spread max_spread_baseline).

(** A spread lowered or raised by a hundredth times [adjustment]. *)
Definition lowered (w spread adjustment : Z) : DriftResult Z :=
  let! q := safe_udiv (usat w (spread * adjustment)) 100 in
  Ok (Z.max (usat w (spread - q)) 1).
Definition raised (w spread adjustment : Z) : DriftResult Z :=
  let! q := safe_div_ceil w (usat w (spread * adjustment)) 100 in
  Ok (Z.max (usat w (spread + q)) 1).

(** The spread of the side the inventory leans to, scaled. *)
Definition scale_side (base_asset_amount_with_amm scale : Z) (spreads : Z * Z) : DriftResult (Z * Z) :=
  let '(long_spread, short_spread) := spreads in
  if 0 <? base_asset_amount_with_amm then
    let! p := safe_u 64 (long_spread * scale) in
    let! l := safe_udiv p BID_ASK_SPREAD_PRECISION in
    Ok (l, short_spread)
  else if base_asset_amount_with_amm <? 0 then
    let! p := safe_u 64 (short_spread * scale) in
    let! s := safe_udiv p BID_ASK_SPREAD_PRECISION in
    Ok (long_spread, s)
  else Ok (long_spread, short_spread).

(** The inputs of [calculate_spread], which takes them one by one. *)
Record SpreadInputs := mkSpreadInputs {
  in_base_spread : Z;
  in_spread_pct : Z;
  in_conf_pct : Z;
  in_max_spread : Z;
  in_quote_asset_reserve : Z;
  in_terminal_quote_asset_reserve : Z;
  in_peg_multiplier : Z;
  in_base_asset_amount_with_amm : Z;
  in_reserve_price : Z;
  in_total_fee_minus_distributions : Z;
  in_net_revenue_since_last_funding : Z;
  in_base_asset_reserve : Z;
  in_min_base_asset_reserve : Z;
  in_max_base_asset_reserve : Z;
  in_mark_std : Z;
  in_oracle_std : Z;
  in_long_intensity_volume : Z;
  in_short_intensity_volume : Z;
  in_volume_24h : Z;
  in_amm_inventory_spread_adjustment : Z;
}.

(** The spreads before the cap: volatility and oracle, then inventory, then
    leverage or the large factor, then the retreat on losses, then the
    administrator's adjustment. *)
Definition oracle_retreat (i : SpreadInputs) (long_vol short_vol : Z) : DriftResult (Z * Z) :=
  let half := in_base_spread i / 2 in
  let long_spread := Z.max half long_vol in
  let short_spread := Z.max half short_vol in
  if in_spread_pct i <? 0 then
    let! x := safe_u 64 (Z.abs (in_spread_pct i) + long_vol) in
    Ok (Z.max long_spread x, short_spread)
  else if 0 <? in_spread_pct i then
    let! x := safe_u 64 (Z.abs (in_spread_pct i) + short_vol) in
    Ok (long_spread, Z.max short_spread x)
  else Ok (long_spread, short_spread).

Definition leverage_spreads (i : SpreadInputs) (spreads : Z * Z) : DriftResult (Z * Z) :=
  let '(long_spread, short_spread) := spreads in
  if in_total_fee_minus_distributions i <=? 0 then
    let! l := safe_udiv (usat 64 (long_spread * DEFAULT_LARGE_BID_ASK_FACTOR)) BID_ASK_SPREAD_PRECISION in
    let! s := safe_udiv (usat 64 (short_spread * DEFAULT_LARGE_BID_ASK_FACTOR)) BID_ASK_SPREAD_PRECISION in
    Ok (l, s)
  else
    let! scale := calculate_spread_leverage_scale (in_quote_asset_reserve i) (in_terminal_quote_asset_reserve i)
                    (in_peg_multiplier i) (in_base_asset_amount_with_amm i) (in_reserve_price i)
                    (in_total_fee_minus_distributions i) in
    scale_side (in_base_asset_amount_with_amm i) scale spreads.

Definition revenue_retreat (i : SpreadInputs) (max_target_spread : Z) (spreads : Z * Z) : DriftResult (Z * Z) :=
  let '(long_spread, short_spread) := spreads in
  let! retreat := calculate_spread_revenue_retreat_amount (in_base_spread i) max_target_spread
                    (in_net_revenue_since_last_funding i) in
  if negb (retreat =? 0) then
    let! half := safe_udiv retreat 2 in
    let inventory := in_base_asset_amount_with_amm i in
    let! l := safe_u 64 (long_spread + (if 0 <? inventory then retreat else half)) in
    let! s := safe_u 64 (short_spread + (if inventory <? 0 then retreat else half)) in
    Ok (l, s)
  else Ok spreads.

Definition adjust_spreads (i : SpreadInputs) (long_vol short_vol : Z) (spreads : Z * Z) : DriftResult (Z * Z) :=
  let '(long_spread, short_spread) := spreads in
  let half := in_base_spread i / 2 in
  let adjustment := in_amm_inventory_spread_adjustment i in
  if adjustment <? 0 then
    let! l := lowered 64 long_spread (- adjustment) in
    let! s := lowered 64 short_spread (- adjustment) in
    Ok (Z.max (Z.max half long_vol) l, Z.max (Z.max half short_vol) s)
  else if 0 <? adjustment then
    let! l := raised 64 long_spread adjustment in
    let! s := raised 64 short_spread adjustment in
    Ok (Z.max (Z.max half long_vol) l, Z.max (Z.max half short_vol) s)
  else Ok spreads.

Definition calculate_spread (i : SpreadInputs) : DriftResult (Z * Z) :=
  let! '(long_vol, short_vol) :=
    calculate_long_short_vol_spread (in_conf_pct i) (in_reserve_price i) (in_mark_std i) (in_oracle_std i)
      (in_long_intensity_volume i) (in_short_intensity_volume i) (in_volume_24h i) in
  let! max_target_spread :=
    calculate_max_target_spread (in_reserve_price i) (in_spread_pct i) (in_conf_pct i) (in_mark_std i)
      (in_oracle_std i) (in_max_spread i) in
  let! '(long_spread, short_spread) := oracle_retreat i long_vol short_vol in
  let inventory := in_base_asset_amount_with_amm i in
  let! scale :=
    calculate_spread_inventory_scale inventory (in_base_asset_reserve i) (in_min_base_asset_reserve i)
      (in_max_base_asset_reserve i) (if 0 <? inventory then long_spread else short_spread) max_target_spread in
  let! spreads := scale_side inventory scale (long_spread, short_spread) in
  let! spreads := leverage_spreads i spreads in
  let! spreads := revenue_retreat i max_target_spread spreads in
  let! '(long_spread, short_spread) := adjust_spreads i long_vol short_vol spreads in
  let! '(long_spread, short_spread) := cap_to_max_spread long_spread short_spread max_target_spread in
  let! l := cast_u 32 long_spread in
  let! s := cast_u 32 short_spread in
  Ok (l, s).

(** The inputs [update_spreads] reads from the market. *)
Definition spread_inputs (a : AMM) (reserve_price : Z) : SpreadInputs :=
  mkSpreadInputs (base_spread a) (last_oracle_reserve_price_spread_pct a) (last_oracle_conf_pct a) (max_spread a)
    (quote_asset_reserve a) (terminal_quote_asset_reserve a) (peg_multiplier a) (base_asset_amount_with_amm a)
    reserve_price (total_fee_minus_distributions a) (net_revenue_since_last_funding a) (base_asset_reserve a)
    (min_base_asset_reserve a) (max_base_asset_reserve a) (mark_std a) (oracle_std a) (long_intensity_volume a)
    (short_intensity_volume a) (volume_24h a) (amm_inventory_spread_adjustment a).

Definition calculate_reference_price_offset (reserve_price last_24h_avg_funding_rate liquidity_fraction
    oracle_twap_fast mark_twap_fast oracle_twap_slow mark_twap_slow max_offset_pct : Z) : DriftResult Z :=
  if (last_24h_avg_funding_rate =? 0) || (liquidity_fraction =? 0) then Ok 0
  else
    let! r := cast_i 64 reserve_price in
    let! p := safe_i 64 (max_offset_pct * r) in
    let! max_offset_in_price := safe_idiv 64 p PERCENTAGE_PRECISION in
    let premium mark_twap oracle_twap :=
      let! m := cast_i 64 mark_twap in
      let! d := safe_i 64 (m - oracle_twap) in
      let! lo := ichk 64 (- max_offset_in_price) in
      clamp lo max_offset_in_price d in
    let! mark_premium_minute := premium mark_twap_fast oracle_twap_fast in
    let! mark_premium_hour := premium mark_twap_slow oracle_twap_slow in
    let! f := safe_idiv 64 last_24h_avg_funding_rate FUNDING_RATE_BUFFER in
    let! f := safe_i 64 (f * 24) in
    let! o := ichk 64 (Z.abs oracle_twap_slow) in
    let! o := safe_idiv 64 o FUNDING_RATE_OFFSET_DENOMINATOR in
    let! d := safe_i 64 (f - o) in
    let! mark_premium_day := clamp (- max_offset_in_price) max_offset_in_price d in
    let! s := safe_i 64 (mark_premium_minute + mark_premium_hour) in
    let! s := safe_i 64 (s + mark_premium_day) in
    let! mark_premium_avg := safe_idiv 64 s 3 in
    let! p := safe_i 64 (mark_premium_avg * PRICE_PRECISION_I64) in
    let! mark_premium_avg_pct := safe_idiv 64 p r in
    let! offset_pct :=
      if ((0 <=? mark_premium_avg_pct) && (0 <=? liquidity_fraction))
         || ((mark_premium_avg_pct <=? 0) && (liquidity_fraction <=? 0)) then
        let! l := cast_i 64 (Z.abs liquidity_fraction) in
        let! p := safe_i 64 (mark_premium_avg_pct * l) in
        safe_idiv 64 p 2
      else Ok 0 in
    let! lo := ichk 64 (- max_offset_pct) in
    let! clamped_offset_pct := clamp lo max_offset_pct offset_pct in
    do! validate (Z.abs clamped_offset_pct <=? max_offset_pct) InvalidAmmDetected in
    cast_i 32 clamped_offset_pct.

(** ** Reserves with the spread *)

Definition get_spread_reserves (a : AMM) (d : PositionDirection) : Z * Z :=
  match d with
  | Long => (ask_base_asset_reserve a, ask_quote_asset_reserve a)
  | Short => (bid_base_asset_reserve a, bid_quote_asset_reserve a)
  end.

Section Reserves.
Context {roots : Roots}.

(** The quote reserves at which the price of a prediction market is one dollar,
    and 0.05 for asks or 0.95 for bids. *)
Definition get_quote_asset_reserve_prediction_market_bounds (m : PerpMarket) (d : PositionDirection) :
    DriftResult (Z * Z) :=
  let peg := peg_multiplier (amm m) in
  let! p := safe_u 128 (peg * PEG_PRECISION) in
  let peg_sqrt := usat 128 (nth_root_2 (usat 128 (p + 1)) + 1) in
  let! u := safe_u 128 (sqrt_k (amm m) * peg_sqrt) in
  let! upper := safe_udiv u peg in
  let bound part :=
    let! x := safe_u 128 (sqrt_k (amm m) * part) in
    let! x := safe_u 128 (x * peg_sqrt) in
    let! x := safe_udiv x 100000 in
    safe_udiv x peg in
  match d with
  | Long => let! lower := bound 22361 in Ok (lower, upper)
  | Short => let! upper := bound 97467 in Ok (0, upper)
  end.

(** The quote reserve moved by half the spread, and the base reserve of the curve
    there. *)
Definition calculate_spread_reserves (m : PerpMarket) (d : PositionDirection) : DriftResult (Z * Z) :=
  let a := amm m in
  let! spread_with_offset :=
    match d with
    | Short => let! s := cast_i 32 (short_spread a) in safe_i 32 (- s + reference_price_offset a)
    | Long => let! s := cast_i 32 (long_spread a) in safe_i 32 (s + reference_price_offset a)
    end in
  let! magnitude := ichk 32 (Z.abs spread_with_offset) in
  let! quote_asset_reserve_delta :=
    if 1 <? magnitude then
      let! half := idiv 32 spread_with_offset 2 in
      let! quote_reserve_divisor := idiv 128 BID_ASK_SPREAD_PRECISION half in
      let! q := cast_i 128 (quote_asset_reserve a) in
      safe_idiv 128 q quote_reserve_divisor
    else Ok 0 in
  let! quote :=
    if 0 <? quote_asset_reserve_delta then safe_u 128 (quote_asset_reserve a + Z.abs quote_asset_reserve_delta)
    else safe_u 128 (quote_asset_reserve a - Z.abs quote_asset_reserve_delta) in
  let! quote :=
    match contract_type m with
    | Prediction =>
        let! '(lower, upper) := get_quote_asset_reserve_prediction_market_bounds m d in
        clamp lower upper quote
    | _ => Ok quote
    end in
  let! invariant := safe_u 192 (sqrt_k a * sqrt_k a) in
  let! b := safe_udiv invariant quote in
  let! base := try_to_u 128 b in
  Ok (base, quote).

Definition update_spread_reserves (m : PerpMarket) : DriftResult PerpMarket :=
  let! '(new_ask_base, new_ask_quote) := calculate_spread_reserves m Long in
  let! '(new_bid_base, new_bid_quote) := calculate_spread_reserves m Short in
  let a := amm m in
  if reference_price_offset a =? 0 then
    Ok (m <| amm ; ask_base_asset_reserve := Z.min new_ask_base (base_asset_reserve a) |>
          <| amm ; bid_base_asset_reserve := Z.max new_bid_base (base_asset_reserve a) |>
          <| amm ; ask_quote_asset_reserve := Z.max new_ask_quote (quote_asset_reserve a) |>
          <| amm ; bid_quote_asset_reserve := Z.min new_bid_quote (quote_asset_reserve a) |>)
  else
    Ok (m <| amm ; ask_base_asset_reserve := new_ask_base |>
          <| amm ; bid_base_asset_reserve := new_bid_base |>
          <| amm ; ask_quote_asset_reserve := new_ask_quote |>
          <| amm ; bid_quote_asset_reserve := new_bid_quote |>).

(** The base amount that takes the price to [limit_price], and the side of that
    trade. *)
Definition calculate_base_asset_amount_to_trade_to_price (a : AMM) (limit_price : Z) (d : PositionDirection) :
    DriftResult (Z * PositionDirection) :=
  let! invariant := safe_u 192 (sqrt_k a * sqrt_k a) in
  do! validate (0 <? limit_price) InvalidOrderLimitPrice in
  let! p := safe_u 192 (invariant * PRICE_PRECISION) in
  let! q := safe_udiv p limit_price in
  let! p := safe_u 192 (q * peg_multiplier a) in
  let! new_base_asset_reserve_squared := safe_udiv p PEG_PRECISION in
  let! new_base := try_to_u 128 (integer_sqrt new_base_asset_reserve_squared) in
  let before := if 0 <? base_spread a then fst (get_spread_reserves a d) else base_asset_reserve a in
  if before <? new_base then
    let! x := safe_u 128 (new_base - before) in
    Ok (if uok 64 x then x else umax 64, Short)
  else
    let! x := safe_u 128 (before - new_base) in
    Ok (if uok 64 x then x else umax 64, Long).

(** ** update_spreads *)

(** The price offset the inventory and the recent premiums ask for. *)
Definition target_reference_price_offset (a : AMM) (reserve_price : Z) : DriftResult Z :=
  let! max_ref_offset := get_max_reference_price_offset a in
  if 0 <? max_ref_offset then
    let! liquidity_ratio :=
      calculate_inventory_liquidity_ratio_for_reference_price_offset (base_asset_amount_with_amm a)
        (base_asset_reserve a) (min_base_asset_reserve a) (max_base_asset_reserve a) in
    let! p := get_protocol_owned_position a in
    let! signed := safe_i 128 (liquidity_ratio * Z.sgn p) in
    let! deadband_pct := get_reference_price_offset_deadband_pct a in
    let! liquidity_fraction :=
      if Z.abs signed <=? deadband_pct then Ok 0
      else
        let! x := cast_i 128 deadband_pct in
        let! x := safe_i 128 (x * Z.sgn signed) in
        safe_i 128 (signed - x) in
    calculate_reference_price_offset reserve_price (last_24h_avg_funding_rate a) liquidity_fraction
      (last_oracle_price_twap_5min (amm_historical_oracle_data a)) (last_mark_price_twap_5min a)
      (last_oracle_price_twap (amm_historical_oracle_data a)) (last_mark_price_twap a) max_ref_offset
  else Ok 0.

Definition adjusted_spreads (a : AMM) (reserve_price : Z) : DriftResult (Z * Z) :=
  let! '(long_spread, short_spread) :=
    if 0 <? curve_update_intensity a then calculate_spread (spread_inputs a reserve_price)
    else let half := base_spread a / 2 in Ok (half, half) in
  let adjustment := amm_spread_adjustment a in
  if adjustment <? 0 then
    let! l := lowered 32 long_spread (- adjustment) in
    let! s := lowered 32 short_spread (- adjustment) in
    Ok (l, s)
  else if 0 <? adjustment then
    let! l := raised 32 long_spread adjustment in
    let! s := raised 32 short_spread adjustment in
    Ok (l, s)
  else Ok (long_spread, short_spread).

(** A change of sign of the offset is taken in steps; the spreads of both sides
    widen meanwhile. *)
Definition smooth_reference_price (m : PerpMarket) (target : Z) (slot : option Z) : DriftResult PerpMarket :=
  let a := amm m in
  let offset := reference_price_offset a in
  let slots_passed := match slot with Some s => usat 64 (s - last_update_slot a) | None => 0 end in
  let full_offset_delta := target - offset in
  let! steps := safe_i 128 (slots_passed * 1000) in
  let! raw := safe_idiv 128 (Z.min (Z.abs full_offset_delta) steps) 10 in
  let! raw := cast_i 32 raw in
  let! limit := ichk 32 (Z.abs (if negb (offset =? 0) then offset else target)) in
  let! delta := ichk 32 (Z.sgn full_offset_delta * Z.min (Z.max raw 10) limit) in
  let! new_offset := safe_i 32 (offset + delta) in
  let moved := m <| amm ; reference_price_offset := new_offset |> in
  if delta <? 0 then
    let! l := safe_u 32 (long_spread a + Z.abs delta) in
    let! s := safe_u 32 (short_spread a + Z.abs new_offset) in
    Ok (moved <| amm ; long_spread := l |> <| amm ; short_spread := s |>)
  else
    let! s := safe_u 32 (short_spread a + Z.abs delta) in
    let! l := safe_u 32 (long_spread a + Z.abs new_offset) in
    Ok (moved <| amm ; short_spread := s |> <| amm ; long_spread := l |>).

Definition update_spreads (m : PerpMarket) (reserve_price : Z) (slot : option Z) :
    DriftResult (PerpMarket * (Z * Z)) :=
  let! target := target_reference_price_offset (amm m) reserve_price in
  let! '(l, s) := adjusted_spreads (amm m) reserve_price in
  let m := m <| amm ; long_spread := l |> <| amm ; short_spread := s |> in
  let sign_changed := negb (Z.sgn target =? Z.sgn (reference_price_offset (amm m))) in
  let! m :=
    if sign_changed && (100 <? curve_update_intensity (amm m)) then smooth_reference_price m target slot
    else Ok (m <| amm ; reference_price_offset := target |>) in
  let! m := update_spread_reserves m in
  Ok (m, (l, s)).

End Reserves.

(** ** Swaps *)

Definition calculate_quote_asset_amount_surplus (before after : Z) (d : SwapDirection)
    (peg_multiplier initial_quote_asset_amount : Z) (round_down : bool) : DriftResult Z :=
  let! change := reserve_change before after d in
  let! actual := reserve_to_asset_amount change peg_multiplier in
  let! actual := if round_down then safe_u 128 (actual + 1) else Ok actual in
  if initial_quote_asset_amount <? actual then safe_u 128 (actual - initial_quote_asset_amount)
  else safe_u 128 (initial_quote_asset_amount - actual).

Definition swap_side (d : SwapDirection) : PositionDirection := match d with Add => Short | Remove => Long end.
Definition swap_opposite (d : SwapDirection) : SwapDirection := match d with Add => Remove | Remove => Add end.

(** The amount is priced on the reserves with the spread; the reserves move along
    the curve without it. *)
Definition calculate_base_swap_output_with_spread (a : AMM) (base_asset_swap_amount : Z) (d : SwapDirection) :
    DriftResult (Z * Z * Z * Z) :=
  let '(base_with_spread, quote_with_spread) := get_spread_reserves a (swap_side d) in
  let! '(new_quote_with_spread, _) := calculate_swap_output base_asset_swap_amount base_with_spread d (sqrt_k a) in
  let! quote_asset_amount :=
    calculate_quote_asset_amount_swapped quote_with_spread new_quote_with_spread d (peg_multiplier a) in
  let! '(new_quote, new_base) := calculate_swap_output base_asset_swap_amount (base_asset_reserve a) d (sqrt_k a) in
  let! surplus :=
    calculate_quote_asset_amount_surplus new_quote (quote_asset_reserve a) (swap_opposite d) (peg_multiplier a)
      quote_asset_amount (bool_decide (d = Remove)) in
  let! q := cast_u 64 quote_asset_amount in
  let! s := cast_u 64 surplus in
  Ok (new_base, new_quote, q, s).

Definition swap_base_asset (m : PerpMarket) (base_asset_swap_amount : Z) (d : SwapDirection) :
    DriftResult (PerpMarket * (Z * Z)) :=
  let! '(new_base, new_quote, quote_asset_amount, surplus) :=
    calculate_base_swap_output_with_spread (amm m) base_asset_swap_amount d in
  let! s := cast_i 64 surplus in
  Ok (m <| amm ; base_asset_reserve := new_base |> <| amm ; quote_asset_reserve := new_quote |>,
      (quote_asset_amount, s)).

(** ** The cap *)

(** The cap on the spreads always succeeds: below the target it changes
    nothing, above it the two sides add up to the target exactly, neither is
    raised, and the wider side stays the wider one. *)
Theorem capped_spreads l s target :
  0 <= l -> 0 <= s -> 0 <= target -> in_u 64 (l + s) -> in_u 64 (Z.max l s * target) ->
  exists l' s', cap_to_max_spread l s target = Ok (l', s') /\ l' + s' = Z.min (l + s) target
    /\ 0 <= l' <= l /\ 0 <= s' <= s /\ (s < l -> s' <= l') /\ (l <= s -> l' <= s').
Proof.
  intros Hl Hs Ht Hu Hm. unfold cap_to_max_spread. rewrite safe_u_ok by done. cbn.
  destruct (Z.ltb_spec target (l + s)) as [Hlt|Hle].
  - assert (Hside : forall a b, 0 <= a -> 0 <= b -> a + b = l + s -> b <= a -> in_u 64 (a * target) ->
      exists c, safe_div_ceil 64 (usat 64 (a * target)) (l + s) = Ok c
        /\ 0 <= c <= a /\ 0 <= target - c <= b /\ target - c <= c).
    { intros a b Ha Hb Hab Hba Hat. rewrite usat_id by done. exists (zceil (a * target) (l + s)).
      pose proof (zceil_bounds (a * target) (l + s) ltac:(lia)) as Hc.
      assert (0 <= zceil (a * target) (l + s)) by (apply zceil_nonneg; lia).
      assert (zceil (a * target) (l + s) <= a) by (apply zceil_le; nia).
      assert (zceil (a * target) (l + s) <= target) by (apply zceil_le; nia).
      split.
      - unfold safe_div_ceil, checked_ceil_div, checked_udiv. destruct (Z.eqb_spec (l + s) 0); [lia|]. cbn.
        pose proof (Z.div_mod (a * target) (l + s) ltac:(lia)). pose proof (Z.mod_pos_bound (a * target) (l + s) ltac:(lia)).
        destruct (Z.ltb_spec 0 ((a * target) mod (l + s))) as [Hr|Hr].
        + replace (zceil (a * target) (l + s)) with (a * target / (l + s) + 1) in * by (symmetry; apply zceil_spec; nia).
          rewrite ucheck_ok by range. done.
        + replace (zceil (a * target) (l + s)) with (a * target / (l + s)) in * by (symmetry; apply zceil_spec; nia). done.
      - split_and!; [lia|lia|lia|nia|nia]. }
    assert (Hmax : forall a, 0 <= a <= Z.max l s -> in_u 64 (a * target)) by (intros a Ha; unfold in_u in *; nia).
    destruct (Z.ltb_spec s l) as [Hsl|Hsl].
    + destruct (Hside l s Hl Hs eq_refl ltac:(lia) (Hmax l ltac:(lia))) as (c & -> & Hc1 & Hc2 & Hc3). cbn.
      rewrite safe_u_ok by range. cbn. rewrite safe_u_ok by range. cbn. unfold validate.
      replace (c + (target - c)) with target by lia. rewrite Z.leb_refl. cbn.
      eexists _, _. split; [done|]. rewrite Z.min_r by lia. split_and!; lia.
    + destruct (Hside s l Hs Hl ltac:(lia) Hsl (Hmax s ltac:(lia))) as (c & -> & Hc1 & Hc2 & Hc3). cbn.
      rewrite safe_u_ok by range. cbn. rewrite safe_u_ok by range. cbn. unfold validate.
      replace (target - c + c) with target by lia. rewrite Z.leb_refl. cbn.
      eexists _, _. split; [done|]. rewrite Z.min_r by lia. split_and!; lia.
  - cbn. rewrite safe_u_ok by done. cbn. unfold validate. rewrite (proj2 (Z.leb_le _ _) Hle). cbn.
    eexists _, _. split; [done|]. rewrite Z.min_l by lia. split_and!; lia.
Qed.

(** ** The market maker keeps the value of its position on the curve *)

(** The parts of the reserves that a run of trades preserves: the reserves lie on
    the curve, the ask and bid reserves on it or under it, on their sides. *)
Definition curve (a : AMM) : Z := sqrt_k a * sqrt_k a.

Record sound_reserves (a : AMM) : Prop := {
  sr_base : 0 < base_asset_reserve a;
  sr_curve : base_asset_reserve a * quote_asset_reserve a <= curve a
             /\ curve a < base_asset_reserve a * (quote_asset_reserve a + 1);
  sr_ask : ask_base_asset_reserve a <= base_asset_reserve a
           /\ ask_base_asset_reserve a * ask_quote_asset_reserve a <= curve a;
  sr_bid : base_asset_reserve a <= bid_base_asset_reserve a
           /\ bid_base_asset_reserve a * bid_quote_asset_reserve a <= curve a;
  sr_peg : 0 <= peg_multiplier a;
}.

(** A trade of the market: the swap, then the new spread reserves, as
    [update_position_with_base_asset_amount] does; the amount is what the trader
    pays, negative for a sale. *)
Definition trade {roots : Roots} (m : PerpMarket) (t : Z * SwapDirection) : DriftResult (PerpMarket * Z) :=
  let! '(m, (q, _)) := swap_base_asset m (fst t) (snd t) in
  let! m := update_spread_reserves m in
  Ok (m, match snd t with Remove => q | Add => - q end).

(** If [1/p + 1/v <= 1/u + 1/w], the floors of [K/p] and [K/v] exceed those of
    [K/u] and [K/w] by at most one together. *)
Lemma floors_cross K u v p w a b c d :
  0 <= K -> 0 < u -> 0 < v -> 0 < p -> 0 < w ->
  a * p <= K -> b * v <= K -> K < (c + 1) * u -> K < (d + 1) * w ->
  u * w * (p + v) <= p * v * (u + w) -> a + b <= c + d + 1.
Proof.
  intros HK Hu Hv Hp Hw Ha Hb Hc Hd Hx.
  destruct (Z.le_gt_cases (a + b) (c + d + 1)) as [|Hn]; [done|exfalso].
  assert (0 < u * w) by nia. assert (0 < p * v) by nia.
  assert (H1 : a * p * (v * (u * w)) <= K * (v * (u * w))) by (apply Z.mul_le_mono_nonneg_r; nia).
  assert (H2 : b * v * (p * (u * w)) <= K * (p * (u * w))) by (apply Z.mul_le_mono_nonneg_r; nia).
  assert (H3 : K * (w * (p * v)) < (c + 1) * u * (w * (p * v))) by (apply Z.mul_lt_mono_pos_r; nia).
  assert (H4 : K * (u * (p * v)) < (d + 1) * w * (u * (p * v))) by (apply Z.mul_lt_mono_pos_r; nia).
  assert (H5 : (c + d + 2) * (p * v * (u * w)) <= (a + b) * (p * v * (u * w))) by (apply Z.mul_le_mono_nonneg_r; nia).
  assert (H6 : K * (u * w * (p + v)) <= K * (p * v * (u + w))) by (apply Z.mul_le_mono_nonneg_l; lia).
  nia.
Qed.

Lemma swap_output_Ok amount input d k new_output new_input :
  calculate_swap_output amount input d k = Ok (new_output, new_input) ->
  new_input = (match d with Add => input + amount | Remove => input - amount end)
  /\ 0 < new_input /\ new_output = k * k / new_input.
Proof.
  intros H. unfold calculate_swap_output in H. apply obind_Ok in H as (i & [-> _]%safe_u_Ok & H).
  apply obind_Ok in H as (? & _ & H). apply obind_Ok in H as (n & Hn & H).
  apply obind_Ok in H as (q & [Hz ->]%safe_udiv_Ok & H). apply obind_Ok in H as (o & [-> _]%try_to_u_Ok & [= <- <-]).
  destruct d; apply safe_u_Ok in Hn as [-> Hn]; unfold in_u in Hn; (split; [reflexivity|split; [lia|reflexivity]]).
Qed.

(** Money for a change of the reserve, rounded against the trader. *)
Lemma quote_swapped_Ok before after d peg q :
  calculate_quote_asset_amount_swapped before after d peg = Ok q ->
  match d with
  | Remove => (after - before + 1) * peg < q * AMM_TIMES_PEG_TO_QUOTE_PRECISION_RATIO
  | Add => q * AMM_TIMES_PEG_TO_QUOTE_PRECISION_RATIO <= (before - after) * peg
  end.
Proof.
  intros H. unfold calculate_quote_asset_amount_swapped in H. apply obind_Ok in H as (c & Hc & H).
  apply obind_Ok in H as (c' & Hc' & H). apply obind_Ok in H as (x & Hx & H).
  unfold reserve_to_asset_amount in Hx. apply obind_Ok in Hx as (p & [-> _]%safe_u_Ok & [= <-]).
  pose proof (zfloor_bounds (c' * peg) AMM_TIMES_PEG_TO_QUOTE_PRECISION_RATIO ltac:(reflexivity)) as Hf.
  destruct d; cbn in Hc.
  - apply safe_u_Ok in Hc as [-> _]. injection Hc' as <-. injection H as <-. lia.
  - apply safe_u_Ok in Hc as [-> _]. apply safe_u_Ok in Hc' as [-> _]. apply safe_u_Ok in H as [-> _]. lia.
Qed.

(** What a buyer pays is worth more than the quote the curve gains, and what a
    seller gets at most one reserve unit more than the quote it loses. *)
Lemma swap_value m amount d m' q s :
  sound_reserves (amm m) -> 0 <= amount -> swap_base_asset m amount d = Ok (m', (q, s)) ->
  let moved := quote_asset_reserve (amm m') - quote_asset_reserve (amm m) in
  match d with
  | Remove => peg_multiplier (amm m) * moved <= q * AMM_TIMES_PEG_TO_QUOTE_PRECISION_RATIO
  | Add => q * AMM_TIMES_PEG_TO_QUOTE_PRECISION_RATIO <= peg_multiplier (amm m) * (- moved + 1)
  end
  /\ 0 < base_asset_reserve (amm m')
  /\ base_asset_reserve (amm m') * quote_asset_reserve (amm m') <= curve (amm m)
  /\ curve (amm m) < base_asset_reserve (amm m') * (quote_asset_reserve (amm m') + 1)
  /\ exists b k, m' = m <| amm ; base_asset_reserve := b |> <| amm ; quote_asset_reserve := k |>.
Proof.
  intros [Hb [Hc1 Hc2] [Ha1 Ha2] [Hd1 Hd2] Hp] Hx H. unfold swap_base_asset, calculate_base_swap_output_with_spread in H.
  apply obind_Ok in H as ([[[nb nq] q'] s'] & H & H2). apply obind_Ok in H2 as (s2 & _ & [= <- <- <-]).
  destruct (get_spread_reserves (amm m) (swap_side d)) as [bs qs] eqn:Hs.
  apply obind_Ok in H as ([nqs nbs] & (Hnbs & Hnbs0 & ->)%swap_output_Ok & H).
  apply obind_Ok in H as (x & Hq%quote_swapped_Ok & H). apply obind_Ok in H as ([nq1 nb1] & (Hnb & Hnb0 & ->)%swap_output_Ok & H).
  apply obind_Ok in H as (y & _ & H). apply obind_Ok in H as (z & [-> _]%cast_u_Ok & H).
  apply obind_Ok in H as (t & _ & [= <- <- <- _]). cbn. fold (curve (amm m)) in *.
  pose proof (zfloor_bounds (curve (amm m)) nbs Hnbs0) as Hf1. pose proof (zfloor_bounds (curve (amm m)) nb1 Hnb0) as Hf2.
  assert (HK : 0 <= curve (amm m)) by (unfold curve; nia).
  set (K := curve (amm m)) in *. set (n := K / nbs) in *. set (Q' := K / nb1) in *.
  split; [|split_and!; [lia|lia|lia|by eexists _, _]].
  destruct d; cbn in Hs; injection Hs as <- <-; subst nbs nb1.
  - assert (bid_quote_asset_reserve (amm m) + Q' <= quote_asset_reserve (amm m) + n + 1).
    { apply (floors_cross K (base_asset_reserve (amm m)) (base_asset_reserve (amm m) + amount) (bid_base_asset_reserve (amm m))
        (bid_base_asset_reserve (amm m) + amount)); try lia.
      assert (base_asset_reserve (amm m) * (base_asset_reserve (amm m) + amount)
        <= bid_base_asset_reserve (amm m) * (bid_base_asset_reserve (amm m) + amount)) by nia. nia. }
    nia.
  - assert (ask_quote_asset_reserve (amm m) + Q' <= n + quote_asset_reserve (amm m) + 1).
    { apply (floors_cross K (ask_base_asset_reserve (amm m) - amount) (base_asset_reserve (amm m) - amount) (ask_base_asset_reserve (amm m))
        (base_asset_reserve (amm m))); try lia.
      assert ((ask_base_asset_reserve (amm m) - amount) * ask_base_asset_reserve (amm m)
        <= (base_asset_reserve (amm m) - amount) * base_asset_reserve (amm m)) by nia. nia. }
    nia.
Qed.

Lemma spread_reserves_on_curve {roots : Roots} m d b q :
  calculate_spread_reserves m d = Ok (b, q) -> b * q <= curve (amm m).
Proof.
  intros H. unfold calculate_spread_reserves in H.
  do 4 (apply obind_Ok in H as (? & _ & H)). apply obind_Ok in H as (quote & _ & H).
  apply obind_Ok in H as (inv & [-> _]%safe_u_Ok & H).
  apply obind_Ok in H as (new_base & [Hz ->]%safe_udiv_Ok & H). apply obind_Ok in H as (base & [-> Hb]%try_to_u_Ok & H).
  injection H as <- <-. fold (curve (amm m)) in *. assert (0 <= curve (amm m)) by (unfold curve; nia). unfold in_u in Hb.
  destruct (Z.lt_trichotomy quote 0) as [Hk|[|Hk]]; [|done|pose proof (zfloor_bounds (curve (amm m)) quote Hk); lia].
  pose proof (Z.div_le_upper_bound (- curve (amm m)) (- quote) 0). rewrite Z.div_opp_opp in * by lia. nia.
Qed.

(** The quoted reserves never promise more than the curve. *)
Lemma update_spread_reserves_quotes {roots : Roots} m m' :
  update_spread_reserves m = Ok m' -> 0 < base_asset_reserve (amm m) ->
  base_asset_reserve (amm m) * quote_asset_reserve (amm m) <= curve (amm m) ->
  curve (amm m) < base_asset_reserve (amm m) * (quote_asset_reserve (amm m) + 1) ->
  ask_base_asset_reserve (amm m') * ask_quote_asset_reserve (amm m') <= curve (amm m)
  /\ bid_base_asset_reserve (amm m') * bid_quote_asset_reserve (amm m') <= curve (amm m).
Proof.
  intros H Hb Hc1 Hc2. unfold update_spread_reserves in H.
  apply obind_Ok in H as ([ab aq] & Ha%spread_reserves_on_curve & H).
  apply obind_Ok in H as ([bb bq] & Hd%spread_reserves_on_curve & H).
  set (K := curve (amm m)) in *. set (B := base_asset_reserve (amm m)) in *. set (Q := quote_asset_reserve (amm m)) in *.
  assert (0 <= Q) by (assert (0 <= K) by (unfold K, curve; nia); nia).
  destruct (_ =? 0) in H; injection H as <-; cbn; fold B Q; [|done]. split.
  - destruct (Z.min_spec ab B) as [[? ->]|[? ->]], (Z.max_spec aq Q) as [[? ->]|[? ->]]; nia.
  - destruct (Z.max_spec bb B) as [[? ->]|[? ->]], (Z.min_spec bq Q) as [[? ->]|[? ->]]; nia.
Qed.

Lemma update_spread_reserves_sound {roots : Roots} m m' :
  update_spread_reserves m = Ok m' -> reference_price_offset (amm m) = 0 ->
  0 < base_asset_reserve (amm m) -> 0 <= peg_multiplier (amm m) ->
  base_asset_reserve (amm m) * quote_asset_reserve (amm m) <= curve (amm m)
  /\ curve (amm m) < base_asset_reserve (amm m) * (quote_asset_reserve (amm m) + 1) ->
  sound_reserves (amm m') /\ base_asset_reserve (amm m') = base_asset_reserve (amm m)
  /\ quote_asset_reserve (amm m') = quote_asset_reserve (amm m)
  /\ peg_multiplier (amm m') = peg_multiplier (amm m) /\ sqrt_k (amm m') = sqrt_k (amm m)
  /\ reference_price_offset (amm m') = reference_price_offset (amm m).
Proof.
  intros H Ho Hb Hp [Hc1 Hc2]. destruct (update_spread_reserves_quotes m m' H Hb Hc1 Hc2) as [Ha Hd].
  unfold update_spread_reserves in H. apply obind_Ok in H as ([ab aq] & _ & H). apply obind_Ok in H as ([bb bq] & _ & H).
  rewrite Ho in H. cbn [Z.eqb] in H. injection H as <-. cbn in *. split; [|done].
  constructor; cbn; [done|done|split; [lia|done]|split; [lia|done]|done].
Qed.

(** ** Witnesses *)

Lemma capped_spreads_witness :
  exists l s, cap_to_max_spread 7000 5000 10000 = Ok (l, s) /\ l + s = 10000 /\ s <= l.
Proof.
  destruct (capped_spreads 7000 5000 10000) as (l & s & H & Hs & _ & _ & Hl & _); [lia|lia|lia|split; reflexivity || discriminate..|].
  exists l, s. split_and!; [exact H|exact Hs|apply Hl; reflexivity].
Defined.

#[export] Instance floor_roots : Roots := {| integer_sqrt := Z.sqrt; nth_root_2 := Z.sqrt |}.

(** A market at 100 dollars with a spread of ten basis points a side. *)
Definition quoted_market : PerpMarket :=
  let a := default_AMM <| base_asset_reserve := 1000000000000 |> <| quote_asset_reserve := 1000000000000 |>
             <| sqrt_k := 1000000000000 |> <| peg_multiplier := 100000000 |> <| long_spread := 1000 |>
             <| short_spread := 1000 |> in
  let m := default_PerpMarket <| amm := a |> in
  match update_spread_reserves m with Ok m => m | _ => m end.
