(* ===== verification/DriftPosition.v ===== *)
(** Perpetual positions: [math/position.rs], [math/pnl.rs],
    [controller/position.rs] and the methods of [PerpPosition] in
    [state/user.rs].

    A fill changes one position and the totals of its market: open interest, entry
    and break-even amounts of both sides, the quote of all positions and the
    numbers of users.  The theorems: the totals are the sums over the positions,
    whatever fills, fees and settlements happen; and the profit a fill realises is
    what the position's entry and quote say. *)
From S2P Require Import Prelude.
From S2P Require Import RecordUpdate.
From S2P Require Import DriftError.
From S2P Require Import DriftMath.
From S2P Require Import DriftSpotMarket.
From S2P Require Import DriftTypes.
From S2P Require Import DriftOracle.
From S2P Require Import DriftOrderMath.
From S2P Require Import DriftAmm.
From S2P Require Import DriftSpread.

(** ** The position *)

Inductive PositionFlag : Set := IsolatedPosition | BeingLiquidatedPosition | BankruptPosition.
Definition position_flag_bit (f : PositionFlag) : Z :=
  match f with IsolatedPosition => 1 | BeingLiquidatedPosition => 2 | BankruptPosition => 4 end.

Definition is_open_position (p : PerpPosition) : bool := negb (pp_base_asset_amount p =? 0).
Definition has_open_order (p : PerpPosition) : bool :=
  negb (pp_open_orders p =? 0) || negb (pp_open_bids p =? 0) || negb (pp_open_asks p =? 0).
Definition has_unsettled_pnl (p : PerpPosition) : bool :=
  (pp_base_asset_amount p =? 0) && negb (pp_quote_asset_amount p =? 0).
Definition is_isolated (p : PerpPosition) : bool := 0 <? Z.land (pp_position_flag p) (position_flag_bit IsolatedPosition).
Definition is_being_liquidated (p : PerpPosition) : bool :=
  0 <? Z.land (pp_position_flag p)
         (Z.lor (position_flag_bit BeingLiquidatedPosition) (position_flag_bit BankruptPosition)).
Definition is_bankrupt (p : PerpPosition) : bool := 0 <? Z.land (pp_position_flag p) (position_flag_bit BankruptPosition).
Definition is_available (p : PerpPosition) : bool :=
  negb (is_open_position p) && negb (has_open_order p) && negb (has_unsettled_pnl p)
  && (pp_isolated_position_scaled_balance p =? 0) && negb (is_being_liquidated p).
Definition is_for (p : PerpPosition) (market_index : Z) : bool :=
  (pp_market_index p =? market_index) && negb (is_available p).
Definition can_transfer_isolated_position_deposit (p : PerpPosition) : bool :=
  is_isolated p && (0 <? pp_isolated_position_scaled_balance p) && negb (is_open_position p)
  && negb (has_open_order p) && negb (has_unsettled_pnl p).

Definition margin_requirement_for_open_orders (p : PerpPosition) : DriftResult Z :=
  safe_u 128 (pp_open_orders p * OPEN_ORDER_MARGIN_REQUIREMENT).

Definition get_direction (p : PerpPosition) : PositionDirection :=
  if 0 <=? pp_base_asset_amount p then Long else Short.
Definition get_direction_to_close (p : PerpPosition) : PositionDirection :=
  if 0 <=? pp_base_asset_amount p then Short else Long.

Definition get_existing_position_params_for_order_action (p : PerpPosition) (fill_direction : PositionDirection) :
    option (Z * Z) :=
  if pp_base_asset_amount p =? 0 then None
  else if decide (get_direction_to_close p = fill_direction) then
    Some (Z.abs (pp_quote_entry_amount p), Z.abs (pp_base_asset_amount p))
  else None.

Definition get_isolated_token_amount (p : PerpPosition) (m : SpotMarket) : DriftResult Z :=
  get_token_amount (pp_isolated_position_scaled_balance p) m Deposit.

#[export] Instance PerpPosition_SpotBalance : SpotBalance PerpPosition := {|
  market_index _ := QUOTE_SPOT_MARKET_INDEX;
  balance_type _ := Deposit;
  balance := pp_isolated_position_scaled_balance;
  increase_balance p delta :=
    let! d := cast_u 64 delta in
    let! x := safe_u 64 (pp_isolated_position_scaled_balance p + d) in
    Ok (p <| pp_isolated_position_scaled_balance := x |>);
  decrease_balance p delta :=
    let! d := cast_u 64 delta in
    let! x := safe_u 64 (pp_isolated_position_scaled_balance p - d) in
    Ok (p <| pp_isolated_position_scaled_balance := x |>);
  update_balance_type p t := Err CantUpdateSpotBalanceType;
|}.

(** ** Values *)

Definition swap_direction_to_close_position (base_asset_amount : Z) : SwapDirection :=
  if 0 <=? base_asset_amount then Add else Remove.

Definition calculate_pnl (exit_value entry_value : Z) (d : SwapDirection) : DriftResult Z :=
  match d with
  | Add => let! x := cast_i 128 exit_value in let! e := cast_i 128 entry_value in safe_i 128 (x - e)
  | Remove => let! e := cast_i 128 entry_value in let! x := cast_i 128 exit_value in safe_i 128 (e - x)
  end.

Definition calculate_base_asset_value (base_asset_amount : Z) (a : AMM) : DriftResult Z :=
  if base_asset_amount =? 0 then Ok 0
  else
    let d := swap_direction_to_close_position base_asset_amount in
    let! '(new_quote, _) := calculate_swap_output (Z.abs base_asset_amount) (base_asset_reserve a) d (sqrt_k a) in
    calculate_quote_asset_amount_swapped (quote_asset_reserve a) new_quote d (peg_multiplier a).

Definition calculate_base_asset_value_and_pnl (base_asset_amount quote_asset_amount : Z) (a : AMM) :
    DriftResult (Z * Z) :=
  if base_asset_amount =? 0 then Ok (0, 0)
  else
    let! v := calculate_base_asset_value base_asset_amount a in
    let! pnl := calculate_pnl v quote_asset_amount (swap_direction_to_close_position base_asset_amount) in
    Ok (v, pnl).

Definition calculate_base_asset_value_with_oracle_price (base_asset_amount oracle_price : Z) : DriftResult Z :=
  if base_asset_amount =? 0 then Ok 0
  else
    let oracle_price := if 0 <? oracle_price then Z.abs oracle_price else 0 in
    let! p := safe_u 128 (Z.abs base_asset_amount * oracle_price) in
    safe_udiv p PRICE_TIMES_AMM_TO_QUOTE_PRECISION_RATIO.

Definition calculate_perp_liability_value (base_asset_amount oracle_price : Z) (c : ContractType) : DriftResult Z :=
  match c with
  | Prediction =>
      let! price := ichk 64 (Z.abs oracle_price) in
      let unit_value :=
        if base_asset_amount <? 0 then usat 128 (MAX_PREDICTION_MARKET_PRICE - price) else price in
      let! p := safe_u 128 (Z.abs base_asset_amount * unit_value) in
      safe_udiv p BASE_PRECISION
  | _ => calculate_base_asset_value_with_oracle_price base_asset_amount oracle_price
  end.

Definition calculate_base_asset_value_and_pnl_with_oracle_price (p : PerpPosition) (oracle_price : Z) :
    DriftResult (Z * Z) :=
  if pp_base_asset_amount p =? 0 then Ok (0, pp_quote_asset_amount p)
  else
    let oracle_price := if 0 <? oracle_price then Z.abs oracle_price else 0 in
    let! x := safe_i 128 (pp_base_asset_amount p * oracle_price) in
    let! v := safe_idiv 128 x AMM_RESERVE_PRECISION_I128 in
    let! pnl := safe_i 128 (v + pp_quote_asset_amount p) in
    Ok (Z.abs v, pnl).

Definition calculate_base_asset_value_with_expiry_price (p : PerpPosition) (expiry_price : Z) : DriftResult Z :=
  if pp_base_asset_amount p =? 0 then Ok 0
  else
    let! x := safe_i 128 (pp_base_asset_amount p * expiry_price) in
    let! v := safe_idiv 128 x PRICE_TIMES_AMM_TO_QUOTE_PRECISION_RATIO in
    cast_i 64 v.

Definition get_unrealized_pnl (p : PerpPosition) (oracle_price : Z) : DriftResult Z :=
  let! '(_, pnl) := calculate_base_asset_value_and_pnl_with_oracle_price p oracle_price in Ok pnl.

(** Profit that may be settled: no more than the position has realised and the
    excess of the profit pool. *)
Definition get_claimable_pnl (p : PerpPosition) (oracle_price pnl_pool_excess : Z) : DriftResult Z :=
  let! unrealized_pnl := get_unrealized_pnl p oracle_price in
  if 0 <? unrealized_pnl then
    let! d := safe_i 128 (pp_quote_asset_amount p - pp_quote_entry_amount p) in
    let! max_positive_pnl := safe_i 128 (Z.max d 0 + Z.max pnl_pool_excess 0) in
    Ok (Z.min unrealized_pnl max_positive_pnl)
  else Ok unrealized_pnl.

(** The base amount and the liability when the side that is worse fills. *)
Definition worst_case_liability_value (p : PerpPosition) (oracle_price : Z) (c : ContractType) : DriftResult (Z * Z) :=
  let! all_bids := safe_i 64 (pp_base_asset_amount p + pp_open_bids p) in
  let! all_asks := safe_i 64 (pp_base_asset_amount p + pp_open_asks p) in
  let! bids_value := calculate_perp_liability_value all_bids oracle_price c in
  let! asks_value := calculate_perp_liability_value all_asks oracle_price c in
  if bids_value <=? asks_value then Ok (all_asks, asks_value) else Ok (all_bids, bids_value).

Definition worst_case_base_asset_amount (p : PerpPosition) (oracle_price : Z) (c : ContractType) : DriftResult Z :=
  let! '(b, _) := worst_case_liability_value p oracle_price c in Ok b.

(** ** The array of positions *)

Definition position_of {A} (f : A -> bool) (l : list A) : option nat :=
  match list_find (fun a => f a = true) l with Some (i, _) => Some i | None => None end.

Definition get_position_index (l : list PerpPosition) (market_index : Z) : DriftResult nat :=
  ok_or (position_of (fun p => is_for p market_index) l) UserHasNoPositionInMarket.

Definition add_new_position (l : list PerpPosition) (market_index : Z) : DriftResult (list PerpPosition * nat) :=
  let! i := ok_or (position_of is_available l) MaxNumberOfPositions in
  let! old := idx l (Z.of_nat i) in
  let max_margin_ratio := if pp_market_index old =? market_index then pp_max_margin_ratio old else 0 in
  let new := default_PerpPosition <| pp_market_index := market_index |> <| pp_max_margin_ratio := max_margin_ratio |> in
  let! l := set_idx l (Z.of_nat i) new in
  Ok (l, i).

(** ** Fills *)

Inductive PositionUpdateType : Set := Open | Increase | Reduce | Close | Flip.

Definition get_position_update_type (p : PerpPosition) (delta : PositionDelta) : DriftResult PositionUpdateType :=
  let b := pp_base_asset_amount p in
  let d := pd_base_asset_amount delta in
  if b =? 0 then Ok Open
  else if Z.sgn b =? Z.sgn d then Ok Increase
  else
    let! b := ichk 64 (Z.abs b) in
    let! d := ichk 64 (Z.abs d) in
    if d <? b then Ok Reduce else if b =? d then Ok Close else Ok Flip.

Definition get_new_position_amounts (p : PerpPosition) (delta : PositionDelta) : DriftResult (Z * Z) :=
  let! q := safe_i 64 (pp_quote_asset_amount p + pd_quote_asset_amount delta) in
  let! b := safe_i 64 (pp_base_asset_amount p + pd_base_asset_amount delta) in
  Ok (b, q).

Definition get_delta_base_abs (delta : PositionDelta) : DriftResult Z := ichk 64 (Z.abs (pd_base_asset_amount delta)).

(** [amount] less its share [part / whole], rounded towards zero. *)
Definition reduced (amount part whole : Z) : DriftResult Z :=
  let! x := safe_i 128 (amount * part) in
  let! x := safe_idiv 128 x whole in
  let! x := cast_i 64 x in
  safe_i 64 (amount - x).

(** The new entry and break-even amounts, and the profit the fill realises. *)
Definition new_entry_amounts (p : PerpPosition) (delta : PositionDelta) (t : PositionUpdateType) :
    DriftResult (Z * Z * Z) :=
  let dq := pd_quote_asset_amount delta in
  match t with
  | Open | Increase =>
      let! entry := safe_i 64 (pp_quote_entry_amount p + dq) in
      let! break_even := safe_i 64 (pp_quote_break_even_amount p + dq) in
      Ok (entry, break_even, 0)
  | Reduce | Close =>
      let current := Z.abs (pp_base_asset_amount p) in
      let! d := get_delta_base_abs delta in
      let! entry := reduced (pp_quote_entry_amount p) d current in
      let! break_even := reduced (pp_quote_break_even_amount p) d current in
      let! x := safe_i 64 (pp_quote_entry_amount p - entry) in
      let! pnl := safe_i 64 (x + dq) in
      Ok (entry, break_even, pnl)
  | Flip =>
      let current := Z.abs (pp_base_asset_amount p) in
      let! d := get_delta_base_abs delta in
      let! break_even := reduced dq current d in
      let! x := safe_i 64 (dq - break_even) in
      let! pnl := safe_i 64 (pp_quote_entry_amount p + x) in
      Ok (break_even, break_even, pnl)
  end.

(** The counts of users. *)
Definition count_users (m : PerpMarket) (p : PerpPosition) (new_base new_quote : Z) (t : PositionUpdateType) :
    DriftResult PerpMarket :=
  match t with
  | Open =>
      let! m :=
        if (pp_quote_asset_amount p =? 0) && (pp_base_asset_amount p =? 0) then
          let! n := safe_u 32 (number_of_users m + 1) in Ok (m <| number_of_users := n |>)
        else Ok m in
      let! n := safe_u 32 (number_of_users_with_base m + 1) in
      Ok (m <| number_of_users_with_base := n |>)
  | Close =>
      let m :=
        if (new_base =? 0) && (new_quote =? 0) then m <| number_of_users := usat 32 (number_of_users m - 1) |> else m in
      Ok (m <| number_of_users_with_base := usat 32 (number_of_users_with_base m - 1) |>)
  | _ => Ok m
  end.

(** Base, entry and break-even amounts added to the totals of one side. *)
Definition add_side (long : bool) (m : PerpMarket) (base entry break_even : Z) : DriftResult PerpMarket :=
  if long then
    let! b := safe_i 128 (base_asset_amount_long (amm m) + base) in
    let! e := safe_i 128 (quote_entry_amount_long (amm m) + entry) in
    let! k := safe_i 128 (quote_break_even_amount_long (amm m) + break_even) in
    Ok (m <| amm ; base_asset_amount_long := b |> <| amm ; quote_entry_amount_long := e |>
          <| amm ; quote_break_even_amount_long := k |>)
  else
    let! b := safe_i 128 (base_asset_amount_short (amm m) + base) in
    let! e := safe_i 128 (quote_entry_amount_short (amm m) + entry) in
    let! k := safe_i 128 (quote_break_even_amount_short (amm m) + break_even) in
    Ok (m <| amm ; base_asset_amount_short := b |> <| amm ; quote_entry_amount_short := e |>
          <| amm ; quote_break_even_amount_short := k |>).

Definition update_market_totals (m : PerpMarket) (p : PerpPosition) (delta : PositionDelta) (t : PositionUpdateType)
    (new_base new_entry new_break_even : Z) : DriftResult PerpMarket :=
  let! q := safe_i 128 (amm_quote_asset_amount (amm m) + pd_quote_asset_amount delta) in
  let m := m <| amm ; amm_quote_asset_amount := q |> in
  let dq := pd_quote_asset_amount delta in
  match t with
  | Open | Increase => add_side (0 <? new_base) m (pd_base_asset_amount delta) dq dq
  | Reduce | Close =>
      let! e := safe_i 64 (pp_quote_entry_amount p - new_entry) in
      let! k := safe_i 64 (pp_quote_break_even_amount p - new_break_even) in
      add_side (0 <? pp_base_asset_amount p) m (pd_base_asset_amount delta) (- e) (- k)
  | Flip =>
      let! m := add_side (negb (0 <? new_base)) m (- pp_base_asset_amount p) (- pp_quote_entry_amount p)
                  (- pp_quote_break_even_amount p) in
      add_side (0 <? new_base) m new_base new_entry new_break_even
  end.

(** The position's funding rate must be the market's before it changes, unless the
    position is flat. *)
Definition require_funding_settled (p : PerpPosition) (a : AMM) : DriftResult unit :=
  match get_direction p with
  | Long =>
      if pp_base_asset_amount p =? 0 then Ok tt
      else validate (pp_last_cumulative_funding_rate p =? cumulative_funding_rate_long a) InvalidPositionLastFundingRate
  | Short =>
      let! r := cast_i 64 (cumulative_funding_rate_short a) in
      validate (pp_last_cumulative_funding_rate p =? r) InvalidPositionLastFundingRate
  end.

Definition new_funding_rate (p : PerpPosition) (a : AMM) (t : PositionUpdateType) (new_base : Z) : DriftResult Z :=
  match t with
  | Close => Ok 0
  | Reduce => Ok (pp_last_cumulative_funding_rate p)
  | _ => cast_i 64 (if 0 <? new_base then cumulative_funding_rate_long a else cumulative_funding_rate_short a)
  end.

Definition update_quote_asset_amount (p : PerpPosition) (m : PerpMarket) (delta : Z) :
    DriftResult (PerpPosition * PerpMarket) :=
  if delta =? 0 then Ok (p, m)
  else
    let! m :=
      if (pp_quote_asset_amount p =? 0) && (pp_base_asset_amount p =? 0) then
        let! n := safe_u 32 (number_of_users m + 1) in Ok (m <| number_of_users := n |>)
      else Ok m in
    let! q := safe_i 64 (pp_quote_asset_amount p + delta) in
    let p := p <| pp_quote_asset_amount := q |> in
    let! x := safe_i 128 (amm_quote_asset_amount (amm m) + delta) in
    let m := m <| amm ; amm_quote_asset_amount := x |> in
    if (pp_quote_asset_amount p =? 0) && (pp_base_asset_amount p =? 0) then
      Ok (p, m <| number_of_users := usat 32 (number_of_users m - 1) |>)
    else Ok (p, m).

Definition update_quote_break_even_amount (p : PerpPosition) (m : PerpMarket) (delta : Z) :
    DriftResult (PerpPosition * PerpMarket) :=
  if (delta =? 0) || (pp_base_asset_amount p =? 0) then Ok (p, m)
  else
    let! k := safe_i 64 (pp_quote_break_even_amount p + delta) in
    let p := p <| pp_quote_break_even_amount := k |> in
    match get_direction p with
    | Long =>
        let! x := safe_i 128 (quote_break_even_amount_long (amm m) + delta) in
        Ok (p, m <| amm ; quote_break_even_amount_long := x |>)
    | Short =>
        let! x := safe_i 128 (quote_break_even_amount_short (amm m) + delta) in
        Ok (p, m <| amm ; quote_break_even_amount_short := x |>)
    end.

Definition update_quote_asset_and_break_even_amount (p : PerpPosition) (m : PerpMarket) (delta : Z) :
    DriftResult (PerpPosition * PerpMarket) :=
  let! '(p, m) := update_quote_asset_amount p m delta in
  update_quote_break_even_amount p m delta.

(** The step size is checked on the position as it was. *)
Definition update_position_and_market (p : PerpPosition) (m : PerpMarket) (delta : PositionDelta) :
    DriftResult (PerpPosition * PerpMarket * Z) :=
  if pd_base_asset_amount delta =? 0 then
    let! '(p, m) := update_quote_asset_amount p m (pd_quote_asset_amount delta) in
    Ok (p, m, pd_quote_asset_amount delta)
  else
    let! t := get_position_update_type p delta in
    let! '(new_base, new_quote) := get_new_position_amounts p delta in
    let! '(new_entry, new_break_even, pnl) := new_entry_amounts p delta t in
    let! m := count_users m p new_base new_quote t in
    let! m := update_market_totals m p delta t new_base new_entry new_break_even in
    do! require_funding_settled p (amm m) in
    let! rate := new_funding_rate p (amm m) t new_base in
    let! aligned := is_multiple_of_step_size (Z.abs (pp_base_asset_amount p)) (order_step_size (amm m)) in
    do! validate aligned InvalidPerpPositionDetected in
    Ok (p <| pp_last_cumulative_funding_rate := rate |> <| pp_base_asset_amount := new_base |>
          <| pp_quote_asset_amount := new_quote |> <| pp_quote_entry_amount := new_entry |>
          <| pp_quote_break_even_amount := new_break_even |>, m, pnl).

(** The amount at the fill's price, and what the market maker gains by it. *)
Definition fill_price_surplus (d : PositionDirection) (quote_asset_swapped base_asset_amount fill_price : Z) :
    DriftResult (Z * Z) :=
  let! q := calculate_quote_asset_amount_for_maker_order base_asset_amount fill_price PERP_DECIMALS d in
  let! surplus :=
    match d with
    | Long => let! x := cast_i 64 q in let! s := cast_i 64 quote_asset_swapped in safe_i 64 (x - s)
    | Short => let! s := cast_i 64 quote_asset_swapped in let! x := cast_i 64 q in safe_i 64 (s - x)
    end in
  Ok (q, surplus).

(** A fill against the market maker. *)
Definition update_position_with_base_asset_amount {roots : Roots} (base_asset_amount : Z) (d : PositionDirection)
    (m : PerpMarket) (u : User) (position_index : Z) (fill_price : option Z) :
    DriftResult (PerpMarket * User * (Z * Z * Z)) :=
  let! '(m, (quote_asset_swapped, swap_surplus)) :=
    swap_base_asset m base_asset_amount (match d with Long => Remove | Short => Add end) in
  let! '(quote_asset_amount, surplus) :=
    match fill_price with
    | Some fill_price => fill_price_surplus d quote_asset_swapped base_asset_amount fill_price
    | None => Ok (quote_asset_swapped, swap_surplus)
    end in
  let! delta := get_position_delta_for_fill base_asset_amount quote_asset_amount d in
  let! p := idx (u_perp_positions u) position_index in
  let! '(p, m, pnl) := update_position_and_market p m delta in
  let! l := set_idx (u_perp_positions u) position_index p in
  let! w := safe_i 128 (base_asset_amount_with_amm (amm m) + pd_base_asset_amount delta) in
  let m := m <| amm ; base_asset_amount_with_amm := w |> in
  do! validate (Z.abs w <=? MAX_BASE_ASSET_AMOUNT_WITH_AMM) InvalidAmmDetected in
  let! m := update_spread_reserves m in
  Ok (m, u <| u_perp_positions := l |>, (quote_asset_amount, surplus, pnl)).

Definition update_position_settled_pnl (p : PerpPosition) (delta : Z) : DriftResult PerpPosition :=
  let! x := safe_i 64 (pp_settled_pnl p + delta) in Ok (p <| pp_settled_pnl := x |>).

Definition update_user_settled_pnl (u : User) (delta : Z) : DriftResult User :=
  let! x := safe_i 64 (u_settled_perp_pnl u + delta) in Ok (u <| u_settled_perp_pnl := x |>).

Definition update_settled_pnl (u : User) (position_index delta : Z) : DriftResult User :=
  let! u := update_user_settled_pnl u delta in
  let! p := idx (u_perp_positions u) position_index in
  let! p := update_position_settled_pnl p delta in
  let! l := set_idx (u_perp_positions u) position_index p in
  Ok (u <| u_perp_positions := l |>).

(** ** Open orders of the position *)

Definition increase_open_bids_and_asks (p : PerpPosition) (d : PositionDirection) (unfilled : Z) (update : bool) :
    DriftResult PerpPosition :=
  if negb update then Ok p
  else
    let! x := cast_i 64 unfilled in
    match d with
    | Long => let! b := safe_i 64 (pp_open_bids p + x) in Ok (p <| pp_open_bids := b |>)
    | Short => let! k := safe_i 64 (pp_open_asks p - x) in Ok (p <| pp_open_asks := k |>)
    end.

Definition decrease_open_bids_and_asks (p : PerpPosition) (d : PositionDirection) (unfilled : Z) (update : bool) :
    DriftResult PerpPosition :=
  if negb update then Ok p
  else
    let! x := cast_i 64 unfilled in
    match d with
    | Long => let! b := safe_i 64 (pp_open_bids p - x) in Ok (p <| pp_open_bids := Z.max b 0 |>)
    | Short => let! k := safe_i 64 (pp_open_asks p + x) in Ok (p <| pp_open_asks := Z.min k 0 |>)
    end.

(** ** The totals of the market *)

(** A total of the market and the share of it a position has. *)
Definition on_long (f : PerpPosition -> Z) (p : PerpPosition) : Z := if 0 <? pp_base_asset_amount p then f p else 0.
Definition on_short (f : PerpPosition -> Z) (p : PerpPosition) : Z := if pp_base_asset_amount p <? 0 then f p else 0.
Definition has_base (p : PerpPosition) : Z := if pp_base_asset_amount p =? 0 then 0 else 1.
Definition is_user (p : PerpPosition) : Z :=
  if (pp_quote_asset_amount p =? 0) && (pp_base_asset_amount p =? 0) then 0 else 1.

Definition total_shares_of_market : list ((PerpMarket -> Z) * (PerpPosition -> Z)) :=
  [ (fun m => base_asset_amount_long (amm m), on_long pp_base_asset_amount);
    (fun m => base_asset_amount_short (amm m), on_short pp_base_asset_amount);
    (fun m => quote_entry_amount_long (amm m), on_long pp_quote_entry_amount);
    (fun m => quote_entry_amount_short (amm m), on_short pp_quote_entry_amount);
    (fun m => quote_break_even_amount_long (amm m), on_long pp_quote_break_even_amount);
    (fun m => quote_break_even_amount_short (amm m), on_short pp_quote_break_even_amount);
    (fun m => amm_quote_asset_amount (amm m), pp_quote_asset_amount);
    (number_of_users, is_user);
    (number_of_users_with_base, has_base) ].

(** The market's totals are the sums over its positions, and a position without
    base has neither entry nor break-even amount. *)
Record totals_exact (m : PerpMarket) (ps : list PerpPosition) : Prop := {
  te_sums : Forall (fun '(total, share) => total m = sum_z share ps) total_shares_of_market;
  te_flat : Forall (fun p => pp_base_asset_amount p = 0 ->
                             pp_quote_entry_amount p = 0 /\ pp_quote_break_even_amount p = 0) ps;
  te_users : in_u 32 (number_of_users m) /\ in_u 32 (number_of_users_with_base m);
}.

(** A step takes the totals as it takes the position's shares. *)
Definition moves (m m' : PerpMarket) (p p' : PerpPosition) : Prop :=
  Forall (fun '(total, share) => total m' - total m = share p' - share p) total_shares_of_market.

Record step_ok (m m' : PerpMarket) (p p' : PerpPosition) : Prop := {
  so_moves : moves m m' p p';
  so_flat : pp_base_asset_amount p' = 0 -> pp_quote_entry_amount p' = 0 /\ pp_quote_break_even_amount p' = 0;
  so_users : in_u 32 (number_of_users m') /\ in_u 32 (number_of_users_with_base m');
}.

(** What a step needs to know of the position and the market. *)
Record counted (m : PerpMarket) (p : PerpPosition) : Prop := {
  ct_flat : pp_base_asset_amount p = 0 -> pp_quote_entry_amount p = 0 /\ pp_quote_break_even_amount p = 0;
  ct_users : is_user p <= number_of_users m < 2 ^ 32;
  ct_base : has_base p <= number_of_users_with_base m < 2 ^ 32;
}.

Lemma exact_counted m ps i p : totals_exact m ps -> ps !! i = Some p -> counted m p.
Proof.
  intros [Hs Hf [[_ Hu] [_ Hb]]] Hi. constructor.
  - by apply (Forall_lookup_1 _ _ _ _ Hf Hi).
  - split; [|done]. repeat apply Forall_cons in Hs as [? Hs]. 
    match goal with H : number_of_users m = _ |- _ => rewrite H end.
    apply (sum_z_ge _ _ i); [|done]. apply Forall_true. intros q. unfold is_user. by destruct (_ && _).
  - split; [|done]. repeat apply Forall_cons in Hs as [? Hs]. 
    match goal with H : number_of_users_with_base m = _ |- _ => rewrite H end.
    apply (sum_z_ge _ _ i); [|done]. apply Forall_true. intros q. unfold has_base. by destruct (_ =? _).
Qed.

Lemma step_exact m m' ps i p p' :
  totals_exact m ps -> ps !! i = Some p -> step_ok m m' p p' -> totals_exact m' (<[i := p']> ps).
Proof.
  intros [Hs Hf _] Hi [Hm Hp Hu]. constructor; [|by apply Forall_insert|done].
  apply Forall_forall. intros [total share] Hin. unfold moves in Hm. rewrite Forall_forall in Hs, Hm.
  specialize (Hs _ Hin). specialize (Hm _ Hin). cbn in Hs, Hm. rewrite (sum_z_insert _ _ i p p') by done. lia.
Qed.

(** The share of the six totals of the sides that [add_side] adds. *)
Lemma add_side_Ok long m b e k m' :
  add_side long m b e k = Ok m' ->
  let l (x : Z) := if long then x else 0 in
  let s (x : Z) := if long then 0 else x in
  base_asset_amount_long (amm m') = base_asset_amount_long (amm m) + l b
  /\ base_asset_amount_short (amm m') = base_asset_amount_short (amm m) + s b
  /\ quote_entry_amount_long (amm m') = quote_entry_amount_long (amm m) + l e
  /\ quote_entry_amount_short (amm m') = quote_entry_amount_short (amm m) + s e
  /\ quote_break_even_amount_long (amm m') = quote_break_even_amount_long (amm m) + l k
  /\ quote_break_even_amount_short (amm m') = quote_break_even_amount_short (amm m) + s k
  /\ amm_quote_asset_amount (amm m') = amm_quote_asset_amount (amm m)
  /\ number_of_users m' = number_of_users m /\ number_of_users_with_base m' = number_of_users_with_base m.
Proof.
  intros H. unfold add_side in H. destruct long;
    apply obind_Ok in H as (b' & [-> _]%safe_i_Ok & H); apply obind_Ok in H as (e' & [-> _]%safe_i_Ok & H);
    apply obind_Ok in H as (k' & [-> _]%safe_i_Ok & [= <-]); cbn; split_and!; lia.
Qed.

Lemma update_type_Ok p delta t :
  get_position_update_type p delta = Ok t ->
  let b := pp_base_asset_amount p in
  let d := pd_base_asset_amount delta in
  match t with
  | Open => b = 0
  | Increase => b <> 0 /\ Z.sgn b = Z.sgn d
  | Reduce => b <> 0 /\ Z.sgn b <> Z.sgn d /\ Z.abs d < Z.abs b
  | Close => b <> 0 /\ Z.sgn b <> Z.sgn d /\ Z.abs d = Z.abs b
  | Flip => b <> 0 /\ Z.sgn b <> Z.sgn d /\ Z.abs b < Z.abs d
  end.
Proof.
  intros H. unfold get_position_update_type in H. cbv zeta.
  destruct (Z.eqb_spec (pp_base_asset_amount p) 0); [by injection H as <-|].
  destruct (Z.eqb_spec (Z.sgn (pp_base_asset_amount p)) (Z.sgn (pd_base_asset_amount delta))); [by injection H as <-|].
  apply obind_Ok in H as (b & [-> _]%ichk_Ok & H). apply obind_Ok in H as (d & [-> _]%ichk_Ok & H).
  destruct (Z.ltb_spec (Z.abs (pd_base_asset_amount delta)) (Z.abs (pp_base_asset_amount p))); [by injection H as <-|].
  destruct (Z.eqb_spec (Z.abs (pp_base_asset_amount p)) (Z.abs (pd_base_asset_amount delta))); injection H as <-;
    split_and!; (done || lia).
Qed.

Lemma reduced_Ok amount part whole r : reduced amount part whole = Ok r -> r = amount - Z.quot (amount * part) whole.
Proof. intros H. unfold reduced in H. drift_inv. reflexivity. Qed.

Lemma reduced_whole amount whole r : reduced amount whole whole = Ok r -> whole <> 0 -> r = 0.
Proof. intros ->%reduced_Ok Hw. rewrite Z.quot_mul by done. lia. Qed.

(** The profit and the new entry amount account for the old one and the quote. *)
Lemma new_entry_amounts_Ok p delta t entry break_even pnl :
  new_entry_amounts p delta t = Ok (entry, break_even, pnl) ->
  pnl + entry = pp_quote_entry_amount p + pd_quote_asset_amount delta
  /\ match t with
     | Open | Increase => pnl = 0 /\ break_even = pp_quote_break_even_amount p + pd_quote_asset_amount delta
     | Reduce | Close =>
         let part := Z.abs (pd_base_asset_amount delta) in
         let whole := Z.abs (pp_base_asset_amount p) in
         entry = pp_quote_entry_amount p - Z.quot (pp_quote_entry_amount p * part) whole
         /\ break_even = pp_quote_break_even_amount p - Z.quot (pp_quote_break_even_amount p * part) whole
     | Flip =>
         entry = pd_quote_asset_amount delta
                 - Z.quot (pd_quote_asset_amount delta * Z.abs (pp_base_asset_amount p)) (Z.abs (pd_base_asset_amount delta))
         /\ break_even = entry
     end.
Proof.
  intros H. unfold new_entry_amounts in H. destruct t.
  1-2: apply obind_Ok in H as (e & [-> _]%safe_i_Ok & H); apply obind_Ok in H as (k & [-> _]%safe_i_Ok & [= <- <- <-]);
    split_and!; (done || lia).
  1-2: apply obind_Ok in H as (d & [-> _]%ichk_Ok & H); apply obind_Ok in H as (e & ->%reduced_Ok & H);
    apply obind_Ok in H as (k & ->%reduced_Ok & H); apply obind_Ok in H as (x & [-> _]%safe_i_Ok & H);
    apply obind_Ok in H as (y & [-> _]%safe_i_Ok & [= <- <- <-]); split_and!; (done || lia).
  apply obind_Ok in H as (d & [-> _]%ichk_Ok & H); apply obind_Ok in H as (k & ->%reduced_Ok & H).
  apply obind_Ok in H as (x & [-> _]%safe_i_Ok & H); apply obind_Ok in H as (y & [-> _]%safe_i_Ok & [= <- <- <-]).
  split_and!; (done || lia).
Qed.

(** The kind of the update says whether the position had base and has it after. *)
Lemma update_type_base p delta t :
  get_position_update_type p delta = Ok t -> pd_base_asset_amount delta <> 0 ->
  let b := pp_base_asset_amount p in
  let b' := b + pd_base_asset_amount delta in
  match t with
  | Open => b = 0 /\ b' <> 0
  | Increase | Reduce => 0 < b /\ 0 < b' \/ b < 0 /\ b' < 0
  | Close => b <> 0 /\ b' = 0
  | Flip => 0 < b /\ b' < 0 \/ b < 0 /\ 0 < b'
  end.
Proof. intros H%update_type_Ok Hd. cbv zeta in *. destruct t; lia. Qed.

Lemma count_users_Ok m p b' q' t m' p' :
  count_users m p b' q' t = Ok m' -> counted m p -> pp_base_asset_amount p' = b' -> pp_quote_asset_amount p' = q' ->
  (match t with
   | Open => pp_base_asset_amount p = 0 /\ b' <> 0
   | Close => pp_base_asset_amount p <> 0 /\ b' = 0
   | _ => pp_base_asset_amount p <> 0 /\ b' <> 0
   end) ->
  number_of_users m' - number_of_users m = is_user p' - is_user p
  /\ number_of_users_with_base m' - number_of_users_with_base m = has_base p' - has_base p
  /\ in_u 32 (number_of_users m') /\ in_u 32 (number_of_users_with_base m') /\ amm m' = amm m.
Proof.
  intros H [_ Hu Hb] Hb' Hq' Ht. unfold count_users in H.
  unfold is_user, has_base in *. rewrite Hb', Hq'.
  assert (Hnz : forall x, x <> 0 -> (x =? 0) = false) by (intros x; apply Z.eqb_neq).
  destruct t; destruct Ht as [Hp Hn].
  - rewrite Hp, (Hnz b' Hn), Z.eqb_refl, !andb_true_r, andb_false_r in *.
    destruct (pp_quote_asset_amount p =? 0); cbn [obind] in H.
    + apply obind_Ok in H as (m1 & H1 & H). apply obind_Ok in H1 as (n & [-> Hn1]%safe_u_Ok & [= <-]).
      apply obind_Ok in H as (k & [-> Hk]%safe_u_Ok & [= <-]). cbn in *. split_and!; (done || lia).
    + apply obind_Ok in H as (k & [-> Hk]%safe_u_Ok & [= <-]). cbn in *. split_and!; (done || range || lia).
  - injection H as <-. rewrite (Hnz _ Hp), (Hnz _ Hn), !andb_false_r in *. split_and!; (done || range || lia).
  - injection H as <-. rewrite (Hnz _ Hp), (Hnz _ Hn), !andb_false_r in *. split_and!; (done || range || lia).
  - rewrite Hn, (Hnz _ Hp), Z.eqb_refl, !andb_false_r in *. cbn [andb] in H.
    assert (Hs : forall x, 1 <= x < 2 ^ 32 -> usat 32 (x - 1) = x - 1) by (intros x Hx; apply usat_id; range).
    destruct (q' =? 0); injection H as <-; cbn; rewrite !Hs by lia; split_and!; (done || range || lia).
  - injection H as <-. rewrite (Hnz _ Hp), (Hnz _ Hn), !andb_false_r in *. split_and!; (done || range || lia).
Qed.

(** The totals of the sides move as the position's shares. *)
Lemma update_market_totals_Ok m p delta t entry break_even m' p' :
  pd_base_asset_amount delta <> 0 -> get_position_update_type p delta = Ok t ->
  (pp_base_asset_amount p = 0 -> pp_quote_entry_amount p = 0 /\ pp_quote_break_even_amount p = 0) ->
  pp_base_asset_amount p' = pp_base_asset_amount p + pd_base_asset_amount delta ->
  pp_quote_entry_amount p' = entry -> pp_quote_break_even_amount p' = break_even ->
  (match t with
   | Open | Increase => entry = pp_quote_entry_amount p + pd_quote_asset_amount delta
                        /\ break_even = pp_quote_break_even_amount p + pd_quote_asset_amount delta
   | Close => entry = 0 /\ break_even = 0
   | _ => True
   end) ->
  update_market_totals m p delta t (pp_base_asset_amount p') entry break_even = Ok m' ->
  base_asset_amount_long (amm m') - base_asset_amount_long (amm m)
    = on_long pp_base_asset_amount p' - on_long pp_base_asset_amount p
  /\ base_asset_amount_short (amm m') - base_asset_amount_short (amm m)
    = on_short pp_base_asset_amount p' - on_short pp_base_asset_amount p
  /\ quote_entry_amount_long (amm m') - quote_entry_amount_long (amm m)
    = on_long pp_quote_entry_amount p' - on_long pp_quote_entry_amount p
  /\ quote_entry_amount_short (amm m') - quote_entry_amount_short (amm m)
    = on_short pp_quote_entry_amount p' - on_short pp_quote_entry_amount p
  /\ quote_break_even_amount_long (amm m') - quote_break_even_amount_long (amm m)
    = on_long pp_quote_break_even_amount p' - on_long pp_quote_break_even_amount p
  /\ quote_break_even_amount_short (amm m') - quote_break_even_amount_short (amm m)
    = on_short pp_quote_break_even_amount p' - on_short pp_quote_break_even_amount p
  /\ amm_quote_asset_amount (amm m') = amm_quote_asset_amount (amm m) + pd_quote_asset_amount delta
  /\ number_of_users m' = number_of_users m /\ number_of_users_with_base m' = number_of_users_with_base m.
Proof.
  intros Hd Ht Hflat Hb He Hk Hx H. pose proof (update_type_base p delta t Ht Hd) as Hs. cbv zeta in Hs. rewrite <- Hb in Hs.
  unfold update_market_totals in H. apply obind_Ok in H as (q & [-> _]%safe_i_Ok & H).
  unfold on_long, on_short. rewrite He, Hk.
  destruct t; cbn beta iota in H.
  5: apply obind_Ok in H as (m1 & H1%add_side_Ok & H).
  3-4: apply obind_Ok in H as (e & [-> _]%safe_i_Ok & H); apply obind_Ok in H as (k & [-> _]%safe_i_Ok & H).
  all: apply add_side_Ok in H; cbn in H; try cbn in H1.
  all: destruct (Z.ltb_spec 0 (pp_base_asset_amount p')), (Z.ltb_spec (pp_base_asset_amount p') 0),
    (Z.ltb_spec 0 (pp_base_asset_amount p)), (Z.ltb_spec (pp_base_asset_amount p) 0); try (exfalso; lia);
    cbn in *; try (destruct (Hflat ltac:(lia)) as [Hf1 Hf2]; rewrite ?Hf1, ?Hf2 in * ); split_and!; lia.
Qed.

Lemma has_base_nonneg p : 0 <= has_base p.
Proof. unfold has_base. by destruct (_ =? _). Qed.
Lemma is_user_bounds p : 0 <= is_user p <= 1.
Proof. unfold is_user. by destruct (_ && _). Qed.

(** Only the quote of the position and the count of users change. *)
Lemma quote_only_step m m' p q :
  amm m' = amm m <| amm_quote_asset_amount := amm_quote_asset_amount (amm m) + q - pp_quote_asset_amount p |> ->
  number_of_users_with_base m' = number_of_users_with_base m ->
  number_of_users m' - number_of_users m = is_user (p <| pp_quote_asset_amount := q |>) - is_user p ->
  in_u 32 (number_of_users m') -> counted m p -> step_ok m m' p (p <| pp_quote_asset_amount := q |>).
Proof.
  intros Ha Hw Hn Hu [Hf _ Hb]. pose proof (has_base_nonneg p).
  constructor; [|exact Hf|split; [done|range]].
  unfold moves, total_shares_of_market. repeat (apply Forall_cons; split); [..|by apply Forall_nil];
    cbn; rewrite ?Ha; unfold on_long, on_short, has_base; cbn; lia.
Qed.

Lemma no_step m p : counted m p -> step_ok m m p p.
Proof.
  intros [Hf Hu Hb]. pose proof (has_base_nonneg p).
  pose proof (is_user_bounds p).
  constructor; [|done|split; range].
  apply Forall_forall. intros [total share] _. cbn. lia.
Qed.

Lemma quote_step p m delta p' m' :
  counted m p -> update_quote_asset_amount p m delta = Ok (p', m') -> step_ok m m' p p'.
Proof.
  intros Hc H. pose proof Hc as [Hf Hu Hb]. unfold update_quote_asset_amount in H.
  pose proof (has_base_nonneg p) as Hbase.
  pose proof (is_user_bounds p) as Husr.
  destruct (Z.eqb_spec delta 0); [injection H as <- <-; by apply no_step|].
  apply obind_Ok in H as (m1 & H1 & H). apply obind_Ok in H as (q & [-> _]%safe_i_Ok & H).
  apply obind_Ok in H as (x & [-> _]%safe_i_Ok & H). cbn in H.
  assert (Hm1 : number_of_users m1 = number_of_users m + (1 - is_user p) /\ in_u 32 (number_of_users m1) /\ amm m1 = amm m
    /\ number_of_users_with_base m1 = number_of_users_with_base m).
  { unfold is_user in *. destruct ((pp_quote_asset_amount p =? 0) && (pp_base_asset_amount p =? 0)).
    - apply obind_Ok in H1 as (users & [-> Hn]%safe_u_Ok & [= <-]). cbn. split_and!; (done || lia).
    - injection H1 as <-. split_and!; (done || range || lia). }
  destruct Hm1 as (Hm1 & Hn & Ha & Hw).
  assert (Hs : 1 <= number_of_users m1 -> usat 32 (number_of_users m1 - 1) = number_of_users m1 - 1)
    by (intros; apply usat_id; range).
  assert (Hone : 1 <= number_of_users m1) by lia.
  assert (Hx : pp_quote_asset_amount p + delta - pp_quote_asset_amount p = delta) by lia.
  assert (Hgoal : p' = p <| pp_quote_asset_amount := pp_quote_asset_amount p + delta |>
    /\ amm m' = amm m <| amm_quote_asset_amount := amm_quote_asset_amount (amm m) + delta |>
    /\ number_of_users_with_base m' = number_of_users_with_base m
    /\ number_of_users m' = number_of_users m1 - 1 + is_user (p <| pp_quote_asset_amount := pp_quote_asset_amount p + delta |>)).
  { unfold is_user. cbn. destruct ((pp_quote_asset_amount p + delta =? 0) && (pp_base_asset_amount p =? 0)); injection H as <- <-; cbn; rewrite Ha, ?Hs by done; split_and!; (done || lia). }
  destruct Hgoal as (-> & Ham & Hwb & Hnu).
  apply quote_only_step; [|done|lia| |done].
  { rewrite Ham. by replace (amm_quote_asset_amount (amm m) + (pp_quote_asset_amount p + delta) - pp_quote_asset_amount p)
      with (amm_quote_asset_amount (amm m) + delta) by lia. }
  pose proof (is_user_bounds (p <| pp_quote_asset_amount := pp_quote_asset_amount p + delta |>)). range.
Qed.

Lemma break_even_step p m delta p' m' :
  counted m p -> update_quote_break_even_amount p m delta = Ok (p', m') -> step_ok m m' p p'.
Proof.
  intros Hc H. unfold update_quote_break_even_amount in H.
  destruct (Z.eqb_spec delta 0); [injection H as <- <-; by apply no_step|].
  destruct (Z.eqb_spec (pp_base_asset_amount p) 0) as [|Hz]; [injection H as <- <-; by apply no_step|]. cbn [orb] in H.
  apply obind_Ok in H as (k & [-> _]%safe_i_Ok & H). destruct Hc as [Hf Hu Hb].
  pose proof (has_base_nonneg p). pose proof (is_user_bounds p).
  unfold get_direction in H. cbn in H.
  destruct (Z.leb_spec 0 (pp_base_asset_amount p)); apply obind_Ok in H as (x & [-> _]%safe_i_Ok & [= <- <-]);
    (constructor; [|cbn; lia|cbn; split; range]);
    (repeat (apply Forall_cons; split); [..|by apply Forall_nil]); cbn; unfold on_long, on_short, is_user, has_base; cbn;
    destruct (Z.ltb_spec 0 (pp_base_asset_amount p)), (Z.ltb_spec (pp_base_asset_amount p) 0); lia.
Qed.

(** Two steps on one position, one after the other. *)
Lemma step_trans m m1 m2 p p1 p2 : step_ok m m1 p p1 -> step_ok m1 m2 p1 p2 -> step_ok m m2 p p2.
Proof.
  intros [H1 _ _] [H2 Hf Hu]. constructor; [|done|done]. unfold moves in *. rewrite Forall_forall in H1, H2 |- *.
  intros [total share] Hin. specialize (H1 _ Hin). specialize (H2 _ Hin). cbn in *. lia.
Qed.

Lemma step_counted m m' p p' : counted m p -> step_ok m m' p p' -> counted m' p'.
Proof.
  intros [_ Hu Hb] [Hm Hf [Hu' Hb']]. unfold moves in Hm. repeat apply Forall_cons in Hm as [? Hm].
  cbn in *. constructor; [done|unfold in_u in *; lia..].
Qed.

Lemma fees_step p m delta p' m' :
  counted m p -> update_quote_asset_and_break_even_amount p m delta = Ok (p', m') -> step_ok m m' p p'.
Proof.
  intros Hc H. unfold update_quote_asset_and_break_even_amount in H. apply obind_Ok in H as ([p1 m1] & H1 & H2).
  apply quote_step in H1; [|done]. apply break_even_step in H2; [|by apply (step_counted m m1 p p1)].
  by apply (step_trans m m1 m' p p1 p').
Qed.

(** What a fill of a non-zero base amount does to the position and the market. *)
Lemma fill_Ok p m delta p' m' pnl :
  pd_base_asset_amount delta <> 0 -> update_position_and_market p m delta = Ok (p', m', pnl) ->
  exists t m1, get_position_update_type p delta = Ok t
    /\ new_entry_amounts p delta t = Ok (pp_quote_entry_amount p', pp_quote_break_even_amount p', pnl)
    /\ pp_base_asset_amount p' = pp_base_asset_amount p + pd_base_asset_amount delta
    /\ pp_quote_asset_amount p' = pp_quote_asset_amount p + pd_quote_asset_amount delta
    /\ count_users m p (pp_base_asset_amount p') (pp_quote_asset_amount p') t = Ok m1
    /\ update_market_totals m1 p delta t (pp_base_asset_amount p') (pp_quote_entry_amount p')
         (pp_quote_break_even_amount p') = Ok m'.
Proof.
  intros Hd H. unfold update_position_and_market in H. rewrite (proj2 (Z.eqb_neq _ _) Hd) in H.
  apply obind_Ok in H as (t & Ht & H). apply obind_Ok in H as ([b q] & Ha & H).
  unfold get_new_position_amounts in Ha. apply obind_Ok in Ha as (q' & [-> _]%safe_i_Ok & Ha).
  apply obind_Ok in Ha as (b' & [-> _]%safe_i_Ok & [= <- <-]).
  apply obind_Ok in H as ([[e k] r] & He & H). apply obind_Ok in H as (m1 & H1 & H).
  apply obind_Ok in H as (m2 & H2 & H). apply obind_Ok in H as (? & _ & H). apply obind_Ok in H as (rate & _ & H).
  apply obind_Ok in H as (al & _ & H). apply obind_Ok in H as (? & _ & [= <- <- <-]).
  exists t, m1. cbn. split_and!; done.
Qed.

Lemma fill_step p m delta p' m' pnl :
  counted m p -> update_position_and_market p m delta = Ok (p', m', pnl) -> step_ok m m' p p'.
Proof.
  intros Hc H. destruct (Z.eq_dec (pd_base_asset_amount delta) 0) as [Hz|Hd].
  - unfold update_position_and_market in H. rewrite Hz in H. cbn [Z.eqb] in H.
    apply obind_Ok in H as ([p1 m1] & H & [= <- <- _]). by apply quote_step in H.
  - destruct (fill_Ok p m delta p' m' pnl Hd H) as (t & m1 & Ht & (Hpnl & He)%new_entry_amounts_Ok & Hb & Hq & Hu & Hm).
    pose proof (update_type_base p delta t Ht Hd) as Hs. cbv zeta in Hs. rewrite <- Hb in Hs.
    pose proof (update_type_Ok p delta t Ht) as Hty. cbv zeta in Hty.
    apply (count_users_Ok _ _ _ _ _ _ p') in Hu as (Hn & Hw & Hnu & Hwu & Ha); [|done..|destruct t; lia].
    assert (Hclose : t = Close -> pp_quote_entry_amount p' = 0 /\ pp_quote_break_even_amount p' = 0).
    { intros ->. destruct Hty as (Hp & _ & Heq). cbv zeta in He. rewrite Heq in He. destruct He as [-> ->].
      rewrite !Z.quot_mul by lia. lia. }
    apply (update_market_totals_Ok _ _ _ _ _ _ _ p') in Hm as (M1 & M2 & M3 & M4 & M5 & M6 & M7 & M8 & M9);
      [|done..|by apply Hc|done|done|done|destruct t; first [exact I|by apply Hclose|split; lia]].
    rewrite Ha in M1, M2, M3, M4, M5, M6, M7. constructor; [|destruct t; (by intros; apply Hclose) || lia|by rewrite M8, M9].
    repeat (apply Forall_cons; split); [..|by apply Forall_nil]; lia.
Qed.

(** A fill against the market maker changes nothing else of the totals. *)
Lemma same_totals m m' p : Forall (fun '(total, _) => total m' = total m) total_shares_of_market -> counted m p -> step_ok m m' p p.
Proof.
  intros Hs [Hf Hu Hb]. pose proof (has_base_nonneg p). pose proof (is_user_bounds p).
  constructor; [|done|].
  - unfold moves. rewrite Forall_forall in Hs |- *. intros [total share] Hin. specialize (Hs _ Hin). cbn in *. lia.
  - repeat apply Forall_cons in Hs as [? Hs]. cbn in *. split; range.
Qed.

Lemma spread_reserves_totals {roots : Roots} m m' :
  update_spread_reserves m = Ok m' -> Forall (fun '(total, _) => total m' = total m) total_shares_of_market.
Proof.
  intros H. unfold update_spread_reserves in H. apply obind_Ok in H as ([ab aq] & _ & H).
  apply obind_Ok in H as ([bb bq] & _ & H). destruct (_ =? _); injection H as <-; repeat constructor.
Qed.

Lemma amm_fill_step {roots : Roots} x d m u j price m' u' r p :
  counted m p -> u_perp_positions u !! Z.to_nat j = Some p ->
  update_position_with_base_asset_amount x d m u j price = Ok (m', u', r) ->
  exists p', u_perp_positions u' !! Z.to_nat j = Some p' /\ step_ok m m' p p'.
Proof.
  intros Hc Hp H. unfold update_position_with_base_asset_amount in H. apply obind_Ok in H as ([m1 [q s]] & H1 & H).
  apply obind_Ok in H as ([q' s'] & _ & H). apply obind_Ok in H as (delta & _ & H).
  apply obind_Ok in H as (p0 & [Hj Hp0]%idx_Ok & H). rewrite Hp in Hp0. injection Hp0 as <-.
  apply obind_Ok in H as ([[p' m2] pnl] & H2 & H). apply obind_Ok in H as (l & [_ Hl]%set_idx_Ok & H).
  apply obind_Ok in H as (w & _ & H). apply obind_Ok in H as (? & _ & H). apply obind_Ok in H as (m3 & H3 & [= <- <- _]).
  assert (Hs1 : step_ok m m1 p p).
  { apply same_totals; [|done]. unfold swap_base_asset in H1. apply obind_Ok in H1 as ([[[nb nq] q0] s0] & _ & H1).
    apply obind_Ok in H1 as (s1 & _ & [= <- _ _]). repeat constructor. }
  pose proof (fill_step p m1 delta p' m2 pnl (step_counted m m1 p p Hc Hs1) H2) as Hs2.
  assert (Hc2 : counted m2 p') by (apply (step_counted m1 m2 p p'); [by apply (step_counted m m1 p p)|done]).
  assert (Hs3 : step_ok m2 m3 p' p').
  { apply same_totals; [|done]. apply spread_reserves_totals in H3. rewrite Forall_forall in H3 |- *.
    intros [total share] Hin. specialize (H3 _ Hin). cbn in H3. rewrite H3.
    cbn in Hin. set_unfold in Hin. destruct_or! Hin; try done; by injection Hin as -> _. }
  exists p'. split; [|by apply (step_trans m m2 m3 p p' p'); [apply (step_trans m m1 m2 p p p')|]].
  cbn. rewrite Hl. apply list_lookup_insert_eq. by apply lookup_lt_Some in Hp.
Qed.

(** ** Runs of a market *)

(** The market with the positions users have in it. *)
Record PerpBook := mkPerpBook { bk_market : PerpMarket; bk_perps : list PerpPosition }.

(** Operations on one position: a fill against another user, a fill against the
    market maker from the position's account, a settlement, a fee. *)
Inductive perp_step {roots : Roots} (k : PerpBook) : PerpBook -> Prop :=
| ps_fill i p delta p' m' pnl :
    bk_perps k !! i = Some p -> update_position_and_market p (bk_market k) delta = Ok (p', m', pnl) ->
    perp_step k (mkPerpBook m' (<[i := p']> (bk_perps k)))
| ps_amm_fill i p x d u j price m' u' r p' :
    bk_perps k !! i = Some p -> u_perp_positions u !! Z.to_nat j = Some p ->
    update_position_with_base_asset_amount x d (bk_market k) u j price = Ok (m', u', r) ->
    u_perp_positions u' !! Z.to_nat j = Some p' ->
    perp_step k (mkPerpBook m' (<[i := p']> (bk_perps k)))
| ps_settle i p delta p' m' :
    bk_perps k !! i = Some p -> update_quote_asset_amount p (bk_market k) delta = Ok (p', m') ->
    perp_step k (mkPerpBook m' (<[i := p']> (bk_perps k)))
| ps_fee i p delta p' m' :
    bk_perps k !! i = Some p -> update_quote_asset_and_break_even_amount p (bk_market k) delta = Ok (p', m') ->
    perp_step k (mkPerpBook m' (<[i := p']> (bk_perps k))).

Inductive perp_steps {roots : Roots} (k : PerpBook) : PerpBook -> Prop :=
| perp_done : perp_steps k k
| perp_more k1 k2 : perp_steps k k1 -> perp_step k1 k2 -> perp_steps k k2.

(** C13: The totals of a perpetual market stay exact: after any run of fills
    between users, fills against the market maker, settlements and fees, the open
    interest, entry and break-even amounts of both sides, the quote of all
    positions and the numbers of users are the sums over the positions. *)
Theorem market_totals_exact {roots : Roots} k k' :
  perp_steps k k' -> totals_exact (bk_market k) (bk_perps k) -> totals_exact (bk_market k') (bk_perps k').
Proof.
  intros Hs He. induction Hs as [|k1 k2 _ IH Hstep]; [done|].
  destruct Hstep as [i p delta p' m' pnl Hi H|i p x d u j price m' u' r p' Hi Hj H Hp'|i p delta p' m' Hi H
    |i p delta p' m' Hi H]; cbn;
    apply (step_exact (bk_market k1) m' (bk_perps k1) i p p'); try done;
    pose proof (exact_counted _ _ _ _ IH Hi) as Hc.
  - by apply fill_step in H.
  - destruct (amm_fill_step x d (bk_market k1) u j price m' u' r p Hc Hj H) as (p0 & Hp0 & Hok). congruence.
  - by apply quote_step in H.
  - by apply fees_step in H.
Qed.

(** The profit of a fill is what it takes from the position: the profit and
    the new entry amount add up to the old entry amount and the quote of the
    fill, base and quote move by the fill's, an increase realises nothing, a
    reduction the share of the entry amount that leaves (rounded towards zero),
    and a close all of it. *)
Theorem realised_profit_exact p m delta p' m' pnl :
  update_position_and_market p m delta = Ok (p', m', pnl) ->
  let b := pp_base_asset_amount p in
  let db := pd_base_asset_amount delta in
  let dq := pd_quote_asset_amount delta in
  pp_base_asset_amount p' = b + db /\ pp_quote_asset_amount p' = pp_quote_asset_amount p + dq
  /\ pnl + pp_quote_entry_amount p' = pp_quote_entry_amount p + dq
  /\ (db <> 0 -> (b = 0 \/ Z.sgn b = Z.sgn db) -> pnl = 0)
  /\ (b <> 0 -> Z.sgn b <> Z.sgn db -> Z.abs db < Z.abs b -> db <> 0 ->
      pnl = Z.quot (pp_quote_entry_amount p * Z.abs db) (Z.abs b) + dq)
  /\ (b <> 0 -> b + db = 0 -> pnl = pp_quote_entry_amount p + dq /\ pp_quote_entry_amount p' = 0).
Proof.
  intros H b db dq. destruct (Z.eq_dec db 0) as [Hz|Hd]; subst db.
  - unfold update_position_and_market in H. rewrite Hz in H |- *. cbn [Z.eqb] in H.
    apply obind_Ok in H as ([p1 m1] & H & [= <- _ <-]). unfold update_quote_asset_amount in H.
    destruct (Z.eqb_spec (pd_quote_asset_amount delta) 0); [injection H as <- _; subst b dq; split_and!; lia|].
    apply obind_Ok in H as (m2 & _ & H). apply obind_Ok in H as (q & [-> _]%safe_i_Ok & H).
    apply obind_Ok in H as (x & _ & H). subst b dq.
    destruct (_ && _) in H; injection H as <- _; cbn; split_and!; lia.
  - destruct (fill_Ok p m delta p' m' pnl Hd H) as (t & _ & Ht%update_type_Ok & (Hpnl & He)%new_entry_amounts_Ok & Hb & Hq & _).
    cbv zeta in Ht. subst b dq. split_and!; [done|done|done|..].
    + intros _ [Hb0|Hs]; destruct t; destruct He as [He1 He2]; lia.
    + intros Hb0 Hs Hlt _. destruct t; try lia. destruct He as [He1 He2]. lia.
    + intros Hb0 Hs. destruct t; try lia. destruct Ht as (_ & _ & Heq). cbv zeta in He. rewrite Heq, !Z.quot_mul in He by lia. lia.
Qed.

(** The step size is checked against the position before the fill, so a position
    may be opened at a size that is no multiple of it; the next fill fails. *)
Lemma unaligned_open_accepted :
  let m := default_PerpMarket <| amm ; order_step_size := 10 |> in
  exists p' m', update_position_and_market default_PerpPosition m (mkPositionDelta (-700) 7) = Ok (p', m', 0)
    /\ pp_base_asset_amount p' = 7
    /\ update_position_and_market p' m' (mkPositionDelta (-300) 3) = Err InvalidPerpPositionDetected.
Proof. cbv zeta. eexists _, _. split_and!; [vm_compute; reflexivity..]. Qed.

(** ** Witnesses *)

(** The book after a fill of position [i]. *)
Definition fill_book (k : PerpBook) (i : nat) (delta : PositionDelta) : PerpBook :=
  match bk_perps k !! i with
  | Some p => match update_position_and_market p (bk_market k) delta with
              | Ok (p', m', _) => mkPerpBook m' (<[i := p']> (bk_perps k))
              | _ => k
              end
  | None => k
  end.

Lemma fill_book_steps {roots : Roots} k0 k i delta : perp_steps k0 k -> perp_steps k0 (fill_book k i delta).
Proof.
  intros Hk. unfold fill_book. destruct (bk_perps k !! i) as [p|] eqn:Hi; [|done].
  destruct (update_position_and_market p (bk_market k) delta) as [[[p' m'] pnl]| |] eqn:H; [|done..].
  exact (perp_more _ _ _ Hk (ps_fill _ i p delta p' m' pnl Hi H)).
Qed.

(** A long of ten units opened for 1000, and four units of it sold to a second
    user for 240. *)
Definition demo_book : PerpBook :=
  mkPerpBook (default_PerpMarket <| amm ; order_step_size := 1 |>) [default_PerpPosition; default_PerpPosition].
Definition demo_book_after : PerpBook :=
  fill_book (fill_book (fill_book demo_book 0 (mkPositionDelta (-1000) 10)) 1 (mkPositionDelta (-240) 4))
    0 (mkPositionDelta 240 (-4)).

Lemma market_totals_exact_witness :
  base_asset_amount_long (amm (bk_market demo_book_after)) = 10
  /\ quote_entry_amount_long (amm (bk_market demo_book_after)) = -840
  /\ totals_exact (bk_market demo_book_after) (bk_perps demo_book_after).
Proof.
  split; [vm_compute; reflexivity|]. split; [vm_compute; reflexivity|].
  apply (@market_totals_exact floor_roots demo_book).
  - unfold demo_book_after. do 3 apply fill_book_steps. apply perp_done.
  - constructor; [repeat constructor|repeat constructor; reflexivity|vm_compute; repeat split; discriminate].
Defined.

Lemma realised_profit_exact_witness :
  let p := default_PerpPosition <| pp_base_asset_amount := 10 |> <| pp_quote_asset_amount := -1000 |>
             <| pp_quote_entry_amount := -1000 |> in
  exists p' m', update_position_and_market p (default_PerpMarket <| amm ; order_step_size := 1 |>) (mkPositionDelta 600 (-4))
    = Ok (p', m', 200) /\ 200 + pp_quote_entry_amount p' = -1000 + 600.
Proof.
  cbv zeta.
  match goal with |- exists p' m', ?f = Ok (p', m', 200) /\ _ =>
    assert (H : exists p' m', f = Ok (p', m', 200)) by (eexists _, _; vm_compute; reflexivity) end.
  destruct H as (p' & m' & H). exists p', m'. split; [exact H|].
  exact (proj1 (proj2 (proj2 (realised_profit_exact _ _ _ p' m' 200 H)))).
Defined.
