(* ===== verification/DriftMarketMaker.v ===== *)
(** The virtual market maker keeps the value of its position through any run of
    fills: [update_position_with_base_asset_amount] of [controller/position.rs],
    with the users' positions and with fills at a price of their own. *)
From S2P Require Import Prelude.
From S2P Require Import RecordUpdate.
From S2P Require Import DriftError.
From S2P Require Import DriftMath.
From S2P Require Import DriftSpotMarket.
From S2P Require Import DriftTypes.
From S2P Require Import DriftOrderMath.
From S2P Require Import DriftAmm.
From S2P Require Import DriftSpread.
From S2P Require Import DriftPosition.

(** ** Positions do not move the curve *)

Record same_curve (a b : AMM) : Prop := {
  sc_base : base_asset_reserve b = base_asset_reserve a;
  sc_quote : quote_asset_reserve b = quote_asset_reserve a;
  sc_k : sqrt_k b = sqrt_k a;
  sc_peg : peg_multiplier b = peg_multiplier a;
  sc_offset : reference_price_offset b = reference_price_offset a;
}.
Lemma same_curve_refl a : same_curve a a.
Proof. done. Qed.
Lemma same_curve_chain a b c : same_curve a b -> same_curve b c -> same_curve a c.
Proof. intros [] []. split; congruence. Qed.

Lemma add_side_curve long m b e k m' : add_side long m b e k = Ok m' -> same_curve (amm m) (amm m').
Proof.
  intros H. unfold add_side in H. destruct long; apply obind_Ok in H as (? & _ & H); apply obind_Ok in H as (? & _ & H);
    by apply obind_Ok in H as (? & _ & [= <-]).
Qed.
Lemma market_totals_curve m p delta t b e k m' :
  update_market_totals m p delta t b e k = Ok m' -> same_curve (amm m) (amm m').
Proof.
  intros H. unfold update_market_totals in H. apply obind_Ok in H as (q & _ & H). cbv zeta in H.
  set (m1 := m <| amm ; amm_quote_asset_amount := q |>) in *. apply (same_curve_chain _ (amm m1)); [done|].
  destruct t; [by eapply add_side_curve..| | |].
  1-2: apply obind_Ok in H as (? & _ & H); apply obind_Ok in H as (? & _ & H); by eapply add_side_curve.
  apply obind_Ok in H as (m2 & H2%add_side_curve & H%add_side_curve). by eapply same_curve_chain.
Qed.
Lemma count_users_amm m p b q t m' : count_users m p b q t = Ok m' -> amm m' = amm m.
Proof.
  intros H. unfold count_users in H. destruct t; try (by injection H as <-).
  - apply obind_Ok in H as (m1 & H1 & H). apply obind_Ok in H as (n & _ & [= <-]). destruct (_ && _); [|by injection H1 as <-].
    by apply obind_Ok in H1 as (k & _ & [= <-]).
  - destruct (_ && _); by injection H as <-.
Qed.
Lemma position_and_market_curve p m delta p' m' pnl :
  update_position_and_market p m delta = Ok (p', m', pnl) -> same_curve (amm m) (amm m').
Proof.
  intros H. destruct (Z.eq_dec (pd_base_asset_amount delta) 0) as [Hz|Hd].
  - unfold update_position_and_market in H. rewrite Hz in H. cbn [Z.eqb] in H. apply obind_Ok in H as ([p1 m1] & H & [= <- <- _]).
    unfold update_quote_asset_amount in H. destruct (_ =? 0); [by injection H as <- <-|].
    apply obind_Ok in H as (m2 & H2 & H). apply obind_Ok in H as (q & _ & H). cbv zeta in H. apply obind_Ok in H as (x & _ & H).
    assert (amm m2 = amm m) as E.
    { clear -H2. destruct (_ && _); [|by injection H2 as <-]. by apply obind_Ok in H2 as (n & _ & [= <-]). }
    clear H2.
    destruct (_ && _); injection H as _ <-; split; cbn; by rewrite E.
  - apply fill_Ok in H as (t & m1 & _ & _ & _ & _ & Hu%count_users_amm & Hm%market_totals_curve); [|done]. by rewrite Hu in Hm.
Qed.

(** ** Runs of fills *)

(** A fill of a user's position against the market maker. *)
Record AmmFill := mkAmmFill {
  af_user : User;
  af_position : Z;
  af_base : Z;
  af_direction : PositionDirection;
  af_price : option Z;
}.

(** What the trader pays - negative for a sale - and, in a fill at a price of its
    own, what the market maker gains by the price, which may be negative. *)
Definition amm_fill {roots : Roots} (m : PerpMarket) (f : AmmFill) : DriftResult (PerpMarket * (Z * Z)) :=
  let! '(m, _, (quote_asset_amount, surplus, _)) :=
    update_position_with_base_asset_amount (af_base f) (af_direction f) m (af_user f) (af_position f) (af_price f) in
  Ok (m, (match af_direction f with Long => quote_asset_amount | Short => - quote_asset_amount end,
          match af_price f with Some _ => surplus | None => 0 end)).

Fixpoint amm_fills {roots : Roots} (m : PerpMarket) (fs : list AmmFill) : DriftResult (PerpMarket * (Z * Z)) :=
  match fs with
  | [] => Ok (m, (0, 0))
  | f :: fs =>
      let! '(m, (paid, surplus)) := amm_fill m f in
      let! '(m, (paid', surplus')) := amm_fills m fs in
      Ok (m, (paid + paid', surplus + surplus'))
  end.

Definition sales (fs : list AmmFill) : Z :=
  sum_z (fun f => match af_direction f with Short => 1 | Long => 0 end) fs.

Lemma fill_price_surplus_Ok d swapped base fp q s :
  fill_price_surplus d swapped base fp = Ok (q, s) -> match d with Long => q - s = swapped | Short => q + s = swapped end.
Proof.
  intros H. unfold fill_price_surplus in H. apply obind_Ok in H as (q' & _ & H). apply obind_Ok in H as (s' & Hs & [= <- <-]).
  destruct d; apply obind_Ok in Hs as (x & [-> _]%cast_i_Ok & Hs); apply obind_Ok in Hs as (y & [-> _]%cast_i_Ok & Hs);
    apply safe_i_Ok in Hs as [-> _]; lia.
Qed.

Lemma amm_fill_sound {roots : Roots} m f m' paid surplus :
  sound_reserves (amm m) -> reference_price_offset (amm m) = 0 -> 0 <= af_base f -> amm_fill m f = Ok (m', (paid, surplus)) ->
  sound_reserves (amm m') /\ reference_price_offset (amm m') = 0
  /\ peg_multiplier (amm m') = peg_multiplier (amm m) /\ sqrt_k (amm m') = sqrt_k (amm m)
  /\ peg_multiplier (amm m) * (quote_asset_reserve (amm m') - quote_asset_reserve (amm m))
     <= AMM_TIMES_PEG_TO_QUOTE_PRECISION_RATIO * (paid - surplus) + peg_multiplier (amm m) * sales [f].
Proof.
  intros Hs Ho Hx H. unfold amm_fill in H. apply obind_Ok in H as ([[m3 u3] [[q s] pnl]] & H & [= <- <- <-]).
  unfold update_position_with_base_asset_amount in H. apply obind_Ok in H as ([m1 [qs ss]] & H1 & H).
  apply obind_Ok in H as ([q' s'] & Hq & H). apply obind_Ok in H as (delta & _ & H).
  apply obind_Ok in H as (p0 & _ & H). apply obind_Ok in H as ([[p' m2] pnl'] & [C1 C2 C3 C4 C5]%position_and_market_curve & H).
  apply obind_Ok in H as (l & _ & H). apply obind_Ok in H as (w & _ & H). cbv zeta in H.
  apply obind_Ok in H as (w0 & _ & H). apply obind_Ok in H as (m4 & H4 & [= <- _ <- <- _]).
  destruct (swap_value m _ _ m1 qs ss Hs Hx H1) as (Hv & Hb & Hc1 & Hc2 & (b & k & Em)).
  assert (peg_multiplier (amm m1) = peg_multiplier (amm m) /\ sqrt_k (amm m1) = sqrt_k (amm m)
          /\ reference_price_offset (amm m1) = reference_price_offset (amm m)) as (E1 & E2 & E3) by (rewrite Em; done).
  pose proof (sr_peg _ Hs). unfold curve in *.
  set (m5 := m2 <| amm ; base_asset_amount_with_amm := w |>) in *.
  destruct (update_spread_reserves_sound m5 m4 H4) as (Hs' & _ & Hq4 & Hp4 & Hk4 & Ho4).
  { change (reference_price_offset (amm m2) = 0). congruence. }
  { change (0 < base_asset_reserve (amm m2)). by rewrite C1. }
  { change (0 <= peg_multiplier (amm m2)). by rewrite C4, E1. }
  { unfold curve. change (amm m5) with (amm m2 <| base_asset_amount_with_amm := w |>). cbn. rewrite C1, C2, C3, E2. done. }
  change (quote_asset_reserve (amm m5)) with (quote_asset_reserve (amm m2)) in Hq4.
  change (peg_multiplier (amm m5)) with (peg_multiplier (amm m2)) in Hp4. change (sqrt_k (amm m5)) with (sqrt_k (amm m2)) in Hk4.
  change (reference_price_offset (amm m5)) with (reference_price_offset (amm m2)) in Ho4.
  split_and!; [done|congruence|congruence|congruence|]. rewrite Hq4, C2. unfold sales. cbn [sum_z foldr].
  assert (match af_direction f with Long => q' - match af_price f with Some _ => s' | None => 0 end = qs
          | Short => q' + match af_price f with Some _ => s' | None => 0 end = qs end) as Hqs.
  { destruct (af_price f) as [fp|]; [by apply fill_price_surplus_Ok in Hq|injection Hq as <- _; destruct (af_direction f); lia]. }
  unfold sum_z. cbn. destruct (af_direction f); cbn in Hv; lia.
Qed.

(** C14: The virtual market maker keeps the value of its position, while its quotes
    are not shifted by a reference price: over any run of fills against it, of
    whatever users, each at the quoted reserves or at a price of its own, what the
    traders pay on balance - less what the fills at a price of their own are booked
    to have brought over the quoted one - is worth at least the quote the curve
    gains, less one unit of reserve (worth the peg) for each sale; traders who take
    the base reserve back to where it was have gained at most that dust. The quoted
    reserves stay on their sides of the curve. *)
Theorem market_maker_keeps_value {roots : Roots} m fs m' paid surplus :
  sound_reserves (amm m) -> reference_price_offset (amm m) = 0 -> Forall (fun f => 0 <= af_base f) fs ->
  amm_fills m fs = Ok (m', (paid, surplus)) ->
  let peg := peg_multiplier (amm m) in
  peg * (quote_asset_reserve (amm m') - quote_asset_reserve (amm m))
    <= AMM_TIMES_PEG_TO_QUOTE_PRECISION_RATIO * (paid - surplus) + peg * sales fs
  /\ (base_asset_reserve (amm m') = base_asset_reserve (amm m) ->
      - (peg * sales fs) <= AMM_TIMES_PEG_TO_QUOTE_PRECISION_RATIO * (paid - surplus))
  /\ (Forall (fun f => af_price f = None) fs -> surplus = 0)
  /\ sound_reserves (amm m').
Proof.
  intros Hs Ho Hfs H peg.
  enough (Hmain : sound_reserves (amm m') /\ sqrt_k (amm m') = sqrt_k (amm m)
    /\ (Forall (fun f => af_price f = None) fs -> surplus = 0)
    /\ peg * (quote_asset_reserve (amm m') - quote_asset_reserve (amm m))
       <= AMM_TIMES_PEG_TO_QUOTE_PRECISION_RATIO * (paid - surplus) + peg * sales fs).
  { destruct Hmain as (Hs' & Hk & H0 & Hm). split_and!; [done| |done..]. intros Hb.
    destruct (sr_curve _ Hs), (sr_curve _ Hs'). unfold curve in *. rewrite Hk, Hb in *.
    pose proof (sr_base _ Hs). assert (quote_asset_reserve (amm m') = quote_asset_reserve (amm m)) as Hq.
    { apply Z.le_antisymm; apply Z.lt_succ_r, (Z.mul_lt_mono_pos_l (base_asset_reserve (amm m))); lia. }
    rewrite Hq in Hm. lia. }
  subst peg. revert m m' paid surplus Hs Ho H. induction Hfs as [|f fs Hf _ IH]; intros m m' paid surplus Hs Ho H; cbn in H.
  - injection H as <- <- <-. unfold sales. cbn. split_and!; [done|done|done|lia].
  - apply obind_Ok in H as ([m1 [p1 s1]] & H1 & H). apply obind_Ok in H as ([m2 [p2 s2]] & H2 & [= <- <- <-]).
    assert (af_price f = None -> s1 = 0) as Hz.
    { intros E. unfold amm_fill in H1. apply obind_Ok in H1 as ([[? ?] [[? ?] ?]] & _ & H1). rewrite E in H1. by injection H1 as _ _ <-. }
    destruct (amm_fill_sound m f m1 p1 s1 Hs Ho Hf H1) as (Hs1 & Ho1 & Hp1 & Hk1 & Hv1).
    destruct (IH m1 m2 p2 s2 Hs1 Ho1 H2) as (Hs2 & Hk2 & Hz2 & Hv2). rewrite Hp1 in Hv2. split_and!; [done|congruence| |].
    + intros [E1 E2]%Forall_cons. rewrite Hz, Hz2 by done. done.
    + assert (sales (f :: fs) = sales [f] + sales fs) as -> by (unfold sales, sum_z; cbn; by rewrite Z.add_0_r). lia.
Qed.

(** ** Witness *)

Definition trader_with (p : PerpPosition) : User := default_User <| u_perp_positions := [p <| pp_market_index := 0 |>] |>.

(** A buy of ten units, and their sale a little above the quoted price. *)
Definition demo_fills : list AmmFill :=
  [mkAmmFill (trader_with default_PerpPosition) 0 10000000000 Long None;
   mkAmmFill (trader_with (default_PerpPosition <| pp_base_asset_amount := 10000000000 |>)) 0 10000000000 Short (Some 101000000)].

Definition sized_market : PerpMarket := quoted_market <| amm ; order_step_size := 1 |>.

(** The two fills cost the traders a dollar at the market maker's expense, which
    books it: at the quoted prices they cost two. *)
Lemma market_maker_keeps_value_witness :
  exists m' paid surplus, amm_fills sized_market demo_fills = Ok (m', (paid, surplus))
    /\ paid = 1116471 /\ surplus = - 903793 /\ - 100000000 <= AMM_TIMES_PEG_TO_QUOTE_PRECISION_RATIO * (paid - surplus).
Proof.
  assert (H : exists m' paid surplus, amm_fills sized_market demo_fills = Ok (m', (paid, surplus))
    /\ paid = 1116471 /\ surplus = - 903793 /\ base_asset_reserve (amm m') = base_asset_reserve (amm sized_market))
    by (eexists _, _, _; split_and!; vm_compute; reflexivity).
  destruct H as (m' & paid & surplus & H & Hp & Hq & Hb). exists m', paid, surplus. split_and!; [exact H|exact Hp|exact Hq|].
  refine (proj1 (proj2 (market_maker_keeps_value sized_market _ m' paid surplus _ _ _ H)) Hb).
  - constructor; vm_compute; try split; (reflexivity || discriminate).
  - reflexivity.
  - repeat constructor; discriminate.
Defined.
