(* ===== verification/DriftUser.v ===== *)
(** Users and their statistics: the methods of [User], [UserStats], [SpotPosition]
    and [FuelOverflow] in [state/user.rs] that need no margin calculation.

    A user is liquidated as a whole or for one isolated position; the theorems are
    about this life cycle: which liquidation an action belongs to, and that leaving
    one state leaves the others alone. *)
From S2P Require Import Prelude.
From S2P Require Import RecordUpdate.
From S2P Require Import DriftError.
From S2P Require Import DriftMath.
From S2P Require Import DriftSpotMarket.
From S2P Require Import DriftTypes.
From S2P Require Import DriftInsurance.
From S2P Require Import DriftOrderMath.
From S2P Require Import DriftPosition.

(** ** Bit flags of one byte *)

Definition add_flag (flags bit : Z) : Z := Z.lor flags bit.
Definition remove_flag (flags bit : Z) : Z := Z.land flags (Z.lxor bit 255).
Definition has_flag (flags bit : Z) : bool := 0 <? Z.land flags bit.

Inductive UserStatus : Set := BeingLiquidated | Bankrupt | UserReduceOnly | AdvancedLp | ProtectedMakerOrders.
Definition user_status_bit (s : UserStatus) : Z :=
  match s with BeingLiquidated => 1 | Bankrupt => 2 | UserReduceOnly => 4 | AdvancedLp => 8 | ProtectedMakerOrders => 16 end.

Definition has_status (u : User) (s : UserStatus) : bool := has_flag (u_status u) (user_status_bit s).
Definition add_user_status (u : User) (s : UserStatus) : User := u <| u_status := add_flag (u_status u) (user_status_bit s) |>.
Definition remove_user_status (u : User) (s : UserStatus) : User :=
  u <| u_status := remove_flag (u_status u) (user_status_bit s) |>.

Definition is_cross_margin_being_liquidated (u : User) : bool :=
  has_flag (u_status u) (Z.lor (user_status_bit BeingLiquidated) (user_status_bit Bankrupt)).
Definition is_cross_margin_bankrupt (u : User) : bool := has_status u Bankrupt.
Definition has_isolated_margin_being_liquidated (u : User) : bool :=
  existsb (fun p => is_isolated p && is_being_liquidated p) (u_perp_positions u).
Definition has_isolated_margin_bankrupt (u : User) : bool :=
  existsb (fun p => is_isolated p && is_bankrupt p) (u_perp_positions u).
Definition user_is_being_liquidated (u : User) : bool :=
  is_cross_margin_being_liquidated u || has_isolated_margin_being_liquidated u.
Definition user_is_bankrupt (u : User) : bool := is_cross_margin_bankrupt u || has_isolated_margin_bankrupt u.
Definition is_reduce_only (u : User) : bool := has_status u UserReduceOnly.
Definition is_advanced_lp (u : User) : bool := has_status u AdvancedLp.
Definition is_protected_maker (u : User) : bool := has_status u ProtectedMakerOrders.

Definition set_status (u : User) (s : UserStatus) (on : bool) : User :=
  if on then add_user_status u s else remove_user_status u s.
Definition update_reduce_only_status (u : User) (on : bool) : User := set_status u UserReduceOnly on.
Definition update_advanced_lp_status (u : User) (on : bool) : User := set_status u AdvancedLp on.
Definition update_protected_maker_orders_status (u : User) (on : bool) : User := set_status u ProtectedMakerOrders on.

(** ** Spot positions *)

Definition spot_is_available (p : SpotPosition) : bool := (sp_scaled_balance p =? 0) && (sp_open_orders p =? 0).
Definition spot_has_open_order (p : SpotPosition) : bool :=
  negb (sp_open_orders p =? 0) || negb (sp_open_bids p =? 0) || negb (sp_open_asks p =? 0).
Definition spot_margin_requirement_for_open_orders (p : SpotPosition) : DriftResult Z :=
  safe_u 128 (sp_open_orders p * OPEN_ORDER_MARGIN_REQUIREMENT).
Definition spot_get_token_amount (p : SpotPosition) (m : SpotMarket) : DriftResult Z :=
  get_token_amount (sp_scaled_balance p) m (sp_balance_type p).
Definition spot_get_signed_token_amount (p : SpotPosition) (m : SpotMarket) : DriftResult Z :=
  let! t := spot_get_token_amount p m in get_signed_token_amount t (sp_balance_type p).
Definition is_borrow (p : SpotPosition) : bool :=
  (0 <? sp_scaled_balance p) && balance_type_eqb (sp_balance_type p) Borrow.

(** The first position is the quote's. *)
Definition get_spot_position_index (u : User) (market_index : Z) : DriftResult nat :=
  if market_index =? 0 then
    let! p := idx (u_spot_positions u) 0 in
    do! validate (sp_market_index p =? 0) DefaultError in Ok 0%nat
  else ok_or (position_of (fun p => sp_market_index p =? market_index) (u_spot_positions u)) CouldNotFindSpotPosition.

Definition get_spot_position (u : User) (market_index : Z) : DriftResult SpotPosition :=
  let! i := get_spot_position_index u market_index in idx (u_spot_positions u) (Z.of_nat i).

(** A new position never takes the place of the quote's. *)
Definition add_spot_position (u : User) (market_index : Z) (t : SpotBalanceType) : DriftResult (User * nat) :=
  let! i := ok_or (position_of spot_is_available (drop 1 (u_spot_positions u))) NoSpotPositionAvailable in
  let new := default_SpotPosition <| sp_market_index := market_index |> <| sp_balance_type := t |> in
  let! l := set_idx (u_spot_positions u) (Z.of_nat (S i)) new in
  Ok (u <| u_spot_positions := l |>, S i).

(** [get_spot_position_index(..).or_else(|_| self.add_spot_position(..))] *)
Definition force_get_spot_position_index (u : User) (market_index : Z) : DriftResult (User * nat) :=
  match get_spot_position_index u market_index with
  | Ok i => Ok (u, i)
  | Err _ => add_spot_position u market_index Deposit
  | Panic => Panic
  end.

(** ** Perpetual positions *)

Definition get_perp_position (u : User) (market_index : Z) : DriftResult PerpPosition :=
  let! i := get_position_index (u_perp_positions u) market_index in idx (u_perp_positions u) (Z.of_nat i).

Definition force_get_perp_position_index (u : User) (market_index : Z) : DriftResult (User * nat) :=
  match get_position_index (u_perp_positions u) market_index with
  | Ok i => Ok (u, i)
  | Err _ =>
      let! '(l, i) := add_new_position (u_perp_positions u) market_index in
      Ok (u <| u_perp_positions := l |>, i)
  | Panic => Panic
  end.

Definition force_get_isolated_perp_position_index (u : User) (market_index : Z) : DriftResult (list PerpPosition * nat) :=
  match get_position_index (u_perp_positions u) market_index with
  | Ok i =>
      let! p := idx (u_perp_positions u) (Z.of_nat i) in
      do! validate (is_isolated p) InvalidPerpPosition in
      Ok (u_perp_positions u, i)
  | Err _ =>
      let! '(l, i) := add_new_position (u_perp_positions u) market_index in
      let! p := idx l (Z.of_nat i) in
      let! l := set_idx l (Z.of_nat i) (p <| pp_position_flag := position_flag_bit IsolatedPosition |>) in
      Ok (l, i)
  | Panic => Panic
  end.

(** [force_get_isolated_perp_position_mut], followed by an update of the position. *)
Definition with_isolated_position (u : User) (market_index : Z) (f : PerpPosition -> PerpPosition) : DriftResult User :=
  let! '(l, i) := force_get_isolated_perp_position_index u market_index in
  let! p := idx l (Z.of_nat i) in
  let! l := set_idx l (Z.of_nat i) (f p) in
  Ok (u <| u_perp_positions := l |>).

Definition get_isolated_perp_position (u : User) (market_index : Z) : DriftResult PerpPosition :=
  let! i := get_position_index (u_perp_positions u) market_index in
  let! p := idx (u_perp_positions u) (Z.of_nat i) in
  do! validate (is_isolated p) InvalidPerpPosition in
  Ok p.

Definition update_perp_position_max_margin_ratio (u : User) (market_index margin_ratio : Z) : DriftResult User :=
  let! '(u, i) := force_get_perp_position_index u market_index in
  let! p := idx (u_perp_positions u) (Z.of_nat i) in
  let! l := set_idx (u_perp_positions u) (Z.of_nat i) (p <| pp_max_margin_ratio := margin_ratio |>) in
  Ok (u <| u_perp_positions := l |>).

(** ** Orders *)

Definition is_open_id (order_id : Z) (o : Order) : bool :=
  (o_order_id o =? order_id) && bool_decide (o_status o = OrderOpen).

Definition get_order_index (u : User) (order_id : Z) : DriftResult nat :=
  ok_or (position_of (is_open_id order_id) (u_orders u)) OrderDoesNotExist.
Definition get_order_index_by_user_order_id (u : User) (user_order_id : Z) : DriftResult nat :=
  ok_or (position_of (fun o => (o_user_order_id o =? user_order_id) && bool_decide (o_status o = OrderOpen)) (u_orders u))
    OrderDoesNotExist.
Definition get_order (u : User) (order_id : Z) : option Order := List.find (is_open_id order_id) (u_orders u).
Definition get_last_order_id (u : User) : DriftResult Z :=
  if u_next_order_id u =? 1 then Ok (umax 32) else uchk 32 (u_next_order_id u - 1).
Definition has_room_for_new_order (u : User) : bool := existsb order_is_available (u_orders u).

Definition increment_open_auctions (u : User) : User :=
  let n := usat 8 (u_open_auctions u + 1) in u <| u_open_auctions := n |> <| u_has_open_auction := 0 <? n |>.
Definition increment_open_orders (u : User) (is_auction : bool) : User :=
  let n := usat 8 (u_open_orders u + 1) in
  let u := u <| u_open_orders := n |> <| u_has_open_order := 0 <? n |> in
  if is_auction then increment_open_auctions u else u.
Definition decrement_open_orders (u : User) (is_auction : bool) : User :=
  let n := usat 8 (u_open_orders u - 1) in
  let u := u <| u_open_orders := n |> <| u_has_open_order := 0 <? n |> in
  if is_auction then
    let k := usat 8 (u_open_auctions u - 1) in u <| u_open_auctions := k |> <| u_has_open_auction := 0 <? k |>
  else u.

(** ** Totals *)

Definition get_total_token_amount (u : User) (m : SpotMarket) : DriftResult Z :=
  let! spot_token_amount :=
    match get_spot_position u (sm_market_index m) with
    | Ok p => spot_get_signed_token_amount p m
    | Err _ => Ok 0
    | Panic => Panic
    end in
  if negb (sm_market_index m =? QUOTE_SPOT_MARKET_INDEX) then Ok spot_token_amount
  else
    let! perp_token_amount :=
      foldl (fun acc p =>
        let! total := acc in
        if is_isolated p then let! t := get_isolated_token_amount p m in safe_u 128 (total + t) else Ok total)
        (Ok 0) (u_perp_positions u) in
    let! x := cast_i 128 perp_token_amount in
    safe_i 128 (spot_token_amount + x).

Definition token_value (amount price precision : Z) : DriftResult Z :=
  let! p := cast_u 128 price in
  let! x := safe_u 128 (amount * p) in
  let! v := safe_udiv x precision in
  cast_u 64 v.
Definition increment_total_deposits (u : User) (amount price precision : Z) : DriftResult User :=
  let! v := token_value amount price precision in
  Ok (u <| u_total_deposits := usat 64 (u_total_deposits u + v) |>).
Definition increment_total_withdraws (u : User) (amount price precision : Z) : DriftResult User :=
  let! v := token_value amount price precision in
  Ok (u <| u_total_withdraws := usat 64 (u_total_withdraws u + v) |>).
Definition increment_total_socialized_loss (u : User) (value : Z) : User :=
  u <| u_total_social_loss := usat 64 (u_total_social_loss u + value) |>.
Definition update_cumulative_spot_fees (u : User) (amount : Z) : DriftResult User :=
  let! x := safe_i 64 (u_cumulative_spot_fees u + amount) in Ok (u <| u_cumulative_spot_fees := x |>).
Definition update_cumulative_perp_funding (u : User) (amount : Z) : DriftResult User :=
  let! x := safe_i 64 (u_cumulative_perp_funding u + amount) in Ok (u <| u_cumulative_perp_funding := x |>).
Definition increment_margin_freed (u : User) (margin_free : Z) : DriftResult User :=
  let! x := safe_u 64 (u_liquidation_margin_freed u + margin_free) in Ok (u <| u_liquidation_margin_freed := x |>).

Definition update_last_active_slot (u : User) (slot : Z) : User :=
  let u := if negb (user_is_being_liquidated u) then u <| u_last_active_slot := slot |> else u in
  u <| u_idle := false |>.

(** ** Liquidation *)

(** [get_then_update_id!(self, next_liquidation_id)]: an id of two bytes that
    starts over at 1. *)
Definition get_then_update_liquidation_id (u : User) : Z * User :=
  let id := u_next_liquidation_id u in
  (id, u <| u_next_liquidation_id := if uok 16 (id + 1) then id + 1 else 1 |>).

Definition enter_cross_margin_liquidation (u : User) (slot : Z) : DriftResult (User * Z) :=
  if is_cross_margin_being_liquidated u then
    let! id := safe_u 16 (u_next_liquidation_id u - 1) in Ok (u, id)
  else
    let u := add_user_status u BeingLiquidated <| u_liquidation_margin_freed := 0 |> in
    if has_isolated_margin_being_liquidated u then
      let! id := safe_u 16 (u_next_liquidation_id u - 1) in Ok (u, id)
    else
      let '(id, u) := get_then_update_liquidation_id (u <| u_last_active_slot := slot |>) in
      Ok (u, id).

Definition exit_cross_margin_liquidation (u : User) : User :=
  remove_user_status (remove_user_status u BeingLiquidated) Bankrupt <| u_liquidation_margin_freed := 0 |>.
Definition enter_cross_margin_bankruptcy (u : User) : User :=
  add_user_status (remove_user_status u BeingLiquidated) Bankrupt.
Definition exit_cross_margin_bankruptcy (u : User) : User :=
  remove_user_status (remove_user_status u BeingLiquidated) Bankrupt <| u_liquidation_margin_freed := 0 |>.

Definition is_isolated_margin_being_liquidated (u : User) (market_index : Z) : DriftResult bool :=
  match get_isolated_perp_position u market_index with
  | Ok p => Ok (is_being_liquidated p)
  | Err _ => Ok false
  | Panic => Panic
  end.
Definition is_isolated_margin_bankrupt (u : User) (market_index : Z) : DriftResult bool :=
  let! p := get_isolated_perp_position u market_index in Ok (is_bankrupt p).

Definition add_position_flag (f : PositionFlag) (p : PerpPosition) : PerpPosition :=
  p <| pp_position_flag := add_flag (pp_position_flag p) (position_flag_bit f) |>.
Definition remove_position_flag (f : PositionFlag) (p : PerpPosition) : PerpPosition :=
  p <| pp_position_flag := remove_flag (pp_position_flag p) (position_flag_bit f) |>.

Definition enter_isolated_margin_liquidation (u : User) (market_index slot : Z) : DriftResult (User * Z) :=
  let! already := is_isolated_margin_being_liquidated u market_index in
  if already then let! id := safe_u 16 (u_next_liquidation_id u - 1) in Ok (u, id)
  else
    let! '(u, id) :=
      if is_cross_margin_being_liquidated u || has_isolated_margin_being_liquidated u then
        let! id := safe_u 16 (u_next_liquidation_id u - 1) in Ok (u, id)
      else
        let '(id, u) := get_then_update_liquidation_id (u <| u_last_active_slot := slot |>) in Ok (u, id) in
    let! u := with_isolated_position u market_index (add_position_flag BeingLiquidatedPosition) in
    Ok (u, id).

Definition exit_isolated_margin_liquidation (u : User) (market_index : Z) : DriftResult User :=
  with_isolated_position u market_index
    (fun p => remove_position_flag BankruptPosition (remove_position_flag BeingLiquidatedPosition p)).
Definition enter_isolated_margin_bankruptcy (u : User) (market_index : Z) : DriftResult User :=
  with_isolated_position u market_index
    (fun p => add_position_flag BankruptPosition (remove_position_flag BeingLiquidatedPosition p)).
Definition exit_isolated_margin_bankruptcy (u : User) (market_index : Z) : DriftResult User :=
  with_isolated_position u market_index
    (fun p => remove_position_flag BankruptPosition (remove_position_flag BeingLiquidatedPosition p)).

(** ** Fuel *)

Definition is_high_leverage_mode (u : User) (maintenance : bool) : bool :=
  bool_decide (u_margin_mode u = HighLeverage)
  || (maintenance && bool_decide (u_margin_mode u = HighLeverageMaintenance)).

Definition get_fuel_bonus_numerator (u : User) (now : Z) : DriftResult Z :=
  if 0 <? u_last_fuel_bonus_update_ts u then safe_i 64 (now - u_last_fuel_bonus_update_ts u)
  else if FUEL_START_TS <? now then safe_i 64 (now - FUEL_START_TS)
  else Ok 0.

Definition stats_get_fuel_bonus_numerator (last_fuel_bonus_update_ts now : Z) : DriftResult Z :=
  if negb (last_fuel_bonus_update_ts =? 0) then safe_i 64 (now - last_fuel_bonus_update_ts) else Ok 0.

Definition update_fuel_bonus_trade (s : UserStats) (taker maker : Z) : UserStats :=
  s <| fuel_taker := usat 32 (fuel_taker s + taker) |> <| fuel_maker := usat 32 (fuel_maker s + maker) |>.

Definition update_fuel_bonus (s : UserStats) (u : User) (deposits borrows positions now : Z) :
    DriftResult (UserStats * User) :=
  if negb (u_last_fuel_bonus_update_ts u =? 0) || (FUEL_START_TS <? now) then
    let s := s <| fuel_deposits := usat 32 (fuel_deposits s + deposits) |>
               <| fuel_borrows := usat 32 (fuel_borrows s + borrows) |>
               <| fuel_positions := usat 32 (fuel_positions s + positions) |> in
    let! ts := cast_u 32 now in
    Ok (s, u <| u_last_fuel_bonus_update_ts := ts |>)
  else Ok (s, u).

(** [fuel_boost.saturating_mul(quote / QUOTE_PRECISION_U64).cast::<u32>().unwrap_or(u32::MAX)] *)
Definition fuel_of_volume (fuel_boost quote_asset_amount : Z) : Z :=
  Z.min (usat 64 (fuel_boost * (quote_asset_amount / QUOTE_PRECISION_U64))) (umax 32).
Definition update_fuel_maker_bonus (s : UserStats) (fuel_boost quote_asset_amount : Z) : UserStats :=
  if 0 <? fuel_boost then s <| fuel_maker := usat 32 (fuel_maker s + fuel_of_volume fuel_boost quote_asset_amount) |> else s.
Definition update_fuel_taker_bonus (s : UserStats) (fuel_boost quote_asset_amount : Z) : UserStats :=
  if 0 <? fuel_boost then s <| fuel_taker := usat 32 (fuel_taker s + fuel_of_volume fuel_boost quote_asset_amount) |> else s.

(** ** Volumes and fees *)

Definition update_maker_volume_30d (s : UserStats) (fuel_boost quote_asset_amount now : Z) : DriftResult UserStats :=
  let! d := safe_i 64 (now - last_maker_volume_30d_ts s) in
  let s := update_fuel_maker_bonus s fuel_boost quote_asset_amount in
  let! v := calculate_rolling_sum (maker_volume_30d s) quote_asset_amount (Z.max 1 d) THIRTY_DAY in
  Ok (s <| maker_volume_30d := v |> <| last_maker_volume_30d_ts := now |>).

Definition update_taker_volume_30d (s : UserStats) (fuel_boost quote_asset_amount now : Z) : DriftResult UserStats :=
  let! d := safe_i 64 (now - last_taker_volume_30d_ts s) in
  let s := update_fuel_taker_bonus s fuel_boost quote_asset_amount in
  let! v := calculate_rolling_sum (taker_volume_30d s) quote_asset_amount (Z.max 1 d) THIRTY_DAY in
  Ok (s <| taker_volume_30d := v |> <| last_taker_volume_30d_ts := now |>).

Definition update_filler_volume (s : UserStats) (quote_asset_amount now : Z) : DriftResult UserStats :=
  let! d := safe_i 64 (now - last_filler_volume_30d_ts s) in
  let! v := calculate_rolling_sum (filler_volume_30d s) quote_asset_amount (Z.max 1 d) THIRTY_DAY in
  Ok (s <| filler_volume_30d := v |> <| last_filler_volume_30d_ts := now |>).

Definition increment_total_fees (s : UserStats) (fee : Z) : DriftResult UserStats :=
  let! x := safe_u 64 (total_fee_paid (us_fees s) + fee) in Ok (s <| us_fees ; total_fee_paid := x |>).
Definition increment_total_rebate (s : UserStats) (fee : Z) : DriftResult UserStats :=
  let! x := safe_u 64 (total_fee_rebate (us_fees s) + fee) in Ok (s <| us_fees ; total_fee_rebate := x |>).
Definition increment_total_referee_discount (s : UserStats) (discount : Z) : DriftResult UserStats :=
  let! x := safe_u 64 (total_referee_discount (us_fees s) + discount) in
  Ok (s <| us_fees ; total_referee_discount := x |>).

(** The reward that finds the epoch over is added first and forgotten with it. *)
Definition increment_total_referrer_reward (s : UserStats) (reward now : Z) : DriftResult UserStats :=
  let! x := safe_u 64 (total_referrer_reward (us_fees s) + reward) in
  let! y := safe_u 64 (current_epoch_referrer_reward (us_fees s) + reward) in
  let s := s <| us_fees ; total_referrer_reward := x |> <| us_fees ; current_epoch_referrer_reward := y |> in
  if us_next_epoch_ts s <? now then
    let! d := safe_i 64 (now - us_next_epoch_ts s) in
    let! q := safe_idiv 64 d EPOCH_DURATION in
    let! n := safe_i 64 (q + 1) in
    let! e := safe_i 64 (EPOCH_DURATION * n) in
    let! t := safe_i 64 (us_next_epoch_ts s + e) in
    Ok (s <| us_next_epoch_ts := t |> <| us_fees ; current_epoch_referrer_reward := 0 |>)
  else Ok s.

Definition has_referrer (s : UserStats) : bool := negb (us_referrer s =? 0).
Definition get_total_30d_volume (s : UserStats) : DriftResult Z := safe_u 64 (taker_volume_30d s + maker_volume_30d s).
Definition get_age_ts (s : UserStats) (now : Z) : Z :=
  let first := Z.min (Z.min (last_filler_volume_30d_ts s) (last_maker_volume_30d_ts s)) (last_taker_volume_30d_ts s) in
  Z.max (isat 64 (now - first)) 0.

Inductive ReferrerStatus : Set := IsReferrer | IsReferred | BuilderReferral.
Definition referrer_status_bit (r : ReferrerStatus) : Z :=
  match r with IsReferrer => 1 | IsReferred => 2 | BuilderReferral => 4 end.
Definition has_referrer_status (status : Z) (r : ReferrerStatus) : bool :=
  negb (Z.land status (referrer_status_bit r) =? 0).
Definition set_referrer_flag (s : UserStats) (r : ReferrerStatus) : UserStats :=
  s <| referrer_status := if has_referrer s then add_flag (referrer_status s) (referrer_status_bit r)
                          else remove_flag (referrer_status s) (referrer_status_bit r) |>.
Definition update_referrer_status (s : UserStats) : UserStats := set_referrer_flag s IsReferred.
Definition update_builder_referral_status (s : UserStats) : UserStats := set_referrer_flag s BuilderReferral.

(** ** Fuel overflow *)

Definition fuel_overflow_exists (status : Z) : bool := negb (Z.land status 1 =? 0).
Definition update_fuel_overflow_status (s : UserStats) (has_overflow : bool) : UserStats :=
  s <| fuel_overflow_status := if has_overflow then add_flag (fuel_overflow_status s) 1
                               else remove_flag (fuel_overflow_status s) 1 |>.
Definition can_sweep_fuel (s : UserStats) : bool :=
  existsb (fun x => FUEL_OVERFLOW_THRESHOLD_U32 <? x)
    [fuel_insurance s; fuel_deposits s; fuel_borrows s; fuel_positions s; fuel_taker s; fuel_maker s].
Definition reset_fuel (s : UserStats) : UserStats :=
  s <| fuel_insurance := 0 |> <| fuel_deposits := 0 |> <| fuel_borrows := 0 |> <| fuel_positions := 0 |>
    <| fuel_taker := 0 |> <| fuel_maker := 0 |>.
Definition total_fuel (s : UserStats) : DriftResult Z :=
  Ok (fuel_insurance s + fuel_deposits s + fuel_borrows s + fuel_positions s + fuel_taker s + fuel_maker s).

(** The key a derived address would have is an argument, as is the account's. *)
Definition validate_fuel_overflow (s : UserStats) (expected : Z) (given : option Z) : DriftResult unit :=
  match given, fuel_overflow_exists (fuel_overflow_status s) with
  | None, true => Err FuelOverflowAccountNotFound
  | None, false => Ok tt
  | Some actual, true => if actual =? expected then Ok tt else Err InvalidPDA
  | Some _, false => Err FuelOverflowAccountNotFound
  end.

Inductive UserStatsPausedOperations : Set := UpdateBidAskTwap | AmmAtomicFill | AmmAtomicRiskIncreasingFill.
Definition stats_operation_bit (o : UserStatsPausedOperations) : Z :=
  match o with UpdateBidAskTwap => 1 | AmmAtomicFill => 2 | AmmAtomicRiskIncreasingFill => 4 end.
Definition is_stats_operation_paused (current : Z) (o : UserStatsPausedOperations) : bool :=
  negb (Z.land current (stats_operation_bit o) =? 0).
Definition can_update_bid_ask_twap (s : UserStats) : bool :=
  negb (is_stats_operation_paused (us_paused_operations s) UpdateBidAskTwap).
Definition user_can_skip_auction_duration (s : UserStats) (reduce_only_order : bool) : bool :=
  negb (is_stats_operation_paused (us_paused_operations s) AmmAtomicFill
        || (is_stats_operation_paused (us_paused_operations s) AmmAtomicRiskIncreasingFill && negb reduce_only_order)).

(** [FuelOverflow]: the account fuel is swept to. *)
Record FuelOverflow := mkFuelOverflow {
  fo_authority : Z;
  fo_fuel_insurance : Z;
  fo_fuel_deposits : Z;
  fo_fuel_borrows : Z;
  fo_fuel_positions : Z;
  fo_fuel_taker : Z;
  fo_fuel_maker : Z;
  fo_last_fuel_sweep_ts : Z;
  fo_last_reset_ts : Z;
}.

Definition update_from_user_stats (f : FuelOverflow) (s : UserStats) (now : Z) : DriftResult FuelOverflow :=
  let! a := safe_u 128 (fo_fuel_insurance f + fuel_insurance s) in
  let! b := safe_u 128 (fo_fuel_deposits f + fuel_deposits s) in
  let! c := safe_u 128 (fo_fuel_borrows f + fuel_borrows s) in
  let! d := safe_u 128 (fo_fuel_positions f + fuel_positions s) in
  let! e := safe_u 128 (fo_fuel_taker f + fuel_taker s) in
  let! g := safe_u 128 (fo_fuel_maker f + fuel_maker s) in
  Ok (mkFuelOverflow (fo_authority f) a b c d e g now (fo_last_reset_ts f)).

Definition overflow_reset_fuel (f : FuelOverflow) (now : Z) : FuelOverflow :=
  mkFuelOverflow (fo_authority f) 0 0 0 0 0 0 (fo_last_fuel_sweep_ts f) now.

Definition overflow_total_fuel (f : FuelOverflow) : DriftResult Z :=
  let! x := safe_u 128 (fo_fuel_insurance f + fo_fuel_deposits f) in
  let! x := safe_u 128 (x + fo_fuel_borrows f) in
  let! x := safe_u 128 (x + fo_fuel_positions f) in
  let! x := safe_u 128 (x + fo_fuel_taker f) in
  safe_u 128 (x + fo_fuel_maker f).

(** ** The bits of a flag byte *)

Lemma land_pow2 f i : 0 <= i -> Z.land f (2 ^ i) = if Z.testbit f i then 2 ^ i else 0.
Proof.
  intros Hi. apply Z.bits_inj'. intros n Hn. rewrite Z.land_spec, Z.pow2_bits_eqb by done.
  destruct (Z.eqb_spec i n) as [->|Hin].
  - destruct (Z.testbit f n) eqn:E; [by rewrite Z.pow2_bits_true|by rewrite Z.bits_0].
  - rewrite andb_false_r. destruct (Z.testbit f i); [by rewrite Z.pow2_bits_false|by rewrite Z.bits_0].
Qed.

Lemma has_flag_testbit f i : 0 <= i -> has_flag f (2 ^ i) = Z.testbit f i.
Proof.
  intros Hi. unfold has_flag. rewrite land_pow2 by done. pose proof (Z.pow_pos_nonneg 2 i).
  destruct (Z.testbit f i); [apply Z.ltb_lt; lia|done].
Qed.

Lemma has_two_flags f i j :
  0 <= f -> 0 <= i -> 0 <= j -> has_flag f (Z.lor (2 ^ i) (2 ^ j)) = Z.testbit f i || Z.testbit f j.
Proof.
  intros Hf Hi Hj. unfold has_flag. rewrite Z.land_lor_distr_r, !land_pow2 by done.
  pose proof (Z.pow_pos_nonneg 2 i). pose proof (Z.pow_pos_nonneg 2 j).
  destruct (Z.testbit f i), (Z.testbit f j); cbn [orb]; rewrite ?Z.lor_0_r, ?Z.lor_0_l; try (apply Z.ltb_lt; lia); [|done].
  apply Z.ltb_lt. assert (0 <= Z.lor (2 ^ i) (2 ^ j)) by (apply Z.lor_nonneg; lia).
  assert (Z.lor (2 ^ i) (2 ^ j) <> 0) by (intros [? _]%Z.lor_eq_0_iff; lia). lia.
Qed.

Lemma add_flag_testbit f i n : 0 <= n -> 0 <= i -> Z.testbit (add_flag f (2 ^ i)) n = Z.testbit f n || (i =? n).
Proof. intros Hn Hi. unfold add_flag. by rewrite Z.lor_spec, Z.pow2_bits_eqb. Qed.

Lemma remove_flag_testbit f i n :
  0 <= n < 8 -> 0 <= i < 8 -> Z.testbit (remove_flag f (2 ^ i)) n = Z.testbit f n && negb (i =? n).
Proof.
  intros Hn Hi. unfold remove_flag. rewrite Z.land_spec, Z.lxor_spec, Z.pow2_bits_eqb by lia.
  change 255 with (Z.ones 8). rewrite Z.ones_spec_low by lia. by destruct (i =? n).
Qed.

Lemma add_flag_byte f i : 0 <= f < 256 -> 0 <= i < 8 -> 0 <= add_flag f (2 ^ i) < 256.
Proof.
  intros Hf Hi. unfold add_flag. split; [apply Z.lor_nonneg; lia|].
  destruct (Z.eq_dec (Z.lor f (2 ^ i)) 0) as [->|Hne]; [lia|].
  assert (0 <= Z.lor f (2 ^ i)) by (apply Z.lor_nonneg; lia).
  apply Z.log2_lt_pow2 with (b := 8); [lia|]. rewrite Z.log2_lor, Z.log2_pow2 by lia.
  destruct (Z.eq_dec f 0) as [->|]; [cbn; lia|]. assert (Z.log2 f < 8) by (apply Z.log2_lt_pow2; lia). lia.
Qed.

Lemma remove_flag_byte f i : 0 <= f < 256 -> 0 <= i < 8 -> 0 <= remove_flag f (2 ^ i) < 256.
Proof.
  intros Hf Hi. unfold remove_flag. split; [apply Z.land_nonneg; lia|].
  destruct (Z.eq_dec (Z.land f (Z.lxor (2 ^ i) 255)) 0) as [->|Hne]; [lia|].
  assert (0 <= Z.land f (Z.lxor (2 ^ i) 255)) by (apply Z.land_nonneg; lia).
  apply Z.log2_lt_pow2 with (b := 8); [lia|].
  assert (0 <= Z.lxor (2 ^ i) 255) by (apply Z.lxor_nonneg; split; intros; try lia; apply Z.pow_nonneg; lia).
  pose proof (Z.log2_land f (Z.lxor (2 ^ i) 255)).
  destruct (Z.eq_dec f 0) as [->|]; [rewrite Z.land_0_l in *; lia|].
  assert (Z.log2 f < 8) by (apply Z.log2_lt_pow2; lia). lia.
Qed.

(** ** The life cycle of a cross-margin liquidation *)

(** What the status byte says of the margin account. *)
Inductive MarginState : Set := Healthy | Liquidating | BankruptState.
Definition margin_state (u : User) : MarginState :=
  if has_status u Bankrupt then BankruptState else if has_status u BeingLiquidated then Liquidating else Healthy.

(** The operations as transitions of the margin state. *)
Inductive MarginEvent : Set := EnterLiquidation | EnterBankruptcy | ExitLiquidation | ExitBankruptcy.
Definition margin_transition (s : MarginState) (e : MarginEvent) : MarginState :=
  match e, s with
  | EnterLiquidation, Healthy => Liquidating
  | EnterLiquidation, _ => s
  | EnterBankruptcy, _ => BankruptState
  | ExitLiquidation, _ | ExitBankruptcy, _ => Healthy
  end.

Definition margin_event (u : User) (slot : Z) (e : MarginEvent) : DriftResult User :=
  match e with
  | EnterLiquidation => let! '(u, _) := enter_cross_margin_liquidation u slot in Ok u
  | EnterBankruptcy => Ok (enter_cross_margin_bankruptcy u)
  | ExitLiquidation => Ok (exit_cross_margin_liquidation u)
  | ExitBankruptcy => Ok (exit_cross_margin_bankruptcy u)
  end.

Lemma status_testbit u s : has_status u s = Z.testbit (u_status u) (Z.log2 (user_status_bit s)).
Proof.
  unfold has_status. rewrite <- has_flag_testbit by apply Z.log2_nonneg. by destruct s.
Qed.

Lemma cross_liquidated_spec u :
  0 <= u_status u -> is_cross_margin_being_liquidated u = has_status u BeingLiquidated || has_status u Bankrupt.
Proof. intros H. rewrite !status_testbit. by apply (has_two_flags _ 0 1). Qed.

Lemma set_status_spec u s on s' :
  has_status (set_status u s on) s' = if bool_decide (user_status_bit s = user_status_bit s') then on else has_status u s'.
Proof.
  rewrite !status_testbit. unfold set_status.
  replace (user_status_bit s) with (2 ^ Z.log2 (user_status_bit s)) at 1 by by destruct s.
  destruct on; cbn [add_user_status remove_user_status update_field u_status]; unfold add_user_status, remove_user_status;
    cbn; replace (user_status_bit s) with (2 ^ Z.log2 (user_status_bit s)) by (by destruct s).
  - rewrite add_flag_testbit by apply Z.log2_nonneg. destruct s, s'; cbn; by rewrite ?orb_false_r, ?orb_true_r.
  - rewrite remove_flag_testbit by (destruct s, s'; cbn; lia). destruct s, s'; cbn; by rewrite ?andb_false_r, ?andb_true_r.
Qed.

Lemma set_status_byte u s on : 0 <= u_status u < 256 -> 0 <= u_status (set_status u s on) < 256.
Proof.
  intros H. unfold set_status, add_user_status, remove_user_status. destruct on; cbn;
    replace (user_status_bit s) with (2 ^ Z.log2 (user_status_bit s)) by (by destruct s);
    [apply add_flag_byte|apply remove_flag_byte]; try done; destruct s; cbn; lia.
Qed.

Lemma margin_state_spec u : 0 <= u_status u ->
  is_cross_margin_being_liquidated u = negb (match margin_state u with Healthy => true | _ => false end).
Proof.
  intros H. rewrite cross_liquidated_spec by done. unfold margin_state.
  by destruct (has_status u Bankrupt), (has_status u BeingLiquidated).
Qed.

(** Clearing a flag, then raising another, in terms of the status bits. *)
Ltac status_bits :=
  unfold margin_state, exit_cross_margin_liquidation, exit_cross_margin_bankruptcy, enter_cross_margin_bankruptcy,
    is_cross_margin_bankrupt in *;
  repeat match goal with
  | |- context [has_status (?u <| u_liquidation_margin_freed := ?x |>) ?s] =>
      change (has_status (u <| u_liquidation_margin_freed := x |>) s) with (has_status u s)
  | |- context [has_status (?u <| u_last_active_slot := ?x |>) ?s] =>
      change (has_status (u <| u_last_active_slot := x |>) s) with (has_status u s)
  | |- context [has_status (?u <| u_next_liquidation_id := ?x |>) ?s] =>
      change (has_status (u <| u_next_liquidation_id := x |>) s) with (has_status u s)
  | |- context [has_status (add_user_status ?u ?s) ?s'] =>
      change (add_user_status u s) with (set_status u s true)
  | |- context [has_status (remove_user_status ?u ?s) ?s'] =>
      change (remove_user_status u s) with (set_status u s false)
  | |- context [has_status (set_status ?u ?s ?on) ?s'] => rewrite (set_status_spec u s on s')
  end.

(** One event, on every branch. *)
Lemma margin_event_Ok u slot e u' :
  0 <= u_status u < 256 -> margin_event u slot e = Ok u' ->
  margin_state u' = margin_transition (margin_state u) e
  /\ (forall s, s <> BeingLiquidated -> s <> Bankrupt -> has_status u' s = has_status u s)
  /\ u_perp_positions u' = u_perp_positions u /\ 0 <= u_status u' < 256.
Proof.
  intros Hb H. destruct e; cbn [margin_event margin_transition] in *.
  - apply obind_Ok in H as ([u1 id] & H & [= <-]). unfold enter_cross_margin_liquidation in H.
    rewrite margin_state_spec in H by lia. destruct (margin_state u) eqn:Hm; cbn [negb] in H.
    2-3: apply obind_Ok in H as (? & _ & [= <- _]); by rewrite Hm.
    assert (H' : exists x y z, u1 = add_user_status u BeingLiquidated <| u_liquidation_margin_freed := x |>
              <| u_last_active_slot := y |> <| u_next_liquidation_id := z |>).
    { destruct (has_isolated_margin_being_liquidated _).
      - apply obind_Ok in H as (? & _ & [= <- _]). by exists 0, (u_last_active_slot u), (u_next_liquidation_id u).
      - injection H as <- _. by eexists _, _, _. }
    destruct H' as (x & y & z & ->). unfold margin_state in Hm. split_and!.
    + revert Hm. status_bits. cbn. by destruct (has_status u Bankrupt).
    + intros s H1 H2. status_bits. by rewrite bool_decide_eq_false_2 by (by destruct s).
    + done.
    + apply (set_status_byte u BeingLiquidated true Hb).
    + apply (set_status_byte u BeingLiquidated true Hb).
  - injection H as <-. split_and!.
    + by status_bits.
    + intros s H1 H2. status_bits. by rewrite !bool_decide_eq_false_2 by (by destruct s).
    + done.
    + apply (set_status_byte _ Bankrupt true). by apply (set_status_byte u BeingLiquidated false).
    + apply (set_status_byte _ Bankrupt true). by apply (set_status_byte u BeingLiquidated false).
  - injection H as <-. split_and!.
    + by status_bits.
    + intros s H1 H2. status_bits. by rewrite !bool_decide_eq_false_2 by (by destruct s).
    + done.
    + apply (set_status_byte _ Bankrupt false). by apply (set_status_byte u BeingLiquidated false).
    + apply (set_status_byte _ Bankrupt false). by apply (set_status_byte u BeingLiquidated false).
  - injection H as <-. split_and!.
    + by status_bits.
    + intros s H1 H2. status_bits. by rewrite !bool_decide_eq_false_2 by (by destruct s).
    + done.
    + apply (set_status_byte _ Bankrupt false). by apply (set_status_byte u BeingLiquidated false).
    + apply (set_status_byte _ Bankrupt false). by apply (set_status_byte u BeingLiquidated false).
Qed.

Fixpoint margin_events (u : User) (es : list (Z * MarginEvent)) : DriftResult User :=
  match es with
  | [] => Ok u
  | (slot, e) :: es => let! u := margin_event u slot e in margin_events u es
  end.

(** The status byte of an account in a state: the one bit of the state is set and
    the other is not. *)
Definition represents (u : User) (s : MarginState) : Prop :=
  has_status u BeingLiquidated = match s with Liquidating => true | _ => false end
  /\ has_status u Bankrupt = match s with BankruptState => true | _ => false end.

Lemma represents_state u s : represents u s -> margin_state u = s.
Proof. intros [H1 H2]. unfold margin_state. rewrite H1, H2. by destruct s. Qed.

Lemma represents_liquidated u s : 0 <= u_status u -> represents u s ->
  is_cross_margin_being_liquidated u = negb (match s with Healthy => true | _ => false end).
Proof. intros Hu Hs. by rewrite margin_state_spec, (represents_state u s). Qed.

Lemma margin_event_represents u slot e u' s :
  0 <= u_status u < 256 -> represents u s -> margin_event u slot e = Ok u' -> represents u' (margin_transition s e).
Proof.
  intros Hb Hs H. pose proof Hs as [H1 H2]. destruct e; cbn [margin_event margin_transition] in *.
  2-4: injection H as <-; split; by status_bits.
  apply obind_Ok in H as ([u1 id] & H & [= <-]). unfold enter_cross_margin_liquidation in H.
  rewrite (represents_liquidated u s) in H by (done || lia). destruct s; cbn [negb] in H.
  2-3: by apply obind_Ok in H as (? & _ & [= <- _]).
  assert (H' : exists x y z, u1 = add_user_status u BeingLiquidated <| u_liquidation_margin_freed := x |>
            <| u_last_active_slot := y |> <| u_next_liquidation_id := z |>).
  { destruct (has_isolated_margin_being_liquidated _).
    - apply obind_Ok in H as (? & _ & [= <- _]). by exists 0, (u_last_active_slot u), (u_next_liquidation_id u).
    - injection H as <- _. by eexists _, _, _. }
  destruct H' as (x & y & z & ->). split; status_bits; done.
Qed.

(** C26: The status byte refines the life cycle of a margin account: over any run
    of entering and leaving liquidation and bankruptcy, the two bits are exactly
    those of the abstract account - one of them set, in liquidation and in
    bankruptcy, and none in health, if it was so before -, the other statuses and
    the positions do not change, and the byte stays a byte. *)
Theorem margin_life_cycle u es u' s :
  0 <= u_status u < 256 -> represents u s -> margin_events u es = Ok u' ->
  represents u' (fold_left margin_transition (snd <$> es) s)
  /\ (forall x, x <> BeingLiquidated -> x <> Bankrupt -> has_status u' x = has_status u x)
  /\ u_perp_positions u' = u_perp_positions u /\ 0 <= u_status u' < 256.
Proof.
  revert u s. induction es as [|[slot e] es IH]; intros u s Hb Hr H; cbn in *; [injection H as <-; done|].
  apply obind_Ok in H as (u1 & H1 & H). destruct (margin_event_Ok u slot e u1 Hb H1) as (_ & Hs & Hp & Hb1).
  pose proof (margin_event_represents _ _ _ _ _ Hb Hr H1) as Hr1.
  destruct (IH u1 _ Hb1 Hr1 H) as (Hm' & Hs' & Hp' & Hb'). split_and!; [done| |congruence|lia|lia].
  intros x H2 H3. rewrite Hs' by done. by apply Hs.
Qed.

(** ** Which liquidation an action belongs to *)

(** Entering the liquidation of the account, or of one isolated position. *)
Definition enter_liquidation (u : User) (slot : Z) (isolated : option Z) : DriftResult (User * Z) :=
  match isolated with
  | None => enter_cross_margin_liquidation u slot
  | Some market_index => enter_isolated_margin_liquidation u market_index slot
  end.

Lemma get_isolated_Ok u i p : get_isolated_perp_position u i = Ok p -> is_isolated p = true /\ p ∈ u_perp_positions u.
Proof.
  intros H. unfold get_isolated_perp_position in H. apply obind_Ok in H as (k & _ & H).
  apply obind_Ok in H as (q & [_ Hq]%idx_Ok & H). apply obind_Ok in H as (? & ?%validate_Ok & [= <-]).
  split; [done|]. by apply list_elem_of_lookup_2 in Hq.
Qed.

Lemma with_isolated_Ok u i f u' :
  with_isolated_position u i f = Ok u' ->
  exists l k p, u' = u <| u_perp_positions := <[k := f p]> l |> /\ l !! k = Some p /\ is_isolated p = true.
Proof.
  intros H. unfold with_isolated_position, force_get_isolated_perp_position_index in H. apply obind_Ok in H as ([l k] & Hl & H).
  apply obind_Ok in H as (p & [_ Hp]%idx_Ok & H). apply obind_Ok in H as (l' & [_ Hl']%set_idx_Ok & [= <-]).
  rewrite Nat2Z.id in *. exists l, k, p. split_and!; [by rewrite Hl'|done|].
  destruct (get_position_index (u_perp_positions u) i) as [k0|e|] eqn:E; [| |done].
  - apply obind_Ok in Hl as (q & [_ Hq]%idx_Ok & Hl). apply obind_Ok in Hl as (? & Hv%validate_Ok & [= <- <-]).
    rewrite Nat2Z.id in Hq. congruence.
  - apply obind_Ok in Hl as ([l0 k0] & _ & Hl). apply obind_Ok in Hl as (q & [_ Hq]%idx_Ok & Hl).
    apply obind_Ok in Hl as (l1 & [_ Hl1]%set_idx_Ok & [= <- <-]). rewrite Nat2Z.id in *. rewrite Hl1 in Hp.
    rewrite list_lookup_insert_eq in Hp by (by apply lookup_lt_Some in Hq). by injection Hp as <-.
Qed.

(** A liquidation has one id: entering it, for the account or for an isolated
    position, marks the user; when the user is already being liquidated it keeps
    the last id that was issued and the user's last active slot, otherwise it
    issues the next id, two bytes that start over at 1, and records the slot. *)
Theorem liquidation_id_shared u slot isolated u' id :
  0 <= u_status u < 256 -> Forall (fun p => 0 <= pp_position_flag p < 256) (u_perp_positions u) ->
  enter_liquidation u slot isolated = Ok (u', id) ->
  user_is_being_liquidated u' = true
  /\ (user_is_being_liquidated u = true ->
      id = u_next_liquidation_id u - 1 /\ u_next_liquidation_id u' = u_next_liquidation_id u
      /\ u_last_active_slot u' = u_last_active_slot u)
  /\ (user_is_being_liquidated u = false ->
      id = u_next_liquidation_id u /\ u_next_liquidation_id u' = (if uok 16 (id + 1) then id + 1 else 1)
      /\ u_last_active_slot u' = slot).
Proof.
  intros Hb Hf H. destruct isolated as [i|]; cbn [enter_liquidation] in H.
  - unfold enter_isolated_margin_liquidation in H. apply obind_Ok in H as (already & Ha & H). destruct already.
    + unfold is_isolated_margin_being_liquidated in Ha. apply obind_Ok in H as (id' & [-> _]%safe_u_Ok & [= <- <-]).
      destruct (get_isolated_perp_position u i) as [p| |] eqn:Hp; [|done..]. injection Ha as Ha.
      apply get_isolated_Ok in Hp as [Hi Hin].
      assert (user_is_being_liquidated u = true) as Hu.
      { unfold user_is_being_liquidated, has_isolated_margin_being_liquidated. apply orb_true_iff. right.
        apply existsb_exists. exists p. split; [by apply list_elem_of_In|by rewrite Hi, Ha]. }
      rewrite Hu. split_and!; [done|done|done].
    + clear Ha. apply obind_Ok in H as ([u1 id1] & H1 & H). apply obind_Ok in H as (u2 & H2 & [= <- <-]).
      apply with_isolated_Ok in H2 as (l & k & p & -> & Hk & Hi). split.
      { unfold user_is_being_liquidated, has_isolated_margin_being_liquidated. apply orb_true_iff. right.
        apply existsb_exists. exists (add_position_flag BeingLiquidatedPosition p). split.
        - apply list_elem_of_In. cbn. eapply list_elem_of_lookup_2. apply list_lookup_insert_eq.
          by apply lookup_lt_Some in Hk.
        - assert (E0 : forall q, is_isolated q = Z.testbit (pp_position_flag q) 0)
            by (intros q; exact (has_flag_testbit (pp_position_flag q) 0 ltac:(lia))).
          apply andb_true_iff. split.
          + rewrite E0 in *. change (pp_position_flag (add_position_flag _ p)) with (Z.lor (pp_position_flag p) 2).
            by rewrite Z.lor_spec, Hi.
          + unfold is_being_liquidated.
            change (pp_position_flag (add_position_flag _ p)) with (Z.lor (pp_position_flag p) 2).
            cbn [position_flag_bit]. rewrite Z.land_lor_distr_l. apply Z.ltb_lt. change (Z.land 2 (Z.lor 2 4)) with 2.
            assert (Hnn : 0 <= Z.lor (Z.land (pp_position_flag p) (Z.lor 2 4)) 2)
              by (apply Z.lor_nonneg; split; [apply Z.land_nonneg; right; done|done]).
            assert (Z.lor (Z.land (pp_position_flag p) (Z.lor 2 4)) 2 <> 0) by (intros [_ ?]%Z.lor_eq_0_iff; done). lia. }
      fold (user_is_being_liquidated u) in H1. cbn. destruct (user_is_being_liquidated u) eqn:Hu.
      * apply obind_Ok in H1 as (x & [-> _]%safe_u_Ok & [= <- <-]). by split_and!.
      * injection H1 as <- <-. by split_and!.
  - unfold enter_cross_margin_liquidation in H. unfold user_is_being_liquidated in *.
    destruct (is_cross_margin_being_liquidated u) eqn:Hc; cbn [orb].
    + apply obind_Ok in H as (x & [-> _]%safe_u_Ok & [= <- <-]). rewrite Hc. by split_and!.
    + assert (Hnew : forall x y z, is_cross_margin_being_liquidated (add_user_status u BeingLiquidated
        <| u_liquidation_margin_freed := x |> <| u_last_active_slot := y |> <| u_next_liquidation_id := z |>) = true).
      { intros x y z. rewrite cross_liquidated_spec by (apply (set_status_byte u BeingLiquidated true Hb)).
        status_bits. done. }
      change (has_isolated_margin_being_liquidated (_ <| u_liquidation_margin_freed := 0 |>))
        with (has_isolated_margin_being_liquidated u) in H.
      destruct (has_isolated_margin_being_liquidated u) eqn:Hi.
      * apply obind_Ok in H as (x & [-> _]%safe_u_Ok & [= <- <-]).
        split; [|by split_and!]. apply orb_true_iff. left.
        apply (Hnew 0 (u_last_active_slot u) (u_next_liquidation_id u)).
      * injection H as <- <-. split; [|by split_and!]. apply orb_true_iff. left. apply Hnew.
Qed.

(** After the last id, 65535, the liquidation that took it answers 0 to the next
    action, and the one after it is the first again. *)
Lemma last_liquidation_id :
  let u := default_User <| u_next_liquidation_id := 65535 |> in
  exists u' u'', enter_cross_margin_liquidation u 10 = Ok (u', 65535)
    /\ enter_cross_margin_liquidation u' 11 = Ok (u', 0)
    /\ enter_cross_margin_liquidation (exit_cross_margin_liquidation u') 12 = Ok (u'', 1).
Proof. cbv zeta. eexists _, _. split_and!; [vm_compute; reflexivity..]. Qed.

(** A reward that finds the epoch over counts in no epoch. *)
Lemma epoch_reward_forgotten :
  exists s, increment_total_referrer_reward default_UserStats 500 100 = Ok s
    /\ current_epoch_referrer_reward (us_fees s) = 0 /\ total_referrer_reward (us_fees s) = 500.
Proof. eexists. split_and!; [vm_compute; reflexivity..]. Qed.

(** ** Witnesses *)

Lemma margin_life_cycle_witness :
  exists u', margin_events (default_User <| u_status := 20 |>) [(5, EnterLiquidation); (6, EnterBankruptcy)] = Ok u'
    /\ represents u' BankruptState /\ is_reduce_only u' = true.
Proof.
  assert (H : exists u', margin_events (default_User <| u_status := 20 |>) [(5, EnterLiquidation); (6, EnterBankruptcy)] = Ok u')
    by (eexists; vm_compute; reflexivity).
  destruct H as [u' H]. exists u'. split; [exact H|].
  destruct (margin_life_cycle (default_User <| u_status := 20 |>) [(5, EnterLiquidation); (6, EnterBankruptcy)] u' Healthy ltac:(vm_compute; split; (discriminate || reflexivity)) ltac:(split; reflexivity) H) as (Hm & Hs & _).
  split; [exact Hm|]. refine (eq_trans (Hs UserReduceOnly _ _) _); [discriminate|discriminate|reflexivity].
Defined.

Definition isolated_user : User :=
  default_User <| u_perp_positions :=
    [default_PerpPosition <| pp_market_index := 3 |> <| pp_position_flag := 1 |> <| pp_base_asset_amount := 7 |>] |>
    <| u_next_liquidation_id := 9 |>.

Lemma liquidation_id_shared_witness :
  exists u' id, enter_liquidation isolated_user 50 (Some 3) = Ok (u', id) /\ id = 9
    /\ user_is_being_liquidated u' = true.
Proof.
  assert (H : exists u' id, enter_liquidation isolated_user 50 (Some 3) = Ok (u', id))
    by (eexists _, _; vm_compute; reflexivity).
  destruct H as (u' & id & H). exists u', id.
  destruct (liquidation_id_shared isolated_user 50 (Some 3) u' id ltac:(vm_compute; split; (discriminate || reflexivity))
    ltac:(apply Forall_singleton; vm_compute; split; (discriminate || reflexivity)) H) as (Hl & _ & Hn).
  split; [exact H|]. split; [exact (proj1 (Hn eq_refl))|exact Hl].
Defined.
