(* ===== verification/DriftWithdraw.v ===== *)
(** Limits on the withdrawals from a spot market: [math/spot_withdraw.rs] without
    the two validations, which are in [DriftSpotBalance].

    A withdrawal must leave the deposits above a part of their daily average and
    above what the utilization allows; a borrow must stay under similar caps.  Small
    users may take their principal regardless. *)
From S2P Require Import Prelude.
From S2P Require Import RecordUpdate.
From S2P Require Import DriftError.
From S2P Require Import DriftMath.
From S2P Require Import DriftSpotMarket.
From S2P Require Import DriftSpotBalance.
From S2P Require Import DriftTypes.
From S2P Require Import DriftUser.

Definition calculate_min_deposit_token_amount (deposit_token_twap withdraw_guard_threshold : Z) : DriftResult Z :=
  safe_u 128 (deposit_token_twap - Z.max (deposit_token_twap / 4) (Z.min withdraw_guard_threshold deposit_token_twap)).

Definition calculate_max_borrow_token_amount (deposit_token_amount deposit_token_twap borrow_token_twap
    withdraw_guard_threshold max_token_borrows pool_id : Z) : DriftResult Z :=
  let lesser := Z.min deposit_token_amount deposit_token_twap in
  if pool_id =? 0 then
    let! b := safe_u 128 (borrow_token_twap + lesser / 5) in
    let! c := safe_u 128 (lesser - lesser / 14) in
    Ok (Z.min (Z.max withdraw_guard_threshold (Z.min (Z.max (lesser / 3) b) c)) max_token_borrows)
  else
    let! b := safe_u 128 (borrow_token_twap + lesser / 3) in
    let! c := safe_u 128 (lesser - lesser / 20) in
    Ok (Z.min (Z.max withdraw_guard_threshold (Z.min (Z.max (lesser / 2) b) c)) max_token_borrows).

Definition check_user_exception_to_withdraw_limits (m : SpotMarket) (user : option User)
    (token_amount_withdrawn : option Z) : DriftResult bool :=
  match user with
  | None => Ok false
  | Some u =>
      let! p := get_spot_position u (sm_market_index m) in
      let! net_deposits := safe_i 128 (u_total_deposits u - u_total_withdraws u) in
      if (0 <=? net_deposits) && (0 <=? cumulative_deposits p) && balance_type_eqb (sp_balance_type p) Deposit then
        match token_amount_withdrawn with
        | Some withdrawn =>
            let! t := get_token_amount (sp_scaled_balance p) m (sp_balance_type p) in
            let! s := safe_u 128 (t + withdrawn) in
            let! limit := safe_udiv (withdraw_guard_threshold m) 10 in
            Ok (s <? limit)
        | None => Ok false
        end
      else Ok false
  end.

(** The least deposits and the most borrows the utilization allows. *)
Definition calculate_token_utilization_limits (deposit_token_amount borrow_token_amount : Z) (m : SpotMarket) :
    DriftResult (Z * Z) :=
  let! x := safe_u 128 (utilization_twap m + usat 128 (SPOT_UTILIZATION_PRECISION - utilization_twap m) / 2) in
  let max_withdraw_utilization := Z.max (optimal_utilization m) x in
  let! p := safe_u 128 (borrow_token_amount * SPOT_UTILIZATION_PRECISION) in
  let! q := safe_udiv p max_withdraw_utilization in
  let min_deposit := Z.min q (usat 128 (deposit_token_amount - withdraw_guard_threshold m)) in
  let! p := safe_u 128 (max_withdraw_utilization * deposit_token_amount) in
  let! q := safe_udiv p SPOT_UTILIZATION_PRECISION in
  Ok (min_deposit, Z.max q (withdraw_guard_threshold m)).

Definition borrows_cap (m : SpotMarket) : DriftResult Z :=
  if 0 <? max_token_borrows_fraction m then
    let! p := safe_u 64 (max_token_deposits m * max_token_borrows_fraction m) in
    safe_udiv p 10000
  else Ok (umax 128).

(** Whether the market's state is within the limits. *)
Definition check_withdraw_limits (m : SpotMarket) (user : option User) (token_amount_withdrawn : option Z) :
    DriftResult bool :=
  let! deposits := get_token_amount (deposit_balance m) m Deposit in
  let! borrows := get_token_amount (borrow_balance m) m Borrow in
  let! max_token_borrows := borrows_cap m in
  let! max_borrow_twap :=
    calculate_max_borrow_token_amount deposits (deposit_token_twap m) (borrow_token_twap m)
      (withdraw_guard_threshold m) max_token_borrows (sm_pool_id m) in
  let! '(min_deposit_utilization, max_borrow_utilization) := calculate_token_utilization_limits deposits borrows m in
  let max_borrow := Z.min max_borrow_twap max_borrow_utilization in
  let! min_deposit_twap := calculate_min_deposit_token_amount (deposit_token_twap m) (withdraw_guard_threshold m) in
  let min_deposit := Z.max min_deposit_twap min_deposit_utilization in
  let! valid_global_withdrawal :=
    match user with
    | Some u =>
        let! p := get_spot_position u (sm_market_index m) in
        Ok (if balance_type_eqb (sp_balance_type p) Borrow then (borrows <=? max_borrow) && (min_deposit <=? deposits)
            else min_deposit <=? deposits)
    | None => Ok ((min_deposit <=? deposits) && (borrows <=? max_borrow))
    end in
  if negb valid_global_withdrawal then check_user_exception_to_withdraw_limits m user token_amount_withdrawn
  else Ok true.

(** [controller/spot_position.rs]: a change of the user's balance with the limits
    checked on what it leaves. *)
Definition is_spot_withdraw_paused (m : SpotMarket) : bool := negb (Z.land (paused_operations m) 8 =? 0).
Definition update_spot_balances_and_cumulative_deposits_with_limits (token_amount : Z) (dir : SpotBalanceType)
    (m : SpotMarket) (u : User) : DriftResult (SpotMarket * User) :=
  let! '(u, i) := force_get_spot_position_index u (sm_market_index m) in
  let! p := idx (u_spot_positions u) (Z.of_nat i) in
  let! '(m, p) := update_spot_balances_and_cumulative_deposits token_amount dir m p true None in
  let! l := set_idx (u_spot_positions u) (Z.of_nat i) p in
  let u := u <| u_spot_positions := l |> in
  let! valid_withdraw := check_withdraw_limits m (Some u) (Some token_amount) in
  do! validate valid_withdraw DailyWithdrawLimit in
  do! validate match sm_status m with Active | ReduceOnly | Settlement => true | _ => false end MarketWithdrawPaused in
  do! validate (negb (is_spot_withdraw_paused m)) MarketWithdrawPaused in
  let! p := idx (u_spot_positions u) (Z.of_nat i) in
  do! validate (negb (match asset_tier m with Protected => balance_type_eqb (sp_balance_type p) Borrow | _ => false end))
        ProtectedAssetTierViolation in
  Ok (m, u).

Definition get_max_withdraw_for_market_with_token_amount (m : SpotMarket) (token_amount : Z) (is_leaving_drift : bool) :
    DriftResult Z :=
  let! deposits := get_token_amount (deposit_balance m) m Deposit in
  let! borrows := get_token_amount (borrow_balance m) m Borrow in
  let! '(min_deposit_utilization, max_borrow_utilization) :=
    if is_leaving_drift then calculate_token_utilization_limits deposits borrows m else Ok (0, umax 128) in
  let borrowed (max_withdraw_amount : Z) :=
    let! max_token_borrows := borrows_cap m in
    let! max_borrow_twap :=
      calculate_max_borrow_token_amount deposits (deposit_token_twap m) (borrow_token_twap m)
        (withdraw_guard_threshold m) max_token_borrows (sm_pool_id m) in
    let max_borrow := Z.min max_borrow_twap max_borrow_utilization in
    let borrow_limit := Z.min (usat 128 (max_borrow - borrows)) (usat 128 (deposits - borrows)) in
    let! borrow_limit :=
      if 0 <? max_token_borrows_fraction m then
        let! market_borrows := get_borrows m in
        let! cap := borrows_cap m in
        Ok (Z.min borrow_limit (usat 128 (cap - market_borrows)))
      else Ok borrow_limit in
    safe_u 128 (max_withdraw_amount + borrow_limit) in
  if 0 <? token_amount then
    let! min_deposit_twap := calculate_min_deposit_token_amount (deposit_token_twap m) (withdraw_guard_threshold m) in
    let withdraw_limit := usat 128 (deposits - Z.max min_deposit_twap min_deposit_utilization) in
    if (withdraw_limit <=? Z.abs token_amount) && is_leaving_drift then Ok withdraw_limit
    else borrowed (Z.abs token_amount)
  else borrowed 0.

(** ** What the limits guarantee *)

(** Whoever passes the limits without the exception for small users leaves the
    deposits above three quarters of their daily average, or above the average
    less the guard threshold; and when a borrow may leave, the borrows under what
    the deposits' average allows. *)
Lemma min_deposit_spec twap guard x :
  0 <= twap -> 0 <= guard -> calculate_min_deposit_token_amount twap guard = Ok x ->
  0 <= x /\ twap - Z.max (twap / 4) guard <= x <= twap - twap / 4 /\ (twap <= guard -> x = 0).
Proof.
  intros Ht Hg H. unfold calculate_min_deposit_token_amount in H. drift_inv.
  assert (0 <= twap / 4) by (apply Z.div_pos; lia). assert (twap / 4 <= twap) by (apply Z.div_le_upper_bound; lia).
  lia.
Qed.

Lemma max_borrow_spec deposits twap borrows_twap guard cap pool x :
  0 <= deposits -> 0 <= twap -> 0 <= borrows_twap ->
  calculate_max_borrow_token_amount deposits twap borrows_twap guard cap pool = Ok x ->
  x <= cap /\ x <= Z.max guard (Z.min deposits twap - Z.min deposits twap / (if pool =? 0 then 14 else 20)).
Proof.
  intros Hd Ht Hb H. unfold calculate_max_borrow_token_amount in H.
  destruct (pool =? 0); apply obind_Ok in H as (b & [-> _]%safe_u_Ok & H);
    apply obind_Ok in H as (c & [-> _]%safe_u_Ok & [= <-]); lia.
Qed.

(** The part of the average the deposits must keep is the whole of the limit on
    them: what the utilization asks for is capped by the deposits less the guard
    threshold, which they always reach. *)
Lemma utilization_never_blocks_deposits deposits borrows m d b :
  0 <= deposits -> 0 <= withdraw_guard_threshold m ->
  calculate_token_utilization_limits deposits borrows m = Ok (d, b) -> d <= deposits.
Proof.
  intros Hd Hg H. unfold calculate_token_utilization_limits in H. apply obind_Ok in H as (x & _ & H).
  cbv zeta in H. apply obind_Ok in H as (p & _ & H). apply obind_Ok in H as (q & _ & H).
  apply obind_Ok in H as (p' & _ & H). apply obind_Ok in H as (q' & _ & [= <- _]). unfold usat. lia.
Qed.

(** The most a market may be used. *)
Definition max_utilization (m : SpotMarket) : Z :=
  Z.max (optimal_utilization m) (utilization_twap m + Z.max 0 (SPOT_UTILIZATION_PRECISION - utilization_twap m) / 2).

Lemma utilization_caps_borrows deposits borrows m d b :
  0 <= utilization_twap m -> calculate_token_utilization_limits deposits borrows m = Ok (d, b) ->
  b = Z.max (max_utilization m * deposits / SPOT_UTILIZATION_PRECISION) (withdraw_guard_threshold m).
Proof.
  intros Hu H. unfold calculate_token_utilization_limits in H. apply obind_Ok in H as (x & [-> _]%safe_u_Ok & H).
  cbv zeta in H. apply obind_Ok in H as (p & _ & H). apply obind_Ok in H as (q & _ & H).
  apply obind_Ok in H as (p' & [-> _]%safe_u_Ok & H). apply obind_Ok in H as (q' & [_ ->]%safe_udiv_Ok & [= _ <-]).
  unfold max_utilization. replace (usat 128 _) with (Z.max 0 (SPOT_UTILIZATION_PRECISION - utilization_twap m)); [done|].
  unfold usat. change SPOT_UTILIZATION_PRECISION with 1000000. lia.
Qed.

(** A small depositor withdrawing what is his. *)
Definition small_withdrawal (m : SpotMarket) (u : User) (p : SpotPosition) (token_amount : Z) : Prop :=
  u_total_withdraws u <= u_total_deposits u /\ 0 <= cumulative_deposits p /\ sp_balance_type p = Deposit
  /\ exists left, get_token_amount (sp_scaled_balance p) m Deposit = Ok left
     /\ left + token_amount < withdraw_guard_threshold m / 10.

Lemma exception_spec m u p token_amount b :
  get_spot_position u (sm_market_index m) = Ok p ->
  check_user_exception_to_withdraw_limits m (Some u) (Some token_amount) = Ok b ->
  b = true <-> small_withdrawal m u p token_amount.
Proof.
  intros Hp H. unfold check_user_exception_to_withdraw_limits in H. rewrite Hp in H. cbn [obind] in H.
  apply obind_Ok in H as (n & [-> _]%safe_i_Ok & H). unfold small_withdrawal.
  destruct (Z.leb_spec 0 (u_total_deposits u - u_total_withdraws u)); cbn [andb] in H; [|injection H as <-; split; [done|lia]].
  destruct (Z.leb_spec 0 (cumulative_deposits p)); cbn [andb] in H; [|injection H as <-; split; [done|lia]].
  destruct (sp_balance_type p); cbn [balance_type_eqb] in H; [|injection H as <-; split; [done|by intros (_ & _ & ? & _)]].
  apply obind_Ok in H as (t & Ht & H). apply obind_Ok in H as (s & [-> _]%safe_u_Ok & H).
  apply obind_Ok in H as (l & [_ ->]%safe_udiv_Ok & [= <-]). rewrite Z.ltb_lt. split.
  - intros Hlt. split; [lia|]. do 2 (split; [done|]). by exists t.
  - intros (_ & _ & _ & left & Hl & Hlt). congruence.
Qed.

(** What the limits let through: the deposits keep their share of the average and
    a borrower leaves the borrows under every cap; otherwise the depositor is small. *)
Definition deposits_covered (m : SpotMarket) (deposits : Z) : Prop :=
  deposit_token_twap m - Z.max (deposit_token_twap m / 4) (Z.min (withdraw_guard_threshold m) (deposit_token_twap m)) <= deposits.
Record borrows_covered (m : SpotMarket) (deposits borrows : Z) : Prop := {
  bc_cap : forall cap, borrows_cap m = Ok cap -> borrows <= cap;
  bc_average : let lesser := Z.min deposits (deposit_token_twap m) in
    borrows <= Z.max (withdraw_guard_threshold m) (lesser - lesser / (if sm_pool_id m =? 0 then 14 else 20));
  bc_utilization : borrows <= Z.max (max_utilization m * deposits / SPOT_UTILIZATION_PRECISION) (withdraw_guard_threshold m);
}.

(** The averages and the threshold are unsigned. *)
Record limits_typed (m : SpotMarket) : Prop := {
  lt_deposits : 0 <= deposit_token_twap m;
  lt_borrows : 0 <= borrow_token_twap m;
  lt_utilization : 0 <= utilization_twap m;
  lt_guard : 0 <= withdraw_guard_threshold m;
}.

Lemma check_withdraw_limits_spec m u token_amount p deposits borrows b :
  limits_typed m -> get_token_amount (deposit_balance m) m Deposit = Ok deposits ->
  get_token_amount (borrow_balance m) m Borrow = Ok borrows -> 0 <= deposits ->
  get_spot_position u (sm_market_index m) = Ok p ->
  check_withdraw_limits m (Some u) (Some token_amount) = Ok b ->
  (b = true -> (deposits_covered m deposits /\ (sp_balance_type p = Borrow -> borrows_covered m deposits borrows))
               \/ small_withdrawal m u p token_amount)
  /\ (sp_balance_type p = Deposit -> deposits_covered m deposits -> b = true).
Proof.
  intros [Ht Hb Hut Hg] Hd Hw Hdn Hp H. unfold check_withdraw_limits in H. rewrite Hd, Hw in H. cbn [obind] in H.
  apply obind_Ok in H as (cap & Hcap & H). apply obind_Ok in H as (mb & Hmb & H).
  apply obind_Ok in H as ([md mu] & Hmu & H). apply obind_Ok in H as (mt & Hmt & H). cbv zeta in H.
  pose proof (utilization_never_blocks_deposits _ _ _ _ _ Hdn Hg Hmu) as Hmd. apply utilization_caps_borrows in Hmu as ->; [|done].
  unfold calculate_min_deposit_token_amount in Hmt. apply safe_u_Ok in Hmt as [-> _]. apply max_borrow_spec in Hmb as [Hmb1 Hmb2]; [|done..].
  apply obind_Ok in H as (v & Hv & H). rewrite Hp in Hv. cbn [obind] in Hv. injection Hv as <-.
  set (twap_part := deposit_token_twap m - _) in *. fold (deposits_covered m deposits). change (deposits_covered m deposits) with (twap_part <= deposits).
  assert (Z.max twap_part md <= deposits <-> twap_part <= deposits) as Hmax by lia.
  destruct (sp_balance_type p) eqn:Ht'; cbn [balance_type_eqb] in H.
  - destruct (Z.leb_spec (Z.max twap_part md) deposits) as [Hle|Hlt]; cbn [negb] in H.
    + injection H as <-. split; [|done]. intros _. left. split; [by apply Hmax|done].
    + split; [|lia]. intros ->. right. by eapply exception_spec.
  - split; [|done]. destruct (Z.leb_spec (Z.max twap_part md) deposits) as [Hle|Hlt].
    2: { rewrite andb_false_r in H. intros ->. right. by eapply exception_spec. }
    destruct (Z.leb_spec borrows (Z.min mb (Z.max (max_utilization m * deposits / SPOT_UTILIZATION_PRECISION) (withdraw_guard_threshold m)))) as [Hbo|Hbo];
      cbn [andb negb] in H; [|intros ->; right; by eapply exception_spec].
    intros _. left. split; [by apply Hmax|]. intros _. split; [|cbv zeta; lia|lia]. intros c Hc. rewrite Hcap in Hc. injection Hc as <-. lia.
Qed.

Lemma deposit_amount_nonneg b m x : get_token_amount b m Deposit = Ok x -> 0 <= x.
Proof.
  intros H. unfold get_token_amount in H. apply obind_Ok in H as (e & He & H). apply obind_Ok in H as (p & [-> Hp]%safe_u_Ok & H).
  apply safe_udiv_Ok in H as [_ ->]. unfold precision in He. apply obind_Ok in He as (y & [-> Hy]%safe_u_Ok & He%uchk_Ok).
  unfold in_u in *. apply Z.div_pos; [lia|]. destruct He as [-> He]. unfold in_u in He.
  assert (0 < 10 ^ (19 - decimals m)) by (apply Z.pow_pos_nonneg; lia). lia.
Qed.

Lemma borrow_leaving_covered {B : Type} `{SpotBalance B} x m (b : B) m' b' :
  update_spot_balances x Borrow m b true = Ok (m', b') ->
  exists d w, get_token_amount (deposit_balance m') m' Deposit = Ok d /\ get_token_amount (borrow_balance m') m' Borrow = Ok w /\ w <= d.
Proof.
  intros H0. unfold update_spot_balances in H0. apply obind_Ok in H0 as ([m1 b1] & _ & H0). cbn [andb balance_type_eqb] in H0.
  apply obind_Ok in H0 as (d & Hd & H0). apply obind_Ok in H0 as (w & Hw & H0).
  apply obind_Ok in H0 as (t & Hle%validate_Ok & [= <- _]). exists d, w. split_and!; [done..|]. by apply Z.leb_le.
Qed.

(** C28: Every withdrawal, by the function all of them go through, leaves the
    market covered. When [update_spot_balances_and_cumulative_deposits_with_limits]
    takes tokens out: the deposits left cover the borrows; the deposits left are at
    least their daily average less a quarter of it or the guard threshold,
    whichever is larger; when the user is left with a borrow, the borrows are
    besides within the market's cap, within what the average of the deposits
    allows - all of it but a fourteenth, or a twentieth in the other pools - and
    within the utilization allowed, the two last unless below the guard
    threshold. The one exception is a depositor who has paid in no less than he
    took out and whose balance, before the withdrawal, was less than a tenth of
    the guard threshold. And the market is open for withdrawals. *)
Theorem withdraw_limits_cover token_amount m u m' u' :
  limits_typed m' ->
  update_spot_balances_and_cumulative_deposits_with_limits token_amount Borrow m u = Ok (m', u') ->
  exists p deposits borrows,
    get_spot_position u' (sm_market_index m') = Ok p
    /\ get_token_amount (deposit_balance m') m' Deposit = Ok deposits
    /\ get_token_amount (borrow_balance m') m' Borrow = Ok borrows /\ borrows <= deposits
    /\ ((deposits_covered m' deposits /\ (sp_balance_type p = Borrow -> borrows_covered m' deposits borrows))
        \/ small_withdrawal m' u' p token_amount)
    /\ (sm_status m' = Active \/ sm_status m' = ReduceOnly \/ sm_status m' = Settlement)
    /\ is_spot_withdraw_paused m' = false.
Proof.
  intros Hty H. unfold update_spot_balances_and_cumulative_deposits_with_limits in H.
  apply obind_Ok in H as ([u1 i] & _ & H). apply obind_Ok in H as (p0 & _ & H).
  apply obind_Ok in H as ([m1 p1] & Hup & H). apply obind_Ok in H as (l & Hl & H). cbv zeta in H.
  apply obind_Ok in H as (v & Hv & H). apply obind_Ok in H as (x1 & ->%validate_Ok & H).
  apply obind_Ok in H as (x2 & Hst%validate_Ok & H). apply obind_Ok in H as (x3 & Hpa%validate_Ok & H).
  apply obind_Ok in H as (p2 & Hp2 & H). apply obind_Ok in H as (x4 & Hpr%validate_Ok & [= <- <-]).
  set (u2 := u1 <| u_spot_positions := l |>) in *.
  unfold update_spot_balances_and_cumulative_deposits in Hup. apply obind_Ok in Hup as ([m2 p3] & Hb & Hup).
  apply obind_Ok in Hup as (d1 & _ & Hup). apply obind_Ok in Hup as (d2 & _ & [= <- <-]).
  apply borrow_leaving_covered in Hb as (deposits & borrows & Hdep & Hbor & Hle).
  assert (exists p, get_spot_position u2 (sm_market_index m2) = Ok p) as [p Hp].
  { clear -Hv. unfold check_withdraw_limits in Hv. do 4 apply obind_Ok in Hv as (? & _ & Hv). apply obind_Ok in Hv as ([? ?] & _ & Hv).
    cbv zeta in Hv. apply obind_Ok in Hv as (? & _ & Hv). apply obind_Ok in Hv as (? & Hp & _).
    apply obind_Ok in Hp as (p & Hp & _). by exists p. }
  exists p, deposits, borrows. split_and!; try done.
  - eapply check_withdraw_limits_spec; try done. by eapply deposit_amount_nonneg.
  - destruct (sm_status m2); auto; discriminate.
  - by apply negb_true_iff.
Qed.

(** ** Witness *)

Definition limited_market : SpotMarket :=
  default_SpotMarket <| decimals := 6 |> <| deposit_balance := 900000000000 |> <| borrow_balance := 500000000000 |>
    <| cumulative_deposit_interest := 10000000000 |> <| cumulative_borrow_interest := 10000000000 |>
    <| deposit_token_twap := 1000000000 |> <| borrow_token_twap := 500000000 |> <| utilization_twap := 500000 |>
    <| optimal_utilization := 800000 |> <| withdraw_guard_threshold := 1000000 |> <| sm_status := Active |>.

Definition withdrawing_user : User :=
  default_User <| u_spot_positions := [default_SpotPosition <| sp_scaled_balance := 200000000000 |>] |>.

(** A hundred of the two hundred units of a depositor. *)
Definition withdrawal : SpotMarket * User :=
  Eval vm_compute in
    match update_spot_balances_and_cumulative_deposits_with_limits 100000000 Borrow limited_market withdrawing_user with
    | Ok r => r
    | _ => (limited_market, withdrawing_user)
    end.
Lemma withdrawal_succeeds :
  update_spot_balances_and_cumulative_deposits_with_limits 100000000 Borrow limited_market withdrawing_user
  = Ok (withdrawal.1, withdrawal.2).
Proof. vm_compute. reflexivity. Qed.

Lemma withdraw_limits_cover_witness :
  exists p deposits borrows, get_spot_position withdrawal.2 (sm_market_index withdrawal.1) = Ok p /\ borrows <= deposits
    /\ get_token_amount (deposit_balance withdrawal.1) withdrawal.1 Deposit = Ok deposits /\ deposits = 799999999.
Proof.
  destruct (withdraw_limits_cover 100000000 limited_market withdrawing_user withdrawal.1 withdrawal.2) as (p & d & w & Hp & Hd & Hw & Hle & _).
  - split; vm_compute; discriminate.
  - exact withdrawal_succeeds.
  - exists p, d, w. split; [exact Hp|]. split; [exact Hle|]. split; [exact Hd|].
    vm_compute in Hd. injection Hd as <-. reflexivity.
Defined.
