(* ===== verification/DriftCurve.v ===== *)
(** The adjustments of the virtual market maker's curve and what they cost:
    [math/cp_curve.rs], [math/repeg.rs], [controller/repeg.rs] and the curve
    updates of [controller/amm.rs].

    The curve is adjusted by its depth ([sqrt_k]), its price ([peg_multiplier]) and
    its width ([concentration_coef]).  The theorems: every adjustment leaves the
    reserves on the curve; costs are booked exactly and, where the check is asked
    for, never eat the fees reserved for the protocol; the change of depth stays
    within its bounds. *)
From S2P Require Import Prelude.
From S2P Require Import RecordUpdate.
From S2P Require Import DriftError.
From S2P Require Import DriftMath.
From S2P Require Import DriftSpotMarket.
From S2P Require Import DriftTypes.
From S2P Require Import DriftOracle.
From S2P Require Import DriftAmm.
From S2P Require Import DriftSpread.
From S2P Require Import DriftPosition.

#[export] Instance OracleValidity_eq_dec : EqDecision OracleValidity.
Proof. solve_decision. Defined.

(** [market_config] has one flag, [DisableFormulaicKUpdate]. *)
Inductive MarketConfigFlag : Set := DisableFormulaicKUpdate.
Definition has_market_config_flag (m : PerpMarket) (f : MarketConfigFlag) : bool :=
  match f with DisableFormulaicKUpdate => negb (Z.land (market_config m) 1 =? 0) end.

(** ** Depth *)

(** [U192::from] of a signed integer panics when it is negative. *)
Definition u192_of_i128 (x : Z) : DriftResult Z := if 0 <=? x then Ok x else Panic.

(** The sign as the source takes it: zero counts as negative. *)
Definition sign_of (x : Z) : Z := if 0 <? x then 1 else -1.

(** [a * b / c] in 192 bits. *)
Definition mul_div_192 (a b c : Z) : DriftResult Z :=
  let! p := safe_u 192 (a * b) in safe_udiv p c.

(** The change of depth, in [K_BPS_UPDATE_SCALE], bounded by [bound]. *)
Definition bounded_change (numerator denominator upper lower : Z) : DriftResult Z :=
  let! p := safe_i 128 (numerator * PERCENTAGE_PRECISION_I128) in
  let! current_pct_change := safe_idiv 128 p denominator in
  let! b := safe_i 128 ((if denominator <? numerator then upper else lower) * PERCENTAGE_PRECISION_I128) in
  let! limit_pct_change := safe_idiv 128 b K_BPS_UPDATE_SCALE in
  Ok (if denominator <? numerator then
        if limit_pct_change <? current_pct_change then upper else current_pct_change
      else if current_pct_change <? limit_pct_change then lower else current_pct_change).

Definition _calculate_budgeted_k_scale (x y budget q d k_pct_upper_bound k_pct_lower_bound : Z) :
    DriftResult (Z * Z) :=
  let! c := ichk 128 (- budget) in
  let! q := cast_i 128 q in
  let c_sign := sign_of c in
  let! rounding_bias := safe_i 128 (c_sign * sign_of d) in
  let! xi := cast_i 128 x in
  let! x_d := safe_i 128 (xi + d) in
  let! x_d_u192 := u192_of_i128 x_d in
  let! x_times_x_d := mul_div_192 x x_d_u192 AMM_RESERVE_PRECISION in
  let! t := mul_div_192 x_times_x_d (Z.abs c) QUOTE_PRECISION in
  let! x_times_x_d_c := try_to_u 128 t in
  let! t := mul_div_192 (Z.abs c) (Z.abs x_d) QUOTE_PRECISION in
  let! t := mul_div_192 t (Z.abs d) AMM_RESERVE_PRECISION in
  let! c_times_x_d_d := try_to_u 128 t in
  let! t := mul_div_192 y (Z.abs d) AMM_RESERVE_PRECISION in
  let! t := mul_div_192 t (Z.abs d) AMM_RESERVE_PRECISION in
  let! qu := u192_of_i128 q in
  let! t := mul_div_192 t qu PEG_PRECISION in
  let! t := try_to_u 128 t in
  let! pegged_quote_times_dd := cast_i 128 t in
  let! n2 := cast_i 128 c_times_x_d_d in
  let! numer2 := safe_i 128 (n2 * rounding_bias) in
  let! d1 := cast_i 128 x_times_x_d_c in
  let! denom1 := safe_i 128 (d1 * c_sign) in
  if (c_sign <? 0) && (Z.abs pegged_quote_times_dd <? x_times_x_d_c) then
    let! u := cast_u 128 k_pct_upper_bound in
    Ok (u, K_BPS_UPDATE_SCALE)
  else
    let! n := safe_i 128 (pegged_quote_times_dd - numer2) in
    let! numerator := safe_idiv 128 n AMM_TO_QUOTE_PRECISION_RATIO_I128 in
    let! s := safe_i 128 (denom1 + pegged_quote_times_dd) in
    let! denominator := safe_idiv 128 s AMM_TO_QUOTE_PRECISION_RATIO_I128 in
    let! '(numerator, denominator) :=
      if (numerator <? 0) && (denominator <? 0) then
        let! n := ichk 128 (Z.abs numerator) in
        let! s := ichk 128 (Z.abs denominator) in
        Ok (n, s)
      else Ok (numerator, denominator) in
    if (0 <? numerator) && (0 <? denominator) then
      let! change := bounded_change numerator denominator k_pct_upper_bound k_pct_lower_bound in
      let! change := cast_u 128 change in
      Ok (change, K_BPS_UPDATE_SCALE)
    else Panic.

Definition calculate_budgeted_k_scale (m : PerpMarket) (budget k_pct_upper_bound k_pct_lower_bound : Z) :
    DriftResult (Z * Z) :=
  do! validate (K_BPS_UPDATE_SCALE <=? k_pct_upper_bound) InvalidUpdateK in
  do! validate ((K_BPS_UPDATE_SCALE - MAX_K_BPS_DECREASE <=? k_pct_lower_bound)
                && (k_pct_lower_bound <=? K_BPS_UPDATE_SCALE)) InvalidUpdateK in
  let a := amm m in
  _calculate_budgeted_k_scale (base_asset_reserve a) (quote_asset_reserve a) budget (peg_multiplier a)
    (base_asset_amount_with_amm a) k_pct_upper_bound k_pct_lower_bound.

Record UpdateKResult := mkUpdateKResult {
  uk_sqrt_k : Z;
  uk_base_asset_reserve : Z;
  uk_quote_asset_reserve : Z;
}.

Definition get_update_k_result (m : PerpMarket) (new_sqrt_k : Z) (bound_update : bool) : DriftResult UpdateKResult :=
  let a := amm m in
  let! ratio := mul_div_192 new_sqrt_k AMM_RESERVE_PRECISION (sqrt_k a) in
  do! require (negb (bound_update && (ratio <? 500000000))) InvalidUpdateK in
  let! ratio := if ratio <? AMM_RESERVE_PRECISION then uchk 192 (ratio + 1) else Ok ratio in
  let! k := try_to_u 128 new_sqrt_k in
  do! validate ((ratio <? AMM_RESERVE_PRECISION) || (k <=? MAX_SQRT_K)) InvalidUpdateK in
  do! require (negb (negb (bool_decide (pm_status m = ReduceOnly)) && (new_sqrt_k <? sqrt_k a)
                     && (k <? Z.abs (base_asset_amount_with_amm a)))) InvalidUpdateK in
  let! b := mul_div_192 (base_asset_reserve a) ratio AMM_RESERVE_PRECISION in
  let! base := try_to_u 128 b in
  let! invariant := safe_u 192 (k * k) in
  let! q := safe_udiv invariant base in
  let! quote := try_to_u 128 q in
  Ok (mkUpdateKResult k base quote).

Section Curve.
Context {roots : Roots}.

(** The end of every adjustment: the terminal reserves, the bounds they give and
    the spreads at the new price. *)
Definition refresh_bounds (m : PerpMarket) : DriftResult PerpMarket :=
  let! '(terminal_quote, terminal_base) := calculate_terminal_reserves (amm m) in
  let m := m <| amm ; terminal_quote_asset_reserve := terminal_quote |> in
  let! '(min_base, max_base) := calculate_bid_ask_bounds (concentration_coef (amm m)) terminal_base in
  Ok (m <| amm ; min_base_asset_reserve := min_base |> <| amm ; max_base_asset_reserve := max_base |>).

Definition refresh_spreads (m : PerpMarket) : DriftResult PerpMarket :=
  let! reserve_price_after := reserve_price (amm m) in
  let! '(m, _) := update_spreads m reserve_price_after None in
  Ok m.

Definition update_k (m : PerpMarket) (r : UpdateKResult) : DriftResult PerpMarket :=
  let m := m <| amm ; base_asset_reserve := uk_base_asset_reserve r |>
             <| amm ; quote_asset_reserve := uk_quote_asset_reserve r |> <| amm ; sqrt_k := uk_sqrt_k r |> in
  let! m := refresh_bounds m in
  refresh_spreads m.

(** The cost of a change of depth: the net value of the users' position after it
    less the value before. *)
Definition adjust_k_cost (m : PerpMarket) (r : UpdateKResult) : DriftResult Z :=
  let! '(current_net_market_value, _) :=
    calculate_base_asset_value_and_pnl (base_asset_amount_with_amm (amm m)) 0 (amm m) in
  let! clone := update_k m r in
  let! '(_, cost) :=
    calculate_base_asset_value_and_pnl (base_asset_amount_with_amm (amm clone)) current_net_market_value (amm clone) in
  Ok cost.

Definition adjust_k_cost_and_update (m : PerpMarket) (r : UpdateKResult) : DriftResult (PerpMarket * Z) :=
  let! current_net_market_value := calculate_base_asset_value (base_asset_amount_with_amm (amm m)) (amm m) in
  let! m := update_k m r in
  let! '(_, cost) :=
    calculate_base_asset_value_and_pnl (base_asset_amount_with_amm (amm m)) current_net_market_value (amm m) in
  Ok (m, cost).

(** ** Price *)

(** Whether a new peg is valid against the oracle: the oracle itself, the
    direction, the profitability, the price impact. *)
Definition calculate_repeg_validity (m : PerpMarket) (d : OraclePriceData) (oracle_is_valid : bool)
    (terminal_price_before : Z) : DriftResult (bool * bool * bool * bool) :=
  let a := amm m in
  let! oracle_price := cast_u 64 (price d) in
  let! '(terminal_price_after, _, _) := calculate_terminal_price_and_reserves a in
  if oracle_is_valid then
    let! reserve_price_after := calculate_price (quote_asset_reserve a) (base_asset_reserve a) (peg_multiplier a) in
    let! top := safe_u 64 (oracle_price + confidence d) in
    let! bottom := safe_u 64 (oracle_price - confidence d) in
    Ok (if terminal_price_after <? oracle_price then
          (true, negb (terminal_price_after <? terminal_price_before), negb (bottom <? terminal_price_after),
           negb (top <? reserve_price_after))
        else if oracle_price <? terminal_price_after then
          (true, negb (terminal_price_before <? terminal_price_after), negb (terminal_price_after <? top),
           negb (reserve_price_after <? bottom))
        else (true, true, true, true))
  else Ok (false, false, false, false).

(** The price of the oracle is what [get_oracle_price] reads from its account. *)
Definition calculate_repeg_validity_from_oracle_account (m : PerpMarket) (d : OraclePriceData)
    (terminal_price_before : Z) (g : OracleGuardRails) : DriftResult (bool * bool * bool * bool) :=
  let a := amm m in
  let! v := oracle_validity (last_oracle_price_twap (amm_historical_oracle_data a)) d (validity g)
              (get_max_confidence_interval_multiplier m) (oracle_source a) (oracle_slot_delay_override a)
              (oracle_low_risk_slot_delay_override a) in
  calculate_repeg_validity m d (bool_decide (v = Valid)) terminal_price_before.

Definition calculate_peg_from_target_price (quote_asset_reserve base_asset_reserve target_price : Z) : DriftResult Z :=
  let! x := mul_div_192 target_price base_asset_reserve quote_asset_reserve in
  let! x := safe_u 192 (x + PRICE_TO_PEG_PRECISION_RATIO / 2) in
  let! x := safe_udiv x PRICE_TO_PEG_PRECISION_RATIO in
  let! new_peg := try_to_u 128 x in
  Ok (Z.max new_peg 1).

Definition adjust_peg_cost (m : PerpMarket) (new_peg_candidate : Z) : DriftResult (PerpMarket * Z) :=
  if new_peg_candidate =? peg_multiplier (amm m) then Ok (m, 0)
  else
    let! '(current_net_market_value, _) :=
      calculate_base_asset_value_and_pnl (base_asset_amount_with_amm (amm m)) 0 (amm m) in
    let clone := m <| amm ; peg_multiplier := new_peg_candidate |> in
    let! '(_, cost) :=
      calculate_base_asset_value_and_pnl (base_asset_amount_with_amm (amm clone)) current_net_market_value (amm clone) in
    Ok (clone, cost).

Definition calculate_repeg_cost (a : AMM) (new_peg : Z) : DriftResult Z :=
  let! q := cast_i 128 (quote_asset_reserve a) in
  let! t := cast_i 128 (terminal_quote_asset_reserve a) in
  let! d := safe_i 128 (q - t) in
  let! n := cast_i 128 new_peg in
  let! p := cast_i 128 (peg_multiplier a) in
  let! e := safe_i 128 (n - p) in
  let! x := safe_i 128 (d * e) in
  safe_idiv 128 x AMM_RESERVE_PRECISION_I128.

(** The cost of one unit of peg, its magnitude rounded up. *)
Definition calculate_per_peg_cost (quote_asset_reserve terminal_quote_asset_reserve : Z) : DriftResult Z :=
  let! per_peg_cost :=
    if quote_asset_reserve =? terminal_quote_asset_reserve then Ok 0
    else
      let! q := cast_i 128 quote_asset_reserve in
      let! t := cast_i 128 terminal_quote_asset_reserve in
      let! d := safe_i 128 (q - t) in
      safe_idiv_ceil 128 d (AMM_RESERVE_PRECISION_I128 / PEG_PRECISION_I128) in
  if 0 <? per_peg_cost then safe_i 128 (per_peg_cost + 1)
  else if per_peg_cost <? 0 then safe_i 128 (per_peg_cost - 1)
  else Ok 0.

(** The depth is lowered by a tenth of a per cent before a peg that costs. *)
Definition lower_k_for_peg (m : PerpMarket) (adjust_k : bool) (per_peg_cost : Z) : DriftResult (PerpMarket * Z * Z) :=
  let! lower := can_lower_k (amm m) in
  if adjust_k && lower && negb (has_market_config_flag m DisableFormulaicKUpdate) then
    let! part := safe_udiv (sqrt_k (amm m)) 1000 in
    let! k := safe_u 128 (sqrt_k (amm m) - part) in
    let! r := get_update_k_result m (Z.max k (get_lower_bound_sqrt_k (amm m))) true in
    let! '(clone, cost) := adjust_k_cost_and_update m r in
    let! per_peg_cost :=
      calculate_per_peg_cost (quote_asset_reserve (amm clone)) (terminal_quote_asset_reserve (amm clone)) in
    Ok (clone, cost, per_peg_cost)
  else Ok (m, 0, per_peg_cost).

(** The peg the budget reaches. *)
Definition budget_peg (peg budget adjustment_cost per_peg_cost : Z) : DriftResult Z :=
  let! c := ichk 128 (Z.abs adjustment_cost) in
  let! s := safe_i 128 (budget + c) in
  let! p := safe_i 128 (s * PEG_PRECISION_I128) in
  let! budget_delta_peg := safe_idiv 128 p per_peg_cost in
  let magnitude := Z.abs budget_delta_peg in
  if 0 <? budget_delta_peg then Ok (if uok 128 (peg + magnitude) then peg + magnitude else umax 128)
  else if magnitude <? peg then safe_u 128 (peg - magnitude)
  else Ok 1.

Definition adjust_amm (m : PerpMarket) (optimal_peg budget : Z) (adjust_k : bool) : DriftResult (PerpMarket * Z) :=
  let a := amm m in
  if (optimal_peg =? peg_multiplier a) || (Z.min (curve_update_intensity a) 100 =? 0) then Ok (m, 0)
  else
    let! o := cast_i 128 optimal_peg in
    let! p := cast_i 128 (peg_multiplier a) in
    let! delta_peg := safe_i 128 (o - p) in
    let! per_peg_cost := calculate_per_peg_cost (quote_asset_reserve a) (terminal_quote_asset_reserve a) in
    let! budget_i128 := cast_i 128 budget in
    let! budget_delta_peg_magnitude :=
      if per_peg_cost =? 0 then Ok 0
      else
        let! p := safe_i 128 (budget_i128 * PEG_PRECISION_I128) in
        let! q := safe_idiv 128 p per_peg_cost in
        Ok (Z.abs q) in
    let use_optimal_peg :=
      (per_peg_cost =? 0) || ((0 <? per_peg_cost) && (delta_peg <? 0)) || ((per_peg_cost <? 0) && (0 <? delta_peg))
      || (Z.abs delta_peg <? budget_delta_peg_magnitude) in
    let! '(clone, new_peg) :=
      if use_optimal_peg then Ok (m, optimal_peg)
      else
        let! '(clone, adjustment_cost, per_peg_cost) := lower_k_for_peg m adjust_k per_peg_cost in
        let! new_peg := budget_peg (peg_multiplier a) budget_i128 adjustment_cost per_peg_cost in
        Ok (clone, new_peg) in
    let! cost := calculate_repeg_cost (amm clone) new_peg in
    Ok (clone <| amm ; peg_multiplier := new_peg |>, cost).

(** ** Fees *)

Definition get_total_fee_lower_bound (m : PerpMarket) : DriftResult Z :=
  let! p := safe_u 128 (total_exchange_fee (amm m) * SHARE_OF_FEES_ALLOCATED_TO_DRIFT_NUMERATOR) in
  safe_udiv p SHARE_OF_FEES_ALLOCATED_TO_DRIFT_DENOMINATOR.

(** The fees the protocol keeps: half of the exchange's fees and those of
    liquidations, less what was withdrawn. *)
Definition fee_reserved_for_protocol (m : PerpMarket) : DriftResult Z :=
  let! b := get_total_fee_lower_bound m in
  let! x := safe_u 128 (b + total_liquidation_fee (amm m)) in
  safe_u 128 (x - total_fee_withdrawn (amm m)).

Definition calculate_fee_pool (m : PerpMarket) : DriftResult Z :=
  let! r := fee_reserved_for_protocol m in
  let lower_bound := if iok 128 r then r else 0 in
  if lower_bound <? total_fee_minus_distributions (amm m) then
    let! x := safe_i 128 (total_fee_minus_distributions (amm m) - lower_bound) in
    cast_u 128 x
  else Ok 0.

Definition calculate_optimal_peg_and_budget (m : PerpMarket) (o : MMOraclePriceData) : DriftResult (Z * Z * bool) :=
  let a := amm m in
  let! reserve_price_before := reserve_price a in
  let! fee_budget := calculate_fee_pool m in
  let target_price_i64 := mm_get_price o in
  let! target_price := cast_u 64 target_price_i64 in
  let! optimal_peg := calculate_peg_from_target_price (quote_asset_reserve a) (base_asset_reserve a) target_price in
  let! optimal_peg_cost := calculate_repeg_cost a optimal_peg in
  if fee_budget <? Z.max 0 optimal_peg_cost then
    let! x := safe_u 128 (target_price * (max_spread a / 2)) in
    let! x := safe_udiv x BID_ASK_SPREAD_PRECISION in
    let! half_max_price_spread := cast_i 64 x in
    let! r := cast_i 64 reserve_price_before in
    let! gap := safe_i 64 (r - target_price_i64) in
    let! magnitude := ichk 64 (Z.abs gap) in
    if half_max_price_spread <? magnitude then
      let! d := safe_i 64 (magnitude - half_max_price_spread) in
      let! mark_adj := cast_u 64 d in
      let! target_price :=
        if gap <? 0 then safe_u 64 (reserve_price_before + mark_adj) else safe_u 64 (reserve_price_before - mark_adj) in
      let! optimal_peg := calculate_peg_from_target_price (quote_asset_reserve a) (base_asset_reserve a) target_price in
      let! c := calculate_repeg_cost a optimal_peg in
      let! fee_budget := cast_u 128 c in
      Ok (optimal_peg, fee_budget, false)
    else Ok (optimal_peg, fee_budget, negb (fee_budget =? 0))
  else Ok (optimal_peg, fee_budget, true).

(** A cost (an expense when positive) is booked; [false] when it would leave less
    than the reserved fees and the check is asked for. *)
Definition apply_cost_to_market (m : PerpMarket) (cost : Z) (check_lower_bound : bool) :
    DriftResult (PerpMarket * bool) :=
  let book (m : PerpMarket) (total : Z) :=
    let! n := safe_i 64 (net_revenue_since_last_funding (amm m) - iwrap 64 cost) in
    Ok (m <| amm ; total_fee_minus_distributions := total |> <| amm ; net_revenue_since_last_funding := n |>, true) in
  if 0 <? cost then
    let! total := safe_i 128 (total_fee_minus_distributions (amm m) - cost) in
    let! r := fee_reserved_for_protocol m in
    let! reserved := cast_i 128 r in
    if check_lower_bound && (total <? reserved) then Ok (m, false) else book m total
  else
    let! c := ichk 128 (Z.abs cost) in
    let! total := safe_i 128 (total_fee_minus_distributions (amm m) + c) in
    book m total.

(** ** The controllers *)

Definition repeg (m : PerpMarket) (d : OraclePriceData) (new_peg_candidate : Z) (g : OracleGuardRails) :
    DriftResult (PerpMarket * Z) :=
  do! require (negb (new_peg_candidate =? peg_multiplier (amm m))) InvalidRepegRedundant in
  let! '(terminal_price_before, _, _) := calculate_terminal_price_and_reserves (amm m) in
  let! '(repegged, adjustment_cost) := adjust_peg_cost m new_peg_candidate in
  let! '(oracle_is_valid, direction_valid, profitability_valid, price_impact_valid) :=
    calculate_repeg_validity_from_oracle_account repegged d terminal_price_before g in
  do! require oracle_is_valid InvalidOracle in
  do! require direction_valid InvalidRepegDirection in
  do! require profitability_valid InvalidRepegProfitability in
  do! require price_impact_valid InvalidRepegProfitability in
  let! '(m, cost_applied) := apply_cost_to_market m adjustment_cost true in
  if cost_applied then Ok (m <| amm ; peg_multiplier := new_peg_candidate |>, adjustment_cost)
  else Err InvalidRepegProfitability.

(** The adjustment an oracle update makes: the market, the cost, and whether it
    was booked. *)
Definition update_curve (m : PerpMarket) (o : MMOraclePriceData) : DriftResult (PerpMarket * Z * bool) :=
  let intensity := Z.min (curve_update_intensity (amm m)) 100 in
  if 0 <? intensity then
    let! '(optimal_peg, fee_budget, check_lower_bound) := calculate_optimal_peg_and_budget m o in
    let! '(repegged, repegged_cost) := adjust_amm m optimal_peg fee_budget (100 <=? intensity) in
    let! '(m, cost_applied) := apply_cost_to_market m repegged_cost check_lower_bound in
    if cost_applied then
      let! m := update_k m (mkUpdateKResult (sqrt_k (amm repegged)) (base_asset_reserve (amm repegged))
                              (quote_asset_reserve (amm repegged))) in
      Ok (m <| amm ; peg_multiplier := peg_multiplier (amm repegged) |>, repegged_cost, true)
    else Ok (m, 0, false)
  else Ok (m, 0, true).

(** The validity of the safe price, against the hourly average. *)
Definition safe_oracle_validity (m : PerpMarket) (o : MMOraclePriceData) (g : OracleGuardRails) :
    DriftResult OracleValidity :=
  oracle_validity (last_oracle_price_twap (amm_historical_oracle_data (amm m))) (safe_oracle_price_data o) (validity g)
    (get_max_confidence_interval_multiplier m) (oracle_source (amm m)) (oracle_slot_delay_override (amm m))
    (oracle_low_risk_slot_delay_override (amm m)).

(** The update of a market that is not being settled. *)
Definition update_open_amm (m : PerpMarket) (o : MMOraclePriceData) (g : OracleGuardRails) (now clock_slot : Z) :
    DriftResult (PerpMarket * Z) :=
  let! v := safe_oracle_validity m o g in
  let! '(m, amm_update_cost, updated) :=
    if is_oracle_valid_for_action v (Some UpdateAMMCurve) then update_curve m o else Ok (m, 0, true) in
  let! reserve_price_after := reserve_price (amm m) in
  let! m :=
    if is_oracle_valid_for_action v (Some UpdateTwap) then
      let! '(a, _) := update_oracle_price_twap (amm m) now o (Some reserve_price_after)
                        (perp_sanitize_clamp_denominator m) in
      Ok (m <| amm := a |>)
    else Ok m in
  let! '(m, _) := update_spreads m reserve_price_after (Some clock_slot) in
  let low_risk := is_oracle_valid_for_action v (Some FillOrderAmmLowRisk) in
  let m := if low_risk && updated then m <| amm ; last_update_slot := clock_slot |> else m in
  Ok (m <| amm ; last_oracle_valid := low_risk |>, amm_update_cost).

Definition _update_amm (m : PerpMarket) (o : MMOraclePriceData) (g : OracleGuardRails) (now clock_slot : Z) :
    DriftResult (PerpMarket * Z) :=
  match pm_status m with
  | Settlement | Delisted => Ok (m, 0)
  | _ => update_open_amm m o g now clock_slot
  end.

Definition update_amm (m : PerpMarket) (d : OraclePriceData) (g : OracleGuardRails) (now clock_slot : Z) :
    DriftResult (PerpMarket * Z) :=
  let! o := get_mm_oracle_price_data m d clock_slot (validity g) in
  _update_amm m o g now clock_slot.

(** Every market of the transaction, each with the price of its oracle. *)
Fixpoint update_amms (ms : list (PerpMarket * OraclePriceData)) (g : OracleGuardRails) (now clock_slot : Z) :
    DriftResult (list PerpMarket) :=
  match ms with
  | [] => Ok []
  | (m, d) :: ms =>
      let! '(m, _) := update_amm m d g now clock_slot in
      let! ms := update_amms ms g now clock_slot in
      Ok (m :: ms)
  end.

Definition update_amm_and_check_validity (m : PerpMarket) (o : MMOraclePriceData) (g : OracleGuardRails)
    (now clock_slot : Z) (action : option DriftAction) : DriftResult PerpMarket :=
  let! '(m, _) := _update_amm m o g now clock_slot in
  let! v := safe_oracle_validity m o g in
  do! validate (is_oracle_valid_for_action v action) InvalidOracle in
  Ok m.

Definition update_concentration_coef (m : PerpMarket) (scale : Z) : DriftResult PerpMarket :=
  do! validate (0 <? scale) InvalidConcentrationCoef in
  let coef := CONCENTRATION_PRECISION + (MAX_CONCENTRATION_COEFFICIENT - CONCENTRATION_PRECISION) / scale in
  do! validate ((CONCENTRATION_PRECISION <? coef) && (coef <=? MAX_CONCENTRATION_COEFFICIENT)) InvalidConcentrationCoef in
  let m := m <| amm ; concentration_coef := coef |> in
  let! '(_, terminal_quote, terminal_base) := calculate_terminal_price_and_reserves (amm m) in
  do! validate (terminal_quote =? terminal_quote_asset_reserve (amm m)) InvalidAmmDetected in
  let! '(min_base, max_base) := calculate_bid_ask_bounds coef terminal_base in
  let m := m <| amm ; max_base_asset_reserve := max_base |> <| amm ; min_base_asset_reserve := min_base |> in
  let! m := refresh_spreads m in
  let! '(max_bids, max_asks) := calculate_market_open_bids_asks (amm m) in
  let inventory := base_asset_amount_with_amm (amm m) in
  do! validate ((inventory <? max_bids) && (max_asks <? inventory)) InvalidConcentrationCoef in
  Ok m.

(** The budget of a formulaic change of depth: half of a period's revenue when the
    spread is low, half of the loss that exceeds it. *)
Definition formulaic_budget (a : AMM) (funding_imbalance_cost : Z) : DriftResult Z :=
  if funding_imbalance_cost <? 0 then
    if Z.max (long_spread a) (short_spread a) <=? base_spread a then
      let! h := safe_idiv 64 funding_imbalance_cost 2 in ichk 64 (Z.abs h)
    else Ok 0
  else if net_revenue_since_last_funding a <? funding_imbalance_cost then
    let! d := safe_i 64 (Z.max 0 (net_revenue_since_last_funding a) - funding_imbalance_cost) in
    safe_idiv 64 d 2
  else Ok 0.

Definition formulaic_update_k (m : PerpMarket) (funding_imbalance_cost : Z) : DriftResult PerpMarket :=
  if has_market_config_flag m DisableFormulaicKUpdate then Ok m
  else
    let a := amm m in
    let! cost := cast_i 64 funding_imbalance_cost in
    let! budget := formulaic_budget a cost in
    let! lower := if budget <? 0 then can_lower_k a else Ok false in
    if ((0 <? budget) && (sqrt_k a <? MAX_SQRT_K)) || lower then
      let part := MAX_K_BPS_INCREASE * curve_update_intensity a / 100 in
      let! '(n, d) := calculate_budgeted_k_scale m budget (K_BPS_UPDATE_SCALE + part) (K_BPS_UPDATE_SCALE - part) in
      let! new_sqrt_k := mul_div_192 (sqrt_k a) n d in
      let! r := get_update_k_result m new_sqrt_k true in
      let! adjustment_cost := adjust_k_cost m r in
      let! '(m, cost_applied) := apply_cost_to_market m adjustment_cost true in
      if cost_applied then
        let! m := update_k m r in
        let id := next_curve_record_id m in
        Ok (m <| next_curve_record_id := if uok 64 (id + 1) then id + 1 else 1 |>)
      else Ok m
    else Ok m.

(** The quote reserve of the curve [sqrt_k] at a base reserve, which must agree
    with the given one up to a hundred. *)
Definition reconciled_quote (base quote sqrt_k : Z) : DriftResult Z :=
  let! k := safe_u 256 (sqrt_k * sqrt_k) in
  let! x := safe_udiv k base in
  let! q := try_to_u 128 x in
  let! given := cast_i 128 quote in
  let! computed := cast_i 128 q in
  let! d := ichk 128 (given - computed) in
  let! d := ichk 128 (Z.abs d) in
  do! validate (d <? 100) InvalidAmmDetected in
  Ok q.

(** As [refresh_bounds], with the terminal price computed too. *)
Definition refresh_priced_bounds (m : PerpMarket) : DriftResult PerpMarket :=
  let! '(_, terminal_quote, terminal_base) := calculate_terminal_price_and_reserves (amm m) in
  let m := m <| amm ; terminal_quote_asset_reserve := terminal_quote |> in
  let! '(min_base, max_base) := calculate_bid_ask_bounds (concentration_coef (amm m)) terminal_base in
  Ok (m <| amm ; max_base_asset_reserve := max_base |> <| amm ; min_base_asset_reserve := min_base |>).

Definition move_price (m : PerpMarket) (base quote k : Z) : DriftResult PerpMarket :=
  let! q := reconciled_quote base quote k in
  let m := m <| amm ; base_asset_reserve := base |> <| amm ; quote_asset_reserve := q |> <| amm ; sqrt_k := k |> in
  let! m := refresh_priced_bounds m in
  refresh_spreads m.

Definition recenter_perp_market_amm (m : PerpMarket) (peg k : Z) : DriftResult PerpMarket :=
  let inventory := base_asset_amount_with_amm (amm m) in
  let! '(quote, base) := calculate_swap_output (Z.abs inventory) k (if 0 <? inventory then Remove else Add) k in
  let! q := reconciled_quote base quote k in
  let m := m <| amm ; base_asset_reserve := base |> <| amm ; quote_asset_reserve := q |> <| amm ; sqrt_k := k |>
             <| amm ; peg_multiplier := peg |> in
  let! m := refresh_priced_bounds m in
  refresh_spreads m.

End Curve.

(** * Properties *)

(** ** What an update of the spreads keeps *)

Definition funding_terms (m : PerpMarket) : Z * Z * Z :=
  (cumulative_funding_rate_long (amm m), cumulative_funding_rate_short (amm m), funding_period (amm m)).
Record same_curve (m m' : PerpMarket) : Prop := {
  sc_base : base_asset_reserve (amm m') = base_asset_reserve (amm m);
  sc_quote : quote_asset_reserve (amm m') = quote_asset_reserve (amm m);
  sc_sqrt_k : sqrt_k (amm m') = sqrt_k (amm m);
  sc_peg : peg_multiplier (amm m') = peg_multiplier (amm m);
  sc_inventory : base_asset_amount_with_amm (amm m') = base_asset_amount_with_amm (amm m);
  sc_funding : funding_terms m' = funding_terms m;
}.
Record same_fees (m m' : PerpMarket) : Prop := {
  sf_total : total_fee_minus_distributions (amm m') = total_fee_minus_distributions (amm m);
  sf_exchange : total_exchange_fee (amm m') = total_exchange_fee (amm m);
  sf_liquidation : total_liquidation_fee (amm m') = total_liquidation_fee (amm m);
  sf_withdrawn : total_fee_withdrawn (amm m') = total_fee_withdrawn (amm m);
  sf_funding : funding_terms m' = funding_terms m;
}.

Lemma same_curve_trans m1 m2 m3 : same_curve m1 m2 -> same_curve m2 m3 -> same_curve m1 m3.
Proof. intros [] []. constructor; congruence. Qed.
Lemma same_fees_trans m1 m2 m3 : same_fees m1 m2 -> same_fees m2 m3 -> same_fees m1 m3.
Proof. intros [] []. constructor; congruence. Qed.
Lemma same_fees_reserved m m' : same_fees m m' -> fee_reserved_for_protocol m' = fee_reserved_for_protocol m.
Proof. intros [_ He Hl Hw _]. unfold fee_reserved_for_protocol, get_total_fee_lower_bound. by rewrite He, Hl, Hw. Qed.

#[local] Ltac same := split; constructor; reflexivity.

Lemma update_spread_reserves_frame {roots : Roots} m m' :
  update_spread_reserves m = Ok m' -> same_curve m m' /\ same_fees m m'.
Proof.
  intros H. unfold update_spread_reserves in H. apply obind_Ok in H as ([x1 x2] & _ & H).
  apply obind_Ok in H as ([x3 x4] & _ & H). destruct (_ =? 0) in H; injection H as <-; same.
Qed.

Lemma update_spreads_split {roots : Roots} m p slot m' ls :
  update_spreads m p slot = Ok (m', ls) ->
  exists m1, same_curve m m1 /\ same_fees m m1 /\ update_spread_reserves m1 = Ok m'.
Proof.
  intros H. unfold update_spreads in H. apply obind_Ok in H as (t & _ & H). apply obind_Ok in H as ([l s] & _ & H).
  apply obind_Ok in H as (m1 & H1 & H). apply obind_Ok in H as (m2 & H2 & [= <- _]). exists m1.
  enough (same_curve m m1 /\ same_fees m m1) as [? ?] by done. destruct (_ && _) in H1.
  - unfold smooth_reference_price in H1.
    do 5 (apply obind_Ok in H1 as (? & _ & H1)). apply obind_Ok in H1 as (o & _ & H1).
    destruct (_ <? 0) in H1; apply obind_Ok in H1 as (? & _ & H1); apply obind_Ok in H1 as (? & _ & H1);
      injection H1 as <-; same.
  - injection H1 as <-. same.
Qed.

Lemma update_spreads_frame {roots : Roots} m p slot m' ls :
  update_spreads m p slot = Ok (m', ls) -> same_curve m m' /\ same_fees m m'.
Proof.
  intros (m1 & Hc & Hf & [Hc2 Hf2]%update_spread_reserves_frame)%update_spreads_split.
  split; [by eapply same_curve_trans|by eapply same_fees_trans].
Qed.

Lemma refresh_spreads_frame {roots : Roots} m m' : refresh_spreads m = Ok m' -> same_curve m m' /\ same_fees m m'.
Proof.
  intros H. unfold refresh_spreads in H. apply obind_Ok in H as (p & _ & H).
  apply obind_Ok in H as ([m1 ls] & H1 & [= <-]). by eapply update_spreads_frame.
Qed.
Lemma refresh_bounds_frame m m' : refresh_bounds m = Ok m' -> same_curve m m' /\ same_fees m m'.
Proof.
  intros H. unfold refresh_bounds in H. apply obind_Ok in H as ([q b] & _ & H).
  apply obind_Ok in H as ([lo hi] & _ & [= <-]). same.
Qed.
Lemma refresh_priced_bounds_frame m m' : refresh_priced_bounds m = Ok m' -> same_curve m m' /\ same_fees m m'.
Proof.
  intros H. unfold refresh_priced_bounds in H. apply obind_Ok in H as ([[p q] b] & _ & H).
  apply obind_Ok in H as ([lo hi] & _ & [= <-]). same.
Qed.

(** A change of depth moves the reserves and the depth only. *)
Lemma update_k_Ok {roots : Roots} m r m' :
  update_k m r = Ok m' ->
  base_asset_reserve (amm m') = uk_base_asset_reserve r /\ quote_asset_reserve (amm m') = uk_quote_asset_reserve r
  /\ sqrt_k (amm m') = uk_sqrt_k r /\ peg_multiplier (amm m') = peg_multiplier (amm m)
  /\ base_asset_amount_with_amm (amm m') = base_asset_amount_with_amm (amm m) /\ same_fees m m'.
Proof.
  intros H. unfold update_k in H. apply obind_Ok in H as (m1 & [[] [] ]%refresh_bounds_frame & [[] []]%refresh_spreads_frame).
  cbn in *. split_and!; try congruence. constructor; first [congruence | etransitivity; [eassumption|]; etransitivity; [eassumption|reflexivity]].
Qed.

(** ** The reserves stay on the curve *)

(** The quote reserve is the floor of the curve at the base reserve. *)
Definition on_curve (a : AMM) : Prop :=
  0 < base_asset_reserve a /\ base_asset_reserve a * quote_asset_reserve a <= curve a
  /\ curve a < base_asset_reserve a * (quote_asset_reserve a + 1).

Record curve_ok (a : AMM) : Prop := {
  co_curve : on_curve a;
  co_ask : ask_base_asset_reserve a * ask_quote_asset_reserve a <= curve a;
  co_bid : bid_base_asset_reserve a * bid_quote_asset_reserve a <= curve a;
  co_peg : 0 < peg_multiplier a;
}.

Lemma on_curve_same m m' : same_curve m m' -> on_curve (amm m) -> on_curve (amm m').
Proof. intros [Hb Hq Hk _ _ _]. unfold on_curve, curve. by rewrite Hb, Hq, Hk. Qed.

Lemma floor_on_curve k b : 0 < b -> b * (k * k / b) <= k * k /\ k * k < b * (k * k / b + 1).
Proof. intros Hb. pose proof (zfloor_bounds (k * k) b Hb). lia. Qed.

Lemma update_spread_reserves_ok {roots : Roots} m m' :
  update_spread_reserves m = Ok m' -> on_curve (amm m) -> 0 < peg_multiplier (amm m) -> curve_ok (amm m').
Proof.
  intros H Hc Hp. destruct (update_spread_reserves_frame m m' H) as [Hs _]. pose proof Hc as (Hb & H1 & H2).
  destruct (update_spread_reserves_quotes m m' H Hb H1 H2) as [Ha Hd].
  assert (curve (amm m') = curve (amm m)) as Hk by (unfold curve; by rewrite (sc_sqrt_k _ _ Hs)).
  constructor; [by apply (on_curve_same m)|by rewrite Hk|by rewrite Hk|by rewrite (sc_peg _ _ Hs)].
Qed.

Lemma update_spreads_ok {roots : Roots} m p slot m' ls :
  update_spreads m p slot = Ok (m', ls) -> on_curve (amm m) -> 0 < peg_multiplier (amm m) -> curve_ok (amm m').
Proof.
  intros (m1 & Hs & _ & H)%update_spreads_split Hc Hp.
  eapply update_spread_reserves_ok; [exact H|by apply (on_curve_same m)|by rewrite (sc_peg _ _ Hs)].
Qed.
Lemma refresh_spreads_ok {roots : Roots} m m' :
  refresh_spreads m = Ok m' -> on_curve (amm m) -> 0 < peg_multiplier (amm m) -> curve_ok (amm m').
Proof.
  intros H. unfold refresh_spreads in H. apply obind_Ok in H as (p & _ & H).
  apply obind_Ok in H as ([m1 ls] & H1 & [= <-]). by eapply update_spreads_ok.
Qed.

(** The reserves of a result of [get_update_k_result]. *)
Definition result_on_curve (r : UpdateKResult) : Prop :=
  0 < uk_base_asset_reserve r /\ uk_base_asset_reserve r * uk_quote_asset_reserve r <= uk_sqrt_k r * uk_sqrt_k r
  /\ uk_sqrt_k r * uk_sqrt_k r < uk_base_asset_reserve r * (uk_quote_asset_reserve r + 1).

Lemma get_update_k_result_Ok m k bound r :
  get_update_k_result m k bound = Ok r ->
  uk_sqrt_k r = k /\ result_on_curve r
  /\ (pm_status m <> ReduceOnly -> k < sqrt_k (amm m) -> Z.abs (base_asset_amount_with_amm (amm m)) <= k).
Proof.
  intros H. unfold get_update_k_result in H. apply obind_Ok in H as (ratio & _ & H).
  apply obind_Ok in H as (? & _ & H). apply obind_Ok in H as (ratio' & _ & H).
  apply obind_Ok in H as (k' & [-> _]%try_to_u_Ok & H). apply obind_Ok in H as (? & _ & H).
  apply obind_Ok in H as (? & Hr%require_Ok & H). apply obind_Ok in H as (b & _ & H).
  apply obind_Ok in H as (base & [-> Hb]%try_to_u_Ok & H). apply obind_Ok in H as (inv & [-> _]%safe_u_Ok & H).
  apply obind_Ok in H as (q & [Hz ->]%safe_udiv_Ok & H). apply obind_Ok in H as (quote & [-> _]%try_to_u_Ok & [= <-]).
  unfold result_on_curve. cbn. unfold in_u in Hb. assert (0 < b) by lia. split; [done|split].
  - split; [done|by apply floor_on_curve].
  - intros Hs Hk. rewrite bool_decide_eq_false_2 in Hr by done. rewrite (proj2 (Z.ltb_lt _ _) Hk) in Hr. cbn in Hr.
    destruct (Z.ltb_spec k (Z.abs (base_asset_amount_with_amm (amm m)))); [done|lia].
Qed.

Lemma update_k_ok {roots : Roots} m r m' :
  update_k m r = Ok m' -> result_on_curve r -> 0 < peg_multiplier (amm m) -> curve_ok (amm m').
Proof.
  intros H Hr Hp. unfold update_k in H. apply obind_Ok in H as (m1 & [Hs _]%refresh_bounds_frame & H).
  eapply refresh_spreads_ok; [exact H| |].
  - eapply on_curve_same; [exact Hs|]. exact Hr.
  - by rewrite (sc_peg _ _ Hs).
Qed.

Lemma oracle_twap_frame m now o r clamp a t :
  update_oracle_price_twap (amm m) now o r clamp = Ok (a, t) -> same_curve m (m <| amm := a |>) /\ same_fees m (m <| amm := a |>).
Proof.
  intros H. unfold update_oracle_price_twap in H. do 3 (apply obind_Ok in H as (? & _ & H)).
  destruct (_ && _) in H; [|injection H as <- _; same].
  do 7 (apply obind_Ok in H as (? & _ & H)). apply obind_Ok in H as (a1 & H1 & [= <- _]).
  unfold update_amm_oracle_std in H1. do 9 (apply obind_Ok in H1 as (? & _ & H1)). injection H1 as <-. same.
Qed.

Lemma apply_cost_frame m cost check m' b :
  apply_cost_to_market m cost check = Ok (m', b) ->
  same_curve m m' /\ ask_base_asset_reserve (amm m') = ask_base_asset_reserve (amm m)
  /\ ask_quote_asset_reserve (amm m') = ask_quote_asset_reserve (amm m)
  /\ bid_base_asset_reserve (amm m') = bid_base_asset_reserve (amm m)
  /\ bid_quote_asset_reserve (amm m') = bid_quote_asset_reserve (amm m).
Proof.
  intros H. unfold apply_cost_to_market in H. destruct (0 <? cost).
  - do 3 (apply obind_Ok in H as (? & _ & H)). destruct (_ && _) in H; [injection H as <- _; split; [constructor|]; done|].
    apply obind_Ok in H as (? & _ & [= <- _]). split; [constructor|]; done.
  - do 3 (apply obind_Ok in H as (? & _ & H)). injection H as <- _. split; [constructor|]; done.
Qed.
Lemma apply_cost_ok m cost check m' b :
  apply_cost_to_market m cost check = Ok (m', b) -> curve_ok (amm m) -> curve_ok (amm m').
Proof.
  intros (Hs & Ha1 & Ha2 & Hb1 & Hb2)%apply_cost_frame [Hc Ha Hb Hp].
  assert (curve (amm m') = curve (amm m)) as Hk by (unfold curve; by rewrite (sc_sqrt_k _ _ Hs)).
  constructor; [by apply (on_curve_same m)|by rewrite Ha1, Ha2, Hk|by rewrite Hb1, Hb2, Hk|by rewrite (sc_peg _ _ Hs)].
Qed.

Lemma trade_ok {roots : Roots} m t m' paid :
  trade m t = Ok (m', paid) -> 0 < peg_multiplier (amm m) -> curve_ok (amm m').
Proof.
  intros H Hp. unfold trade in H. apply obind_Ok in H as ([m1 [q s]] & H1 & H). apply obind_Ok in H as (m2 & H2 & [= <- _]).
  unfold swap_base_asset, calculate_base_swap_output_with_spread in H1.
  apply obind_Ok in H1 as ([[[nb nq] q'] s'] & H & H1). apply obind_Ok in H1 as (? & _ & [= <- _ _]).
  destruct (get_spread_reserves _ _). apply obind_Ok in H as ([n1 n2] & _ & H). apply obind_Ok in H as (? & _ & H).
  apply obind_Ok in H as ([n3 n4] & (_ & Hn & ->)%swap_output_Ok & H).
  do 3 (apply obind_Ok in H as (? & _ & H)). injection H as <- <- _ _.
  eapply update_spread_reserves_ok; [exact H2| |done]. split; [done|by apply floor_on_curve].
Qed.

Lemma calculate_peg_Ok q b p peg : calculate_peg_from_target_price q b p = Ok peg -> 0 < peg.
Proof.
  intros H. unfold calculate_peg_from_target_price in H. do 4 (apply obind_Ok in H as (? & _ & H)). injection H as <-. lia.
Qed.
Lemma optimal_peg_Ok m o peg budget check : calculate_optimal_peg_and_budget m o = Ok (peg, budget, check) -> 0 < peg.
Proof.
  intros H. unfold calculate_optimal_peg_and_budget in H. do 3 (apply obind_Ok in H as (? & _ & H)).
  apply obind_Ok in H as (p & Hp%calculate_peg_Ok & H). apply obind_Ok in H as (? & _ & H).
  destruct (_ <? _) in H; [|by injection H as <- _ _].
  do 6 (apply obind_Ok in H as (? & _ & H)). destruct (_ <? _) in H; [|by injection H as <- _ _].
  do 3 (apply obind_Ok in H as (? & _ & H)). apply obind_Ok in H as (p' & Hp'%calculate_peg_Ok & H).
  do 2 (apply obind_Ok in H as (? & _ & H)). by injection H as <- _ _.
Qed.
Lemma budget_peg_Ok peg budget c pc new_peg : 0 < peg -> budget_peg peg budget c pc = Ok new_peg -> 0 < new_peg.
Proof.
  intros Hp H. unfold budget_peg in H. do 4 (apply obind_Ok in H as (? & _ & H)).
  destruct (_ <? _) in H; [injection H as <-; destruct (uok _ _); unfold umax; lia|].
  destruct (Z.ltb_spec (Z.abs x2) peg); [apply safe_u_Ok in H as [-> _]; lia|injection H as <-; lia].
Qed.

Lemma lower_k_Ok {roots : Roots} m adjust pc m' c pc' :
  lower_k_for_peg m adjust pc = Ok (m', c, pc') -> on_curve (amm m) -> 0 < peg_multiplier (amm m) -> on_curve (amm m').
Proof.
  intros H Hc Hp. unfold lower_k_for_peg in H. apply obind_Ok in H as (low & _ & H).
  destruct (_ && _) in H; [|by injection H as <- _ _].
  do 2 (apply obind_Ok in H as (? & _ & H)). apply obind_Ok in H as (r & (_ & Hr & _)%get_update_k_result_Ok & H).
  apply obind_Ok in H as ([m1 cost] & H1 & H). apply obind_Ok in H as (? & _ & [= <- _ _]).
  unfold adjust_k_cost_and_update in H1. apply obind_Ok in H1 as (? & _ & H1).
  apply obind_Ok in H1 as (m2 & H2 & H1). apply obind_Ok in H1 as ([? ?] & _ & [= <- _]).
  by eapply co_curve, update_k_ok.
Qed.

Lemma adjust_amm_Ok {roots : Roots} m peg budget adjust m' cost :
  adjust_amm m peg budget adjust = Ok (m', cost) -> on_curve (amm m) -> 0 < peg_multiplier (amm m) -> 0 < peg ->
  on_curve (amm m') /\ 0 < peg_multiplier (amm m').
Proof.
  intros H Hc Hp Ho. unfold adjust_amm in H. destruct (_ || _) in H; [by injection H as <- _|].
  do 6 (apply obind_Ok in H as (? & _ & H)). apply obind_Ok in H as ([m1 p1] & H1 & H).
  apply obind_Ok in H as (c & _ & [= <- _]). destruct (_ || _) in H1; [by injection H1 as <- <-|].
  apply obind_Ok in H1 as ([[m2 c2] pc2] & H2%lower_k_Ok & H1); [|done..].
  by apply obind_Ok in H1 as (p2 & H3%budget_peg_Ok & [= <- <-]).
Qed.

Lemma update_curve_ok {roots : Roots} m o m' c b :
  update_curve m o = Ok (m', c, b) -> curve_ok (amm m) -> curve_ok (amm m').
Proof.
  intros H Hc. unfold update_curve in H. destruct (_ <? _) in H; [|by injection H as <- _ _].
  apply obind_Ok in H as ([[peg budget] check] & Hp%optimal_peg_Ok & H).
  apply obind_Ok in H as ([m1 c1] & H1 & H). destruct (adjust_amm_Ok m peg budget _ m1 c1 H1) as [Hc1 Hp1];
    [apply Hc|apply Hc|done|].
  apply obind_Ok in H as ([m2 b2] & H2 & H). pose proof (apply_cost_ok _ _ _ _ _ H2 Hc) as Hc2.
  destruct b2; [|by injection H as <- _ _]. apply obind_Ok in H as (m3 & H3 & [= <- _ _]).
  destruct (update_k_ok _ _ _ H3 Hc1 (co_peg _ Hc2)) as [? ? ? _]. by constructor.
Qed.

Lemma update_amm_ok {roots : Roots} m o g now slot m' c :
  _update_amm m o g now slot = Ok (m', c) -> curve_ok (amm m) -> curve_ok (amm m').
Proof.
  intros H Hc. unfold _update_amm in H.
  assert (update_open_amm m o g now slot = Ok (m', c) \/ m' = m) as [Ho| ->];
    [destruct (pm_status m); auto; injection H as <- _; by right| |done].
  clear H. rename Ho into H. unfold update_open_amm in H.
  apply obind_Ok in H as (v & _ & H). apply obind_Ok in H as ([[m1 c1] b1] & H1 & H).
  assert (curve_ok (amm m1)) as Hc1 by (destruct (is_oracle_valid_for_action _ _) in H1;
    [by eapply update_curve_ok|by injection H1 as <- _ _]).
  apply obind_Ok in H as (r & _ & H). apply obind_Ok in H as (m2 & H2 & H). apply obind_Ok in H as ([m3 ls] & H3 & H).
  assert (same_curve m1 m2) as Hs.
  { destruct (is_oracle_valid_for_action _ _) in H2; [|injection H2 as <-; by constructor].
    apply obind_Ok in H2 as ([a t] & H2 & [= <-]). by apply oracle_twap_frame in H2 as [? _]. }
  assert (curve_ok (amm m3)) as [? ? ? ?].
  { eapply update_spreads_ok; [exact H3|by apply (on_curve_same m1); [|apply co_curve]|].
    rewrite (sc_peg _ _ Hs). by apply co_peg. }
  injection H as <- _. destruct (_ && _); by constructor.
Qed.

(** What changes the curve of a market: trades, oracle updates and the
    administrator's and the funding's adjustments. *)
Inductive curve_step {roots : Roots} (m : PerpMarket) : PerpMarket -> Prop :=
| step_trade t m' paid : trade m t = Ok (m', paid) -> curve_step m m'
| step_update_amm o g now slot m' cost : _update_amm m o g now slot = Ok (m', cost) -> curve_step m m'
| step_repeg d peg g m' cost : 0 < peg -> repeg m d peg g = Ok (m', cost) -> curve_step m m'
| step_formulaic cost m' : formulaic_update_k m cost = Ok m' -> curve_step m m'
| step_concentration scale m' : update_concentration_coef m scale = Ok m' -> curve_step m m'
| step_move base quote k m' : 0 <= base -> move_price m base quote k = Ok m' -> curve_step m m'
| step_recenter peg k m' : 0 < peg -> recenter_perp_market_amm m peg k = Ok m' -> curve_step m m'.

Lemma repeg_ok {roots : Roots} m d peg g m' c :
  repeg m d peg g = Ok (m', c) -> 0 < peg -> curve_ok (amm m) -> curve_ok (amm m').
Proof.
  intros H Hp Hc. unfold repeg in H. apply obind_Ok in H as (? & _ & H). apply obind_Ok in H as ([[? ?] ?] & _ & H).
  apply obind_Ok in H as ([m1 c1] & _ & H). apply obind_Ok in H as ([[[? ?] ?] ?] & _ & H).
  do 4 (apply obind_Ok in H as (? & _ & H)). apply obind_Ok in H as ([m2 []] & H2 & H); [|done].
  injection H as <- _. destruct (apply_cost_ok _ _ _ _ _ H2 Hc) as [? ? ? _]. by constructor.
Qed.

Lemma formulaic_ok {roots : Roots} m cost m' : formulaic_update_k m cost = Ok m' -> curve_ok (amm m) -> curve_ok (amm m').
Proof.
  intros H Hc. unfold formulaic_update_k in H. destruct (has_market_config_flag _ _); [by injection H as <-|].
  do 3 (apply obind_Ok in H as (? & _ & H)). destruct (_ || _) in H; [|by injection H as <-].
  apply obind_Ok in H as ([n d] & _ & H). apply obind_Ok in H as (k & _ & H).
  apply obind_Ok in H as (r & (_ & Hr & _)%get_update_k_result_Ok & H). apply obind_Ok in H as (c & _ & H).
  apply obind_Ok in H as ([m1 b] & H1 & H). pose proof (apply_cost_ok _ _ _ _ _ H1 Hc) as Hc1.
  destruct b; [|by injection H as <-]. apply obind_Ok in H as (m2 & H2 & [= <-]).
  destruct (update_k_ok _ _ _ H2 Hr (co_peg _ Hc1)). by constructor.
Qed.

Lemma concentration_ok {roots : Roots} m scale m' :
  update_concentration_coef m scale = Ok m' -> curve_ok (amm m) -> curve_ok (amm m').
Proof.
  intros H Hc. unfold update_concentration_coef in H. do 2 (apply obind_Ok in H as (? & _ & H)).
  apply obind_Ok in H as ([[? ?] ?] & _ & H). apply obind_Ok in H as (? & _ & H).
  apply obind_Ok in H as ([? ?] & _ & H). apply obind_Ok in H as (m1 & H1 & H).
  apply obind_Ok in H as ([? ?] & _ & H). apply obind_Ok in H as (? & _ & [= <-]).
  eapply refresh_spreads_ok; [exact H1|apply Hc|apply Hc].
Qed.

Lemma reconciled_quote_Ok b q k r : reconciled_quote b q k = Ok r -> b <> 0 /\ r = k * k / b.
Proof.
  intros H. unfold reconciled_quote in H. apply obind_Ok in H as (i & [-> _]%safe_u_Ok & H).
  apply obind_Ok in H as (x & [Hz ->]%safe_udiv_Ok & H). apply obind_Ok in H as (y & [-> _]%try_to_u_Ok & H).
  do 5 (apply obind_Ok in H as (? & _ & H)). by injection H as <-.
Qed.

Lemma refresh_ok {roots : Roots} m m1 m' :
  refresh_priced_bounds m = Ok m1 -> refresh_spreads m1 = Ok m' -> on_curve (amm m) -> 0 < peg_multiplier (amm m) ->
  curve_ok (amm m').
Proof.
  intros [Hs _]%refresh_priced_bounds_frame H Hc Hp.
  eapply refresh_spreads_ok; [exact H|by apply (on_curve_same m)|by rewrite (sc_peg _ _ Hs)].
Qed.

Lemma move_price_ok {roots : Roots} m b q k m' :
  move_price m b q k = Ok m' -> 0 <= b -> 0 < peg_multiplier (amm m) -> curve_ok (amm m').
Proof.
  intros H Hb Hp. unfold move_price in H. apply obind_Ok in H as (r & [Hz ->]%reconciled_quote_Ok & H).
  apply obind_Ok in H as (m1 & H1 & H). eapply refresh_ok; [exact H1|exact H| |done].
  split; [cbn; lia|apply floor_on_curve; cbn; lia].
Qed.
Lemma recenter_ok {roots : Roots} m peg k m' :
  recenter_perp_market_amm m peg k = Ok m' -> 0 < peg -> curve_ok (amm m').
Proof.
  intros H Hp. unfold recenter_perp_market_amm in H.
  apply obind_Ok in H as ([q b] & (_ & Hb & _)%swap_output_Ok & H).
  apply obind_Ok in H as (r & [Hz ->]%reconciled_quote_Ok & H).
  apply obind_Ok in H as (m1 & H1 & H). eapply refresh_ok; [exact H1|exact H| |done].
  split; [done|by apply floor_on_curve].
Qed.

(** C15: Whatever adjusts the curve leaves it sound: over any run of trades, oracle
    updates, repegs, changes of depth and width, moves and recentrings, the base
    and the peg stay positive, the quote reserve is the floor of the curve at the
    base reserve, and the reserves quoted to buyers and to sellers never promise
    more than the curve holds. *)
Theorem reserves_stay_on_curve {roots : Roots} m m' :
  rtc curve_step m m' -> curve_ok (amm m) -> curve_ok (amm m').
Proof.
  induction 1 as [|m m1 m2 Hst _ IH]; [done|]. intros Hc. apply IH. pose proof (co_peg _ Hc) as Hp. clear IH.
  destruct Hst as [| | ? ? ? ? ? ? Hr| | | |].
  - by eapply trade_ok.
  - by eapply update_amm_ok.
  - by eapply repeg_ok.
  - by eapply formulaic_ok.
  - by eapply concentration_ok.
  - by eapply move_price_ok.
  - by eapply recenter_ok.
Qed.

(** ** Costs *)

(** A cost is booked whole, or nothing is. *)
Lemma apply_cost_Ok m cost check m' b :
  apply_cost_to_market m cost check = Ok (m', b) ->
  if b then
    total_fee_minus_distributions (amm m') = total_fee_minus_distributions (amm m) - cost
    /\ net_revenue_since_last_funding (amm m') = net_revenue_since_last_funding (amm m) - iwrap 64 cost
    /\ fee_reserved_for_protocol m' = fee_reserved_for_protocol m
    /\ (check = true -> 0 < cost -> forall r, fee_reserved_for_protocol m = Ok r ->
        r <= total_fee_minus_distributions (amm m'))
  else m' = m /\ check = true /\ 0 < cost
       /\ forall r, fee_reserved_for_protocol m = Ok r -> total_fee_minus_distributions (amm m) - cost < r.
Proof.
  intros H. unfold apply_cost_to_market in H. destruct (Z.ltb_spec 0 cost) as [Hc|Hc].
  - apply obind_Ok in H as (t & [-> _]%safe_i_Ok & H). apply obind_Ok in H as (r & Hr & H).
    apply obind_Ok in H as (r' & [-> _]%cast_i_Ok & H).
    destruct check, (Z.ltb_spec (total_fee_minus_distributions (amm m) - cost) r); cbn [andb] in H;
      try (injection H as <- <-; split_and!; [done|done|done|]; intros r0 Hr0; congruence);
      apply obind_Ok in H as (n & [-> _]%safe_i_Ok & [= <- <-]); split_and!; try done.
    intros _ _ r0 Hr0. cbn. replace r0 with r by congruence. lia.
  - apply obind_Ok in H as (c & [-> _]%ichk_Ok & H). apply obind_Ok in H as (t & [-> _]%safe_i_Ok & H).
    apply obind_Ok in H as (n & [-> _]%safe_i_Ok & [= <- <-]). cbn. split_and!; [lia|done|done|intros; lia].
Qed.

Lemma update_curve_fees {roots : Roots} m o m' c b :
  update_curve m o = Ok (m', c, b) ->
  total_fee_minus_distributions (amm m') = total_fee_minus_distributions (amm m) - c
  /\ fee_reserved_for_protocol m' = fee_reserved_for_protocol m.
Proof.
  intros H. unfold update_curve in H. destruct (_ <? _) in H; [|injection H as <- <- _; split; [lia|done]].
  apply obind_Ok in H as ([[peg budget] check] & _ & H). apply obind_Ok in H as ([m1 c1] & _ & H).
  apply obind_Ok in H as ([m2 b2] & H2%apply_cost_Ok & H). destruct b2.
  - destruct H2 as (Ht & _ & Hr & _). apply obind_Ok in H as (m3 & H3 & [= <- <- _]).
    destruct (update_k_Ok _ _ _ H3) as (_ & _ & _ & _ & _ & Hf). rewrite <- Ht, <- Hr.
    split; [exact (sf_total _ _ Hf)|exact (same_fees_reserved _ _ Hf)].
  - destruct H2 as (-> & _). injection H as <- <- _. split; [lia|done].
Qed.

Lemma update_open_amm_fees {roots : Roots} m o g now slot m' c :
  update_open_amm m o g now slot = Ok (m', c) ->
  total_fee_minus_distributions (amm m') = total_fee_minus_distributions (amm m) - c
  /\ fee_reserved_for_protocol m' = fee_reserved_for_protocol m.
Proof.
  intros H. unfold update_open_amm in H.
  apply obind_Ok in H as (v & _ & H). apply obind_Ok in H as ([[m1 c1] b1] & H1 & H).
  assert (total_fee_minus_distributions (amm m1) = total_fee_minus_distributions (amm m) - c1
    /\ fee_reserved_for_protocol m1 = fee_reserved_for_protocol m) as [Ht Hr].
  { destruct (is_oracle_valid_for_action _ _) in H1; [by eapply update_curve_fees|].
    injection H1 as <- <- _. split; [lia|done]. }
  apply obind_Ok in H as (r & _ & H). apply obind_Ok in H as (m2 & H2 & H).
  apply obind_Ok in H as ([m3 ls] & [_ H3]%update_spreads_frame & H).
  assert (same_fees m1 m2) as Hf.
  { destruct (is_oracle_valid_for_action _ _) in H2; [|injection H2 as <-; by constructor].
    apply obind_Ok in H2 as ([a t] & H2 & [= <-]). by apply oracle_twap_frame in H2 as [_ ?]. }
  assert (same_fees m1 m') as Hf'.
  { eapply same_fees_trans; [exact Hf|]. eapply same_fees_trans; [exact H3|].
    injection H as <- _. destruct (_ && _); by constructor. }
  assert (c = c1) as -> by (by injection H). rewrite <- Ht, <- Hr.
  split; [exact (sf_total _ _ Hf')|exact (same_fees_reserved _ _ Hf')].
Qed.

(** C16: What an adjustment costs is booked, and nothing else: after an oracle
    update and after a repeg the market's fees are what they were less the cost
    they return; a repeg or a change of depth never leaves less than the fees
    reserved for the protocol, unless it earns or leaves the fees as they were;
    the reserved fees themselves do not change. *)
Theorem adjustments_booked_exactly {roots : Roots} m :
  (forall o g now slot m' c, _update_amm m o g now slot = Ok (m', c) ->
   total_fee_minus_distributions (amm m') = total_fee_minus_distributions (amm m) - c
   /\ fee_reserved_for_protocol m' = fee_reserved_for_protocol m)
  /\ (forall d peg g m' c reserved, repeg m d peg g = Ok (m', c) -> fee_reserved_for_protocol m = Ok reserved ->
      total_fee_minus_distributions (amm m') = total_fee_minus_distributions (amm m) - c
      /\ (0 < c -> reserved <= total_fee_minus_distributions (amm m'))
      /\ fee_reserved_for_protocol m' = Ok reserved)
  /\ (forall cost m' reserved, formulaic_update_k m cost = Ok m' -> fee_reserved_for_protocol m = Ok reserved ->
      Z.min (total_fee_minus_distributions (amm m)) reserved <= total_fee_minus_distributions (amm m')
      /\ fee_reserved_for_protocol m' = Ok reserved).
Proof.
  split_and!.
  - intros o g now slot m' c H. unfold _update_amm in H.
    assert (update_open_amm m o g now slot = Ok (m', c) \/ (m' = m /\ c = 0)) as [Ho|[-> ->]];
      [destruct (pm_status m); auto; injection H as <- <-; by right| |split; [lia|done]].
    by eapply update_open_amm_fees.
  - intros d peg g m' c reserved H Hr. unfold repeg in H. apply obind_Ok in H as (? & _ & H).
    apply obind_Ok in H as ([[? ?] ?] & _ & H). apply obind_Ok in H as ([m1 c1] & _ & H).
    apply obind_Ok in H as ([[[? ?] ?] ?] & _ & H). do 4 (apply obind_Ok in H as (? & _ & H)).
    apply obind_Ok in H as ([m2 []] & H2%apply_cost_Ok & H); [|done]. destruct H2 as (Ht & _ & Hr2 & Hle).
    injection H as <- <-. split_and!; [exact Ht|intros Hp; exact (Hle eq_refl Hp _ Hr)|].
    rewrite <- Hr, <- Hr2. reflexivity.
  - intros cost m' reserved H Hr. unfold formulaic_update_k in H.
    destruct (has_market_config_flag _ _); [injection H as <-; split; [lia|done]|].
    do 3 (apply obind_Ok in H as (? & _ & H)). destruct (_ || _) in H; [|injection H as <-; split; [lia|done]].
    apply obind_Ok in H as ([n d] & _ & H). apply obind_Ok in H as (k & _ & H). apply obind_Ok in H as (r & _ & H).
    apply obind_Ok in H as (c & _ & H). apply obind_Ok in H as ([m1 b] & H1%apply_cost_Ok & H). destruct b.
    + destruct H1 as (Ht & _ & Hr1 & Hle). apply obind_Ok in H as (m2 & H2 & [= <-]).
      destruct (update_k_Ok _ _ _ H2) as (_ & _ & _ & _ & _ & Hf).
      pose proof (sf_total _ _ Hf) as Htot. pose proof (same_fees_reserved _ _ Hf) as Hres. split.
      * cbn. rewrite Htot. destruct (Z.lt_ge_cases 0 c) as [Hc|Hc]; [specialize (Hle eq_refl Hc _ Hr)|]; lia.
      * rewrite <- Hr, <- Hr1, <- Hres. reflexivity.
    + destruct H1 as (-> & _). injection H as <-. split; [lia|done].
Qed.

(** ** The change of depth *)

Lemma bounded_change_Ok n d upper lower x :
  lower <= K_BPS_UPDATE_SCALE <= upper -> 0 < n -> 0 < d -> bounded_change n d upper lower = Ok x -> lower <= x <= upper.
Proof.
  intros Hb Hn Hd H. unfold bounded_change in H. apply obind_Ok in H as (p & [-> _]%safe_i_Ok & H).
  apply obind_Ok in H as (c & (_ & -> & _)%safe_idiv_Ok & H). apply obind_Ok in H as (b & [-> _]%safe_i_Ok & H).
  apply obind_Ok in H as (l & (_ & -> & _)%safe_idiv_Ok & H). injection H as <-.
  change K_BPS_UPDATE_SCALE with 1000000 in *. change PERCENTAGE_PRECISION_I128 with 1000000 in *.
  rewrite Z.quot_mul by lia. rewrite Z.quot_div_nonneg by lia. destruct (Z.ltb_spec d n).
  - assert (1000000 <= n * 1000000 / d) by (apply Z.div_le_lower_bound; lia).
    destruct (Z.ltb_spec upper (n * 1000000 / d)); lia.
  - assert (n * 1000000 / d <= 1000000) by (apply Z.div_le_upper_bound; lia).
    destruct (Z.ltb_spec (n * 1000000 / d) lower); lia.
Qed.

Lemma budgeted_k_scale_Ok m budget upper lower n d :
  calculate_budgeted_k_scale m budget upper lower = Ok (n, d) ->
  d = K_BPS_UPDATE_SCALE /\ lower <= n <= upper.
Proof.
  intros H. unfold calculate_budgeted_k_scale in H. apply obind_Ok in H as (? & Hu%validate_Ok & H).
  apply obind_Ok in H as (? & [Hl1 Hl2]%validate_Ok%andb_true_iff & H). unfold _calculate_budgeted_k_scale in H.
  do 21 (apply obind_Ok in H as (? & _ & H)).
  apply obind_Ok in H as (? & _ & H). destruct (_ && _) in H.
  { apply obind_Ok in H as (u & [-> _]%cast_u_Ok & [= <- <-]). split; [done|lia]. }
  do 4 (apply obind_Ok in H as (? & _ & H)). apply obind_Ok in H as ([n' d'] & _ & H).
  destruct (Z.ltb_spec 0 n'), (Z.ltb_spec 0 d'); cbn [andb] in H; try done.
  apply obind_Ok in H as (c & Hc & H). apply obind_Ok in H as (c' & [-> _]%cast_u_Ok & [= <- <-]).
  split; [done|]. apply (bounded_change_Ok n' d' upper lower); [lia|done|done|exact Hc].
Qed.

(** A formulaic change of depth is small and safe: it leaves the depth as it
    was or changes it by at most a thousandth times the intensity in per cent,
    whatever the budget, and a market that is not in reduce-only mode is never
    made shallower than the market maker's own position. *)
Theorem depth_change_bounded {roots : Roots} m cost m' :
  0 <= sqrt_k (amm m) -> formulaic_update_k m cost = Ok m' ->
  let part := MAX_K_BPS_INCREASE * curve_update_intensity (amm m) / 100 in
  sqrt_k (amm m') = sqrt_k (amm m)
  \/ sqrt_k (amm m) * (K_BPS_UPDATE_SCALE - part) / K_BPS_UPDATE_SCALE <= sqrt_k (amm m')
     /\ sqrt_k (amm m') <= sqrt_k (amm m) * (K_BPS_UPDATE_SCALE + part) / K_BPS_UPDATE_SCALE
     /\ (pm_status m <> ReduceOnly -> sqrt_k (amm m') < sqrt_k (amm m) ->
         Z.abs (base_asset_amount_with_amm (amm m)) <= sqrt_k (amm m')).
Proof.
  intros Hk H part. unfold formulaic_update_k in H. destruct (has_market_config_flag _ _); [injection H as <-; by left|].
  do 3 (apply obind_Ok in H as (? & _ & H)). destruct (_ || _) in H; [|injection H as <-; by left].
  apply obind_Ok in H as ([n d] & [-> Hn]%budgeted_k_scale_Ok & H). fold part in Hn.
  apply obind_Ok in H as (k & Hnew & H). unfold mul_div_192 in Hnew.
  apply obind_Ok in Hnew as (p & [-> _]%safe_u_Ok & [_ ->]%safe_udiv_Ok).
  apply obind_Ok in H as (r & (Hr & _ & Hinv)%get_update_k_result_Ok & H). apply obind_Ok in H as (c & _ & H).
  apply obind_Ok in H as ([m1 b] & H1%apply_cost_Ok & H).
  destruct b; [|destruct H1 as (-> & _); injection H as <-; by left].
  apply obind_Ok in H as (m2 & H2 & [= <-]). destruct (update_k_Ok _ _ _ H2) as (_ & _ & Hk2 & _).
  right. change (sqrt_k (amm (_ <| next_curve_record_id := _ |>))) with (sqrt_k (amm m2)). rewrite Hk2, Hr.
  split_and!; [apply Z.div_le_mono; [done|]; nia|apply Z.div_le_mono; [done|]; nia|done].
Qed.

(** ** Witnesses *)

(** A market at 100 dollars whose users are long 10 against the curve. *)
Definition curve_market : PerpMarket :=
  let a := amm quoted_market <| base_asset_amount_with_amm := 10000000000 |> <| concentration_coef := 1414200 |>
             <| base_spread := 2000 |> <| max_spread := 20000 |> <| curve_update_intensity := 100 |>
             <| total_fee_minus_distributions := 50000000 |> <| total_exchange_fee := 40000000 |>
             <| min_order_size := 1000000 |> <| oracle_slot_delay_override := 10 |> <| last_mark_price_twap := 100000000 |>
             <| last_mark_price_twap_5min := 100000000 |>
             <| amm_historical_oracle_data := mkHistoricalOracleData 100000000 10000 1 100000000 100000000 0 |> in
  let m := quoted_market <| amm := a |> <| pm_status := Active |> in
  match update_k m (mkUpdateKResult 1000000000000 1000000000000 1000000000000) with Ok m => m | _ => m end.

(** The oracle at 101 dollars. *)
Definition curve_oracle : MMOraclePriceData :=
  let d := mkOraclePriceData 101000000 10000 1 true None in
  mkMMOraclePriceData 0 1 0 NonPositive 0 d d.

Lemma curve_market_ok : curve_ok (amm curve_market).
Proof. split; [split_and!|..]; vm_compute; (reflexivity || discriminate). Qed.

(** An oracle update takes the peg to 101 dollars, then the depth shrinks by a
    tenth of a per cent. *)
Lemma reserves_stay_on_curve_witness :
  exists m1 m2, _update_amm curve_market curve_oracle default_guard_rails 3600 50 = Ok (m1, 9900990)
    /\ formulaic_update_k m1 4000000 = Ok m2 /\ sqrt_k (amm m2) = 999000000000 /\ curve_ok (amm m2).
Proof.
  assert (H : exists m1 m2, _update_amm curve_market curve_oracle default_guard_rails 3600 50 = Ok (m1, 9900990)
    /\ formulaic_update_k m1 4000000 = Ok m2 /\ sqrt_k (amm m2) = 999000000000)
    by (eexists _, _; split_and!; [vm_compute; reflexivity..]).
  destruct H as (m1 & m2 & H1 & H2 & H3). exists m1, m2. split_and!; [exact H1|exact H2|exact H3|].
  apply (reserves_stay_on_curve curve_market m2); [|exact curve_market_ok].
  eapply rtc_l; [eapply step_update_amm; exact H1|]. eapply rtc_l; [eapply step_formulaic; exact H2|]. apply rtc_refl.
Defined.

Lemma adjustments_booked_exactly_witness :
  exists m' c, repeg curve_market (exchange_oracle_price_data curve_oracle) 100500000 default_guard_rails = Ok (m', c)
    /\ c = 4950495 /\ total_fee_minus_distributions (amm m') = 50000000 - c
    /\ 20000000 <= total_fee_minus_distributions (amm m').
Proof.
  assert (H : exists m' c, repeg curve_market (exchange_oracle_price_data curve_oracle) 100500000 default_guard_rails = Ok (m', c)
    /\ c = 4950495) by (eexists _, _; split; vm_compute; reflexivity).
  destruct H as (m' & c & H & Hc). exists m', c. split; [exact H|]. split; [exact Hc|].
  destruct (proj1 (proj2 (adjustments_booked_exactly curve_market)) _ _ _ m' c 20000000 H eq_refl) as (Ht & Hr & _).
  split; [exact Ht|]. apply Hr. rewrite Hc. reflexivity.
Defined.

Lemma depth_change_bounded_witness :
  exists m', formulaic_update_k curve_market 4000000 = Ok m' /\ sqrt_k (amm m') = 999000000000
    /\ 999000000000 <= sqrt_k (amm m').
Proof.
  assert (H : exists m', formulaic_update_k curve_market 4000000 = Ok m' /\ sqrt_k (amm m') = 999000000000)
    by (eexists; split; vm_compute; reflexivity).
  destruct H as (m' & H & Hk). exists m'. split; [exact H|]. split; [exact Hk|].
  destruct (depth_change_bounded curve_market 4000000 m' ltac:(vm_compute; discriminate) H) as [He|(Hl & _)].
  - exfalso. rewrite Hk in He. vm_compute in He. discriminate He.
  - exact Hl.
Defined.
