(* ===== verification/DriftPools.v ===== *)
(** The pools of a perpetual market and their settlement: [update_pool_balances],
    [calculate_revenue_pool_transfer], [update_pnl_pool_and_user_balance] and
    [calculate_perp_market_amm_summary_stats] of [controller/amm.rs],
    [settle_expired_market] of [controller/repeg.rs].

    The fee pool, the pnl pool and the revenue pool are deposits of the quote spot
    market.  The theorems: settling moves deposits between them and in or out for
    the user, never makes or loses any; the user is never charged more than the
    loss nor paid more than the pool holds; the price an expired market settles at
    never promises the users more than the pools hold. *)
From S2P Require Import Prelude.
From S2P Require Import RecordUpdate.
From S2P Require Import DriftError.
From S2P Require Import DriftMath.
From S2P Require Import DriftSpotMarket.
From S2P Require Import DriftTypes.
From S2P Require Import DriftSpotBalance.
From S2P Require Import DriftOracle.
From S2P Require Import DriftAmm.
From S2P Require Import DriftSpread.
From S2P Require Import DriftPosition.
From S2P Require Import DriftUser.
From S2P Require Import DriftWithdraw.
From S2P Require Import DriftCurve.

Definition fee_pool_tokens (m : PerpMarket) (s : SpotMarket) : DriftResult Z :=
  get_token_amount (pb_scaled_balance (fee_pool (amm m))) s Deposit.
Definition pnl_pool_tokens (m : PerpMarket) (s : SpotMarket) : DriftResult Z :=
  get_token_amount (pb_scaled_balance (pnl_pool m)) s Deposit.

Definition get_fee_pool_tokens (m : PerpMarket) (s : SpotMarket) : DriftResult Z :=
  let! t := fee_pool_tokens m s in cast_i 128 t.

(** ** The revenue pool *)

(** What the market in surplus may send to the revenue pool. *)
Definition surplus_transfer (m : PerpMarket) (amm_fee_pool_token_amount_after : Z) : DriftResult Z :=
  let a := amm m in
  let c := insurance_claim m in
  let! t := safe_u 128 (FEE_POOL_TO_REVENUE_POOL_THRESHOLD + total_social_loss a) in
  let! fee_pool_threshold := cast_i 128 (usat 128 (amm_fee_pool_token_amount_after - t)) in
  let! insured := safe_u 64 (quote_settled_insurance c + quote_max_insurance c) in
  let! total_liq_fees := cast_i 128 (Z.min (total_liquidation_fee a) insured) in
  let! w := cast_i 64 (max_revenue_withdraw_per_period c) in
  let! x := safe_i 64 (revenue_withdraw_since_last_settle c + w) in
  let max_revenue_to_settle := Z.max (Z.min x (net_revenue_since_last_funding a)) 0 in
  let! b := get_total_fee_lower_bound m in
  let! total_fee_for_if := cast_i 128 b in
  let! x := safe_i 128 (total_fee_for_if + total_liq_fees) in
  let! withdrawn := cast_i 128 (total_fee_withdrawn a) in
  let transfer := Z.min (Z.min (Z.max (isat 128 (x - withdrawn)) 0) fee_pool_threshold) max_revenue_to_settle in
  do! validate (0 <=? transfer) InsufficientPerpPnlPool in
  Ok transfer.

(** What the market in deficit may pull from it. *)
Definition deficit_transfer (m : PerpMarket) (s : SpotMarket) (amm_budget_surplus : Z) : DriftResult Z :=
  let c := insurance_claim m in
  let! w := cast_i 64 (max_revenue_withdraw_per_period c) in
  let! left_this_period := cast_u 128 (isat 64 (w - revenue_withdraw_since_last_settle c)) in
  let! pool := get_token_amount (pb_scaled_balance (revenue_pool s)) s Deposit in
  let max_revenue_withdraw_allowed := Z.min (Z.min left_this_period pool) (max_revenue_withdraw_per_period c) in
  if 0 <? max_revenue_withdraw_allowed then
    let! d := ichk 128 (Z.abs amm_budget_surplus) in
    let! allowed := cast_i 128 max_revenue_withdraw_allowed in
    Ok (- Z.min d allowed)
  else Ok 0.

(** The transfer, positive towards the revenue pool. *)
Definition calculate_revenue_pool_transfer (m : PerpMarket) (s : SpotMarket)
    (amm_fee_pool_token_amount_after terminal_state_surplus : Z) : DriftResult Z :=
  if is_operation_paused m OpSettleRevPool then Ok 0
  else
    let amm_budget_surplus := isat 128 (terminal_state_surplus - FEE_POOL_TO_REVENUE_POOL_THRESHOLD) in
    if 0 <? amm_budget_surplus then surplus_transfer m amm_fee_pool_token_amount_after
    else if amm_budget_surplus <? 0 then deficit_transfer m s amm_budget_surplus
    else Ok 0.

(** ** update_pool_balances *)

(** A fee pool above its target gives the rest to the pnl pool, and takes no part
    of what the user pays; the number is the fraction it takes. *)
Definition drain_fee_pool (m : PerpMarket) (s : SpotMarket) : DriftResult (PerpMarket * SpotMarket * Z) :=
  let a := amm m in
  let! t := fee_pool_tokens m s in
  let! tokens := cast_i 128 t in
  let! l := cast_i 128 (total_liquidation_fee a) in
  let! x := safe_i 128 (total_fee_minus_distributions a + l) in
  let! w := cast_i 128 (total_fee_withdrawn a) in
  let! target_max := safe_i 128 (x - w) in
  if target_max <=? tokens then
    let! pnl_pool_addition := safe_i 128 (Z.max 0 target_max - tokens) in
    if pnl_pool_addition <? 0 then
      let! d := ichk 128 (Z.abs pnl_pool_addition) in
      let! '(s, f, p) := transfer_spot_balances d s (fee_pool a) (pnl_pool m) in
      Ok (m <| amm ; fee_pool := f |> <| pnl_pool := p |>, s, 0)
    else Ok (m, s, 0)
  else Ok (m, s, 100).

(** A fee pool below the fees reserved for the protocol is filled from the pnl
    pool. *)
Definition fill_fee_pool (m : PerpMarket) (s : SpotMarket) : DriftResult (PerpMarket * SpotMarket) :=
  let! target_min := fee_reserved_for_protocol m in
  let! tokens := fee_pool_tokens m s in
  if tokens <? target_min then
    let! available := pnl_pool_tokens m s in
    let! missing := safe_u 128 (target_min - tokens) in
    let pnl_pool_removal := Z.min missing available in
    if 0 <? pnl_pool_removal then
      let! d := cast_i 128 pnl_pool_removal in
      let! '(s, p, f) := transfer_spot_balances d s (pnl_pool m) (fee_pool (amm m)) in
      Ok (m <| pnl_pool := p |> <| amm ; fee_pool := f |>, s)
    else Ok (m, s)
  else Ok (m, s).

(** A settlement of the insurance fund since the last withdrawal opens a new
    period. *)
Definition open_period (m : PerpMarket) (s : SpotMarket) (now : Z) : DriftResult PerpMarket :=
  let last := last_revenue_withdraw_ts (insurance_claim m) in
  let settled := last_revenue_settle_ts (insurance_fund s) in
  if last <? settled then
    do! validate ((last <=? now) && (settled <=? now)) BlockchainClockInconsistency in
    Ok (m <| insurance_claim ; revenue_withdraw_since_last_settle := 0 |>)
  else Ok m.

Definition settle_revenue_pool (m : PerpMarket) (s : SpotMarket) (now : Z) : DriftResult (PerpMarket * SpotMarket) :=
  let! after := fee_pool_tokens m s in
  let! w := cast_i 128 (total_fee_withdrawn (amm m)) in
  let! terminal_state_surplus := safe_i 128 (total_fee_minus_distributions (amm m) - w) in
  let! m := open_period m s now in
  let! transfer := calculate_revenue_pool_transfer m s after terminal_state_surplus in
  if transfer =? 0 then Ok (m, s)
  else
    let! '(m, s) :=
      if 0 <? transfer then
        let! '(s, f) := transfer_spot_balance_to_revenue_pool (Z.abs transfer) s (fee_pool (amm m)) in
        let! t := safe_u 128 (total_fee_withdrawn (amm m) + Z.abs transfer) in
        Ok (m <| amm ; fee_pool := f |> <| amm ; total_fee_withdrawn := t |>, s)
      else
        let! '(s, f) := transfer_revenue_pool_to_spot_balance (Z.abs transfer) s (fee_pool (amm m)) in
        Ok (m <| amm ; fee_pool := f |>, s) in
    let! total := safe_i 128 (total_fee_minus_distributions (amm m) - transfer) in
    let! t := cast_i 64 transfer in
    let! since := safe_i 64 (revenue_withdraw_since_last_settle (insurance_claim m) - t) in
    Ok (m <| amm ; total_fee_minus_distributions := total |>
          <| insurance_claim ; revenue_withdraw_since_last_settle := since |>
          <| insurance_claim ; last_revenue_withdraw_ts := now |>, s).

(** What of the user's result can be settled now. *)
Definition settleable_pnl (m : PerpMarket) (s : SpotMarket) (user_quote_token_amount user_unsettled_pnl : Z) :
    DriftResult Z :=
  let! tokens := pnl_pool_tokens m s in
  if 0 <? user_unsettled_pnl then
    let! t := cast_i 128 tokens in Ok (Z.min user_unsettled_pnl t)
  else
    let! w := get_max_withdraw_for_market_with_token_amount s user_quote_token_amount false in
    let! w := cast_i 128 w in
    Ok (Z.max (- w) user_unsettled_pnl).

(** The pools' side of it: the fee pool takes its fraction of a loss. *)
Definition settle_with_pools (m : PerpMarket) (s : SpotMarket) (fraction_for_amm pnl : Z) :
    DriftResult (PerpMarket * SpotMarket) :=
  let! '(m, s, pnl_fraction_for_amm) :=
    if (0 <? fraction_for_amm) && (pnl <? 0) then
      let! part := safe_idiv 128 pnl fraction_for_amm in
      let! '(s, f) := update_spot_balances (Z.abs part) Deposit s (fee_pool (amm m)) false in
      Ok (m <| amm ; fee_pool := f |>, s, part)
    else Ok (m, s, 0) in
  let! x := safe_i 128 (pnl - pnl_fraction_for_amm) in
  let! pnl_to_settle_with_market := ichk 128 (- x) in
  let! '(s, p) := update_spot_balances (Z.abs pnl_to_settle_with_market)
                    (if 0 <=? pnl_to_settle_with_market then Deposit else Borrow) s (pnl_pool m) false in
  Ok (m <| pnl_pool := p |>, s).

Definition update_pool_balances (m : PerpMarket) (s : SpotMarket) (user_quote_token_amount user_unsettled_pnl now : Z) :
    DriftResult (PerpMarket * SpotMarket * Z) :=
  let! '(m, s, fraction_for_amm) := drain_fee_pool m s in
  let! '(m, s) := fill_fee_pool m s in
  let! '(m, s) := settle_revenue_pool m s now in
  let! pnl_to_settle_with_user := settleable_pnl m s user_quote_token_amount user_unsettled_pnl in
  let! '(m, s) := settle_with_pools m s fraction_for_amm pnl_to_settle_with_user in
  let! _ := validate_spot_balances s in
  Ok (m, s, pnl_to_settle_with_user).

(** ** The user's side *)

(** The transfer between the pnl pool and the user's isolated collateral or quote
    position. *)
Definition settle_with_user (m : PerpMarket) (s : SpotMarket) (u : User) (pnl : Z) :
    DriftResult (PerpMarket * SpotMarket * User) :=
  let! i := get_position_index (u_perp_positions u) (pm_market_index m) in
  let! p := idx (u_perp_positions u) (Z.of_nat i) in
  if is_isolated p then
    let! tokens := get_isolated_token_amount p s in
    do! (if pnl <? 0 then validate (Z.abs pnl <=? tokens) InsufficientCollateral else Ok tt) in
    let! '(s, pool, p) := transfer_spot_balances pnl s (pnl_pool m) p in
    let! l := set_idx (u_perp_positions u) (Z.of_nat i) p in
    Ok (m <| pnl_pool := pool |>, s, u <| u_perp_positions := l |>)
  else
    match get_spot_position_index u QUOTE_SPOT_MARKET_INDEX with
    | Ok k =>
        let! q := idx (u_spot_positions u) (Z.of_nat k) in
        let! '(s, pool, q) := transfer_spot_balances pnl s (pnl_pool m) q in
        let! l := set_idx (u_spot_positions u) (Z.of_nat k) q in
        Ok (m <| pnl_pool := pool |>, s, u <| u_spot_positions := l |>)
    | _ => Panic
    end.

Definition update_pnl_pool_and_user_balance (m : PerpMarket) (s : SpotMarket) (u : User) (unrealized_pnl_with_fee : Z) :
    DriftResult (PerpMarket * SpotMarket * User * Z) :=
  let! pnl_to_settle_with_user :=
    if 0 <? unrealized_pnl_with_fee then
      let! t := pnl_pool_tokens m s in
      let! t := cast_i 128 t in Ok (Z.min unrealized_pnl_with_fee t)
    else Ok unrealized_pnl_with_fee in
  do! validate (unrealized_pnl_with_fee =? pnl_to_settle_with_user) InsufficientPerpPnlPool in
  if (unrealized_pnl_with_fee =? 0) || (pnl_to_settle_with_user =? 0) then Ok (m, s, u, 0)
  else
    let! '(m, s, u) := settle_with_user m s u pnl_to_settle_with_user in
    Ok (m, s, u, pnl_to_settle_with_user).

Definition calculate_perp_market_amm_summary_stats (m : PerpMarket) (s : SpotMarket) (oracle_price : Z)
    (exclude_liquidation_fee : bool) : DriftResult Z :=
  let! p := pnl_pool_tokens m s in
  let! f := fee_pool_tokens m s in
  let! x := safe_u 128 (p + f) in
  let! available := cast_i 128 x in
  let! net_user_pnl := calculate_net_user_pnl (amm m) oracle_price in
  let! total := safe_i 128 (available - net_user_pnl) in
  if exclude_liquidation_fee then
    let! l := cast_i 128 (total_liquidation_fee (amm m)) in safe_i 128 (total - l)
  else Ok total.

(** ** Expired markets *)

(** The fees above the reserved ones go to the pnl pool. *)
Definition release_fees (m : PerpMarket) (s : SpotMarket) : DriftResult (PerpMarket * SpotMarket * Z) :=
  let! r := fee_reserved_for_protocol m in
  let! reserved := cast_i 128 r in
  let! b := safe_i 128 (total_fee_minus_distributions (amm m) - reserved) in
  let budget := Z.max b 0 in
  let! t := fee_pool_tokens m s in
  let! t := cast_i 128 t in
  let! available := safe_i 128 (t - reserved) in
  let transfer := Z.min budget (Z.max available 0) in
  let! '(s, f) := update_spot_balances (Z.abs transfer) Borrow s (fee_pool (amm m)) false in
  let! '(s, p) := update_spot_balances (Z.abs transfer) Deposit s (pnl_pool m) false in
  Ok (m <| amm ; fee_pool := f |> <| pnl_pool := p |>, s, budget).

(** The budget deepens the curve, up to a hundredfold. *)
Definition spend_budget {roots : Roots} (m : PerpMarket) (budget : Z) : DriftResult PerpMarket :=
  if 0 <? budget then
    let! '(n, d) := calculate_budgeted_k_scale m budget (K_BPS_UPDATE_SCALE * 100) K_BPS_UPDATE_SCALE in
    let! k := mul_div_192 (sqrt_k (amm m)) n d in
    let! r := get_update_k_result m (Z.min k MAX_SQRT_K) true in
    let! adjustment_cost := adjust_k_cost m r in
    let! '(m, cost_applied) := apply_cost_to_market m adjustment_cost true in
    do! validate cost_applied InvalidUpdateK in
    update_k m r
  else Ok m.

Definition settle_expired_market {roots : Roots} (m : PerpMarket) (s : SpotMarket) (now : Z) :
    DriftResult (PerpMarket * SpotMarket) :=
  do! validate (negb (expiry_ts m =? 0)) MarketSettlementAttemptOnActiveMarket in
  do! validate (expiry_ts m <=? now) MarketSettlementAttemptTooEarly in
  do! validate (base_asset_amount_with_unsettled_lp (amm m) =? 0) MarketSettlementRequiresSettledLP in
  let! '(m, s, budget) := release_fees m s in
  let! m := spend_budget m budget in
  let! p := uchk 128 (10 ^ decimals s) in
  do! validate (p =? QUOTE_PRECISION) UnsupportedSpotMarket in
  let h := amm_historical_oracle_data (amm m) in
  let target_expiry_price :=
    match oracle_source (amm m) with Prelaunch => last_oracle_price h | _ => last_oracle_price_twap_5min h end in
  do! validate (0 <? target_expiry_price) MarketSettlementTargetPriceInvalid in
  let! pnl := pnl_pool_tokens m s in
  let! fee := fee_pool_tokens m s in
  let! x := safe_u 128 (pnl + fee) in
  let! total_excess_balance := cast_i 128 x in
  let! price := calculate_expiry_price (amm m) target_expiry_price total_excess_balance in
  Ok (m <| expiry_price := price |> <| pm_status := Settlement |>, s).

(** * Properties *)

(** ** Settling makes and loses no deposit *)

#[local] Arguments side_total : simpl never.
#[local] Arguments side_balance : simpl never.

(** The deposits (or borrows) of the spot market outside the three pools. *)
Definition outside (t : SpotBalanceType) (m : PerpMarket) (s : SpotMarket) : Z :=
  side_total t s - side_balance t (fee_pool (amm m)) - side_balance t (pnl_pool m) - side_balance t (revenue_pool s).

(** What a phase of the settlement may do. *)
Definition pools_keep (m : PerpMarket) (s : SpotMarket) (m' : PerpMarket) (s' : SpotMarket) : Prop :=
  (forall t, outside t m' s' = outside t m s)
  /\ same_terms (set_revenue_pool s (revenue_pool s')) s'.

Lemma pools_keep_refl m s : pools_keep m s m s.
Proof. split; [done|]. by destruct s. Qed.

Lemma revenue_terms_trans s1 s2 s3 :
  same_terms (set_revenue_pool s1 (revenue_pool s2)) s2 -> same_terms (set_revenue_pool s2 (revenue_pool s3)) s3 ->
  same_terms (set_revenue_pool s1 (revenue_pool s3)) s3.
Proof. intros H1 H2. rewrite H1 in H2. rewrite H2. done. Qed.
Lemma pools_keep_trans m1 s1 m2 s2 m3 s3 :
  pools_keep m1 s1 m2 s2 -> pools_keep m2 s2 m3 s3 -> pools_keep m1 s1 m3 s3.
Proof.
  intros [H1 T1] [H2 T2]. split; [intros t; by rewrite H2|by eapply revenue_terms_trans].
Qed.
Lemma same_terms_revenue s s' : same_terms s s' -> revenue_pool s' = revenue_pool s /\ same_terms (set_revenue_pool s (revenue_pool s')) s'.
Proof. intros H. rewrite H. by destruct s. Qed.

Lemma pool_transfer_keeps s x (f p : PoolBalance) s' f' p' :
  transfer_spot_balances x s f p = Ok (s', f', p') ->
  revenue_pool s' = revenue_pool s /\ same_terms (set_revenue_pool s (revenue_pool s')) s'
  /\ forall t, side_total t s' - side_balance t f' - side_balance t p' = side_total t s - side_balance t f - side_balance t p.
Proof.
  intros [Hs Hc]%transfer_conserves; [|apply pool_dust_safe..].
  apply same_terms_revenue in Hs as [Hr Hs]. by split_and!.
Qed.

Lemma drain_keeps m s m' s' n : drain_fee_pool m s = Ok (m', s', n) -> pools_keep m s m' s' /\ (n = 0 \/ n = 100).
Proof.
  intros H. unfold drain_fee_pool in H. do 6 (apply obind_Ok in H as (? & _ & H)).
  destruct (_ <=? _) in H; [|injection H as <- <- <-; split; [apply pools_keep_refl|by right]].
  apply obind_Ok in H as (? & _ & H). destruct (_ <? 0) in H; [|injection H as <- <- <-; split; [apply pools_keep_refl|by left]].
  apply obind_Ok in H as (? & _ & H). apply obind_Ok in H as ([[s1 f] p] & H1 & [= <- <- <-]).
  apply pool_transfer_keeps in H1 as (Hr & Hs & Hc). split; [split; [|done]|by left].
  intros t. specialize (Hc t). unfold outside. cbn. rewrite Hr. lia.
Qed.

Lemma fill_keeps m s m' s' : fill_fee_pool m s = Ok (m', s') -> pools_keep m s m' s'.
Proof.
  intros H. unfold fill_fee_pool in H. do 2 (apply obind_Ok in H as (? & _ & H)).
  destruct (_ <? _) in H; [|injection H as <- <-; apply pools_keep_refl].
  do 2 (apply obind_Ok in H as (? & _ & H)). destruct (0 <? _) in H; [|injection H as <- <-; apply pools_keep_refl].
  apply obind_Ok in H as (? & _ & H). apply obind_Ok in H as ([[s1 p] f] & H1 & [= <- <-]).
  apply pool_transfer_keeps in H1 as (Hr & Hs & Hc). split; [|done].
  intros t. specialize (Hc t). unfold outside. cbn. rewrite Hr. lia.
Qed.

(** One pool and the spot market. *)
Lemma pool_update_keeps x dir s (f : PoolBalance) s' f' :
  update_spot_balances (Z.abs x) dir s f false = Ok (s', f') ->
  revenue_pool s' = revenue_pool s /\ same_terms (set_revenue_pool s (revenue_pool s')) s'
  /\ forall t, side_total t s' - side_balance t f' = side_total t s - side_balance t f.
Proof.
  intros [Hs Hc]%update_spot_balances_conserves; [|lia|apply pool_dust_safe].
  apply same_terms_revenue in Hs as [Hr Hs]. by split_and!.
Qed.

Lemma to_revenue_keeps m x s f s' :
  transfer_spot_balance_to_revenue_pool (Z.abs x) s (fee_pool (amm m)) = Ok (s', f) ->
  pools_keep m s (m <| amm ; fee_pool := f |>) s'.
Proof.
  intros H. unfold transfer_spot_balance_to_revenue_pool in H. apply obind_Ok in H as (? & _ & H).
  apply obind_Ok in H as ([s1 f1] & H1 & H). apply obind_Ok in H as (s2 & H2 & [= <- <-]).
  apply pool_update_keeps in H1 as (Hr & Hs & Hc). apply revenue_pool_conserves in H2 as [Hs2 Hc2]; [|lia].
  split; [|by eapply revenue_terms_trans]. intros t. specialize (Hc t). specialize (Hc2 t). unfold outside. cbn.
  rewrite Hr in Hc2. lia.
Qed.
Lemma from_revenue_keeps m x s f s' :
  transfer_revenue_pool_to_spot_balance (Z.abs x) s (fee_pool (amm m)) = Ok (s', f) ->
  pools_keep m s (m <| amm ; fee_pool := f |>) s'.
Proof.
  intros H. unfold transfer_revenue_pool_to_spot_balance in H. apply obind_Ok in H as (? & _ & H).
  apply obind_Ok in H as (s1 & H1 & H). apply revenue_pool_conserves in H1 as [Hs1 Hc1]; [|lia].
  apply pool_update_keeps in H as (Hr & Hs & Hc).
  split; [|by eapply revenue_terms_trans]. intros t. specialize (Hc t). specialize (Hc1 t). unfold outside. cbn.
  rewrite <- Hr in Hc1. lia.
Qed.

Lemma settle_with_pools_keeps m s n pnl m' s' : settle_with_pools m s n pnl = Ok (m', s') -> pools_keep m s m' s'.
Proof.
  intros H. unfold settle_with_pools in H. apply obind_Ok in H as ([[m1 s1] part] & H1 & H).
  assert (pools_keep m s m1 s1 /\ pnl_pool m1 = pnl_pool m) as [Hk Hp].
  { destruct (_ && _) in H1; [|injection H1 as <- <- _; split; [apply pools_keep_refl|done]].
    apply obind_Ok in H1 as (q & _ & H1). apply obind_Ok in H1 as ([s2 f] & H2 & [= <- <- _]).
    apply pool_update_keeps in H2 as (Hr & Hs & Hc). split; [|done]. split; [|done].
    intros t. specialize (Hc t). unfold outside. cbn. rewrite Hr. lia. }
  eapply pools_keep_trans; [exact Hk|]. do 2 (apply obind_Ok in H as (? & _ & H)).
  apply obind_Ok in H as ([s2 p] & H2 & [= <- <-]). apply pool_update_keeps in H2 as (Hr & Hs & Hc).
  split; [|done]. intros t. specialize (Hc t). unfold outside. cbn. rewrite Hr. lia.
Qed.

(** ** The revenue pool *)

(** What the market may ever send to the revenue pool. *)
Definition revenue_cap (m : PerpMarket) : Z :=
  total_exchange_fee (amm m) / SHARE_OF_FEES_ALLOCATED_TO_DRIFT_DENOMINATOR + total_liquidation_fee (amm m).

Lemma total_fee_lower_bound_Ok m b :
  get_total_fee_lower_bound m = Ok b -> b = total_exchange_fee (amm m) / SHARE_OF_FEES_ALLOCATED_TO_DRIFT_DENOMINATOR.
Proof.
  intros H. unfold get_total_fee_lower_bound in H. apply obind_Ok in H as (p & [-> _]%safe_u_Ok & [_ ->]%safe_udiv_Ok).
  by rewrite Z.mul_1_r.
Qed.

Lemma revenue_transfer_Ok m s after surplus x :
  calculate_revenue_pool_transfer m s after surplus = Ok x ->
  x <= 0 \/ total_fee_withdrawn (amm m) + x <= revenue_cap m.
Proof.
  intros H. unfold calculate_revenue_pool_transfer in H. destruct (is_operation_paused _ _); [left; injection H as <-; lia|].
  destruct (0 <? _) in H.
  - unfold surplus_transfer in H. do 3 (apply obind_Ok in H as (? & _ & H)).
    apply obind_Ok in H as (l & [-> Hl]%cast_i_Ok & H). do 2 (apply obind_Ok in H as (? & _ & H)).
    apply obind_Ok in H as (b & Hb%total_fee_lower_bound_Ok & H). apply obind_Ok in H as (b' & [-> _]%cast_i_Ok & H).
    apply obind_Ok in H as (y & [-> _]%safe_i_Ok & H). apply obind_Ok in H as (w & [-> _]%cast_i_Ok & H).
    apply obind_Ok in H as (? & _ & [= <-]). unfold revenue_cap. rewrite <- Hb. unfold isat. lia.
  - left. destruct (_ <? 0) in H; [|injection H as <-; lia]. unfold deficit_transfer in H.
    do 3 (apply obind_Ok in H as (? & _ & H)). destruct (0 <? _) eqn:Hp in H; [|injection H as <-; lia].
    apply obind_Ok in H as (d & [-> _]%ichk_Ok & H). apply obind_Ok in H as (a & [-> _]%cast_i_Ok & [= <-]).
    apply Z.ltb_lt in Hp. lia.
Qed.

Lemma open_period_frame m s now m' :
  open_period m s now = Ok m' -> amm m' = amm m /\ pnl_pool m' = pnl_pool m.
Proof.
  intros H. unfold open_period in H. destruct (_ <? _) in H; [|by injection H as <-].
  by apply obind_Ok in H as (? & _ & [= <-]).
Qed.

(** The phase keeps the deposits, and the ledger of fees. *)
Lemma settle_revenue_keeps m s now m' s' :
  settle_revenue_pool m s now = Ok (m', s') ->
  pools_keep m s m' s'
  /\ total_fee_withdrawn (amm m) <= total_fee_withdrawn (amm m') <= Z.max (total_fee_withdrawn (amm m)) (revenue_cap m)
  /\ total_fee_minus_distributions (amm m') + (total_fee_withdrawn (amm m') - total_fee_withdrawn (amm m))
     >= total_fee_minus_distributions (amm m).
Proof.
  intros H. unfold settle_revenue_pool in H. apply obind_Ok in H as (after & _ & H).
  apply obind_Ok in H as (w0 & _ & H). apply obind_Ok in H as (sp & _ & H). apply obind_Ok in H as (m0 & [Ha Hp]%open_period_frame & H).
  apply obind_Ok in H as (x & Hx%revenue_transfer_Ok & H).
  assert (pools_keep m s m0 s) as Hk0 by (split; [intros t; unfold outside; by rewrite Ha, Hp|by destruct s]).
  assert (revenue_cap m0 = revenue_cap m) as Hcap by (unfold revenue_cap; by rewrite Ha). rewrite Hcap, Ha in Hx.
  destruct (Z.eqb_spec x 0) as [->|Hne].
  { injection H as <- <-. rewrite Ha. split_and!; [done|lia..]. }
  apply obind_Ok in H as ([m1 s1] & H1 & H). apply obind_Ok in H as (t & [-> _]%safe_i_Ok & H).
  apply obind_Ok in H as (y & _ & H). apply obind_Ok in H as (z & _ & H). injection H as <- <-. rewrite <- Ha in *.
  destruct (Z.ltb_spec 0 x).
  - apply obind_Ok in H1 as ([s2 f] & H1%to_revenue_keeps & H2). apply obind_Ok in H2 as (w & [-> _]%safe_u_Ok & [= <- <-]).
    split; [|cbn; lia]. eapply pools_keep_trans; [exact Hk0|]. exact H1.
  - apply obind_Ok in H1 as ([s2 f] & H1%from_revenue_keeps & [= <- <-]).
    split; [|cbn; lia]. eapply pools_keep_trans; [exact Hk0|]. exact H1.
Qed.

Lemma drain_frame m s m' s' n :
  drain_fee_pool m s = Ok (m', s', n) -> total_fee_withdrawn (amm m') = total_fee_withdrawn (amm m) /\ revenue_cap m' = revenue_cap m.
Proof.
  intros H. unfold drain_fee_pool in H. do 6 (apply obind_Ok in H as (? & _ & H)).
  destruct (_ <=? _) in H; [|by injection H as <- <- <-].
  apply obind_Ok in H as (? & _ & H). destruct (_ <? 0) in H; [|by injection H as <- <- <-].
  apply obind_Ok in H as (? & _ & H). by apply obind_Ok in H as ([[s1 f] p] & _ & [= <- <- <-]).
Qed.
Lemma fill_frame m s m' s' :
  fill_fee_pool m s = Ok (m', s') -> total_fee_withdrawn (amm m') = total_fee_withdrawn (amm m) /\ revenue_cap m' = revenue_cap m.
Proof.
  intros H. unfold fill_fee_pool in H. do 2 (apply obind_Ok in H as (? & _ & H)).
  destruct (_ <? _) in H; [|by injection H as <- <-].
  do 2 (apply obind_Ok in H as (? & _ & H)). destruct (0 <? _) in H; [|by injection H as <- <-].
  apply obind_Ok in H as (? & _ & H). by apply obind_Ok in H as ([[s1 p] f] & _ & [= <- <-]).
Qed.
Lemma settle_with_pools_frame m s n pnl m' s' :
  settle_with_pools m s n pnl = Ok (m', s') -> total_fee_withdrawn (amm m') = total_fee_withdrawn (amm m).
Proof.
  intros H. unfold settle_with_pools in H. apply obind_Ok in H as ([[m1 s1] part] & H1 & H).
  do 2 (apply obind_Ok in H as (? & _ & H)). apply obind_Ok in H as ([s2 p] & _ & [= <- <-]).
  destruct (_ && _) in H1; [|by injection H1 as <- _ _].
  apply obind_Ok in H1 as (q & _ & H1). by apply obind_Ok in H1 as ([s3 f] & _ & [= <- _ _]).
Qed.

Lemma max_withdraw_nonneg s x leaving w : get_max_withdraw_for_market_with_token_amount s x leaving = Ok w -> 0 <= w.
Proof.
  intros H. unfold get_max_withdraw_for_market_with_token_amount in H. apply obind_Ok in H as (d & _ & H).
  apply obind_Ok in H as (b & _ & H). apply obind_Ok in H as ([lo hi] & _ & H). destruct (0 <? x).
  - apply obind_Ok in H as (t & _ & H). destruct (_ && _) in H; [injection H as <-; unfold usat; lia|].
    do 3 (apply obind_Ok in H as (? & _ & H)). apply safe_u_Ok in H as [-> Hu]. unfold in_u in Hu. lia.
  - do 3 (apply obind_Ok in H as (? & _ & H)). apply safe_u_Ok in H as [-> Hu]. unfold in_u in Hu. lia.
Qed.

(** C24: Settling a user's result with the pools is sound: it makes and loses no
    deposit - what the spot market holds outside the fee, pnl and revenue pools is
    the same before and after, rates included -; the user is never paid more than
    the result nor charged more than the loss, and never charged for a gain; and
    the market never sends more to the revenue pool, over its life, than half the
    exchange's fees plus the fees of liquidations. *)
Theorem pools_settled_soundly m s user_tokens pnl now m' s' r :
  update_pool_balances m s user_tokens pnl now = Ok (m', s', r) ->
  (forall t, outside t m' s' = outside t m s)
  /\ same_terms (set_revenue_pool s (revenue_pool s')) s'
  /\ (0 < pnl -> r <= pnl) /\ (pnl <= 0 -> pnl <= r <= 0)
  /\ total_fee_withdrawn (amm m) <= total_fee_withdrawn (amm m') <= Z.max (total_fee_withdrawn (amm m)) (revenue_cap m).
Proof.
  intros H. unfold update_pool_balances in H. apply obind_Ok in H as ([[m1 s1] n] & H1 & H).
  apply obind_Ok in H as ([m2 s2] & H2 & H). apply obind_Ok in H as ([m3 s3] & H3 & H).
  apply obind_Ok in H as (x & Hx & H). apply obind_Ok in H as ([m4 s4] & H4 & H).
  apply obind_Ok in H as (claim & _ & [= <- <- <-]).
  destruct (drain_frame _ _ _ _ _ H1) as [Hw1 Hc1]. destruct (fill_frame _ _ _ _ H2) as [Hw2 Hc2].
  apply settle_revenue_keeps in H3 as (Hk3 & Hw3 & _). pose proof (settle_with_pools_frame _ _ _ _ _ _ H4) as Hw4.
  apply drain_keeps in H1 as [Hk1 _]. apply fill_keeps in H2. apply settle_with_pools_keeps in H4.
  assert (pools_keep m s m4 s4) as [Ho Ht].
  { eapply pools_keep_trans; [exact Hk1|]. eapply pools_keep_trans; [exact H2|]. by eapply pools_keep_trans. }
  assert ((0 < pnl -> x <= pnl) /\ (pnl <= 0 -> pnl <= x <= 0)) as [Hp1 Hp2].
  { unfold settleable_pnl in Hx. apply obind_Ok in Hx as (t & _ & Hx). destruct (Z.ltb_spec 0 pnl).
    - apply obind_Ok in Hx as (t' & _ & [= <-]). lia.
    - apply obind_Ok in Hx as (w & Hw%max_withdraw_nonneg & Hx). apply obind_Ok in Hx as (w' & [-> _]%cast_i_Ok & [= <-]). lia. }
  split_and!; [done|done|done|done|lia..].
Qed.

(** ** The price an expired market settles at *)

Lemma expiry_price_Ok a target excess p :
  calculate_expiry_price a target excess = Ok p -> order_step_size a <= Z.abs (base_asset_amount_with_amm a) ->
  - 2 ^ 63 < p < 2 ^ 63 - 1 ->
  base_asset_amount_with_amm a * p + amm_quote_asset_amount a * PRICE_TIMES_AMM_TO_QUOTE_PRECISION_RATIO
    <= excess * PRICE_TIMES_AMM_TO_QUOTE_PRECISION_RATIO.
Proof.
  intros H Hs Hp. unfold calculate_expiry_price in H. apply obind_Ok in H as (ab & [-> _]%ichk_Ok & H).
  rewrite (proj2 (Z.ltb_ge _ _) Hs) in H.
  apply obind_Ok in H as (q & [-> _]%safe_i_Ok & H). apply obind_Ok in H as (x & [-> _]%safe_i_Ok & H).
  apply obind_Ok in H as (y & (Hz & -> & _)%safe_idiv_Ok & H). apply obind_Ok in H as (y' & [-> Hy]%cast_i_Ok & H).
  apply obind_Ok in H as (best & [-> Hb]%ichk_Ok & [= <-]).
  set (b := base_asset_amount_with_amm a) in *. set (X := (amm_quote_asset_amount a - excess) * PRICE_TIMES_AMM_TO_QUOTE_PRECISION_RATIO) in *.
  enough (b * (if 0 <=? b then isat 64 (Z.min (- (X ÷ b)) target - 1) else isat 64 (Z.max (- (X ÷ b)) target + 1)) <= - X)
    by (unfold X in *; lia).
  pose proof (Z.quot_rem X b Hz) as Hq. unfold in_i in Hb. destruct (Z.leb_spec 0 b) as [Hpos|Hneg].
  - pose proof (Z.rem_bound_abs X b Hz). unfold isat in *.
    assert (Z.max (- 2 ^ (64 - 1)) (Z.min (Z.min (- (X ÷ b)) target - 1) (2 ^ (64 - 1) - 1)) <= - (X ÷ b) - 1) by lia.
    assert (b * Z.max (- 2 ^ (64 - 1)) (Z.min (Z.min (- (X ÷ b)) target - 1) (2 ^ (64 - 1) - 1)) <= b * (- (X ÷ b) - 1))
      by (apply Z.mul_le_mono_nonneg_l; lia). lia.
  - pose proof (Z.rem_bound_abs X b Hz). unfold isat in *.
    assert (- (X ÷ b) + 1 <= Z.max (- 2 ^ (64 - 1)) (Z.min (Z.max (- (X ÷ b)) target + 1) (2 ^ (64 - 1) - 1))) by lia.
    assert (b * Z.max (- 2 ^ (64 - 1)) (Z.min (Z.max (- (X ÷ b)) target + 1) (2 ^ (64 - 1) - 1)) <= b * (- (X ÷ b) + 1))
      by (apply Z.mul_le_mono_nonpos_l; lia). lia.
Qed.

(** C25: An expired market settles at a price its pools can pay: the market was set
    to expire and has expired, its status becomes settlement, and at the price it
    records the users' net position, with their quote, is worth no more than the
    tokens of the pnl pool and the fee pool - for a net position of at least one
    step and a price that is not at the limits of its width. *)
Theorem expired_market_covered {roots : Roots} m s now m' s' :
  settle_expired_market m s now = Ok (m', s') ->
  expiry_ts m <> 0 /\ expiry_ts m <= now /\ pm_status m' = Settlement
  /\ exists pnl fee, pnl_pool_tokens m' s' = Ok pnl /\ fee_pool_tokens m' s' = Ok fee
     /\ (order_step_size (amm m') <= Z.abs (base_asset_amount_with_amm (amm m')) ->
         - 2 ^ 63 < expiry_price m' < 2 ^ 63 - 1 ->
         base_asset_amount_with_amm (amm m') * expiry_price m'
           + amm_quote_asset_amount (amm m') * PRICE_TIMES_AMM_TO_QUOTE_PRECISION_RATIO
         <= (pnl + fee) * PRICE_TIMES_AMM_TO_QUOTE_PRECISION_RATIO).
Proof.
  intros H. unfold settle_expired_market in H. apply obind_Ok in H as (? & He%validate_Ok & H).
  apply obind_Ok in H as (? & Hn%validate_Ok & H). apply obind_Ok in H as (? & _ & H).
  apply obind_Ok in H as ([[m1 s1] budget] & _ & H). apply obind_Ok in H as (m2 & _ & H).
  apply obind_Ok in H as (p & _ & H). apply obind_Ok in H as (? & _ & H). cbv zeta in H. apply obind_Ok in H as (? & _ & H).
  apply obind_Ok in H as (pnl & Hpnl & H). apply obind_Ok in H as (fee & Hfee & H).
  apply obind_Ok in H as (e & [-> _]%safe_u_Ok & H). apply obind_Ok in H as (e' & [-> _]%cast_i_Ok & H).
  apply obind_Ok in H as (price & Hx & [= <- <-]).
  apply negb_true_iff, Z.eqb_neq in He. apply Z.leb_le in Hn. split_and!; [done|done|done|].
  exists pnl, fee. split_and!; [exact Hpnl|exact Hfee|]. cbn. intros Hs Hp. by eapply expiry_price_Ok.
Qed.

(** ** Witnesses *)

(** The market of [DriftCurve] with 50 dollars in the fee pool and 30 in the pnl
    pool; its users bought at 95. *)
Definition pooled_market : PerpMarket :=
  curve_market <| pnl_pool := mkPoolBalance 30000000000 0 |> <| amm ; fee_pool := mkPoolBalance 50000000000 0 |>
    <| amm ; amm_quote_asset_amount := -950000000 |> <| expiry_ts := 100 |>.

(** A gain of 50 is paid as far as the pnl pool goes. *)
Lemma pools_settled_soundly_witness :
  exists m' s' r, update_pool_balances pooled_market limited_market 100000000 50000000 50 = Ok (m', s', r)
    /\ r = 30000000 /\ r <= 50000000 /\ outside Deposit m' s' = outside Deposit pooled_market limited_market.
Proof.
  assert (H : exists m' s' r, update_pool_balances pooled_market limited_market 100000000 50000000 50 = Ok (m', s', r)
    /\ r = 30000000) by (eexists _, _, _; split; vm_compute; reflexivity).
  destruct H as (m' & s' & r & H & Hr). exists m', s', r.
  destruct (pools_settled_soundly pooled_market limited_market 100000000 50000000 50 m' s' r H) as (Ho & _ & Hp & _).
  split_and!; [exact H|exact Hr|apply Hp; reflexivity|apply Ho].
Defined.

Lemma expired_market_covered_witness :
  exists m' s', settle_expired_market pooled_market limited_market 150 = Ok (m', s') /\ expiry_price m' = 99999999
    /\ 10000000000 * 99999999 - 950000000 * 1000000000 <= 80000000 * 1000000000.
Proof.
  assert (H : exists m' s', settle_expired_market pooled_market limited_market 150 = Ok (m', s') /\ expiry_price m' = 99999999
    /\ base_asset_amount_with_amm (amm m') = 10000000000 /\ amm_quote_asset_amount (amm m') = -950000000
    /\ order_step_size (amm m') = 0 /\ pnl_pool_tokens m' s' = Ok 60000000 /\ fee_pool_tokens m' s' = Ok 20000000)
    by (eexists _, _; split_and!; [vm_compute; reflexivity..]).
  destruct H as (m' & s' & H & Hp & Hb & Hq & Hs & Hn & Hf). exists m', s'. split; [exact H|]. split; [exact Hp|].
  destruct (expired_market_covered pooled_market limited_market 150 m' s' H) as (_ & _ & _ & pnl & fee & Hn' & Hf' & Hc).
  rewrite Hn in Hn'. rewrite Hf in Hf'. injection Hn' as <-. injection Hf' as <-. rewrite Hp, Hb, Hq, Hs in Hc.
  change PRICE_TIMES_AMM_TO_QUOTE_PRECISION_RATIO with 1000000000 in Hc. lia.
Defined.
