(* ===== verification/DriftFunding.v ===== *)
(** Funding of perpetual markets: [math/funding.rs] and [controller/funding.rs],
    with [get_max_price_divergence_for_funding_rate] of [state/perp_market.rs].

    Once a period the market takes the spread between its own and the oracle's
    average price as the funding rate and adds it to the cumulative rates of longs
    and shorts; positions settle the difference to their last rate when they are
    next touched.  The theorems: settling moves quote between the position and the
    market's unsettled funding and nothing else, and settles once; the protocol
    never pays more than a third of its free fees in a period, and what the
    receivers are promised is covered by the payers and that third; a period's
    rate is bounded by the divergence of its tier and is taken once. *)
From stdpp Require Import gmap.
From S2P Require Import Prelude.
From S2P Require Import RecordUpdate.
From S2P Require Import DriftError.
From S2P Require Import DriftMath.
From S2P Require Import DriftSpotMarket.
From S2P Require Import DriftTypes.
From S2P Require Import DriftOracle.
From S2P Require Import DriftAmm.
From S2P Require Import DriftSpread.
From S2P Require Import DriftPosition.
From S2P Require Import DriftUser.
From S2P Require Import DriftCurve.

(** ** math/funding.rs *)

(** Longs pay when the rate grows. *)
Definition _calculate_funding_payment (funding_rate_delta base_asset_amount : Z) : DriftResult Z :=
  let! x := safe_u 192 (Z.abs funding_rate_delta * Z.abs base_asset_amount) in
  let! x := safe_udiv x PRICE_PRECISION in
  let! x := safe_udiv x FUNDING_RATE_BUFFER in
  let! x := try_to_u 128 x in
  let! magnitude := cast_i 128 x in
  let! y := safe_i 128 (magnitude * (if 0 <? base_asset_amount then -1 else 1)) in
  safe_i 128 (y * (if 0 <? funding_rate_delta then 1 else -1)).

Definition calculate_funding_payment_in_quote_precision (funding_rate_delta base_asset_amount : Z) : DriftResult Z :=
  let! p := _calculate_funding_payment funding_rate_delta base_asset_amount in
  safe_idiv 128 p AMM_TO_QUOTE_PRECISION_RATIO.

Definition calculate_funding_payment (amm_cumulative_funding_rate : Z) (p : PerpPosition) : DriftResult Z :=
  let! funding_rate_delta := safe_i 128 (amm_cumulative_funding_rate - pp_last_cumulative_funding_rate p) in
  if funding_rate_delta =? 0 then Ok 0
  else
    let! x := _calculate_funding_payment funding_rate_delta (pp_base_asset_amount p) in
    let! x := safe_idiv 128 x AMM_TO_QUOTE_PRECISION_RATIO_I128 in
    cast_i 64 x.

Definition calculate_funding_rate_from_pnl_limit (pnl_limit base_asset_amount : Z) : DriftResult Z :=
  if base_asset_amount =? 0 then Ok 0
  else
    let! pnl_limit_biased := if pnl_limit <? 0 then safe_i 128 (pnl_limit + 1) else Ok pnl_limit in
    let! x := safe_i 128 (pnl_limit_biased * QUOTE_TO_BASE_AMT_FUNDING_PRECISION) in
    safe_idiv 128 x base_asset_amount.

(** The side that pays at a rate, and the side that receives. *)
Definition paying_side (a : AMM) (funding_rate : Z) : Z :=
  if 0 <? funding_rate then base_asset_amount_long a else base_asset_amount_short a.
Definition receiving_side (a : AMM) (funding_rate : Z) : Z :=
  if funding_rate <? 0 then base_asset_amount_long a else base_asset_amount_short a.

(** The receivers' rate, and what the protocol pays: at most a third of the fee
    pool on top of what the payers pay. *)
Definition calculate_capped_funding_rate (m : PerpMarket) (uncapped_funding_pnl funding_rate : Z) :
    DriftResult (Z * Z) :=
  let! pool := calculate_fee_pool m in
  let! pool := cast_i 128 pool in
  let! third := safe_idiv 128 pool 3 in
  let! limit := ichk 128 (- third) in
  let! rate :=
    if uncapped_funding_pnl <? limit then
      let! from_users :=
        calculate_funding_payment_in_quote_precision funding_rate (paying_side (amm m) funding_rate) in
      let! magnitude := ichk 128 (Z.abs from_users) in
      let! limit := safe_i 128 (limit - magnitude) in
      calculate_funding_rate_from_pnl_limit limit (receiving_side (amm m) funding_rate)
    else Ok funding_rate in
  Ok (rate, Z.max uncapped_funding_pnl limit).

(** The rates of longs and shorts, and what the net position of the users pays the
    protocol, uncapped. *)
Definition calculate_funding_rate_long_short (m : PerpMarket) (funding_rate : Z) :
    DriftResult (PerpMarket * (Z * Z * Z)) :=
  let a := amm m in
  let! payment := calculate_funding_payment_in_quote_precision funding_rate (base_asset_amount_with_amm a) in
  let! uncapped_funding_pnl := ichk 128 (- payment) in
  if 0 <=? uncapped_funding_pnl then
    let! total := safe_i 128 (total_fee_minus_distributions a + uncapped_funding_pnl) in
    let! n := safe_i 64 (net_revenue_since_last_funding a + iwrap 64 uncapped_funding_pnl) in
    Ok (m <| amm ; total_fee_minus_distributions := total |> <| amm ; net_revenue_since_last_funding := n |>,
        (funding_rate, funding_rate, uncapped_funding_pnl))
  else
    let! '(capped_funding_rate, capped_funding_pnl) := calculate_capped_funding_rate m uncapped_funding_pnl funding_rate in
    let! total := safe_i 128 (total_fee_minus_distributions a + capped_funding_pnl) in
    let! _ :=
      if capped_funding_pnl =? 0 then Ok tt
      else
        let! b := get_total_fee_lower_bound m in
        let! lower_bound := cast_i 128 b in
        require (negb (total <? lower_bound)) InvalidFundingProfitability in
    let! n := safe_i 64 (net_revenue_since_last_funding a - iwrap 64 (Z.abs capped_funding_pnl)) in
    Ok (m <| amm ; total_fee_minus_distributions := total |> <| amm ; net_revenue_since_last_funding := n |>,
        (if funding_rate <? 0 then capped_funding_rate else funding_rate,
         if 0 <? funding_rate then capped_funding_rate else funding_rate, uncapped_funding_pnl)).

(** ** Settlement *)

Definition cumulative_funding_rate (a : AMM) (base_asset_amount : Z) : Z :=
  if 0 <? base_asset_amount then cumulative_funding_rate_long a else cumulative_funding_rate_short a.

(** The body both settlements share: a position that is not flat. *)
Definition settle_position_funding (u : User) (i : nat) (p : PerpPosition) (m : PerpMarket) :
    DriftResult (User * PerpMarket) :=
  let rate := cumulative_funding_rate (amm m) (pp_base_asset_amount p) in
  if rate =? pp_last_cumulative_funding_rate p then Ok (u, m)
  else
    let! payment := calculate_funding_payment rate p in
    let! u := update_cumulative_perp_funding u payment in
    let! r := cast_i 64 rate in
    let! '(p, m) :=
      update_quote_asset_and_break_even_amount (p <| pp_last_cumulative_funding_rate := r |>) m payment in
    let! n := safe_i 64 (net_unsettled_funding_pnl (amm m) - payment) in
    let! l := set_idx (u_perp_positions u) (Z.of_nat i) p in
    Ok (u <| u_perp_positions := l |>, m <| amm ; net_unsettled_funding_pnl := n |>).

Definition settle_funding_payment (u : User) (m : PerpMarket) : DriftResult (User * PerpMarket) :=
  match get_position_index (u_perp_positions u) (pm_market_index m) with
  | Ok i =>
      let! p := idx (u_perp_positions u) (Z.of_nat i) in
      if pp_base_asset_amount p =? 0 then Ok (u, m) else settle_position_funding u i p m
  | Err _ => Ok (u, m)
  | Panic => Panic
  end.

(** Every position from [i] on; the markets by their index. *)
Fixpoint settle_positions (n : nat) (i : nat) (u : User) (ms : gmap Z PerpMarket) :
    DriftResult (User * gmap Z PerpMarket) :=
  match n with
  | O => Ok (u, ms)
  | S n =>
      let! p := idx (u_perp_positions u) (Z.of_nat i) in
      let! '(u, ms) :=
        if pp_base_asset_amount p =? 0 then Ok (u, ms)
        else
          let! m := ok_or (ms !! pp_market_index p) PerpMarketNotFound in
          let! '(u, m) := settle_position_funding u i p m in
          Ok (u, <[pp_market_index p := m]> ms) in
      settle_positions n (S i) u ms
  end.
Definition settle_funding_payments (u : User) (ms : gmap Z PerpMarket) : DriftResult (User * gmap Z PerpMarket) :=
  settle_positions (length (u_perp_positions u)) 0 u ms.

(** ** The rate *)

Definition get_max_price_divergence_for_funding_rate (m : PerpMarket) (oracle_price_twap : Z) : DriftResult Z :=
  safe_idiv 64 oracle_price_twap
    (if is_as_safe_as_contract (contract_tier m) TierB then 33
     else if is_as_safe_as_contract (contract_tier m) TierC then 20 else 10).

Section Update.
Context {roots : Roots}.

(** The price a trade would get now, on the side with the wider spread. *)
Definition execution_premium (a : AMM) (reserve_price : Z) : DriftResult (Z * option PositionDirection) :=
  if short_spread a <? long_spread a then let! p := ask_price a reserve_price in Ok (p, Some Long)
  else if long_spread a <? short_spread a then let! p := bid_price a reserve_price in Ok (p, Some Short)
  else Ok (reserve_price, None).

(** The rate of the period from the two averages. *)
Definition period_funding_rate (m : PerpMarket) (mid_price_twap oracle_price_twap : Z) : DriftResult Z :=
  let! d := safe_i 128 (24 * ONE_HOUR) in
  let! period_adjustment := safe_idiv 128 d (Z.max ONE_HOUR (funding_period (amm m))) in
  let! t := cast_i 64 mid_price_twap in
  let! price_spread := safe_i 64 (t - oracle_price_twap) in
  let! o := ichk 64 (Z.abs oracle_price_twap) in
  let! o := safe_idiv 64 o FUNDING_RATE_OFFSET_DENOMINATOR in
  let! price_spread_with_offset := safe_i 64 (price_spread + o) in
  let! max_price_spread := get_max_price_divergence_for_funding_rate m oracle_price_twap in
  let! lo := ichk 64 (- max_price_spread) in
  let! clamped_price_spread := clamp lo max_price_spread price_spread_with_offset in
  let! x := safe_i 128 (clamped_price_spread * FUNDING_RATE_BUFFER) in
  let! x := safe_idiv 128 x period_adjustment in
  cast_i 64 x.

(** The rate is added to the cumulative rates, and the protocol's part to its
    books. *)
Definition apply_funding_rate (m : PerpMarket) (funding_rate oracle_price_twap now : Z) : DriftResult PerpMarket :=
  let! '(m, (rate_long, rate_short, revenue)) := calculate_funding_rate_long_short m funding_rate in
  let! m :=
    if 0 <? curve_update_intensity (amm m) then
      let! cost := ichk 128 (- revenue) in formulaic_update_k m cost
    else Ok m in
  let a := amm m in
  let! l := safe_i 128 (cumulative_funding_rate_long a + rate_long) in
  let! s := safe_i 128 (cumulative_funding_rate_short a + rate_short) in
  let! last_long := cast_i 64 rate_long in
  let! last_short := cast_i 64 rate_short in
  let! avg := calculate_new_twap funding_rate now (last_24h_avg_funding_rate a) (last_funding_rate_ts a) TWENTY_FOUR_HOUR in
  let! r := cast_i 64 revenue in
  let! n := safe_i 64 (net_unsettled_funding_pnl a - r) in
  let a := a <| cumulative_funding_rate_long := l |> <| cumulative_funding_rate_short := s |>
             <| last_funding_rate := funding_rate |> <| last_funding_oracle_twap := oracle_price_twap |>
             <| last_funding_rate_long := last_long |> <| last_funding_rate_short := last_short |>
             <| last_24h_avg_funding_rate := avg |> <| net_unsettled_funding_pnl := n |>
             <| last_funding_rate_ts := now |> <| net_revenue_since_last_funding := 0 |> in
  let id := next_funding_rate_record_id m in
  Ok (m <| amm := a |> <| next_funding_rate_record_id := if uok 64 (id + 1) then id + 1 else 1 |>).

Definition update_funding_rate (m : PerpMarket) (d : OraclePriceData) (now slot : Z) (g : OracleGuardRails)
    (funding_paused : bool) (precomputed_reserve_price : option Z) : DriftResult (PerpMarket * bool) :=
  let! r := match precomputed_reserve_price with Some r => Ok r | None => reserve_price (amm m) end in
  let! blocked := block_operation m d g r slot in
  let! time_until_next_update := on_the_hour_update now (last_funding_rate_ts (amm m)) (funding_period (amm m)) in
  if negb funding_paused && negb blocked && (time_until_next_update =? 0) then
    let! o := get_mm_oracle_price_data m d slot (validity g) in
    let! '(a, oracle_price_twap) := update_oracle_price_twap (amm m) now o (Some r) (perp_sanitize_clamp_denominator m) in
    let m := m <| amm := a |> in
    let! '(premium, direction) := execution_premium (amm m) r in
    let! '(a, mid_price_twap) :=
      update_mark_twap_from_estimates (amm m) now (Some premium) direction (perp_sanitize_clamp_denominator m) in
    let m := m <| amm := a |> in
    let! funding_rate := period_funding_rate m mid_price_twap oracle_price_twap in
    let! m := apply_funding_rate m funding_rate oracle_price_twap now in
    Ok (m, true)
  else Ok (m, false).

End Update.

(** ** What settling does *)

Lemma quot_parts a b k : 0 < k ->
  Z.abs a * Z.abs b ÷ k * (if 0 <? b then -1 else 1) * (if 0 <? a then 1 else -1) = - (a * b ÷ k).
Proof.
  intros Hk. destruct (Z.ltb_spec 0 a), (Z.ltb_spec 0 b);
    rewrite ?(Z.abs_eq a), ?(Z.abs_neq a), ?(Z.abs_eq b), ?(Z.abs_neq b) by lia;
    rewrite ?Z.mul_opp_r, ?Z.mul_opp_l, ?Z.opp_involutive, ?Z.quot_opp_l by lia; lia.
Qed.

(** The payment is the change of the rate times the base amount, to the cent. *)
Lemma payment_Ok delta b p :
  calculate_funding_payment_in_quote_precision delta b = Ok p -> p = - (delta * b ÷ QUOTE_TO_BASE_AMT_FUNDING_PRECISION).
Proof.
  intros H. unfold calculate_funding_payment_in_quote_precision, _calculate_funding_payment in H.
  apply obind_Ok in H as (q & H & Hp). apply obind_Ok in H as (x & [-> _]%safe_u_Ok & H).
  apply obind_Ok in H as (y & [_ ->]%safe_udiv_Ok & H). apply obind_Ok in H as (z & [_ ->]%safe_udiv_Ok & H).
  apply obind_Ok in H as (w & [-> _]%try_to_u_Ok & H). apply obind_Ok in H as (v & [-> _]%cast_i_Ok & H).
  apply obind_Ok in H as (s & [-> _]%safe_i_Ok & [-> _]%safe_i_Ok). apply safe_idiv_Ok in Hp as (_ & -> & _).
  rewrite Z.div_div, <- Z.quot_div_nonneg by (rewrite ?Z.abs_mul; nia || done).
  rewrite quot_parts by done. rewrite Z.quot_opp_l by done. f_equal. by rewrite Z.quot_quot by done.
Qed.
Lemma calculate_funding_payment_Ok rate p x :
  calculate_funding_payment rate p = Ok x ->
  x = - ((rate - pp_last_cumulative_funding_rate p) * pp_base_asset_amount p ÷ QUOTE_TO_BASE_AMT_FUNDING_PRECISION).
Proof.
  intros H. unfold calculate_funding_payment in H. apply obind_Ok in H as (d & [-> _]%safe_i_Ok & H).
  destruct (Z.eqb_spec (rate - pp_last_cumulative_funding_rate p) 0) as [->|]; [by injection H as <-|].
  apply obind_Ok in H as (y & H1 & H). apply obind_Ok in H as (z & H2 & [-> _]%cast_i_Ok).
  apply payment_Ok. unfold calculate_funding_payment_in_quote_precision. rewrite H1. exact H2.
Qed.

(** Paying a position keeps its base and its last rate, and the market's rates. *)
Record paid (delta : Z) (p p' : PerpPosition) (m m' : PerpMarket) : Prop := {
  pd_quote : pp_quote_asset_amount p' = pp_quote_asset_amount p + delta;
  pd_base : pp_base_asset_amount p' = pp_base_asset_amount p;
  pd_rate : pp_last_cumulative_funding_rate p' = pp_last_cumulative_funding_rate p;
  pd_market : pp_market_index p' = pp_market_index p;
  pd_total : amm_quote_asset_amount (amm m') = amm_quote_asset_amount (amm m) + delta;
  pd_unsettled : net_unsettled_funding_pnl (amm m') = net_unsettled_funding_pnl (amm m);
  pd_long : cumulative_funding_rate_long (amm m') = cumulative_funding_rate_long (amm m);
  pd_short : cumulative_funding_rate_short (amm m') = cumulative_funding_rate_short (amm m);
  pd_index : pm_market_index m' = pm_market_index m;
}.

Lemma paid_trans d e p p1 p2 m m1 m2 : paid d p p1 m m1 -> paid e p1 p2 m1 m2 ->
  pp_quote_asset_amount p2 = pp_quote_asset_amount p1 -> amm_quote_asset_amount (amm m2) = amm_quote_asset_amount (amm m1) ->
  paid d p p2 m m2.
Proof. intros [] [] ? ?. constructor; congruence. Qed.

Lemma quote_paid p m d p' m' : update_quote_asset_amount p m d = Ok (p', m') -> paid d p p' m m'.
Proof.
  intros H. unfold update_quote_asset_amount in H.
  destruct (Z.eqb_spec d 0) as [->|]; [injection H as <- <-; constructor; lia|].
  apply obind_Ok in H as (m1 & H1 & H). apply obind_Ok in H as (q & [-> _]%safe_i_Ok & H).
  apply obind_Ok in H as (x & [-> _]%safe_i_Ok & H). cbv zeta in H.
  assert (Hm : amm m1 = amm m /\ pm_market_index m1 = pm_market_index m).
  { destruct (_ && _) in H1; [apply obind_Ok in H1 as (nu & _ & [= <-])|injection H1 as <-]; done. }
  destruct Hm as [Ha Hi].
  match type of H with (if ?c then _ else _) = _ => destruct c end; injection H as <- <-;
    (constructor; cbn; [lia|done|done|done|by rewrite Ha|by rewrite Ha..|done]).
Qed.
Lemma break_even_paid p m d p' m' : update_quote_break_even_amount p m d = Ok (p', m') ->
  paid 0 p p' m m'.
Proof.
  intros H. unfold update_quote_break_even_amount in H.
  destruct (_ || _) in H; [injection H as <- <-; constructor; lia|].
  apply obind_Ok in H as (k & _ & H). cbv zeta in H. destruct (get_direction _) in H;
    apply obind_Ok in H as (x & _ & [= <- <-]); constructor; cbn; lia.
Qed.
Lemma fees_paid p m d p' m' : update_quote_asset_and_break_even_amount p m d = Ok (p', m') -> paid d p p' m m'.
Proof.
  intros H. unfold update_quote_asset_and_break_even_amount in H. apply obind_Ok in H as ([p1 m1] & H1%quote_paid & H2%break_even_paid).
  apply (paid_trans _ 0 _ p1 _ _ m1); [done..| |]; destruct H2; lia.
Qed.

(** What settling leaves behind. *)
Record settled (u : User) (i : nat) (p : PerpPosition) (m : PerpMarket) (u' : User) (p' : PerpPosition) (m' : PerpMarket) : Prop := {
  st_user : u' = u <| u_cumulative_perp_funding := u_cumulative_perp_funding u' |> <| u_perp_positions := <[i := p']> (u_perp_positions u) |>;
  st_quote : pp_quote_asset_amount p' - pp_quote_asset_amount p
             = - ((cumulative_funding_rate (amm m) (pp_base_asset_amount p) - pp_last_cumulative_funding_rate p)
                  * pp_base_asset_amount p ÷ QUOTE_TO_BASE_AMT_FUNDING_PRECISION);
  st_funding : u_cumulative_perp_funding u' - u_cumulative_perp_funding u = pp_quote_asset_amount p' - pp_quote_asset_amount p;
  st_base : pp_base_asset_amount p' = pp_base_asset_amount p;
  st_rate : pp_last_cumulative_funding_rate p' = cumulative_funding_rate (amm m) (pp_base_asset_amount p);
  st_market : pp_market_index p' = pp_market_index p;
  st_total : amm_quote_asset_amount (amm m') + net_unsettled_funding_pnl (amm m')
             = amm_quote_asset_amount (amm m) + net_unsettled_funding_pnl (amm m);
  st_paid : amm_quote_asset_amount (amm m') - amm_quote_asset_amount (amm m) = pp_quote_asset_amount p' - pp_quote_asset_amount p;
  st_rates : cumulative_funding_rate (amm m') = cumulative_funding_rate (amm m);
  st_index : pm_market_index m' = pm_market_index m;
}.

Lemma settle_position_settled u i p m u' m' :
  u_perp_positions u !! i = Some p ->
  settle_position_funding u i p m = Ok (u', m') -> exists p', settled u i p m u' p' m'.
Proof.
  intros Hi H. unfold settle_position_funding in H. cbv zeta in H.
  destruct (Z.eqb_spec (cumulative_funding_rate (amm m) (pp_base_asset_amount p)) (pp_last_cumulative_funding_rate p)) as [Heq|_].
  { injection H as <- <-. exists p. constructor; rewrite ?Heq, ?Z.sub_diag; try done. by destruct u; cbn; rewrite list_insert_id. }
  apply obind_Ok in H as (x & Hx%calculate_funding_payment_Ok & H). apply obind_Ok in H as (u1 & Hu & H).
  unfold update_cumulative_perp_funding in Hu. apply obind_Ok in Hu as (c & [-> _]%safe_i_Ok & [= <-]).
  apply obind_Ok in H as (r & [-> _]%cast_i_Ok & H). apply obind_Ok in H as ([p1 m1] & H1%fees_paid & H).
  apply obind_Ok in H as (n & [-> _]%safe_i_Ok & H). apply obind_Ok in H as (l & Hl & [= <- <-]).
  apply set_idx_Ok in Hl as [_ ->]. rewrite Nat2Z.id. destruct H1. exists p1. cbn in *.
  constructor; cbn; [reflexivity|lia|lia|done|congruence|congruence|lia|lia| |congruence].
  unfold cumulative_funding_rate. cbn. by rewrite pd_long0, pd_short0.
Qed.

Lemma get_position_Ok l i n : get_position_index l i = Ok n ->
  exists p, l !! n = Some p /\ is_for p i = true /\ forall j q, l !! j = Some q -> (j < n)%nat -> is_for q i <> true.
Proof.
  intros H. unfold get_position_index, position_of in H.
  destruct (list_find _ l) as [[j p]|] eqn:Hf; [|done]. injection H as <-.
  apply list_find_Some in Hf as (Hj & Hp & Hn). by exists p.
Qed.
Lemma position_kept l i n p p' : l !! n = Some p -> is_for p' i = true ->
  get_position_index l i = Ok n -> get_position_index (<[n := p']> l) i = Ok n.
Proof.
  intros Hn Hp' (q & Hq & _ & Hl)%get_position_Ok. unfold get_position_index, position_of.
  assert (list_find (fun a => is_for a i = true) (<[n := p']> l) = Some (n, p')) as ->; [|done].
  apply list_find_Some. split_and!; [apply list_lookup_insert_eq; by eapply lookup_lt_Some|done|].
  intros j y Hj Hlt. rewrite list_lookup_insert_ne in Hj by lia. by apply (Hl j).
Qed.
Lemma open_is_for p i : pp_base_asset_amount p <> 0 -> pp_market_index p = i -> is_for p i = true.
Proof.
  intros Hb <-. unfold is_for, is_available, is_open_position. rewrite Z.eqb_refl.
  by destruct (Z.eqb_spec (pp_base_asset_amount p) 0).
Qed.
Lemma is_for_index p i : is_for p i = true -> pp_market_index p = i.
Proof. unfold is_for. by intros [->%Z.eqb_eq _]%andb_prop. Qed.

(** C23: Funding is settled exactly and once: settling a user in a market changes
    nothing but the user's position there and running total, the quote it adds to
    the position is the change of the cumulative rate since the position's last
    settlement times its base - paid by longs when the rate grew, and by shorts
    when it fell -, the market's unsettled funding takes the other side to the
    unit, the base is untouched, and settling again does nothing. *)
Theorem funding_settled_once u m u' m' :
  settle_funding_payment u m = Ok (u', m') ->
  amm_quote_asset_amount (amm m') + net_unsettled_funding_pnl (amm m')
    = amm_quote_asset_amount (amm m) + net_unsettled_funding_pnl (amm m)
  /\ settle_funding_payment u' m' = Ok (u', m')
  /\ ((u', m') = (u, m) \/ exists i p p',
        u_perp_positions u !! i = Some p /\ pp_market_index p = pm_market_index m
        /\ u' = u <| u_cumulative_perp_funding := u_cumulative_perp_funding u' |>
                  <| u_perp_positions := <[i := p']> (u_perp_positions u) |>
        /\ pp_base_asset_amount p' = pp_base_asset_amount p
        /\ pp_last_cumulative_funding_rate p' = cumulative_funding_rate (amm m) (pp_base_asset_amount p)
        /\ pp_quote_asset_amount p' = pp_quote_asset_amount p
             - (cumulative_funding_rate (amm m) (pp_base_asset_amount p) - pp_last_cumulative_funding_rate p)
               * pp_base_asset_amount p ÷ QUOTE_TO_BASE_AMT_FUNDING_PRECISION
        /\ u_cumulative_perp_funding u' - u_cumulative_perp_funding u = pp_quote_asset_amount p' - pp_quote_asset_amount p
        /\ amm_quote_asset_amount (amm m') - amm_quote_asset_amount (amm m)
           = pp_quote_asset_amount p' - pp_quote_asset_amount p).
Proof.
  intros H. pose proof H as Hs. unfold settle_funding_payment in Hs.
  destruct (get_position_index _ _) as [i| |] eqn:Hi; [|injection Hs as <- <-; auto|done].
  apply obind_Ok in Hs as (p & [_ Hp]%idx_Ok & Hs). rewrite Nat2Z.id in Hp.
  destruct (Z.eqb_spec (pp_base_asset_amount p) 0) as [|Hb]; [injection Hs as <- <-; auto|].
  apply settle_position_settled in Hs as (p' & [Hu Hq Hf Hbase Hr Hm Ht Hd Hrs Hx]); [|done].
  destruct (get_position_Ok _ _ _ Hi) as (q & Hq' & Hpm%is_for_index & _). assert (q = p) as -> by congruence.
  split; [done|]. split; [|right; exists i, p, p'; split_and!; (done || lia)].
  assert (Hl : u_perp_positions u' = <[i := p']> (u_perp_positions u)) by (by rewrite Hu).
  unfold settle_funding_payment. rewrite Hl, Hx, (position_kept _ _ _ p) by (done || (apply open_is_for; congruence)).
  unfold idx. rewrite (proj2 (Z.ltb_ge _ _) (Nat2Z.is_nonneg i)), Nat2Z.id, list_lookup_insert_eq by (by eapply lookup_lt_Some).
  cbn. rewrite Hbase, (proj2 (Z.eqb_neq _ _) Hb). unfold settle_position_funding. by rewrite Hbase, Hrs, Hr, Z.eqb_refl.
Qed.

(** ** What the protocol pays *)

#[local] Notation UNIT := QUOTE_TO_BASE_AMT_FUNDING_PRECISION.

Lemma quot_gt a k : 0 < k -> - k < a - (a ÷ k) * k < k.
Proof. intros Hk. pose proof (Z.quot_rem a k ltac:(lia)). pose proof (Z.rem_bound_abs a k ltac:(lia)). lia. Qed.

Lemma quot_mul_neg x b : b <> 0 -> x <= 0 -> x <= (x ÷ b) * b <= 0.
Proof.
  intros Hb Hx. assert (Hp : forall c, 0 < c -> x <= (x ÷ c) * c <= 0).
  { intros c Hc. rewrite <- (Z.opp_involutive x), Z.quot_opp_l, Z.quot_div_nonneg by lia.
    pose proof (Z.mul_div_le (- x) c Hc). pose proof (Z.div_pos (- x) c). set (q := - x / c) in *. nia. }
  destruct (Z.lt_ge_cases 0 b) as [|Hn]; [by apply Hp|].
  rewrite <- (Z.opp_involutive b), Z.quot_opp_r by lia. specialize (Hp (- b) ltac:(lia)). lia.
Qed.

Lemma quot_mul_abs x b : b <> 0 -> Z.abs (x ÷ b * b) <= Z.abs x.
Proof.
  intros Hb. destruct (Z.le_ge_cases x 0); [pose proof (quot_mul_neg x b Hb); lia|].
  pose proof (quot_mul_neg (- x) b Hb ltac:(lia)) as Hq. rewrite Z.quot_opp_l in Hq by done. lia.
Qed.

Lemma fee_pool_nonneg m p : calculate_fee_pool m = Ok p -> 0 <= p.
Proof.
  intros H. unfold calculate_fee_pool in H. apply obind_Ok in H as (r & _ & H).
  match type of H with (if ?c then _ else _) = _ => destruct c end; [|injection H as <-; lia].
  apply obind_Ok in H as (x & _ & [-> Hx]%cast_u_Ok). range.
Qed.

(** The rate a limit on the result allows a side. *)
Lemma limit_rate_Ok limit base r :
  calculate_funding_rate_from_pnl_limit limit base = Ok r -> limit <= 0 ->
  Z.abs (r * base) <= - limit * UNIT /\ r * base <= 0.
Proof.
  intros H Hl. unfold calculate_funding_rate_from_pnl_limit in H. assert (HU : UNIT = 1000000000000) by done.
  destruct (Z.eqb_spec base 0) as [->|Hb]; [injection H as <-; lia|].
  apply obind_Ok in H as (l & Hx & H). apply obind_Ok in H as (x & [-> _]%safe_i_Ok & (_ & -> & _)%safe_idiv_Ok).
  assert (limit <= l <= 0) as Hlim.
  { destruct (Z.ltb_spec limit 0); [apply safe_i_Ok in Hx as [-> _]|injection Hx as <-]; lia. }
  pose proof (quot_mul_neg (l * UNIT) base Hb ltac:(lia)). lia.
Qed.

(** What a pair of rates leaves the users with. *)
Definition users_receive (a : AMM) (rate_long rate_short : Z) : Z :=
  - (rate_long * base_asset_amount_long a + rate_short * base_asset_amount_short a).

Lemma capped_rate_Ok m pnl rate c paid :
  calculate_capped_funding_rate m pnl rate = Ok (c, paid) ->
  0 <= base_asset_amount_long (amm m) -> base_asset_amount_short (amm m) <= 0 ->
  base_asset_amount_with_amm (amm m) = base_asset_amount_long (amm m) + base_asset_amount_short (amm m) ->
  pnl = rate * base_asset_amount_with_amm (amm m) ÷ UNIT -> pnl < 0 ->
  exists pool, calculate_fee_pool m = Ok pool /\ paid = Z.max pnl (- (pool / 3))
    /\ users_receive (amm m) (if rate <? 0 then c else rate) (if 0 <? rate then c else rate) <= (pool / 3 + 1) * UNIT.
Proof.
  intros H Hlong Hshort Hnet Hpnl Hneg. unfold calculate_capped_funding_rate in H.
  apply obind_Ok in H as (pool & Hpool & H). pose proof (fee_pool_nonneg _ _ Hpool) as Hp. exists pool. split; [done|].
  apply obind_Ok in H as (x & [-> _]%cast_i_Ok & H). apply obind_Ok in H as (third & (_ & -> & _)%safe_idiv_Ok & H).
  rewrite Z.quot_div_nonneg in H by lia. assert (0 <= pool / 3) as Hthird by (apply Z.div_pos; lia).
  apply obind_Ok in H as (limit & [-> _]%ichk_Ok & H). apply obind_Ok in H as (r & Hr & [= <- <-]). split; [done|].
  assert (Hr0 : rate <> 0) by (intros ->; rewrite Z.mul_0_l, Z.quot_0_l in Hpnl by done; lia).
  unfold users_receive. pose proof (quot_gt (rate * base_asset_amount_with_amm (amm m)) UNIT ltac:(done)) as Hq.
  rewrite <- Hpnl, Hnet in Hq. set (third := pool / 3) in *. clearbody third.
  assert (HU : UNIT = 1000000000000) by done.
  destruct (Z.ltb_spec pnl (- third)).
  - apply obind_Ok in Hr as (f & ->%payment_Ok & Hr). apply obind_Ok in Hr as (g & [-> _]%ichk_Ok & Hr).
    apply obind_Ok in Hr as (l & [-> _]%safe_i_Ok & Hr).
    pose proof (quot_gt (rate * paying_side (amm m) rate) UNIT ltac:(done)) as Hpay.
    assert (Hc := limit_rate_Ok _ _ _ Hr). unfold paying_side, receiving_side in *.
    destruct (Z.ltb_spec rate 0), (Z.ltb_spec 0 rate); lia.
  - injection Hr as <-. destruct (rate <? 0), (0 <? rate); lia.
Qed.

(** C22: A period's funding never costs the protocol more than a third of the fees
    it has to spare: the side that pays pays the rate in full; when the users' net
    position pays the protocol, the protocol's fees grow by just that; when it is
    the protocol that pays, it pays the smaller of what is owed and a third of the
    fee pool, its fees stay above the lower bound, and the receivers' rate is
    lowered so that what all users receive is within that third - to one unit of
    quote. *)
Theorem protocol_funding_capped m rate m' rate_long rate_short revenue :
  calculate_funding_rate_long_short m rate = Ok (m', (rate_long, rate_short, revenue)) ->
  0 <= base_asset_amount_long (amm m) -> base_asset_amount_short (amm m) <= 0 ->
  base_asset_amount_with_amm (amm m) = base_asset_amount_long (amm m) + base_asset_amount_short (amm m) ->
  let fees := total_fee_minus_distributions (amm m) in
  let fees' := total_fee_minus_distributions (amm m') in
  (0 <= rate -> rate_long = rate) /\ (rate <= 0 -> rate_short = rate)
  /\ revenue = rate * base_asset_amount_with_amm (amm m) ÷ UNIT
  /\ (0 <= revenue -> rate_long = rate /\ rate_short = rate /\ fees' = fees + revenue)
  /\ (revenue < 0 -> exists pool, calculate_fee_pool m = Ok pool
        /\ fees' = fees - Z.min (- revenue) (pool / 3)
        /\ users_receive (amm m) rate_long rate_short <= (pool / 3 + 1) * UNIT
        /\ (fees' < fees -> exists bound, get_total_fee_lower_bound m = Ok bound /\ bound <= fees')).
Proof.
  intros H Hlong Hshort Hnet fees fees'. subst fees fees'. unfold calculate_funding_rate_long_short in H. cbv zeta in H.
  apply obind_Ok in H as (payment & ->%payment_Ok & H). apply obind_Ok in H as (pnl & [-> _]%ichk_Ok & H).
  rewrite Z.opp_involutive in H. set (pnl := rate * base_asset_amount_with_amm (amm m) ÷ UNIT) in *.
  destruct (Z.leb_spec 0 pnl).
  - apply obind_Ok in H as (total & [-> _]%safe_i_Ok & H). apply obind_Ok in H as (n & _ & [= <- <- <- <-]).
    cbn. split_and!; [done|done|done|done|lia].
  - apply obind_Ok in H as ([c paid] & Hc & H). apply obind_Ok in H as (total & [-> _]%safe_i_Ok & H).
    apply obind_Ok in H as (? & Hb & H). apply obind_Ok in H as (n & _ & [= <- <- <- <-]). cbn.
    destruct (capped_rate_Ok _ _ _ _ _ Hc) as (pool & Hpool & -> & Hu); try done.
    split_and!; [intros; by rewrite (proj2 (Z.ltb_ge _ _))|intros; by rewrite (proj2 (Z.ltb_ge _ _))|done|lia|].
    intros _. exists pool. split_and!; [done|lia|done|]. intros Hless.
    destruct (Z.eqb_spec (Z.max pnl (- (pool / 3))) 0) as [E|_]; [lia|].
    apply obind_Ok in Hb as (b & Hb & H). apply obind_Ok in H as (b' & [-> _]%cast_i_Ok & H).
    apply require_Ok, negb_true_iff, Z.ltb_ge in H. exists b. split; [done|lia].
Qed.

(** ** When and how much *)

(** A wait that is over has lasted two thirds of a period. *)
Lemma hour_update_wait now last period :
  on_the_hour_update now last period = Ok 0 -> 1 < period -> period - period / 3 <= now - last.
Proof.
  intros H Hp. unfold on_the_hour_update in H. apply obind_Ok in H as (t & [-> _]%safe_i_Ok & H).
  apply obind_Ok in H as (w & Hw & H). apply obind_Ok in H as (x & [-> _]%safe_i_Ok & [= Hx]).
  enough (period - period / 3 <= w) by lia. rewrite (proj2 (Z.ltb_lt _ _) Hp) in Hw.
  apply obind_Ok in Hw as (e & He & Hw). unfold rem_euclid in He. rewrite (proj2 (Z.eqb_neq _ _)) in He by lia.
  assert (Hb : 0 <= e < period) by (injection He as <-; rewrite Z.abs_eq by lia; apply Z.mod_pos_bound; lia).
  destruct (Z.eqb_spec e 0); cbn [negb] in Hw; [injection Hw as <-; pose proof (Z.div_pos period 3); lia|].
  apply obind_Ok in Hw as (k & (_ & -> & _)%safe_idiv_Ok & Hw). apply obind_Ok in Hw as (two & [-> _]%safe_i_Ok & Hw).
  rewrite Z.quot_div_nonneg in Hw by lia. pose proof (Z.mul_div_le period 3). pose proof (Z.div_pos period 3).
  apply obind_Ok in Hw as (v & Hv & Hw). assert (period - period / 3 <= v <= 2 * period) as [? ?].
  { destruct (Z.ltb_spec (period / 3) e); apply safe_i_Ok in Hv as [-> _]; lia. }
  rewrite (proj2 (Z.ltb_ge _ _)) in Hw by lia. by injection Hw as <-.
Qed.

Lemma clamp_Ok {E} lo hi x y : @clamp E lo hi x = Ok y -> lo <= y <= hi.
Proof. unfold clamp. destruct (Z.ltb_spec hi lo); [done|]. intros [= <-]. lia. Qed.

Section Taken.
Context {roots : Roots}.

Lemma mark_twap_funding m now e d c a t :
  update_mark_twap_from_estimates (amm m) now e d c = Ok (a, t) -> funding_terms (m <| amm := a |>) = funding_terms m.
Proof.
  intros H. unfold update_mark_twap_from_estimates in H. apply obind_Ok in H as ([bid ask] & _ & H).
  unfold update_mark_twap in H. do 9 (apply obind_Ok in H as (? & _ & H)).
  apply obind_Ok in H as ([lb la] & _ & H). do 6 (apply obind_Ok in H as (? & _ & H)).
  apply obind_Ok in H as (a1 & H1 & H). unfold update_amm_mark_std in H1.
  do 7 (apply obind_Ok in H1 as (? & _ & H1)). injection H1 as <-.
  do 7 (apply obind_Ok in H as (? & _ & H)). by injection H as <- _.
Qed.

Lemma formulaic_funding m cost m' : formulaic_update_k m cost = Ok m' -> funding_terms m' = funding_terms m.
Proof.
  intros H. unfold formulaic_update_k in H. destruct (has_market_config_flag _ _); [by injection H as <-|].
  do 3 (apply obind_Ok in H as (? & _ & H)). destruct (_ || _) in H; [|by injection H as <-].
  apply obind_Ok in H as ([n d] & _ & H). apply obind_Ok in H as (k & _ & H).
  apply obind_Ok in H as (r & _ & H). apply obind_Ok in H as (c & _ & H).
  apply obind_Ok in H as ([m1 b] & [Hc _]%apply_cost_frame & H).
  destruct b; [|injection H as <-; apply Hc]. apply obind_Ok in H as (m2 & H2 & [= <-]).
  apply update_k_Ok in H2 as (_ & _ & _ & _ & _ & Hf). transitivity (funding_terms m1); [apply Hf|apply Hc].
Qed.

Lemma long_short_funding m rate m' l s r :
  calculate_funding_rate_long_short m rate = Ok (m', (l, s, r)) -> funding_terms m' = funding_terms m.
Proof.
  intros H. unfold calculate_funding_rate_long_short in H. cbv zeta in H.
  apply obind_Ok in H as (payment & _ & H). apply obind_Ok in H as (pnl & _ & H).
  match type of H with (if ?c then _ else _) = _ => destruct c end.
  - apply obind_Ok in H as (total & _ & H). by apply obind_Ok in H as (n & _ & [= <- _ _ _]).
  - apply obind_Ok in H as ([c paid] & _ & H). apply obind_Ok in H as (total & _ & H).
    apply obind_Ok in H as (? & _ & H). by apply obind_Ok in H as (n & _ & [= <- _ _ _]).
Qed.

(** The rate is added to both cumulative rates, and the period is closed. *)
Lemma apply_rate_Ok m rate twap now m' :
  apply_funding_rate m rate twap now = Ok m' ->
  last_funding_rate (amm m') = rate /\ last_funding_oracle_twap (amm m') = twap
  /\ last_funding_rate_ts (amm m') = now /\ net_revenue_since_last_funding (amm m') = 0
  /\ cumulative_funding_rate_long (amm m') = cumulative_funding_rate_long (amm m) + last_funding_rate_long (amm m')
  /\ cumulative_funding_rate_short (amm m') = cumulative_funding_rate_short (amm m) + last_funding_rate_short (amm m')
  /\ exists m1 revenue, calculate_funding_rate_long_short m rate
       = Ok (m1, (last_funding_rate_long (amm m'), last_funding_rate_short (amm m'), revenue)).
Proof.
  intros H. unfold apply_funding_rate in H. apply obind_Ok in H as ([m1 [[l s] r]] & H1 & H).
  pose proof (long_short_funding _ _ _ _ _ _ H1) as Hf1. apply obind_Ok in H as (m2 & H2 & H).
  assert (funding_terms m2 = funding_terms m1) as Hf2.
  { destruct (0 <? _) in H2; [|by injection H2 as <-]. apply obind_Ok in H2 as (c & _ & H2). by eapply formulaic_funding. }
  cbv zeta in H. apply obind_Ok in H as (cl & [-> _]%safe_i_Ok & H). apply obind_Ok in H as (cs & [-> _]%safe_i_Ok & H).
  apply obind_Ok in H as (ll & [-> _]%cast_i_Ok & H). apply obind_Ok in H as (ls & [-> _]%cast_i_Ok & H).
  apply obind_Ok in H as (avg & _ & H). apply obind_Ok in H as (rr & _ & H). apply obind_Ok in H as (n & _ & [= <-]).
  rewrite Hf1 in Hf2. injection Hf2 as Hl Hs _. cbn. rewrite Hl, Hs. split_and!; try done. by exists m1, r.
Qed.

(** A period's rate is the clamped difference of the averages over the number of
    periods in a day. *)
Lemma period_rate_bounded m mid twap rate :
  period_funding_rate m mid twap = Ok rate ->
  exists most, get_max_price_divergence_for_funding_rate m twap = Ok most
    /\ Z.abs rate * (24 * ONE_HOUR ÷ Z.max ONE_HOUR (funding_period (amm m))) <= most * FUNDING_RATE_BUFFER.
Proof.
  intros H. unfold period_funding_rate in H. apply obind_Ok in H as (day & [-> _]%safe_i_Ok & H).
  apply obind_Ok in H as (n & (Hz & -> & _)%safe_idiv_Ok & H). do 5 (apply obind_Ok in H as (? & _ & H)).
  apply obind_Ok in H as (most & Hmost & H). apply obind_Ok in H as (lo & [-> _]%ichk_Ok & H).
  apply obind_Ok in H as (c & Hc%clamp_Ok & H). apply obind_Ok in H as (scaled & [-> _]%safe_i_Ok & H).
  apply obind_Ok in H as (y & (Hn & -> & _)%safe_idiv_Ok & [-> _]%cast_i_Ok). exists most. split; [done|].
  set (k := 24 * ONE_HOUR ÷ Z.max ONE_HOUR (funding_period (amm m))) in *.
  assert (0 <= k) as Hk by (apply Z.quot_pos; unfold ONE_HOUR; lia). clearbody k.
  change FUNDING_RATE_BUFFER with 1000. rewrite <- (Z.abs_eq k) at 2 by done. rewrite <- Z.abs_mul.
  change FUNDING_RATE_BUFFER with 1000 in *.
  pose proof (quot_mul_abs (c * 1000) k Hn). lia.
Qed.

End Taken.

(** Funding is taken once a period and bounded: an update that does nothing
    changes nothing; one that takes place was not paused, comes at least two thirds
    of a period after the last, adds the period's rates to both cumulative rates,
    closes the period - the time is noted and the revenue of the period reset, so
    that a second update is refused until the wait is over again -, and its rate,
    over the periods of a day, is at most the divergence the market's tier allows
    at the oracle's average price. *)
Theorem funding_taken_once {roots : Roots} m d now slot g paused pre m' b :
  update_funding_rate m d now slot g paused pre = Ok (m', b) ->
  (b = false -> m' = m)
  /\ (b = true -> paused = false
      /\ (1 < funding_period (amm m) -> funding_period (amm m) - funding_period (amm m) / 3 <= now - last_funding_rate_ts (amm m))
      /\ last_funding_rate_ts (amm m') = now /\ net_revenue_since_last_funding (amm m') = 0
      /\ cumulative_funding_rate_long (amm m') = cumulative_funding_rate_long (amm m) + last_funding_rate_long (amm m')
      /\ cumulative_funding_rate_short (amm m') = cumulative_funding_rate_short (amm m) + last_funding_rate_short (amm m')
      /\ exists most, get_max_price_divergence_for_funding_rate m (last_funding_oracle_twap (amm m')) = Ok most
         /\ Z.abs (last_funding_rate (amm m')) * (24 * ONE_HOUR ÷ Z.max ONE_HOUR (funding_period (amm m)))
            <= most * FUNDING_RATE_BUFFER).
Proof.
  intros H. unfold update_funding_rate in H. apply obind_Ok in H as (r & _ & H).
  apply obind_Ok in H as (blocked & _ & H). apply obind_Ok in H as (t & Ht & H).
  destruct (negb paused && negb blocked && (t =? 0)) eqn:Hgo; [|by injection H as <- <-].
  apply andb_prop in Hgo as [[Hp%negb_true_iff _]%andb_prop Hz%Z.eqb_eq]. subst t.
  apply obind_Ok in H as (o & _ & H). apply obind_Ok in H as ([a1 twap] & [Hf1 _]%oracle_twap_frame & H).
  apply obind_Ok in H as ([premium dir] & _ & H). apply obind_Ok in H as ([a2 mid] & Hf2%mark_twap_funding & H).
  apply obind_Ok in H as (rate & (most & Hmost & Hrate)%period_rate_bounded & H).
  apply obind_Ok in H as (m3 & (Hr & Htw & Hts & Hn & Hl & Hs & _)%apply_rate_Ok & [= <- <-]).
  apply sc_funding in Hf1. rewrite Hf1 in Hf2. injection Hf2 as HL HS HP. cbn in *. rewrite HL in Hl. rewrite HS in Hs. rewrite HP in Hrate.
  split; [done|]. intros _. split_and!; try done; [by apply hour_update_wait|].
  exists most. rewrite Htw, Hr. by split.
Qed.

(** ** Witnesses *)

(** The market of [DriftCurve] with its users long 15 and short 5, trading above
    its oracle. *)
Definition funding_market : PerpMarket :=
  curve_market <| amm ; base_asset_amount_long := 15000000000 |> <| amm ; base_asset_amount_short := -5000000000 |>
    <| amm ; cumulative_funding_rate_long := 3000000000 |> <| amm ; cumulative_funding_rate_short := 2000000000 |>
    <| amm ; funding_period := 3600 |> <| amm ; last_bid_price_twap := 102000000 |> <| amm ; last_ask_price_twap := 102200000 |>
    <| amm ; last_mark_price_twap := 102100000 |>.

(** Long 5 since the rate was at a dollar. *)
Definition funded_user : User :=
  default_User <| u_perp_positions :=
    [default_PerpPosition;
     default_PerpPosition <| pp_market_index := pm_market_index funding_market |> <| pp_base_asset_amount := 5000000000 |>
       <| pp_last_cumulative_funding_rate := 1000000000 |>] |>.

Lemma funding_settled_once_witness :
  exists u' m', settle_funding_payment funded_user funding_market = Ok (u', m')
    /\ u_cumulative_perp_funding u' = -10000000 /\ settle_funding_payment u' m' = Ok (u', m').
Proof.
  assert (H : exists u' m', settle_funding_payment funded_user funding_market = Ok (u', m')
    /\ u_cumulative_perp_funding u' = -10000000) by (eexists _, _; split; vm_compute; reflexivity).
  destruct H as (u' & m' & H & Hc). exists u', m'. split; [exact H|]. split; [exact Hc|].
  exact (proj1 (proj2 (funding_settled_once funded_user funding_market u' m' H))).
Defined.

(** Shorts pay two dollars; longs receive what the shorts pay and ten dollars of
    the thirty the protocol can spare. *)
Lemma protocol_funding_capped_witness :
  exists m', calculate_funding_rate_long_short funding_market (-2000000000)
    = Ok (m', (-1333333266, -2000000000, -20000000))
    /\ users_receive (amm funding_market) (-1333333266) (-2000000000) <= 10000001 * QUOTE_TO_BASE_AMT_FUNDING_PRECISION.
Proof.
  assert (H : exists m', calculate_funding_rate_long_short funding_market (-2000000000)
    = Ok (m', (-1333333266, -2000000000, -20000000))) by (eexists; vm_compute; reflexivity).
  destruct H as (m' & H). exists m'. split; [exact H|].
  destruct (protocol_funding_capped funding_market (-2000000000) m' (-1333333266) (-2000000000) (-20000000) H
    ltac:(vm_compute; discriminate) ltac:(vm_compute; discriminate) ltac:(vm_compute; reflexivity)) as (_ & _ & _ & _ & Hn).
  destruct (Hn ltac:(reflexivity)) as (pool & Hp & _ & Hu & _).
  assert (calculate_fee_pool funding_market = Ok 30000000) as Hp' by (vm_compute; reflexivity).
  rewrite Hp' in Hp. injection Hp as <-. exact Hu.
Defined.

Lemma funding_taken_once_witness :
  exists m', update_funding_rate funding_market (exchange_oracle_price_data curve_oracle) 3600 50 default_guard_rails false None
    = Ok (m', true) /\ last_funding_rate_ts (amm m') = 3600 /\ last_funding_rate (amm m') = -31920166.
Proof.
  assert (H : exists m', update_funding_rate funding_market (exchange_oracle_price_data curve_oracle) 3600 50
      default_guard_rails false None = Ok (m', true) /\ last_funding_rate (amm m') = -31920166)
    by (eexists; split; vm_compute; reflexivity).
  destruct H as (m' & H & Hr). exists m'. split; [exact H|].
  destruct (funding_taken_once funding_market (exchange_oracle_price_data curve_oracle) 3600 50 default_guard_rails false None
    m' true H) as [_ Ht]. split; [|exact Hr]. exact (proj1 (proj2 (proj2 (Ht eq_refl)))).
Defined.

(** When the receivers' rate is capped, the market's unsettled funding still takes
    the uncapped amount: after this update it holds 20 dollars that no settlement
    will ever pay more than 10 of. *)
Lemma capped_funding_left_unsettled :
  (let! m' := apply_funding_rate funding_market (-2000000000) 100000000 3600 in
   Ok (net_unsettled_funding_pnl (amm m'),
       users_receive (amm m') (last_funding_rate_long (amm m')) (last_funding_rate_short (amm m')) / UNIT))
  = Ok (20000000, 9999998).
Proof. vm_compute. reflexivity. Qed.
