(* ===== verification/DriftOracleMap.v ===== *)
(** The oracles and markets an instruction is given: [get_oracle_price] of
    [state/oracle.rs], the caches of [state/oracle_map.rs], and the look-ups of
    [state/perp_market_map.rs] and [state/spot_market_map.rs].

    An account is what each reader finds in its data, errors and panics of the
    providers' crates included.  A price that comes with a verdict is positive, and
    asking twice gives the same answer and leaves the map alone. *)
From stdpp Require Import gmap.
From S2P Require Import Prelude.
From S2P Require Import RecordUpdate.
From S2P Require Import DriftError.
From S2P Require Import DriftMath.
From S2P Require Import DriftSpotMarket.
From S2P Require Import DriftTypes.
From S2P Require Import DriftOracle.
From S2P Require Import DriftAmm.

(** ** Reading an account *)

(** An on-demand feed: the values of the latest submissions with the slots they
    landed in, their range, and the decimals the crate fixes. *)
Record OnDemandMessage := mkOnDemandMessage {
  od_submissions : list (Z * Z);
  od_range : option Z;
  od_precision : Z;
}.

Record OracleAccount := mkOracleAccount {
  oa_pyth : OracleSource -> DriftResult PythMessage;
  oa_switchboard : DriftResult SwitchboardRound;
  oa_on_demand : DriftResult OnDemandMessage;
  oa_prelaunch : DriftResult PrelaunchOracle;
}.

Definition convert_sb_i128 (precision x : Z) : DriftResult Z := convert_switchboard_decimal x precision.

(** No submission panics. *)
Definition get_sb_on_demand_price (m : OnDemandMessage) (clock_slot : Z) : DriftResult OraclePriceData :=
  match od_submissions m with
  | [] => Panic
  | (v, landed_at) :: l =>
      let! sum := foldO (fun s '(x, _) => ichk 128 (s + x)) 0 ((v, landed_at) :: l) in
      let! p := convert_sb_i128 (od_precision m) (Z.quot sum (Z.of_nat (S (length l)))) in
      let! p := cast_i 64 p in
      let! r := ok_or (od_range m) UnableToLoadOracle in
      let! c := convert_sb_i128 (od_precision m) r in
      let! c := cast_i 64 c in
      let! s := cast_i 64 clock_slot in
      let! t := cast_i 64 landed_at in
      let! d := safe_i 64 (s - t) in
      Ok (mkOraclePriceData p (Z.abs c) d true None)
  end.

Definition quote_price_data : OraclePriceData := mkOraclePriceData PRICE_PRECISION 1 0 true None.

Definition get_oracle_price (s : OracleSource) (a : OracleAccount) (clock_slot : Z) : DriftResult OraclePriceData :=
  match s with
  | Pyth | Pyth1K | Pyth1M | PythPull | Pyth1KPull | Pyth1MPull | PythLazer | PythLazer1K | PythLazer1M =>
      let! m := oa_pyth a s in get_pyth_price m clock_slot s
  | PythStableCoin | PythStableCoinPull | PythLazerStableCoin =>
      let! m := oa_pyth a s in get_pyth_stable_coin_price m clock_slot s
  | Switchboard => let! r := oa_switchboard a in get_switchboard_price r clock_slot
  | SwitchboardOnDemand => let! m := oa_on_demand a in get_sb_on_demand_price m clock_slot
  | QuoteAsset => Ok quote_price_data
  | Prelaunch => let! o := oa_prelaunch a in get_prelaunch_price o clock_slot
  end.

(** ** The caches *)

Definition source_code (s : OracleSource) : Z :=
  match s with
  | Pyth => 0 | Switchboard => 1 | QuoteAsset => 2 | Pyth1K => 3 | Pyth1M => 4 | PythStableCoin => 5 | Prelaunch => 6
  | PythPull => 7 | Pyth1KPull => 8 | Pyth1MPull => 9 | PythStableCoinPull => 10 | SwitchboardOnDemand => 11
  | PythLazer => 12 | PythLazer1K => 13 | PythLazer1M => 14 | PythLazerStableCoin => 15
  end.
#[export] Instance OracleSource_eq_dec : EqDecision OracleSource.
Proof. solve_decision. Defined.
#[export] Program Instance OracleSource_countable : Countable OracleSource :=
  inj_countable' source_code
    (fun z => default Pyth (list_find (fun s => source_code s = z)
       [Pyth; Switchboard; QuoteAsset; Pyth1K; Pyth1M; PythStableCoin; Prelaunch; PythPull; Pyth1KPull; Pyth1MPull;
        PythStableCoinPull; SwitchboardOnDemand; PythLazer; PythLazer1K; PythLazer1M; PythLazerStableCoin] ≫= fun p => Some p.2)) _.
Next Obligation. by intros []. Qed.

(** An oracle's address and the way its account is read; the address 0 is that of
    the quote asset, [Pubkey::default()]. *)
Definition OracleIdentifier : Type := Z * OracleSource.

Record OracleMap := mkOracleMap {
  om_oracles : gmap Z OracleAccount;
  om_price_data : gmap OracleIdentifier OraclePriceData;
  om_validity : gmap OracleIdentifier OracleValidity;
  om_slot : Z;
  om_guard_rails : OracleGuardRails;
  om_quote : OraclePriceData;
}.

(** [OracleMap::load] of the accounts. *)
Definition load_oracles (oracles : gmap Z OracleAccount) (slot : Z) (g : option OracleGuardRails) : OracleMap :=
  mkOracleMap oracles ∅ ∅ slot (default default_guard_rails g) quote_price_data.

Definition should_get_quote_asset_price_data (pubkey : Z) : bool := pubkey =? 0.

(** The price of an oracle, read at most once. *)
Definition get_price_data (o : OracleMap) (id : OracleIdentifier) : DriftResult (OraclePriceData * OracleMap) :=
  if should_get_quote_asset_price_data id.1 then Ok (om_quote o, o)
  else
    match om_price_data o !! id with
    | Some d => Ok (d, o)
    | None =>
        let! a := ok_or (om_oracles o !! id.1) OracleNotFound in
        let! d := get_oracle_price id.2 a (om_slot o) in
        Ok (d, mkOracleMap (om_oracles o) (<[id := d]> (om_price_data o)) (om_validity o) (om_slot o) (om_guard_rails o)
                 (om_quote o))
    end.

(** What the verdict depends on besides the price. *)
Record ValidityTerms := mkValidityTerms {
  vt_twap : Z;
  vt_confidence_multiplier : Z;
  vt_immediate_override : Z;
  vt_low_risk_override : Z;
}.

(** The verdict is kept with the oracle; a cached price is looked up first. *)
Definition get_price_data_and_validity (o : OracleMap) (id : OracleIdentifier) (t : ValidityTerms) :
    DriftResult (OraclePriceData * OracleValidity * OracleMap) :=
  if should_get_quote_asset_price_data id.1 then Ok (om_quote o, Valid, o)
  else
    let cached := om_price_data o !! id in
    let! '(d, o) := get_price_data o id in
    match om_validity o !! id, cached with
    | Some v, Some _ => Ok (d, v, o)
    | _, _ =>
        let! v := oracle_validity (vt_twap t) d (validity (om_guard_rails o)) (vt_confidence_multiplier t) id.2
                    (vt_immediate_override t) (vt_low_risk_override t) in
        Ok (d, v, mkOracleMap (om_oracles o) (om_price_data o) (<[id := v]> (om_validity o)) (om_slot o)
                    (om_guard_rails o) (om_quote o))
    end.

(** ** Markets *)

Definition perp_get_ref (perps : gmap Z PerpMarket) (market_index : Z) : DriftResult PerpMarket :=
  ok_or (perps !! market_index) PerpMarketNotFound.
Definition spot_get_ref (spots : gmap Z SpotMarket) (market_index : Z) : DriftResult SpotMarket :=
  ok_or (spots !! market_index) SpotMarketNotFound.

Definition spot_oracle_id (m : SpotMarket) : OracleIdentifier := (sm_oracle m, sm_oracle_source m).
Definition perp_oracle_id (m : PerpMarket) : OracleIdentifier := (oracle (amm m), oracle_source (amm m)).

Definition spot_confidence_multiplier (m : SpotMarket) : Z :=
  match asset_tier m with Collateral | Protected => 1 | Cross => 5 | Isolated | Unlisted => 50 end.

Definition spot_validity_terms (m : SpotMarket) : ValidityTerms :=
  mkValidityTerms (last_oracle_price_twap (historical_oracle_data m)) (spot_confidence_multiplier m) 0 0.
Definition perp_validity_terms (m : PerpMarket) : ValidityTerms :=
  mkValidityTerms (last_oracle_price_twap (amm_historical_oracle_data (amm m))) (get_max_confidence_interval_multiplier m)
    (oracle_slot_delay_override (amm m)) (oracle_low_risk_slot_delay_override (amm m)).

(** * Properties *)

(** Every cached verdict has its cached, positive price. *)
Record priced (o : OracleMap) : Prop := {
  pr_quote : 0 < price (om_quote o);
  pr_verdicts : map_Forall (fun id _ => exists d, om_price_data o !! id = Some d /\ 0 < price d) (om_validity o);
}.

Lemma load_priced oracles slot g : priced (load_oracles oracles slot g).
Proof. constructor; [done|apply map_Forall_empty]. Qed.

Lemma verdict_positive t d g m s i l v : oracle_validity t d g m s i l = Ok v -> 0 < price d.
Proof.
  intros H. unfold oracle_validity in H. cbv zeta in H. apply obind_Ok in H as (r & _ & H).
  apply obind_Ok in H as (c & _ & H). apply obind_Ok in H as (p & [-> Hp]%cast_u_Ok & H).
  apply obind_Ok in H as (q & [Hz _]%safe_udiv_Ok & _). range.
Qed.

Lemma price_data_kept o id d o' : get_price_data o id = Ok (d, o') ->
  om_validity o' = om_validity o /\ om_quote o' = om_quote o /\ om_guard_rails o' = om_guard_rails o
  /\ om_slot o' = om_slot o /\ om_oracles o' = om_oracles o /\ om_price_data o ⊆ om_price_data o'
  /\ (should_get_quote_asset_price_data id.1 = false -> om_price_data o' !! id = Some d).
Proof.
  intros H. unfold get_price_data in H. destruct (should_get_quote_asset_price_data id.1) eqn:Hq.
  { injection H as <- <-. done. }
  destruct (om_price_data o !! id) as [d'|] eqn:Hd; [injection H as <- <-; done|].
  apply obind_Ok in H as (a & _ & H). apply obind_Ok in H as (d' & _ & [= <- <-]). cbn.
  split_and!; try done; [by apply insert_subseteq|by rewrite lookup_insert_eq].
Qed.

(** A price that comes with a verdict is positive whatever the verdict, and
    the map settles an oracle once: the oracles, the slot and the rails stay, and
    asking for the same oracle again, in the terms of whatever market, gives the
    same price and the verdict the first market got. *)
Lemma priced_once o id t d v o' :
  priced o -> get_price_data_and_validity o id t = Ok (d, v, o') ->
  0 < price d /\ priced o'
  /\ om_oracles o' = om_oracles o /\ om_slot o' = om_slot o /\ om_guard_rails o' = om_guard_rails o
  /\ get_price_data o' id = Ok (d, o')
  /\ forall t', get_price_data_and_validity o' id t' = Ok (d, v, o').
Proof.
  intros [Hquote Hv] H. unfold get_price_data_and_validity, get_price_data in *.
  destruct (should_get_quote_asset_price_data id.1) eqn:Hq; [injection H as <- <- <-; done|].
  destruct (om_price_data o !! id) as [dc|] eqn:Hd.
  - cbn [obind] in H. destruct (om_validity o !! id) as [vc|] eqn:Hvc.
    + injection H as <- <- <-. destruct (Hv id vc Hvc) as (d' & Hd' & Hpos). assert (d' = dc) as -> by congruence.
      rewrite Hd. cbn. rewrite Hvc. done.
    + apply obind_Ok in H as (v' & Hver & [= <- <- <-]). pose proof (verdict_positive _ _ _ _ _ _ _ _ Hver) as Hpos. cbn.
      rewrite Hd. cbn. rewrite lookup_insert_eq. split_and!; try done. split; [done|]. cbn.
      apply map_Forall_insert_2; [by exists dc|done].
  - apply obind_Ok in H as ([d1 o1] & H1 & H). apply obind_Ok in H1 as (a & _ & H1).
    apply obind_Ok in H1 as (d2 & _ & [= <- <-]). cbn in H.
    assert (om_validity o !! id = None) as Hn.
    { destruct (om_validity o !! id) as [vc|] eqn:E; [|done]. destruct (Hv id vc E) as (d' & Hd' & _). congruence. }
    rewrite Hn in H. apply obind_Ok in H as (v' & Hver & [= <- <- <-]).
    pose proof (verdict_positive _ _ _ _ _ _ _ _ Hver) as Hpos. cbn. rewrite lookup_insert_eq. cbn. rewrite lookup_insert_eq.
    split_and!; try done. split; [done|]. cbn. apply map_Forall_insert_2; [exists d2; by rewrite lookup_insert_eq|].
    intros id' v1 Hid. destruct (Hv id' v1 Hid) as (d' & Hd' & Hp'). exists d'. split; [|done].
    rewrite lookup_insert_ne; [done|]. intros <-. congruence.
Qed.

(** An oracle with a wide confidence: the market of the loose tier that asks first
    decides for the market of the strict one. *)
Definition wide_oracle : OracleAccount :=
  mkOracleAccount (fun _ => Ok (mkPythMessage 100000000 5000000 (-6) 98 1 true)) (Err UnableToLoadOracle)
    (Err UnableToLoadOracle) (Err UnableToLoadOracle).
Definition wide_map : OracleMap := load_oracles {[7 := wide_oracle]} 100 None.
Definition strict_terms : ValidityTerms := mkValidityTerms 100000000 1 0 0.
Definition loose_terms : ValidityTerms := mkValidityTerms 100000000 50 0 0.

Lemma verdict_of_first_market :
  (let! '(_, v, _) := get_price_data_and_validity wide_map (7, PythPull) strict_terms in Ok v) = Ok TooUncertain
  /\ (let! '(_, _, o) := get_price_data_and_validity wide_map (7, PythPull) loose_terms in
      let! '(_, v, _) := get_price_data_and_validity o (7, PythPull) strict_terms in Ok v) = Ok (StaleForAMM true false).
Proof. split; vm_compute; reflexivity. Qed.

Lemma priced_once_witness :
  exists d v o', get_price_data_and_validity wide_map (7, PythPull) loose_terms = Ok (d, v, o') /\ 0 < price d
    /\ get_price_data_and_validity o' (7, PythPull) strict_terms = Ok (d, v, o').
Proof.
  assert (H : exists d v o', get_price_data_and_validity wide_map (7, PythPull) loose_terms = Ok (d, v, o'))
    by (eexists _, _, _; vm_compute; reflexivity).
  destruct H as (d & v & o' & H). exists d, v, o'. split; [exact H|].
  destruct (priced_once wide_map (7, PythPull) loose_terms d v o' (load_priced _ _ _) H) as (Hp & _ & _ & _ & _ & _ & Ht).
  split; [exact Hp|exact (Ht strict_terms)].
Defined.
