(* ===== verification/DriftMargin.v ===== *)
(** Margins: [math/margin.rs], [state/margin_calculation.rs], the weights and
    ratios of [state/spot_market.rs] and [state/perp_market.rs], the simulation of
    open spot orders of [state/user.rs], [math/fuel.rs] and
    [validation/position.rs].

    A user's collateral and requirements are added up position by position, the
    cross positions together and every isolated position by itself, with weights by
    the kind of requirement.  The theorem: whoever meets the initial requirement
    meets the maintenance requirement at the same prices, in the cross account and
    in every isolated position. *)
From stdpp Require Import gmap.
From S2P Require Import Prelude.
From S2P Require Import RecordUpdate.
From S2P Require Import DriftError.
From S2P Require Import DriftMath.
From S2P Require Import DriftSpotMarket.
From S2P Require Import DriftTypes.
From S2P Require Import DriftInsurance.
From S2P Require Import DriftOracle.
From S2P Require Import DriftOrderMath.
From S2P Require Import DriftAmm.
From S2P Require Import DriftSpread.
From S2P Require Import DriftPosition.
From S2P Require Import DriftUser.
From S2P Require Import DriftWithdraw.
From S2P Require Import DriftFunding.
From S2P Require Import DriftOracleMap.

Inductive MarginRequirementType : Set := Initial | Fill | Maintenance.
#[export] Instance MarginRequirementType_eq_dec : EqDecision MarginRequirementType.
Proof. solve_decision. Defined.

#[export] Instance AssetTier_eq_dec : EqDecision AssetTier.
Proof. solve_decision. Defined.
#[export] Instance ContractTier_eq_dec : EqDecision ContractTier.
Proof. solve_decision. Defined.

Section Weights.
Context {roots : Roots}.

(** ** Weights by size *)

Definition size_root (size : Z) : DriftResult Z :=
  let! x := uchk 128 (size * 10) in
  let! x := uchk 128 (x + 1) in
  Ok (nth_root_2 x).

Definition calculate_size_premium_liability_weight (size imf_factor liability_weight precision : Z) (is_bounded : bool) :
    DriftResult Z :=
  if imf_factor =? 0 then Ok liability_weight
  else
    let! size_sqrt := size_root size in
    let! fifth := safe_udiv liability_weight 5 in
    let! liability_weight_numerator := safe_u 128 (liability_weight - fifth) in
    let! p := safe_u 128 (size_sqrt * imf_factor) in
    let! q := safe_udiv p (100000 * SPOT_IMF_PRECISION / precision) in
    let! s := safe_u 128 (liability_weight_numerator + q) in
    let! size_premium_liability_weight := cast_u 32 s in
    Ok (if is_bounded then Z.max liability_weight size_premium_liability_weight else size_premium_liability_weight).

Definition calc_high_leverage_mode_initial_margin_ratio_from_size (pre_size_adj_margin_ratio size_adj_margin_ratio
    default_margin_ratio : Z) : DriftResult Z :=
  if size_adj_margin_ratio <? pre_size_adj_margin_ratio then
    let! d := safe_u 128 (pre_size_adj_margin_ratio - size_adj_margin_ratio) in
    let! p := safe_u 128 (d * PERCENTAGE_PRECISION) in
    let! fifth := safe_udiv pre_size_adj_margin_ratio 5 in
    let! q := safe_udiv p fifth in
    let size_pct_discount_factor := usat 128 (PERCENTAGE_PRECISION - q) in
    let hlm_margin_delta := Z.max (usat 32 (pre_size_adj_margin_ratio - default_margin_ratio)) 1 in
    let! part := get_proportion_u128 hlm_margin_delta size_pct_discount_factor PERCENTAGE_PRECISION in
    let! part := cast_u 32 part in
    safe_u 32 (part + default_margin_ratio)
  else Ok (if size_adj_margin_ratio =? pre_size_adj_margin_ratio then default_margin_ratio else size_adj_margin_ratio).

Definition calculate_size_discount_asset_weight (size imf_factor asset_weight : Z) : DriftResult Z :=
  if imf_factor =? 0 then Ok asset_weight
  else
    let! size_sqrt := size_root size in
    let imf_numerator := SPOT_IMF_PRECISION + SPOT_IMF_PRECISION / 10 in
    let! n := safe_u 128 (imf_numerator * SPOT_WEIGHT_PRECISION) in
    let! p := safe_u 128 (size_sqrt * imf_factor) in
    let! q := safe_udiv p 100000 in
    let! d := safe_u 128 (SPOT_IMF_PRECISION + q) in
    let! w := safe_udiv n d in
    let! size_discount_asset_weight := cast_u 32 w in
    Ok (Z.min asset_weight size_discount_asset_weight).

(** ** Weights of a spot market *)

Definition size_in_amm_reserve_precision (m : SpotMarket) (size : Z) : DriftResult Z :=
  let! size_precision := uchk 128 (10 ^ decimals m) in
  if AMM_RESERVE_PRECISION <? size_precision then Ok (size / (size_precision / AMM_RESERVE_PRECISION))
  else let! p := uchk 128 (size * AMM_RESERVE_PRECISION) in Ok (p / size_precision).

Definition get_scaled_initial_asset_weight (m : SpotMarket) (oracle_price : Z) : DriftResult Z :=
  if scale_initial_asset_weight_start m =? 0 then Ok (initial_asset_weight m)
  else
    let! deposits := get_deposits m in
    let! d := cast_i 128 deposits in
    let! v := get_token_value d (decimals m) oracle_price in
    let! deposit_value := cast_u 128 v in
    if deposit_value <? scale_initial_asset_weight_start m then Ok (initial_asset_weight m)
    else
      let! p := safe_u 128 (initial_asset_weight m * scale_initial_asset_weight_start m) in
      let! q := safe_udiv p deposit_value in
      cast_u 32 q.

Definition get_asset_weight (m : SpotMarket) (size oracle_price : Z) (t : MarginRequirementType) : DriftResult Z :=
  let! size := size_in_amm_reserve_precision m size in
  let! default_asset_weight :=
    match t with
    | Initial => get_scaled_initial_asset_weight m oracle_price
    | Fill =>
        let! i := get_scaled_initial_asset_weight m oracle_price in
        let! s := safe_u 32 (i + maintenance_asset_weight m) in Ok (s / 2)
    | Maintenance => Ok (maintenance_asset_weight m)
    end in
  let! size_based_asset_weight := calculate_size_discount_asset_weight size (sm_imf_factor m) default_asset_weight in
  Ok (Z.min size_based_asset_weight default_asset_weight).

Definition get_liability_weight (m : SpotMarket) (size : Z) (t : MarginRequirementType) : DriftResult Z :=
  let! size := size_in_amm_reserve_precision m size in
  let! default_liability_weight :=
    match t with
    | Initial => Ok (initial_liability_weight m)
    | Fill =>
        let! s := safe_u 32 (initial_liability_weight m + maintenance_liability_weight m) in Ok (s / 2)
    | Maintenance => Ok (maintenance_liability_weight m)
    end in
  let! size_based_liability_weight :=
    calculate_size_premium_liability_weight size (sm_imf_factor m) default_liability_weight SPOT_WEIGHT_PRECISION true in
  Ok (Z.max size_based_liability_weight default_liability_weight).

(** As if it were the ratio of a perpetual market. *)
Definition spot_get_margin_ratio (m : SpotMarket) (t : MarginRequirementType) : DriftResult Z :=
  match t with
  | Initial => safe_u 32 (initial_liability_weight m - MARGIN_PRECISION)
  | Fill => Err DefaultError
  | Maintenance => safe_u 32 (maintenance_liability_weight m - MARGIN_PRECISION)
  end.

(** ** Ratios of a perpetual market *)

Definition is_high_leverage_mode_enabled (m : PerpMarket) : bool :=
  (0 <? high_leverage_margin_ratio_initial m) && (0 <? high_leverage_margin_ratio_maintenance m).

(** The ratio by the kind of requirement, between the two given. *)
Definition ratio_of_type (t : MarginRequirementType) (initial maintenance : Z) : DriftResult Z :=
  match t with
  | Initial => Ok initial
  | Fill => let! s := safe_u 32 (initial + maintenance) in Ok (s / 2)
  | Maintenance => Ok maintenance
  end.

Definition get_margin_ratio (m : PerpMarket) (size : Z) (t : MarginRequirementType) (user_high_leverage_mode : bool) :
    DriftResult Z :=
  if bool_decide (pm_status m = Settlement) then Ok 0
  else
    let is_high_leverage_user := user_high_leverage_mode && is_high_leverage_mode_enabled m in
    let '(initial, maintenance) :=
      if is_high_leverage_user then (high_leverage_margin_ratio_initial m, high_leverage_margin_ratio_maintenance m)
      else (margin_ratio_initial m, margin_ratio_maintenance m) in
    let! default_margin_ratio := ratio_of_type t initial maintenance in
    if is_high_leverage_user && negb (bool_decide (t = Maintenance)) then
      let! pre := ratio_of_type t (margin_ratio_initial m) (margin_ratio_maintenance m) in
      let! adjusted := calculate_size_premium_liability_weight size (imf_factor m) pre MARGIN_PRECISION false in
      calc_high_leverage_mode_initial_margin_ratio_from_size pre adjusted default_margin_ratio
    else
      let! adjusted := calculate_size_premium_liability_weight size (imf_factor m) default_margin_ratio MARGIN_PRECISION true in
      Ok (Z.max default_margin_ratio adjusted).

Definition get_base_liquidator_fee (m : PerpMarket) (user_high_leverage_mode : bool) : Z :=
  if user_high_leverage_mode && is_high_leverage_mode_enabled m then
    let margin_ratio := usat 32 (high_leverage_margin_ratio_maintenance m * LIQUIDATION_FEE_TO_MARGIN_PRECISION_RATIO) in
    Z.min (liquidator_fee m) (usat 32 (margin_ratio - margin_ratio / 5))
  else liquidator_fee m.

Definition get_max_liquidation_fee (m : PerpMarket) : DriftResult Z :=
  let! f := safe_u 32 (liquidator_fee m * MAX_LIQUIDATION_MULTIPLIER) in
  let r := margin_ratio_maintenance m * (LIQUIDATION_FEE_PRECISION / MARGIN_PRECISION) in
  Ok (Z.min f (if uok 32 r then r else umax 32)).

(** The weight of a gain not yet settled; a loss counts in full. *)
Definition get_unrealized_asset_weight (m : PerpMarket) (unrealized_pnl : Z) (t : MarginRequirementType) : DriftResult Z :=
  let stated := match t with Maintenance => unrealized_pnl_maintenance_asset_weight m
                             | _ => unrealized_pnl_initial_asset_weight m end in
  let! margin_asset_weight :=
    if (0 <? stated) && negb (bool_decide (t = Maintenance)) && (0 <? unrealized_pnl_max_imbalance m) then
      let! net_unsettled_pnl :=
        calculate_net_user_pnl (amm m) (last_oracle_price (amm_historical_oracle_data (amm m))) in
      let! most := cast_i 128 (unrealized_pnl_max_imbalance m) in
      if most <? net_unsettled_pnl then
        let! p := safe_u 128 (stated * unrealized_pnl_max_imbalance m) in
        let! q := safe_udiv p (Z.abs net_unsettled_pnl) in
        cast_u 32 q
      else Ok stated
    else Ok stated in
  if 0 <? unrealized_pnl then
    match t with
    | Maintenance => Ok (unrealized_pnl_maintenance_asset_weight m)
    | _ =>
        if 0 <? margin_asset_weight then
          let! s := safe_u 128 (Z.abs unrealized_pnl * AMM_TO_QUOTE_PRECISION_RATIO) in
          calculate_size_discount_asset_weight s (unrealized_pnl_imf_factor m) margin_asset_weight
        else Ok 0
    end
  else Ok SPOT_WEIGHT_PRECISION.

(** ** Open spot orders *)

Record OrderFillSimulation := mkOrderFillSimulation {
  fs_token_amount : Z;
  fs_orders_value : Z;
  fs_token_value : Z;
  fs_weighted_token_value : Z;
  fs_free_collateral_contribution : Z;
}.

Definition riskier_side (ask bid : OrderFillSimulation) : OrderFillSimulation :=
  if fs_free_collateral_contribution ask <=? fs_free_collateral_contribution bid then ask else bid.
Definition risk_increasing (before after : OrderFillSimulation) : bool :=
  fs_free_collateral_contribution after <? fs_free_collateral_contribution before.

(** A value times a weight, towards zero. *)
Definition weighted (v w : Z) : DriftResult Z :=
  let! p := safe_i 128 (v * w) in safe_idiv 128 p SPOT_WEIGHT_PRECISION.

Definition apply_user_custom_margin_ratio (s : OrderFillSimulation) (m : SpotMarket)
    (oracle_price user_custom_margin_ratio : Z) : DriftResult OrderFillSimulation :=
  if user_custom_margin_ratio =? 0 then Ok s
  else
    let! w :=
      if fs_weighted_token_value s <? 0 then
        let! l := get_liability_weight m (Z.abs (fs_token_amount s)) Initial in
        let! c := safe_u 32 (user_custom_margin_ratio + SPOT_WEIGHT_PRECISION) in
        weighted (fs_token_value s) (Z.max l c)
      else if 0 <? fs_weighted_token_value s then
        let! a := get_asset_weight m (Z.abs (fs_token_amount s)) oracle_price Initial in
        weighted (fs_token_value s) (Z.min a (usat 32 (SPOT_WEIGHT_PRECISION - user_custom_margin_ratio)))
      else Ok (fs_weighted_token_value s) in
    let! f := safe_i 128 (w + fs_orders_value s) in
    Ok (mkOrderFillSimulation (fs_token_amount s) (fs_orders_value s) (fs_token_value s) w f).

Definition calculate_weighted_token_value (m : SpotMarket) (p : StrictOraclePrice) (t : MarginRequirementType)
    (token_amount token_value : Z) : DriftResult Z :=
  if 0 <? token_value then
    let! w := get_asset_weight m (Z.abs token_amount) (current p) t in weighted token_value w
  else if token_value <? 0 then
    let! w := get_liability_weight m (Z.abs token_amount) t in weighted token_value w
  else Ok 0.

(** Filling the open orders of one side: the tokens change, and the quote for
    them is paid at the higher price. *)
Definition simulate_side (m : SpotMarket) (p : StrictOraclePrice) (t : MarginRequirementType)
    (token_amount token_value open_orders : Z) : DriftResult OrderFillSimulation :=
  let! n := ichk 128 (- open_orders) in
  let! order_value := get_token_value n (decimals m) (strict_max p) in
  let! token_amount_after_fill := safe_i 128 (token_amount + open_orders) in
  let! back := ichk 128 (- order_value) in
  let! token_value_after_fill := safe_i 128 (token_value + back) in
  let! w := calculate_weighted_token_value m p t token_amount_after_fill token_value_after_fill in
  let! f := safe_i 128 (w + order_value) in
  Ok (mkOrderFillSimulation token_amount_after_fill order_value token_value_after_fill w f).

Definition simulate_fills_both_sides (sp : SpotPosition) (m : SpotMarket) (p : StrictOraclePrice)
    (token_amount : option Z) (t : MarginRequirementType) : DriftResult (OrderFillSimulation * OrderFillSimulation) :=
  let! token_amount := match token_amount with Some x => Ok x | None => spot_get_signed_token_amount sp m end in
  let! token_value := get_strict_token_value token_amount (decimals m) p in
  if (sp_open_bids sp =? 0) && (sp_open_asks sp =? 0) then
    let! w := calculate_weighted_token_value m p t token_amount token_value in
    let s := mkOrderFillSimulation token_amount 0 token_value w w in
    Ok (s, s)
  else
    let! bid := simulate_side m p t token_amount token_value (sp_open_bids sp) in
    let! ask := simulate_side m p t token_amount token_value (sp_open_asks sp) in
    Ok (bid, ask).

Definition get_worst_case_fill_simulation (sp : SpotPosition) (m : SpotMarket) (p : StrictOraclePrice)
    (token_amount : option Z) (t : MarginRequirementType) : DriftResult OrderFillSimulation :=
  let! '(bid, ask) := simulate_fills_both_sides sp m p token_amount t in
  Ok (riskier_side ask bid).

End Weights.

(** ** The result of a calculation *)

Record MarketIdentifier := mkMarketIdentifier { mi_market_type : MarketType; mi_market_index : Z }.
Definition market_eqb (a b : MarketIdentifier) : bool :=
  bool_decide (mi_market_type a = mi_market_type b) && (mi_market_index a =? mi_market_index b).

Inductive MarginTypeConfig : Set :=
| DefaultConfig (t : MarginRequirementType)
| IsolatedPositionOverride (market_index : Z) (t default_isolated cross : MarginRequirementType)
| CrossMarginOverride (t default_type : MarginRequirementType).

Definition get_cross_margin_requirement_type (c : MarginTypeConfig) : MarginRequirementType :=
  match c with DefaultConfig t => t | IsolatedPositionOverride _ _ _ cross => cross | CrossMarginOverride t _ => t end.
Definition get_isolated_margin_requirement_type (c : MarginTypeConfig) (market_index : Z) : MarginRequirementType :=
  match c with
  | DefaultConfig t => t
  | IsolatedPositionOverride i t d _ => if i =? market_index then t else d
  | CrossMarginOverride _ d => d
  end.

Inductive MarginCalculationMode : Set :=
| Standard
| Liquidation (market_to_track_margin_requirement : option MarketIdentifier).

(** [fuel_bonus], which nothing reads, is left out. *)
Record MarginContext := mkMarginContext {
  margin_type_config : MarginTypeConfig;
  mode : MarginCalculationMode;
  strict : bool;
  ignore_invalid_deposit_oracles : bool;
  margin_buffer : Z;
  fuel_bonus_numerator : Z;
  fuel_perp_delta : option (Z * Z);
  fuel_spot_deltas : list (Z * Z);
  margin_ratio_override : option Z;
}.
#[export] Instance eta_MarginContext : Eta MarginContext := fun c =>
  mkMarginContext (margin_type_config c) (mode c) (strict c) (ignore_invalid_deposit_oracles c) (margin_buffer c)
    (fuel_bonus_numerator c) (fuel_perp_delta c) (fuel_spot_deltas c) (margin_ratio_override c).
#[export] Instance set_mode : Setter mode := ltac:(setter).
#[export] Instance set_strict : Setter strict := ltac:(setter).
#[export] Instance set_ignore_invalid_deposit_oracles : Setter ignore_invalid_deposit_oracles := ltac:(setter).
#[export] Instance set_margin_buffer : Setter margin_buffer := ltac:(setter).
#[export] Instance set_fuel_bonus_numerator : Setter fuel_bonus_numerator := ltac:(setter).
#[export] Instance set_fuel_perp_delta : Setter fuel_perp_delta := ltac:(setter).
#[export] Instance set_fuel_spot_deltas : Setter fuel_spot_deltas := ltac:(setter).
#[export] Instance set_margin_ratio_override : Setter margin_ratio_override := ltac:(setter).

Definition standard_with_config (c : MarginTypeConfig) : MarginContext :=
  mkMarginContext c Standard false false 0 0 None [(0, 0); (0, 0)] None.
Definition standard (t : MarginRequirementType) : MarginContext := standard_with_config (DefaultConfig t).
Definition liquidation (buffer : Z) : MarginContext :=
  standard Maintenance <| mode := Liquidation None |> <| margin_buffer := buffer |>.

Definition track_market_margin_requirement (c : MarginContext) (i : MarketIdentifier) : DriftResult MarginContext :=
  match mode c with Liquidation _ => Ok (c <| mode := Liquidation (Some i) |>) | Standard => Err InvalidMarginCalculation end.
Definition market_to_track (c : MarginContext) : option MarketIdentifier :=
  match mode c with Liquidation t => t | Standard => None end.
Definition is_liquidation_mode (c : MarginContext) : bool :=
  match mode c with Liquidation _ => true | Standard => false end.

Record IsolatedMarginCalculation := mkIsolatedMarginCalculation {
  ic_margin_requirement : Z;
  ic_total_collateral : Z;
  ic_total_collateral_buffer : Z;
  ic_margin_requirement_plus_buffer : Z;
}.

Definition ic_get_total_collateral_plus_buffer (i : IsolatedMarginCalculation) : Z :=
  isat 128 (ic_total_collateral i + ic_total_collateral_buffer i).
Definition ic_meets_margin_requirement (i : IsolatedMarginCalculation) : bool :=
  iwrap 128 (ic_margin_requirement i) <=? ic_total_collateral i.
Definition ic_meets_margin_requirement_with_buffer (i : IsolatedMarginCalculation) : bool :=
  iwrap 128 (ic_margin_requirement_plus_buffer i) <=? ic_get_total_collateral_plus_buffer i.

(** The missing collateral; the result is not negative. *)
Definition shortage (margin_requirement_plus_buffer total_collateral_plus_buffer : Z) : DriftResult Z :=
  let! r := cast_i 128 margin_requirement_plus_buffer in
  let! d := safe_i 128 (r - total_collateral_plus_buffer) in
  Ok (Z.max d 0).
Definition ic_margin_shortage (i : IsolatedMarginCalculation) : DriftResult Z :=
  shortage (ic_margin_requirement_plus_buffer i) (ic_get_total_collateral_plus_buffer i).

(** The totals by kind of value that only the client's build adds up are left
    out. *)
Record MarginCalculation := mkMarginCalculation {
  context : MarginContext;
  total_collateral : Z;
  total_collateral_buffer : Z;
  margin_requirement : Z;
  margin_requirement_plus_buffer : Z;
  isolated_margin_calculations : gmap Z IsolatedMarginCalculation;
  num_spot_liabilities : Z;
  num_perp_liabilities : Z;
  all_deposit_oracles_valid : bool;
  all_liability_oracles_valid : bool;
  with_perp_isolated_liability : bool;
  with_spot_isolated_liability : bool;
  tracked_market_margin_requirement : Z;
  mc_fuel_deposits : Z;
  mc_fuel_borrows : Z;
  mc_fuel_positions : Z;
}.
#[export] Instance eta_MarginCalculation : Eta MarginCalculation := fun c =>
  mkMarginCalculation (context c) (total_collateral c) (total_collateral_buffer c) (margin_requirement c)
    (margin_requirement_plus_buffer c) (isolated_margin_calculations c) (num_spot_liabilities c) (num_perp_liabilities c)
    (all_deposit_oracles_valid c) (all_liability_oracles_valid c) (with_perp_isolated_liability c)
    (with_spot_isolated_liability c) (tracked_market_margin_requirement c) (mc_fuel_deposits c) (mc_fuel_borrows c)
    (mc_fuel_positions c).
#[export] Instance set_total_collateral : Setter total_collateral := ltac:(setter).
#[export] Instance set_total_collateral_buffer : Setter total_collateral_buffer := ltac:(setter).
#[export] Instance set_margin_requirement : Setter margin_requirement := ltac:(setter).
#[export] Instance set_margin_requirement_plus_buffer : Setter margin_requirement_plus_buffer := ltac:(setter).
#[export] Instance set_isolated_margin_calculations : Setter isolated_margin_calculations := ltac:(setter).
#[export] Instance set_num_spot_liabilities : Setter num_spot_liabilities := ltac:(setter).
#[export] Instance set_num_perp_liabilities : Setter num_perp_liabilities := ltac:(setter).
#[export] Instance set_all_deposit_oracles_valid : Setter all_deposit_oracles_valid := ltac:(setter).
#[export] Instance set_all_liability_oracles_valid : Setter all_liability_oracles_valid := ltac:(setter).
#[export] Instance set_with_perp_isolated_liability : Setter with_perp_isolated_liability := ltac:(setter).
#[export] Instance set_with_spot_isolated_liability : Setter with_spot_isolated_liability := ltac:(setter).
#[export] Instance set_tracked_market_margin_requirement : Setter tracked_market_margin_requirement := ltac:(setter).
#[export] Instance set_mc_fuel_deposits : Setter mc_fuel_deposits := ltac:(setter).
#[export] Instance set_mc_fuel_borrows : Setter mc_fuel_borrows := ltac:(setter).
#[export] Instance set_mc_fuel_positions : Setter mc_fuel_positions := ltac:(setter).

Definition new_calculation (c : MarginContext) : MarginCalculation :=
  mkMarginCalculation c 0 0 0 0 ∅ 0 0 true true false false 0 0 0 0.

Definition with_buffer (c : MarginCalculation) (x : Z) : DriftResult Z :=
  let! b := cast_i 128 (margin_buffer (context c)) in
  let! p := safe_i 128 (x * b) in
  Ok (Z.quot p MARGIN_PRECISION).

(** The requirement and its buffer on the liability. *)
Definition requirement_with_buffer (c : MarginCalculation) (margin_requirement liability_value : Z) : DriftResult Z :=
  let! p := safe_u 128 (liability_value * margin_buffer (context c)) in
  safe_u 128 (margin_requirement + p / MARGIN_PRECISION).

Definition track (c : MarginCalculation) (i : MarketIdentifier) (x : Z) : DriftResult MarginCalculation :=
  match market_to_track (context c) with
  | Some t =>
      if market_eqb t i then
        let! r := safe_u 128 (tracked_market_margin_requirement c + x) in
        Ok (c <| tracked_market_margin_requirement := r |>)
      else Ok c
  | None => Ok c
  end.

Definition add_cross_margin_total_collateral (c : MarginCalculation) (x : Z) : DriftResult MarginCalculation :=
  let! t := safe_i 128 (total_collateral c + x) in
  let c := c <| total_collateral := t |> in
  if (0 <? margin_buffer (context c)) && (x <? 0) then
    let! b := with_buffer c x in
    let! t := safe_i 128 (total_collateral_buffer c + b) in
    Ok (c <| total_collateral_buffer := t |>)
  else Ok c.

Definition add_cross_margin_margin_requirement (c : MarginCalculation) (x liability_value : Z) (i : MarketIdentifier) :
    DriftResult MarginCalculation :=
  let! r := safe_u 128 (margin_requirement c + x) in
  let c := c <| margin_requirement := r |> in
  let! c :=
    if 0 <? margin_buffer (context c) then
      let! b := requirement_with_buffer c x liability_value in
      let! r := safe_u 128 (margin_requirement_plus_buffer c + b) in
      Ok (c <| margin_requirement_plus_buffer := r |>)
    else Ok c in
  track c i x.

Definition add_isolated_margin_calculation (c : MarginCalculation) (market_index deposit_value pnl liability_value
    requirement : Z) : DriftResult MarginCalculation :=
  let! t := safe_i 128 (deposit_value + pnl) in
  let! tb := if (0 <? margin_buffer (context c)) && (pnl <? 0) then with_buffer c pnl else Ok 0 in
  let! rb := if 0 <? margin_buffer (context c) then requirement_with_buffer c requirement liability_value else Ok 0 in
  track (c <| isolated_margin_calculations := <[market_index := mkIsolatedMarginCalculation requirement t tb rb]>
                (isolated_margin_calculations c) |>)
    (mkMarketIdentifier Perp market_index) requirement.

Definition add_spot_liability (c : MarginCalculation) : DriftResult MarginCalculation :=
  let! n := safe_u 8 (num_spot_liabilities c + 1) in Ok (c <| num_spot_liabilities := n |>).
Definition add_perp_liability (c : MarginCalculation) : DriftResult MarginCalculation :=
  let! n := safe_u 8 (num_perp_liabilities c + 1) in Ok (c <| num_perp_liabilities := n |>).
Definition update_all_deposit_oracles_valid (c : MarginCalculation) (valid : bool) : MarginCalculation :=
  c <| all_deposit_oracles_valid := all_deposit_oracles_valid c && valid |>.
Definition update_all_liability_oracles_valid (c : MarginCalculation) (valid : bool) : MarginCalculation :=
  c <| all_liability_oracles_valid := all_liability_oracles_valid c && valid |>.
Definition update_with_spot_isolated_liability (c : MarginCalculation) (isolated : bool) : MarginCalculation :=
  c <| with_spot_isolated_liability := with_spot_isolated_liability c || isolated |>.
Definition update_with_perp_isolated_liability (c : MarginCalculation) (isolated : bool) : MarginCalculation :=
  c <| with_perp_isolated_liability := with_perp_isolated_liability c || isolated |>.

Definition validate_num_spot_liabilities (c : MarginCalculation) : DriftResult unit :=
  if 0 <? num_spot_liabilities c then validate (0 <? margin_requirement c) InvalidMarginRatio else Ok tt.
Definition get_num_of_liabilities (c : MarginCalculation) : DriftResult Z :=
  safe_u 8 (num_spot_liabilities c + num_perp_liabilities c).

Definition get_cross_total_collateral_plus_buffer (c : MarginCalculation) : Z :=
  isat 128 (total_collateral c + total_collateral_buffer c).
Definition meets_cross_margin_requirement (c : MarginCalculation) : bool :=
  iwrap 128 (margin_requirement c) <=? total_collateral c.
Definition meets_cross_margin_requirement_with_buffer (c : MarginCalculation) : bool :=
  iwrap 128 (margin_requirement_plus_buffer c) <=? get_cross_total_collateral_plus_buffer c.

Definition all_isolated (f : IsolatedMarginCalculation -> bool) (c : MarginCalculation) : bool :=
  forallb (fun p => f p.2) (map_to_list (isolated_margin_calculations c)).
Definition meets_margin_requirement (c : MarginCalculation) : bool :=
  meets_cross_margin_requirement c && all_isolated ic_meets_margin_requirement c.
Definition meets_margin_requirement_with_buffer (c : MarginCalculation) : bool :=
  meets_cross_margin_requirement_with_buffer c && all_isolated ic_meets_margin_requirement_with_buffer c.

(** [safe_unwrap] of the entry of a market. *)
Definition isolated_of (c : MarginCalculation) (market_index : Z) : DriftResult IsolatedMarginCalculation :=
  ok_or (isolated_margin_calculations c !! market_index) FailedUnwrap.
Definition meets_isolated_margin_requirement (c : MarginCalculation) (market_index : Z) : DriftResult bool :=
  let! i := isolated_of c market_index in Ok (ic_meets_margin_requirement i).
Definition meets_isolated_margin_requirement_with_buffer (c : MarginCalculation) (market_index : Z) : DriftResult bool :=
  let! i := isolated_of c market_index in Ok (ic_meets_margin_requirement_with_buffer i).
Definition can_exit_cross_margin_liquidation (c : MarginCalculation) : DriftResult bool :=
  if negb (is_liquidation_mode (context c)) then Err InvalidMarginCalculation
  else Ok (meets_cross_margin_requirement_with_buffer c).
Definition can_exit_isolated_margin_liquidation (c : MarginCalculation) (market_index : Z) : DriftResult bool :=
  if negb (is_liquidation_mode (context c)) then Err InvalidMarginCalculation
  else meets_isolated_margin_requirement_with_buffer c market_index.

Definition cross_margin_margin_shortage (c : MarginCalculation) : DriftResult Z :=
  if margin_buffer (context c) =? 0 then Err InvalidMarginCalculation
  else shortage (margin_requirement_plus_buffer c) (get_cross_total_collateral_plus_buffer c).
Definition isolated_margin_shortage (c : MarginCalculation) (market_index : Z) : DriftResult Z :=
  if margin_buffer (context c) =? 0 then Err InvalidMarginCalculation
  else let! i := isolated_of c market_index in ic_margin_shortage i.

(** The part of a shortage that falls on the tracked market. *)
Definition tracked_market_margin_shortage (c : MarginCalculation) (margin_shortage : Z) : DriftResult Z :=
  match market_to_track (context c) with
  | None => Err InvalidMarginCalculation
  | Some t =>
      let r :=
        match mi_market_type t, isolated_margin_calculations c !! mi_market_index t with
        | Perp, Some i => ic_margin_requirement i
        | _, _ => margin_requirement c
        end in
      if r =? 0 then Ok 0
      else let! p := safe_u 128 (margin_shortage * tracked_market_margin_requirement c) in safe_udiv p r
  end.

Definition free_collateral (total requirement : Z) : DriftResult Z :=
  let! r := cast_i 128 requirement in
  let! d := safe_i 128 (total - r) in
  cast_u 128 (Z.max d 0).
Definition get_cross_free_collateral (c : MarginCalculation) : DriftResult Z :=
  free_collateral (total_collateral c) (margin_requirement c).
Definition get_isolated_free_collateral (c : MarginCalculation) (market_index : Z) : DriftResult Z :=
  let! i := isolated_of c market_index in free_collateral (ic_total_collateral i) (ic_margin_requirement i).
Definition get_isolated_margin_calculation (c : MarginCalculation) (market_index : Z) :
    DriftResult IsolatedMarginCalculation :=
  ok_or (isolated_margin_calculations c !! market_index) InvalidMarginCalculation.
Definition has_isolated_margin_calculation (c : MarginCalculation) (market_index : Z) : bool :=
  bool_decide (is_Some (isolated_margin_calculations c !! market_index)).

(** ** Fuel *)

(** The bonus of a value over the part of the window that has passed. *)
Definition fuel_of_value (value boost numerator : Z) : DriftResult Z :=
  if Z.abs value <? QUOTE_PRECISION then Ok 0
  else
    let! n := cast_u 128 numerator in
    let! p := safe_u 128 (Z.abs value * n) in
    let! p := safe_u 128 (p * boost) in
    let! q := safe_udiv p FUEL_WINDOW_U128 in
    let! q := cast_u 64 q in
    Ok (q / (QUOTE_PRECISION_U64 / 10)).
Definition calculate_perp_fuel_bonus (m : PerpMarket) (base_asset_value numerator : Z) : DriftResult Z :=
  fuel_of_value base_asset_value (fuel_boost_position m) numerator.
Definition calculate_spot_fuel_bonus (m : SpotMarket) (signed_token_value numerator : Z) : DriftResult Z :=
  fuel_of_value signed_token_value
    (if 0 <? signed_token_value then fuel_boost_deposits m else fuel_boost_borrows m) numerator.

Definition add_fuel (fuel bonus : Z) : Z := usat 32 (fuel + Z.min bonus (umax 32)).

Definition update_fuel_perp_bonus (c : MarginCalculation) (m : PerpMarket) (p : PerpPosition)
    (base_asset_value oracle_price : Z) : DriftResult MarginCalculation :=
  if fuel_boost_position m =? 0 then Ok c
  else
    let! v :=
      match fuel_perp_delta (context c) with
      | Some (i, perp_delta) =>
          if i =? pm_market_index m then
            let! b := safe_i 64 (pp_base_asset_amount p + perp_delta) in
            let! x := safe_i 128 (b * oracle_price) in
            let! x := safe_idiv 128 x AMM_RESERVE_PRECISION_I128 in
            Ok (Z.abs x)
          else Ok base_asset_value
      | None => Ok base_asset_value
      end in
    let! bonus := calculate_perp_fuel_bonus m (iwrap 128 v) (fuel_bonus_numerator (context c)) in
    Ok (c <| mc_fuel_positions := add_fuel (mc_fuel_positions c) bonus |>).

Definition update_fuel_spot_bonus (c : MarginCalculation) (m : SpotMarket) (signed_token_amount : Z)
    (p : StrictOraclePrice) : DriftResult MarginCalculation :=
  if (fuel_boost_deposits m =? 0) && (fuel_boost_borrows m =? 0) then Ok c
  else
    let! amount := foldO (fun x '(i, delta) =>
      if (sm_market_index m =? i) && negb (delta =? 0) then safe_i 128 (x + delta) else Ok x)
      signed_token_amount (fuel_spot_deltas (context c)) in
    if (0 <? fuel_boost_deposits m) && (0 <? amount) then
      let! v := get_strict_token_value amount (decimals m) p in
      let! bonus := calculate_spot_fuel_bonus m v (fuel_bonus_numerator (context c)) in
      Ok (c <| mc_fuel_deposits := add_fuel (mc_fuel_deposits c) bonus |>)
    else if (0 <? fuel_boost_borrows m) && (amount <? 0) then
      let! v := get_strict_token_value amount (decimals m) p in
      let! bonus := calculate_spot_fuel_bonus m v (fuel_bonus_numerator (context c)) in
      Ok (c <| mc_fuel_borrows := add_fuel (mc_fuel_borrows c) bonus |>)
    else Ok c.

(** ** Positions *)

Definition validate_spot_position (p : SpotPosition) : DriftResult unit :=
  do! validate (sp_open_orders p <=? MAX_OPEN_ORDERS) InvalidSpotPositionDetected in
  do! validate (0 <=? sp_open_bids p) InvalidSpotPositionDetected in
  validate (sp_open_asks p <=? 0) InvalidSpotPositionDetected.
Definition validate_perp_position_with_perp_market (p : PerpPosition) (m : PerpMarket) : DriftResult unit :=
  do! validate (pp_market_index p =? pm_market_index m) InvalidPerpPositionDetected in
  let! b := is_multiple_of_step_size (Z.abs (pp_base_asset_amount p)) (order_step_size (amm m)) in
  validate b InvalidPerpPositionDetected.

Section Calculation.
Context {roots : Roots}.

(** The price a position is valued at. *)
Definition valuation_price (m : PerpMarket) (d : OraclePriceData) : Z :=
  if bool_decide (pm_status m = Settlement) then expiry_price m else price d.

(** The result with the funding not yet settled, and the value of the base. *)
Definition unrealized_pnl_with_funding (p : PerpPosition) (m : PerpMarket) (d : OraclePriceData) : DriftResult (Z * Z) :=
  let! unrealized_funding := calculate_funding_payment (cumulative_funding_rate (amm m) (pp_base_asset_amount p)) p in
  let! '(base_asset_value, unrealized_pnl) :=
    calculate_base_asset_value_and_pnl_with_oracle_price p (valuation_price m d) in
  let! total := safe_i 128 (unrealized_pnl + unrealized_funding) in
  Ok (base_asset_value, total).

(** The gain that counts. *)
Definition weigh_unrealized_pnl (m : PerpMarket) (q : StrictOraclePrice) (t : MarginRequirementType) (pnl : Z) :
    DriftResult Z :=
  let! w := get_unrealized_asset_weight m pnl t in
  let quote_price := if 0 <? pnl then strict_min q else if pnl <? 0 then strict_max q else current q in
  let! x := if negb (w =? SPOT_WEIGHT_PRECISION) then weighted pnl w else Ok pnl in
  let! x :=
    if negb (quote_price =? PRICE_PRECISION) then
      let! p := safe_i 128 (x * quote_price) in safe_idiv 128 p PRICE_PRECISION
    else Ok x in
  Ok (if bool_decide (t = Initial) then Z.min x MAX_POSITIVE_UPNL_FOR_INITIAL_MARGIN else x).

Definition perp_requirement (m : PerpMarket) (t : MarginRequirementType) (custom : Z) (high_leverage : bool)
    (worst_case_base worst_case_liability_value : Z) : DriftResult Z :=
  if bool_decide (pm_status m = Settlement) then Ok 0
  else
    let! r := get_margin_ratio m (Z.abs worst_case_base) t high_leverage in
    let! p := safe_u 128 (worst_case_liability_value * Z.max custom r) in
    safe_udiv p MARGIN_PRECISION.

Definition calculate_perp_position_value_and_pnl (p : PerpPosition) (m : PerpMarket) (d : OraclePriceData)
    (q : StrictOraclePrice) (t : MarginRequirementType) (user_custom_margin_ratio : Z) (user_high_leverage_mode : bool) :
    DriftResult (Z * Z * Z * Z) :=
  let! '(base_asset_value, total_unrealized_pnl) := unrealized_pnl_with_funding p m d in
  let! '(worst_case_base, value) := worst_case_liability_value p (price d) (contract_type m) in
  let! strict := cast_u 128 (strict_max q) in
  let! value := safe_u 128 (value * strict) in
  let! value := safe_udiv value PRICE_PRECISION in
  let! requirement := perp_requirement m t user_custom_margin_ratio user_high_leverage_mode worst_case_base value in
  let! orders := margin_requirement_for_open_orders p in
  let! requirement := safe_u 128 (requirement + orders) in
  let! pnl := weigh_unrealized_pnl m q t total_unrealized_pnl in
  Ok (requirement, pnl, value, base_asset_value).

(** What the loops read: the markets by index; and what they carry. *)
Record Markets := mkMarkets { mk_perps : gmap Z PerpMarket; mk_spots : gmap Z SpotMarket }.

(** A deposit or a borrow of the quote asset, whose weights are all one. *)
Definition add_quote_position (c : MarginCalculation) (sp : SpotPosition) (m : SpotMarket) (p : StrictOraclePrice)
    (oracle_valid skip_token_value : bool) : DriftResult MarginCalculation :=
  let! token_amount := spot_get_signed_token_amount sp m in
  let! _ := if token_amount =? 0 then validate (sp_scaled_balance sp =? 0) InvalidMarginRatio else Ok tt in
  let! c := update_fuel_spot_bonus c m token_amount p in
  let! token_value := get_strict_token_value token_amount (decimals m) p in
  match sp_balance_type sp with
  | Deposit =>
      let v := if (ignore_invalid_deposit_oracles (context c) && negb oracle_valid) || skip_token_value then 0 else token_value in
      let! c := add_cross_margin_total_collateral c v in
      Ok (update_all_deposit_oracles_valid c oracle_valid)
  | Borrow =>
      do! validate (negb (token_value =? 0)) InvalidMarginRatio in
      let! c := add_cross_margin_margin_requirement c (Z.abs token_value) (Z.abs token_value) (mkMarketIdentifier Spot 0) in
      let! c := add_spot_liability c in
      Ok (update_all_liability_oracles_valid c oracle_valid)
  end.

Definition add_worst_case_value (c : MarginCalculation) (sp : SpotPosition) (m : SpotMarket) (s : OrderFillSimulation)
    (oracle_valid : bool) : DriftResult MarginCalculation :=
  let value := fs_token_value s in
  let w := fs_weighted_token_value s in
  let isolated := bool_decide (asset_tier m = Isolated) in
  if 0 <? value then
    let w := if ignore_invalid_deposit_oracles (context c) && negb oracle_valid then 0 else w in
    let! c := add_cross_margin_total_collateral c w in
    Ok (update_all_deposit_oracles_valid c oracle_valid)
  else if value <? 0 then
    do! validate (Z.abs value <=? Z.abs w) InvalidMarginRatio in
    do! validate (negb (w =? 0)) InvalidOracle in
    let! c := add_cross_margin_margin_requirement c (Z.abs w) (Z.abs value) (mkMarketIdentifier Spot (sm_market_index m)) in
    let! c := add_spot_liability c in
    Ok (update_all_liability_oracles_valid (update_with_spot_isolated_liability c isolated) oracle_valid)
  else if spot_has_open_order sp then
    let! c := add_spot_liability c in
    Ok (update_with_spot_isolated_liability (update_all_liability_oracles_valid c oracle_valid) isolated)
  else Ok c.

Definition add_orders_value (c : MarginCalculation) (orders_value : Z) (oracle_valid : bool) : DriftResult MarginCalculation :=
  if 0 <? orders_value then
    add_cross_margin_total_collateral c
      (if ignore_invalid_deposit_oracles (context c) && negb oracle_valid then 0 else orders_value)
  else if orders_value <? 0 then
    add_cross_margin_margin_requirement c (Z.abs orders_value) (Z.abs orders_value) (mkMarketIdentifier Spot 0)
  else Ok c.

(** A position in another token: the worse of filling its bids or its asks. *)
Definition add_token_position (c : MarginCalculation) (sp : SpotPosition) (m : SpotMarket) (p : StrictOraclePrice)
    (t : MarginRequirementType) (custom : Z) (oracle_valid : bool) : DriftResult MarginCalculation :=
  let! signed_token_amount := spot_get_signed_token_amount sp m in
  let! c := update_fuel_spot_bonus c m signed_token_amount p in
  let! s := get_worst_case_fill_simulation sp m p (Some signed_token_amount) t in
  let! s := apply_user_custom_margin_ratio s m (current p) custom in
  let! _ := if fs_token_amount s =? 0 then validate (sp_scaled_balance sp =? 0) InvalidMarginRatio else Ok tt in
  let! orders := spot_margin_requirement_for_open_orders sp in
  let! c := add_cross_margin_margin_requirement c orders 0 (mkMarketIdentifier Spot (sm_market_index m)) in
  let! c := add_worst_case_value c sp m s oracle_valid in
  add_orders_value c (fs_orders_value s) oracle_valid.

(** The user's own ratio, or the override, for spot positions. *)
Definition spot_custom_ratio (ctx : MarginContext) (u : User) : Z :=
  let custom :=
    if bool_decide (get_cross_margin_requirement_type (margin_type_config ctx) = Initial) then u_max_margin_ratio u else 0 in
  match margin_ratio_override ctx with Some o => Z.max o custom | None => custom end.

Definition add_spot_position_margin (ctx : MarginContext) (u : User) (ms : Markets) (s : MarginCalculation * OracleMap)
    (sp : SpotPosition) : DriftResult (MarginCalculation * OracleMap) :=
  let '(c, o) := s in
  do! validate_spot_position sp in
  if spot_is_available sp then Ok (c, o)
  else
    let! m := spot_get_ref (mk_spots ms) (sp_market_index sp) in
    let! '(d, v, o) := get_price_data_and_validity o (spot_oracle_id m) (spot_validity_terms m) in
    let skip_token_value := (u_pool_id u =? 1) && (sm_market_index m =? 0) && negb (is_borrow sp) in
    let! _ := if skip_token_value then Ok tt else validate (u_pool_id u =? sm_pool_id m) InvalidPoolId in
    let oracle_valid := is_oracle_valid_for_action v (Some MarginCalc) in
    let p := strict_new (price d) (last_oracle_price_twap_5min (historical_oracle_data m)) (strict (context c)) in
    do! strict_validate p in
    let! c :=
      if sm_market_index m =? 0 then add_quote_position c sp m p oracle_valid skip_token_value
      else
        add_token_position c sp m p (get_cross_margin_requirement_type (margin_type_config ctx)) (spot_custom_ratio ctx u)
          oracle_valid in
    Ok (c, o).

(** The kind of requirement of a position, and the ratio its owner chose. *)
Definition position_margin_type (ctx : MarginContext) (p : PerpPosition) : MarginRequirementType :=
  if is_isolated p then get_isolated_margin_requirement_type (margin_type_config ctx) (pp_market_index p)
  else get_cross_margin_requirement_type (margin_type_config ctx).
Definition perp_custom_ratio (ctx : MarginContext) (u : User) (p : PerpPosition) (t : MarginRequirementType) : Z :=
  let custom := if bool_decide (t = Initial) then Z.max (u_max_margin_ratio u) (pp_max_margin_ratio p) else 0 in
  match margin_ratio_override ctx with Some o => Z.max o custom | None => custom end.

Definition has_perp_liability (p : PerpPosition) : bool :=
  negb (pp_base_asset_amount p =? 0) || (pp_quote_asset_amount p <? 0) || has_open_order p.

(** The requirement and the result go to the position's own calculation, with its
    deposit, or to the cross one. *)
Definition add_perp_values (ms : Markets) (c : MarginCalculation) (p : PerpPosition) (m : PerpMarket) (q : StrictOraclePrice)
    (requirement pnl value : Z) : DriftResult MarginCalculation :=
  if is_isolated p then
    let! qm := spot_get_ref (mk_spots ms) (quote_spot_market_index m) in
    let! quote_token_amount := get_token_amount (pp_isolated_position_scaled_balance p) qm Deposit in
    let! a := cast_i 128 quote_token_amount in
    let! quote_token_value := get_strict_token_value a (decimals qm) q in
    add_isolated_margin_calculation c (pm_market_index m) quote_token_value pnl value requirement
  else
    let! c := add_cross_margin_margin_requirement c requirement value (mkMarketIdentifier Perp (pm_market_index m)) in
    add_cross_margin_total_collateral c pnl.

Definition note_perp_liability (c : MarginCalculation) (p : PerpPosition) (m : PerpMarket) (t : MarginRequirementType)
    (quote_valid oracle_valid : bool) : DriftResult MarginCalculation :=
  let! c :=
    if has_perp_liability p then
      let! c := add_perp_liability c in
      Ok (update_with_perp_isolated_liability c (bool_decide (contract_tier m = TierIsolated)))
    else Ok c in
  Ok (if has_perp_liability p || negb (bool_decide (t = Initial)) then
        update_all_liability_oracles_valid (update_all_liability_oracles_valid c quote_valid) oracle_valid
      else c).

Definition add_perp_position_margin (ctx : MarginContext) (u : User) (ms : Markets) (s : MarginCalculation * OracleMap)
    (p : PerpPosition) : DriftResult (MarginCalculation * OracleMap) :=
  let '(c, o) := s in
  if is_available p then Ok (c, o)
  else
    let! m := perp_get_ref (mk_perps ms) (pp_market_index p) in
    do! validate (u_pool_id u =? pm_pool_id m) InvalidPoolId in
    let! qm := spot_get_ref (mk_spots ms) (quote_spot_market_index m) in
    let! '(qd, qv, o) := get_price_data_and_validity o (spot_oracle_id qm) (spot_validity_terms qm) in
    let q := strict_new (price qd) (last_oracle_price_twap_5min (historical_oracle_data qm)) (strict (context c)) in
    let! '(d, v, o) := get_price_data_and_validity o (perp_oracle_id m) (perp_validity_terms m) in
    let t := position_margin_type ctx p in
    let! '(requirement, pnl, value, base_asset_value) :=
      calculate_perp_position_value_and_pnl p m d q t (perp_custom_ratio ctx u p t)
        (is_high_leverage_mode u (bool_decide (t = Maintenance))) in
    let! c := update_fuel_perp_bonus c m p base_asset_value (price d) in
    let! c := add_perp_values ms c p m q requirement pnl value in
    let! c := note_perp_liability c p m t (is_oracle_valid_for_action qv (Some MarginCalc))
                (is_oracle_valid_for_action v (Some MarginCalc)) in
    Ok (c, o).

(** Fuel of the markets with a change but no position. *)
Definition add_fuel_delta (u : User) (ms : Markets) (s : MarginCalculation * OracleMap) (delta : Z * Z) :
    DriftResult (MarginCalculation * OracleMap) :=
  let '(c, o) := s in
  let '(market_index, delta) := delta in
  if (delta =? 0) || existsb (fun p => (sp_market_index p =? market_index) && negb (spot_is_available p)) (u_spot_positions u)
  then Ok (c, o)
  else
    let! m := spot_get_ref (mk_spots ms) market_index in
    let! '(d, o) := get_price_data o (spot_oracle_id m) in
    let p := strict_new (price d) (last_oracle_price_twap_5min (historical_oracle_data m)) (strict (context c)) in
    do! strict_validate p in
    let! c := update_fuel_spot_bonus c m 0 p in
    Ok (c, o).

Definition calculate_margin_requirement_and_total_collateral_and_liability_info (u : User) (ms : Markets) (o : OracleMap)
    (ctx : MarginContext) : DriftResult (MarginCalculation * OracleMap) :=
  let! s := foldO (add_spot_position_margin ctx u ms) (new_calculation ctx, o) (u_spot_positions u) in
  let! '(c, o) := foldO (add_perp_position_margin ctx u ms) s (u_perp_positions u) in
  do! validate_num_spot_liabilities c in
  foldO (add_fuel_delta u ms) (c, o) (fuel_spot_deltas ctx).

(** ** What the calculation decides *)

Definition validate_any_isolated_tier_requirements (u : User) (c : MarginCalculation) : DriftResult unit :=
  let! _ :=
    if with_perp_isolated_liability c && negb (is_reduce_only u) then
      do! validate (num_perp_liabilities c <=? 1) IsolatedAssetTierViolation in
      do! validate (negb (u_is_margin_trading_enabled u)) IsolatedAssetTierViolation in
      if 0 <? num_spot_liabilities c then
        let! q := unwrap (u_spot_positions u !! 0%nat) in
        validate ((num_spot_liabilities c =? 1) && is_borrow q) IsolatedAssetTierViolation
      else Ok tt
    else Ok tt in
  if with_spot_isolated_liability c && negb (is_reduce_only u) then
    validate ((num_perp_liabilities c =? 0) && (num_spot_liabilities c =? 1)) IsolatedAssetTierViolation
  else Ok tt.

Definition place_order_config (risk_increasing : bool) (isolated_market_index : option Z) : MarginTypeConfig :=
  if risk_increasing then
    match isolated_market_index with
    | Some i => IsolatedPositionOverride i Initial Maintenance Maintenance
    | None => CrossMarginOverride Initial Maintenance
    end
  else DefaultConfig Maintenance.

Definition meets_place_order_margin_requirement (u : User) (ms : Markets) (o : OracleMap) (risk_increasing : bool)
    (isolated_market_index : option Z) : DriftResult OracleMap :=
  let! '(c, o) := calculate_margin_requirement_and_total_collateral_and_liability_info u ms o
    (standard_with_config (place_order_config risk_increasing isolated_market_index) <| strict := true |>) in
  if negb (meets_margin_requirement c) then Err InsufficientCollateral
  else
    do! validate_any_isolated_tier_requirements u c in
    Ok o.

Definition meets (u : User) (ms : Markets) (o : OracleMap) (ctx : MarginContext) : DriftResult bool :=
  let! '(c, _) := calculate_margin_requirement_and_total_collateral_and_liability_info u ms o ctx in
  Ok (meets_margin_requirement c).
Definition meets_initial_margin_requirement (u : User) (ms : Markets) (o : OracleMap) : DriftResult bool :=
  meets u ms o (standard Initial).
Definition meets_settle_pnl_maintenance_margin_requirement (u : User) (ms : Markets) (o : OracleMap) : DriftResult bool :=
  meets u ms o (standard Maintenance <| strict := true |>).
Definition meets_maintenance_margin_requirement (u : User) (ms : Markets) (o : OracleMap) : DriftResult bool :=
  meets u ms o (standard Maintenance).

Definition validate_user_can_enable_high_leverage_mode (u : User) (ms : Markets) (o : OracleMap) : DriftResult unit :=
  do! validate (negb (bool_decide (u_margin_mode u = HighLeverage))) DefaultError in
  let! b := meets_maintenance_margin_requirement u ms o in
  validate b InsufficientCollateral.

(** [10^(decimals - 6)] up or down. *)
Definition decimal_scale (from to : Z) : DriftResult (Z * Z) :=
  if to <? from then let! n := uchk 128 (10 ^ (from - to)) in Ok (n, 1)
  else let! d := uchk 128 (10 ^ (to - from)) in Ok (1, d).

Definition calculate_max_withdrawable_amount (market_index : Z) (u : User) (ms : Markets) (o : OracleMap) :
    DriftResult (Z * OracleMap) :=
  let! '(c, o) := calculate_margin_requirement_and_total_collateral_and_liability_info u ms o (standard Initial) in
  let! m := spot_get_ref (mk_spots ms) market_index in
  let! sp := get_spot_position u market_index in
  let! token_amount := spot_get_token_amount sp m in
  let! '(d, o) := get_price_data o (spot_oracle_id m) in
  let! asset_weight := get_asset_weight m token_amount (price d) Initial in
  if asset_weight =? 0 then Ok (umax 64, o)
  else
    let! n := get_num_of_liabilities c in
    if n =? 0 then let! t := cast_u 64 token_amount in Ok (t, o)
    else
      let! free := get_cross_free_collateral c in
      let! '(numerator_scale, denominator_scale) := decimal_scale (decimals m) 6 in
      let! x := safe_u 128 (usat 128 (free - 1) * MARGIN_PRECISION) in
      let! x := safe_udiv x asset_weight in
      let! x := safe_u 128 (x * PRICE_PRECISION) in
      let! p := cast_u 128 (price d) in
      let! x := safe_udiv x p in
      let! x := safe_u 128 (x * numerator_scale) in
      let! x := safe_udiv x denominator_scale in
      let! x := cast_u 64 x in
      Ok (x, o).

(** The quote the open bids of a position would cost; its asks must be covered. *)
Definition covered_orders_value (ms : Markets) (s : Z * OracleMap) (sp : SpotPosition) : DriftResult (Z * OracleMap) :=
  let '(total_open_bids_value, o) := s in
  let! _ :=
    if sp_open_asks sp <? 0 then
      let! m := spot_get_ref (mk_spots ms) (sp_market_index sp) in
      let! a := spot_get_signed_token_amount sp m in
      let! x := safe_i 128 (a + sp_open_asks sp) in
      validate (0 <=? x) MarginTradingDisabled
    else Ok tt in
  if 0 <? sp_open_bids sp then
    let! m := spot_get_ref (mk_spots ms) (sp_market_index sp) in
    let! '(d, o) := get_price_data o (spot_oracle_id m) in
    let! n := ichk 64 (- sp_open_bids sp) in
    let! v := get_token_value n (decimals m) (price d) in
    let! t := safe_i 128 (total_open_bids_value + v) in
    Ok (t, o)
  else Ok (total_open_bids_value, o).

Definition no_isolated_tier (ms : Markets) (_ : unit) (p : PerpPosition) : DriftResult unit :=
  if is_available p then Ok tt
  else
    let! m := perp_get_ref (mk_perps ms) (pp_market_index p) in
    validate (negb (bool_decide (contract_tier m = TierIsolated))) IsolatedAssetTierViolation.

Definition validate_spot_margin_trading (u : User) (ms : Markets) (o : OracleMap) : DriftResult OracleMap :=
  if u_is_margin_trading_enabled u then
    do! foldO (no_isolated_tier ms) tt (u_perp_positions u) in
    Ok o
  else
    let! '(total_open_bids_value, o) := foldO (covered_orders_value ms) (0, o) (u_spot_positions u) in
    let! q := unwrap (u_spot_positions u !! 0%nat) in
    let! quote_token_amount :=
      if spot_is_available q then Ok 0
      else
        let! m := spot_get_ref (mk_spots ms) QUOTE_SPOT_MARKET_INDEX in
        spot_get_signed_token_amount q m in
    let! _ :=
      if total_open_bids_value =? 0 then Ok tt
      else
        let! x := safe_i 128 (quote_token_amount + total_open_bids_value) in
        validate (0 <=? x) MarginTradingDisabled in
    Ok o.

(** The ratios of the positions are cleared for the calculation and put back; the
    ratio of the user is not. *)
Definition clear_ratio (p : PerpPosition) : PerpPosition := p <| pp_max_margin_ratio := 0 |>.
Definition get_margin_calculation_for_disable_high_leverage_mode (u : User) (ms : Markets) (o : OracleMap) :
    DriftResult (User * MarginCalculation * OracleMap) :=
  let cleared := u <| u_perp_positions := map clear_ratio (u_perp_positions u) |> in
  let! '(c, o) := calculate_margin_requirement_and_total_collateral_and_liability_info cleared ms o
    (standard Initial <| margin_buffer := MARGIN_PRECISION / 100 |>) in
  Ok (cleared <| u_perp_positions :=
        zip_with (fun p r => if r =? 0 then p else p <| pp_max_margin_ratio := r |>) (u_perp_positions cleared)
          (map pp_max_margin_ratio (u_perp_positions u)) |>, c, o).

(** The safest tiers among the markets the user owes in. *)
Definition safer_asset (a b : AssetTier) : AssetTier := if asset_rank a <=? asset_rank b then a else b.
Definition safer_contract (a b : ContractTier) : ContractTier := if tier_rank a <=? tier_rank b then a else b.
Definition calculate_user_safest_position_tiers (u : User) (ms : Markets) : DriftResult (AssetTier * ContractTier) :=
  let! a := foldO (fun a sp =>
    if spot_is_available sp || balance_type_eqb (sp_balance_type sp) Deposit then Ok a
    else let! m := spot_get_ref (mk_spots ms) (sp_market_index sp) in Ok (safer_asset a (asset_tier m)))
    Unlisted (u_spot_positions u) in
  let! c := foldO (fun c p =>
    if is_available p then Ok c
    else let! m := perp_get_ref (mk_perps ms) (pp_market_index p) in Ok (safer_contract c (contract_tier m)))
    HighlySpeculative (u_perp_positions u) in
  Ok (a, c).

(** ** Equity *)

Definition spot_equity (ms : Markets) (s : Z * bool * OracleMap) (sp : SpotPosition) : DriftResult (Z * bool * OracleMap) :=
  let '(net_usd_value, valid, o) := s in
  if spot_is_available sp then Ok s
  else
    let! m := spot_get_ref (mk_spots ms) (sp_market_index sp) in
    let! '(d, v, o) := get_price_data_and_validity o (spot_oracle_id m) (spot_validity_terms m) in
    let! a := spot_get_signed_token_amount sp m in
    let! x := get_token_value a (decimals m) (price d) in
    let! net := safe_i 128 (net_usd_value + x) in
    Ok (net, valid && is_oracle_valid_for_action v (Some MarginCalc), o).

Definition perp_equity (ms : Markets) (s : Z * bool * OracleMap) (p : PerpPosition) : DriftResult (Z * bool * OracleMap) :=
  let '(net_usd_value, valid, o) := s in
  if is_available p then Ok s
  else
    let! m := perp_get_ref (mk_perps ms) (pp_market_index p) in
    let! qm := spot_get_ref (mk_spots ms) (quote_spot_market_index m) in
    let! '(qd, qv, o) := get_price_data_and_validity o (spot_oracle_id qm) (spot_validity_terms qm) in
    let! net_usd_value :=
      if is_isolated p then
        let! a := get_isolated_token_amount p qm in
        let! a := cast_i 128 a in
        let! x := get_token_value a (decimals qm) (price qd) in
        safe_i 128 (net_usd_value + x)
      else Ok net_usd_value in
    let! '(d, v, o) := get_price_data_and_validity o (perp_oracle_id m) (perp_validity_terms m) in
    let! '(_, pnl) := unrealized_pnl_with_funding p m d in
    let! x := safe_i 128 (pnl * price qd) in
    let! pnl_value := safe_idiv 128 x PRICE_PRECISION in
    let! net := safe_i 128 (net_usd_value + pnl_value) in
    Ok (net, valid && is_oracle_valid_for_action qv (Some MarginCalc) && is_oracle_valid_for_action v (Some MarginCalc), o).

Definition calculate_user_equity (u : User) (ms : Markets) (o : OracleMap) : DriftResult (Z * bool * OracleMap) :=
  let! s := foldO (spot_equity ms) (0, true, o) (u_spot_positions u) in
  foldO (perp_equity ms) s (u_perp_positions u).

End Calculation.

(** ** [validation/margin.rs] *)

Definition within (lo hi x : Z) : bool := (lo <=? x) && (x <=? hi).

Definition validate_margin (initial maintenance high_initial high_maintenance liquidation_fee max_spread : Z) :
    DriftResult unit :=
  do! require (within MIN_MARGIN_RATIO MAX_MARGIN_RATIO initial) InvalidMarginRatio in
  do! require (within MIN_MARGIN_RATIO MAX_MARGIN_RATIO maintenance) InvalidMarginRatio in
  do! (if negb (high_initial =? 0) && negb (high_maintenance =? 0) then
         do! require (negb (initial <=? high_initial)) InvalidMarginRatio in
         do! require (negb (maintenance <=? high_maintenance)) InvalidMarginRatio in
         do! require (negb (high_initial <=? high_maintenance)) InvalidMarginRatio in
         do! require (within HIGH_LEVERAGE_MIN_MARGIN_RATIO MAX_MARGIN_RATIO high_initial) InvalidMarginRatio in
         require (within HIGH_LEVERAGE_MIN_MARGIN_RATIO MAX_MARGIN_RATIO high_maintenance) InvalidMarginRatio
       else require (negb (negb (high_initial =? 0) || negb (high_maintenance =? 0))) InvalidMarginRatio) in
  do! require (negb (initial <=? maintenance)) InvalidMarginRatio in
  let! f := uchk 32 (maintenance * LIQUIDATION_FEE_TO_MARGIN_PRECISION_RATIO) in
  do! validate (liquidation_fee <? f) InvalidMarginRatio in
  let! s := uchk 32 (initial * 100) in
  validate (max_spread <? s) InvalidMarginRatio.

Definition validate_margin_weights (spot_market_index initial_asset maintenance_asset initial_liability
    maintenance_liability imf_factor : Z) : DriftResult unit :=
  let ok b := validate b InvalidSpotMarketInitialization in
  do! (if spot_market_index =? 0 then
         do! ok (initial_asset =? SPOT_WEIGHT_PRECISION) in
         do! ok (maintenance_asset =? SPOT_WEIGHT_PRECISION) in
         do! ok (initial_liability =? SPOT_WEIGHT_PRECISION) in
         ok (maintenance_liability =? SPOT_WEIGHT_PRECISION)
       else
         do! ok (initial_asset <=? SPOT_WEIGHT_PRECISION) in
         do! ok ((initial_asset <=? maintenance_asset) && (0 <? maintenance_asset)
                 && (maintenance_asset <=? SPOT_WEIGHT_PRECISION)) in
         do! ok (SPOT_WEIGHT_PRECISION <=? initial_liability) in
         ok ((maintenance_liability <=? initial_liability) && (SPOT_WEIGHT_PRECISION <=? maintenance_liability))) in
  ok (imf_factor <? SPOT_IMF_PRECISION).

(** * Initial margin is stricter than maintenance margin *)

(** The collateral less the requirement. *)
Definition net (c : MarginCalculation) : Z := total_collateral c - margin_requirement c.
Definition ic_net (i : IsolatedMarginCalculation) : Z := ic_total_collateral i - ic_margin_requirement i.

Definition typed (c : MarginCalculation) : Prop := in_i 128 (total_collateral c) /\ in_u 128 (margin_requirement c).
Definition ic_typed (i : IsolatedMarginCalculation) : Prop :=
  in_i 128 (ic_total_collateral i) /\ in_u 128 (ic_margin_requirement i).

(** A step that moves the net value by [d] and nothing else that decides. *)
Record moved (d : Z) (c c' : MarginCalculation) : Prop := {
  mv_net : net c' = net c + d;
  mv_isolated : isolated_margin_calculations c' = isolated_margin_calculations c;
  mv_context : context c' = context c;
  mv_typed : typed c -> typed c';
}.

Lemma moved_refl c : moved 0 c c.
Proof. constructor; [lia|done..]. Qed.
Lemma moved_trans d e c1 c2 c3 : moved d c1 c2 -> moved e c2 c3 -> moved (d + e) c1 c3.
Proof. intros [] []. constructor; [lia|congruence|congruence|auto]. Qed.

#[local] Ltac still := constructor; [unfold net; cbn; lia|done|done|done].

Lemma collateral_moved c x c' : add_cross_margin_total_collateral c x = Ok c' -> moved x c c'.
Proof.
  intros H. unfold add_cross_margin_total_collateral in H. apply obind_Ok in H as (t & [-> Ht]%safe_i_Ok & H). cbv zeta in H.
  destruct (_ && _) in H.
  - apply obind_Ok in H as (b & _ & H). apply obind_Ok in H as (tb & _ & [= <-]).
    constructor; [unfold net; cbn; lia|done|done|intros [_ ?]; by split].
  - injection H as <-. constructor; [unfold net; cbn; lia|done|done|intros [_ ?]; by split].
Qed.
Lemma track_moved c i x c' : track c i x = Ok c' -> moved 0 c c'.
Proof.
  intros H. unfold track in H. destruct (market_to_track _); [|injection H as <-; apply moved_refl].
  destruct (market_eqb _ _); [|injection H as <-; apply moved_refl]. apply obind_Ok in H as (r & _ & [= <-]). still.
Qed.
Lemma requirement_moved c x l i c' : add_cross_margin_margin_requirement c x l i = Ok c' -> moved (- x) c c'.
Proof.
  intros H. unfold add_cross_margin_margin_requirement in H. apply obind_Ok in H as (r & [-> Hr]%safe_u_Ok & H).
  apply obind_Ok in H as (c1 & H1 & H2%track_moved). cbv zeta in H1.
  replace (- x) with (- x + 0) by lia. eapply moved_trans; [|exact H2].
  destruct (0 <? _) in H1.
  - apply obind_Ok in H1 as (b & _ & H1). apply obind_Ok in H1 as (rb & _ & [= <-]).
    constructor; [unfold net; cbn; lia|done|done|intros [? _]; by split].
  - injection H1 as <-. constructor; [unfold net; cbn; lia|done|done|intros [? _]; by split].
Qed.
Lemma spot_liability_moved c c' : add_spot_liability c = Ok c' -> moved 0 c c'.
Proof. intros H. unfold add_spot_liability in H. apply obind_Ok in H as (n & _ & [= <-]). still. Qed.
Lemma perp_fuel_moved c m p b x c' : update_fuel_perp_bonus c m p b x = Ok c' -> moved 0 c c'.
Proof.
  intros H. unfold update_fuel_perp_bonus in H. destruct (_ =? 0) in H; [injection H as <-; apply moved_refl|].
  apply obind_Ok in H as (v & _ & H). apply obind_Ok in H as (f & _ & [= <-]). still.
Qed.
Lemma spot_fuel_moved c m x p c' : update_fuel_spot_bonus c m x p = Ok c' -> moved 0 c c'.
Proof.
  intros H. unfold update_fuel_spot_bonus in H. destruct (_ && _) in H; [injection H as <-; apply moved_refl|].
  apply obind_Ok in H as (a & _ & H). destruct (_ && _) in H.
  { apply obind_Ok in H as (v & _ & H). apply obind_Ok in H as (f & _ & [= <-]). still. }
  destruct (_ && _) in H; [|injection H as <-; apply moved_refl].
  apply obind_Ok in H as (v & _ & H). apply obind_Ok in H as (f & _ & [= <-]). still.
Qed.
Lemma perp_liability_moved c p m t q v c' : note_perp_liability c p m t q v = Ok c' -> moved 0 c c'.
Proof.
  intros H. unfold note_perp_liability in H. apply obind_Ok in H as (c1 & H1 & H).
  assert (moved 0 c c1) as Hm.
  { destruct (has_perp_liability p); [|injection H1 as <-; apply moved_refl].
    apply obind_Ok in H1 as (c2 & H2 & [= <-]). unfold add_perp_liability in H2. apply obind_Ok in H2 as (n & _ & [= <-]). still. }
  replace 0 with (0 + 0) by done. eapply moved_trans; [exact Hm|]. injection H as <-.
  destruct (_ || _); [still|apply moved_refl].
Qed.

(** ** Spot positions *)

Lemma quot_mono a b k : 0 < k -> a <= b -> a ÷ k <= b ÷ k.
Proof. intros. by apply Z.quot_le_mono. Qed.

Lemma weighted_Ok v w r : weighted v w = Ok r -> r = v * w ÷ SPOT_WEIGHT_PRECISION.
Proof. intros H. unfold weighted in H. by apply obind_Ok in H as (p & [-> _]%safe_i_Ok & (_ & -> & _)%safe_idiv_Ok). Qed.

Lemma weighted_mono v w1 w2 r1 r2 :
  weighted v w1 = Ok r1 -> weighted v w2 = Ok r2 -> (0 <= v /\ w1 <= w2) \/ (v <= 0 /\ w2 <= w1) -> r1 <= r2.
Proof. intros ->%weighted_Ok ->%weighted_Ok H. apply quot_mono; [done|]. nia. Qed.
Lemma weighted_sign v w r : weighted v w = Ok r -> 0 <= w -> (0 <= v -> 0 <= r) /\ (v <= 0 -> r <= 0).
Proof.
  intros ->%weighted_Ok Hw. change SPOT_WEIGHT_PRECISION with 10000. split; intros Hv.
  - apply Z.quot_pos; nia.
  - assert (v * w ÷ 10000 <= 0 ÷ 10000) by (apply quot_mono; [done|nia]). change (0 ÷ 10000) with 0 in *. done.
Qed.

(** A market as the handlers configure it. *)
Record sound_spot (m : SpotMarket) : Prop := {
  ss_weights : validate_margin_weights (sm_market_index m) (initial_asset_weight m) (maintenance_asset_weight m)
                 (initial_liability_weight m) (maintenance_liability_weight m) (sm_imf_factor m) = Ok tt;
  ss_asset : 0 <= initial_asset_weight m;
  ss_scale : 0 <= scale_initial_asset_weight_start m;
}.

Lemma sound_spot_order m : sound_spot m ->
  initial_asset_weight m <= maintenance_asset_weight m /\ 0 <= maintenance_liability_weight m <= initial_liability_weight m.
Proof.
  intros [H Ha _]. unfold validate_margin_weights in H. cbv zeta in H. apply obind_Ok in H as (u & H & _).
  change SPOT_WEIGHT_PRECISION with 10000 in H.
  destruct (sm_market_index m =? 0); apply obind_Ok in H as (u1 & H1%validate_Ok & H);
    apply obind_Ok in H as (u2 & H2%validate_Ok & H); apply obind_Ok in H as (u3 & H3%validate_Ok & H);
    apply validate_Ok in H; lia.
Qed.

Section Stricter.
Context {roots : Roots}.

Lemma premium_mono size imf w1 w2 prec r1 r2 b1 b2 :
  calculate_size_premium_liability_weight size imf w1 prec b1 = Ok r1 ->
  calculate_size_premium_liability_weight size imf w2 prec b2 = Ok r2 ->
  w1 <= w2 -> Z.max r1 w1 <= Z.max r2 w2.
Proof.
  intros H1 H2 Hw. unfold calculate_size_premium_liability_weight in H1, H2.
  destruct (imf =? 0); [injection H1 as <-; injection H2 as <-; lia|].
  apply obind_Ok in H1 as (s & Hs & H1). apply obind_Ok in H2 as (s' & Hs' & H2).
  rewrite Hs in Hs'. injection Hs' as <-.
  apply obind_Ok in H1 as (f1 & [_ ->]%safe_udiv_Ok & H1). apply obind_Ok in H2 as (f2 & [_ ->]%safe_udiv_Ok & H2).
  apply obind_Ok in H1 as (n1 & [-> _]%safe_u_Ok & H1). apply obind_Ok in H2 as (n2 & [-> _]%safe_u_Ok & H2).
  apply obind_Ok in H1 as (p & [-> _]%safe_u_Ok & H1). apply obind_Ok in H2 as (p' & [-> _]%safe_u_Ok & H2).
  apply obind_Ok in H1 as (q & [_ ->]%safe_udiv_Ok & H1). apply obind_Ok in H2 as (q' & [_ ->]%safe_udiv_Ok & H2).
  apply obind_Ok in H1 as (t1 & [-> _]%safe_u_Ok & H1). apply obind_Ok in H2 as (t2 & [-> _]%safe_u_Ok & H2).
  apply obind_Ok in H1 as (v1 & [-> _]%cast_u_Ok & H1). apply obind_Ok in H2 as (v2 & [-> _]%cast_u_Ok & H2).
  set (q := s * imf / _) in *. clearbody q.
  assert (w1 - w1 / 5 <= w2 - w2 / 5) by (Z.to_euclidean_division_equations; lia).
  destruct b1, b2; injection H1 as <-; injection H2 as <-; lia.
Qed.

Lemma discount_Ok size imf w r : calculate_size_discount_asset_weight size imf w = Ok r ->
  exists d, 0 <= d /\ (imf = 0 /\ r = w \/ imf <> 0 /\ r = Z.min w d)
    /\ forall w' r', calculate_size_discount_asset_weight size imf w' = Ok r' -> imf <> 0 -> r' = Z.min w' d.
Proof.
  intros H. unfold calculate_size_discount_asset_weight in *. destruct (Z.eqb_spec imf 0) as [->|Hi].
  { injection H as <-. exists 0. split_and!; [done|by left|done]. }
  apply obind_Ok in H as (s & Hs & H). cbv zeta in H. apply obind_Ok in H as (n & Hn & H).
  apply obind_Ok in H as (p & Hp & H). apply obind_Ok in H as (q & Hq & H). apply obind_Ok in H as (d & Hd & H).
  apply obind_Ok in H as (w0 & Hw & H). apply obind_Ok in H as (w1 & Hc & [= <-]).
  pose proof Hc as [-> Hr]%cast_u_Ok. exists w0. split_and!; [range|by right|].
  intros w' r' H' _. rewrite Hs in H'. cbn [obind] in H'. rewrite Hn in H'. cbn [obind] in H'. rewrite Hp in H'. cbn [obind] in H'.
  rewrite Hq in H'. cbn [obind] in H'. rewrite Hd in H'. cbn [obind] in H'. rewrite Hw in H'. cbn [obind] in H'. rewrite Hc in H'.
  by injection H' as <-.
Qed.

Lemma discount_mono size imf w1 w2 r1 r2 :
  calculate_size_discount_asset_weight size imf w1 = Ok r1 -> calculate_size_discount_asset_weight size imf w2 = Ok r2 ->
  w1 <= w2 -> r1 <= r2.
Proof.
  intros (d & Hd & [[Hz ->]|[Hz ->]] & H)%discount_Ok H2 Hw.
  - unfold calculate_size_discount_asset_weight in H2. rewrite Hz in H2. by injection H2 as <-.
  - rewrite (H _ _ H2 Hz). lia.
Qed.
Lemma discount_range size imf w r : calculate_size_discount_asset_weight size imf w = Ok r -> 0 <= w -> 0 <= r <= w.
Proof. intros (d & Hd & [[_ ->]|[_ ->]] & _)%discount_Ok Hw; lia. Qed.

Lemma scaled_weight_range m p w : get_scaled_initial_asset_weight m p = Ok w -> sound_spot m -> 0 <= w <= initial_asset_weight m.
Proof.
  intros H [_ Ha Hs]. unfold get_scaled_initial_asset_weight in H. destruct (Z.eqb_spec (scale_initial_asset_weight_start m) 0).
  { injection H as <-. lia. }
  apply obind_Ok in H as (d & _ & H). apply obind_Ok in H as (d' & _ & H). apply obind_Ok in H as (v & _ & H).
  apply obind_Ok in H as (dv & [-> _]%cast_u_Ok & H). destruct (Z.ltb_spec v (scale_initial_asset_weight_start m)).
  { injection H as <-. lia. }
  apply obind_Ok in H as (q & [-> _]%safe_u_Ok & H). apply obind_Ok in H as (r & [_ ->]%safe_udiv_Ok & [-> Hr]%cast_u_Ok).
  split; [range|]. apply Z.div_le_upper_bound; nia.
Qed.

Lemma asset_weight_stricter m size p w1 w2 :
  get_asset_weight m size p Initial = Ok w1 -> get_asset_weight m size p Maintenance = Ok w2 -> sound_spot m ->
  0 <= w1 <= w2.
Proof.
  intros H1 H2 Hm. pose proof (sound_spot_order m Hm) as [Ho _]. unfold get_asset_weight in H1, H2.
  apply obind_Ok in H1 as (s & Hs & H1). apply obind_Ok in H2 as (s' & Hs' & H2). rewrite Hs in Hs'. injection Hs' as <-.
  apply obind_Ok in H1 as (d & Hd%scaled_weight_range & H1); [|done]. cbn [obind] in H2.
  apply obind_Ok in H1 as (r1 & H1 & [= <-]). apply obind_Ok in H2 as (r2 & H2 & [= <-]).
  pose proof (discount_mono _ _ _ _ _ _ H1 H2 ltac:(lia)). pose proof (discount_range _ _ _ _ H1 ltac:(lia)). lia.
Qed.
Lemma liability_weight_stricter m size w1 w2 :
  get_liability_weight m size Initial = Ok w1 -> get_liability_weight m size Maintenance = Ok w2 -> sound_spot m ->
  0 <= w2 <= w1.
Proof.
  intros H1 H2 Hm. pose proof (sound_spot_order m Hm) as [_ Ho]. unfold get_liability_weight in H1, H2.
  apply obind_Ok in H1 as (s & Hs & H1). apply obind_Ok in H2 as (s' & Hs' & H2). rewrite Hs in Hs'. injection Hs' as <-.
  cbn [obind] in H1, H2. apply obind_Ok in H1 as (r1 & H1 & [= <-]). apply obind_Ok in H2 as (r2 & H2 & [= <-]).
  pose proof (premium_mono _ _ _ _ _ _ _ _ _ H2 H1 ltac:(lia)). lia.
Qed.

Lemma weighted_value_stricter m p x v r1 r2 :
  calculate_weighted_token_value m p Initial x v = Ok r1 -> calculate_weighted_token_value m p Maintenance x v = Ok r2 ->
  sound_spot m -> r1 <= r2 /\ (0 <= v -> 0 <= r1) /\ (v <= 0 -> r2 <= 0).
Proof.
  intros H1 H2 Hm. unfold calculate_weighted_token_value in H1, H2. destruct (Z.ltb_spec 0 v).
  - apply obind_Ok in H1 as (w1 & Hw1 & H1). apply obind_Ok in H2 as (w2 & Hw2 & H2).
    pose proof (asset_weight_stricter _ _ _ _ _ Hw1 Hw2 Hm). pose proof (weighted_mono _ _ _ _ _ H1 H2).
    pose proof (weighted_sign _ _ _ H1). lia.
  - destruct (Z.ltb_spec v 0); [|injection H1 as <-; injection H2 as <-; lia].
    apply obind_Ok in H1 as (w1 & Hw1 & H1). apply obind_Ok in H2 as (w2 & Hw2 & H2).
    pose proof (liability_weight_stricter _ _ _ _ Hw1 Hw2 Hm). pose proof (weighted_mono _ _ _ _ _ H1 H2).
    pose proof (weighted_sign _ _ _ H2). lia.
Qed.

Lemma asset_weight_nonneg m size p t w : get_asset_weight m size p t = Ok w -> sound_spot m -> 0 <= w.
Proof.
  intros H Hm. pose proof (sound_spot_order m Hm) as [Ho _]. pose proof (ss_asset m Hm) as Ha. unfold get_asset_weight in H.
  apply obind_Ok in H as (s & _ & H). apply obind_Ok in H as (d & Hd & H). apply obind_Ok in H as (r & Hr & [= <-]).
  assert (0 <= d) as Hd0.
  { destruct t; [by apply scaled_weight_range in Hd; [lia|]| |injection Hd as <-; lia].
    apply obind_Ok in Hd as (i & Hi%scaled_weight_range & Hd); [|done]. apply obind_Ok in Hd as (x & [-> _]%safe_u_Ok & [= <-]).
    apply Z.div_pos; lia. }
  apply discount_range in Hr; lia.
Qed.
Lemma liability_weight_nonneg m size t w : get_liability_weight m size t = Ok w -> sound_spot m -> 0 <= w.
Proof.
  intros H Hm. pose proof (sound_spot_order m Hm) as [_ Ho]. unfold get_liability_weight in H.
  apply obind_Ok in H as (s & _ & H). apply obind_Ok in H as (d & Hd & H). apply obind_Ok in H as (r & _ & [= <-]).
  enough (0 <= d) by lia. destruct t; [injection Hd as <-; lia| |injection Hd as <-; lia].
  apply obind_Ok in Hd as (x & [-> _]%safe_u_Ok & [= <-]). apply Z.div_pos; lia.
Qed.

(** A simulation's weight and contribution belong to its value. *)
Record simulated (m : SpotMarket) (p : StrictOraclePrice) (t : MarginRequirementType) (s : OrderFillSimulation) : Prop := {
  sd_weight : calculate_weighted_token_value m p t (fs_token_amount s) (fs_token_value s) = Ok (fs_weighted_token_value s);
  sd_contribution : fs_free_collateral_contribution s = fs_weighted_token_value s + fs_orders_value s;
}.

(** The weighted value has the sign of the value. *)
Definition signed (s : OrderFillSimulation) : Prop :=
  (0 <= fs_token_value s -> 0 <= fs_weighted_token_value s) /\ (fs_token_value s <= 0 -> fs_weighted_token_value s <= 0).

Lemma simulated_signed m p t s : simulated m p t s -> sound_spot m -> signed s.
Proof.
  intros [H _] Hm. unfold calculate_weighted_token_value in H. unfold signed. destruct (Z.ltb_spec 0 (fs_token_value s)).
  - apply obind_Ok in H as (w & Hw%asset_weight_nonneg & H); [|done]. apply weighted_sign in H; [lia|done].
  - destruct (Z.ltb_spec (fs_token_value s) 0); [|injection H as <-; lia].
    apply obind_Ok in H as (w & Hw%liability_weight_nonneg & H); [|done]. apply weighted_sign in H; [lia|done].
Qed.

Lemma simulate_side_Ok m p t x v o s : simulate_side m p t x v o = Ok s ->
  simulated m p t s /\ forall t' s', simulate_side m p t' x v o = Ok s' ->
    fs_token_amount s' = fs_token_amount s /\ fs_token_value s' = fs_token_value s /\ fs_orders_value s' = fs_orders_value s.
Proof.
  intros H. unfold simulate_side in *. apply obind_Ok in H as (n & Hn & H). apply obind_Ok in H as (ov & Ho & H).
  apply obind_Ok in H as (a & Ha & H). apply obind_Ok in H as (b & Hb & H). apply obind_Ok in H as (va & Hva & H).
  apply obind_Ok in H as (w & Hw & H). apply obind_Ok in H as (f & [-> _]%safe_i_Ok & [= <-]). cbn.
  split; [by constructor|]. intros t' s' H. rewrite Hn in H. cbn [obind] in H. rewrite Ho in H. cbn [obind] in H.
  rewrite Ha in H. cbn [obind] in H. rewrite Hb in H. cbn [obind] in H. rewrite Hva in H. cbn [obind] in H.
  apply obind_Ok in H as (w' & _ & H). by apply obind_Ok in H as (f' & _ & [= <-]).
Qed.

Lemma simulated_stricter m p s1 s2 : simulated m p Initial s1 -> simulated m p Maintenance s2 -> sound_spot m ->
  fs_token_amount s2 = fs_token_amount s1 -> fs_token_value s2 = fs_token_value s1 -> fs_orders_value s2 = fs_orders_value s1 ->
  fs_free_collateral_contribution s1 <= fs_free_collateral_contribution s2.
Proof.
  intros [H1 ->] [H2 ->] Hm Ha Hv Ho. rewrite Ha, Hv in H2. destruct (weighted_value_stricter _ _ _ _ _ _ H1 H2 Hm) as [? _]. lia.
Qed.

Lemma worst_case_stricter sp m p a s1 s2 :
  get_worst_case_fill_simulation sp m p (Some a) Initial = Ok s1 ->
  get_worst_case_fill_simulation sp m p (Some a) Maintenance = Ok s2 -> sound_spot m ->
  simulated m p Initial s1 /\ simulated m p Maintenance s2
  /\ fs_free_collateral_contribution s1 <= fs_free_collateral_contribution s2.
Proof.
  intros H1 H2 Hm. unfold get_worst_case_fill_simulation in H1, H2.
  apply obind_Ok in H1 as ([b1 a1] & H1 & [= <-]). apply obind_Ok in H2 as ([b2 a2] & H2 & [= <-]).
  unfold simulate_fills_both_sides in H1, H2. cbn [obind] in H1, H2.
  apply obind_Ok in H1 as (v & Hv & H1). apply obind_Ok in H2 as (v' & Hv' & H2). rewrite Hv in Hv'. injection Hv' as <-.
  destruct (_ && _).
  - apply obind_Ok in H1 as (w1 & Hw1 & [= <- <-]). apply obind_Ok in H2 as (w2 & Hw2 & [= <- <-]).
    unfold riskier_side. cbn. rewrite !Z.leb_refl. split; [constructor; cbn; [done|lia]|]. split; [constructor; cbn; [done|lia]|].
    apply (weighted_value_stricter _ _ _ _ _ _ Hw1 Hw2 Hm).
  - apply obind_Ok in H1 as (x1 & Hb1 & H1). apply obind_Ok in H1 as (y1 & Ha1 & [= <- <-]).
    apply obind_Ok in H2 as (x2 & Hb2 & H2). apply obind_Ok in H2 as (y2 & Ha2 & [= <- <-]).
    destruct (simulate_side_Ok _ _ _ _ _ _ _ Hb1) as [Sb1 Eb]. destruct (simulate_side_Ok _ _ _ _ _ _ _ Ha1) as [Sa1 Ea].
    destruct (simulate_side_Ok _ _ _ _ _ _ _ Hb2) as [Sb2 _]. destruct (simulate_side_Ok _ _ _ _ _ _ _ Ha2) as [Sa2 _].
    destruct (Eb _ _ Hb2) as (? & ? & ?). destruct (Ea _ _ Ha2) as (? & ? & ?).
    pose proof (simulated_stricter m p x1 x2 Sb1 Sb2 Hm ltac:(done) ltac:(done) ltac:(done)).
    pose proof (simulated_stricter m p y1 y2 Sa1 Sa2 Hm ltac:(done) ltac:(done) ltac:(done)).
    unfold riskier_side. destruct (Z.leb_spec (fs_free_collateral_contribution y1) (fs_free_collateral_contribution x1)),
      (Z.leb_spec (fs_free_collateral_contribution y2) (fs_free_collateral_contribution x2)); split_and!; (done || lia).
Qed.

(** The user's own ratio only adds to the initial requirement. *)
Lemma custom_stricter m p s custom s' :
  apply_user_custom_margin_ratio s m (current p) custom = Ok s' -> simulated m p Initial s -> sound_spot m ->
  0 <= custom ->
  signed s' /\ fs_orders_value s' = fs_orders_value s /\ fs_weighted_token_value s' <= fs_weighted_token_value s.
Proof.
  intros H Hs Hm Hc. pose proof (simulated_signed _ _ _ _ Hs Hm) as [Hpos Hneg]. unfold apply_user_custom_margin_ratio in H.
  destruct (custom =? 0); [injection H as <-; done|]. apply obind_Ok in H as (w & Hw & H).
  apply obind_Ok in H as (f & _ & [= <-]). unfold signed. cbn. destruct Hs as [Hs _]. unfold calculate_weighted_token_value in Hs.
  destruct (Z.ltb_spec (fs_weighted_token_value s) 0).
  - assert (fs_token_value s < 0) as Hv by lia. apply obind_Ok in Hw as (l & Hl & Hw).
    apply obind_Ok in Hw as (k & [-> _]%safe_u_Ok & Hw). rewrite (proj2 (Z.ltb_ge _ _)), (proj2 (Z.ltb_lt _ _) Hv) in Hs by lia.
    apply obind_Ok in Hs as (l' & Hl' & Hs). assert (l' = l) as -> by congruence.
    pose proof (liability_weight_nonneg _ _ _ _ Hl Hm). pose proof (weighted_mono _ _ _ _ _ Hw Hs).
    pose proof (weighted_sign _ _ _ Hw). lia.
  - destruct (Z.ltb_spec 0 (fs_weighted_token_value s)); [|injection Hw as <-; lia].
    assert (0 < fs_token_value s) as Hv by lia. apply obind_Ok in Hw as (l & Hl & Hw).
    rewrite (proj2 (Z.ltb_lt _ _) Hv) in Hs. apply obind_Ok in Hs as (l' & Hl' & Hs). assert (l' = l) as -> by congruence.
    pose proof (asset_weight_nonneg _ _ _ _ _ Hl Hm). pose proof (weighted_mono _ _ _ _ _ Hw Hs).
    assert (0 <= usat 32 (SPOT_WEIGHT_PRECISION - custom)) by (unfold usat; lia).
    pose proof (weighted_sign _ _ _ Hw). lia.
Qed.
End Stricter.

(** A position in another token moves the net value by its weighted worst case. *)
Lemma worst_case_moved c sp m s v c' : add_worst_case_value c sp m s v = Ok c' -> signed s ->
  ignore_invalid_deposit_oracles (context c) = false -> moved (fs_weighted_token_value s) c c'.
Proof.
  intros H [Hpos Hneg] Hi. unfold add_worst_case_value in H. cbv zeta in H. rewrite Hi in H. cbn [andb] in H.
  destruct (Z.ltb_spec 0 (fs_token_value s)) as [Hlt|Hlt].
  { apply obind_Ok in H as (c1 & H1%collateral_moved & [= <-]).
    replace (fs_weighted_token_value s) with (fs_weighted_token_value s + 0) by lia. eapply moved_trans; [exact H1|still]. }
  destruct (Z.ltb_spec (fs_token_value s) 0) as [Hlt2|Hlt2].
  - apply obind_Ok in H as (u1 & _ & H). apply obind_Ok in H as (u2 & _ & H).
    apply obind_Ok in H as (c1 & H1%requirement_moved & H). apply obind_Ok in H as (c2 & H2%spot_liability_moved & [= <-]).
    replace (fs_weighted_token_value s) with (- Z.abs (fs_weighted_token_value s) + (0 + 0)) by lia.
    eapply moved_trans; [exact H1|]. eapply moved_trans; [exact H2|still].
  - replace (fs_weighted_token_value s) with (0 + 0) by lia.
    destruct (spot_has_open_order sp); [|injection H as <-; apply moved_refl].
    apply obind_Ok in H as (c2 & H2%spot_liability_moved & [= <-]). eapply moved_trans; [exact H2|still].
Qed.

Lemma orders_moved c x v c' : add_orders_value c x v = Ok c' ->
  ignore_invalid_deposit_oracles (context c) = false -> moved x c c'.
Proof.
  intros H Hi. unfold add_orders_value in H. rewrite Hi in H. cbn [andb] in H.
  destruct (Z.ltb_spec 0 x); [by apply collateral_moved in H|].
  destruct (Z.ltb_spec x 0); [apply requirement_moved in H; by replace (- Z.abs x) with x in H by lia|].
  injection H as <-. replace x with 0 by lia. apply moved_refl.
Qed.

Section Standing.
Context {roots : Roots}.

(** The same price for both kinds of requirement, not strict. *)
Lemma token_position_moved c sp m p t custom v c' : add_token_position c sp m p t custom v = Ok c' ->
  ignore_invalid_deposit_oracles (context c) = false ->
  exists a s0 s orders, spot_get_signed_token_amount sp m = Ok a
    /\ get_worst_case_fill_simulation sp m p (Some a) t = Ok s0
    /\ apply_user_custom_margin_ratio s0 m (current p) custom = Ok s
    /\ spot_margin_requirement_for_open_orders sp = Ok orders
    /\ (signed s -> moved (fs_weighted_token_value s + fs_orders_value s - orders) c c').
Proof.
  intros H Hi. unfold add_token_position in H. apply obind_Ok in H as (a & Ha & H).
  apply obind_Ok in H as (c1 & H1%spot_fuel_moved & H). apply obind_Ok in H as (s0 & Hs0 & H).
  apply obind_Ok in H as (s & Hs & H). apply obind_Ok in H as (u & _ & H). apply obind_Ok in H as (orders & Ho & H).
  apply obind_Ok in H as (c2 & H2%requirement_moved & H). apply obind_Ok in H as (c3 & H3 & H).
  exists a, s0, s, orders. split_and!; try done. intros Hsg.
  assert (context c2 = context c) as E2 by (rewrite (mv_context _ _ _ H2); apply (mv_context _ _ _ H1)).
  apply worst_case_moved in H3; [|done|by rewrite E2].
  apply orders_moved in H; [|by rewrite (mv_context _ _ _ H3), E2].
  replace (_ + _ - _) with (0 + (- orders + (fs_weighted_token_value s + fs_orders_value s))) by lia.
  eapply moved_trans; [exact H1|]. eapply moved_trans; [exact H2|]. by eapply moved_trans.
Qed.

Lemma token_position_stricter c1 c2 sp m p custom v c1' c2' :
  add_token_position c1 sp m p Initial custom v = Ok c1' -> add_token_position c2 sp m p Maintenance 0 v = Ok c2' ->
  ignore_invalid_deposit_oracles (context c1) = false -> ignore_invalid_deposit_oracles (context c2) = false ->
  sound_spot m -> 0 <= custom ->
  exists d1 d2, d1 <= d2 /\ moved d1 c1 c1' /\ moved d2 c2 c2'.
Proof.
  intros H1 H2 Hi1 Hi2 Hm Hc.
  apply token_position_moved in H1 as (a & s0 & s & orders & Ha & Hw & Hs & Ho & M1); [|done].
  apply token_position_moved in H2 as (a' & s0' & s' & orders' & Ha' & Hw' & Hs' & Ho' & M2); [|done].
  rewrite Ha in Ha'. injection Ha' as <-. rewrite Ho in Ho'. injection Ho' as <-.
  injection Hs' as <-. destruct (worst_case_stricter _ _ _ _ _ _ Hw Hw' Hm) as (S1 & S2 & Hle).
  destruct (custom_stricter _ _ _ _ _ Hs S1 Hm Hc) as (Sg & Eo & Hcw).
  exists (fs_weighted_token_value s + fs_orders_value s - orders), (fs_weighted_token_value s0' + fs_orders_value s0' - orders).
  split_and!; [|by apply M1|by apply M2, (simulated_signed _ _ _ _ S2)].
  destruct S1 as [_ E1], S2 as [_ E2]. lia.
Qed.

(** A quote position moves both by the same. *)
Lemma quote_position_same c1 c2 sp m p v k c1' c2' :
  add_quote_position c1 sp m p v k = Ok c1' -> add_quote_position c2 sp m p v k = Ok c2' ->
  ignore_invalid_deposit_oracles (context c1) = false -> ignore_invalid_deposit_oracles (context c2) = false ->
  exists d, moved d c1 c1' /\ moved d c2 c2'.
Proof.
  assert (forall c c', add_quote_position c sp m p v k = Ok c' -> ignore_invalid_deposit_oracles (context c) = false ->
    exists a x, spot_get_signed_token_amount sp m = Ok a /\ get_strict_token_value a (decimals m) p = Ok x
      /\ moved (match sp_balance_type sp with Deposit => if k then 0 else x | Borrow => - Z.abs x end) c c') as Hq.
  { intros c c' H Hi. unfold add_quote_position in H. apply obind_Ok in H as (a & Ha & H).
    apply obind_Ok in H as (u & _ & H). apply obind_Ok in H as (c0 & H0%spot_fuel_moved & H).
    apply obind_Ok in H as (x & Hx & H). exists a, x. split_and!; [done|done|].
    rewrite (mv_context _ _ _ H0), Hi in H. cbn [andb orb] in H. destruct (sp_balance_type sp).
    - cbv zeta in H. apply obind_Ok in H as (c3 & H3%collateral_moved & [= <-]).
      replace (if k then 0 else x) with (0 + ((if k then 0 else x) + 0)) by lia.
      eapply moved_trans; [exact H0|]. eapply moved_trans; [exact H3|still].
    - apply obind_Ok in H as (u1 & _ & H). apply obind_Ok in H as (c3 & H3%requirement_moved & H).
      apply obind_Ok in H as (c4 & H4%spot_liability_moved & [= <-]).
      replace (- Z.abs x) with (0 + (- Z.abs x + (0 + 0))) by lia.
      eapply moved_trans; [exact H0|]. eapply moved_trans; [exact H3|]. eapply moved_trans; [exact H4|still]. }
  intros H1 H2 Hi1 Hi2. destruct (Hq _ _ H1 Hi1) as (a & x & Ha & Hx & M1). destruct (Hq _ _ H2 Hi2) as (a' & x' & Ha' & Hx' & M2).
  rewrite Ha in Ha'. injection Ha' as <-. rewrite Hx in Hx'. injection Hx' as <-. eauto.
Qed.

(** ** Perpetual positions *)

Record sound_perp (m : PerpMarket) : Prop := {
  sp_ratios : margin_ratio_maintenance m <= margin_ratio_initial m;
  sp_gains : 0 <= unrealized_pnl_initial_asset_weight m <= unrealized_pnl_maintenance_asset_weight m;
  sp_imbalance : 0 <= unrealized_pnl_max_imbalance m;
}.

Lemma margin_ratio_stricter m size r1 r2 : sound_perp m ->
  get_margin_ratio m size Initial false = Ok r1 -> get_margin_ratio m size Maintenance false = Ok r2 -> r2 <= r1.
Proof.
  intros [Hr _ _] H1 H2. unfold get_margin_ratio in H1, H2. destruct (bool_decide _); [injection H1 as <-; by injection H2 as <-|].
  cbn [andb ratio_of_type obind] in H1, H2. apply obind_Ok in H1 as (a1 & H1 & [= <-]). apply obind_Ok in H2 as (a2 & H2 & [= <-]).
  pose proof (premium_mono _ _ _ _ _ _ _ _ _ H2 H1 Hr). lia.
Qed.

Lemma perp_requirement_stricter m custom b value r1 r2 : sound_perp m -> 0 <= custom -> 0 <= value ->
  perp_requirement m Initial custom false b value = Ok r1 -> perp_requirement m Maintenance 0 false b value = Ok r2 -> r2 <= r1.
Proof.
  intros Hm Hc Hv H1 H2. unfold perp_requirement in H1, H2. destruct (bool_decide _); [injection H1 as <-; by injection H2 as <-|].
  apply obind_Ok in H1 as (k1 & K1 & H1). apply obind_Ok in H2 as (k2 & K2 & H2).
  pose proof (margin_ratio_stricter _ _ _ _ Hm K1 K2). apply obind_Ok in H1 as (p1 & [-> _]%safe_u_Ok & [_ ->]%safe_udiv_Ok).
  apply obind_Ok in H2 as (p2 & [-> _]%safe_u_Ok & [_ ->]%safe_udiv_Ok). apply Z.div_le_mono; [done|]. nia.
Qed.

Lemma gain_weight_stricter m pnl w1 w2 : sound_perp m ->
  get_unrealized_asset_weight m pnl Initial = Ok w1 -> get_unrealized_asset_weight m pnl Maintenance = Ok w2 ->
  (0 < pnl -> 0 <= w1 <= w2) /\ (pnl <= 0 -> w1 = w2).
Proof.
  intros [_ Hg Hi] H1 H2. unfold get_unrealized_asset_weight in H1, H2. cbv zeta in H1, H2.
  apply obind_Ok in H1 as (k & Hk & H1). apply obind_Ok in H2 as (k2 & Hk2 & H2).
  destruct (Z.ltb_spec 0 pnl); [|injection H1 as <-; injection H2 as <-; lia]. split; [intros _|lia]. injection H2 as <-.
  assert (0 < k -> k <= unrealized_pnl_initial_asset_weight m) as Hkm.
  { destruct (_ && _) in Hk; [|injection Hk as <-; lia]. apply obind_Ok in Hk as (n & _ & Hk).
    apply obind_Ok in Hk as (most & [-> _]%cast_i_Ok & Hk). destruct (Z.ltb_spec (unrealized_pnl_max_imbalance m) n); [|injection Hk as <-; lia].
    apply obind_Ok in Hk as (pr & [-> _]%safe_u_Ok & Hk). apply obind_Ok in Hk as (q & [_ ->]%safe_udiv_Ok & [-> _]%cast_u_Ok).
    intros _. apply Z.div_le_upper_bound; nia. }
  destruct (Z.ltb_spec 0 k); [|injection H1 as <-; lia]. apply obind_Ok in H1 as (s & _ & H1). apply discount_range in H1; lia.
Qed.

Lemma weighed_Ok m p t pnl r : weigh_unrealized_pnl m (strict_new p 0 false) t pnl = Ok r ->
  exists w, get_unrealized_asset_weight m pnl t = Ok w
    /\ let full := (pnl * w ÷ SPOT_WEIGHT_PRECISION) * p ÷ PRICE_PRECISION in
       r = if bool_decide (t = Initial) then Z.min full MAX_POSITIVE_UPNL_FOR_INITIAL_MARGIN else full.
Proof.
  intros H. unfold weigh_unrealized_pnl in H. apply obind_Ok in H as (w & Hw & H). exists w. split; [done|]. cbv zeta in H |- *.
  assert ((if 0 <? pnl then strict_min (strict_new p 0 false) else if pnl <? 0 then strict_max (strict_new p 0 false)
           else current (strict_new p 0 false)) = p) as E by (cbn; by destruct (0 <? pnl), (pnl <? 0)). rewrite E in H. clear E.
  apply obind_Ok in H as (x & Hx & H). assert (x = pnl * w ÷ SPOT_WEIGHT_PRECISION) as ->.
  { destruct (Z.eqb_spec w SPOT_WEIGHT_PRECISION) as [->|]; cbn [negb] in Hx; [|by apply weighted_Ok in Hx].
    injection Hx as <-. by rewrite Z.quot_mul. }
  apply obind_Ok in H as (y & Hy & [= <-]). set (x := _ ÷ SPOT_WEIGHT_PRECISION) in *. clearbody x.
  assert (y = x * p ÷ PRICE_PRECISION) as ->; [|done].
  destruct (Z.eqb_spec p PRICE_PRECISION) as [->|]; cbn [negb] in Hy; [injection Hy as <-; by rewrite Z.quot_mul|].
  by apply obind_Ok in Hy as (k & [-> _]%safe_i_Ok & (_ & -> & _)%safe_idiv_Ok).
Qed.

Lemma gain_stricter m p pnl r1 r2 : sound_perp m -> 0 < p ->
  weigh_unrealized_pnl m (strict_new p 0 false) Initial pnl = Ok r1 ->
  weigh_unrealized_pnl m (strict_new p 0 false) Maintenance pnl = Ok r2 -> r1 <= r2.
Proof.
  intros Hm Hp (w1 & Hw1 & ->)%weighed_Ok (w2 & Hw2 & ->)%weighed_Ok. destruct (gain_weight_stricter _ _ _ _ Hm Hw1 Hw2) as [Hpos Hneg].
  rewrite bool_decide_eq_true_2, bool_decide_eq_false_2 by done. etransitivity; [apply Z.le_min_l|].
  apply quot_mono; [done|]. apply Z.mul_le_mono_nonneg_r; [lia|]. apply quot_mono; [done|].
  destruct (Z.ltb_spec 0 pnl); [|rewrite Hneg by lia; lia]. specialize (Hpos ltac:(lia)). nia.
Qed.

(** What a position adds to the calculation of each kind. *)
Lemma perp_values_stricter p m d q custom x1 x2 : sound_perp m -> 0 < q -> 0 <= custom ->
  calculate_perp_position_value_and_pnl p m d (strict_new q 0 false) Initial custom false = Ok x1 ->
  calculate_perp_position_value_and_pnl p m d (strict_new q 0 false) Maintenance 0 false = Ok x2 ->
  exists r1 g1 r2 g2 value base, x1 = (r1, g1, value, base) /\ x2 = (r2, g2, value, base)
    /\ 0 <= r1 /\ 0 <= r2 <= r1 /\ in_u 128 r1 /\ in_u 128 r2 /\ g1 <= g2.
Proof.
  intros Hm Hq Hc H1 H2. unfold calculate_perp_position_value_and_pnl in H1, H2.
  apply obind_Ok in H1 as ([base pnl] & E & H1). rewrite E in H2. cbn [obind] in H2.
  apply obind_Ok in H1 as ([b v] & E2 & H1). rewrite E2 in H2. cbn [obind] in H2.
  apply obind_Ok in H1 as (k & E3 & H1). rewrite E3 in H2. cbn [obind] in H2.
  apply obind_Ok in H1 as (v1 & E4 & H1). rewrite E4 in H2. cbn [obind] in H2.
  apply obind_Ok in H1 as (value & E5 & H1). rewrite E5 in H2. cbn [obind] in H2.
  apply obind_Ok in H1 as (a1 & A1 & H1). apply obind_Ok in H2 as (a2 & A2 & H2).
  apply obind_Ok in H1 as (o & E6 & H1). rewrite E6 in H2. cbn [obind] in H2.
  apply obind_Ok in H1 as (r1 & [-> R1]%safe_u_Ok & H1). apply obind_Ok in H2 as (r2 & [-> R2]%safe_u_Ok & H2).
  apply obind_Ok in H1 as (g1 & G1 & [= <-]). apply obind_Ok in H2 as (g2 & G2 & [= <-]).
  exists (a1 + o), g1, (a2 + o), g2, value, base. apply safe_u_Ok in E4 as [-> E4]. apply safe_udiv_Ok in E5 as [Hz ->].
  assert (0 <= v * k / PRICE_PRECISION) by (apply Z.div_pos; [range|done]).
  pose proof (perp_requirement_stricter _ _ _ _ _ _ Hm Hc ltac:(done) A1 A2).
  pose proof (gain_stricter _ _ _ _ _ Hm Hq G1 G2). split_and!; (done || range).
Qed.

(** ** The whole calculation *)

(** What a maintenance calculation keeps over an initial one. *)
Record lighter (s1 s2 : MarginCalculation * OracleMap) : Prop := {
  lt_oracles : s1.2 = s2.2;
  lt_priced : priced s1.2;
  lt_net : net s1.1 <= net s2.1;
  lt_typed1 : typed s1.1;
  lt_typed2 : typed s2.1;
  lt_isolated : forall i x2, isolated_margin_calculations s2.1 !! i = Some x2 ->
    exists x1, isolated_margin_calculations s1.1 !! i = Some x1 /\ ic_net x1 <= ic_net x2 /\ ic_typed x1 /\ ic_typed x2;
  lt_context1 : context s1.1 = standard Initial;
  lt_context2 : context s2.1 = standard Maintenance;
}.

Lemma lighter_moved c1 c2 o o' d1 d2 c1' c2' : lighter (c1, o) (c2, o) -> priced o' -> d1 <= d2 ->
  moved d1 c1 c1' -> moved d2 c2 c2' -> lighter (c1', o') (c2', o').
Proof.
  intros [_ _ Hn T1 T2 Hi E1 E2] Ho Hd [N1 I1 C1 M1] [N2 I2 C2 M2]. cbn in *.
  constructor; cbn; [done|done|lia|auto|auto|by rewrite I1, I2|congruence|congruence].
Qed.

Lemma spot_position_lighter u ms c1 c2 o sp s1 s2 :
  map_Forall (fun _ m => sound_spot m) (mk_spots ms) -> 0 <= u_max_margin_ratio u ->
  lighter (c1, o) (c2, o) ->
  add_spot_position_margin (standard Initial) u ms (c1, o) sp = Ok s1 ->
  add_spot_position_margin (standard Maintenance) u ms (c2, o) sp = Ok s2 -> lighter s1 s2.
Proof.
  intros Hms Hu Hl H1 H2. unfold add_spot_position_margin in H1, H2. cbv zeta in H1, H2.
  pose proof (lt_context1 _ _ Hl) as E1. pose proof (lt_context2 _ _ Hl) as E2. cbn [fst] in E1, E2.
  rewrite E1 in H1. rewrite E2 in H2. cbn [strict standard standard_with_config] in H1, H2.
  apply obind_Ok in H1 as (v1 & _ & H1). apply obind_Ok in H2 as (v2 & _ & H2).
  destruct (spot_is_available sp); [injection H1 as <-; by injection H2 as <-|].
  apply obind_Ok in H1 as (m & Hm & H1). rewrite Hm in H2. cbn [obind] in H2.
  apply obind_Ok in H1 as ([[d v] o'] & Hd & H1). rewrite Hd in H2. cbn [obind] in H2.
  apply obind_Ok in H1 as (v3 & _ & H1). apply obind_Ok in H2 as (v4 & _ & H2).
  apply obind_Ok in H1 as (v5 & _ & H1). apply obind_Ok in H2 as (v6 & _ & H2).
  apply obind_Ok in H1 as (c1' & H1 & [= <-]). apply obind_Ok in H2 as (c2' & H2 & [= <-]).
  pose proof (priced_once _ _ _ _ _ _ (lt_priced _ _ Hl) Hd) as (_ & Hp & _).
  assert (ignore_invalid_deposit_oracles (context c1) = false) as G1 by (by rewrite E1).
  assert (ignore_invalid_deposit_oracles (context c2) = false) as G2 by (by rewrite E2).
  assert (sound_spot m) as Hs.
  { unfold spot_get_ref, ok_or in Hm. destruct (mk_spots ms !! _) eqn:E; [injection Hm as ->|done]. by apply (Hms _ _ E). }
  destruct (sm_market_index m =? 0).
  - destruct (quote_position_same _ _ _ _ _ _ _ _ _ H1 H2 G1 G2) as (x & M1 & M2).
    by apply (lighter_moved _ _ _ _ _ _ _ _ Hl Hp (Z.le_refl x)).
  - destruct (token_position_stricter _ _ _ _ _ _ _ _ _ H1 H2 G1 G2 Hs) as (d1 & d2 & Hle & M1 & M2); [done|].
    by apply (lighter_moved _ _ _ _ _ _ _ _ Hl Hp Hle).
Qed.

Lemma isolated_moved c i d pnl v r c' : add_isolated_margin_calculation c i d pnl v r = Ok c' -> in_u 128 r ->
  net c' = net c /\ context c' = context c /\ (typed c -> typed c')
  /\ exists x, isolated_margin_calculations c' = <[i := x]> (isolated_margin_calculations c)
       /\ ic_net x = d + pnl - r /\ ic_typed x.
Proof.
  intros H Hr. unfold add_isolated_margin_calculation in H. apply obind_Ok in H as (t & [-> Ht]%safe_i_Ok & H).
  apply obind_Ok in H as (tb & _ & H). apply obind_Ok in H as (rb & _ & [N I C T]%track_moved). rewrite N, I, C.
  split_and!; [cbn; unfold net; cbn; lia|done|intros; by apply T|]. eexists. split_and!; [done|done|done].
Qed.

Lemma perp_values_lighter ms p m q c1 c2 o o' r1 r2 g1 g2 value c1' c2' :
  lighter (c1, o) (c2, o) -> priced o' -> in_u 128 r1 -> in_u 128 r2 -> r2 <= r1 -> g1 <= g2 ->
  add_perp_values ms c1 p m q r1 g1 value = Ok c1' -> add_perp_values ms c2 p m q r2 g2 value = Ok c2' ->
  lighter (c1', o') (c2', o').
Proof.
  intros Hl Ho R1 R2 Hr Hg H1 H2. unfold add_perp_values in H1, H2. destruct (is_isolated p).
  - apply obind_Ok in H1 as (qm & E & H1). rewrite E in H2. cbn [obind] in H2.
    apply obind_Ok in H1 as (a & E1 & H1). rewrite E1 in H2. cbn [obind] in H2.
    apply obind_Ok in H1 as (b & E2 & H1). rewrite E2 in H2. cbn [obind] in H2.
    apply obind_Ok in H1 as (v & E3 & H1). rewrite E3 in H2. cbn [obind] in H2.
    apply isolated_moved in H1 as (N1 & C1 & T1 & x1 & I1 & X1 & Y1); [|done].
    apply isolated_moved in H2 as (N2 & C2 & T2 & x2 & I2 & X2 & Y2); [|done].
    destruct Hl as [_ _ Hn HT1 HT2 Hi E1' E2']. cbn in *.
    constructor; cbn; [done|done|lia|auto|auto| |congruence|congruence].
    intros i y. rewrite I1, I2. destruct (decide (pm_market_index m = i)) as [<-|Hne].
    + rewrite !lookup_insert_eq. intros [= <-]. exists x1. split_and!; try done. lia.
    + rewrite !lookup_insert_ne by done. apply Hi.
  - apply obind_Ok in H1 as (k1 & K1%requirement_moved & H1%collateral_moved).
    apply obind_Ok in H2 as (k2 & K2%requirement_moved & H2%collateral_moved).
    eapply (lighter_moved _ _ _ _ _ _ _ _ Hl Ho); [|eapply moved_trans; [exact K1|exact H1]|eapply moved_trans; [exact K2|exact H2]].
    lia.
Qed.

Lemma perp_position_lighter u ms c1 c2 o p s1 s2 :
  map_Forall (fun _ m => sound_perp m) (mk_perps ms) -> 0 <= u_max_margin_ratio u -> u_margin_mode u = DefaultMargin ->
  lighter (c1, o) (c2, o) ->
  add_perp_position_margin (standard Initial) u ms (c1, o) p = Ok s1 ->
  add_perp_position_margin (standard Maintenance) u ms (c2, o) p = Ok s2 -> lighter s1 s2.
Proof.
  intros Hms Hu Hmode Hl H1 H2. unfold add_perp_position_margin in H1, H2. cbv zeta in H1, H2.
  pose proof (lt_context1 _ _ Hl) as E1. pose proof (lt_context2 _ _ Hl) as E2. cbn [fst] in E1, E2.
  rewrite E1 in H1. rewrite E2 in H2. cbn [strict standard standard_with_config] in H1, H2.
  destruct (is_available p); [injection H1 as <-; by injection H2 as <-|].
  apply obind_Ok in H1 as (m & Hm & H1). rewrite Hm in H2. cbn [obind] in H2.
  apply obind_Ok in H1 as (v1 & _ & H1). apply obind_Ok in H2 as (v2 & _ & H2).
  apply obind_Ok in H1 as (qm & Hqm & H1). rewrite Hqm in H2. cbn [obind] in H2.
  apply obind_Ok in H1 as ([[qd qv] o1] & Hq & H1). rewrite Hq in H2. cbn [obind] in H2.
  apply obind_Ok in H1 as ([[d v] o2] & Hd & H1). rewrite Hd in H2. cbn [obind] in H2.
  pose proof (priced_once _ _ _ _ _ _ (lt_priced _ _ Hl) Hq) as (Hpos & Hp1 & _).
  pose proof (priced_once _ _ _ _ _ _ Hp1 Hd) as (_ & Hp2 & _).
  assert (sound_perp m) as Hs.
  { unfold perp_get_ref, ok_or in Hm. destruct (mk_perps ms !! _) eqn:E; [injection Hm as ->|done]. by apply (Hms _ _ E). }
  assert (forall t, position_margin_type (standard t) p = t) as Et by (intros t; unfold position_margin_type; by destruct (is_isolated p)).
  rewrite Et in H1, H2. unfold is_high_leverage_mode in H1, H2. rewrite Hmode in H1, H2. cbn in H1, H2.
  apply obind_Ok in H1 as (x1 & X1 & H1). apply obind_Ok in H2 as (x2 & X2 & H2).
  assert (0 <= Z.max (u_max_margin_ratio u) (pp_max_margin_ratio p)) as Hc by lia.
  destruct (perp_values_stricter _ _ _ _ _ _ _ Hs Hpos Hc X1 X2) as (r1 & g1 & r2 & g2 & value & base & -> & -> & _ & R & I1 & I2 & G).
  apply obind_Ok in H1 as (a1 & A1%perp_fuel_moved & H1). apply obind_Ok in H2 as (a2 & A2%perp_fuel_moved & H2).
  apply obind_Ok in H1 as (b1 & B1 & H1). apply obind_Ok in H2 as (b2 & B2 & H2).
  apply obind_Ok in H1 as (e1 & F1%perp_liability_moved & [= <-]). apply obind_Ok in H2 as (e2 & F2%perp_liability_moved & [= <-]).
  pose proof (lighter_moved _ _ _ _ _ _ _ _ Hl (lt_priced _ _ Hl) (Z.le_refl 0) A1 A2) as L1.
  assert (lighter (b1, o2) (b2, o2)) as L2 by (eapply perp_values_lighter; [exact L1|done|exact I1|exact I2|lia|exact G|exact B1|exact B2]).
  exact (lighter_moved _ _ _ _ _ _ _ _ L2 Hp2 (Z.le_refl 0) F1 F2).
Qed.

Lemma calculations_lighter u ms o s1 s2 :
  map_Forall (fun _ m => sound_spot m) (mk_spots ms) -> map_Forall (fun _ m => sound_perp m) (mk_perps ms) ->
  0 <= u_max_margin_ratio u -> u_margin_mode u = DefaultMargin -> priced o ->
  calculate_margin_requirement_and_total_collateral_and_liability_info u ms o (standard Initial) = Ok s1 ->
  calculate_margin_requirement_and_total_collateral_and_liability_info u ms o (standard Maintenance) = Ok s2 -> lighter s1 s2.
Proof.
  intros Hs Hp Hu Hmode Ho H1 H2. unfold calculate_margin_requirement_and_total_collateral_and_liability_info in H1, H2.
  apply obind_Ok in H1 as (a1 & A1 & H1). apply obind_Ok in H2 as (a2 & A2 & H2).
  assert (lighter a1 a2) as La.
  { eapply (foldO_sim lighter); [|..|exact A1|exact A2].
    - intros sp [c1 p1] [c2 p2] ? ? _ L B1 B2. pose proof (lt_oracles _ _ L) as E. cbn in E. subst p2.
      exact (spot_position_lighter _ _ _ _ _ _ _ _ Hs Hu L B1 B2).
    - constructor; cbn; try done. }
  apply obind_Ok in H1 as ([b1 q1] & B1 & H1). apply obind_Ok in H2 as ([b2 q2] & B2 & H2).
  assert (lighter (b1, q1) (b2, q2)) as Lb.
  { eapply (foldO_sim lighter); [|exact La|exact B1|exact B2].
    intros p [c1 p1] [c2 p2] ? ? _ L C1 C2. pose proof (lt_oracles _ _ L) as E. cbn in E. subst p2.
    exact (perp_position_lighter _ _ _ _ _ _ _ _ Hp Hu Hmode L C1 C2). }
  apply obind_Ok in H1 as (? & _ & H1). apply obind_Ok in H2 as (? & _ & H2).
  cbn in H1, H2. injection H1 as <-. by injection H2 as <-.
Qed.

(** Without the cast's wrap-around, meeting a requirement is a net value that is
    not negative. *)
Lemma ic_meets_net x : ic_typed x -> ic_margin_requirement x < 2 ^ 127 -> ic_meets_margin_requirement x = true -> 0 <= ic_net x.
Proof.
  intros [Ht Hr] Hb H. unfold ic_meets_margin_requirement in H. rewrite iwrap_id in H by range. unfold ic_net. lia.
Qed.
Lemma ic_net_meets x : ic_typed x -> 0 <= ic_net x -> ic_meets_margin_requirement x = true.
Proof.
  intros [Ht Hr] H. unfold ic_net in H. unfold ic_meets_margin_requirement. rewrite iwrap_id by range. lia.
Qed.
Lemma all_isolated_spec f c : all_isolated f c = true <-> map_Forall (fun _ x => f x = true) (isolated_margin_calculations c).
Proof.
  unfold all_isolated. rewrite <- Is_true_true, forallb_True, map_Forall_to_list, Forall_forall, Forall_forall.
  split; intros H [i x] Hx; specialize (H _ Hx); cbn in *; by apply Is_true_true.
Qed.

(** C17: A user in the default margin mode who meets the initial requirement meets
    the maintenance requirement at the same prices: with markets whose weights and
    ratios the handlers accept, the whole calculation (spot balances and their
    open orders, custom ratios, perpetual positions with their unsettled funding
    and gains, isolated positions) leaves at least as much collateral over the
    requirement, in the cross account and in each isolated position. *)
Theorem initial_margin_implies_maintenance u ms o c1 c2 o1 o2 :
  map_Forall (fun _ m => sound_spot m) (mk_spots ms) -> map_Forall (fun _ m => sound_perp m) (mk_perps ms) ->
  0 <= u_max_margin_ratio u -> u_margin_mode u = DefaultMargin -> priced o ->
  calculate_margin_requirement_and_total_collateral_and_liability_info u ms o (standard Initial) = Ok (c1, o1) ->
  calculate_margin_requirement_and_total_collateral_and_liability_info u ms o (standard Maintenance) = Ok (c2, o2) ->
  margin_requirement c1 < 2 ^ 127 ->
  map_Forall (fun _ x => ic_margin_requirement x < 2 ^ 127) (isolated_margin_calculations c1) ->
  meets_margin_requirement c1 = true ->
  o1 = o2 /\ net c1 <= net c2 /\ meets_margin_requirement c2 = true.
Proof.
  intros Hs Hp Hu Hmode Ho H1 H2 Hb Hbi Hmeets.
  destruct (calculations_lighter _ _ _ _ _ Hs Hp Hu Hmode Ho H1 H2) as [E _ Hn [T1 U1] [T2 U2] Hi _ _]. cbn in *.
  split_and!; [done|done|]. unfold meets_margin_requirement, meets_cross_margin_requirement in *.
  apply andb_true_iff in Hmeets as [Hc Ha%all_isolated_spec]. rewrite iwrap_id in Hc by range.
  unfold net in Hn. apply andb_true_iff; split; [rewrite iwrap_id by range; lia|]. apply all_isolated_spec.
  intros i x2 Hx2. destruct (Hi i x2 Hx2) as (x1 & Hx1 & Hle & X1 & X2). apply ic_net_meets; [done|].
  specialize (Ha _ _ Hx1). specialize (Hbi _ _ Hx1). pose proof (ic_meets_net _ X1 Hbi Ha). lia.
Qed.
End Standing.

(** ** Witness *)

Definition ordinary_oracle : OracleAccount :=
  mkOracleAccount (fun _ => Ok (mkPythMessage 100000000 10000 (-6) 98 1 true)) (Err UnableToLoadOracle)
    (Err UnableToLoadOracle) (Err UnableToLoadOracle).
Definition quote_spot_market : SpotMarket :=
  limited_market <| initial_asset_weight := 10000 |> <| maintenance_asset_weight := 10000 |>
    <| initial_liability_weight := 10000 |> <| maintenance_liability_weight := 10000 |>.
Definition token_spot_market : SpotMarket :=
  limited_market <| sm_market_index := 1 |> <| decimals := 9 |> <| sm_oracle := 7 |> <| sm_oracle_source := PythPull |>
    <| historical_oracle_data := mkHistoricalOracleData 100000000 10000 1 100000000 100000000 0 |>
    <| initial_asset_weight := 8000 |> <| maintenance_asset_weight := 9000 |> <| sm_imf_factor := 3000 |>
    <| initial_liability_weight := 12000 |> <| maintenance_liability_weight := 11000 |>.
Definition margin_perp_market (i : Z) : PerpMarket :=
  funding_market <| pm_market_index := i |> <| margin_ratio_initial := 1000 |> <| margin_ratio_maintenance := 500 |>
    <| amm ; oracle := 7 |> <| amm ; oracle_source := PythPull |> <| unrealized_pnl_initial_asset_weight := 8000 |>
    <| unrealized_pnl_maintenance_asset_weight := 10000 |> <| imf_factor := 1000 |>.
Definition margin_markets : Markets :=
  mkMarkets {[0 := margin_perp_market 0; 1 := margin_perp_market 1]} {[0 := quote_spot_market; 1 := token_spot_market]}.

(** Deposits of 500 dollars, a debt of a token with an order to buy two, long 5 in one
    market, and short 1 in another with its own deposit. *)
Definition margin_user : User :=
  default_User
    <| u_spot_positions := [mkSpotPosition 500000000000 0 0 0 0 Deposit 0; mkSpotPosition 1000000000 2000000000 0 0 1 Borrow 1] |>
    <| u_perp_positions :=
         [default_PerpPosition <| pp_base_asset_amount := 5000000000 |> <| pp_quote_asset_amount := -480000000 |>
            <| pp_last_cumulative_funding_rate := 3000000000 |>;
          default_PerpPosition <| pp_market_index := 1 |> <| pp_base_asset_amount := -1000000000 |>
            <| pp_quote_asset_amount := 99000000 |> <| pp_last_cumulative_funding_rate := 2000000000 |>
            <| pp_position_flag := 1 |> <| pp_isolated_position_scaled_balance := 20000000000 |>] |>.
Definition margin_oracles : OracleMap := load_oracles {[7 := ordinary_oracle]} 100 None.

Lemma initial_margin_implies_maintenance_witness :
  exists c1 c2 o,
    calculate_margin_requirement_and_total_collateral_and_liability_info margin_user margin_markets margin_oracles
      (standard Initial) = Ok (c1, o)
    /\ calculate_margin_requirement_and_total_collateral_and_liability_info margin_user margin_markets margin_oracles
      (standard Maintenance) = Ok (c2, o)
    /\ net c1 <= net c2 /\ meets_margin_requirement c2 = true.
Proof.
  assert (H : exists c1 c2 o1 o2,
    calculate_margin_requirement_and_total_collateral_and_liability_info margin_user margin_markets margin_oracles
      (standard Initial) = Ok (c1, o1)
    /\ calculate_margin_requirement_and_total_collateral_and_liability_info margin_user margin_markets margin_oracles
      (standard Maintenance) = Ok (c2, o2)
    /\ margin_requirement c1 < 2 ^ 127
    /\ map_Forall (fun _ x => ic_margin_requirement x < 2 ^ 127) (isolated_margin_calculations c1)
    /\ meets_margin_requirement c1 = true).
  { eexists _, _, _, _. split; [vm_compute; reflexivity|]. split; [vm_compute; reflexivity|].
    split; [vm_compute; reflexivity|]. split; [|vm_compute; reflexivity].
    apply map_Forall_lookup_2. intros i x Hx. apply elem_of_map_to_list in Hx. vm_compute in Hx.
    apply list_elem_of_singleton in Hx. injection Hx as _ ->. vm_compute. reflexivity. }
  destruct H as (c1 & c2 & o1 & o2 & H1 & H2 & Hb & Hi & Hm). exists c1, c2.
  assert (Hs : map_Forall (fun _ m => sound_spot m) (mk_spots margin_markets)).
  { unfold margin_markets, mk_spots. apply map_Forall_insert_2; [|apply map_Forall_singleton];
      (split; [vm_compute; reflexivity|vm_compute; discriminate|vm_compute; discriminate]). }
  assert (Hp : map_Forall (fun _ m => sound_perp m) (mk_perps margin_markets)).
  { unfold margin_markets, mk_perps. apply map_Forall_insert_2; [|apply map_Forall_singleton];
      (split; [vm_compute; discriminate|split; vm_compute; discriminate|vm_compute; discriminate]). }
  destruct (initial_margin_implies_maintenance margin_user margin_markets margin_oracles c1 c2 o1 o2 Hs Hp
    ltac:(vm_compute; discriminate) ltac:(reflexivity) (load_priced _ _ _) H1 H2 Hb Hi Hm) as (<- & Hn & Hm2).
  exists o1. split; [exact H1|]. split; [exact H2|]. split; [exact Hn|exact Hm2].
Defined.
