(* ===== verification/DriftLiquidation.v ===== *)
(** Liquidation and bankruptcy: [math/liquidation.rs], [math/bankruptcy.rs], the
    swap price of [math/spot_swap.rs], [state/liquidation_mode.rs], and of
    [controller/liquidation.rs] the resolution of bankruptcies, the margin freed
    and the status of a user who must be liquidated.

    A liquidation of a perpetual position acts on the cross account or on the
    isolated position alone; [LiquidatePerpMode] is the trait's table of methods
    and the two modes its values.  The theorems: each mode enters and leaves its
    own state and touches no other; a partial liquidation never takes more than
    the whole; a liquidator's asset is worth no more than the liability with the
    multipliers; and a bankrupt loss is paid by the insurance fund, the fee pool
    and the socialised rest, to the last unit. *)
From stdpp Require Import gmap sorting.
From S2P Require Import Prelude.
From S2P Require Import RecordUpdate.
From S2P Require Import DriftError.
From S2P Require Import DriftMath.
From S2P Require Import DriftSpotMarket.
From S2P Require Import DriftTypes.
From S2P Require Import DriftSpotBalance.
From S2P Require Import DriftInsurance.
From S2P Require Import DriftOracle.
From S2P Require Import DriftOrderMath.
From S2P Require Import DriftAmm.
From S2P Require Import DriftSpread.
From S2P Require Import DriftPosition.
From S2P Require Import DriftUser.
From S2P Require Import DriftPools.
From S2P Require Import DriftWithdraw.
From S2P Require Import DriftFunding.
From S2P Require Import DriftOracleMap.
From S2P Require Import DriftMargin.

Definition LIQUIDATION_FEE_ADJUST_GRACE_PERIOD_SLOTS : Z := 1500.

(** ** Amounts *)

(** [10_u128.pow] of the difference of decimals, above or below the fraction. *)
Definition scales (over under : Z) : DriftResult (Z * Z) :=
  if under <? over then let! s := uchk 128 (10 ^ (over - under)) in Ok (s, 1)
  else let! s := uchk 128 (10 ^ (under - over)) in Ok (1, s).

Definition calculate_base_asset_amount_to_cover_margin_shortage (margin_shortage margin_ratio liquidation_fee
    if_liquidation_fee oracle_price quote_oracle_price : Z) : DriftResult Z :=
  let! margin_ratio := safe_u 32 (margin_ratio * LIQUIDATION_FEE_TO_MARGIN_PRECISION_RATIO) in
  if (oracle_price =? 0) || (margin_ratio <=? liquidation_fee) then Ok (umax 64)
  else
    let! n := safe_u 128 (margin_shortage * PRICE_TIMES_AMM_TO_QUOTE_PRECISION_RATIO) in
    let! p := cast_u 128 oracle_price in
    let! q := cast_u 128 quote_oracle_price in
    let! d := safe_u 128 (p * q) in
    let! d := safe_udiv d PRICE_PRECISION in
    let! r := safe_u 32 (margin_ratio - liquidation_fee) in
    let! d := safe_u 128 (d * r) in
    let! d := safe_udiv d LIQUIDATION_FEE_PRECISION in
    let! f := safe_u 128 (p * if_liquidation_fee) in
    let! f := safe_udiv f LIQUIDATION_FEE_PRECISION in
    let! d := safe_u 128 (d - f) in
    let! x := safe_udiv n d in
    cast_u 64 x.

Definition calculate_liability_transfer_to_cover_margin_shortage (margin_shortage asset_weight asset_liquidation_multiplier
    liability_weight liability_liquidation_multiplier liability_decimals liability_price if_liquidation_fee : Z) :
    DriftResult Z :=
  if liability_weight <=? asset_weight then Ok (umax 128)
  else
    let! '(numerator_scale, denominator_scale) := scales liability_decimals 6 in
    let! liability_weight_component := safe_u 128 (liability_weight * 10) in
    let! a := safe_u 128 (asset_weight * 10) in
    let! a := safe_u 128 (a * asset_liquidation_multiplier) in
    let! asset_weight_component := safe_udiv a liability_liquidation_multiplier in
    if liability_weight_component <=? asset_weight_component then Ok (umax 128)
    else
      let! n := safe_u 128 (margin_shortage * numerator_scale) in
      let! n := safe_u 128 (n * (PRICE_PRECISION * SPOT_WEIGHT_PRECISION * 10)) in
      let! p := cast_u 128 liability_price in
      let! w := safe_u 128 (liability_weight_component - asset_weight_component) in
      let! d := safe_u 128 (p * w) in
      let! f := safe_u 128 (p * if_liquidation_fee) in
      let! f := safe_udiv f LIQUIDATION_FEE_PRECISION in
      let! f := safe_u 128 (f * liability_weight) in
      let! f := safe_u 128 (f * 10) in
      let! d := safe_u 128 (d - f) in
      let! x := safe_udiv n d in
      let! x := safe_udiv x denominator_scale in
      Ok (Z.max x 1).

Definition calculate_liability_transfer_implied_by_asset_amount (asset_amount asset_liquidation_multiplier asset_decimals
    asset_price liability_liquidation_multiplier liability_decimals liability_price : Z) : DriftResult Z :=
  let! '(numerator_scale, denominator_scale) := scales liability_decimals asset_decimals in
  let! x := safe_u 128 (asset_amount * numerator_scale) in
  let! p := cast_u 128 asset_price in
  let! x := safe_u 128 (x * p) in
  let! x := safe_u 128 (x * liability_liquidation_multiplier) in
  let! q := cast_u 128 liability_price in
  let! d := safe_u 128 (q * asset_liquidation_multiplier) in
  let! x := safe_div_ceil 128 x d in
  safe_div_ceil 128 x denominator_scale.

Definition calculate_asset_transfer_for_liability_transfer (asset_amount asset_liquidation_multiplier asset_decimals
    asset_price liability_amount liability_liquidation_multiplier liability_decimals liability_price : Z) : DriftResult Z :=
  let! '(numerator_scale, denominator_scale) := scales asset_decimals liability_decimals in
  let! x := safe_u 128 (liability_amount * numerator_scale) in
  let! q := cast_u 128 liability_price in
  let! x := safe_u 128 (x * q) in
  let! x := safe_u 128 (x * asset_liquidation_multiplier) in
  let! p := cast_u 128 asset_price in
  let! d := safe_u 128 (p * liability_liquidation_multiplier) in
  let! x := safe_udiv x d in
  let! x := safe_udiv x denominator_scale in
  let asset_transfer := Z.max x 1 in
  let! '(vn, vd) := scales asset_decimals 6 in
  let asset_delta := Z.abs (asset_transfer - asset_amount) in
  let! v := safe_u 128 (asset_delta * p) in
  let! v := safe_udiv v PRICE_PRECISION in
  let! v := safe_u 128 (v * vn) in
  let! asset_value_delta := safe_udiv v vd in
  Ok (if asset_value_delta <? QUOTE_PRECISION then asset_amount else asset_transfer).

Inductive LiquidationMultiplierType : Set := Discount | Premium.
Definition calculate_liquidation_multiplier (liquidation_fee : Z) (t : LiquidationMultiplierType) : DriftResult Z :=
  match t with
  | Premium => safe_u 32 (LIQUIDATION_FEE_PRECISION + liquidation_fee)
  | Discount => safe_u 32 (LIQUIDATION_FEE_PRECISION - liquidation_fee)
  end.

(** What each unit of the others' bases pays for the loss. *)
Definition calculate_funding_rate_deltas_to_resolve_bankruptcy (loss : Z) (m : PerpMarket) : DriftResult Z :=
  let! l := ichk 128 (Z.abs (base_asset_amount_long (amm m))) in
  let! s := ichk 128 (Z.abs (base_asset_amount_short (amm m))) in
  let! total_base_asset_amount := safe_i 128 (l + s) in
  do! validate (negb (total_base_asset_amount =? 0)) CantResolvePerpBankruptcy in
  let! a := ichk 128 (Z.abs loss) in
  let! n := safe_i 128 (a * AMM_RESERVE_PRECISION) in
  let! q := safe_idiv_ceil 128 n total_base_asset_amount in
  safe_i 128 (q * FUNDING_RATE_TO_QUOTE_PRECISION_PRECISION_RATIO).

(** [safe_div_ceil(..).or(Ok(0))] *)
Definition calculate_cumulative_deposit_interest_delta_to_resolve_bankruptcy (borrow : Z) (m : SpotMarket) : DriftResult Z :=
  let! total_deposits := get_token_amount (deposit_balance m) m Deposit in
  let! n := safe_u 128 (cumulative_deposit_interest m * borrow) in
  Ok (match safe_div_ceil 128 n total_deposits with Ok d => d | _ => 0 end).

Definition calculate_swap_price (amount_out amount_in out_decimals in_decimals : Z) : DriftResult Z :=
  let! x := safe_u 128 (amount_out * PRICE_PRECISION) in
  let! o := uchk 128 (10 ^ out_decimals) in
  let! x := safe_udiv x o in
  let! i := uchk 128 (10 ^ in_decimals) in
  let! x := safe_u 128 (x * i) in
  safe_udiv x amount_in.

Definition validate_transfer_satisfies_limit_price (asset_transfer liability_transfer asset_decimals liability_decimals : Z)
    (limit_price : option Z) : DriftResult unit :=
  match limit_price with
  | None => Ok tt
  | Some limit_price =>
      let! swap_price := calculate_swap_price asset_transfer liability_transfer asset_decimals liability_decimals in
      validate (limit_price <=? swap_price) LiquidationDoesntSatisfyLimitPrice
  end.

(** The part of the position the liquidator may take at this slot. *)
Definition calculate_max_pct_to_liquidate (u : User) (margin_shortage slot initial_pct_to_liquidate liquidation_duration : Z) :
    DriftResult Z :=
  if margin_shortage <? 50 * QUOTE_PRECISION then Ok LIQUIDATION_PCT_PRECISION
  else
    let! slots_elapsed := safe_u 64 (slot - u_last_active_slot u) in
    let! x := safe_u 128 (slots_elapsed * LIQUIDATION_PCT_PRECISION) in
    let x := match safe_udiv x liquidation_duration with Ok y => y | _ => LIQUIDATION_PCT_PRECISION end in
    let! x := safe_u 128 (x + initial_pct_to_liquidate) in
    let pct_freeable := Z.min x LIQUIDATION_PCT_PRECISION in
    let! total_margin_shortage := safe_u 128 (margin_shortage + u_liquidation_margin_freed u) in
    let! x := safe_u 128 (total_margin_shortage * pct_freeable) in
    let! max_margin_freed := safe_udiv x LIQUIDATION_PCT_PRECISION in
    let margin_freeable := usat 128 (max_margin_freed - u_liquidation_margin_freed u) in
    let! x := safe_u 128 (margin_freeable * LIQUIDATION_PCT_PRECISION) in
    safe_udiv x margin_shortage.

(** ** Fees *)

(** [cast::<u32>().unwrap_or(u32::MAX)] *)
Definition cast_u32_or_max (x : Z) : Z := if uok 32 x then x else umax 32.

(** What the insurance fund can take and still leave the user above water. *)
Definition calculate_perp_if_fee (margin_shortage user_base_asset_amount margin_ratio liquidator_fee oracle_price
    quote_oracle_price max_if_liquidation_fee : Z) : DriftResult Z :=
  let! margin_ratio := safe_u 32 (margin_ratio * LIQUIDATION_FEE_TO_MARGIN_PRECISION_RATIO) in
  if (oracle_price =? 0) || (quote_oracle_price =? 0) || (margin_ratio <=? liquidator_fee) || (user_base_asset_amount =? 0)
  then Ok 0
  else
    let! p := cast_u 128 oracle_price in
    let! q := cast_u 128 quote_oracle_price in
    let! price := safe_u 128 (p * q) in
    let! price := safe_udiv price PRICE_PRECISION in
    let! x := safe_u 128 (margin_shortage * BASE_PRECISION) in
    let! x := safe_udiv x user_base_asset_amount in
    let! x := safe_u 128 (x * PRICE_PRECISION) in
    let! x := safe_udiv x price in
    let! y := safe_u 32 (usat 32 (usat 32 (margin_ratio - liquidator_fee) - cast_u32_or_max x) * 19) in
    let! implied_if_fee := safe_udiv y 20 in
    Ok (Z.min max_if_liquidation_fee implied_if_fee).

Definition calculate_spot_if_fee (margin_shortage token_amount asset_weight asset_liquidation_multiplier liability_weight
    liability_liquidation_multiplier liability_decimals liability_price max_if_fee : Z) : DriftResult Z :=
  if (liability_weight <=? asset_weight) || (liability_price =? 0) || (token_amount =? 0)
     || (liability_liquidation_multiplier =? 0) then Ok 0
  else
    let! token_precision := uchk 128 (10 ^ liability_decimals) in
    let! liability_weight := safe_u 128 (liability_weight * (LIQUIDATION_FEE_PRECISION / SPOT_WEIGHT_PRECISION)) in
    let! asset_weight := safe_u 128 (asset_weight * (LIQUIDATION_FEE_PRECISION / SPOT_WEIGHT_PRECISION)) in
    let! a := safe_u 128 (asset_weight * asset_liquidation_multiplier) in
    let! a := safe_udiv a liability_liquidation_multiplier in
    let! s := safe_u 128 (margin_shortage * LIQUIDATION_FEE_PRECISION) in
    let! s := safe_u 128 (s * token_precision) in
    let! s := safe_udiv s token_amount in
    let! p := cast_u 128 liability_price in
    let! s := safe_udiv s p in
    let! x := safe_u 128 (usat 128 (usat 128 (liability_weight - a) - s) * LIQUIDATION_FEE_PRECISION) in
    let! x := safe_udiv x liability_weight in
    Ok (Z.min max_if_fee (cast_u32_or_max x)).

(** The fee grows with the time since the user was last active. *)
Definition get_liquidation_fee (base_liquidation_fee max_liquidation_fee last_active_user_slot current_slot : Z) :
    DriftResult Z :=
  let! slots_elapsed := safe_u 64 (current_slot - last_active_user_slot) in
  if slots_elapsed <? LIQUIDATION_FEE_ADJUST_GRACE_PERIOD_SLOTS then Ok base_liquidation_fee
  else
    let! x := safe_u 64 (slots_elapsed * LIQUIDATION_FEE_INCREASE_PER_SLOT) in
    Ok (Z.min (usat 32 (base_liquidation_fee + cast_u32_or_max x)) max_liquidation_fee).

Definition validate_swap_within_liquidation_boundaries (asset_transfer liability_transfer asset_decimals liability_decimals
    asset_price liability_price asset_liquidation_multiplier liability_liquidation_multiplier : Z) : DriftResult unit :=
  let! asset_precision := uchk 128 (10 ^ asset_decimals) in
  let! liability_precision := uchk 128 (10 ^ liability_decimals) in
  let! x := safe_u 128 (liability_transfer * PRICE_PRECISION) in
  let! x := safe_udiv x liability_precision in
  let! x := safe_u 128 (x * asset_precision) in
  let! swap_price := safe_udiv x asset_transfer in
  let! y := cast_u 128 asset_price in
  let! y := safe_u 128 (y * PRICE_PRECISION) in
  let! y := safe_u 128 (y * liability_liquidation_multiplier) in
  let! l := cast_u 128 liability_price in
  let! y := safe_udiv y l in
  let! worst_case_price := safe_udiv y asset_liquidation_multiplier in
  validate (worst_case_price <=? swap_price) InvalidLiquidation.

(** ** Bankruptcy: [math/bankruptcy.rs] *)

(** Liabilities, no assets and no exposure, the isolated positions apart. *)
Definition bankruptcy_is_cross_margin_bankrupt (u : User) : bool :=
  let spots := List.filter (fun p => 0 <? sp_scaled_balance p) (u_spot_positions u) in
  let perps := List.filter (fun p => negb (is_isolated p)) (u_perp_positions u) in
  forallb (fun p => balance_type_eqb (sp_balance_type p) Borrow) spots
  && forallb (fun p => negb (negb (pp_base_asset_amount p =? 0) || (0 <? pp_quote_asset_amount p) || has_open_order p)) perps
  && (negb (length spots =? 0)%nat || existsb (fun p => pp_quote_asset_amount p <? 0) perps).

Definition bankruptcy_is_isolated_margin_bankrupt (u : User) (market_index : Z) : DriftResult bool :=
  let! p := get_isolated_perp_position u market_index in
  Ok (if 0 <? pp_isolated_position_scaled_balance p then false
      else (pp_base_asset_amount p =? 0) && (pp_quote_asset_amount p <? 0) && negb (has_open_order p)).

(** ** The modes of a perpetual liquidation *)

Record LiquidatePerpMode := mkLiquidatePerpMode {
  lm_user_is_being_liquidated : User -> DriftResult bool;
  lm_meets_margin_requirements : MarginCalculation -> DriftResult bool;
  lm_enter_liquidation : User -> Z -> DriftResult (User * Z);
  lm_can_exit_liquidation : MarginCalculation -> DriftResult bool;
  lm_exit_liquidation : User -> DriftResult User;
  lm_get_cancel_orders_params : option MarketType * option Z;
  lm_calculate_max_pct_to_liquidate : User -> Z -> Z -> Z -> Z -> DriftResult Z;
  lm_increment_free_margin : User -> Z -> DriftResult User;
  lm_is_user_bankrupt : User -> DriftResult bool;
  lm_should_user_enter_bankruptcy : User -> DriftResult bool;
  lm_enter_bankruptcy : User -> DriftResult User;
  lm_exit_bankruptcy : User -> DriftResult User;
  lm_get_event_fields : MarginCalculation -> DriftResult (Z * Z * Z);
  lm_validate_spot_position : User -> Z -> DriftResult unit;
  lm_get_spot_token_amount : User -> SpotMarket -> DriftResult Z;
  lm_calculate_user_safest_position_tiers : User -> Markets -> DriftResult (AssetTier * ContractTier);
  lm_decrease_spot_token_amount : User -> Z -> SpotMarket -> option Z -> DriftResult (User * SpotMarket);
  lm_margin_shortage : MarginCalculation -> DriftResult Z;
}.

Definition cross_validate_spot_position (u : User) (asset_market_index : Z) : DriftResult unit :=
  match get_spot_position u asset_market_index with
  | Ok _ => Ok tt
  | Err _ => Err CouldNotFindSpotPosition
  | Panic => Panic
  end.

Definition cross_get_spot_token_amount (u : User) (m : SpotMarket) : DriftResult Z :=
  let! p := get_spot_position u (sm_market_index m) in
  do! validate (balance_type_eqb (sp_balance_type p) Deposit) WrongSpotBalanceType in
  let! token_amount := spot_get_token_amount p m in
  do! validate (negb (token_amount =? 0)) InvalidSpotPosition in
  Ok token_amount.

Definition cross_decrease_spot_token_amount (u : User) (token_amount : Z) (m : SpotMarket)
    (cumulative_deposit_delta : option Z) : DriftResult (User * SpotMarket) :=
  let! i := get_spot_position_index u (sm_market_index m) in
  let! p := idx (u_spot_positions u) (Z.of_nat i) in
  let! '(m, p) := update_spot_balances_and_cumulative_deposits token_amount Borrow m p false cumulative_deposit_delta in
  let! l := set_idx (u_spot_positions u) (Z.of_nat i) p in
  Ok (u <| u_spot_positions := l |>, m).

Definition CrossMarginLiquidatePerpMode (market_index : Z) : LiquidatePerpMode := {|
  lm_user_is_being_liquidated u := Ok (is_cross_margin_being_liquidated u);
  lm_meets_margin_requirements c := Ok (meets_cross_margin_requirement c);
  lm_enter_liquidation := enter_cross_margin_liquidation;
  lm_can_exit_liquidation := can_exit_cross_margin_liquidation;
  lm_exit_liquidation u := Ok (exit_cross_margin_liquidation u);
  lm_get_cancel_orders_params := (None, None);
  lm_calculate_max_pct_to_liquidate := calculate_max_pct_to_liquidate;
  lm_increment_free_margin := increment_margin_freed;
  lm_is_user_bankrupt u := Ok (is_cross_margin_bankrupt u);
  lm_should_user_enter_bankruptcy u := Ok (bankruptcy_is_cross_margin_bankrupt u);
  lm_enter_bankruptcy u := Ok (enter_cross_margin_bankruptcy u);
  lm_exit_bankruptcy u := Ok (exit_cross_margin_bankruptcy u);
  lm_get_event_fields c := Ok (margin_requirement c, total_collateral c, 0);
  lm_validate_spot_position := cross_validate_spot_position;
  lm_get_spot_token_amount := cross_get_spot_token_amount;
  lm_calculate_user_safest_position_tiers := calculate_user_safest_position_tiers;
  lm_decrease_spot_token_amount := cross_decrease_spot_token_amount;
  lm_margin_shortage := cross_margin_margin_shortage;
|}.

(** [LiquidationBitFlag::IsolatedPosition] *)
Definition LIQUIDATION_ISOLATED_POSITION : Z := 1.

Definition isolated_get_event_fields (market_index : Z) (c : MarginCalculation) : DriftResult (Z * Z * Z) :=
  let! i := isolated_of c market_index in
  Ok (ic_margin_requirement i, ic_total_collateral i, LIQUIDATION_ISOLATED_POSITION).

Definition isolated_get_spot_token_amount (market_index : Z) (u : User) (m : SpotMarket) : DriftResult Z :=
  let! p := get_isolated_perp_position u market_index in
  let! token_amount := get_isolated_token_amount p m in
  do! validate (negb (token_amount =? 0)) InvalidSpotPosition in
  Ok token_amount.

Definition isolated_calculate_user_safest_position_tiers (market_index : Z) (_ : User) (ms : Markets) :
    DriftResult (AssetTier * ContractTier) :=
  let! m := perp_get_ref (mk_perps ms) market_index in Ok (Unlisted, contract_tier m).

Definition isolated_decrease_spot_token_amount (market_index : Z) (u : User) (token_amount : Z) (m : SpotMarket)
    (_ : option Z) : DriftResult (User * SpotMarket) :=
  let! '(l, i) := force_get_isolated_perp_position_index u market_index in
  let! p := idx l (Z.of_nat i) in
  let! '(m, p) := update_spot_balances token_amount Borrow m p false in
  let! l := set_idx l (Z.of_nat i) p in
  Ok (u <| u_perp_positions := l |>, m).

Definition IsolatedMarginLiquidatePerpMode (market_index : Z) : LiquidatePerpMode := {|
  lm_user_is_being_liquidated u := is_isolated_margin_being_liquidated u market_index;
  lm_meets_margin_requirements c := meets_isolated_margin_requirement c market_index;
  lm_enter_liquidation u := enter_isolated_margin_liquidation u market_index;
  lm_can_exit_liquidation c := can_exit_isolated_margin_liquidation c market_index;
  lm_exit_liquidation u := exit_isolated_margin_liquidation u market_index;
  lm_get_cancel_orders_params := (Some Perp, Some market_index);
  lm_calculate_max_pct_to_liquidate _ _ _ _ _ := Ok LIQUIDATION_PCT_PRECISION;
  lm_increment_free_margin u _ := Ok u;
  lm_is_user_bankrupt u := is_isolated_margin_bankrupt u market_index;
  lm_should_user_enter_bankruptcy u := bankruptcy_is_isolated_margin_bankrupt u market_index;
  lm_enter_bankruptcy u := enter_isolated_margin_bankruptcy u market_index;
  lm_exit_bankruptcy u := exit_isolated_margin_bankruptcy u market_index;
  lm_get_event_fields := isolated_get_event_fields market_index;
  lm_validate_spot_position _ i := validate (i =? QUOTE_SPOT_MARKET_INDEX) CouldNotFindSpotPosition;
  lm_get_spot_token_amount := isolated_get_spot_token_amount market_index;
  lm_calculate_user_safest_position_tiers := isolated_calculate_user_safest_position_tiers market_index;
  lm_decrease_spot_token_amount := isolated_decrease_spot_token_amount market_index;
  lm_margin_shortage c := isolated_margin_shortage c market_index;
|}.

(** A user without the position is liquidated in the cross mode. *)
Definition get_perp_liquidation_mode (u : User) (market_index : Z) : DriftResult LiquidatePerpMode :=
  match get_perp_position u market_index with
  | Ok p => Ok (if is_isolated p then IsolatedMarginLiquidatePerpMode market_index else CrossMarginLiquidatePerpMode market_index)
  | Err _ => Ok (CrossMarginLiquidatePerpMode market_index)
  | Panic => Panic
  end.

(** ** Who must be liquidated *)

(** The isolated calculations in the order of their markets. *)
Definition entry_le (a b : Z * IsolatedMarginCalculation) : Prop := a.1 <= b.1.
#[export] Instance entry_le_dec : RelDecision entry_le := fun a b => decide (a.1 <= b.1).

Section Margin.
Context {roots : Roots}.

Definition liquidation_calculation (u : User) (ms : Markets) (o : OracleMap) (liquidation_margin_buffer_ratio : Z) :
    DriftResult (MarginCalculation * OracleMap) :=
  calculate_margin_requirement_and_total_collateral_and_liability_info u ms o (liquidation liquidation_margin_buffer_ratio).

(** [is_cross_margin_being_liquidated] and [is_isolated_margin_being_liquidated] of
    [math/liquidation.rs]. *)
Definition cannot_exit_cross_margin_liquidation (u : User) (ms : Markets) (o : OracleMap)
    (liquidation_margin_buffer_ratio : Z) : DriftResult bool :=
  let! '(c, _) := liquidation_calculation u ms o liquidation_margin_buffer_ratio in
  let! b := can_exit_cross_margin_liquidation c in Ok (negb b).
Definition cannot_exit_isolated_margin_liquidation (u : User) (ms : Markets) (o : OracleMap)
    (perp_market_index liquidation_margin_buffer_ratio : Z) : DriftResult bool :=
  let! '(c, _) := liquidation_calculation u ms o liquidation_margin_buffer_ratio in
  let! b := can_exit_isolated_margin_liquidation c perp_market_index in Ok (negb b).

(** A user who may leave leaves; one who may not is an error.  While the cross
    account is being liquidated the isolated positions are not looked at. *)
Definition validate_user_not_being_liquidated (u : User) (ms : Markets) (o : OracleMap)
    (liquidation_margin_buffer_ratio : Z) : DriftResult (User * OracleMap) :=
  if negb (user_is_being_liquidated u) then Ok (u, o)
  else
    let! '(c, o) := liquidation_calculation u ms o liquidation_margin_buffer_ratio in
    if is_cross_margin_being_liquidated u then
      let! b := can_exit_cross_margin_liquidation c in
      if b then Ok (exit_cross_margin_liquidation u, o) else Err UserIsBeingLiquidated
    else
      let l := map pp_market_index (List.filter (fun p => is_isolated p && is_being_liquidated p) (u_perp_positions u)) in
      let! u :=
        foldO (fun u i =>
          let! b := can_exit_isolated_margin_liquidation c i in
          if b then exit_isolated_margin_liquidation u i else Err UserIsBeingLiquidated) u l in
      Ok (u, o).

Definition calculate_margin_freed (u : User) (ms : Markets) (o : OracleMap) (liquidation_margin_buffer_ratio
    initial_margin_shortage : Z) (liquidation_mode : option LiquidatePerpMode) :
    DriftResult (Z * MarginCalculation * OracleMap) :=
  let! '(c, o) := liquidation_calculation u ms o liquidation_margin_buffer_ratio in
  let! new_margin_shortage :=
    match liquidation_mode with Some l => lm_margin_shortage l c | None => cross_margin_margin_shortage c end in
  let! margin_freed := cast_u 64 (usat 128 (initial_margin_shortage - new_margin_shortage)) in
  Ok (margin_freed, c, o).

Definition isolated_entries (c : MarginCalculation) : list (Z * IsolatedMarginCalculation) :=
  merge_sort entry_le (map_to_list (isolated_margin_calculations c)).

Definition enter_isolated_if_below (slot : Z) (s : User * bool) (entry : Z * IsolatedMarginCalculation) :
    DriftResult (User * bool) :=
  let '(u, updated) := s in
  let! b := is_isolated_margin_being_liquidated u entry.1 in
  if negb b && negb (ic_meets_margin_requirement entry.2) then
    let! '(u, _) := enter_isolated_margin_liquidation u entry.1 slot in Ok (u, true)
  else Ok (u, updated).

Definition set_user_status_to_being_liquidated (u : User) (ms : Markets) (o : OracleMap)
    (slot liquidation_margin_buffer_ratio : Z) : DriftResult (User * OracleMap) :=
  do! validate (negb (user_is_bankrupt u)) UserBankrupt in
  do! validate (negb (user_is_being_liquidated u)) UserIsBeingLiquidated in
  let! '(c, o) := liquidation_calculation u ms o liquidation_margin_buffer_ratio in
  let! '(u, updated) :=
    if negb (is_cross_margin_being_liquidated u) && negb (meets_cross_margin_requirement c) then
      let! '(u, _) := enter_cross_margin_liquidation u slot in Ok (u, true)
    else Ok (u, false) in
  let! '(u, updated) := foldO (enter_isolated_if_below slot) (u, updated) (isolated_entries c) in
  if updated then Ok (u, o) else Err SufficientCollateral.

(** ** Resolving a bankruptcy *)

Definition put_perp (ms : Markets) (i : Z) (m : PerpMarket) : Markets := mkMarkets (<[i := m]> (mk_perps ms)) (mk_spots ms).
Definition put_spot (ms : Markets) (i : Z) (m : SpotMarket) : Markets := mkMarkets (mk_perps ms) (<[i := m]> (mk_spots ms)).

(** [SpotOperation::Liquidation] *)
Definition is_spot_liquidation_paused (m : SpotMarket) : bool := negb (Z.land (paused_operations m) 16 =? 0).

Definition validate_liquidator (liquidator : User) : DriftResult unit :=
  do! validate (negb (user_is_bankrupt liquidator)) UserBankrupt in
  validate (negb (user_is_being_liquidated liquidator)) UserIsBeingLiquidated.

(** The insurance fund pays first, into the pnl pool, and keeps a unit. *)
Definition draw_insurance (m : PerpMarket) (spots : gmap Z SpotMarket) (o : OracleMap)
    (loss insurance_fund_vault_balance now : Z) : DriftResult (PerpMarket * SpotMarket * OracleMap * Z) :=
  let c := insurance_claim m in
  let! max_insurance_withdraw := safe_u 64 (quote_max_insurance c - quote_settled_insurance c) in
  let if_payment := Z.min (Z.min (Z.abs loss) (usat 64 (insurance_fund_vault_balance - 1))) max_insurance_withdraw in
  let! p := cast_u 64 if_payment in
  let! settled := safe_u 64 (quote_settled_insurance c + p) in
  let m := m <| insurance_claim ; quote_settled_insurance := settled |> in
  let! s := spot_get_ref spots QUOTE_SPOT_MARKET_INDEX in
  let! '(d, o) := get_price_data o (spot_oracle_id s) in
  let! s := update_spot_market_cumulative_interest s (Some d) now in
  let! '(s, pool) := update_spot_balances if_payment Deposit s (pnl_pool m) false in
  Ok (m <| pnl_pool := pool |>, s, o, if_payment).

(** Then the market's fee pool. *)
Definition draw_fee_pool (m : PerpMarket) (s : SpotMarket) (losses_remaining : Z) : DriftResult (PerpMarket * SpotMarket * Z) :=
  let! fee_pool_payment :=
    if losses_remaining <? 0 then
      let! t := get_fee_pool_tokens m s in
      let! l := ichk 128 (Z.abs losses_remaining) in Ok (Z.min l t)
    else Ok 0 in
  do! validate (0 <=? fee_pool_payment) InvalidPerpPositionToLiquidate in
  if 0 <? fee_pool_payment then
    let! '(s, f) := update_spot_balances (Z.abs fee_pool_payment) Borrow s (fee_pool (amm m)) false in
    Ok (m <| amm ; fee_pool := f |>, s, fee_pool_payment)
  else Ok (m, s, fee_pool_payment).

(** Then everyone with a position. *)
Definition socialize_loss (m : PerpMarket) (loss_to_socialize cumulative_funding_rate_delta : Z) : DriftResult PerpMarket :=
  if loss_to_socialize <? 0 then
    let! t := safe_u 128 (total_social_loss (amm m) + Z.abs loss_to_socialize) in
    let! l := safe_i 128 (cumulative_funding_rate_long (amm m) + cumulative_funding_rate_delta) in
    let! s := safe_i 128 (cumulative_funding_rate_short (amm m) - cumulative_funding_rate_delta) in
    Ok (m <| amm ; total_social_loss := t |> <| amm ; cumulative_funding_rate_long := l |>
          <| amm ; cumulative_funding_rate_short := s |>)
  else Ok m.

Definition clear_bad_debt (u : User) (m : PerpMarket) (market_index : Z) : DriftResult (User * PerpMarket) :=
  let! i := get_position_index (u_perp_positions u) market_index in
  let! p := idx (u_perp_positions u) (Z.of_nat i) in
  let! d := ichk 64 (- pp_quote_asset_amount p) in
  let! '(p', m) := update_quote_asset_amount p m d in
  let! l := set_idx (u_perp_positions u) (Z.of_nat i) p' in
  Ok (increment_total_socialized_loss (u <| u_perp_positions := l |>) (Z.abs (pp_quote_asset_amount p)), m).

(** Pays [loss], not positive, from the three sources in turn; what each gave. *)
Definition cover_loss (m : PerpMarket) (spots : gmap Z SpotMarket) (o : OracleMap)
    (loss insurance_fund_vault_balance now : Z) : DriftResult (PerpMarket * SpotMarket * OracleMap * (Z * Z * Z)) :=
  let! '(m, s, o, if_payment) := draw_insurance m spots o loss insurance_fund_vault_balance now in
  let! losses_remaining := safe_i 128 (loss + if_payment) in
  do! validate (losses_remaining <=? 0) InvalidPerpPositionToLiquidate in
  let! '(m, s, fee_pool_payment) := draw_fee_pool m s losses_remaining in
  let! loss_to_socialize := safe_i 128 (losses_remaining + fee_pool_payment) in
  do! validate (loss_to_socialize <=? 0) InvalidPerpPositionToLiquidate in
  let! d := calculate_funding_rate_deltas_to_resolve_bankruptcy loss_to_socialize m in
  let! m := socialize_loss m loss_to_socialize d in
  Ok (m, s, o, (if_payment, fee_pool_payment, loss_to_socialize)).

Definition resolve_perp_bankruptcy (market_index : Z) (u liquidator : User) (ms : Markets) (o : OracleMap)
    (now insurance_fund_vault_balance : Z) : DriftResult (User * Markets * OracleMap * Z) :=
  let! mode := get_perp_liquidation_mode u market_index in
  let! already := lm_is_user_bankrupt mode u in
  let! should := if already then Ok false else lm_should_user_enter_bankruptcy mode u in
  let! u := if negb already && should then lm_enter_bankruptcy mode u else Ok u in
  let! bankrupt := lm_is_user_bankrupt mode u in
  do! validate bankrupt UserNotBankrupt in
  do! validate_liquidator liquidator in
  let! m := perp_get_ref (mk_perps ms) market_index in
  do! validate (negb (is_operation_paused m OpLiquidation)) InvalidLiquidation in
  let! p := get_perp_position u market_index in
  let loss := pp_quote_asset_amount p in
  do! validate (loss <? 0) InvalidPerpPositionToLiquidate in
  let! '(c, o) := calculate_margin_requirement_and_total_collateral_and_liability_info u ms o (standard Maintenance) in
  let! '(m, s, o, (if_payment, _, _)) := cover_loss m (mk_spots ms) o loss insurance_fund_vault_balance now in
  let! '(u, m) := clear_bad_debt u m market_index in
  let! should := lm_should_user_enter_bankruptcy mode u in
  let! u := if negb should then lm_exit_bankruptcy mode u else Ok u in
  let! _ := safe_u 16 (u_next_liquidation_id u - 1) in
  let! _ := lm_get_event_fields mode c in
  let! paid := cast_u 64 if_payment in
  Ok (u, put_spot (put_perp ms market_index m) QUOTE_SPOT_MARKET_INDEX s, o, paid).

(** The lenders of the token pay what the insurance fund does not. *)
Definition repay_and_socialize (u : User) (market_index : Z) (m : SpotMarket) (d : OraclePriceData)
    (borrow_amount cumulative_deposit_interest_delta : Z) : DriftResult (User * SpotMarket) :=
  let! b := cast_i 128 borrow_amount in
  let! b := ichk 128 (- b) in
  let! quote_social_loss := get_token_value b (decimals m) (price d) in
  let! q := cast_u 64 (Z.abs quote_social_loss) in
  let u := increment_total_socialized_loss u q in
  let! i := get_spot_position_index u market_index in
  let! p := idx (u_spot_positions u) (Z.of_nat i) in
  let! '(m, p) := update_spot_balances_and_cumulative_deposits borrow_amount Deposit m p false None in
  let! l := set_idx (u_spot_positions u) (Z.of_nat i) p in
  let! cd := safe_u 128 (cumulative_deposit_interest m - cumulative_deposit_interest_delta) in
  let! t := safe_u 128 (sm_total_social_loss m + borrow_amount) in
  let! tq := safe_u 128 (total_quote_social_loss m + Z.abs quote_social_loss) in
  Ok (u <| u_spot_positions := l |>,
      m <| cumulative_deposit_interest := cd |> <| sm_total_social_loss := t |> <| total_quote_social_loss := tq |>).

Definition resolve_spot_bankruptcy (market_index : Z) (u liquidator : User) (ms : Markets) (o : OracleMap)
    (insurance_fund_vault_balance : Z) : DriftResult (User * Markets * OracleMap * Z) :=
  let u := if negb (is_cross_margin_bankrupt u) && bankruptcy_is_cross_margin_bankrupt u then enter_cross_margin_bankruptcy u
           else u in
  do! validate (is_cross_margin_bankrupt u) UserNotBankrupt in
  do! validate_liquidator liquidator in
  let! m := spot_get_ref (mk_spots ms) market_index in
  do! validate (negb (is_spot_liquidation_paused m)) InvalidLiquidation in
  do! cross_validate_spot_position u market_index in
  let! '(_, o) := calculate_margin_requirement_and_total_collateral_and_liability_info u ms o (standard Maintenance) in
  let! p := get_spot_position u market_index in
  do! validate (balance_type_eqb (sp_balance_type p) Borrow) UserHasInvalidBorrow in
  do! validate (0 <? sp_scaled_balance p) UserHasInvalidBorrow in
  let! borrow_amount := spot_get_token_amount p m in
  let if_payment := Z.min borrow_amount (usat 64 (insurance_fund_vault_balance - 1)) in
  let! loss_to_socialize := safe_u 128 (borrow_amount - if_payment) in
  let! delta := calculate_cumulative_deposit_interest_delta_to_resolve_bankruptcy loss_to_socialize m in
  let! '(d, o) := get_price_data o (spot_oracle_id m) in
  let! '(u, m) := repay_and_socialize u market_index m d borrow_amount delta in
  let u := if negb (bankruptcy_is_cross_margin_bankrupt u) then exit_cross_margin_bankruptcy u else u in
  let! _ := safe_u 16 (u_next_liquidation_id u - 1) in
  let! paid := cast_u 64 if_payment in
  Ok (u, put_spot ms market_index m, o, paid).
End Margin.

(** * The modes keep their own state *)

(** A user whose flags are bytes, with one position in the market at most. *)
Record flagged (i : Z) (u : User) : Prop := {
  fl_status : 0 <= u_status u < 256;
  fl_positions : Forall (fun p => 0 <= pp_position_flag p < 256) (u_perp_positions u);
  fl_one : forall j k p q, u_perp_positions u !! j = Some p -> u_perp_positions u !! k = Some q ->
             is_for p i = true -> is_for q i = true -> j = k;
}.

(** What a mode promises: its four transitions lead to the states they name, and
    change the user within [frame]. *)
Record lawful (i : Z) (M : LiquidatePerpMode) (frame : User -> User -> Prop) : Prop := {
  lw_enter : forall u slot u' id, flagged i u -> lm_enter_liquidation M u slot = Ok (u', id) ->
    lm_user_is_being_liquidated M u' = Ok true /\ frame u u' /\ flagged i u';
  lw_exit : forall u u', flagged i u -> lm_exit_liquidation M u = Ok u' ->
    lm_user_is_being_liquidated M u' = Ok false /\ lm_is_user_bankrupt M u' <> Ok true /\ frame u u' /\ flagged i u';
  lw_enter_bankruptcy : forall u u', flagged i u -> lm_enter_bankruptcy M u = Ok u' ->
    lm_user_is_being_liquidated M u' = Ok true /\ lm_is_user_bankrupt M u' = Ok true /\ frame u u' /\ flagged i u';
  lw_exit_bankruptcy : forall u u', flagged i u -> lm_exit_bankruptcy M u = Ok u' ->
    lm_user_is_being_liquidated M u' = Ok false /\ lm_is_user_bankrupt M u' <> Ok true /\ frame u u' /\ flagged i u';
}.

(** The cross mode leaves every position and the other status bits. *)
Definition cross_frame (u u' : User) : Prop :=
  u_perp_positions u' = u_perp_positions u /\ u_spot_positions u' = u_spot_positions u
  /\ forall s, s <> BeingLiquidated -> s <> Bankrupt -> has_status u' s = has_status u s.

(** The isolated mode leaves the account's status and the other markets'
    positions. *)
Definition isolated_frame (i : Z) (u u' : User) : Prop :=
  u_status u' = u_status u /\ u_spot_positions u' = u_spot_positions u
  /\ forall k p, u_perp_positions u !! k = Some p -> pp_market_index p <> i -> is_available p = false ->
       u_perp_positions u' !! k = Some p.

Lemma flagged_same i u u' : flagged i u -> 0 <= u_status u' < 256 -> u_perp_positions u' = u_perp_positions u -> flagged i u'.
Proof. intros [_ Hf Ho] Hs Hp. constructor; [done|by rewrite Hp|by rewrite Hp]. Qed.

Lemma cross_event i u slot e u' : flagged i u -> margin_event u slot e = Ok u' ->
  u_spot_positions u' = u_spot_positions u ->
  margin_state u' = margin_transition (margin_state u) e /\ cross_frame u u' /\ flagged i u'.
Proof.
  intros Hu H Hs. destruct (margin_event_Ok _ _ _ _ (fl_status _ _ Hu) H) as (Hm & Hb & Hp & Hst).
  split_and!; [done| |by eapply flagged_same]. split_and!; done.
Qed.

Lemma margin_state_bankrupt u : margin_state u = BankruptState <-> is_cross_margin_bankrupt u = true.
Proof. unfold margin_state, is_cross_margin_bankrupt. by destruct (has_status u Bankrupt), (has_status u BeingLiquidated). Qed.

Lemma cross_mode_lawful i : lawful i (CrossMarginLiquidatePerpMode i) cross_frame.
Proof.
  split; intros u; cbn.
  - intros slot u' id Hu H. destruct (cross_event i u slot EnterLiquidation u' Hu) as (Hm & Hf & Hu').
    { cbn. by rewrite H. }
    { unfold enter_cross_margin_liquidation in H. destruct (is_cross_margin_being_liquidated u).
      { by apply obind_Ok in H as (? & _ & [= <- _]). }
      destruct (has_isolated_margin_being_liquidated _); [by apply obind_Ok in H as (? & _ & [= <- _])|by injection H as <- _]. }
    split_and!; [|done..]. rewrite margin_state_spec by apply Hu'. rewrite Hm. cbn. by destruct (margin_state u).
  - intros u' Hu [= <-]. destruct (cross_event i u 0 ExitLiquidation _ Hu eq_refl eq_refl) as (Hm & Hf & Hu').
    cbn in Hm. split_and!; [|intros [= Hb%margin_state_bankrupt]; rewrite Hm in Hb; by destruct (margin_state u)|done..].
    rewrite margin_state_spec by apply Hu'. rewrite Hm. by destruct (margin_state u).
  - intros u' Hu [= <-]. destruct (cross_event i u 0 EnterBankruptcy _ Hu eq_refl eq_refl) as (Hm & Hf & Hu').
    cbn in Hm. split_and!; [|f_equal; apply margin_state_bankrupt; rewrite Hm; by destruct (margin_state u)|done..].
    rewrite margin_state_spec by apply Hu'. rewrite Hm. by destruct (margin_state u).
  - intros u' Hu [= <-]. destruct (cross_event i u 0 ExitBankruptcy _ Hu eq_refl eq_refl) as (Hm & Hf & Hu').
    cbn in Hm. split_and!; [|intros [= Hb%margin_state_bankrupt]; rewrite Hm in Hb; by destruct (margin_state u)|done..].
    rewrite margin_state_spec by apply Hu'. rewrite Hm. by destruct (margin_state u).
Qed.

(** The position an isolated operation works on, and the others. *)
Lemma with_isolated_at u i f u' : flagged i u -> with_isolated_position u i f = Ok u' ->
  exists l k p, u' = u <| u_perp_positions := <[k := f p]> l |> /\ l !! k = Some p /\ is_isolated p = true /\ pp_market_index p = i
    /\ Forall (fun p => 0 <= pp_position_flag p < 256) l
    /\ (forall j q, j <> k -> l !! j = Some q -> is_for q i = false)
    /\ (forall j q, u_perp_positions u !! j = Some q -> pp_market_index q <> i -> is_available q = false ->
          j <> k /\ l !! j = Some q).
Proof.
  intros [_ Hf Ho] H. unfold with_isolated_position, force_get_isolated_perp_position_index in H.
  apply obind_Ok in H as ([l k] & Hl & H). apply obind_Ok in H as (p & [_ Hp]%idx_Ok & H).
  apply obind_Ok in H as (l' & [_ Hl']%set_idx_Ok & [= <-]). rewrite Nat2Z.id in *. exists l, k, p.
  destruct (get_position_index (u_perp_positions u) i) as [k0|e|] eqn:E; [| |done].
  - apply obind_Ok in Hl as (q & [_ Hq]%idx_Ok & Hl). apply obind_Ok in Hl as (v & Hv%validate_Ok & [= <- <-]).
    rewrite Nat2Z.id in Hq. assert (q = p) as -> by congruence. apply get_position_Ok in E as (q & Hq' & Hi & _).
    assert (q = p) as -> by congruence. split_and!; try done.
    + by rewrite Hl'.
    + by apply is_for_index.
    + intros j q Hj Hl. destruct (is_for q i) eqn:Hqi; [|done]. by destruct Hj; apply (Ho j k0 q p).
    + intros j q Hj Hqi Hav. split; [|done]. intros ->. assert (q = p) as -> by congruence. by apply is_for_index in Hi.
  - apply obind_Ok in Hl as ([l0 k0] & H0 & Hl). apply obind_Ok in Hl as (q & [_ Hq]%idx_Ok & Hl).
    apply obind_Ok in Hl as (l1 & [_ Hl1]%set_idx_Ok & [= <- <-]). rewrite Nat2Z.id in *.
    unfold add_new_position in H0. apply obind_Ok in H0 as (k1 & H1 & H0). apply obind_Ok in H0 as (old & _ & H0). cbv zeta in H0. apply obind_Ok in H0 as (l2 & [Hlt Hl2]%set_idx_Ok & [= <- <-]).
    rewrite Nat2Z.id in *. unfold position_of in H1. destruct (list_find _ _) as [[k2 q2]|] eqn:Hk; [|done]. injection H1 as <-.
    apply list_find_Some in Hk as (Hk & Hav & _). assert (k2 < length (u_perp_positions u))%nat as Hlen by (by apply lookup_lt_Some in Hk).
    subst l2. rewrite list_lookup_insert_eq in Hq by done. injection Hq as <-.
    subst l1. rewrite list_insert_insert_eq in *. rewrite list_lookup_insert_eq in Hp by done. injection Hp as <-.
    rewrite ?list_insert_insert_eq. split_and!; try done.
    + by rewrite Hl', ?list_insert_insert_eq.
    + by rewrite list_lookup_insert_eq.
    + apply Forall_insert; [done|cbn; lia].
    + intros j q Hj Hq. rewrite list_lookup_insert_ne in Hq by done. unfold get_position_index, position_of in E.
      destruct (list_find (fun a => is_for a i = true) (u_perp_positions u)) as [[? ?]|] eqn:Hn; [done|].
      apply list_find_None in Hn. rewrite Forall_lookup in Hn. specialize (Hn _ _ Hq). by destruct (is_for q i).
    + intros j q Hj Hqi Hqa. assert (j <> k2) as Hne by (intros ->; congruence). split; [done|]. by rewrite list_lookup_insert_ne.
Qed.

Lemma isolated_bit p : is_isolated p = Z.testbit (pp_position_flag p) 0.
Proof. exact (has_flag_testbit (pp_position_flag p) 0 ltac:(lia)). Qed.
Lemma bankrupt_bit p : is_bankrupt p = Z.testbit (pp_position_flag p) 2.
Proof. exact (has_flag_testbit (pp_position_flag p) 2 ltac:(lia)). Qed.
Lemma liquidated_bits p : 0 <= pp_position_flag p ->
  is_being_liquidated p = Z.testbit (pp_position_flag p) 1 || Z.testbit (pp_position_flag p) 2.
Proof. intros H. exact (has_two_flags (pp_position_flag p) 1 2 H ltac:(lia) ltac:(lia)). Qed.

(** A change of the two bits of a position's state. *)
Record reflagged (liquidated bankrupt : bool) (p p' : PerpPosition) : Prop := {
  rf_byte : 0 <= pp_position_flag p' < 256;
  rf_index : pp_market_index p' = pp_market_index p;
  rf_isolated : is_isolated p' = is_isolated p;
  rf_liquidated : is_being_liquidated p' = liquidated;
  rf_bankrupt : is_bankrupt p' = bankrupt;
}.

Lemma flag_added f p : pp_position_flag (add_position_flag f p) = add_flag (pp_position_flag p) (2 ^ Z.log2 (position_flag_bit f)).
Proof. by destruct f. Qed.
Lemma flag_removed f p :
  pp_position_flag (remove_position_flag f p) = remove_flag (pp_position_flag p) (2 ^ Z.log2 (position_flag_bit f)).
Proof. by destruct f. Qed.

#[local] Ltac flag_bits Hb :=
  constructor; [exact Hb|done|rewrite !isolated_bit|rewrite liquidated_bits by lia|rewrite ?bankrupt_bit];
    rewrite ?flag_added, ?flag_removed;
    repeat first [rewrite add_flag_testbit by (cbn; lia)|rewrite remove_flag_testbit by (cbn; lia)];
    cbn; rewrite ?andb_false_r, ?andb_true_r, ?orb_false_r, ?orb_true_r; try done.

Lemma reflag_cleared p : 0 <= pp_position_flag p < 256 ->
  reflagged false false p (remove_position_flag BankruptPosition (remove_position_flag BeingLiquidatedPosition p)).
Proof.
  intros H.
  assert (0 <= pp_position_flag (remove_position_flag BankruptPosition (remove_position_flag BeingLiquidatedPosition p)) < 256)
    as Hb by (rewrite !flag_removed; by repeat apply remove_flag_byte).
  flag_bits Hb.
Qed.
Lemma reflag_bankrupt p : 0 <= pp_position_flag p < 256 ->
  reflagged true true p (add_position_flag BankruptPosition (remove_position_flag BeingLiquidatedPosition p)).
Proof.
  intros H.
  assert (0 <= pp_position_flag (add_position_flag BankruptPosition (remove_position_flag BeingLiquidatedPosition p)) < 256)
    as Hb by (rewrite flag_added, flag_removed; apply add_flag_byte; [by apply remove_flag_byte|done]).
  flag_bits Hb.
Qed.
Lemma reflag_liquidated p : 0 <= pp_position_flag p < 256 ->
  reflagged true (is_bankrupt p) p (add_position_flag BeingLiquidatedPosition p).
Proof.
  intros H. assert (0 <= pp_position_flag (add_position_flag BeingLiquidatedPosition p) < 256)
    as Hb by (rewrite flag_added; by apply add_flag_byte).
  flag_bits Hb.
Qed.

(** Where the position's bits go, the mode sees them go. *)
Lemma isolated_reflagged u i f u' b : flagged i u -> with_isolated_position u i f = Ok u' ->
  (forall p, 0 <= pp_position_flag p < 256 -> reflagged b (is_bankrupt (f p)) p (f p)) ->
  flagged i u' /\ isolated_frame i u u'
  /\ exists p, is_isolated (f p) = true /\ 0 <= pp_position_flag p < 256
       /\ ((is_available (f p) = true /\ b = false /\ (exists e, get_isolated_perp_position u' i = Err e))
           \/ get_isolated_perp_position u' i = Ok (f p)).
Proof.
  intros Hu H Hf. destruct (with_isolated_at _ _ _ _ Hu H) as (l & k & p & -> & Hk & Hi & Hx & Hb & Hn & Hkeep).
  assert (0 <= pp_position_flag p < 256) as Hp by (rewrite Forall_lookup in Hb; by apply (Hb k)).
  destruct (Hf p Hp) as [Rb Rx Ri Rl _]. assert (k < length l)%nat as Hlen by (by apply lookup_lt_Some in Hk).
  split_and!.
  - constructor; cbn; [apply Hu|by apply Forall_insert|]. intros j1 j2 p1 p2 H1 H2 F1 F2.
    assert (forall j q, <[k := f p]> l !! j = Some q -> is_for q i = true -> j = k) as Hall.
    { intros j q Hj Hq. destruct (decide (j = k)); [done|]. rewrite list_lookup_insert_ne in Hj by done.
      by rewrite (Hn j q) in Hq. }
    by rewrite (Hall _ _ H1 F1), (Hall _ _ H2 F2).
  - split_and!; [done|done|]. intros j q Hj Hq Ha. destruct (Hkeep j q Hj Hq Ha) as [Hne Hl]. cbn.
    by rewrite list_lookup_insert_ne.
  - exists p. rewrite Ri. split_and!; [done|lia|lia|]. unfold get_isolated_perp_position. cbn.
    destruct (is_for (f p) i) eqn:Hfor.
    + right. unfold get_position_index, position_of.
      assert (list_find (fun a => is_for a i = true) (<[k := f p]> l) = Some (k, f p)) as ->.
      { apply list_find_Some. split_and!; [by apply list_lookup_insert_eq|done|]. intros j y Hj Hlt.
        rewrite list_lookup_insert_ne in Hj by lia. by rewrite (Hn j y) by (lia || done). }
      cbn [ok_or obind].
      rewrite (proj2 (idx_Ok (<[k := f p]> l) (Z.of_nat k) (f p))) by (rewrite Nat2Z.id, list_lookup_insert_eq by done; split; [lia|done]).
      cbn [obind]. unfold validate. by rewrite Ri, Hi.
    + left. assert (is_available (f p) = true) as Ha.
      { unfold is_for in Hfor. rewrite Rx, Hx, Z.eqb_refl in Hfor. cbn in Hfor. by destruct (is_available (f p)). }
      split_and!; [done| |].
      * unfold is_available in Ha. rewrite Rl in Ha. destruct b; [|done]. by rewrite andb_false_r in Ha.
      * exists UserHasNoPositionInMarket. unfold get_position_index, position_of.
        assert (list_find (fun a => is_for a i = true) (<[k := f p]> l) = None) as ->; [|done].
        apply list_find_None. apply Forall_lookup. intros j y Hj. destruct (decide (j = k)) as [->|Hne].
        -- rewrite list_lookup_insert_eq in Hj by done. injection Hj as <-. by rewrite Hfor.
        -- rewrite list_lookup_insert_ne in Hj by done. by rewrite (Hn j y).
Qed.

Lemma isolated_mode_lawful i : lawful i (IsolatedMarginLiquidatePerpMode i) (isolated_frame i).
Proof.
  split; intros u; cbn.
  - intros slot u' id Hu H. unfold enter_isolated_margin_liquidation in H. apply obind_Ok in H as (b & Hb & H).
    destruct b; [apply obind_Ok in H as (x & _ & [= <- _]); split_and!; done|].
    apply obind_Ok in H as ([u1 id1] & H1 & H). apply obind_Ok in H as (u2 & H2 & [= <- _]).
    assert (flagged i u1 /\ isolated_frame i u u1 /\ u_perp_positions u1 = u_perp_positions u) as (Hu1 & Hf1 & E1).
    { destruct (_ || _); [apply obind_Ok in H1 as (x & _ & [= <- _]); by split_and!|]. injection H1 as <- _.
      split_and!; try done. split; apply Hu. }
    destruct (isolated_reflagged _ _ _ _ true Hu1 H2) as (Hu2 & Hf2 & p & Hi & Hp & Hg).
    { intros p Hp. destruct (reflag_liquidated p Hp) as [R1 R2 R3 R4 R5]. by constructor. }
    split; [|split; [|done]].
    + destruct Hg as [(_ & ? & _)|Hg]; [done|]. unfold is_isolated_margin_being_liquidated. rewrite Hg. f_equal. apply (reflag_liquidated p Hp).
    + destruct Hf1 as (S1 & P1 & _), Hf2 as (S2 & P2 & K2). split_and!; [congruence|congruence|]. by rewrite <- E1.
  - intros u' Hu H. destruct (isolated_reflagged _ _ _ _ false Hu H) as (Hu2 & Hf2 & p & Hi & Hp & Hg).
    { intros p Hp. destruct (reflag_cleared p Hp) as [R1 R2 R3 R4 R5]. by constructor. }
    destruct (reflag_cleared p Hp) as [_ _ _ R4 R5]. unfold is_isolated_margin_being_liquidated, is_isolated_margin_bankrupt.
    destruct Hg as [(_ & _ & e & Hg)|Hg]; rewrite Hg; cbn; rewrite ?R4, ?R5; done.
  - intros u' Hu H. destruct (isolated_reflagged _ _ _ _ true Hu H) as (Hu2 & Hf2 & p & Hi & Hp & Hg).
    { intros p Hp. destruct (reflag_bankrupt p Hp) as [R1 R2 R3 R4 R5]. by constructor. }
    destruct (reflag_bankrupt p Hp) as [_ _ _ R4 R5]. unfold is_isolated_margin_being_liquidated, is_isolated_margin_bankrupt.
    destruct Hg as [(_ & ? & _)|Hg]; [done|]. rewrite Hg. cbn. rewrite R4, R5. done.
  - intros u' Hu H. destruct (isolated_reflagged _ _ _ _ false Hu H) as (Hu2 & Hf2 & p & Hi & Hp & Hg).
    { intros p Hp. destruct (reflag_cleared p Hp) as [R1 R2 R3 R4 R5]. by constructor. }
    destruct (reflag_cleared p Hp) as [_ _ _ R4 R5]. unfold is_isolated_margin_being_liquidated, is_isolated_margin_bankrupt.
    destruct Hg as [(_ & _ & e & Hg)|Hg]; rewrite Hg; cbn; rewrite ?R4, ?R5; done.
Qed.

(** C19: The two modes of a perpetual liquidation implement one specification, and
    act on separate states: entering and leaving liquidation or bankruptcy leads
    the user to the state the operation names, the cross mode changes no position
    and no other status, and the isolated mode changes neither the account's
    status nor another market's position. *)
Theorem liquidation_modes_lawful i :
  lawful i (CrossMarginLiquidatePerpMode i) cross_frame
  /\ lawful i (IsolatedMarginLiquidatePerpMode i) (isolated_frame i).
Proof. split; [apply cross_mode_lawful|apply isolated_mode_lawful]. Qed.

(** * How much is liquidated *)

(** The part of the total shortage that may be freed at a slot. *)
Definition pct_allowed (u : User) (slot initial duration : Z) : Z :=
  let grown := if duration =? 0 then LIQUIDATION_PCT_PRECISION
               else (slot - u_last_active_slot u) * LIQUIDATION_PCT_PRECISION / duration in
  Z.min (grown + initial) LIQUIDATION_PCT_PRECISION.

(** C21: A step of a liquidation takes a part of the position between nothing and
    all of it; together with the margin already freed it frees no more than the
    part of the total shortage allowed at the slot; a small shortage, or the end of
    the liquidation's duration, allows everything. *)
Theorem liquidation_step_bounded u shortage slot initial duration r :
  0 <= u_liquidation_margin_freed u -> 0 <= initial -> 0 <= duration ->
  calculate_max_pct_to_liquidate u shortage slot initial duration = Ok r ->
  0 <= r <= LIQUIDATION_PCT_PRECISION
  /\ (shortage < 50 * QUOTE_PRECISION -> r = LIQUIDATION_PCT_PRECISION)
  /\ (50 * QUOTE_PRECISION <= shortage ->
      (duration <= slot - u_last_active_slot u -> r = LIQUIDATION_PCT_PRECISION)
      /\ (r = 0 \/ (u_liquidation_margin_freed u * LIQUIDATION_PCT_PRECISION + shortage * r)
                   <= (shortage + u_liquidation_margin_freed u) * pct_allowed u slot initial duration)).
Proof.
  intros Hf Hi Hd H. assert (LIQUIDATION_PCT_PRECISION = 10000) as HP by done. assert (QUOTE_PRECISION = 1000000) as HQ by done.
  unfold calculate_max_pct_to_liquidate in H.
  destruct (Z.ltb_spec shortage (50 * QUOTE_PRECISION)); [injection H as <-; split_and!; lia|].
  apply obind_Ok in H as (el & [-> He]%safe_u_Ok & H). apply obind_Ok in H as (x & [-> Hx]%safe_u_Ok & H). cbv zeta in H.
  assert ((match safe_udiv ((slot - u_last_active_slot u) * LIQUIDATION_PCT_PRECISION) duration with
           | Ok y => y | _ => LIQUIDATION_PCT_PRECISION end)
    = if duration =? 0 then LIQUIDATION_PCT_PRECISION else (slot - u_last_active_slot u) * LIQUIDATION_PCT_PRECISION / duration) as E.
  { unfold safe_udiv, checked_udiv. by destruct (duration =? 0). }
  rewrite E in H. clear E. set (grown := if duration =? 0 then _ else _) in H.
  apply obind_Ok in H as (y & [-> Hy]%safe_u_Ok & H). set (pct := Z.min (grown + initial) LIQUIDATION_PCT_PRECISION) in H.
  assert (pct_allowed u slot initial duration = pct) as -> by done.
  assert (0 <= grown) as Hg.
  { subst grown. destruct (Z.eqb_spec duration 0); [lia|]. apply Z.div_pos; range. }
  assert (duration <= slot - u_last_active_slot u -> pct = LIQUIDATION_PCT_PRECISION) as Hfull.
  { intros Hle. subst pct grown. destruct (Z.eqb_spec duration 0); [lia|].
    assert (LIQUIDATION_PCT_PRECISION <= (slot - u_last_active_slot u) * LIQUIDATION_PCT_PRECISION / duration)
      by (apply Z.div_le_lower_bound; nia). lia. }
  assert (0 <= pct <= 10000) as Hp by lia. clearbody pct. clear Hg Hy. clearbody grown.
  apply obind_Ok in H as (t & [-> Ht]%safe_u_Ok & H). apply obind_Ok in H as (z & [-> Hz]%safe_u_Ok & H).
  apply obind_Ok in H as (most & [_ ->]%safe_udiv_Ok & H). apply obind_Ok in H as (n & [-> Hn]%safe_u_Ok & [_ ->]%safe_udiv_Ok).
  rewrite HP, HQ in *. set (freed := u_liquidation_margin_freed u) in *. clearbody freed.
  set (most := (shortage + freed) * pct / 10000) in *.
  assert (most * 10000 <= (shortage + freed) * pct) as Hm by (pose proof (Z.mul_div_le ((shortage + freed) * pct) 10000); lia).
  assert (most <= shortage + freed) as Hm2 by nia.
  assert (pct = 10000 -> most = shortage + freed) as Hm3 by (intros ->; subst most; by rewrite Z.div_mul).
  clearbody most. assert (usat 128 (most - freed) = Z.max 0 (most - freed)) as -> by (unfold usat; range).
  set (free := Z.max 0 (most - freed)). assert (0 <= free <= shortage) as Hfr by lia.
  assert (0 <= free * 10000 / shortage <= 10000) as Hr.
  { split; [apply Z.div_pos; lia|]. apply Z.div_le_upper_bound; nia. }
  split_and!; [lia|lia|lia|]. intros _. split.
  - intros Hle. rewrite Hm3 in * by auto. assert (free = shortage) as -> by lia. rewrite Z.mul_comm. by apply Z.div_mul; lia.
  - destruct (Z.le_gt_cases most freed).
    + left. assert (free = 0) as -> by lia. done.
    + right. pose proof (Z.mul_div_le (free * 10000) shortage ltac:(lia)). nia.
Qed.

(** * What the liquidator receives *)

Lemma scales_Ok a b n d : scales a b = Ok (n, d) -> 0 <= a -> 0 <= b ->
  0 < n /\ 0 < d /\ n * 10 ^ b = d * 10 ^ a.
Proof.
  intros H Ha Hb. unfold scales in H. destruct (Z.ltb_spec b a).
  - apply obind_Ok in H as (s & [-> Hs]%uchk_Ok & [= <- <-]). split_and!; [apply Z.pow_pos_nonneg; lia|lia|].
    rewrite <- Z.pow_add_r by lia. replace (a - b + b) with a by lia. lia.
  - apply obind_Ok in H as (s & [-> Hs]%uchk_Ok & [= <- <-]). split_and!; [lia|apply Z.pow_pos_nonneg; lia|].
    rewrite <- Z.pow_add_r by lia. replace (b - a + a) with b by lia. lia.
Qed.

(** The value of an amount at the prices and multipliers, without fractions. *)
Definition weighed_asset (amount price liability_multiplier liability_decimals : Z) : Z :=
  amount * price * liability_multiplier * 10 ^ liability_decimals.
Definition weighed_liability (amount price asset_multiplier asset_decimals : Z) : Z :=
  amount * price * asset_multiplier * 10 ^ asset_decimals.

(** C20: The asset a liquidator receives for a liability is worth no more than the
    liability with both multipliers, except for the one unit that is always due,
    and for the remainder of the user's asset, which goes along when the code finds
    it worth less than a dollar: a dollar it is only at six decimals. *)
Theorem asset_transfer_covered amount am ad ap liability lm ld lp a :
  0 <= ad -> 0 <= ld ->
  calculate_asset_transfer_for_liability_transfer amount am ad ap liability lm ld lp = Ok a ->
  exists due, 1 <= due /\ (due = 1 \/ weighed_asset due ap lm ld <= weighed_liability liability lp am ad)
    /\ (a = due \/ a = amount /\ Z.abs (due - amount) * ap / PRICE_PRECISION * 10 ^ ad < QUOTE_PRECISION * 10 ^ 6).
Proof.
  intros Had Hld H. unfold calculate_asset_transfer_for_liability_transfer in H.
  apply obind_Ok in H as ([n d] & (Hn & Hd & Hs)%scales_Ok & H); [|done..].
  apply obind_Ok in H as (x & [-> _]%safe_u_Ok & H). apply obind_Ok in H as (q & [-> Hq]%cast_u_Ok & H).
  apply obind_Ok in H as (x & [-> _]%safe_u_Ok & H). apply obind_Ok in H as (x & [-> _]%safe_u_Ok & H).
  apply obind_Ok in H as (p & [-> Hp]%cast_u_Ok & H). apply obind_Ok in H as (den & [-> Hden]%safe_u_Ok & H).
  apply obind_Ok in H as (x & [Hz ->]%safe_udiv_Ok & H). apply obind_Ok in H as (y & [_ ->]%safe_udiv_Ok & H).
  cbv zeta in H. set (x := liability * n * lp * am / (ap * lm)) in *.
  assert (x * (ap * lm) <= liability * n * lp * am) as Hx.
  { pose proof (Z.mul_div_le (liability * n * lp * am) (ap * lm)). range. }
  exists (Z.max (x / d) 1). split; [lia|].
  apply obind_Ok in H as ([vn vd] & (Hvn & Hvd & Hvs)%scales_Ok & H); [|done..].
  apply obind_Ok in H as (v & [-> _]%safe_u_Ok & H). apply obind_Ok in H as (v & [_ ->]%safe_udiv_Ok & H).
  apply obind_Ok in H as (v & [-> _]%safe_u_Ok & H). apply obind_Ok in H as (v & [_ ->]%safe_udiv_Ok & [= <-]).
  split.
  - destruct (Z.le_gt_cases (x / d) 1); [left; lia|right]. rewrite Z.max_l by lia. unfold weighed_asset, weighed_liability.
    pose proof (Z.mul_div_le x d Hd). set (due := x / d) in *. clearbody due x.
    assert (0 < ap * lm) by range. assert (due * d * (ap * lm) <= liability * n * lp * am) by nia.
    assert (0 < 10 ^ ld) by (apply Z.pow_pos_nonneg; lia).
    assert (due * d * (ap * lm) * 10 ^ ld <= liability * n * lp * am * 10 ^ ld) as Hm by (by apply Z.mul_le_mono_nonneg_r; [lia|]).
    replace (liability * n * lp * am * 10 ^ ld) with (liability * lp * am * (n * 10 ^ ld)) in Hm by ring.
    rewrite Hs in Hm. apply (Z.mul_le_mono_pos_l _ _ d Hd).
    replace (d * (due * ap * lm * 10 ^ ld)) with (due * d * (ap * lm) * 10 ^ ld) by ring.
    replace (d * (liability * lp * am * 10 ^ ad)) with (liability * lp * am * (d * 10 ^ ad)) by ring. exact Hm.
  - set (w := Z.abs _ * ap / PRICE_PRECISION) in *. destruct (Z.ltb_spec (w * vn / vd) QUOTE_PRECISION) as [Hlt|]; [right|by left].
    split; [done|]. clearbody w. assert (w * vn < QUOTE_PRECISION * vd) as Hw by (pose proof (Z.mul_succ_div_gt (w * vn) vd Hvd); nia).
    apply (Z.mul_lt_mono_pos_r vd _ _ Hvd). replace (w * 10 ^ ad * vd) with (w * (vd * 10 ^ ad)) by ring. rewrite <- Hvs. nia.
Qed.

(** A token of five decimals worth a dollar: of the user's 90 dollars, a liability
    of one dollar takes everything. *)
Lemma remainder_misvalued :
  calculate_asset_transfer_for_liability_transfer 9000000 1000000 5 1000000 1000000 1000000 6 1000000 = Ok 9000000.
Proof. vm_compute. reflexivity. Qed.

(** * Bankruptcies *)

(** What covering a loss leaves alone in the market. *)
Record covered (m m' : PerpMarket) : Prop := {
  cv_index : pm_market_index m' = pm_market_index m;
  cv_quote : amm_quote_asset_amount (amm m') = amm_quote_asset_amount (amm m);
  cv_long : base_asset_amount_long (amm m') = base_asset_amount_long (amm m);
  cv_short : base_asset_amount_short (amm m') = base_asset_amount_short (amm m);
}.

(** The sources of a loss, and how the market and everyone else bear it. *)
Record loss_paid (m m' : PerpMarket) (loss vault paid fee rest : Z) : Prop := {
  lp_total : paid + fee + rest = loss;
  lp_paid : 0 <= paid /\ paid <= Z.max 0 (vault - 1);
  lp_insured : quote_settled_insurance (insurance_claim m') = quote_settled_insurance (insurance_claim m) + paid
    /\ quote_settled_insurance (insurance_claim m') <= quote_max_insurance (insurance_claim m);
  lp_fee : 0 <= fee;
  lp_rest : 0 <= rest;
  lp_social : total_social_loss (amm m') = total_social_loss (amm m) + rest;
  lp_rates : exists d,
    cumulative_funding_rate_long (amm m') = cumulative_funding_rate_long (amm m) + d
    /\ cumulative_funding_rate_short (amm m') = cumulative_funding_rate_short (amm m) - d
    /\ rest * QUOTE_TO_BASE_AMT_FUNDING_PRECISION <= d * (Z.abs (base_asset_amount_long (amm m)) + Z.abs (base_asset_amount_short (amm m)));
}.

Lemma draw_insurance_Ok m spots o loss vault now m' s o' paid :
  draw_insurance m spots o loss vault now = Ok (m', s, o', paid) -> in_u 64 vault ->
  0 <= paid /\ paid <= Z.abs loss /\ paid <= Z.max 0 (vault - 1)
  /\ insurance_claim m' = insurance_claim m <| quote_settled_insurance := quote_settled_insurance (insurance_claim m) + paid |>
  /\ quote_settled_insurance (insurance_claim m) + paid <= quote_max_insurance (insurance_claim m)
  /\ amm m' = amm m /\ pm_market_index m' = pm_market_index m.
Proof.
  intros H Hv. unfold draw_insurance in H. cbv zeta in H. apply obind_Ok in H as (most & [-> Hm]%safe_u_Ok & H).
  apply obind_Ok in H as (p & [-> Hp]%cast_u_Ok & H). apply obind_Ok in H as (st & [-> Hs]%safe_u_Ok & H).
  apply obind_Ok in H as (s0 & _ & H). apply obind_Ok in H as ([d o1] & _ & H). apply obind_Ok in H as (s1 & _ & H).
  apply obind_Ok in H as ([s2 pool] & _ & [= <- <- <- <-]). cbn.
  assert (usat 64 (vault - 1) = Z.max 0 (vault - 1)) as E by (unfold usat; range). rewrite E in *.
  split_and!; try done; range.
Qed.

Lemma draw_fee_pool_Ok m s losses m' s' fee : draw_fee_pool m s losses = Ok (m', s', fee) ->
  0 <= fee /\ fee <= Z.max 0 (- losses) /\ exists f, m' = m <| amm ; fee_pool := f |>.
Proof.
  intros H. unfold draw_fee_pool in H. apply obind_Ok in H as (x & Hx & H). apply obind_Ok in H as (v & Hv%validate_Ok & H).
  assert (x <= Z.max 0 (- losses)) as Hle.
  { destruct (Z.ltb_spec losses 0); [|injection Hx as <-; lia]. apply obind_Ok in Hx as (t & _ & Hx).
    apply obind_Ok in Hx as (l & [-> _]%ichk_Ok & [= <-]). lia. }
  assert (exists f, m = m <| amm ; fee_pool := f |>) as Hsame by (exists (fee_pool (amm m)); by destruct m as [? []]).
  destruct (0 <? x); [|injection H as <- <- <-; split_and!; [lia|lia|done]].
  apply obind_Ok in H as ([s1 f] & _ & [= <- <- <-]). split_and!; [lia|lia|by exists f].
Qed.

Lemma idiv_ceil_ge w a b q : safe_idiv_ceil w a b = Ok q -> 0 <= a -> 0 < b -> 0 <= q /\ a <= q * b.
Proof.
  unfold safe_idiv_ceil, checked_ceil_idiv, checked_idiv, icheck. intros H Ha Hb.
  destruct (b =? 0) eqn:E; [lia|]. destruct (iok w (a ÷ b)); [|done]. cbn in H.
  rewrite Z.quot_div_nonneg, Z.rem_mod_nonneg in H by lia. pose proof (Z.div_pos a b Ha Hb).
  pose proof (Z.div_mod a b ltac:(lia)). pose proof (Z.mod_pos_bound a b Hb).
  destruct (Z.ltb_spec 0 (a mod b)); [destruct (iok w _); [|done]|]; injection H as <-; nia.
Qed.

(** The others' bases times the change of the rates pay the loss, rounded up. *)
Lemma funding_delta_Ok loss m d : calculate_funding_rate_deltas_to_resolve_bankruptcy loss m = Ok d ->
  Z.abs loss * QUOTE_TO_BASE_AMT_FUNDING_PRECISION
  <= d * (Z.abs (base_asset_amount_long (amm m)) + Z.abs (base_asset_amount_short (amm m))).
Proof.
  intros H. unfold calculate_funding_rate_deltas_to_resolve_bankruptcy in H.
  apply obind_Ok in H as (l & [-> _]%ichk_Ok & H). apply obind_Ok in H as (s & [-> _]%ichk_Ok & H).
  apply obind_Ok in H as (t & [-> Ht]%safe_i_Ok & H). apply obind_Ok in H as (v & Hv%validate_Ok & H).
  apply obind_Ok in H as (a & [-> _]%ichk_Ok & H). apply obind_Ok in H as (n & [-> _]%safe_i_Ok & H).
  apply obind_Ok in H as (q & Hq & [-> _]%safe_i_Ok).
  set (t := Z.abs (base_asset_amount_long (amm m)) + Z.abs (base_asset_amount_short (amm m))) in *. assert (0 < t) as Hpos by lia.
  clearbody t. apply idiv_ceil_ge in Hq as [Hq0 Hq]; [|change AMM_RESERVE_PRECISION with 1000000000; lia|done].
  change FUNDING_RATE_TO_QUOTE_PRECISION_PRECISION_RATIO with 1000. change AMM_RESERVE_PRECISION with 1000000000 in *.
  change QUOTE_TO_BASE_AMT_FUNDING_PRECISION with 1000000000000. lia.
Qed.

Lemma cover_loss_Ok m spots o loss vault now m' s o' paid fee rest :
  cover_loss m spots o loss vault now = Ok (m', s, o', (paid, fee, rest)) -> in_u 64 vault -> loss <= 0 ->
  covered m m' /\ loss_paid m m' (- loss) vault paid fee (- rest).
Proof.
  intros H Hv Hl. unfold cover_loss in H. apply obind_Ok in H as ([[[m1 s1] o1] p] & H1 & H).
  destruct (draw_insurance_Ok _ _ _ _ _ _ _ _ _ _ H1 Hv) as (Hp & Hpl & Hpv & Hc & Hmax & Ha & Hi).
  apply obind_Ok in H as (l1 & [-> _]%safe_i_Ok & H). apply obind_Ok in H as (u1 & Hl1%validate_Ok & H).
  apply obind_Ok in H as ([[m2 s2] f] & (Hf & Hfl & pool & ->)%draw_fee_pool_Ok & H).
  apply obind_Ok in H as (l2 & [-> _]%safe_i_Ok & H). apply obind_Ok in H as (u2 & Hl2%validate_Ok & H).
  apply obind_Ok in H as (d & Hd%funding_delta_Ok & H). cbn in Hd. rewrite Ha in Hd.
  apply obind_Ok in H as (m3 & H3 & [= <- <- <- <- <- <-]). unfold socialize_loss in H3. cbn in H3. rewrite Ha in H3.
  destruct (Z.ltb_spec (loss + p + f) 0).
  - apply obind_Ok in H3 as (t & [-> _]%safe_u_Ok & H3). apply obind_Ok in H3 as (r1 & [-> _]%safe_i_Ok & H3).
    apply obind_Ok in H3 as (r2 & [-> _]%safe_i_Ok & [= <-]). cbn. rewrite Z.abs_neq in * by lia. split.
    + constructor; cbn; by rewrite ?Ha, ?Hi.
    + constructor; cbn; rewrite ?Hc; cbn; try lia. exists d. split_and!; [done..|exact Hd].
  - injection H3 as <-. split.
    + constructor; cbn; by rewrite ?Ha, ?Hi.
    + constructor; cbn; rewrite ?Hc, ?Ha; cbn; try lia. exists 0. replace (- (loss + p + f)) with 0 by lia. split_and!; lia.
Qed.

Lemma with_isolated_here u i f u' k p : get_position_index (u_perp_positions u) i = Ok k -> u_perp_positions u !! k = Some p ->
  with_isolated_position u i f = Ok u' -> u' = u <| u_perp_positions := <[k := f p]> (u_perp_positions u) |>.
Proof.
  intros Hk Hp H. unfold with_isolated_position, force_get_isolated_perp_position_index in H. rewrite Hk in H.
  apply obind_Ok in H as ([l j] & Hl & H). apply obind_Ok in Hl as (q & _ & Hl). apply obind_Ok in Hl as (v & _ & [= <- <-]).
  apply obind_Ok in H as (q' & [_ Hq]%idx_Ok & H). apply obind_Ok in H as (l' & [_ ->]%set_idx_Ok & [= <-]).
  rewrite Nat2Z.id in *. assert (q' = p) as -> by congruence. done.
Qed.

(** A mode's bankruptcy operations change the flags of the position at most. *)
Definition is_mode (i : Z) (M : LiquidatePerpMode) : Prop :=
  M = CrossMarginLiquidatePerpMode i \/ M = IsolatedMarginLiquidatePerpMode i.

Definition reflag (p : PerpPosition) (flag : Z) : PerpPosition := p <| pp_position_flag := flag |>.

Lemma mode_chosen u i M : get_perp_liquidation_mode u i = Ok M -> is_mode i M.
Proof.
  unfold get_perp_liquidation_mode, is_mode. destruct (get_perp_position u i) as [p| |]; [|intros [= <-]; by left|done].
  destruct (is_isolated p); intros [= <-]; [by right|by left].
Qed.

Lemma insert_same (l : list PerpPosition) k p : l !! k = Some p -> l = <[k := reflag p (pp_position_flag p)]> l.
Proof. intros H. symmetry. apply list_insert_id. rewrite H. by destruct p. Qed.

Lemma enter_bankruptcy_here i M u u' k p : is_mode i M ->
  get_position_index (u_perp_positions u) i = Ok k -> u_perp_positions u !! k = Some p -> lm_enter_bankruptcy M u = Ok u' ->
  exists flag, u_perp_positions u' = <[k := reflag p flag]> (u_perp_positions u).
Proof.
  intros [->| ->] Hk Hp H; cbn in H.
  - injection H as <-. exists (pp_position_flag p). by apply insert_same.
  - rewrite (with_isolated_here _ _ _ _ _ _ Hk Hp H). by eexists.
Qed.
Lemma exit_bankruptcy_here i M u u' k p : is_mode i M ->
  (M = IsolatedMarginLiquidatePerpMode i -> get_position_index (u_perp_positions u) i = Ok k) ->
  u_perp_positions u !! k = Some p -> lm_exit_bankruptcy M u = Ok u' ->
  exists flag, u_perp_positions u' = <[k := reflag p flag]> (u_perp_positions u).
Proof.
  intros [->| ->] Hk Hp H; cbn in H.
  - injection H as <-. exists (pp_position_flag p). by apply insert_same.
  - rewrite (with_isolated_here _ _ _ _ _ _ (Hk eq_refl) Hp H). by eexists.
Qed.

Lemma clear_bad_debt_Ok u m i u' m' : clear_bad_debt u m i = Ok (u', m') ->
  exists k p, get_position_index (u_perp_positions u) i = Ok k /\ u_perp_positions u !! k = Some p
    /\ u_perp_positions u' = <[k := p <| pp_quote_asset_amount := 0 |>]> (u_perp_positions u)
    /\ u_status u' = u_status u
    /\ exists n, m' = m <| number_of_users := n |> <| amm ; amm_quote_asset_amount :=
                          amm_quote_asset_amount (amm m) - pp_quote_asset_amount p |>.
Proof.
  intros H. unfold clear_bad_debt in H. apply obind_Ok in H as (k & Hk & H). apply obind_Ok in H as (p & [_ Hp]%idx_Ok & H).
  rewrite Nat2Z.id in Hp. apply obind_Ok in H as (d & [-> _]%ichk_Ok & H). apply obind_Ok in H as ([p' m1] & H1 & H).
  apply obind_Ok in H as (l & [_ ->]%set_idx_Ok & [= <- <-]). rewrite Nat2Z.id. exists k, p. unfold update_quote_asset_amount in H1.
  assert (p' = p <| pp_quote_asset_amount := 0 |> /\ exists n, m1 = m <| number_of_users := n |> <| amm ; amm_quote_asset_amount :=
                          amm_quote_asset_amount (amm m) - pp_quote_asset_amount p |>) as [-> Hm].
  { destruct (Z.eqb_spec (- pp_quote_asset_amount p) 0) as [Hz|].
    - injection H1 as <- <-. split; [destruct p; cbn in *; by replace pp_quote_asset_amount with 0 by lia|].
      exists (number_of_users m). replace (_ - _) with (amm_quote_asset_amount (amm m)) by lia. by destruct m as [? []].
    - apply obind_Ok in H1 as (m0 & H0 & H1). apply obind_Ok in H1 as (q & [-> _]%safe_i_Ok & H1). cbv zeta in H1.
      apply obind_Ok in H1 as (x & [-> _]%safe_i_Ok & H1).
      assert (exists n, m0 = m <| number_of_users := n |>) as [nu ->].
      { destruct (_ && _) in H0; [apply obind_Ok in H0 as (nu & _ & [= <-]); by eexists|injection H0 as <-].
        exists (number_of_users m). by destruct m. }
      replace (pp_quote_asset_amount p + - pp_quote_asset_amount p) with 0 in H1 by lia.
      destruct (_ && _) in H1; injection H1 as <- <-; (split; [done|by eexists]). }
  by split_and!.
Qed.

(** Entering bankruptcy, when it is entered, leaves the position where it was. *)
Lemma bankruptcy_entered i M u u1 (b : bool) k p : flagged i u -> get_perp_liquidation_mode u i = Ok M ->
  (if b then lm_enter_bankruptcy M u else Ok u) = Ok u1 ->
  get_position_index (u_perp_positions u1) i = Ok k -> u_perp_positions u1 !! k = Some p ->
  exists p0 flag0, u_perp_positions u !! k = Some p0 /\ p = reflag p0 flag0
    /\ u_perp_positions u1 = <[k := p]> (u_perp_positions u) /\ flagged i u1.
Proof.
  intros Hu HM H1 Hk Hp. pose proof (mode_chosen _ _ _ HM) as Hmode.
  destruct (get_position_Ok _ _ _ Hk) as (p2 & Hp2 & Hfor & _). assert (p2 = p) as -> by congruence. destruct b.
  - destruct (get_perp_position u i) as [q| |] eqn:Hq.
    + unfold get_perp_position in Hq. apply obind_Ok in Hq as (j & Hj & Hq). apply idx_Ok in Hq as [_ Hq]. rewrite Nat2Z.id in Hq.
      destruct (enter_bankruptcy_here _ _ _ _ _ _ Hmode Hj Hq H1) as (flag & E). exists q, flag.
      assert (flagged i u1) as Hu1 by (destruct Hmode as [-> | ->]; [by eapply (lw_enter_bankruptcy _ _ _ (cross_mode_lawful i))
        |by eapply (lw_enter_bankruptcy _ _ _ (isolated_mode_lawful i))]).
      assert (u_perp_positions u1 !! j = Some (reflag q flag)) as Hj1
        by (rewrite E; apply list_lookup_insert_eq; by eapply lookup_lt_Some).
      destruct (get_position_Ok _ _ _ Hj) as (q' & Hq' & Hqf & _). assert (q' = q) as -> by congruence.
      assert (j = k) as ->; [|split_and!; congruence].
      destruct (decide (j = k)) as [|Hne]; [done|exfalso].
      assert (u_perp_positions u !! k = Some p) as Hku by (by rewrite E, list_lookup_insert_ne in Hp).
      apply Hne. by apply (fl_one _ _ Hu j k q p).
    + unfold get_perp_liquidation_mode in HM. rewrite Hq in HM. injection HM as <-. cbn in H1. injection H1 as <-.
      exists p, (pp_position_flag p). split_and!; [done|by destruct p|symmetry; by apply list_insert_id|].
      by apply (lw_enter_bankruptcy _ _ _ (cross_mode_lawful i) u).
    + unfold get_perp_liquidation_mode in HM. by rewrite Hq in HM.
  - injection H1 as <-. exists p, (pp_position_flag p). split_and!; [done|by destruct p|symmetry; by apply list_insert_id|done].
Qed.

(** So does leaving it once the debt is cleared. *)
Lemma bankruptcy_left i M u1 u2 u3 (b : bool) k p : flagged i u1 -> is_mode i M -> lm_is_user_bankrupt M u1 = Ok true ->
  get_position_index (u_perp_positions u1) i = Ok k -> u_perp_positions u1 !! k = Some p ->
  u_perp_positions u2 = <[k := p <| pp_quote_asset_amount := 0 |>]> (u_perp_positions u1) ->
  (if b then lm_exit_bankruptcy M u2 else Ok u2) = Ok u3 ->
  exists flag, u_perp_positions u3 = <[k := reflag (p <| pp_quote_asset_amount := 0 |>) flag]> (u_perp_positions u2).
Proof.
  intros Hu1 Hmode Hb Hk Hp E2 H4. set (pc := p <| pp_quote_asset_amount := 0 |>) in *.
  destruct (get_position_Ok _ _ _ Hk) as (p2 & Hp2 & Hfor & _). assert (p2 = p) as -> by congruence.
  assert (u_perp_positions u2 !! k = Some pc) as Hp3 by (rewrite E2; apply list_lookup_insert_eq; by eapply lookup_lt_Some).
  destruct b; [|injection H4 as <-; exists (pp_position_flag pc); by apply insert_same].
  eapply (exit_bankruptcy_here i M); [done| |exact Hp3|exact H4]. intros ->. cbn in Hb.
  unfold is_isolated_margin_bankrupt, get_isolated_perp_position in Hb. rewrite Hk in Hb. cbn [obind] in Hb.
  apply obind_Ok in Hb as (q & Hq & [= Hb]). apply obind_Ok in Hq as (q' & [_ Hq']%idx_Ok & Hq).
  apply obind_Ok in Hq as (v & _ & [= <-]). rewrite Nat2Z.id in Hq'. assert (q' = p) as -> by congruence.
  rewrite E2. apply position_kept with p; [done| |done]. unfold is_for, is_available in Hfor |- *.
  assert (0 <= pp_position_flag p) as Hfl
    by (pose proof (fl_positions _ _ Hu1) as HF; rewrite Forall_lookup in HF; specialize (HF _ _ Hp); lia).
  assert (is_being_liquidated pc = true) as Hbl.
  { rewrite liquidated_bits by done. change (pp_position_flag pc) with (pp_position_flag p). rewrite bankrupt_bit in Hb.
    by rewrite Hb, orb_true_r. }
  rewrite Hbl, andb_false_r. apply andb_prop in Hfor as [Hx _]. change (pp_market_index pc) with (pp_market_index p).
  by rewrite Hx.
Qed.

(** C18: Resolving the bankruptcy of a perpetual position clears the debt and accounts
    for every unit of it: the loss is what the insurance fund pays, within its
    vault less one unit and within what the market is insured for, plus what the
    fee pool pays, plus the socialised rest, for which the funding rates move so
    that the others' bases pay at least the rest; the position's quote becomes zero,
    the market's total moves by the loss, and no other position changes. *)
Theorem perp_bankruptcy_loss_paid {roots : Roots} i u liquidator ms o now vault u' ms' o' paid m :
  flagged i u -> in_u 64 vault -> mk_perps ms !! i = Some m ->
  resolve_perp_bankruptcy i u liquidator ms o now vault = Ok (u', ms', o', paid) ->
  exists k p flag m' fee rest,
    u_perp_positions u !! k = Some p /\ pp_market_index p = i /\ pp_quote_asset_amount p < 0
    /\ u_perp_positions u' = <[k := reflag (p <| pp_quote_asset_amount := 0 |>) flag]> (u_perp_positions u)
    /\ mk_perps ms' = <[i := m']> (mk_perps ms)
    /\ loss_paid m m' (- pp_quote_asset_amount p) vault paid fee rest
    /\ amm_quote_asset_amount (amm m') = amm_quote_asset_amount (amm m) - pp_quote_asset_amount p.
Proof.
  intros Hu Hv Hm H. unfold resolve_perp_bankruptcy in H. apply obind_Ok in H as (M & HM & H).
  pose proof (mode_chosen _ _ _ HM) as Hmode.
  apply obind_Ok in H as (already & Hal & H). apply obind_Ok in H as (should & _ & H). apply obind_Ok in H as (u1 & H1 & H).
  apply obind_Ok in H as (bankrupt & Hb & H). apply obind_Ok in H as (v1 & ->%validate_Ok & H).
  apply obind_Ok in H as (v2 & _ & H). apply obind_Ok in H as (m0 & Hm0 & H). unfold perp_get_ref in Hm0. rewrite Hm in Hm0.
  injection Hm0 as <-. apply obind_Ok in H as (v3 & _ & H). apply obind_Ok in H as (p1 & Hp1 & H).
  apply obind_Ok in H as (v4 & Hneg%validate_Ok & H). apply Z.ltb_lt in Hneg. apply obind_Ok in H as ([c o1] & _ & H).
  apply obind_Ok in H as ([[[m1 s1] o2] [[pay fee] rest]] & H2 & H). apply obind_Ok in H as ([u2 m2] & H3 & H).
  apply obind_Ok in H as (should2 & _ & H). apply obind_Ok in H as (u3 & H4 & H). apply obind_Ok in H as (v5 & _ & H).
  apply obind_Ok in H as (v6 & _ & H). apply obind_Ok in H as (pay' & [-> _]%cast_u_Ok & [= <- <- <- <-]).
  apply cover_loss_Ok in H2 as [[Ci Cq _ _] Hloss]; [|done|lia].
  destruct (clear_bad_debt_Ok _ _ _ _ _ H3) as (k & p & Hk & Hp & E2 & _ & n & ->).
  assert (p1 = p) as ->.
  { unfold get_perp_position in Hp1. rewrite Hk in Hp1. cbn [obind] in Hp1. apply idx_Ok in Hp1 as [_ Hp1].
    rewrite Nat2Z.id in Hp1. congruence. }
  destruct (get_position_Ok _ _ _ Hk) as (p2 & Hp2 & Hfor & _). assert (p2 = p) as -> by congruence.
  destruct (bankruptcy_entered _ _ _ _ _ _ _ Hu HM H1 Hk Hp) as (p0 & flag0 & Hp0 & Hpe & E1 & Hu1).
  destruct (bankruptcy_left _ _ _ _ _ _ _ _ Hu1 Hmode Hb Hk Hp E2 H4) as (flag & E3).
  exists k, p0, flag, (m1 <| number_of_users := n |> <| amm ; amm_quote_asset_amount :=
                          amm_quote_asset_amount (amm m1) - pp_quote_asset_amount p |>), fee, (- rest).
  subst p. cbn in Hneg, Hloss |- *. apply is_for_index in Hfor. split_and!; try done.
  - by rewrite E3, E2, E1, !list_insert_insert_eq.
  - destruct Hloss as [L1 L2 L3 L4 L5 L6 L7]. by constructor.
  - by rewrite Cq.
Qed.

(** ** Witnesses *)

(** A fifth of the way into a liquidation that is short of 1000 dollars, has freed
    100 and started at a tenth: 23 per cent may go. *)
Lemma liquidation_step_bounded_witness :
  exists r, calculate_max_pct_to_liquidate (default_User <| u_liquidation_margin_freed := 100000000 |>
      <| u_last_active_slot := 50 |>) 1000000000 110 1000 300 = Ok r
    /\ r = 2300 /\ 100000000 * LIQUIDATION_PCT_PRECISION + 1000000000 * r <= (1000000000 + 100000000) * 3000.
Proof.
  set (u := default_User <| u_liquidation_margin_freed := 100000000 |> <| u_last_active_slot := 50 |>).
  assert (H : calculate_max_pct_to_liquidate u 1000000000 110 1000 300 = Ok 2300) by (vm_compute; reflexivity).
  exists 2300. split; [exact H|]. split; [reflexivity|].
  destruct (liquidation_step_bounded u 1000000000 110 1000 300 2300 ltac:(vm_compute; discriminate)
    ltac:(lia) ltac:(lia) H) as (_ & _ & Hs).
  destruct (proj2 (Hs ltac:(vm_compute; discriminate))) as [Hz|Hle]; [discriminate|exact Hle].
Defined.

Lemma asset_transfer_covered_witness :
  calculate_asset_transfer_for_liability_transfer 5000000000 1000000 9 100000000 80000000 1000000 6 1000000 = Ok 800000000
  /\ exists due, due = 1 \/ weighed_asset due 100000000 1000000 6 <= weighed_liability 80000000 1000000 1000000 9.
Proof.
  assert (H : calculate_asset_transfer_for_liability_transfer 5000000000 1000000 9 100000000 80000000 1000000 6 1000000
    = Ok 800000000) by (vm_compute; reflexivity).
  split; [exact H|].
  destruct (asset_transfer_covered 5000000000 1000000 9 100000000 80000000 1000000 6 1000000 800000000
    ltac:(lia) ltac:(lia) H) as (due & _ & Hd & _).
  exists due. exact Hd.
Defined.

(** A hundred dollars short: the market is insured for thirty and its fee pool holds
    twenty. *)
Definition bankrupt_market : PerpMarket :=
  margin_perp_market 0 <| insurance_claim ; quote_max_insurance := 30000000 |>
    <| amm ; fee_pool := mkPoolBalance 20000000000 0 |>.
Definition bankrupt_markets : Markets := put_perp margin_markets 0 bankrupt_market.
Definition bankrupt_user : User :=
  default_User <| u_spot_positions := [default_SpotPosition] |>
    <| u_perp_positions := [default_PerpPosition <| pp_quote_asset_amount := -100000000 |>] |>
    <| u_next_liquidation_id := 2 |>.

Lemma perp_bankruptcy_loss_paid_witness :
  exists u' ms' o', resolve_perp_bankruptcy 0 bankrupt_user default_User bankrupt_markets margin_oracles 100 1000000000
      = Ok (u', ms', o', 30000000)
    /\ exists m' fee rest, loss_paid bankrupt_market m' 100000000 1000000000 30000000 fee rest.
Proof.
  assert (H : exists u' ms' o', resolve_perp_bankruptcy 0 bankrupt_user default_User bankrupt_markets margin_oracles 100
    1000000000 = Ok (u', ms', o', 30000000)) by (eexists _, _, _; vm_compute; reflexivity).
  destruct H as (u' & ms' & o' & H). exists u', ms', o'. split; [exact H|].
  assert (Hf : flagged 0 bankrupt_user).
  { constructor; [vm_compute; split; [discriminate|reflexivity]
      |repeat constructor; vm_compute; (discriminate || reflexivity)|].
    intros [|j] [|k] p q Hp Hq _ _; [reflexivity|discriminate Hq|discriminate Hp|discriminate Hp]. }
  destruct (perp_bankruptcy_loss_paid 0 bankrupt_user default_User bankrupt_markets margin_oracles 100 1000000000 u' ms' o'
    30000000 bankrupt_market Hf ltac:(vm_compute; split; [discriminate|reflexivity]) ltac:(reflexivity) H)
    as (k & p & flag & m' & fee & rest & Hp & _ & _ & _ & _ & Hl & _).
  exists m', fee, rest. destruct k as [|k]; [|discriminate Hp]. injection Hp as <-. exact Hl.
Defined.

(** Without open interest a loss that the insurance fund pays in full is an error
    all the same, and the user stays bankrupt. *)
Lemma insured_loss_unresolved :
  let m := bankrupt_market <| insurance_claim ; quote_max_insurance := 500000000 |>
             <| amm ; base_asset_amount_long := 0 |> <| amm ; base_asset_amount_short := 0 |> in
  resolve_perp_bankruptcy 0 bankrupt_user default_User (put_perp margin_markets 0 m) margin_oracles 100 1000000000
  = Err CantResolvePerpBankruptcy.
Proof. vm_compute. reflexivity. Qed.
