(* ===== verification/DriftFees.v ===== *)
(** Fees of fills: [math/fees.rs], with [FeeStructure] of [state/state.rs].

    The taker's fee is a share of the quote traded, by the tier of his volume and
    of his stake; out of it are paid the referee's discount, the referrer, the
    filler and the maker, and the market keeps the rest.  The theorems: nothing of
    a fee is lost or paid twice; and a tier is never worse for a larger volume's
    or stake's owner than the structure says. *)
From S2P Require Import Prelude.
From S2P Require Import RecordUpdate.
From S2P Require Import DriftError.
From S2P Require Import DriftMath.
From S2P Require Import DriftTypes.
From S2P Require Import DriftUser.

(** ** state/state.rs *)

Definition FEE_DENOMINATOR : Z := 100000.
Definition FEE_PERCENTAGE_DENOMINATOR : Z := 100.
Definition MAX_REFERRER_REWARD_EPOCH_UPPER_BOUND : Z := 150000 * QUOTE_PRECISION_U64.

Record FeeTier := mkFeeTier {
  fee_numerator : Z;
  fee_denominator : Z;
  maker_rebate_numerator : Z;
  maker_rebate_denominator : Z;
  referrer_reward_numerator : Z;
  referrer_reward_denominator : Z;
  referee_fee_numerator : Z;
  referee_fee_denominator : Z;
}.

#[export] Instance eta_FeeTier : Eta FeeTier := fun r =>
  mkFeeTier (fee_numerator r) (fee_denominator r) (maker_rebate_numerator r) (maker_rebate_denominator r)
    (referrer_reward_numerator r) (referrer_reward_denominator r) (referee_fee_numerator r) (referee_fee_denominator r).

#[export] Instance set_fee_numerator : Setter fee_numerator := ltac:(setter).
#[export] Instance set_maker_rebate_numerator : Setter maker_rebate_numerator := ltac:(setter).

Record OrderFillerRewardStructure := mkOrderFillerRewardStructure {
  reward_numerator : Z;
  reward_denominator : Z;
  time_based_reward_lower_bound : Z;
}.

(** [fee_tiers] has ten entries. *)
Record FeeStructure := mkFeeStructure {
  fee_tiers : list FeeTier;
  filler_reward_structure : OrderFillerRewardStructure;
  referrer_reward_epoch_upper_bound : Z;
  flat_filler_fee : Z;
}.

Definition default_fee_tier : FeeTier :=
  mkFeeTier 0 FEE_DENOMINATOR 0 FEE_DENOMINATOR 0 FEE_PERCENTAGE_DENOMINATOR 0 FEE_PERCENTAGE_DENOMINATOR.
Definition default_filler_reward_structure : OrderFillerRewardStructure :=
  mkOrderFillerRewardStructure 10 FEE_PERCENTAGE_DENOMINATOR 10000.

Definition perps_default_tier (n : Z) : FeeTier :=
  mkFeeTier n FEE_DENOMINATOR 20 FEE_DENOMINATOR 15 FEE_PERCENTAGE_DENOMINATOR 5 FEE_PERCENTAGE_DENOMINATOR.
Definition perps_default : FeeStructure :=
  mkFeeStructure (map perps_default_tier [100; 90; 80; 70; 60; 50] ++ replicate 4 default_fee_tier)
    default_filler_reward_structure MAX_REFERRER_REWARD_EPOCH_UPPER_BOUND 10000.
Definition spot_default : FeeStructure :=
  mkFeeStructure (mkFeeTier 100 FEE_DENOMINATOR 20 FEE_DENOMINATOR 0 FEE_PERCENTAGE_DENOMINATOR 0
                    FEE_PERCENTAGE_DENOMINATOR :: replicate 9 default_fee_tier)
    default_filler_reward_structure MAX_REFERRER_REWARD_EPOCH_UPPER_BOUND 10000.

(** ** Tiers *)

Definition VOLUME_THRESHOLDS : list Z :=
  map (fun x => x * QUOTE_PRECISION_U64) [2000000; 10000000; 20000000; 80000000; 200000000].
Definition STAKE_THRESHOLDS : list Z :=
  map (fun x => x * QUOTE_PRECISION_U64) [1000 - 1; 10000 - 1; 25000 * 2 - 1; 100000 - 1; 250000 - 5].
Definition STAKE_BENEFIT_FRAC : list Z := [0; 5; 10; 20; 30; 40].

(** The place of the first threshold above [x]; the length when there is none. *)
Fixpoint tier_index (x : Z) (thresholds : list Z) : nat :=
  match thresholds with
  | [] => 0
  | t :: l => if x <? t then 0 else S (tier_index x l)
  end.

Definition div_scalar_of (stake_benefit : Z) : option Z :=
  if stake_benefit =? 5 then Some 20 else if stake_benefit =? 10 then Some 10
  else if stake_benefit =? 20 then Some 5 else None.

Definition apply_stake_benefit (stake_benefit : Z) (tier : FeeTier) : DriftResult FeeTier :=
  if 0 <? stake_benefit then
    match div_scalar_of stake_benefit with
    | Some div_scalar =>
        let! x := safe_div_ceil 32 (fee_numerator tier) div_scalar in
        let! y := safe_udiv (maker_rebate_numerator tier) div_scalar in
        let! r := safe_u 32 (maker_rebate_numerator tier + y) in
        Ok (tier <| fee_numerator := usat 32 (fee_numerator tier - x) |> <| maker_rebate_numerator := r |>)
    | None =>
        let! x := safe_u 32 (fee_numerator tier * usat 32 (100 - stake_benefit)) in
        let! f := safe_div_ceil 32 x 100 in
        let! y := safe_u 32 (maker_rebate_numerator tier * usat 32 (100 + stake_benefit)) in
        let! r := safe_udiv y 100 in
        Ok (tier <| fee_numerator := f |> <| maker_rebate_numerator := r |>)
    end
  else Ok tier.

Definition determine_perp_fee_tier (s : UserStats) (fs : FeeStructure) : DriftResult FeeTier :=
  let! total_30d_volume := get_total_30d_volume s in
  let fee_tier_index := tier_index total_30d_volume VOLUME_THRESHOLDS in
  let stake_benefit_index := tier_index (if_staked_gov_token_amount s) STAKE_THRESHOLDS in
  let! stake_benefit := idx STAKE_BENEFIT_FRAC (Z.of_nat stake_benefit_index) in
  let! tier := idx (fee_tiers fs) (Z.of_nat fee_tier_index) in
  apply_stake_benefit stake_benefit tier.

Definition determine_user_fee_tier (s : UserStats) (fs : FeeStructure) (t : MarketType) (user_high_leverage_mode : bool) :
    DriftResult FeeTier :=
  match t with
  | Perp => if user_high_leverage_mode then idx (fee_tiers fs) 0 else determine_perp_fee_tier s fs
  | Spot => idx (fee_tiers fs) 0
  end.

(** ** Parts of a fee *)

(** [fee_adjustment] is an [i16], so its magnitude always fits. *)
Definition calculate_taker_fee (quote_asset_amount : Z) (tier : FeeTier) (fee_adjustment : Z) : DriftResult Z :=
  let! x := safe_u 128 (quote_asset_amount * fee_numerator tier) in
  let! x := safe_div_ceil 128 x (fee_denominator tier) in
  let! taker_fee := cast_u 64 x in
  if fee_adjustment <? 0 then
    let! x := safe_u 64 (taker_fee * Z.abs fee_adjustment) in
    let! d := safe_udiv x FEE_ADJUSTMENT_MAX in
    Ok (usat 64 (taker_fee - d))
  else if 0 <? fee_adjustment then
    let! x := safe_u 64 (taker_fee * fee_adjustment) in
    let! d := safe_div_ceil 64 x FEE_ADJUSTMENT_MAX in
    Ok (usat 64 (taker_fee + d))
  else Ok taker_fee.

Definition calculate_maker_rebate (quote_asset_amount : Z) (tier : FeeTier) (fee_adjustment : Z) : DriftResult Z :=
  let! x := safe_u 128 (quote_asset_amount * maker_rebate_numerator tier) in
  let! x := safe_udiv x (maker_rebate_denominator tier) in
  let! maker_fee := cast_u 64 x in
  if fee_adjustment <? 0 then
    let! x := safe_u 64 (maker_fee * Z.abs fee_adjustment) in
    let! d := safe_div_ceil 64 x FEE_ADJUSTMENT_MAX in
    Ok (usat 64 (maker_fee - d))
  else if 0 <? fee_adjustment then
    let! x := safe_u 64 (maker_fee * fee_adjustment) in
    let! d := safe_udiv x FEE_ADJUSTMENT_MAX in
    Ok (usat 64 (maker_fee + d))
  else Ok maker_fee.

(** The fee left, the discount and the reward. *)
Definition calculate_referee_fee_and_referrer_reward (fee : Z) (tier : FeeTier) (referrer_reward_epoch_upper_bound : Z)
    (referrer_stats : option UserStats) : DriftResult (Z * Z * Z) :=
  let! x := get_proportion_u128 fee (referee_fee_numerator tier) (referee_fee_denominator tier) in
  let! referee_discount := cast_u 64 x in
  let! x := get_proportion_u128 fee (referrer_reward_numerator tier) (referrer_reward_denominator tier) in
  let! max_referrer_reward_from_fee := cast_u 64 x in
  let! referee_fee := safe_u 64 (fee - referee_discount) in
  let referrer_reward :=
    match referrer_stats with
    | Some r => Z.min max_referrer_reward_from_fee
                  (usat 64 (referrer_reward_epoch_upper_bound - current_epoch_referrer_reward (us_fees r)))
    | None => max_referrer_reward_from_fee
    end in
  Ok (referee_fee, referee_discount, referrer_reward).

(** [nth_root(4)] of [num_integer]. *)
Class FourthRoot := { nth_root_4 : Z -> Z }.

Definition calculate_filler_reward `{FourthRoot} (fee order_slot clock_slot multiplier : Z)
    (s : OrderFillerRewardStructure) : DriftResult Z :=
  let! x := safe_u 64 (fee * reward_numerator s) in
  let! size_filler_reward := safe_udiv x (reward_denominator s) in
  let! x := safe_u 128 (time_based_reward_lower_bound s * Z.min (Z.max multiplier TEN_BPS) (TEN_BPS * 100)) in
  let! min_time_filler_reward := safe_udiv x TEN_BPS in
  let! x := safe_u 64 (clock_slot - order_slot) in
  let slots_since_order := Z.max 1 x in
  let! x := safe_u 128 (slots_since_order * 100000000) in
  let! x := safe_u 128 (nth_root_4 x * min_time_filler_reward) in
  let! x := safe_udiv x 100 in
  let! time_filler_reward := cast_u 64 x in
  Ok (Z.min size_filler_reward time_filler_reward).

(** ** Fees of a fill *)

Record FillFees := mkFillFees {
  user_fee : Z;
  maker_rebate : Z;
  fee_to_market : Z;
  fee_to_market_for_lp : Z;
  filler_reward : Z;
  referrer_reward : Z;
  referee_discount : Z;
  builder_fee : option Z;
}.

Definition high_leverage_fee (user_high_leverage_mode : bool) (fee : Z) : DriftResult Z :=
  if user_high_leverage_mode then safe_u 64 (fee * 2) else Ok fee.

Definition referee_fee (reward_referrer : bool) (fee : Z) (tier : FeeTier) (upper_bound : Z) (referrer_stats : option UserStats) :
    DriftResult (Z * Z * Z) :=
  if reward_referrer then calculate_referee_fee_and_referrer_reward fee tier upper_bound referrer_stats
  else Ok (fee, 0, 0).

Definition calculate_builder_fee (quote_asset_amount : Z) (builder_fee_bps : option Z) : DriftResult (option Z) :=
  match builder_fee_bps with
  | Some b =>
      let! x := safe_u 64 (quote_asset_amount * b) in
      let! f := safe_udiv x 100000 in Ok (Some f)
  | None => Ok None
  end.

Definition calculate_fee_for_fulfillment_with_amm `{FourthRoot} (s : UserStats) (quote_asset_amount : Z) (fs : FeeStructure)
    (order_slot clock_slot : Z) (reward_filler reward_referrer : bool) (referrer_stats : option UserStats)
    (quote_asset_amount_surplus : Z) (is_post_only : bool) (fee_adjustment : Z) (user_high_leverage_mode : bool)
    (builder_fee_bps : option Z) : DriftResult FillFees :=
  let! tier := determine_user_fee_tier s fs Perp user_high_leverage_mode in
  let reward_of fee :=
    if negb reward_filler then Ok 0
    else calculate_filler_reward fee order_slot clock_slot 0 (filler_reward_structure fs) in
  if is_post_only then
    let! maker_rebate := calculate_maker_rebate quote_asset_amount tier fee_adjustment in
    let! surplus := cast_u 64 quote_asset_amount_surplus in
    let! fee := safe_u 64 (surplus - maker_rebate) in
    let! filler_reward := reward_of fee in
    let! x := safe_u 64 (fee - filler_reward) in
    let! fee_to_market := cast_i 64 x in
    Ok (mkFillFees 0 maker_rebate fee_to_market 0 filler_reward 0 0 None)
  else
    let! fee := calculate_taker_fee quote_asset_amount tier fee_adjustment in
    let! fee := high_leverage_fee user_high_leverage_mode fee in
    let! '(fee, referee_discount, referrer_reward) :=
      referee_fee reward_referrer fee tier (referrer_reward_epoch_upper_bound fs) referrer_stats in
    let! filler_reward := reward_of fee in
    let! x := safe_u 64 (fee - filler_reward) in
    let! x := safe_u 64 (x - referrer_reward) in
    let! x := cast_i 64 x in
    let! fee_to_market := safe_i 64 (x + quote_asset_amount_surplus) in
    let! fee_to_market_for_lp := safe_i 64 (fee_to_market - quote_asset_amount_surplus) in
    let! builder_fee := calculate_builder_fee quote_asset_amount builder_fee_bps in
    Ok (mkFillFees fee 0 fee_to_market fee_to_market_for_lp filler_reward referrer_reward referee_discount builder_fee).

Definition calculate_fee_for_fulfillment_with_match `{FourthRoot} (taker_stats : UserStats) (maker_stats : option UserStats)
    (quote_asset_amount : Z) (fs : FeeStructure) (order_slot clock_slot filler_multiplier : Z) (reward_referrer : bool)
    (referrer_stats : option UserStats) (market_type : MarketType) (fee_adjustment : Z) (user_high_leverage_mode : bool)
    (builder_fee_bps : option Z) : DriftResult FillFees :=
  let! taker_fee_tier := determine_user_fee_tier taker_stats fs market_type user_high_leverage_mode in
  let! maker_fee_tier :=
    determine_user_fee_tier (match maker_stats with Some m => m | None => taker_stats end) fs market_type false in
  let! taker_fee := calculate_taker_fee quote_asset_amount taker_fee_tier fee_adjustment in
  let! taker_fee := high_leverage_fee user_high_leverage_mode taker_fee in
  let! '(taker_fee, referee_discount, referrer_reward) :=
    referee_fee reward_referrer taker_fee taker_fee_tier (referrer_reward_epoch_upper_bound fs) referrer_stats in
  let! maker_rebate := calculate_maker_rebate quote_asset_amount maker_fee_tier fee_adjustment in
  let! filler_reward :=
    if filler_multiplier =? 0 then Ok 0
    else calculate_filler_reward taker_fee order_slot clock_slot filler_multiplier (filler_reward_structure fs) in
  let! x := safe_u 64 (taker_fee - filler_reward) in
  let! x := safe_u 64 (x - referrer_reward) in
  let! x := safe_u 64 (x - maker_rebate) in
  let! fee_to_market := cast_i 64 x in
  let! builder_fee := calculate_builder_fee quote_asset_amount builder_fee_bps in
  Ok (mkFillFees taker_fee maker_rebate fee_to_market 0 filler_reward referrer_reward referee_discount builder_fee).

Record ExternalFillFees := mkExternalFillFees {
  ext_user_fee : Z;
  ext_fee_to_market : Z;
  ext_fee_pool_delta : Z;
  ext_filler_reward : Z;
}.

(** The reward of the filler is taken from [quote_asset_amount], not from the fee. *)
Definition calculate_fee_for_fulfillment_with_external_market `{FourthRoot} (s : UserStats) (quote_asset_amount : Z)
    (fs : FeeStructure) (order_slot clock_slot : Z) (reward_filler : bool) (external_market_fee unsettled_referrer_rebate
    fee_pool_amount fee_adjustment : Z) : DriftResult ExternalFillFees :=
  let! tier := determine_user_fee_tier s fs Spot false in
  let! fee := calculate_taker_fee quote_asset_amount tier fee_adjustment in
  let! fee_plus_referrer_rebate := safe_u 64 (external_market_fee + unsettled_referrer_rebate) in
  let user_fee := Z.max fee fee_plus_referrer_rebate in
  let! filler_reward :=
    if reward_filler then
      let! immediately_available_fee := safe_u 64 (user_fee - fee_plus_referrer_rebate) in
      let! eventual_available_fee := safe_u 64 (user_fee - external_market_fee) in
      let available_fee := Z.min eventual_available_fee (Z.max fee_pool_amount immediately_available_fee) in
      let! r := calculate_filler_reward quote_asset_amount order_slot clock_slot 0 (filler_reward_structure fs) in
      Ok (Z.min r available_fee)
    else Ok 0 in
  let! x := safe_u 64 (user_fee - external_market_fee) in
  let! fee_to_market := safe_u 64 (x - filler_reward) in
  let! x := cast_i 64 fee_to_market in
  let! rebate := cast_i 64 unsettled_referrer_rebate in
  let! fee_pool_delta := safe_i 64 (x - rebate) in
  Ok (mkExternalFillFees user_fee fee_to_market fee_pool_delta filler_reward).

(** * Proofs *)

Record sound_tier (t : FeeTier) : Prop := {
  tier_fee : in_u 32 (fee_numerator t);
  tier_fee_den : 0 < fee_denominator t;
  tier_rebate : 0 <= maker_rebate_numerator t;
  tier_rebate_den : 0 < maker_rebate_denominator t;
  tier_referrer : in_u 128 (referrer_reward_numerator t);
  tier_referrer_den : 0 < referrer_reward_denominator t;
  tier_referee : in_u 128 (referee_fee_numerator t);
  tier_referee_den : 0 < referee_fee_denominator t;
}.

Record sound_fees (fs : FeeStructure) : Prop := {
  fees_tiers : Forall sound_tier (fee_tiers fs);
  fees_filler : 0 <= reward_denominator (filler_reward_structure fs);
}.

Lemma perps_default_sound : sound_fees perps_default.
Proof. split; [repeat constructor; cbn; unfold in_u; lia|done]. Qed.

(** ** Tiers *)

Lemma tier_index_mono x y l : x <= y -> (tier_index x l <= tier_index y l)%nat.
Proof.
  intros Hxy. induction l as [|t l IH]; [done|cbn].
  destruct (Z.ltb_spec x t) as [Hx|Hx], (Z.ltb_spec y t) as [Hy|Hy]; lia.
Qed.

(** The shares after a benefit of [b] percent: the fee is rounded down in the fast
    path and up in the general one. *)
Definition reduced_fee (b n : Z) : Z := if b <? 30 then n * (100 - b) / 100 else zceil (n * (100 - b)) 100.
Definition raised_rebate (b n : Z) : Z := n * (100 + b) / 100.

Ltac each_benefit H :=
  unfold STAKE_BENEFIT_FRAC in H; rewrite !elem_of_cons, elem_of_nil in H;
  destruct H as [->|[->|[->|[->|[->|[->|[]]]]]]].

Lemma apply_stake_benefit_Ok b t t' :
  b ∈ STAKE_BENEFIT_FRAC -> sound_tier t -> apply_stake_benefit b t = Ok t' ->
  fee_numerator t' = reduced_fee b (fee_numerator t) /\ maker_rebate_numerator t' = raised_rebate b (maker_rebate_numerator t)
  /\ t' = t <| fee_numerator := fee_numerator t' |> <| maker_rebate_numerator := maker_rebate_numerator t' |>.
Proof.
  intros Hb [Hf _ Hr _ _ _ _ _] H. destruct t as [n d k e r1 r2 r3 r4]. cbn in *. unfold in_u in Hf.
  each_benefit Hb; unfold apply_stake_benefit in H; cbn -[safe_udiv safe_u safe_div_ceil usat] in H.
  1: injection H as <-; cbn; unfold reduced_fee, raised_rebate; cbn; split_and!; [| |done];
     Z.div_mod_to_equations; lia.
  all: apply obind_Ok in H as (x & Hx & H); apply obind_Ok in H as (y & Hy & H); apply obind_Ok in H as (r & Hz & H).
  1-3: apply safe_div_ceil_Ok in Hx; [|done]; apply safe_udiv_Ok in Hy as [_ Hy]; apply safe_u_Ok in Hz as [Hz _].
  4-5: apply obind_Ok in H as (s & Hs & H); apply safe_u_Ok in Hx as [Hx _], Hz as [Hz _];
       apply safe_udiv_Ok in Hs as [_ Hs]; apply safe_div_ceil_Ok in Hy; [|done].
  all: injection H as <-; cbn; unfold reduced_fee, raised_rebate; cbn; subst; unfold zceil, usat in *; split_and!; [| |done];
     Z.div_mod_to_equations; lia.
Qed.

Lemma reduced_fee_mono b b' n :
  b ∈ STAKE_BENEFIT_FRAC -> b' ∈ STAKE_BENEFIT_FRAC -> b <= b' -> 10 <= n -> reduced_fee b' n <= reduced_fee b n.
Proof.
  intros Hb Hb' Hle Hn. unfold reduced_fee.
  each_benefit Hb; each_benefit Hb'; try lia; cbn; unfold zceil; Z.div_mod_to_equations; lia.
Qed.

Lemma stake_benefit_mono i j b b' :
  (i <= j)%nat -> STAKE_BENEFIT_FRAC !! i = Some b -> STAKE_BENEFIT_FRAC !! j = Some b' -> b <= b'.
Proof.
  intros Hij. do 6 (destruct i as [|i]; [do 6 (destruct j as [|j]; [intros [= <-] [= <-]; lia|]); done|]; destruct j as [|j]; [lia|]).
  done.
Qed.

(** Of two users with the same volume the one with the larger stake pays no
    larger share and is given back no smaller one, as long as the tier's share is
    not below ten: there the two ways of rounding cross. *)
Theorem larger_stake_better_tier s s' fs t t' :
  get_total_30d_volume s = get_total_30d_volume s' -> if_staked_gov_token_amount s <= if_staked_gov_token_amount s' ->
  sound_fees fs -> Forall (fun x => 10 <= fee_numerator x) (fee_tiers fs) ->
  determine_perp_fee_tier s fs = Ok t -> determine_perp_fee_tier s' fs = Ok t' ->
  fee_numerator t' <= fee_numerator t /\ maker_rebate_numerator t <= maker_rebate_numerator t'
  /\ fee_denominator t' = fee_denominator t /\ maker_rebate_denominator t' = maker_rebate_denominator t.
Proof.
  intros Hv Hs [Hall _] Hten H H'. unfold determine_perp_fee_tier in *. rewrite <- Hv in H'.
  apply obind_Ok in H as (v & Hvol & H). apply obind_Ok in H' as (v' & Hvol' & H'). assert (v' = v) as -> by congruence.
  cbv zeta in *. apply obind_Ok in H as (b & [_ Hb]%idx_Ok & H). apply obind_Ok in H' as (b' & [_ Hb']%idx_Ok & H').
  apply obind_Ok in H as (u & Hu & H). apply obind_Ok in H' as (u' & Hu' & H'). assert (u' = u) as -> by congruence.
  apply idx_Ok in Hu as [_ Hu]. rewrite Nat2Z.id in Hb, Hb'.
  assert (sound_tier u) as Hsound by (eapply Forall_lookup_1; eassumption).
  assert (10 <= fee_numerator u) as Hu10 by (apply (Forall_lookup_1 _ _ _ _ Hten Hu)).
  assert (b <= b') as Hle by (eapply stake_benefit_mono; [exact (tier_index_mono _ _ STAKE_THRESHOLDS Hs)|eassumption..]).
  apply list_elem_of_lookup_2 in Hb, Hb'.
  apply apply_stake_benefit_Ok in H as (E1 & E2 & ->); [|done..]. apply apply_stake_benefit_Ok in H' as (F1 & F2 & ->); [|done..].
  cbn in *. rewrite E1, E2, F1, F2. split_and!; [by apply reduced_fee_mono| |done..].
  unfold raised_rebate. apply Z.div_le_mono; [done|]. destruct Hsound. nia.
Qed.

(** Below ten they do cross: a share of six is four after a benefit of 20 percent
    and five after one of 30. *)
Example larger_stake_larger_fee : reduced_fee 20 6 = 4 /\ reduced_fee 30 6 = 5.
Proof. split; reflexivity. Qed.

Lemma tier_of_benefit_sound b t t' : b ∈ STAKE_BENEFIT_FRAC -> sound_tier t -> apply_stake_benefit b t = Ok t' -> sound_tier t'.
Proof.
  intros Hb Ht H. pose proof (apply_stake_benefit_Ok _ _ _ Hb Ht H) as (E1 & E2 & ->). destruct Ht as [Hf ? Hr ? ? ? ? ?].
  cbn in *. unfold in_u in *. split; cbn; unfold in_u; try assumption; rewrite ?E1, ?E2.
  - unfold reduced_fee, zceil. each_benefit Hb; cbn; Z.div_mod_to_equations; lia.
  - unfold raised_rebate. each_benefit Hb; cbn; Z.div_mod_to_equations; lia.
Qed.

Lemma user_tier_sound s fs t hl tier : sound_fees fs -> determine_user_fee_tier s fs t hl = Ok tier -> sound_tier tier.
Proof.
  intros [Hall _] H.
  assert (forall i u, idx (E := ErrorCode) (fee_tiers fs) i = Ok u -> sound_tier u) as Hidx.
  { intros i u [_ Hu]%idx_Ok. exact (Forall_lookup_1 _ _ _ _ Hall Hu). }
  unfold determine_user_fee_tier in H; destruct t; [by eapply Hidx|]. destruct hl; [by eapply Hidx|].
  unfold determine_perp_fee_tier in H. apply obind_Ok in H as (v & _ & H). cbv zeta in H.
  apply obind_Ok in H as (b & [_ Hb]%idx_Ok & H). apply obind_Ok in H as (u & Hu & H).
  eapply tier_of_benefit_sound; [|by eapply Hidx|exact H]. by apply list_elem_of_lookup_2 in Hb.
Qed.

(** ** Parts *)

Lemma taker_fee_in_u q t adj r : sound_tier t -> calculate_taker_fee q t adj = Ok r -> in_u 64 r.
Proof.
  intros Ht H. unfold calculate_taker_fee in H. apply obind_Ok in H as (x & _ & H). apply obind_Ok in H as (y & _ & H).
  apply obind_Ok in H as (f & [-> Hf]%cast_u_Ok & H).
  destruct (adj <? 0); [|destruct (0 <? adj); [|by injection H as <-]];
    apply obind_Ok in H as (z & _ & H); apply obind_Ok in H as (d & _ & [= <-]); by apply usat_in.
Qed.

Lemma maker_rebate_in_u q t adj r : calculate_maker_rebate q t adj = Ok r -> in_u 64 r.
Proof.
  intros H. unfold calculate_maker_rebate in H. apply obind_Ok in H as (x & _ & H). apply obind_Ok in H as (y & _ & H).
  apply obind_Ok in H as (f & [-> Hf]%cast_u_Ok & H).
  destruct (adj <? 0); [|destruct (0 <? adj); [|by injection H as <-]];
    apply obind_Ok in H as (z & _ & H); apply obind_Ok in H as (d & _ & [= <-]); by apply usat_in.
Qed.

Lemma high_leverage_fee_Ok hl g r : in_u 64 g -> high_leverage_fee hl g = Ok r -> in_u 64 r /\ r = (if hl then 2 else 1) * g.
Proof. intros Hg. destruct hl; cbn; [intros [-> Hr]%safe_u_Ok; split; [done|lia]|intros [= <-]; split; [done|lia]]. Qed.

(** The discount and the reward are the tier's shares of the fee before the
    discount; the reward stops at what is left of the referrer's epoch ([room]). *)
Record shared (t : FeeTier) (room : option Z) (gross fee discount reward : Z) : Prop := {
  share_total : fee + discount = gross;
  share_discount : discount = gross * referee_fee_numerator t / referee_fee_denominator t;
  share_reward : reward =
    let share := gross * referrer_reward_numerator t / referrer_reward_denominator t in
    match room with Some x => Z.min share x | None => share end;
  share_fee : 0 <= fee;
}.

Definition room_of (bound : Z) (referrer : option UserStats) : option Z :=
  (fun r => Z.max 0 (bound - current_epoch_referrer_reward (us_fees r))) <$> referrer.

Lemma referee_fee_Ok fee t bound referrer r d w :
  sound_tier t -> in_u 64 fee -> referee_fee true fee t bound referrer = Ok (r, d, w) ->
  shared t (room_of bound referrer) fee r d w.
Proof.
  intros [_ _ _ _ Hrn Hrd Hen Hed] Hfee H. cbn in H. unfold calculate_referee_fee_and_referrer_reward in H.
  assert (in_u 128 fee) as Hwide by (unfold in_u in *; lia).
  apply obind_Ok in H as (x & Hx & H). apply get_proportion_exact in Hx as ->; [|done..].
  apply obind_Ok in H as (x & [-> Hd]%cast_u_Ok & H).
  apply obind_Ok in H as (x & Hx & H). apply get_proportion_exact in Hx as ->; [|done..].
  apply obind_Ok in H as (x & [-> Hw]%cast_u_Ok & H). apply obind_Ok in H as (x & [-> Hr]%safe_u_Ok & [= <- <- <-]).
  unfold in_u, usat in *. split; [lia|done| |lia]. destruct referrer as [s|]; cbn; lia.
Qed.

(** ** Fills *)

(** What is charged to the user and, when the order was resting, what the price
    left over ([surplus]) is paid out to the maker, the filler, the referrer and
    the market. *)
Record fully_paid (f : FillFees) (surplus : Z) : Prop := {
  paid_total : user_fee f + surplus = fee_to_market f + maker_rebate f + filler_reward f + referrer_reward f;
  paid_user : 0 <= user_fee f;
  paid_rebate : 0 <= maker_rebate f;
  paid_discount : 0 <= referee_discount f;
}.

Lemma referee_fee_in_u b gross t bound referrer fee d w :
  sound_tier t -> in_u 64 gross -> referee_fee b gross t bound referrer = Ok (fee, d, w) ->
  fee + d = gross /\ 0 <= fee /\ 0 <= d /\ 0 <= w /\ (b = true -> shared t (room_of bound referrer) gross fee d w)
  /\ (b = false -> d = 0 /\ w = 0).
Proof.
  intros Ht Hg H. destruct b; [|injection H as <- <- <-; unfold in_u in *; split_and!; done || lia].
  pose proof (referee_fee_Ok _ _ _ _ _ _ _ Ht Hg H) as [E1 E2 E3 E4]. destruct Ht. unfold in_u in *.
  assert (0 <= gross * referrer_reward_numerator t / referrer_reward_denominator t) by (apply Z.div_pos; nia).
  assert (forall x, room_of bound referrer = Some x -> 0 <= x) as Hroom by (destruct referrer; cbn; [intros x [= <-]; lia|done]).
  split_and!; try (done || lia).
  - rewrite E2. apply Z.div_pos; nia.
  - rewrite E3. destruct (room_of bound referrer) as [x|]; [specialize (Hroom x eq_refl)|]; lia.
Qed.

Lemma builder_fee_Ok q b f : calculate_builder_fee q b = Ok f -> f = (fun b => q * b / 100000) <$> b.
Proof.
  intros H. unfold calculate_builder_fee in H. destruct b as [b|]; [|by injection H as <-].
  apply obind_Ok in H as (x & [-> _]%safe_u_Ok & H). by apply obind_Ok in H as (y & [_ ->]%safe_udiv_Ok & [= <-]).
Qed.

(** The taker's side of the fee: it falls short of the full fee of his tier - twice
    it with high leverage - by the discount; the referrer's part and the builder's. *)
Record taker_pays (fs : FeeStructure) (s : UserStats) (t : MarketType) (hl : bool) (q adj : Z) (referrer_given : bool)
    (referrer : option UserStats) (builder : option Z) (f : FillFees) : Prop := {
  tp_shares : exists tier g, determine_user_fee_tier s fs t hl = Ok tier /\ calculate_taker_fee q tier adj = Ok g
    /\ user_fee f + referee_discount f = (if hl then 2 else 1) * g
    /\ (referrer_given = true -> shared tier (room_of (referrer_reward_epoch_upper_bound fs) referrer)
          (user_fee f + referee_discount f) (user_fee f) (referee_discount f) (referrer_reward f));
  tp_no_referrer : referrer_given = false -> referee_discount f = 0 /\ referrer_reward f = 0;
  tp_builder : builder_fee f = (fun b => q * b / 100000) <$> builder;
}.

(** C30: A filled order's fee goes where it should, to the last unit.  Against the
    market maker or another user: what the user is charged, with the price a
    resting order leaves over, is what the maker, the filler, the referrer and the
    market get; it falls short of the full fee of his tier - twice it with high
    leverage - by the referee's discount.  When there is a referrer, the discount
    is the tier's share of the full fee, and the reward is the tier's share of it
    too, or what is left of the referrer's bound for the epoch if that is less;
    without a referrer both are zero.  The builder's fee is his rate of the quote,
    and the maker's rebate that of his own tier.  The market gives nothing to a
    match, and a resting order filled by the market maker pays no fee. *)
Theorem fees_split_exactly `{FourthRoot} s fs q slot now referrer_given referrer adj hl builder :
  sound_fees fs ->
  (forall maker mult t f,
     calculate_fee_for_fulfillment_with_match s maker q fs slot now mult referrer_given referrer t adj hl builder = Ok f ->
     fully_paid f 0 /\ 0 <= fee_to_market f /\ taker_pays fs s t hl q adj referrer_given referrer builder f
     /\ exists mtier, determine_user_fee_tier (default s maker) fs t false = Ok mtier
        /\ calculate_maker_rebate q mtier adj = Ok (maker_rebate f))
  /\ (forall filler surplus post_only f,
     calculate_fee_for_fulfillment_with_amm s q fs slot now filler referrer_given referrer surplus post_only adj hl builder = Ok f ->
     fully_paid f surplus
     /\ (post_only = true -> user_fee f = 0 /\ 0 <= fee_to_market f
        /\ exists tier, determine_user_fee_tier s fs Perp hl = Ok tier /\ calculate_maker_rebate q tier adj = Ok (maker_rebate f))
     /\ (post_only = false -> maker_rebate f = 0 /\ fee_to_market_for_lp f = fee_to_market f - surplus
        /\ 0 <= fee_to_market_for_lp f /\ taker_pays fs s Perp hl q adj referrer_given referrer builder f)).
Proof.
  intros Hfs. split.
  - intros maker mult t f Hf. unfold calculate_fee_for_fulfillment_with_match in Hf.
    apply obind_Ok in Hf as (tier & Htier & Hf). apply obind_Ok in Hf as (mtier & Hmtier & Hf).
    apply obind_Ok in Hf as (g & Hg & Hf). apply obind_Ok in Hf as (gross & Hgross & Hf).
    pose proof (user_tier_sound _ _ _ _ _ Hfs Htier) as Ht. pose proof (taker_fee_in_u _ _ _ _ Ht Hg) as Hgu.
    apply high_leverage_fee_Ok in Hgross as [Hgu2 Egross]; [|done].
    apply obind_Ok in Hf as ([[fee d] w] & Hr & Hf).
    apply referee_fee_in_u in Hr as (E1 & Hfee & Hd & Hw & Hsh & Hno); [|done..].
    apply obind_Ok in Hf as (mr & Hmr & Hf). pose proof (maker_rebate_in_u _ _ _ _ Hmr) as Hmru.
    apply obind_Ok in Hf as (fr & _ & Hf). apply obind_Ok in Hf as (x & [-> _]%safe_u_Ok & Hf).
    apply obind_Ok in Hf as (x & [-> _]%safe_u_Ok & Hf). apply obind_Ok in Hf as (x & [-> Hx]%safe_u_Ok & Hf).
    apply obind_Ok in Hf as (x & [-> _]%cast_i_Ok & Hf). apply obind_Ok in Hf as (b & Hb%builder_fee_Ok & [= <-]).
    unfold in_u in *. cbn. split; [split; cbn; lia|]. split; [lia|]. split; [|exists mtier; by destruct maker].
    split; cbn; [|by destruct referrer_given|done]. exists tier, g. rewrite E1. split_and!; done.
  - intros filler surplus post_only f Hf. unfold calculate_fee_for_fulfillment_with_amm in Hf.
    apply obind_Ok in Hf as (tier & Htier & Hf). pose proof (user_tier_sound _ _ _ _ _ Hfs Htier) as Ht.
    cbv zeta in Hf. destruct post_only.
    + apply obind_Ok in Hf as (mr & Hmr & Hf). pose proof (maker_rebate_in_u _ _ _ _ Hmr) as Hmru.
      apply obind_Ok in Hf as (x & [-> _]%cast_u_Ok & Hf). apply obind_Ok in Hf as (fee & [-> Hfee]%safe_u_Ok & Hf).
      apply obind_Ok in Hf as (fr & _ & Hf). apply obind_Ok in Hf as (x & [-> Hx]%safe_u_Ok & Hf).
      apply obind_Ok in Hf as (x & [-> _]%cast_i_Ok & [= <-]). unfold in_u in *. cbn. split; [split; cbn; lia|].
      split; [|done]. intros _. split_and!; [done|lia|]. by exists tier.
    + apply obind_Ok in Hf as (g & Hg & Hf). apply obind_Ok in Hf as (gross & Hgross & Hf).
      pose proof (taker_fee_in_u _ _ _ _ Ht Hg) as Hgu. apply high_leverage_fee_Ok in Hgross as [Hgu2 Egross]; [|done].
      apply obind_Ok in Hf as ([[fee d] w] & Hr & Hf).
      apply referee_fee_in_u in Hr as (E1 & Hfee & Hd & Hw & Hsh & Hno); [|done..].
      apply obind_Ok in Hf as (fr & _ & Hf). apply obind_Ok in Hf as (x & [-> _]%safe_u_Ok & Hf).
      apply obind_Ok in Hf as (x & [-> Hx]%safe_u_Ok & Hf). apply obind_Ok in Hf as (x & [-> _]%cast_i_Ok & Hf).
      apply obind_Ok in Hf as (m & [-> _]%safe_i_Ok & Hf). apply obind_Ok in Hf as (lp & [-> _]%safe_i_Ok & Hf).
      apply obind_Ok in Hf as (b & Hb%builder_fee_Ok & [= <-]). unfold in_u in *. cbn. split; [split; cbn; lia|]. split; [done|].
      intros _. split_and!; [done|lia|lia|]. split; cbn; [|by destruct referrer_given|done].
      exists tier, g. rewrite E1. split_and!; done.
Qed.

(** A fill on another exchange charges at least what that exchange takes and owes
    the referrer; the rest goes to the filler and the market. *)
Lemma external_fees_split `{FourthRoot} s fs q slot now filler ext rebate pool adj f :
  calculate_fee_for_fulfillment_with_external_market s q fs slot now filler ext rebate pool adj = Ok f ->
  ext_user_fee f = ext + ext_filler_reward f + ext_fee_to_market f /\ 0 <= ext_fee_to_market f
  /\ ext + rebate <= ext_user_fee f /\ ext_fee_pool_delta f = ext_fee_to_market f - rebate.
Proof.
  unfold calculate_fee_for_fulfillment_with_external_market. intros Hf.
  apply obind_Ok in Hf as (tier & _ & Hf). apply obind_Ok in Hf as (fee & _ & Hf).
  apply obind_Ok in Hf as (x & [-> _]%safe_u_Ok & Hf). cbv zeta in Hf. apply obind_Ok in Hf as (fr & _ & Hf).
  apply obind_Ok in Hf as (x & [-> _]%safe_u_Ok & Hf). apply obind_Ok in Hf as (m & [-> Hm]%safe_u_Ok & Hf).
  apply obind_Ok in Hf as (x & [-> _]%cast_i_Ok & Hf). apply obind_Ok in Hf as (y & [-> _]%cast_i_Ok & Hf).
  apply obind_Ok in Hf as (d & [-> _]%safe_i_Ok & [= <-]). unfold in_u in Hm. cbn. lia.
Qed.

(** * Examples *)

#[local] Instance floor_root_4 : FourthRoot := {| nth_root_4 x := Z.sqrt (Z.sqrt x) |}.

(** A trade of 1000 dollars by a referred user of the first tier, filled at once. *)
Lemma fees_split_exactly_witness :
  fully_paid (mkFillFees 950000 200000 590000 0 10000 150000 50000 None) 0
  /\ fully_paid (mkFillFees 0 200000 90000 0 10000 0 0 None) 300000.
Proof.
  destruct (fees_split_exactly default_UserStats perps_default 1000000000 10 11 true None 0 false None perps_default_sound)
    as [Hm Ha].
  split.
  - exact (proj1 (Hm (Some default_UserStats) TEN_BPS Perp _ ltac:(vm_compute; reflexivity))).
  - exact (proj1 (Ha true 300000 true _ ltac:(vm_compute; reflexivity))).
Defined.
