(* ===== verification/DriftOrderParams.v ===== *)
(** Parameters of orders: [state/order_params.rs], [validation/order.rs], and the
    functions of [math/orders.rs], [math/auction.rs] and [controller/orders.rs]
    that turn parameters into the prices of an order.

    Before an order is placed its auction is moved to where the market maker's
    curve and the averages of the price put it.  The theorem: the auction of a
    limit order never offers more than its limit, and lasts between one slot and
    the longest duration. *)
From S2P Require Import Prelude.
From S2P Require Import RecordUpdate.
From S2P Require Import DriftError.
From S2P Require Import DriftMath.
From S2P Require Import DriftSpotMarket.
From S2P Require Import DriftTypes.
From S2P Require Import DriftOracle.
From S2P Require Import DriftOrderMath.
From S2P Require Import DriftAmm.
From S2P Require Import DriftSpread.
From S2P Require Import DriftFees.

(** ** Data *)

Inductive PostOnlyParam : Set := PostOnlyNone | MustPostOnly | TryPostOnly | Slide.

Record OrderParams := mkOrderParams {
  op_order_type : OrderType;
  op_market_type : MarketType;
  op_direction : PositionDirection;
  op_user_order_id : Z;
  op_base_asset_amount : Z;
  op_price : Z;
  op_market_index : Z;
  op_reduce_only : bool;
  op_post_only : PostOnlyParam;
  op_bit_flags : Z;
  op_max_ts : option Z;
  op_trigger_price : option Z;
  op_trigger_condition : OrderTriggerCondition;
  op_oracle_price_offset : option Z;
  op_auction_duration : option Z;
  op_auction_start_price : option Z;
  op_auction_end_price : option Z;
}.

#[export] Instance eta_OrderParams : Eta OrderParams := fun r =>
  mkOrderParams (op_order_type r) (op_market_type r) (op_direction r) (op_user_order_id r) (op_base_asset_amount r)
    (op_price r) (op_market_index r) (op_reduce_only r) (op_post_only r) (op_bit_flags r) (op_max_ts r)
    (op_trigger_price r) (op_trigger_condition r) (op_oracle_price_offset r) (op_auction_duration r)
    (op_auction_start_price r) (op_auction_end_price r).

#[export] Instance set_op_auction_duration : Setter op_auction_duration := ltac:(setter).
#[export] Instance set_op_auction_start_price : Setter op_auction_start_price := ltac:(setter).
#[export] Instance set_op_auction_end_price : Setter op_auction_end_price := ltac:(setter).
#[export] Instance OrderType_eq_dec : EqDecision OrderType.
Proof. solve_decision. Defined.
#[export] Instance PostOnlyParam_eq_dec : EqDecision PostOnlyParam.
Proof. solve_decision. Defined.

(** [OrderParamsBitFlag] *)
Definition is_immediate_or_cancel (p : OrderParams) : bool := negb (Z.land (op_bit_flags p) 1 =? 0).
Definition is_update_high_leverage_mode (p : OrderParams) : bool := negb (Z.land (op_bit_flags p) 2 =? 0).
Definition is_max_leverage_order (p : OrderParams) : bool := op_base_asset_amount p =? umax 64.
Definition is_trigger_order (p : OrderParams) : bool :=
  match op_order_type p with TriggerMarket | TriggerLimit => true | _ => false end.

Definition has_valid_auction_params (p : OrderParams) : bool :=
  match op_auction_duration p, op_auction_start_price p, op_auction_end_price p with
  | Some _, Some a, Some z => match op_direction p with Long => a <=? z | Short => z <=? a end
  | None, None, None => bool_decide (op_order_type p = LimitOrder)
  | _, _, _ => false
  end.

(** Of the explanations of an order only that it belongs to a liquidation matters. *)
Record PlaceOrderOptions := mkPlaceOrderOptions {
  signed_msg_taker_order_slot : option Z;
  try_expire_orders : bool;
  enforce_margin_check : bool;
  opt_risk_increasing : bool;
  is_liquidation : bool;
  existing_position_direction_override : option PositionDirection;
}.

Definition default_options : PlaceOrderOptions := mkPlaceOrderOptions None true true false false None.
Definition get_order_slot (o : PlaceOrderOptions) (order_slot : Z) : Z :=
  match signed_msg_taker_order_slot o with Some s => Z.min order_slot s | None => order_slot end.
Definition is_signed_msg_order (o : PlaceOrderOptions) : bool := bool_decide (is_Some (signed_msg_taker_order_slot o)).
Definition update_risk_increasing (o : PlaceOrderOptions) (risk_increasing : bool) : PlaceOrderOptions :=
  mkPlaceOrderOptions (signed_msg_taker_order_slot o) (try_expire_orders o) (enforce_margin_check o)
    (opt_risk_increasing o || risk_increasing) (is_liquidation o) (existing_position_direction_override o).

(** ** Where the market puts an auction *)

Definition is_prediction_market (m : PerpMarket) : bool := bool_decide (contract_type m = Prediction).
Definition can_sanitize_market_order_auctions (m : PerpMarket) : bool :=
  match oracle_source (amm m) with Prelaunch => false | _ => true end.

Definition get_auction_end_min_max_divisors (t : ContractTier) : Z * Z :=
  match t with
  | TierA => (1000, 50) | TierB => (1000, 20) | TierC => (500, 20) | Speculative => (100, 10)
  | HighlySpeculative | TierIsolated => (50, 5)
  end.

(** [div] of the standard library panics on zero; at most 180 slots. *)
Definition get_auction_duration (price_diff price : Z) (t : ContractTier) : DriftResult Z :=
  let! x := safe_u 64 (price_diff * PERCENTAGE_PRECISION) in
  let! percent_diff := if price =? 0 then Panic else Ok (x / price) in
  let slots_per_pct := if is_as_safe_as_contract t TierB then 100 else 60 in
  let! x := safe_u 64 (percent_diff * slots_per_pct) in
  let! n := safe_div_ceil 64 x (PERCENTAGE_PRECISION / 100) in
  Ok (Z.min (Z.max n 1) 180).

Definition get_perp_baseline_start_price_offset (m : PerpMarket) (d : PositionDirection) : DriftResult Z :=
  let a := amm m in
  let h := amm_historical_oracle_data a in
  let! age := safe_i 64 (last_oracle_price_twap_ts h - last_mark_price_twap_ts a) in
  let! age := ichk 64 (Z.abs age) in
  if (60 <=? age) || (volume_24h a <=? 100000 * QUOTE_PRECISION_U64) then
    let price_divisor := if is_as_safe_as_contract (contract_tier m) TierB then 500 else 100 in
    match d with
    | Long => let! b := cast_i 64 (last_bid_price_twap a) in Ok (Z.quot b price_divisor)
    | Short => let! b := cast_i 64 (last_ask_price_twap a) in Ok (- Z.quot b price_divisor)
    end
  else
    let! mark_twap_slow := cast_i 64 (match d with Long => last_bid_price_twap a | Short => last_ask_price_twap a end) in
    let! f := cast_i 64 (last_mark_price_twap_5min a) in
    let! fast := safe_i 64 (f - last_oracle_price_twap_5min h) in
    let! slow := safe_i 64 (mark_twap_slow - last_oracle_price_twap h) in
    if Z.abs (slow - fast) <=? last_mark_price_twap_5min a / 200 then
      let spread_frac s :=
        let! s := cast_i 64 s in
        let! x := safe_i 64 (s * mark_twap_slow) in
        safe_idiv 64 x (PRICE_PRECISION * 10) in
      let! frac_of_long_spread := spread_frac (long_spread a) in
      let! frac_of_short_spread := spread_frac (short_spread a) in
      match d with
      | Long =>
          let! x := safe_i 64 (slow + frac_of_long_spread) in
          let! y := safe_i 64 (fast - frac_of_short_spread) in Ok (Z.min x y)
      | Short =>
          let! x := safe_i 64 (slow - frac_of_short_spread) in
          let! y := safe_i 64 (fast + frac_of_long_spread) in Ok (Z.max x y)
      end
    else Ok fast.

Definition get_perp_baseline_start_end_price_offset (m : PerpMarket) (d : PositionDirection) (end_buffer_scalar : Z) :
    DriftResult (Z * Z) :=
  let a := amm m in
  let oracle_twap := Z.abs (last_oracle_price_twap (amm_historical_oracle_data a)) in
  let! start_offset := get_perp_baseline_start_price_offset m d in
  let '(min_divisor, max_divisor) := get_auction_end_min_max_divisors (contract_tier m) in
  let! x := safe_u 64 ((match d with Short => short_spread a | Long => long_spread a end) * oracle_twap) in
  let! x := safe_udiv x PERCENTAGE_PRECISION in
  let buffer := Z.max (Z.max (mark_std a) (oracle_std a)) x in
  let! buffer := if 1 <=? end_buffer_scalar then safe_u 64 (buffer * end_buffer_scalar) else Ok buffer in
  let buffer := Z.min (Z.max buffer (oracle_twap / min_divisor)) (oracle_twap / max_divisor) in
  match d with
  | Short =>
      let! x := safe_u 64 (last_bid_price_twap a - buffer) in
      let! x := cast_i 64 x in
      let! auction_end_price := safe_i 64 (x - last_oracle_price_twap (amm_historical_oracle_data a)) in
      Ok (start_offset, Z.min auction_end_price start_offset)
  | Long =>
      let! x := safe_u 64 (last_ask_price_twap a + buffer) in
      let! x := cast_i 64 x in
      let! auction_end_price := safe_i 64 (x - last_oracle_price_twap (amm_historical_oracle_data a)) in
      Ok (start_offset, Z.max auction_end_price start_offset)
  end.

(** Moves the start, and an end it passes, by a share of the oracle's price. *)
Definition apply_start_buffer (d : PositionDirection) (oracle_price start_buffer : Z) (prices : Z * Z) : DriftResult (Z * Z) :=
  if start_buffer =? 0 then Ok prices
  else
    let! x := safe_i 64 (oracle_price * start_buffer) in
    let! b := safe_idiv 64 x PERCENTAGE_PRECISION in
    let b := match d with Long => - b | Short => b end in
    let! a := safe_i 64 (prices.1 + b) in
    let! z := if start_buffer <? 0 then safe_i 64 (prices.2 + b) else Ok prices.2 in
    Ok (a, z).

(** The worse of two prices for the user stays out of his auction. *)
Definition within_price (d : PositionDirection) (worst x : Z) : Z :=
  match d with Long => Z.min x worst | Short => Z.max x worst end.

Definition derive_market_order_auction_params (m : PerpMarket) (d : PositionDirection) (oracle_price limit_price
    start_buffer : Z) : DriftResult (Z * Z * Z) :=
  let! '(start_offset, end_offset) :=
    get_perp_baseline_start_end_price_offset m d (if negb (limit_price =? 0) then 2 else 1) in
  let! a := safe_i 64 (oracle_price + start_offset) in
  let! z := safe_i 64 (oracle_price + end_offset) in
  let! '(a, z) := apply_start_buffer d oracle_price start_buffer (a, z) in
  let '(a, z) := if is_prediction_market m then (Z.min a MAX_PREDICTION_MARKET_PRICE, Z.min z MAX_PREDICTION_MARKET_PRICE)
                 else (a, z) in
  let '(a, z) := if negb (limit_price =? 0)
                 then (within_price d (iwrap 64 limit_price) a, within_price d (iwrap 64 limit_price) z) else (a, z) in
  let! diff := safe_i 64 (z - a) in
  let! n := get_auction_duration (Z.abs diff) (Z.abs oracle_price) (contract_tier m) in
  Ok (a, z, n).

Definition derive_oracle_order_auction_params (m : PerpMarket) (d : PositionDirection) (oracle_price : Z)
    (oracle_price_offset : option Z) (start_buffer : Z) : DriftResult (Z * Z * Z) :=
  let! '(a, z) :=
    match oracle_price_offset with
    | Some offset =>
        let! start_offset := get_perp_baseline_start_price_offset m d in
        Ok (within_price d offset start_offset, offset)
    | None => get_perp_baseline_start_end_price_offset m d 1
    end in
  let! '(a, z) := apply_start_buffer d oracle_price start_buffer (a, z) in
  let! diff := safe_i 64 (z - a) in
  let! n := get_auction_duration (Z.abs diff) (Z.abs oracle_price) (contract_tier m) in
  Ok (a, z, n).

(** ** The update of an order's auction *)

Definition update_duration (p : OrderParams) (oracle_price : Z) (t : ContractTier) (is_signed_msg : bool) :
    DriftResult OrderParams :=
  let! z := ok_or (op_auction_end_price p) FailedUnwrap in
  let! a := ok_or (op_auction_start_price p) FailedUnwrap in
  let! diff := safe_i 64 (z - a) in
  let! new_auction_duration := get_auction_duration (Z.abs diff) (Z.abs oracle_price) t in
  let before := default 0 (op_auction_duration p) in
  Ok (if (10 <? Z.abs (before - new_auction_duration)) || negb is_signed_msg
      then p <| op_auction_duration := Some (Z.max before new_auction_duration) |> else p).

(** An order without an auction gets one when its limit crosses the curve's price. *)
Definition set_auction_if_crossing (p : OrderParams) (m : PerpMarket) (oracle_price new_start : Z) :
    DriftResult (option OrderParams) :=
  let offset := default 0 (op_oracle_price_offset p) in
  match op_direction p with
  | Long =>
      let! ask_premium := last_ask_premium (amm m) in
      let! e := safe_i 64 (oracle_price + ask_premium) in
      let! est_ask := cast_u 64 e in
      let! crosses := if negb (offset =? 0) then let! x := safe_i 64 (est_ask - oracle_price) in Ok (x <? offset)
                      else Ok (est_ask <? op_price p) in
      if negb crosses then Ok None
      else
        let new_start := Z.min new_start est_ask in
        if negb (offset =? 0) then
          let! s := safe_i 64 (new_start - oracle_price) in
          Ok (Some (p <| op_auction_start_price := Some s |> <| op_auction_end_price := Some offset |>))
        else Ok (Some (p <| op_auction_start_price := Some new_start |>
                         <| op_auction_end_price := Some (iwrap 64 (op_price p)) |>))
  | Short =>
      let! bid_discount := last_bid_discount (amm m) in
      let! e := safe_i 64 (oracle_price - bid_discount) in
      let! est_bid := cast_u 64 e in
      let! crosses := if negb (offset =? 0) then let! x := safe_i 64 (est_bid - oracle_price) in Ok (offset <? x)
                      else Ok (op_price p <? est_bid) in
      if negb crosses then Ok None
      else
        let new_start := Z.max new_start est_bid in
        if negb (offset =? 0) then
          let! s := safe_i 64 (new_start - oracle_price) in
          Ok (Some (p <| op_auction_start_price := Some s |> <| op_auction_end_price := Some offset |>))
        else Ok (Some (p <| op_auction_start_price := Some new_start |>
                         <| op_auction_end_price := Some (iwrap 64 (op_price p)) |>))
  end.

(** An order with an auction has its start improved. *)
Definition improve_auction (p : OrderParams) (start_offset new_start : Z) (is_signed_msg : bool) : DriftResult OrderParams :=
  let offset := default 0 (op_oracle_price_offset p) in
  let start := if negb (offset =? 0) then start_offset else new_start in
  let! p :=
    match op_auction_start_price p with
    | Some s =>
        let! slack := if is_signed_msg then let! x := ichk 64 (Z.abs s) in safe_idiv 64 x 1000 else Ok 0 in
        let! threshold_long := if is_signed_msg then safe_i 64 (s - slack) else Ok s in
        let! threshold_short := if is_signed_msg then safe_i 64 (s + slack) else Ok s in
        let improves := match op_direction p with
                        | Long => new_start <? threshold_long | Short => threshold_short <? new_start end in
        Ok (if improves then p <| op_auction_start_price := Some start |> else p)
    | None => Ok (p <| op_auction_start_price := Some start |>)
    end in
  Ok (match op_auction_end_price p with
      | Some _ => p
      | None => p <| op_auction_end_price := Some (if negb (offset =? 0) then offset else iwrap 64 (op_price p)) |>
      end).

Definition clamp_auction (p : OrderParams) : OrderParams :=
  let offset := default 0 (op_oracle_price_offset p) in
  let worst_price := if negb (offset =? 0) then offset else iwrap 64 (op_price p) in
  p <| op_auction_start_price := within_price (op_direction p) worst_price <$> op_auction_start_price p |>
    <| op_auction_end_price := within_price (op_direction p) worst_price <$> op_auction_end_price p |>.

(** The returned flag says whether the parameters changed. *)
Definition auction_changed (p p' : OrderParams) : bool :=
  negb (bool_decide (op_auction_duration p = op_auction_duration p'))
  || negb (bool_decide (op_auction_start_price p = op_auction_start_price p'))
  || negb (bool_decide (op_auction_end_price p = op_auction_end_price p')).

Definition update_perp_auction_params_limit_orders (p : OrderParams) (m : PerpMarket) (oracle_price : Z)
    (is_signed_msg : bool) : DriftResult (OrderParams * bool) :=
  if negb (bool_decide (op_post_only p = PostOnlyNone)) then Ok (p, false)
  else if (default 0 (op_oracle_price_offset p) =? 0) && (op_price p =? 0) then Ok (p, false)
  else
    let! start_offset := get_perp_baseline_start_price_offset m (op_direction p) in
    let! new_start := safe_i 64 (oracle_price + start_offset) in
    let new_start := if is_prediction_market m then Z.min new_start MAX_PREDICTION_MARKET_PRICE else new_start in
    let! q := if default 0 (op_auction_duration p) =? 0 then set_auction_if_crossing p m oracle_price new_start
              else let! q := improve_auction p start_offset new_start is_signed_msg in Ok (Some q) in
    match q with
    | None => Ok (p, false)
    | Some q =>
        let! q := update_duration (clamp_auction q) oracle_price (contract_tier m) is_signed_msg in
        Ok (q, auction_changed p q)
    end.

Definition get_auction_start_price_offset (p : OrderParams) (oracle_price : Z) : DriftResult Z :=
  match op_order_type p with
  | OracleOrder => Ok (default 0 (op_auction_start_price p))
  | _ => match op_auction_start_price p with Some s => safe_i 64 (s - oracle_price) | None => Ok 0 end
  end.
Definition get_auction_end_price_offset (p : OrderParams) (oracle_price : Z) : DriftResult Z :=
  match op_order_type p with
  | OracleOrder => Ok (default 0 (op_auction_end_price p))
  | _ => match op_auction_end_price p with Some z => safe_i 64 (z - oracle_price) | None => Ok 0 end
  end.

(** The price an offset is replaced by, when it is worse than the market's by more
    than the slack. *)
Definition sanitized (d : PositionDirection) (slack : bool) (is_market_order : bool) (oracle_price current new : Z)
    (kept : option Z) : DriftResult (option Z) :=
  let! threshold :=
    if slack then
      let! x := ichk 64 (Z.abs oracle_price) in
      let! x := safe_idiv 64 x 1000 in
      safe_i 64 (match d with Long => new + x | Short => new - x end)
    else Ok new in
  if match d with Long => threshold <? current | Short => current <? threshold end then
    if is_market_order then let! x := safe_i 64 (new + oracle_price) in Ok (Some x) else Ok (Some new)
  else Ok kept.

Definition sanitize_auction (p : OrderParams) (m : PerpMarket) (oracle_price : Z) (is_market_order is_signed_msg : bool) :
    DriftResult OrderParams :=
  if can_sanitize_market_order_auctions m then
    let! '(new_start, new_end) := get_perp_baseline_start_end_price_offset m (op_direction p) 2 in
    let! current_start := get_auction_start_price_offset p oracle_price in
    let! current_end := get_auction_end_price_offset p oracle_price in
    let slack := is_signed_msg || negb (is_as_safe_as_contract (contract_tier m) TierB) in
    let! s := sanitized (op_direction p) slack is_market_order oracle_price current_start new_start (op_auction_start_price p) in
    let! z := sanitized (op_direction p) slack is_market_order oracle_price current_end new_end (op_auction_end_price p) in
    Ok (p <| op_auction_start_price := s |> <| op_auction_end_price := z |>)
  else Ok p.

Definition update_perp_auction_params_market_and_oracle_orders (p : OrderParams) (m : PerpMarket) (oracle_price : Z)
    (is_market_order is_signed_msg : bool) : DriftResult (OrderParams * bool) :=
  match op_auction_duration p, op_auction_start_price p, op_auction_end_price p with
  | Some _, Some _, Some _ =>
      let! q := sanitize_auction p m oracle_price is_market_order is_signed_msg in
      let! q := update_duration q oracle_price (contract_tier m) is_signed_msg in
      Ok (q, auction_changed p q)
  | _, _, _ =>
      let! '(a, z, n) :=
        if is_market_order
        then derive_market_order_auction_params m (op_direction p) oracle_price (op_price p) (PERCENTAGE_PRECISION / 400)
        else derive_oracle_order_auction_params m (op_direction p) oracle_price (op_oracle_price_offset p)
               (PERCENTAGE_PRECISION / 400) in
      Ok (p <| op_auction_start_price := Some a |> <| op_auction_end_price := Some z |> <| op_auction_duration := Some n |>, true)
  end.

Definition update_perp_auction_params (p : OrderParams) (m : PerpMarket) (oracle_price : Z) (is_signed_msg : bool) :
    DriftResult (OrderParams * bool) :=
  match op_order_type p with
  | LimitOrder => update_perp_auction_params_limit_orders p m oracle_price is_signed_msg
  | MarketOrder => update_perp_auction_params_market_and_oracle_orders p m oracle_price true is_signed_msg
  | OracleOrder => update_perp_auction_params_market_and_oracle_orders p m oracle_price false is_signed_msg
  | _ => Ok (p, false)
  end.

Definition get_close_perp_params (m : PerpMarket) (direction_to_close : PositionDirection) (base_asset_amount : Z) :
    DriftResult OrderParams :=
  let! '(a, z) := get_perp_baseline_start_end_price_offset m direction_to_close 1 in
  let! o := cast_i 32 z in
  Ok (mkOrderParams OracleOrder Perp direction_to_close 0 base_asset_amount 0 (pm_market_index m) true PostOnlyNone 0 None
        None Above (Some o) (Some 80) (Some a) (Some z)).

(** [get_auction_params] of controller/orders.rs: start, end and duration of the order. *)
Definition get_auction_params (p : OrderParams) (oracle_price tick_size min_auction_duration : Z) :
    DriftResult (Z * Z * Z) :=
  let std x := let! t := cast_i 64 tick_size in standardize_price_i64 x t (op_direction p) in
  match op_order_type p with
  | TriggerMarket | TriggerLimit => Ok (0, 0, 0)
  | LimitOrder =>
      match op_auction_start_price p, op_auction_end_price p, op_auction_duration p with
      | Some a, Some z, Some n =>
          let n := if n =? 0 then n else Z.max n min_auction_duration in
          let! a := std a in
          let! z := std z in Ok (a, z, n)
      | _, _, _ => Ok (0, 0, 0)
      end
  | t =>
      let n := Z.max (default 0 (op_auction_duration p)) min_auction_duration in
      let! '(a, z) :=
        match op_auction_start_price p, op_auction_end_price p with
        | Some a, Some z => Ok (a, z)
        | _, _ => match t with
                  | OracleOrder => Err InvalidOrderAuction
                  | _ => calculate_auction_prices oracle_price (op_direction p) (op_price p)
                  end
        end in
      let! a := std a in
      let! z := std z in Ok (a, z, n)
  end.

(** ** math/orders.rs: prices and sizes that need the curve *)

Definition get_price_for_perp_order (price : Z) (d : PositionDirection) (post_only : PostOnlyParam) (a : AMM) : DriftResult Z :=
  let! limit_price := standardize_price price (order_tick_size a) d in
  match post_only with
  | Slide =>
      let! r := reserve_price a in
      match d with
      | Long =>
          let! amm_ask := ask_price a r in
          if amm_ask <=? limit_price then safe_u 64 (amm_ask - order_tick_size a) else Ok limit_price
      | Short =>
          let! amm_bid := bid_price a r in
          if limit_price <=? amm_bid then safe_u 64 (amm_bid + order_tick_size a) else Ok limit_price
      end
  | _ => Ok limit_price
  end.

Definition calculate_limit_price_with_buffer (o : Order) (limit_price : option Z) (t : FeeTier) (fee_adjustment : Z) :
    DriftResult (option Z) :=
  if negb (o_post_only o) then Ok limit_price
  else match limit_price with
  | Some p =>
      let! x := safe_u 64 (p * maker_rebate_numerator t) in
      let! buffer := safe_udiv x (maker_rebate_denominator t) in
      let! buffer :=
        if fee_adjustment <? 0 then
          let! a := ichk 16 (Z.abs fee_adjustment) in
          let! x := safe_u 64 (buffer * a) in
          let! d := safe_udiv x FEE_ADJUSTMENT_MAX in Ok (usat 64 (buffer - d))
        else if 0 <? fee_adjustment then
          let! x := safe_u 64 (buffer * fee_adjustment) in
          let! d := safe_udiv x FEE_ADJUSTMENT_MAX in Ok (usat 64 (buffer + d))
        else Ok buffer in
      let! p := match o_direction o with Long => safe_u 64 (p - buffer) | Short => safe_u 64 (p + buffer) end in
      Ok (Some p)
  | None => Ok None
  end.

Section Fulfil.
Context {roots : Roots}.

Definition calculate_base_asset_amount_to_fill_up_to_limit_price (o : Order) (m : PerpMarket) (limit_price : option Z)
    (existing_base_asset_amount : option Z) : DriftResult Z :=
  let! unfilled := get_base_asset_amount_unfilled o existing_base_asset_amount in
  let! '(max_amount, max_direction) :=
    match limit_price with
    | Some p =>
        let! adjusted := match o_direction o with
                         | Long => safe_u 64 (p - order_tick_size (amm m)) | Short => safe_u 64 (p + order_tick_size (amm m)) end in
        calculate_base_asset_amount_to_trade_to_price (amm m) adjusted (o_direction o)
    | None => Ok (unfilled, o_direction o)
    end in
  if negb (bool_decide (max_direction = o_direction o)) || (max_amount =? 0) then Ok 0
  else standardize_base_asset_amount (Z.min unfilled max_amount) (order_step_size (amm m)).

Definition calculate_base_asset_amount_for_amm_to_fulfill (o : Order) (m : PerpMarket) (limit_price override_fill_price : option Z)
    (existing_base_asset_amount : Z) (t : FeeTier) : DriftResult (Z * option Z) :=
  let! limit_price :=
    match override_fill_price with
    | Some p =>
        do! match limit_price with
            | Some l => validate (match o_direction o with Long => p <=? l | Short => l <=? p end) InvalidAmmLimitPriceOverride
            | None => Ok tt
            end in
        Ok (Some p)
    | None => Ok limit_price
    end in
  if must_be_triggered o && negb (triggered o) then Ok (0, limit_price)
  else
    let! with_buffer := calculate_limit_price_with_buffer o limit_price t (fee_adjustment m) in
    let! base := calculate_base_asset_amount_to_fill_up_to_limit_price o m with_buffer (Some existing_base_asset_amount) in
    let! max_base := calculate_amm_available_liquidity (amm m) (o_direction o) in
    Ok (Z.min base max_base, limit_price).

(** ** validation/order.rs *)

Definition validate_base_asset_amount (o : Order) (step_size min_order_size : Z) (reduce_only_or_jit_maker : bool) :
    DriftResult unit :=
  do! validate (negb (o_base_asset_amount o =? 0)) InvalidOrderSizeTooSmall in
  let! b := is_multiple_of_step_size (o_base_asset_amount o) step_size in
  do! validate b InvalidOrderNotStepSizeMultiple in
  validate (reduce_only_or_jit_maker || (min_order_size <=? o_base_asset_amount o)) InvalidOrderMinOrderSize.

Definition validate_auction_params (o : Order) : DriftResult unit :=
  do! validate (negb (o_auction_start_price o =? 0)) InvalidOrderAuction in
  do! validate (negb (o_auction_end_price o =? 0)) InvalidOrderAuction in
  do! validate (match o_direction o with
                | Long => o_auction_start_price o <=? o_auction_end_price o
                | Short => o_auction_end_price o <=? o_auction_start_price o
                end) InvalidOrderAuction in
  if o_price o =? 0 then Ok tt
  else
    let! z := cast_u 64 (o_auction_end_price o) in
    validate (match o_direction o with Long => z <=? o_price o | Short => o_price o <=? z end) InvalidOrderAuction.

Definition validate_oracle_auction_params (o : Order) : DriftResult unit :=
  match o_direction o with
  | Long =>
      do! validate (o_auction_start_price o <=? o_auction_end_price o) InvalidOrderAuction in
      validate (negb (has_oracle_price_offset o) || (o_auction_end_price o <=? o_oracle_price_offset o)) InvalidOrderAuction
  | Short =>
      do! validate (o_auction_end_price o <=? o_auction_start_price o) InvalidOrderAuction in
      validate (negb (has_oracle_price_offset o) || (o_oracle_price_offset o <=? o_auction_end_price o)) InvalidOrderAuction
  end.

Definition validate_limit_order_auction_params (o : Order) : DriftResult unit :=
  if has_auction o then
    if has_oracle_price_offset o then validate_oracle_auction_params o else validate_auction_params o
  else
    do! validate (o_auction_start_price o =? 0) InvalidOrder in
    validate (o_auction_end_price o =? 0) InvalidOrder.

Definition validate_market_order (o : Order) (step_size min_order_size : Z) : DriftResult unit :=
  do! validate_base_asset_amount o step_size min_order_size (o_reduce_only o) in
  do! validate ((0 <? o_auction_start_price o) && (0 <? o_auction_end_price o)) InvalidOrderAuction in
  do! validate_auction_params o in
  do! validate (negb (0 <? o_trigger_price o)) InvalidOrderTrigger in
  do! validate (negb (o_post_only o)) InvalidOrderPostOnly in
  do! validate (negb (has_oracle_price_offset o)) InvalidOrderOracleOffset in
  validate (negb (o_immediate_or_cancel o)) InvalidOrderIOC.

Definition validate_oracle_order (o : Order) (step_size min_order_size : Z) : DriftResult unit :=
  do! validate_base_asset_amount o step_size min_order_size (o_reduce_only o) in
  do! validate_oracle_auction_params o in
  do! validate (negb (0 <? o_trigger_price o)) InvalidOrderTrigger in
  do! validate (negb (o_post_only o)) InvalidOrderPostOnly in
  do! validate (negb (0 <? o_price o)) InvalidOrderLimitPrice in
  validate (negb (o_immediate_or_cancel o)) InvalidOrderIOC.

Definition validate_post_only_order (o : Order) (m : PerpMarket) (valid_oracle_price : option Z) (slot : Z) : DriftResult unit :=
  if is_jit_maker o || is_operation_paused m OpAmmFill then Ok tt
  else
    let! limit_price := force_get_limit_price o valid_oracle_price None slot (order_tick_size (amm m)) (is_prediction_market m) None in
    let! base := calculate_base_asset_amount_to_fill_up_to_limit_price o m (Some limit_price) None in
    if base =? 0 then Ok tt
    else
      let! valid :=
        match valid_oracle_price with
        | Some p => let! l := cast_i 64 limit_price in
                    Ok (match o_direction o with Long => l <? p | Short => p <? l end)
        | None => Ok false
        end in
      validate valid PlacePostOnlyLimitFailure.

Definition validate_limit_order (o : Order) (m : PerpMarket) (valid_oracle_price : option Z) (slot : Z) : DriftResult unit :=
  do! validate_base_asset_amount o (order_step_size (amm m)) (min_order_size (amm m)) (o_reduce_only o || is_jit_maker o) in
  do! validate (negb ((o_price o =? 0) && negb (has_oracle_price_offset o))) InvalidOrderLimitPrice in
  do! validate (negb (has_oracle_price_offset o && negb (o_price o =? 0))) InvalidOrderLimitPrice in
  do! validate (negb (0 <? o_trigger_price o)) InvalidOrderTrigger in
  do! if o_post_only o then
        do! validate (negb (has_auction o)) InvalidOrder in validate_post_only_order o m valid_oracle_price slot
      else Ok tt in
  validate_limit_order_auction_params o.

Definition trigger_condition_pending (o : Order) : bool :=
  match o_trigger_condition o with Above | Below => true | _ => false end.

Definition validate_trigger_limit_order (o : Order) (step_size min_order_size : Z) : DriftResult unit :=
  do! validate_base_asset_amount o step_size min_order_size (o_reduce_only o) in
  do! validate (trigger_condition_pending o) InvalidTriggerOrderCondition in
  do! validate (negb (o_price o =? 0)) InvalidOrderLimitPrice in
  do! validate (negb (o_trigger_price o =? 0)) InvalidOrderTrigger in
  do! validate (negb (o_post_only o)) InvalidOrderPostOnly in
  validate (negb (has_oracle_price_offset o)) InvalidOrderOracleOffset.

Definition validate_trigger_market_order (o : Order) (step_size min_order_size : Z) : DriftResult unit :=
  do! validate_base_asset_amount o step_size min_order_size (o_reduce_only o) in
  do! validate (trigger_condition_pending o) InvalidTriggerOrderCondition in
  do! validate (negb (0 <? o_price o)) InvalidOrderLimitPrice in
  do! validate (negb (o_trigger_price o =? 0)) InvalidOrderTrigger in
  do! validate (negb (o_post_only o)) InvalidOrderPostOnly in
  validate (negb (has_oracle_price_offset o)) InvalidOrderOracleOffset.

Definition validate_order (o : Order) (m : PerpMarket) (valid_oracle_price : option Z) (slot : Z) : DriftResult unit :=
  let step := order_step_size (amm m) in
  let small := min_order_size (amm m) in
  do! match o_order_type o with
      | MarketOrder => validate_market_order o step small
      | LimitOrder => validate_limit_order o m valid_oracle_price slot
      | TriggerMarket => validate_trigger_market_order o step small
      | TriggerLimit => validate_trigger_limit_order o step small
      | OracleOrder => validate_oracle_order o step small
      end in
  if is_prediction_market m then
    do! validate (o_price o <=? MAX_PREDICTION_MARKET_PRICE) InvalidPredictionMarketOrder in
    do! validate (Z.abs (o_auction_start_price o) <=? MAX_PREDICTION_MARKET_PRICE) InvalidPredictionMarketOrder in
    do! validate (Z.abs (o_auction_end_price o) <=? MAX_PREDICTION_MARKET_PRICE) InvalidPredictionMarketOrder in
    validate (Z.abs (o_oracle_price_offset o) <=? MAX_PREDICTION_MARKET_PRICE) InvalidPredictionMarketOrder
  else Ok tt.

End Fulfil.

Definition validate_spot_limit_order (o : Order) (step_size min_order_size : Z) : DriftResult unit :=
  do! validate_base_asset_amount o step_size min_order_size (o_reduce_only o) in
  do! validate (negb ((o_price o =? 0) && negb (has_oracle_price_offset o))) InvalidOrderLimitPrice in
  do! validate (negb (has_oracle_price_offset o && negb (o_price o =? 0))) InvalidOrderOracleOffset in
  do! validate (negb (0 <? o_trigger_price o)) InvalidOrderTrigger in
  do! validate (negb (o_post_only o && has_auction o)) InvalidOrder in
  validate_limit_order_auction_params o.

Definition validate_spot_order (o : Order) (step_size min_order_size : Z) : DriftResult unit :=
  match o_order_type o with
  | MarketOrder => validate_market_order o step_size min_order_size
  | LimitOrder => validate_spot_limit_order o step_size min_order_size
  | TriggerMarket => validate_trigger_market_order o step_size min_order_size
  | TriggerLimit => validate_trigger_limit_order o step_size min_order_size
  | OracleOrder => validate_oracle_order o step_size min_order_size
  end.

Definition validate_order_for_force_reduce_only (o : Order) (existing_position : Z) : DriftResult unit :=
  do! validate (o_reduce_only o) InvalidOrderNotRiskReducing in
  do! validate (negb (existing_position =? 0)) InvalidOrderNotRiskReducing in
  validate (negb (bool_decide (o_direction o = if 0 <? existing_position then Long else Short))) InvalidOrderNotRiskReducing.

(** * Proofs *)

Lemma get_auction_duration_range x p t n : get_auction_duration x p t = Ok n -> 1 <= n <= 180.
Proof.
  unfold get_auction_duration. intros H. apply obind_Ok in H as (a & _ & H). apply obind_Ok in H as (b & _ & H).
  cbv zeta in H. apply obind_Ok in H as (c & _ & H). apply obind_Ok in H as (e & _ & [= <-]). lia.
Qed.

(** No worse for the user than [worst]. *)
Definition within (d : PositionDirection) (worst x : Z) : Prop := match d with Long => x <= worst | Short => worst <= x end.

Lemma within_price_within d worst x : within d worst (within_price d worst x).
Proof. destruct d; cbn; lia. Qed.

Record auction_within (p q : OrderParams) (worst : Z) : Prop := {
  aw_start : exists s, op_auction_start_price q = Some s /\ within (op_direction p) worst s;
  aw_end : exists z, op_auction_end_price q = Some z /\ within (op_direction p) worst z;
  aw_duration : op_auction_duration q = op_auction_duration p
    \/ exists n, op_auction_duration q = Some n /\ 1 <= n <= Z.max 180 (default 0 (op_auction_duration p));
}.

(** What is not the auction. *)
Definition same_order (p q : OrderParams) : Prop :=
  q = p <| op_auction_duration := op_auction_duration q |> <| op_auction_start_price := op_auction_start_price q |>
        <| op_auction_end_price := op_auction_end_price q |>.

Lemma update_duration_Ok p price t s q :
  update_duration p price t s = Ok q ->
  same_order p q /\ op_auction_start_price q = op_auction_start_price p /\ op_auction_end_price q = op_auction_end_price p
  /\ is_Some (op_auction_start_price p) /\ is_Some (op_auction_end_price p)
  /\ (op_auction_duration q = op_auction_duration p
      \/ exists n, op_auction_duration q = Some n /\ 1 <= n <= Z.max 180 (default 0 (op_auction_duration p))).
Proof.
  unfold update_duration, same_order. destruct p as [? ? ? ? ? ? ? ? ? ? ? ? ? ? n a z]. cbn. intros H.
  destruct z as [z|]; [|done]. destruct a as [a|]; [|done]. cbn in H.
  apply obind_Ok in H as (x & _ & H). apply obind_Ok in H as (k & Hk%get_auction_duration_range & [= <-]).
  destruct (_ || _); cbn; split_and!; try done; [right|by left]. eexists; split; [done|]. lia.
Qed.

Lemma improve_auction_same p a b s q :
  improve_auction p a b s = Ok q -> same_order p q /\ op_auction_duration q = op_auction_duration p.
Proof.
  unfold improve_auction, same_order. destruct p as [? ? ? ? ? ? ? ? ? ? ? ? ? ? n st z]. cbn. intros H.
  apply obind_Ok in H as (r & Hr & [= <-]).
  assert (exists st', r = mkOrderParams op_order_type0 op_market_type0 op_direction0 op_user_order_id0 op_base_asset_amount0
    op_price0 op_market_index0 op_reduce_only0 op_post_only0 op_bit_flags0 op_max_ts0 op_trigger_price0
    op_trigger_condition0 op_oracle_price_offset0 n st' z) as [st' ->].
  { destruct st; [|injection Hr as <-; by eexists].
    apply obind_Ok in Hr as (x & _ & Hr). apply obind_Ok in Hr as (y & _ & Hr). apply obind_Ok in Hr as (w & _ & [= <-]).
    destruct (match op_direction0 with Long => _ | Short => _ end); by eexists. }
  destruct z; cbn; done.
Qed.

Lemma set_auction_same p m o s q :
  set_auction_if_crossing p m o s = Ok (Some q) -> same_order p q /\ op_auction_duration q = op_auction_duration p.
Proof.
  unfold set_auction_if_crossing, same_order. destruct p as [? ? d ? ? ? ? ? ? ? ? ? ? ? n st z]. cbn. intros H.
  destruct d; apply obind_Ok in H as (x & _ & H); apply obind_Ok in H as (e & _ & H); apply obind_Ok in H as (e' & _ & H);
    apply obind_Ok in H as (c & _ & H); destruct c; cbn in H; try done;
    destruct (negb _); [apply obind_Ok in H as (y & _ & [= <-])|injection H as <-|apply obind_Ok in H as (y & _ & [= <-])|injection H as <-];
    done.
Qed.

(** The auction of a limit order stays within its limit.  An order without an
    auction whose limit does not cross the curve's price, a post-only order and
    one without a price are left as they are; for every other order the update
    leaves an auction whose two ends are no worse than the limit - the limit price,
    or the offset of an order that follows the oracle -, with a duration of at most
    180 slots or the one asked for, and changes nothing else of the order. *)
Theorem limit_auction_within_limit p m oracle_price signed q changed :
  update_perp_auction_params_limit_orders p m oracle_price signed = Ok (q, changed) ->
  (q = p /\ changed = false)
  \/ same_order p q
     /\ auction_within p q (if default 0 (op_oracle_price_offset p) =? 0 then iwrap 64 (op_price p)
                            else default 0 (op_oracle_price_offset p)).
Proof.
  unfold update_perp_auction_params_limit_orders. intros H.
  destruct (negb (bool_decide _)); [left; by injection H as <- <-|].
  destruct (_ && _); [left; by injection H as <- <-|].
  apply obind_Ok in H as (st & _ & H). apply obind_Ok in H as (ns & _ & H). cbv zeta in H.
  apply obind_Ok in H as ([r|] & Hr & H); [right|left; by injection H as <- <-].
  apply obind_Ok in H as (q' & Hq & [= <- <-]).
  assert (same_order p r /\ op_auction_duration r = op_auction_duration p) as [Hs Hd].
  { destruct (default 0 (op_auction_duration p) =? 0); [by eapply set_auction_same|].
    apply obind_Ok in Hr as (r' & Hr & [= ->]). by eapply improve_auction_same. }
  apply update_duration_Ok in Hq as (Hs' & Ha & Hz & [a Ea] & [z Ez] & Hn).
  assert (op_direction r = op_direction p /\ op_oracle_price_offset r = op_oracle_price_offset p /\ op_price r = op_price p)
    as (Ed & Eo & Ep) by (unfold same_order in Hs; rewrite Hs; done).
  split.
  - clear -Hs Hs'. unfold same_order, clamp_auction in *. destruct p, r, q'. cbn in *.
    injection Hs as -> -> -> -> -> -> -> -> -> -> -> -> -> ->. injection Hs' as -> -> -> -> -> -> -> -> -> -> -> -> -> ->. done.
  - clear Hs Hs'. unfold clamp_auction in *. cbn -[within within_price] in *. try rewrite Ed in *. try rewrite Eo in *. try rewrite Ep in *.
    destruct (op_auction_start_price r) as [a0|]; [|done]. destruct (op_auction_end_price r) as [z0|]; [|done].
    cbn -[within within_price] in *. rewrite Hd in Hn.
    destruct (default 0 (op_oracle_price_offset p) =? 0); cbn -[within within_price] in *;
      (split; [eexists; split; [exact Ha|apply within_price_within]
              |eexists; split; [exact Hz|apply within_price_within]|exact Hn]).
Qed.

Lemma same_order_trans p q r : same_order p q -> same_order q r -> same_order p r.
Proof.
  unfold same_order. intros H1 H2. destruct p, q, r. cbn in *.
  injection H1 as -> -> -> -> -> -> -> -> -> -> -> -> -> ->. injection H2 as -> -> -> -> -> -> -> -> -> -> -> -> -> ->. done.
Qed.

Lemma sanitize_same p m o b s q : sanitize_auction p m o b s = Ok q -> same_order p q.
Proof.
  unfold sanitize_auction. intros H. destruct (can_sanitize_market_order_auctions m); [|injection H as <-; by destruct p].
  apply obind_Ok in H as ([x y] & _ & H). apply obind_Ok in H as (a & _ & H). apply obind_Ok in H as (c & _ & H). cbv zeta in H.
  apply obind_Ok in H as (d & _ & H). apply obind_Ok in H as (e & _ & [= <-]). by destruct p.
Qed.

(** The update of an auction changes nothing else of the order. *)
Lemma update_perp_auction_params_same p m o s q b : update_perp_auction_params p m o s = Ok (q, b) -> same_order p q.
Proof.
  assert (forall is_market, update_perp_auction_params_market_and_oracle_orders p m o is_market s = Ok (q, b) -> same_order p q) as Hmo.
  { intros is_market H. unfold update_perp_auction_params_market_and_oracle_orders in H.
    destruct (op_auction_duration p), (op_auction_start_price p), (op_auction_end_price p);
      try (apply obind_Ok in H as ([[ra rz] rn] & _ & [= <- _]); by destruct p).
    apply obind_Ok in H as (r & Hr%sanitize_same & H). apply obind_Ok in H as (q' & Hq & [= <- _]).
    apply update_duration_Ok in Hq as [Hq _]. by eapply same_order_trans. }
  intros H. unfold update_perp_auction_params in H.
  destruct (op_order_type p); try (by injection H as <- _; destruct p); try (by eapply Hmo).
  unfold update_perp_auction_params_limit_orders in H.
  destruct (negb _); [injection H as <- _; by destruct p|]. destruct (_ && _); [injection H as <- _; by destruct p|].
  apply obind_Ok in H as (st & _ & H). apply obind_Ok in H as (ns & _ & H). cbv zeta in H.
  apply obind_Ok in H as ([r|] & Hr & H); [|injection H as <- _; by destruct p].
  apply obind_Ok in H as (q' & Hq & [= <- _]). apply update_duration_Ok in Hq as [Hq _].
  assert (same_order p r) as Hpr.
  { destruct (default 0 (op_auction_duration p) =? 0); [by eapply set_auction_same|].
    apply obind_Ok in Hr as (r' & Hr & [= ->]). by eapply improve_auction_same. }
  eapply same_order_trans; [exact Hpr|]. eapply same_order_trans; [|exact Hq]. by destruct r.
Qed.
