(* ===== verification/DriftOrders.v ===== *)
(** Placing, cancelling and triggering orders: [controller/orders.rs] without the
    fills, [calculate_max_perp_order_size] of [math/orders.rs], the trigger price
    of [state/perp_market.rs] and [state/high_leverage_mode_config.rs].

    A user's open orders are counted in his account and in the position of their
    market, which also adds up what they would buy and sell; margins are
    calculated from those sums.  The theorem: whatever is placed, cancelled,
    expired or triggered, the counters and the sums are those of the orders that
    are open. *)
From stdpp Require Import gmap.
From S2P Require Import Prelude.
From S2P Require Import RecordUpdate.
From S2P Require Import DriftError.
From S2P Require Import DriftMath.
From S2P Require Import DriftSpotMarket.
From S2P Require Import DriftTypes.
From S2P Require Import DriftOracle.
From S2P Require Import DriftOrderMath.
From S2P Require Import DriftAmm.
From S2P Require Import DriftSpread.
From S2P Require Import DriftPosition.
From S2P Require Import DriftUser.
From S2P Require Import DriftFunding.
From S2P Require Import DriftOracleMap.
From S2P Require Import DriftMargin.
From S2P Require Import DriftLiquidation.
From S2P Require Import DriftFees.
From S2P Require Import DriftOrderParams.

(** ** Configuration *)

(** The fields of [State] the controllers use; the bands are [price_divergence]. *)
Record State := mkState {
  oracle_guard_rails : OracleGuardRails;
  perp_fee_structure : FeeStructure;
  spot_fee_structure : FeeStructure;
  liquidation_margin_buffer_ratio : Z;
  settlement_duration : Z;
  min_perp_auction_duration : Z;
  default_spot_auction_duration : Z;
  feature_bit_flags : Z;
}.
Definition use_median_trigger_price (s : State) : bool := 0 <? Z.land (feature_bit_flags s) 2.

Record HighLeverageModeConfig := mkHighLeverageModeConfig {
  max_users : Z;
  current_users : Z;
  hl_reduce_only : Z;
  current_maintenance_users : Z;
}.

Definition hl_is_reduce_only (c : HighLeverageModeConfig) : bool := 0 <? hl_reduce_only c.
Definition is_full (c : HighLeverageModeConfig) : bool := (max_users c <=? current_users c) || hl_is_reduce_only c.
Definition hl_validate (c : HighLeverageModeConfig) : DriftResult unit :=
  validate (current_users c <=? max_users c) InvalidHighLeverageModeConfig.

Definition enable_high_leverage (c : HighLeverageModeConfig) (u : User) : DriftResult (HighLeverageModeConfig * User) :=
  match u_margin_mode u with
  | HighLeverage => Ok (c, u)
  | mode =>
      let maintenance := match mode with
                         | HighLeverageMaintenance => usat 32 (current_maintenance_users c - 1)
                         | _ => current_maintenance_users c end in
      do! validate (negb (hl_is_reduce_only c)) DefaultError in
      let! n := safe_u 32 (current_users c + 1) in
      let c := mkHighLeverageModeConfig (max_users c) n (hl_reduce_only c) maintenance in
      do! hl_validate c in
      Ok (c, u <| u_margin_mode := HighLeverage |>)
  end.

(** ** Cancelling *)

Definition update_position (u : User) (i : nat) (f : PerpPosition -> DriftResult PerpPosition) : DriftResult User :=
  let! p := idx (u_perp_positions u) (Z.of_nat i) in
  let! p := f p in
  let! l := set_idx (u_perp_positions u) (Z.of_nat i) p in
  Ok (u <| u_perp_positions := l |>).
Definition update_spot_position (u : User) (i : nat) (f : SpotPosition -> DriftResult SpotPosition) : DriftResult User :=
  let! p := idx (u_spot_positions u) (Z.of_nat i) in
  let! p := f p in
  let! l := set_idx (u_spot_positions u) (Z.of_nat i) p in
  Ok (u <| u_spot_positions := l |>).
Definition update_order (u : User) (i : nat) (o : Order) : DriftResult User :=
  let! l := set_idx (u_orders u) (Z.of_nat i) o in Ok (u <| u_orders := l |>).

Definition increase_spot_open_bids_and_asks (p : SpotPosition) (d : PositionDirection) (unfilled : Z) (update : bool) :
    DriftResult SpotPosition :=
  if negb update then Ok p
  else
    let! x := cast_i 64 unfilled in
    match d with
    | Long => let! b := safe_i 64 (sp_open_bids p + x) in Ok (p <| sp_open_bids := b |>)
    | Short => let! k := safe_i 64 (sp_open_asks p - x) in Ok (p <| sp_open_asks := k |>)
    end.

Definition decrease_spot_open_bids_and_asks (p : SpotPosition) (d : PositionDirection) (unfilled : Z) (update : bool) :
    DriftResult SpotPosition :=
  if negb update then Ok p
  else
    let! x := cast_i 64 unfilled in
    match d with
    | Long => let! b := safe_i 64 (sp_open_bids p - x) in Ok (p <| sp_open_bids := Z.max b 0 |>)
    | Short => let! k := safe_i 64 (sp_open_asks p + x) in Ok (p <| sp_open_asks := Z.min k 0 |>)
    end.

(** Takes an order's unfilled amount and the order itself off its position. *)
Definition release_perp (ord : Order) (p : PerpPosition) : DriftResult PerpPosition :=
  let! p :=
    if update_open_bids_and_asks ord then
      let! unfilled := get_base_asset_amount_unfilled ord None in
      decrease_open_bids_and_asks p (o_direction ord) unfilled true
    else Ok p in
  let! n := uchk 8 (pp_open_orders p - 1) in
  Ok (p <| pp_open_orders := n |>).
Definition release_spot (ord : Order) (p : SpotPosition) : DriftResult SpotPosition :=
  let! p :=
    if update_open_bids_and_asks ord then
      let! unfilled := get_base_asset_amount_unfilled ord None in
      decrease_spot_open_bids_and_asks p (o_direction ord) unfilled true
    else Ok p in
  let! n := uchk 8 (sp_open_orders p - 1) in
  Ok (p <| sp_open_orders := n |>).

(** The record of the cancellation needs the price of the oracle and, of a
    perpetual order, the position. *)
Definition log_cancel (ord : Order) (u : User) (o : OracleMap) (oracle_id : OracleIdentifier) : DriftResult OracleMap :=
  do! match o_market_type ord with
      | Perp => let! _ := get_position_index (u_perp_positions u) (o_market_index ord) in Ok tt
      | Spot => Ok tt
      end in
  let! '(_, o) := get_price_data o oracle_id in
  Ok o.

Definition cancel_order (order_index : nat) (u : User) (ms : Markets) (o : OracleMap) (skip_log : bool) :
    DriftResult (User * OracleMap) :=
  let! ord := idx (u_orders u) (Z.of_nat order_index) in
  do! validate (bool_decide (o_status ord = OrderOpen)) OrderNotOpen in
  let! oracle_id :=
    match o_market_type ord with
    | Perp => let! m := perp_get_ref (mk_perps ms) (o_market_index ord) in Ok (perp_oracle_id m)
    | Spot => let! m := spot_get_ref (mk_spots ms) (o_market_index ord) in Ok (spot_oracle_id m)
    end in
  let! o := if skip_log then Ok o else log_cancel ord u o oracle_id in
  let u := decrement_open_orders u (has_auction ord) in
  let! u :=
    match o_market_type ord with
    | Perp =>
        let! i := get_position_index (u_perp_positions u) (o_market_index ord) in
        update_position u i (release_perp ord)
    | Spot =>
        let! i := get_spot_position_index u (o_market_index ord) in
        update_spot_position u i (release_spot ord)
    end in
  let! u := update_order u order_index (ord <| o_status := OrderCanceled |>) in
  Ok (u, o).

(** Cancels the orders [select] picks, in the order of their places; their ids. *)
Definition cancel_selected (select : Order -> bool) (ms : Markets) (skip_log : bool) (s : User * OracleMap * list Z)
    (i : nat) : DriftResult (User * OracleMap * list Z) :=
  let '(u, o, ids) := s in
  let! ord := idx (u_orders u) (Z.of_nat i) in
  if select ord then
    let! '(u, o) := cancel_order i u ms o skip_log in Ok (u, o, ids ++ [o_order_id ord])
  else Ok s.
Definition cancel_all (select : Order -> bool) (u : User) (ms : Markets) (o : OracleMap) (skip_log : bool) :
    DriftResult (User * OracleMap * list Z) :=
  foldO (cancel_selected select ms skip_log) (u, o, []) (seq 0 (length (u_orders u))).

(** Isolated positions are told from their market index alone. *)
Definition to_cancel (isolated : list Z) (market_type : option MarketType) (market_index : option Z)
    (d : option PositionDirection) (skip_isolated_positions : bool) (ord : Order) : bool :=
  bool_decide (o_status ord = OrderOpen)
  && match market_type, market_index with
     | Some t, Some i => bool_decide (o_market_type ord = t) && (o_market_index ord =? i)
     | _, _ => negb (skip_isolated_positions && bool_decide (o_market_index ord ∈ isolated))
     end
  && match d with Some d => bool_decide (o_direction ord = d) | None => true end.

Definition cancel_orders (u : User) (ms : Markets) (o : OracleMap) (slot : Z) (market_type : option MarketType)
    (market_index : option Z) (d : option PositionDirection) (skip_isolated_positions : bool) :
    DriftResult (User * OracleMap * list Z) :=
  let isolated := map pp_market_index (List.filter is_isolated (u_perp_positions u)) in
  let! '(u, o, ids) := cancel_all (to_cancel isolated market_type market_index d skip_isolated_positions) u ms o false in
  Ok (update_last_active_slot u slot, o, ids).

Definition cancel_order_by_order_id (order_id : Z) (u : User) (ms : Markets) (o : OracleMap) (slot : Z) :
    DriftResult (User * OracleMap) :=
  match get_order_index u order_id with
  | Ok i => let! '(u, o) := cancel_order i u ms o false in Ok (update_last_active_slot u slot, o)
  | _ => Ok (u, o)
  end.

(** The first order with the id, open or not. *)
Definition cancel_order_by_user_order_id (user_order_id : Z) (u : User) (ms : Markets) (o : OracleMap) (slot : Z) :
    DriftResult (User * OracleMap) :=
  match position_of (fun ord => o_user_order_id ord =? user_order_id) (u_orders u) with
  | Some i => let! '(u, o) := cancel_order i u ms o false in Ok (update_last_active_slot u slot, o)
  | None => Ok (u, o)
  end.

Definition expire_orders (u : User) (ms : Markets) (o : OracleMap) (now : Z) : DriftResult (User * OracleMap) :=
  let! '(u, o, _) := cancel_all (fun ord => should_expire_order ord now) u ms o false in Ok (u, o).

Definition cancel_reduce_only_trigger_orders (u : User) (ms : Markets) (o : OracleMap) (perp_market_index : Z) :
    DriftResult (User * OracleMap) :=
  let! '(u, o, _) :=
    cancel_all (fun ord => bool_decide (o_status ord = OrderOpen) && bool_decide (o_market_type ord = Perp)
                           && (o_market_index ord =? perp_market_index) && must_be_triggered ord && negb (triggered ord)
                           && o_reduce_only ord) u ms o false in
  Ok (u, o).

(** ** Sizes *)

Section Place.
Context {roots : Roots}.

Definition clamped_ratio (u : User) (p : PerpPosition) (m : PerpMarket) (size : Z) : DriftResult Z :=
  let! r := get_margin_ratio m size Initial (is_high_leverage_mode u false) in
  Ok (Z.max (Z.max r (u_max_margin_ratio u)) (pp_max_margin_ratio p)).

(** The terms one round of the search for a size works with. *)
Record OrderSizeTerms := mkOrderSizeTerms {
  ost_user : User;
  ost_position : PerpPosition;
  ost_market : PerpMarket;
  ost_worst_case : Z;
  ost_free_collateral : Z;
  ost_released : Z;
  ost_oracle_price : Z;
  ost_quote_oracle_price : Z;
}.

Definition calculate_order_size_and_margin_ratio (t : OrderSizeTerms) (margin_ratio margin_ratio_delta : Z) :
    DriftResult (Z * Z) :=
  let! x := safe_i 128 (ost_worst_case t * ost_oracle_price t) in
  let! x := safe_idiv 128 x BASE_PRECISION in
  let! x := safe_i 128 (x * margin_ratio_delta) in
  let! from_delta := safe_idiv 128 x MARGIN_PRECISION in
  let! x := safe_i 128 (ost_free_collateral t + ost_released t) in
  let! x := safe_i 128 (x - from_delta) in
  let! x := safe_i 128 (x - OPEN_ORDER_MARGIN_REQUIREMENT) in
  let! x := safe_i 128 (x * BASE_PRECISION) in
  let! x := safe_i 128 (x * MARGIN_PRECISION) in
  let! x := safe_idiv 128 x margin_ratio in
  let! x := safe_i 128 (x * PRICE_PRECISION) in
  let! x := safe_idiv 128 x (ost_oracle_price t) in
  let! x := safe_i 128 (x * PRICE_PRECISION) in
  let! x := safe_idiv 128 x (ost_quote_oracle_price t) in
  let! x := safe_idiv 128 x QUOTE_PRECISION in
  let! new_order_size := cast_u 64 x in
  let! worst := safe_i 128 (ost_worst_case t + new_order_size) in
  let! r := clamped_ratio (ost_user t) (ost_position t) (ost_market t) (Z.abs worst) in
  Ok (new_order_size, r).

(** At most six rounds. *)
Fixpoint find_order_size (n : nat) (t : OrderSizeTerms) (margin_ratio updated_margin_ratio margin_ratio_delta order_size : Z) :
    DriftResult Z :=
  match n with
  | O => Ok order_size
  | S n =>
      let! '(new_order_size, new_margin_ratio) := calculate_order_size_and_margin_ratio t updated_margin_ratio margin_ratio_delta in
      if new_margin_ratio =? updated_margin_ratio then Ok new_order_size
      else
        let! a := cast_i 32 new_margin_ratio in
        let! b := cast_i 32 margin_ratio in
        let! d := safe_i 32 (a - b) in
        find_order_size n t margin_ratio new_margin_ratio d new_order_size
  end.

Definition calculate_max_perp_order_size (u : User) (position_index : nat) (market_index : Z) (d : PositionDirection)
    (ms : Markets) (o : OracleMap) : DriftResult (Z * OracleMap) :=
  let! '(c, o) := calculate_margin_requirement_and_total_collateral_and_liability_info u ms o (standard Initial <| strict := true |>) in
  let! p := idx (u_perp_positions u) (Z.of_nat position_index) in
  let! free := if is_isolated p then get_isolated_free_collateral c market_index else get_cross_free_collateral c in
  let! free_collateral_before := cast_i 128 free in
  let! m := perp_get_ref (mk_perps ms) market_index in
  let! '(od, o) := get_price_data o (perp_oracle_id m) in
  let! q := spot_get_ref (mk_spots ms) (quote_spot_market_index m) in
  let! '(qd, o) := get_price_data o (spot_oracle_id q) in
  let quote_oracle_price := Z.max (price qd) (last_oracle_price_twap_5min (historical_oracle_data q)) in
  let! '(worst, value) := worst_case_liability_value p (price od) (contract_type m) in
  let! margin_ratio := clamped_ratio u p m (Z.abs worst) in
  let released :=
    let! x := safe_u 128 (value * margin_ratio) in
    let! x := safe_udiv x MARGIN_PRECISION in cast_i 128 x in
  let! '(order_size_to_reduce_position, free_collateral_released) :=
    match d with
    | Long =>
        if worst <? 0 then
          let! a := ichk 128 (Z.abs worst) in
          let! a := cast_i 64 a in
          let! x := safe_i 64 (a - pp_open_bids p) in
          let! r := released in Ok (Z.max x 0, r)
        else Ok (0, 0)
    | Short =>
        if 0 <? worst then
          let! a := cast_i 64 worst in
          let! x := safe_i 64 (a + pp_open_asks p) in
          let! r := released in Ok (Z.max x 0, r)
        else Ok (0, 0)
    end in
  if free_collateral_before <=? 0 then
    let! s := standardize_base_asset_amount order_size_to_reduce_position (order_step_size (amm m)) in Ok (s, o)
  else
    let! oracle_price :=
      if negb (is_prediction_market m) || bool_decide (d = Long) then Ok (price od)
      else safe_i 64 (MAX_PREDICTION_MARKET_PRICE - price od) in
    let t := mkOrderSizeTerms u p m worst free_collateral_before free_collateral_released oracle_price quote_oracle_price in
    let! order_size := find_order_size 6 t margin_ratio margin_ratio 0 0 in
    let! x := safe_u 64 (order_size + order_size_to_reduce_position) in
    let! s := standardize_base_asset_amount x (order_step_size (amm m)) in
    Ok (s, o).

(** ** Placing *)

Definition market_is_reduce_only (m : PerpMarket) : bool := bool_decide (pm_status m = ReduceOnly).
Definition is_in_settlement (m : PerpMarket) (now : Z) : bool :=
  bool_decide (pm_status m = Settlement) || bool_decide (pm_status m = Delisted)
  || (negb (expiry_ts m =? 0) && (expiry_ts m <=? now)).

(** [get_then_update_id!]: the id after the last is 1. *)
Definition take_order_id (u : User) : User * Z :=
  let id := u_next_order_id u in
  (u <| u_next_order_id := if id + 1 <=? umax 32 then id + 1 else 1 |>, id).

(** The expiry of a new order. *)
Definition order_max_ts (p : OrderParams) (now auction_duration : Z) : DriftResult Z :=
  match op_max_ts p with
  | Some t => Ok t
  | None =>
      match op_order_type p with
      | MarketOrder | OracleOrder =>
          let! half := safe_udiv auction_duration 2 in
          let! x := safe_i 64 (half + 10) in
          safe_i 64 (now + Z.max 30 x)
      | _ => Ok 0
      end
  end.

Definition order_bit_flags (p : OrderParams) (opts : PlaceOrderOptions) (reduce_only has_builder isolated : bool) : Z :=
  let f := set_order_bit_flag 0 (is_signed_msg_order opts) SignedMessage in
  let f := set_order_bit_flag f (is_trigger_order p && reduce_only) NewTriggerReduceOnly in
  let f := if has_builder then set_order_bit_flag f true HasBuilder else f in
  if isolated then set_order_bit_flag f true IsIsolatedPosition else f.

(** The market's limit on open interest. *)
Definition check_open_interest (m : PerpMarket) (d : PositionDirection) (base : Z) : DriftResult unit :=
  let! x := match d with
            | Long => safe_i 128 (base_asset_amount_long (amm m) + base)
            | Short => safe_i 128 (base_asset_amount_short (amm m) - base) end in
  validate (Z.abs x <=? max_open_interest (amm m)) MaxOpenInterest.

(** Writes the order to its place and books it. *)
Definition book_order (u : User) (new_order_index position_index : nat) (ord : Order) : DriftResult User :=
  let u := increment_open_orders u (has_auction ord) in
  let! u := update_order u new_order_index ord in
  update_position u position_index (fun p =>
    let! n := uchk 8 (pp_open_orders p + 1) in
    increase_open_bids_and_asks (p <| pp_open_orders := n |>) (o_direction ord) (o_base_asset_amount ord)
      (update_open_bids_and_asks ord)).

(** The size of a new order; the largest possible when the maximum is asked for. *)
Definition new_order_size (p : OrderParams) (u : User) (position_index : nat) (m : PerpMarket) (ms : Markets) (o : OracleMap) :
    DriftResult (Z * OracleMap) :=
  do! validate (order_step_size (amm m) <=? op_base_asset_amount p) OrderAmountTooSmall in
  if is_max_leverage_order p && negb (is_trigger_order p && op_reduce_only p) then
    calculate_max_perp_order_size u position_index (op_market_index p) (op_direction p) ms o
  else let! s := standardize_base_asset_amount (op_base_asset_amount p) (order_step_size (amm m)) in Ok (s, o).

(** The order the parameters describe. *)
Definition new_order (p : OrderParams) (opts : PlaceOrderOptions) (m : PerpMarket) (slot order_id base : Z)
    (existing : PositionDirection) (auction : Z * Z * Z) (max_ts : Z) (reduce_only : bool) (flags : Z) : DriftResult Order :=
  let '(a, z, n) := auction in
  let! limit := get_price_for_perp_order (op_price p) (op_direction p) (op_post_only p) (amm m) in
  let! trigger := standardize_price (default 0 (op_trigger_price p)) (order_tick_size (amm m)) (op_direction p) in
  Ok (mkOrder (get_order_slot opts slot) limit base 0 0 trigger a z max_ts (default 0 (op_oracle_price_offset p)) order_id
        (op_market_index p) OrderOpen (op_order_type p) (op_market_type p) (op_user_order_id p) existing (op_direction p)
        reduce_only (negb (bool_decide (op_post_only p = PostOnlyNone))) (is_immediate_or_cancel p) (op_trigger_condition p)
        n (get_posted_slot_from_clock_slot slot) flags).

(** Before the order: high leverage, expired orders, a free place, the id. *)
Definition prepare_placement (s : State) (u : User) (ms : Markets) (o : OracleMap) (hl : option HighLeverageModeConfig)
    (now : Z) (p : OrderParams) (opts : PlaceOrderOptions) :
    DriftResult (User * OracleMap * option HighLeverageModeConfig * nat) :=
  let! '(u, o) := if is_liquidation opts then Ok (u, o)
                  else validate_user_not_being_liquidated u ms o (liquidation_margin_buffer_ratio s) in
  do! validate (negb (user_is_bankrupt u)) UserBankrupt in
  let! '(hl, u) :=
    if is_update_high_leverage_mode p then
      match hl with
      | Some c => if negb (is_full c) || is_max_leverage_order p
                  then let! '(c, u) := enable_high_leverage c u in Ok (Some c, u) else Ok (hl, u)
      | None => Err InvalidOrder
      end
    else Ok (hl, u) in
  let! '(u, o) := if try_expire_orders opts then expire_orders u ms o now else Ok (u, o) in
  do! validate (negb (is_reduce_only u) || op_reduce_only p) DriftError.UserReduceOnly in
  let! i := ok_or (position_of order_is_available (u_orders u)) MaxNumberOfOrders in
  do! validate (negb ((0 <? op_user_order_id p)
         && existsb (fun x => (o_user_order_id x =? op_user_order_id p) && negb (order_is_available x)) (u_orders u)))
      UserOrderIdAlreadyInUse in
  Ok (u, o, hl, i).

(** The market must take orders. *)
Definition check_market_open (u : User) (m : PerpMarket) (now : Z) : DriftResult unit :=
  do! validate (negb (bool_decide (pm_status m = Initialized))) MarketBeingInitialized in
  do! validate (u_pool_id u =? 0) InvalidPoolId in
  validate (negb (is_in_settlement m now)) MarketPlaceOrderPaused.

(** After the order: margin, reduce-only market, open interest. *)
Definition check_placement (u : User) (ms : Markets) (o : OracleMap) (m : PerpMarket) (p : OrderParams)
    (opts : PlaceOrderOptions) (ord : Order) (position_index : nat) (risk_increasing : bool) : DriftResult OracleMap :=
  let! pos := idx (u_perp_positions u) (Z.of_nat position_index) in
  let! o :=
    if enforce_margin_check opts && negb (is_liquidation opts) then
      meets_place_order_margin_requirement u ms o (opt_risk_increasing opts)
        (if is_isolated pos then Some (op_market_index p) else None)
    else Ok o in
  do! if market_is_reduce_only m then validate_order_for_force_reduce_only ord (pp_base_asset_amount pos) else Ok tt in
  do! if negb (max_open_interest (amm m) =? 0) && risk_increasing
      then check_open_interest m (op_direction p) (o_base_asset_amount ord) else Ok tt in
  Ok o.

(** The updated auction of the parameters, and the order's. *)
Definition auction_of_params (s : State) (p : OrderParams) (opts : PlaceOrderOptions) (m : PerpMarket) (oracle_price : Z) :
    DriftResult (OrderParams * (Z * Z * Z)) :=
  let! '(p, _) := if is_liquidation opts then Ok (p, false)
                  else update_perp_auction_params p m oracle_price (is_signed_msg_order opts) in
  let! auction := get_auction_params p oracle_price (order_tick_size (amm m)) (min_perp_auction_duration s) in
  Ok (p, auction).

(** [has_builder] stands for an order of a builder; nothing else of it is used. *)
Definition place_perp_order (s : State) (u : User) (ms : Markets) (o : OracleMap) (hl : option HighLeverageModeConfig)
    (now slot : Z) (p : OrderParams) (opts : PlaceOrderOptions) (has_builder : bool) :
    DriftResult (User * OracleMap * option HighLeverageModeConfig) :=
  let! '(u, o, hl, new_order_index) := prepare_placement s u ms o hl now p opts in
  let! m := perp_get_ref (mk_perps ms) (op_market_index p) in
  do! check_market_open u m now in
  let! '(u, position_index) := force_get_perp_position_index u (op_market_index p) in
  let! '(base, o) := new_order_size p u position_index m ms o in
  let! pos := idx (u_perp_positions u) (Z.of_nat position_index) in
  let existing := match existing_position_direction_override opts with
                  | Some d => d | None => if 0 <=? pp_base_asset_amount pos then Long else Short end in
  let! '(od, o) := get_price_data o (perp_oracle_id m) in
  let! '(p, auction) := auction_of_params s p opts m (price od) in
  let! max_ts := order_max_ts p now auction.2 in
  if negb (max_ts =? 0) && (max_ts <? now) then Ok (u, o, hl)
  else
    do! validate (bool_decide (op_market_type p = Perp)) InvalidOrderMarketType in
    let reduce_only := op_reduce_only p || market_is_reduce_only m in
    let flags := order_bit_flags p opts reduce_only has_builder (is_isolated pos) in
    let '(u, order_id) := take_order_id u in
    let! ord := new_order p opts m slot order_id base existing auction max_ts reduce_only flags in
    match validate_order ord m (Some (price od)) slot with
    | Err PlacePostOnlyLimitFailure =>
        if bool_decide (op_post_only p = TryPostOnly) then Ok (u, o, hl) else Err PlacePostOnlyLimitFailure
    | Err e => Err e
    | Panic => Panic
    | Ok _ =>
        let! risk_increasing :=
          is_new_order_risk_increasing ord (pp_base_asset_amount pos) (pp_open_bids pos) (pp_open_asks pos) in
        let! u := book_order u new_order_index position_index ord in
        let opts := update_risk_increasing opts risk_increasing in
        let! o := check_placement u ms o m p opts ord position_index risk_increasing in
        Ok (update_last_active_slot u slot, o, hl)
    end.

(** ** Modifying *)

Record ModifyOrderParams := mkModifyOrderParams {
  mp_direction : option PositionDirection;
  mp_base_asset_amount : option Z;
  mp_price : option Z;
  mp_reduce_only : option bool;
  mp_post_only : option PostOnlyParam;
  mp_bit_flags : option Z;
  mp_max_ts : option Z;
  mp_trigger_price : option Z;
  mp_trigger_condition : option OrderTriggerCondition;
  mp_oracle_price_offset : option Z;
  mp_auction_duration : option Z;
  mp_auction_start_price : option Z;
  mp_auction_end_price : option Z;
  mp_policy : option Z;
}.
Definition must_modify (p : ModifyOrderParams) : bool := negb (Z.land (default 0 (mp_policy p)) 1 =? 0).
Definition exclude_previous_fill (p : ModifyOrderParams) : bool := negb (Z.land (default 0 (mp_policy p)) 2 =? 0).

(** The condition of an order before it was triggered. *)
Definition untriggered (c : OrderTriggerCondition) : OrderTriggerCondition :=
  match c with TriggeredAbove | Above => Above | TriggeredBelow | Below => Below end.

Definition merge_modify_order_params_with_existing_order (ord : Order) (q : ModifyOrderParams) :
    DriftResult (option OrderParams) :=
  let! base :=
    match mp_base_asset_amount q with
    | Some b => if exclude_previous_fill q then
                  let b := usat 64 (b - o_base_asset_amount_filled ord) in
                  Ok (if b =? 0 then None else Some b)
                else Ok (Some b)
    | None => let! x := get_base_asset_amount_unfilled ord None in Ok (Some x)
    end in
  let '(n, a, z) := match mp_auction_duration q, mp_auction_start_price q, mp_auction_end_price q with
                    | Some n, Some a, Some z => (Some n, Some a, Some z) | _, _, _ => (None, None, None) end in
  Ok (base ← base;
      Some (mkOrderParams (o_order_type ord) (o_market_type ord) (default (o_direction ord) (mp_direction q))
        (o_user_order_id ord) base (default (o_price ord) (mp_price q)) (o_market_index ord)
        (default (o_reduce_only ord) (mp_reduce_only q))
        (default (if o_post_only ord then MustPostOnly else PostOnlyNone) (mp_post_only q)) 0
        (Some (default (o_max_ts ord) (mp_max_ts q))) (Some (default (o_trigger_price ord) (mp_trigger_price q)))
        (default (untriggered (o_trigger_condition ord)) (mp_trigger_condition q))
        (Some (default (o_oracle_price_offset ord) (mp_oracle_price_offset q))) n a z)).

Inductive ModifyOrderId : Set := ByUserOrderId (id : Z) | ByOrderId (id : Z).

(** Modifying a perpetual order; the placing of a spot order is a parameter. *)
Definition modify_order (place_spot_order : User -> OracleMap -> OrderParams -> DriftResult (User * OracleMap))
    (id : ModifyOrderId) (q : ModifyOrderParams) (s : State) (u : User) (ms : Markets) (o : OracleMap) (now slot : Z) :
    DriftResult (User * OracleMap) :=
  match (match id with ByUserOrderId i => get_order_index_by_user_order_id u i | ByOrderId i => get_order_index u i end) with
  | Err e => if must_modify q then Err e else Ok (u, o)
  | Panic => Panic
  | Ok i =>
      let! ord := idx (u_orders u) (Z.of_nat i) in
      let! '(u, o) := cancel_order i u ms o false in
      let u := update_last_active_slot u slot in
      let! p := merge_modify_order_params_with_existing_order ord q in
      match p with
      | None => Ok (u, o)
      | Some p =>
          match op_market_type p with
          | Perp => let! '(u, o, _) := place_perp_order s u ms o None now slot p default_options false in Ok (u, o)
          | Spot => place_spot_order u o p
          end
      end
  end.

(** ** Triggering *)

Definition get_last_funding_basis (m : PerpMarket) (oracle_price now : Z) : DriftResult Z :=
  let a := amm m in
  if 0 <? last_funding_oracle_twap a then
    let! x := safe_i 128 (last_funding_rate a * PRICE_PRECISION) in
    let! x := safe_idiv 128 x (last_funding_oracle_twap a) in
    let! rate := safe_i 128 (x * 24) in
    let! rate := safe_i 128 (rate - FUNDING_RATE_PRECISION / FUNDING_RATE_OFFSET_DENOMINATOR) in
    let! t := safe_i 64 (now - last_funding_rate_ts a) in
    let time_left := Z.min t (funding_period a) in
    let! x := safe_i 128 (oracle_price * rate) in
    let! x := safe_idiv 128 x PERCENTAGE_PRECISION in
    let! rest := safe_i 64 (funding_period a - time_left) in
    let! x := safe_i 128 (x * rest) in
    let! x := safe_idiv 128 x (funding_period a) in
    cast_i 64 (Z.quot x FUNDING_RATE_BUFFER)
  else Ok 0.

Definition clamp_trigger_price (m : PerpMarket) (oracle_price median_price : Z) : DriftResult Z :=
  let max_bps_diff := match contract_tier m with TierA | TierB => 500 | TierC => 100 | _ => 40 end in
  let! lo := safe_u 64 (oracle_price - oracle_price / max_bps_diff) in
  let! hi := safe_u 64 (oracle_price + oracle_price / max_bps_diff) in
  Ok (Z.min (Z.max median_price lo) hi).

(** The middle one of three sorted prices. *)
Definition median (a b c : Z) : Z := Z.max (Z.min a b) (Z.min (Z.max a b) c).

Definition get_trigger_price (m : PerpMarket) (oracle_price now : Z) (use_median_price : bool) : DriftResult Z :=
  if negb use_median_price then cast_u 64 oracle_price
  else
    let a := amm m in
    let! x := cast_i 64 (last_mark_price_twap_5min a) in
    let! basis_5min := safe_i 64 (x - last_oracle_price_twap_5min (amm_historical_oracle_data a)) in
    let! x := safe_i 64 (oracle_price + basis_5min) in
    let! plus_basis_5min := cast_u 64 x in
    let! basis := get_last_funding_basis m oracle_price now in
    let! x := safe_i 64 (oracle_price + basis) in
    let! plus_funding_basis := cast_u 64 x in
    let first := if 0 <? last_fill_price m then last_fill_price m else Z.abs oracle_price in
    clamp_trigger_price m (Z.abs oracle_price) (median first plus_funding_basis plus_basis_5min).

Definition calculate_auction_params_for_trigger_order (ord : Order) (oracle_price min_auction_duration : Z)
    (m : option PerpMarket) : DriftResult (Z * Z * Z) :=
  match m with
  | Some m =>
      let buffer := if is_as_safe_as_contract (contract_tier m) TierB then -500 else -3500 in
      let! '(a, z, n) :=
        match o_order_type ord with
        | TriggerMarket => derive_oracle_order_auction_params m (o_direction ord) oracle_price None buffer
        | _ => derive_market_order_auction_params m (o_direction ord) oracle_price (o_price ord) buffer
        end in
      Ok (Z.max min_auction_duration n, a, z)
  | None =>
      let! '(a, z) := calculate_auction_prices oracle_price (o_direction ord) (o_price ord) in
      Ok (min_auction_duration, a, z)
  end.

Definition update_trigger_order_params (ord : Order) (oracle_price slot min_auction_duration : Z) (m : option PerpMarket) :
    DriftResult Order :=
  let! c := match o_trigger_condition ord with
            | Above => Ok TriggeredAbove | Below => Ok TriggeredBelow | _ => Err InvalidTriggerOrderCondition end in
  let safe := (150 <? usat 64 (slot - o_slot ord)) && o_reduce_only ord in
  let ord := ord <| o_trigger_condition := c |> in
  let ord := (if safe then add_bit_flag ord SafeTriggerOrder else ord) <| o_slot := slot |> in
  let! '(n, a, z) := calculate_auction_params_for_trigger_order ord oracle_price min_auction_duration m in
  let ord := ord <| o_auction_duration := n |> <| o_auction_start_price := a |> <| o_auction_end_price := z |> in
  Ok (match o_order_type ord with TriggerMarket => add_bit_flag ord OracleTriggerMarket | _ => ord end).

(** The keeper's reward is taken from the user first; a keeper without a free
    position gets none of it. *)
Definition pay_keeper_flat_reward_for_perps (u : User) (filler : option User) (m : PerpMarket) (filler_reward slot : Z) :
    DriftResult (User * option User * PerpMarket * Z) :=
  match filler with
  | None => Ok (u, None, m, 0)
  | Some f =>
      let! i := get_position_index (u_perp_positions u) (pm_market_index m) in
      let! r := cast_i 64 filler_reward in
      let! p := idx (u_perp_positions u) (Z.of_nat i) in
      let! '(p, m) := update_quote_asset_and_break_even_amount p m (- r) in
      let! l := set_idx (u_perp_positions u) (Z.of_nat i) p in
      let u := u <| u_perp_positions := l |> in
      let f := update_last_active_slot f slot in
      match force_get_perp_position_index f (pm_market_index m) with
      | Ok (f, j) =>
          let! q := idx (u_perp_positions f) (Z.of_nat j) in
          let! '(q, m) := update_quote_asset_amount q m r in
          let! l := set_idx (u_perp_positions f) (Z.of_nat j) q in
          Ok (u, Some (f <| u_perp_positions := l |>), m, filler_reward)
      | Err _ => Ok (u, Some f, m, 0)
      | Panic => Panic
      end
  end.

(** Marks the order triggered and books it. *)
Definition book_trigger (u : User) (order_index : nat) (market_index oracle_price slot : Z) (m : PerpMarket) :
    DriftResult User :=
  let! ord := idx (u_orders u) (Z.of_nat order_index) in
  let! ord := update_trigger_order_params ord oracle_price slot 20 (Some m) in
  let! u := update_order u order_index ord in
  let u := if has_auction ord then increment_open_auctions u else u in
  let! i := get_position_index (u_perp_positions u) market_index in
  update_position u i (fun p =>
    increase_open_bids_and_asks p (o_direction ord) (o_base_asset_amount ord) (update_open_bids_and_asks ord)).

(** The oracle's price must be good enough, near its average, and past the
    order's trigger. *)
Definition check_trigger (s : State) (m : PerpMarket) (o : OracleMap) (ord : Order) (now : Z) : DriftResult (Z * OracleMap) :=
  let! '(od, v, o) := get_price_data_and_validity o (perp_oracle_id m) (perp_validity_terms m) in
  do! validate (is_oracle_valid_for_action v (Some TriggerOrder)) InvalidOracle in
  let! max_divergence := cast_i 64 (max_oracle_twap_5min_percent_divergence (oracle_guard_rails s)) in
  let! divergent := is_oracle_too_divergent_with_twap_5min (price od)
                      (last_oracle_price_twap_5min (amm_historical_oracle_data (amm m))) max_divergence in
  do! validate (negb divergent) OrderBreachesOraclePriceLimits in
  let! trigger_price := get_trigger_price m (price od) now (use_median_trigger_price s) in
  let! can_trigger := order_satisfies_trigger_condition ord trigger_price in
  do! validate can_trigger OrderDidNotSatisfyTriggerCondition in
  Ok (price od, o).

Definition trigger_order (order_id : Z) (s : State) (u : User) (ms : Markets) (o : OracleMap) (filler : option User)
    (now slot : Z) : DriftResult (User * option User * Markets * OracleMap) :=
  let! order_index := get_order_index u order_id in
  let! ord := idx (u_orders u) (Z.of_nat order_index) in
  do! validate (must_be_triggered ord) OrderNotTriggerable in
  if triggered ord then Ok (u, filler, ms, o)
  else
    do! validate (bool_decide (o_market_type ord = Perp)) InvalidOrderMarketType in
    let! '(u, o) := validate_user_not_being_liquidated u ms o (liquidation_margin_buffer_ratio s) in
    do! validate (negb (user_is_bankrupt u)) UserBankrupt in
    let market_index := o_market_index ord in
    let! m := perp_get_ref (mk_perps ms) market_index in
    let! '(oracle_price, o) := check_trigger s m o ord now in
    let! p := get_perp_position u market_index in
    let! '(_, before) := worst_case_liability_value p oracle_price (contract_type m) in
    let! u := book_trigger u order_index market_index oracle_price slot m in
    let! '(u, filler, m, _) :=
      pay_keeper_flat_reward_for_perps u filler m (flat_filler_fee (perp_fee_structure s)) slot in
    let! p := get_perp_position u market_index in
    let! '(_, after) := worst_case_liability_value p oracle_price (contract_type m) in
    let ms := put_perp ms market_index m in
    let! '(u, o) :=
      if (before <? after) && negb (o_reduce_only ord) then
        let! ok := meets_initial_margin_requirement u ms o in
        if ok then Ok (u, o) else cancel_order order_index u ms o false
      else Ok (u, o) in
    Ok (update_last_active_slot u slot, filler, ms, o).

End Place.

(** * The books *)

(** ** What an order counts for *)

Definition is_open (ord : Order) : bool := bool_decide (o_status ord = OrderOpen).
Definition open_in (i : Z) (ord : Order) : bool :=
  is_open ord && bool_decide (o_market_type ord = Perp) && (o_market_index ord =? i).

Definition unfilled (ord : Order) : Z := o_base_asset_amount ord - o_base_asset_amount_filled ord.
(** Bids and asks an order adds to its position; asks are negative. *)
Definition bid_of (ord : Order) : Z :=
  if update_open_bids_and_asks ord then match o_direction ord with Long => unfilled ord | Short => 0 end else 0.
Definition ask_of (ord : Order) : Z :=
  if update_open_bids_and_asks ord then match o_direction ord with Long => 0 | Short => - unfilled ord end else 0.

(** The three totals of a position, with what an open order adds to each. *)
Definition books : list ((PerpPosition -> Z) * (Order -> Z)) :=
  [(pp_open_orders, fun _ => 1); (pp_open_bids, bid_of); (pp_open_asks, ask_of)].

Definition position_share (i : Z) (f : PerpPosition -> Z) (p : PerpPosition) : Z :=
  if pp_market_index p =? i then f p else 0.
Definition order_share (i : Z) (g : Order -> Z) (ord : Order) : Z := if open_in i ord then g ord else 0.
Definition auction_share (ord : Order) : Z := if is_open ord && has_auction ord then 1 else 0.
Definition open_share (ord : Order) : Z := if is_open ord then 1 else 0.

(** An open order that still has to be triggered has neither fills nor an auction. *)
Record sound_order (ord : Order) : Prop := {
  so_unfilled : is_open ord = true -> 0 <= unfilled ord;
  so_untriggered : is_open ord = true -> must_be_triggered ord = true -> triggered ord = false ->
    o_base_asset_amount_filled ord = 0 /\ has_auction ord = false;
}.

(** At most one position of a market is in use. *)
Definition one_per_market (ps : list PerpPosition) : Prop :=
  forall j k p q, ps !! j = Some p -> ps !! k = Some q -> is_available p = false -> is_available q = false ->
    pp_market_index p = pp_market_index q -> j = k.

Record booked (ps : list PerpPosition) (os : list Order) : Prop := {
  bk_books : forall i f g, (f, g) ∈ books -> sum_z (position_share i f) ps = sum_z (order_share i g) os;
  bk_one : one_per_market ps;
}.

(** The counters of a user and of his positions are those of his open orders. *)
Record orders_booked (u : User) : Prop := {
  ob_books : booked (u_perp_positions u) (u_orders u);
  ob_sound : Forall sound_order (u_orders u);
  ob_length : (length (u_orders u) <= 32)%nat;
  ob_count : u_open_orders u = sum_z open_share (u_orders u);
  ob_auctions : u_open_auctions u = sum_z auction_share (u_orders u);
  ob_has_order : u_has_open_order u = (0 <? u_open_orders u);
  ob_has_auction : u_has_open_auction u = (0 <? u_open_auctions u);
}.

(** ** Positions *)

Lemma available_zero p f g : is_available p = true -> (f, g) ∈ books -> f p = 0.
Proof.
  unfold is_available, has_open_order. intros H Hf. unfold books in Hf. rewrite !elem_of_cons, elem_of_nil in Hf.
  rewrite !andb_true_iff, !negb_true_iff, !orb_false_iff, !negb_false_iff, !Z.eqb_eq in H.
  destruct Hf as [[= -> ->]|[[= -> ->]|[[= -> ->]|[]]]]; tauto.
Qed.

(** The sum of a market's positions is that of the one in use. *)
Lemma share_at ps k p f g i :
  one_per_market ps -> ps !! k = Some p -> is_for p i = true -> (f, g) ∈ books -> sum_z (position_share i f) ps = f p.
Proof.
  intros Ho Hk Hp Hf. pose proof (is_for_index _ _ Hp) as Hi. unfold is_for in Hp.
  apply andb_true_iff in Hp as [_ Hp%negb_true_iff].
  assert (sum_z (position_share i f) (<[k := default_PerpPosition <| pp_market_index := i |>]> ps) = 0) as E.
  { transitivity (sum_z (fun _ => 0) (<[k := default_PerpPosition <| pp_market_index := i |>]> ps));
      [|by induction (<[k := _]> ps); unfold sum_z in *; simpl; lia].
    apply sum_z_ext, Forall_lookup. intros j q Hj. unfold position_share. destruct (Z.eqb_spec (pp_market_index q) i) as [Hq|Hq]; [|done].
    destruct (decide (j = k)) as [->|Hne].
    - rewrite list_lookup_insert_eq in Hj by (by eapply lookup_lt_Some). injection Hj as <-.
      unfold books in Hf. rewrite !elem_of_cons, elem_of_nil in Hf. by destruct Hf as [[= -> ->]|[[= -> ->]|[[= -> ->]|[]]]].
    - rewrite list_lookup_insert_ne in Hj by done. destruct (is_available q) eqn:Hq'; [by eapply available_zero|].
      destruct Hne. apply (Ho j k q p); congruence. }
  rewrite (sum_z_insert _ _ _ p) in E by done. unfold position_share at 2 3 in E. rewrite Hi, Z.eqb_refl in E.
  assert (f (default_PerpPosition <| pp_market_index := i |>) = 0) as Hz.
  { unfold books in Hf. rewrite !elem_of_cons, elem_of_nil in Hf. by destruct Hf as [[= -> ->]|[[= -> ->]|[[= -> ->]|[]]]]. }
  cbn [pp_market_index] in E. revert E. rewrite Hz. destruct (_ =? i); lia.
Qed.

(** [p'] in the place of [p] leaves the other positions the only ones in use. *)
Definition may_replace (ps : list PerpPosition) (k : nat) (p' : PerpPosition) : Prop :=
  is_available p' = false ->
  forall j q, j <> k -> ps !! j = Some q -> is_available q = false -> pp_market_index q <> pp_market_index p'.

Lemma may_replace_same ps k p p' :
  one_per_market ps -> ps !! k = Some p -> (is_available p = true -> is_available p' = true) ->
  pp_market_index p' = pp_market_index p -> may_replace ps k p'.
Proof.
  intros Ho Hk Hav Hi Hp' j q Hne Hj Hq E. apply Hne. apply (Ho j k q p); [done..| |congruence].
  destruct (is_available p); [|done]. by rewrite Hav in Hp'.
Qed.

Lemma one_per_market_insert ps k p' : one_per_market ps -> may_replace ps k p' -> one_per_market (<[k := p']> ps).
Proof.
  intros Ho Hr a b p q Ha Hb Hp Hq E. destruct (decide (a = k)) as [->|Hak], (decide (b = k)) as [->|Hbk]; [done|..].
  - destruct (decide (k < length ps)%nat) as [Hlt|Hlt];
      [|rewrite list_insert_ge in Ha, Hb by lia; by apply (Ho k b p q)].
    rewrite list_lookup_insert_eq in Ha by done. injection Ha as <-. rewrite list_lookup_insert_ne in Hb by done.
    by destruct (Hr Hp b q Hbk Hb Hq).
  - destruct (decide (k < length ps)%nat) as [Hlt|Hlt];
      [|rewrite list_insert_ge in Ha, Hb by lia; by apply (Ho a k p q)].
    rewrite list_lookup_insert_eq in Hb by done. injection Hb as <-. rewrite list_lookup_insert_ne in Ha by done.
    by destruct (Hr Hq a p Hak Ha Hp).
  - rewrite list_lookup_insert_ne in Ha, Hb by done. by apply (Ho a b p q).
Qed.

(** A position and an order change together: the totals move alike. *)
Lemma booked_step ps os k p p' n ord ord' :
  booked ps os -> ps !! k = Some p -> os !! n = Some ord -> may_replace ps k p' ->
  (forall i f g, (f, g) ∈ books ->
     position_share i f p' - position_share i f p = order_share i g ord' - order_share i g ord) ->
  booked (<[k := p']> ps) (<[n := ord']> os).
Proof.
  intros [Hb Ho] Hk Hn Hr Hmove. split; [|by apply one_per_market_insert].
  intros i f g Hf. rewrite (sum_z_insert _ _ k p), (sum_z_insert _ _ n ord) by done.
  specialize (Hb i f g Hf). specialize (Hmove i f g Hf). lia.
Qed.

(** Only a position changes. *)
Lemma booked_position ps os k p p' :
  booked ps os -> ps !! k = Some p -> may_replace ps k p' ->
  (forall i f g, (f, g) ∈ books -> position_share i f p' = position_share i f p) -> booked (<[k := p']> ps) os.
Proof.
  intros [Hb Ho] Hk Hr Hsame. split; [|by apply one_per_market_insert].
  intros i f g Hf. rewrite (sum_z_insert _ _ k p) by done. specialize (Hb i f g Hf). specialize (Hsame i f g Hf). lia.
Qed.

(** Only an order changes that counts for nothing before and after. *)
Lemma booked_order ps os n ord ord' :
  booked ps os -> os !! n = Some ord ->
  (forall i g, order_share i g ord' = order_share i g ord) -> booked ps (<[n := ord']> os).
Proof.
  intros [Hb Ho] Hn Hsame. split; [|done]. intros i f g Hf. rewrite (sum_z_insert _ _ n ord) by done.
  specialize (Hb i f g Hf). specialize (Hsame i g). lia.
Qed.

(** A position's totals move by what an order counts for, [s] times. *)
Record moved (s : Z) (ord : Order) (p p' : PerpPosition) : Prop := {
  mv_index : pp_market_index p' = pp_market_index p;
  mv_books : forall f g, (f, g) ∈ books -> f p' = f p + s * g ord;
}.

Lemma in_books f g : (f, g) ∈ books -> (f, g) = (pp_open_orders, fun _ => 1) \/ (f, g) = (pp_open_bids, bid_of) \/ (f, g) = (pp_open_asks, ask_of).
Proof. unfold books. rewrite !elem_of_cons, elem_of_nil. tauto. Qed.
Ltac each_book H := apply in_books in H as [[= -> ->]|[[= -> ->]|[= -> ->]]].

Lemma unfilled_Ok ord x : get_base_asset_amount_unfilled ord None = Ok x -> x = unfilled ord.
Proof. intros H. unfold get_base_asset_amount_unfilled in H. by apply obind_Ok in H as (y & [-> _]%safe_u_Ok & [= <-]). Qed.

Lemma order_share_le os n ord i g :
  os !! n = Some ord -> Forall (fun o => is_open o = true -> 0 <= g o) os -> open_in i ord = true ->
  g ord <= sum_z (order_share i g) os.
Proof.
  intros Hn Hg Ho. assert (g ord = order_share i g ord) as -> by (unfold order_share; by rewrite Ho).
  apply (sum_z_ge _ _ n); [|done]. eapply Forall_impl; [exact Hg|]. intros o Ho'. unfold order_share, open_in.
  destruct (is_open o) eqn:E; cbn; [|lia]. destruct (_ && _); [exact (Ho' E)|lia].
Qed.

Lemma sound_bid ord : sound_order ord -> is_open ord = true -> 0 <= bid_of ord /\ ask_of ord <= 0.
Proof. intros [H _] Ho. specialize (H Ho). unfold bid_of, ask_of. destruct (update_open_bids_and_asks ord), (o_direction ord); lia. Qed.

(** A position's bids and asks cover those of each of its orders. *)
Lemma booked_bounds ps os k p n ord i :
  booked ps os -> Forall sound_order os -> ps !! k = Some p -> is_for p i = true -> os !! n = Some ord -> open_in i ord = true ->
  bid_of ord <= pp_open_bids p /\ pp_open_asks p <= ask_of ord.
Proof.
  intros [Hb Ho] Hs Hk Hp Hn Hord. split.
  - rewrite <- (share_at ps k p pp_open_bids bid_of i), (Hb i pp_open_bids bid_of) by (done || (unfold books; set_solver)).
    apply (order_share_le _ n); [done| |done]. eapply Forall_impl; [exact Hs|]. intros o Hso. apply sound_bid, Hso.
  - rewrite <- (share_at ps k p pp_open_asks ask_of i), (Hb i pp_open_asks ask_of) by (done || (unfold books; set_solver)).
    assert (- ask_of ord <= sum_z (order_share i (fun o => - ask_of o)) os) as Hle.
    { apply (order_share_le _ n _ i (fun o => - ask_of o)); [done| |done]. eapply Forall_impl; [exact Hs|].
      intros o Hso Hoo. pose proof (sound_bid _ Hso Hoo). lia. }
    rewrite (sum_z_ext _ (fun o => -1 * order_share i ask_of o)), sum_z_scale in Hle; [lia|].
    apply Forall_true. intros o. unfold order_share. destruct (open_in i o); lia.
Qed.

Lemma release_moved ps os k p n ord i p' :
  booked ps os -> Forall sound_order os -> ps !! k = Some p -> is_for p i = true -> os !! n = Some ord -> open_in i ord = true ->
  release_perp ord p = Ok p' -> moved (-1) ord p p'.
Proof.
  intros Hbk Hs Hk Hp Hn Hord H. pose proof (booked_bounds _ _ _ _ _ _ _ Hbk Hs Hk Hp Hn Hord) as [Hbid Hask].
  unfold release_perp in H. apply obind_Ok in H as (q & Hq & H). apply obind_Ok in H as (c & [-> _]%uchk_Ok & [= <-]).
  assert (pp_market_index q = pp_market_index p /\ pp_open_orders q = pp_open_orders p
          /\ pp_open_bids q = pp_open_bids p - bid_of ord /\ pp_open_asks q = pp_open_asks p - ask_of ord) as (E1 & E2 & E3 & E4).
  { pose proof (Forall_lookup_1 _ _ _ _ Hs Hn) as [Hu _]. unfold open_in in Hord. destruct (is_open ord) eqn:Hopen; [|done].
    specialize (Hu eq_refl). unfold bid_of, ask_of in *.
    destruct (update_open_bids_and_asks ord); [|injection Hq as <-; split_and!; lia].
    apply obind_Ok in Hq as (x & ->%unfilled_Ok & Hq). unfold decrease_open_bids_and_asks in Hq. cbn [negb] in Hq.
    apply obind_Ok in Hq as (x & [-> _]%cast_i_Ok & Hq).
    destruct (o_direction ord); apply obind_Ok in Hq as (y & [-> _]%safe_i_Ok & [= <-]); cbn; split_and!; lia. }
  split; [done|]. intros f g Hf. each_book Hf; cbn; lia.
Qed.

Lemma moved_share s ord p p' i f g :
  moved s ord p p' -> (f, g) ∈ books -> pp_market_index p = i ->
  forall j, position_share j f p' - position_share j f p = if i =? j then s * g ord else 0.
Proof.
  intros [Hi Hb] Hf Hp j. unfold position_share. rewrite Hi, Hp. destruct (i =? j); [|lia]. rewrite (Hb f g Hf). lia.
Qed.

(** What cancelling does to the order's own shares. *)
Lemma cancelled_share ord i g : open_in i ord = true -> forall j,
  order_share j g (ord <| o_status := OrderCanceled |>) - order_share j g ord = if i =? j then - g ord else 0.
Proof.
  intros Ho j. unfold order_share, open_in, is_open in *. cbn. rewrite !andb_true_iff in Ho. destruct Ho as [[Hs Hm] Hi%Z.eqb_eq].
  rewrite Hs, Hm, Hi. change (bool_decide (OrderCanceled = OrderOpen)) with false. cbn. destruct (i =? j); cbn; lia.
Qed.

Lemma booked_release ps os k p n ord i p' :
  booked ps os -> Forall sound_order os -> ps !! k = Some p -> is_for p i = true -> os !! n = Some ord -> open_in i ord = true ->
  release_perp ord p = Ok p' -> booked (<[k := p']> ps) (<[n := ord <| o_status := OrderCanceled |>]> os).
Proof.
  intros Hb Hs Hk Hp Hn Ho H. pose proof (release_moved _ _ _ _ _ _ _ _ Hb Hs Hk Hp Hn Ho H) as Hm.
  apply (booked_step _ _ _ p _ _ ord); [done..| |].
  - apply (may_replace_same _ _ p); [apply Hb|done| |apply Hm]. unfold is_for in Hp. destruct (is_available p); [|done].
    by rewrite andb_false_r in Hp.
  - intros j f g Hf. rewrite (moved_share (-1) ord p p' i f g), (cancelled_share ord i g Ho) by (done || by apply is_for_index).
    destruct (i =? j); lia.
Qed.

Lemma cancelled_sound ord : sound_order (ord <| o_status := OrderCanceled |>).
Proof. split; done. Qed.

(** Counts of at most 32 orders. *)
Lemma count_bound os (g : Order -> Z) : (length os <= 32)%nat -> (forall o, 0 <= g o <= 1) -> 0 <= sum_z g os <= 32.
Proof.
  intros Hlen Hg. split; [apply sum_z_nonneg, Forall_true; intros o; apply Hg|].
  transitivity (sum_z (fun _ => 1) os); [apply sum_z_le, Forall_true; intros o; apply Hg|].
  assert (sum_z (fun _ => 1) os = Z.of_nat (length os)) as ->; [|lia].
  clear. induction os as [|o l IH]; [done|]. unfold sum_z in *. cbn [foldr length]. rewrite IH. lia.
Qed.
Lemma open_share_unit o : 0 <= open_share o <= 1.
Proof. unfold open_share. destruct (is_open o); lia. Qed.
Lemma auction_share_unit o : 0 <= auction_share o <= 1.
Proof. unfold auction_share. destruct (_ && _); lia. Qed.

(** The user's two counters after one of his open orders is closed. *)
Lemma closed_counts (u : User) n ord ord' :
  orders_booked u -> u_orders u !! n = Some ord -> is_open ord = true -> is_open ord' = false ->
  let v := decrement_open_orders u (has_auction ord) in
  u_open_orders v = sum_z open_share (<[n := ord']> (u_orders u))
  /\ u_open_auctions v = sum_z auction_share (<[n := ord']> (u_orders u))
  /\ u_has_open_order v = (0 <? u_open_orders v) /\ u_has_open_auction v = (0 <? u_open_auctions v)
  /\ u_perp_positions v = u_perp_positions u /\ u_orders v = u_orders u /\ u_spot_positions v = u_spot_positions u.
Proof.
  intros [_ _ Hlen Hc Ha Hh Hk] Hn Ho Hc'. rewrite !(sum_z_insert _ _ n ord) by done.
  pose proof (count_bound _ _ Hlen open_share_unit) as C1. pose proof (count_bound _ _ Hlen auction_share_unit) as C2.
  assert (open_share ord <= sum_z open_share (u_orders u)) as D1.
  { apply (sum_z_ge _ _ n); [|done]. apply Forall_true. intros o. apply open_share_unit. }
  assert (auction_share ord <= sum_z auction_share (u_orders u)) as D2.
  { apply (sum_z_ge _ _ n); [|done]. apply Forall_true. intros o. apply auction_share_unit. }
  assert (open_share ord = 1 /\ open_share ord' = 0 /\ auction_share ord' = 0
          /\ auction_share ord = if has_auction ord then 1 else 0) as (E1 & E2 & E3 & E4).
  { unfold open_share, auction_share. by rewrite Ho, Hc'. }
  rewrite E1, E2, E3, E4 in *. clear E1 E2 E3 E4.
  unfold decrement_open_orders. destruct (has_auction ord); cbn; rewrite ?Hc, ?Ha, ?Hk; unfold usat; split_and!; try done; lia.
Qed.

(** ** Cancelling keeps the books *)

Lemma update_position_Ok u i f u' :
  update_position u i f = Ok u' ->
  exists p p', u_perp_positions u !! i = Some p /\ f p = Ok p' /\ u' = u <| u_perp_positions := <[i := p']> (u_perp_positions u) |>.
Proof.
  intros H. unfold update_position in H. apply obind_Ok in H as (p & [_ Hp]%idx_Ok & H). apply obind_Ok in H as (p' & Hf & H).
  apply obind_Ok in H as (l & [_ ->]%set_idx_Ok & [= <-]). rewrite Nat2Z.id in *. by exists p, p'.
Qed.
Lemma update_order_Ok u i ord u' :
  update_order u i ord = Ok u' -> u' = u <| u_orders := <[i := ord]> (u_orders u) |> /\ (i < length (u_orders u))%nat.
Proof.
  intros H. unfold update_order in H. apply obind_Ok in H as (l & [Hl ->]%set_idx_Ok & [= <-]). rewrite Nat2Z.id. split; [done|lia].
Qed.
Lemma update_spot_position_frame u i f u' :
  update_spot_position u i f = Ok u' -> exists l, u' = u <| u_spot_positions := l |>.
Proof.
  intros H. unfold update_spot_position in H. apply obind_Ok in H as (p & _ & H). apply obind_Ok in H as (p' & _ & H).
  apply obind_Ok in H as (l & _ & [= <-]). by eexists.
Qed.

Lemma sound_insert n ord os : Forall sound_order os -> sound_order ord -> Forall sound_order (<[n := ord]> os).
Proof. intros. by apply Forall_insert. Qed.

(** The counters and the flags only. *)
Lemma orders_booked_counters u v :
  booked (u_perp_positions v) (u_orders v) -> Forall sound_order (u_orders v) -> (length (u_orders v) <= 32)%nat ->
  u_open_orders v = sum_z open_share (u_orders v) /\ u_open_auctions v = sum_z auction_share (u_orders v)
  /\ u_has_open_order v = (0 <? u_open_orders v) /\ u_has_open_auction v = (0 <? u_open_auctions v) -> u = v -> orders_booked u.
Proof. intros ? ? ? (? & ? & ? & ?) ->. by split. Qed.

Lemma cancelled_closed ord : is_open (ord <| o_status := OrderCanceled |>) = false.
Proof. reflexivity. Qed.

Lemma cancel_order_booked i u ms o skip u' o' :
  orders_booked u -> cancel_order i u ms o skip = Ok (u', o') -> orders_booked u' /\ length (u_orders u') = length (u_orders u).
Proof.
  intros Hu H. pose proof Hu as [Hb Hs Hlen _ _ _ _]. unfold cancel_order in H.
  apply obind_Ok in H as (ord & [_ Hord]%idx_Ok & H). rewrite Nat2Z.id in Hord. apply obind_Ok in H as (w & Hopen%validate_Ok & H).
  apply obind_Ok in H as (oid & _ & H). apply obind_Ok in H as (o1 & _ & H). cbv zeta in H.
  apply obind_Ok in H as (u1 & H1 & H). apply obind_Ok in H as (u2 & [-> Hi]%update_order_Ok & [= <- _]).
  destruct (closed_counts u i ord (ord <| o_status := OrderCanceled |>) Hu Hord Hopen (cancelled_closed ord)) as (C1 & C2 & C3 & C4 & C5 & C6 & _).
  set (v := decrement_open_orders u (has_auction ord)) in *. clearbody v.
  assert (u_orders u1 = u_orders v /\ u_open_orders u1 = u_open_orders v /\ u_open_auctions u1 = u_open_auctions v
    /\ u_has_open_order u1 = u_has_open_order v /\ u_has_open_auction u1 = u_has_open_auction v
    /\ booked (u_perp_positions u1) (<[i := ord <| o_status := OrderCanceled |>]> (u_orders u))) as (F1 & F2 & F3 & F4 & F5 & F6).
  { destruct (o_market_type ord) eqn:Hm.
    - apply obind_Ok in H1 as (k & _ & [l ->]%update_spot_position_frame). split_and!; try done. cbn. rewrite C5.
      apply (booked_order _ _ _ ord); [done..|]. intros j g. unfold order_share, open_in. cbn. rewrite Hm. cbn. by rewrite !andb_false_r.
    - apply obind_Ok in H1 as (k & (q & Hq & Hfor & _)%get_position_Ok & H1).
      apply update_position_Ok in H1 as (p & p' & Hp & Hrel & ->). split_and!; try done. cbn. rewrite C5 in *.
      assert (q = p) as -> by congruence.
      apply (booked_release _ _ _ p _ ord (o_market_index ord)); try done.
      unfold open_in, is_open. by rewrite Hopen, Hm, Z.eqb_refl. }
  rewrite F1, C6 in *. split; [|cbn; by rewrite length_insert].
  split; cbn; rewrite ?F2, ?F3, ?F4, ?F5; [done| |by rewrite length_insert|done..].
  apply sound_insert; [done|apply cancelled_sound].
Qed.

Lemma cancel_all_booked select u ms o skip u' o' ids :
  orders_booked u -> cancel_all select u ms o skip = Ok (u', o', ids) -> orders_booked u'.
Proof.
  intros Hu H. unfold cancel_all in H.
  apply (foldO_inv (fun s => orders_booked s.1.1)) in H; [done| |done].
  intros n [[v o1] l1] s' _ Hv Hstep. cbn in *. apply obind_Ok in Hstep as (ord & _ & Hstep).
  destruct (select ord); [|by injection Hstep as <-].
  apply obind_Ok in Hstep as ([v' o2] & Hc & [= <-]). cbn. by eapply cancel_order_booked.
Qed.

Lemma last_active_booked u slot : orders_booked u -> orders_booked (update_last_active_slot u slot).
Proof. intros [? ? ? ? ? ? ?]. unfold update_last_active_slot. destruct (negb _); by split. Qed.

Lemma cancel_orders_booked u ms o slot t i d skip u' o' ids :
  orders_booked u -> cancel_orders u ms o slot t i d skip = Ok (u', o', ids) -> orders_booked u'.
Proof.
  intros Hu H. unfold cancel_orders in H. apply obind_Ok in H as ([[v o1] l] & Hc & [= <- _ _]).
  by eapply last_active_booked, cancel_all_booked.
Qed.

Lemma expire_orders_booked u ms o now u' o' : orders_booked u -> expire_orders u ms o now = Ok (u', o') -> orders_booked u'.
Proof.
  intros Hu H. unfold expire_orders in H. apply obind_Ok in H as ([[v o1] l] & Hc & [= <- _]). by eapply cancel_all_booked.
Qed.

(** ** Leaving a liquidation *)

Lemma exit_flags_available p :
  is_available p = true ->
  is_available (remove_position_flag BankruptPosition (remove_position_flag BeingLiquidatedPosition p)) = true.
Proof.
  unfold is_available. rewrite !andb_true_iff. intros [H Hl]. split; [exact H|].
  unfold is_being_liquidated in *. change (Z.lor _ _) with 6 in *. cbn [pp_position_flag] in *.
  apply negb_true_iff, Z.ltb_ge in Hl. apply negb_true_iff, Z.ltb_ge.
  assert (Z.land (pp_position_flag p) 6 = 0) as E by (pose proof (proj2 (Z.land_nonneg (pp_position_flag p) 6) ltac:(right; lia)); lia).
  change (Z.land (remove_flag (remove_flag (pp_position_flag p) 2) 4) 6 <= 0). unfold remove_flag.
  set (f := pp_position_flag p) in *. rewrite (Z.land_comm _ 6), !Z.land_assoc, (Z.land_comm 6 f), E. done.
Qed.

Lemma add_new_position_Ok l i l' k :
  add_new_position l i = Ok (l', k) ->
  exists old new, l !! k = Some old /\ is_available old = true /\ l' = <[k := new]> l /\ is_available new = true
    /\ pp_market_index new = i  /\ is_available (new <| pp_position_flag := position_flag_bit IsolatedPosition |>) = true.
Proof.
  intros H. unfold add_new_position in H. apply obind_Ok in H as (k1 & H1 & H). apply obind_Ok in H as (old & [_ Hold]%idx_Ok & H).
  cbv zeta in H. apply obind_Ok in H as (l2 & [_ ->]%set_idx_Ok & [= <- <-]). rewrite Nat2Z.id in *.
  unfold position_of in H1. destruct (list_find _ _) as [[k2 q2]|] eqn:Hk; [|done]. injection H1 as <-.
  apply list_find_Some in Hk as (Hk & Hav & _). assert (q2 = old) as -> by congruence. by eexists old, _.
Qed.

(** Putting one position out of use for another changes no total. *)
Lemma booked_available ps os k p p' :
  booked ps os -> ps !! k = Some p -> is_available p = true -> is_available p' = true -> booked (<[k := p']> ps) os.
Proof.
  intros Hb Hk Hp Hp'. apply (booked_position _ _ _ p); [done..|intros E; congruence|].
  intros i f g Hf. unfold position_share. rewrite (available_zero _ _ _ Hp Hf), (available_zero _ _ _ Hp' Hf).
  by destruct (_ =? i), (_ =? i).
Qed.

Lemma with_isolated_booked u i u' os :
  booked (u_perp_positions u) os -> exit_isolated_margin_liquidation u i = Ok u' ->
  booked (u_perp_positions u') os /\ u' = u <| u_perp_positions := u_perp_positions u' |>.
Proof.
  intros Hb H. unfold exit_isolated_margin_liquidation, with_isolated_position, force_get_isolated_perp_position_index in H.
  apply obind_Ok in H as ([l k] & Hl & H). apply obind_Ok in H as (p & [_ Hp]%idx_Ok & H).
  apply obind_Ok in H as (l' & [_ ->]%set_idx_Ok & [= <-]). rewrite Nat2Z.id in *. cbn. split; [|done].
  assert (booked l os) as Hbl.
  { destruct (get_position_index (u_perp_positions u) i) as [n|e|]; [| |done].
    - apply obind_Ok in Hl as (q & _ & Hl). by apply obind_Ok in Hl as (v & _ & [= <- <-]).
    - apply obind_Ok in Hl as ([l0 k0] & H0 & Hl). apply obind_Ok in Hl as (q & [_ Hq]%idx_Ok & Hl).
      apply obind_Ok in Hl as (l1 & [_ ->]%set_idx_Ok & [= <- <-]). rewrite Nat2Z.id in *.
      apply add_new_position_Ok in H0 as (old & new & Hold & Ho & -> & Hn & _ & Hn').
      rewrite list_lookup_insert_eq in Hq by (by apply lookup_lt_Some in Hold). injection Hq as <-. rewrite list_insert_insert_eq.
      by apply (booked_available _ _ _ old). }
  set (p' := remove_position_flag _ _). apply (booked_position _ _ _ p); [done..| |].
  - apply (may_replace_same _ _ p); [apply Hbl|done|apply exit_flags_available|done].
  - intros j f g Hf. unfold position_share. by each_book Hf.
Qed.

Section Steps.
Context {roots : Roots}.

Lemma orders_booked_positions u ps : orders_booked u -> booked ps (u_orders u) -> orders_booked (u <| u_perp_positions := ps |>).
Proof. intros [? ? ? ? ? ? ?] Hb. by split. Qed.

Lemma not_being_liquidated_booked u ms o r u' o' :
  orders_booked u -> validate_user_not_being_liquidated u ms o r = Ok (u', o') ->
  orders_booked u' /\ u_orders u' = u_orders u.
Proof.
  intros Hu H. unfold validate_user_not_being_liquidated in H. destruct (negb _); [by injection H as <- <-|].
  apply obind_Ok in H as ([c o1] & _ & H). destruct (is_cross_margin_being_liquidated u).
  - apply obind_Ok in H as (b & _ & H). destruct b; [|done]. injection H as <- <-. split; [|done]. destruct Hu. by split.
  - cbv zeta in H. apply obind_Ok in H as (v & Hv & [= <- _]).
    apply (foldO_inv (fun v => orders_booked v /\ u_orders v = u_orders u)) in Hv; [done| |done].
    intros i w w' _ [Hw Ho] Hstep. apply obind_Ok in Hstep as (b & _ & Hstep). destruct b; [|done].
    destruct (with_isolated_booked _ _ _ _ (ob_books _ Hw) Hstep) as [Hb' ->]. split; [|done].
    by apply orders_booked_positions.
Qed.

Lemma force_get_booked u i u' k :
  orders_booked u -> force_get_perp_position_index u i = Ok (u', k) ->
  orders_booked u' /\ u_orders u' = u_orders u
  /\ exists p, u_perp_positions u' !! k = Some p /\ pp_market_index p = i
     /\ forall j q, j <> k -> u_perp_positions u' !! j = Some q -> is_available q = false -> pp_market_index q <> i.
Proof.
  intros Hu H. unfold force_get_perp_position_index in H.
  destruct (get_position_index (u_perp_positions u) i) as [n|e|] eqn:Hn; [| |done].
  - injection H as <- <-. split_and!; [done..|]. apply get_position_Ok in Hn as (p & Hp & Hfor & _). exists p.
    pose proof (is_for_index _ _ Hfor) as Hi. split_and!; [done..|]. intros j q Hne Hq Hav E. apply Hne.
    apply (bk_one _ _ (ob_books _ Hu) j n q p); [done..| |congruence]. unfold is_for in Hfor. by destruct (is_available p), (_ =? i).
  - apply obind_Ok in H as ([l k0] & H0 & [= <- <-]).
    pose proof (add_new_position_Ok _ _ _ _ H0) as (old & new & Hold & Ho & -> & Hav & Hi & _).
    split; [|split; [done|]].
    + apply orders_booked_positions; [done|]. apply (booked_available _ _ _ old); [apply Hu|done..].
    + exists new. cbn. split_and!; [by rewrite list_lookup_insert_eq by (by apply lookup_lt_Some in Hold)|done|].
      intros j q Hne Hq Hav'. rewrite list_lookup_insert_ne in Hq by done.
      unfold get_position_index, position_of in Hn. destruct (list_find _ _) as [[? ?]|] eqn:Hf; [done|].
      apply list_find_None in Hf. rewrite Forall_lookup in Hf. specialize (Hf _ _ Hq). unfold is_for in Hf.
      rewrite Hav' in Hf. intros E. by rewrite E, Z.eqb_refl in Hf.
Qed.

(** ** Booking *)

Lemma increase_moved ord p p' :
  increase_open_bids_and_asks p (o_direction ord) (unfilled ord) (update_open_bids_and_asks ord) = Ok p' ->
  pp_market_index p' = pp_market_index p /\ pp_open_orders p' = pp_open_orders p
  /\ pp_open_bids p' = pp_open_bids p + bid_of ord /\ pp_open_asks p' = pp_open_asks p + ask_of ord.
Proof.
  unfold increase_open_bids_and_asks, bid_of, ask_of. intros H. destruct (update_open_bids_and_asks ord); cbn in H.
  - apply obind_Ok in H as (x & [-> _]%cast_i_Ok & H).
    destruct (o_direction ord); apply obind_Ok in H as (y & [-> _]%safe_i_Ok & [= <-]); cbn; split_and!; lia.
  - injection H as <-. split_and!; lia.
Qed.

(** A slot that is not open counts for nothing. *)
Lemma closed_share ord i g : is_open ord = false -> order_share i g ord = 0.
Proof. intros H. unfold order_share, open_in. by rewrite H. Qed.
Lemma open_shares ord i g j : open_in i ord = true -> order_share j g ord = if i =? j then g ord else 0.
Proof.
  unfold order_share, open_in. intros [Ho Hi%Z.eqb_eq]%andb_true_iff. rewrite Ho, Hi. cbn. by destruct (i =? j).
Qed.

(** A user's counters after an order takes the place of one that is not open. *)
Lemma opened_counts u n old ord :
  orders_booked u -> u_orders u !! n = Some old -> is_open old = false -> is_open ord = true ->
  let v := increment_open_orders u (has_auction ord) in
  u_open_orders v = sum_z open_share (<[n := ord]> (u_orders u))
  /\ u_open_auctions v = sum_z auction_share (<[n := ord]> (u_orders u))
  /\ u_has_open_order v = (0 <? u_open_orders v) /\ u_has_open_auction v = (0 <? u_open_auctions v)
  /\ u_perp_positions v = u_perp_positions u /\ u_orders v = u_orders u.
Proof.
  intros [_ _ Hlen Hc Ha Hh Hk] Hn Ho Ho'. rewrite !(sum_z_insert _ _ n old) by done.
  pose proof (count_bound _ _ Hlen open_share_unit) as B1. pose proof (count_bound _ _ Hlen auction_share_unit) as B2.
  assert (open_share ord = 1 /\ open_share old = 0 /\ auction_share old = 0
          /\ auction_share ord = if has_auction ord then 1 else 0) as (E1 & E2 & E3 & E4).
  { unfold open_share, auction_share. by rewrite Ho, Ho'. }
  rewrite E1, E2, E3, E4. unfold increment_open_orders, increment_open_auctions.
  destruct (has_auction ord); cbn; rewrite ?Hc, ?Ha, ?Hk; unfold usat; split_and!; try done; lia.
Qed.

Lemma book_order_booked u n k ord u' old p i :
  orders_booked u -> u_orders u !! n = Some old -> is_open old = false -> open_in i ord = true -> sound_order ord ->
  o_base_asset_amount_filled ord = 0 -> u_perp_positions u !! k = Some p -> pp_market_index p = i ->
  (forall j q, j <> k -> u_perp_positions u !! j = Some q -> is_available q = false -> pp_market_index q <> i) ->
  book_order u n k ord = Ok u' -> orders_booked u'.
Proof.
  intros Hu Hn Hold Hord Hs Hf0 Hk Hi Huniq H. pose proof Hu as [Hb Hso Hlen _ _ _ _].
  unfold book_order in H. apply obind_Ok in H as (u1 & [-> _]%update_order_Ok & H).
  apply update_position_Ok in H as (q & p' & Hq & Hp' & ->).
  assert (is_open ord = true) as Ho by (unfold open_in in Hord; by destruct (is_open ord)).
  destruct (opened_counts u n old ord Hu Hn Hold Ho) as (C1 & C2 & C3 & C4 & C5 & C6).
  set (v := increment_open_orders u (has_auction ord)) in *. clearbody v. cbn [u_perp_positions] in *.
  assert (q = p) as -> by (revert Hq; cbn; rewrite C5; congruence).
  apply obind_Ok in Hp' as (c & [-> _]%uchk_Ok & Hinc).
  replace (o_base_asset_amount ord) with (unfilled ord) in Hinc by (unfold unfilled; lia).
  apply increase_moved in Hinc as (M1 & M2 & M3 & M4). cbn in M1, M2, M3, M4.
  assert (booked (<[k := p']> (u_perp_positions u)) (<[n := ord]> (u_orders u))) as Hbooked.
  { apply (booked_step _ _ _ p _ _ old); [done..| |].
    - intros Hav j r Hne Hr Hrav. rewrite M1, Hi. by apply (Huniq j).
    - intros j f g Hf. rewrite (closed_share old) by done. rewrite (open_shares ord i) by done.
      rewrite (moved_share 1 ord p p' i f g); [|split; [done|intros f' g' Hf'; each_book Hf'; lia]|done..].
      destruct (i =? j); lia. }
  split; cbn; rewrite ?C5, ?C6 in *; try done; [by apply sound_insert|by rewrite length_insert].
Qed.

Lemma position_of_Some {A} (f : A -> bool) l n : position_of f l = Some n -> exists a, l !! n = Some a /\ f a = true.
Proof.
  unfold position_of. intros H. destruct (list_find _ l) as [[k a]|] eqn:E; [|done]. injection H as <-.
  apply list_find_Some in E as (Hk & Ha & _). by exists a.
Qed.

Lemma enable_high_leverage_frame c u c' v :
  enable_high_leverage c u = Ok (c', v) -> v = u \/ v = u <| u_margin_mode := HighLeverage |>.
Proof.
  intros H. unfold enable_high_leverage in H. destruct (u_margin_mode u); [|left; congruence|];
    (right; apply obind_Ok in H as (w1 & _ & H); apply obind_Ok in H as (w2 & _ & H); apply obind_Ok in H as (w3 & _ & H); congruence).
Qed.

Lemma margin_mode_booked u mode : orders_booked u -> orders_booked (u <| u_margin_mode := mode |>).
Proof. intros [? ? ? ? ? ? ?]. constructor; assumption. Qed.

Lemma prepare_placement_booked s u ms o hl now p opts u' o' hl' n :
  orders_booked u -> prepare_placement s u ms o hl now p opts = Ok (u', o', hl', n) ->
  orders_booked u' /\ exists old, u_orders u' !! n = Some old /\ is_open old = false.
Proof.
  intros Hu H. unfold prepare_placement in H. apply obind_Ok in H as ([u1 o1] & H1 & H).
  assert (orders_booked u1) as Hu1.
  { destruct (is_liquidation opts); [injection H1 as <- _; exact Hu|]. exact (proj1 (not_being_liquidated_booked _ _ _ _ _ _ Hu H1)). }
  apply obind_Ok in H as (w & _ & H). apply obind_Ok in H as ([hl2 u2] & H2 & H).
  assert (orders_booked u2) as Hu2.
  { destruct (is_update_high_leverage_mode p); [|injection H2 as _ <-; exact Hu1]. destruct hl as [c|]; [|discriminate].
    destruct (_ || _); [|injection H2 as _ <-; exact Hu1]. apply obind_Ok in H2 as ([c' v] & [->| ->]%enable_high_leverage_frame & [= _ <-]);
      [exact Hu1|]. by apply margin_mode_booked. }
  apply obind_Ok in H as ([u3 o3] & H3 & H).
  assert (orders_booked u3) as Hu3.
  { destruct (try_expire_orders opts); [|injection H3 as <- _; exact Hu2]. exact (expire_orders_booked _ _ _ _ _ _ Hu2 H3). }
  apply obind_Ok in H as (w3 & _ & H). apply obind_Ok in H as (k & Hk%ok_or_Ok & H). apply obind_Ok in H as (w4 & _ & [= <- _ _ <-]).
  split; [exact Hu3|]. apply position_of_Some in Hk as (old & Hold & Ha). exists old. split; [exact Hold|].
  unfold order_is_available in Ha. unfold is_open. by destruct (bool_decide _).
Qed.

Lemma new_order_size_pos p u k m ms o base o' : new_order_size p u k m ms o = Ok (base, o') -> 0 <= base.
Proof.
  assert (forall x st r, standardize_base_asset_amount x st = Ok r -> 0 <= r) as Hstd.
  { intros x st r H. unfold standardize_base_asset_amount in H. apply obind_Ok in H as (y & _ & [-> Hr]%safe_u_Ok). apply Hr. }
  intros H. unfold new_order_size in H. apply obind_Ok in H as (w & _ & H). destruct (_ && _).
  - unfold calculate_max_perp_order_size in H. apply obind_Ok in H as ([c o1] & _ & H). apply obind_Ok in H as (q & _ & H).
    apply obind_Ok in H as (f & _ & H). apply obind_Ok in H as (f' & _ & H). apply obind_Ok in H as (m' & _ & H).
    apply obind_Ok in H as ([od o2] & _ & H). apply obind_Ok in H as (qm & _ & H). apply obind_Ok in H as ([qd o3] & _ & H).
    cbv zeta in H. apply obind_Ok in H as ([wc val] & _ & H). apply obind_Ok in H as (mr & _ & H).
    apply obind_Ok in H as ([red rel] & _ & H). destruct (f' <=? 0); [by apply obind_Ok in H as (z & Hz%Hstd & [= <- _])|].
    apply obind_Ok in H as (op & _ & H). apply obind_Ok in H as (sz & _ & H). apply obind_Ok in H as (x & _ & H).
    by apply obind_Ok in H as (z & Hz%Hstd & [= <- _]).
  - by apply obind_Ok in H as (z & Hz%Hstd & [= <- _]).
Qed.

(** What is needed of the order the parameters describe. *)
Record fresh_order (p : OrderParams) (ord : Order) : Prop := {
  fo_status : o_status ord = OrderOpen;
  fo_market_type : o_market_type ord = op_market_type p;
  fo_index : o_market_index ord = op_market_index p;
  fo_type : o_order_type ord = op_order_type p;
  fo_filled : o_base_asset_amount_filled ord = 0;
}.

Lemma new_order_Ok p opts m slot id base ex auction max_ts ro fl ord :
  new_order p opts m slot id base ex auction max_ts ro fl = Ok ord ->
  fresh_order p ord /\ o_base_asset_amount ord = base /\ o_auction_duration ord = auction.2
  /\ o_trigger_condition ord = op_trigger_condition p.
Proof.
  unfold new_order. destruct auction as [[a z] n]. intros H. apply obind_Ok in H as (l & _ & H).
  apply obind_Ok in H as (t & _ & [= <-]). by split_and!.
Qed.

Lemma trigger_auction p price tick n a : is_trigger_order p = true -> get_auction_params p price tick n = Ok a -> a.2 = 0.
Proof. unfold is_trigger_order, get_auction_params. by destruct (op_order_type p); try done; intros _ [= <-]. Qed.

Lemma validated_trigger ord m price slot :
  validate_order ord m price slot = Ok tt -> must_be_triggered ord = true -> triggered ord = false.
Proof.
  unfold validate_order, must_be_triggered. intros H Hm. apply obind_Ok in H as (w & Hv & _).
  assert (trigger_condition_pending ord = true) as Hp.
  { destruct (o_order_type ord); try done; unfold validate_trigger_market_order, validate_trigger_limit_order in Hv;
      apply obind_Ok in Hv as (w1 & _ & Hv); by apply obind_Ok in Hv as (w2 & Hp%validate_Ok & _). }
  unfold trigger_condition_pending in Hp. unfold triggered. by destruct (o_trigger_condition ord).
Qed.

Lemma fresh_sound p ord :
  fresh_order p ord -> 0 <= o_base_asset_amount ord ->
  (must_be_triggered ord = true -> o_auction_duration ord = 0) -> sound_order ord.
Proof.
  intros [_ _ _ _ Hf] Hb Ht. split.
  - intros _. unfold unfilled. lia.
  - intros _ Hm _. split; [done|]. unfold has_auction. by rewrite Ht.
Qed.

Lemma place_perp_order_booked s u ms o hl now slot p opts has_builder u' o' hl' :
  orders_booked u -> place_perp_order s u ms o hl now slot p opts has_builder = Ok (u', o', hl') -> orders_booked u'.
Proof.
  intros Hu H. unfold place_perp_order in H. apply obind_Ok in H as ([[[u1 o1] hl1] n] & H1 & H).
  destruct (prepare_placement_booked _ _ _ _ _ _ _ _ _ _ _ _ Hu H1) as [Hu1 (old & Hold & Hclosed)].
  apply obind_Ok in H as (m & _ & H). apply obind_Ok in H as (w1 & _ & H). apply obind_Ok in H as ([u2 k] & H2 & H).
  destruct (force_get_booked _ _ _ _ Hu1 H2) as (Hu2 & Eo & pos & Hpos & Hi & Huniq).
  apply obind_Ok in H as ([base o2] & Hbase%new_order_size_pos & H). apply obind_Ok in H as (pos' & [_ Hpos']%idx_Ok & H).
  rewrite Nat2Z.id in Hpos'. assert (pos' = pos) as -> by congruence. cbv zeta in H.
  apply obind_Ok in H as ([od o3] & _ & H). apply obind_Ok in H as ([q auction] & Hq & H).
  apply obind_Ok in H as (max_ts & _ & H). destruct (_ && (max_ts <? now)); [injection H as <- _ _; exact Hu2|].
  apply obind_Ok in H as (w2 & Hperp%validate_Ok & H).
  set (u3 := fst (take_order_id u2)) in *. assert (orders_booked u3) as Hu3 by (destruct Hu2; constructor; assumption).
  unfold take_order_id in H. cbv zeta in H.
  match type of H with context [u2 <| u_next_order_id := ?x |>] => change (u2 <| u_next_order_id := x |>) with u3 in H end.
  apply obind_Ok in H as (ord & Hord & H). apply new_order_Ok in Hord as ([Fs Fm Fi Ft Ff] & Fb & Fd & Fc).
  destruct (validate_order ord m (Some (price od)) slot) as [[]|e|] eqn:Hval; [| |done].
  - apply obind_Ok in H as (risk & _ & H). apply obind_Ok in H as (u4 & Hbook & H). apply obind_Ok in H as (o4 & _ & [= <- _ _]).
    apply last_active_booked.
    assert (op_market_index q = op_market_index p /\ (is_trigger_order q = true -> auction.2 = 0)) as [Eq Htrig].
    { unfold auction_of_params in Hq. apply obind_Ok in Hq as ([q' b] & Hq' & Hq). apply obind_Ok in Hq as (a & Ha & [= <- <-]).
      split; [|intros Ht; by eapply trigger_auction]. destruct (is_liquidation opts); [congruence|].
      apply update_perp_auction_params_same in Hq'. unfold same_order in Hq'. by rewrite Hq'. }
    eapply (book_order_booked u3 n k ord u4 old pos (op_market_index p)); try done.
    + cbn. by rewrite Eo.
    + unfold open_in, is_open. rewrite Fs, Fm, Fi, Eq, Hperp, Z.eqb_refl. done.
    + apply (fresh_sound q); [by split|by rewrite Fb|]. intros Hm. rewrite Fd. apply Htrig.
      unfold is_trigger_order. unfold must_be_triggered in Hm. by rewrite Ft in Hm.
  - destruct e; try discriminate H. destruct (bool_decide (op_post_only q = TryPostOnly)); [|discriminate H]. injection H as <- _ _. exact Hu3.
Qed.

(** ** Triggering *)

(** The quote of a position only. *)
Definition requoted (p p' : PerpPosition) : Prop :=
  exists q k, p' = p <| pp_quote_asset_amount := q |> <| pp_quote_break_even_amount := k |>.

Lemma update_quote_requoted p m d p' m' : update_quote_asset_amount p m d = Ok (p', m') -> requoted p p'.
Proof.
  intros H. unfold update_quote_asset_amount in H. destruct (d =? 0).
  { injection H as <- _. exists (pp_quote_asset_amount p), (pp_quote_break_even_amount p). by destruct p. }
  apply obind_Ok in H as (m1 & _ & H). apply obind_Ok in H as (q & _ & H). cbv zeta in H. apply obind_Ok in H as (x & _ & H).
  destruct (_ && _); injection H as <- _; exists q, (pp_quote_break_even_amount p); by destruct p.
Qed.

Lemma update_break_even_requoted p m d p' m' : update_quote_break_even_amount p m d = Ok (p', m') -> requoted p p'.
Proof.
  intros H. unfold update_quote_break_even_amount in H. destruct (_ || _).
  { injection H as <- _. exists (pp_quote_asset_amount p), (pp_quote_break_even_amount p). by destruct p. }
  apply obind_Ok in H as (k & _ & H). cbv zeta in H.
  destruct (get_direction _); apply obind_Ok in H as (x & _ & [= <- _]); exists (pp_quote_asset_amount p), k; by destruct p.
Qed.

Lemma update_both_requoted p m d p' m' : update_quote_asset_and_break_even_amount p m d = Ok (p', m') -> requoted p p'.
Proof.
  intros H. unfold update_quote_asset_and_break_even_amount in H.
  apply obind_Ok in H as ([p1 m1] & (q & k & ->)%update_quote_requoted & (q' & k' & ->)%update_break_even_requoted).
  exists q', k'. by destruct p.
Qed.

Lemma requoted_share p p' i f g : requoted p p' -> (f, g) ∈ books -> position_share i f p' = position_share i f p.
Proof. intros (q & k & ->) Hf. unfold position_share. by each_book Hf. Qed.

Lemma pay_keeper_booked u f m r slot u' f' m' x :
  orders_booked u -> (forall v, f = Some v -> orders_booked v) ->
  pay_keeper_flat_reward_for_perps u f m r slot = Ok (u', f', m', x) ->
  orders_booked u' /\ u_orders u' = u_orders u /\ forall v, f' = Some v -> orders_booked v.
Proof.
  intros Hu Hf H. unfold pay_keeper_flat_reward_for_perps in H. destruct f as [f|]; [|injection H as <- <- _ _; split_and!; done].
  specialize (Hf f eq_refl).
  apply obind_Ok in H as (k & (q & Hq & Hfor & _)%get_position_Ok & H). apply obind_Ok in H as (r' & _ & H).
  apply obind_Ok in H as (p & [_ Hp]%idx_Ok & H). rewrite Nat2Z.id in Hp. assert (q = p) as -> by congruence.
  apply obind_Ok in H as ([p' m1] & Hp'%update_both_requoted & H).
  apply obind_Ok in H as (l & [_ ->]%set_idx_Ok & H). rewrite Nat2Z.id in H. cbv zeta in H.
  assert (orders_booked (u <| u_perp_positions := <[k := p']> (u_perp_positions u) |>)) as Hu1.
  { apply orders_booked_positions; [done|]. apply (booked_position _ _ _ p); [apply Hu|done| |].
    - apply (may_replace_same _ _ p); [apply Hu|done| |by destruct Hp' as (? & ? & ->)].
      unfold is_for in Hfor. destruct (is_available p); [|done]. by rewrite andb_false_r in Hfor.
    - intros i g h Hg. by eapply requoted_share. }
  destruct (force_get_perp_position_index _ _) as [[f1 j]|e|] eqn:Hj; [| |done].
  - apply force_get_booked in Hj as (Hf1 & _ & pos & Hpos & Hi & Huniq); [|by apply last_active_booked].
    apply obind_Ok in H as (y & [_ Hy]%idx_Ok & H). rewrite Nat2Z.id in Hy. assert (y = pos) as -> by congruence.
    apply obind_Ok in H as ([y' m2] & Hy'%update_quote_requoted & H).
    apply obind_Ok in H as (l2 & [_ ->]%set_idx_Ok & [= <- <- _ _]). rewrite Nat2Z.id. split_and!; [done..|].
    intros v [= <-]. apply orders_booked_positions; [done|]. apply (booked_position _ _ _ pos); [apply Hf1|done| |].
    + intros _ a b Hne Hb Hav. destruct Hy' as (? & ? & ->). cbn. rewrite Hi. by apply (Huniq a).
    + intros i g h Hg. by eapply requoted_share.
  - injection H as <- <- _ _. split_and!; [done..|]. intros v [= <-]. by apply last_active_booked.
Qed.

(** What triggering leaves of the order. *)
Record triggered_from (ord ord' : Order) : Prop := {
  tf_status : o_status ord' = o_status ord;
  tf_market_type : o_market_type ord' = o_market_type ord;
  tf_index : o_market_index ord' = o_market_index ord;
  tf_type : o_order_type ord' = o_order_type ord;
  tf_direction : o_direction ord' = o_direction ord;
  tf_base : o_base_asset_amount ord' = o_base_asset_amount ord;
  tf_filled : o_base_asset_amount_filled ord' = o_base_asset_amount_filled ord;
  tf_triggered : triggered ord' = true;
}.

Lemma update_trigger_Ok ord price slot n m ord' :
  update_trigger_order_params ord price slot n m = Ok ord' -> triggered_from ord ord'.
Proof.
  intros H. unfold update_trigger_order_params in H. apply obind_Ok in H as (c & Hc & H). cbv zeta in H.
  apply obind_Ok in H as ([[k a] z] & _ & [= <-]).
  assert (c = TriggeredAbove \/ c = TriggeredBelow) as Hc' by (destruct (o_trigger_condition ord); try discriminate Hc; injection Hc as <-; tauto).
  set (b := (150 <? _) && _). clearbody b.
  assert (forall x : Order, triggered_from ord x -> triggered_from ord (add_bit_flag x OracleTriggerMarket)) as Hflag.
  { intros x [? ? ? ? ? ? ? ?]. constructor; assumption. }
  assert (triggered_from ord ((if b then add_bit_flag (ord <| o_trigger_condition := c |>) SafeTriggerOrder
            else ord <| o_trigger_condition := c |>) <| o_slot := slot |> <| o_auction_duration := k |>
            <| o_auction_start_price := a |> <| o_auction_end_price := z |>)) as Hx.
  { destruct b; split; cbn; try reflexivity; unfold triggered; cbn; by destruct Hc' as [->| ->]. }
  set (x := _ <| o_auction_end_price := z |>) in *. clearbody x. destruct (o_order_type _); [exact Hx|exact Hx|exact (Hflag _ Hx)|exact Hx|exact Hx].
Qed.

(** A user's counters after one of his open orders is triggered. *)
Lemma triggered_counts u n ord ord' :
  orders_booked u -> u_orders u !! n = Some ord -> is_open ord = true -> has_auction ord = false -> is_open ord' = true ->
  let w := u <| u_orders := <[n := ord']> (u_orders u) |> in
  let v := if has_auction ord' then increment_open_auctions w else w in
  u_perp_positions v = u_perp_positions u /\ u_orders v = <[n := ord']> (u_orders u)
  /\ u_open_orders v = sum_z open_share (<[n := ord']> (u_orders u)) /\ u_has_open_order v = (0 <? u_open_orders v)
  /\ u_open_auctions v = sum_z auction_share (<[n := ord']> (u_orders u)) /\ u_has_open_auction v = (0 <? u_open_auctions v).
Proof.
  intros [_ _ Hlen Hc Ha Hh Hk] Hn Ho Ha0 Ho'. rewrite !(sum_z_insert _ _ n ord) by done.
  pose proof (count_bound _ auction_share Hlen auction_share_unit) as Hbound.
  assert (open_share ord = 1 /\ open_share ord' = 1 /\ auction_share ord = 0
          /\ auction_share ord' = if has_auction ord' then 1 else 0) as (E1 & E2 & E3 & E4).
  { unfold open_share, auction_share. by rewrite Ho, Ho', Ha0. }
  rewrite E1, E2, E3, E4. unfold increment_open_auctions.
  destruct (has_auction ord'); cbn; rewrite ?Hc, ?Ha, ?Hh, ?Hk; unfold usat; split_and!; try reflexivity; lia.
Qed.

Lemma triggered_sound ord ord' : sound_order ord -> is_open ord = true -> triggered_from ord ord' -> sound_order ord'.
Proof.
  intros [Hu _] Ho [_ _ _ _ _ Fb Ff Ftr]. split; [|intros _ _; congruence]. intros _. unfold unfilled. rewrite Fb, Ff. exact (Hu Ho).
Qed.

Lemma book_trigger_booked u n ord price slot m u' :
  orders_booked u -> u_orders u !! n = Some ord -> is_open ord = true -> must_be_triggered ord = true -> triggered ord = false ->
  o_market_type ord = Perp -> book_trigger u n (o_market_index ord) price slot m = Ok u' -> orders_booked u'.
Proof.
  intros Hu Hn Ho Hm Ht Hperp H. pose proof Hu as [Hb Hs Hlen Hc Ha Hh Hk]. unfold book_trigger in H.
  apply obind_Ok in H as (ord1 & [_ Hn1]%idx_Ok & H). rewrite Nat2Z.id in Hn1. assert (ord1 = ord) as -> by congruence.
  apply obind_Ok in H as (ord' & [Fs Fm Fi Ft Fd Fb Ff Ftr]%update_trigger_Ok & H).
  apply obind_Ok in H as (u1 & [-> _]%update_order_Ok & H). cbv zeta in H.
  assert (open_in (o_market_index ord) ord = true /\ open_in (o_market_index ord) ord' = true) as [Hin Hin'].
  { unfold open_in, is_open in *. rewrite Fs, Fm, Fi, Hperp, Z.eqb_refl. by rewrite Ho. }
  assert (is_open ord' = true) as Ho' by (unfold is_open in *; by rewrite Fs).
  destruct (so_untriggered _ (Forall_lookup_1 _ _ _ _ Hs Hn) Ho Hm Ht) as [Hf0 Ha0].
  assert (update_open_bids_and_asks ord = false) as Hno by (unfold update_open_bids_and_asks; by rewrite Hm, Ht).
  assert (bid_of ord = 0 /\ ask_of ord = 0) as [Hb0 Hk0] by (unfold bid_of, ask_of; by rewrite Hno).
  destruct (triggered_counts u n ord ord' Hu Hn Ho Ha0 Ho') as (V1 & V2 & V3 & V4 & V5 & V6).
  set (v := if has_auction ord' then increment_open_auctions _ else _) in *.
  clearbody v. apply obind_Ok in H as (k & (q & Hq & Hfor & _)%get_position_Ok & H).
  apply update_position_Ok in H as (p & p' & Hp & Hinc & ->). rewrite V1 in *. assert (q = p) as -> by congruence.
  replace (o_base_asset_amount ord') with (unfilled ord') in Hinc by (unfold unfilled; lia).
  apply increase_moved in Hinc as (M1 & M2 & M3 & M4).
  split; cbn; rewrite ?V2; try done; [| |by rewrite length_insert].
  - apply (booked_step _ _ _ p _ _ ord); [done..| |].
    + apply (may_replace_same _ _ p); [apply Hb|done| |done]. unfold is_for in Hfor. destruct (is_available p); [|done].
      by rewrite andb_false_r in Hfor.
    + intros j f g Hf. rewrite !(open_shares _ (o_market_index ord)) by done. unfold position_share.
      rewrite M1, (is_for_index _ _ Hfor). destruct (o_market_index ord =? j); [|lia].
      each_book Hf; lia.
  - apply sound_insert; [done|]. apply (triggered_sound ord); [exact (Forall_lookup_1 _ _ _ _ Hs Hn)|done|by split].
Qed.

(** ** Whole operations *)

Lemma cancel_by_id_booked id u ms o slot u' o' :
  orders_booked u -> cancel_order_by_order_id id u ms o slot = Ok (u', o') -> orders_booked u'.
Proof.
  intros Hu H. unfold cancel_order_by_order_id in H. destruct (get_order_index u id); [|by injection H as <- _..].
  apply obind_Ok in H as ([v o1] & Hc & [= <- _]). apply last_active_booked. by eapply cancel_order_booked.
Qed.
Lemma cancel_by_user_id_booked id u ms o slot u' o' :
  orders_booked u -> cancel_order_by_user_order_id id u ms o slot = Ok (u', o') -> orders_booked u'.
Proof.
  intros Hu H. unfold cancel_order_by_user_order_id in H. destruct (position_of _ _); [|by injection H as <- _].
  apply obind_Ok in H as ([v o1] & Hc & [= <- _]). apply last_active_booked. by eapply cancel_order_booked.
Qed.
Lemma cancel_reduce_only_booked u ms o i u' o' :
  orders_booked u -> cancel_reduce_only_trigger_orders u ms o i = Ok (u', o') -> orders_booked u'.
Proof.
  intros Hu H. unfold cancel_reduce_only_trigger_orders in H. apply obind_Ok in H as ([[v o1] l] & Hc & [= <- _]).
  by eapply cancel_all_booked.
Qed.

Lemma modify_order_booked place_spot id q s u ms o now slot u' o' :
  (forall v w p v' w', orders_booked v -> place_spot v w p = Ok (v', w') -> orders_booked v') ->
  orders_booked u -> modify_order place_spot id q s u ms o now slot = Ok (u', o') -> orders_booked u'.
Proof.
  intros Hspot Hu H. unfold modify_order in H.
  destruct (match id with ByUserOrderId i => _ | ByOrderId i => _ end) as [n|e|]; [| |done].
  2: { destruct (must_modify q); [done|by injection H as <- _]. }
  apply obind_Ok in H as (ord & _ & H). apply obind_Ok in H as ([u1 o1] & [Hu1 _]%cancel_order_booked & H); [|done].
  cbv zeta in H. pose proof (last_active_booked _ slot Hu1) as Hu2.
  apply obind_Ok in H as (p & _ & H). destruct p as [p|]; [|by injection H as <- _].
  destruct (op_market_type p); [by eapply Hspot|].
  apply obind_Ok in H as ([[u3 o3] h] & H3 & [= <- _]). by eapply place_perp_order_booked.
Qed.

Lemma get_order_index_Ok u id n :
  get_order_index u id = Ok n -> exists ord, u_orders u !! n = Some ord /\ is_open ord = true.
Proof.
  intros (ord & Hn & Ho)%ok_or_Ok%position_of_Some. exists ord. split; [done|].
  unfold is_open_id in Ho. unfold is_open. by apply andb_true_iff in Ho as [? ?].
Qed.

Lemma trigger_order_booked id s u ms o f now slot u' f' ms' o' :
  orders_booked u -> (forall v, f = Some v -> orders_booked v) ->
  trigger_order id s u ms o f now slot = Ok (u', f', ms', o') ->
  orders_booked u' /\ forall v, f' = Some v -> orders_booked v.
Proof.
  intros Hu Hf H. unfold trigger_order in H. apply obind_Ok in H as (n & (ord & Hn & Ho)%get_order_index_Ok & H).
  apply obind_Ok in H as (ord1 & [_ Hn1]%idx_Ok & H). rewrite Nat2Z.id in Hn1. assert (ord1 = ord) as -> by congruence.
  apply obind_Ok in H as (w1 & Hm%validate_Ok & H). destruct (triggered ord) eqn:Ht; [by injection H as <- <- _ _|].
  apply obind_Ok in H as (w2 & Hp%validate_Ok & H). apply bool_decide_eq_true in Hp.
  apply obind_Ok in H as ([u1 o1] & [Hu1 Eo]%not_being_liquidated_booked & H); [|done].
  apply obind_Ok in H as (w3 & _ & H). cbv zeta in H. apply obind_Ok in H as (m & _ & H).
  apply obind_Ok in H as ([pr o2] & _ & H). apply obind_Ok in H as (p & _ & H). apply obind_Ok in H as ([x1 before] & _ & H).
  apply obind_Ok in H as (u2 & Hu2%(book_trigger_booked u1 n ord) & H); try done; [|by rewrite Eo].
  apply obind_Ok in H as ([[[u3 f3] m3] r] & (Hu3 & _ & Hf3)%pay_keeper_booked & H); try done.
  apply obind_Ok in H as (p' & _ & H). apply obind_Ok in H as ([x2 after] & _ & H).
  apply obind_Ok in H as ([u4 o4] & H4 & [= <- <- _ _]). split; [|done]. apply last_active_booked.
  destruct (_ && _); [|by injection H4 as <- _]. apply obind_Ok in H4 as (ok & _ & H4).
  destruct ok; [by injection H4 as <- _|]. by eapply cancel_order_booked.
Qed.

End Steps.
