(* ===== verification/DriftSpotOrders.v ===== *)
(** Spot orders: placing and triggering them, the rewards paid in the quote
    asset, and the cancelling of the orders of a user short of collateral
    ([controller/orders.rs], [calculate_max_spot_order_size] of [math/orders.rs]);
    then every operation on orders as one relation.

    The theorem: whatever is placed, modified, cancelled, expired or triggered,
    spot or perpetual, the counters of a user and the bids and asks of his
    positions stay those of the orders that are open. *)
From stdpp Require Import gmap relations.
From S2P Require Import Prelude.
From S2P Require Import RecordUpdate.
From S2P Require Import DriftError.
From S2P Require Import DriftMath.
From S2P Require Import DriftSpotMarket.
From S2P Require Import DriftSpotBalance.
From S2P Require Import DriftTypes.
From S2P Require Import DriftOracle.
From S2P Require Import DriftOrderMath.
From S2P Require Import DriftAmm.
From S2P Require Import DriftSpread.
From S2P Require Import DriftPosition.
From S2P Require Import DriftUser.
From S2P Require Import DriftFunding.
From S2P Require Import DriftOracleMap.
From S2P Require Import DriftMargin.
From S2P Require Import DriftLiquidation.
From S2P Require Import DriftFees.
From S2P Require Import DriftOrderParams.
From S2P Require Import DriftOrders.

Section SpotOrders.
Context {roots : Roots}.

(** ** The largest order *)

Definition unwrap_result {A} (x : DriftResult A) : DriftResult A := match x with Ok a => Ok a | _ => Panic end.

Definition calculate_free_collateral_delta_for_spot (m : SpotMarket) (worst_case_token_amount : Z) (p : StrictOraclePrice)
    (d : PositionDirection) (custom_liability_weight custom_asset_weight : Z) : DriftResult Z :=
  match d with
  | Long =>
      let! w := get_asset_weight m worst_case_token_amount (current p) Initial in
      uchk 32 (SPOT_WEIGHT_PRECISION - Z.min w custom_asset_weight)
  | Short =>
      let! w := get_liability_weight m worst_case_token_amount Initial in
      uchk 32 (Z.max w custom_liability_weight - SPOT_WEIGHT_PRECISION)
  end.

(** The free collateral one unit takes, and the size the difference buys. *)
Definition size_of_difference (m : SpotMarket) (max_oracle_price weight free_collateral_difference : Z) : DriftResult Z :=
  let! x := safe_i 128 (weight - SPOT_WEIGHT_PRECISION) in
  let! x := ichk 128 (Z.abs x) in
  let! x := safe_i 128 (x * max_oracle_price) in
  let! x := safe_idiv 128 x PRICE_PRECISION in
  let! x := safe_i 128 (x * QUOTE_PRECISION) in
  let! per_order := safe_idiv 128 x SPOT_WEIGHT_PRECISION in
  let! precision := uchk 64 (10 ^ decimals m) in
  let! x := safe_i 128 (free_collateral_difference * precision) in
  let! x := safe_idiv 128 x per_order in
  cast_u 64 x.

(** The part of the value of an amount a weight keeps out of the collateral. *)
Definition regained (m : SpotMarket) (p : StrictOraclePrice) (token_amount : Z) (distance : Z -> DriftResult Z) :
    DriftResult Z :=
  let! v := get_strict_token_value token_amount (decimals m) p in
  let! k := distance token_amount in
  let! a := ichk 128 (Z.abs v) in
  let! x := safe_i 128 (a * k) in
  safe_idiv 128 x SPOT_WEIGHT_PRECISION.

(** The size that takes the worst case through zero to the other side, and the
    worst case after it. *)
Definition order_size_to_flip (m : SpotMarket) (p : StrictOraclePrice) (d : PositionDirection)
    (bid ask : OrderFillSimulation) (custom_liability_weight custom_asset_weight : Z) : DriftResult (Z * Z) :=
  let worst := fs_token_amount (riskier_side ask bid) in
  let flip (near far : OrderFillSimulation) (crosses : bool)
           (distance : Z -> DriftResult Z) (weight : Z -> DriftResult Z) :=
    let! diff := safe_i 128 (fs_free_collateral_contribution near - fs_free_collateral_contribution far) in
    let diff := Z.max diff 0 in
    let amount := fs_token_amount near in
    let! '(diff, size, amount) :=
      if crosses then
        let! back := regained m p amount distance in
        let! diff := safe_i 128 (diff + back) in
        let! a := ichk 128 (Z.abs amount) in
        let! size := cast_u 64 a in
        Ok (diff, size, 0)
      else Ok (diff, 0, amount) in
    let! w := weight amount in
    let! x := size_of_difference m (strict_max p) w diff in
    let! size := safe_u 64 (size + x) in
    let! worst := safe_i 128 (amount - size) in
    Ok (size, worst) in
  if (worst <? 0) && bool_decide (d = Long) then
    flip bid ask (fs_token_amount bid <? 0)
      (fun a => let! w := get_liability_weight m (Z.abs a) Initial in
                safe_u 32 (Z.max w custom_liability_weight - SPOT_WEIGHT_PRECISION))
      (fun a => let! w := get_asset_weight m (Z.abs a) (current p) Initial in Ok (Z.min w custom_asset_weight))
  else if (0 <? worst) && bool_decide (d = Short) then
    flip ask bid (0 <? fs_token_amount ask)
      (fun a => let! w := get_asset_weight m (Z.abs a) (current p) Initial in
                safe_u 32 (SPOT_WEIGHT_PRECISION - Z.min w custom_asset_weight))
      (fun a => let! w := get_liability_weight m (Z.abs a) Initial in Ok (Z.max w custom_liability_weight))
  else Ok (0, worst).

(** At most six rounds; they stop when the delta is the first one again. *)
Fixpoint find_spot_order_size (n : nat) (round : Z -> DriftResult (Z * Z)) (first_delta delta size : Z) : DriftResult Z :=
  match n with
  | O => Ok size
  | S n =>
      let! '(size, delta) := round delta in
      if delta =? first_delta then Ok size else find_spot_order_size n round first_delta delta size
  end.

Definition calculate_max_spot_order_size (u : User) (market_index : Z) (d : PositionDirection) (ms : Markets) (o : OracleMap) :
    DriftResult (Z * OracleMap) :=
  let! '(c, o) := calculate_margin_requirement_and_total_collateral_and_liability_info u ms o (standard Initial <| strict := true |>) in
  let ratio := u_max_margin_ratio u in
  let custom_liability_weight := usat 32 (ratio + SPOT_WEIGHT_PRECISION) in
  let custom_asset_weight := usat 32 (SPOT_WEIGHT_PRECISION - ratio) in
  let! req := cast_i 128 (margin_requirement c) in
  let! free := safe_i 128 (total_collateral c - req) in
  let! m := spot_get_ref (mk_spots ms) market_index in
  let! '(od, o) := get_price_data o (spot_oracle_id m) in
  let p := strict_new (price od) (last_oracle_price_twap_5min (historical_oracle_data m)) true in
  let! sp := get_spot_position u market_index in
  let! token_amount := spot_get_signed_token_amount sp m in
  let! '(bid, ask) := simulate_fills_both_sides sp m p (Some token_amount) Initial in
  let! bid := unwrap_result (apply_user_custom_margin_ratio bid m (current p) ratio) in
  let! ask := unwrap_result (apply_user_custom_margin_ratio ask m (current p) ratio) in
  let! '(to_flip, worst) := order_size_to_flip m p d bid ask custom_liability_weight custom_asset_weight in
  if free <=? 0 then
    let! s := standardize_base_asset_amount to_flip (sm_order_step_size m) in Ok (s, o)
  else
    let! first_delta :=
      calculate_free_collateral_delta_for_spot m (Z.abs worst) p d custom_liability_weight custom_asset_weight in
    let! '(numerator_scale, denominator_scale) :=
      if 6 <? decimals m then let! n := ichk 128 (10 ^ (decimals m - 6)) in Ok (n, 1)
      else let! n := ichk 128 (10 ^ (6 - decimals m)) in Ok (1, n) in
    let round delta :=
      let! x := safe_i 128 (free - OPEN_ORDER_MARGIN_REQUIREMENT) in
      let! x := safe_i 128 (x * numerator_scale) in
      let! x := safe_idiv 128 x denominator_scale in
      let! x := safe_i 128 (x * SPOT_WEIGHT_PRECISION) in
      let! x := safe_idiv 128 x delta in
      let! x := safe_i 128 (x * PRICE_PRECISION) in
      let! x := safe_idiv 128 x (strict_max p) in
      let! size := cast_u 64 x in
      let! w := safe_u 128 (Z.abs worst + size) in
      let! delta := calculate_free_collateral_delta_for_spot m w p d custom_liability_weight custom_asset_weight in
      Ok (size, delta) in
    let! size := find_spot_order_size 6 round first_delta first_delta 0 in
    let! x := safe_u 64 (size + to_flip) in
    let! s := standardize_base_asset_amount x (sm_order_step_size m) in
    Ok (s, o).

(** ** Placing *)

Definition spot_max_ts (p : OrderParams) (now : Z) : DriftResult Z :=
  match op_max_ts p with
  | Some t => Ok t
  | None => match op_order_type p with MarketOrder | OracleOrder => safe_i 64 (now + 30) | _ => Ok 0 end
  end.

Definition spot_market_is_reduce_only (m : SpotMarket) : bool := bool_decide (sm_status m = ReduceOnly).

(** A free place; the user's own id must not be in use. *)
Definition free_place (u : User) (user_order_id : Z) : DriftResult nat :=
  let! i := ok_or (position_of order_is_available (u_orders u)) MaxNumberOfOrders in
  do! validate (negb ((0 <? user_order_id)
         && existsb (fun x => (o_user_order_id x =? user_order_id) && negb (order_is_available x)) (u_orders u)))
      UserOrderIdAlreadyInUse in
  Ok i.

(** The size of a new order; the largest possible when the maximum is asked for. *)
Definition new_spot_order_size (p : OrderParams) (u : User) (m : SpotMarket) (ms : Markets) (o : OracleMap) :
    DriftResult (Z * OracleMap) :=
  do! validate (sm_order_step_size m <=? op_base_asset_amount p) InvalidOrderSizeTooSmall in
  let! '(base, o) :=
    if (op_base_asset_amount p =? umax 64) && negb (is_trigger_order p && op_reduce_only p) then
      calculate_max_spot_order_size u (op_market_index p) (op_direction p) ms o
    else let! s := standardize_base_asset_amount (op_base_asset_amount p) (sm_order_step_size m) in Ok (s, o) in
  let! b := is_multiple_of_step_size base (sm_order_step_size m) in
  do! validate b InvalidOrderNotStepSizeMultiple in
  Ok (base, o).

(** The order the parameters describe. *)
Definition new_spot_order (p : OrderParams) (m : SpotMarket) (slot order_id base : Z) (existing : PositionDirection)
    (auction : Z * Z * Z) (max_ts : Z) (reduce_only : bool) : DriftResult Order :=
  let '(a, z, n) := auction in
  let flags := set_order_bit_flag 0 (is_trigger_order p && reduce_only) NewTriggerReduceOnly in
  let! limit := standardize_price (op_price p) (sm_order_tick_size m) (op_direction p) in
  let! trigger := standardize_price (default 0 (op_trigger_price p)) (sm_order_tick_size m) (op_direction p) in
  Ok (mkOrder slot limit base 0 0 trigger a z max_ts (default 0 (op_oracle_price_offset p)) order_id
        (op_market_index p) OrderOpen (op_order_type p) (op_market_type p) (op_user_order_id p) existing (op_direction p)
        reduce_only (negb (bool_decide (op_post_only p = PostOnlyNone))) (is_immediate_or_cancel p) (op_trigger_condition p)
        n (get_posted_slot_from_clock_slot slot) flags).

(** Puts the order in its place and books it. *)
Definition book_spot_order (u : User) (new_order_index position_index : nat) (ord : Order) : DriftResult User :=
  let u := increment_open_orders u (has_auction ord) in
  let! u := update_order u new_order_index ord in
  update_spot_position u position_index (fun p =>
    let! n := uchk 8 (sp_open_orders p + 1) in
    increase_spot_open_bids_and_asks (p <| sp_open_orders := n |>) (o_direction ord) (o_base_asset_amount ord)
      (update_open_bids_and_asks ord)).

Definition check_spot_placement (u : User) (ms : Markets) (o : OracleMap) (m : SpotMarket) (opts : PlaceOrderOptions)
    (ord : Order) (signed_token_amount : Z) : DriftResult OracleMap :=
  let! o := if enforce_margin_check opts
            then meets_place_order_margin_requirement u ms o (opt_risk_increasing opts) None else Ok o in
  let! o := validate_spot_margin_trading u ms o in
  do! if spot_market_is_reduce_only m
      then let! x := cast_i 64 signed_token_amount in validate_order_for_force_reduce_only ord x else Ok tt in
  Ok o.

(** The pool and the state of the market. *)
Definition check_spot_market_open (u : User) (m : SpotMarket) : DriftResult unit :=
  do! validate (u_pool_id u =? 0) InvalidPoolId in
  validate (negb (bool_decide (sm_status m = Initialized))) MarketBeingInitialized.
Definition check_spot_order_allowed (p : OrderParams) (m : SpotMarket) : DriftResult unit :=
  do! validate (orders_enabled m) SpotOrdersDisabled in
  do! validate (negb (op_market_index p =? QUOTE_SPOT_MARKET_INDEX)) InvalidOrderBaseQuoteAsset in
  validate (bool_decide (op_market_type p = Spot)) InvalidOrderMarketType.

Definition place_spot_order (s : State) (u : User) (ms : Markets) (o : OracleMap) (now slot : Z) (p : OrderParams)
    (opts : PlaceOrderOptions) : DriftResult (User * OracleMap) :=
  let! '(u, o) := validate_user_not_being_liquidated u ms o (liquidation_margin_buffer_ratio s) in
  do! validate (negb (user_is_bankrupt u)) UserBankrupt in
  let! '(u, o) := if try_expire_orders opts then expire_orders u ms o now else Ok (u, o) in
  do! validate (negb (is_reduce_only u) || op_reduce_only p) DriftError.UserReduceOnly in
  let! max_ts := spot_max_ts p now in
  if negb (max_ts =? 0) && (max_ts <? now) then Ok (u, o)
  else
    let! new_order_index := free_place u (op_user_order_id p) in
    let! m := spot_get_ref (mk_spots ms) (op_market_index p) in
    do! check_spot_market_open u m in
    let! '(u, position_index) := force_get_spot_position_index u (op_market_index p) in
    let! pos := idx (u_spot_positions u) (Z.of_nat position_index) in
    let! signed_token_amount := spot_get_signed_token_amount pos m in
    let! '(od, o) := get_price_data o (spot_oracle_id m) in
    let! '(base, o) := new_spot_order_size p u m ms o in
    let existing := if 0 <=? signed_token_amount then Long else Short in
    let! auction := get_auction_params p (price od) (sm_order_tick_size m) (default_spot_auction_duration s) in
    do! check_spot_order_allowed p m in
    let reduce_only := op_reduce_only p || spot_market_is_reduce_only m in
    let '(u, order_id) := take_order_id u in
    let! ord := new_spot_order p m slot order_id base existing auction max_ts reduce_only in
    do! validate_spot_order ord (sm_order_step_size m) (sm_min_order_size m) in
    let! x := cast_i 64 signed_token_amount in
    let! risk_increasing := is_new_order_risk_increasing ord x (sp_open_bids pos) (sp_open_asks pos) in
    let! u := book_spot_order u new_order_index position_index ord in
    let! o := check_spot_placement u ms o m (update_risk_increasing opts risk_increasing) ord signed_token_amount in
    Ok (update_last_active_slot u slot, o).

(** ** Rewards in the quote asset *)

(** A transfer to or from the quote position; [get_quote_spot_position_mut]
    panics without one. *)
Definition move_quote (u : User) (m : SpotMarket) (x : Z) (dir : SpotBalanceType) : DriftResult (User * SpotMarket) :=
  let! i := unwrap_result (get_spot_position_index u QUOTE_SPOT_MARKET_INDEX) in
  let! q := idx (u_spot_positions u) (Z.of_nat i) in
  let! '(m, q) := update_spot_balances x dir m q false in
  let! l := set_idx (u_spot_positions u) (Z.of_nat i) q in
  Ok (u <| u_spot_positions := l |>, m).

Definition pay_keeper_flat_reward_for_spot (u : User) (filler : option User) (m : SpotMarket) (filler_reward slot : Z) :
    DriftResult (User * option User * SpotMarket * Z) :=
  match filler with
  | None => Ok (u, None, m, 0)
  | Some f =>
      let! '(f, m) := move_quote f m filler_reward Deposit in
      let f := update_last_active_slot f slot in
      let! r := cast_i 64 filler_reward in
      let! f := update_cumulative_spot_fees f r in
      let! '(u, m) := move_quote u m filler_reward Borrow in
      let! u := update_cumulative_spot_fees u (- r) in
      Ok (u, Some f, m, filler_reward)
  end.

(** ** Triggering *)

Definition book_spot_trigger (u : User) (order_index : nat) (market_index oracle_price slot : Z) : DriftResult User :=
  let! ord := idx (u_orders u) (Z.of_nat order_index) in
  let! ord := update_trigger_order_params ord oracle_price slot 20 None in
  let! u := update_order u order_index ord in
  let u := if has_auction ord then increment_open_auctions u else u in
  let! '(u, i) := force_get_spot_position_index u market_index in
  update_spot_position u i (fun p =>
    increase_spot_open_bids_and_asks p (o_direction ord) (o_base_asset_amount ord) (update_open_bids_and_asks ord)).

Definition check_spot_trigger (s : State) (m : SpotMarket) (o : OracleMap) (ord : Order) : DriftResult (Z * OracleMap) :=
  let! '(od, v, o) := get_price_data_and_validity o (spot_oracle_id m) (spot_validity_terms m) in
  do! validate (is_oracle_valid_for_action v (Some TriggerOrder)) InvalidOracle in
  let! max_divergence := cast_i 64 (max_oracle_twap_5min_percent_divergence (oracle_guard_rails s)) in
  let! divergent := is_oracle_too_divergent_with_twap_5min (price od)
                      (last_oracle_price_twap_5min (historical_oracle_data m)) max_divergence in
  do! validate (negb divergent) OrderBreachesOraclePriceLimits in
  let! can_trigger := order_satisfies_trigger_condition ord (Z.abs (price od)) in
  do! validate can_trigger OrderDidNotSatisfyTriggerCondition in
  Ok (price od, o).

Definition trigger_spot_order (order_id : Z) (s : State) (u : User) (ms : Markets) (o : OracleMap) (filler : option User)
    (slot : Z) : DriftResult (User * option User * Markets * OracleMap) :=
  let! order_index := get_order_index u order_id in
  let! ord := idx (u_orders u) (Z.of_nat order_index) in
  do! validate (must_be_triggered ord) OrderNotTriggerable in
  do! validate (negb (triggered ord)) OrderNotTriggerable in
  do! validate (bool_decide (o_market_type ord = Spot)) InvalidOrderMarketType in
  let! '(u, o) := validate_user_not_being_liquidated u ms o (liquidation_margin_buffer_ratio s) in
  do! validate (negb (user_is_bankrupt u)) UserBankrupt in
  let market_index := o_market_index ord in
  let! m := spot_get_ref (mk_spots ms) market_index in
  let! '(oracle_price, o) := check_spot_trigger s m o ord in
  let p := mkStrictOraclePrice oracle_price (Some (last_oracle_price_twap_5min (historical_oracle_data m))) in
  let! pos := get_spot_position u market_index in
  let! tokens := spot_get_signed_token_amount pos m in
  let! before := get_worst_case_fill_simulation pos m p (Some tokens) Initial in
  let! u := book_spot_trigger u order_index market_index oracle_price slot in
  do! validate (negb (market_index =? QUOTE_SPOT_MARKET_INDEX)) UnableToLoadSpotMarketAccount in
  let! q := spot_get_ref (mk_spots ms) QUOTE_SPOT_MARKET_INDEX in
  let! '(u, filler, q, _) := pay_keeper_flat_reward_for_spot u filler q (flat_filler_fee (spot_fee_structure s)) slot in
  let! pos := get_spot_position u market_index in
  let! after := get_worst_case_fill_simulation pos m p (Some tokens) Initial in
  let ms := put_spot ms QUOTE_SPOT_MARKET_INDEX q in
  let! '(u, o) :=
    if risk_increasing before after && negb (o_reduce_only ord) then
      let! ok := meets_initial_margin_requirement u ms o in
      if ok then Ok (u, o) else cancel_order order_index u ms o false
    else Ok (u, o) in
  Ok (update_last_active_slot u slot, filler, ms, o).

(** ** Orders of a user short of collateral *)

(** The fee of cancelling an order; none of one that may stay: it reduces its
    position, or the margin it counts for is met. *)
Definition force_cancel_fee (s : State) (u : User) (ms : Markets) (c : MarginCalculation) (ord : Order) :
    DriftResult (option Z) :=
  match o_market_type ord with
  | Spot =>
      let! m := spot_get_ref (mk_spots ms) (o_market_index ord) in
      let! sp := get_spot_position u (o_market_index ord) in
      let! t := spot_get_signed_token_amount sp m in
      let! t := cast_i 64 t in
      let! x := get_base_asset_amount_unfilled ord (Some t) in
      Ok (if is_order_position_reducing (o_direction ord) x t || meets_cross_margin_requirement c then None
          else Some (flat_filler_fee (spot_fee_structure s)))
  | Perp =>
      let! p := get_perp_position u (o_market_index ord) in
      let! x := get_base_asset_amount_unfilled ord (Some (pp_base_asset_amount p)) in
      if is_order_position_reducing (o_direction ord) x (pp_base_asset_amount p) then Ok None
      else
        let! met := if is_isolated p then meets_isolated_margin_requirement c (o_market_index ord)
                    else Ok (meets_cross_margin_requirement c) in
        Ok (if met then None else Some (flat_filler_fee (perp_fee_structure s)))
  end.

Definition force_cancel_order (s : State) (ms : Markets) (c : MarginCalculation) (t : User * OracleMap * Z) (i : nat) :
    DriftResult (User * OracleMap * Z) :=
  let '(u, o, total_fee) := t in
  let! ord := idx (u_orders u) (Z.of_nat i) in
  if negb (bool_decide (o_status ord = OrderOpen)) then Ok t
  else
    let! fee := force_cancel_fee s u ms c ord in
    match fee with
    | None => Ok t
    | Some fee =>
        let! total_fee := safe_u 64 (total_fee + fee) in
        let! '(u, o) := cancel_order i u ms o false in
        Ok (u, o, total_fee)
    end.

Definition force_cancel_orders (s : State) (u : User) (ms : Markets) (o : OracleMap) (filler : User) (slot : Z) :
    DriftResult (User * User * Markets * OracleMap) :=
  do! validate (negb (user_is_being_liquidated u)) UserIsBeingLiquidated in
  do! validate (negb (user_is_bankrupt u)) UserBankrupt in
  let! '(c, o) := calculate_margin_requirement_and_total_collateral_and_liability_info u ms o (standard Initial) in
  do! validate (negb (meets_margin_requirement c)) SufficientCollateral in
  let! '(u, o, total_fee) := foldO (force_cancel_order s ms c) (u, o, 0) (seq 0 (length (u_orders u))) in
  let! q := spot_get_ref (mk_spots ms) QUOTE_SPOT_MARKET_INDEX in
  let! '(u, f, q, _) := pay_keeper_flat_reward_for_spot u (Some filler) q total_fee slot in
  Ok (update_last_active_slot u slot, default filler f, put_spot ms QUOTE_SPOT_MARKET_INDEX q, o).

(** * The books *)

Lemma spot_positions_booked u l : orders_booked u -> orders_booked (u <| u_spot_positions := l |>).
Proof. intros [? ? ? ? ? ? ?]. constructor; assumption. Qed.

Lemma force_get_spot_booked u i u' k :
  orders_booked u -> force_get_spot_position_index u i = Ok (u', k) -> orders_booked u' /\ u_orders u' = u_orders u.
Proof.
  intros Hu H. unfold force_get_spot_position_index in H.
  destruct (get_spot_position_index u i); [injection H as <- _; done| |done].
  unfold add_spot_position in H. apply obind_Ok in H as (j & _ & H). cbv zeta in H.
  apply obind_Ok in H as (l & _ & [= <- _]). split; [by apply spot_positions_booked|done].
Qed.

Lemma update_spot_position_booked u i f u' : orders_booked u -> update_spot_position u i f = Ok u' -> orders_booked u'.
Proof. intros Hu [l ->]%update_spot_position_frame. by apply spot_positions_booked. Qed.

Lemma spot_order_share ord i g : o_market_type ord = Spot -> order_share i g ord = 0.
Proof. intros H. unfold order_share, open_in. rewrite H. by rewrite andb_false_r. Qed.

Lemma book_spot_order_booked u n k ord u' old :
  orders_booked u -> u_orders u !! n = Some old -> is_open old = false -> is_open ord = true -> o_market_type ord = Spot ->
  sound_order ord -> book_spot_order u n k ord = Ok u' -> orders_booked u'.
Proof.
  intros Hu Hn Hold Ho Hm Hs H. pose proof Hu as [Hb Hso Hlen _ _ _ _].
  unfold book_spot_order in H. cbv zeta in H. apply obind_Ok in H as (u1 & [-> _]%update_order_Ok & H).
  apply update_spot_position_booked in H; [done|].
  destruct (opened_counts u n old ord Hu Hn Hold Ho) as (C1 & C2 & C3 & C4 & C5 & C6).
  set (v := increment_open_orders u (has_auction ord)) in *. clearbody v.
  split; cbn; rewrite ?C5, ?C6; try done; [|by apply sound_insert|rewrite length_insert; exact Hlen].
  apply (booked_order _ _ _ old); [exact Hb|exact Hn|]. intros i g. by rewrite (closed_share old), spot_order_share.
Qed.

Lemma free_place_closed u id n : free_place u id = Ok n -> exists old, u_orders u !! n = Some old /\ is_open old = false.
Proof.
  intros H. unfold free_place in H. apply obind_Ok in H as (k & Hk%ok_or_Ok & H). apply obind_Ok in H as (w & _ & [= <-]).
  apply position_of_Some in Hk as (old & Hold & Ha). exists old. split; [done|].
  unfold order_is_available in Ha. unfold is_open. by destruct (bool_decide _).
Qed.

Lemma new_spot_order_Ok p m slot id base ex auction max_ts ro ord :
  new_spot_order p m slot id base ex auction max_ts ro = Ok ord ->
  fresh_order p ord /\ o_base_asset_amount ord = base /\ o_auction_duration ord = auction.2.
Proof.
  unfold new_spot_order. destruct auction as [[a z] n]. intros H. apply obind_Ok in H as (l & _ & H).
  apply obind_Ok in H as (t & _ & [= <-]). by split_and!.
Qed.


Lemma standardized_nonneg x st r : standardize_base_asset_amount x st = Ok r -> 0 <= r.
Proof. intros H. unfold standardize_base_asset_amount in H. by apply obind_Ok in H as (y & _ & [-> [Hr _]]%safe_u_Ok). Qed.

Lemma max_spot_order_size_nonneg u i d ms o x o' : calculate_max_spot_order_size u i d ms o = Ok (x, o') -> 0 <= x.
Proof.
  intros H. unfold calculate_max_spot_order_size in H. apply obind_Ok in H as ([c o1] & _ & H). cbv zeta in H.
  apply obind_Ok in H as (req & _ & H). apply obind_Ok in H as (free & _ & H). apply obind_Ok in H as (m & _ & H).
  apply obind_Ok in H as ([od o2] & _ & H). apply obind_Ok in H as (sp & _ & H). apply obind_Ok in H as (t & _ & H).
  apply obind_Ok in H as ([b0 a0] & _ & H). apply obind_Ok in H as (b & _ & H). apply obind_Ok in H as (a & _ & H).
  apply obind_Ok in H as ([fl w] & _ & H). destruct (free <=? 0).
  { by apply obind_Ok in H as (r & Hr%standardized_nonneg & [= <- _]). }
  apply obind_Ok in H as (d0 & _ & H). apply obind_Ok in H as ([n1 n2] & _ & H). apply obind_Ok in H as (sz & _ & H).
  apply obind_Ok in H as (y & _ & H). by apply obind_Ok in H as (r & Hr%standardized_nonneg & [= <- _]).
Qed.

Lemma new_spot_order_size_nonneg p u m ms o x o' : new_spot_order_size p u m ms o = Ok (x, o') -> 0 <= x.
Proof.
  intros H. unfold new_spot_order_size in H. apply obind_Ok in H as (w1 & _ & H). apply obind_Ok in H as ([b o1] & Hb & H).
  apply obind_Ok in H as (k & _ & H). apply obind_Ok in H as (w2 & _ & [= <- _]).
  destruct (_ && _); [by apply max_spot_order_size_nonneg in Hb|].
  by apply obind_Ok in Hb as (r & Hr%standardized_nonneg & [= <- _]).
Qed.

Lemma place_spot_order_booked s u ms o now slot p opts u' o' :
  orders_booked u -> place_spot_order s u ms o now slot p opts = Ok (u', o') -> orders_booked u'.
Proof.
  intros Hu H. unfold place_spot_order in H. apply obind_Ok in H as ([u1 o1] & [Hu1 _]%not_being_liquidated_booked & H); [|done].
  apply obind_Ok in H as (w1 & _ & H). apply obind_Ok in H as ([u2 o2] & H2 & H).
  assert (orders_booked u2) as Hu2 by (destruct (try_expire_orders opts); [by eapply expire_orders_booked|by injection H2 as <- _]).
  apply obind_Ok in H as (w2 & _ & H). apply obind_Ok in H as (max_ts & _ & H).
  destruct (_ && _); [by injection H as <- _|]. apply obind_Ok in H as (n & (old & Hold & Hclosed)%free_place_closed & H).
  apply obind_Ok in H as (m & _ & H). apply obind_Ok in H as (w3 & _ & H). apply obind_Ok in H as ([u3 k] & [Hu3 Eo]%force_get_spot_booked & H); [|done].
  apply obind_Ok in H as (pos & _ & H). apply obind_Ok in H as (t & _ & H). apply obind_Ok in H as ([od o3] & _ & H).
  apply obind_Ok in H as ([base o4] & Hbase%new_spot_order_size_nonneg & H). cbv zeta in H. apply obind_Ok in H as (auction & Ha & H).
  apply obind_Ok in H as (w4 & Hallowed & H).
  set (u4 := fst (take_order_id u3)) in *. assert (orders_booked u4) as Hu4 by (destruct Hu3; constructor; assumption).
  unfold take_order_id in H. cbv zeta in H.
  match type of H with context [u3 <| u_next_order_id := ?x |>] => change (u3 <| u_next_order_id := x |>) with u4 in H end.
  apply obind_Ok in H as (ord & (Hfresh & Hb & Hd)%new_spot_order_Ok & H). apply obind_Ok in H as (w5 & _ & H).
  apply obind_Ok in H as (x & _ & H). apply obind_Ok in H as (risk & _ & H). apply obind_Ok in H as (u5 & Hbook & H).
  apply obind_Ok in H as (o5 & _ & [= <- _]). apply last_active_booked.
  apply (book_spot_order_booked u4 n k ord u5 old); try done.
  - cbn. by rewrite Eo.
  - unfold is_open. by rewrite (fo_status _ _ Hfresh).
  - unfold check_spot_order_allowed in Hallowed. apply obind_Ok in Hallowed as (a1 & _ & Hallowed).
    apply obind_Ok in Hallowed as (a2 & _ & Ht%validate_Ok). rewrite (fo_market_type _ _ Hfresh). by apply bool_decide_eq_true in Ht.
  - apply (fresh_sound p); [done|by rewrite Hb|]. intros Hm. rewrite Hd. apply (trigger_auction p (price od) (sm_order_tick_size m) (default_spot_auction_duration s)); [|done].
    unfold is_trigger_order. unfold must_be_triggered in Hm. by rewrite (fo_type _ _ Hfresh) in Hm.
Qed.

Lemma move_quote_booked u m x dir u' m' :
  orders_booked u -> move_quote u m x dir = Ok (u', m') -> orders_booked u' /\ u_orders u' = u_orders u.
Proof.
  intros Hu H. unfold move_quote in H. apply obind_Ok in H as (i & _ & H). apply obind_Ok in H as (q & _ & H).
  apply obind_Ok in H as ([m1 q1] & _ & H). apply obind_Ok in H as (l & _ & [= <- _]). split; [by apply spot_positions_booked|done].
Qed.

Lemma spot_fees_booked u x u' :
  orders_booked u -> update_cumulative_spot_fees u x = Ok u' -> orders_booked u' /\ u_orders u' = u_orders u.
Proof.
  intros [? ? ? ? ? ? ?] H. unfold update_cumulative_spot_fees in H. apply obind_Ok in H as (y & _ & [= <-]).
  split; [constructor; assumption|done].
Qed.

Lemma pay_keeper_spot_booked u f m r slot u' f' m' x :
  orders_booked u -> (forall v, f = Some v -> orders_booked v) ->
  pay_keeper_flat_reward_for_spot u f m r slot = Ok (u', f', m', x) ->
  orders_booked u' /\ forall v, f' = Some v -> orders_booked v.
Proof.
  intros Hu Hf H. unfold pay_keeper_flat_reward_for_spot in H. destruct f as [f|]; [|by injection H as <- <- _ _].
  apply obind_Ok in H as ([f1 m1] & [Hf1 _]%move_quote_booked & H); [|by apply Hf]. cbv zeta in H.
  apply obind_Ok in H as (r' & _ & H). apply obind_Ok in H as (f2 & [Hf2 _]%spot_fees_booked & H); [|by apply last_active_booked].
  apply obind_Ok in H as ([u1 m2] & [Hu1 _]%move_quote_booked & H); [|done].
  apply obind_Ok in H as (u2 & [Hu2 _]%spot_fees_booked & [= <- <- _ _]); [|done]. split; [done|]. by intros v [= <-].
Qed.

Lemma book_spot_trigger_booked u n ord i price slot u' :
  orders_booked u -> u_orders u !! n = Some ord -> is_open ord = true -> must_be_triggered ord = true -> triggered ord = false ->
  o_market_type ord = Spot -> book_spot_trigger u n i price slot = Ok u' -> orders_booked u'.
Proof.
  intros Hu Hn Ho Hm Ht Hspot H. pose proof Hu as [Hb Hs Hlen _ _ _ _]. unfold book_spot_trigger in H.
  apply obind_Ok in H as (ord1 & [_ Hn1]%idx_Ok & H). rewrite Nat2Z.id in Hn1. assert (ord1 = ord) as -> by congruence.
  apply obind_Ok in H as (ord' & Hord%update_trigger_Ok & H). pose proof Hord as [Fs Fm _ _ _ _ _ _].
  apply obind_Ok in H as (u1 & [-> _]%update_order_Ok & H). cbv zeta in H.
  assert (is_open ord' = true) as Ho' by (unfold is_open in *; by rewrite Fs).
  destruct (so_untriggered _ (Forall_lookup_1 _ _ _ _ Hs Hn) Ho Hm Ht) as [_ Ha0].
  destruct (triggered_counts u n ord ord' Hu Hn Ho Ha0 Ho') as (V1 & V2 & V3 & V4 & V5 & V6).
  set (v := if has_auction ord' then increment_open_auctions _ else _) in *.
  assert (orders_booked v) as Hv.
  { clearbody v. split; rewrite ?V1, ?V2; [|apply sound_insert; [exact Hs|]|by rewrite length_insert|exact V3|exact V5|exact V4|exact V6].
    - apply (booked_order _ _ _ ord); [exact Hb|exact Hn|]. intros j g. rewrite !spot_order_share; [done|done|by rewrite Fm].
    - apply (triggered_sound ord); [exact (Forall_lookup_1 _ _ _ _ Hs Hn)|done|done]. }
  apply obind_Ok in H as ([u2 k] & [Hu2 _]%force_get_spot_booked & H); [|exact Hv].
  exact (update_spot_position_booked _ _ _ _ Hu2 H).
Qed.

Lemma trigger_spot_order_booked id s u ms o f slot u' f' ms' o' :
  orders_booked u -> (forall v, f = Some v -> orders_booked v) ->
  trigger_spot_order id s u ms o f slot = Ok (u', f', ms', o') ->
  orders_booked u' /\ forall v, f' = Some v -> orders_booked v.
Proof.
  intros Hu Hf H. unfold trigger_spot_order in H. apply obind_Ok in H as (n & (ord & Hn & Ho)%get_order_index_Ok & H).
  apply obind_Ok in H as (ord1 & [_ Hn1]%idx_Ok & H). rewrite Nat2Z.id in Hn1. assert (ord1 = ord) as -> by congruence.
  apply obind_Ok in H as (w1 & Hm%validate_Ok & H). apply obind_Ok in H as (w2 & Ht%validate_Ok%negb_true_iff & H).
  apply obind_Ok in H as (w3 & Hp%validate_Ok & H). apply bool_decide_eq_true in Hp.
  apply obind_Ok in H as ([u1 o1] & [Hu1 Eo]%not_being_liquidated_booked & H); [|done].
  apply obind_Ok in H as (w4 & _ & H). cbv zeta in H. apply obind_Ok in H as (m & _ & H).
  apply obind_Ok in H as ([pr o2] & _ & H). apply obind_Ok in H as (p & _ & H). apply obind_Ok in H as (t & _ & H).
  apply obind_Ok in H as (before & _ & H).
  rewrite <- Eo in Hn. apply obind_Ok in H as (u2 & Hu2%(book_spot_trigger_booked u1 n ord) & H); try done.
  apply obind_Ok in H as (w5 & _ & H). apply obind_Ok in H as (q & _ & H).
  apply obind_Ok in H as ([[[u3 f3] m3] r] & [Hu3 Hf3]%pay_keeper_spot_booked & H); [|done..].
  apply obind_Ok in H as (p' & _ & H). apply obind_Ok in H as (after & _ & H).
  apply obind_Ok in H as ([u4 o4] & H4 & [= <- <- _ _]). split; [|done]. apply last_active_booked.
  destruct (_ && _); [|by injection H4 as <- _]. apply obind_Ok in H4 as (ok & _ & H4).
  destruct ok; [by injection H4 as <- _|]. by eapply cancel_order_booked.
Qed.

Lemma force_cancel_orders_booked s u ms o f slot u' f' ms' o' :
  orders_booked u -> orders_booked f -> force_cancel_orders s u ms o f slot = Ok (u', f', ms', o') ->
  orders_booked u' /\ orders_booked f'.
Proof.
  intros Hu Hf H. unfold force_cancel_orders in H. apply obind_Ok in H as (w1 & _ & H). apply obind_Ok in H as (w2 & _ & H).
  apply obind_Ok in H as ([c o1] & _ & H). apply obind_Ok in H as (w3 & _ & H).
  apply obind_Ok in H as ([[u1 o2] fee] & Hloop & H).
  apply (foldO_inv (fun t => orders_booked t.1.1)) in Hloop; [|clear - roots|done].
  - apply obind_Ok in H as (q & _ & H). apply obind_Ok in H as ([[[u2 f2] q2] r] & [Hu2 Hf2]%pay_keeper_spot_booked & H);
      [|done|by intros v [= <-]].
    injection H as <- <- _ _. split; [by apply last_active_booked|]. destruct f2; cbn; [by apply Hf2|done].
  - intros n [[v o3] l1] t' _ Hv Hstep. cbn [fst] in Hv. unfold force_cancel_order in Hstep.
    apply obind_Ok in Hstep as (ord & _ & Hstep). destruct (negb _); [by injection Hstep as <-|].
    apply obind_Ok in Hstep as (fee' & _ & Hstep). destruct fee' as [x|]; [|by injection Hstep as <-].
    apply obind_Ok in Hstep as (tot & _ & Hstep). apply obind_Ok in Hstep as ([v' o4] & Hc & [= <-]). cbn.
    by eapply cancel_order_booked.
Qed.

(** ** Every operation *)

(** Modifying an order, with the placing of spot orders. *)
Definition modify (id : ModifyOrderId) (q : ModifyOrderParams) (s : State) (u : User) (ms : Markets) (o : OracleMap)
    (now slot : Z) : DriftResult (User * OracleMap) :=
  modify_order (fun u o p => place_spot_order s u ms o now slot p default_options) id q s u ms o now slot.

(** One operation on the orders of a user, who may also be a keeper rewarded for
    work on another's orders. *)
Inductive order_step : User -> User -> Prop :=
| step_place s u ms o hl now slot p opts b u' o' hl' :
    place_perp_order s u ms o hl now slot p opts b = Ok (u', o', hl') -> order_step u u'
| step_place_spot s u ms o now slot p opts u' o' :
    place_spot_order s u ms o now slot p opts = Ok (u', o') -> order_step u u'
| step_modify id q s u ms o now slot u' o' : modify id q s u ms o now slot = Ok (u', o') -> order_step u u'
| step_cancel i u ms o skip u' o' : cancel_order i u ms o skip = Ok (u', o') -> order_step u u'
| step_cancel_all u ms o slot t i d skip u' o' ids :
    cancel_orders u ms o slot t i d skip = Ok (u', o', ids) -> order_step u u'
| step_cancel_id id u ms o slot u' o' : cancel_order_by_order_id id u ms o slot = Ok (u', o') -> order_step u u'
| step_cancel_user_id id u ms o slot u' o' : cancel_order_by_user_order_id id u ms o slot = Ok (u', o') -> order_step u u'
| step_expire u ms o now u' o' : expire_orders u ms o now = Ok (u', o') -> order_step u u'
| step_reduce_only u ms o i u' o' : cancel_reduce_only_trigger_orders u ms o i = Ok (u', o') -> order_step u u'
| step_trigger id s u ms o f now slot u' f' ms' o' :
    (forall v, f = Some v -> orders_booked v) ->
    trigger_order id s u ms o f now slot = Ok (u', f', ms', o') -> order_step u u'
| step_trigger_keeper id s u ms o f now slot u' f' ms' o' :
    orders_booked u -> trigger_order id s u ms o (Some f) now slot = Ok (u', Some f', ms', o') -> order_step f f'
| step_trigger_spot id s u ms o f slot u' f' ms' o' :
    (forall v, f = Some v -> orders_booked v) ->
    trigger_spot_order id s u ms o f slot = Ok (u', f', ms', o') -> order_step u u'
| step_trigger_spot_keeper id s u ms o f slot u' f' ms' o' :
    orders_booked u -> trigger_spot_order id s u ms o (Some f) slot = Ok (u', Some f', ms', o') -> order_step f f'
| step_force_cancel s u ms o f slot u' f' ms' o' :
    orders_booked f -> force_cancel_orders s u ms o f slot = Ok (u', f', ms', o') -> order_step u u'
| step_force_cancel_keeper s u ms o f slot u' f' ms' o' :
    orders_booked u -> force_cancel_orders s u ms o f slot = Ok (u', f', ms', o') -> order_step f f'.

Lemma order_step_booked u u' : order_step u u' -> orders_booked u -> orders_booked u'.
Proof.
  intros H Hu. destruct H as [| | ? ? ? ? ? ? ? ? ? ? H| | | | | | |? ? ? ? ? ? ? ? ? ? ? ? Hf H|? ? ? ? ? ? ? ? ? ? ? ? Hf H
    |? ? ? ? ? ? ? ? ? ? ? Hf H|? ? ? ? ? ? ? ? ? ? ? Hf H|? ? ? ? ? ? ? ? ? ? Hf H|? ? ? ? ? ? ? ? ? ? Hf H].
  - by eapply place_perp_order_booked.
  - by eapply place_spot_order_booked.
  - unfold modify in H. eapply modify_order_booked; [|done|exact H]. intros v w p v1 w1 Hv Hp. exact (place_spot_order_booked _ _ _ _ _ _ _ _ _ _ Hv Hp).
  - by eapply cancel_order_booked.
  - by eapply cancel_orders_booked.
  - by eapply cancel_by_id_booked.
  - by eapply cancel_by_user_id_booked.
  - by eapply expire_orders_booked.
  - by eapply cancel_reduce_only_booked.
  - by apply trigger_order_booked in H as [? _].
  - apply trigger_order_booked in H as [_ H]; [by apply H|done|by intros v [= <-]].
  - by apply trigger_spot_order_booked in H as [? _].
  - apply trigger_spot_order_booked in H as [_ H]; [by apply H|done|by intros v [= <-]].
  - by apply force_cancel_orders_booked in H as [? _].
  - by apply force_cancel_orders_booked in H as [_ ?].
Qed.

(** C29: The books stay exact: through any sequence of placing, modifying, cancelling,
    expiring and triggering orders, spot or perpetual, the user's counts of open
    orders and open auctions are those of his open orders, and in each perpetual
    market the open orders, bids and asks of his positions add up to those of the
    open orders there (what an order that waits for its trigger does not add). *)
Theorem order_books_exact u u' : orders_booked u -> rtc order_step u u' -> orders_booked u'.
Proof. intros Hu Hs. induction Hs as [|u v w Hstep _ IH]; [done|]. apply IH. by eapply order_step_booked. Qed.

End SpotOrders.

(** A trader with a deposit who bids for 1 contract at 90 dollars, offers 2 in the
    other market when the price rises to 110, then cancels the bid. *)
Definition trading_state : State :=
  mkState default_guard_rails perps_default perps_default 200 3600 10 10 0.
Definition trader : User :=
  margin_user <| u_spot_positions := [mkSpotPosition 500000000000 0 0 0 0 Deposit 0] |>
    <| u_perp_positions := [default_PerpPosition; default_PerpPosition] |>
    <| u_orders := [default_Order; default_Order; default_Order] |> <| u_next_order_id := 7 |>.
Definition bid_params : OrderParams :=
  mkOrderParams LimitOrder Perp Long 0 1000000000 90000000 0 false MustPostOnly 0 None None Above None None None None.
Definition stop_params : OrderParams :=
  mkOrderParams TriggerMarket Perp Short 0 2000000000 0 1 false PostOnlyNone 0 None (Some 110000000) Above None None None None.
Definition trading_market (i : Z) : PerpMarket :=
  margin_perp_market i <| amm ; order_step_size := 1000000 |> <| amm ; order_tick_size := 10000 |>.
Definition trading_markets : Markets :=
  mkMarkets {[0 := trading_market 0; 1 := trading_market 1]} {[0 := quote_spot_market <| historical_oracle_data ; last_oracle_price_twap_5min := 1000000 |>]}.
Definition risen_oracles : OracleMap :=
  load_oracles {[7 := mkOracleAccount (fun _ => Ok (mkPythMessage 112000000 10000 (-6) 148 1 true)) (Err UnableToLoadOracle)
                        (Err UnableToLoadOracle) (Err UnableToLoadOracle)]} 150 None.

(** The result of an operation that succeeds. *)
Definition from {A} (d : A) (x : DriftResult A) : A := match x with Ok a => a | _ => d end.
Definition succeeds {A} (x : DriftResult A) : bool := match x with Ok _ => true | _ => false end.

Definition placed (u : User) (p : OrderParams) : User :=
  (from (u, margin_oracles, None)
     (place_perp_order trading_state u trading_markets margin_oracles None 1000 100 p default_options false)).1.1.
Lemma placed_step u p :
  succeeds (place_perp_order trading_state u trading_markets margin_oracles None 1000 100 p default_options false) = true ->
  order_step u (placed u p).
Proof.
  intros H. unfold placed. destruct (place_perp_order _ _ _ _ _ _ _ _ _ _) as [[[u1 o1] h1]|e|] eqn:E; [|done..]. by eapply step_place.
Qed.

Definition trader_quoting : User := placed (placed trader bid_params) stop_params.
Definition trader_triggered : User :=
  (from (trader, None, trading_markets, margin_oracles)
     (trigger_order 8 trading_state trader_quoting trading_markets risen_oracles None 1020 150)).1.1.1.
Definition trader_done : User :=
  (from (trader, margin_oracles) (cancel_order_by_order_id 7 trader_triggered trading_markets risen_oracles 160)).1.
Lemma trigger_step :
  succeeds (trigger_order 8 trading_state trader_quoting trading_markets risen_oracles None 1020 150) = true ->
  order_step trader_quoting trader_triggered.
Proof.
  intros H. unfold trader_triggered. destruct (trigger_order _ _ _ _ _ _ _ _) as [[[[u1 f1] ms1] o1]|e|] eqn:E; [|done..].
  by eapply step_trigger; [|exact E].
Qed.
Lemma cancel_step :
  succeeds (cancel_order_by_order_id 7 trader_triggered trading_markets risen_oracles 160) = true ->
  order_step trader_triggered trader_done.
Proof.
  intros H. unfold trader_done. destruct (cancel_order_by_order_id _ _ _ _ _) as [[u1 o1]|e|] eqn:E; [|done..].
  by eapply step_cancel_id.
Qed.

(** An account without orders is booked. *)
Lemma idle_booked u :
  Forall (fun p => is_available p = true) (u_perp_positions u) -> Forall (fun o => is_open o = false) (u_orders u) ->
  (length (u_orders u) <= 32)%nat -> u_open_orders u = 0 -> u_open_auctions u = 0 ->
  u_has_open_order u = false -> u_has_open_auction u = false -> orders_booked u.
Proof.
  intros Hp Ho Hlen Hc Ha Hh Hk.
  assert (forall {A} (f : A -> Z) l, Forall (fun a => f a = 0) l -> sum_z f l = 0) as Hzero.
  { intros A f l Hl. induction Hl as [|a l Hz _ IH]; [done|]. unfold sum_z in *. cbn [foldr]. lia. }
  assert (forall g : Order -> Z, (forall o, is_open o = false -> g o = 0) -> sum_z g (u_orders u) = 0) as Hsum.
  { intros g Hg. apply Hzero. eapply Forall_impl; [exact Ho|]. exact Hg. }
  split; rewrite ?Hc, ?Ha, ?Hh, ?Hk; try done.
  - split; [|intros j k p q Hj _ Hav; rewrite (Forall_lookup_1 _ _ _ _ Hp Hj) in Hav; discriminate].
    intros i f g Hf. rewrite Hzero, Hsum; [done| |].
    + intros o Hclosed. by apply closed_share.
    + eapply Forall_impl; [exact Hp|]. intros p Hav. unfold position_share. rewrite (available_zero _ _ _ Hav Hf). by destruct (_ =? _).
  - eapply Forall_impl; [exact Ho|]. intros o Hclosed. split; congruence.
  - symmetry. apply Hsum. intros o Hclosed. unfold open_share. by rewrite Hclosed.
  - symmetry. apply Hsum. intros o Hclosed. unfold auction_share. by rewrite Hclosed.
Qed.

Lemma order_books_exact_witness :
  rtc order_step trader trader_done /\ orders_booked trader_done
  /\ u_open_orders trader_done = 1 /\ map pp_open_asks (u_perp_positions trader_done) = [0; -2000000000].
Proof.
  assert (rtc order_step trader trader_done) as Hsteps.
  { eapply rtc_l; [|eapply rtc_l; [|eapply rtc_l; [|apply rtc_once]]].
    - apply (placed_step trader bid_params). vm_compute. reflexivity.
    - apply (placed_step (placed trader bid_params) stop_params). vm_compute. reflexivity.
    - apply trigger_step. vm_compute. reflexivity.
    - apply cancel_step. vm_compute. reflexivity. }
  split; [exact Hsteps|]. split; [|split; vm_compute; reflexivity].
  apply (order_books_exact trader trader_done); [|exact Hsteps].
  apply idle_booked; try reflexivity; [repeat constructor..|cbn; lia].
Defined.
