(* ===== verification/DriftRevenueShare.v ===== *)
(** Revenue shares: [state/revenue_share.rs], [state/revenue_share_map.rs] and
    [controller/revenue_share.rs].

    A user's escrow holds one slot per order placed through a builder and one per
    market for the rewards of the user's referrer.  Fills add fees to the slots;
    the sweep of a market pays them out of its pnl pool.  The theorem: a sweep
    pays every fee at most once and loses none. *)
From S2P Require Import Prelude.
From S2P Require Import RecordUpdate.
From S2P Require Import DriftError.
From S2P Require Import DriftMath.
From S2P Require Import DriftSpotMarket.
From S2P Require Import DriftSpotBalance.
From S2P Require Import DriftTypes.
From S2P Require Import DriftOrderMath.
From S2P Require Import DriftPosition.
From S2P Require Import DriftUser.

(** ** The escrow *)

Inductive RevenueShareOrderBitFlag : Set := RsInit | RsOpen | RsCompleted | RsReferral.
Definition rs_bit (f : RevenueShareOrderBitFlag) : Z :=
  match f with RsInit => 0 | RsOpen => 1 | RsCompleted => 2 | RsReferral => 4 end.

Record RevenueShareOrder := mkRevenueShareOrder {
  rs_fees_accrued : Z;
  rs_order_id : Z;
  rs_fee_tenth_bps : Z;
  rs_market_index : Z;
  rs_sub_account_id : Z;
  rs_builder_idx : Z;
  rs_bit_flags : Z;
  rs_user_order_index : Z;
  rs_market_type : MarketType;
}.
#[export] Instance eta_RevenueShareOrder : Eta RevenueShareOrder := fun r =>
  mkRevenueShareOrder (rs_fees_accrued r) (rs_order_id r) (rs_fee_tenth_bps r) (rs_market_index r) (rs_sub_account_id r)
    (rs_builder_idx r) (rs_bit_flags r) (rs_user_order_index r) (rs_market_type r).
#[export] Instance set_rs_fees_accrued : Setter rs_fees_accrued := ltac:(setter).
#[export] Instance set_rs_bit_flags : Setter rs_bit_flags := ltac:(setter).

Definition new_share (builder_idx sub_account_id order_id fee_tenth_bps : Z) (t : MarketType)
    (market_index bit_flags user_order_index : Z) : RevenueShareOrder :=
  mkRevenueShareOrder 0 order_id fee_tenth_bps market_index sub_account_id builder_idx bit_flags user_order_index t.
(** The first market type is the spot's. *)
Definition default_share : RevenueShareOrder := new_share 0 0 0 0 Spot 0 0 0.

Definition add_share_flag (o : RevenueShareOrder) (f : RevenueShareOrderBitFlag) : RevenueShareOrder :=
  o <| rs_bit_flags := Z.lor (rs_bit_flags o) (rs_bit f) |>.
Definition share_flag_set (o : RevenueShareOrder) (f : RevenueShareOrderBitFlag) : bool :=
  negb (Z.land (rs_bit_flags o) (rs_bit f) =? 0).
Definition share_is_open (o : RevenueShareOrder) : bool := share_flag_set o RsOpen.
Definition share_is_completed (o : RevenueShareOrder) : bool := share_flag_set o RsCompleted.
Definition is_referral_order (o : RevenueShareOrder) : bool := share_flag_set o RsReferral.
Definition share_is_available (o : RevenueShareOrder) : bool :=
  negb (share_is_completed o) && negb (share_is_open o) && negb (is_referral_order o).

Definition is_mergeable (o other : RevenueShareOrder) : bool :=
  Bool.eqb (is_referral_order o) (is_referral_order other) && share_is_completed other
  && (rs_market_index other =? rs_market_index o) && bool_decide (rs_market_type other = rs_market_type o)
  && (rs_builder_idx other =? rs_builder_idx o).
Definition merge (o other : RevenueShareOrder) : DriftResult RevenueShareOrder :=
  do! validate (is_mergeable o other) DefaultError in
  let! f := safe_u 64 (rs_fees_accrued o + rs_fees_accrued other) in
  Ok (o <| rs_fees_accrued := f |>).

Record BuilderInfo := mkBuilderInfo { bi_authority : Z; max_fee_tenth_bps : Z }.
Definition is_revoked (b : BuilderInfo) : bool := max_fee_tenth_bps b =? 0.

(** The lists are those the account's bytes hold; [es_referrer] is 0 for the
    default key. *)
Record RevenueShareEscrow := mkRevenueShareEscrow {
  es_authority : Z;
  es_referrer : Z;
  es_orders : list RevenueShareOrder;
  es_approved_builders : list BuilderInfo;
}.
#[export] Instance eta_RevenueShareEscrow : Eta RevenueShareEscrow := fun r =>
  mkRevenueShareEscrow (es_authority r) (es_referrer r) (es_orders r) (es_approved_builders r).
#[export] Instance set_es_orders : Setter es_orders := ltac:(setter).

Definition escrow_validate (e : RevenueShareEscrow) : DriftResult unit :=
  validate ((Z.of_nat (length (es_orders e)) <=? 128) && (Z.of_nat (length (es_approved_builders e)) <=? 128)) DefaultError.
Definition escrow_has_referrer (e : RevenueShareEscrow) : bool := negb (es_referrer e =? 0).
Definition escrow_get_referrer (e : RevenueShareEscrow) : option Z :=
  if escrow_has_referrer e then Some (es_referrer e) else None.

Definition get_share (e : RevenueShareEscrow) (i : nat) : DriftResult RevenueShareOrder :=
  ok_or (es_orders e !! i) DefaultError.
(** [get_order_mut], followed by an update of the slot. *)
Definition update_share (e : RevenueShareEscrow) (i : nat) (f : RevenueShareOrder -> DriftResult RevenueShareOrder) :
    DriftResult RevenueShareEscrow :=
  let! o := get_share e i in
  let! o := f o in
  Ok (e <| es_orders := <[i := o]> (es_orders e) |>).
Definition get_approved_builder (e : RevenueShareEscrow) (i : Z) : DriftResult BuilderInfo :=
  let! n := cast_u 8 (Z.of_nat (length (es_approved_builders e))) in
  do! validate (i <? n) DefaultError in
  idx (es_approved_builders e) i.

Definition find_order_index (e : RevenueShareEscrow) (sub_account_id order_id : Z) : option nat :=
  position_of (fun o => (rs_order_id o =? order_id) && (rs_sub_account_id o =? sub_account_id)) (es_orders e).

(** The first slot the order can be merged into or put in. *)
Definition add_order (e : RevenueShareEscrow) (o : RevenueShareOrder) : DriftResult (RevenueShareEscrow * nat) :=
  match position_of (fun x => is_mergeable x o || share_is_available x) (es_orders e) with
  | None => Err RevenueShareEscrowOrdersAccountFull
  | Some i =>
      let! e := update_share e i (fun x => if is_mergeable x o then merge x o else Ok o) in
      Ok (e, i)
  end.

(** A referral slot is made when there is none. *)
Definition find_or_create_referral_index (e : RevenueShareEscrow) (market_index : Z) : RevenueShareEscrow * option nat :=
  match position_of (fun o => is_referral_order o && (rs_market_index o =? market_index)) (es_orders e) with
  | Some i => (e, Some i)
  | None =>
      match add_order e (new_share 0 0 0 0 Perp market_index (rs_bit RsReferral) 0) with
      | Ok (e, i) => (e, Some i)
      | _ => (e, None)
      end
  end.

(** The slots of orders no longer open are completed, or freed without fees. *)
Definition revoke_order (u : User) (o : RevenueShareOrder) : DriftResult RevenueShareOrder :=
  if is_referral_order o || negb (u_sub_account_id u =? rs_sub_account_id o) then Ok o
  else if share_is_open o && negb (share_is_completed o) then
    let! x := idx (u_orders u) (rs_user_order_index o) in
    if bool_decide (o_status x = OrderOpen) && (o_order_id x =? rs_order_id o) then Ok o
    else Ok (if 0 <? rs_fees_accrued o then add_share_flag o RsCompleted else default_share)
  else Ok o.
Definition revoke_completed_orders (e : RevenueShareEscrow) (u : User) : DriftResult RevenueShareEscrow :=
  foldO (fun e i => update_share e i (revoke_order u)) e (seq 0 (length (es_orders e))).

(** ** The sweep *)

Record RevenueShare := mkRevenueShare {
  sh_authority : Z;
  total_referrer_rewards : Z;
  total_builder_rewards : Z;
}.
#[export] Instance eta_RevenueShare : Eta RevenueShare := fun r =>
  mkRevenueShare (sh_authority r) (total_referrer_rewards r) (total_builder_rewards r).
#[export] Instance set_total_referrer_rewards : Setter total_referrer_rewards := ltac:(setter).
#[export] Instance set_total_builder_rewards : Setter total_builder_rewards := ltac:(setter).

Record RevenueShareEntry := mkRevenueShareEntry {
  re_authority : Z;
  re_user : option User;
  re_revenue_share : option RevenueShare;
}.
Definition find_entry (l : list RevenueShareEntry) (authority : Z) : option nat :=
  position_of (fun r => re_authority r =? authority) l.

Definition insert_user (l : list RevenueShareEntry) (authority : Z) (u : User) : DriftResult (list RevenueShareEntry) :=
  match find_entry l authority with
  | None => Ok (l ++ [mkRevenueShareEntry authority (Some u) None])
  | Some i =>
      let! r := idx l (Z.of_nat i) in
      do! validate (negb (bool_decide (is_Some (re_user r)))) DefaultError in
      Ok (<[i := mkRevenueShareEntry authority (Some u) (re_revenue_share r)]> l)
  end.
Definition insert_revenue_share (l : list RevenueShareEntry) (authority : Z) (s : RevenueShare) :
    DriftResult (list RevenueShareEntry) :=
  match find_entry l authority with
  | None => Ok (l ++ [mkRevenueShareEntry authority None (Some s)])
  | Some i =>
      let! r := idx l (Z.of_nat i) in
      do! validate (negb (bool_decide (is_Some (re_revenue_share r)))) DefaultError in
      Ok (<[i := mkRevenueShareEntry authority (re_user r) (Some s)]> l)
  end.

(** What a sweep works on. *)
Record SweepState := mkSweepState {
  sw_escrow : RevenueShareEscrow;
  sw_market : PerpMarket;
  sw_quote : SpotMarket;
  sw_shares : list RevenueShareEntry;
}.

(** Pays the fees of a slot to the account of an authority; nothing is paid to
    one without both of its accounts. *)
Definition pay_share (s : SweepState) (authority fees : Z) (count : RevenueShare -> DriftResult RevenueShare) :
    DriftResult (option SweepState) :=
  match find_entry (sw_shares s) authority with
  | None => Ok None
  | Some k =>
      let! r := idx (sw_shares s) (Z.of_nat k) in
      match re_user r, re_revenue_share r with
      | Some u, Some share =>
          match get_spot_position_index u QUOTE_SPOT_MARKET_INDEX with
          | Ok i =>
              let! q := idx (u_spot_positions u) (Z.of_nat i) in
              let! '(m, pool, q) := transfer_spot_balances fees (sw_quote s) (pnl_pool (sw_market s)) q in
              let! l := set_idx (u_spot_positions u) (Z.of_nat i) q in
              let! share := count share in
              Ok (Some (mkSweepState (sw_escrow s) (sw_market s <| pnl_pool := pool |>) m
                          (<[k := mkRevenueShareEntry (re_authority r) (Some (u <| u_spot_positions := l |>)) (Some share)]>
                             (sw_shares s))))
          | _ => Panic
          end
      | _, _ => Ok None
      end
  end.
Definition count_referrer (fees : Z) (r : RevenueShare) : DriftResult RevenueShare :=
  let! x := safe_u 64 (total_referrer_rewards r + fees) in Ok (r <| total_referrer_rewards := x |>).
Definition count_builder (fees : Z) (r : RevenueShare) : DriftResult RevenueShare :=
  let! x := safe_u 64 (total_builder_rewards r + fees) in Ok (r <| total_builder_rewards := x |>).

Definition put_share (s : SweepState) (i : nat) (o : RevenueShareOrder) : SweepState :=
  mkSweepState (sw_escrow s <| es_orders := <[i := o]> (es_orders (sw_escrow s)) |>) (sw_market s) (sw_quote s) (sw_shares s).

(** Has the slot fees of the market to pay? *)
Definition to_sweep (market_index : Z) (o : RevenueShareOrder) : bool :=
  bool_decide (rs_market_type o = Perp) && (rs_market_index o =? market_index)
  && (if is_referral_order o then negb (rs_fees_accrued o =? 0) else share_is_completed o && (0 <? rs_fees_accrued o)).

Definition sweep_order (builder_codes_enabled builder_referral_enabled : bool) (s : SweepState) (i : nat)
    (o : RevenueShareOrder) : DriftResult SweepState :=
  let fees := rs_fees_accrued o in
  if is_referral_order o then
    match (if builder_referral_enabled then escrow_get_referrer (sw_escrow s) else None) with
    | Some authority =>
        let! p := pay_share s authority fees (count_referrer fees) in
        Ok (match p with Some s => put_share s i (o <| rs_fees_accrued := 0 |>) | None => s end)
    | None => Ok s
    end
  else if builder_codes_enabled then
    match get_approved_builder (sw_escrow s) (rs_builder_idx o) with
    | Ok b =>
        let! p := pay_share s (bi_authority b) fees (count_builder fees) in
        Ok (match p with Some s => put_share s i default_share | None => s end)
    | Err _ => Ok s
    | Panic => Panic
    end
  else Ok s.

(** Stops at the first fees the pnl pool cannot pay. *)
Fixpoint sweep_orders (market_index : Z) (builder_codes_enabled builder_referral_enabled : bool) (s : SweepState) (l : list nat) :
    DriftResult SweepState :=
  match l with
  | [] => Ok s
  | i :: l =>
      match get_share (sw_escrow s) i with
      | Err _ => sweep_orders market_index builder_codes_enabled builder_referral_enabled s l
      | Panic => Panic
      | Ok o =>
          if to_sweep market_index o then
            let! pool := get_token_amount (pb_scaled_balance (pnl_pool (sw_market s))) (sw_quote s) Deposit in
            if pool <? rs_fees_accrued o then Ok s
            else
              let! s := sweep_order builder_codes_enabled builder_referral_enabled s i o in
              sweep_orders market_index builder_codes_enabled builder_referral_enabled s l
          else sweep_orders market_index builder_codes_enabled builder_referral_enabled s l
      end
  end.

Definition sweep_completed_revenue_share_for_market (e : RevenueShareEscrow) (m : PerpMarket) (q : SpotMarket)
    (shares : list RevenueShareEntry) (now : Z) (builder_codes_enabled builder_referral_enabled : bool) : DriftResult SweepState :=
  let! q := update_spot_market_cumulative_interest q None now in
  sweep_orders (pm_market_index m) builder_codes_enabled builder_referral_enabled (mkSweepState e m q shares)
    (seq 0 (length (es_orders e))).

(** * Every fee is paid once *)

Definition share_rewards (r : RevenueShareEntry) : Z :=
  match re_revenue_share r with Some s => total_referrer_rewards s + total_builder_rewards s | None => 0 end.
(** The fees that wait, and the rewards counted as paid. *)
Definition owed_and_paid (e : RevenueShareEscrow) (l : list RevenueShareEntry) : Z :=
  sum_z rs_fees_accrued (es_orders e) + sum_z share_rewards l.

Lemma position_of_lookup {A} (f : A -> bool) l n : position_of f l = Some n -> exists a, l !! n = Some a /\ f a = true.
Proof.
  unfold position_of. intros H. destruct (list_find _ l) as [[k a]|] eqn:E; [|done]. injection H as <-.
  apply list_find_Some in E as (Hk & Ha & _). by exists a.
Qed.
Lemma get_share_Ok e i o : get_share e i = Ok o -> es_orders e !! i = Some o.
Proof. apply ok_or_Ok. Qed.

Lemma count_referrer_Ok fees r r' : count_referrer fees r = Ok r' ->
  total_referrer_rewards r' + total_builder_rewards r' = total_referrer_rewards r + total_builder_rewards r + fees.
Proof. intros H. unfold count_referrer in H. apply obind_Ok in H as (x & [-> _]%safe_u_Ok & [= <-]). cbn. lia. Qed.
Lemma count_builder_Ok fees r r' : count_builder fees r = Ok r' ->
  total_referrer_rewards r' + total_builder_rewards r' = total_referrer_rewards r + total_builder_rewards r + fees.
Proof. intros H. unfold count_builder in H. apply obind_Ok in H as (x & [-> _]%safe_u_Ok & [= <-]). cbn. lia. Qed.

Lemma pay_share_Ok s authority fees count s' :
  (forall r r', count r = Ok r' ->
     total_referrer_rewards r' + total_builder_rewards r' = total_referrer_rewards r + total_builder_rewards r + fees) ->
  pay_share s authority fees count = Ok (Some s') ->
  sw_escrow s' = sw_escrow s /\ sum_z share_rewards (sw_shares s') = sum_z share_rewards (sw_shares s) + fees.
Proof.
  intros Hcount H. unfold pay_share in H. destruct (find_entry _ _) as [k|] eqn:Hk; [|done].
  apply position_of_lookup in Hk as (r0 & Hr0 & _). apply obind_Ok in H as (r & [_ Hr]%idx_Ok & H). rewrite Nat2Z.id in Hr.
  assert (r0 = r) as -> by congruence. destruct (re_user r) as [u|] eqn:Hu; [|done]. destruct (re_revenue_share r) as [share|] eqn:Hs; [|done].
  destruct (get_spot_position_index _ _) as [i| |]; [|done..]. apply obind_Ok in H as (q & _ & H).
  apply obind_Ok in H as ([[m pool] q'] & Ht & H). apply obind_Ok in H as (l & _ & H). apply obind_Ok in H as (share' & Hc & [= <-]).
  split; [done|].
  cbn [sw_shares]. rewrite (sum_z_insert _ _ _ r) by done. apply Hcount in Hc. unfold share_rewards at 2 3.
  cbn [re_revenue_share]. rewrite Hs. lia.
Qed.

Lemma put_share_owed s i o o' :
  es_orders (sw_escrow s) !! i = Some o ->
  owed_and_paid (sw_escrow (put_share s i o')) (sw_shares (put_share s i o'))
  = owed_and_paid (sw_escrow s) (sw_shares s) - rs_fees_accrued o + rs_fees_accrued o'.
Proof. intros Hi. unfold owed_and_paid, put_share. cbn [sw_escrow sw_shares].
  change (es_orders (_ <| es_orders := ?l |>)) with l. rewrite (sum_z_insert _ _ _ o) by done. lia. Qed.

Lemma length_put_share s i o : length (es_orders (sw_escrow (put_share s i o))) = length (es_orders (sw_escrow s)).
Proof. apply length_insert. Qed.

Lemma sweep_order_owed codes referral s i o s' :
  es_orders (sw_escrow s) !! i = Some o -> sweep_order codes referral s i o = Ok s' ->
  owed_and_paid (sw_escrow s') (sw_shares s') = owed_and_paid (sw_escrow s) (sw_shares s)
  /\ length (es_orders (sw_escrow s')) = length (es_orders (sw_escrow s)).
Proof.
  intros Hi H. unfold sweep_order in H. cbv zeta in H. destruct (is_referral_order o).
  - destruct (if referral then _ else None) as [authority|]; [|by injection H as <-].
    apply obind_Ok in H as ([s1|] & Hp & [= <-]); [|done].
    apply pay_share_Ok in Hp as [He Hr]; [|apply count_referrer_Ok].
    split; [|rewrite length_put_share; by rewrite He]. rewrite (put_share_owed _ _ o) by (by rewrite He).
    change (rs_fees_accrued (o <| rs_fees_accrued := 0 |>)) with 0. unfold owed_and_paid. rewrite He, Hr. lia.
  - destruct codes; [|by injection H as <-]. destruct (get_approved_builder _ _) as [b|e|]; [|by injection H as <-|done].
    apply obind_Ok in H as ([s1|] & Hp & [= <-]); [|done].
    apply pay_share_Ok in Hp as [He Hr]; [|apply count_builder_Ok].
    split; [|rewrite length_put_share; by rewrite He]. rewrite (put_share_owed _ _ o) by (by rewrite He).
    change (rs_fees_accrued default_share) with 0. unfold owed_and_paid. rewrite He, Hr. lia.
Qed.

Lemma sweep_orders_owed i codes referral l s s' :
  sweep_orders i codes referral s l = Ok s' ->
  owed_and_paid (sw_escrow s') (sw_shares s') = owed_and_paid (sw_escrow s) (sw_shares s)
  /\ length (es_orders (sw_escrow s')) = length (es_orders (sw_escrow s)).
Proof.
  revert s. induction l as [|k l IH]; intros s H; cbn in H; [by injection H as <-|].
  destruct (get_share _ _) as [o|e|] eqn:Ho; [|by apply IH|done]. apply get_share_Ok in Ho.
  destruct (to_sweep _ _); [|by apply IH]. apply obind_Ok in H as (pool & _ & H).
  destruct (_ <? _); [by injection H as <-|]. apply obind_Ok in H as (s1 & [H1 H1']%(sweep_order_owed _ _ _ _ o) & H); [|done].
  apply IH in H as [-> ->]. done.
Qed.

(** Sweeping a market's revenue shares loses no fee and pays none twice: what
    waits in the escrow together with the rewards counted for builders and
    referrers is the same after the sweep as before. *)
Theorem sweep_pays_once e m q shares now codes referral s' :
  sweep_completed_revenue_share_for_market e m q shares now codes referral = Ok s' ->
  owed_and_paid (sw_escrow s') (sw_shares s') = owed_and_paid e shares
  /\ length (es_orders (sw_escrow s')) = length (es_orders e).
Proof. intros (q' & _ & H)%obind_Ok. by apply sweep_orders_owed in H. Qed.

(** ** Slots *)

(** Slots are added without fees, so placing an order through a builder changes
    none. *)
Lemma add_order_fees e o e' i :
  rs_fees_accrued o = 0 -> add_order e o = Ok (e', i) ->
  sum_z rs_fees_accrued (es_orders e')
  = sum_z rs_fees_accrued (es_orders e)
    - match es_orders e !! i with Some x => if is_mergeable x o then 0 else rs_fees_accrued x | None => 0 end.
Proof.
  intros Hz H. unfold add_order in H. destruct (position_of _ _) as [k|] eqn:Hk; [|done].
  apply obind_Ok in H as (e1 & H1 & [= <- <-]). unfold update_share in H1.
  apply obind_Ok in H1 as (x & Hx%get_share_Ok & H1). apply obind_Ok in H1 as (y & Hy & [= <-]).
  change (es_orders (_ <| es_orders := ?l |>)) with l. rewrite (sum_z_insert _ _ _ x), Hx by done. destruct (is_mergeable x o).
  - unfold merge in Hy. apply obind_Ok in Hy as (w & _ & Hy). apply obind_Ok in Hy as (f & [-> _]%safe_u_Ok & [= <-]). cbn. lia.
  - injection Hy as <-. lia.
Qed.

(** A new order is never completed, so no slot is ever merged into: a completed
    slot of the same builder and market is passed over. *)
Lemma open_never_merged x o : share_is_completed o = false -> is_mergeable x o = false.
Proof. intros H. unfold is_mergeable. by rewrite H, andb_false_r. Qed.
Example completed_slot_not_reused :
  let done := new_share 3 0 7 50 Perp 1 (rs_bit RsCompleted) 0 in
  let new := new_share 3 0 8 50 Perp 1 (rs_bit RsOpen) 0 in
  is_mergeable done new = false
  /\ add_order (mkRevenueShareEscrow 1 0 [done] []) new = Err RevenueShareEscrowOrdersAccountFull.
Proof. vm_compute. by split. Qed.
