(* ===== verification/DriftFills.v ===== *)
(** Fills of perpetual orders: [fulfill_perp_order_with_amm],
    [fulfill_perp_order_with_match] and what they use of [controller/orders.rs],
    with [math/amm_jit.rs], [math/fulfillment.rs] and [state/fulfillment.rs].

    A fill trades an order against the market maker's curve or against a resting
    order of another user.  It takes the fee out of the taker's position, gives
    the maker his rebate, pays the filler, the referrer and the builder, books
    what is left as the market's revenue, and takes the filled amount off the open
    orders.  The theorems: a match moves base and quote between the two positions
    and its fees and loses neither; the just-in-time share of the market maker is
    at most half of the match; and the books of the users' orders stay exact. *)
From S2P Require Import Prelude.
From S2P Require Import RecordUpdate.
From S2P Require Import DriftError.
From S2P Require Import DriftMath.
From S2P Require Import DriftSpotMarket.
From S2P Require Import DriftTypes.
From S2P Require Import DriftOracle.
From S2P Require Import DriftOrderMath.
From S2P Require Import DriftAmm.
From S2P Require Import DriftSpread.
From S2P Require Import DriftPosition.
From S2P Require Import DriftUser.
From S2P Require Import DriftFunding.
From S2P Require Import DriftOracleMap.
From S2P Require Import DriftMargin.
From S2P Require Import DriftFees.
From S2P Require Import DriftOrderParams.
From S2P Require Import DriftOrders.
From S2P Require Import DriftSpotOrders.
From S2P Require Import DriftRevenueShare.

(** ** Liquidity of the market maker beside a resting order *)

(** Half of the match at most, and less for a price that looks like a trade of
    the maker with himself. *)
Definition shrink_for_wash (m : PerpMarket) (max_jit_amount auction_price oracle_price : Z) (d : PositionDirection) :
    DriftResult Z :=
  let! baseline := cast_u 64 oracle_price in
  let five_bps := baseline / 2000 in
  let! wash :=
    match d with
    | Long => let! x := safe_u 64 (baseline - five_bps) in Ok (auction_price <? x)
    | Short => Ok (usat 64 (baseline + five_bps) <? auction_price)
    end in
  if wash then
    let! x := safe_u 64 (match d with Long => short_spread (amm m) | Short => long_spread (amm m) end * baseline) in
    let! opposite_spread_price := safe_udiv x PERCENTAGE_PRECISION in
    let! a := cast_i 64 auction_price in
    let! difference := safe_i 64 (a - oracle_price) in
    let! y := safe_u 64 (max_jit_amount * usat 64 (opposite_spread_price - Z.abs difference)) in
    safe_udiv y (Z.max opposite_spread_price 1)
  else Ok max_jit_amount.

Definition amm_is_imbalanced (a : AMM) : DriftResult bool :=
  let! '(max_bids, max_asks) := calculate_market_open_bids_asks a in
  let numerator := Z.max (Z.abs max_bids) (Z.abs max_asks) in
  let denominator := Z.min (Z.abs max_bids) (Z.abs max_asks) in
  let! n := safe_u 128 (numerator * AMM_RESERVE_PRECISION) in
  let ratio := if denominator =? 0 then umax 128 else n / denominator in
  let! imbalanced_bound := safe_u 128 (15 * (AMM_RESERVE_PRECISION / 10)) in
  Ok (imbalanced_bound <=? ratio).

Definition calculate_clamped_jit_base_asset_amount (m : PerpMarket) (jit_base_asset_amount : Z) : DriftResult Z :=
  let! x := safe_u 128 (jit_base_asset_amount * Z.min (amm_jit_intensity (amm m)) 100) in
  let! y := cast_u 64 (x / 100) in
  let! max_amm_base_asset_amount := cast_u 64 (Z.abs (base_asset_amount_with_amm (amm m))) in
  Ok (Z.min y max_amm_base_asset_amount).

Definition calculate_jit_base_asset_amount (m : PerpMarket) (maker_base_asset_amount auction_price : Z)
    (valid_oracle_price : option Z) (taker_direction : PositionDirection) : DriftResult Z :=
  let! max_jit_amount :=
    match valid_oracle_price with
    | Some oracle_price => shrink_for_wash m (maker_base_asset_amount / 2) auction_price oracle_price taker_direction
    | None => Ok 0
    end in
  if max_jit_amount =? 0 then Ok 0
  else
    let! imbalanced := amm_is_imbalanced (amm m) in
    let jit_base_asset_amount := if imbalanced then maker_base_asset_amount else maker_base_asset_amount / 4 in
    if jit_base_asset_amount =? 0 then Ok 0
    else
      let! clamped := calculate_clamped_jit_base_asset_amount m jit_base_asset_amount in
      standardize_base_asset_amount (Z.min clamped max_jit_amount) (order_step_size (amm m)).

Definition calculate_amm_jit_liquidity (m : PerpMarket) (taker_direction : PositionDirection) (maker_price : Z)
    (valid_oracle_price : option Z) (base_asset_amount taker_base_asset_amount maker_base_asset_amount : Z)
    (taker_has_limit_price : bool) : DriftResult Z :=
  if negb taker_has_limit_price && (maker_base_asset_amount <? taker_base_asset_amount) then Ok 0
  else if amm_wants_to_jit_make (amm m) taker_direction then
    calculate_jit_base_asset_amount m base_asset_amount maker_price valid_oracle_price taker_direction
  else Ok 0.

(** ** Whom an order trades with *)

(** [Some] price of the market maker: a maker's price it must match. *)
Inductive PerpFulfillmentMethod : Set :=
| MethodAMM (maker_price : option Z)
| MethodMatch (maker : Z) (maker_order_index : Z) (maker_price : Z).
Inductive SpotFulfillmentMethod : Set :=
| SpotExternalMarket
| SpotMatch (maker : Z) (maker_order_index : Z).

(** A maker's key, the place of his order and its price. *)
Definition MakerOrderInfo : Type := Z * nat * Z.

Definition taker_crosses (maker_direction : PositionDirection) (maker_price : Z) (limit_price : option Z) : bool :=
  match limit_price with Some p => do_orders_cross maker_direction maker_price p | None => true end.

(** The matches in the order of their prices, with the market maker between them
    where it is better; the price it is left at. *)
Fixpoint match_makers (d : PositionDirection) (limit_price : option Z) (amm_is_available : bool)
    (makers : list MakerOrderInfo) (amm_price : Z) (acc : list PerpFulfillmentMethod) :
    DriftResult (list PerpFulfillmentMethod * Z) :=
  match makers with
  | [] => Ok (acc, amm_price)
  | (maker_key, maker_order_index, maker_price) :: makers =>
      if negb (taker_crosses (opposite d) maker_price limit_price) then Ok (acc, amm_price)
      else
        let maker_better := match d with Long => maker_price <=? amm_price | Short => amm_price <=? maker_price end in
        let '(acc, amm_price) :=
          if amm_is_available && negb maker_better then (acc ++ [MethodAMM (Some maker_price)], maker_price)
          else (acc, amm_price) in
        let! i := cast_u 16 (Z.of_nat maker_order_index) in
        let acc := acc ++ [MethodMatch maker_key i maker_price] in
        if (6 <? length acc)%nat then Ok (acc, amm_price)
        else match_makers d limit_price amm_is_available makers amm_price acc
  end.

Definition determine_perp_fulfillment_methods_for_maker (ord : Order) (a : AMM) (amm_reserve_price : Z) (limit_price : option Z)
    (amm_is_available : bool) : DriftResult (list PerpFulfillmentMethod) :=
  if negb amm_is_available then Ok []
  else
    let! amm_price := match o_direction ord with
                      | Long => ask_price a amm_reserve_price | Short => bid_price a amm_reserve_price end in
    let! maker_price := ok_or limit_price FailedUnwrap in
    Ok (if do_orders_cross (o_direction ord) maker_price amm_price then [MethodAMM None] else []).

Definition determine_perp_fulfillment_methods (ord : Order) (maker_orders_info : list MakerOrderInfo) (a : AMM)
    (amm_reserve_price : Z) (limit_price : option Z) (amm_is_available : bool) : DriftResult (list PerpFulfillmentMethod) :=
  if o_post_only ord then determine_perp_fulfillment_methods_for_maker ord a amm_reserve_price limit_price amm_is_available
  else
    let maker_direction := opposite (o_direction ord) in
    let! amm_price := match maker_direction with
                      | Long => bid_price a amm_reserve_price | Short => ask_price a amm_reserve_price end in
    let! '(methods, amm_price) := match_makers (o_direction ord) limit_price amm_is_available maker_orders_info amm_price [] in
    Ok (if amm_is_available && taker_crosses maker_direction amm_price limit_price then methods ++ [MethodAMM None] else methods).

Fixpoint match_spot_makers (maker_direction : PositionDirection) (limit_price : option Z) (makers : list MakerOrderInfo)
    (acc : list SpotFulfillmentMethod) : list SpotFulfillmentMethod :=
  match makers with
  | [] => acc
  | (maker_key, maker_order_index, maker_price) :: makers =>
      if match limit_price with Some p => do_orders_cross maker_direction maker_price p | None => false end then
        let acc := acc ++ [SpotMatch maker_key (Z.of_nat maker_order_index mod 2 ^ 16)] in
        if (6 <? length acc)%nat then acc else match_spot_makers maker_direction limit_price makers acc
      else acc
  end.
Definition determine_spot_fulfillment_methods (ord : Order) (maker_orders_info : list MakerOrderInfo) (limit_price : option Z)
    (external_fulfillment_params_available : bool) : list SpotFulfillmentMethod :=
  if negb (o_post_only ord) && external_fulfillment_params_available then [SpotExternalMarket]
  else match_spot_makers (opposite (o_direction ord)) limit_price maker_orders_info [].

(** ** Terms and state of a fill *)

Record FillTerms := mkFillTerms {
  ft_fee_structure : FeeStructure;
  ft_reserve_price_before : Z;
  ft_valid_oracle_price : option Z;
  ft_now : Z;
  ft_slot : Z;
  ft_builder_referral : bool;
}.

(** A user who may be paid, with his statistics; each may be missing. *)
Definition Party : Type := option User * option UserStats.

(** What a fill works on: the filler is [None] when he is the taker or one of the
    makers. *)
Record FillState := mkFillState {
  fi_market : PerpMarket;
  fi_user : User;
  fi_user_stats : UserStats;
  fi_filler : Party;
  fi_escrow : option RevenueShareEscrow;
  fi_oracles : OracleMap;
}.
#[export] Instance eta_FillState : Eta FillState := fun s =>
  mkFillState (fi_market s) (fi_user s) (fi_user_stats s) (fi_filler s) (fi_escrow s) (fi_oracles s).
#[export] Instance set_fi_market : Setter fi_market := ltac:(setter).
#[export] Instance set_fi_user : Setter fi_user := ltac:(setter).
#[export] Instance set_fi_user_stats : Setter fi_user_stats := ltac:(setter).
#[export] Instance set_fi_filler : Setter fi_filler := ltac:(setter).
#[export] Instance set_fi_escrow : Setter fi_escrow := ltac:(setter).
#[export] Instance set_fi_oracles : Setter fi_oracles := ltac:(setter).

(** ** Parts of a fill *)

Definition validate_amm_account_for_fill (a : AMM) (d : PositionDirection) : DriftResult unit :=
  match d with
  | Long => validate (min_base_asset_reserve a <=? base_asset_reserve a) InvalidAmmForFillDetected
  | Short => validate (base_asset_reserve a <=? max_base_asset_reserve a) InvalidAmmForFillDetected
  end.

(** Updates a position of a user together with the market. *)
Definition update_position_in (m : PerpMarket) (u : User) (i : nat)
    (f : PerpPosition -> PerpMarket -> DriftResult (PerpPosition * PerpMarket)) : DriftResult (PerpMarket * User) :=
  let! p := idx (u_perp_positions u) (Z.of_nat i) in
  let! '(p, m) := f p m in
  let! l := set_idx (u_perp_positions u) (Z.of_nat i) p in
  Ok (m, u <| u_perp_positions := l |>).

(** The asking opens a position when the user has none and there is room. *)
Definition can_reward_user_with_perp_pnl (u : option User) (market_index : Z) : DriftResult (option User * bool) :=
  match u with
  | Some v =>
      match force_get_perp_position_index v market_index with
      | Ok (v, _) => Ok (Some v, true)
      | Err _ => Ok (Some v, false)
      | Panic => Panic
      end
  | None => Ok (None, false)
  end.

Definition can_reward_user_with_referral_reward (u : option User) (market_index : Z) (escrow : option RevenueShareEscrow)
    (builder_referral_feature_enabled : bool) : DriftResult (option User * option RevenueShareEscrow * bool) :=
  if builder_referral_feature_enabled then
    match escrow with
    | Some e => let '(e, i) := find_or_create_referral_index e market_index in Ok (u, Some e, bool_decide (is_Some i))
    | None => Ok (u, None, false)
    end
  else
    let! '(u, b) := can_reward_user_with_perp_pnl u market_index in Ok (u, escrow, b).

(** The slots of the order and of the referral, and the builder's fee. *)
Definition get_builder_escrow_info (escrow : option RevenueShareEscrow) (sub_account_id order_id market_index : Z)
    (builder_referral_feature_enabled : bool) : option RevenueShareEscrow * option nat * option nat * option Z :=
  match escrow with
  | Some e =>
      let builder_order_idx := find_order_index e sub_account_id order_id in
      let '(e, referrer_idx) :=
        if builder_referral_feature_enabled then find_or_create_referral_index e market_index else (e, None) in
      let fee_bps := o ← builder_order_idx ≫= (fun i => es_orders e !! i); Some (rs_fee_tenth_bps o) in
      (Some e, builder_order_idx, referrer_idx, fee_bps)
  | None => (None, None, None, None)
  end.

Definition accrue (fees : Z) (o : RevenueShareOrder) : DriftResult RevenueShareOrder :=
  let! x := safe_u 64 (rs_fees_accrued o + fees) in Ok (o <| rs_fees_accrued := x |>).

Definition accrue_builder_fee (s : FillState) (i : option nat) (builder_fee : Z) : DriftResult FillState :=
  if builder_fee =? 0 then Ok s
  else
    match i, fi_escrow s with
    | Some i, Some e => let! e := update_share e i (accrue builder_fee) in Ok (s <| fi_escrow := Some e |>)
    | _, _ => Err UnableToLoadRevenueShareAccount
    end.

(** What the market earns: [exchange_fee] is the user's fee in a trade with the
    market maker and the market's own in a match. *)
Definition collect_fees (m : PerpMarket) (fee_to_market exchange_fee : Z) (surplus : option Z) : DriftResult PerpMarket :=
  let a := amm m in
  let! fees := safe_i 128 (total_fee a + fee_to_market) in
  let! x := cast_i 128 exchange_fee in
  let! exchange := safe_i 128 (total_exchange_fee a + x) in
  let! mm_fee := match surplus with Some q => safe_i 128 (total_mm_fee a + q) | None => Ok (total_mm_fee a) end in
  let! kept := safe_i 128 (total_fee_minus_distributions a + fee_to_market) in
  let! revenue := safe_i 64 (net_revenue_since_last_funding a + fee_to_market) in
  Ok (m <| amm := a <| total_fee := fees |> <| total_exchange_fee := exchange |> <| total_mm_fee := mm_fee |>
                   <| total_fee_minus_distributions := kept |> <| net_revenue_since_last_funding := revenue |> |>).

Definition pay_referrer_position (s : FillState) (referrer : Party) (reward now : Z) : DriftResult (FillState * Party) :=
  match referrer with
  | (Some r, Some st) =>
      match force_get_perp_position_index r (pm_market_index (fi_market s)) with
      | Ok (r, j) =>
          let! '(m, r) :=
            if 0 <? reward then
              let! x := cast_i 64 reward in
              update_position_in (fi_market s) r j (fun p m => update_quote_asset_amount p m x)
            else Ok (fi_market s, r) in
          let! st := increment_total_referrer_reward st reward now in
          Ok (s <| fi_market := m |>, (Some r, Some st))
      | Err _ => Ok (s, referrer)
      | Panic => Panic
      end
  | _ => Ok (s, referrer)
  end.
(** The referrer is paid through the escrow, or into his position. *)
Definition pay_referrer (s : FillState) (referrer : Party) (i : option nat) (reward now : Z) : DriftResult (FillState * Party) :=
  match i, fi_escrow s with
  | Some i, Some e =>
      let! e := update_share e i (accrue reward) in Ok (s <| fi_escrow := Some e |>, referrer)
  | _, _ => pay_referrer_position s referrer reward now
  end.

Definition credit_filler_perp_pnl (filler : User) (stats : option UserStats) (m : PerpMarket) (filler_reward quote_asset_amount
    now slot : Z) : DriftResult (PerpMarket * Party) :=
  let! '(m, filler, stats) :=
    if 0 <? filler_reward then
      let! '(filler, j) := force_get_perp_position_index filler (pm_market_index m) in
      let! x := cast_i 64 filler_reward in
      let! '(m, filler) := update_position_in m filler j (fun p m => update_quote_asset_amount p m x) in
      let! st := ok_or stats FailedUnwrap in
      let! st := update_filler_volume st quote_asset_amount now in
      Ok (m, filler, Some st)
    else Ok (m, filler, stats) in
  Ok (m, (Some (update_last_active_slot filler slot), stats)).

Definition update_order_after_fill (o : Order) (base_asset_amount quote_asset_amount : Z) : DriftResult (Order * bool) :=
  let! b := safe_u 64 (o_base_asset_amount_filled o + base_asset_amount) in
  let! q := safe_u 64 (o_quote_asset_amount_filled o + quote_asset_amount) in
  let o := o <| o_base_asset_amount_filled := b |> <| o_quote_asset_amount_filled := q |> in
  let! unfilled := get_base_asset_amount_unfilled o None in
  let is_filled := unfilled =? 0 in
  Ok (if is_filled then o <| o_status := OrderFilled |> else o, is_filled).

(** Adds the fill to the order and takes it off the position's bids or asks. *)
Definition fill_order (u : User) (order_index position_index : nat) (base_asset_amount quote_asset_amount : Z) :
    DriftResult (User * bool) :=
  let! o := idx (u_orders u) (Z.of_nat order_index) in
  let! '(o, is_filled) := update_order_after_fill o base_asset_amount quote_asset_amount in
  let! u := update_order u order_index o in
  let! u := update_position u position_index (fun p =>
              decrease_open_bids_and_asks p (o_direction o) base_asset_amount (update_open_bids_and_asks o)) in
  Ok (u, is_filled).

Definition complete_builder_order (e : option RevenueShareEscrow) (i : option nat) : DriftResult (option RevenueShareEscrow) :=
  match i, e with
  | Some i, Some e => let! e := update_share e i (fun o => Ok (add_share_flag o RsCompleted)) in Ok (Some e)
  | _, _ => Ok e
  end.

(** An order filled to the end gives its slot back. *)
Definition close_filled_order (u : User) (order_index position_index : nat) : DriftResult User :=
  let! o := idx (u_orders u) (Z.of_nat order_index) in
  let! unfilled := get_base_asset_amount_unfilled o None in
  if unfilled =? 0 then
    let u := decrement_open_orders u (has_auction o) in
    let! u := update_order u order_index (o <| o_status := OrderFilled |>) in
    update_position u position_index (fun p =>
      let! n := uchk 8 (pp_open_orders p - 1) in Ok (p <| pp_open_orders := n |>))
  else Ok u.

(** The record of a fill has an id, which starts over at 1. *)
Definition get_then_update_fill_record_id (m : PerpMarket) : Z * PerpMarket :=
  let id := next_fill_record_id m in
  (id, m <| next_fill_record_id := if uok 64 (id + 1) then id + 1 else 1 |>).

(** ** Against the market maker *)

Section Fill.
Context {roots : Roots} {root : FourthRoot}.

(** The amount, the price it may not pass, and the price it is filled at. *)
Definition amm_fill_size (t : FillTerms) (s : FillState) (ord : Order) (existing_base_asset_amount : Z)
    (limit_price override_base_asset_amount override_fill_price : option Z) : DriftResult (Z * option Z * option Z) :=
  match override_base_asset_amount with
  | Some b => Ok (b, limit_price, override_fill_price)
  | None =>
      let! tier := determine_user_fee_tier (fi_user_stats s) (ft_fee_structure t) Perp (is_high_leverage_mode (fi_user s) false) in
      let! '(b, limit_price) :=
        calculate_base_asset_amount_for_amm_to_fulfill ord (fi_market s) limit_price override_fill_price
          existing_base_asset_amount tier in
      Ok (b, limit_price, if o_post_only ord then limit_price else None)
  end.

(** Swaps the amount against the curve. *)
Definition trade_with_amm (t : FillTerms) (s : FillState) (ord : Order) (position_index : nat) (base_asset_amount : Z)
    (limit_price fill_price : option Z) : DriftResult (FillState * Z * Z) :=
  let m := fi_market s in
  do! validate_amm_account_for_fill (amm m) (o_direction ord) in
  let! market_side_price :=
    match o_direction ord with
    | Long => ask_price (amm m) (ft_reserve_price_before t)
    | Short => bid_price (amm m) (ft_reserve_price_before t)
    end in
  let! '(a, _) := update_mark_twap_from_estimates (amm m) (ft_now t) (Some market_side_price) (Some (o_direction ord))
                    (perp_sanitize_clamp_denominator m) in
  let! '(m, u, (quote_asset_amount, surplus, _)) :=
    update_position_with_base_asset_amount base_asset_amount (o_direction ord) (m <| amm := a |>) (fi_user s)
      (Z.of_nat position_index) fill_price in
  do! match limit_price with
      | Some l => validate_fill_price quote_asset_amount base_asset_amount BASE_PRECISION (o_direction ord) l (negb (o_post_only ord))
      | None => Ok tt
      end in
  Ok (s <| fi_market := m |> <| fi_user := u |>, quote_asset_amount, surplus).

(** Takes the fees of a trade with the market maker out of the user's position. *)
Definition charge_user (s : FillState) (position_index : nat) (f : FillFees) : DriftResult FillState :=
  let builder_fee := default 0 (builder_fee f) in
  let! '(m, u) :=
    if negb (user_fee f =? 0) || negb (builder_fee =? 0) then
      update_position_in (fi_market s) (fi_user s) position_index (fun p m =>
        let! x := safe_u 64 (user_fee f + builder_fee) in
        let! x := cast_i 64 x in
        update_quote_asset_and_break_even_amount p m (- x))
    else Ok (fi_market s, fi_user s) in
  let! '(m, u) :=
    if negb (maker_rebate f =? 0) then
      update_position_in m u position_index (fun p m =>
        let! x := cast_i 64 (maker_rebate f) in update_quote_asset_and_break_even_amount p m x)
    else Ok (m, u) in
  Ok (s <| fi_market := m |> <| fi_user := u |>).

Definition count_fees (st : UserStats) (f : FillFees) : DriftResult UserStats :=
  let! st := increment_total_fees st (user_fee f) in
  let! st := increment_total_rebate st (maker_rebate f) in
  increment_total_referee_discount st (referee_discount f).

(** The filler is paid; when he is one of the makers, that maker is. *)
Definition pay_filler (t : FillTerms) (s : FillState) (maker : Party) (filler_reward quote_asset_amount : Z) :
    DriftResult (FillState * Party) :=
  match fi_filler s, maker with
  | (Some f, st), _ =>
      let! '(m, p) := credit_filler_perp_pnl f st (fi_market s) filler_reward quote_asset_amount (ft_now t) (ft_slot t) in
      Ok (s <| fi_market := m |> <| fi_filler := p |>, maker)
  | (None, _), (Some f, st) =>
      let! '(m, p) := credit_filler_perp_pnl f st (fi_market s) filler_reward quote_asset_amount (ft_now t) (ft_slot t) in
      Ok (s <| fi_market := m |>, p)
  | _, _ => Ok (s, maker)
  end.

(** The record of the fill needs the oracle's price and the part of the position
    it closes. *)
Definition log_fill (s : FillState) (base_asset_amount : Z) (f : FillFees) (existing : list (option (Z * Z))) :
    DriftResult FillState :=
  let '(_, m) := get_then_update_fill_record_id (fi_market s) in
  do! foldO (fun _ e => let! _ := calculate_existing_position_fields_for_order_action base_asset_amount e in Ok tt) tt existing in
  let! _ := safe_u 64 (user_fee f + default 0 (builder_fee f)) in
  let! '(_, o) := get_price_data (fi_oracles s) (perp_oracle_id m) in
  Ok (s <| fi_market := m |> <| fi_oracles := o |>).

(** What may be paid of a fill, and to which slots of the escrow. *)
Record Rewards := mkRewards {
  reward_filler : bool;
  reward_referrer : bool;
  builder_order_idx : option nat;
  referrer_builder_order_idx : option nat;
  builder_order_fee_bps : option Z;
}.
Definition rewards_of_fill (t : FillTerms) (s : FillState) (order_id : Z) (maker referrer : Party) :
    DriftResult (FillState * Party * Party * Rewards) :=
  let market_index := pm_market_index (fi_market s) in
  let! '(r, e, reward_referrer) :=
    can_reward_user_with_referral_reward referrer.1 market_index (fi_escrow s) (ft_builder_referral t) in
  let! '(f, reward_filler) := can_reward_user_with_perp_pnl (fi_filler s).1 market_index in
  let! '(k, reward_filler) :=
    if reward_filler then Ok (maker.1, true) else can_reward_user_with_perp_pnl maker.1 market_index in
  let '(e, builder_idx, referrer_idx, fee_bps) :=
    get_builder_escrow_info e (u_sub_account_id (fi_user s)) order_id market_index (ft_builder_referral t) in
  Ok (s <| fi_filler := (f, (fi_filler s).2) |> <| fi_escrow := e |>, (k, maker.2), (r, referrer.2),
      mkRewards reward_filler reward_referrer builder_idx referrer_idx fee_bps).

Definition fulfill_perp_order_with_amm (t : FillTerms) (s : FillState) (order_index : nat) (maker referrer : Party)
    (limit_price override_base_asset_amount override_fill_price : option Z) :
    DriftResult (FillState * Party * Party * (Z * Z)) :=
  let! i := get_position_index (u_perp_positions (fi_user s)) (pm_market_index (fi_market s)) in
  let! p := idx (u_perp_positions (fi_user s)) (Z.of_nat i) in
  let! ord := idx (u_orders (fi_user s)) (Z.of_nat order_index) in
  let! '(base_asset_amount, limit_price, fill_price) :=
    amm_fill_size t s ord (pp_base_asset_amount p) limit_price override_base_asset_amount override_fill_price in
  let a := amm (fi_market s) in
  let amm_size_threshold :=
    if negb (o_reduce_only ord) && (min_order_size a <? Z.abs (pp_base_asset_amount p)) then min_order_size a
    else order_step_size a in
  if base_asset_amount <? amm_size_threshold then Ok (s, maker, referrer, (0, 0))
  else
    let existing := get_existing_position_params_for_order_action p (o_direction ord) in
    let! '(s, quote_asset_amount, surplus) := trade_with_amm t s ord i base_asset_amount limit_price fill_price in
    let! '(s, maker, referrer, w) := rewards_of_fill t s (o_order_id ord) maker referrer in
    let! f := calculate_fee_for_fulfillment_with_amm (fi_user_stats s) quote_asset_amount (ft_fee_structure t) (o_slot ord)
                (ft_slot t) (reward_filler w) (reward_referrer w) referrer.2 surplus (o_post_only ord)
                (fee_adjustment (fi_market s)) (is_high_leverage_mode (fi_user s) false) (builder_order_fee_bps w) in
    let! s := accrue_builder_fee s (builder_order_idx w) (default 0 (builder_fee f)) in
    let! m := collect_fees (fi_market s) (fee_to_market f) (user_fee f) (Some surplus) in
    let! st := count_fees (fi_user_stats s) f in
    let s := s <| fi_market := m |> <| fi_user_stats := st |> in
    let! '(s, referrer) := pay_referrer s referrer (referrer_builder_order_idx w) (referrer_reward f) (ft_now t) in
    let! s := charge_user s i f in
    let! st := (if o_post_only ord then update_maker_volume_30d (fi_user_stats s) (fuel_boost_maker (fi_market s))
                else update_taker_volume_30d (fi_user_stats s) (fuel_boost_taker (fi_market s))) quote_asset_amount (ft_now t) in
    let! '(s, maker) := pay_filler t (s <| fi_user_stats := st |>) maker (filler_reward f) quote_asset_amount in
    let! '(u, is_filled) := fill_order (fi_user s) order_index i base_asset_amount quote_asset_amount in
    let! e := if is_filled then complete_builder_order (fi_escrow s) (builder_order_idx w) else Ok (fi_escrow s) in
    let! s := log_fill (s <| fi_user := u |> <| fi_escrow := e |>) base_asset_amount f [existing] in
    let! u := close_filled_order (fi_user s) order_index i in
    Ok (s <| fi_user := u |>, maker, referrer, (base_asset_amount, quote_asset_amount)).

(** ** Against a resting order *)

(** A resting order and its owner; without statistics of his own when he is the
    taker's authority too. *)
Record MakerSide := mkMakerSide { mk_user : User; mk_stats : option UserStats; mk_order_index : nat }.

(** Moves base and quote between the two positions. *)
Definition trade_with_maker (s : FillState) (maker : User) (taker_position maker_position : nat)
    (taker_direction maker_direction : PositionDirection) (base_asset_amount quote_asset_amount : Z) :
    DriftResult (FillState * User) :=
  let! delta := get_position_delta_for_fill base_asset_amount quote_asset_amount maker_direction in
  let! '(m, maker) := update_position_in (fi_market s) maker maker_position (fun p m =>
                        let! '(p, m, _) := update_position_and_market p m delta in Ok (p, m)) in
  let! delta := get_position_delta_for_fill base_asset_amount quote_asset_amount taker_direction in
  let! '(m, taker) := update_position_in m (fi_user s) taker_position (fun p m =>
                        let! '(p, m, _) := update_position_and_market p m delta in Ok (p, m)) in
  Ok (s <| fi_market := m |> <| fi_user := taker |>, maker).

(** [f] updates the maker's statistics, or the taker's where they are the same. *)
Definition on_maker_stats (s : FillState) (maker_stats : option UserStats) (f : UserStats -> DriftResult UserStats) :
    DriftResult (FillState * option UserStats) :=
  match maker_stats with
  | Some st => let! st := f st in Ok (s, Some st)
  | None => let! st := f (fi_user_stats s) in Ok (s <| fi_user_stats := st |>, None)
  end.
Definition on_taker_stats (s : FillState) (f : UserStats -> DriftResult UserStats) : DriftResult FillState :=
  let! st := f (fi_user_stats s) in Ok (s <| fi_user_stats := st |>).

(** The taker pays the fees, the maker gets his rebate. *)
Definition charge_match (s : FillState) (maker : User) (maker_stats : option UserStats) (taker_position maker_position : nat)
    (f : FillFees) : DriftResult (FillState * User * option UserStats) :=
  let! '(m, taker) := update_position_in (fi_market s) (fi_user s) taker_position (fun p m =>
                        let! x := safe_u 64 (user_fee f + default 0 (builder_fee f)) in
                        let! x := cast_i 64 x in
                        update_quote_asset_and_break_even_amount p m (- x)) in
  let! st := increment_total_fees (fi_user_stats s) (user_fee f) in
  let! st := increment_total_referee_discount st (referee_discount f) in
  let! '(m, maker) := update_position_in m maker maker_position (fun p m =>
                        let! x := cast_i 64 (maker_rebate f) in update_quote_asset_and_break_even_amount p m x) in
  let s := s <| fi_market := m |> <| fi_user := taker |> <| fi_user_stats := st |> in
  let! '(s, maker_stats) := on_maker_stats s maker_stats (fun st => increment_total_rebate st (maker_rebate f)) in
  Ok (s, maker, maker_stats).

(** Fills both orders, closes those that are done. *)
Definition fill_both (s : FillState) (k : MakerSide) (w : Rewards) (taker_order_index taker_position maker_position : nat)
    (base_asset_amount quote_asset_amount : Z) (f : FillFees) (existing : list (option (Z * Z))) :
    DriftResult (FillState * User) :=
  let! '(u, is_filled) := fill_order (fi_user s) taker_order_index taker_position base_asset_amount quote_asset_amount in
  let! e := if is_filled then complete_builder_order (fi_escrow s) (builder_order_idx w) else Ok (fi_escrow s) in
  let! '(maker, _) := fill_order (mk_user k) (mk_order_index k) maker_position base_asset_amount quote_asset_amount in
  let! s := log_fill (s <| fi_user := u |> <| fi_escrow := e |>) base_asset_amount f existing in
  let! u := close_filled_order (fi_user s) taker_order_index taker_position in
  let! maker := close_filled_order maker (mk_order_index k) maker_position in
  Ok (s <| fi_user := u |>, maker).

(** The taker's price: his limit, or the market maker's fallback. *)
Definition taker_price_of (m : PerpMarket) (ord : Order) (taker_limit_price : option Z) (oracle_price now : Z) : DriftResult Z :=
  match taker_limit_price with
  | Some p => Ok p
  | None =>
      let! liquidity := calculate_amm_available_liquidity (amm m) (o_direction ord) in
      let! seconds := seconds_til_expiry ord now in
      get_fallback_price (amm m) (o_direction ord) liquidity oracle_price seconds
  end.

(** The match itself, after the market maker has taken its share. *)
Definition match_orders (t : FillTerms) (s : FillState) (taker_order_index : nat) (k : MakerSide) (referrer : Party)
    (taker_price maker_price maker_base_asset_amount oracle_price : Z) (maker_existing : option (Z * Z)) :
    DriftResult (FillState * MakerSide * Party * (Z * Z)) :=
  let market_index := pm_market_index (fi_market s) in
  let! maker_order := idx (u_orders (mk_user k)) (Z.of_nat (mk_order_index k)) in
  let! taker_order := idx (u_orders (fi_user s)) (Z.of_nat taker_order_index) in
  let! taker_position := get_perp_position (fi_user s) market_index in
  let taker_existing := get_existing_position_params_for_order_action taker_position (o_direction taker_order) in
  let! taker_base_asset_amount :=
    get_base_asset_amount_unfilled taker_order (Some (pp_base_asset_amount taker_position)) in
  let! '(base_asset_amount, quote_asset_amount) :=
    calculate_fill_for_matched_orders maker_base_asset_amount maker_price taker_base_asset_amount PERP_DECIMALS
      (o_direction maker_order) in
  do! validate_fill_price quote_asset_amount base_asset_amount BASE_PRECISION (o_direction taker_order) taker_price true in
  do! validate_fill_price quote_asset_amount base_asset_amount BASE_PRECISION (o_direction maker_order) maker_price false in
  let! j := get_position_index (u_perp_positions (mk_user k)) (o_market_index maker_order) in
  let! i := get_position_index (u_perp_positions (fi_user s)) (o_market_index taker_order) in
  let! '(s, maker) := trade_with_maker s (mk_user k) i j (o_direction taker_order) (o_direction maker_order)
                        base_asset_amount quote_asset_amount in
  let! '(s, maker_stats) := on_maker_stats s (mk_stats k) (fun st =>
                              update_maker_volume_30d st (fuel_boost_maker (fi_market s)) quote_asset_amount (ft_now t)) in
  let! s := on_taker_stats s (fun st =>
              update_taker_volume_30d st (fuel_boost_taker (fi_market s)) quote_asset_amount (ft_now t)) in
  let! '(s, _, referrer, w) := rewards_of_fill t s (o_order_id taker_order) (None, None) referrer in
  let! filler_multiplier :=
    if reward_filler w then calculate_filler_multiplier_for_matched_orders maker_price (o_direction maker_order) oracle_price
    else Ok 0 in
  let! f := calculate_fee_for_fulfillment_with_match (fi_user_stats s) maker_stats quote_asset_amount (ft_fee_structure t)
              (o_slot taker_order) (ft_slot t) filler_multiplier (reward_referrer w) referrer.2 Perp
              (fee_adjustment (fi_market s)) (is_high_leverage_mode (fi_user s) false) (builder_order_fee_bps w) in
  let! s := accrue_builder_fee s (builder_order_idx w) (default 0 (builder_fee f)) in
  let! m := collect_fees (fi_market s) (fee_to_market f) (fee_to_market f) None in
  let! '(s, maker, maker_stats) := charge_match (s <| fi_market := m |>) maker maker_stats i j f in
  let! '(s, _) := pay_filler t s (None, None) (filler_reward f) quote_asset_amount in
  let! '(s, referrer) := pay_referrer s referrer (referrer_builder_order_idx w) (referrer_reward f) (ft_now t) in
  let! '(s, maker) := fill_both s (mkMakerSide maker maker_stats (mk_order_index k)) w taker_order_index i j
                        base_asset_amount quote_asset_amount f [taker_existing; maker_existing] in
  Ok (s, mkMakerSide maker maker_stats (mk_order_index k), referrer, (base_asset_amount, quote_asset_amount)).

(** The base and quote filled, and the base of it the maker filled. *)
Definition fulfill_perp_order_with_match (t : FillTerms) (s : FillState) (taker_order_index : nat) (k : MakerSide)
    (referrer : Party) (taker_limit_price : option Z) (maker_price : Z) :
    DriftResult (FillState * MakerSide * Party * (Z * Z * Z)) :=
  let! maker_order := idx (u_orders (mk_user k)) (Z.of_nat (mk_order_index k)) in
  let! taker_order := idx (u_orders (fi_user s)) (Z.of_nat taker_order_index) in
  if negb (are_orders_same_market_but_different_sides maker_order taker_order) then Ok (s, k, referrer, (0, 0, 0))
  else
    let m := fi_market s in
    let! '(od, o) := get_price_data (fi_oracles s) (perp_oracle_id m) in
    let s := s <| fi_oracles := o |> in
    let! taker_price := taker_price_of m taker_order taker_limit_price (price od) (ft_now t) in
    let! taker_position := get_perp_position (fi_user s) (pm_market_index m) in
    let! taker_base_asset_amount :=
      get_base_asset_amount_unfilled taker_order (Some (pp_base_asset_amount taker_position)) in
    let! maker_position := get_perp_position (mk_user k) (pm_market_index m) in
    let maker_existing := get_existing_position_params_for_order_action maker_position (o_direction maker_order) in
    let! maker_base_asset_amount :=
      get_base_asset_amount_unfilled maker_order (Some (pp_base_asset_amount maker_position)) in
    if negb (do_orders_cross (o_direction maker_order) maker_price taker_price) then Ok (s, k, referrer, (0, 0, 0))
    else
      let! '(base_asset_amount, _) :=
        calculate_fill_for_matched_orders maker_base_asset_amount maker_price taker_base_asset_amount PERP_DECIMALS
          (o_direction maker_order) in
      if base_asset_amount =? 0 then Ok (s, k, referrer, (0, 0, 0))
      else
        let! '(a, _) := update_mark_twap_from_estimates (amm m) (ft_now t) (Some maker_price) (Some (o_direction taker_order))
                          (perp_sanitize_clamp_denominator m) in
        let s := s <| fi_market := m <| amm := a |> |> in
        let! has_limit := has_limit_price taker_order (ft_slot t) in
        let! jit := calculate_amm_jit_liquidity (fi_market s) (o_direction taker_order) maker_price (ft_valid_oracle_price t)
                      base_asset_amount taker_base_asset_amount maker_base_asset_amount has_limit in
        let! '(s, (amm_base, amm_quote)) :=
          if 0 <? jit then
            let! '(s, _, _, filled) := fulfill_perp_order_with_amm t s taker_order_index (None, None) (None, None)
                                         taker_limit_price (Some jit) (Some maker_price) in
            Ok (s, filled)
          else Ok (s, (0, 0)) in
        let! '(s, k, referrer, (base, quote)) :=
          match_orders t s taker_order_index k referrer taker_price maker_price maker_base_asset_amount (price od) maker_existing in
        let! total_base := safe_u 64 (amm_base + base) in
        let! total_quote := safe_u 64 (amm_quote + quote) in
        Ok (s, k, referrer, (total_base, total_quote, base)).

End Fill.
