(* ===== verification/DriftFillFlows.v ===== *)
(** What a match of two perpetual orders pays: every payment of a fill
    ([DriftFills]) moves an amount between positions, statistics and the market,
    and none is lost.  Base and quote are conserved over the taker, the maker, the
    filler, the referrer and the accruals of builders. *)
From S2P Require Import Prelude.
From S2P Require Import RecordUpdate.
From S2P Require Import DriftError.
From S2P Require Import DriftMath.
From S2P Require Import DriftSpotMarket.
From S2P Require Import DriftTypes.
From S2P Require Import DriftOracle.
From S2P Require Import DriftOrderMath.
From S2P Require Import DriftAmm.
From S2P Require Import DriftSpread.
From S2P Require Import DriftPosition.
From S2P Require Import DriftUser.
From S2P Require Import DriftFunding.
From S2P Require Import DriftOracleMap.
From S2P Require Import DriftMargin.
From S2P Require Import DriftFees.
From S2P Require Import DriftOrderParams.
From S2P Require Import DriftOrders.
From S2P Require Import DriftSpotOrders.
From S2P Require Import DriftRevenueShare.
From S2P Require Import DriftFills.

(** * Payments *)

(** A position takes [b] of base and [q] of quote; nothing else of it or of the
    market's revenue moves. *)
Record takes (b q : Z) (m m' : PerpMarket) (p p' : PerpPosition) : Prop := {
  pay_index : pp_market_index p' = pp_market_index p;
  pay_books : forall f g, (f, g) ∈ books -> f p' = f p;
  pay_base : pp_base_asset_amount p' = pp_base_asset_amount p + b;
  pay_quote : pp_quote_asset_amount p' = pp_quote_asset_amount p + q;
  pay_market : pm_market_index m' = pm_market_index m;
  pay_revenue : total_fee_minus_distributions (amm m') = total_fee_minus_distributions (amm m);
}.

Lemma pay_trans b q b' q' m m1 m' p p1 p' :
  takes b q m m1 p p1 -> takes b' q' m1 m' p1 p' -> takes (b + b') (q + q') m m' p p'.
Proof.
  intros [A1 A2 A3 A4 A5 A6] [B1 B2 B3 B4 B5 B6]. split; [congruence| |lia|lia|congruence|congruence].
  intros f g H. by rewrite (B2 f g H), (A2 f g H).
Qed.
Lemma pay_nothing m p : takes 0 0 m m p p.
Proof. split; done || lia. Qed.

Lemma quote_pay p m d p' m' : update_quote_asset_amount p m d = Ok (p', m') -> takes 0 d m m' p p'.
Proof.
  intros H. unfold update_quote_asset_amount in H. destruct (Z.eqb_spec d 0) as [->|_]; [injection H as <- <-; apply pay_nothing|].
  apply obind_Ok in H as (m1 & H1 & H). assert (pm_market_index m1 = pm_market_index m /\ amm m1 = amm m) as [E1 E2].
  { destruct (_ && _); [apply obind_Ok in H1 as (n & _ & [= <-])|injection H1 as <-]; by split. }
  clear H1. apply obind_Ok in H as (q & [-> _]%safe_i_Ok & H). cbv zeta in H. apply obind_Ok in H as (x & _ & H).
  destruct (_ && _); injection H as <- <-; (split; [done| | | | |]);
    try (intros f g Hf; each_book Hf; reflexivity); cbn; rewrite ?E2; done || lia.
Qed.

Lemma break_even_pay p m d p' m' : update_quote_break_even_amount p m d = Ok (p', m') -> takes 0 0 m m' p p'.
Proof.
  intros H. unfold update_quote_break_even_amount in H. destruct (_ || _); [injection H as <- <-; apply pay_nothing|].
  apply obind_Ok in H as (k & _ & H). cbv zeta in H.
  destruct (get_direction _); apply obind_Ok in H as (x & _ & [= <- <-]); (split; [done| | | | |]);
    try (intros f g Hf; each_book Hf; reflexivity); cbn; done || lia.
Qed.

Lemma both_pay p m d p' m' : update_quote_asset_and_break_even_amount p m d = Ok (p', m') -> takes 0 d m m' p p'.
Proof.
  intros H. unfold update_quote_asset_and_break_even_amount in H. apply obind_Ok in H as ([p1 m1] & H1%quote_pay & H2%break_even_pay).
  replace d with (d + 0) by lia. replace 0 with (0 + 0) at 1 by lia. by eapply pay_trans.
Qed.

Lemma add_side_revenue long m b e k m' : add_side long m b e k = Ok m' ->
  pm_market_index m' = pm_market_index m /\ total_fee_minus_distributions (amm m') = total_fee_minus_distributions (amm m).
Proof.
  intros H. unfold add_side in H. destruct long; apply obind_Ok in H as (x & _ & H); apply obind_Ok in H as (y & _ & H);
    apply obind_Ok in H as (z & _ & [= <-]); by split.
Qed.

Lemma market_totals_revenue m p delta t nb ne nk m' : update_market_totals m p delta t nb ne nk = Ok m' ->
  pm_market_index m' = pm_market_index m /\ total_fee_minus_distributions (amm m') = total_fee_minus_distributions (amm m).
Proof.
  intros H. unfold update_market_totals in H. apply obind_Ok in H as (q & _ & H). cbv zeta in H.
  destruct t; [by apply add_side_revenue in H..|apply obind_Ok in H as (e & _ & H)|apply obind_Ok in H as (e & _ & H)|].
  1-2: apply obind_Ok in H as (k & _ & H); by apply add_side_revenue in H.
  apply obind_Ok in H as (m1 & H1%add_side_revenue & H2%add_side_revenue). destruct H1, H2. split; etransitivity; eassumption.
Qed.

Lemma count_users_revenue m p b q t m' : count_users m p b q t = Ok m' ->
  pm_market_index m' = pm_market_index m /\ total_fee_minus_distributions (amm m') = total_fee_minus_distributions (amm m).
Proof.
  intros H. unfold count_users in H. destruct t; [|by injection H as <-..| |by injection H as <-].
  - apply obind_Ok in H as (m1 & H1 & H). apply obind_Ok in H as (n & _ & [= <-]).
    destruct (_ && _); [apply obind_Ok in H1 as (k & _ & [= <-])|injection H1 as <-]; by split.
  - cbv zeta in H. injection H as <-. destruct (_ && _); by split.
Qed.

Lemma fill_pay p m delta p' m' pnl :
  update_position_and_market p m delta = Ok (p', m', pnl) ->
  takes (pd_base_asset_amount delta) (pd_quote_asset_amount delta) m m' p p'.
Proof.
  intros H. unfold update_position_and_market in H. destruct (Z.eqb_spec (pd_base_asset_amount delta) 0) as [->|_].
  { apply obind_Ok in H as ([p1 m1] & H%quote_pay & [= <- <- _]). exact H. }
  apply obind_Ok in H as (t & _ & H). apply obind_Ok in H as ([b q] & Ha & H). unfold get_new_position_amounts in Ha.
  apply obind_Ok in Ha as (q' & [-> _]%safe_i_Ok & Ha). apply obind_Ok in Ha as (b' & [-> _]%safe_i_Ok & [= <- <-]).
  apply obind_Ok in H as ([[e k] r] & _ & H). apply obind_Ok in H as (m1 & [A1 A2]%count_users_revenue & H).
  apply obind_Ok in H as (m2 & [B1 B2]%market_totals_revenue & H). apply obind_Ok in H as (w & _ & H).
  apply obind_Ok in H as (rate & _ & H). apply obind_Ok in H as (al & _ & H). apply obind_Ok in H as (w' & _ & [= <- <- _]).
  split; try done; [|congruence|congruence]. intros f g Hf. by each_book Hf.
Qed.

(** ** What users hold *)

Definition quote_held (u : User) : Z := sum_z pp_quote_asset_amount (u_perp_positions u).
Definition base_held (u : User) : Z := sum_z pp_base_asset_amount (u_perp_positions u).

(** The position at [i] is the user's only one in use of the market. *)
Definition holds (u : User) (i : nat) (market_index : Z) : Prop :=
  exists p, u_perp_positions u !! i = Some p /\ pp_market_index p = market_index
    /\ forall j q, j <> i -> u_perp_positions u !! j = Some q -> is_available q = false -> pp_market_index q <> market_index.

Lemma get_position_holds u market_index i :
  orders_booked u -> get_position_index (u_perp_positions u) market_index = Ok i -> holds u i market_index.
Proof.
  intros Hu H. destruct (force_get_booked u market_index u i Hu) as (_ & _ & p & Hp & Hi & Hone).
  { unfold force_get_perp_position_index. by rewrite H. }
  by exists p.
Qed.

Definition pays (b q : Z) (f : PerpPosition -> PerpMarket -> DriftResult (PerpPosition * PerpMarket)) : Prop :=
  forall p m p' m', f p m = Ok (p', m') -> takes b q m m' p p'.

Lemma update_position_in_Ok m u i f m' u' b q :
  pays b q f -> update_position_in m u i f = Ok (m', u') ->
  quote_held u' = quote_held u + q /\ base_held u' = base_held u + b /\ u_orders u' = u_orders u
  /\ u_sub_account_id u' = u_sub_account_id u
  /\ pm_market_index m' = pm_market_index m /\ total_fee_minus_distributions (amm m') = total_fee_minus_distributions (amm m)
  /\ forall market_index, orders_booked u -> holds u i market_index -> orders_booked u' /\ holds u' i market_index.
Proof.
  intros Hf H. unfold update_position_in in H. apply obind_Ok in H as (p & [_ Hp]%idx_Ok & H). rewrite Nat2Z.id in Hp.
  apply obind_Ok in H as ([p' m1] & [P1 P2 P3 P4 P5 P6]%Hf & H).
  apply obind_Ok in H as (l & [_ ->]%set_idx_Ok & [= <- <-]). rewrite Nat2Z.id. unfold quote_held, base_held.
  change (u_perp_positions (u <| u_perp_positions := ?l |>)) with l. rewrite !(sum_z_insert _ _ _ p) by done.
  split_and!; [lia|lia|done..|]. intros mi Hu (p0 & Hp0 & Hi & Hone). assert (p0 = p) as -> by congruence. split.
  - apply orders_booked_positions; [done|]. apply (booked_position _ _ _ p); [apply Hu|done| |].
    + intros _ j r Hne Hr Hav. rewrite P1, Hi. by apply (Hone j).
    + intros j g h Hg. unfold position_share. by rewrite P1, (P2 _ _ Hg).
  - exists p'. change (u_perp_positions (u <| u_perp_positions := ?l |>)) with l. apply lookup_lt_Some in Hp as Hlt.
    split_and!; [by apply list_lookup_insert_eq|congruence|]. intros j r Hne Hr. rewrite list_lookup_insert_ne in Hr by done. by apply (Hone j).
Qed.

(** Opening a position changes no amount. *)
Lemma available_flat p : is_available p = true -> pp_base_asset_amount p = 0 /\ pp_quote_asset_amount p = 0.
Proof.
  unfold is_available, is_open_position, has_unsettled_pnl. rewrite !andb_true_iff, !negb_true_iff, !negb_false_iff, !Z.eqb_eq.
  intros H. destruct (Z.eqb_spec (pp_base_asset_amount p) 0) as [E|E]; [|tauto]. split; [done|].
  destruct (Z.eqb_spec (pp_quote_asset_amount p) 0) as [E'|E']; [done|]. cbn in H. naive_solver.
Qed.

Lemma force_get_held u i u' k :
  force_get_perp_position_index u i = Ok (u', k) ->
  quote_held u' = quote_held u /\ base_held u' = base_held u /\ (orders_booked u -> orders_booked u' /\ holds u' k i).
Proof.
  intros H. split_and!.
  3: { intros Hu. apply force_get_booked in H as (Hu' & _ & p & Hp & Hi & Hone); [|done]. split; [done|by exists p]. }
  all: unfold force_get_perp_position_index in H; destruct (get_position_index _ _); [by injection H as <- _| |done];
    apply obind_Ok in H as ([l k0] & H0 & [= <- <-]);
    pose proof (add_new_position_Ok _ _ _ _ H0) as (old & new & Hold & Ho & -> & Hav & Hi & Hflat);
    unfold quote_held, base_held; change (u_perp_positions (u <| u_perp_positions := ?l |>)) with l;
    rewrite (sum_z_insert _ _ _ old) by done; apply available_flat in Ho, Hav; lia.
Qed.

(** ** The escrow *)

Definition escrow_fees (e : option RevenueShareEscrow) : Z :=
  match e with Some e => sum_z rs_fees_accrued (es_orders e) | None => 0 end.
(** Slots that are free have no fees. *)
Definition clean_escrow (e : option RevenueShareEscrow) : Prop :=
  match e with
  | Some e => Forall (fun o => share_is_available o = true -> rs_fees_accrued o = 0) (es_orders e)
  | None => True
  end.

Lemma position_of_is_Some {A} (f : A -> bool) l n a : l !! n = Some a -> f a = true -> is_Some (position_of f l).
Proof.
  intros Hn Ha. unfold position_of. destruct (list_find _ l) as [[k b]|] eqn:E; [by eexists|].
  apply list_find_None in E. rewrite Forall_lookup in E. by destruct (E _ _ Hn).
Qed.

Lemma find_or_create_Ok e i e' k :
  find_or_create_referral_index e i = (e', k) ->
  (clean_escrow (Some e) -> escrow_fees (Some e') = escrow_fees (Some e) /\ clean_escrow (Some e'))
  /\ (is_Some k -> is_Some (find_or_create_referral_index e' i).2).
Proof.
  intros H. unfold find_or_create_referral_index in H.
  destruct (position_of _ (es_orders e)) as [n|] eqn:Hn.
  { injection H as <- <-. split; [done|]. intros _. unfold find_or_create_referral_index. rewrite Hn. by eexists. }
  set (o := new_share 0 0 0 0 Perp i (rs_bit RsReferral) 0) in *.
  destruct (add_order e o) as [[e1 n]|er|] eqn:Ha; [|injection H as <- <-; split; [done|by intros [? ?]]..].
  injection H as <- <-. pose proof (add_order_fees e o e1 n eq_refl Ha) as Hf.
  unfold add_order in Ha. clear Hn. destruct (position_of _ _) as [m|] eqn:Hm; [|done].
  apply position_of_Some in Hm as (x & Hx & Hav). rewrite open_never_merged in Hav by reflexivity. cbn [orb] in Hav.
  apply obind_Ok in Ha as (e2 & H2 & [= <- <-]). unfold update_share in H2. apply obind_Ok in H2 as (y & Hy%get_share_Ok & H2).
  assert (y = x) as -> by congruence. rewrite open_never_merged in H2 by reflexivity. apply obind_Ok in H2 as (z & [= <-] & [= <-]).
  rewrite Hx, open_never_merged in Hf by reflexivity. apply lookup_lt_Some in Hx as Hlt.
  split; [intros Hc; split|].
  - cbn [escrow_fees]. rewrite Hf, (Forall_lookup_1 _ _ _ _ Hc Hx Hav). lia.
  - cbn [clean_escrow]. change (es_orders (e <| es_orders := ?l |>)) with l. apply Forall_insert; [exact Hc|]. done.
  - intros _. unfold find_or_create_referral_index. change (es_orders (e <| es_orders := ?l |>)) with l.
    destruct (position_of_is_Some (fun o => is_referral_order o && (rs_market_index o =? i)) (<[m := o]> (es_orders e)) m o) as [q ->];
      [by apply list_lookup_insert_eq|cbn; by rewrite Z.eqb_refl|by eexists].
Qed.

Lemma accrue_Ok e i x e' : update_share e i (accrue x) = Ok e' -> escrow_fees (Some e') = escrow_fees (Some e) + x.
Proof.
  intros H. unfold update_share in H. apply obind_Ok in H as (o & Ho%get_share_Ok & H). apply obind_Ok in H as (o' & Ha & [= <-]).
  unfold accrue in Ha. apply obind_Ok in Ha as (y & [-> _]%safe_u_Ok & [= <-]). unfold escrow_fees.
  change (es_orders (e <| es_orders := ?l |>)) with l. rewrite (sum_z_insert _ _ _ o) by done. cbn. lia.
Qed.

Lemma complete_Ok e i e' : complete_builder_order e i = Ok e' -> escrow_fees e' = escrow_fees e.
Proof.
  intros H. unfold complete_builder_order in H. destruct i as [i|], e as [e|]; try by injection H as <-.
  apply obind_Ok in H as (e1 & H & [= <-]). unfold update_share in H. apply obind_Ok in H as (o & Ho%get_share_Ok & H).
  apply obind_Ok in H as (o' & [= <-] & [= <-]). unfold escrow_fees.
  change (es_orders (e <| es_orders := ?l |>)) with l. rewrite (sum_z_insert _ _ _ o) by done. cbn. lia.
Qed.

(** ** Flows of a fill *)

Definition party_quote (u : option User) : Z := match u with Some u => quote_held u | None => 0 end.
Definition party_booked (u : option User) : Prop := forall v, u = Some v -> orders_booked v.

(** The user takes [db] of base and [du] of quote, the filler [df], the escrow [de]
    and the market's revenue [dm]; no order changes and the books stay exact. *)
Record flows (i : nat) (mi : Z) (s s' : FillState) (db du df de dm : Z) : Prop := {
  fl_base : base_held (fi_user s') = base_held (fi_user s) + db;
  fl_user : quote_held (fi_user s') = quote_held (fi_user s) + du;
  fl_filler : party_quote (fi_filler s').1 = party_quote (fi_filler s).1 + df;
  fl_escrow : escrow_fees (fi_escrow s') = escrow_fees (fi_escrow s) + de;
  fl_revenue : total_fee_minus_distributions (amm (fi_market s')) = total_fee_minus_distributions (amm (fi_market s)) + dm;
  fl_orders : u_orders (fi_user s') = u_orders (fi_user s);
  fl_index : pm_market_index (fi_market s') = pm_market_index (fi_market s);
  fl_booked : orders_booked (fi_user s) -> holds (fi_user s) i mi -> orders_booked (fi_user s') /\ holds (fi_user s') i mi;
  fl_open : is_Some (fi_escrow s) -> is_Some (fi_escrow s');
  fl_filler_booked : party_booked (fi_filler s).1 -> party_booked (fi_filler s').1;
}.

Lemma flows_refl i mi s s' :
  fi_user s' = fi_user s -> fi_filler s' = fi_filler s -> fi_escrow s' = fi_escrow s ->
  pm_market_index (fi_market s') = pm_market_index (fi_market s) ->
  total_fee_minus_distributions (amm (fi_market s')) = total_fee_minus_distributions (amm (fi_market s)) ->
  flows i mi s s' 0 0 0 0 0.
Proof. intros E1 E2 E3 E4 E5. split; rewrite ?E1, ?E2, ?E3; done || lia. Qed.

Lemma flows_trans i mi s s1 s' a b c d e a' b' c' d' e' :
  flows i mi s s1 a b c d e -> flows i mi s1 s' a' b' c' d' e' -> flows i mi s s' (a + a') (b + b') (c + c') (d + d') (e + e').
Proof.
  intros [] []. split; try lia; [congruence|naive_solver..].
Qed.

(** Only the user's position and the market change. *)
Lemma flows_user i mi s m u b q f :
  pays b q f -> update_position_in (fi_market s) (fi_user s) i f = Ok (m, u) ->
  flows i mi s (s <| fi_market := m |> <| fi_user := u |>) b q 0 0 0.
Proof.
  intros Hf (A1 & A2 & A3 & _ & A5 & A6 & A7)%(update_position_in_Ok _ _ _ _ _ _ b q); [|done].
  split; cbn; try lia; try done. intros Hu Hh. by apply A7.
Qed.

Lemma quote_pays x : pays 0 x (fun p m => update_quote_asset_amount p m x).
Proof. intros p m p' m'. apply quote_pay. Qed.

Lemma credit_filler_Ok f st m reward q now slot m' p :
  credit_filler_perp_pnl f st m reward q now slot = Ok (m', p) ->
  exists f', p.1 = Some f' /\ quote_held f' = quote_held f + Z.max 0 reward
    /\ pm_market_index m' = pm_market_index m /\ total_fee_minus_distributions (amm m') = total_fee_minus_distributions (amm m)
    /\ (orders_booked f -> orders_booked f').
Proof.
  intros H. unfold credit_filler_perp_pnl in H. apply obind_Ok in H as ([[m1 f1] st1] & H1 & [= <- <-]).
  exists (update_last_active_slot f1 slot). split; [done|].
  assert (quote_held (update_last_active_slot f1 slot) = quote_held f1) as ->
    by (unfold update_last_active_slot; by destruct (negb _)).
  assert (quote_held f1 = quote_held f + Z.max 0 reward /\ pm_market_index m1 = pm_market_index m
    /\ total_fee_minus_distributions (amm m1) = total_fee_minus_distributions (amm m)
    /\ (orders_booked f -> orders_booked f1)) as (A1 & A2 & A3 & A4).
  { destruct (Z.ltb_spec 0 reward) as [Hr|Hr]; [|injection H1 as <- <- <-; split_and!; [lia|done..]].
    apply obind_Ok in H1 as ([f2 j] & Hj%force_get_held & H1). apply obind_Ok in H1 as (x & [-> _]%cast_i_Ok & H1).
    apply obind_Ok in H1 as ([m2 f3] & H2 & H1). apply obind_Ok in H1 as (s1 & _ & H1). apply obind_Ok in H1 as (s2 & _ & [= <- <- _]).
    destruct Hj as (J1 & _ & J3). apply (update_position_in_Ok _ _ _ _ _ _ 0 reward) in H2 as (B1 & _ & _ & _ & B5 & B6 & B7);
      [|apply quote_pays]. split_and!; [lia|done|done|].
    intros Hf. destruct (J3 Hf) as [J4 J5]. by apply (B7 (pm_market_index m)). }
  split_and!; [done..|]. intros Hf. by apply last_active_booked, A4.
Qed.

Lemma pay_filler_flows i mi t s maker reward q s' maker' :
  pay_filler t s maker reward q = Ok (s', maker') ->
  (exists df, flows i mi s s' 0 0 df 0 0
    /\ (0 <= reward -> (fi_filler s).1 <> None \/ reward = 0 -> maker.1 = None -> df = reward))
  /\ (party_booked maker.1 -> party_booked maker'.1).
Proof.
  intros H. unfold pay_filler in H. destruct (fi_filler s) as [[f|] st] eqn:Hf.
  - apply obind_Ok in H as ([m pf] & (f' & E1 & E2 & E3 & E4 & E5)%credit_filler_Ok & [= <- <-]). split; [|done].
    exists (Z.max 0 reward). split; [|lia].
    split; cbn; rewrite ?Hf, ?E1; cbn; try lia; try done. intros Hb v [= <-]. by apply E5, Hb.
  - destruct maker as [[f|] st'].
    + apply obind_Ok in H as ([m pf] & (f' & E1 & E2 & E3 & E4 & E5)%credit_filler_Ok & [= <- <-]). split.
      * exists 0. split; [by apply flows_refl|done].
      * intros Hb v Hv. rewrite E1 in Hv. injection Hv as <-. by apply E5, Hb.
    + injection H as <- <-. split; [|done]. exists 0. split; [by apply flows_refl|]. intros _ [?| ->]; done.
Qed.

(** ** The referrer *)

(** The referrer is one user with his statistics, or none. *)
Definition paired (p : Party) : Prop := is_Some p.1 <-> is_Some p.2.

(** [reward] reaches the referrer: his position, or his slot. *)
Definition reachable (s : FillState) (referrer : Party) : Prop :=
  exists r st v, referrer = (Some r, Some st) /\ force_get_perp_position_index r (pm_market_index (fi_market s)) = Ok v.
Definition payable (s : FillState) (referrer : Party) (k : option nat) : Prop :=
  (is_Some k /\ is_Some (fi_escrow s)) \/ reachable s referrer.

Lemma pay_position_flows i mi s referrer reward now s' referrer' :
  pay_referrer_position s referrer reward now = Ok (s', referrer') ->
  flows i mi s s' 0 0 0 0 0 /\ (party_booked referrer.1 -> party_booked referrer'.1)
  /\ (0 <= reward -> reward = 0 \/ reachable s referrer -> party_quote referrer'.1 = party_quote referrer.1 + reward).
Proof.
  intros H. unfold pay_referrer_position in H. destruct referrer as [[r|] [st|]].
  2-4: injection H as <- <-; split_and!; [by apply flows_refl|done|]; intros _ [->|(? & ? & ? & [=] & _)]; lia.
  destruct (force_get_perp_position_index r _) as [[r1 j]|er|] eqn:Hj; [| |done].
  2: { injection H as <- <-. split_and!; [by apply flows_refl|done|]. intros _ [->|(? & ? & ? & [= <- <-] & ?)]; [lia|congruence]. }
  apply force_get_held in Hj as (J1 & _ & J3). apply obind_Ok in H as ([m1 r2] & H1 & H).
  apply obind_Ok in H as (st1 & _ & [= <- <-]).
  assert (quote_held r2 = quote_held r1 + Z.max 0 reward /\ pm_market_index m1 = pm_market_index (fi_market s)
    /\ total_fee_minus_distributions (amm m1) = total_fee_minus_distributions (amm (fi_market s))
    /\ (orders_booked r1 -> holds r1 j (pm_market_index (fi_market s)) -> orders_booked r2)) as (A1 & A2 & A3 & A4).
  { destruct (Z.ltb_spec 0 reward); [|injection H1 as <- <-; split_and!; [lia|done..]].
    apply obind_Ok in H1 as (x & [-> _]%cast_i_Ok & H1).
    apply (update_position_in_Ok _ _ _ _ _ _ 0 reward) in H1 as (B1 & _ & _ & _ & B5 & B6 & B7); [|apply quote_pays].
    split_and!; [lia|done|done|]. intros X Y. by apply (B7 _ X Y). }
  split_and!; [split; cbn; try lia; done| |cbn; lia].
  intros Hb v [= <-]. destruct (J3 (Hb _ eq_refl)). by apply A4.
Qed.

Lemma pay_referrer_flows i mi s referrer k reward now s' referrer' :
  pay_referrer s referrer k reward now = Ok (s', referrer') ->
  exists de dr, flows i mi s s' 0 0 0 de 0 /\ party_quote referrer'.1 = party_quote referrer.1 + dr
    /\ (party_booked referrer.1 -> party_booked referrer'.1)
    /\ (0 <= reward -> (0 < reward -> payable s referrer k) -> de + dr = reward).
Proof.
  intros H. unfold pay_referrer in H.
  destruct k as [k|], (fi_escrow s) as [e|] eqn:He.
  { apply obind_Ok in H as (e' & Ha%accrue_Ok & [= <- <-]). exists reward, 0. split_and!; [|lia|done|lia].
    split; cbn -[escrow_fees]; rewrite ?He; try lia; done. }
  all: apply (pay_position_flows i mi) in H as (H1 & H2 & H3); exists 0, (party_quote referrer'.1 - party_quote referrer.1).
  all: split_and!; [done|lia|done|]; intros Hr Hp; rewrite H3; [lia|done|].
  all: destruct (Z.eq_dec reward 0); [by left|right]; destruct (Hp ltac:(lia)) as [[[? ?] [? ?]]|?]; [congruence|done].
Qed.

(** ** Who may be paid *)

Lemma add_position_possible l i : is_Some (position_of is_available l) -> exists v, add_new_position l i = Ok v.
Proof.
  intros [k Hk]. unfold add_new_position. rewrite Hk. cbn [ok_or obind].
  apply position_of_Some in Hk as (old & Hold & _). apply lookup_lt_Some in Hold as Hlt.
  assert (idx (E := ErrorCode) l (Z.of_nat k) = Ok old) as -> by (apply idx_Ok; rewrite Nat2Z.id; split; [lia|done]).
  cbn [obind]. rewrite set_idx_ok by lia. by eexists.
Qed.

Lemma force_get_again u i u' k : force_get_perp_position_index u i = Ok (u', k) ->
  exists v, force_get_perp_position_index u' i = Ok v.
Proof.
  intros H. unfold force_get_perp_position_index in H.
  destruct (get_position_index (u_perp_positions u) i) as [n|e|] eqn:Hn; [| |done].
  - injection H as <- <-. unfold force_get_perp_position_index. rewrite Hn. by eexists.
  - apply obind_Ok in H as ([l k0] & H0 & [= <- <-]). apply add_new_position_Ok in H0 as (old & new & Hold & _ & -> & Hav & _).
    unfold force_get_perp_position_index. change (u_perp_positions (u <| u_perp_positions := ?l |>)) with l.
    set (l := <[k0 := new]> _). destruct (get_position_index l i) as [n|e'|] eqn:Hn'; [by eexists| |].
    + destruct (add_position_possible l i) as [[l' k'] E]; [|rewrite E; by eexists].
      apply (position_of_is_Some _ _ k0 new); [|done]. apply list_lookup_insert_eq. by eapply lookup_lt_Some.
    + unfold get_position_index, ok_or in Hn'. by destruct (position_of _ _).
Qed.

Lemma can_reward_Ok u i u' b : can_reward_user_with_perp_pnl u i = Ok (u', b) ->
  party_quote u' = party_quote u /\ (party_booked u -> party_booked u') /\ (is_Some u <-> is_Some u')
  /\ (b = true -> exists v x, u' = Some v /\ force_get_perp_position_index v i = Ok x).
Proof.
  intros H. unfold can_reward_user_with_perp_pnl in H. destruct u as [u|]; [|by injection H as <- <-].
  destruct (force_get_perp_position_index u i) as [[v k]|e|] eqn:Hv; [| |done]; injection H as <- <-.
  - pose proof (force_get_held _ _ _ _ Hv) as (E1 & _ & E3). split_and!; [done| |by split; eexists|].
    + intros Hb w [= <-]. by apply E3, Hb.
    + intros _. apply force_get_again in Hv as [x Hx]. by exists v, x.
  - split_and!; done.
Qed.

Lemma escrow_info_Ok e sub id i on e' bi ri fee :
  get_builder_escrow_info e sub id i on = (e', bi, ri, fee) ->
  (clean_escrow e -> escrow_fees e' = escrow_fees e) /\ (is_Some e -> is_Some e')
  /\ (forall x, on = true -> e = Some x -> is_Some (find_or_create_referral_index x i).2 -> is_Some ri).
Proof.
  intros H. unfold get_builder_escrow_info in H. destruct e as [e|]; [|by injection H as <- <- <- _].
  cbv zeta in H. destruct on.
  - destruct (find_or_create_referral_index e i) as [e1 k] eqn:Hf. injection H as <- <- <- _.
    apply find_or_create_Ok in Hf as Hf'. destruct Hf' as [E1 _]. split_and!; [by intros [E _]%E1|by eexists|].
    intros x _ [= <-]. by rewrite Hf.
  - injection H as <- <- <- _. split_and!; [done|by eexists|done].
Qed.

Lemma rewards_of_fill_Ok i mi t s id maker referrer s' k referrer' w :
  rewards_of_fill t s id maker referrer = Ok (s', k, referrer', w) ->
  (exists de, flows i mi s s' 0 0 0 de 0 /\ (clean_escrow (fi_escrow s) -> de = 0)) /\ fi_market s' = fi_market s
  /\ party_quote referrer'.1 = party_quote referrer.1 /\ (party_booked referrer.1 -> party_booked referrer'.1)
  /\ (paired referrer -> reward_referrer w = true -> payable s' referrer' (referrer_builder_order_idx w))
  /\ (reward_filler w = true -> is_Some (fi_filler s').1 \/ is_Some maker.1)
  /\ (party_booked maker.1 -> party_booked k.1).
Proof.
  intros H. unfold rewards_of_fill in H. cbv zeta in H. set (mk := pm_market_index (fi_market s)) in *.
  apply obind_Ok in H as ([[r e] rr] & Hr & H). apply obind_Ok in H as ([f rf] & Hf%can_reward_Ok & H).
  apply obind_Ok in H as ([k1 rf'] & Hk & H). destruct (get_builder_escrow_info _ _ _ _ _) as [[[e' bi] ri] fee] eqn:Hi.
  injection H as <- <- <- <-. cbn [fst snd] in *. destruct Hf as (F1 & F2 & _ & F4).
  assert ((rf' = true -> rf = true \/ is_Some maker.1) /\ (party_booked maker.1 -> party_booked k1)) as [K1 K2].
  { destruct rf; [injection Hk as <- <-; split; [by left|done]|]. apply can_reward_Ok in Hk as (_ & K2 & K3 & K4).
    split; [|done]. intros Hb. right. apply K3. destruct (K4 Hb) as (v & x & -> & _). by eexists. }
  assert ((clean_escrow (fi_escrow s) -> escrow_fees e = escrow_fees (fi_escrow s) /\ clean_escrow e) /\ (is_Some (fi_escrow s) -> is_Some e) /\ party_quote r = party_quote referrer.1
    /\ (party_booked referrer.1 -> party_booked r) /\ (is_Some referrer.1 <-> is_Some r)
    /\ (rr = true -> (ft_builder_referral t = true /\ exists x, e = Some x /\ is_Some (find_or_create_referral_index x mk).2)
          \/ exists v x, r = Some v /\ force_get_perp_position_index v mk = Ok x)) as (E1 & E0 & E3 & E4 & E5 & E6).
  { unfold can_reward_user_with_referral_reward in Hr. destruct (ft_builder_referral t).
    - destruct (fi_escrow s) as [x|] eqn:Hx; [|injection Hr as <- <- <-; by rewrite ?Hx].
      destruct (find_or_create_referral_index x mk) as [x' n] eqn:Hn. injection Hr as <- <- <-.
      apply find_or_create_Ok in Hn as [N1 N3]. split_and!; try done.
      intros Hs%bool_decide_eq_true. left. split; [done|]. exists x'. by split; [|apply N3].
    - apply obind_Ok in Hr as ([r1 b] & (R1 & R2 & R3 & R4)%can_reward_Ok & [= <- <- <-]). split_and!; try done.
      intros Hb. right. by apply R4. }
  apply escrow_info_Ok in Hi as (I1 & I2 & I3). split_and!; try done.
  - exists (escrow_fees e' - escrow_fees (fi_escrow s)). split.
    + split; cbn -[escrow_fees]; try done; try lia. intros Hs. by apply I2, E0.
    + intros [E2 E2']%E1. rewrite I1 by done. lia.
  - intros Hpair Hb. destruct (E6 Hb) as [(Hon & x & -> & Hx)|(v & x & -> & Hx)].
    + left. split; [by apply (I3 x)|]. by apply I2.
    + right. destruct Hpair as [P1 _]. destruct (P1 (proj2 E5 ltac:(by eexists))) as [st Hst].
      exists v, st, x. split; [by rewrite Hst|exact Hx].
  - intros Hb. destruct (K1 Hb) as [Hb'|?]; [left|by right]. destruct (F4 Hb') as (v & x & -> & _). by eexists.
Qed.

(** ** Fees *)

Lemma accrue_builder_flows i mi s k fee s' :
  accrue_builder_fee s k fee = Ok s' -> flows i mi s s' 0 0 0 fee 0.
Proof.
  intros H. unfold accrue_builder_fee in H. destruct (Z.eqb_spec fee 0) as [->|_]; [injection H as <-; by apply flows_refl|].
  destruct k as [k|], (fi_escrow s) as [e|] eqn:He; try done. apply obind_Ok in H as (e' & Ha%accrue_Ok & [= <-]).
  split; cbn -[escrow_fees]; rewrite ?He; try lia; done.
Qed.

Lemma collect_fees_flows i mi s m fee x surplus :
  collect_fees (fi_market s) fee x surplus = Ok m -> flows i mi s (s <| fi_market := m |>) 0 0 0 0 fee.
Proof.
  intros H. unfold collect_fees in H. cbv zeta in H. apply obind_Ok in H as (a & _ & H). apply obind_Ok in H as (b & _ & H).
  apply obind_Ok in H as (c & _ & H). apply obind_Ok in H as (d & _ & H). apply obind_Ok in H as (k & [-> _]%safe_i_Ok & H).
  apply obind_Ok in H as (n & _ & [= <-]). split; cbn; try lia; done.
Qed.

(** The fees of a match, and who gets nothing of them. *)
Lemma match_fees_sum `{FourthRoot} s maker q fs slot now mult rr referrer t adj hl builder f :
  sound_fees fs ->
  calculate_fee_for_fulfillment_with_match s maker q fs slot now mult rr referrer t adj hl builder = Ok f ->
  user_fee f = fee_to_market f + maker_rebate f + filler_reward f + referrer_reward f
  /\ 0 <= filler_reward f /\ 0 <= referrer_reward f
  /\ (mult = 0 -> filler_reward f = 0) /\ (rr = false -> referrer_reward f = 0).
Proof.
  intros Hfs Hf. unfold calculate_fee_for_fulfillment_with_match in Hf.
  apply obind_Ok in Hf as (tier & Htier & Hf). apply obind_Ok in Hf as (mtier & _ & Hf).
  apply obind_Ok in Hf as (g & Hg & Hf). apply obind_Ok in Hf as (gross & Hgross & Hf).
  pose proof (user_tier_sound _ _ _ _ _ Hfs Htier) as Ht. pose proof (taker_fee_in_u _ _ _ _ Ht Hg) as Hgu.
  apply high_leverage_fee_Ok in Hgross as [Hgu2 _]; [|done].
  apply obind_Ok in Hf as ([[fee d] w] & Hr & Hf). apply referee_fee_in_u in Hr as (_ & _ & _ & Hw & _ & Hno); [|done..].
  apply obind_Ok in Hf as (mr & _ & Hf). apply obind_Ok in Hf as (fr & Hfr & Hf).
  apply obind_Ok in Hf as (x & [-> _]%safe_u_Ok & Hf). apply obind_Ok in Hf as (x & [-> _]%safe_u_Ok & Hf).
  apply obind_Ok in Hf as (x & [-> _]%safe_u_Ok & Hf). apply obind_Ok in Hf as (x & [-> _]%cast_i_Ok & Hf).
  apply obind_Ok in Hf as (b & _ & [= <-]). cbn. split_and!; [lia| |done| |by intros ->; apply Hno].
  - destruct (mult =? 0); [injection Hfr as <-; lia|]. unfold calculate_filler_reward in Hfr.
    apply obind_Ok in Hfr as (y & [-> Hy]%safe_u_Ok & Hfr). apply obind_Ok in Hfr as (z & [_ ->]%safe_udiv_Ok & Hfr).
    apply obind_Ok in Hfr as (? & _ & Hfr). apply obind_Ok in Hfr as (? & _ & Hfr). apply obind_Ok in Hfr as (? & _ & Hfr).
    cbv zeta in Hfr. apply obind_Ok in Hfr as (? & _ & Hfr). apply obind_Ok in Hfr as (? & _ & Hfr).
    apply obind_Ok in Hfr as (? & _ & Hfr). apply obind_Ok in Hfr as (v & [-> Hv]%cast_u_Ok & [= <-]).
    pose proof (fees_filler _ Hfs) as Hd. unfold in_u in *.
    apply Z.min_glb; [|lia]. destruct (Z.eq_dec (reward_denominator (filler_reward_structure fs)) 0) as [->|]; [by rewrite Zdiv_0_r|].
    apply Z.div_pos; lia.
  - intros ->. cbn in Hfr. by injection Hfr as <-.
Qed.

(** ** A match *)

Definition sign_of (d : PositionDirection) : Z := match d with Long => 1 | Short => -1 end.

Lemma delta_for_fill_Ok b q d delta : get_position_delta_for_fill b q d = Ok delta ->
  pd_base_asset_amount delta = sign_of d * b /\ pd_quote_asset_amount delta = - sign_of d * q.
Proof.
  intros H. unfold get_position_delta_for_fill in H. apply obind_Ok in H as (x & [-> _]%cast_i_Ok & H).
  apply obind_Ok in H as (y & [-> _]%cast_i_Ok & H). destruct d; injection H as <-; cbn; lia.
Qed.

Lemma fill_pays delta :
  pays (pd_base_asset_amount delta) (pd_quote_asset_amount delta) (fun p m =>
    let! '(p, m, _) := update_position_and_market p m delta in Ok (p, m)).
Proof. intros p m p' m' H. apply obind_Ok in H as ([[p1 m1] r] & H%fill_pay & [= <- <-]). exact H. Qed.

Definition same_parties (s s' : FillState) : Prop := fi_filler s' = fi_filler s /\ fi_escrow s' = fi_escrow s.

(** What the maker's account takes. *)
Record maker_flows (j : nat) (mi : Z) (u u' : User) (db dq : Z) : Prop := {
  mf_base : base_held u' = base_held u + db;
  mf_quote : quote_held u' = quote_held u + dq;
  mf_orders : u_orders u' = u_orders u;
  mf_booked : orders_booked u -> holds u j mi -> orders_booked u' /\ holds u' j mi;
}.

Lemma maker_flows_update j mi m u f m' u' b q :
  pays b q f -> update_position_in m u j f = Ok (m', u') ->
  maker_flows j mi u u' b q /\ pm_market_index m' = pm_market_index m
  /\ total_fee_minus_distributions (amm m') = total_fee_minus_distributions (amm m).
Proof.
  intros Hf (A1 & A2 & A3 & _ & A5 & A6 & A7)%(update_position_in_Ok _ _ _ _ _ _ b q); [|done].
  split_and!; [|done..]. split; try done. apply A7.
Qed.

Lemma trade_flows i j mi mi' s maker td md b q s' maker' :
  trade_with_maker s maker i j td md b q = Ok (s', maker') ->
  flows i mi s s' (sign_of td * b) (- sign_of td * q) 0 0 0 /\ same_parties s s'
  /\ maker_flows j mi' maker maker' (sign_of md * b) (- sign_of md * q).
Proof.
  intros H. unfold trade_with_maker in H. apply obind_Ok in H as (d1 & [<- <-]%delta_for_fill_Ok & H).
  apply obind_Ok in H as ([m1 k1] & H1 & H). apply obind_Ok in H as (d2 & [<- <-]%delta_for_fill_Ok & H).
  apply obind_Ok in H as ([m2 u2] & H2 & [= <- <-]).
  apply (maker_flows_update _ mi' _ _ _ _ _ (pd_base_asset_amount d1) (pd_quote_asset_amount d1)) in H1 as (M & E1 & E2); [|apply fill_pays].
  split; [|split; [by split|done]].
  pose proof (flows_user i mi (s <| fi_market := m1 |>) m2 u2 _ _ _ (fill_pays d2) H2) as Hu.
  assert (flows i mi s (s <| fi_market := m1 |>) 0 0 0 0 0) as H0 by (by apply flows_refl).
  pose proof (flows_trans _ _ _ _ _ _ _ _ _ _ _ _ _ _ _ H0 Hu) as Ht. exact Ht.
Qed.

Lemma on_maker_stats_flows i mi s st f s' st' :
  on_maker_stats s st f = Ok (s', st') -> flows i mi s s' 0 0 0 0 0 /\ same_parties s s'.
Proof.
  intros H. unfold on_maker_stats in H. destruct st as [st|].
  - apply obind_Ok in H as (x & _ & [= <- _]). split; [by apply flows_refl|by split].
  - apply obind_Ok in H as (x & _ & [= <- _]). split; [by apply flows_refl|by split].
Qed.
Lemma on_taker_stats_flows i mi s f s' :
  on_taker_stats s f = Ok s' -> flows i mi s s' 0 0 0 0 0 /\ same_parties s s'.
Proof. intros H. unfold on_taker_stats in H. apply obind_Ok in H as (x & _ & [= <-]). split; [by apply flows_refl|by split]. Qed.

Lemma fee_pays (x : DriftResult Z) v : (forall y, x = Ok y -> y = v) ->
  pays 0 v (fun p m => let! y := x in update_quote_asset_and_break_even_amount p m y).
Proof. intros Hv p m p' m' H. apply obind_Ok in H as (y & ->%Hv & H%both_pay). exact H. Qed.

Lemma charge_match_flows i j mi mi' s maker st f s' maker' st' :
  charge_match s maker st i j f = Ok (s', maker', st') ->
  flows i mi s s' 0 (- (user_fee f + default 0 (builder_fee f))) 0 0 0 /\ same_parties s s'
  /\ maker_flows j mi' maker maker' 0 (maker_rebate f).
Proof.
  intros H. unfold charge_match in H. apply obind_Ok in H as ([m1 u1] & H1 & H). apply obind_Ok in H as (st1 & _ & H).
  apply obind_Ok in H as (st2 & _ & H). apply obind_Ok in H as ([m2 k2] & H2 & H). cbv zeta in H.
  apply obind_Ok in H as ([s3 st3] & H3 & [= <- <- _]).
  apply (maker_flows_update _ mi' _ _ _ _ _ 0 (maker_rebate f)) in H2 as (M & E1 & E2).
  2: { apply fee_pays. by intros y [-> _]%cast_i_Ok. }
  apply (on_maker_stats_flows i mi) in H3 as [F3 E3].
  apply (flows_user i mi s m1 u1 0 (- (user_fee f + default 0 (builder_fee f)))) in H1 as H0.
  2: { intros p m p' m' G. apply obind_Ok in G as (x & [-> _]%safe_u_Ok & G).
       apply obind_Ok in G as (y & [-> _]%cast_i_Ok & G%both_pay). exact G. }
  split; [|split; [by destruct E3|done]].
  set (s2 := s <| fi_market := m2 |> <| fi_user := u1 |> <| fi_user_stats := st2 |>) in *.
  assert (flows i mi (s <| fi_market := m1 |> <| fi_user := u1 |>) s2 0 0 0 0 0) as H4 by (by apply flows_refl).
  pose proof (flows_trans _ _ _ _ _ _ _ _ _ _ _ _ _ _ _ (flows_trans _ _ _ _ _ _ _ _ _ _ _ _ _ _ _ H0 H4) F3) as Ht.
  by rewrite !Z.add_0_r in Ht.
Qed.

Lemma maker_flows_trans j mi u u1 u' a b a' b' :
  maker_flows j mi u u1 a b -> maker_flows j mi u1 u' a' b' -> maker_flows j mi u u' (a + a') (b + b').
Proof. intros [] []. split; [lia|lia|congruence|naive_solver]. Qed.

Lemma accrue_builder_filler s k fee s' : accrue_builder_fee s k fee = Ok s' -> fi_filler s' = fi_filler s.
Proof.
  intros H. unfold accrue_builder_fee in H. destruct (fee =? 0); [by injection H as <-|].
  destruct k as [k|], (fi_escrow s) as [e|]; try done. by apply obind_Ok in H as (e' & _ & [= <-]).
Qed.
Lemma pay_filler_escrow t s maker reward q s' p : pay_filler t s maker reward q = Ok (s', p) ->
  fi_escrow s' = fi_escrow s /\ pm_market_index (fi_market s') = pm_market_index (fi_market s).
Proof.
  intros H. unfold pay_filler in H. destruct (fi_filler s) as [[f|] st], maker as [[g|] st'].
  all: try (apply obind_Ok in H as ([m pf] & (? & _ & _ & E & _)%credit_filler_Ok & [= <- _]); by split).
  by injection H as <- _.
Qed.
Lemma payable_mono s s' referrer k : payable s referrer k ->
  (is_Some (fi_escrow s) -> is_Some (fi_escrow s')) -> pm_market_index (fi_market s') = pm_market_index (fi_market s) ->
  payable s' referrer k.
Proof.
  intros [[Hk Hs]|(r & st & v & -> & Hv)] He Hi; [left; split; [done|by apply He]|].
  right. exists r, st, v. by rewrite Hi.
Qed.

(** The size and the price of a match: as much as the maker offers and the taker
    wants, by his position when his order only reduces it, at the maker's price. *)
Definition match_terms (s : FillState) (ko to : Order) (mp mb b q : Z) : Prop :=
  exists p x, get_perp_position (fi_user s) (pm_market_index (fi_market s)) = Ok p
    /\ get_base_asset_amount_unfilled to (Some (pp_base_asset_amount p)) = Ok x /\ b = Z.min mb x
    /\ calculate_quote_asset_amount_for_maker_order b mp PERP_DECIMALS (o_direction ko) = Ok q.

(** The fees are those of a match of [q] in the market, for the orders as they are. *)
Definition match_fees `{FourthRoot} (t : FillTerms) (to : Order) (adj q : Z) (hl : bool) (f : FillFees) : Prop :=
  exists taker_stats maker_stats multiplier reward referrer_stats builder,
    calculate_fee_for_fulfillment_with_match taker_stats maker_stats q (ft_fee_structure t) (o_slot to) (ft_slot t) multiplier
      reward referrer_stats Perp adj hl builder = Ok f.

(** What each takes of the quote and of the fees. *)
Record match_split (td kd : PositionDirection) (q : Z) (f : FillFees) (du df dr de dm dk : Z) : Prop := {
  ms_taker : du = - sign_of td * q - user_fee f - default 0 (builder_fee f);
  ms_maker : dk = - sign_of kd * q + maker_rebate f;
  ms_filler : df = filler_reward f;
  ms_referrer : dr + de = referrer_reward f + default 0 (builder_fee f);
  ms_market : dm = fee_to_market f;
  ms_total : user_fee f = fee_to_market f + maker_rebate f + filler_reward f + referrer_reward f;
}.

(** What a match has done when the two orders are left to be filled: [s1] and
    [maker1] are the accounts then, and the amounts add up. *)
Record matched `{FourthRoot} (t : FillTerms) (s : FillState) (n : nat) (k : MakerSide) (ko to : Order) (mp mb : Z) (referrer : Party)
    (s' : FillState) (k' : MakerSide) (referrer' : Party) (b q : Z)
    (i j : nat) (s1 : FillState) (maker1 : MakerSide) (du df dr de dm dk : Z) : Prop := {
  ma_taker_position : get_position_index (u_perp_positions (fi_user s)) (o_market_index to) = Ok i;
  ma_maker_position : get_position_index (u_perp_positions (mk_user k)) (o_market_index ko) = Ok j;
  ma_flows : flows i (o_market_index to) s s1 (sign_of (o_direction to) * b) du df de dm;
  ma_maker : maker_flows j (o_market_index ko) (mk_user k) (mk_user maker1) (sign_of (o_direction ko) * b) dk;
  ma_referrer : party_quote referrer'.1 = party_quote referrer.1 + dr;
  ma_referrer_booked : party_booked referrer.1 -> party_booked referrer'.1;
  ma_total : match_terms s ko to mp mb b q /\ exists f adj hl, match_fees t to adj q hl f
    /\ (clean_escrow (fi_escrow s) -> paired referrer -> sound_fees (ft_fee_structure t) ->
        match_split (o_direction to) (o_direction ko) q f du df dr de dm dk);
  ma_base : exists p x, get_base_asset_amount_unfilled to p = Ok x /\ b = Z.min mb x;
  ma_index : mk_order_index maker1 = mk_order_index k /\ mk_order_index k' = mk_order_index k;
  ma_fill : exists w f ex, fill_both s1 maker1 w n i j b q f ex = Ok (s', mk_user k');
}.

Lemma match_orders_Ok `{FourthRoot} t s n k referrer tp mp mb op me s' k' referrer' b q ko to :
  u_orders (mk_user k) !! mk_order_index k = Some ko -> u_orders (fi_user s) !! n = Some to ->
  match_orders t s n k referrer tp mp mb op me = Ok (s', k', referrer', (b, q)) ->
  exists i j s1 maker1 du df dr de dm dk, matched t s n k ko to mp mb referrer s' k' referrer' b q i j s1 maker1 du df dr de dm dk.
Proof.
  intros Hko Hto H0. unfold match_orders in H0. cbv zeta in H0.
  apply obind_Ok in H0 as (ko' & [_ Hko']%idx_Ok & H0). apply obind_Ok in H0 as (to' & [_ Hto']%idx_Ok & H0).
  rewrite Nat2Z.id in Hko', Hto'. assert (ko' = ko) as -> by congruence. assert (to' = to) as -> by congruence.
  apply obind_Ok in H0 as (p & Hpp & H0). apply obind_Ok in H0 as (x & Hx & H0). apply obind_Ok in H0 as ([b' q'] & Hbq & H0).
  assert (b' = Z.min mb x /\ calculate_quote_asset_amount_for_maker_order b' mp PERP_DECIMALS (o_direction ko) = Ok q') as [Hb Hq].
  { unfold calculate_fill_for_matched_orders in Hbq. cbv zeta in Hbq. by apply obind_Ok in Hbq as (q0 & Hq0 & [= <- <-]). }
  apply obind_Ok in H0 as (? & _ & H0). apply obind_Ok in H0 as (? & _ & H0).
  apply obind_Ok in H0 as (j & Hj & H0). apply obind_Ok in H0 as (i & Hi & H0).
  set (mi := o_market_index to) in *. set (mi' := o_market_index ko) in *.
  apply obind_Ok in H0 as ([s2 k2] & (F1 & [P1 Q1] & M1)%(trade_flows i j mi mi') & H0).
  apply obind_Ok in H0 as ([s3 st3] & [F2 [P2 Q2]]%(on_maker_stats_flows i mi) & H0).
  apply obind_Ok in H0 as (s4 & [F3 [P3 Q3]]%(on_taker_stats_flows i mi) & H0).
  apply obind_Ok in H0 as ([[[s5 k5] r5] w] & Hw & H0).
  apply (rewards_of_fill_Ok i mi) in Hw as ((de5 & F4 & C4) & _ & R1 & R2 & R3 & R4 & _).
  apply obind_Ok in H0 as (mult & Hmult & H0). apply obind_Ok in H0 as (f & Hf & H0).
  apply obind_Ok in H0 as (s6 & H6 & H0). apply (accrue_builder_flows i mi) in H6 as F5. apply accrue_builder_filler in H6 as P4.
  apply obind_Ok in H0 as (m7 & F6%(collect_fees_flows i mi) & H0).
  apply obind_Ok in H0 as ([[s8 k8] st8] & (F7 & [P5 Q5] & M2)%(charge_match_flows i j mi mi') & H0).
  apply obind_Ok in H0 as ([s9 p9] & H9 & H0).
  assert (fi_filler s8 = fi_filler s5) as P6 by (rewrite P5; exact P4).
  pose proof (pay_filler_escrow _ _ _ _ _ _ _ H9) as [Q9 I9].
  apply (pay_filler_flows i mi) in H9 as ((df & F8 & D8) & _).
  apply obind_Ok in H0 as ([s10 r10] & H10 & H0).
  apply (pay_referrer_flows i mi) in H10 as (de & dr & F9 & Er & Eb & D9).
  apply obind_Ok in H0 as ([s11 k11] & H11 & [= <- <- <- <- <-]).
  pose proof (flows_trans _ _ _ _ _ _ _ _ _ _ _ _ _ _ _ F1 (flows_trans _ _ _ _ _ _ _ _ _ _ _ _ _ _ _ F2
    (flows_trans _ _ _ _ _ _ _ _ _ _ _ _ _ _ _ F3 (flows_trans _ _ _ _ _ _ _ _ _ _ _ _ _ _ _ F4
    (flows_trans _ _ _ _ _ _ _ _ _ _ _ _ _ _ _ F5 (flows_trans _ _ _ _ _ _ _ _ _ _ _ _ _ _ _ F6
    (flows_trans _ _ _ _ _ _ _ _ _ _ _ _ _ _ _ F7 (flows_trans _ _ _ _ _ _ _ _ _ _ _ _ _ _ _ F8 F9)))))))) as Fall.
  pose proof (maker_flows_trans _ _ _ _ _ _ _ _ _ M1 M2) as Mall.
  exists i, j, s10, (mkMakerSide k8 st8 (mk_order_index k)).
  replace (sign_of (o_direction to) * b' + _) with (sign_of (o_direction to) * b') in Fall by lia.
  rewrite Z.add_0_r in Mall. eexists _, _, dr, _, _, _. split; [done|done|exact Fall|exact Mall| | | | | |].
  - cbn in Er |- *. lia.
  - intros Hb0. by apply Eb, R2.
  - split; [by exists p, x|]. eexists f, _, _. split; [by eexists _, _, _, _, _, _|].
    intros Hc Hp Hfs. apply match_fees_sum in Hf as (A1 & A2 & A3 & A4 & A5); [|done].
    specialize (C4 ltac:(congruence)).
    assert (df = filler_reward f) as ->.
    { apply D8; [done| |done]. rewrite P6. destruct (reward_filler w).
      - left. destruct (R4 eq_refl) as [[? E]|[? [=]]]. congruence.
      - right. apply A4. by injection Hmult. }
    assert (de + dr = referrer_reward f) as D; [|cbn in Er; split; lia].
    apply D9; [done|]. intros Hpos. destruct (reward_referrer w); [|specialize (A5 eq_refl); lia].
    apply (payable_mono s5); [by apply R3| |]; rewrite ?Q9, ?I9.
    + intros Hs. apply (fl_open _ _ _ _ _ _ _ _ _ F7), (fl_open _ _ _ _ _ _ _ _ _ F6), (fl_open _ _ _ _ _ _ _ _ _ F5), Hs.
    + rewrite (fl_index _ _ _ _ _ _ _ _ _ F7), (fl_index _ _ _ _ _ _ _ _ _ F6), (fl_index _ _ _ _ _ _ _ _ _ F5). done.
  - by exists (Some (pp_base_asset_amount p)), x.
  - done.
  - by eexists _, _, _.
Qed.

(** ** Filling the orders moves no amounts *)

Lemma update_position_amounts u i f u' :
  (forall p p', f p = Ok p' -> pp_base_asset_amount p' = pp_base_asset_amount p /\ pp_quote_asset_amount p' = pp_quote_asset_amount p) ->
  update_position u i f = Ok u' -> base_held u' = base_held u /\ quote_held u' = quote_held u.
Proof.
  intros Hf (p & p' & Hp & [E1 E2]%Hf & ->)%update_position_Ok. unfold base_held, quote_held.
  change (u_perp_positions (u <| u_perp_positions := ?l |>)) with l. rewrite !(sum_z_insert _ _ _ p) by done. lia.
Qed.

Lemma fill_order_amounts u n i b q u' x :
  fill_order u n i b q = Ok (u', x) -> base_held u' = base_held u /\ quote_held u' = quote_held u.
Proof.
  intros H. unfold fill_order in H. apply obind_Ok in H as (o & _ & H). apply obind_Ok in H as ([o' y] & _ & H).
  apply obind_Ok in H as (u1 & [-> _]%update_order_Ok & H). apply obind_Ok in H as (u2 & H & [= <- _]).
  apply update_position_amounts in H; [done|]. intros p p' G. unfold decrease_open_bids_and_asks in G.
  destruct (negb _); [by injection G as <-|]. apply obind_Ok in G as (z & _ & G).
  destruct (o_direction o'); by apply obind_Ok in G as (w & _ & [= <-]).
Qed.

Lemma close_filled_amounts u n i u' :
  close_filled_order u n i = Ok u' -> base_held u' = base_held u /\ quote_held u' = quote_held u.
Proof.
  intros H. unfold close_filled_order in H. apply obind_Ok in H as (o & _ & H). apply obind_Ok in H as (x & _ & H).
  destruct (x =? 0); [|by injection H as <-]. cbv zeta in H. apply obind_Ok in H as (u1 & [-> _]%update_order_Ok & H).
  assert (u_perp_positions (decrement_open_orders u (has_auction o)) = u_perp_positions u) as E
    by (unfold decrement_open_orders; by destruct (has_auction o)).
  apply update_position_amounts in H as [-> ->]; [unfold base_held, quote_held; cbn; by rewrite E|].
  intros p p' G. by apply obind_Ok in G as (n' & _ & [= <-]).
Qed.

Lemma log_fill_Ok s b f ex s' : log_fill s b f ex = Ok s' ->
  fi_user s' = fi_user s /\ fi_user_stats s' = fi_user_stats s /\ fi_filler s' = fi_filler s /\ fi_escrow s' = fi_escrow s
  /\ amm (fi_market s') = amm (fi_market s) /\ pm_market_index (fi_market s') = pm_market_index (fi_market s).
Proof.
  intros H. unfold log_fill in H. cbv zeta in H. apply obind_Ok in H as (x & _ & H). apply obind_Ok in H as (y & _ & H).
  apply obind_Ok in H as ([z o] & _ & [= <-]). done.
Qed.

Definition money (s : FillState) (maker : User) (referrer : Party) : Z :=
  quote_held (fi_user s) + quote_held maker + party_quote (fi_filler s).1 + party_quote referrer.1
  + escrow_fees (fi_escrow s) + total_fee_minus_distributions (amm (fi_market s)).

Lemma fill_both_Ok s k w n i j b q f ex s' maker' : fill_both s k w n i j b q f ex = Ok (s', maker') ->
  (base_held (fi_user s') = base_held (fi_user s) /\ base_held maker' = base_held (mk_user k)
   /\ quote_held (fi_user s') = quote_held (fi_user s) /\ quote_held maker' = quote_held (mk_user k)
   /\ escrow_fees (fi_escrow s') = escrow_fees (fi_escrow s) /\ fi_filler s' = fi_filler s
   /\ total_fee_minus_distributions (amm (fi_market s')) = total_fee_minus_distributions (amm (fi_market s)))
  /\ exists u1 x u2 y, fill_order (fi_user s) n i b q = Ok (u1, x) /\ close_filled_order u1 n i = Ok (fi_user s')
     /\ fill_order (mk_user k) (mk_order_index k) j b q = Ok (u2, y) /\ close_filled_order u2 (mk_order_index k) j = Ok maker'
     /\ fi_filler s' = fi_filler s.
Proof.
  intros H. unfold fill_both in H. apply obind_Ok in H as ([u1 x] & H1 & H). apply obind_Ok in H as (e & He & H).
  apply obind_Ok in H as ([u2 y] & H2 & H). apply obind_Ok in H as (s1 & (L1 & L2 & L3 & L4 & L5 & _)%log_fill_Ok & H).
  rewrite L1 in H. cbn [fi_user] in H. apply obind_Ok in H as (u3 & H3 & H). apply obind_Ok in H as (u4 & H4 & [= <- <-]).
  pose proof (fill_order_amounts _ _ _ _ _ _ _ H1) as [A1 A2]. pose proof (fill_order_amounts _ _ _ _ _ _ _ H2) as [B1 B2].
  pose proof (close_filled_amounts _ _ _ _ H3) as [C1 C2]. pose proof (close_filled_amounts _ _ _ _ H4) as [D1 D2].
  assert (escrow_fees e = escrow_fees (fi_escrow s)) as E by (destruct x; [by apply complete_Ok in He|by injection He as <-]).
  cbn in C1, C2, L3, L4, L5. split; [split_and!|].
  - cbn. lia.
  - lia.
  - cbn. lia.
  - lia.
  - cbn -[escrow_fees]. by rewrite L4.
  - done.
  - cbn. by rewrite L5.
  - exists u1, x, u2, y. split_and!; done.
Qed.

Lemma unfilled_within o p x b : get_base_asset_amount_unfilled o p = Ok x -> b <= x -> b <= unfilled o.
Proof.
  intros Hx Hb. assert (x <= unfilled o) as Hxu; [|lia].
  unfold get_base_asset_amount_unfilled in Hx. apply obind_Ok in Hx as (y & [-> Hy]%safe_u_Ok & Hx). fold (unfilled o) in *.
  unfold in_u in Hy. destruct p as [p|]; [|by injection Hx as <-].
  destruct (negb _); [by injection Hx as <-|]. destruct (p =? 0); [injection Hx as <-; lia|].
  destruct (o_direction o); case_match; injection Hx as <-; lia.
Qed.

(** C31: Matching two orders moves what it should and makes or loses nothing.  As
    much base as the maker offers and the taker wants goes from one position to the
    other, and its worth at the maker's price goes the opposite way; of the taker's
    fee every unit reaches whom it is for - the rebate the maker's position, the
    filler's reward his position, the referrer's reward his position or his slot of
    the escrow, the rest the market's revenue - and the builder's fee, charged
    beside it, reaches the escrow.  So over the positions of all four users, the
    escrow's slots and the market's revenue the sum is as before. *)
Theorem match_conserves `{FourthRoot} t s n k referrer tp mp mb op me s' k' referrer' b q ko to :
  sound_fees (ft_fee_structure t) -> clean_escrow (fi_escrow s) -> paired referrer ->
  u_orders (mk_user k) !! mk_order_index k = Some ko -> u_orders (fi_user s) !! n = Some to ->
  o_direction ko = opposite (o_direction to) ->
  match_orders t s n k referrer tp mp mb op me = Ok (s', k', referrer', (b, q)) ->
  match_terms s ko to mp mb b q /\ b <= unfilled to
  /\ base_held (fi_user s') = base_held (fi_user s) + sign_of (o_direction to) * b
  /\ base_held (mk_user k') = base_held (mk_user k) - sign_of (o_direction to) * b
  /\ (exists f adj hl, match_fees t to adj q hl f
     /\ user_fee f = fee_to_market f + maker_rebate f + filler_reward f + referrer_reward f
     /\ quote_held (fi_user s')
        = quote_held (fi_user s) - sign_of (o_direction to) * q - user_fee f - default 0 (builder_fee f)
     /\ quote_held (mk_user k') = quote_held (mk_user k) + sign_of (o_direction to) * q + maker_rebate f
     /\ party_quote (fi_filler s').1 = party_quote (fi_filler s).1 + filler_reward f
     /\ party_quote referrer'.1 + escrow_fees (fi_escrow s')
        = party_quote referrer.1 + escrow_fees (fi_escrow s) + referrer_reward f + default 0 (builder_fee f)
     /\ total_fee_minus_distributions (amm (fi_market s'))
        = total_fee_minus_distributions (amm (fi_market s)) + fee_to_market f)
  /\ money s' (mk_user k') referrer' = money s (mk_user k) referrer.
Proof.
  intros Hfs Hc Hp Hko Hto Hd H0.
  destruct (match_orders_Ok _ _ _ _ _ _ _ _ _ _ _ _ _ _ _ _ _ Hko Hto H0) as (i & j & s1 & k1 & du & df & dr & de & dm & dk & M).
  destruct M as [_ _ [F1 F2 F3 F4 F5 _ _ _ _ _] [G1 G2 _ _] Hr _ (Hterms & f & adj & hl & Hfee & Ht) (p & x & Hx & Hb) _
    (w & f' & ex & ((B1 & B2 & B3 & B4 & B5 & B6 & B7) & _)%fill_both_Ok)].
  destruct (Ht Hc Hp Hfs) as [T1 T2 T3 T4 T5 T6]. rewrite Hd in *.
  assert (sign_of (opposite (o_direction to)) = - sign_of (o_direction to)) as E by (by destruct (o_direction to)).
  rewrite E in *. split; [done|]. split; [by eapply unfilled_within; [exact Hx|lia]|]. split; [lia|]. split; [lia|].
  split; [|unfold money; rewrite ?B6; lia].
  exists f, adj, hl. split; [done|]. rewrite B6. split_and!; lia.
Qed.

(** * Examples *)

#[local] Instance fill_root_4 : FourthRoot := {| nth_root_4 x := Z.sqrt (Z.sqrt x) |}.

(** An order to buy 3 contracts up to 100.20 dollars meets an offer of 2 at 100.10;
    the market maker, 5 contracts short, buys beside it. *)
Definition buy_params : OrderParams :=
  mkOrderParams LimitOrder Perp Long 0 3000000000 100200000 0 false PostOnlyNone 0 None None Above None None None None.
Definition sell_params : OrderParams :=
  mkOrderParams LimitOrder Perp Short 0 2000000000 100100000 0 false PostOnlyNone 0 None None Above None None None None.
Definition buyer : User := placed trader buy_params.
Definition seller : User := placed trader sell_params.

Lemma placed_booked u p :
  succeeds (place_perp_order trading_state u trading_markets margin_oracles None 1000 100 p default_options false) = true ->
  orders_booked u -> orders_booked (placed u p).
Proof.
  intros H Hu. unfold placed. destruct (place_perp_order _ _ _ _ _ _ _ _ _ _) as [[[u1 o1] h1]|e|] eqn:E; [|done..].
  exact (place_perp_order_booked _ _ _ _ _ _ _ _ _ _ _ _ _ Hu E).
Qed.
Lemma trader_booked : orders_booked trader.
Proof. apply idle_booked; try reflexivity; [repeat constructor..|cbn; lia]. Qed.

Definition fill_market : PerpMarket :=
  trading_market 0 <| amm ; base_asset_amount_with_amm := -5000000000 |> <| amm ; amm_jit_intensity := 100 |>.
Definition fill_terms : FillTerms := mkFillTerms perps_default 100000000 (Some 100000000) 1010 110 true.
Definition fill_state : FillState :=
  mkFillState fill_market buyer default_UserStats (Some trader, Some default_UserStats)
    (Some (mkRevenueShareEscrow 0 9 [default_share; default_share] [])) margin_oracles.
Definition seller_side : MakerSide := mkMakerSide seller (Some default_UserStats) 0.
Definition referrer_party : Party := (Some trader, Some default_UserStats).
Definition order_at (u : User) (n : nat) : Order := default default_Order (u_orders u !! n).

Definition fill_result : FillState * MakerSide * Party * (Z * Z * Z) :=
  from (fill_state, seller_side, referrer_party, (0, 0, 0))
    (fulfill_perp_order_with_match fill_terms fill_state 0 seller_side referrer_party (Some 100200000) 100100000).
Lemma fill_succeeds :
  fulfill_perp_order_with_match fill_terms fill_state 0 seller_side referrer_party (Some 100200000) 100100000 = Ok fill_result.
Proof. vm_compute. reflexivity. Qed.

Definition match_result : FillState * MakerSide * Party * (Z * Z) :=
  from (fill_state, seller_side, referrer_party, (0, 0))
    (match_orders fill_terms fill_state 0 seller_side referrer_party 100200000 100100000 2000000000 100000000 None).
Lemma match_succeeds :
  match_orders fill_terms fill_state 0 seller_side referrer_party 100200000 100100000 2000000000 100000000 None = Ok match_result.
Proof. vm_compute. reflexivity. Qed.

Lemma match_conserves_witness :
  base_held (fi_user match_result.1.1.1) = 2000000000 /\ base_held (mk_user match_result.1.1.2) = -2000000000
  /\ quote_held (fi_user match_result.1.1.1) < -200200000
  /\ money match_result.1.1.1 (mk_user match_result.1.1.2) match_result.1.2 = money fill_state seller referrer_party.
Proof.
  split; [vm_compute; reflexivity|]. split; [vm_compute; reflexivity|]. split; [vm_compute; reflexivity|].
  pose proof match_succeeds as H. destruct match_result as [[[s k] r] [a b]]. cbn [fst snd] in *.
  refine (proj2 (proj2 (proj2 (proj2 (proj2 (match_conserves fill_terms fill_state 0 seller_side referrer_party _ _ _ _ _ s k r a b (order_at seller 0) (order_at buyer 0) perps_default_sound _ _ _ _ _ H)))))).
  - cbn. repeat constructor.
  - split; intros _; by eexists.
  - vm_compute; reflexivity.
  - vm_compute; reflexivity.
  - vm_compute; reflexivity.
Defined.
