(* ===== verification/DriftFillBooks.v ===== *)
(** Fills keep the books of the users' open orders: the counters of orders, bids
    and asks that [DriftSpotOrders] shows exact under every other operation stay
    exact for the taker and the maker when their orders are filled. *)
From S2P Require Import Prelude.
From S2P Require Import RecordUpdate.
From S2P Require Import DriftError.
From S2P Require Import DriftMath.
From S2P Require Import DriftSpotMarket.
From S2P Require Import DriftTypes.
From S2P Require Import DriftOracle.
From S2P Require Import DriftOrderMath.
From S2P Require Import DriftAmm.
From S2P Require Import DriftSpread.
From S2P Require Import DriftPosition.
From S2P Require Import DriftUser.
From S2P Require Import DriftFunding.
From S2P Require Import DriftOracleMap.
From S2P Require Import DriftMargin.
From S2P Require Import DriftFees.
From S2P Require Import DriftOrderParams.
From S2P Require Import DriftOrders.
From S2P Require Import DriftSpotOrders.
From S2P Require Import DriftRevenueShare.
From S2P Require Import DriftFills.
From S2P Require Import DriftFillFlows.

(** * The books *)

Lemma holds_for u n ord i mi :
  orders_booked u -> u_orders u !! n = Some ord -> open_in mi ord = true -> holds u i mi ->
  exists p, u_perp_positions u !! i = Some p /\ is_for p mi = true.
Proof.
  intros Hu Hn Ho (p & Hp & Hi & Hone). exists p. split; [done|]. unfold is_for. rewrite Hi, Z.eqb_refl. cbn.
  destruct (is_available p) eqn:Hav; [|done]. exfalso.
  assert (1 <= sum_z (order_share mi (fun _ => 1)) (u_orders u)) as H1.
  { apply (order_share_le _ n ord mi (fun _ => 1)); [done| |done]. apply Forall_true. lia. }
  rewrite <- (bk_books _ _ (ob_books _ Hu) mi pp_open_orders) in H1 by (unfold books; set_solver).
  rewrite (sum_z_ext _ (fun _ => 0)) in H1.
  { clear -H1. induction (u_perp_positions u) as [|q l IH]; unfold sum_z in *; cbn in *; lia. }
  apply Forall_lookup. intros j q Hj. unfold position_share. destruct (Z.eqb_spec (pp_market_index q) mi) as [E|]; [|done].
  apply (available_zero q pp_open_orders (fun _ => 1)); [|unfold books; set_solver].
  destruct (decide (j = i)) as [->|Hne]; [congruence|]. destruct (is_available q) eqn:Hq; [done|]. by destruct (Hone j q Hne Hj Hq E).
Qed.

(** What a partial fill leaves of an order. *)
Record filled_from (b : Z) (ord ord' : Order) : Prop := {
  ff_direction : o_direction ord' = o_direction ord;
  ff_update : update_open_bids_and_asks ord' = update_open_bids_and_asks ord;
  ff_unfilled : unfilled ord' = unfilled ord - b;
  ff_auction : has_auction ord' = has_auction ord;
  ff_trigger : must_be_triggered ord' = must_be_triggered ord /\ triggered ord' = triggered ord;
  ff_market : o_market_type ord' = o_market_type ord /\ o_market_index ord' = o_market_index ord;
}.

Lemma order_after_fill_Ok o b q o' done :
  update_order_after_fill o b q = Ok (o', done) ->
  filled_from b o o' /\ done = (unfilled o' =? 0) /\ o_status o' = if done then OrderFilled else o_status o.
Proof.
  intros H. unfold update_order_after_fill in H. apply obind_Ok in H as (x & [-> _]%safe_u_Ok & H).
  apply obind_Ok in H as (y & _ & H). cbv zeta in H. apply obind_Ok in H as (z & ->%unfilled_Ok & [= <- <-]).
  match goal with |- context [unfilled ?w =? 0] => set (v := w) end.
  assert (unfilled v = unfilled o - b) as E by (unfold unfilled, v; cbn; lia).
  destruct (Z.eqb_spec (unfilled v) 0) as [Ez|Ez].
  - split_and!; [split; try reflexivity; [exact E|by split..]| |reflexivity].
    change (unfilled (v <| o_status := OrderFilled |>)) with (unfilled v). by rewrite Ez.
  - split_and!; [split; try reflexivity; [exact E|by split..]| |reflexivity]. symmetry. by apply Z.eqb_neq.
Qed.

Lemma decrease_fills p d b upd p' ord ord' :
  decrease_open_bids_and_asks p d b upd = Ok p' -> o_direction ord = d -> update_open_bids_and_asks ord = upd -> filled_from b ord ord' ->
  bid_of ord <= pp_open_bids p -> pp_open_asks p <= ask_of ord -> 0 <= unfilled ord' ->
  pp_market_index p' = pp_market_index p /\ pp_open_orders p' = pp_open_orders p
  /\ pp_open_bids p' = pp_open_bids p - bid_of ord + bid_of ord' /\ pp_open_asks p' = pp_open_asks p - ask_of ord + ask_of ord'.
Proof.
  intros H Hd Hu [Fd Fu Ff _ _ _] Hb Hk Hx. unfold bid_of, ask_of in *. rewrite Fd, Fu, Ff, Hd, Hu in *.
  unfold decrease_open_bids_and_asks in H. destruct upd; cbn [negb] in *; [|injection H as <-; split_and!; lia].
  apply obind_Ok in H as (x & [-> _]%cast_i_Ok & H).
  destruct d; apply obind_Ok in H as (y & [-> _]%safe_i_Ok & [= <-]); cbn; split_and!; lia.
Qed.

(** An order as a fill and, when nothing of it is left, its closing leave it. *)
Lemma filled_booked u n i mi b q u1 x u2 ord :
  orders_booked u -> u_orders u !! n = Some ord -> open_in mi ord = true -> holds u i mi ->
  (must_be_triggered ord = true -> triggered ord = true) -> b <= unfilled ord ->
  fill_order u n i b q = Ok (u1, x) -> close_filled_order u1 n i = Ok u2 -> orders_booked u2
  /\ exists ord2, u_orders u2 !! n = Some ord2 /\ filled_from b ord ord2 /\ (unfilled ord2 <> 0 -> is_open ord2 = true).
Proof.
  intros Hu Hn Ho Hh Ht Hb H1 H2. pose proof Hu as [Hbk Hs Hlen Hc Ha Hho Hha].
  destruct (holds_for _ _ _ _ _ Hu Hn Ho Hh) as (p & Hp & Hfor).
  destruct (booked_bounds _ _ _ _ _ _ _ Hbk Hs Hp Hfor Hn Ho) as [Hbid Hask].
  unfold fill_order in H1. apply obind_Ok in H1 as (o & [_ Hn']%idx_Ok & H1). rewrite Nat2Z.id in Hn'.
  assert (o = ord) as -> by congruence. apply obind_Ok in H1 as ([ord' fin] & (Hf & -> & Hst)%order_after_fill_Ok & H1).
  apply obind_Ok in H1 as (v & [-> Hlt]%update_order_Ok & H1). apply obind_Ok in H1 as (v & H1 & [= <- <-]).
  apply update_position_Ok in H1 as (p0 & p' & Hp0 & Hdec & ->). assert (p0 = p) as -> by (cbn in Hp0; congruence).
  pose proof Hf as [Fd Fu Ff Fa [Ft1 Ft2] [Fm Fi]].
  apply (decrease_fills _ _ _ _ _ ord ord') in Hdec as (D1 & D2 & D3 & D4); [|done..|lia].
  assert (is_open ord = true) as Hop by (unfold open_in in Ho; by destruct (is_open ord)).
  unfold close_filled_order in H2. apply obind_Ok in H2 as (o2 & [_ Ho2]%idx_Ok & H2). rewrite Nat2Z.id in Ho2. cbn in Ho2.
  rewrite list_lookup_insert_eq in Ho2 by done. injection Ho2 as <-. apply obind_Ok in H2 as (z & ->%unfilled_Ok & H2).
  assert (may_replace (u_perp_positions u) i p') as Hr1.
  { apply (may_replace_same _ _ p); [apply Hbk|done| |done]. unfold is_for in Hfor. destruct (is_available p); [by rewrite andb_false_r in Hfor|done]. }
  destruct (Z.eqb_spec (unfilled ord') 0) as [Hz|Hz].
  - cbv zeta in H2. apply obind_Ok in H2 as (u3 & [-> _]%update_order_Ok & H2).
    apply update_position_Ok in H2 as (q1 & p2 & Hq1 & Hp2 & ->). apply obind_Ok in Hp2 as (c & [-> _]%uchk_Ok & [= <-]).
    set (ord2 := ord' <| o_status := OrderFilled |>) in *.
    destruct (closed_counts u n ord ord2 Hu Hn Hop eq_refl) as (C1 & C2 & C3 & C4 & C5 & C6 & _). rewrite <- Fa in *.
    set (w := decrement_open_orders u (has_auction ord')) in *.
    change (u_perp_positions (u <| u_orders := ?l |>)) with (u_perp_positions u) in *.
    set (u0 := u <| u_orders := <[n := ord']> (u_orders u) |> <| u_perp_positions := <[i := p']> (u_perp_positions u) |>) in *.
    assert (decrement_open_orders u0 (has_auction ord')
            = w <| u_orders := <[n := ord']> (u_orders u) |> <| u_perp_positions := <[i := p']> (u_perp_positions u) |>) as Ew.
    { unfold w, u0, decrement_open_orders. by destruct (has_auction ord'). }
    rewrite Ew in *. clearbody w. cbn in Hq1. rewrite list_lookup_insert_eq in Hq1 by (by apply lookup_lt_Some in Hp). injection Hq1 as <-.
    cbn. rewrite !list_insert_insert_eq. split.
    2: { exists ord2. split_and!; [by apply list_lookup_insert_eq|by destruct Hf|intros E; by destruct E]. }
    split; cbn; try done; [| |by rewrite length_insert].
    + apply (booked_step _ _ _ p _ _ ord); [done..| |].
      * apply (may_replace_same _ _ p); [apply Hbk|done| |done]. unfold is_for in Hfor. destruct (is_available p); [by rewrite andb_false_r in Hfor|done].
      * intros k f g Hfg. rewrite (closed_share ord2) by done. rewrite (open_shares ord mi) by done.
        rewrite (moved_share (-1) ord p _ mi f g); [|split; [done|]|done|by apply is_for_index].
        -- destruct (mi =? k); lia.
        -- intros f' g' Hfg'. assert (bid_of ord' = 0 /\ ask_of ord' = 0) as [Z1 Z2]
             by (unfold bid_of, ask_of; rewrite Hz; by destruct (update_open_bids_and_asks _), (o_direction _)).
           each_book Hfg'; cbn; lia.
    + apply sound_insert; [done|]. split; done.
  - injection H2 as <-. assert (is_open ord' = true) as Hop' by (unfold is_open in *; by rewrite Hst).
    assert (open_in mi ord' = true) as Ho' by (unfold open_in in *; by rewrite Hop', Fm, Fi, Hop in *).
    assert (u_open_orders u = sum_z open_share (<[n := ord']> (u_orders u))) as C1.
    { rewrite (sum_z_insert _ _ n ord), Hc by done. unfold open_share. rewrite Hop, Hop'. lia. }
    assert (u_open_auctions u = sum_z auction_share (<[n := ord']> (u_orders u))) as C2.
    { rewrite (sum_z_insert _ _ n ord), Ha by done. unfold auction_share. rewrite Hop, Hop', Fa. lia. }
    split; [|exists ord'; split_and!; [by apply list_lookup_insert_eq|done|done]].
    split; cbn; try done; [| |by rewrite length_insert].
    + apply (booked_step _ _ _ p _ _ ord); [done..|]. intros k f g Hfg. rewrite !(open_shares _ mi) by done. unfold position_share.
      rewrite D1, (is_for_index _ _ Hfor). destruct (mi =? k); [|lia]. each_book Hfg; lia.
    + apply sound_insert; [done|]. split; [lia|]. intros _ Hm Htr. rewrite Ft1 in Hm. rewrite Ft2, Ht in Htr by done. done.
Qed.

(** ** A trade with the market maker *)

Lemma amm_update_frame {roots : Roots} b d m u i price m' u' r :
  update_position_with_base_asset_amount b d m u (Z.of_nat i) price = Ok (m', u', r) ->
  pm_market_index m' = pm_market_index m /\ u_orders u' = u_orders u
  /\ forall mi, orders_booked u -> holds u i mi -> orders_booked u' /\ holds u' i mi.
Proof.
  intros H. unfold update_position_with_base_asset_amount in H. apply obind_Ok in H as ([m1 [qs ss]] & H1 & H).
  apply obind_Ok in H as ([q' s'] & _ & H). apply obind_Ok in H as (delta & _ & H).
  apply obind_Ok in H as (p0 & Hp0 & H). apply obind_Ok in H as ([[p' m2] pnl] & H2 & H). apply obind_Ok in H as (l & Hl & H).
  apply obind_Ok in H as (w & _ & H). cbv zeta in H. apply obind_Ok in H as (w0 & _ & H). apply obind_Ok in H as (m3 & H3 & [= <- <- _]).
  assert (update_position_in m1 u i (fun p m => let! '(p, m, _) := update_position_and_market p m delta in Ok (p, m))
          = Ok (m2, u <| u_perp_positions := l |>)) as Hin.
  { unfold update_position_in. rewrite Hp0. cbn [obind]. rewrite H2. cbn [obind]. by rewrite Hl. }
  apply (update_position_in_Ok _ _ _ _ _ _ _ _ (fill_pays delta)) in Hin as (_ & _ & E3 & _ & E5 & _ & E7).
  split_and!; [|exact E3|exact E7]. transitivity (pm_market_index m2); [|transitivity (pm_market_index m1); [exact E5|]].
  - unfold update_spread_reserves in H3. apply obind_Ok in H3 as ([ab aq] & _ & H3).
    apply obind_Ok in H3 as ([bb bq] & _ & H3). destruct (_ =? _); by injection H3 as <-.
  - unfold swap_base_asset in H1. apply obind_Ok in H1 as ([[[nb nq] q0] s0] & _ & H1). by apply obind_Ok in H1 as (s1 & _ & [= <- _ _]).
Qed.

Lemma trade_with_amm_flows {roots : Roots} i mi t s ord b l fp s' q surplus :
  trade_with_amm t s ord i b l fp = Ok (s', q, surplus) ->
  exists db du dm, flows i mi s s' db du 0 0 dm.
Proof.
  intros H. unfold trade_with_amm in H. cbv zeta in H. apply obind_Ok in H as (w1 & _ & H). apply obind_Ok in H as (w2 & _ & H).
  apply obind_Ok in H as ([a w3] & _ & H). apply obind_Ok in H as ([[m u] [[q0 s0] z]] & (E1 & E2 & E3)%amm_update_frame & H).
  apply obind_Ok in H as (? & _ & [= <- <- <-]).
  exists (base_held u - base_held (fi_user s)), (quote_held u - quote_held (fi_user s)),
    (total_fee_minus_distributions (amm m) - total_fee_minus_distributions (amm (fi_market s))).
  split; cbn; try lia; try done. apply E3.
Qed.

Lemma charge_user_flows i mi s f s' : charge_user s i f = Ok s' -> exists du, flows i mi s s' 0 du 0 0 0.
Proof.
  intros H. unfold charge_user in H. cbv zeta in H. apply obind_Ok in H as ([m1 u1] & H1 & H). apply obind_Ok in H as ([m2 u2] & H2 & [= <-]).
  assert (exists d1, flows i mi s (s <| fi_market := m1 |> <| fi_user := u1 |>) 0 d1 0 0 0) as [d1 F1].
  { destruct (_ || _).
    - apply (flows_user i mi s m1 u1 0 (- (user_fee f + default 0 (builder_fee f)))) in H1; [by eexists|].
      intros p m p' m' G. apply obind_Ok in G as (x & [-> _]%safe_u_Ok & G).
      apply obind_Ok in G as (y & [-> _]%cast_i_Ok & G%both_pay). exact G.
    - injection H1 as <- <-. exists 0. by apply flows_refl. }
  set (s1 := s <| fi_market := m1 |> <| fi_user := u1 |>) in *.
  assert (exists d2, flows i mi s1 (s1 <| fi_market := m2 |> <| fi_user := u2 |>) 0 d2 0 0 0) as [d2 F2].
  { destruct (negb (maker_rebate f =? 0)).
    - apply (flows_user i mi s1 m2 u2 0 (maker_rebate f)) in H2; [by eexists|]. apply fee_pays. by intros y [-> _]%cast_i_Ok.
    - injection H2 as <- <-. exists 0. by apply flows_refl. }
  exists (d1 + d2). exact (flows_trans _ _ _ _ _ _ _ _ _ _ _ _ _ _ _ F1 F2).
Qed.

(** ** Sizes *)

Lemma standardize_le b step r : standardize_base_asset_amount b step = Ok r -> r <= b.
Proof.
  intros H. unfold standardize_base_asset_amount in H. apply obind_Ok in H as (x & [Hs ->]%safe_rem_Ok & [-> _]%safe_u_Ok).
  pose proof (Z.mod_pos_bound b (Z.abs step) ltac:(lia)). lia.
Qed.

Lemma unfilled_bounds o p x : get_base_asset_amount_unfilled o p = Ok x -> 0 <= x <= unfilled o.
Proof.
  intros H. unfold get_base_asset_amount_unfilled in H. apply obind_Ok in H as (y & [-> Hy]%safe_u_Ok & H).
  fold (unfilled o) in *. unfold in_u in Hy. destruct p as [p|]; [|injection H as <-; lia].
  destruct (negb _); [injection H as <-; lia|]. destruct (p =? 0); [injection H as <-; lia|].
  destruct (o_direction o); case_match; injection H as <-; lia.
Qed.

Lemma amm_size_le {roots : Roots} o m lp op e tier b lp' :
  0 <= unfilled o -> calculate_base_asset_amount_for_amm_to_fulfill o m lp op e tier = Ok (b, lp') -> b <= unfilled o.
Proof.
  intros Hu H. unfold calculate_base_asset_amount_for_amm_to_fulfill in H. apply obind_Ok in H as (l & _ & H).
  destruct (_ && _); [injection H as <- _; lia|]. apply obind_Ok in H as (w & _ & H). apply obind_Ok in H as (x & Hx & H).
  apply obind_Ok in H as (y & _ & [= <- _]). assert (x <= unfilled o); [|lia].
  unfold calculate_base_asset_amount_to_fill_up_to_limit_price in Hx. apply obind_Ok in Hx as (z & Hz%unfilled_bounds & Hx).
  apply obind_Ok in Hx as ([a d] & _ & Hx). destruct (_ || _); [injection Hx as <-; lia|]. apply standardize_le in Hx. lia.
Qed.

(** The market maker's share of a match is at most half of it. *)
Lemma jit_half m d mp op b tb mb l j :
  0 <= b -> calculate_amm_jit_liquidity m d mp op b tb mb l = Ok j -> 2 * j <= b.
Proof.
  intros Hb H. unfold calculate_amm_jit_liquidity in H. destruct (_ && _); [injection H as <-; lia|].
  destruct (amm_wants_to_jit_make _ _); [|injection H as <-; lia].
  unfold calculate_jit_base_asset_amount in H. apply obind_Ok in H as (x & Hx & H).
  assert (2 * x <= b) as Hle.
  { destruct op as [op|]; [|injection Hx as <-; lia]. unfold shrink_for_wash in Hx. apply obind_Ok in Hx as (base & _ & Hx).
    cbv zeta in Hx. apply obind_Ok in Hx as (wash & _ & Hx). pose proof (Z.div_mod b 2 ltac:(lia)). pose proof (Z.mod_pos_bound b 2 ltac:(lia)).
    destruct wash; [|injection Hx as <-; lia].
    apply obind_Ok in Hx as (y & [-> Hy]%safe_u_Ok & Hx). apply obind_Ok in Hx as (opp & [_ ->]%safe_udiv_Ok & Hx).
    apply obind_Ok in Hx as (a & _ & Hx). apply obind_Ok in Hx as (df & _ & Hx). apply obind_Ok in Hx as (z & [-> _]%safe_u_Ok & Hx).
    apply safe_udiv_Ok in Hx as [_ ->]. set (opp := _ / PERCENTAGE_PRECISION) in *.
    assert (0 <= opp) by (apply Z.div_pos; [unfold in_u in Hy; lia|done]).
    assert (0 <= usat 64 (opp - Z.abs df) <= Z.max opp 1) by (unfold usat; lia).
    transitivity (2 * (b / 2)); [|lia]. apply Z.mul_le_mono_nonneg_l; [lia|]. apply Z.div_le_upper_bound; [lia|].
    rewrite Z.mul_comm. apply Z.mul_le_mono_nonneg_r; [by apply Z.div_pos|lia]. }
  destruct (x =? 0); [injection H as <-; lia|]. apply obind_Ok in H as (im & _ & H). cbv zeta in H.
  destruct (_ =? 0); [injection H as <-; lia|]. apply obind_Ok in H as (c & _ & H%standardize_le). lia.
Qed.

(** ** Every account keeps its books *)

(** An open order of the market that may be filled. *)
Record fillable (mi : Z) (u : User) (n : nat) (ord : Order) : Prop := {
  fb_order : u_orders u !! n = Some ord;
  fb_open : open_in mi ord = true;
  fb_trigger : must_be_triggered ord = true -> triggered ord = true;
}.

Definition left_of (b : Z) (ord : Order) (u : User) (n : nat) : Prop :=
  exists ord', u_orders u !! n = Some ord' /\ filled_from b ord ord' /\ (unfilled ord' <> 0 -> is_open ord' = true).

Lemma fillable_left mi u n ord b u' : fillable mi u n ord -> left_of b ord u' n -> b < unfilled ord ->
  exists ord', fillable mi u' n ord' /\ filled_from b ord ord'.
Proof.
  intros [_ H2 H3] (ord' & H & Hf & Ho) Hb. pose proof Hf as [F1 F2 F3 F4 [F5 F6] [F7 F8]]. exists ord'. split; [|done].
  specialize (Ho ltac:(lia)). split; [done| |by rewrite F5, F6].
  unfold open_in in *. rewrite Ho, F7, F8. by destruct (is_open ord).
Qed.

Lemma nothing_left mi u n ord : fillable mi u n ord -> left_of 0 ord u n.
Proof.
  intros [H1 H2 _]. exists ord. split; [done|]. split; [split; try done; lia|]. intros _. unfold open_in in H2. by destruct (is_open ord).
Qed.

Lemma amm_fill_booked {roots : Roots} {root : FourthRoot} t s n maker referrer lp ob op s' maker' referrer' b q ord :
  orders_booked (fi_user s) -> fillable (pm_market_index (fi_market s)) (fi_user s) n ord ->
  (forall x, ob = Some x -> x <= unfilled ord) ->
  fulfill_perp_order_with_amm t s n maker referrer lp ob op = Ok (s', maker', referrer', (b, q)) ->
  orders_booked (fi_user s') /\ left_of b ord (fi_user s') n
  /\ (party_booked (fi_filler s).1 -> party_booked (fi_filler s').1)
  /\ (party_booked maker.1 -> party_booked maker'.1) /\ (party_booked referrer.1 -> party_booked referrer'.1)
  /\ pm_market_index (fi_market s') = pm_market_index (fi_market s) /\ (forall x, ob = Some x -> b = 0 \/ b = x).
Proof.
  intros Hu Hfb Hob H0. pose proof Hfb as [Hn Ho Ht]. set (mi := pm_market_index (fi_market s)) in *.
  unfold fulfill_perp_order_with_amm in H0. apply obind_Ok in H0 as (i & Hi & H0).
  pose proof (get_position_holds _ _ _ Hu Hi) as Hh. apply obind_Ok in H0 as (p & _ & H0).
  apply obind_Ok in H0 as (o & [_ Ho']%idx_Ok & H0). rewrite Nat2Z.id in Ho'. assert (o = ord) as -> by congruence.
  apply obind_Ok in H0 as ([[b0 lp'] fp] & Hb & H0). cbv zeta in H0.
  assert (b0 <= unfilled ord /\ forall x, ob = Some x -> b0 = x) as [Hle Hx].
  { unfold amm_fill_size in Hb. destruct ob as [x|]; [injection Hb as <- _ _; split; [by apply Hob|by intros ? [= <-]]|].
    split; [|done].
    apply obind_Ok in Hb as (tier & _ & Hb). apply obind_Ok in Hb as ([b1 l1] & Hb & [= <- _ _]).
    eapply amm_size_le; [|exact Hb]. apply (so_unfilled ord); [|unfold open_in in Ho; by destruct (is_open ord)].
    exact (Forall_lookup_1 _ _ _ _ (ob_sound _ Hu) Hn). }
  destruct (_ <? _); [injection H0 as <- <- <- <- _; split_and!; try done; [by eapply nothing_left|by left]|].
  apply obind_Ok in H0 as ([[s1 q1] su] & (a1 & a2 & a3 & F1)%(trade_with_amm_flows i mi) & H0).
  apply obind_Ok in H0 as ([[[s2 k2] r2] w] & ((a4 & F2 & _) & _ & _ & R2 & _ & _ & R5)%(rewards_of_fill_Ok i mi) & H0).
  apply obind_Ok in H0 as (f & _ & H0). apply obind_Ok in H0 as (s3 & F3%(accrue_builder_flows i mi) & H0).
  apply obind_Ok in H0 as (m4 & F4%(collect_fees_flows i mi) & H0). apply obind_Ok in H0 as (st4 & _ & H0).
  apply obind_Ok in H0 as ([s5 r5] & (a5 & a6 & F5 & _ & B5 & _)%(pay_referrer_flows i mi) & H0).
  apply obind_Ok in H0 as (s6 & (a7 & F6)%(charge_user_flows i mi) & H0). apply obind_Ok in H0 as (st6 & _ & H0).
  apply obind_Ok in H0 as ([s7 k7] & ((a8 & F7 & _) & B7)%(pay_filler_flows i mi) & H0).
  apply obind_Ok in H0 as ([u8 fin] & H8 & H0). apply obind_Ok in H0 as (e8 & _ & H0).
  apply obind_Ok in H0 as (s9 & (L1 & L2 & L3 & _ & _ & L6)%log_fill_Ok & H0).
  apply obind_Ok in H0 as (u9 & H9 & [= <- <- <- <- _]). cbn in L1, L3, L6. rewrite L1 in H9.
  assert (flows i mi (s3 <| fi_market := m4 |>) (s3 <| fi_market := m4 |> <| fi_user_stats := st4 |>) 0 0 0 0 0) as G4 by (by apply flows_refl).
  assert (flows i mi s6 (s6 <| fi_user_stats := st6 |>) 0 0 0 0 0) as G6 by (by apply flows_refl).
  pose proof (flows_trans _ _ _ _ _ _ _ _ _ _ _ _ _ _ _ F1 (flows_trans _ _ _ _ _ _ _ _ _ _ _ _ _ _ _ F2
    (flows_trans _ _ _ _ _ _ _ _ _ _ _ _ _ _ _ F3 (flows_trans _ _ _ _ _ _ _ _ _ _ _ _ _ _ _ F4
    (flows_trans _ _ _ _ _ _ _ _ _ _ _ _ _ _ _ G4 (flows_trans _ _ _ _ _ _ _ _ _ _ _ _ _ _ _ F5
    (flows_trans _ _ _ _ _ _ _ _ _ _ _ _ _ _ _ F6 (flows_trans _ _ _ _ _ _ _ _ _ _ _ _ _ _ _ G6 F7)))))))) as [_ _ _ _ _ E6 E7 E8 _ E10].
  destruct (E8 Hu Hh) as [Hu7 Hh7]. rewrite <- E6 in Hn.
  destruct (filled_booked _ _ _ _ _ _ _ _ _ _ Hu7 Hn Ho Hh7 Ht Hle H8 H9) as [Hu9 Hleft].
  split_and!; [exact Hu9|exact Hleft|cbn; rewrite L3; exact E10|auto|auto|cbn; lia|auto].
Qed.

Lemma match_orders_booked {root : FourthRoot} t s n k referrer tp mp mb op me s' k' referrer' b q ko to mi :
  orders_booked (fi_user s) -> orders_booked (mk_user k) ->
  fillable mi (fi_user s) n to -> fillable mi (mk_user k) (mk_order_index k) ko -> mb <= unfilled ko ->
  match_orders t s n k referrer tp mp mb op me = Ok (s', k', referrer', (b, q)) ->
  orders_booked (fi_user s') /\ orders_booked (mk_user k') /\ left_of b to (fi_user s') n /\ left_of b ko (mk_user k') (mk_order_index k')
  /\ (party_booked (fi_filler s).1 -> party_booked (fi_filler s').1) /\ (party_booked referrer.1 -> party_booked referrer'.1)
  /\ b <= unfilled to.
Proof.
  intros Hu Hk [Hto Hot Htt] [Hko Hok Htk] Hmb H0.
  destruct (match_orders_Ok _ _ _ _ _ _ _ _ _ _ _ _ _ _ _ _ _ Hko Hto H0) as (i & j & s1 & k1 & du & df & dr & de & dm & dk & M).
  destruct M as [Hi Hj [_ _ _ _ _ F6 _ F8 _ F10] [_ _ G3 G4] _ Hr _ (p & x & Hx%unfilled_bounds & Hb) [I1 I2]
    (w & f & ex & (_ & u1 & y & u2 & z & A1 & A2 & A3 & A4 & A5)%fill_both_Ok)].
  assert (o_market_index to = mi /\ o_market_index ko = mi) as [Et Ek].
  { unfold open_in in *. rewrite !andb_true_iff, Z.eqb_eq in *. tauto. }
  rewrite Et, Ek in *. destruct (F8 Hu (get_position_holds _ _ _ Hu Hi)) as [Hu1 Hh1].
  destruct (G4 Hk (get_position_holds _ _ _ Hk Hj)) as [Hk1 Hl1]. rewrite <- F6 in Hto. rewrite <- G3, <- I1 in Hko.
  assert (b <= unfilled to /\ b <= unfilled ko) as [Bt Bk] by lia.
  destruct (filled_booked _ _ _ _ _ _ _ _ _ _ Hu1 Hto Hot Hh1 Htt Bt A1 A2) as [Hu2 L1].
  destruct (filled_booked _ _ _ _ _ _ _ _ _ _ Hk1 Hko Hok Hl1 Htk Bk A3 A4) as [Hk2 L2].
  rewrite I2, <- I1. split_and!; try done. by rewrite A5.
Qed.

Lemma left_of_trans b b' ord ord1 n u : filled_from b ord ord1 -> left_of b' ord1 u n ->
  left_of (b + b') ord u n.
Proof.
  intros [A1 A2 A3 A4 [A5 A6] [A7 A8]] (o2 & H1 & [B1 B2 B3 B4 [B5 B6] [B7 B8]] & H3). exists o2. split_and!; [done| |done].
  split; try congruence; [lia|split; congruence..].
Qed.

(** The accounts a match works on all have exact books. *)
Record all_booked (s : FillState) (k : MakerSide) (referrer : Party) : Prop := {
  al_taker : orders_booked (fi_user s);
  al_maker : orders_booked (mk_user k);
  al_filler : party_booked (fi_filler s).1;
  al_referrer : party_booked referrer.1;
}.

(** C32: A match, with the market maker's share beside it, keeps the books of every
    account exact: of the taker, the maker, the filler and the referrer, the counts
    of open orders and auctions and the open bids and asks of each position are
    those of the open orders.  What is reported as filled is what the two orders
    have lost, never more than they still wanted, and an order with something left
    stays open. *)
Theorem fills_keep_books {roots : Roots} {root : FourthRoot} t s n k referrer lp mp s' k' referrer' total quote mb ko to :
  all_booked s k referrer ->
  fillable (pm_market_index (fi_market s)) (fi_user s) n to ->
  fillable (o_market_index ko) (mk_user k) (mk_order_index k) ko ->
  fulfill_perp_order_with_match t s n k referrer lp mp = Ok (s', k', referrer', (total, quote, mb)) ->
  all_booked s' k' referrer'
  /\ left_of total to (fi_user s') n /\ left_of mb ko (mk_user k') (mk_order_index k') /\ total <= unfilled to.
Proof.
  intros [B1 B2 B3 B4] Hto Hko H. pose proof Hto as [Hn Hot _]. pose proof Hko as [Hkn Hok _].
  assert (0 <= unfilled to) as Hpos.
  { apply (so_unfilled to); [|unfold open_in in Hot; by destruct (is_open to)].
    exact (Forall_lookup_1 _ _ _ _ (ob_sound _ B1) Hn). }
  assert (all_booked s k referrer /\ left_of 0 to (fi_user s) n /\ left_of 0 ko (mk_user k) (mk_order_index k) /\ 0 <= unfilled to) as Hnone
    by (split_and!; [by split|by eapply nothing_left..|done]).
  unfold fulfill_perp_order_with_match in H.
  apply obind_Ok in H as (ko' & [_ Hko']%idx_Ok & H). apply obind_Ok in H as (to' & [_ Hto']%idx_Ok & H).
  rewrite Nat2Z.id in Hko', Hto'. assert (ko' = ko) as -> by congruence. assert (to' = to) as -> by congruence.
  destruct (are_orders_same_market_but_different_sides ko to) eqn:Hsame; [|by injection H as <- <- <- <- _ <-]. cbv zeta in H. cbn [negb] in H.
  apply obind_Ok in H as ([od o] & _ & H). apply obind_Ok in H as (tp & _ & H). apply obind_Ok in H as (p & _ & H).
  apply obind_Ok in H as (tb & Htb%unfilled_bounds & H). apply obind_Ok in H as (pk & _ & H). apply obind_Ok in H as (mb' & Hmb%unfilled_bounds & H).
  destruct (do_orders_cross _ _ _); [|injection H as <- <- <- <- _ <-; split_and!; [by split|by eapply nothing_left..|done]].
  cbn [negb] in H. apply obind_Ok in H as ([b0 q0] & Hb0 & H).
  assert (b0 = Z.min mb' tb) as ->.
  { unfold calculate_fill_for_matched_orders in Hb0. cbv zeta in Hb0. by apply obind_Ok in Hb0 as (x & _ & [= <- _]). }
  destruct (Z.eqb_spec (Z.min mb' tb) 0) as [_|Hnz]; [injection H as <- <- <- <- _ <-; split_and!; [by split|by eapply nothing_left..|done]|].
  apply obind_Ok in H as ([a x] & _ & H). apply obind_Ok in H as (hl & _ & H). apply obind_Ok in H as (jit & Hj & H).
  apply jit_half in Hj; [|lia]. apply obind_Ok in H as ([s1 [ab aq]] & H1 & H).
  apply obind_Ok in H as ([[[s2 k2] r2] [b q]] & H2 & H). apply obind_Ok in H as (w & [-> _]%safe_u_Ok & H).
  apply obind_Ok in H as (w' & _ & [= <- <- <- <- _ <-]).
  assert (orders_booked (fi_user s1) /\ left_of ab to (fi_user s1) n /\ ab < unfilled to /\ party_booked (fi_filler s1).1) as (C1 & C2 & C3 & C4).
  { destruct (0 <? jit).
    - apply obind_Ok in H1 as ([[[s3 x1] x2] [yb yq]] & H1 & [= <- <- <-]).
      apply (amm_fill_booked _ _ _ _ _ _ _ _ _ _ _ _ _ to) in H1 as (D1 & D2 & D3 & _ & _ & _ & D7); try done; [|intros z [= <-]; lia].
      specialize (D7 _ eq_refl).
      split_and!; [done|done|lia|by apply D3].
    - injection H1 as <- <- <-. split_and!; [done|by eapply nothing_left|lia|done]. }
  destruct (fillable_left _ _ _ _ _ _ Hto C2 C3) as (to1 & Hto1 & Hf1).
  assert (o_market_index ko = pm_market_index (fi_market s)) as Ei.
  { unfold open_in in Hot. unfold are_orders_same_market_but_different_sides in Hsame. rewrite !andb_true_iff, !Z.eqb_eq in *. intuition congruence. }
  rewrite Ei in Hko.
  apply (match_orders_booked _ _ _ _ _ _ _ _ _ _ _ _ _ _ _ ko to1 (pm_market_index (fi_market s))) in H2
    as (G1 & G2 & G3 & G4 & G5 & G6 & G7); try done; [|lia].
  split_and!; [split; auto|eapply left_of_trans; [exact Hf1|exact G3]|done|]. destruct Hf1 as [_ _ X1 _ _ _]. lia.
Qed.

(** * Example: the fill of the order of [DriftFillFlows] *)

Lemma fills_keep_books_witness :
  fill_result.2 = (2500000000, 250250000, 2000000000)
  /\ all_booked fill_result.1.1.1 fill_result.1.1.2 fill_result.1.2
  /\ u_open_orders (fi_user fill_result.1.1.1) = 1 /\ u_open_orders (mk_user fill_result.1.1.2) = 0.
Proof.
  assert (fill_result.2 = (2500000000, 250250000, 2000000000)) as E by (vm_compute; reflexivity).
  split; [exact E|]. split; [|split; vm_compute; reflexivity].
  pose proof fill_succeeds as H. destruct fill_result as [[[s k] r] [[a b] c]]. cbn [fst snd] in *.
  refine (proj1 (fills_keep_books _ _ _ _ _ _ _ s k r a b c (order_at seller 0) (order_at buyer 0) _ _ _ H)).
  - split; [|..|intros v [= <-]; exact trader_booked|intros v [= <-]; exact trader_booked].
    + apply placed_booked; [vm_compute; reflexivity|exact trader_booked].
    + apply placed_booked; [vm_compute; reflexivity|exact trader_booked].
  - split; vm_compute; done.
  - split; vm_compute; done.
Defined.

